(* ===== verification/_CoqProject ===== *)
-Q . S2P
Prelude.v
Dequeue.v
FxHashMap.v
RustVec.v
Disk.v
FsTypes.v
DirEntry.v
BootSector.v
Fat32.v
FatTable.v
FatDemo.v
FatChain.v
FatDir.v
FatFile.v
FatCreate.v
FileCache.v
FileCacheOk.v
FileCacheIo.v
Sirius.v
SiriusDemo.v
FrameAlloc.v
Tasks.v
RunQueue.v
RunQueueOk.v
RunQueueSpec.v
Scheduler.v
SchedulerOk.v
SchedulerSteps.v
SchedulerLeave.v
SchedulerRun.v
Wait.v
Regions.v
RegionsSpec.v
UserMem.v
UserMemSpec.v
ProcessMem.v
AddressSpace.v
AddressSpaceSpec.v
ProcessMemSpec.v
FlatTables.v
ProcessLife.v
CircularBuffer.v
StackGuard.v
StackGuardSpec.v
Elf.v
ElfLoad.v
Events.v
Processes.v
ProcessesSpec.v
Surface.v
SurfaceSpec.v
Compositor.v
CompositorSpec.v
CompositorFocus.v
F32.v
Shading.v
Raster.v
RasterSpec.v
RasterRect.v
UserGfx.v
Interrupts.v
Machine.v
Contexts.v
ContextsSpec.v
Switching.v
CpuInfo.v
Syscalls.v
SyscallsSpec.v
SyscallsRun.v
UserCalls.v
UserEntry.v
UserCallsSpec.v
Ranges.v
UserHeap.v
UserHeapSpec.v
KernelHeap.v
Scrollback.v
Terminal.v
TerminalSpec.v
Odys.v
