(* ===== verification/Prelude.v ===== *)
(** * MofuOS: a verification library of the kernel and its user runtime

    MofuOS is an x86-64 kernel in Rust (src/kernel) with user programs in Rust
    (src/user/rustspace).  This library translates its logic into executable definitions and
    proves what makes each part correct.  Paths below are relative to src/kernel/src unless
    they start with user/.

    ** How the program fits together

    A program runs in a process: an address space, a task slot that the per-core schedulers
    run, open files and windows.  It enters the kernel by a system call
    (process/syscall.rs), which works on four parts: the process manager with the memory of
    the processes and the schedulers below it; the compositor with windows and input; the
    path-level file system (Sirius) over a write-back file cache over the FAT32 driver over a
    disk; and the wait queues.  Interrupts drive the clock of the schedulers and feed the
    input ring.  Between all of them and the processor lies a little assembly: the stubs of
    interrupts and system calls and the switch of contexts.  Frames come from the frame
    allocator; data structures of the kernel's own serve everywhere.  Programs draw into the
    buffers of their windows, which the compositor puts on the screen, with a software renderer
    of triangles that the kernel has as well.

    ** The files, in the order in which they build on each other

    - Prelude.v: outcomes and the state monad, machine integers, little-endian words, slices,
      [runs] (a program against an abstract state) and [preserves] (what a computation keeps),
      the shared tactics.
    - Data structures (data_structures/): Dequeue.v, FxHashMap.v, RustVec.v; CircularBuffer.v
      needs the memory of processes and comes after it.
    - Disks (io/): Disk.v, with the class [DiskDevice], its laws and two devices.
    - The file system (filesystem/): FsTypes.v (strings, nodes, the driver trait), DirEntry.v and
      BootSector.v (records), Fat32.v (the driver), FatTable.v, FatChain.v, FatDir.v, FatFile.v,
      FatCreate.v (what it does), FileCache.v, FileCacheOk.v, FileCacheIo.v (the cache), Sirius.v
      (paths, the cached driver); FatDemo.v and SiriusDemo.v run them on small
      volumes.
    - Frames (memory/memory.rs): FrameAlloc.v.
    - Scheduling (process/task.rs, scheduler.rs, wait.rs): Tasks.v, RunQueue.v with RunQueueOk.v
      and RunQueueSpec.v, Scheduler.v with SchedulerOk.v, SchedulerSteps.v, SchedulerLeave.v and
      SchedulerRun.v, Wait.v.
    - Memory of processes (process/process_mem.rs, memory/usermem.rs): Regions.v, RegionsSpec.v,
      UserMem.v, UserMemSpec.v, ProcessMem.v, AddressSpace.v, AddressSpaceSpec.v,
      ProcessMemSpec.v, FlatTables.v (an instance of the tables), ProcessLife.v.
    - Guard pages (stack_guard.rs, gdt.rs): StackGuard.v, StackGuardSpec.v.
    - Programs (process/elf_loader.rs, process.rs, process_manager.rs, core_pool.rs): Elf.v,
      ElfLoad.v, Processes.v, ProcessesSpec.v.
    - Input and graphics (events/, graphics/): Events.v, Surface.v, SurfaceSpec.v, Compositor.v,
      CompositorSpec.v, CompositorFocus.v.
    - The renderer (graphics/renderer.rs, pipeline.rs, resources.rs, shaders.rs, transform.rs and
      the float colours of color.rs): F32.v (binary32 and the floats that are exact), Shading.v
      (colours, textures, matrices, shaders), Raster.v (the rasterizers and draw calls),
      RasterSpec.v (pixel by pixel, with depth), RasterRect.v (rectangles); UserGfx.v is the
      surface and the renderer of programs (user/rustspace/src/gfx).
    - Interrupts (interrupts.rs): Interrupts.v.
    - Assembly (trap.rs, process/syscall.rs, scheduler.rs, task.rs): Machine.v (registers,
      segments, memory and the instructions used), Contexts.v (the naked functions),
      ContextsSpec.v, Switching.v (all cores and stacks in one memory).
    - System calls (process/syscall.rs, util/cpuinfo.rs): CpuInfo.v, Syscalls.v, SyscallsSpec.v,
      SyscallsRun.v; from the side of programs (user/rustspace/src/lib.rs) UserCalls.v,
      UserEntry.v and UserCallsSpec.v.
    - Heaps: Ranges.v, UserHeap.v, UserHeapSpec.v (user/rustspace/src/lib.rs), KernelHeap.v
      (memory/allocator.rs).
    - The user terminal (user/rustspace/src/terminal): Scrollback.v, Terminal.v, TerminalSpec.v.
    - A program: the file browser (user/rustspace/src/bin/odys.rs), Odys.v.

    A definition has the name of the function or type it translates; the state it runs on is
    named in the comment at the top of its file.

    ** How the code is translated

    - An outcome is [Ok], [Err] (the error of a Rust [Result]), [Panic] or [OutOfFuel].
      [Panic] is a failed assertion, debug assertions included, an index out of range, and
      arithmetic that leaves its width, as in the default build, which checks for it.  In
      kernel code that touches user memory it is also the page fault, whose handler halts the
      core.  Where a whole component cannot fail otherwise, [option] plays the part of [Panic].
    - Integers are [Z]; where Rust wraps, [wrap] is written out; bytes are integers below 256.
    - Mutable state is passed explicitly, in the monad [stM]; an error keeps the state reached.
    - Loops that are not structural take fuel.  Each file says how much its operations pass:
      the number of table slots for a probe, of clusters of the volume for a chain, of task
      slots for a queue, of blocks or entries for a walk, two rounds for the loops of the user
      heap.  The theorems show that the result is never [OutOfFuel].
    - Memory whose layout matters is memory: the disk is a byte array, user memory is reached
      through page tables, the terminal's store is a ring of cells, directory entries and the
      table of the volume are bytes.  Lists that the code threads through its nodes (run queues,
      free lists) are followed node by node where the nodes are shared state (RunQueue.v), and
      are plain lists in the two heaps, where nothing else reaches the nodes.
    - Locks: a section under a lock is one step.  Where the code interleaves, the steps are
      those between two accesses of shared state: the event ring (Events.v) is a step relation
      over single atomic accesses of one writer and one reader, the schedulers
      (SchedulerRun.v) one over the operations of four cores, and the contexts (Switching.v) one
      over the switches of all cores.  Elsewhere operations run alone.
    - Assembly is a list of instructions of Machine.v, run on registers and on memory by words;
      what it calls is a parameter that keeps to the calling convention.
    - [f32] is binary32 with rounding to nearest, by the Standard Library's [SpecFloat]; a vector
      of four is four of them.  The mathematical functions of the micromath crate are a class.
    - Code that is not in the repository is a class or a parameter: the x86_64 crate's addresses
      and page tables ([VirtAddrApi], [PageMapper]), the ELF parser, the keyboard decoder, the
      [linked_list_allocator] crate ([FallbackHeap]), the port operations of the disk, micromath
      ([MathFns]), the text of embedded_graphics ([TextDraw]).  Its laws
      say what its documentation promises, and every law has an instance on which the theorems
      are applied to concrete states.
    - Interfaces of the program itself are classes as well, with the theorems of the client
      proved against the laws and the laws proved of the implementations: block devices, file
      system drivers, the heap system call.

    ** What the theorems show

    - The file system: what is written through a descriptor, to a cached file with room to grow,
      is read back; reads and writes of a file are those of its byte string across clusters;
      files created in the root are found, deleted ones gone, nothing else changes; chains are
      freed exactly; the cache never loses dirty data on eviction and flushing.
    - Scheduling: in every interleaving of the operations of the cores no assertion fails, no
      task runs twice and none is lost, as long as priorities have a queue, no task blocks with
      an old entry among the sleepers, and a core takes a task back before another one finds
      it dead ([enabled] in SchedulerRun.v); the run queues are priority queues and take turns;
      the timer asks a core that is shared to reschedule before the time slice is over; a
      sleeper is woken by its queue.
    - Memory: every frame has one owner and comes back; regions and page tables agree; a loaded
      program reads its image; address spaces are freed once; the two views of a circular buffer
      are the same memory; guard pages disappear and nothing else does; neither heap gives a byte
      out twice.
    - Processes and system calls: what a call may write, who may end whom, what is freed when.
    - Contexts: a task that is switched out finds its registers, its stack and its FPU image as
      it left them, on whatever core it goes on and whatever ran in between; interrupted code
      goes on unchanged; a system call takes number and arguments across and brings the result
      back; what a program writes to a file through the wrappers it reads back through them.
    - Windows: the table of windows, what is drawn, which window is on top and gets the input,
      the event ring; the terminal shows the text it was given; the browser, while it shows a
      directory, draws the line of the selected entry.
    - Rendering: a triangle touches each pixel it covers once and nothing outside of its target;
      the depth buffer keeps the nearest fragment of a draw call; rectangles on whole
      coordinates are exact; programs draw the same pixels as the kernel.
    - Where the code does not do what it means to, the theorem states what it does; such places
      are named in the comments of the theorems and lemmas.  The conditions of a theorem are in
      its comment; where they leave out something the code can reach, an example or a theorem
      beside it shows what happens there: [stray_sleeper_panics], [priority_eight_panics] and
      [reap_race_frees_running_slot] (SchedulerRun.v), [stale_core_switches_other_task] and
      [stale_core_panics] (Wait.v), [grow_corrupts] (FileCacheIo.v), [lowercase_duplicates]
      (FatCreate.v), [rollback_unmaps_earlier_segment] (ProcessLife.v), [bss_becomes_file_data]
      (Elf.v), [tombstones_exhaust] (FxHashMap.v), [wide_alignment_ignored] (UserHeapSpec.v),
      [compose_overruns] (SurfaceSpec.v).

    ** What is not modelled

    - Code that drives hardware: descriptor tables, the local and the I/O APIC, calibration of
      the clock, the serial port, the boot sequence and the start of the other cores, and the
      exception handlers, which print and halt.  The effects of these parts on the state above
      are parameters (the time, the executing core, stack tops, boot values).
    - The mapping of the kernel heap and of ACPI tables at boot, through the same crate calls as
      the memory of processes.
    - The drawing of text and shapes by embedded_graphics; conversions between bytes and floats.
    - User programs other than the browser, which demonstrate and stress the system
      (user/rustspace/src/bin, programs/), and tests (bin/, tests_exp/); the build tool (xtask);
      files of the user library that repeat a file of the kernel (the hash map, and color.rs,
      resources.rs, shaders.rs and transform.rs of gfx).
    - Weak memory: atomics are sequentially consistent. *)

From Stdlib Require Import ZArith Lia Sorted.
From stdpp Require Import base tactics list numbers.

Open Scope Z_scope.

(** ** Outcomes of Rust code *)

(** The outcome of a fallible Rust function: a value, an error of its [Result]
    type, a panic (a failed [assert!], a failed [debug_assert!], an index out of
    range, an overflow of the checked arithmetic of the default build), or the
    fuel of the model's loops running out. *)
Inductive result (E A : Type) : Type :=
  | Ok (a : A)
  | Err (e : E)
  | Panic
  | OutOfFuel.
Arguments Ok {E A} a.
Arguments Err {E A} e.
Arguments Panic {E A}.
Arguments OutOfFuel {E A}.

Definition rbind {E A B} (c : result E A) (k : A -> result E B) : result E B :=
  match c with
  | Ok a => k a
  | Err e => Err e
  | Panic => Panic
  | OutOfFuel => OutOfFuel
  end.

(** Stateful fallible code: the state survives an error, as it does in Rust. *)
Definition stM (S E A : Type) : Type := S -> result E A * S.

Definition sret {S E A} (a : A) : stM S E A := fun s => (Ok a, s).
Definition serr {S E A} (e : E) : stM S E A := fun s => (Err e, s).
Definition spanic {S E A} : stM S E A := fun s => (Panic, s).
Definition sfuel {S E A} : stM S E A := fun s => (OutOfFuel, s).

Definition sbind {S E A B} (c : stM S E A) (k : A -> stM S E B) : stM S E B :=
  fun s =>
    match c s with
    | (Ok a, s') => k a s'
    | (Err e, s') => (Err e, s')
    | (Panic, s') => (Panic, s')
    | (OutOfFuel, s') => (OutOfFuel, s')
    end.

(** [assert!(b)] *)
Definition sassert {S E} (b : bool) : stM S E unit :=
  if b then sret tt else spanic.

(** [?] on a [Result] computed without the state. *)
Definition slift {S E A} (c : result E A) : stM S E A := fun s => (c, s).

Declare Scope rust_scope.
Delimit Scope rust_scope with rust.
Notation "'let!' x ':=' c 'in' k" := (sbind c (fun x => k))
  (at level 10, x pattern, c at level 100, k at level 200) : rust_scope.
Notation "c ';;;' k" := (sbind c (fun _ => k))
  (at level 100, k at level 200, right associativity) : rust_scope.
Notation "'let?' x ':=' c 'in' k" := (rbind c (fun x => k))
  (at level 10, x pattern, c at level 100, k at level 200) : rust_scope.

Lemma sbind_ok {S E A B} (c : stM S E A) (k : A -> stM S E B) s a s' :
  c s = (Ok a, s') -> sbind c k s = k a s'.
Proof. intros H. unfold sbind. by rewrite H. Qed.

Lemma sbind_inv_ok {S E A B} (c : stM S E A) (k : A -> stM S E B) s b s'' :
  sbind c k s = (Ok b, s'') ->
  exists a s', c s = (Ok a, s') /\ k a s' = (Ok b, s'').
Proof.
  unfold sbind. destruct (c s) as [[a|e| |] s']; intros H; try discriminate.
  eauto.
Qed.

(** ** Machine integers *)

Definition U8_MAX : Z := 2 ^ 8 - 1.
Definition U16_MAX : Z := 2 ^ 16 - 1.
Definition U32_MAX : Z := 2 ^ 32 - 1.
Definition U64_MAX : Z := 2 ^ 64 - 1.

(** [wrap w x]: the value of the w-bit unsigned integer a wrapping operation or an
    [as] cast leaves of [x]. *)
Definition wrap (w x : Z) : Z := x mod 2 ^ w.

(** [in_width w x]: [x] is the value of a w-bit unsigned integer. *)
Definition in_width (w x : Z) : Prop := 0 <= x < 2 ^ w.

Definition saturating_add (w x y : Z) : Z := Z.min (x + y) (2 ^ w - 1).

(** [usize] and [u64] arithmetic: checked, as the default build does it, and saturating. *)
Definition uadd {E} (a b : Z) : result E Z := if a + b <? 2 ^ 64 then Ok (a + b) else Panic.
Definition usub {E} (a b : Z) : result E Z := if b <=? a then Ok (a - b) else Panic.
Definition saturating_mul (w a b : Z) : Z := Z.min (a * b) (2 ^ w - 1).
Definition saturating_sub (a b : Z) : Z := Z.max (a - b) 0.

Lemma land_mask (x k : Z) : 0 <= k -> Z.land x (2 ^ k - 1) = x mod 2 ^ k.
Proof.
  intros Hk. rewrite <- Z.land_ones by lia. f_equal. rewrite Z.ones_equiv. lia.
Qed.

Lemma in_width_wrap (w x : Z) : 0 <= w -> in_width w (wrap w x).
Proof. intros. unfold in_width, wrap. apply Z.mod_pos_bound. lia. Qed.

Lemma wrap_small (w x : Z) : in_width w x -> wrap w x = x.
Proof. intros. unfold wrap. by apply Z.mod_small. Qed.

(** [usize::next_power_of_two] *)
Definition next_power_of_two (n : Z) : Z := if n <=? 1 then 1 else 2 ^ Z.log2_up n.

(** [usize::is_power_of_two] *)
Definition is_power_of_two (n : Z) : bool := (0 <? n) && (2 ^ Z.log2 n =? n).

Definition pow2 (n : Z) : Prop := exists k, 0 <= k /\ n = 2 ^ k.

Lemma pow2_pos n : pow2 n -> 0 < n.
Proof. intros (k & ? & ->). lia. Qed.

Lemma pow2_mask n x : pow2 n -> Z.land x (n - 1) = x mod n.
Proof. intros (k & ? & ->). by apply land_mask. Qed.

Lemma pow2_double n : pow2 n -> pow2 (n * 2).
Proof. intros (k & ? & ->). exists (k + 1). split; [lia|]. rewrite Z.pow_add_r; lia. Qed.

Lemma pow2_next n : pow2 (next_power_of_two n).
Proof.
  unfold next_power_of_two. destruct (Z.leb_spec n 1).
  - exists 0. lia.
  - exists (Z.log2_up n). split; [apply Z.log2_up_nonneg | done].
Qed.

Lemma next_power_of_two_ge n : n <= next_power_of_two n.
Proof.
  unfold next_power_of_two. destruct (Z.leb_spec n 1); [lia|].
  destruct (Z.log2_up_spec n); lia.
Qed.

Lemma is_power_of_two_spec n : is_power_of_two n = true <-> pow2 n.
Proof.
  unfold is_power_of_two. rewrite andb_true_iff, Z.ltb_lt, Z.eqb_eq. split.
  - intros [? Hn]. exists (Z.log2 n). split; [apply Z.log2_nonneg | done].
  - intros (k & ? & ->). rewrite Z.log2_pow2 by lia. split; lia.
Qed.

Lemma pow2_divide n w : 0 <= w -> pow2 n -> n <= 2 ^ w -> (n | 2 ^ w).
Proof.
  intros ? (k & ? & ->) Hle. apply Z.pow_le_mono_r_iff in Hle; [|lia..].
  exists (2 ^ (w - k)). rewrite <- Z.pow_add_r by lia. f_equal. lia.
Qed.

(** Masking an index that wrapped at the machine width is masking the index. *)
Lemma wrap_mod n w x : 0 <= w -> pow2 n -> n <= 2 ^ w -> wrap w x mod n = x mod n.
Proof.
  intros. unfold wrap. apply Z.mod_mod_divide. by apply pow2_divide.
Qed.

(** Two offsets below the modulus reach the same ring position only when equal. *)
Lemma ring_inj n a i j :
  0 < n -> 0 <= i < n -> 0 <= j < n -> (a + i) mod n = (a + j) mod n -> i = j.
Proof.
  intros ? Hi Hj Heq.
  assert (Hz : (i - j) mod n = 0).
  { replace (i - j) with ((a + i) - (a + j)) by lia.
    rewrite Zminus_mod, Heq, Z.sub_diag. apply Z.mod_0_l. lia. }
  apply Z.mod_divide in Hz as [q Hq]; [|lia].
  assert (q = 0) by nia. lia.
Qed.

Lemma mod_bound x n : 0 < n -> 0 <= x mod n < n.
Proof. intros. by apply Z.mod_pos_bound. Qed.

(** Or-ing a value below [2^n] into the low bits of a multiple of [2^n] adds it. *)
Lemma lor_low a b n : 0 <= n -> 0 <= b < 2 ^ n -> Z.lor (a * 2 ^ n) b = a * 2 ^ n + b.
Proof.
  intros Hn Hb. rewrite <- Z.add_lor_land.
  replace (Z.land (a * 2 ^ n) b) with 0; [lia|]. symmetry.
  destruct (decide (b = 0)) as [->|]; [apply Z.land_0_r|].
  apply Z.bits_inj'. intros i Hi. rewrite Z.land_spec, Z.bits_0.
  destruct (Z.lt_ge_cases i n).
  - by rewrite Z.mul_pow2_bits_low.
  - rewrite (Z.bits_above_log2 b), andb_false_r; [done|lia|].
    apply Z.log2_lt_pow2; [lia|]. eapply Z.lt_le_trans; [apply Hb|].
    by apply Z.pow_le_mono_r; lia.
Qed.

(** The length of a list as an integer. *)
Abbreviation zlen l := (Z.of_nat (length l)).

(** The high bits of a word, as a multiple. *)
Lemma land_high x k n : 0 <= k -> 0 <= n ->
  Z.land x ((2 ^ k - 1) * 2 ^ n) = ((x / 2 ^ n) mod 2 ^ k) * 2 ^ n.
Proof.
  intros. rewrite <- land_mask, <- Z.shiftr_div_pow2, <- !Z.shiftl_mul_pow2 by lia.
  apply Z.bits_inj'. intros i Hi. rewrite Z.land_spec, !Z.shiftl_spec, Z.land_spec by lia.
  destruct (Z.lt_ge_cases i n).
  - rewrite !(Z.testbit_neg_r _ (i - n)) by lia. by rewrite andb_false_r.
  - rewrite Z.shiftr_spec by lia. do 2 f_equal. lia.
Qed.

(** ** Sub-slices of buffers

    [slice l off n] is [&l[off..off+n]]; [splice l off new] is the buffer after
    [l[off..off+new.len()].copy_from_slice(new)]. Both are only used in range. *)
Definition slice {A} (l : list A) (off n : nat) : list A := take n (drop off l).

Definition splice {A} (l : list A) (off : nat) (new : list A) : list A :=
  take off l ++ new ++ drop (off + length new) l.

Section slices.
Context {A : Type}.
Implicit Types l new : list A.

Lemma length_slice l off n : (off + n <= length l)%nat -> length (slice l off n) = n.
Proof. intros. unfold slice. rewrite length_take, length_drop. lia. Qed.

Lemma length_splice l off new :
  (off + length new <= length l)%nat -> length (splice l off new) = length l.
Proof.
  intros. unfold splice. rewrite !length_app, length_take, length_drop. lia.
Qed.

Lemma lookup_slice l off n i :
  (i < n)%nat -> slice l off n !! i = l !! (off + i)%nat.
Proof. intros. unfold slice. by rewrite lookup_take_lt, lookup_drop. Qed.

Lemma lookup_slice_ge l off n i : (n <= i)%nat -> slice l off n !! i = None.
Proof.
  intros. unfold slice. apply lookup_ge_None. rewrite length_take, length_drop. lia.
Qed.

Lemma lookup_splice l off new i :
  (off + length new <= length l)%nat ->
  splice l off new !! i =
    if decide (off <= i < off + length new)%nat then new !! (i - off)%nat else l !! i.
Proof.
  intros Hl. unfold splice. case_decide.
  - rewrite lookup_app_r by (rewrite length_take; lia).
    rewrite length_take, Nat.min_l by lia. rewrite lookup_app_l by lia. done.
  - destruct (decide (i < off)%nat).
    + rewrite lookup_app_l by (rewrite length_take; lia).
      by rewrite lookup_take_lt by lia.
    + rewrite lookup_app_r by (rewrite length_take; lia).
      rewrite length_take, Nat.min_l by lia.
      rewrite lookup_app_r by lia. rewrite lookup_drop. f_equal. lia.
Qed.

Lemma slice_splice_same l off new :
  (off + length new <= length l)%nat ->
  slice (splice l off new) off (length new) = new.
Proof.
  intros. apply list_eq. intros i. destruct (decide (i < length new)%nat).
  - rewrite lookup_slice, lookup_splice by lia. case_decide; [|lia].
    f_equal. lia.
  - rewrite lookup_slice_ge by lia. symmetry. apply lookup_ge_None. lia.
Qed.

Lemma slice_splice_disjoint l off new off' n :
  (off + length new <= length l)%nat ->
  (off' + n <= off \/ off + length new <= off')%nat ->
  slice (splice l off new) off' n = slice l off' n.
Proof.
  intros ? Hd. apply list_eq. intros i. destruct (decide (i < n)%nat).
  - rewrite !lookup_slice, lookup_splice by lia. case_decide; [lia|done].
  - by rewrite !lookup_slice_ge by lia.
Qed.

Lemma slice_all l n : length l = n -> slice l 0 n = l.
Proof. intros <-. unfold slice. by rewrite drop_0, take_ge. Qed.

Lemma slice_slice l off n off' n' :
  (off' + n' <= n)%nat -> slice (slice l off n) off' n' = slice l (off + off') n'.
Proof.
  intros. apply list_eq. intros i. destruct (decide (i < n')%nat).
  - rewrite !lookup_slice by lia. f_equal. lia.
  - by rewrite !lookup_slice_ge by lia.
Qed.

Lemma slice_app l off n m : slice l off (n + m) = slice l off n ++ slice l (off + n) m.
Proof. unfold slice. by rewrite <- drop_drop, take_take_drop. Qed.

Lemma splice_nil l off : splice l off [] = l.
Proof. unfold splice. simpl. by rewrite Nat.add_0_r, take_drop. Qed.

Lemma splice_splice_app l off new new' :
  (off + length new + length new' <= length l)%nat ->
  splice (splice l off new) (off + length new) new' = splice l off (new ++ new').
Proof.
  intros. apply list_eq. intros i.
  rewrite !lookup_splice; rewrite ?length_app, ?length_splice; try lia.
  repeat case_decide; try lia; try done.
  - rewrite lookup_app_r by lia. f_equal. lia.
  - rewrite lookup_app_l by lia. done.
Qed.

Lemma splice_app_l l l' off new :
  (off + length new <= length l)%nat -> splice (l ++ l') off new = splice l off new ++ l'.
Proof.
  intros. unfold splice. rewrite take_app_le, drop_app_le by lia. by rewrite <- !app_assoc.
Qed.

Lemma slice_app_l l l' off n : (off + n <= length l)%nat -> slice (l ++ l') off n = slice l off n.
Proof.
  intros. unfold slice. rewrite drop_app_le by lia. apply take_app_le. rewrite length_drop. lia.
Qed.

Lemma slice_app_mid l l' off n :
  (off <= length l)%nat ->
  slice (l ++ l') off (length l - off + n) = slice l off (length l - off) ++ slice l' 0 n.
Proof.
  intros. unfold slice. rewrite drop_app_le, drop_0 by lia.
  rewrite take_app, length_drop. f_equal.
  - rewrite !take_ge; [done|rewrite length_drop; lia|rewrite length_drop; lia].
  - f_equal. lia.
Qed.

Lemma slice_take l s off n : (off + n <= s)%nat -> slice (take s l) off n = slice l off n.
Proof.
  intros. unfold slice. rewrite skipn_firstn_comm, take_take. f_equal. lia.
Qed.

(** Writing a patched sub-slice back patches the whole. *)
Lemma splice_patch l off n k new :
  (off + n <= length l)%nat -> (k + length new <= n)%nat ->
  splice l off (splice (slice l off n) k new) = splice l (off + k) new.
Proof.
  intros Hl Hk. assert (Hs : length (slice l off n) = n) by (by apply length_slice).
  assert (Hp : length (splice (slice l off n) k new) = n)
    by (rewrite length_splice; lia).
  apply list_eq. intros i. rewrite !lookup_splice by lia. rewrite Hp.
  repeat case_decide; try lia; try done; rewrite ?lookup_slice by lia; f_equal; lia.
Qed.

Lemma splice_all l new : length l = length new -> splice l 0 new = new.
Proof. intros Hl. unfold splice. simpl. by rewrite drop_ge, app_nil_r by lia. Qed.

Lemma splice_slice_id l off n :
  (off + n <= length l)%nat -> splice l off (slice l off n) = l.
Proof.
  intros. apply list_eq. intros i. rewrite lookup_splice by (rewrite length_slice; lia).
  rewrite length_slice by lia. case_decide; [|done].
  rewrite lookup_slice by lia. f_equal. lia.
Qed.

End slices.

(** ** Little-endian words *)

(** A byte of the model. *)
Definition byte (b : Z) : Prop := 0 <= b < 256.

(** [to_le_bytes] of an [n]-byte integer. *)
Fixpoint le_bytes (n : nat) (v : Z) : list Z :=
  match n with
  | O => []
  | S n => v mod 256 :: le_bytes n (v / 256)
  end.

(** [from_le_bytes] *)
Fixpoint le_word (bs : list Z) : Z :=
  match bs with
  | [] => 0
  | b :: bs => b + 256 * le_word bs
  end.

Lemma length_le_bytes n : forall v, length (le_bytes n v) = n.
Proof. induction n; intros; simpl; [done|]. by rewrite IHn. Qed.

Lemma le_word_bytes n : forall v, 0 <= v < 256 ^ Z.of_nat n -> le_word (le_bytes n v) = v.
Proof.
  induction n as [|n IH]; intros v Hv.
  - simpl in *. lia.
  - cbn [le_bytes le_word]. rewrite IH.
    + pose proof (Z_div_mod_eq_full v 256). lia.
    + rewrite Nat2Z.inj_succ, Z.pow_succ_r in Hv by lia.
      split; [apply Z.div_pos; lia|]. apply Z.div_lt_upper_bound; lia.
Qed.

Lemma le_bytes_word bs : Forall byte bs -> le_bytes (length bs) (le_word bs) = bs.
Proof.
  unfold byte. induction 1 as [|b bs Hb _ IH]; [done|]. cbn [length le_bytes le_word].
  rewrite (Z.mul_comm 256), Z_mod_plus_full, Z.mod_small by lia.
  rewrite Z.div_add, Z.div_small by lia. by rewrite Z.add_0_l, IH.
Qed.

Lemma le_word_bound bs : Forall byte bs -> 0 <= le_word bs < 256 ^ Z.of_nat (length bs).
Proof.
  unfold byte. induction 1 as [|b bs Hb _ IH]; [done|]. cbn [length le_word].
  rewrite Nat2Z.inj_succ, Z.pow_succ_r by lia. lia.
Qed.

Lemma le_bytes_byte n : forall v, Forall byte (le_bytes n v).
Proof.
  induction n; intros v; constructor; [apply Z.mod_pos_bound; lia|done].
Qed.

Lemma byte_slice bs off n : Forall byte bs -> Forall byte (slice bs off n).
Proof. intros. unfold slice. by apply Forall_take, Forall_drop. Qed.

Lemma byte_splice bs off new :
  Forall byte bs -> Forall byte new -> Forall byte (splice bs off new).
Proof.
  intros. unfold splice. rewrite !Forall_app.
  split_and!; [by apply Forall_take|done|by apply Forall_drop].
Qed.

(** ** Running stateful code against an abstract state

    [runs R c b r b']: from every concrete state that [R] relates to the abstract
    state [b], the code [c] returns [r] and leaves a concrete state related to [b'].
    The lemmas evaluate a program step by step on the abstract state alone. *)
Section runs.
Context {S E B : Type}.
Variable R : S -> B -> Prop.

Definition runs {A} (c : stM S E A) (b : B) (r : result E A) (b' : B) : Prop :=
  forall s, R s b -> exists s', c s = (r, s') /\ R s' b'.

Lemma runs_ret {A} (a : A) b : runs (sret a) b (Ok a) b.
Proof. intros s Hs. by exists s. Qed.

Lemma runs_err {A} (e : E) b : runs (serr (A:=A) e) b (Err e) b.
Proof. intros s Hs. by exists s. Qed.

Lemma runs_panic {A} b : runs (spanic (A:=A)) b Panic b.
Proof. intros s Hs. by exists s. Qed.

Lemma runs_lift {A} (c : result E A) b : runs (slift c) b c b.
Proof. intros s Hs. by exists s. Qed.

Lemma runs_assert (t : bool) b : t = true -> runs (sassert t) b (Ok tt) b.
Proof. intros -> s Hs. by exists s. Qed.

Lemma runs_bind {A C} (c : stM S E A) (k : A -> stM S E C) b a b1 r b2 :
  runs c b (Ok a) b1 -> runs (k a) b1 r b2 -> runs (sbind c k) b r b2.
Proof.
  intros H1 H2 s Hs. destruct (H1 s Hs) as (s1 & E1 & Hs1).
  destruct (H2 s1 Hs1) as (s2 & E2 & Hs2). exists s2. split; [|done].
  unfold sbind. by rewrite E1.
Qed.

Lemma runs_bind_err {A C} (c : stM S E A) (k : A -> stM S E C) b e b1 :
  runs c b (Err e) b1 -> runs (sbind c k) b (Err e) b1.
Proof.
  intros H1 s Hs. destruct (H1 s Hs) as (s1 & E1 & Hs1). exists s1. split; [|done].
  unfold sbind. by rewrite E1.
Qed.

Lemma runs_bind_panic {A C} (c : stM S E A) (k : A -> stM S E C) b b1 :
  runs c b Panic b1 -> runs (sbind c k) b Panic b1.
Proof.
  intros H1 s Hs. destruct (H1 s Hs) as (s1 & E1 & Hs1). exists s1. split; [|done].
  unfold sbind. by rewrite E1.
Qed.

Lemma runs_bind_fuel {A C} (c : stM S E A) (k : A -> stM S E C) b b1 :
  runs c b OutOfFuel b1 -> runs (sbind c k) b OutOfFuel b1.
Proof.
  intros H1 s Hs. destruct (H1 s Hs) as (s1 & E1 & Hs1). exists s1. split; [|done].
  unfold sbind. by rewrite E1.
Qed.

End runs.

Create Rewrite HintDb rust_len.

#[export] Hint Rewrite @length_app @length_take @length_drop @length_replicate @length_insert
  @length_fmap : rust_len.

(** Normalises the lengths of list expressions and leaves linear arithmetic. *)
Ltac len := autorewrite with rust_len in *; lia.

(** Splits a boolean conjunction or comparison in the hypotheses. *)
Ltac bool_hyps :=
  repeat match goal with
  | H : (_ && _) = true |- _ => apply andb_true_iff in H as [? ?]
  | H : (_ || _) = false |- _ => apply orb_false_iff in H as [? ?]
  | H : negb _ = true |- _ => apply negb_true_iff in H
  | H : negb _ = false |- _ => apply negb_false_iff in H
  | H : (_ <=? _) = true |- _ => apply Z.leb_le in H
  | H : (_ <=? _) = false |- _ => apply Z.leb_gt in H
  | H : (_ <? _) = true |- _ => apply Z.ltb_lt in H
  | H : (_ <? _) = false |- _ => apply Z.ltb_ge in H
  | H : (_ =? _) = true |- _ => apply Z.eqb_eq in H
  | H : (_ =? _) = false |- _ => apply Z.eqb_neq in H
  end.

(** ** Sorting by a key *)

(** [slice::sort_by_key], which is stable. *)
Fixpoint insert_by_key {A} (key : A -> Z) (x : A) (l : list A) : list A :=
  match l with
  | [] => [x]
  | y :: l => if key x <=? key y then x :: y :: l else y :: insert_by_key key x l
  end.

Definition sort_by_key {A} (key : A -> Z) (l : list A) : list A := foldr (insert_by_key key) [] l.

Lemma insert_by_key_perm {A} (key : A -> Z) x l : insert_by_key key x l ≡ₚ x :: l.
Proof.
  induction l as [|y l IH]; simpl; [done|]. destruct (key x <=? key y); [done|].
  rewrite IH. by constructor.
Qed.

Lemma sort_by_key_perm {A} (key : A -> Z) l : sort_by_key key l ≡ₚ l.
Proof. induction l as [|x l IH]; simpl; [done|]. by rewrite insert_by_key_perm, IH. Qed.

Lemma sort_by_key_sorted {A} (key : A -> Z) l : StronglySorted (fun x y => key x <= key y) (sort_by_key key l).
Proof.
  induction l as [|x l IH]; simpl; [constructor|]. revert IH. generalize (sort_by_key key l) as m.
  induction 1 as [|y m Hs IH Hy]; simpl; [by repeat constructor|].
  destruct (Z.leb_spec (key x) (key y)).
  - constructor; [by constructor|]. constructor; [done|]. revert Hy. apply List.Forall_impl. intros z. lia.
  - constructor; [done|]. rewrite insert_by_key_perm. constructor; [lia|done].
Qed.

(** ** Properties of the state that a computation keeps, however it ends *)

Section preserves.
Context {S E : Type} (K : S -> Prop).

Definition preserves {A} (c : stM S E A) : Prop := forall s r s', K s -> c s = (r, s') -> K s'.

Lemma preserves_ret {A} (a : A) : preserves (sret a).
Proof. by intros s r s' ? [= _ <-]. Qed.

Lemma preserves_err {A} e : preserves (serr (A:=A) e).
Proof. by intros s r s' ? [= _ <-]. Qed.

Lemma preserves_panic {A} : preserves (spanic (A:=A)).
Proof. by intros s r s' ? [= _ <-]. Qed.

Lemma preserves_lift {A} (r : result E A) : preserves (slift r).
Proof. by intros s r0 s' ? [= _ <-]. Qed.

Lemma preserves_assert b : preserves (sassert b).
Proof. destruct b; [apply preserves_ret|apply preserves_panic]. Qed.

Lemma preserves_bind {A B} (c : stM S E A) (k : A -> stM S E B) : preserves c -> (forall a, preserves (k a)) -> preserves (sbind c k).
Proof.
  intros Hc Hk s r s' Hs Er. unfold sbind in Er. destruct (c s) as [x s1] eqn:E1. pose proof (Hc _ _ _ Hs E1) as Hs1.
  destruct x; [by eapply Hk|by injection Er as _ <-..].
Qed.

End preserves.

Create HintDb preserves.
#[export] Hint Resolve preserves_ret preserves_err preserves_panic preserves_lift preserves_assert : preserves.

(** Takes a computation apart down to its steps. *)
Ltac preserves_walk :=
  repeat first
    [ progress (eauto with preserves nocore)
    | apply preserves_bind; [|intros ?]
    | match goal with |- preserves _ (match ?x with _ => _ end) => destruct x end ].
