(* ===== verification/Dequeue.v ===== *)
(** * Dequeue: the ring buffer of kernel/src/data_structures/dequeue.rs

    The raw allocation behind [data] is a list of cells, [None] an uninitialised
    one.  [None] as the result of an operation is a panic: a failed [assert!] of
    the source, a [Layout] that cannot be built, or a null allocation; reading an
    uninitialised cell, undefined behaviour in Rust, is [None] as well, so that the
    theorems exclude it.  [repr d l] is the refinement relation: the queue [d]
    holds the list [l].  Dropping elements in place ([clear], [Drop]) has no
    effect in the model besides the fields it resets. *)

From Stdlib Require Import ZArith Lia.
From stdpp Require Import base tactics list option numbers.
From S2P Require Import Prelude.

Record Dequeue (T : Type) : Type := mkDequeue {
  head : Z;
  tail : Z;
  size : Z;
  capacity : Z;
  data : list (option T);
}.
Arguments mkDequeue {T}.
Arguments head {T}.
Arguments tail {T}.
Arguments size {T}.
Arguments capacity {T}.
Arguments data {T}.

(** [isize::MAX], the largest size of a Rust allocation. *)
Definition ISIZE_MAX : Z := 2 ^ 63 - 1.

Section dequeue.
Context {T : Type}.
(** The element type's size and alignment, and the global allocator: whether
    [ALLOCATOR.alloc] of that many bytes returns a non-null pointer. *)
Variable size_of_T : Z.
Variable align_of_T : Z.
Variable alloc : Z -> bool.

Implicit Types d : Dequeue T.
Implicit Types l : list T.

(** [Layout::array::<T>(n)] followed by the allocation and its null check. *)
Definition alloc_array (n : Z) : option (list (option T)) :=
  if (n * size_of_T <=? ISIZE_MAX - (align_of_T - 1)) && alloc (n * size_of_T)
  then Some (replicate (Z.to_nat n) None) else None.

(** [ptr::read] of the cell at an index. *)
Definition cell d (i : Z) : option T := default None (data d !! Z.to_nat i).

Definition with_capacity (c : Z) : option (Dequeue T) :=
  let c := if is_power_of_two c then c else next_power_of_two c in
  if negb (0 <? c) || (2 ^ 64 <=? c) then None else
  buf ← alloc_array c;
  Some (mkDequeue 0 0 0 c buf).

Definition new : option (Dequeue T) := with_capacity 4.

Definition wrap_index d (index : Z) : Z := Z.land index (capacity d - 1).

(** The copy loop of [expand]: [new_data[i] = data[wrap_index(head + i)]]. *)
Definition copy_cells d (new_data : list (option T)) : list (option T) :=
  foldl (fun nd i => <[ i := cell d (wrap_index d (head d + Z.of_nat i)) ]> nd)
    new_data (seq 0 (Z.to_nat (size d))).

Definition expand d : option (Dequeue T) :=
  let new_capacity := capacity d * 2 in
  new_data ← alloc_array new_capacity;
  Some (mkDequeue 0 (size d) (size d) new_capacity (copy_cells d new_data)).

Definition get_ptr_at d (index : Z) : option Z :=
  if index <? size d then Some (wrap_index d (head d + index)) else None.

Definition reserve d : option (Dequeue T) :=
  if size d =? capacity d then expand d else Some d.

Definition push_back d (value : T) : option (Dequeue T) :=
  d ← reserve d;
  let buf := <[ Z.to_nat (tail d) := Some value ]> (data d) in
  Some (mkDequeue (head d) (wrap_index d (tail d + 1)) (size d + 1) (capacity d) buf).

Definition push_front d (value : T) : option (Dequeue T) :=
  d ← reserve d;
  let h := wrap_index d (wrap 64 (head d - 1)) in
  let buf := <[ Z.to_nat h := Some value ]> (data d) in
  Some (mkDequeue h (tail d) (size d + 1) (capacity d) buf).

Definition pop_back d : option (T * Dequeue T) :=
  if negb (0 <? size d) then None else
  let t := wrap_index d (wrap 64 (tail d - 1)) in
  value ← cell d t;
  Some (value, mkDequeue (head d) t (size d - 1) (capacity d) (data d)).

Definition pop_front d : option (T * Dequeue T) :=
  if negb (0 <? size d) then None else
  value ← cell d (head d);
  Some (value,
    mkDequeue (wrap_index d (head d + 1)) (tail d) (size d - 1) (capacity d) (data d)).

Definition front d : option T :=
  if negb (0 <? size d) then None else cell d (head d).

Definition back d : option T :=
  if negb (0 <? size d) then None else
  cell d (wrap_index d (wrap 64 (tail d - 1))).

Definition get d (index : Z) : option T :=
  if negb (index <? size d) then None else
  p ← get_ptr_at d index; cell d p.

(** [*dq.get_mut(index) = value] *)
Definition get_mut_write d (index : Z) (value : T) : option (Dequeue T) :=
  if negb (index <? size d) then None else
  p ← get_ptr_at d index;
  Some (mkDequeue (head d) (tail d) (size d) (capacity d)
    (<[ Z.to_nat p := Some value ]> (data d))).

Definition len d : Z := size d.

Definition is_empty d : bool := size d =? 0.

Definition clear d : Dequeue T := mkDequeue 0 0 0 (capacity d) (data d).

(** [Iter::next]: the item at the iterator's index and the advanced index. *)
Definition iter_next d (index : Z) : option (T * Z) :=
  if index <? len d then v ← get d index; Some (v, index + 1) else None.

(** [for x in dq.iter()], by at most [fuel] calls of [next]. *)
Fixpoint iter_collect (fuel : nat) d (index : Z) : list T :=
  match fuel with
  | O => []
  | S fuel =>
      match iter_next d index with
      | Some (v, index') => v :: iter_collect fuel d index'
      | None => []
      end
  end.

(** [Drain::next] reads the item out of its cell ([ptr::read]) and leaves the queue. *)
Definition drain_next d (index : Z) : option (T * Z) :=
  if index <? len d then
    p ← get_ptr_at d index; v ← cell d p; Some (v, index + 1)
  else None.

(** [Drain::drop]: one [pop_front] per drained element.  The list is the values the
    [pop_front] calls return, which Rust drops. *)
Fixpoint drain_drop (n : nat) d : option (list T * Dequeue T) :=
  match n with
  | O => Some ([], d)
  | S n =>
      r1 ← pop_front d;
      r2 ← drain_drop n r1.2;
      Some (r1.1 :: r2.1, r2.2)
  end.

(** The owning operations as one step: [None] is a panic (or undefined behaviour). *)
Inductive op : Type :=
  | PushBack (v : T)
  | PushFront (v : T)
  | PopBack
  | PopFront
  | Clear.

Definition step d (o : op) : option (option T * Dequeue T) :=
  match o with
  | PushBack v => d' ← push_back d v; Some (None, d')
  | PushFront v => d' ← push_front d v; Some (None, d')
  | PopBack => r ← pop_back d; Some (Some r.1, r.2)
  | PopFront => r ← pop_front d; Some (Some r.1, r.2)
  | Clear => Some (None, clear d)
  end.

Fixpoint run d (os : list op) : option (list (option T) * Dequeue T) :=
  match os with
  | [] => Some ([], d)
  | o :: os => r1 ← step d o; r2 ← run r1.2 os; Some (r1.1 :: r2.1, r2.2)
  end.

(** The abstract double-ended queue: a list, [None] when a pop finds it empty. *)
Definition spec_step l (o : op) : option (option T * list T) :=
  match o with
  | PushBack v => Some (None, l ++ [v])
  | PushFront v => Some (None, v :: l)
  | PopBack => match list.last l with
               | Some v => Some (Some v, take (length l - 1) l)
               | None => None
               end
  | PopFront => match l with v :: l' => Some (Some v, l') | [] => None end
  | Clear => Some (None, [])
  end.

Fixpoint spec_run l (os : list op) : option (list (option T) * list T) :=
  match os with
  | [] => Some ([], l)
  | o :: os => r1 ← spec_step l o; r2 ← spec_run r1.2 os; Some (r1.1 :: r2.1, r2.2)
  end.

(** ** The refinement relation and its lemmas *)

Record repr d l : Prop := {
  repr_pow2 : pow2 (capacity d);
  repr_bound : capacity d <= 2 ^ 63;
  repr_data : length (data d) = Z.to_nat (capacity d);
  repr_head : 0 <= head d < capacity d;
  repr_size : size d = Z.of_nat (length l);
  repr_fits : size d <= capacity d;
  repr_tail : tail d = (head d + size d) mod capacity d;
  repr_cells : forall i x, l !! i = Some x ->
    cell d ((head d + Z.of_nat i) mod capacity d) = Some x;
}.

Lemma alloc_array_inv n buf :
  alloc_array n = Some buf -> buf = replicate (Z.to_nat n) None.
Proof. unfold alloc_array. case_match; congruence. Qed.

Lemma alloc_array_bound n buf :
  1 <= size_of_T -> 1 <= align_of_T -> 0 <= n -> alloc_array n = Some buf -> n < 2 ^ 63.
Proof.
  unfold alloc_array, ISIZE_MAX. intros Hs Ha Hn. case_match; [|done]. intros _.
  bool_hyps. nia.
Qed.

Lemma wrap_index_repr d l i : repr d l -> wrap_index d i = i mod capacity d.
Proof. intros []. by apply pow2_mask. Qed.

Lemma wrap_index_dec d l i :
  repr d l -> wrap_index d (wrap 64 (i - 1)) = (i - 1) mod capacity d.
Proof.
  intros R. rewrite (wrap_index_repr d l) by done. destruct R.
  apply wrap_mod; [lia|done|lia].
Qed.

Lemma cell_write (buf : list (option T)) h t s c i j v :
  0 <= i < c -> 0 <= j -> length buf = Z.to_nat c ->
  cell (mkDequeue h t s c (<[ Z.to_nat j := v ]> buf)) i =
    if decide (i = j) then v else default None (buf !! Z.to_nat i).
Proof.
  intros. unfold cell. simpl. case_decide as E.
  - subst. rewrite list_lookup_insert_eq by lia. done.
  - rewrite list_lookup_insert_ne by lia. done.
Qed.

Lemma with_capacity_repr c d :
  1 <= size_of_T -> 1 <= align_of_T -> with_capacity c = Some d -> repr d [].
Proof.
  intros Hs Ha. unfold with_capacity.
  set (c' := if is_power_of_two c then c else next_power_of_two c).
  assert (Hp : pow2 c').
  { unfold c'. destruct (is_power_of_two c) eqn:E.
    - by apply is_power_of_two_spec.
    - apply pow2_next. }
  clearbody c'. case_match; [done|]. bool_hyps.
  destruct (alloc_array c') as [buf|] eqn:Eb; simpl; [|done]. intros [= <-].
  assert (c' < 2 ^ 63) by (apply (alloc_array_bound c' buf); auto; lia).
  apply alloc_array_inv in Eb as ->.
  constructor; simpl; try done; try lia.
  by rewrite length_replicate.
Qed.

Lemma length_copy_cells d nd : length (copy_cells d nd) = length nd.
Proof.
  unfold copy_cells. generalize (seq 0 (Z.to_nat (size d))). intros ks.
  revert nd. induction ks as [|k ks IH]; intros nd; simpl; [done|].
  by rewrite IH, length_insert.
Qed.

Lemma lookup_copy_cells d nd i :
  (i < Z.to_nat (size d))%nat -> (i < length nd)%nat ->
  copy_cells d nd !! i = Some (cell d (wrap_index d (head d + Z.of_nat i))).
Proof.
  intros Hi Hn. unfold copy_cells.
  assert (Hgen : forall n nd, (i < length nd)%nat ->
    foldl (fun nd i => <[ i := cell d (wrap_index d (head d + Z.of_nat i)) ]> nd)
      nd (seq 0 n) !! i =
    if decide (i < n)%nat then Some (cell d (wrap_index d (head d + Z.of_nat i)))
    else nd !! i).
  { clear. induction n as [|n IH]; intros nd Hn; [done|].
    rewrite seq_S, foldl_app. simpl.
    destruct (decide (i = n)) as [->|Hne].
    - rewrite list_lookup_insert_eq.
      + by rewrite decide_True by lia.
      + clear IH. generalize (seq 0 n). intros ks. revert nd Hn.
        induction ks as [|k ks IHk]; intros nd Hn; simpl; [done|].
        apply IHk. by rewrite length_insert.
    - rewrite list_lookup_insert_ne by lia. rewrite IH by done.
      destruct (decide (i < n)%nat); [rewrite decide_True by lia|rewrite decide_False by lia]; done. }
  rewrite Hgen by done. by rewrite decide_True by lia.
Qed.

Lemma expand_repr d l d' :
  1 <= size_of_T -> 1 <= align_of_T -> repr d l -> expand d = Some d' ->
  repr d' l /\ size d' < capacity d'.
Proof.
  intros Hs Ha R. unfold expand.
  destruct (alloc_array (capacity d * 2)) as [buf|] eqn:Eb; simpl; [|done].
  intros [= <-]. pose proof (repr_head _ _ R). pose proof (repr_fits _ _ R).
  pose proof (repr_size _ _ R).
  assert (capacity d * 2 < 2 ^ 63) by (apply (alloc_array_bound _ buf); auto; lia).
  apply alloc_array_inv in Eb as ->.
  split; [|simpl; lia].
  constructor; simpl; try lia.
  - apply pow2_double, R.
  - rewrite length_copy_cells, length_replicate. done.
  - rewrite Z.mod_small; lia.
  - intros i x Hx. pose proof (lookup_lt_Some _ _ _ Hx).
    unfold cell. simpl. rewrite Z.mod_small, ?Z.add_0_l, Nat2Z.id by lia.
    rewrite lookup_copy_cells; [|lia|rewrite length_replicate; lia].
    simpl. rewrite (wrap_index_repr d l) by done. by apply (repr_cells _ _ R).
Qed.

Lemma reserve_repr d l d' :
  1 <= size_of_T -> 1 <= align_of_T -> repr d l -> reserve d = Some d' ->
  repr d' l /\ size d' < capacity d'.
Proof.
  intros Hs Ha R. unfold reserve. destruct (Z.eqb_spec (size d) (capacity d)) as [E|E].
  - by apply expand_repr.
  - intros [= <-]. split; [done|]. pose proof (repr_fits _ _ R). lia.
Qed.
Lemma push_back_repr d l v d' :
  1 <= size_of_T -> 1 <= align_of_T -> repr d l ->
  push_back d v = Some d' -> repr d' (l ++ [v]).
Proof.
  intros Hs Ha R0. unfold push_back.
  destruct (reserve d) as [d1|] eqn:Er; simpl; [|done]. intros [= <-].
  destruct (reserve_repr _ _ _ Hs Ha R0 Er) as [R Hlt]. clear Er R0 d.
  pose proof (wrap_index_repr _ _ (tail d1 + 1) R) as Hw. destruct R as [P B D Hd Sz Fit TL C].
  pose proof (pow2_pos _ P) as Hpos.
  pose proof (mod_bound (head d1 + size d1) (capacity d1) Hpos).
  constructor; simpl; try done; try (autorewrite with rust_len; simpl; lia).
  - rewrite Hw, TL, Zplus_mod_idemp_l. f_equal. lia.
  - intros i x Hx. pose proof (mod_bound (head d1 + Z.of_nat i) (capacity d1) Hpos).
    rewrite cell_write by lia. rewrite TL.
    destruct (decide (i = length l)) as [->|Hi].
    + rewrite list_lookup_middle in Hx by done. simplify_eq.
      rewrite decide_True; [done|]. f_equal. lia.
    + pose proof (lookup_lt_Some _ _ _ Hx). autorewrite with rust_len in *. simpl in *.
      rewrite lookup_app_l in Hx by lia. rewrite decide_False.
      * by apply C.
      * intros E. apply ring_inj in E; lia.
Qed.

Lemma push_front_repr d l v d' :
  1 <= size_of_T -> 1 <= align_of_T -> repr d l ->
  push_front d v = Some d' -> repr d' (v :: l).
Proof.
  intros Hs Ha R0. unfold push_front.
  destruct (reserve d) as [d1|] eqn:Er; simpl; [|done]. intros [= <-].
  destruct (reserve_repr _ _ _ Hs Ha R0 Er) as [R Hlt]. clear Er R0 d.
  rewrite (wrap_index_dec _ _ _ R). destruct R as [P B D Hd Sz Fit TL C].
  pose proof (pow2_pos _ P) as Hpos.
  pose proof (mod_bound (head d1 - 1) (capacity d1) Hpos).
  constructor; simpl; try done; try (autorewrite with rust_len; simpl; lia).
  - rewrite Zplus_mod_idemp_l, TL. f_equal. lia.
  - intros i x Hx. rewrite Zplus_mod_idemp_l.
    pose proof (mod_bound (head d1 - 1 + Z.of_nat i) (capacity d1) Hpos).
    rewrite cell_write by lia. destruct i as [|i]; simpl in Hx.
    + simplify_eq. rewrite decide_True; [done|]. f_equal. lia.
    + pose proof (lookup_lt_Some _ _ _ Hx). rewrite decide_False.
      * rewrite <- (C i x Hx). unfold cell.
        by replace (head d1 - 1 + Z.of_nat (S i)) with (head d1 + Z.of_nat i) by lia.
      * intros E. rewrite <- (Z.add_0_r (head d1 - 1)) in E at 2.
        apply ring_inj in E; lia.
Qed.

Lemma pop_front_cons d x l :
  repr d (x :: l) -> exists d', pop_front d = Some (x, d') /\ repr d' l.
Proof.
  intros R. pose proof (wrap_index_repr _ _ (head d + 1) R) as Hw.
  destruct R as [P B D Hd Sz Fit TL C]. pose proof (pow2_pos _ P). simpl in *.
  eexists. unfold pop_front.
  replace (0 <? size d) with true by (symmetry; apply Z.ltb_lt; lia). simpl.
  pose proof (C 0%nat x eq_refl) as Hc.
  rewrite Z.add_0_r, Z.mod_small in Hc by lia. rewrite Hc. simpl. split; [done|].
  constructor; simpl; try done; try lia.
  - rewrite Hw. apply mod_bound. lia.
  - rewrite Hw, Zplus_mod_idemp_l, TL. f_equal. lia.
  - intros i y Hy. rewrite Hw, Zplus_mod_idemp_l.
    rewrite <- (C (S i) y Hy). unfold cell. simpl data.
    by replace (head d + Z.of_nat (S i)) with (head d + 1 + Z.of_nat i) by lia.
Qed.

Lemma pop_back_snoc d x l :
  repr d (l ++ [x]) -> exists d', pop_back d = Some (x, d') /\ repr d' l.
Proof.
  intros R. pose proof (wrap_index_dec _ _ (tail d) R) as Hw.
  destruct R as [P B D Hd Sz Fit TL C].
  pose proof (pow2_pos _ P). autorewrite with rust_len in *. simpl in *.
  assert (Ht : (tail d - 1) mod capacity d =
    (head d + Z.of_nat (length l)) mod capacity d).
  { rewrite TL. rewrite Zminus_mod_idemp_l. f_equal. lia. }
  eexists. unfold pop_back.
  replace (0 <? size d) with true by (symmetry; apply Z.ltb_lt; lia). simpl.
  rewrite Hw, Ht, (C (length l) x) by (by apply list_lookup_middle).
  simpl. split; [done|]. constructor; simpl; try done; try lia.
  - f_equal. lia.
  - intros i y Hy. unfold cell. simpl. apply (C i y).
    pose proof (lookup_lt_Some _ _ _ Hy). by rewrite lookup_app_l.
Qed.

Lemma pop_empty d : repr d [] -> pop_front d = None /\ pop_back d = None.
Proof.
  intros []. unfold pop_front, pop_back. simpl in *.
  by replace (0 <? size d) with false by (symmetry; apply Z.ltb_ge; lia).
Qed.

Lemma pop_front_none d l :
  repr d l -> (r ← pop_front d; Some (Some r.1, r.2)) = None <-> l = [].
Proof.
  intros R. destruct l as [|x l].
  - by rewrite (proj1 (pop_empty _ R)).
  - by destruct (pop_front_cons _ _ _ R) as (? & -> & _).
Qed.

Lemma pop_back_none d l :
  repr d l -> (r ← pop_back d; Some (Some r.1, r.2)) = None <-> l = [].
Proof.
  intros R. destruct l as [|x l _] using rev_ind.
  - by rewrite (proj2 (pop_empty _ R)).
  - destruct (pop_back_snoc _ _ _ R) as (? & -> & _). simpl. split; [done|].
    intros E. by destruct l.
Qed.

Lemma reserve_none d :
  reserve d = None -> size d = capacity d /\ alloc_array (capacity d * 2) = None.
Proof.
  unfold reserve, expand. destruct (Z.eqb_spec (size d) (capacity d)); [|done].
  destruct (alloc_array _); simpl; [done|]. done.
Qed.

Lemma clear_repr d l : repr d l -> repr (clear d) [].
Proof.
  intros []. pose proof (pow2_pos (capacity d)).
  constructor; simpl; try done; try lia.
Qed.

Lemma get_repr d l i :
  repr d l -> 0 <= i -> get d i = l !! Z.to_nat i.
Proof.
  intros R Hi. unfold get, get_ptr_at. destruct (Z.ltb_spec i (size d)); simpl.
  - rewrite (wrap_index_repr _ _ _ R). destruct R as [P B D Hd Sz Fit TL C].
    destruct (lookup_lt_is_Some_2 l (Z.to_nat i)) as [x Hx]; [lia|].
    by rewrite Hx, <- (C _ _ Hx), Z2Nat.id by lia.
  - symmetry. apply lookup_ge_None. destruct R. lia.
Qed.

Lemma front_repr d l : repr d l -> front d = l !! 0%nat.
Proof.
  intros R. unfold front. destruct (Z.ltb_spec 0 (size d)); simpl; destruct l as [|x l];
    pose proof (repr_size _ _ R); simpl in *; try lia; [|done].
  pose proof (repr_cells _ _ R 0%nat x eq_refl) as Hc. pose proof (repr_head _ _ R).
  by rewrite Z.add_0_r, Z.mod_small in Hc by lia.
Qed.

Lemma back_repr d l : repr d l -> back d = list.last l.
Proof.
  intros R. destruct l as [|x l _] using rev_ind.
  - unfold back. rewrite (repr_size _ _ R). done.
  - destruct (pop_back_snoc _ _ _ R) as (d' & Hp & _). rewrite last_snoc.
    unfold pop_back in Hp. unfold back. destruct (negb (0 <? size d)); [done|].
    destruct (cell d _); simpl in Hp; congruence.
Qed.

Lemma get_mut_repr d l i v :
  repr d l -> 0 <= i -> i < size d ->
  exists d', get_mut_write d i v = Some d' /\ repr d' (<[ Z.to_nat i := v ]> l).
Proof.
  intros R Hi Hlt. eexists. unfold get_mut_write, get_ptr_at.
  rewrite (proj2 (Z.ltb_lt _ _) Hlt). simpl. split; [done|].
  rewrite (wrap_index_repr _ _ _ R). destruct R as [P B D Hd Sz Fit TL C].
  pose proof (pow2_pos _ P) as Hpos.
  pose proof (mod_bound (head d + i) (capacity d) Hpos).
  constructor; simpl; try done; try (autorewrite with rust_len; lia).
  intros j x Hx. pose proof (mod_bound (head d + Z.of_nat j) (capacity d) Hpos).
  rewrite cell_write by lia. pose proof (lookup_lt_Some _ _ _ Hx).
  autorewrite with rust_len in *. destruct (decide (j = Z.to_nat i)) as [->|Hne].
  - rewrite list_lookup_insert_eq in Hx by lia. simplify_eq.
    rewrite decide_True; [done|]. f_equal. lia.
  - rewrite list_lookup_insert_ne in Hx by done. rewrite decide_False; [by apply C|].
    intros E. apply ring_inj in E; lia.
Qed.

Lemma drain_next_get d i : drain_next d i = iter_next d i.
Proof.
  unfold drain_next, iter_next, get, get_ptr_at, len.
  destruct (Z.ltb_spec i (size d)); simpl; done.
Qed.

Lemma iter_collect_repr d l n i :
  repr d l -> (length l <= n + i)%nat -> iter_collect n d (Z.of_nat i) = drop i l.
Proof.
  intros R. revert i. induction n as [|n IH]; intros i Hn; simpl.
  - symmetry. apply drop_ge. lia.
  - unfold iter_next, len. rewrite (repr_size _ _ R).
    destruct (Z.ltb_spec (Z.of_nat i) (Z.of_nat (length l))).
    + rewrite (get_repr _ _ _ R), Nat2Z.id by lia.
      destruct (lookup_lt_is_Some_2 l i) as [x Hx]; [lia|]. rewrite Hx. simpl.
      replace (Z.of_nat i + 1) with (Z.of_nat (S i)) by lia.
      rewrite IH by lia. symmetry. by apply drop_S.
    + symmetry. apply drop_ge. lia.
Qed.

Lemma drain_drop_repr d l1 l2 :
  repr d (l1 ++ l2) ->
  exists d', drain_drop (length l1) d = Some (l1, d') /\ repr d' l2.
Proof.
  revert d. induction l1 as [|x l1 IH]; intros d R; simpl in *; [eauto|].
  destruct (pop_front_cons _ _ _ R) as (d1 & -> & R1). simpl.
  destruct (IH _ R1) as (d2 & -> & R2). simpl. eauto.
Qed.

Lemma step_refines d l o :
  1 <= size_of_T -> 1 <= align_of_T -> repr d l ->
  (forall r d', step d o = Some (r, d') ->
     exists l', spec_step l o = Some (r, l') /\ repr d' l') /\
  (spec_step l o = None -> step d o = None).
Proof.
  intros Hs Ha R. destruct o as [v|v| | |]; simpl.
  - split; [|done]. intros r d'. destruct (push_back d v) eqn:E; simpl; [|done].
    intros [= <- <-]. eauto using push_back_repr.
  - split; [|done]. intros r d'. destruct (push_front d v) eqn:E; simpl; [|done].
    intros [= <- <-]. eauto using push_front_repr.
  - destruct l as [|x l _] using rev_ind.
    + rewrite (proj2 (pop_empty _ R)). done.
    + rewrite last_snoc. destruct (pop_back_snoc _ _ _ R) as (d1 & -> & R1). simpl.
      split; [|done]. intros r d' [= <- <-]. eexists. split; [done|].
      rewrite length_app. simpl. replace (length l + 1 - 1)%nat with (length l) by lia.
      by rewrite take_app_length.
  - destruct l as [|x l].
    + rewrite (proj1 (pop_empty _ R)). done.
    + destruct (pop_front_cons _ _ _ R) as (d1 & -> & R1). simpl.
      split; [|done]. intros r d' [= <- <-]. eauto.
  - split; [|done]. intros r d' [= <- <-]. eauto using clear_repr.
Qed.

Lemma run_refines os : forall d0 l0 rs d,
  1 <= size_of_T -> 1 <= align_of_T -> repr d0 l0 -> run d0 os = Some (rs, d) ->
  exists l, spec_run l0 os = Some (rs, l) /\ repr d l.
Proof.
  induction os as [|o os IH]; intros d0 l0 rs d Hs Ha R0 Hrun; simpl in *.
  - simplify_eq. eauto.
  - destruct (step d0 o) as [[r d1]|] eqn:E1; simpl in *; [|done].
    destruct (run d1 os) as [[rs' d2]|] eqn:E2; simpl in *; [|done]. simplify_eq.
    destruct (step_refines _ _ o Hs Ha R0) as [Hst _].
    destruct (Hst _ _ E1) as (l1 & -> & R1). simpl.
    destruct (IH _ _ _ _ Hs Ha R1 E2) as (l2 & -> & R2). simpl. eauto.
Qed.

(** The ring buffer refines the double-ended queue: started from
    [Dequeue::with_capacity], whatever sequence of pushes, pops and clears runs, as long
    as no call panics every value a pop returns and the final contents are those
    of the abstract list; a pop panics exactly on the empty queue, and a push only
    when the ring is full and the doubled buffer cannot be allocated. *)
Theorem dequeue_refines (c : Z) (os : list op) d0 rs d :
  1 <= size_of_T -> 1 <= align_of_T ->
  with_capacity c = Some d0 -> run d0 os = Some (rs, d) ->
  exists l, spec_run [] os = Some (rs, l) /\ repr d l /\
    (step d PopFront = None <-> l = []) /\ (step d PopBack = None <-> l = []) /\
    (forall v, step d (PushBack v) = None \/ step d (PushFront v) = None ->
       size d = capacity d /\ alloc_array (capacity d * 2) = None).
Proof.
  intros Hs Ha H0 Hrun. apply with_capacity_repr in H0; [|done..].
  destruct (run_refines _ _ _ _ _ Hs Ha H0 Hrun) as (l & Hl & R).
  exists l. split; [done|]. split; [done|]. simpl. split; [|split].
  - by apply pop_front_none.
  - by apply pop_back_none.
  - intros v Hv. apply reserve_none. unfold push_back, push_front in Hv.
    destruct (reserve d); [by destruct Hv|done].
Qed.

(** Growing, wrapping and shrinking never disturb access: the iterator yields
    exactly the queue's elements from front to back, [get] is list lookup with a panic
    out of range, [front] and [back] are the two ends, and a write through [get_mut]
    changes that element and no other. *)
Theorem dequeue_access d l (n : nat) :
  repr d l -> (length l <= n)%nat ->
  iter_collect n d 0 = l /\ (forall i, 0 <= i -> get d i = l !! Z.to_nat i) /\
  front d = l !! 0%nat /\ back d = list.last l /\
  (forall i v, 0 <= i -> i < size d -> exists d', get_mut_write d i v = Some d' /\
     repr d' (<[ Z.to_nat i := v ]> l)).
Proof.
  intros R Hn. split; [|split; [|split; [|split]]].
  - rewrite <- (drop_0 l) at 1. apply (iter_collect_repr d l n 0); [done|lia].
  - intros. by apply get_repr.
  - by apply front_repr.
  - by apply back_repr.
  - intros. by apply get_mut_repr.
Qed.

(** A completed [drain] hands every element out twice: the values [Drain::next]
    reads out of the cells are the queue's elements, and the [pop_front] calls of
    [Drain::drop] return (and so drop) the very same elements again.  The queue ends
    empty. *)
Theorem drain_moves_twice d l :
  repr d l ->
  (forall i, 0 <= i -> drain_next d i = v ← l !! Z.to_nat i; Some (v, i + 1)) /\
  exists d', drain_drop (length l) d = Some (l, d') /\ repr d' [].
Proof.
  intros R. split.
  - intros i Hi. rewrite drain_next_get. unfold iter_next, len.
    rewrite (get_repr _ _ _ R Hi). destruct (Z.ltb_spec i (size d)); [done|].
    rewrite (proj2 (lookup_ge_None l (Z.to_nat i))); [done|].
    pose proof (repr_size _ _ R). lia.
  - apply drain_drop_repr. by rewrite app_nil_r.
Qed.
End dequeue.

(** ** Witnesses: a queue of [u64] that grew once and wrapped around *)

Definition demo_ops : list (op (T:=Z)) :=
  [PushBack 1; PushBack 2; PopFront; PushBack 3; PushBack 4; PushFront 9; PushBack 5;
   PopBack; PushBack 6].

Definition demo_alloc : Z -> bool := fun bytes => bytes <=? 1024.

Definition demo : Dequeue Z :=
  match new (T:=Z) 8 8 demo_alloc with
  | Some d0 => match run 8 8 demo_alloc d0 demo_ops with
               | Some (_, d) => d
               | None => d0
               end
  | None => mkDequeue 0 0 0 0 []
  end.

Lemma demo_repr : repr demo [9; 2; 3; 4; 6].
Proof.
  destruct (new (T:=Z) 8 8 demo_alloc) as [d0|] eqn:E0; [|discriminate E0].
  destruct (run_refines 8 8 demo_alloc demo_ops d0 []
    [None; None; Some 1; None; None; None; None; Some 5; None] demo) as (l & Hl & R);
    [lia|lia| | |].
  - apply (with_capacity_repr 8 8 demo_alloc 4); [lia|lia|exact E0].
  - vm_compute in E0. injection E0 as <-. vm_compute. reflexivity.
  - vm_compute in Hl. injection Hl as <-. exact R.
Qed.

Lemma dequeue_refines_witness :
  exists d0 : Dequeue Z, with_capacity 8 8 demo_alloc 3 = Some d0 /\
  exists l, spec_run [] demo_ops =
      Some ([None; None; Some 1; None; None; None; None; Some 5; None], l) /\
    repr demo l.
Proof.
  eexists. split; [vm_compute; reflexivity|].
  edestruct (dequeue_refines 8 8 demo_alloc 3 demo_ops) with (d := demo)
    as (l & Hl & R & _);
    [lia|lia|vm_compute; reflexivity|vm_compute; reflexivity|].
  exists l. split; [exact Hl|exact R].
Defined.

Lemma dequeue_access_witness : iter_collect 8 demo 0 = [9; 2; 3; 4; 6].
Proof. apply (dequeue_access demo [9; 2; 3; 4; 6] 8); [apply demo_repr|simpl; lia]. Defined.

Lemma drain_moves_twice_witness :
  drain_next demo 1 = Some (2, 2) /\
  exists d', drain_drop 5 demo = Some ([9; 2; 3; 4; 6], d') /\ repr d' [].
Proof.
  destruct (drain_moves_twice demo [9; 2; 3; 4; 6] demo_repr) as [H1 H2].
  split; [rewrite H1 by lia; reflexivity|exact H2].
Defined.
