(* ===== verification/FxHashMap.v ===== *)
(** * FxHashMap: the open-addressing hash table of
    kernel/src/data_structures/hash_map_fx.rs

    Keys are any type with decidable equality and a conversion [into] to [usize]
    (the [Copy + Eq + Into<usize>] bound).  The table is the list of its slots.
    [None] as the result of a write is a panic: the failed [debug_assert!] at the
    end of a probe that found no place (a build without debug assertions returns
    [None] there and drops the value).  [to_map] is the abstract finite map. *)

From Stdlib Require Import ZArith Lia.
From stdpp Require Import base tactics list option numbers fin_maps gmap.
From S2P Require Import Prelude.

(** ** FxHasher *)

Definition K : Z := 0xf1357aea2e62a9c5.
Definition ROTATE : Z := 26.

(** [u64::rotate_left] *)
Definition rotate_left (x n : Z) : Z :=
  Z.lor (wrap 64 (Z.shiftl x n)) (Z.shiftr x (64 - n)).

Definition add_to_hash (hash i : Z) : Z := wrap 64 (wrap 64 (hash + i) * K).

Definition finish_usize (hash : Z) : Z := rotate_left hash ROTATE.

(** [Hasher::write] folds the bytes one at a time. *)
Definition write (hash : Z) (bytes : list Z) : Z := foldl add_to_hash hash bytes.

Definition DEFAULT_CAPACITY : Z := 16.
Definition MAX_LOAD_FACTOR_NUM : Z := 3.
Definition MAX_LOAD_FACTOR_DEN : Z := 4.

(** ** The table *)

Inductive Slot (Key V : Type) : Type :=
  | Empty
  | Dead
  | Occupied (k : Key) (v : V).
Arguments Empty {Key V}.
Arguments Dead {Key V}.
Arguments Occupied {Key V} k v.

Record FxHashMap (Key V : Type) : Type := mkMap {
  slots : list (Slot Key V);
  count : Z;
}.
Arguments mkMap {Key V}.
Arguments slots {Key V}.
Arguments count {Key V}.

(** Where a probe for a key to write stops. *)
Inductive probe_result (V : Type) : Type :=
  | AtOccupied (idx : Z) (old : V)
  | AtVacant (idx : Z)
  | NoSlot.
Arguments AtOccupied {V} idx old.
Arguments AtVacant {V} idx.
Arguments NoSlot {V}.

Section table.
Context {Key V : Type} `{Countable Key}.
Variable into : Key -> Z.

Implicit Types m : FxHashMap Key V.
Implicit Types s : list (Slot Key V).

(** [self.slots.len()] *)
Definition slots_len s : Z := Z.of_nat (length s).

Definition with_capacity (capacity : Z) : FxHashMap Key V :=
  let capacity := Z.max (next_power_of_two capacity) DEFAULT_CAPACITY in
  mkMap (replicate (Z.to_nat capacity) Empty) 0.

Definition new : FxHashMap Key V := with_capacity DEFAULT_CAPACITY.

Definition get_slot_index s (key : Key) : Z :=
  Z.land (finish_usize (add_to_hash 0 (into key))) (slots_len s - 1).

(** [(start + probe) & (capacity - 1)]; the sum of a masked index and a probe count
    below the capacity does not overflow. *)
Definition probe_index s (start probe : Z) : Z :=
  Z.land (start + probe) (slots_len s - 1).

(** The probe loop shared by [insert] and [entry], with [n] iterations left. *)
Fixpoint probe_loop s (key : Key) (start : Z) (n : nat) (probe : Z)
    (first_dead : option Z) : probe_result V :=
  match n with
  | O => NoSlot
  | S n =>
      let idx := probe_index s start probe in
      match s !! Z.to_nat idx with
      | Some Empty => AtVacant (default idx first_dead)
      | Some Dead =>
          probe_loop s key start n (probe + 1)
            (match first_dead with None => Some idx | Some d => Some d end)
      | Some (Occupied k v) =>
          if decide (k = key) then AtOccupied idx v
          else probe_loop s key start n (probe + 1) first_dead
      | None => NoSlot
      end
  end.

Definition probe_insert s (key : Key) : probe_result V :=
  probe_loop s key (get_slot_index s key) (length s) 0 None.

(** The probe loop shared by [get], [get_mut] and [remove]. *)
Fixpoint find_loop s (key : Key) (start : Z) (n : nat) (probe : Z) : option (Z * V) :=
  match n with
  | O => None
  | S n =>
      let idx := probe_index s start probe in
      match s !! Z.to_nat idx with
      | Some Empty | None => None
      | Some Dead => find_loop s key start n (probe + 1)
      | Some (Occupied k v) =>
          if decide (k = key) then Some (idx, v)
          else find_loop s key start n (probe + 1)
      end
  end.

Definition find m (key : Key) : option (Z * V) :=
  find_loop (slots m) key (get_slot_index (slots m) key) (length (slots m)) 0.

Definition get m (key : Key) : option V := snd <$> find m key.

Definition contains_key m (key : Key) : bool := bool_decide (is_Some (get m key)).

(** Writing [v] through the reference [get_mut] returns; [None] when it returns [None]. *)
Definition get_mut_write m (key : Key) (v : V) : option (FxHashMap Key V) :=
  match find m key with
  | Some (idx, _) =>
      Some (mkMap (<[ Z.to_nat idx := Occupied key v ]> (slots m)) (count m))
  | None => None
  end.

Definition remove m (key : Key) : option V * FxHashMap Key V :=
  match find m key with
  | Some (idx, v) => (Some v, mkMap (<[ Z.to_nat idx := Dead ]> (slots m)) (count m - 1))
  | None => (None, m)
  end.

Definition slot_kv (x : Slot Key V) : option (Key * V) :=
  match x with Occupied k v => Some (k, v) | _ => None end.

Definition iter m : list (Key * V) := omap slot_kv (slots m).

Definition values m : list V := snd <$> iter m.

Definition len m : Z := count m.

Definition is_empty m : bool := count m =? 0.

Definition clear m : FxHashMap Key V := mkMap ((fun _ => Empty) <$> slots m) 0.

(** The growth test at the head of [insert] and [entry]. *)
Definition over_load m : bool :=
  slots_len (slots m) * MAX_LOAD_FACTOR_NUM <? (count m + 1) * MAX_LOAD_FACTOR_DEN.

(** The insertion after the growth test; the panic is the final [debug_assert!]. *)
Definition insert_here m (key : Key) (value : V) : option (option V * FxHashMap Key V) :=
  match probe_insert (slots m) key with
  | AtVacant idx =>
      Some (None, mkMap (<[ Z.to_nat idx := Occupied key value ]> (slots m)) (count m + 1))
  | AtOccupied idx old =>
      Some (Some old, mkMap (<[ Z.to_nat idx := Occupied key value ]> (slots m)) (count m))
  | NoSlot => None
  end.

(** [grow], given the [insert] it calls for every pair of the old table. *)
Definition grow_with
    (insert : FxHashMap Key V -> Key -> V -> option (option V * FxHashMap Key V)) m
    : option (FxHashMap Key V) :=
  let new_cap := Z.max (slots_len (slots m) * 2) DEFAULT_CAPACITY in
  foldl (fun acc kv => m' ← acc; snd <$> insert m' kv.1 kv.2)
    (Some (mkMap (replicate (Z.to_nat new_cap) Empty) 0)) (iter m).

(** [insert] calls [grow], which calls [insert] on the larger table; the fuel bounds
    the depth of that recursion ([insert_depth] shows 2 is enough). *)
Fixpoint insert_fuel (fuel : nat) m (key : Key) (value : V)
    : option (option V * FxHashMap Key V) :=
  match fuel with
  | O => None
  | S fuel =>
      m' ← (if over_load m then grow_with (insert_fuel fuel) m else Some m);
      insert_here m' key value
  end.

Definition insert : FxHashMap Key V -> Key -> V -> option (option V * FxHashMap Key V) :=
  insert_fuel 2.

Definition grow : FxHashMap Key V -> option (FxHashMap Key V) := grow_with (insert_fuel 1).

(** [entry(key).or_insert(value)]: the table afterwards and the value the reference
    points to. *)
Definition entry_or_insert m (key : Key) (value : V) : option (V * FxHashMap Key V) :=
  m ← (if over_load m then grow m else Some m);
  match probe_insert (slots m) key with
  | AtVacant idx =>
      Some (value,
        mkMap (<[ Z.to_nat idx := Occupied key value ]> (slots m)) (count m + 1))
  | AtOccupied _ v => Some (v, m)
  | NoSlot => None
  end.

(** The owning operations as one step: the value returned, [None] a panic. *)
Inductive op : Type :=
  | Insert (k : Key) (v : V)
  | Remove (k : Key)
  | Get (k : Key)
  | GetMutWrite (k : Key) (v : V)
  | EntryOrInsert (k : Key) (v : V)
  | Clear.

Definition step m (o : op) : option (option V * FxHashMap Key V) :=
  match o with
  | Insert k v => insert m k v
  | Remove k => Some (remove m k)
  | Get k => Some (get m k, m)
  | GetMutWrite k v =>
      Some (match get_mut_write m k v with Some m' => (Some v, m') | None => (None, m) end)
  | EntryOrInsert k v => r ← entry_or_insert m k v; Some (Some r.1, r.2)
  | Clear => Some (None, clear m)
  end.

Fixpoint run m (os : list op) : option (list (option V) * FxHashMap Key V) :=
  match os with
  | [] => Some ([], m)
  | o :: os => r1 ← step m o; r2 ← run r1.2 os; Some (r1.1 :: r2.1, r2.2)
  end.

(** The abstract map's steps. *)
Definition spec_step (g : gmap Key V) (o : op) : option V * gmap Key V :=
  match o with
  | Insert k v => (g !! k, <[ k := v ]> g)
  | Remove k => (g !! k, delete k g)
  | Get k => (g !! k, g)
  | GetMutWrite k v => match g !! k with Some _ => (Some v, <[ k := v ]> g) | None => (None, g) end
  | EntryOrInsert k v => match g !! k with Some w => (Some w, g) | None => (Some v, <[ k := v ]> g) end
  | Clear => (None, ∅)
  end.

Fixpoint spec_run (g : gmap Key V) (os : list op) : list (option V) * gmap Key V :=
  match os with
  | [] => ([], g)
  | o :: os =>
      let r1 := spec_step g o in let r2 := spec_run r1.2 os in (r1.1 :: r2.1, r2.2)
  end.

(** No tombstones are made without [remove]. *)
Definition keeps_alive (o : op) : bool := match o with Remove _ => false | _ => true end.

(** ** The abstract map and the table invariant *)

Definition to_map m : gmap Key V := list_to_map (iter m).

(** Slot [i] of the table holds the pair. *)
Definition occ s (i : Z) (k : Key) (v : V) : Prop :=
  0 <= i < slots_len s /\ s !! Z.to_nat i = Some (Occupied k v).

Definition slot_at s (i : Z) : option (Slot Key V) := s !! Z.to_nat i.

(** No Empty slot lies on the probe path from a key's home slot to the key. *)
Definition reachable s (k : Key) (i : Z) : Prop :=
  exists p, 0 <= p < slots_len s /\ i = probe_index s (get_slot_index s k) p /\
    forall q, 0 <= q < p -> slot_at s (probe_index s (get_slot_index s k) q) <> Some Empty.

Record wf_slots s : Prop := {
  wf_pow2 : pow2 (slots_len s);
  wf_unique : forall i j k v w, occ s i k v -> occ s j k w -> i = j;
  wf_path : forall i k v, occ s i k v -> reachable s k i;
}.

Definition occupied_count s : Z := Z.of_nat (length (omap slot_kv s)).

Record wf m : Prop := {
  wf_slots_ok : wf_slots (slots m);
  wf_min : DEFAULT_CAPACITY <= slots_len (slots m);
  wf_count : count m = occupied_count (slots m);
}.

Definition has_empty s : Prop := exists i, (i < length s)%nat /\ s !! i = Some Empty.

Definition no_dead s : Prop := forall i, s !! i <> Some Dead.

(** ** Probe arithmetic *)

Lemma probe_index_mod s start p :
  pow2 (slots_len s) -> probe_index s start p = (start + p) mod slots_len s.
Proof. intros. by apply pow2_mask. Qed.

Lemma probe_index_bound s start p :
  pow2 (slots_len s) -> 0 <= probe_index s start p < slots_len s.
Proof. intros Hp. rewrite probe_index_mod by done. by apply mod_bound, pow2_pos. Qed.

Lemma probe_index_inj s start p q :
  pow2 (slots_len s) -> 0 <= p < slots_len s -> 0 <= q < slots_len s ->
  probe_index s start p = probe_index s start q -> p = q.
Proof.
  intros Hp Hb Hq. rewrite !probe_index_mod by done. apply ring_inj; auto using pow2_pos.
Qed.

Lemma probe_index_surj s start i :
  pow2 (slots_len s) -> 0 <= i < slots_len s ->
  exists p, 0 <= p < slots_len s /\ i = probe_index s start p.
Proof.
  intros Hp Hi. pose proof (pow2_pos _ Hp).
  exists ((i - start) mod slots_len s). split; [by apply mod_bound|].
  rewrite probe_index_mod by done. rewrite Zplus_mod_idemp_r.
  replace (start + (i - start)) with i by lia. symmetry. by apply Z.mod_small.
Qed.

Lemma slot_at_probe s start p :
  pow2 (slots_len s) -> is_Some (slot_at s (probe_index s start p)).
Proof.
  intros Hp. pose proof (probe_index_bound s start p Hp). unfold slots_len in *.
  apply lookup_lt_is_Some. lia.
Qed.

Lemma slots_len_insert s i x : slots_len (<[ i := x ]> s) = slots_len s.
Proof. unfold slots_len. by rewrite length_insert. Qed.

Lemma get_slot_index_insert s i x k :
  get_slot_index (<[ i := x ]> s) k = get_slot_index s k.
Proof. unfold get_slot_index. by rewrite slots_len_insert. Qed.

Lemma probe_index_insert s i x st p :
  probe_index (<[ i := x ]> s) st p = probe_index s st p.
Proof. unfold probe_index. by rewrite slots_len_insert. Qed.

Lemma slot_at_insert s i j x :
  0 <= i < slots_len s -> 0 <= j ->
  slot_at (<[ Z.to_nat i := x ]> s) j = if decide (j = i) then Some x else slot_at s j.
Proof.
  unfold slot_at, slots_len. intros. case_decide as E.
  - subst. apply list_lookup_insert_eq. lia.
  - apply list_lookup_insert_ne. lia.
Qed.

Lemma occ_insert s i j x k v :
  0 <= i < slots_len s ->
  occ (<[ Z.to_nat i := x ]> s) j k v <->
    (j = i /\ x = Occupied k v) \/ (j <> i /\ occ s j k v).
Proof.
  intros Hi. unfold occ. rewrite slots_len_insert. split.
  - intros [Hj E]. pose proof (slot_at_insert s i j x Hi) as Hs. unfold slot_at in Hs.
    rewrite Hs in E by lia.
    case_decide; [left; split; congruence|by right].
  - pose proof (slot_at_insert s i j x Hi) as Hs. unfold slot_at in Hs.
    intros [[-> ->]|(Hne & Hj & E)]; rewrite Hs by lia; by case_decide.
Qed.

(** ** Lookup *)

Lemma find_loop_sound s key start n probe i v :
  pow2 (slots_len s) -> find_loop s key start n probe = Some (i, v) -> occ s i key v.
Proof.
  intros Hp. revert probe. induction n as [|n IH]; intros probe; simpl; [done|].
  destruct (s !! Z.to_nat (probe_index s start probe)) as [[| |k w]|] eqn:E;
    [done|apply IH| |done].
  case_decide as Hk; [|apply IH]. intros [= <- <-]. subst k.
  split; [by apply probe_index_bound|done].
Qed.

Lemma find_loop_complete s key start n probe p i v :
  wf_slots s -> occ s i key v -> i = probe_index s start p ->
  probe <= p < probe + Z.of_nat n ->
  (forall q, probe <= q < p -> slot_at s (probe_index s start q) <> Some Empty) ->
  find_loop s key start n probe = Some (i, v).
Proof.
  intros W Ho ->. revert probe. induction n as [|n IH]; intros probe Hb Hpath; [lia|].
  simpl. destruct (decide (probe = p)) as [->|Hne].
  - destruct Ho as [_ ->]. by rewrite decide_True.
  - pose proof (Hpath probe ltac:(lia)) as Hnz. unfold slot_at in Hnz.
    destruct (s !! Z.to_nat (probe_index s start probe)) as [[| |k w]|] eqn:E.
    + done.
    + apply IH; [lia|]. intros. apply Hpath. lia.
    + case_decide as Hk.
      * subst k. assert (Ho' : occ s (probe_index s start probe) key w).
        { split; [by apply probe_index_bound, wf_pow2|done]. }
        pose proof (wf_unique _ W _ _ _ _ _ Ho Ho') as Heq. rewrite <- Heq in E.
        destruct Ho as [_ Ho]. rewrite Ho in E. congruence.
      * apply IH; [lia|]. intros. apply Hpath. lia.
    + destruct (slot_at_probe s start probe (wf_pow2 _ W)) as [x Hx].
      unfold slot_at in Hx. congruence.
Qed.

Lemma find_spec m key i v :
  wf_slots (slots m) -> find m key = Some (i, v) <-> occ (slots m) i key v.
Proof.
  intros W. split.
  - apply find_loop_sound, W.
  - intros Ho. destruct (wf_path _ W _ _ _ Ho) as (p & Hb & Hi & Hpath).
    unfold find. eapply find_loop_complete; [done|done|done| |].
    + unfold slots_len in Hb. lia.
    + intros q Hq. apply Hpath. lia.
Qed.

Lemma find_none m key :
  wf_slots (slots m) -> find m key = None <-> forall i v, ~ occ (slots m) i key v.
Proof.
  intros W. destruct (find m key) as [[i v]|] eqn:E.
  - split; [done|]. intros Hn. by apply find_spec, Hn in E.
  - split; [|done]. intros _ i v Ho. apply find_spec in Ho; [|done]. congruence.
Qed.

(** ** The abstract map *)

Lemma elem_of_iter m k v :
  (k, v) ∈ iter m <-> exists i, occ (slots m) i k v.
Proof.
  unfold iter. rewrite list_elem_of_omap. split.
  - intros (x & Hx & Hkv). destruct x as [| |k' v']; simpl in Hkv; simplify_eq.
    apply list_elem_of_lookup in Hx as [i Hi]. exists (Z.of_nat i).
    pose proof (lookup_lt_Some _ _ _ Hi). split; [unfold slots_len; lia|].
    by rewrite Nat2Z.id.
  - intros (i & _ & Hi). exists (Occupied k v). split; [|done].
    by eapply list_elem_of_lookup_2.
Qed.

Lemma NoDup_keys s :
  (forall i j k v w, s !! i = Some (Occupied k v) -> s !! j = Some (Occupied k w) -> i = j) ->
  NoDup (fst <$> omap slot_kv s).
Proof.
  induction s as [|x s IH]; intros Hu; simpl; [constructor|].
  assert (IHs : NoDup (fst <$> omap slot_kv s)).
  { apply IH. intros i j k v w Hi Hj. specialize (Hu (S i) (S j) k v w Hi Hj). lia. }
  destruct x as [| |k v]; simpl; [done..|]. constructor; [|done].
  intros ([k' w] & Hk & Hin)%list_elem_of_fmap. simpl in Hk. subst k'.
  apply list_elem_of_omap in Hin as (x & Hx & Hkv).
  destruct x as [| |k' v']; simpl in Hkv; simplify_eq.
  apply list_elem_of_lookup in Hx as [j Hj].
  specialize (Hu 0%nat (S j) k v w eq_refl Hj). lia.
Qed.

Lemma NoDup_iter m : wf_slots (slots m) -> NoDup (fst <$> iter m).
Proof.
  intros W. apply NoDup_keys. intros i j k v w Hi Hj.
  pose proof (lookup_lt_Some _ _ _ Hi). pose proof (lookup_lt_Some _ _ _ Hj).
  assert (Z.of_nat i = Z.of_nat j); [|lia].
  eapply (wf_unique _ W); (split; [unfold slots_len; lia|by rewrite Nat2Z.id]).
Qed.

Lemma to_map_spec m k v :
  wf_slots (slots m) -> to_map m !! k = Some v <-> exists i, occ (slots m) i k v.
Proof.
  intros W. unfold to_map. rewrite <- elem_of_list_to_map by (by apply NoDup_iter).
  apply elem_of_iter.
Qed.

Lemma to_map_none m k :
  wf_slots (slots m) -> to_map m !! k = None <-> forall i v, ~ occ (slots m) i k v.
Proof.
  intros W. split.
  - intros E i v Ho. assert (to_map m !! k = Some v) by (apply to_map_spec; eauto).
    congruence.
  - intros Hn. destruct (to_map m !! k) as [v|] eqn:E; [|done].
    apply to_map_spec in E as [i Hi]; [|done]. by destruct (Hn i v).
Qed.

Lemma get_to_map m key : wf_slots (slots m) -> get m key = to_map m !! key.
Proof.
  intros W. unfold get. destruct (find m key) as [[i v]|] eqn:E; simpl.
  - symmetry. apply to_map_spec; [done|]. exists i. by apply find_spec.
  - symmetry. apply to_map_none; [done|]. by apply find_none.
Qed.

(** ** Updating one slot *)

Lemma reachable_insert s i x k j :
  pow2 (slots_len s) -> 0 <= i < slots_len s -> x <> Empty ->
  reachable s k j -> reachable (<[ Z.to_nat i := x ]> s) k j.
Proof.
  intros Hp Hi Hx (p & Hb & -> & Hpath). exists p.
  rewrite slots_len_insert, get_slot_index_insert, probe_index_insert.
  split; [done|]. split; [done|]. intros q Hq. rewrite probe_index_insert.
  pose proof (probe_index_bound s (get_slot_index s k) q Hp).
  rewrite slot_at_insert by lia. case_decide; [congruence|auto].
Qed.

Lemma wf_slots_insert s i k v :
  wf_slots s -> 0 <= i < slots_len s ->
  (forall j w, occ s j k w -> j = i) -> reachable s k i ->
  wf_slots (<[ Z.to_nat i := Occupied k v ]> s).
Proof.
  intros [P U Pa] Hi Hk Hr. constructor.
  - by rewrite slots_len_insert.
  - intros a b k' v1 v2. rewrite !occ_insert by done.
    intros [[-> [= <- <-]]|[? Ha]] [[-> [= ]]|[? Hb]]; subst; try done.
    + by destruct (Hk b v2).
    + by destruct (Hk a v1).
    + eauto.
  - intros j k' w. rewrite occ_insert by done.
    intros [[-> [= <- <-]]|[? Hj]]; apply reachable_insert; eauto.
Qed.

Lemma wf_slots_dead s i :
  wf_slots s -> 0 <= i < slots_len s -> wf_slots (<[ Z.to_nat i := Dead ]> s).
Proof.
  intros [P U Pa] Hi. constructor.
  - by rewrite slots_len_insert.
  - intros a b k' v1 v2. rewrite !occ_insert by done.
    intros [[_ [=]]|[? Ha]] [[_ [=]]|[? Hb]]. eauto.
  - intros j k' w. rewrite occ_insert by done.
    intros [[_ [=]]|[? Hj]]. apply reachable_insert; eauto.
Qed.

Lemma to_map_insert s c c' i k v :
  wf_slots s -> wf_slots (<[ Z.to_nat i := Occupied k v ]> s) ->
  0 <= i < slots_len s ->
  (forall k' w, occ s i k' w -> k' = k) ->
  to_map (mkMap (<[ Z.to_nat i := Occupied k v ]> s) c') = <[ k := v ]> (to_map (mkMap s c)).
Proof.
  intros W W' Hi Hold. apply map_eq. intros k'. apply option_eq. intros w.
  rewrite to_map_spec by done. simpl.
  destruct (decide (k = k')) as [<-|Hne].
  - rewrite lookup_insert_eq. split.
    + intros [j Hj].
      assert (Ho : occ (<[ Z.to_nat i := Occupied k v ]> s) i k v)
        by (apply occ_insert; [done|by left]).
      pose proof (wf_unique _ W' _ _ _ _ _ Hj Ho) as ->.
      destruct Hj as [_ Hj]. destruct Ho as [_ Ho]. congruence.
    + intros [= <-]. exists i. apply occ_insert; [done|by left].
  - rewrite lookup_insert_ne, to_map_spec by done. simpl. split.
    + intros [j Hj]. rewrite occ_insert in Hj by done.
      destruct Hj as [[_ [=]]|[_ Hj]]; [done|eauto].
    + intros [j Hj]. exists j. apply occ_insert; [done|]. right. split; [|done].
      intros ->. by apply Hne, eq_sym, (Hold _ w).
Qed.

Lemma to_map_dead s c c' i k v :
  wf_slots s -> occ s i k v ->
  to_map (mkMap (<[ Z.to_nat i := Dead ]> s) c') = delete k (to_map (mkMap s c)).
Proof.
  intros W Ho. pose proof (wf_slots_dead s i W (proj1 Ho)) as W'.
  apply map_eq. intros k'. apply option_eq. intros w.
  rewrite to_map_spec by done. simpl. rewrite lookup_delete. case_decide as Hk.
  - subst k'. split; [|done]. intros [j Hj]. rewrite occ_insert in Hj by apply Ho.
    destruct Hj as [[_ [=]]|[Hne Hj]].
    by destruct Hne; apply (wf_unique _ W _ _ _ _ _ Hj Ho).
  - rewrite to_map_spec by done. simpl. split.
    + intros [j Hj]. rewrite occ_insert in Hj by apply Ho.
      destruct Hj as [[_ [=]]|[_ Hj]]. eauto.
    + intros [j Hj]. exists j. apply occ_insert; [apply Ho|]. right. split; [|done].
      intros ->. destruct Ho as [_ Ho], Hj as [_ Hj]. rewrite Ho in Hj. congruence.
Qed.

Lemma occupied_count_insert s i x y :
  0 <= i < slots_len s -> s !! Z.to_nat i = Some y ->
  occupied_count (<[ Z.to_nat i := x ]> s) + Z.of_nat (length (option_list (slot_kv y))) =
  occupied_count s + Z.of_nat (length (option_list (slot_kv x))).
Proof.
  intros Hi Hy. unfold occupied_count, slots_len in *.
  rewrite insert_take_drop by lia.
  rewrite <- (take_drop_middle s (Z.to_nat i) y Hy) at 3.
  rewrite !omap_app. simpl.
  destruct x, y; simpl; rewrite ?length_app; simpl; lia.
Qed.

Lemma occupied_count_bound s : 0 <= occupied_count s <= slots_len s.
Proof.
  unfold occupied_count, slots_len, omap. induction s as [|[] s IH]; simpl in *; lia.
Qed.

(** ** Probing for a place to write *)

(** The first [p] probed slots hold neither Empty nor the key. *)
Definition scanned s (key : Key) (start p : Z) : Prop :=
  forall q, 0 <= q < p ->
    slot_at s (probe_index s start q) <> Some Empty /\
    forall v, slot_at s (probe_index s start q) <> Some (Occupied key v).

Definition probe_ok s (key : Key) (start : Z) (r : probe_result V) : Prop :=
  match r with
  | AtOccupied i old => occ s i key old
  | AtVacant i =>
      (exists p, 0 <= p < slots_len s /\ i = probe_index s start p /\
         scanned s key start p) /\
      (slot_at s i = Some Empty \/ slot_at s i = Some Dead) /\
      exists pe, 0 <= pe < slots_len s /\ scanned s key start pe /\
        slot_at s (probe_index s start pe) = Some Empty
  | NoSlot => scanned s key start (slots_len s)
  end.

Lemma scanned_mono s key start p q :
  q <= p -> scanned s key start p -> scanned s key start q.
Proof. intros Hle Hs r Hr. apply Hs. lia. Qed.

Lemma scanned_step s key start p :
  scanned s key start p ->
  slot_at s (probe_index s start p) <> Some Empty ->
  (forall v, slot_at s (probe_index s start p) <> Some (Occupied key v)) ->
  scanned s key start (p + 1).
Proof.
  intros Hs He Ho q Hq. destruct (decide (q = p)) as [->|]; [done|]. apply Hs. lia.
Qed.

Lemma probe_loop_ok s key start n : forall probe fd,
  pow2 (slots_len s) -> 0 <= probe -> probe + Z.of_nat n = slots_len s ->
  scanned s key start probe ->
  (forall d, fd = Some d -> slot_at s d = Some Dead /\
     exists p, 0 <= p < probe /\ d = probe_index s start p) ->
  probe_ok s key start (probe_loop s key start n probe fd).
Proof.
  induction n as [|n IH]; intros probe fd Hp H0 Hn Hsc Hfd; simpl.
  { replace (slots_len s) with probe by lia. done. }
  destruct (slot_at_probe s start probe Hp) as [x Hx]. unfold slot_at in Hx. rewrite Hx.
  destruct x as [| |k w].
  - split; [|split].
    + destruct fd as [d|]; simpl.
      * destruct (Hfd d eq_refl) as (_ & p & Hb & ->). exists p.
        split; [lia|]. split; [done|]. by apply (scanned_mono _ _ _ probe); [lia|].
      * exists probe. split; [lia|done].
    + destruct fd as [d|]; simpl; [right; by apply Hfd|by left].
    + exists probe. split; [lia|done].
  - apply IH; [done|lia|lia| |].
    + apply scanned_step; [done|unfold slot_at; congruence..].
    + intros d Hd. destruct fd as [d'|]; simplify_eq.
      * destruct (Hfd d eq_refl) as (? & p & ? & ?). split; [done|]. exists p. split; [lia|done].
      * split; [done|]. exists probe. split; [lia|done].
  - case_decide as Hk.
    + subst k. split; [by apply probe_index_bound|done].
    + apply IH; [done|lia|lia| |].
      * apply scanned_step; [done|unfold slot_at; congruence..].
      * intros d Hd. destruct (Hfd d Hd) as (? & p & ? & ?).
        split; [done|]. exists p. split; [lia|done].
Qed.

Lemma probe_insert_ok s key :
  pow2 (slots_len s) -> probe_ok s key (get_slot_index s key) (probe_insert s key).
Proof.
  intros Hp. apply probe_loop_ok; [done|lia|unfold slots_len; lia| |done].
  intros q Hq. lia.
Qed.

Lemma absent_of_empty s key pe :
  wf_slots s -> 0 <= pe < slots_len s -> scanned s key (get_slot_index s key) pe ->
  slot_at s (probe_index s (get_slot_index s key) pe) = Some Empty ->
  forall i v, ~ occ s i key v.
Proof.
  intros W Hpe Hsc He i v Ho.
  destruct (wf_path _ W _ _ _ Ho) as (p & Hb & -> & Hpath).
  destruct (decide (p < pe)).
  - destruct (Hsc p ltac:(lia)) as [_ Hno]. apply (Hno v), Ho.
  - destruct (decide (p = pe)) as [->|].
    + destruct Ho as [_ Ho]. unfold slot_at in He. congruence.
    + by destruct (Hpath pe ltac:(lia)).
Qed.

Lemma absent_of_full s key :
  wf_slots s -> scanned s key (get_slot_index s key) (slots_len s) ->
  (forall i v, ~ occ s i key v) /\ ~ has_empty s.
Proof.
  intros W Hsc. split.
  - intros i v Ho.
    destruct (probe_index_surj s (get_slot_index s key) i (wf_pow2 _ W) (proj1 Ho))
      as (p & Hb & ->).
    destruct (Hsc p Hb) as [_ Hno]. apply (Hno v), Ho.
  - intros (i & Hi & He).
    destruct (probe_index_surj s (get_slot_index s key) (Z.of_nat i) (wf_pow2 _ W))
      as (p & Hb & Hp); [unfold slots_len; lia|].
    destruct (Hsc p Hb) as [Hne _]. apply Hne. unfold slot_at.
    by rewrite <- Hp, Nat2Z.id.
Qed.

(** ** The write operations on a table that is not over its load *)

Lemma insert_here_ok m key v :
  wf m ->
  match insert_here m key v with
  | Some (old, m') =>
      wf m' /\ to_map m' = <[ key := v ]> (to_map m) /\ old = to_map m !! key /\
      length (slots m') = length (slots m) /\
      (no_dead (slots m) -> no_dead (slots m')) /\
      count m' = count m + (if decide (is_Some (to_map m !! key)) then 0 else 1)
  | None => to_map m !! key = None /\ ~ has_empty (slots m)
  end.
Proof.
  intros [W Hmin Hc]. unfold insert_here.
  pose proof (probe_insert_ok (slots m) key (wf_pow2 _ W)) as Hok.
  assert (Hnd : forall i, no_dead (slots m) ->
    no_dead (<[ i := Occupied key v ]> (slots m))).
  { intros i Hn j Hj. apply list_lookup_insert_Some in Hj as [(_ & [=] & _)|[_ Hj]].
    by apply (Hn j). }
  destruct (probe_insert (slots m) key) as [i old|i|]; simpl in Hok.
  - assert (Hm : to_map m !! key = Some old) by (apply to_map_spec; eauto).
    assert (W' : wf_slots (<[ Z.to_nat i := Occupied key v ]> (slots m))).
    { apply wf_slots_insert; [done|apply Hok| |by eapply wf_path].
      intros j w Hj. by eapply wf_unique. }
    pose proof (occupied_count_insert (slots m) i (Occupied key v) _ (proj1 Hok) (proj2 Hok)).
    simpl in *. split; [constructor; simpl; [done|by rewrite slots_len_insert|lia]|].
    split; [|split; [done|split; [by rewrite length_insert|split; [apply Hnd|]]]].
    + apply (to_map_insert (slots m) (count m)); [done|done|apply Hok|].
      intros k' w Ho. destruct Hok as [_ Hok], Ho as [_ Ho]. rewrite Hok in Ho. congruence.
    + rewrite Hm. rewrite decide_True by eauto. lia.
  - destruct Hok as ((p & Hp & -> & Hsc) & Hv & pe & Hpe & Hsce & He).
    set (i := probe_index (slots m) (get_slot_index (slots m) key) p) in *.
    pose proof (absent_of_empty _ _ _ W Hpe Hsce He) as Habs.
    assert (Hi : 0 <= i < slots_len (slots m)) by apply probe_index_bound, wf_pow2, W.
    assert (W' : wf_slots (<[ Z.to_nat i := Occupied key v ]> (slots m))).
    { apply wf_slots_insert; [done|done| |].
      - intros j w Hj. by destruct (Habs j w).
      - exists p. split; [done|]. split; [done|]. intros q Hq. by apply Hsc. }
    assert (Hcnt : occupied_count (<[ Z.to_nat i := Occupied key v ]> (slots m)) =
      occupied_count (slots m) + 1).
    { destruct Hv as [Hv|Hv];
        pose proof (occupied_count_insert (slots m) i (Occupied key v) _ Hi Hv);
        simpl in *; lia. }
    assert (Hn : to_map m !! key = None) by (by apply to_map_none).
    simpl. split; [constructor; simpl; [done|by rewrite slots_len_insert|lia]|].
    split; [|split; [done|split; [by rewrite length_insert|split; [apply Hnd|]]]].
    + apply (to_map_insert (slots m) (count m)); [done|done|done|].
      intros k' w [_ Ho]. unfold slot_at in Hv. destruct Hv; congruence.
    + rewrite Hn. by rewrite decide_False by (by intros [? [=]]).
  - destruct (absent_of_full _ _ W Hok) as [Habs Hne]. split; [by apply to_map_none|done].
Qed.

Lemma remove_ok m key :
  wf m ->
  (remove m key).1 = to_map m !! key /\
  wf (remove m key).2 /\
  to_map (remove m key).2 = delete key (to_map m) /\
  length (slots (remove m key).2) = length (slots m).
Proof.
  intros [W Hmin Hc]. unfold remove. destruct (find m key) as [[i v]|] eqn:E; simpl.
  - apply find_spec in E; [|done].
    pose proof (occupied_count_insert (slots m) i Dead _ (proj1 E) (proj2 E)). simpl in *.
    split; [symmetry; apply to_map_spec; eauto|]. split; [|split].
    + constructor; simpl; [by apply wf_slots_dead, E|by rewrite slots_len_insert|lia].
    + by apply (to_map_dead (slots m) (count m)) with v.
    + by rewrite length_insert.
  - rewrite find_none, <- to_map_none in E by done.
    rewrite E. split; [done|]. split; [done|]. split; [|done]. by rewrite delete_id.
Qed.

Lemma get_mut_write_ok m key v :
  wf m ->
  match get_mut_write m key v with
  | Some m' => is_Some (to_map m !! key) /\ wf m' /\ to_map m' = <[ key := v ]> (to_map m)
  | None => to_map m !! key = None
  end.
Proof.
  intros [W Hmin Hc]. unfold get_mut_write. destruct (find m key) as [[i w]|] eqn:E.
  - apply find_spec in E; [|done].
    assert (W' : wf_slots (<[ Z.to_nat i := Occupied key v ]> (slots m))).
    { apply wf_slots_insert; [done|apply E| |by eapply wf_path].
      intros j w' Hj. by eapply wf_unique. }
    pose proof (occupied_count_insert (slots m) i (Occupied key v) _ (proj1 E) (proj2 E)).
    simpl in *. split; [exists w; apply to_map_spec; eauto|]. split.
    + constructor; simpl; [done|by rewrite slots_len_insert|lia].
    + apply (to_map_insert (slots m) (count m)); [done|done|apply E|].
      intros k' w' Ho. destruct E as [_ E], Ho as [_ Ho]. rewrite E in Ho. congruence.
  - by rewrite find_none, <- to_map_none in E by done.
Qed.

Lemma no_occ_replicate n i (k : Key) (v : V) :
  ~ occ (replicate n Empty) i k v.
Proof. intros [_ Ho]. by apply lookup_replicate in Ho as [[=] _]. Qed.

Lemma occupied_count_replicate n : occupied_count (replicate (A:=Slot Key V) n Empty) = 0.
Proof. unfold occupied_count, omap. by induction n. Qed.

Lemma no_dead_replicate n : no_dead (replicate (A:=Slot Key V) n Empty).
Proof. intros i Hi. by apply lookup_replicate in Hi as [[=] _]. Qed.

Lemma wf_fresh cap :
  pow2 cap -> DEFAULT_CAPACITY <= cap ->
  wf (mkMap (replicate (Z.to_nat cap) Empty) 0) /\
  to_map (mkMap (replicate (Z.to_nat cap) Empty) 0) = ∅ /\
  slots_len (replicate (A:=Slot Key V) (Z.to_nat cap) Empty) = cap.
Proof.
  intros Hp Hc. unfold DEFAULT_CAPACITY in *.
  assert (Hl : slots_len (replicate (A:=Slot Key V) (Z.to_nat cap) Empty) = cap).
  { unfold slots_len. rewrite length_replicate. lia. }
  assert (W : wf_slots (replicate (A:=Slot Key V) (Z.to_nat cap) Empty)).
  { constructor; [by rewrite Hl|..].
    - intros i j k v w Ho. by apply no_occ_replicate in Ho.
    - intros i k v Ho. by apply no_occ_replicate in Ho. }
  split; [|split; [|done]].
  - constructor; simpl; [done|by rewrite Hl|by rewrite occupied_count_replicate].
  - apply map_eq. intros k. rewrite lookup_empty. apply to_map_none; [done|].
    intros i v. apply no_occ_replicate.
Qed.

Lemma pow2_max a b : pow2 a -> pow2 b -> pow2 (Z.max a b).
Proof. intros. destruct (Z.max_spec a b) as [[_ ->]|[_ ->]]; done. Qed.

Lemma pow2_default : pow2 DEFAULT_CAPACITY.
Proof. exists 4. done. Qed.

Lemma clear_ok m : wf m -> wf (clear m) /\ to_map (clear m) = ∅ /\ no_dead (slots (clear m)).
Proof.
  intros [[P _ _] Hmin _].
  assert (E : clear m = mkMap (replicate (Z.to_nat (slots_len (slots m))) Empty) 0).
  { unfold clear, slots_len. f_equal. rewrite Nat2Z.id.
    clear. induction (slots m) as [|x s IH]; simpl; [done|]. by rewrite <- IH. }
  rewrite E. destruct (wf_fresh _ P Hmin) as (? & ? & _).
  split; [done|]. split; [done|]. apply no_dead_replicate.
Qed.

Lemma has_empty_of_no_dead s :
  no_dead s -> occupied_count s < slots_len s -> has_empty s.
Proof.
  unfold occupied_count, slots_len, omap.
  induction s as [|x s IH]; intros Hn Hlt; simpl in *; [lia|].
  assert (Hn' : no_dead s) by (intros i; apply (Hn (S i))).
  destruct x as [| |k v].
  - exists 0%nat. simpl. split; [lia|done].
  - by destruct (Hn 0%nat).
  - destruct IH as (i & Hi & He); [done|simpl in *; lia|].
    exists (S i). simpl. split; [lia|done].
Qed.

(** ** Growing *)

Lemma grow_fold kvs : forall m0,
  wf m0 -> no_dead (slots m0) -> NoDup (fst <$> kvs) ->
  (forall kv, kv ∈ kvs -> to_map m0 !! kv.1 = None) ->
  (count m0 + Z.of_nat (length kvs)) * 4 <= slots_len (slots m0) * 3 ->
  exists m', wf m' /\ no_dead (slots m') /\ length (slots m') = length (slots m0) /\
    to_map m' = list_to_map kvs ∪ to_map m0 /\
    count m' = count m0 + Z.of_nat (length kvs) /\
    forall f, (forall m k v, over_load m = false -> f m k v = insert_here m k v) ->
      foldl (fun acc kv => m' ← acc; snd <$> f m' kv.1 kv.2) (Some m0) kvs = Some m'.
Proof.
  induction kvs as [|[k v] kvs IH]; intros m0 Hwf Hnd Hdup Hab Hcap; simpl in *.
  { exists m0. split; [done|]. split; [done|]. split; [done|].
    split; [by rewrite map_empty_union|]. split; [lia|]. done. }
  apply NoDup_cons in Hdup as [Hk Hdup].
  pose proof (Hab (k, v) ltac:(by left)) as Hnone. simpl in Hnone.
  pose proof (insert_here_ok m0 k v Hwf) as Hins.
  destruct (insert_here m0 k v) as [[old m1]|] eqn:Ei.
  - destruct Hins as (Hwf1 & Hmap1 & _ & Hlen1 & Hnd1 & Hcnt1).
    rewrite Hnone, decide_False in Hcnt1 by (by intros [? [=]]).
    destruct (IH m1) as (m' & ? & ? & Hl & Hm & Hc & Hf).
    + done.
    + by apply Hnd1.
    + done.
    + intros kv Hin. rewrite Hmap1. rewrite lookup_insert_ne.
      * apply Hab. by right.
      * intros ->. apply Hk. apply list_elem_of_fmap. eauto.
    + unfold slots_len in *. rewrite Hlen1. lia.
    + exists m'. split; [done|]. split; [done|]. split; [congruence|].
      split; [|split; [lia|]].
      * rewrite Hm, Hmap1. rewrite <- insert_union_r.
        -- by rewrite insert_union_l.
        -- by apply not_elem_of_list_to_map_1.
      * intros f Hfok. rewrite Hfok; [rewrite Ei; by apply Hf|].
        unfold over_load, MAX_LOAD_FACTOR_NUM, MAX_LOAD_FACTOR_DEN.
        apply Z.ltb_ge. lia.
  - exfalso. destruct Hins as [_ Hne]. apply Hne, has_empty_of_no_dead; [done|].
    rewrite <- (wf_count _ Hwf). pose proof (occupied_count_bound (slots m0)).
    unfold slots_len in *. rewrite <- (wf_count _ Hwf) in *. lia.
Qed.

Lemma length_iter m : wf m -> Z.of_nat (length (iter m)) = count m.
Proof. intros []. done. Qed.

Lemma grow_ok m :
  wf m ->
  exists m', (forall n, grow_with (insert_fuel (S n)) m = Some m') /\
    wf m' /\ no_dead (slots m') /\ to_map m' = to_map m /\ count m' = count m /\
    slots_len (slots m') = Z.max (slots_len (slots m) * 2) DEFAULT_CAPACITY.
Proof.
  intros Hwf. set (cap := Z.max (slots_len (slots m) * 2) DEFAULT_CAPACITY).
  assert (Hp : pow2 cap) by (apply pow2_max; [apply pow2_double, Hwf|apply pow2_default]).
  destruct (wf_fresh cap Hp) as (Hf & He & Hl); [unfold cap; lia|].
  destruct (grow_fold (iter m) (mkMap (replicate (Z.to_nat cap) Empty) 0))
    as (m' & W' & Hnd & Hlen & Hm & Hc & Hfold).
  - done.
  - apply no_dead_replicate.
  - apply NoDup_iter, Hwf.
  - intros kv _. by rewrite He, lookup_empty.
  - simpl. rewrite Hl, length_iter by done. destruct Hwf as [W Hmin Hcnt].
    pose proof (occupied_count_bound (slots m)). rewrite <- Hcnt in *. unfold cap. lia.
  - exists m'. split.
    + intros n. apply Hfold. intros m1 k v Hov. simpl. by rewrite Hov.
    + split; [done|]. split; [done|]. rewrite Hm, He, map_union_empty.
      split; [done|]. rewrite Hc, length_iter by done. simpl. split; [lia|].
      unfold slots_len in *. by rewrite Hlen.
Qed.

Lemma grow_not_over m m' : wf m ->
  count m' = count m ->
  slots_len (slots m') = Z.max (slots_len (slots m) * 2) DEFAULT_CAPACITY ->
  over_load m' = false.
Proof.
  intros [W Hmin Hcnt] Hc Hl. unfold over_load. rewrite Hc, Hl.
  pose proof (occupied_count_bound (slots m)). rewrite <- Hcnt in *.
  unfold MAX_LOAD_FACTOR_NUM, MAX_LOAD_FACTOR_DEN, DEFAULT_CAPACITY in *.
  apply Z.ltb_ge. lia.
Qed.

(** The table [insert] and [entry] write into: the map is the same, and it is under
    its load. *)
Lemma reserve_ok m n :
  wf m ->
  exists m1, (if over_load m then grow_with (insert_fuel (S n)) m else Some m) = Some m1 /\
    wf m1 /\ to_map m1 = to_map m /\ count m1 = count m /\ over_load m1 = false /\
    (no_dead (slots m) -> no_dead (slots m1)) /\
    (over_load m = true -> no_dead (slots m1)) /\ (over_load m = false -> m1 = m) /\
    (forall k, (if over_load m then grow_with (insert_fuel (S k)) m else Some m) = Some m1).
Proof.
  intros Hwf. destruct (over_load m) eqn:Eo.
  - destruct (grow_ok m Hwf) as (m' & Hg & W' & Hnd & Hm & Hc & Hl).
    exists m'. rewrite Hg. split_and!; try done. by apply (grow_not_over m).
  - exists m. by split_and!.
Qed.

Lemma has_empty_under_load m :
  wf m -> no_dead (slots m) -> over_load m = false -> has_empty (slots m).
Proof.
  intros [W Hmin Hc] Hn Hov. apply has_empty_of_no_dead; [done|].
  unfold over_load, MAX_LOAD_FACTOR_NUM, MAX_LOAD_FACTOR_DEN, DEFAULT_CAPACITY in *.
  bool_hyps. pose proof (occupied_count_bound (slots m)). lia.
Qed.

Lemma insert_fuel_S n m key v :
  insert_fuel (S n) m key v =
    (m' ← (if over_load m then grow_with (insert_fuel n) m else Some m);
     insert_here m' key v).
Proof. done. Qed.

Lemma insert_ok m key v :
  wf m ->
  match insert m key v with
  | Some (old, m') =>
      wf m' /\ to_map m' = <[ key := v ]> (to_map m) /\ old = to_map m !! key /\
      (no_dead (slots m) -> no_dead (slots m'))
  | None =>
      over_load m = false /\ to_map m !! key = None /\
      ~ has_empty (slots m) /\ ~ no_dead (slots m)
  end.
Proof.
  intros Hwf. unfold insert. rewrite insert_fuel_S.
  destruct (reserve_ok m 0 Hwf)
    as (m1 & -> & W1 & Hm1 & Hc1 & Hov & Hn1 & Hg1 & Hs1 & _). cbn [mbind option_bind].
  pose proof (insert_here_ok m1 key v W1) as Hins. rewrite Hm1 in Hins.
  destruct (insert_here m1 key v) as [[old m']|].
  - destruct Hins as (? & ? & ? & _ & ? & _). split_and!; auto.
  - destruct Hins as [Hnone Hne].
    destruct (over_load m) eqn:Eo.
    + exfalso. apply Hne, has_empty_under_load; auto.
    + rewrite (Hs1 eq_refl) in *. split; [done|]. split; [done|]. split; [done|].
      intros Hnd. apply Hne, has_empty_under_load; auto.
Qed.

Lemma entry_ok m key v :
  wf m ->
  match entry_or_insert m key v with
  | Some (w, m') =>
      wf m' /\ w = default v (to_map m !! key) /\
      to_map m' = match to_map m !! key with Some _ => to_map m | None => <[ key := v ]> (to_map m) end /\
      (no_dead (slots m) -> no_dead (slots m'))
  | None => to_map m !! key = None /\ ~ no_dead (slots m)
  end.
Proof.
  intros Hwf. unfold entry_or_insert, grow.
  destruct (reserve_ok m 0 Hwf)
    as (m1 & -> & W1 & Hm1 & Hc1 & Hov & Hn1 & Hg1 & Hs1 & _). simpl.
  pose proof (insert_here_ok m1 key v W1) as Hins. unfold insert_here in Hins.
  pose proof (probe_insert_ok (slots m1) key (wf_pow2 _ (wf_slots_ok _ W1))) as Hok.
  destruct (probe_insert (slots m1) key) as [i w|i|]; rewrite Hm1 in Hins; simpl in Hok.
  - assert (E : to_map m1 !! key = Some w) by (apply to_map_spec; [apply W1|eauto]).
    rewrite Hm1 in E. rewrite E. split_and!; auto.
  - destruct Hins as (W' & Hm' & Hnone & _ & Hnd & _).
    rewrite <- Hnone. split_and!; auto.
  - destruct Hins as [Hnone Hne]. split; [done|]. intros Hnd.
    apply Hne, has_empty_under_load; auto.
Qed.

Lemma step_ok m o :
  wf m ->
  match step m o with
  | Some (r, m') =>
      wf m' /\ spec_step (to_map m) o = (r, to_map m') /\
      (keeps_alive o = true -> no_dead (slots m) -> no_dead (slots m'))
  | None => ~ no_dead (slots m)
  end.
Proof.
  intros Hwf. destruct o as [k v|k|k|k v|k v|]; simpl.
  - pose proof (insert_ok m k v Hwf) as Hi. destruct (insert m k v) as [[old m']|].
    + destruct Hi as (? & -> & -> & ?). auto.
    + apply Hi.
  - destruct (remove_ok m k Hwf) as (H1 & H2 & H3 & _).
    destruct (remove m k) as [r m']; simpl in *. split; [done|]. split; [congruence|done].
  - split; [done|]. split; [|done]. by rewrite get_to_map by apply Hwf.
  - pose proof (get_mut_write_ok m k v Hwf) as Hg. unfold get_mut_write in *.
    destruct (find m k) as [[i w]|] eqn:E.
    + destruct Hg as ([x Hx] & ? & ->). rewrite Hx. split_and!; auto.
      intros _ Hnd j Hj. simpl in Hj.
      apply list_lookup_insert_Some in Hj as [(_ & [=] & _)|[_ Hj]]. by apply (Hnd j).
    + rewrite Hg. auto.
  - pose proof (entry_ok m k v Hwf) as He.
    destruct (entry_or_insert m k v) as [[w m']|]; simpl.
    + destruct He as (? & -> & -> & ?). split; [done|]. split; [|auto].
      by destruct (to_map m !! k).
    + apply He.
  - destruct (clear_ok m Hwf) as (? & -> & ?). auto.
Qed.

Lemma run_ok os : forall m, wf m ->
  match run m os with
  | Some (rs, m') =>
      wf m' /\ spec_run (to_map m) os = (rs, to_map m') /\
      (forallb keeps_alive os = true -> no_dead (slots m) -> no_dead (slots m'))
  | None => forallb keeps_alive os = true -> ~ no_dead (slots m)
  end.
Proof.
  induction os as [|o os IH]; intros m Hwf; simpl; [auto|].
  pose proof (step_ok m o Hwf) as Ho. destruct (step m o) as [[r m1]|]; simpl.
  - destruct Ho as (W1 & Hs & Hn1). specialize (IH m1 W1). rewrite Hs. simpl.
    destruct (run m1 os) as [[rs m2]|]; simpl.
    + destruct IH as (W2 & -> & Hn2). simpl. split; [done|]. split; [done|].
      intros [? ?]%andb_true_iff ?. auto.
    + intros [? ?]%andb_true_iff ?. apply IH; auto.
  - intros _. done.
Qed.

Lemma with_capacity_ok c :
  wf (with_capacity c) /\ to_map (with_capacity c) = ∅ /\ no_dead (slots (with_capacity c)).
Proof.
  unfold with_capacity.
  destruct (wf_fresh (Z.max (next_power_of_two c) DEFAULT_CAPACITY)) as (? & ? & _).
  - apply pow2_max; [apply pow2_next|apply pow2_default].
  - lia.
  - split_and!; [done|done|]. apply no_dead_replicate.
Qed.

(** C23: the open-addressing table refines the finite map: whatever operations run on a
    table made by [FxHashMap::with_capacity] (growth, tombstones and slot reuse
    included), as long as none panics, every value returned is the one the finite map
    returns, the table stays well formed, and it holds exactly the finite map's pairs. *)
Theorem hash_map_refines (c : Z) (os : list op) rs m :
  run (with_capacity c) os = Some (rs, m) ->
  wf m /\ spec_run ∅ os = (rs, to_map m) /\
  (forall k v, (k, v) ∈ iter m <-> to_map m !! k = Some v) /\
  len m = Z.of_nat (size (to_map m)).
Proof.
  intros Hr. destruct (with_capacity_ok c) as (W & He & _).
  pose proof (run_ok os _ W) as Hok. rewrite Hr, He in Hok.
  destruct Hok as (W' & Hs & _). split; [done|]. split; [done|]. split.
  - intros k v. rewrite elem_of_iter. symmetry. apply to_map_spec, W'.
  - unfold len, to_map. rewrite map_size_list_to_map by apply NoDup_iter, W'.
    by rewrite length_iter.
Qed.

(** Without [remove] no operation ever panics, whatever the keys hash to: the load
    limit keeps an empty slot on every probe path. *)
Theorem no_remove_no_panic (c : Z) (os : list op) :
  forallb keeps_alive os = true -> is_Some (run (with_capacity c) os).
Proof.
  intros Hk. destruct (with_capacity_ok c) as (W & _ & Hn).
  pose proof (run_ok os _ W) as Hok. destruct (run (with_capacity c) os); [eauto|].
  by destruct (Hok Hk).
Qed.

(** The recursion [insert] -> [grow] -> [insert] is at most two deep: the inner
    insertions never grow the new table again, whatever the fuel. *)
Theorem insert_depth (n : nat) m key v :
  wf m -> insert_fuel (S (S n)) m key v = insert m key v /\
  (over_load m = true -> exists m', grow m = Some m' /\ over_load m' = false /\
     to_map m' = to_map m).
Proof.
  intros Hwf. destruct (reserve_ok m 0 Hwf)
    as (m1 & Hr & W1 & Hm1 & Hc1 & Hov & Hn1 & Hg1 & Hs1 & Hall). split.
  - unfold insert. rewrite !insert_fuel_S. by rewrite !Hall.
  - intros Ho. exists m1. split; [|done]. unfold grow. specialize (Hall 0%nat).
    by rewrite Ho in Hall.
Qed.
End table.

(** ** Tombstones exhaust the table *)

(** [usize] keys: [into] is the identity. *)
Definition usize_key (k : Z) : Z := k.

(** Insert and remove one key after the other: the map never holds more than one. *)
Definition churn (ks : list Z) : list (op (Key:=Z) (V:=Z)) :=
  flat_map (fun k => [Insert k k; Remove k]) ks.

(** Removals wear the table out: after 27 keys have each been inserted and removed
    again the 16-slot map is empty, yet inserting one more key finds no slot.  The debug
    build panics there; the release build drops the value and reports [None]. *)
Theorem tombstones_exhaust :
  exists rs m, run usize_key (new (Key:=Z)) (churn (seqZ 0 27)) = Some (rs, m) /\
    is_empty m = true /\ to_map m = ∅ /\ over_load m = false /\
    insert usize_key m 27 27 = None.
Proof.
  destruct (run usize_key (new (Key:=Z) (V:=Z)) (churn (seqZ 0 27))) as [[rs m]|] eqn:E;
    [|by vm_compute in E].
  exists rs, m. split; [done|]. vm_compute in E. injection E as <- <-.
  split_and!; vm_compute; reflexivity.
Qed.

(** ** The hash of one [usize] *)

Definition hash_usize (i : Z) : Z := finish_usize (add_to_hash 0 i).

(** The inverse of the odd multiplier modulo 2^64. *)
Definition K_inv : Z := 0x781494a55daaed0d.

Lemma rotate_left_split x n :
  0 < n < 64 -> in_width 64 x ->
  rotate_left x n = (x mod 2 ^ (64 - n)) * 2 ^ n + x / 2 ^ (64 - n).
Proof.
  intros Hn Hx. unfold rotate_left, wrap, in_width in *.
  rewrite Z.shiftl_mul_pow2, Z.shiftr_div_pow2 by lia.
  replace (2 ^ 64) with (2 ^ (64 - n) * 2 ^ n) in * by (rewrite <- Z.pow_add_r by lia; f_equal; lia).
  rewrite Z.mul_mod_distr_r by lia. apply lor_low.
  - lia.
  - split; [apply Z.div_pos; lia|]. apply Z.div_lt_upper_bound; lia.
Qed.

Lemma rotate_left_inj x y n :
  0 < n < 64 -> in_width 64 x -> in_width 64 y ->
  rotate_left x n = rotate_left y n -> x = y.
Proof.
  intros Hn Hx Hy. rewrite !rotate_left_split by done. unfold in_width in *. intros E.
  assert (Hb : forall z, 0 <= z < 2 ^ 64 -> 0 <= z / 2 ^ (64 - n) < 2 ^ n).
  { intros z Hz. split; [apply Z.div_pos; lia|]. apply Z.div_lt_upper_bound; [lia|].
    rewrite <- Z.pow_add_r by lia. replace (64 - n + n) with 64 by lia. lia. }
  pose proof (Hb x Hx). pose proof (Hb y Hy).
  assert (Hm : x mod 2 ^ (64 - n) = y mod 2 ^ (64 - n)) by nia.
  rewrite Hm in E. rewrite (Z.div_mod x (2 ^ (64 - n))), (Z.div_mod y (2 ^ (64 - n))) by lia.
  nia.
Qed.

Lemma add_to_hash_inj x y :
  in_width 64 x -> in_width 64 y -> add_to_hash 0 x = add_to_hash 0 y -> x = y.
Proof.
  unfold add_to_hash. rewrite !Z.add_0_l. intros Hx Hy.
  rewrite (wrap_small 64 x), (wrap_small 64 y) by done. unfold wrap. intros E.
  assert (Hinv : forall z, in_width 64 z -> ((z * K) mod 2 ^ 64 * K_inv) mod 2 ^ 64 = z).
  { intros z Hz. rewrite Z.mul_mod_idemp_l by lia. rewrite <- Z.mul_assoc.
    rewrite <- (Z.mul_mod_idemp_r _ (K * K_inv)) by lia.
    replace (K * K_inv mod 2 ^ 64) with 1 by reflexivity.
    rewrite Z.mul_1_r. by apply wrap_small. }
  rewrite <- (Hinv x Hx), <- (Hinv y Hy). by rewrite E.
Qed.

(** The hash of a [usize] is a permutation of the 64-bit words: two different keys
    never share their full hash, so collisions only come from masking it down. *)
Theorem hash_usize_injective (x y : Z) :
  in_width 64 x -> in_width 64 y -> in_width 64 (hash_usize x) /\
  (hash_usize x = hash_usize y -> x = y).
Proof.
  intros Hx Hy. unfold hash_usize, finish_usize, ROTATE.
  assert (Hw : forall i, in_width 64 (add_to_hash 0 i)) by (intros; by apply in_width_wrap).
  split.
  - rewrite rotate_left_split by (done || lia).
    pose proof (Hw x) as Hb. unfold in_width in *.
    pose proof (Z.mod_pos_bound (add_to_hash 0 x) (2 ^ (64 - 26)) ltac:(lia)).
    assert (0 <= add_to_hash 0 x / 2 ^ (64 - 26) < 2 ^ 26).
    { split; [apply Z.div_pos; lia|]. apply Z.div_lt_upper_bound; lia. }
    change (64 - 26) with 38 in *. lia.
  - intros E. apply rotate_left_inj in E; [|lia|done|done]. by apply add_to_hash_inj.
Qed.

(** ** Witnesses *)

(** Eighteen insertions (one growth), an overwrite, a removal, a clear and a reuse. *)
Definition demo_ops : list (op (Key:=Z) (V:=Z)) :=
  map (fun k => Insert k (k * k)) (seqZ 0 18) ++
  [Insert 3 33; Remove 4; Get 4; EntryOrInsert 4 44; GetMutWrite 5 55; Get 17].

Lemma hash_map_refines_witness :
  exists rs m, run usize_key (with_capacity 1) demo_ops = Some (rs, m) /\
    wf usize_key m /\ to_map m !! 3 = Some 33 /\ to_map m !! 4 = Some 44 /\ len m = 18.
Proof.
  destruct (run usize_key (with_capacity 1) demo_ops) as [[rs m]|] eqn:E;
    [|by vm_compute in E].
  exists rs, m. split; [done|].
  destruct (hash_map_refines usize_key 1 demo_ops rs m E) as (W & _ & _ & _).
  split; [exact W|]. vm_compute in E. injection E as <- <-.
  split_and!; vm_compute; reflexivity.
Defined.

Lemma no_remove_no_panic_witness :
  is_Some (run usize_key (with_capacity 1) (map (fun k => Insert k k) (seqZ 100 40))).
Proof. apply no_remove_no_panic. vm_compute. reflexivity. Defined.

Lemma insert_depth_witness :
  insert_fuel usize_key 7 (with_capacity 1) 5 50 = insert usize_key (with_capacity 1) 5 50.
Proof. apply (insert_depth usize_key 5). apply with_capacity_ok. Defined.

Lemma hash_usize_injective_witness :
  in_width 64 (hash_usize 1) /\ (hash_usize 1 = hash_usize 2 -> 1 = 2).
Proof. apply hash_usize_injective; unfold in_width; lia. Defined.
