(* ===== verification/RustVec.v ===== *)
(** * RustVec: the growable array of kernel/src/data_structures/vector.rs

    The buffer is a list of cells, [None] an uninitialised one; [None] as an
    operation's result is a panic or undefined behaviour (a read of an uninitialised
    cell, a write outside the buffer, the null buffer [resize] does not check for).
    [repr v l]: the vector [v] holds the list [l]. *)

From Stdlib Require Import ZArith Lia.
From stdpp Require Import base tactics list option numbers.
From S2P Require Import Prelude.

Record Vec (T : Type) : Type := mkVec {
  size : nat;
  capacity : nat;
  data : list (option T);
}.
Arguments mkVec {T}.
Arguments size {T}.
Arguments capacity {T}.
Arguments data {T}.

Section vec.
Context {T : Type}.
(** Whether the layout of [n] elements exists and its allocation is not null. *)
Variable alloc_array : nat -> bool.

Implicit Types v : Vec T.
Implicit Types l : list T.

Definition with_capacity (c : nat) : option (Vec T) :=
  if bool_decide (0 < c)%nat && alloc_array c then Some (mkVec 0 c (replicate c None)) else None.

Definition new : option (Vec T) := with_capacity 4.

Definition cell (buf : list (option T)) (i : nat) : option T := default None (buf !! i).

Definition get v (index : nat) : option T :=
  if decide (index < size v)%nat then cell (data v) index else None.

(** [*vec.get_mut(index) = x] *)
Definition get_mut_write v (index : nat) (x : T) : option (Vec T) :=
  if decide (index < size v)%nat
  then Some (mkVec (size v) (capacity v) (<[ index := Some x ]> (data v))) else None.

(** [ptr::copy_nonoverlapping(data, new_ptr, size)] into a fresh buffer. The capacity
    the doubling loop computes is overwritten by the final
    [self.capacity = new_capacity] before anything reads it. *)
Definition resize v (new_capacity : nat) : option (Vec T) :=
  if decide (new_capacity <= capacity v)%nat then Some v else
  if alloc_array new_capacity then
    Some (mkVec (size v) new_capacity
      (take (size v) (data v) ++ replicate (new_capacity - size v) None))
  else None.

Definition reserve v : option (Vec T) :=
  if decide (size v = capacity v) then resize v (capacity v * 2) else Some v.

(** [ptr::write] into the buffer; outside of it is undefined behaviour. *)
Definition write (buf : list (option T)) (i : nat) (x : option T) : option (list (option T)) :=
  if decide (i < length buf)%nat then Some (<[ i := x ]> buf) else None.

Definition push v (value : T) : option (Vec T) :=
  v ← reserve v;
  buf ← write (data v) (size v) (Some value);
  Some (mkVec (S (size v)) (capacity v) buf).

Definition pop v : option (option T * Vec T) :=
  match size v with
  | O => Some (None, v)
  | S n => x ← cell (data v) n; Some (Some x, mkVec n (capacity v) (data v))
  end.

(** [ptr::copy(src, dst, n)], which allows overlap. *)
Definition ptr_copy (buf : list (option T)) (src dst n : nat) : option (list (option T)) :=
  if decide (src + n <= length buf /\ dst + n <= length buf)%nat
  then Some (splice buf dst (slice buf src n)) else None.

Definition insert v (index : nat) (item : T) : option (Vec T) :=
  if decide (index <= size v)%nat then
    v ← reserve v;
    buf ← ptr_copy (data v) index (index + 1) (size v - index);
    buf ← write buf index (Some item);
    Some (mkVec (S (size v)) (capacity v) buf)
  else None.

Definition remove v (index : nat) : option (T * Vec T) :=
  if decide (index < size v)%nat then
    item ← cell (data v) index;
    buf ← ptr_copy (data v) (index + 1) index (size v - index - 1);
    Some (item, mkVec (size v - 1) (capacity v) buf)
  else None.

Definition clear v : Vec T := mkVec 0 (capacity v) (data v).

(** [as_slice]: the first [size] cells, all of which are initialised. *)
Definition as_slice v : list T := omap id (take (size v) (data v)).

Definition len v : nat := size v.

Definition is_empty v : bool := bool_decide (size v = 0%nat).

(** The loop of [retain]: read position, write position and buffer. *)
Fixpoint retain_loop (predicate : T -> bool) (n read_pos write_pos : nat)
    (buf : list (option T)) : option (nat * list (option T)) :=
  match n with
  | O => Some (write_pos, buf)
  | S n =>
      x ← cell buf read_pos;
      if predicate x then
        buf' ← (if decide (read_pos = write_pos) then Some buf
                else write buf write_pos (Some x));
        retain_loop predicate n (S read_pos) (S write_pos) buf'
      else retain_loop predicate n (S read_pos) write_pos buf
  end.

Definition retain v (predicate : T -> bool) : option (Vec T) :=
  r ← retain_loop predicate (size v) 0 0 (data v);
  Some (mkVec r.1 (capacity v) r.2).

Definition from_iter (l : list T) : option (Vec T) :=
  v0 ← new; foldl (fun acc x => v ← acc; push v x) (Some v0) l.

(** [Clone]: element by element into a vector of the same capacity. *)
Definition clone v : option (Vec T) :=
  v0 ← with_capacity (capacity v);
  foldl (fun acc x => v ← acc; push v x) (Some v0) (as_slice v).

(** The operations as one step: the value handed back, [None] a panic. *)
Inductive op : Type :=
  | Push (x : T)
  | Pop
  | Insert (i : nat) (x : T)
  | Remove (i : nat)
  | Retain (p : T -> bool)
  | Resize (c : nat)
  | Clear.

Definition step v (o : op) : option (option T * Vec T) :=
  match o with
  | Push x => v' ← push v x; Some (None, v')
  | Pop => pop v
  | Insert i x => v' ← insert v i x; Some (None, v')
  | Remove i => r ← remove v i; Some (Some r.1, r.2)
  | Retain p => v' ← retain v p; Some (None, v')
  | Resize c => v' ← resize v c; Some (None, v')
  | Clear => Some (None, clear v)
  end.

Definition spec_step l (o : op) : option (option T * list T) :=
  match o with
  | Push x => Some (None, l ++ [x])
  | Pop => Some (list.last l, take (length l - 1) l)
  | Insert i x =>
      if decide (i <= length l)%nat then Some (None, take i l ++ x :: drop i l) else None
  | Remove i => x ← l !! i; Some (Some x, take i l ++ drop (S i) l)
  | Retain p => Some (None, filter (fun x => p x = true) l)
  | Resize _ => Some (None, l)
  | Clear => Some (None, [])
  end.

(** ** Refinement *)

Record repr v l : Prop := {
  repr_size : size v = length l;
  repr_fits : (size v <= capacity v)%nat;
  repr_data : length (data v) = capacity v;
  repr_cells : take (size v) (data v) = Some <$> l;
  repr_pos : (0 < capacity v)%nat;
}.

Lemma repr_split v l :
  repr v l -> exists rest, data v = (Some <$> l) ++ rest /\
    (length l + length rest = capacity v)%nat.
Proof.
  intros [Sz F D C _]. exists (drop (size v) (data v)).
  split; [by rewrite <- C, take_drop|]. rewrite length_drop. lia.
Qed.

Lemma repr_build n c l rest :
  n = length l -> (length l + length rest = c)%nat -> (0 < c)%nat ->
  repr (mkVec n c ((Some <$> l) ++ rest)) l.
Proof.
  intros -> <- Hc. constructor; simpl; [done|lia| | |done].
  - by rewrite length_app, length_fmap.
  - by rewrite take_app_length' by (by rewrite length_fmap).
Qed.

Lemma cell_repr l rest i : (i < length l)%nat -> cell ((Some <$> l) ++ rest) i = l !! i.
Proof.
  intros Hi. unfold cell. rewrite lookup_app_l by (by rewrite length_fmap).
  rewrite list_lookup_fmap. by destruct (lookup_lt_is_Some_2 l i Hi) as [x ->].
Qed.

Lemma vec_with_capacity_repr c v : with_capacity c = Some v -> repr v [].
Proof.
  unfold with_capacity. case_match eqn:E; [|done]. intros [= <-].
  apply andb_true_iff in E as [E _]. apply bool_decide_eq_true in E.
  apply (repr_build 0 c [] (replicate c None)); simpl; [done|by rewrite length_replicate|done].
Qed.

Lemma resize_repr v l c v' : repr v l -> resize v c = Some v' -> repr v' l.
Proof.
  intros R. unfold resize. case_decide; [congruence|]. case_match; [|done].
  intros [= <-]. rewrite (repr_cells _ _ R), (repr_size _ _ R).
  pose proof (repr_fits _ _ R). pose proof (repr_size _ _ R).
  apply repr_build; [done|rewrite length_replicate; lia|lia].
Qed.

Lemma vec_reserve_repr v l v' :
  repr v l -> reserve v = Some v' -> repr v' l /\ (size v' < capacity v')%nat.
Proof.
  intros R. unfold reserve. case_decide as E.
  - intros Hr. pose proof (resize_repr _ _ _ _ R Hr) as R'. split; [done|].
    revert Hr. unfold resize. pose proof (repr_pos _ _ R).
    case_decide; [lia|]. case_match; [|done]. intros [= <-]. simpl. lia.
  - intros [= <-]. split; [done|]. pose proof (repr_fits _ _ R). lia.
Qed.

Lemma push_repr v l x v' : repr v l -> push v x = Some v' -> repr v' (l ++ [x]).
Proof.
  intros R0. unfold push. destruct (reserve v) as [v1|] eqn:Er; simpl; [|done].
  destruct (vec_reserve_repr _ _ _ R0 Er) as [R Hlt]. clear Er R0 v.
  destruct (repr_split _ _ R) as (rest & Hd & Hl). rewrite Hd, (repr_size _ _ R) in *.
  unfold write. case_decide; simpl; [|done]. intros [= <-].
  destruct rest as [|y rest]; simpl in *; [lia|].
  rewrite insert_app_r_alt by (rewrite length_fmap; lia).
  rewrite length_fmap, Nat.sub_diag. simpl.
  replace ((Some <$> l) ++ Some x :: rest) with ((Some <$> (l ++ [x])) ++ rest)
    by (rewrite fmap_app; simpl; by rewrite <- app_assoc).
  pose proof (repr_pos _ _ R).
  apply repr_build; rewrite ?length_app; simpl; lia.
Qed.

Lemma pop_repr v l :
  repr v l -> exists v', pop v = Some (list.last l, v') /\ repr v' (take (length l - 1) l).
Proof.
  intros R. destruct (repr_split _ _ R) as (rest & Hd & Hl). unfold pop.
  pose proof (repr_pos _ _ R). rewrite Hd, (repr_size _ _ R).
  destruct l as [|x l _] using rev_ind; simpl.
  - exists v. done.
  - rewrite length_app, Nat.add_comm in *. simpl in *.
    rewrite cell_repr by (rewrite length_app; simpl; lia).
    rewrite list_lookup_middle by done. simpl. rewrite last_snoc.
    eexists. split; [done|]. rewrite Nat.sub_0_r, take_app_length.
    replace ((Some <$> (l ++ [x])) ++ rest) with ((Some <$> l) ++ (Some x :: rest))
      by (rewrite fmap_app; simpl; by rewrite <- app_assoc).
    apply repr_build; simpl; [done|lia|lia].
Qed.

Lemma shift_right (a b : list (option T)) (X y : option T) rest :
  <[ length a := X ]> (splice (a ++ b ++ y :: rest) (length a + 1) b) = a ++ X :: b ++ rest.
Proof.
  unfold splice. rewrite take_app_add.
  replace (drop (length a + 1 + length b) (a ++ b ++ y :: rest)) with rest.
  - destruct (b ++ y :: rest) as [|z w] eqn:E; [by destruct b|]. simpl.
    rewrite <- app_assoc. simpl. by rewrite list_insert_middle_eq || 
      (rewrite insert_app_r_alt by lia; by rewrite Nat.sub_diag).
  - replace (a ++ b ++ y :: rest) with ((a ++ b ++ [y]) ++ rest)
      by (by rewrite <- !app_assoc).
    rewrite drop_app_length'; [done|]. rewrite !length_app. simpl. lia.
Qed.

Lemma slice_mid (a b c : list (option T)) : slice (a ++ b ++ c) (length a) (length b) = b.
Proof. unfold slice. by rewrite drop_app_length, take_app_length. Qed.

Lemma slice_mid' (buf a b c : list (option T)) i n :
  buf = a ++ b ++ c -> i = length a -> n = length b -> slice buf i n = b.
Proof. intros -> -> ->. apply slice_mid. Qed.

Lemma split_at (l : list T) i :
  (i <= length l)%nat -> exists l1 l2, l = l1 ++ l2 /\ i = length l1.
Proof.
  intros. exists (take i l), (drop i l). rewrite take_drop, length_take.
  split; [done|lia].
Qed.

Lemma insert_repr v l i x v' :
  repr v l -> insert v i x = Some v' ->
  (i <= length l)%nat /\ repr v' (take i l ++ x :: drop i l).
Proof.
  intros R0. unfold insert. case_decide as Hi; [|done].
  rewrite (repr_size _ _ R0) in Hi.
  destruct (reserve v) as [v1|] eqn:Er; simpl; [|done].
  destruct (vec_reserve_repr _ _ _ R0 Er) as [R Hlt]. clear Er R0 v.
  destruct (repr_split _ _ R) as (rest & Hd & Hl). rewrite Hd, (repr_size _ _ R) in *.
  destruct rest as [|y rest]; simpl in *; [lia|].
  pose proof (repr_pos _ _ R). clear R Hd.
  destruct (split_at l i Hi) as (l1 & l2 & -> & ->). intros Hins.
  rewrite take_app_length, drop_app_length. rewrite length_app in *.
  split; [lia|]. revert Hins. rewrite fmap_app, <- app_assoc.
  replace (length l1 + length l2 - length l1)%nat with (length (Some <$> l2))
    by (rewrite length_fmap; lia).
  replace (length l1) with (length (Some <$> l1)) by (by rewrite length_fmap).
  unfold ptr_copy. case_decide as Hc; simpl; [|done]. rewrite slice_mid.
  unfold write. case_decide; simpl; [|done]. rewrite shift_right.
  intros [= <-].
  replace ((Some <$> l1) ++ Some x :: (Some <$> l2) ++ rest)
    with ((Some <$> (l1 ++ x :: l2)) ++ rest)
    by (rewrite fmap_app, <- app_assoc; done).
  apply repr_build; rewrite ?length_app, ?length_fmap; simpl; lia.
Qed.

Lemma split_lookup (l : list T) i x :
  l !! i = Some x -> exists l1 l2, l = l1 ++ x :: l2 /\ i = length l1.
Proof.
  intros Hx. pose proof (lookup_lt_Some _ _ _ Hx). exists (take i l), (drop (S i) l).
  rewrite take_drop_middle, length_take by done. split; [done|lia].
Qed.

Lemma shift_left (a b : list (option T)) (z : option T) rest i :
  i = length a ->
  exists c, splice (a ++ z :: b ++ rest) i b = a ++ b ++ c /\
    length c = S (length rest).
Proof.
  intros ->. unfold splice. rewrite take_app_length. eexists. split; [done|].
  rewrite length_drop, !length_app. simpl. rewrite length_app. lia.
Qed.

Lemma remove_repr v l i :
  repr v l ->
  match l !! i with
  | Some x => exists v', remove v i = Some (x, v') /\ repr v' (take i l ++ drop (S i) l)
  | None => remove v i = None
  end.
Proof.
  intros R. destruct (repr_split _ _ R) as (rest & Hd & Hl). pose proof (repr_pos _ _ R).
  unfold remove. rewrite Hd, (repr_size _ _ R). clear R Hd.
  destruct (l !! i) as [x|] eqn:Hx.
  - destruct (split_lookup _ _ _ Hx) as (l1 & l2 & -> & ->).
    rewrite take_app_length, (drop_app_add l1 (x :: l2) 1) || 
      (rewrite take_app_length; replace (S (length l1)) with (length l1 + 1)%nat by lia;
       rewrite drop_app_add). simpl.
    rewrite length_app in *. simpl in *. rewrite decide_True by lia.
    rewrite cell_repr, Hx by (rewrite length_app; simpl; lia). simpl.
    rewrite fmap_app, <- app_assoc. simpl.
    replace (length l1 + S (length l2) - length l1 - 1)%nat with (length (Some <$> l2))
      by (rewrite length_fmap; lia).
    unfold ptr_copy. rewrite decide_True
      by (rewrite !length_app; simpl; rewrite ?length_app, !length_fmap; lia).
    simpl. eexists. split; [done|].
    rewrite (slice_mid' _ ((Some <$> l1) ++ [Some x]) (Some <$> l2) rest)
      by (rewrite ?length_app, ?length_fmap, <- ?app_assoc; done).
    change (list_fmap T (option T) Some l2) with (Some <$> l2). rewrite ?drop_0.
    destruct (shift_left (Some <$> l1) (Some <$> l2) (Some x) rest (length l1))
      as (c & -> & Hc); [by rewrite length_fmap|].
    rewrite app_assoc, <- fmap_app. apply repr_build; rewrite ?length_app; lia.
  - apply lookup_ge_None in Hx. by rewrite decide_False by lia.
Qed.

Lemma retain_loop_repr (p : T -> bool) todo : forall kept mid rest,
  exists rest',
    retain_loop p (length todo) (length kept + length mid) (length kept)
      ((Some <$> kept) ++ mid ++ (Some <$> todo) ++ rest) =
    Some (length (kept ++ filter (fun x => p x = true) todo),
      (Some <$> (kept ++ filter (fun x => p x = true) todo)) ++ rest') /\
    (length kept + length mid + length todo + length rest =
      length (kept ++ filter (fun x => p x = true) todo) + length rest')%nat.
Proof.
  induction todo as [|x todo IH]; intros kept mid rest.
  { exists (mid ++ rest). simpl. rewrite app_nil_r, length_app. split; [done|lia]. }
  rewrite fmap_cons. cbn [length app retain_loop].
  assert (Hcell : cell ((Some <$> kept) ++ mid ++ Some x :: (Some <$> todo) ++ rest)
    (length kept + length mid) = Some x).
  { unfold cell. rewrite app_assoc. rewrite list_lookup_middle; [done|].
    by rewrite length_app, length_fmap. }
  rewrite Hcell. cbn [mbind option_bind]. destruct (p x) eqn:Hp.
  - rewrite filter_cons_True by done.
    destruct mid as [|m mid].
    + rewrite Nat.add_0_r, decide_True by done. cbn [mbind option_bind].
      destruct (IH (kept ++ [x]) [] rest) as (rest' & Hr & Hl).
      rewrite !length_app in Hr. cbn [length app] in Hr. rewrite !Nat.add_0_r in Hr.
      rewrite Nat.add_1_r in Hr. rewrite fmap_app, <- app_assoc in Hr.
      cbn [app fmap list_fmap] in Hr.
      exists rest'. cbn [app]. rewrite Hr. rewrite <- app_assoc, !length_app in *. simpl in *.
      split; [do 2 f_equal; lia|lia].
    + rewrite decide_False by (simpl; lia). unfold write.
      rewrite decide_True by (rewrite length_app, length_fmap; simpl; lia). cbn [mbind option_bind].
      rewrite insert_app_r_alt by (rewrite length_fmap; lia).
      rewrite length_fmap, Nat.sub_diag.
      destruct (IH (kept ++ [x]) (mid ++ [Some x]) rest) as (rest' & Hr & Hl).
      rewrite !length_app in Hr. simpl in Hr. rewrite fmap_app, <- !app_assoc in Hr.
      replace (length kept + 1 + (length mid + 1))%nat
        with (S (length kept + S (length mid))) in Hr by lia.
      rewrite Nat.add_1_r in Hr. simpl in Hr. simpl.
      exists rest'. simpl in *; rewrite Hr. rewrite <- app_assoc, !length_app in *. simpl in *.
      split; [do 2 f_equal; lia|lia].
  - rewrite filter_cons_False by congruence.
    destruct (IH kept (mid ++ [Some x]) rest) as (rest' & Hr & Hl).
    rewrite length_app, <- app_assoc in Hr. simpl in Hr.
    replace (length kept + (length mid + 1))%nat
      with (S (length kept + length mid)) in Hr by lia.
    exists rest'. rewrite Hr. rewrite !length_app in *. simpl in *. split; [done|lia].
Qed.

Lemma retain_repr v l (p : T -> bool) :
  repr v l -> exists v', retain v p = Some v' /\ repr v' (filter (fun x => p x = true) l).
Proof.
  intros R. destruct (repr_split _ _ R) as (rest & Hd & Hl). pose proof (repr_pos _ _ R).
  unfold retain. rewrite Hd, (repr_size _ _ R).
  destruct (retain_loop_repr p l [] [] rest) as (rest' & Hr & Hl'). simpl in *.
  rewrite Hr. simpl. eexists. split; [done|]. apply repr_build; [done|lia|done].
Qed.

Lemma vec_clear_repr v l : repr v l -> repr (clear v) [].
Proof. intros []. constructor; simpl; [done|lia|done|done|done]. Qed.

Lemma omap_some_fmap l : omap id (Some <$> l) = l.
Proof. unfold omap. induction l as [|x l IH]; [done|]. cbn. by f_equal. Qed.

Lemma as_slice_repr v l : repr v l -> as_slice v = l.
Proof. intros R. unfold as_slice. rewrite (repr_cells _ _ R). apply omap_some_fmap. Qed.

Lemma vec_step_refines v l o r v' :
  repr v l -> step v o = Some (r, v') ->
  exists l', spec_step l o = Some (r, l') /\ repr v' l'.
Proof.
  intros R. destruct o as [x| |i x|i|p|c|]; simpl.
  - destruct (push v x) as [v1|] eqn:E; simpl; [|done]. intros [= <- <-].
    eauto using push_repr.
  - destruct (pop_repr _ _ R) as (v1 & -> & R1). intros [= <- <-]. eauto.
  - destruct (insert v i x) as [v1|] eqn:E; simpl; [|done]. intros [= <- <-].
    destruct (insert_repr _ _ _ _ _ R E) as [Hi R1]. rewrite decide_True by done. eauto.
  - pose proof (remove_repr _ _ i R) as Hr. destruct (l !! i) as [x|]; simpl.
    + destruct Hr as (v1 & -> & R1). simpl. intros [= <- <-]. eauto.
    + by rewrite Hr.
  - destruct (retain_repr _ _ p R) as (v1 & -> & R1). simpl. intros [= <- <-]. eauto.
  - destruct (resize v c) as [v1|] eqn:E; simpl; [|done]. intros [= <- <-].
    eauto using resize_repr.
  - intros [= <- <-]. eauto using vec_clear_repr.
Qed.

Lemma push_all_repr xs : forall v l v',
  repr v l -> foldl (fun acc x => v ← acc; push v x) (Some v) xs = Some v' ->
  repr v' (l ++ xs).
Proof.
  induction xs as [|x xs IH]; intros v l v' R; simpl.
  - intros [= <-]. by rewrite app_nil_r.
  - destruct (push v x) as [v1|] eqn:E.
    + intros Hf. apply push_repr with (l := l) in E; [|done].
      apply (IH _ _ _ E) in Hf. by rewrite <- app_assoc in Hf.
    + intros Hf. exfalso. clear -Hf. induction xs; simpl in *; [done|auto].
Qed.

(** The allocation an operation performs in a state, if it performs one. *)
Definition needs_alloc v (o : op) : option nat :=
  match o with
  | Push _ | Insert _ _ => if decide (size v = capacity v) then Some (capacity v * 2)%nat else None
  | Resize c => if decide (c <= capacity v)%nat then None else Some c
  | _ => None
  end.

Lemma resize_some v c :
  (forall n, needs_alloc v (Resize c) = Some n -> alloc_array n = true) ->
  exists v', resize v c = Some v'.
Proof.
  unfold resize, needs_alloc. case_decide; [eauto|]. intros Ha.
  rewrite (Ha c) by done. eauto.
Qed.

Lemma reserve_some v l :
  repr v l ->
  (forall n, (if decide (size v = capacity v) then Some (capacity v * 2)%nat else None) = Some n ->
    alloc_array n = true) ->
  exists v', reserve v = Some v' /\ repr v' l /\ (size v' < length (data v'))%nat.
Proof.
  intros R Ha.
  assert (exists v', reserve v = Some v') as [v' Hv].
  { unfold reserve. case_decide; [|eauto]. apply resize_some. unfold needs_alloc.
    pose proof (repr_pos _ _ R). rewrite decide_False by lia. naive_solver. }
  exists v'. destruct (vec_reserve_repr _ _ _ R Hv) as [R' ?].
  rewrite (repr_data _ _ R'). done.
Qed.

Lemma step_some v l o r l' :
  repr v l -> (forall n, needs_alloc v o = Some n -> alloc_array n = true) ->
  spec_step l o = Some (r, l') -> exists p, step v o = Some p.
Proof.
  intros R Ha. destruct o as [x| |i x|i|p|c|]; simpl in *.
  - destruct (reserve_some _ _ R Ha) as (v1 & Hr & _ & Hlt). unfold push, write.
    rewrite Hr. simpl. rewrite decide_True by done. simpl. eauto.
  - destruct (pop_repr _ _ R) as (v1 & -> & _). eauto.
  - destruct (decide (i <= length l)%nat); [|done]. intros _. destruct (reserve_some _ _ R Ha) as (v1 & Hr & R1 & Hlt).
    unfold insert. rewrite (repr_size _ _ R), decide_True by done. rewrite Hr. simpl.
    pose proof (repr_size _ _ R1). unfold ptr_copy. rewrite decide_True by lia. simpl.
    unfold write. rewrite decide_True; [simpl; eauto|].
    rewrite length_splice; [lia|]. rewrite length_slice by lia. lia.
  - pose proof (remove_repr _ _ i R) as Hr. destruct (l !! i); simpl; [|done].
    destruct Hr as (v1 & -> & _). simpl. eauto.
  - destruct (retain_repr _ _ p R) as (v1 & -> & _). simpl. eauto.
  - destruct (resize_some v c Ha) as [v1 ->]. simpl. eauto.
  - eauto.
Qed.

(** The growable array refines the list. When the allocator grants the growth the
    operation asks for, every operation (the shifting copies of [insert] and [remove]
    and the in-place compaction of [retain] included) returns what the list operation
    returns and leaves a vector that reads back as the list operation's result; [pop]
    of an empty vector is [None]; an index out of range panics and nothing else does. *)
Theorem vec_refines v l o :
  repr v l -> (forall n, needs_alloc v o = Some n -> alloc_array n = true) ->
  match spec_step l o with
  | Some (r, l') =>
      exists v', step v o = Some (r, v') /\ repr v' l' /\ as_slice v' = l'
  | None => step v o = None
  end.
Proof.
  intros R Ha. destruct (spec_step l o) as [[r l']|] eqn:Hs.
  - destruct (step_some _ _ _ _ _ R Ha Hs) as [[r1 v1] Hv].
    destruct (vec_step_refines _ _ _ _ _ R Hv) as (l1 & Hs1 & R1). simplify_eq.
    eauto using as_slice_repr.
  - destruct (step v o) as [[r1 v1]|] eqn:Hv; [|done].
    destruct (vec_step_refines _ _ _ _ _ R Hv) as (l1 & Hs1 & R1). congruence.
Qed.

Lemma foldl_push_none xs : foldl (fun acc x => v ← acc; push v x) None xs = None.
Proof. by induction xs. Qed.

Lemma push_capacity v l x v' :
  repr v l -> push v x = Some v' ->
  (length l < capacity v)%nat -> capacity v' = capacity v.
Proof.
  intros R. unfold push, reserve. pose proof (repr_size _ _ R). intros Hp ?.
  rewrite decide_False in Hp by lia. simpl in Hp.
  destruct (write _ _ _); simpl in Hp; naive_solver.
Qed.

Lemma push_all_some xs : forall v l,
  (forall n, alloc_array n = true) -> repr v l ->
  exists v', foldl (fun acc x => v ← acc; push v x) (Some v) xs = Some v' /\
    ((length l + length xs <= capacity v)%nat -> capacity v' = capacity v).
Proof.
  induction xs as [|x xs IH]; intros v l Ha R; simpl; [eauto|].
  destruct (step_some v l (Push x) None (l ++ [x]) R) as [p Hp]; [auto|done|].
  simpl in Hp. destruct (push v x) as [v1|] eqn:E; [|done].
  destruct (IH v1 (l ++ [x]) Ha) as (v' & Hv' & Hc); [eauto using push_repr|].
  exists v'. split; [done|]. intros. rewrite length_app in Hc. simpl in Hc.
  pose proof (push_capacity _ _ _ _ R E) as Hc1. rewrite Hc; lia.
Qed.

(** Collecting an iterator gives a vector that reads back as the iterator's
    items however often the buffer has to grow, and cloning a vector gives one that
    reads back as the original, in a buffer of the same capacity. *)
Theorem vec_collect_clone v l :
  (forall n, alloc_array n = true) -> repr v l ->
  (exists v', from_iter l = Some v' /\ as_slice v' = l) /\
  (exists v', clone v = Some v' /\ as_slice v' = as_slice v /\ capacity v' = capacity v).
Proof.
  intros Ha R. rewrite (as_slice_repr _ _ R).
  assert (Hw : forall c, (0 < c)%nat -> exists v0, with_capacity c = Some v0 /\ capacity v0 = c).
  { intros c Hc. unfold with_capacity. rewrite Ha, bool_decide_eq_true_2 by done.
    simpl. eauto. }
  assert (Hall : forall c, (0 < c)%nat -> exists v0 v', with_capacity c = Some v0 /\
    foldl (fun acc x => v ← acc; push v x) (Some v0) l = Some v' /\ as_slice v' = l /\
    ((length l <= c)%nat -> capacity v' = c)).
  { intros c Hc. destruct (Hw c Hc) as (v0 & Hv0 & <-).
    pose proof (vec_with_capacity_repr _ _ Hv0) as R0.
    destruct (push_all_some l v0 [] Ha R0) as (v' & Hv' & Hcap).
    exists v0, v'. split_and!; [done..| |done].
    apply as_slice_repr. by apply (push_all_repr _ _ _ _ R0). }
  split.
  - destruct (Hall 4%nat) as (v0 & v' & H0 & H1 & H2 & _); [lia|].
    exists v'. unfold from_iter, new. by rewrite H0.
  - destruct (Hall (capacity v)) as (v0 & v' & H0 & H1 & H2 & H3); [apply (repr_pos _ _ R)|].
    exists v'. unfold clone. rewrite H0, (as_slice_repr _ _ R). split_and!; [done..|].
    apply H3. rewrite <- (repr_size _ _ R). apply (repr_fits _ _ R).
Qed.

End vec.

(** A full two-element vector whose next insertion grows the buffer. *)
Lemma vec_refines_witness :
  let v := mkVec 2 2 [Some 10; Some 20] in
  repr v [10; 20] /\
  exists v', step (fun _ => true) v (Insert 1 15) = Some (None, v') /\
    repr v' [10; 15; 20] /\ as_slice v' = [10; 15; 20].
Proof.
  assert (R : repr (mkVec 2 2 [Some 10; Some 20]) [10; 20]) by (constructor; simpl; lia || done).
  split; [exact R|].
  exact (vec_refines (fun _ => true) _ _ (Insert 1 15) R (fun _ _ => eq_refl)).
Defined.

Lemma vec_collect_clone_witness :
  let v := mkVec 2 3 [Some 10; Some 20; None] in
  repr v [10; 20] /\ (forall n : nat, (fun _ => true) n = true) /\
  (exists v', from_iter (fun _ => true) [10; 20] = Some v' /\ as_slice v' = [10; 20]) /\
  (exists v', clone (fun _ => true) v = Some v' /\ as_slice v' = as_slice v /\ capacity v' = 3%nat).
Proof.
  assert (R : repr (mkVec 2 3 [Some 10; Some 20; None]) [10; 20])
    by (constructor; simpl; lia || done).
  split; [exact R|]. split; [done|].
  exact (vec_collect_clone (fun _ => true) _ _ (fun _ => eq_refl) R).
Defined.
