(* ===== verification/Disk.v ===== *)
(** * Disk: the block devices of kernel/src/io

    [DiskDevice] is the trait of disk.rs: sector reads and writes that can fail.
    [DiskLaws] is what its clients rely on: the device holds a flat array of bytes,
    an access inside it succeeds and transfers the bytes, and an access past its end,
    or with a short buffer, is refused and changes nothing. Two devices implement it:
    the in-memory [MockDiskDevice] of disk.rs, and the [AtaPioDriver] of ata.rs, which
    transfers sector by sector, 16-bit word by word, through port operations that are
    parameters of the model. The [DiskManager] wrapper adds its own buffer checks; the
    device behind the global mutex is the state of the monad. *)

From Stdlib Require Import ZArith Lia.
From stdpp Require Import base tactics list option numbers.
From S2P Require Import Prelude.

Local Open Scope rust_scope.

Definition SECTOR_SIZE : Z := 512.

Inductive DiskOpError : Type :=
  | ReadError
  | WriteError
  | InvalidSector
  | DeviceNotFound
  | BufferTooSmall
  | Timeout.

(** [read_sectors] hands back the buffer it filled. *)
Class DiskDevice (D : Type) : Type := {
  read_sectors : Z -> Z -> list Z -> stM D DiskOpError (list Z);
  write_sectors : Z -> Z -> list Z -> stM D DiskOpError unit;
  sector_count : D -> Z;
}.

(** The bytes of sectors [start .. start + count) of a disk image. *)
Definition sectors (b : list Z) (start count : Z) : list Z :=
  slice b (Z.to_nat (start * SECTOR_SIZE)) (Z.to_nat (count * SECTOR_SIZE)).

(** The image after the first [count] sectors of [data] went to sector [start]. *)
Definition set_sectors (b : list Z) (start count : Z) (data : list Z) : list Z :=
  splice b (Z.to_nat (start * SECTOR_SIZE)) (take (Z.to_nat (count * SECTOR_SIZE)) data).

(** The access fits the device and the buffer the access. *)
Definition access_ok (b : list Z) (start count : Z) (buf : list Z) : Prop :=
  (start + count) * SECTOR_SIZE <= zlen b /\ count * SECTOR_SIZE <= zlen buf.

Class DiskLaws (D : Type) `{DiskDevice D} : Type := {
  holds : D -> list Z -> Prop;
  holds_count : forall d b, holds d b -> zlen b = sector_count d * SECTOR_SIZE;
  holds_bytes : forall d b, holds d b -> Forall byte b;
  read_in_range : forall start count out b,
    0 <= start -> 0 <= count -> access_ok b start count out ->
    runs holds (read_sectors start count out) b
      (Ok (splice out 0 (sectors b start count))) b;
  write_in_range : forall start count data b,
    0 <= start -> 0 <= count -> Forall byte data -> access_ok b start count data ->
    runs holds (write_sectors start count data) b
      (Ok tt) (set_sectors b start count data);
  read_refused : forall start count out b,
    0 <= start -> 0 <= count -> start + count < 2 ^ 54 -> ~ access_ok b start count out ->
    exists e, runs holds (read_sectors start count out) b (Err e) b;
  write_refused : forall start count data b,
    0 <= start -> 0 <= count -> start + count < 2 ^ 54 -> ~ access_ok b start count data ->
    exists e, runs holds (write_sectors start count data) b (Err e) b;
}.

Lemma length_set_sectors b start count data :
  0 <= start -> 0 <= count -> access_ok b start count data ->
  length (set_sectors b start count data) = length b.
Proof.
  unfold access_ok, set_sectors, SECTOR_SIZE. intros ? ? [? ?].
  apply length_splice. rewrite length_take. lia.
Qed.

Lemma length_sectors b start count data :
  0 <= start -> 0 <= count -> access_ok b start count data ->
  length (sectors b start count) = Z.to_nat (count * SECTOR_SIZE).
Proof. unfold access_ok, sectors, SECTOR_SIZE. intros ? ? [? ?]. apply length_slice. lia. Qed.

Lemma sectors_set_same b start count data :
  0 <= start -> 0 <= count -> access_ok b start count data ->
  sectors (set_sectors b start count data) start count =
    take (Z.to_nat (count * SECTOR_SIZE)) data.
Proof.
  unfold access_ok, sectors, set_sectors, SECTOR_SIZE. intros ? ? [? ?].
  set (t := take _ data).
  replace (Z.to_nat (count * 512)) with (length t) by (unfold t; rewrite length_take; lia).
  apply slice_splice_same. unfold t. rewrite length_take. lia.
Qed.

Lemma sectors_set_other b start count data start' count' :
  0 <= start -> 0 <= count -> access_ok b start count data ->
  0 <= start' -> 0 <= count' ->
  start' + count' <= start \/ start + count <= start' ->
  sectors (set_sectors b start count data) start' count' = sectors b start' count'.
Proof.
  unfold access_ok, sectors, set_sectors, SECTOR_SIZE. intros ? ? [? ?] ? ? Hd.
  apply slice_splice_disjoint; rewrite length_take; lia.
Qed.

(** ** The in-memory device of disk.rs *)

Module MockDiskDevice.

Record MockDiskDevice : Type := mkMock {
  size_bytes : Z;
  data : list Z;
}.

(** [None]: the product overflows. *)
Definition new (size_sectors : Z) : option MockDiskDevice :=
  let size_bytes := size_sectors * SECTOR_SIZE in
  if U64_MAX <? size_bytes then None
  else Some (mkMock size_bytes (replicate (Z.to_nat size_bytes) 0)).

Definition load_image (image_data : list Z) : stM MockDiskDevice DiskOpError unit :=
  fun d =>
    if size_bytes d <? zlen image_data then (Err InvalidSector, d)
    else (Ok tt, mkMock (size_bytes d) (splice (data d) 0 image_data)).

Definition mock_read (start_sector count : Z) (out_buffer : list Z)
    : stM MockDiskDevice DiskOpError (list Z) :=
  fun d =>
    let start_byte := start_sector * SECTOR_SIZE in
    let end_byte := start_byte + count * SECTOR_SIZE in
    if U64_MAX <? end_byte then (Panic, d) else
    if size_bytes d <? end_byte then (Err InvalidSector, d) else
    if zlen out_buffer <? count * SECTOR_SIZE then (Err InvalidSector, d) else
    (Ok (splice out_buffer 0
      (slice (data d) (Z.to_nat start_byte) (Z.to_nat (count * SECTOR_SIZE)))), d).

Definition mock_write (start_sector count : Z) (data' : list Z)
    : stM MockDiskDevice DiskOpError unit :=
  fun d =>
    let start_byte := start_sector * SECTOR_SIZE in
    let byte_count := count * SECTOR_SIZE in
    let end_byte := start_byte + byte_count in
    if U64_MAX <? end_byte then (Panic, d) else
    if size_bytes d <? end_byte then (Err InvalidSector, d) else
    if zlen data' <? byte_count then (Err InvalidSector, d) else
    (Ok tt, mkMock (size_bytes d)
      (splice (data d) (Z.to_nat start_byte) (take (Z.to_nat byte_count) data'))).

#[global] Instance mock_device : DiskDevice MockDiskDevice := {|
  read_sectors := mock_read;
  write_sectors := mock_write;
  sector_count d := size_bytes d / SECTOR_SIZE;
|}.

Definition mock_holds (d : MockDiskDevice) (b : list Z) : Prop :=
  data d = b /\ size_bytes d = zlen b /\ (exists n, zlen b = n * SECTOR_SIZE) /\
  zlen b <= U64_MAX /\ Forall byte b.

Lemma mock_count d b : mock_holds d b -> zlen b = sector_count d * SECTOR_SIZE.
Proof.
  intros (_ & Hs & (n & Hn) & _). simpl. rewrite Hs, Hn. unfold SECTOR_SIZE.
  by rewrite Z_div_mult_full.
Qed.

Lemma mock_read_ok start count out b :
  0 <= start -> 0 <= count -> access_ok b start count out ->
  runs mock_holds (mock_read start count out) b
    (Ok (splice out 0 (sectors b start count))) b.
Proof.
  unfold access_ok, SECTOR_SIZE. intros ? ? [? ?] d (<- & Hs & Hn & Hm & Hb). exists d.
  split; [|done]. unfold mock_read, SECTOR_SIZE.
  repeat (case_match; bool_hyps; [lia|]). done.
Qed.

Lemma mock_write_ok start count data' b :
  0 <= start -> 0 <= count -> Forall byte data' -> access_ok b start count data' ->
  runs mock_holds (mock_write start count data') b
    (Ok tt) (set_sectors b start count data').
Proof.
  intros ? ? Hd Ha d (<- & Hs & Hn & Hm & Hb).
  assert (Hl : length (set_sectors (data d) start count data') = length (data d))
    by (by apply length_set_sectors).
  unfold access_ok, SECTOR_SIZE in Ha. destruct Ha.
  eexists. split.
  - unfold mock_write, SECTOR_SIZE. repeat (case_match; bool_hyps; [lia|]). done.
  - unfold mock_holds. rewrite Hl. simpl. split_and!; try done.
    apply byte_splice; [done|]. by apply Forall_take.
Qed.

Lemma mock_refused start count (buf : list Z) b :
  0 <= start -> 0 <= count -> start + count < 2 ^ 54 -> ~ access_ok b start count buf ->
  exists e, runs mock_holds (mock_read start count buf) b (Err e) b /\
    runs mock_holds (mock_write start count buf) b (Err e) b.
Proof.
  unfold access_ok, SECTOR_SIZE. intros ? ? ? Hn. exists InvalidSector.
  split; intros d (<- & Hs & ? & Hm & Hb); exists d; unfold mock_holds; simpl;
    (split; [|done]); unfold mock_read, mock_write, SECTOR_SIZE, U64_MAX;
    repeat (case_match; bool_hyps; try lia; try done); exfalso; apply Hn; lia.
Qed.

#[global] Program Instance mock_laws : DiskLaws MockDiskDevice := {|
  holds := mock_holds;
  holds_count := mock_count;
  read_in_range := mock_read_ok;
  write_in_range := mock_write_ok;
|}.
Next Obligation. by intros d b (_ & _ & _ & _ & ?). Qed.
Next Obligation. intros. destruct (mock_refused start count out b) as (e & ? & _); eauto. Qed.
Next Obligation. intros. destruct (mock_refused start count data0 b) as (e & _ & ?); eauto. Qed.

End MockDiskDevice.

(** ** The ATA driver of ata.rs *)

Module Ata.

(** The struct of the source, and the drive behind the ports. *)
Record AtaPioDriver (H : Type) : Type := mkAta {
  ata_sector_count : Z;
  drive : H;
}.
Arguments mkAta {H}.
Arguments ata_sector_count {H}.
Arguments drive {H}.

Section ata.
Context {H : Type}.
(** The port traffic of one LBA28 read or write command, polling included: the 256
    data words a read transfers, and the effect of the words a write transfers. *)
Variable pio_in : Z -> stM H DiskOpError (list Z).
Variable pio_out : Z -> list Z -> stM H DiskOpError unit.

Definition on_drive {A} (c : stM H DiskOpError A) : stM (AtaPioDriver H) DiskOpError A :=
  fun d => match c (drive d) with (r, h) => (r, mkAta (ata_sector_count d) h) end.

(** [buf[offset] = (word & 0xFF) as u8; buf[offset + 1] = ((word >> 8) & 0xFF) as u8] *)
Definition word_bytes (word : Z) : list Z := [Z.land word 255; Z.land (Z.shiftr word 8) 255].

(** [(buf[offset] as u16) | ((buf[offset + 1] as u16) << 8)] *)
Definition byte_word (buf : list Z) (i : nat) : Z :=
  Z.lor (nth (i * 2) buf 0) (Z.shiftl (nth (i * 2 + 1) buf 0) 8).

Definition read_sector_pio (lba : Z) (buf : list Z)
    : stM (AtaPioDriver H) DiskOpError (list Z) :=
  (sassert (SECTOR_SIZE <=? zlen buf) ;;;
   sassert (lba <? 2 ^ 28) ;;;
   let! words := on_drive (pio_in lba) in
   sret (splice buf 0 (flat_map word_bytes words)))%rust.

Definition write_sector_pio (lba : Z) (buf : list Z)
    : stM (AtaPioDriver H) DiskOpError unit :=
  (sassert (SECTOR_SIZE <=? zlen buf) ;;;
   sassert (lba <? 2 ^ 28) ;;;
   on_drive (pio_out lba (byte_word buf <$> seq 0 256)))%rust.

(** The sector loops; [n] iterations are left, [i] are done. *)
Fixpoint read_loop (n : nat) (i start_sector : Z) (out_buffer : list Z)
    : stM (AtaPioDriver H) DiskOpError (list Z) :=
  match n with
  | O => sret out_buffer
  | S n =>
      let offset := Z.to_nat (i * SECTOR_SIZE) in
      (let! part := read_sector_pio (start_sector + i) (slice out_buffer offset 512) in
       read_loop n (i + 1) start_sector (splice out_buffer offset part))%rust
  end.

Fixpoint write_loop (n : nat) (i start_sector : Z) (data : list Z)
    : stM (AtaPioDriver H) DiskOpError unit :=
  match n with
  | O => sret tt
  | S n =>
      (write_sector_pio (start_sector + i) (slice data (Z.to_nat (i * SECTOR_SIZE)) 512) ;;;
       write_loop n (i + 1) start_sector data)%rust
  end.

Definition ata_read (start_sector count : Z) (out_buffer : list Z)
    : stM (AtaPioDriver H) DiskOpError (list Z) :=
  fun d =>
    if U64_MAX <? start_sector + count then (Panic, d) else
    if ata_sector_count d <? start_sector + count then (Err InvalidSector, d) else
    if zlen out_buffer <? count * SECTOR_SIZE then (Err BufferTooSmall, d) else
    read_loop (Z.to_nat count) 0 start_sector out_buffer d.

Definition ata_write (start_sector count : Z) (data : list Z)
    : stM (AtaPioDriver H) DiskOpError unit :=
  fun d =>
    if U64_MAX <? start_sector + count then (Panic, d) else
    if ata_sector_count d <? start_sector + count then (Err InvalidSector, d) else
    if zlen data <? count * SECTOR_SIZE then (Err BufferTooSmall, d) else
    write_loop (Z.to_nat count) 0 start_sector data d.

#[global] Instance ata_device : DiskDevice (AtaPioDriver H) := {|
  read_sectors := ata_read;
  write_sectors := ata_write;
  sector_count := ata_sector_count;
|}.

(** What the drive documents: an IDENTIFYed LBA28 drive serves one sector per command
    as 256 little-endian words. *)
Variable medium : H -> list Z -> Prop.
Hypothesis medium_bytes : forall h b, medium h b -> Forall byte b.
Hypothesis pio_in_ok : forall lba b,
  0 <= lba -> (lba + 1) * SECTOR_SIZE <= zlen b ->
  runs medium (pio_in lba) b (Ok (byte_word (sectors b lba 1) <$> seq 0 256)) b.
Hypothesis pio_out_ok : forall lba words b,
  0 <= lba -> (lba + 1) * SECTOR_SIZE <= zlen b -> length words = 256%nat ->
  runs medium (pio_out lba words) b (Ok tt) (set_sectors b lba 1 (flat_map word_bytes words)).

Definition ata_holds (d : AtaPioDriver H) (b : list Z) : Prop :=
  medium (drive d) b /\ zlen b = ata_sector_count d * SECTOR_SIZE /\
  ata_sector_count d <= 2 ^ 28.

Lemma byte_word_split x y :
  byte x -> byte y -> word_bytes (Z.lor x (Z.shiftl y 8)) = [x; y].
Proof.
  unfold byte, word_bytes. intros Hx Hy.
  rewrite Z.shiftl_mul_pow2, Z.lor_comm, lor_low, Z.shiftr_div_pow2 by lia.
  change 255 with (2 ^ 8 - 1). rewrite !land_mask by lia. change (2 ^ 8) with 256.
  do 2 f_equal; [|f_equal].
  - rewrite Z.add_comm, Z_mod_plus_full. by apply Z.mod_small.
  - rewrite Z.add_comm, Z.div_add, Z.div_small, Z.add_0_l by lia. by apply Z.mod_small.
Qed.

Lemma flat_map_words n : forall buf,
  length buf = (n * 2)%nat -> Forall byte buf ->
  flat_map word_bytes (byte_word buf <$> seq 0 n) = buf.
Proof.
  induction n as [|n IH]; intros buf Hl Hb.
  - by destruct buf.
  - destruct buf as [|x [|y buf]]; try (simpl in Hl; lia).
    rewrite !Forall_cons_iff in Hb. destruct Hb as (Hx & Hy & Hb).
    cbn [seq]. rewrite fmap_cons. cbn [flat_map].
    change (byte_word (x :: y :: buf) 0) with (Z.lor x (Z.shiftl y 8)).
    rewrite byte_word_split by done. cbn [app]. do 2 f_equal.
    rewrite <- fmap_S_seq, <- list_fmap_compose.
    etransitivity; [|apply IH; [simpl in Hl; lia|done]]. f_equal.
Qed.

Lemma runs_on_drive {A} (c : stM H DiskOpError A) b r b' :
  runs medium c b r b' -> length b' = length b -> runs ata_holds (on_drive c) b r b'.
Proof.
  intros Hc Hl d (Hm & Hn & Hs). destruct (Hc _ Hm) as (h & E & Hh).
  unfold on_drive. rewrite E. eexists. split; [done|]. unfold ata_holds. simpl.
  split_and!; [done|congruence|done].
Qed.

Lemma runs_holding {A} (c : stM (AtaPioDriver H) DiskOpError A) b r b' :
  (forall d, ata_holds d b -> runs ata_holds c b r b') -> runs ata_holds c b r b'.
Proof. intros Hc d Hd. by apply (Hc d Hd). Qed.

Lemma read_sector_pio_runs lba buf b :
  0 <= lba -> (lba + 1) * SECTOR_SIZE <= zlen b -> length buf = 512%nat ->
  runs ata_holds (read_sector_pio lba buf) b (Ok (sectors b lba 1)) b.
Proof.
  unfold SECTOR_SIZE. intros Hl Hr Hb. apply runs_holding. intros d (Hm & Hn & Hs).
  unfold SECTOR_SIZE in Hn. unfold read_sector_pio.
  eapply runs_bind; [apply runs_assert, Z.leb_le; unfold SECTOR_SIZE; lia|].
  eapply runs_bind; [apply runs_assert, Z.ltb_lt; lia|].
  eapply runs_bind; [by apply runs_on_drive; [apply pio_in_ok|]|].
  assert (Hsl : length (sectors b lba 1) = 512%nat)
    by (unfold sectors, SECTOR_SIZE; rewrite length_slice; lia).
  rewrite flat_map_words; [|done|apply byte_slice; by eapply medium_bytes].
  rewrite splice_all by congruence. apply runs_ret.
Qed.

Lemma write_sector_pio_runs lba buf b :
  0 <= lba -> (lba + 1) * SECTOR_SIZE <= zlen b -> length buf = 512%nat ->
  Forall byte buf ->
  runs ata_holds (write_sector_pio lba buf) b (Ok tt) (set_sectors b lba 1 buf).
Proof.
  intros Hl Hr Hb Hbs. apply runs_holding. intros d (Hm & Hn & Hs). unfold SECTOR_SIZE in *.
  unfold write_sector_pio.
  eapply runs_bind; [apply runs_assert, Z.leb_le; unfold SECTOR_SIZE; lia|].
  eapply runs_bind; [apply runs_assert, Z.ltb_lt; lia|].
  assert (Hw : flat_map word_bytes (byte_word buf <$> seq 0 256) = buf)
    by (by apply flat_map_words).
  rewrite <- Hw at 2. apply runs_on_drive; [|rewrite Hw].
  - apply pio_out_ok; [done|done|]. by rewrite length_fmap, length_seq.
  - apply length_set_sectors; unfold access_ok, SECTOR_SIZE; lia.
Qed.

Lemma sectors_split b start n :
  0 <= start -> 0 <= n -> sectors b start (1 + n) = sectors b start 1 ++ sectors b (start + 1) n.
Proof.
  intros. unfold sectors, SECTOR_SIZE.
  replace (Z.to_nat ((1 + n) * 512)) with (Z.to_nat (1 * 512) + Z.to_nat (n * 512))%nat by lia.
  rewrite slice_app. do 2 f_equal. lia.
Qed.

Lemma read_loop_runs n : forall i start out b,
  0 <= start -> 0 <= i -> (i + Z.of_nat n) * SECTOR_SIZE <= zlen out ->
  (start + i + Z.of_nat n) * SECTOR_SIZE <= zlen b ->
  runs ata_holds (read_loop n i start out) b
    (Ok (splice out (Z.to_nat (i * SECTOR_SIZE)) (sectors b (start + i) (Z.of_nat n)))) b.
Proof.
  unfold SECTOR_SIZE. induction n as [|n IH]; intros i start out b Hs Hi Ho Hb.
  - unfold sectors, slice, SECTOR_SIZE. change (Z.to_nat (Z.of_nat 0 * 512)) with 0%nat.
    rewrite take_0, splice_nil. apply runs_ret.
  - cbn [read_loop]. eapply runs_bind.
    { apply read_sector_pio_runs; unfold SECTOR_SIZE; [lia|lia|]. rewrite length_slice; lia. }
    assert (Hl : length (sectors b (start + i) 1) = 512%nat)
      by (unfold sectors, SECTOR_SIZE; rewrite length_slice; lia).
    replace (Z.of_nat (S n)) with (1 + Z.of_nat n) by lia.
    rewrite sectors_split, <- splice_splice_app, Hl
      by (rewrite ?Hl; unfold sectors, SECTOR_SIZE; rewrite ?length_slice; lia).
    unfold SECTOR_SIZE.
    replace (Z.to_nat (i * 512) + 512)%nat with (Z.to_nat ((i + 1) * 512)) by lia.
    rewrite <- (Z.add_assoc start i 1). apply IH; [lia|lia| |lia].
    rewrite length_splice by (rewrite Hl; lia). lia.
Qed.

Lemma set_sectors_split b start n data o :
  0 <= start -> 0 <= n -> (start + 1 + n) * SECTOR_SIZE <= zlen b ->
  Z.of_nat o + (1 + n) * SECTOR_SIZE <= zlen data ->
  set_sectors (set_sectors b start 1 (slice data o 512)) (start + 1) n (drop (o + 512) data) =
    set_sectors b start (1 + n) (drop o data).
Proof.
  unfold set_sectors, SECTOR_SIZE. intros ? ? Hb Hd.
  assert (Hl : length (slice data o 512) = 512%nat) by (rewrite length_slice; lia).
  rewrite (take_ge (slice data o 512)) by lia.
  replace (Z.to_nat ((start + 1) * 512)) with (Z.to_nat (start * 512) + 512)%nat by lia.
  replace (Z.to_nat (start * 512) + 512)%nat
    with (Z.to_nat (start * 512) + length (slice data o 512))%nat by lia.
  rewrite splice_splice_app by (rewrite Hl, length_take, length_drop; lia).
  f_equal. replace (Z.to_nat ((1 + n) * 512)) with (512 + Z.to_nat (n * 512))%nat by lia.
  unfold slice. rewrite <- drop_drop. by rewrite take_take_drop.
Qed.

Lemma write_loop_runs n : forall i start data b,
  0 <= start -> 0 <= i -> Forall byte data ->
  (i + Z.of_nat n) * SECTOR_SIZE <= zlen data ->
  (start + i + Z.of_nat n) * SECTOR_SIZE <= zlen b ->
  runs ata_holds (write_loop n i start data) b (Ok tt)
    (set_sectors b (start + i) (Z.of_nat n) (drop (Z.to_nat (i * SECTOR_SIZE)) data)).
Proof.
  unfold SECTOR_SIZE. induction n as [|n IH]; intros i start data b Hs Hi Hd Ho Hb.
  - unfold set_sectors, SECTOR_SIZE. change (Z.to_nat (Z.of_nat 0 * 512)) with 0%nat.
    rewrite take_0, splice_nil. apply runs_ret.
  - cbn [write_loop]. eapply runs_bind.
    { apply write_sector_pio_runs; unfold SECTOR_SIZE; [lia|lia| |by apply byte_slice].
      rewrite length_slice; lia. }
    replace (Z.of_nat (S n)) with (1 + Z.of_nat n) by lia.
    unfold SECTOR_SIZE. rewrite <- set_sectors_split by (unfold SECTOR_SIZE; lia).
    replace (Z.to_nat (i * 512) + 512)%nat with (Z.to_nat ((i + 1) * 512)) by lia.
    rewrite <- (Z.add_assoc start i 1). apply IH; [lia|lia|done|lia|].
    rewrite length_set_sectors; [lia..|].
    unfold access_ok, SECTOR_SIZE. rewrite length_slice; lia.
Qed.

Lemma ata_guard {A} (c : stM (AtaPioDriver H) DiskOpError A) start count buf b r b' :
  0 <= start -> 0 <= count -> access_ok b start count buf -> runs ata_holds c b r b' ->
  runs ata_holds (fun d =>
    if U64_MAX <? start + count then (Panic, d) else
    if ata_sector_count d <? start + count then (Err InvalidSector, d) else
    if zlen buf <? count * SECTOR_SIZE then (Err BufferTooSmall, d) else c d) b r b'.
Proof.
  unfold access_ok, SECTOR_SIZE. intros ? ? [? ?] Hc d Hd.
  destruct (Hc d Hd) as (d' & E & Hd'). exists d'. split; [|done].
  destruct Hd as (Hm & Hn & Hs). unfold SECTOR_SIZE, U64_MAX in *.
  repeat (case_match; bool_hyps; [lia|]). done.
Qed.

Lemma ata_read_in_range start count out b :
  0 <= start -> 0 <= count -> access_ok b start count out ->
  runs ata_holds (ata_read start count out) b
    (Ok (splice out 0 (sectors b start count))) b.
Proof.
  intros Hs Hc Ha. apply ata_guard; [done..|]. unfold access_ok, SECTOR_SIZE in Ha.
  pose proof (read_loop_runs (Z.to_nat count) 0 start out b) as Hr.
  rewrite Z2Nat.id, Z.add_0_r in Hr by lia. apply Hr; unfold SECTOR_SIZE; lia.
Qed.

Lemma ata_write_in_range start count data b :
  0 <= start -> 0 <= count -> Forall byte data -> access_ok b start count data ->
  runs ata_holds (ata_write start count data) b
    (Ok tt) (set_sectors b start count data).
Proof.
  intros Hs Hc Hd Ha. apply ata_guard; [done..|]. unfold access_ok, SECTOR_SIZE in Ha.
  pose proof (write_loop_runs (Z.to_nat count) 0 start data b) as Hr.
  rewrite Z2Nat.id, Z.add_0_r in Hr by lia. apply Hr; unfold SECTOR_SIZE; lia || done.
Qed.

Lemma ata_refused start count (buf : list Z) b :
  0 <= start -> 0 <= count -> start + count < 2 ^ 54 -> ~ access_ok b start count buf ->
  exists e, runs ata_holds (ata_read start count buf) b (Err e) b /\
    runs ata_holds (ata_write start count buf) b (Err e) b.
Proof.
  unfold access_ok. intros ? ? ? Hn.
  exists (if zlen b <? (start + count) * SECTOR_SIZE then InvalidSector else BufferTooSmall).
  split; intros d Hd; exists d; (split; [|done]); destruct Hd as (Hm & Hl & Hs);
    unfold ata_read, ata_write, SECTOR_SIZE, U64_MAX in *;
    repeat (case_match; bool_hyps; try lia; try done); exfalso; apply Hn; lia.
Qed.

#[global] Program Instance ata_laws : DiskLaws (AtaPioDriver H) := {|
  holds := ata_holds;
  read_in_range := ata_read_in_range;
  write_in_range := ata_write_in_range;
|}.
Next Obligation. by intros d b (_ & ? & _). Qed.
Next Obligation. intros d b (? & _ & _). by eapply medium_bytes. Qed.
Next Obligation. intros. destruct (ata_refused start count out b) as (e & ? & _); eauto. Qed.
Next Obligation. intros. destruct (ata_refused start count data b) as (e & _ & ?); eauto. Qed.

(** The ATA driver and the in-memory device are interchangeable: holding the same
    bytes, they return the same buffer for a read and hold the same bytes after a
    write, although the one transfers 16-bit words sector by sector and the other
    copies one slice. *)
Theorem ata_refines_mock start count buf d m b :
  ata_holds d b -> MockDiskDevice.mock_holds m b ->
  0 <= start -> 0 <= count -> access_ok b start count buf -> Forall byte buf ->
  (exists d' m' r, ata_read start count buf d = (Ok r, d') /\
    MockDiskDevice.mock_read start count buf m = (Ok r, m') /\
    ata_holds d' b /\ MockDiskDevice.mock_holds m' b) /\
  (exists d' m' b', ata_write start count buf d = (Ok tt, d') /\
    MockDiskDevice.mock_write start count buf m = (Ok tt, m') /\
    ata_holds d' b' /\ MockDiskDevice.mock_holds m' b').
Proof.
  intros Hd Hm ? ? Ha Hb. split.
  - destruct (ata_read_in_range start count buf b) with (s := d) as (d' & ? & ?); [done..|].
    destruct (MockDiskDevice.mock_read_ok start count buf b) with (s := m) as (m' & ? & ?);
      [done..|]. eauto 8.
  - destruct (ata_write_in_range start count buf b) with (s := d) as (d' & ? & ?); [done..|].
    destruct (MockDiskDevice.mock_write_ok start count buf b) with (s := m) as (m' & ? & ?);
      [done..|]. eauto 8.
Qed.

End ata.
End Ata.

(** A drive that is a byte image, for the witness. *)
Definition image_in (lba : Z) : stM (list Z) DiskOpError (list Z) :=
  fun b => (Ok (Ata.byte_word (sectors b lba 1) <$> seq 0 256), b).

Definition image_out (lba : Z) (words : list Z) : stM (list Z) DiskOpError unit :=
  fun b => (Ok tt, set_sectors b lba 1 (flat_map Ata.word_bytes words)).

(** ** The manager in front of the device *)

Section manager.
Context {D : Type} `{DiskDevice D}.

Definition read_sector (sector : Z) (out_buffer : list Z) : stM D DiskOpError (list Z) :=
  if zlen out_buffer <? SECTOR_SIZE then serr InvalidSector
  else read_sectors sector 1 out_buffer.

Definition mgr_read_sectors : Z -> Z -> list Z -> stM D DiskOpError (list Z) := read_sectors.

Definition write_sector (sector : Z) (data : list Z) : stM D DiskOpError unit :=
  if zlen data <? SECTOR_SIZE then serr InvalidSector else write_sectors sector 1 data.

Definition mgr_write_sectors (sector count : Z) (data : list Z) : stM D DiskOpError unit :=
  if zlen data <? SECTOR_SIZE then serr InvalidSector else write_sectors sector count data.

Definition mgr_sector_count (d : D) : Z := sector_count d.

Context `{!DiskLaws D}.

Lemma read_sector_runs sector out b :
  0 <= sector -> (sector + 1) * SECTOR_SIZE <= zlen b -> SECTOR_SIZE <= zlen out ->
  runs holds (read_sector sector out) b (Ok (splice out 0 (sectors b sector 1))) b.
Proof.
  intros ? ? Ho. unfold read_sector. apply Z.ltb_ge in Ho as Ho'. rewrite Ho'.
  apply read_in_range; [done|lia|]. unfold access_ok, SECTOR_SIZE in *. lia.
Qed.

Lemma write_sector_runs sector data b :
  0 <= sector -> (sector + 1) * SECTOR_SIZE <= zlen b -> SECTOR_SIZE <= zlen data ->
  Forall byte data ->
  runs holds (write_sector sector data) b (Ok tt) (set_sectors b sector 1 data).
Proof.
  intros ? ? Ho ?. unfold write_sector. apply Z.ltb_ge in Ho as Ho'. rewrite Ho'.
  apply write_in_range; [done|lia|done|]. unfold access_ok, SECTOR_SIZE in *. lia.
Qed.

Lemma mgr_write_sectors_runs sector count data b :
  0 <= sector -> 0 < count -> access_ok b sector count data -> Forall byte data ->
  runs holds (mgr_write_sectors sector count data) b (Ok tt) (set_sectors b sector count data).
Proof.
  intros ? ? Ha ?. unfold mgr_write_sectors, access_ok, SECTOR_SIZE in *.
  case_match; bool_hyps; [lia|]. by apply write_in_range; [lia..|done|].
Qed.

(** On any lawful device a successful write through the manager is what later reads
    return: the written range reads back as the data, every range disjoint from it as
    before, and nothing else of the image changes size or content. *)
Theorem disk_read_after_write start count data (d : D) b :
  holds d b -> 0 <= start -> 0 < count -> access_ok b start count data -> Forall byte data ->
  exists d1, mgr_write_sectors start count data d = (Ok tt, d1) /\
    forall start' count' out, 0 <= start' -> 0 <= count' -> access_ok b start' count' out ->
    exists got d2, mgr_read_sectors start' count' out d1 = (Ok (splice out 0 got), d2) /\
      holds d2 (set_sectors b start count data) /\
      (start' = start -> count' = count -> got = take (Z.to_nat (count * SECTOR_SIZE)) data) /\
      (start' + count' <= start \/ start + count <= start' -> got = sectors b start' count').
Proof.
  intros Hd Hs Hc Ha Hb.
  destruct (mgr_write_sectors_runs start count data b Hs Hc Ha Hb d Hd) as (d1 & E & Hd1).
  exists d1. split; [done|]. intros start' count' out Hs' Hc' Ha'.
  destruct (read_in_range start' count' out (set_sectors b start count data) Hs' Hc')
    with (s := d1) as (d2 & E2 & Hd2).
  { unfold access_ok in *. by rewrite length_set_sectors by (lia || done). }
  { done. }
  exists (sectors (set_sectors b start count data) start' count'), d2.
  split_and!; [done..| |].
  - intros -> ->. apply sectors_set_same; lia || done.
  - intros. apply sectors_set_other; lia || done.
Qed.

End manager.

(** ** Witnesses on a two-sector image *)

Definition demo_image : list Z := replicate 1024 7.

Lemma demo_mock_holds :
  MockDiskDevice.mock_holds (MockDiskDevice.mkMock 1024 demo_image) demo_image.
Proof.
  unfold MockDiskDevice.mock_holds. simpl. split_and!; try done.
  - by exists 2.
  - apply Forall_replicate. unfold byte. lia.
Qed.

Definition image_medium (h b : list Z) : Prop := h = b /\ Forall byte b.

Lemma image_in_ok lba b :
  runs image_medium (image_in lba) b (Ok (Ata.byte_word (sectors b lba 1) <$> seq 0 256)) b.
Proof. intros h [<- ?]. by exists h. Qed.

Lemma word_bytes_byte words : Forall byte (flat_map Ata.word_bytes words).
Proof.
  induction words as [|w ws IH]; simpl; [done|]. unfold Ata.word_bytes, byte in *.
  change 255 with (2 ^ 8 - 1). rewrite !land_mask by lia.
  repeat constructor; try apply Z.mod_pos_bound; try lia. done.
Qed.

Lemma image_out_ok lba words b :
  runs image_medium (image_out lba words) b (Ok tt)
    (set_sectors b lba 1 (flat_map Ata.word_bytes words)).
Proof.
  intros h [<- ?]. eexists. split; [done|]. split; [done|].
  apply byte_splice; [done|]. apply Forall_take, word_bytes_byte.
Qed.

Lemma ata_refines_mock_witness :
  exists d' m' r, Ata.ata_read image_in 1 1 (replicate 512 0) (Ata.mkAta 2 demo_image) = (Ok r, d') /\
    MockDiskDevice.mock_read 1 1 (replicate 512 0) (MockDiskDevice.mkMock 1024 demo_image) = (Ok r, m') /\
    Ata.ata_holds image_medium d' demo_image /\ MockDiskDevice.mock_holds m' demo_image.
Proof.
  refine (proj1 (Ata.ata_refines_mock image_in image_out image_medium _ _ _
    1 1 (replicate 512 0) (Ata.mkAta 2 demo_image) (MockDiskDevice.mkMock 1024 demo_image)
    demo_image _ demo_mock_holds _ _ _ _)).
  - by intros h b [_ ?].
  - intros lba b _ _. apply image_in_ok.
  - intros lba words b _ _ _. apply image_out_ok.
  - split; [split; [done|apply demo_mock_holds]|]. split; [done|]. simpl. lia.
  - lia.
  - lia.
  - split; vm_compute; discriminate.
  - apply Forall_replicate. unfold byte. lia.
Defined.

Lemma disk_read_after_write_witness :
  exists d1, mgr_write_sectors 1 1 (replicate 512 9) (MockDiskDevice.mkMock 1024 demo_image) =
      (Ok tt, d1) /\
    forall start' count' out, 0 <= start' -> 0 <= count' ->
    access_ok demo_image start' count' out ->
    exists got d2, mgr_read_sectors start' count' out d1 = (Ok (splice out 0 got), d2) /\
      holds d2 (set_sectors demo_image 1 1 (replicate 512 9)) /\
      (start' = 1 -> count' = 1 -> got = take (Z.to_nat (1 * SECTOR_SIZE)) (replicate 512 9)) /\
      (start' + count' <= 1 \/ 1 + 1 <= start' -> got = sectors demo_image start' count').
Proof.
  apply disk_read_after_write; [exact demo_mock_holds|lia|lia| |].
  - split; vm_compute; discriminate.
  - apply Forall_replicate. unfold byte. lia.
Defined.
