(* ===== verification/FsTypes.v ===== *)
(** * FsTypes: what the layers of the file system share

    Strings as Rust has them ([&str] is a list of Unicode scalar values here, its bytes
    the UTF-8 encoding of that list; a [String] made of raw bytes is the list of those
    bytes), the error type, the file node and the [FilesystemDriver] trait of
    kernel/src/filesystem/sirius.rs. *)

From Stdlib Require Import ZArith Lia.
From stdpp Require Import base tactics list option numbers.
From S2P Require Import Prelude.

(** ** Strings *)

(** A [&str]: its [char]s. *)
Abbreviation str := (list Z).

(** [char::encode_utf8] *)
Definition utf8_char (c : Z) : list Z :=
  let cont k := Z.lor 0x80 (Z.land (Z.shiftr c k) 0x3F) in
  if c <? 0x80 then [c]
  else if c <? 0x800 then [Z.lor 0xC0 (Z.shiftr c 6); cont 0]
  else if c <? 0x10000 then [Z.lor 0xE0 (Z.shiftr c 12); cont 6; cont 0]
  else [Z.lor 0xF0 (Z.shiftr c 18); cont 12; cont 6; cont 0].

(** [str::as_bytes] *)
Definition utf8 (s : str) : list Z := flat_map utf8_char s.

(** [str::len], in bytes. *)
Definition str_len (s : str) : Z := zlen (utf8 s).

Definition ascii (c : Z) : bool := (0 <=? c) && (c <? 0x80).

(** [str::rfind(sep)] and the two slices around it, for an ASCII separator. *)
Fixpoint rsplit (sep : Z) (s : str) : option (str * str) :=
  match s with
  | [] => None
  | c :: s =>
      match rsplit sep s with
      | Some (a, b) => Some (c :: a, b)
      | None => if c =? sep then Some ([], s) else None
      end
  end.

(** [str::split(sep)] *)
Fixpoint split (sep : Z) (s : str) : list str :=
  match s with
  | [] => [[]]
  | c :: s =>
      if c =? sep then [] :: split sep s
      else match split sep s with
           | p :: ps => (c :: p) :: ps
           | [] => [[c]]
           end
  end.

(** [.filter(|p| !p.is_empty())] *)
Definition non_empty (ps : list str) : list str :=
  List.filter (fun p => negb (bool_decide (p = []))) ps.

(** [char::to_ascii_uppercase], and the same match on a byte. *)
Definition upper (c : Z) : Z := if (0x61 <=? c) && (c <=? 0x7A) then c - 32 else c.

(** [core::str::from_utf8(bytes).is_ok()]: well-formed UTF-8, by the table of the
    Unicode standard. *)
Definition between (lo b hi : Z) : bool := (lo <=? b) && (b <=? hi).
Definition continuation (b : Z) : bool := between 0x80 b 0xBF.

Fixpoint utf8_valid (bs : list Z) : bool :=
  match bs with
  | [] => true
  | b :: r1 =>
      if b <? 0x80 then utf8_valid r1 else
      match r1 with
      | b1 :: r2 =>
          if between 0xC2 b 0xDF then continuation b1 && utf8_valid r2 else
          match r2 with
          | b2 :: r3 =>
              if between 0xE0 b 0xEF then
                between (if b =? 0xE0 then 0xA0 else 0x80) b1 (if b =? 0xED then 0x9F else 0xBF) &&
                continuation b2 && utf8_valid r3
              else
              match r3 with
              | b3 :: r4 =>
                  between 0xF0 b 0xF4 &&
                  between (if b =? 0xF0 then 0x90 else 0x80) b1 (if b =? 0xF4 then 0x8F else 0xBF) &&
                  continuation b2 && continuation b3 && utf8_valid r4
              | [] => false
              end
          | [] => false
          end
      | [] => false
      end
  end.

(** The characters of well-formed UTF-8. *)
Fixpoint utf8_chars (bs : list Z) : str :=
  match bs with
  | [] => []
  | b :: r1 =>
      if b <? 0x80 then b :: utf8_chars r1 else
      match r1 with
      | b1 :: r2 =>
          if between 0xC2 b 0xDF then (b - 0xC0) * 64 + (b1 - 0x80) :: utf8_chars r2 else
          match r2 with
          | b2 :: r3 =>
              if between 0xE0 b 0xEF then ((b - 0xE0) * 64 + (b1 - 0x80)) * 64 + (b2 - 0x80) :: utf8_chars r3 else
              match r3 with
              | b3 :: r4 => (((b - 0xF0) * 64 + (b1 - 0x80)) * 64 + (b2 - 0x80)) * 64 + (b3 - 0x80) :: utf8_chars r4
              | [] => []
              end
          | [] => []
          end
      | [] => []
      end
  end.

Definition from_utf8 (bs : list Z) : option str := if utf8_valid bs then Some (utf8_chars bs) else None.

Lemma utf8_ascii s : forallb ascii s = true -> utf8 s = s.
Proof.
  unfold ascii. induction s as [|c s IH]; simpl; [done|]. intros H. bool_hyps.
  unfold utf8_char. destruct (Z.ltb_spec c 128); [|lia]. simpl. f_equal. by apply IH.
Qed.

Lemma utf8_app s t : utf8 (s ++ t) = utf8 s ++ utf8 t.
Proof. apply flat_map_app. Qed.

Lemma utf8_valid_ascii s : forallb ascii s = true -> utf8_valid s = true.
Proof.
  unfold ascii. induction s as [|c s IH]; [done|]. cbn [forallb utf8_valid]. intros H.
  bool_hyps. destruct (Z.ltb_spec c 128); [|lia]. by apply IH.
Qed.

Lemma rsplit_some sep s : forall a b, rsplit sep s = Some (a, b) -> s = a ++ sep :: b.
Proof.
  induction s as [|c s IH]; intros a b; simpl; [done|].
  destruct (rsplit sep s) as [[a' b']|].
  - intros [= <- <-]. simpl. f_equal. by apply IH.
  - destruct (Z.eqb_spec c sep); [|done]. by intros [= <- <-]; subst.
Qed.

Lemma rsplit_last sep s : forall a b, rsplit sep s = Some (a, b) -> sep ∉ b.
Proof.
  induction s as [|c s IH]; intros a b; simpl; [done|].
  destruct (rsplit sep s) as [[a' b']|] eqn:E.
  - intros [= <- <-]. by eapply IH.
  - destruct (Z.eqb_spec c sep); [|done]. intros [= <- <-]. clear IH e.
    induction s as [|d s IH]; [apply not_elem_of_nil|]. simpl in E.
    destruct (rsplit sep s) as [[??]|]; [done|]. destruct (Z.eqb_spec d sep); [done|].
    apply not_elem_of_cons. split; [congruence|]. by apply IH.
Qed.

Lemma rsplit_none sep s : rsplit sep s = None <-> sep ∉ s.
Proof.
  induction s as [|c s IH]; simpl.
  - split; [intros _; apply not_elem_of_nil|done].
  - rewrite not_elem_of_cons. destruct (rsplit sep s) as [[??]|].
    + split; [done|]. intros [_ Hs]. by apply IH in Hs.
    + destruct (Z.eqb_spec c sep); [split; [done|by intros []]|].
      split; [|done]. intros _. split; [congruence|by apply IH].
Qed.

(** ** Errors, nodes and the driver trait of sirius.rs *)

Inductive FileSystemError : Type :=
  | NotFound
  | PermissionDenied
  | FileExists
  | IsDirectory
  | NotDirectory
  | DiskOpFailed
  | InvalidPath
  | FileSizeExceeded
  | InvalidFilename
  | DirectoryNotEmpty
  | NoSpace
  | DirectoryFull
  | IoError
  | FileNotFound
  | CacheFull
  | NotSupported.

#[export] Instance FileSystemError_eq_dec : EqDecision FileSystemError.
Proof. solve_decision. Defined.

Inductive FileType : Type := File | Directory.

#[export] Instance FileType_eq_dec : EqDecision FileType.
Proof. solve_decision. Defined.

(** The bit flags of [FileAttributes]. *)
Definition ATTR_READ : Z := 1.
Definition ATTR_WRITE : Z := 2.
Definition FILE_READONLY : Z := ATTR_READ.
Definition FILE_READ_WRITE : Z := Z.lor ATTR_READ ATTR_WRITE.
Definition DIR_DEFAULT : Z := ATTR_READ.

Record FileNode : Type := mkNode {
  node_id : Z;
  node_name : list Z;
  file_type : FileType;
  node_size : Z;
  created_time : Z;
  modified_time : Z;
  attributes : Z;
}.

(** The trait every driver implements; [read_file] also hands back the buffer. *)
Class FilesystemDriver (D : Type) : Type := {
  read_file : Z -> Z -> list Z -> stM D FileSystemError (Z * list Z);
  write_file : Z -> Z -> list Z -> stM D FileSystemError Z;
  find_node : str -> stM D FileSystemError Z;
  get_node : Z -> stM D FileSystemError FileNode;
  list_directory : Z -> stM D FileSystemError (list FileNode);
  create_file : Z -> str -> stM D FileSystemError Z;
  create_directory : Z -> str -> stM D FileSystemError Z;
  delete : Z -> stM D FileSystemError unit;
  root_node : D -> Z;
}.
