(* ===== verification/DirEntry.v ===== *)
(** * DirEntry: the on-disk records of the FAT32 driver

    kernel/src/filesystem/fat32/direntry.rs (the 32-byte directory entry, its names and
    its timestamps) and the helpers of mod.rs on names and node ids. A Rust array of
    bytes is a list of integers below 256 of the array's length ([entry_ok]); a [None]
    result is a failed assertion. *)

From Stdlib Require Import ZArith Lia.
From stdpp Require Import base tactics list option numbers.
From S2P Require Import Prelude FsTypes.

Definition ROOT_CLUSTER : Z := 2.
Definition MAX_CLUSTER : Z := 0xFFFFFF.

Definition ATTR_NONE : Z := 0x00.
Definition ATTR_READ_ONLY : Z := 0x01.
Definition ATTR_HIDDEN : Z := 0x02.
Definition ATTR_SYSTEM : Z := 0x04.
Definition ATTR_VOLUME_ID : Z := 0x08.
Definition ATTR_DIRECTORY : Z := 0x10.
Definition ATTR_ARCHIVE : Z := 0x20.

Definition FIRST_BYTE_IS_EMPTY_FLAG : Z := 0x00.
Definition FIRST_BYTE_IS_DELETED_FLAG : Z := 0xE5.

Definition MAX_NAME_LENGTH : nat := 8.
Definition MAX_EXT_LENGTH : nat := 3.
Definition MAX_FULL_NAME_LENGTH : nat := MAX_NAME_LENGTH + MAX_EXT_LENGTH.
Definition DIRECTORY_ENTRY_SIZE : nat := 32.

Definition SPACE : Z := 0x20.
Definition DOT : Z := 0x2E.
Definition SLASH : Z := 0x2F.

Definition THIS_DIR_ENTRY_NAME : list Z := DOT :: replicate 7 SPACE.
Definition THIS_DIR_ENTRY_EXT : list Z := replicate 3 SPACE.
Definition PARENT_DIR_ENTRY_NAME : list Z := DOT :: DOT :: replicate 6 SPACE.
Definition PARENT_DIR_ENTRY_EXT : list Z := replicate 3 SPACE.

Record DirectoryEntry : Type := mkEntry {
  name : list Z;
  extension : list Z;
  attrs : Z;
  nt_reserved : Z;
  creation_time_tenth : Z;
  creation_time : Z;
  creation_date : Z;
  access_date : Z;
  first_cluster_high : Z;
  write_time : Z;
  write_date : Z;
  first_cluster_low : Z;
  file_size : Z;
}.

(** ** Timestamps *)

Definition is_leap_year (year : Z) : bool :=
  (year mod 4 =? 0) && (negb (year mod 100 =? 0) || (year mod 400 =? 0)).

(** The loop that fills the table, one day count per year from [y] on. *)
Fixpoint days_until_year (n : nat) (cumsum y : Z) : list Z :=
  match n with
  | O => []
  | S n => cumsum :: days_until_year n (cumsum + (if is_leap_year y then 366 else 365)) (y + 1)
  end.

Definition DAYS_UNTIL_YEAR_SINCE_1970 : list Z := days_until_year 128 0 1970.

Definition month_days (month : Z) : Z :=
  match month with
  | 1 => 0 | 2 => 31 | 3 => 59 | 4 => 90 | 5 => 120 | 6 => 151 | 7 => 181 | 8 => 212
  | 9 => 243 | 10 => 273 | 11 => 304 | 12 => 334 | _ => 0
  end.

(** [None]: the table index or the 32-bit arithmetic overflows. *)
Definition fat_time_to_unix_timestamp (time date : Z) : option Z :=
  let seconds := Z.land time 0x1F * 2 in
  let minutes := Z.land (Z.shiftr time 5) 0x3F in
  let hours := Z.land (Z.shiftr time 11) 0x1F in
  let day := Z.land date 0x1F in
  let month := Z.land (Z.shiftr date 5) 0x0F in
  let year_idx := Z.land (Z.shiftr date 9) 0x7F in
  days ← DAYS_UNTIL_YEAR_SINCE_1970 !! Z.to_nat year_idx;
  let days := days + month_days month in
  let year := year_idx + 1980 in
  let days := if (2 <? month) && is_leap_year year then days + 1 else days in
  let days := if 1 <? day then days + (day - 1) else days in
  let stamp := days * 86400 + hours * 3600 + minutes * 60 + seconds in
  if stamp <=? U32_MAX then Some stamp else None.

(** ** The record and its bytes *)

Definition at_ (data : list Z) (i : nat) : Z := nth i data 0.
Definition u16_at (data : list Z) (i : nat) : Z := le_word (slice data i 2).
Definition u32_at (data : list Z) (i : nat) : Z := le_word (slice data i 4).

Definition from_bytes (data : list Z) : option DirectoryEntry :=
  if (length data <? 32)%nat then None else
  let first_cluster_high := u16_at data 20 in
  let first_cluster_low := u16_at data 26 in
  let cluster := Z.lor (wrap 32 (Z.shiftl first_cluster_high 16)) first_cluster_low in
  if negb (cluster <=? MAX_CLUSTER) then None else
  Some (mkEntry (slice data 0 8) (slice data 8 3) (at_ data 11) (at_ data 12) (at_ data 13)
    (u16_at data 14) (u16_at data 16) (u16_at data 18) first_cluster_high
    (u16_at data 22) (u16_at data 24) first_cluster_low (u32_at data 28)).

Definition create_empty : DirectoryEntry :=
  mkEntry (replicate MAX_NAME_LENGTH 0) (replicate MAX_EXT_LENGTH 0) ATTR_NONE
    0 0 0 0 0 0 0 0 0 0.

Definition set_attributes (a : Z) (e : DirectoryEntry) : DirectoryEntry :=
  mkEntry (name e) (extension e) a (nt_reserved e) (creation_time_tenth e)
    (creation_time e) (creation_date e) (access_date e) (first_cluster_high e)
    (write_time e) (write_date e) (first_cluster_low e) (file_size e).

Definition set_names (n x : list Z) (e : DirectoryEntry) : DirectoryEntry :=
  mkEntry n x (attrs e) (nt_reserved e) (creation_time_tenth e)
    (creation_time e) (creation_date e) (access_date e) (first_cluster_high e)
    (write_time e) (write_date e) (first_cluster_low e) (file_size e).

Definition set_file_size (s : Z) (e : DirectoryEntry) : DirectoryEntry :=
  mkEntry (name e) (extension e) (attrs e) (nt_reserved e) (creation_time_tenth e)
    (creation_time e) (creation_date e) (access_date e) (first_cluster_high e)
    (write_time e) (write_date e) (first_cluster_low e) s.

Definition set_first_cluster (cluster : Z) (e : DirectoryEntry) : DirectoryEntry :=
  mkEntry (name e) (extension e) (attrs e) (nt_reserved e) (creation_time_tenth e)
    (creation_time e) (creation_date e) (access_date e) (wrap 16 (Z.shiftr cluster 16))
    (write_time e) (write_date e) (wrap 16 cluster) (file_size e).

Definition create_dot_entry (cluster : Z) : DirectoryEntry :=
  set_first_cluster cluster
    (set_attributes ATTR_DIRECTORY (set_names THIS_DIR_ENTRY_NAME (extension create_empty) create_empty)).

Definition create_dot_dot_entry (parent_cluster : Z) : DirectoryEntry :=
  set_first_cluster parent_cluster
    (set_attributes ATTR_DIRECTORY (set_names PARENT_DIR_ENTRY_NAME (extension create_empty) create_empty)).

Definition create_for_root : DirectoryEntry :=
  mkEntry (replicate 8 SPACE) (replicate 3 SPACE) ATTR_DIRECTORY 0 0 0 0 0
    (wrap 16 (Z.shiftr ROOT_CLUSTER 16)) 0 0 (wrap 16 ROOT_CLUSTER) 0.

Definition is_deleted (e : DirectoryEntry) : bool := at_ (name e) 0 =? FIRST_BYTE_IS_DELETED_FLAG.
Definition is_empty (e : DirectoryEntry) : bool := at_ (name e) 0 =? FIRST_BYTE_IS_EMPTY_FLAG.
Definition is_valid (e : DirectoryEntry) : bool :=
  if (at_ (name e) 0 =? FIRST_BYTE_IS_EMPTY_FLAG) || (at_ (name e) 0 =? FIRST_BYTE_IS_DELETED_FLAG)
  then false else true.

Definition is_directory (fat_attributes : Z) : bool :=
  negb (Z.land fat_attributes ATTR_DIRECTORY =? 0).
Definition entry_is_directory (e : DirectoryEntry) : bool :=
  negb (Z.land (attrs e) ATTR_DIRECTORY =? 0).
Definition is_volume_id (e : DirectoryEntry) : bool :=
  negb (Z.land (attrs e) ATTR_VOLUME_ID =? 0).
Definition is_current_directory (e : DirectoryEntry) : bool :=
  bool_decide (name e = THIS_DIR_ENTRY_NAME) && bool_decide (extension e = THIS_DIR_ENTRY_EXT) &&
  entry_is_directory e.
Definition is_parent_directory (e : DirectoryEntry) : bool :=
  bool_decide (name e = PARENT_DIR_ENTRY_NAME) && bool_decide (extension e = PARENT_DIR_ENTRY_EXT) &&
  entry_is_directory e.

Definition get_file_type (e : DirectoryEntry) : FileType :=
  if entry_is_directory e then Directory else File.

Definition get_first_cluster (e : DirectoryEntry) : Z :=
  Z.lor (wrap 32 (Z.shiftl (first_cluster_high e) 16)) (first_cluster_low e).

Definition full_name (e : DirectoryEntry) : list Z := name e ++ extension e.

(** [.take_while(|&&c| c != 0 && c != 0x20)] *)
Fixpoint until_blank (bs : list Z) : list Z :=
  match bs with
  | c :: bs => if negb (c =? 0) && negb (c =? SPACE) then c :: until_blank bs else []
  | [] => []
  end.

Definition get_stem (e : DirectoryEntry) : list Z := until_blank (name e).

Definition get_filename (e : DirectoryEntry) : list Z :=
  let stem := get_stem e in
  let ext := until_blank (extension e) in
  if (0 <? length ext)%nat
  then stem ++ DOT :: (if utf8_valid ext then ext else [0x3F; 0x3F; 0x3F]) else stem.

Definition full_name_matches (e : DirectoryEntry) (fullname : list Z) : bool :=
  bool_decide (name e = slice fullname 0 8) && bool_decide (extension e = slice fullname 8 3).

(** [&mut self]: the blanked name stays when the new one is refused. *)
Definition set_filename (filename : str) : stM DirectoryEntry FileSystemError unit :=
  fun e =>
    let blank := set_names (replicate 8 SPACE) (replicate 3 SPACE) e in
    let '(name_part, ext_part) :=
      match rsplit DOT filename with
      | Some (n, x) => (n, Some x)
      | None => (filename, None)
      end in
    if Z.of_nat MAX_NAME_LENGTH <? str_len name_part then (Err InvalidFilename, blank) else
    if (match ext_part with Some x => Z.of_nat MAX_EXT_LENGTH <? str_len x | None => false end)
    then (Err InvalidFilename, blank) else
    (Ok tt, set_names (splice (name blank) 0 (upper <$> utf8 name_part))
      (match ext_part with
       | Some x => splice (extension blank) 0 (upper <$> utf8 x)
       | None => extension blank
       end) blank).

Definition mark_deleted (e : DirectoryEntry) : DirectoryEntry :=
  set_names (<[ 0%nat := FIRST_BYTE_IS_DELETED_FLAG ]> (name e)) (extension e) e.

Definition get_creation_timestamp (e : DirectoryEntry) : option Z :=
  fat_time_to_unix_timestamp (creation_time e) (creation_date e).
Definition get_modified_timestamp (e : DirectoryEntry) : option Z :=
  fat_time_to_unix_timestamp (write_time e) (write_date e).

Definition as_bytes (e : DirectoryEntry) : list Z :=
  name e ++ extension e ++ [attrs e; nt_reserved e; creation_time_tenth e] ++
  le_bytes 2 (creation_time e) ++ le_bytes 2 (creation_date e) ++ le_bytes 2 (access_date e) ++
  le_bytes 2 (first_cluster_high e) ++ le_bytes 2 (write_time e) ++ le_bytes 2 (write_date e) ++
  le_bytes 2 (first_cluster_low e) ++ le_bytes 4 (file_size e).

(** ** Names and node ids (mod.rs) *)

Definition is_valid_filename (n : str) : bool :=
  match n with
  | [] => false
  | c :: _ =>
      if c =? DOT then false else
      match rsplit DOT n with
      | Some (stem, _) =>
          (str_len stem <=? Z.of_nat MAX_NAME_LENGTH) &&
          (str_len n - str_len stem - 1 <=? Z.of_nat MAX_EXT_LENGTH)
      | None => str_len n <=? Z.of_nat MAX_NAME_LENGTH
      end
  end.

(** [c.to_ascii_uppercase() as u8] of every [char]. *)
Definition upper_u8 (s : str) : list Z := (fun c => wrap 8 (upper c)) <$> s.

Definition to_fat32_name (n : str) : result FileSystemError (list Z) :=
  if negb (is_valid_filename n) then Err InvalidFilename else
  let '(stem, ext) :=
    match rsplit DOT n with
    | Some (a, x) => (a, Some x)
    | None => (n, None)
    end in
  if Z.of_nat MAX_NAME_LENGTH <? str_len stem then Err InvalidFilename else
  if (match ext with Some x => Z.of_nat MAX_EXT_LENGTH <? str_len x | None => false end)
  then Err InvalidFilename else
  let fat32_name := splice (replicate 11 SPACE) 0 (upper_u8 stem) in
  Ok (match ext with
      | Some x => splice fat32_name MAX_NAME_LENGTH (upper_u8 x)
      | None => fat32_name
      end).

Definition encode_node_id (entry : DirectoryEntry) (parent_cluster : Z) : Z :=
  let cluster := get_first_cluster entry in
  Z.lor (Z.lor (Z.lor (Z.shiftl 0 63) (Z.shiftl (Z.land (attrs entry) 0x7F) 56))
    (Z.shiftl (Z.land parent_cluster 0xFFFFFF) 32)) (Z.land cluster 0xFFFFFF).

(** The cluster, the parent's cluster and the FAT attributes of a node id. *)
Definition decode_node_id (node_id : Z) : Z * Z * Z :=
  (Z.land node_id 0xFFFFFF, Z.land (Z.shiftr node_id 32) 0xFFFFFF,
   Z.land (Z.shiftr node_id 56) 0x7F).

Definition file_attributes_from_fat_attributes (fat_attributes : Z) : Z :=
  if is_directory fat_attributes then DIR_DEFAULT
  else if Z.land fat_attributes ATTR_READ_ONLY =? 0 then FILE_READ_WRITE else FILE_READONLY.

(** A record whose fields have the widths Rust gives them, and a first cluster that
    [from_bytes] accepts. *)
Record entry_ok (e : DirectoryEntry) : Prop := {
  ok_name : length (name e) = 8%nat /\ Forall byte (name e);
  ok_ext : length (extension e) = 3%nat /\ Forall byte (extension e);
  ok_attrs : byte (attrs e);
  ok_nt : byte (nt_reserved e);
  ok_tenth : byte (creation_time_tenth e);
  ok_ctime : in_width 16 (creation_time e);
  ok_cdate : in_width 16 (creation_date e);
  ok_adate : in_width 16 (access_date e);
  ok_high : in_width 16 (first_cluster_high e);
  ok_wtime : in_width 16 (write_time e);
  ok_wdate : in_width 16 (write_date e);
  ok_low : in_width 16 (first_cluster_low e);
  ok_size : in_width 32 (file_size e);
  ok_cluster : get_first_cluster e <= MAX_CLUSTER;
}.

(** ** The record round trip *)

Lemma list_8 {A} (l : list A) :
  length l = 8%nat -> exists a b c d e f g h, l = [a; b; c; d; e; f; g; h].
Proof.
  intros. destruct l as [|a [|b [|c [|d [|e [|f [|g [|h [|? ?]]]]]]]]]; simplify_eq/=.
  by exists a, b, c, d, e, f, g, h.
Qed.

Lemma list_3 {A} (l : list A) : length l = 3%nat -> exists a b c, l = [a; b; c].
Proof.
  intros. destruct l as [|a [|b [|c [|? ?]]]]; simplify_eq/=. by exists a, b, c.
Qed.

Lemma cluster_words hi lo :
  in_width 16 hi -> in_width 16 lo ->
  Z.lor (wrap 32 (Z.shiftl hi 16)) lo = hi * 2 ^ 16 + lo.
Proof.
  unfold in_width. intros. rewrite Z.shiftl_mul_pow2 by lia.
  rewrite wrap_small by (unfold in_width; lia). by rewrite lor_low by lia.
Qed.

Lemma get_first_cluster_eq e :
  in_width 16 (first_cluster_high e) -> in_width 16 (first_cluster_low e) ->
  get_first_cluster e = first_cluster_high e * 2 ^ 16 + first_cluster_low e.
Proof. apply cluster_words. Qed.

Lemma get_set_first_cluster c e :
  in_width 32 c -> get_first_cluster (set_first_cluster c e) = c.
Proof.
  unfold in_width. intros. rewrite get_first_cluster_eq.
  - simpl. unfold wrap. rewrite Z.shiftr_div_pow2 by lia.
    rewrite (Z.mod_small (c / 2 ^ 16)) by (split; [apply Z.div_pos|apply Z.div_lt_upper_bound]; lia).
    pose proof (Z_div_mod_eq_full c (2 ^ 16)). lia.
  - apply in_width_wrap. lia.
  - apply in_width_wrap. lia.
Qed.

Lemma le_word_2 v : in_width 16 v -> le_word (le_bytes 2 v) = v.
Proof. intros. by apply le_word_bytes. Qed.

Lemma le_word_4 v : in_width 32 v -> le_word (le_bytes 4 v) = v.
Proof. intros. by apply le_word_bytes. Qed.

Lemma length_as_bytes e :
  length (name e) = 8%nat -> length (extension e) = 3%nat -> length (as_bytes e) = 32%nat.
Proof. intros Hn Hx. unfold as_bytes. rewrite !length_app, !length_le_bytes, Hn, Hx. done. Qed.

Lemma as_bytes_byte e : entry_ok e -> Forall byte (as_bytes e).
Proof.
  intros []. unfold as_bytes. rewrite !Forall_app.
  split_and!; try apply le_bytes_byte; [tauto|tauto|]. do 3 (apply Forall_cons; [done|]). apply Forall_nil.
Qed.

Lemma from_as_bytes e : entry_ok e -> from_bytes (as_bytes e) = Some e.
Proof.
  intros [[Hn _] [Hx _] ? ? ? ? ? ? ? ? ? ? ? Hc].
  unfold from_bytes. rewrite length_as_bytes by done.
  destruct e as [n x at0 nt tn ct cd ad hi wt wd lo sz]. simpl in *.
  destruct (list_8 n Hn) as (n0 & n1 & n2 & n3 & n4 & n5 & n6 & n7 & ->).
  destruct (list_3 x Hx) as (x0 & x1 & x2 & ->).
  set (bs := as_bytes _). unfold u16_at, u32_at.
  change (slice bs 20 2) with (le_bytes 2 hi). change (slice bs 26 2) with (le_bytes 2 lo).
  change (slice bs 14 2) with (le_bytes 2 ct). change (slice bs 16 2) with (le_bytes 2 cd).
  change (slice bs 18 2) with (le_bytes 2 ad). change (slice bs 22 2) with (le_bytes 2 wt).
  change (slice bs 24 2) with (le_bytes 2 wd). change (slice bs 28 4) with (le_bytes 4 sz).
  rewrite !le_word_2, le_word_4 by done. change (Z.lor _ lo) with
    (get_first_cluster (mkEntry [n0; n1; n2; n3; n4; n5; n6; n7] [x0; x1; x2] at0 nt tn ct cd
      ad hi wt wd lo sz)).
  apply Z.leb_le in Hc. by rewrite Hc.
Qed.

Lemma slice_le_word bs i n :
  Forall byte bs -> (i + n <= length bs)%nat -> le_bytes n (le_word (slice bs i n)) = slice bs i n.
Proof.
  intros Hb Hl. rewrite <- (length_slice bs i n Hl) at 1.
  apply le_bytes_word. by apply byte_slice.
Qed.

Lemma u16_at_width bs i : Forall byte bs -> (i + 2 <= length bs)%nat -> in_width 16 (u16_at bs i).
Proof.
  intros Hb Hl. unfold u16_at. pose proof (le_word_bound (slice bs i 2)) as H.
  rewrite length_slice in H by lia. apply H. by apply byte_slice.
Qed.

Lemma u32_at_width bs i : Forall byte bs -> (i + 4 <= length bs)%nat -> in_width 32 (u32_at bs i).
Proof.
  intros Hb Hl. unfold u32_at. pose proof (le_word_bound (slice bs i 4)) as H.
  rewrite length_slice in H by lia. apply H. by apply byte_slice.
Qed.

Lemma at_byte bs i : Forall byte bs -> byte (at_ bs i).
Proof.
  intros Hb. unfold at_. destruct (decide (i < length bs)%nat).
  - by apply Forall_nth.
  - rewrite nth_overflow by lia. unfold byte. lia.
Qed.

Lemma slice_1 bs i : (i < length bs)%nat -> slice bs i 1 = [at_ bs i].
Proof.
  intros Hi. unfold slice, at_. destruct (lookup_lt_is_Some_2 bs i Hi) as [x Hx].
  rewrite (drop_S bs x i Hx). simpl. by rewrite (nth_lookup_Some _ _ _ _ Hx).
Qed.

Lemma as_from_bytes bs e :
  Forall byte bs -> from_bytes bs = Some e -> as_bytes e = take 32 bs /\ entry_ok e.
Proof.
  intros Hb. unfold from_bytes. destruct (Nat.ltb_spec (length bs) 32) as [|Hl]; [done|].
  case_match eqn:Hc; [done|]. intros [= <-]. apply negb_false_iff, Z.leb_le in Hc. split.
  - unfold as_bytes. cbn [name extension set_names]. simpl attrs.
    cbn [nt_reserved creation_time_tenth creation_time creation_date access_date
      first_cluster_high write_time write_date first_cluster_low file_size].
    unfold u16_at, u32_at. rewrite !slice_le_word by (done || lia).
    change [at_ bs 11; at_ bs 12; at_ bs 13]
      with ([at_ bs 11] ++ [at_ bs 12] ++ [at_ bs 13]).
    rewrite <- !slice_1 by lia. rewrite <- !app_assoc.
    change (take 32 bs) with (slice bs 0 (8 + (3 + (1 + (1 + (1 + (2 + (2 + (2 + (2 + (2 + (2 + (2 + 4))))))))))))).
    by rewrite !slice_app.
  - constructor; cbn [name extension attrs nt_reserved creation_time_tenth creation_time
      creation_date access_date first_cluster_high write_time write_date first_cluster_low
      file_size]; try (apply u16_at_width; done || lia); try (apply u32_at_width; done || lia);
      try (by apply at_byte); try done.
    + rewrite length_slice by lia. split; [done|by apply byte_slice].
    + rewrite length_slice by lia. split; [done|by apply byte_slice].
Qed.

(** The directory record survives its trip to the disk: the 32 bytes written for a
    record decode to that record, and every 32 bytes the decoder accepts are the ones
    the decoded record encodes to, so rewriting an entry that was read never changes a
    byte of it. *)
Theorem direntry_roundtrip :
  (forall e, entry_ok e -> length (as_bytes e) = 32%nat /\ Forall byte (as_bytes e) /\
    from_bytes (as_bytes e) = Some e) /\
  (forall bs e, Forall byte bs -> from_bytes bs = Some e ->
    as_bytes e = take 32 bs /\ entry_ok e).
Proof.
  split.
  - intros e He. pose proof He as [[? _] [? _] ? ? ? ? ? ? ? ? ? ? ? ?].
    auto using length_as_bytes, as_bytes_byte, from_as_bytes.
  - apply as_from_bytes.
Qed.

(** ** Names *)

(** A character a short name can hold and give back: ASCII, not blank. *)
Definition plain (c : Z) : bool := ascii c && negb (c =? 0) && negb (c =? SPACE).

(** [n] names a short entry and reads back as written: valid, every character plain,
    no trailing dot. *)
Definition plain_name (n : str) : Prop :=
  is_valid_filename n = true /\ forallb plain n = true /\
  (forall s x, rsplit DOT n = Some (s, x) -> x <> []).

Definition pad (k : nat) (l : list Z) : list Z := l ++ replicate (k - length l) SPACE.

Lemma splice_blank k l : (length l <= k)%nat -> splice (replicate k SPACE) 0 l = pad k l.
Proof. intros. unfold splice, pad. simpl. by rewrite drop_replicate. Qed.

Lemma length_pad k l : (length l <= k)%nat -> length (pad k l) = k.
Proof. intros. unfold pad. rewrite length_app, length_replicate. lia. Qed.

Lemma splice_stem l :
  (length l <= 8)%nat -> splice (replicate 11 SPACE) 0 l = pad 8 l ++ replicate 3 SPACE.
Proof.
  intros. unfold splice, pad. rewrite take_0, app_nil_l, Nat.add_0_l.
  rewrite drop_replicate, <- app_assoc, <- replicate_add. do 2 f_equal. lia.
Qed.

Lemma splice_ext n x :
  length n = 8%nat -> (length x <= 3)%nat ->
  splice (n ++ replicate 3 SPACE) 8 x = n ++ pad 3 x.
Proof.
  intros Hn Hx. unfold splice, pad. rewrite take_app_length' by done. f_equal. f_equal.
  rewrite drop_app_ge, Hn, drop_replicate by lia. f_equal. lia.
Qed.

Lemma upper_u8_ascii s : forallb ascii s = true -> upper_u8 s = upper <$> s.
Proof.
  unfold ascii, upper_u8. intros H. apply list_fmap_ext. intros i c Hc.
  rewrite forallb_forall in H. specialize (H c). apply list_elem_of_lookup_2, list_elem_of_In in Hc.
  specialize (H Hc). bool_hyps. apply wrap_small. unfold in_width, upper. case_match; lia.
Qed.

Lemma plain_ascii s : forallb plain s = true -> forallb ascii s = true.
Proof.
  rewrite !forallb_forall. unfold plain. intros H c Hc. specialize (H c Hc). by bool_hyps.
Qed.

Lemma until_blank_plain s k :
  forallb plain s = true -> until_blank ((upper <$> s) ++ replicate k SPACE) = upper <$> s.
Proof.
  induction s as [|c s IH]; cbn [forallb]; intros H.
  - by destruct k.
  - apply andb_true_iff in H as [Hc Hs]. rewrite fmap_cons. cbn [app until_blank].
    unfold plain, ascii, SPACE in Hc. bool_hyps.
    assert (upper c <> 0 /\ upper c <> SPACE) as [Hn0 Hn1].
    { unfold upper, SPACE. case_match; bool_hyps; lia. }
    apply Z.eqb_neq in Hn0, Hn1. rewrite Hn0, Hn1. simpl. f_equal. by apply IH.
Qed.

Lemma upper_ascii s : forallb ascii s = true -> forallb ascii (upper <$> s) = true.
Proof.
  unfold ascii. induction s as [|c s IH]; [done|]. rewrite fmap_cons. cbn [forallb]. intros H.
  bool_hyps. apply andb_true_iff. split; [|by apply IH].
  unfold upper. case_match; bool_hyps; apply andb_true_iff; split;
    try apply Z.leb_le; try apply Z.ltb_lt; lia.
Qed.

Lemma forallb_split s x : forallb plain (s ++ DOT :: x) = true ->
  forallb plain s = true /\ forallb plain x = true.
Proof.
  rewrite forallb_app. intros [? H]%andb_true_iff. cbn [forallb] in H.
  by apply andb_true_iff in H as [_ ?].
Qed.

(** The stem and the extension of a name, and their bounds when it is valid ASCII. *)
Definition stem_ext (n : str) : str * option str :=
  match rsplit DOT n with Some (a, x) => (a, Some x) | None => (n, None) end.

Lemma stem_ext_bounds n :
  forallb ascii n = true -> is_valid_filename n = true ->
  forallb ascii (fst (stem_ext n)) = true /\ (length (fst (stem_ext n)) <= 8)%nat /\
  match snd (stem_ext n) with
  | Some x => forallb ascii x = true /\ (length x <= 3)%nat /\ n = fst (stem_ext n) ++ DOT :: x
  | None => n = fst (stem_ext n)
  end.
Proof.
  intros Ha. unfold is_valid_filename, stem_ext, MAX_NAME_LENGTH, MAX_EXT_LENGTH.
  destruct n as [|c n]; [done|]. case_match; [done|].
  destruct (rsplit DOT (c :: n)) as [[s x]|] eqn:Hr.
  - apply rsplit_some in Hr. rewrite Hr in Ha |- *. rewrite forallb_app in Ha.
    apply andb_true_iff in Ha as [Hs Hx]. cbn [forallb] in Hx.
    apply andb_true_iff in Hx as [_ Hx]. intros Hv. bool_hyps. unfold str_len in *.
    rewrite utf8_app in *. rewrite (utf8_ascii s), (utf8_ascii (DOT :: x)) in *
      by (done || (cbn [forallb]; by rewrite Hx)).
    rewrite length_app in *. cbn [length fst snd] in *. split_and!; try done; lia.
  - intros Hv. bool_hyps. unfold str_len in *. rewrite utf8_ascii in * by done.
    cbn [fst snd]. split_and!; [done|simpl in *; lia|done].
Qed.

(** Both encoders of a valid ASCII name produce the padded upper-case stem and extension. *)
Lemma encode_name n e :
  forallb ascii n = true -> is_valid_filename n = true ->
  let nm := pad 8 (upper <$> fst (stem_ext n)) in
  let xt := pad 3 (upper <$> default [] (snd (stem_ext n))) in
  set_filename n e = (Ok tt, set_names nm xt e) /\ to_fat32_name n = Ok (nm ++ xt).
Proof.
  intros Ha Hv. destruct (stem_ext_bounds n Ha Hv) as (Hs & Hl & Hx).
  unfold set_filename, to_fat32_name. rewrite Hv. cbn [negb].
  unfold stem_ext in *. destruct (rsplit DOT n) as [[s x]|]; cbn [fst snd default] in *.
  - destruct Hx as (Hx & Hlx & ->). unfold str_len, MAX_NAME_LENGTH, MAX_EXT_LENGTH.
    rewrite !utf8_ascii by done. change (Z.of_nat 8) with 8.
    change (Z.of_nat 3) with 3. destruct (Z.ltb_spec 8 (zlen s)); [lia|].
    destruct (Z.ltb_spec 3 (zlen x)); [lia|]. cbn [name extension set_names].
    rewrite !splice_blank by (rewrite length_fmap; lia).
    rewrite !upper_u8_ascii by done. rewrite splice_stem by (rewrite length_fmap; lia).
    rewrite splice_ext by (rewrite ?length_pad; rewrite ?length_fmap; lia). done.
  - unfold str_len, MAX_NAME_LENGTH. rewrite !utf8_ascii by done. change (Z.of_nat 8) with 8.
    destruct (Z.ltb_spec 8 (zlen n)); [lia|]. cbn [name extension set_names].
    rewrite splice_blank by (rewrite length_fmap; lia).
    rewrite upper_u8_ascii by done. by rewrite splice_stem by (rewrite length_fmap; lia).
Qed.

Lemma get_filename_plain n e :
  plain_name n ->
  get_filename (set_names (pad 8 (upper <$> fst (stem_ext n)))
    (pad 3 (upper <$> default [] (snd (stem_ext n)))) e) = upper <$> n.
Proof.
  intros (Hv & Hp & Hd). pose proof (plain_ascii n Hp) as Ha.
  destruct (stem_ext_bounds n Ha Hv) as (Hs & Hl & Hx).
  unfold get_filename, get_stem. cbn [name extension set_names].
  unfold stem_ext in *. destruct (rsplit DOT n) as [[s x]|]; cbn [fst snd default] in *.
  - destruct Hx as (Hx & Hlx & ->). destruct (forallb_split _ _ Hp) as [Hps Hpx].
    unfold pad. rewrite !until_blank_plain by done. rewrite length_fmap.
    specialize (Hd s x eq_refl). destruct x as [|c x]; [done|].
    change (0 <? length (c :: x))%nat with true. cbv iota.
    rewrite utf8_valid_ascii by (by apply upper_ascii).
    rewrite fmap_app, (fmap_cons _ DOT). done.
  - change (until_blank (pad 3 (upper <$> []))) with (@nil Z). cbn [length Nat.ltb Nat.leb].
    unfold pad. by rewrite until_blank_plain.
Qed.

Lemma matches_pad nm xt e :
  length nm = 8%nat -> length xt = 3%nat ->
  full_name_matches (set_names nm xt e) (nm ++ xt) = true.
Proof.
  intros Hn Hx. unfold full_name_matches, slice. cbn [name extension set_names].
  rewrite drop_0, take_app_length', drop_app_length', take_ge by lia.
  by rewrite !bool_decide_eq_true_2.
Qed.

Lemma upper_dot c : upper c = DOT <-> c = DOT.
Proof. unfold upper, DOT. case_match; bool_hyps; lia. Qed.

Lemma rsplit_upper (n : str) :
  rsplit DOT (upper <$> n) =
    option_map (fun p : str * str => (upper <$> p.1, upper <$> p.2)) (rsplit DOT n).
Proof.
  induction n as [|c n IH]; [done|]. rewrite fmap_cons. cbn [rsplit]. rewrite IH.
  destruct (rsplit DOT n) as [[a x]|]; [done|]. simpl.
  destruct (Z.eqb_spec c DOT) as [->|Hc]; [done|].
  destruct (Z.eqb_spec (upper c) DOT) as [Hu|]; [|done]. by destruct Hc; apply upper_dot.
Qed.

(** The two padded fields only depend on the upper-case spelling. *)
Lemma stem_ext_upper (n : str) :
  stem_ext (upper <$> n) =
    (upper <$> fst (stem_ext n), option_map (fmap upper) (snd (stem_ext n))).
Proof.
  unfold stem_ext. rewrite rsplit_upper. by destruct (rsplit DOT n) as [[a x]|].
Qed.

Lemma upper_spelling (n n' : str) :
  upper <$> n' = upper <$> n ->
  upper <$> fst (stem_ext n') = upper <$> fst (stem_ext n) /\
  upper <$> default [] (snd (stem_ext n')) = upper <$> default [] (snd (stem_ext n)).
Proof.
  intros Hu. apply (f_equal stem_ext) in Hu. rewrite !stem_ext_upper in Hu.
  injection Hu as H1 H2. split; [done|].
  destruct (snd (stem_ext n')), (snd (stem_ext n)); naive_solver.
Qed.

(** Names survive: a plain name is stored so that the lookup of any spelling of the
    same letters finds the entry, the entry lists under the upper-case spelling, and no
    other plain name looks up the same entry. *)
Theorem filename_roundtrip n e :
  plain_name n ->
  exists e' full,
    set_filename n e = (Ok tt, e') /\ to_fat32_name n = Ok full /\
    full_name_matches e' full = true /\ get_filename e' = upper <$> n /\
    (forall n', plain_name n' ->
      (to_fat32_name n' = Ok full <-> upper <$> n' = upper <$> n)).
Proof.
  intros Hn. pose proof Hn as (Hv & Hp & _). pose proof (plain_ascii n Hp) as Ha.
  destruct (encode_name n e Ha Hv) as [E1 E2]. eexists _, _. split_and!; [done|done| | |].
  - destruct (stem_ext_bounds n Ha Hv) as (Hs & Hl & Hx).
    apply matches_pad; apply length_pad; rewrite length_fmap; [done|].
    destruct (snd (stem_ext n)); simpl; [tauto|lia].
  - by apply get_filename_plain.
  - intros n' Hn'. pose proof Hn' as (Hv' & Hp' & _). pose proof (plain_ascii n' Hp') as Ha'.
    destruct (encode_name n' e Ha' Hv') as [_ ->]. split.
    + intros [= Hf]. destruct (stem_ext_bounds n Ha Hv) as (_ & Hl & _).
      destruct (stem_ext_bounds n' Ha' Hv') as (_ & Hl' & _).
      apply app_inj_1 in Hf as [H1 H2]; [|rewrite !length_pad; rewrite ?length_fmap; done].
      rewrite <- (get_filename_plain n e), <- (get_filename_plain n' e) by done. congruence.
    + intros Hu. by destruct (upper_spelling n n' Hu) as [-> ->].
Qed.

(** ** Node ids *)

Lemma encode_node_id_eq e p :
  0 <= attrs e -> 0 <= p -> 0 <= get_first_cluster e ->
  encode_node_id e p =
    (attrs e mod 2 ^ 7) * 2 ^ 56 + (p mod 2 ^ 24) * 2 ^ 32 + get_first_cluster e mod 2 ^ 24.
Proof.
  intros. unfold encode_node_id.
  change 0x7F with (2 ^ 7 - 1). change 0xFFFFFF with (2 ^ 24 - 1). rewrite !land_mask by lia.
  pose proof (Z.mod_pos_bound (attrs e) (2 ^ 7) ltac:(lia)).
  pose proof (Z.mod_pos_bound p (2 ^ 24) ltac:(lia)).
  pose proof (Z.mod_pos_bound (get_first_cluster e) (2 ^ 24) ltac:(lia)).
  rewrite !Z.shiftl_mul_pow2 by lia. rewrite Z.mul_0_l, Z.lor_0_l.
  rewrite lor_low by lia.
  replace (attrs e mod 2 ^ 7 * 2 ^ 56 + p mod 2 ^ 24 * 2 ^ 32)
    with ((attrs e mod 2 ^ 7 * 2 ^ 24 + p mod 2 ^ 24) * 2 ^ 32) by lia.
  rewrite lor_low by lia. lia.
Qed.

(** A node id carries the entry's first cluster, its parent directory's cluster and
    its attributes without loss for every cluster the driver accepts, stays clear of the
    reserved top bit, and two ids are equal only when all three are. *)
Theorem node_id_roundtrip e p :
  byte (attrs e) -> 0 <= get_first_cluster e <= MAX_CLUSTER -> 0 <= p <= MAX_CLUSTER ->
  decode_node_id (encode_node_id e p) = (get_first_cluster e, p, attrs e mod 128) /\
  0 <= encode_node_id e p < 2 ^ 63.
Proof.
  unfold byte, MAX_CLUSTER. intros Ha Hc Hp. rewrite encode_node_id_eq by lia.
  rewrite (Z.mod_small p), (Z.mod_small (get_first_cluster e)) by lia.
  change (2 ^ 7) with 128. set (A := attrs e mod 128). set (c := get_first_cluster e) in *.
  assert (0 <= A < 128) by (apply Z.mod_pos_bound; lia). split; [|lia].
  unfold decode_node_id. change 0x7F with (2 ^ 7 - 1). change 0xFFFFFF with (2 ^ 24 - 1).
  rewrite !land_mask, !Z.shiftr_div_pow2 by lia. f_equal; [f_equal|].
  - replace (A * 2 ^ 56 + p * 2 ^ 32 + c) with (c + (A * 2 ^ 32 + p * 2 ^ 8) * 2 ^ 24) by lia.
    rewrite Z_mod_plus_full. by apply Z.mod_small; lia.
  - replace (A * 2 ^ 56 + p * 2 ^ 32 + c) with (c + (A * 2 ^ 24 + p) * 2 ^ 32) by lia.
    rewrite Z.div_add, Z.div_small, Z.add_0_l by lia.
    rewrite Z.add_comm, Z_mod_plus_full. apply Z.mod_small; lia.
  - replace (A * 2 ^ 56 + p * 2 ^ 32 + c) with (p * 2 ^ 32 + c + A * 2 ^ 56) by lia.
    rewrite Z.div_add, Z.div_small, Z.add_0_l by lia. by rewrite Z.mod_small by lia.
Qed.

(** ** The calendar *)

(** Days from 1970-01-01 to the first of January of a year, in the Gregorian calendar. *)
Definition days_before (y : Z) : Z :=
  365 * (y - 1970) + (y - 1969) / 4 - (y - 1901) / 100 + (y - 1601) / 400.

Definition unix_time (y month day h m s : Z) : Z :=
  (days_before y + month_days month + (if (2 <? month) && is_leap_year y then 1 else 0) +
   (day - 1)) * 86400 + h * 3600 + m * 60 + s.

Lemma days_table i :
  (i < 128)%nat ->
  DAYS_UNTIL_YEAR_SINCE_1970 !! i = Some (days_before (1970 + Z.of_nat i)) /\
  0 <= days_before (1970 + Z.of_nat i) <= 46387 /\
  3651 <= days_before (1980 + Z.of_nat i) - days_before (1970 + Z.of_nat i) <= 3653.
Proof.
  intros Hi.
  assert (Hall : forallb (fun i =>
    bool_decide (DAYS_UNTIL_YEAR_SINCE_1970 !! i = Some (days_before (1970 + Z.of_nat i))) &&
    bool_decide (0 <= days_before (1970 + Z.of_nat i) <= 46387) &&
    bool_decide (3651 <= days_before (1980 + Z.of_nat i) - days_before (1970 + Z.of_nat i) <= 3653))
    (seq 0 128) = true) by (vm_compute; reflexivity).
  rewrite forallb_forall in Hall. specialize (Hall i ltac:(apply in_seq; lia)).
  apply andb_true_iff in Hall as [[H1 H2]%andb_true_iff H3].
  by apply bool_decide_eq_true_1 in H1, H2, H3.
Qed.

Lemma month_days_bound m : 0 <= month_days m <= 334.
Proof.
  unfold month_days. destruct m as [|p|p]; [lia| |lia].
  do 4 (destruct p as [p|p|]; try lia).
Qed.

(** A modification or creation stamp is always computed without overflow, but it is
    the calendar date's Unix time minus the ten years between 1970 and 1980: the year
    field counts from 1980, and the day table it indexes starts at 1970. *)
Theorem timestamp_ten_years_early time date :
  in_width 16 time -> in_width 16 date -> 1 <= Z.land date 0x1F ->
  let y := Z.land (Z.shiftr date 9) 0x7F in
  let early := days_before (1980 + y) - days_before (1970 + y) in
  fat_time_to_unix_timestamp time date =
    Some (unix_time (1980 + y) (Z.land (Z.shiftr date 5) 0x0F) (Z.land date 0x1F)
      (Z.land (Z.shiftr time 11) 0x1F) (Z.land (Z.shiftr time 5) 0x3F) (Z.land time 0x1F * 2)
      - 86400 * early) /\
  3651 <= early <= 3653.
Proof.
  unfold in_width. intros Ht Hd Hday. cbv zeta. unfold fat_time_to_unix_timestamp, unix_time.
  rewrite !Z.shiftr_div_pow2 in * by lia.
  change 0x1F with (2 ^ 5 - 1) in *. change 0x3F with (2 ^ 6 - 1). change 0x0F with (2 ^ 4 - 1).
  change 0x7F with (2 ^ 7 - 1). rewrite !land_mask in * by lia.
  pose proof (Z.mod_pos_bound time (2 ^ 5) ltac:(lia)).
  pose proof (Z.mod_pos_bound (time / 2 ^ 5) (2 ^ 6) ltac:(lia)).
  pose proof (Z.mod_pos_bound (time / 2 ^ 11) (2 ^ 5) ltac:(lia)).
  pose proof (Z.mod_pos_bound date (2 ^ 5) ltac:(lia)).
  pose proof (Z.mod_pos_bound (date / 2 ^ 9) (2 ^ 7) ltac:(lia)).
  pose proof (month_days_bound ((date / 2 ^ 5) mod 2 ^ 4)).
  destruct (days_table (Z.to_nat ((date / 2 ^ 9) mod 2 ^ 7))) as (Hy & Hb & He); [lia|].
  rewrite Hy. rewrite Z2Nat.id in * by lia. split; [|done].
  cbn [mbind option_bind]. rewrite (Z.add_comm _ 1980).
  set (lp := (2 <? _) && is_leap_year _) in *. destruct (Z.ltb_spec 1 (date mod 2 ^ 5)).
  - replace (_ <=? U32_MAX) with true; [f_equal; destruct lp; lia|].
    symmetry. apply Z.leb_le. unfold U32_MAX. destruct lp; lia.
  - replace (_ <=? U32_MAX) with true; [f_equal; destruct lp; lia|].
    symmetry. apply Z.leb_le. unfold U32_MAX. destruct lp; lia.
Qed.

(** ** Witnesses *)

Lemma root_entry_ok : entry_ok create_for_root.
Proof.
  constructor; try (split; vm_compute; congruence); try (vm_compute; congruence);
    (split; [reflexivity|apply Forall_replicate; split; vm_compute; congruence]).
Qed.

Lemma direntry_roundtrip_witness : from_bytes (as_bytes create_for_root) = Some create_for_root.
Proof.
  exact (proj2 (proj2 (proj1 direntry_roundtrip create_for_root root_entry_ok))).
Defined.

(** "a.txt" *)
Lemma filename_roundtrip_witness :
  let n := [0x61; 0x2E; 0x74; 0x78; 0x74] in
  plain_name n /\
  exists e' full,
    set_filename n create_empty = (Ok tt, e') /\ to_fat32_name n = Ok full /\
    full_name_matches e' full = true /\ get_filename e' = upper <$> n /\
    (forall n', plain_name n' ->
      (to_fat32_name n' = Ok full <-> upper <$> n' = upper <$> n)).
Proof.
  assert (Hn : plain_name [0x61; 0x2E; 0x74; 0x78; 0x74]).
  { split; [reflexivity|]. split; [reflexivity|]. intros s x [= <- <-]. discriminate. }
  split; [exact Hn|]. exact (filename_roundtrip _ create_empty Hn).
Defined.

Lemma node_id_roundtrip_witness :
  decode_node_id (encode_node_id create_for_root 5) = (2, 5, 16) /\
  0 <= encode_node_id create_for_root 5 < 2 ^ 63.
Proof.
  apply (node_id_roundtrip create_for_root 5).
  - split; vm_compute; [discriminate|reflexivity].
  - split; vm_compute; discriminate.
  - split; vm_compute; discriminate.
Defined.

(** 1980-01-01, 00:00: the stamp is the epoch. *)
Lemma timestamp_ten_years_early_witness :
  fat_time_to_unix_timestamp 0 0x21 = Some (unix_time 1980 1 1 0 0 0 - 86400 * 3652) /\
  fat_time_to_unix_timestamp 0 0x21 = Some 0.
Proof.
  split; [|reflexivity].
  exact (proj1 (timestamp_ten_years_early 0 0x21 ltac:(unfold in_width; lia)
    ltac:(unfold in_width; lia) ltac:(vm_compute; discriminate))).
Defined.
