(* ===== verification/BootSector.v ===== *)
(** * BootSector: the first sector of a FAT32 volume

    kernel/src/filesystem/fat32/boot_sector.rs. *)

From Stdlib Require Import ZArith Lia.
From stdpp Require Import base tactics list option numbers.
From S2P Require Import Prelude FsTypes DirEntry.

Record BootSector : Type := mkBoot {
  jmp_boot : list Z;
  oem_name : list Z;
  bytes_per_sector : Z;
  sectors_per_cluster : Z;
  reserved_sectors : Z;
  num_fats : Z;
  root_entries : Z;
  total_sectors_16 : Z;
  media_descriptor : Z;
  fat_size_16 : Z;
  sectors_per_track : Z;
  num_heads : Z;
  hidden_sectors : Z;
  total_sectors_32 : Z;
  fat_size_32 : Z;
  ext_flags : Z;
  fs_version : Z;
  root_cluster : Z;
  fsinfo_sector : Z;
  backup_boot_sector : Z;
  reserved : list Z;
  drive_number : Z;
  winnt_flags : Z;
  signature : Z;
  volume_id : Z;
  volume_label : list Z;
  fs_type : list Z;
  bootcode : list Z;
  signature_word : Z;
  root_dir_sectors : Z;
}.

Definition boot_sector_from_bytes (data : list Z) : result FileSystemError BootSector :=
  if (length data <? 512)%nat then Err IoError else
  let bs := mkBoot (slice data 0 3) (slice data 3 8) (u16_at data 11) (at_ data 13)
    (u16_at data 14) (at_ data 16) (u16_at data 17) (u16_at data 19) (at_ data 21)
    (u16_at data 22) (u16_at data 24) (u16_at data 26) (u32_at data 28) (u32_at data 32)
    (u32_at data 36) (u16_at data 40) (u16_at data 42) (u32_at data 44) (u16_at data 48)
    (u16_at data 50) (slice data 52 12) (at_ data 64) (at_ data 65) (at_ data 66)
    (u32_at data 67) (slice data 71 11) (slice data 82 8) (replicate 420 0)
    (u16_at data 510) 0 in
  if fat_size_32 bs =? 0 then Err DiskOpFailed else
  if negb (root_entries bs =? 0) then Err DiskOpFailed else
  Ok bs.

(** The fields the driver computes with have their Rust widths. *)
Lemma boot_sector_widths data bs :
  Forall byte data -> boot_sector_from_bytes data = Ok bs ->
  in_width 16 (bytes_per_sector bs) /\ in_width 8 (sectors_per_cluster bs) /\
  in_width 16 (reserved_sectors bs) /\ in_width 8 (num_fats bs) /\
  in_width 32 (total_sectors_32 bs) /\ in_width 16 (total_sectors_16 bs) /\
  in_width 32 (fat_size_32 bs) /\ in_width 32 (root_cluster bs) /\
  fat_size_32 bs <> 0 /\ root_entries bs = 0.
Proof.
  intros Hb. unfold boot_sector_from_bytes.
  destruct (Nat.ltb_spec (length data) 512); [done|].
  cbv zeta. case_match eqn:E1; [done|]. case_match eqn:E2; [done|]. intros [= <-].
  apply Z.eqb_neq in E1. apply negb_false_iff, Z.eqb_eq in E2.
  cbn [bytes_per_sector sectors_per_cluster reserved_sectors num_fats total_sectors_32
    total_sectors_16 fat_size_32 root_cluster root_entries].
  split_and!; try (apply u16_at_width; [done|lia]); try (apply u32_at_width; [done|lia]);
    try (by apply at_byte); done.
Qed.
