(* ===== verification/Fat32.v ===== *)
(** * Fat32: the FAT32 driver of kernel/src/filesystem/fat32/mod.rs

    The driver's fields never change after [new], so the driver is a record [drv] and
    the state of the monad is the disk behind it: every operation of the source takes
    the disk manager's lock once and runs to its end under it. [?] on a disk operation
    is [disk]. Where the source indexes a slice or divides, the model panics where Rust
    would. The [while] loops that follow a cluster chain take fuel: [chain_fuel] links
    for a walk along a chain (a chain without a cycle has fewer clusters than
    [max_cluster]), one unit per byte for a transfer loop (every round moves at least
    one byte). *)

From Stdlib Require Import ZArith Lia.
From stdpp Require Import base tactics list option numbers.
From S2P Require Import Prelude Disk FsTypes DirEntry BootSector.

Definition EMPTY_FAT_ENTRY : Z := 0.
Definition END_OF_CHAIN : Z := 0x0FFFFFFF.
Definition BAD_CLUSTER : Z := 0x0FFFFFF7.
Definition FAT_ENTRY_RESERVED_BEGIN : Z := 0x0FFFFFF8.
Definition FAT_ENTRY_RESERVED_END : Z := 0x0FFFFFFE.
Definition ZERO_BUFFER : list Z := replicate 4096 0.

Record Fat32Driver : Type := mkDriver {
  boot_sector : BootSector;
  fat_start_sector : Z;
  root_start_sector : Z;
  data_start_sector : Z;
  sectors_per_cluster : Z;
  cluster_size : Z;
  max_cluster : Z;
  root_dir_node_id : Z;
  root_direntry : DirectoryEntry;
  root_filenode : FileNode;
}.

(** [Fat32Driver::new]: the subtraction, the division and the addition panic. *)
Definition new (boot_sector_data : list Z) : result FileSystemError Fat32Driver :=
  (let? bs := boot_sector_from_bytes boot_sector_data in
   let fat_start_sector := reserved_sectors bs in
   let sectors_per_cluster := BootSector.sectors_per_cluster bs in
   let fat_size := fat_size_32 bs in
   let root_start_sector := fat_start_sector + num_fats bs * fat_size in
   let data_start_sector := root_start_sector + 0 in
   let cluster_size := sectors_per_cluster * bytes_per_sector bs in
   let root_direntry := create_for_root in
   let root_dir_node_id := encode_node_id root_direntry (root_cluster bs) in
   let root_filenode := mkNode root_dir_node_id [SLASH] Directory 0 0 0 DIR_DEFAULT in
   let total := if negb (total_sectors_32 bs =? 0) then total_sectors_32 bs
                else total_sectors_16 bs in
   if total <? wrap 32 data_start_sector then Panic else
   let available_data_sectors := total - wrap 32 data_start_sector in
   if sectors_per_cluster =? 0 then Panic else
   let total_clusters := available_data_sectors / sectors_per_cluster in
   if U32_MAX <? total_clusters + ROOT_CLUSTER then Panic else
   Ok (mkDriver bs fat_start_sector root_start_sector data_start_sector sectors_per_cluster
     cluster_size (total_clusters + ROOT_CLUSTER) root_dir_node_id root_direntry
     root_filenode))%rust.

Section driver.
Context {D : Type} `{DiskDevice D}.
Variable drv : Fat32Driver.

Abbreviation fsM A := (stM D FileSystemError A).

(** [From<DiskOpError> for FileSystemError] *)
Definition disk {A} (c : stM D DiskOpError A) : fsM A :=
  fun d => match c d with
           | (Ok a, d') => (Ok a, d')
           | (Err _, d') => (Err DiskOpFailed, d')
           | (Panic, d') => (Panic, d')
           | (OutOfFuel, d') => (OutOfFuel, d')
           end.

Definition bps : Z := bytes_per_sector (boot_sector drv).

Definition chain_fuel : nat := Z.to_nat (max_cluster drv).

Definition cluster_to_sector (cluster : Z) : Z :=
  if 2 <=? cluster then data_start_sector drv + (cluster - 2) * sectors_per_cluster drv
  else root_start_sector drv.

(** ** The file allocation table *)

(** The sector of a cluster's FAT entry and the entry's offset in it. *)
Definition fat_position (cluster : Z) : Z * Z :=
  let fat_offset := cluster * 4 in (fat_start_sector drv + fat_offset / bps, fat_offset mod bps).

(** The sector buffer, the checked position of the four bytes in it, the sector. *)
Definition read_fat_sector (cluster : Z) : fsM (list Z * nat * Z) :=
  if bps =? 0 then spanic else
  let '(fat_sector, offset_in_sector) := fat_position cluster in
  (let! sector_buffer := disk (read_sector fat_sector (replicate (Z.to_nat bps) 0)) in
   if zlen sector_buffer <? offset_in_sector + 4 then spanic
   else sret (sector_buffer, Z.to_nat offset_in_sector, fat_sector))%rust.

Definition read_fat_entry (cluster : Z) : fsM Z :=
  (let! p := read_fat_sector cluster in
   let '(sector_buffer, off, _) := p in
   sret (Z.land (u32_at sector_buffer off) 0x0FFFFFFF))%rust.

Definition write_fat_entry (cluster value : Z) : fsM unit :=
  (let! p := read_fat_sector cluster in
   let '(sector_buffer, off, fat_sector) := p in
   let existing := u32_at sector_buffer off in
   let new_entry := Z.lor (Z.land existing 0xF0000000) (Z.land value 0x0FFFFFFF) in
   disk (write_sector fat_sector (splice sector_buffer off (le_bytes 4 new_entry))))%rust.

Definition get_next_cluster (cluster : Z) : fsM (option Z) :=
  if cluster =? 0 then sret None else
  (let! fat_entry := read_fat_entry cluster in
   if fat_entry =? END_OF_CHAIN then sret None
   else if fat_entry =? BAD_CLUSTER then serr DiskOpFailed
   else if (FAT_ENTRY_RESERVED_BEGIN <=? fat_entry) && (fat_entry <=? FAT_ENTRY_RESERVED_END)
   then sret None
   else sret (Some fat_entry))%rust.

(** The [for] loop of [find_free_cluster], [n] clusters to go. *)
Fixpoint find_free_from (n : nat) (cluster : Z) : fsM Z :=
  match n with
  | O => serr NoSpace
  | S n =>
      (let! fat_entry := read_fat_entry cluster in
       if fat_entry =? 0 then sret cluster else find_free_from n (cluster + 1))%rust
  end.

Definition find_free_cluster : fsM Z :=
  find_free_from (Z.to_nat (max_cluster drv - ROOT_CLUSTER)) ROOT_CLUSTER.

Fixpoint allocate_rest (n : nat) (prev_cluster : Z) : fsM Z :=
  match n with
  | O => sret prev_cluster
  | S n =>
      (let! new_cluster := find_free_cluster in
       write_fat_entry prev_cluster new_cluster ;;;
       allocate_rest n new_cluster)%rust
  end.

Definition allocate_clusters (count : nat) : fsM Z :=
  (sassert (negb (count =? 0)%nat) ;;;
   let! first_cluster := find_free_cluster in
   let! prev_cluster := allocate_rest (count - 1) first_cluster in
   write_fat_entry prev_cluster END_OF_CHAIN ;;;
   sret first_cluster)%rust.

(** ** Cluster chains *)

Fixpoint chain_length (fuel : nat) (curr_cluster : Z) (length : nat) : fsM nat :=
  match fuel with
  | O => sfuel
  | S fuel =>
      if (ROOT_CLUSTER <=? curr_cluster) && (curr_cluster <? max_cluster drv) then
        (let! next := get_next_cluster curr_cluster in
         match next with
         | Some next => chain_length fuel next (S length)
         | None => sret (S length)
         end)%rust
      else sret length
  end.

Definition get_cluster_chain_length (start_cluster : Z) : fsM nat :=
  chain_length chain_fuel start_cluster 0.

(** Reading one cluster into a fresh cluster-sized buffer. *)
Definition read_cluster (cluster : Z) : fsM (list Z) :=
  disk (mgr_read_sectors (cluster_to_sector cluster) (sectors_per_cluster drv)
    (replicate (Z.to_nat (cluster_size drv)) 0)).

Fixpoint read_chain (fuel : nat) (curr_cluster : Z) (bytes_read : nat) (out_buffer : list Z)
    : fsM (nat * list Z) :=
  match fuel with
  | O => sfuel
  | S fuel =>
      if (bytes_read <? length out_buffer)%nat && (curr_cluster <? max_cluster drv) then
        let bytes_to_read := Nat.min (Z.to_nat (cluster_size drv)) (length out_buffer - bytes_read) in
        (let! cluster_buffer := read_cluster curr_cluster in
         let out_buffer := splice out_buffer bytes_read (take bytes_to_read cluster_buffer) in
         let bytes_read := (bytes_read + bytes_to_read)%nat in
         let! next := get_next_cluster curr_cluster in
         match next with
         | Some next => read_chain fuel next bytes_read out_buffer
         | None => sret (bytes_read, out_buffer)
         end)%rust
      else sret (bytes_read, out_buffer)
  end.

Definition read_cluster_chain (start_cluster : Z) (out_buffer : list Z) : fsM (nat * list Z) :=
  read_chain (S (length out_buffer)) start_cluster 0 out_buffer.

Fixpoint clear_sectors (n : nat) (sector : Z) : fsM unit :=
  match n with
  | O => sret tt
  | S n => (disk (write_sector sector ZERO_BUFFER) ;;; clear_sectors n (sector + 1))%rust
  end.

(** [clear_clusters]: [count] rounds along the chain. *)
Fixpoint clear_clusters (curr_cluster : Z) (count : nat) : fsM unit :=
  match count with
  | O => sret tt
  | S count =>
      (clear_sectors (Z.to_nat (sectors_per_cluster drv)) (cluster_to_sector curr_cluster) ;;;
       let! next := get_next_cluster curr_cluster in
       match next with
       | Some next => clear_clusters next count
       | None => sret tt
       end)%rust
  end.

Fixpoint free_chain (fuel : nat) (curr_cluster : Z) : fsM unit :=
  match fuel with
  | O => sfuel
  | S fuel =>
      if (ROOT_CLUSTER <=? curr_cluster) && (curr_cluster <? max_cluster drv) then
        (let! next := get_next_cluster curr_cluster in
         (match next with
          | Some c => sassert ((ROOT_CLUSTER <=? c) && (c <? max_cluster drv))
          | None => sret tt
          end) ;;;
         write_fat_entry curr_cluster EMPTY_FAT_ENTRY ;;;
         match next with
         | Some c => free_chain fuel c
         | None => sret tt
         end)%rust
      else sret tt
  end.

Definition free_cluster_chain (start_cluster : Z) : fsM unit :=
  free_chain chain_fuel start_cluster.

(** ** Directories *)

(** The decoding loop of [read_directory_entries], [n] records to go; it stops at the
    first empty one. *)
Fixpoint parse_entries (n : nat) (buffer : list Z) (i : nat) : option (list DirectoryEntry) :=
  match n with
  | O => Some []
  | S n =>
      entry ← from_bytes (slice buffer (i * DIRECTORY_ENTRY_SIZE) DIRECTORY_ENTRY_SIZE);
      if is_empty entry then Some []
      else rest ← parse_entries n buffer (S i); Some (entry :: rest)
  end.

Definition read_dir_buffer (start_cluster : Z) : fsM (nat * list Z) :=
  (let! cluster_count := get_cluster_chain_length start_cluster in
   read_cluster_chain start_cluster
     (replicate (cluster_count * Z.to_nat (cluster_size drv)) 0))%rust.

Definition read_directory_entries (start_cluster : Z) : fsM (list DirectoryEntry) :=
  (let! r := read_dir_buffer start_cluster in
   let '(bytes_read, buffer) := r in
   match parse_entries (bytes_read / DIRECTORY_ENTRY_SIZE) buffer 0 with
   | Some es => sret es
   | None => spanic
   end)%rust.

(** [iter().enumerate().find(p)] *)
Fixpoint find_index (p : DirectoryEntry -> bool) (es : list DirectoryEntry) (i : nat)
    : option (nat * DirectoryEntry) :=
  match es with
  | [] => None
  | e :: es => if p e then Some (i, e) else find_index p es (S i)
  end.

Definition or_err {A} (x : option A) (e : FileSystemError) : fsM A :=
  match x with Some a => sret a | None => serr e end.

Definition find_entry_by_cluster (parent_cluster target_cluster : Z) : fsM DirectoryEntry :=
  (let! entries := read_directory_entries parent_cluster in
   or_err (snd <$> find_index (fun e => get_first_cluster e =? target_cluster) entries 0)
     NotFound)%rust.

(** The loop over the path's parts: the entry found last and its parent's cluster. *)
Fixpoint find_parts (parts : list str) (found : option DirectoryEntry)
    (curr_cluster parent_cluster : Z) : fsM (option DirectoryEntry * Z) :=
  match parts with
  | [] => sret (found, parent_cluster)
  | path_part :: rest =>
      (let! fat32_path_part := slift (to_fat32_name path_part) in
       let! entries := read_directory_entries curr_cluster in
       let! found := or_err (find_index
         (fun e => negb (is_deleted e) && full_name_matches e fat32_path_part) entries 0)
         NotFound in
       let entry := found.2 in
       if (0 <? length rest)%nat && negb (entry_is_directory entry) then serr NotDirectory else
       find_parts rest (Some entry) (get_first_cluster entry) curr_cluster)%rust
  end.

Definition find_direntry (path : str) : fsM (DirectoryEntry * Z) :=
  let path_parts := non_empty (split SLASH path) in
  let root := root_cluster (boot_sector drv) in
  if bool_decide (path_parts = []) then sret (root_direntry drv, root) else
  (let! r := find_parts path_parts None root root in
   match r with
   | (Some entry, parent_cluster) => sret (entry, parent_cluster)
   | (None, _) => spanic
   end)%rust.

(** The write-back loop of [write_direntry]. *)
Fixpoint write_chain (fuel : nat) (curr_cluster : Z) (bytes_written : nat) (buffer : list Z)
    : fsM unit :=
  match fuel with
  | O => sfuel
  | S fuel =>
      if (bytes_written <? length buffer)%nat && (curr_cluster <? max_cluster drv) then
        let chunk_size := Nat.min (Z.to_nat (cluster_size drv)) (length buffer - bytes_written) in
        (disk (mgr_write_sectors (cluster_to_sector curr_cluster) (sectors_per_cluster drv)
           (slice buffer bytes_written chunk_size)) ;;;
         let! next := get_next_cluster curr_cluster in
         match next with
         | Some next => write_chain fuel next (bytes_written + chunk_size) buffer
         | None => sret tt
         end)%rust
      else sret tt
  end.

Definition write_direntry (dir_cluster : Z) (index_in_directory : nat) (entry : DirectoryEntry)
    : fsM unit :=
  (let! r := read_dir_buffer dir_cluster in
   let '(bytes_read, dir_buffer) := r in
   let entry_offset := (index_in_directory * DIRECTORY_ENTRY_SIZE)%nat in
   if (bytes_read <? entry_offset + DIRECTORY_ENTRY_SIZE)%nat then serr NoSpace else
   let dir_buffer := splice dir_buffer entry_offset (as_bytes entry) in
   write_chain (S (length dir_buffer)) dir_cluster 0 dir_buffer)%rust.

Fixpoint last_cluster (fuel : nat) (cluster : Z) : fsM Z :=
  match fuel with
  | O => sfuel
  | S fuel =>
      if (ROOT_CLUSTER <=? cluster) && (cluster <? max_cluster drv) then
        (let! next := get_next_cluster cluster in
         match next with
         | Some next => last_cluster fuel next
         | None => sret cluster
         end)%rust
      else sret cluster
  end.

Definition expand_directory (dir_cluster : Z) (curr_entry_count : nat) : fsM nat :=
  (let! last := last_cluster chain_fuel dir_cluster in
   let! new_cluster := allocate_clusters 1 in
   clear_clusters new_cluster 1 ;;;
   write_fat_entry last new_cluster ;;;
   write_fat_entry new_cluster END_OF_CHAIN ;;;
   sret curr_entry_count)%rust.

Definition find_free_slot_in_directory (dir_cluster : Z) (entries : list DirectoryEntry)
    : fsM nat :=
  match find_index (fun e => negb (is_valid e)) entries 0 with
  | Some (i, _) => sret i
  | None => expand_directory dir_cluster (length entries)
  end.

(** ** Files *)

(** The [for] loop that skips whole clusters; [None]: the chain ended. *)
Fixpoint skip_clusters (n : nat) (curr_cluster : Z) : fsM (option Z) :=
  match n with
  | O => sret (Some curr_cluster)
  | S n =>
      (let! next := get_next_cluster curr_cluster in
       match next with
       | Some next => skip_clusters n next
       | None => sret None
       end)%rust
  end.

Fixpoint read_loop (fuel : nat) (curr_cluster : Z) (total_read current_offset max_to_read : nat)
    (out_buffer : list Z) : fsM (nat * list Z) :=
  match fuel with
  | O => sfuel
  | S fuel =>
      if (total_read <? max_to_read)%nat then
        (let! temp_buffer := read_cluster curr_cluster in
         let available_in_cluster := (Z.to_nat (cluster_size drv) - current_offset)%nat in
         let bytes_from_cluster := Nat.min available_in_cluster (max_to_read - total_read) in
         let out_buffer := splice out_buffer total_read
           (slice temp_buffer current_offset bytes_from_cluster) in
         let total_read := (total_read + bytes_from_cluster)%nat in
         if (total_read <? max_to_read)%nat then
           let! next := get_next_cluster curr_cluster in
           match next with
           | Some next => read_loop fuel next total_read 0 max_to_read out_buffer
           | None => sret (total_read, out_buffer)
           end
         else sret (total_read, out_buffer))%rust
      else sret (total_read, out_buffer)
  end.

Definition read_file (node_id offset : Z) (out_buffer : list Z) : fsM (Z * list Z) :=
  let '(cluster, parent_cluster, attributes) := decode_node_id node_id in
  if is_directory attributes then serr IsDirectory else
  if cluster =? 0 then serr InvalidPath else
  (let! entry := find_entry_by_cluster parent_cluster cluster in
   if file_size entry <=? offset then sret (0, out_buffer) else
   if cluster_size drv =? 0 then spanic else
   let skip := Z.to_nat (offset / cluster_size drv) in
   let offset_in_cluster := Z.to_nat (offset mod cluster_size drv) in
   let! start := skip_clusters skip cluster in
   match start with
   | None => sret (0, out_buffer)
   | Some curr_cluster =>
       let max_to_read := Nat.min (length out_buffer) (Z.to_nat (file_size entry - offset)) in
       let! r := read_loop (S max_to_read) curr_cluster 0 offset_in_cluster max_to_read out_buffer in
       sret (Z.of_nat r.1, r.2)
   end)%rust.

(** A fresh cluster, zeroed and linked behind [curr_cluster]. *)
Definition extend_chain (curr_cluster : Z) : fsM Z :=
  (let! new_cluster := allocate_clusters 1 in
   clear_clusters new_cluster 1 ;;;
   write_fat_entry curr_cluster new_cluster ;;;
   sret new_cluster)%rust.

(** [get_next_cluster], or a fresh cluster at the end of the chain. *)
Definition next_or_extend (curr_cluster : Z) : fsM Z :=
  (let! next := get_next_cluster curr_cluster in
   match next with
   | Some next => sret next
   | None => extend_chain curr_cluster
   end)%rust.

Fixpoint walk_extending (n : nat) (curr_cluster : Z) : fsM Z :=
  match n with
  | O => sret curr_cluster
  | S n => (let! next := next_or_extend curr_cluster in walk_extending n next)%rust
  end.

(** The write of one round: the whole cluster, or read, patch and write back. *)
Definition write_in_cluster (cluster : Z) (offset_in_cluster : nat) (bytes : list Z) : fsM unit :=
  let sector := cluster_to_sector cluster in
  if negb (offset_in_cluster =? 0)%nat || (length bytes <? Z.to_nat (cluster_size drv))%nat then
    (let! cluster_buf := read_cluster cluster in
     disk (mgr_write_sectors sector (sectors_per_cluster drv)
       (splice cluster_buf offset_in_cluster bytes)))%rust
  else disk (mgr_write_sectors sector (sectors_per_cluster drv) bytes).

(** The transfer loop; [offset_in_cluster] is [offset % cluster_size] in the round of the
    target cluster, the first, and 0 after it. *)
Fixpoint write_loop (fuel : nat) (curr_cluster : Z) (data_written offset_in_cluster : nat)
    (data : list Z) : fsM nat :=
  match fuel with
  | O => sfuel
  | S fuel =>
      if (data_written <? length data)%nat then
        let bytes_remaining_in_cluster := (Z.to_nat (cluster_size drv) - offset_in_cluster)%nat in
        let bytes_to_write := Nat.min bytes_remaining_in_cluster (length data - data_written) in
        (write_in_cluster curr_cluster offset_in_cluster (slice data data_written bytes_to_write) ;;;
         let data_written := (data_written + bytes_to_write)%nat in
         if (data_written <? length data)%nat then
           let! next := next_or_extend curr_cluster in
           write_loop fuel next data_written 0 data
         else sret data_written)%rust
      else sret data_written
  end.

Definition write_file (node_id offset : Z) (data : list Z) : fsM Z :=
  if bool_decide (data = []) then sret 0 else
  let '(cluster, parent_cluster, attributes) := decode_node_id node_id in
  if is_directory attributes then serr IsDirectory else
  if cluster =? 0 then serr InvalidPath else
  (let! entry := find_entry_by_cluster parent_cluster cluster in
   let old_size := file_size entry in
   let new_end := offset + zlen data in
   if U64_MAX <? new_end then spanic else
   if cluster_size drv =? 0 then spanic else
   let target_cluster_index := Z.to_nat (offset / cluster_size drv) in
   let! curr_cluster := walk_extending target_cluster_index cluster in
   let! data_written := write_loop (S (length data)) curr_cluster 0
     (Z.to_nat (offset mod cluster_size drv)) data in
   let entry := set_file_size (wrap 32 new_end) entry in
   (if old_size <? new_end then
      let! entries := read_directory_entries parent_cluster in
      let! found := or_err (find_index
        (fun e => negb (is_deleted e) && (get_first_cluster e =? cluster)) entries 0) NotFound in
      write_direntry parent_cluster found.1 entry
    else sret tt) ;;;
   sret (Z.of_nat data_written))%rust.

(** ** The driver's interface *)

(** The file node of an entry; the timestamps' arithmetic could panic. *)
Definition entry_node (node_id : Z) (entry : DirectoryEntry) : fsM FileNode :=
  match get_creation_timestamp entry, get_modified_timestamp entry with
  | Some created, Some modified =>
      sret (mkNode node_id (get_filename entry) (get_file_type entry) (file_size entry)
        created modified (file_attributes_from_fat_attributes (attrs entry)))
  | _, _ => spanic
  end.

Definition get_node (node_id : Z) : fsM FileNode :=
  let '(cluster, parent_cluster, _) := decode_node_id node_id in
  if negb (cluster =? ROOT_CLUSTER) then
    (let! entry := find_entry_by_cluster parent_cluster cluster in
     entry_node node_id entry)%rust
  else sret (root_filenode drv).

Fixpoint entry_nodes (dir_cluster : Z) (entries : list DirectoryEntry) : fsM (list FileNode) :=
  match entries with
  | [] => sret []
  | entry :: entries =>
      (let! node := entry_node (encode_node_id entry dir_cluster) entry in
       let! nodes := entry_nodes dir_cluster entries in
       sret (node :: nodes))%rust
  end.

Definition list_directory (node_id : Z) : fsM (list FileNode) :=
  let '(dir_cluster, _, attributes) := decode_node_id node_id in
  if negb (is_directory attributes) then serr NotDirectory else
  (let! entries := read_directory_entries dir_cluster in
   entry_nodes dir_cluster
     (List.filter (fun e => is_valid e && negb (is_volume_id e)) entries))%rust.

Definition find_node (path : str) : fsM Z :=
  (let! r := find_direntry path in
   let '(entry, parent_cluster) := r in
   sassert (negb (entry_is_directory entry && negb (file_size entry =? 0))) ;;;
   sret (encode_node_id entry parent_cluster))%rust.

(** [entry.set_filename(name)?] *)
Definition named (entry : DirectoryEntry) (n : str) : fsM DirectoryEntry :=
  match set_filename n entry with
  | (Ok _, entry) => sret entry
  | (Err e, _) => serr e
  | (Panic, _) => spanic
  | (OutOfFuel, _) => sfuel
  end.

(** The guards [create_file] and [create_directory] share. *)
Definition check_new_name (parent_cluster : Z) (n : str) : fsM (list DirectoryEntry) :=
  (let! entries := read_directory_entries parent_cluster in
   if existsb (fun e => negb (is_deleted e) && bool_decide (get_filename e = utf8 n)) entries
   then serr FileExists else sret entries)%rust.

Definition create_file (parent_id : Z) (n : str) : fsM Z :=
  let '(parent_cluster, _, attrs) := decode_node_id parent_id in
  if negb (is_directory attrs) then serr NotDirectory else
  if negb (is_valid_filename n) then serr InvalidFilename else
  (let! entries := check_new_name parent_cluster n in
   let! free_slot_index := find_free_slot_in_directory parent_cluster entries in
   let! new_file_cluster := allocate_clusters 1 in
   clear_clusters new_file_cluster 1 ;;;
   let! entry := named create_empty n in
   let entry := set_first_cluster new_file_cluster (set_attributes ATTR_ARCHIVE entry) in
   write_direntry parent_cluster free_slot_index entry ;;;
   sret (encode_node_id entry parent_cluster))%rust.

Definition create_directory (parent_id : Z) (n : str) : fsM Z :=
  let '(parent_cluster, _, attrs) := decode_node_id parent_id in
  if negb (is_directory attrs) then serr NotDirectory else
  if negb (is_valid_filename n) then serr InvalidFilename else
  (let! entries := check_new_name parent_cluster n in
   let! free_slot_index := find_free_slot_in_directory parent_cluster entries in
   let! new_dir_cluster := allocate_clusters 1 in
   clear_clusters new_dir_cluster 1 ;;;
   write_direntry new_dir_cluster 0 (create_dot_entry new_dir_cluster) ;;;
   write_direntry new_dir_cluster 1 (create_dot_dot_entry parent_cluster) ;;;
   let! entry := named create_empty n in
   let entry := set_file_size 0
     (set_first_cluster new_dir_cluster (set_attributes ATTR_DIRECTORY entry)) in
   write_direntry parent_cluster free_slot_index entry ;;;
   sret (encode_node_id entry parent_cluster))%rust.

Definition delete (node_id : Z) : fsM unit :=
  let '(cluster, parent_cluster, attrs) := decode_node_id node_id in
  (let! entries := read_directory_entries parent_cluster in
   let! found := or_err (find_index
     (fun e => negb (is_deleted e) && (get_first_cluster e =? cluster)) entries 0) NotFound in
   let '(entry_index, entry) := found in
   (if is_directory attrs then
      let! dir_entries := read_directory_entries cluster in
      if existsb (fun e => is_valid e && negb (at_ (name e) 0 =? DOT)) dir_entries
      then serr DirectoryNotEmpty
      else free_cluster_chain cluster
    else free_cluster_chain cluster) ;;;
   write_direntry parent_cluster entry_index (mark_deleted entry))%rust.

Definition root_node (d : D) : Z := root_dir_node_id drv.

#[global] Instance fat32_filesystem : FilesystemDriver D := {|
  FsTypes.read_file := read_file;
  FsTypes.write_file := write_file;
  FsTypes.find_node := find_node;
  FsTypes.get_node := get_node;
  FsTypes.list_directory := list_directory;
  FsTypes.create_file := create_file;
  FsTypes.create_directory := create_directory;
  FsTypes.delete := delete;
  FsTypes.root_node := root_node;
|}.

End driver.
