(* ===== verification/FatTable.v ===== *)
(** * FatTable: what the FAT32 driver's disk means

    The disk image [b] read as a file system: [fat b c] is the 28-bit table entry of a
    cluster, [cluster_data b c] its bytes, [chain b c l] says the table links [c] through
    the clusters [l] to an end mark. [fits drv b] is the geometry of a volume [new]
    accepts on a disk that can hold it. The lemmas give the effect of every primitive of
    the driver on these views, on any device that satisfies [DiskLaws]. *)

From Stdlib Require Import ZArith Lia.
From stdpp Require Import base tactics list option numbers.
From S2P Require Import Prelude Disk FsTypes DirEntry BootSector Fat32.

Record fits (drv : Fat32Driver) (b : list Z) : Prop := {
  fits_bps : bps drv = SECTOR_SIZE;
  fits_spc : 0 < sectors_per_cluster drv;
  fits_size : cluster_size drv = sectors_per_cluster drv * SECTOR_SIZE;
  fits_start : 0 <= fat_start_sector drv;
  fits_table : fat_start_sector drv * SECTOR_SIZE + 4 * max_cluster drv <=
    data_start_sector drv * SECTOR_SIZE;
  fits_max : ROOT_CLUSTER <= max_cluster drv <= MAX_CLUSTER + 1;
  fits_data : (data_start_sector drv +
    (max_cluster drv - ROOT_CLUSTER) * sectors_per_cluster drv) * SECTOR_SIZE <= zlen b;
}.

Section table.
Variable drv : Fat32Driver.
Implicit Types b : list Z.
Implicit Types c v : Z.

(** The byte offset of a cluster's table entry, and of its data. *)
Definition fat_pos c : nat := Z.to_nat (fat_start_sector drv * SECTOR_SIZE + 4 * c).
Definition data_pos c : nat := Z.to_nat (cluster_to_sector drv c * SECTOR_SIZE).
Definition cs : nat := Z.to_nat (cluster_size drv).

Definition fat b c : Z := Z.land (u32_at b (fat_pos c)) 0x0FFFFFFF.

Definition set_fat b c v : list Z :=
  splice b (fat_pos c)
    (le_bytes 4 (Z.lor (Z.land (u32_at b (fat_pos c)) 0xF0000000) (Z.land v 0x0FFFFFFF))).

Definition cluster_data b c : list Z := slice b (data_pos c) cs.

Definition set_data b c (data : list Z) : list Z := splice b (data_pos c) data.

(** A cluster of the data area. *)
Definition in_table c : Prop := ROOT_CLUSTER <= c < max_cluster drv.

(** ** Pure lemmas on the two views *)

Lemma fits_length b b' : length b' = length b -> fits drv b -> fits drv b'.
Proof. intros Hl []. constructor; try done. by rewrite Hl. Qed.

Lemma fat_entry_value raw v :
  let new := Z.lor (Z.land raw 0xF0000000) (Z.land v 0x0FFFFFFF) in
  0 <= new < 2 ^ 32 /\ Z.land new 0x0FFFFFFF = v mod 2 ^ 28 /\
  Z.land new 0xF0000000 = Z.land raw 0xF0000000.
Proof.
  cbv zeta. change 0xF0000000 with ((2 ^ 4 - 1) * 2 ^ 28). change 0x0FFFFFFF with (2 ^ 28 - 1).
  rewrite !land_high, !land_mask by lia.
  pose proof (Z.mod_pos_bound (raw / 2 ^ 28) (2 ^ 4) ltac:(lia)).
  pose proof (Z.mod_pos_bound v (2 ^ 28) ltac:(lia)).
  set (hi := (raw / 2 ^ 28) mod 2 ^ 4) in *. set (lo := v mod 2 ^ 28) in *.
  rewrite lor_low by lia. split_and!; [lia|lia| |].
  - rewrite Z.add_comm, Z_mod_plus_full. by apply Z.mod_small.
  - rewrite Z.add_comm, Z.div_add, Z.div_small by lia. rewrite Z.add_0_l.
    by rewrite Z.mod_small.
Qed.

Lemma fat_bound b c : 0 <= fat b c < 2 ^ 28.
Proof.
  unfold fat. change 0x0FFFFFFF with (2 ^ 28 - 1). rewrite land_mask by lia.
  apply Z.mod_pos_bound. lia.
Qed.

Lemma fat_pos_fits b c :
  fits drv b -> 0 <= c < max_cluster drv ->
  (fat_pos c + 4 <= length b)%nat /\
  (fat_pos c + 4 <= Z.to_nat (data_start_sector drv * SECTOR_SIZE))%nat.
Proof.
  intros [] ?. unfold fat_pos, SECTOR_SIZE in *.
  assert (0 <= (max_cluster drv - ROOT_CLUSTER) * sectors_per_cluster drv) by nia. lia.
Qed.

Lemma data_pos_fits b c :
  fits drv b -> in_table c ->
  (data_pos c + cs <= length b)%nat /\
  (Z.to_nat (data_start_sector drv * SECTOR_SIZE) <= data_pos c)%nat /\
  data_pos c = Z.to_nat ((data_start_sector drv + (c - 2) * sectors_per_cluster drv) * SECTOR_SIZE) /\
  0 <= data_start_sector drv.
Proof.
  intros [] [? ?]. unfold data_pos, cs, cluster_to_sector, ROOT_CLUSTER, SECTOR_SIZE in *.
  destruct (Z.leb_spec 2 c); [|lia].
  assert (0 <= (c - 2) * sectors_per_cluster drv) by nia.
  assert ((c - 1) * sectors_per_cluster drv <=
    (max_cluster drv - 2) * sectors_per_cluster drv) by nia.
  split_and!; lia.
Qed.

Lemma data_pos_disjoint b c c' :
  fits drv b -> in_table c -> in_table c' -> c <> c' ->
  (data_pos c + cs <= data_pos c' \/ data_pos c' + cs <= data_pos c)%nat.
Proof.
  intros F Hc Hc' Hne. destruct (data_pos_fits b c F Hc) as (_ & _ & -> & ?).
  destruct (data_pos_fits b c' F Hc') as (_ & _ & -> & _).
  destruct F. destruct Hc, Hc'. unfold cs, SECTOR_SIZE, ROOT_CLUSTER in *.
  assert (c + 1 <= c' \/ c' + 1 <= c) as [?|?] by lia.
  - assert ((c - 1) * sectors_per_cluster drv <= (c' - 2) * sectors_per_cluster drv) by nia.
    assert (0 <= (c - 2) * sectors_per_cluster drv) by nia. lia.
  - assert ((c' - 1) * sectors_per_cluster drv <= (c - 2) * sectors_per_cluster drv) by nia.
    assert (0 <= (c' - 2) * sectors_per_cluster drv) by nia. lia.
Qed.

Lemma length_set_fat b c v :
  fits drv b -> 0 <= c < max_cluster drv -> length (set_fat b c v) = length b.
Proof.
  intros F Hc. destruct (fat_pos_fits b c F Hc). unfold set_fat.
  apply length_splice. rewrite length_le_bytes. lia.
Qed.

Lemma fat_set_same b c v :
  fits drv b -> 0 <= c < max_cluster drv -> fat (set_fat b c v) c = v mod 2 ^ 28.
Proof.
  intros F Hc. destruct (fat_pos_fits b c F Hc). unfold fat, set_fat, u32_at.
  destruct (fat_entry_value (le_word (slice b (fat_pos c) 4)) v) as (Hn & Hv & _).
  set (new := Z.lor _ _) in *.
  rewrite <- (length_le_bytes 4 new) at 2. rewrite slice_splice_same
    by (rewrite length_le_bytes; lia).
  by rewrite le_word_bytes.
Qed.

Lemma fat_set_other b c v c' :
  fits drv b -> 0 <= c < max_cluster drv -> 0 <= c' -> c <> c' ->
  fat (set_fat b c v) c' = fat b c'.
Proof.
  intros F Hc Hc' Hne. destruct (fat_pos_fits b c F Hc). unfold fat, set_fat, u32_at.
  rewrite slice_splice_disjoint; [done|rewrite length_le_bytes; lia|].
  rewrite length_le_bytes. destruct F. unfold fat_pos, SECTOR_SIZE in *. lia.
Qed.

Lemma cluster_data_set_fat b c v c' :
  fits drv b -> 0 <= c < max_cluster drv -> in_table c' ->
  cluster_data (set_fat b c v) c' = cluster_data b c'.
Proof.
  intros F Hc Hc'. destruct (fat_pos_fits b c F Hc). destruct (data_pos_fits b c' F Hc').
  unfold cluster_data, set_fat. apply slice_splice_disjoint; rewrite length_le_bytes; lia.
Qed.

Lemma length_set_data b c data :
  fits drv b -> in_table c -> length data = cs -> length (set_data b c data) = length b.
Proof.
  intros F Hc Hl. destruct (data_pos_fits b c F Hc). unfold set_data.
  apply length_splice. lia.
Qed.

Lemma length_cluster_data b c : fits drv b -> in_table c -> length (cluster_data b c) = cs.
Proof. intros F Hc. destruct (data_pos_fits b c F Hc). by apply length_slice. Qed.

Lemma cluster_data_set_same b c data :
  fits drv b -> in_table c -> length data = cs -> cluster_data (set_data b c data) c = data.
Proof.
  intros F Hc Hl. destruct (data_pos_fits b c F Hc). unfold cluster_data, set_data.
  rewrite <- Hl. apply slice_splice_same. lia.
Qed.

Lemma cluster_data_set_other b c data c' :
  fits drv b -> in_table c -> in_table c' -> c <> c' -> length data = cs ->
  cluster_data (set_data b c data) c' = cluster_data b c'.
Proof.
  intros F Hc Hc' Hne Hl. destruct (data_pos_fits b c F Hc).
  pose proof (data_pos_disjoint b c c' F Hc Hc' Hne).
  unfold cluster_data, set_data. apply slice_splice_disjoint; lia.
Qed.

Lemma fat_set_data b c data c' :
  fits drv b -> in_table c -> 0 <= c' < max_cluster drv -> length data = cs ->
  fat (set_data b c data) c' = fat b c'.
Proof.
  intros F Hc Hc' Hl. destruct (data_pos_fits b c F Hc). destruct (fat_pos_fits b c' F Hc').
  unfold fat, set_data, u32_at. rewrite slice_splice_disjoint; [done|lia|]. lia.
Qed.

Lemma fits_set_fat b c v : fits drv b -> 0 <= c < max_cluster drv -> fits drv (set_fat b c v).
Proof. intros F Hc. eapply fits_length; [|done]. by apply length_set_fat. Qed.

Lemma fits_set_data b c data :
  fits drv b -> in_table c -> length data = cs -> fits drv (set_data b c data).
Proof. intros F Hc Hl. eapply fits_length; [|done]. by apply length_set_data. Qed.

Lemma in_table_bound b c : fits drv b -> in_table c -> 0 <= c < max_cluster drv.
Proof. unfold in_table, ROOT_CLUSTER. lia. Qed.

Lemma cs_pos b : fits drv b -> (0 < cs)%nat /\ cluster_size drv = Z.of_nat cs.
Proof. intros []. unfold cs, SECTOR_SIZE in *. lia. Qed.

(** ** Chains *)

(** The table's entry of a cluster marks the end of its chain. *)
Definition is_end v : Prop := FAT_ENTRY_RESERVED_BEGIN <= v.

(** What [get_next_cluster] makes of a table entry. *)
Definition next_of v : result FileSystemError (option Z) :=
  if v =? END_OF_CHAIN then Ok None
  else if v =? BAD_CLUSTER then Err DiskOpFailed
  else if (FAT_ENTRY_RESERVED_BEGIN <=? v) && (v <=? FAT_ENTRY_RESERVED_END) then Ok None
  else Ok (Some v).

Inductive chain b : Z -> list Z -> Prop :=
  | chain_last c : in_table c -> is_end (fat b c) -> chain b c [c]
  | chain_link c l : in_table c -> in_table (fat b c) -> chain b (fat b c) l ->
      chain b c (c :: l).

Definition chain_bytes b (l : list Z) : list Z := concat (cluster_data b <$> l).

Lemma next_of_end v : v < 2 ^ 28 -> is_end v -> next_of v = Ok None.
Proof.
  unfold is_end, next_of, FAT_ENTRY_RESERVED_BEGIN, FAT_ENTRY_RESERVED_END, END_OF_CHAIN,
    BAD_CLUSTER. intros Hv He. destruct (Z.eqb_spec v 0x0FFFFFFF); [done|].
  destruct (Z.eqb_spec v 0x0FFFFFF7); [lia|].
  by rewrite (proj2 (Z.leb_le _ _) He), (proj2 (Z.leb_le v 0x0FFFFFFE)) by lia.
Qed.

Lemma next_of_link b v : fits drv b -> in_table v -> next_of v = Ok (Some v).
Proof.
  intros F [Hv Hm]. destruct F.
  unfold next_of, FAT_ENTRY_RESERVED_BEGIN, FAT_ENTRY_RESERVED_END, END_OF_CHAIN,
    BAD_CLUSTER, ROOT_CLUSTER, MAX_CLUSTER in *.
  destruct (Z.eqb_spec v 0x0FFFFFFF); [lia|]. destruct (Z.eqb_spec v 0x0FFFFFF7); [lia|].
  destruct (Z.leb_spec 0x0FFFFFF8 v); [lia|done].
Qed.

Lemma end_not_in_table b v : fits drv b -> is_end v -> ~ in_table v.
Proof.
  intros [] He [? ?]. unfold is_end, FAT_ENTRY_RESERVED_BEGIN, ROOT_CLUSTER, MAX_CLUSTER in *. lia.
Qed.

Lemma chain_det b c l l' : fits drv b -> chain b c l -> chain b c l' -> l = l'.
Proof.
  intros F H. revert l'. induction H as [c ? He|c l ? Hn _ IH]; intros l' H'.
  - inversion H' as [|? ? ? Hn]; subst; [done|]. by destruct (end_not_in_table b (fat b c) F).
  - inversion H' as [? ? He|]; subst; [by destruct (end_not_in_table b (fat b c) F)|].
    f_equal. by apply IH.
Qed.

Lemma chain_in_table b c l : chain b c l -> Forall in_table l /\ head l = Some c.
Proof.
  induction 1 as [c ? He|c l ? Hn _ [IH _]].
  - split; [|done]. by constructor.
  - split; [|done]. by constructor.
Qed.

Lemma chain_suffix b c l1 x l2 : chain b c (l1 ++ x :: l2) -> chain b x (x :: l2).
Proof.
  revert c. induction l1 as [|y l1 IH]; intros c Hc.
  - inversion Hc; subst; by constructor.
  - inversion Hc as [? ? ? Hl|? ? ? ? Hl]; subst; [by destruct l1|]. by eapply IH.
Qed.

Lemma chain_nodup b c l : fits drv b -> chain b c l -> NoDup l.
Proof.
  intros F. induction 1 as [c ? He|c l Hc Hn Hl IH].
  - apply NoDup_singleton.
  - apply NoDup_cons_2; [|done]. intros Hin.
    apply list_elem_of_split in Hin as (l1 & l2 & ->).
    pose proof (chain_suffix _ _ _ _ _ Hl) as Hs.
    pose proof (chain_det b c _ _ F Hs (chain_link b c _ Hc Hn Hl)) as Heq.
    apply (f_equal length) in Heq. simpl in Heq. rewrite length_app in Heq. simpl in Heq. lia.
Qed.

(** A chain has fewer clusters than the table. *)
Lemma chain_short b c l : fits drv b -> chain b c l -> (length l <= chain_fuel drv)%nat.
Proof.
  intros F H. pose proof (chain_nodup b c l F H) as Hn. destruct (chain_in_table b c l H) as [Hi _].
  unfold chain_fuel. rewrite <- (length_seqZ 0 (max_cluster drv)).
  apply submseteq_length, NoDup_submseteq; [done|]. intros x Hx. rewrite elem_of_seqZ.
  rewrite Forall_forall in Hi. apply list_elem_of_In in Hx. specialize (Hi x Hx). unfold in_table, ROOT_CLUSTER in Hi. lia.
Qed.

(** A chain depends on its own table entries only. *)
Lemma chain_ext b b' c l :
  (forall x, x ∈ l -> fat b' x = fat b x) -> chain b c l -> chain b' c l.
Proof.
  intros He H. revert He. induction H as [c ? Hd|c l ? Hn _ IH]; intros He.
  - constructor; [done|]. rewrite He; [done|apply list_elem_of_here].
  - assert (Hc : fat b' c = fat b c) by (apply He, list_elem_of_here).
    constructor; rewrite ?Hc; [done..|]. apply IH. intros x Hx. apply He.
    by apply list_elem_of_further.
Qed.

Lemma chain_bytes_ext b b' l :
  (forall x, x ∈ l -> cluster_data b' x = cluster_data b x) -> chain_bytes b' l = chain_bytes b l.
Proof.
  unfold chain_bytes. intros He. f_equal. apply list_fmap_ext. intros i x Hx.
  apply He. by eapply list_elem_of_lookup_2.
Qed.

Lemma length_chain_bytes b l :
  fits drv b -> Forall in_table l -> length (chain_bytes b l) = (length l * cs)%nat.
Proof.
  intros F. unfold chain_bytes. induction 1 as [|x l Hx _ IH]; [done|].
  rewrite fmap_cons. cbn [concat length]. rewrite length_app, length_cluster_data by done. lia.
Qed.

End table.

(** ** The primitives on any lawful device *)

Section primitives.
Context {D : Type} `{DL : DiskLaws D}.
Variable drv : Fat32Driver.
Implicit Types b : list Z.

Abbreviation does c b r b' := (runs (S:=D) (E:=FileSystemError) holds c b r b').

Lemma runs_disk {A} (c : stM D DiskOpError A) b a b' :
  runs holds c b (Ok a) b' -> does (disk c) b (Ok a) b'.
Proof.
  intros Hc d Hd. destruct (Hc d Hd) as (d' & E & ?). exists d'. split; [|done].
  unfold disk. by rewrite E.
Qed.

(** The image a device holds is made of bytes. *)
Lemma does_bytes {A} (c : stM D FileSystemError A) b r b' :
  (Forall byte b -> does c b r b') -> does c b r b'.
Proof. intros Hc d Hd. apply Hc; [|done]. by eapply holds_bytes. Qed.

Lemma read_fat_sector_does b c :
  fits drv b -> 0 <= c < max_cluster drv ->
  does (read_fat_sector drv c) b
    (Ok (sectors b (fat_start_sector drv + c * 4 / 512) 1, Z.to_nat (c * 4 mod 512),
      fat_start_sector drv + c * 4 / 512)) b.
Proof.
  intros F Hc. destruct (fat_pos_fits drv b c F Hc) as [Hp _].
  pose proof (Z_div_mod_eq_full (c * 4) 512). pose proof (Z.mod_pos_bound (c * 4) 512 ltac:(lia)).
  destruct F. unfold read_fat_sector, fat_position. rewrite fits_bps0.
  unfold SECTOR_SIZE. change (512 =? 0) with false. cbv iota.
  assert ((data_start_sector drv) * 512 <= zlen b).
  { unfold SECTOR_SIZE, ROOT_CLUSTER in *.
    assert (0 <= (max_cluster drv - 2) * sectors_per_cluster drv) by nia. lia. }
  assert (Hs : 0 <= c * 4 / 512) by (apply Z.div_pos; lia).
  assert (Hr : (fat_start_sector drv + c * 4 / 512 + 1) * 512 <= zlen b).
  { unfold SECTOR_SIZE in *. lia. }
  assert (Hl : length (sectors b (fat_start_sector drv + c * 4 / 512) 1) = 512%nat).
  { unfold sectors, SECTOR_SIZE. rewrite length_slice; lia. }
  eapply runs_bind; [apply runs_disk, read_sector_runs|].
  - lia.
  - done.
  - rewrite length_replicate. unfold SECTOR_SIZE. lia.
  - rewrite splice_all by (rewrite Hl; apply length_replicate). rewrite Hl.
    assert (Hm : 4 <= 512 - c * 4 mod 512).
    { assert (c * 4 mod 512 = 4 * (c mod 128))
        by (rewrite (Z.mul_comm c 4); by rewrite <- Z.mul_mod_distr_l by lia).
      pose proof (Z.mod_pos_bound c 128 ltac:(lia)). lia. }
    destruct (Z.ltb_spec (Z.of_nat 512) (c * 4 mod 512 + 4)); [lia|]. apply runs_ret.
Qed.

Lemma fat_sector_slice b c :
  fits drv b -> 0 <= c < max_cluster drv ->
  u32_at (sectors b (fat_start_sector drv + c * 4 / 512) 1) (Z.to_nat (c * 4 mod 512)) =
    u32_at b (fat_pos drv c).
Proof.
  intros [] Hc. unfold u32_at, sectors, fat_pos, SECTOR_SIZE.
  pose proof (Z_div_mod_eq_full (c * 4) 512). pose proof (Z.mod_pos_bound (c * 4) 512 ltac:(lia)).
  assert (c * 4 mod 512 = 4 * (c mod 128))
    by (rewrite (Z.mul_comm c 4); by rewrite <- Z.mul_mod_distr_l by lia).
  pose proof (Z.mod_pos_bound c 128 ltac:(lia)).
  assert (Hs : 0 <= c * 4 / 512) by (apply Z.div_pos; lia).
  rewrite slice_slice by lia. do 2 f_equal. lia.
Qed.

Lemma read_fat_entry_does b c :
  fits drv b -> 0 <= c < max_cluster drv ->
  does (read_fat_entry drv c) b (Ok (fat drv b c)) b.
Proof.
  intros F Hc. unfold read_fat_entry. eapply runs_bind; [by apply read_fat_sector_does|].
  cbv beta iota. rewrite fat_sector_slice by done. apply runs_ret.
Qed.

Lemma write_fat_entry_does b c v :
  fits drv b -> 0 <= c < max_cluster drv ->
  does (write_fat_entry drv c v) b (Ok tt) (set_fat drv b c v).
Proof.
  intros F Hc. apply does_bytes. intros Hb.
  unfold write_fat_entry. eapply runs_bind; [by apply read_fat_sector_does|].
  cbv beta iota. rewrite fat_sector_slice by done.
  destruct (fat_pos_fits drv b c F Hc) as [Hp Hp'].
  set (new := Z.lor _ _).
  pose proof (Z_div_mod_eq_full (c * 4) 512). pose proof (Z.mod_pos_bound (c * 4) 512 ltac:(lia)).
  assert (c * 4 mod 512 = 4 * (c mod 128))
    by (rewrite (Z.mul_comm c 4); by rewrite <- Z.mul_mod_distr_l by lia).
  pose proof (Z.mod_pos_bound c 128 ltac:(lia)).
  assert (Hs : 0 <= c * 4 / 512) by (apply Z.div_pos; lia).
  set (s := fat_start_sector drv + c * 4 / 512). set (off := Z.to_nat (c * 4 mod 512)).
  assert (0 <= fat_start_sector drv) by (by destruct F).
  assert (Hd : data_start_sector drv * 512 <= zlen b).
  { destruct F. unfold SECTOR_SIZE, ROOT_CLUSTER in *.
    assert (0 <= (max_cluster drv - 2) * sectors_per_cluster drv) by nia. lia. }
  assert (Hr : (s + 1) * 512 <= zlen b).
  { destruct F. unfold SECTOR_SIZE in *. lia. }
  assert (Hl : length (sectors b s 1) = 512%nat).
  { unfold sectors, SECTOR_SIZE. rewrite length_slice; lia. }
  assert (Hn : length (le_bytes 4 new) = 4%nat) by apply length_le_bytes.
  assert (Hsp : length (splice (sectors b s 1) off (le_bytes 4 new)) = 512%nat).
  { rewrite length_splice; [done|]. rewrite Hl, Hn. lia. }
  replace (set_fat drv b c v) with
    (set_sectors b s 1 (splice (sectors b s 1) off (le_bytes 4 new))).
  - apply runs_disk, write_sector_runs; unfold SECTOR_SIZE; [lia|lia|lia|].
    apply byte_splice; [by apply byte_slice|apply le_bytes_byte].
  - unfold set_sectors, set_fat, sectors, SECTOR_SIZE in *. fold new.
    change (Z.to_nat (1 * 512)) with 512%nat in *. rewrite take_ge by (rewrite Hsp; lia).
    rewrite splice_patch by lia. f_equal. unfold fat_pos, SECTOR_SIZE, s, off. lia.
Qed.

Lemma get_next_cluster_does b c :
  fits drv b -> 0 < c < max_cluster drv ->
  does (get_next_cluster drv c) b (next_of (fat drv b c)) b.
Proof.
  intros F Hc. unfold get_next_cluster. destruct (Z.eqb_spec c 0); [lia|].
  eapply runs_bind; [apply read_fat_entry_does; [done|lia]|].
  unfold next_of. repeat (case_match; try apply runs_ret; try apply runs_err).
Qed.

Lemma get_next_end b c :
  fits drv b -> in_table drv c -> is_end (fat drv b c) ->
  does (get_next_cluster drv c) b (Ok None) b.
Proof.
  intros F Hc He. pose proof (fat_bound drv b c).
  rewrite <- (next_of_end (fat drv b c)) by (done || lia).
  apply get_next_cluster_does; [done|]. unfold in_table, ROOT_CLUSTER in Hc. lia.
Qed.

Lemma get_next_link b c :
  fits drv b -> in_table drv c -> in_table drv (fat drv b c) ->
  does (get_next_cluster drv c) b (Ok (Some (fat drv b c))) b.
Proof.
  intros F Hc Hn. rewrite <- (next_of_link drv b (fat drv b c)) by done.
  apply get_next_cluster_does; [done|]. unfold in_table, ROOT_CLUSTER in Hc. lia.
Qed.

(** ** Whole clusters *)

Lemma cluster_access b c (buf : list Z) :
  fits drv b -> in_table drv c -> length buf = cs drv ->
  0 <= cluster_to_sector drv c /\ 0 < sectors_per_cluster drv /\
  access_ok b (cluster_to_sector drv c) (sectors_per_cluster drv) buf /\
  Z.to_nat (sectors_per_cluster drv * SECTOR_SIZE) = cs drv.
Proof.
  intros F Hc Hl. destruct (data_pos_fits drv b c F Hc) as (Hp & _ & _ & Hd).
  destruct (cs_pos drv b F) as [Hcs Hce]. destruct F.
  assert (0 <= cluster_to_sector drv c).
  { unfold cluster_to_sector. destruct Hc. unfold ROOT_CLUSTER in *.
    destruct (Z.leb_spec 2 c); nia. }
  unfold access_ok, data_pos, cs, SECTOR_SIZE in *. lia.
Qed.

Lemma read_cluster_does b c :
  fits drv b -> in_table drv c ->
  does (read_cluster drv c) b (Ok (cluster_data drv b c)) b.
Proof.
  intros F Hc.
  destruct (cluster_access b c (replicate (Z.to_nat (cluster_size drv)) 0) F Hc)
    as (H1 & H2 & H3 & H4); [by rewrite length_replicate|].
  pose proof (length_cluster_data drv b c F Hc) as Hl.
  unfold read_cluster, mgr_read_sectors. apply runs_disk.
  replace (cluster_data drv b c) with
    (splice (replicate (Z.to_nat (cluster_size drv)) 0) 0
      (sectors b (cluster_to_sector drv c) (sectors_per_cluster drv))).
  - apply read_in_range; [done|lia|done].
  - unfold sectors. rewrite H4. apply splice_all. rewrite length_replicate. symmetry. exact Hl.
Qed.

Lemma write_cluster_does b c data :
  fits drv b -> in_table drv c -> length data = cs drv -> Forall byte data ->
  does (disk (mgr_write_sectors (cluster_to_sector drv c) (sectors_per_cluster drv) data)) b
    (Ok tt) (set_data drv b c data).
Proof.
  intros F Hc Hl Hb. destruct (cluster_access b c data F Hc Hl) as (H1 & H2 & H3 & H4).
  apply runs_disk. replace (set_data drv b c data) with
    (set_sectors b (cluster_to_sector drv c) (sectors_per_cluster drv) data).
  - by apply mgr_write_sectors_runs.
  - unfold set_sectors, set_data. rewrite H4, take_ge by lia. done.
Qed.

End primitives.

(** ** The geometry [new] computes *)

Definition total_sectors (bs : BootSector) : Z :=
  if negb (total_sectors_32 bs =? 0) then total_sectors_32 bs else total_sectors_16 bs.

(** Mounting is checked arithmetic: a short sector, a zero table size or a non-zero root
    entry count is an error; a volume smaller than its own reserved area or with zero
    sectors per cluster panics; and for every volume that mounts (its data area starting
    below 2^32) the clusters occupy disjoint sector ranges behind the tables, all inside
    the volume's sectors. *)
Theorem new_geometry data :
  Forall byte data ->
  match new data with
  | Ok drv =>
      let bs := boot_sector drv in
      boot_sector_from_bytes data = Ok bs /\ 0 < sectors_per_cluster drv /\
      cluster_size drv = sectors_per_cluster drv * bytes_per_sector bs /\
      data_start_sector drv = reserved_sectors bs + num_fats bs * fat_size_32 bs /\
      (data_start_sector drv < 2 ^ 32 -> forall c, in_table drv c ->
        data_start_sector drv <= cluster_to_sector drv c /\
        cluster_to_sector drv c + sectors_per_cluster drv <= total_sectors bs /\
        forall c', in_table drv c' -> c < c' ->
          cluster_to_sector drv c + sectors_per_cluster drv <= cluster_to_sector drv c')
  | Err e => boot_sector_from_bytes data = Err e
  | Panic => exists bs, boot_sector_from_bytes data = Ok bs /\
      (total_sectors bs < wrap 32 (reserved_sectors bs + num_fats bs * fat_size_32 bs) \/
       BootSector.sectors_per_cluster bs = 0 \/ 2 ^ 32 <= total_sectors bs + ROOT_CLUSTER)
  | OutOfFuel => False
  end.
Proof.
  intros Hb. unfold new, rbind. destruct (boot_sector_from_bytes data) as [bs|e| |] eqn:E.
  2: done.
  2, 3: unfold boot_sector_from_bytes in E; repeat (case_match; try discriminate).
  destruct (boot_sector_widths data bs Hb E) as (Hbps & Hspc & Hres & Hnf & Ht32 & Ht16 & Hfs & _).
  unfold in_width in *. fold (total_sectors bs).
  assert (Ht : 0 <= total_sectors bs < 2 ^ 32) by (unfold total_sectors; case_match; lia).
  rewrite !Z.add_0_r. set (ds := reserved_sectors bs + num_fats bs * fat_size_32 bs).
  assert (Hds : 0 <= ds) by (unfold ds; nia).
  pose proof (in_width_wrap 32 ds ltac:(lia)) as Hw. unfold in_width in Hw.
  destruct (Z.ltb_spec (total_sectors bs) (wrap 32 ds)) as [Hlt|Hge]; [eauto|].
  destruct (Z.eqb_spec (BootSector.sectors_per_cluster bs) 0) as [H0|H0]; [eauto|].
  set (spc := BootSector.sectors_per_cluster bs) in *.
  pose proof (Z_div_mod_eq_full (total_sectors bs - wrap 32 ds) spc) as Hdm.
  pose proof (Z.mod_pos_bound (total_sectors bs - wrap 32 ds) spc ltac:(lia)) as Hmb.
  set (q := (total_sectors bs - wrap 32 ds) / spc) in *.
  assert (Hq : 0 <= q <= total_sectors bs).
  { unfold q. split; [apply Z.div_pos; lia|]. etransitivity; [apply Z.div_le_upper_bound|]; [lia| |reflexivity]. nia. }
  destruct (Z.ltb_spec U32_MAX (q + ROOT_CLUSTER)) as [Hov|Hok].
  { exists bs. split; [done|]. right. right. unfold U32_MAX, ROOT_CLUSTER in *. lia. }
  cbn [boot_sector sectors_per_cluster cluster_size data_start_sector max_cluster].
  split_and!; [done|lia|done|done|].
  intros Hsmall c [Hc1 Hc2]. cbn [max_cluster] in Hc2. unfold ROOT_CLUSTER in *.
  rewrite wrap_small in * by (unfold in_width; lia). unfold cluster_to_sector.
  cbn [data_start_sector sectors_per_cluster].
  destruct (Z.leb_spec 2 c); [|lia].
  split_and!; [nia|nia|]. intros c' [Hc1' Hc2'] Hlt'.
  destruct (Z.leb_spec 2 c'); [nia|lia].
Qed.
