(* ===== verification/FatDemo.v ===== *)
(** * FatDemo: a small volume

    An eight-sector image the witnesses of the FAT32 theorems run on: a boot sector, one
    table sector, six one-sector clusters. The root directory (cluster 2) holds the file
    A.TXT of 600 bytes in the clusters 3 and 4; the clusters 5 to 7 are free. *)

From Stdlib Require Import ZArith Lia.
From stdpp Require Import base tactics list option numbers.
From S2P Require Import Prelude Disk FsTypes DirEntry BootSector Fat32 FatTable.

Definition demo_boot : list Z :=
  replicate 11 0 ++ le_bytes 2 512 ++ [1] ++ le_bytes 2 1 ++ [1] ++ le_bytes 2 0 ++ le_bytes 2 8 ++
  [0xF8] ++ replicate 14 0 ++ le_bytes 4 1 ++ replicate 4 0 ++ le_bytes 4 2 ++ replicate 464 0.

Definition demo_table : list Z :=
  le_bytes 4 0x0FFFFFF8 ++ le_bytes 4 END_OF_CHAIN ++ le_bytes 4 END_OF_CHAIN ++
  le_bytes 4 4 ++ le_bytes 4 END_OF_CHAIN ++ replicate 492 0.

(** "A.TXT", cluster 3, 600 bytes. *)
Definition demo_entry : DirectoryEntry :=
  set_file_size 600 (set_first_cluster 3 (set_attributes ATTR_ARCHIVE
    (set_names (0x41 :: replicate 7 SPACE) [0x54; 0x58; 0x54] create_empty))).

Definition demo_root : list Z := as_bytes demo_entry ++ replicate 480 0.

Definition demo_volume : list Z :=
  demo_boot ++ demo_table ++ demo_root ++ replicate 512 1 ++ replicate 512 2 ++ replicate 1536 0.

Definition demo_drv : Fat32Driver :=
  match new demo_boot with
  | Ok drv => drv
  | _ => mkDriver (mkBoot [] [] 0 0 0 0 0 0 0 0 0 0 0 0 0 0 0 0 0 0 [] 0 0 0 0 [] [] [] 0 0)
           0 0 0 0 0 0 0 create_empty (mkNode 0 [] File 0 0 0 0)
  end.

Definition demo_disk : MockDiskDevice.MockDiskDevice := MockDiskDevice.mkMock 4096 demo_volume.

Lemma demo_new : new demo_boot = Ok demo_drv.
Proof. vm_compute. reflexivity. Qed.

Lemma demo_fits : fits demo_drv demo_volume.
Proof. by constructor; vm_compute; try split; try congruence. Qed.

Definition byte_test (x : Z) : bool := (0 <=? x) && (x <? 256).

Lemma all_bytes (b : list Z) : forallb byte_test b = true -> Forall byte b.
Proof.
  rewrite forallb_forall, Forall_forall. intros H x Hx. specialize (H x Hx).
  unfold byte_test in H. bool_hyps. unfold byte. lia.
Qed.

Lemma demo_holds : holds demo_disk demo_volume.
Proof.
  split; [done|]. split; [vm_compute; reflexivity|].
  split; [exists 8; vm_compute; reflexivity|]. split; [vm_compute; congruence|].
  apply all_bytes. vm_compute. reflexivity.
Qed.

Lemma demo_in_table c : 2 <= c < 8 -> in_table demo_drv c.
Proof. intros. unfold in_table, ROOT_CLUSTER. change (max_cluster demo_drv) with 8. lia. Qed.

Lemma demo_root_chain : chain demo_drv demo_volume 2 [2].
Proof. constructor; [apply demo_in_table; lia|]. vm_compute. congruence. Qed.

Lemma demo_file_chain : chain demo_drv demo_volume 3 [3; 4].
Proof.
  apply chain_link; [apply demo_in_table; lia|by vm_compute|].
  change (fat demo_drv demo_volume 3) with 4.
  constructor; [apply demo_in_table; lia|]. vm_compute. congruence.
Qed.

Lemma new_geometry_witness :
  exists drv, new demo_boot = Ok drv /\ 0 < sectors_per_cluster drv.
Proof.
  assert (Hb : Forall byte demo_boot) by (by apply all_bytes; vm_compute).
  pose proof (new_geometry demo_boot Hb) as Hg. rewrite demo_new in Hg.
  exists demo_drv. split; [exact demo_new|exact (proj1 (proj2 Hg))].
Defined.
