(* ===== verification/FatChain.v ===== *)
(** * FatChain: following, allocating and freeing cluster chains

    The loops of the FAT32 driver over chains: their effect on the views of FatTable,
    and the theorems on the table, allocation and freeing. *)

From Stdlib Require Import ZArith Lia.
From stdpp Require Import base tactics list option numbers.
From S2P Require Import Prelude Disk FsTypes DirEntry BootSector Fat32 FatTable FatDemo.

(** The first free cluster among the [n] from [c] on. *)
Fixpoint free_from (drv : Fat32Driver) (b : list Z) (n : nat) (c : Z) : option Z :=
  match n with
  | O => None
  | S n => if fat drv b c =? 0 then Some c else free_from drv b n (c + 1)
  end.

Definition first_free (drv : Fat32Driver) (b : list Z) : option Z :=
  free_from drv b (Z.to_nat (max_cluster drv - ROOT_CLUSTER)) ROOT_CLUSTER.

(** The image after the clusters of [l] were given the consecutive pieces of [buf]. *)
Fixpoint put_chain (drv : Fat32Driver) (b : list Z) (l : list Z) (buf : list Z) : list Z :=
  match l with
  | [] => b
  | c :: l => put_chain drv (set_data drv b c (take (cs drv) buf)) l (drop (cs drv) buf)
  end.

(** The image after the table entries of [l] were freed. *)
Definition free_all (drv : Fat32Driver) (b : list Z) (l : list Z) : list Z :=
  foldl (fun b c => set_fat drv b c EMPTY_FAT_ENTRY) b l.

Definition zeros (drv : Fat32Driver) : list Z := replicate (cs drv) 0.

(** The image after a fresh cluster [c] was marked as an end and zeroed. *)
Definition fresh (drv : Fat32Driver) (b : list Z) (c : Z) : list Z :=
  set_data drv (set_fat drv b c END_OF_CHAIN) c (zeros drv).

Section pure.
Variable drv : Fat32Driver.
Implicit Types b : list Z.

Lemma free_from_some b n : forall c x,
  free_from drv b n c = Some x ->
  c <= x < c + Z.of_nat n /\ fat drv b x = 0 /\ (forall y, c <= y < x -> fat drv b y <> 0).
Proof.
  induction n as [|n IH]; intros c x; cbn [free_from]; [done|].
  destruct (Z.eqb_spec (fat drv b c) 0) as [Hc|Hc].
  - intros [= <-]. split_and!; [lia|lia|done|]. intros y Hy. lia.
  - intros Hx. destruct (IH _ _ Hx) as (? & ? & Hf). split_and!; [lia|lia|done|].
    intros y Hy. destruct (decide (y = c)) as [->|]; [done|]. apply Hf. lia.
Qed.

Lemma free_from_none b n : forall c,
  free_from drv b n c = None <-> forall y, c <= y < c + Z.of_nat n -> fat drv b y <> 0.
Proof.
  induction n as [|n IH]; intros c; cbn [free_from].
  - split; [|done]. intros _ y Hy. lia.
  - destruct (Z.eqb_spec (fat drv b c) 0) as [Hc|Hc].
    + split; [done|]. intros Hf. destruct (Hf c); [lia|done].
    + rewrite IH. split; intros Hf y Hy.
      * destruct (decide (y = c)) as [->|]; [done|]. apply Hf. lia.
      * apply Hf. lia.
Qed.

Lemma first_free_some b c :
  fits drv b -> first_free drv b = Some c ->
  in_table drv c /\ fat drv b c = 0 /\ (forall y, ROOT_CLUSTER <= y < c -> fat drv b y <> 0).
Proof.
  intros [] Hf. apply free_from_some in Hf as (Hc & H0 & Hl). split_and!; [|done|done].
  unfold in_table. lia.
Qed.

Lemma first_free_none b :
  fits drv b -> first_free drv b = None <-> forall y, in_table drv y -> fat drv b y <> 0.
Proof.
  intros []. unfold first_free. rewrite free_from_none. unfold in_table.
  split; intros Hf y Hy; apply Hf; lia.
Qed.

(** ** [put_chain] *)

Lemma put_chain_facts l : forall b buf,
  fits drv b -> Forall (in_table drv) l -> length buf = (length l * cs drv)%nat ->
  fits drv (put_chain drv b l buf) /\
  length (put_chain drv b l buf) = length b /\
  (forall x, 0 <= x < max_cluster drv -> fat drv (put_chain drv b l buf) x = fat drv b x) /\
  (forall x, in_table drv x -> x ∉ l ->
    cluster_data drv (put_chain drv b l buf) x = cluster_data drv b x).
Proof.
  induction l as [|c l IH]; intros b buf F Hl Hb; cbn [put_chain].
  { by split_and!. }
  apply Forall_cons_iff in Hl as [Hc Hl]. cbn [length] in Hb.
  assert (Ht : length (take (cs drv) buf) = cs drv) by (rewrite length_take; lia).
  destruct (IH (set_data drv b c (take (cs drv) buf)) (drop (cs drv) buf)) as (F' & Hlen & Hfat & Hd).
  - by apply fits_set_data.
  - done.
  - rewrite length_drop. lia.
  - split_and!; [done| | |].
    + rewrite Hlen. by apply length_set_data.
    + intros x Hx. rewrite Hfat by done. by apply fat_set_data.
    + intros x Hx Hn. apply not_elem_of_cons in Hn as [? ?].
      rewrite Hd by done. by apply cluster_data_set_other.
Qed.

Lemma put_chain_bytes l : forall b buf,
  fits drv b -> Forall (in_table drv) l -> NoDup l -> length buf = (length l * cs drv)%nat ->
  chain_bytes drv (put_chain drv b l buf) l = buf.
Proof.
  induction l as [|c l IH]; intros b buf F Hl Hn Hb; cbn [put_chain].
  { by destruct buf. }
  apply Forall_cons_iff in Hl as [Hc Hl]. pose proof (NoDup_cons_1_1 _ _ Hn) as Hni. apply NoDup_cons_1_2 in Hn.
  cbn [length] in Hb.
  assert (Ht : length (take (cs drv) buf) = cs drv) by (rewrite length_take; lia).
  assert (Hdl : length (drop (cs drv) buf) = (length l * cs drv)%nat) by (rewrite length_drop; lia).
  assert (F' : fits drv (set_data drv b c (take (cs drv) buf))) by (by apply fits_set_data).
  destruct (put_chain_facts l _ _ F' Hl Hdl) as (_ & _ & _ & Hd).
  unfold chain_bytes. rewrite fmap_cons. cbn [concat]. rewrite Hd by done.
  rewrite cluster_data_set_same by done. fold (chain_bytes drv
    (put_chain drv (set_data drv b c (take (cs drv) buf)) l (drop (cs drv) buf)) l).
  rewrite IH by done. apply take_drop.
Qed.

(** ** [free_all] *)

Lemma free_all_facts l : forall b,
  fits drv b -> Forall (in_table drv) l ->
  fits drv (free_all drv b l) /\
  (forall x, 0 <= x -> x ∉ l -> fat drv (free_all drv b l) x = fat drv b x) /\
  (forall x, x ∈ l -> fat drv (free_all drv b l) x = 0) /\
  (forall x, in_table drv x -> cluster_data drv (free_all drv b l) x = cluster_data drv b x).
Proof.
  induction l as [|c l IH]; intros b F Hl; cbn [free_all foldl].
  { split_and!; [done|done| |done]. intros x Hx. by apply not_elem_of_nil in Hx. }
  apply Forall_cons_iff in Hl as [Hc Hl]. pose proof (in_table_bound drv b c F Hc) as Hcb.
  assert (F' : fits drv (set_fat drv b c EMPTY_FAT_ENTRY)) by (by apply fits_set_fat).
  destruct (IH _ F' Hl) as (F2 & Ho & Hz & Hd). split_and!; [done| | |].
  - intros x Hx Hn. apply not_elem_of_cons in Hn as [? ?].
    etransitivity; [by apply Ho|]. by apply fat_set_other.
  - intros x Hx. destruct (decide (x ∈ l)) as [|Hn]; [by apply Hz|].
    apply elem_of_cons in Hx as [->|]; [|done].
    etransitivity; [apply Ho; [lia|done]|]. by rewrite fat_set_same.
  - intros x Hx. etransitivity; [by apply Hd|]. by apply cluster_data_set_fat.
Qed.

Lemma last_default (x : Z) l d d' : List.last (x :: l) d = List.last (x :: l) d'.
Proof. revert x. induction l as [|y l IH]; intros x; [done|]. apply IH. Qed.

(** ** [fresh] *)

Lemma length_zeros : length (zeros drv) = cs drv.
Proof. apply length_replicate. Qed.

Lemma fresh_facts b c :
  fits drv b -> in_table drv c ->
  fits drv (fresh drv b c) /\ fat drv (fresh drv b c) c = END_OF_CHAIN /\
  (forall x, 0 <= x < max_cluster drv -> x <> c -> fat drv (fresh drv b c) x = fat drv b x) /\
  cluster_data drv (fresh drv b c) c = zeros drv /\
  (forall x, in_table drv x -> x <> c ->
    cluster_data drv (fresh drv b c) x = cluster_data drv b x).
Proof.
  intros F Hc. pose proof (in_table_bound drv b c F Hc) as Hb.
  assert (F1 : fits drv (set_fat drv b c END_OF_CHAIN)) by (by apply fits_set_fat).
  pose proof length_zeros. unfold fresh. split_and!.
  - by apply fits_set_data.
  - rewrite fat_set_data by done. by rewrite fat_set_same.
  - intros x Hx Hn. rewrite fat_set_data by done. apply fat_set_other; [done|done|lia|done].
  - by apply cluster_data_set_same.
  - intros x Hx Hn. rewrite cluster_data_set_other by done. by apply cluster_data_set_fat.
Qed.

End pure.

Section chains.
Context {D : Type} `{DL : DiskLaws D}.
Variable drv : Fat32Driver.
Implicit Types b : list Z.

Abbreviation does c b r b' := (runs (S:=D) (E:=FileSystemError) holds c b r b').

Lemma in_table_test c :
  in_table drv c -> (ROOT_CLUSTER <=? c) && (c <? max_cluster drv) = true.
Proof.
  unfold in_table. intros. apply andb_true_iff. split; [apply Z.leb_le|apply Z.ltb_lt]; lia.
Qed.

Lemma chain_length_does b c l : fits drv b -> chain drv b c l ->
  forall fuel n, (length l <= fuel)%nat ->
  does (chain_length drv fuel c n) b (Ok (n + length l)%nat) b.
Proof.
  intros F. induction 1 as [c Hc He|c l Hc Hn Hl IH]; intros fuel n Hf;
    (destruct fuel as [|fuel]; [simpl in Hf; lia|]); cbn [chain_length]; rewrite in_table_test by done.
  - eapply runs_bind; [by apply get_next_end|]. cbn [length]. rewrite Nat.add_1_r. apply runs_ret.
  - eapply runs_bind; [by apply get_next_link|]. cbn [length] in *.
    replace (n + S (length l))%nat with (S n + length l)%nat by lia. apply IH. lia.
Qed.

Lemma get_cluster_chain_length_does b c l :
  fits drv b -> chain drv b c l -> does (get_cluster_chain_length drv c) b (Ok (length l)) b.
Proof.
  intros F Hl. unfold get_cluster_chain_length.
  apply (chain_length_does b c l F Hl _ 0). by apply (chain_short drv b c).
Qed.

Lemma last_cluster_does b c l : fits drv b -> chain drv b c l ->
  forall fuel, (length l <= fuel)%nat ->
  does (last_cluster drv fuel c) b (Ok (List.last l c)) b.
Proof.
  intros F. induction 1 as [c Hc He|c l Hc Hn Hl IH]; intros fuel Hf;
    (destruct fuel as [|fuel]; [simpl in Hf; lia|]); cbn [last_cluster]; rewrite in_table_test by done.
  - eapply runs_bind; [by apply get_next_end|]. apply runs_ret.
  - eapply runs_bind; [by apply get_next_link|]. cbn [length] in Hf.
    replace (List.last (c :: l) c) with (List.last l (fat drv b c)); [apply IH; lia|].
    destruct (chain_in_table drv b _ l Hl) as [_ Hh]. destruct l as [|y l]; [done|].
    simpl in Hh. injection Hh as <-. apply (last_default y l).
Qed.

Lemma read_chain_does b c l : fits drv b -> chain drv b c l ->
  forall fuel n out, (length out <= n + fuel)%nat -> (n < length out)%nat ->
  length out = (n + length l * cs drv)%nat ->
  does (read_chain drv fuel c n out) b (Ok (length out, take n out ++ chain_bytes drv b l)) b.
Proof.
  intros F. destruct (cs_pos drv b F) as [Hcs _].
  induction 1 as [c Hc He|c l Hc Hn Hl IH]; intros fuel n out Hf Hlt Hlen;
    (destruct fuel as [|fuel]; [lia|]); cbn [read_chain];
    rewrite (proj2 (Nat.ltb_lt n (length out)) Hlt), (proj2 (Z.ltb_lt c (max_cluster drv)))
      by (destruct Hc; lia); cbn [andb]; fold (cs drv); cbn [length] in Hlen;
    (eapply runs_bind; [by apply read_cluster_does|]);
    pose proof (length_cluster_data drv b c F Hc) as Hcl;
    rewrite Nat.min_l, take_ge by lia.
  - eapply runs_bind; [by apply get_next_end|]. unfold chain_bytes. cbn [list_fmap fmap concat].
    rewrite app_nil_r, Hlen. replace (n + 1 * cs drv)%nat with (n + cs drv)%nat by lia.
    unfold splice. rewrite drop_ge, app_nil_r by lia. apply runs_ret.
  - eapply runs_bind; [by apply get_next_link|].
    destruct (chain_in_table drv b _ l Hl) as [_ Hh].
    assert (0 < length l)%nat by (destruct l; [done|simpl; lia]).
    assert (Hsp : length (splice out n (cluster_data drv b c)) = length out)
      by (apply length_splice; nia).
    unfold chain_bytes. rewrite fmap_cons. cbn [concat]. fold (chain_bytes drv b l).
    replace (take n out ++ cluster_data drv b c ++ chain_bytes drv b l) with
      (take (n + cs drv) (splice out n (cluster_data drv b c)) ++ chain_bytes drv b l).
    + rewrite <- Hsp. apply IH; rewrite Hsp; nia.
    + rewrite (app_assoc (take n out) (cluster_data drv b c) (chain_bytes drv b l)). f_equal.
      unfold splice. rewrite app_assoc, take_app_length'; [done|].
      rewrite length_app, length_take. nia.
Qed.

Lemma read_dir_buffer_does b c l :
  fits drv b -> chain drv b c l ->
  does (read_dir_buffer drv c) b (Ok ((length l * cs drv)%nat, chain_bytes drv b l)) b.
Proof.
  intros F Hl. destruct (cs_pos drv b F) as [Hcs _]. unfold read_dir_buffer.
  eapply runs_bind; [by apply get_cluster_chain_length_does|]. fold (cs drv).
  unfold read_cluster_chain.
  pose proof (read_chain_does b c l F Hl
    (S (length (replicate (length l * cs drv) 0))) 0 (replicate (length l * cs drv) 0)) as Hr.
  rewrite length_replicate in *. apply Hr; try lia.
  destruct (chain_in_table drv b _ l Hl) as [_ Hh]. destruct l; [done|]. simpl. lia.
Qed.

(** Table entries survive writes to the data area, so the walk of [write_chain] goes on
    along the original chain. *)
Lemma write_chain_does b0 c l : fits drv b0 -> chain drv b0 c l ->
  forall b fuel n buf, fits drv b ->
  (forall x, x ∈ l -> fat drv b x = fat drv b0 x) ->
  (length buf <= n + fuel)%nat -> (n < length buf)%nat ->
  length buf = (n + length l * cs drv)%nat -> Forall byte buf ->
  does (write_chain drv fuel c n buf) b (Ok tt) (put_chain drv b l (drop n buf)).
Proof.
  intros F0. induction 1 as [c Hc He|c l Hc Hn Hl IH];
    intros b fuel n buf F Hfat Hf Hlt Hlen Hby; destruct (cs_pos drv b F) as [Hcs _];
    (destruct fuel as [|fuel]; [lia|]); cbn [write_chain put_chain];
    rewrite (proj2 (Nat.ltb_lt n (length buf)) Hlt), (proj2 (Z.ltb_lt c (max_cluster drv)))
      by (destruct Hc; lia); cbn [andb]; fold (cs drv); cbn [length] in Hlen;
    rewrite Nat.min_l by lia;
    assert (Hsl : length (slice buf n (cs drv)) = cs drv) by (apply length_slice; lia);
    (eapply runs_bind; [apply write_cluster_does; [done|done|done|by apply byte_slice]|]);
    assert (F' : fits drv (set_data drv b c (slice buf n (cs drv)))) by (by apply fits_set_data);
    assert (Hfc : forall x, in_table drv x ->
      fat drv (set_data drv b c (slice buf n (cs drv))) x = fat drv b x)
      by (intros x Hx; apply fat_set_data; [done|done|by apply (in_table_bound drv b)|done]).
  - eapply runs_bind; [apply get_next_end; [done|done|]|apply runs_ret].
    rewrite Hfc by done. rewrite Hfat by apply list_elem_of_here. done.
  - assert (Hnx : fat drv (set_data drv b c (slice buf n (cs drv))) c = fat drv b0 c).
    { rewrite Hfc by done. apply Hfat, list_elem_of_here. }
    eapply runs_bind; [apply get_next_link; [done|done|by rewrite Hnx]|].
    rewrite Hnx, drop_drop. apply IH; [done| |lia| |lia|done].
    + intros x Hx. destruct (chain_in_table drv b0 _ l Hl) as [Hin _].
      rewrite Forall_forall in Hin. rewrite Hfc by (by apply Hin, list_elem_of_In).
      apply Hfat. by apply list_elem_of_further.
    + destruct (chain_in_table drv b0 _ l Hl) as [_ Hh]. destruct l; [done|]. cbn [length] in *. lia.
Qed.

(** ** Allocation and freeing *)

Lemma find_free_from_does b n : fits drv b -> forall c,
  0 <= c -> c + Z.of_nat n <= max_cluster drv ->
  does (find_free_from drv n c) b
    (match free_from drv b n c with Some x => Ok x | None => Err NoSpace end) b.
Proof.
  intros F. induction n as [|n IH]; intros c Hc Hm; cbn [find_free_from free_from].
  { apply runs_err. }
  eapply runs_bind; [apply read_fat_entry_does; [done|lia]|].
  destruct (Z.eqb_spec (fat drv b c) 0); [apply runs_ret|]. apply IH; lia.
Qed.

Lemma find_free_cluster_does b :
  fits drv b ->
  does (find_free_cluster drv) b
    (match first_free drv b with Some x => Ok x | None => Err NoSpace end) b.
Proof.
  intros F. apply find_free_from_does; [done|unfold ROOT_CLUSTER; lia|].
  destruct F. unfold ROOT_CLUSTER in *. lia.
Qed.

Lemma allocate_one_does b c :
  fits drv b -> first_free drv b = Some c ->
  does (allocate_clusters drv 1) b (Ok c) (set_fat drv b c END_OF_CHAIN).
Proof.
  intros F Hc. destruct (first_free_some drv b c F Hc) as (Hin & _).
  pose proof (find_free_cluster_does b F) as Hf. rewrite Hc in Hf.
  unfold allocate_clusters. eapply runs_bind; [by apply runs_assert|].
  eapply runs_bind; [exact Hf|]. eapply runs_bind; [apply runs_ret|].
  eapply runs_bind; [apply write_fat_entry_does; [done|by apply (in_table_bound drv b)]|].
  apply runs_ret.
Qed.

Lemma allocate_full_does b count :
  fits drv b -> (0 < count)%nat -> first_free drv b = None ->
  does (allocate_clusters drv count) b (Err NoSpace) b.
Proof.
  intros F Hc Hn. pose proof (find_free_cluster_does b F) as Hf. rewrite Hn in Hf.
  unfold allocate_clusters. eapply runs_bind.
  - apply runs_assert. destruct (Nat.eqb_spec count 0); [lia|done].
  - by eapply runs_bind_err.
Qed.

Lemma clear_sectors_does n : forall b s,
  0 <= s -> (s + Z.of_nat n) * SECTOR_SIZE <= zlen b ->
  does (clear_sectors n s) b (Ok tt)
    (splice b (Z.to_nat (s * SECTOR_SIZE)) (replicate (n * 512) 0)).
Proof.
  unfold SECTOR_SIZE. induction n as [|n IH]; intros b s Hs Hl; cbn [clear_sectors].
  { change (replicate (0 * 512) 0) with (@nil Z); rewrite splice_nil. apply runs_ret. }
  eapply runs_bind.
  { apply runs_disk, write_sector_runs; unfold SECTOR_SIZE, ZERO_BUFFER; [done|lia| |].
    - rewrite length_replicate. lia.
    - apply Forall_replicate. unfold byte. lia. }
  replace (S n * 512)%nat with (512 + n * 512)%nat by lia.
  assert (Hz : set_sectors b s 1 ZERO_BUFFER =
    splice b (Z.to_nat (s * 512)) (replicate 512 0)) by done.
  rewrite Hz, replicate_add, <- splice_splice_app, length_replicate
    by (rewrite !length_replicate; lia).
  replace (Z.to_nat (s * 512) + 512)%nat with (Z.to_nat ((s + 1) * 512)) by lia.
  apply IH; [lia|]. rewrite length_splice; [lia|]. rewrite length_replicate. lia.
Qed.

Lemma clear_one_does b c :
  fits drv b -> in_table drv c -> is_end (fat drv b c) ->
  does (clear_clusters drv c 1) b (Ok tt) (set_data drv b c (zeros drv)).
Proof.
  intros F Hc He. destruct (data_pos_fits drv b c F Hc) as (Hp & _ & Hdp & Hd).
  assert (Hcs : cs drv = (Z.to_nat (sectors_per_cluster drv) * 512)%nat).
  { destruct F. unfold cs, SECTOR_SIZE in *. lia. }
  assert (Hsec : 0 <= cluster_to_sector drv c).
  { by apply (cluster_access drv b c (zeros drv)); [| |apply length_zeros]. }
  assert (Hspc : 0 < sectors_per_cluster drv) by (by destruct F).
  cbn [clear_clusters]. eapply runs_bind.
  - apply clear_sectors_does; [done|]. unfold data_pos, SECTOR_SIZE in *. lia.
  - fold (data_pos drv c). rewrite <- Hcs. fold (zeros drv). fold (set_data drv b c (zeros drv)).
    pose proof (length_zeros drv).
    eapply runs_bind; [apply get_next_end; [by apply fits_set_data|done|]|apply runs_ret].
    by rewrite fat_set_data by (done || by apply (in_table_bound drv b)).
Qed.

(** What [allocate_clusters(1)] followed by [clear_clusters(.., 1)] leaves. *)
Lemma fresh_cluster_does {A} b c (k : Z -> stM D FileSystemError A) r b' :
  fits drv b -> first_free drv b = Some c ->
  does (k c) (fresh drv b c) r b' ->
  does (sbind (allocate_clusters drv 1) (fun c => sbind (clear_clusters drv c 1) (fun _ => k c)))
    b r b'.
Proof.
  intros F Hc Hk. destruct (first_free_some drv b c F Hc) as (Hin & _).
  pose proof (in_table_bound drv b c F Hin).
  eapply runs_bind; [by apply allocate_one_does|].
  eapply runs_bind; [|exact Hk]. apply clear_one_does; [by apply fits_set_fat|done|].
  rewrite fat_set_same by done. unfold is_end. vm_compute. congruence.
Qed.

Lemma free_chain_does b0 c l : fits drv b0 -> chain drv b0 c l ->
  forall b fuel, fits drv b -> NoDup l ->
  (forall x, x ∈ l -> fat drv b x = fat drv b0 x) -> (length l <= fuel)%nat ->
  does (free_chain drv fuel c) b (Ok tt) (free_all drv b l).
Proof.
  intros F0. induction 1 as [c Hc He|c l Hc Hn Hl IH]; intros b fuel F Hnd Hfat Hf;
    (destruct fuel as [|fuel]; [simpl in Hf; lia|]); cbn [free_chain free_all foldl];
    rewrite in_table_test by done;
    (assert (Hfc : fat drv b c = fat drv b0 c) by (apply Hfat, list_elem_of_here));
    pose proof (in_table_bound drv b c F Hc) as Hb.
  - eapply runs_bind; [apply get_next_end; [done|done|by rewrite Hfc]|].
    eapply runs_bind; [apply runs_ret|].
    eapply runs_bind; [by apply write_fat_entry_does|]. apply runs_ret.
  - eapply runs_bind; [apply get_next_link; [done|done|by rewrite Hfc]|].
    eapply runs_bind; [apply runs_assert; rewrite Hfc; by apply in_table_test|].
    eapply runs_bind; [by apply write_fat_entry_does|]. rewrite Hfc.
    pose proof (NoDup_cons_1_1 _ _ Hnd) as Hni. apply NoDup_cons_1_2 in Hnd.
    apply IH; [by apply fits_set_fat|done| |simpl in Hf; lia].
    intros x Hx. destruct (chain_in_table drv b0 _ l Hl) as [Hin _].
    rewrite Forall_forall in Hin. specialize (Hin x (proj1 (list_elem_of_In _ _) Hx)).
    destruct Hin. unfold ROOT_CLUSTER in *.
    rewrite fat_set_other; [|done|done|lia|].
    + apply Hfat. by apply list_elem_of_further.
    + intros ->. done.
Qed.

(** ** The theorems *)

(** Writing a table entry is exactly that: the entry reads back as the low 28 bits of
    the value, its four reserved bits, every other entry and every cluster's data keep
    their bytes, and the volume's geometry is untouched. *)
Theorem fat_write_isolated b c v :
  fits drv b -> 0 <= c < max_cluster drv ->
  exists b', does (write_fat_entry drv c v) b (Ok tt) b' /\
    does (read_fat_entry drv c) b' (Ok (v mod 2 ^ 28)) b' /\
    Z.land (u32_at b' (fat_pos drv c)) 0xF0000000 = Z.land (u32_at b (fat_pos drv c)) 0xF0000000 /\
    (forall x, 0 <= x < max_cluster drv -> x <> c ->
      does (read_fat_entry drv x) b' (Ok (fat drv b x)) b') /\
    (forall x, in_table drv x ->
      does (read_cluster drv x) b' (Ok (cluster_data drv b x)) b') /\
    fits drv b'.
Proof.
  intros F Hc. exists (set_fat drv b c v).
  assert (F' : fits drv (set_fat drv b c v)) by (by apply fits_set_fat).
  split_and!; [by apply write_fat_entry_does| | | | |done].
  - rewrite <- (fat_set_same drv b c v) by done. by apply read_fat_entry_does.
  - destruct (fat_pos_fits drv b c F Hc) as [Hp _].
    destruct (fat_entry_value (u32_at b (fat_pos drv c)) v) as (Hn & _ & Hh).
    unfold u32_at at 1. unfold set_fat. set (new := Z.lor _ _) in *.
    rewrite <- (length_le_bytes 4 new) at 2.
    rewrite slice_splice_same by (rewrite length_le_bytes; lia). by rewrite le_word_bytes.
  - intros x Hx Hne. rewrite <- (fat_set_other drv b c v x) by (done || lia).
    by apply read_fat_entry_does.
  - intros x Hx. rewrite <- (cluster_data_set_fat drv b c v x) by done.
    by apply read_cluster_does.
Qed.

(** Allocation is first fit: it hands out the lowest cluster whose entry is free, marks
    it the end of a chain and changes no other entry; it reports [NoSpace] and leaves
    the disk alone exactly when no entry of the table is free. *)
Theorem allocate_first_fit b :
  fits drv b ->
  (exists c b', in_table drv c /\ fat drv b c = 0 /\
    (forall x, ROOT_CLUSTER <= x < c -> fat drv b x <> 0) /\
    does (allocate_clusters drv 1) b (Ok c) b' /\ chain drv b' c [c] /\
    (forall x, 0 <= x < max_cluster drv -> x <> c -> fat drv b' x = fat drv b x)) \/
  ((forall x, in_table drv x -> fat drv b x <> 0) /\
    does (allocate_clusters drv 1) b (Err NoSpace) b).
Proof.
  intros F. destruct (first_free drv b) as [c|] eqn:Hf.
  - left. destruct (first_free_some drv b c F Hf) as (Hin & H0 & Hl).
    pose proof (in_table_bound drv b c F Hin) as Hb.
    exists c, (set_fat drv b c END_OF_CHAIN). split_and!; [done|done|done|..].
    + by apply allocate_one_does.
    + constructor; [done|]. rewrite fat_set_same by done. unfold is_end. vm_compute. congruence.
    + intros x Hx Hne. apply fat_set_other; [done|done|lia|done].
  - right. split; [by apply first_free_none|]. apply allocate_full_does; [done|lia|done].
Qed.

(** Asking for two clusters yields one: the second search runs before the first
    cluster is marked, finds it again and links it to itself, and the end mark then
    overwrites that link. The chain handed back holds a single cluster and every other
    table entry is as before. *)
Theorem allocate_two_yields_one b c :
  fits drv b -> first_free drv b = Some c ->
  exists b', does (allocate_clusters drv 2) b (Ok c) b' /\ chain drv b' c [c] /\
    (forall x, 0 <= x < max_cluster drv -> x <> c -> fat drv b' x = fat drv b x).
Proof.
  intros F Hf. destruct (first_free_some drv b c F Hf) as (Hin & H0 & Hl).
  pose proof (in_table_bound drv b c F Hin) as Hb.
  pose proof (find_free_cluster_does b F) as Hfind. rewrite Hf in Hfind.
  assert (F1 : fits drv (set_fat drv b c c)) by (by apply fits_set_fat).
  exists (set_fat drv (set_fat drv b c c) c END_OF_CHAIN). split_and!.
  - unfold allocate_clusters. eapply runs_bind; [by apply runs_assert|].
    eapply runs_bind; [exact Hfind|]. eapply runs_bind.
    + cbn [Nat.sub allocate_rest]. eapply runs_bind; [exact Hfind|].
      eapply runs_bind; [by apply write_fat_entry_does|]. apply runs_ret.
    + eapply runs_bind; [by apply write_fat_entry_does|]. apply runs_ret.
  - constructor; [done|]. rewrite fat_set_same by done. unfold is_end. vm_compute. congruence.
  - intros x Hx Hne. rewrite !fat_set_other by (done || lia). done.
Qed.

(** C34: freeing a chain terminates and frees exactly its clusters: each of them reads as
    free afterwards, every other entry keeps its value and no data is touched. *)
Theorem free_chain_exact b c l :
  fits drv b -> chain drv b c l ->
  exists b', does (free_cluster_chain drv c) b (Ok tt) b' /\
    (forall x, x ∈ l -> fat drv b' x = 0) /\
    (forall x, 0 <= x -> x ∉ l -> fat drv b' x = fat drv b x) /\
    (forall x, in_table drv x -> cluster_data drv b' x = cluster_data drv b x).
Proof.
  intros F Hl. destruct (chain_in_table drv b c l Hl) as [Hin _].
  destruct (free_all_facts drv l b F Hin) as (_ & Ho & Hz & Hd).
  exists (free_all drv b l). split_and!; [|done..].
  apply (free_chain_does b c l F Hl b); [done|by apply (chain_nodup drv b c)|done|].
  by apply (chain_short drv b c).
Qed.

(** Measuring a chain ends with its length when the chain reaches an end mark, which
    [max_cluster] links always suffice for; on a table whose links run in a cycle it
    never returns, however long it runs. *)
Theorem chain_length_termination b c :
  fits drv b ->
  (forall l, chain drv b c l ->
    does (get_cluster_chain_length drv c) b (Ok (length l)) b /\
    (length l <= Z.to_nat (max_cluster drv))%nat) /\
  (forall cycle : Z -> Prop, cycle c ->
    (forall x, cycle x -> in_table drv x /\ cycle (fat drv b x)) ->
    forall fuel, does (chain_length drv fuel c 0) b OutOfFuel b).
Proof.
  intros F. split.
  - intros l Hl. split; [by apply get_cluster_chain_length_does|]. by apply (chain_short drv b c).
  - intros cycle Hc Hcy fuel. generalize 0%nat. revert c Hc.
    induction fuel as [|fuel IH]; intros c Hc n; cbn [chain_length].
    + intros d Hd. by exists d.
    + destruct (Hcy c Hc) as [Hin Hnx]. rewrite in_table_test by done.
      eapply runs_bind; [apply get_next_link; [done|done|by apply Hcy]|]. by apply IH.
Qed.

End chains.

(** ** Witnesses on the demo volume *)

Abbreviation demo_does c r b' := (runs (S:=MockDiskDevice.MockDiskDevice) (E:=FileSystemError)
  holds c demo_volume r b').

Lemma fat_write_isolated_witness :
  exists b', demo_does (write_fat_entry demo_drv 5 7) (Ok tt) b' /\
    runs holds (read_fat_entry demo_drv 5) b' (Ok (7 mod 2 ^ 28)) b'.
Proof.
  destruct (fat_write_isolated (D:=MockDiskDevice.MockDiskDevice) demo_drv demo_volume 5 7
    demo_fits ltac:(change (max_cluster demo_drv) with 8; lia)) as (b' & H1 & H2 & _).
  exists b'. split; [exact H1|exact H2].
Defined.

Lemma allocate_first_fit_witness :
  first_free demo_drv demo_volume = Some 5 /\
  exists c b', in_table demo_drv c /\ demo_does (allocate_clusters demo_drv 1) (Ok c) b'.
Proof.
  split; [vm_compute; reflexivity|].
  destruct (allocate_first_fit (D:=MockDiskDevice.MockDiskDevice) demo_drv demo_volume demo_fits)
    as [(c & b' & H1 & _ & _ & H2 & _)|[Hn _]].
  - exists c, b'. split; [exact H1|exact H2].
  - exfalso. apply (Hn 5); [apply demo_in_table; lia|by vm_compute].
Defined.

Lemma allocate_two_yields_one_witness :
  exists b', demo_does (allocate_clusters demo_drv 2) (Ok 5) b' /\ chain demo_drv b' 5 [5].
Proof.
  destruct (allocate_two_yields_one (D:=MockDiskDevice.MockDiskDevice) demo_drv demo_volume 5
    demo_fits ltac:(vm_compute; reflexivity)) as (b' & H1 & H2 & _).
  exists b'. split; [exact H1|exact H2].
Defined.

Lemma free_chain_exact_witness :
  exists b', demo_does (free_cluster_chain demo_drv 3) (Ok tt) b' /\
    (forall x, x ∈ [3; 4] -> fat demo_drv b' x = 0).
Proof.
  destruct (free_chain_exact (D:=MockDiskDevice.MockDiskDevice) demo_drv demo_volume 3 [3; 4]
    demo_fits demo_file_chain) as (b' & H1 & H2 & _).
  exists b'. split; [exact H1|exact H2].
Defined.

Lemma chain_length_termination_witness :
  demo_does (get_cluster_chain_length demo_drv 3) (Ok 2%nat) demo_volume.
Proof.
  exact (proj1 (proj1 (chain_length_termination (D:=MockDiskDevice.MockDiskDevice)
    demo_drv demo_volume 3 demo_fits) [3; 4] demo_file_chain)).
Defined.
