(* ===== verification/FatDir.v ===== *)
(** * FatDir: directories and file contents

    A directory is a cluster chain whose bytes are the records of its entries followed by
    zeros ([dir_repr]: what formatting and the driver itself leave), a file a cluster
    chain whose bytes, up to the size in its entry, are the contents. The theorems give
    the effect of the driver's reads and writes on these, whatever else the volume
    holds. *)

From Stdlib Require Import ZArith Lia.
From stdpp Require Import base tactics list option numbers.
From S2P Require Import Prelude Disk FsTypes DirEntry BootSector Fat32 FatTable FatDemo FatChain.

(** An entry that can stand in a directory: not the end mark. *)
Definition entry_live (e : DirectoryEntry) : Prop := entry_ok e /\ is_empty e = false.

Definition dir_bytes (es : list DirectoryEntry) : list Z := concat (as_bytes <$> es).

Definition dir_repr (drv : Fat32Driver) (b : list Z) (c : Z) (l : list Z)
    (es : list DirectoryEntry) : Prop :=
  chain drv b c l /\ Forall entry_live es /\
  exists k, chain_bytes drv b l = dir_bytes es ++ replicate k 0.

(** The entries after the record at index [j], at most one past the last, was written. *)
Definition put_entry (j : nat) (e : DirectoryEntry) (es : list DirectoryEntry)
    : list DirectoryEntry :=
  if decide (j < length es)%nat then <[ j := e ]> es else es ++ [e].

Lemma entry_live_length e : entry_live e -> length (as_bytes e) = 32%nat.
Proof. intros [[[? _] [? _] ? ? ? ? ? ? ? ? ? ? ? ?] _]. by apply length_as_bytes. Qed.

Lemma length_dir_bytes es : Forall entry_live es -> length (dir_bytes es) = (length es * 32)%nat.
Proof.
  unfold dir_bytes. induction 1 as [|e es He _ IH]; [done|].
  rewrite fmap_cons. cbn [concat length]. rewrite length_app, entry_live_length by done. lia.
Qed.

Lemma dir_bytes_app es es' : dir_bytes (es ++ es') = dir_bytes es ++ dir_bytes es'.
Proof. unfold dir_bytes. by rewrite fmap_app, concat_app. Qed.

Lemma dir_bytes_one e : dir_bytes [e] = as_bytes e.
Proof. apply app_nil_r. Qed.

Lemma dir_bytes_byte es : Forall entry_live es -> Forall byte (dir_bytes es).
Proof.
  unfold dir_bytes. induction 1 as [|e es [He _] _ IH]; [by apply Forall_nil|].
  rewrite fmap_cons. cbn [concat]. apply Forall_app. split; [by apply as_bytes_byte|done].
Qed.

(** The decoding loop reads exactly the live records. *)
Lemma parse_entries_repr n : forall es i buffer k,
  Forall entry_live es -> drop (i * 32) buffer = dir_bytes es ++ replicate k 0 ->
  (n * 32)%nat = length (dir_bytes es ++ replicate k 0) ->
  parse_entries n buffer i = Some es.
Proof.
  induction n as [|n IH]; intros es i buffer k Hes Hb Hn.
  - rewrite length_app, length_dir_bytes in Hn by done. destruct es; [done|simpl in Hn; lia].
  - cbn [parse_entries]. unfold DIRECTORY_ENTRY_SIZE, slice. rewrite Hb.
    destruct es as [|e es].
    + simpl in Hn. rewrite length_replicate in Hn. unfold dir_bytes. rewrite fmap_nil.
      cbn [concat app]. rewrite take_replicate, Nat.min_l by lia.
      change (from_bytes (replicate 32 0)) with (Some create_empty). done.
    + apply Forall_cons_iff in Hes as [[He Hne] Hes].
      pose proof (entry_live_length e (conj He Hne)) as Hl.
      unfold dir_bytes in *. rewrite fmap_cons in *. cbn [concat] in *. rewrite <- app_assoc in *.
      rewrite take_app_length' by done. rewrite from_as_bytes by done. cbn [mbind option_bind].
      rewrite Hne. rewrite (IH es (S i) buffer k); [done|done| |].
      * replace (S i * 32)%nat with (i * 32 + 32)%nat by lia. rewrite <- drop_drop, Hb.
        rewrite drop_app_length' by done. done.
      * rewrite length_app, Hl in Hn. lia.
Qed.

Lemma splice_app_r {A} (p l : list A) off new :
  splice (p ++ l) (length p + off) new = p ++ splice l off new.
Proof.
  unfold splice. rewrite take_app_add, <- app_assoc. do 3 f_equal.
  rewrite <- Nat.add_assoc. by rewrite drop_app_add.
Qed.

Lemma splice_app_here {A} (a x y c : list A) :
  length x = length y -> splice (a ++ x ++ c) (length a) y = a ++ y ++ c.
Proof.
  intros Hl. rewrite <- (Nat.add_0_r (length a)), splice_app_r. f_equal.
  unfold splice. by rewrite take_0, app_nil_l, Nat.add_0_l, <- Hl, drop_app_length.
Qed.

Lemma dir_bytes_put es j e k :
  Forall entry_live es -> entry_live e -> (j <= length es)%nat ->
  (j < length es \/ 32 <= k)%nat ->
  exists k', splice (dir_bytes es ++ replicate k 0) (j * 32) (as_bytes e) =
    dir_bytes (put_entry j e es) ++ replicate k' 0.
Proof.
  intros Hes He Hj Hk. pose proof (entry_live_length e He) as Hl.
  unfold put_entry. case_decide as Hd.
  - exists k. destruct (lookup_lt_is_Some_2 es j Hd) as [x Hx].
    apply list_elem_of_split_length in Hx as (l1 & l2 & -> & ->).
    rewrite insert_app_r_alt, Nat.sub_diag by done. cbn [insert list_insert].
    change (x :: l2) with ([x] ++ l2). change (e :: l2) with ([e] ++ l2).
    rewrite !dir_bytes_app, <- !app_assoc.
    apply Forall_app in Hes as [H1 H2]. apply Forall_cons_iff in H2 as [Hx' H2].
    rewrite <- (length_dir_bytes l1) by done. rewrite splice_app_here.
    + by rewrite dir_bytes_one.
    + by rewrite dir_bytes_one, entry_live_length, Hl.
  - exists (k - 32)%nat. assert (j = length es) as -> by lia.
    replace (replicate k 0) with (replicate 32 0 ++ replicate (k - 32) 0)
      by (rewrite <- replicate_add; f_equal; lia).
    rewrite <- (length_dir_bytes es) by done. rewrite splice_app_here
      by (rewrite length_replicate; done).
    rewrite dir_bytes_app, <- app_assoc. by rewrite dir_bytes_one.
Qed.

Lemma put_entry_live j e es :
  Forall entry_live es -> entry_live e -> Forall entry_live (put_entry j e es).
Proof.
  intros. unfold put_entry. case_decide.
  - by apply Forall_insert.
  - apply Forall_app. split; [done|]. apply Forall_cons; [done|by apply Forall_nil].
Qed.

Section directories.
Context {D : Type} `{DL : DiskLaws D}.
Variable drv : Fat32Driver.
Implicit Types b : list Z.

Abbreviation does c b r b' := (runs (S:=D) (E:=FileSystemError) holds c b r b').

Lemma dir_repr_parse b c l es :
  fits drv b -> dir_repr drv b c l es ->
  parse_entries (length l * cs drv / DIRECTORY_ENTRY_SIZE) (chain_bytes drv b l) 0 = Some es.
Proof.
  intros F (Hl & Hes & k & Hk). destruct (chain_in_table drv b c l Hl) as [Hin _].
  apply (parse_entries_repr _ es 0 _ k); [done|by rewrite drop_0|].
  rewrite <- Hk, (length_chain_bytes drv b l F Hin). unfold DIRECTORY_ENTRY_SIZE.
  assert (Hcs : cs drv = (Z.to_nat (sectors_per_cluster drv) * 16 * 32)%nat).
  { destruct F. unfold cs, SECTOR_SIZE in *. lia. }
  rewrite Hcs. rewrite !Nat.mul_assoc, Nat.div_mul by lia. done.
Qed.

Lemma read_directory_entries_does b c l es :
  fits drv b -> dir_repr drv b c l es -> does (read_directory_entries drv c) b (Ok es) b.
Proof.
  intros F R. pose proof (dir_repr_parse b c l es F R) as Hp. destruct R as (Hl & _ & _).
  unfold read_directory_entries. eapply runs_bind; [by apply read_dir_buffer_does|].
  cbv beta iota. rewrite Hp. apply runs_ret.
Qed.

(** A directory that later writes leave alone keeps its entries. *)
Lemma dir_repr_ext b b' c l es :
  (forall x, x ∈ l -> fat drv b' x = fat drv b x) ->
  (forall x, x ∈ l -> cluster_data drv b' x = cluster_data drv b x) ->
  dir_repr drv b c l es -> dir_repr drv b' c l es.
Proof.
  intros Hf Hd (Hl & Hes & k & Hk). split; [by eapply chain_ext|]. split; [done|].
  exists k. by rewrite <- Hk, (chain_bytes_ext drv b b').
Qed.

Lemma chain_bytes_byte b l :
  fits drv b -> Forall (in_table drv) l -> Forall byte b -> Forall byte (chain_bytes drv b l).
Proof.
  intros F Hl Hb. unfold chain_bytes. induction Hl as [|x l Hx _ IH]; [by apply Forall_nil|].
  rewrite fmap_cons. cbn [concat]. apply Forall_app. split; [by apply byte_slice|done].
Qed.

(** Writing one record: its slot changes, no other cluster of the volume does. *)
Lemma write_direntry_does b c l es j e :
  fits drv b -> dir_repr drv b c l es -> entry_live e ->
  (j <= length es)%nat -> ((j + 1) * 32 <= length l * cs drv)%nat ->
  exists b', does (write_direntry drv c j e) b (Ok tt) b' /\
    fits drv b' /\ dir_repr drv b' c l (put_entry j e es) /\
    (forall x, 0 <= x < max_cluster drv -> fat drv b' x = fat drv b x) /\
    (forall x, in_table drv x -> x ∉ l -> cluster_data drv b' x = cluster_data drv b x).
Proof.
  intros F (Hl & Hes & k & Hk) He Hj Hroom.
  destruct (chain_in_table drv b c l Hl) as [Hin Hh].
  pose proof (length_chain_bytes drv b l F Hin) as Hlen.
  pose proof (chain_nodup drv b c l F Hl) as Hnd.
  pose proof (entry_live_length e He) as Hle. destruct (cs_pos drv b F) as [Hcs _].
  set (buf := splice (chain_bytes drv b l) (j * 32) (as_bytes e)).
  assert (Hbl : length buf = (length l * cs drv)%nat).
  { unfold buf. rewrite length_splice; [done|]. rewrite Hle, Hlen. lia. }
  destruct (put_chain_facts drv l b buf F Hin Hbl) as (F' & Hlb & Hfat & Hd).
  exists (put_chain drv b l buf). split_and!; [|done| |done|done].
  - apply does_bytes. intros Hb. unfold write_direntry.
    eapply runs_bind; [by apply read_dir_buffer_does|]. cbv beta iota.
    unfold DIRECTORY_ENTRY_SIZE.
    destruct (Nat.ltb_spec (length l * cs drv) (j * 32 + 32)); [lia|]. fold buf.
    replace (put_chain drv b l buf) with (put_chain drv b l (drop 0 buf)) by (by rewrite drop_0).
    apply (write_chain_does drv b c l F Hl b _ 0 buf F); try done; try lia.
    unfold buf. apply byte_splice; [by apply chain_bytes_byte|apply as_bytes_byte, He].
  - assert (Hkr : (j < length es \/ 32 <= k)%nat).
    { rewrite Hk, length_app, length_dir_bytes, length_replicate in Hlen by done. lia. }
    destruct (dir_bytes_put es j e k Hes He Hj Hkr) as (k' & Hk').
    split.
    + apply (chain_ext drv b); [|done]. intros x Hx. apply Hfat.
      rewrite Forall_forall in Hin. apply list_elem_of_In in Hx. specialize (Hin x Hx).
      by apply (in_table_bound drv b).
    + split; [by apply put_entry_live|]. exists k'.
      rewrite put_chain_bytes by done. unfold buf. by rewrite Hk.
Qed.

(** The directory is updated in place: writing a record to a slot of a directory, or to
    the first slot after its last entry, makes the listing that list with that slot
    replaced or appended, and no table entry and no cluster outside the directory
    changes. *)
Theorem direntry_write_read b c l es j e :
  fits drv b -> dir_repr drv b c l es -> entry_live e ->
  (j <= length es)%nat -> ((j + 1) * 32 <= length l * cs drv)%nat ->
  exists b', does (write_direntry drv c j e) b (Ok tt) b' /\
    does (read_directory_entries drv c) b'
      (Ok (if decide (j < length es)%nat then <[ j := e ]> es else es ++ [e])) b' /\
    (forall x, 0 <= x < max_cluster drv -> fat drv b' x = fat drv b x) /\
    (forall x, in_table drv x -> x ∉ l -> cluster_data drv b' x = cluster_data drv b x).
Proof.
  intros F R He Hj Hr. destruct (write_direntry_does b c l es j e F R He Hj Hr)
    as (b' & Hw & F' & R' & Hf & Hd).
  exists b'. split_and!; [done| |done|done]. by apply (read_directory_entries_does b' c l).
Qed.

End directories.

(** ** Witness on the demo volume *)

Lemma demo_entry_live : entry_live demo_entry.
Proof.
  split; [|by vm_compute].
  constructor; try (split; vm_compute; congruence); try (vm_compute; congruence);
    (split; [by vm_compute|by apply all_bytes; vm_compute]).
Qed.

Lemma demo_dir : dir_repr demo_drv demo_volume 2 [2] [demo_entry].
Proof.
  split; [apply demo_root_chain|]. split.
  - apply Forall_cons; [apply demo_entry_live|by apply Forall_nil].
  - exists 480%nat. vm_compute. reflexivity.
Qed.

Lemma direntry_write_read_witness :
  exists b', demo_does (write_direntry demo_drv 2 1 demo_entry) (Ok tt) b' /\
    runs (S:=MockDiskDevice.MockDiskDevice) (E:=FileSystemError) holds
      (read_directory_entries demo_drv 2) b' (Ok [demo_entry; demo_entry]) b'.
Proof.
  destruct (direntry_write_read (D:=MockDiskDevice.MockDiskDevice) demo_drv demo_volume 2 [2]
    [demo_entry] 1 demo_entry demo_fits demo_dir demo_entry_live ltac:(simpl; lia)
    ltac:(vm_compute; lia)) as (b' & H1 & H2 & _).
  exists b'. split; [exact H1|exact H2].
Defined.
