(* ===== verification/FatFile.v ===== *)
(** * FatFile: reading and writing files

    A file is an entry of a directory and the cluster chain that entry starts; its
    contents are the first [file_size] bytes of the chain. [read_file] and [write_file]
    are shown to be the read and the overwrite of that byte string, across cluster
    boundaries and with the chain grown where the write needs it. *)

From Stdlib Require Import ZArith Lia.
From stdpp Require Import base tactics list option numbers.
From S2P Require Import Prelude Disk FsTypes DirEntry BootSector Fat32 FatTable FatDemo FatChain FatDir.

(** Entry [e] of the directory [pc], whose chain is [pl] and whose entries are [es], is the
    [j]-th and names a file with the chain [fl]. *)
Record file_repr (drv : Fat32Driver) (b : list Z) (pc : Z) (pl : list Z)
    (es : list DirectoryEntry) (j : nat) (e : DirectoryEntry) (fl : list Z) : Prop := {
  file_dir : dir_repr drv b pc pl es;
  file_found : find_index (fun x => get_first_cluster x =? get_first_cluster e) es 0 = Some (j, e);
  file_live : is_deleted e = false;
  file_chain : chain drv b (get_first_cluster e) fl;
  file_room : 0 <= file_size e <= Z.of_nat (length fl * cs drv);
  file_apart : forall x, x ∈ fl -> x ∉ pl;
}.

Definition contents (drv : Fat32Driver) (b : list Z) (e : DirectoryEntry) (fl : list Z) : list Z :=
  take (Z.to_nat (file_size e)) (chain_bytes drv b fl).

(** [id] is a node id of the file: what [encode_node_id] makes of its entry. *)
Definition names_file (id pc : Z) (e : DirectoryEntry) : Prop :=
  exists a, decode_node_id id = (get_first_cluster e, pc, a) /\ is_directory a = false.

(** The free entries among the [n] from [c] on, and those of the table. *)
Fixpoint count_free (drv : Fat32Driver) (b : list Z) (n : nat) (c : Z) : nat :=
  match n with
  | O => O
  | S n => ((if (fat drv b c =? 0)%Z then 1 else 0) + count_free drv b n (c + 1))%nat
  end.

Definition free_count (drv : Fat32Driver) (b : list Z) : nat :=
  count_free drv b (Z.to_nat (max_cluster drv - ROOT_CLUSTER)) ROOT_CLUSTER.

(** The clusters that hold [n] bytes. *)
Definition clusters_for (drv : Fat32Driver) (n : nat) : nat := ((n + cs drv - 1) / cs drv)%nat.

(** The chain [l] from [fc] was written to and grown to [l'] on free clusters; every other
    allocated cluster kept its entry and its data. *)
Record grown (drv : Fat32Driver) (fc : Z) (b : list Z) (l : list Z) (b' : list Z) (l' : list Z)
    : Prop := {
  grown_fits : fits drv b';
  grown_chain : chain drv b' fc l';
  grown_prefix : l `prefix_of` l';
  grown_new : forall x, x ∈ l' -> x ∉ l -> fat drv b x = 0;
  grown_fat : forall x, in_table drv x -> x ∉ l -> fat drv b x <> 0 ->
    fat drv b' x = fat drv b x;
  grown_data : forall x, in_table drv x -> x ∉ l -> fat drv b x <> 0 ->
    cluster_data drv b' x = cluster_data drv b x;
  grown_count : (free_count drv b' + length l' = free_count drv b + length l)%nat;
}.

Section growing.
Variable drv : Fat32Driver.
Implicit Types b : list Z.

Lemma count_free_ext b b' n : forall c,
  (forall x, c <= x < c + Z.of_nat n -> fat drv b' x = 0 <-> fat drv b x = 0) ->
  count_free drv b' n c = count_free drv b n c.
Proof.
  induction n as [|n IH]; intros c He; cbn [count_free]; [done|].
  rewrite (IH (c + 1)) by (intros x Hx; apply He; lia).
  specialize (He c ltac:(lia)).
  destruct (Z.eqb_spec (fat drv b' c) 0), (Z.eqb_spec (fat drv b c) 0); tauto.
Qed.

Lemma count_free_take b b' z n : forall c,
  c <= z < c + Z.of_nat n -> fat drv b z = 0 -> fat drv b' z <> 0 ->
  (forall x, c <= x < c + Z.of_nat n -> x <> z -> fat drv b' x = 0 <-> fat drv b x = 0) ->
  count_free drv b n c = S (count_free drv b' n c).
Proof.
  induction n as [|n IH]; intros c Hz H0 H1 He; cbn [count_free]; [lia|].
  destruct (decide (z = c)) as [->|Hne].
  - rewrite (count_free_ext b b' n (c + 1)) by (intros x Hx; apply He; lia).
    destruct (Z.eqb_spec (fat drv b' c) 0), (Z.eqb_spec (fat drv b c) 0); tauto || lia.
  - rewrite (IH (c + 1)) by (done || lia || (intros x Hx; apply He; lia)).
    specialize (He c ltac:(lia) ltac:(done)).
    destruct (Z.eqb_spec (fat drv b' c) 0), (Z.eqb_spec (fat drv b c) 0); tauto || lia.
Qed.

Lemma count_free_pos b n : forall c, (0 < count_free drv b n c)%nat ->
  exists z, free_from drv b n c = Some z.
Proof.
  induction n as [|n IH]; intros c; cbn [count_free free_from]; [lia|].
  destruct (Z.eqb_spec (fat drv b c) 0); [eauto|]. intros H. by apply IH.
Qed.

Lemma clusters_for_le b n k :
  fits drv b -> (clusters_for drv n <= k)%nat <-> (n <= k * cs drv)%nat.
Proof.
  intros F. destruct (cs_pos drv b F) as [Hcs _]. unfold clusters_for.
  pose proof (Nat.div_mod (n + cs drv - 1) (cs drv) ltac:(lia)).
  pose proof (Nat.mod_upper_bound (n + cs drv - 1) (cs drv) ltac:(lia)). nia.
Qed.

Lemma chain_fat_nonzero b c l x : fits drv b -> chain drv b c l -> x ∈ l -> fat drv b x <> 0.
Proof.
  intros F. induction 1 as [c Hc He|c l Hc Hn Hl IH]; intros Hx.
  - apply list_elem_of_singleton in Hx as ->. unfold is_end, FAT_ENTRY_RESERVED_BEGIN in He. lia.
  - apply elem_of_cons in Hx as [->|Hx]; [|by apply IH].
    destruct Hn. unfold ROOT_CLUSTER in *. lia.
Qed.

Lemma chain_in b c l x : chain drv b c l -> x ∈ l -> in_table drv x.
Proof.
  intros Hl Hx. destruct (chain_in_table drv b c l Hl) as [Hin _].
  rewrite Forall_forall in Hin. by apply Hin, list_elem_of_In.
Qed.

Lemma grown_refl fc b l : fits drv b -> chain drv b fc l -> grown drv fc b l b l.
Proof. intros. by constructor. Qed.

Lemma grown_trans fc b l b1 l1 b2 l2 :
  grown drv fc b l b1 l1 -> grown drv fc b1 l1 b2 l2 -> grown drv fc b l b2 l2.
Proof.
  intros G1 G2.
  assert (Hout : forall x, in_table drv x -> x ∉ l -> fat drv b x <> 0 ->
    (x ∉ l1) /\ fat drv b1 x <> 0).
  { intros x Hin Hx H0. split.
    - intros Hx1. apply H0. by apply (grown_new _ _ _ _ _ _ G1).
    - by rewrite (grown_fat _ _ _ _ _ _ G1). }
  constructor.
  - apply G2.
  - apply G2.
  - etransitivity; [apply G1|apply G2].
  - intros x Hx2 Hx. pose proof (chain_in _ _ _ _ (grown_chain _ _ _ _ _ _ G2) Hx2) as Hin.
    destruct (decide (fat drv b x = 0)) as [|H0]; [done|].
    destruct (Hout x Hin Hx H0) as [Hx1 H1]. destruct H1. by apply (grown_new _ _ _ _ _ _ G2).
  - intros x Hin Hx H0. destruct (Hout x Hin Hx H0) as [Hx1 H1].
    rewrite (grown_fat _ _ _ _ _ _ G2) by done. by apply (grown_fat _ _ _ _ _ _ G1).
  - intros x Hin Hx H0. destruct (Hout x Hin Hx H0) as [Hx1 H1].
    rewrite (grown_data _ _ _ _ _ _ G2) by done. by apply (grown_data _ _ _ _ _ _ G1).
  - pose proof (grown_count _ _ _ _ _ _ G1). pose proof (grown_count _ _ _ _ _ _ G2). lia.
Qed.

(** Writing inside a cluster of the chain. *)
Lemma grown_set_data fc b l x data :
  fits drv b -> chain drv b fc l -> x ∈ l -> length data = cs drv ->
  grown drv fc b l (set_data drv b x data) l.
Proof.
  intros F Hl Hx Hd. pose proof (chain_in b fc l x Hl Hx) as Hin.
  assert (Hf : forall y, 0 <= y < max_cluster drv ->
    fat drv (set_data drv b x data) y = fat drv b y) by (intros; by apply fat_set_data).
  constructor.
  - by apply fits_set_data.
  - apply (chain_ext drv b); [|done]. intros y Hy.
    apply Hf, (in_table_bound drv b); [done|]. by eapply chain_in.
  - done.
  - done.
  - intros y Hy _ _. by apply Hf, (in_table_bound drv b).
  - intros y Hy Hn _. apply cluster_data_set_other; [done|done|done| |done]. by intros ->.
  - f_equal. apply count_free_ext. intros y Hy. rewrite Hf; [done|].
    unfold ROOT_CLUSTER in *. destruct F. unfold ROOT_CLUSTER in *. lia.
Qed.

(** The new last link: [y] used to end the chain, [z] was free. *)
Definition linked b (y z : Z) : list Z := set_fat drv (fresh drv b z) y z.

Lemma chain_snoc b b' c l y z : forall c0,
  chain drv b c (l ++ [y]) ->
  (forall x, x ∈ l -> fat drv b' x = fat drv b x) ->
  in_table drv z -> fat drv b' y = z -> is_end (fat drv b' z) ->
  c0 = c -> chain drv b' c0 (l ++ [y; z]).
Proof.
  revert c. induction l as [|x l IH]; intros c c0 Hc Hf Hz Hy He ->; cbn [app] in *.
  - inversion Hc as [? Hin ? Heq|? ? Hin Hn Hl Heq]; [|by inversion Hl].
    subst. constructor; [done|done|]. by constructor.
  - inversion Hc as [? ? ? Heq|? ? Hin Hn Hl Heq]; [by destruct l|]. subst.
    assert (Hx : fat drv b' x = fat drv b x) by (apply Hf, list_elem_of_here).
    constructor; rewrite ?Hx; [done|done|]. eapply IH; [done| |done|done|done|done].
    intros w Hw. apply Hf. by apply list_elem_of_further.
Qed.

Lemma grown_extend fc b l y z :
  fits drv b -> chain drv b fc (l ++ [y]) -> first_free drv b = Some z ->
  grown drv fc b (l ++ [y]) (linked b y z) (l ++ [y; z]) /\
  chain_bytes drv (linked b y z) (l ++ [y; z]) = chain_bytes drv b (l ++ [y]) ++ zeros drv.
Proof.
  intros F Hl Hz. destruct (first_free_some drv b z F Hz) as (Hzin & Hz0 & _).
  destruct (fresh_facts drv b z F Hzin) as (F1 & Hzend & Hzf & Hzd & Hzo).
  assert (Hyl : y ∈ l ++ [y]) by (apply elem_of_app; right; apply list_elem_of_here).
  pose proof (chain_in b fc _ y Hl Hyl) as Hyin.
  pose proof (chain_nodup drv b fc _ F Hl) as Hnd.
  pose proof (in_table_bound drv b y F Hyin) as Hyb.
  pose proof (in_table_bound drv b z F Hzin) as Hzb.
  assert (Hzl : z ∉ l ++ [y]) by (intros Hz'; by destruct (chain_fat_nonzero b fc _ z F Hl Hz')).
  assert (Hyz : y <> z) by (by intros ->).
  assert (Hfo : forall x, 0 <= x < max_cluster drv -> x <> y -> x <> z ->
    fat drv (linked b y z) x = fat drv b x).
  { intros x Hx ? ?. unfold linked. rewrite fat_set_other by (done || lia). by apply Hzf. }
  assert (Hdo : forall x, in_table drv x -> x <> z ->
    cluster_data drv (linked b y z) x = cluster_data drv b x).
  { intros x Hx ?. unfold linked. rewrite cluster_data_set_fat by done. by apply Hzo. }
  assert (Hfy : fat drv (linked b y z) y = z).
  { unfold linked. rewrite fat_set_same by done. apply Z.mod_small.
    destruct F. unfold MAX_CLUSTER in *. lia. }
  assert (Hfz : fat drv (linked b y z) z = END_OF_CHAIN).
  { unfold linked. rewrite fat_set_other by (done || lia). done. }
  assert (Hdz : cluster_data drv (linked b y z) z = zeros drv).
  { unfold linked. by rewrite cluster_data_set_fat. }
  assert (Hly : forall x, x ∈ l -> x <> y).
  { intros x Hx ->. apply list.NoDup_app in Hnd as (_ & Hd & _). apply (Hd y Hx), list_elem_of_here. }
  split; [constructor|].
  - by apply fits_set_fat.
  - apply (chain_snoc b _ fc); [done| |done|done| |done].
    + intros x Hx. pose proof (Hly x Hx). apply Hfo; [|done|].
      * apply (in_table_bound drv b); [done|]. eapply chain_in; [exact Hl|].
        apply elem_of_app. by left.
      * intros ->. apply Hzl, elem_of_app. by left.
    + rewrite Hfz. vm_compute. congruence.
  - exists [z]. by rewrite <- app_assoc.
  - intros x Hx Hn. change [y; z] with ([y] ++ [z]) in Hx. rewrite app_assoc in Hx.
    apply elem_of_app in Hx as [|Hx]; [done|]. by apply list_elem_of_singleton in Hx as ->.
  - intros x Hx Hn H0. apply Hfo; [by apply (in_table_bound drv b)| |]; by intros ->.
  - intros x Hx Hn H0. apply Hdo; [done|]. by intros ->.
  - rewrite !length_app. cbn [length]. unfold free_count.
    rewrite (count_free_take b (linked b y z) z _ ROOT_CLUSTER); [lia| |done| |].
    + destruct Hzin. lia.
    + by rewrite Hfz.
    + intros x Hx Hne. assert (0 <= x < max_cluster drv).
      { destruct F. unfold ROOT_CLUSTER in *. lia. }
      destruct (decide (x = y)) as [->|]; [|by rewrite Hfo].
      rewrite Hfy. pose proof (chain_fat_nonzero b fc _ y F Hl Hyl).
      destruct Hzin. unfold ROOT_CLUSTER in *. lia.
  - change [y; z] with ([y] ++ [z]). rewrite app_assoc.
    unfold chain_bytes. rewrite (fmap_app _ (l ++ [y])), concat_app. f_equal.
    + apply chain_bytes_ext. intros x Hx. apply Hdo; [by eapply chain_in|]. by intros ->.
    + cbn [fmap list_fmap concat]. by rewrite Hdz, app_nil_r.
Qed.

(** Patching the cluster at index [length l1] patches the chain's bytes. *)
Lemma chain_bytes_patch fc b l1 x l2 o new :
  fits drv b -> chain drv b fc (l1 ++ x :: l2) -> (o + length new <= cs drv)%nat ->
  chain_bytes drv (set_data drv b x (splice (cluster_data drv b x) o new)) (l1 ++ x :: l2) =
    splice (chain_bytes drv b (l1 ++ x :: l2)) (length l1 * cs drv + o) new.
Proof.
  intros F Hl Ho. destruct (chain_in_table drv b fc _ Hl) as [Hin _].
  pose proof (chain_nodup drv b fc _ F Hl) as Hnd.
  apply Forall_app in Hin as [Hin1 Hin2]. apply Forall_cons_iff in Hin2 as [Hx Hin2].
  pose proof (length_cluster_data drv b x F Hx) as Hcl.
  apply list.NoDup_app in Hnd as (_ & Hd1 & Hnd2). pose proof (NoDup_cons_1_1 _ _ Hnd2) as Hnx.
  assert (Hlen : length (splice (cluster_data drv b x) o new) = cs drv)
    by (rewrite length_splice by lia; done).
  unfold chain_bytes. rewrite !fmap_app, !concat_app, !fmap_cons. cbn [concat].
  fold (chain_bytes drv b l1). rewrite <- (length_chain_bytes drv b l1 F Hin1).
  rewrite splice_app_r. f_equal.
  - unfold chain_bytes. f_equal. apply list_fmap_ext. intros i y Hy.
    apply list_elem_of_lookup_2 in Hy. apply cluster_data_set_other; [done|done| | |done].
    + rewrite Forall_forall in Hin1. by apply Hin1, list_elem_of_In.
    + intros ->. apply (Hd1 y Hy), list_elem_of_here.
  - rewrite splice_app_l by lia. rewrite cluster_data_set_same by done. do 2 f_equal.
    apply list_fmap_ext. intros i y Hy.
    apply list_elem_of_lookup_2 in Hy. apply cluster_data_set_other; [done|done| | |done].
    + rewrite Forall_forall in Hin2. by apply Hin2, list_elem_of_In.
    + by intros ->.
Qed.

End growing.

Section files.
Context {D : Type} `{DL : DiskLaws D}.
Variable drv : Fat32Driver.
Implicit Types b : list Z.

Abbreviation does c b r b' := (runs (S:=D) (E:=FileSystemError) holds c b r b').

Lemma skip_clusters_does b l1 x l2 : fits drv b -> forall c,
  chain drv b c (l1 ++ x :: l2) ->
  does (skip_clusters drv (length l1) c) b (Ok (Some x)) b.
Proof.
  intros F. induction l1 as [|y l1 IH]; intros c Hc; cbn [length skip_clusters].
  - destruct (chain_in_table drv b _ _ Hc) as [_ Hh]. simpl in Hh. injection Hh as ->.
    apply runs_ret.
  - inversion Hc as [? ? ? Heq|? ? Hin Hn Hl]; subst; [by destruct l1|].
    eapply runs_bind; [by apply get_next_link|]. by apply IH.
Qed.

Lemma find_entry_by_cluster_does b pc pl es c j e :
  fits drv b -> dir_repr drv b pc pl es ->
  find_index (fun x => get_first_cluster x =? c) es 0 = Some (j, e) ->
  does (find_entry_by_cluster drv pc c) b (Ok e) b.
Proof.
  intros F R Hf. unfold find_entry_by_cluster.
  eapply runs_bind; [by eapply read_directory_entries_does|]. rewrite Hf. apply runs_ret.
Qed.

Lemma read_loop_does b x l : fits drv b -> chain drv b x l ->
  forall fuel t o m out, (o < cs drv)%nat -> (t < m)%nat -> (m <= length out)%nat ->
  (m - t + o <= length l * cs drv)%nat -> (m - t < fuel)%nat ->
  does (read_loop drv fuel x t o m out) b
    (Ok (m, splice out t (slice (chain_bytes drv b l) o (m - t)))) b.
Proof.
  intros F. induction 1 as [c Hc He|c l Hc Hn Hl IH]; intros fuel t o m out Ho Ht Hm Hr Hf;
    (destruct fuel as [|fuel]; [lia|]); cbn [read_loop]; fold (cs drv);
    rewrite (proj2 (Nat.ltb_lt t m) Ht);
    (eapply runs_bind; [by apply read_cluster_does|]);
    pose proof (length_cluster_data drv b c F Hc) as Hcl; cbn [length] in Hr.
  - rewrite Nat.min_r by lia. destruct (Nat.ltb_spec (t + (m - t)) m); [lia|].
    replace (t + (m - t))%nat with m by lia. unfold chain_bytes.
    cbn [fmap list_fmap concat]. rewrite app_nil_r. apply runs_ret.
  - unfold chain_bytes. rewrite fmap_cons. cbn [concat]. fold (chain_bytes drv b l).
    destruct (Nat.le_gt_cases (m - t + o) (cs drv)) as [Hle|Hgt].
    + rewrite Nat.min_r by lia. destruct (Nat.ltb_spec (t + (m - t)) m); [lia|].
      replace (t + (m - t))%nat with m by lia. rewrite slice_app_l by lia. apply runs_ret.
    + rewrite Nat.min_l by lia. destruct (Nat.ltb_spec (t + (cs drv - o)) m); [|lia].
      eapply runs_bind; [by apply get_next_link|].
      assert (Hsl : length (slice (cluster_data drv b c) o (cs drv - o)) = (cs drv - o)%nat)
        by (apply length_slice; lia).
      destruct (chain_in_table drv b _ _ Hl) as [Hin _].
      pose proof (length_chain_bytes drv b l F Hin) as Hbl.
      replace (m - t)%nat with (length (cluster_data drv b c) - o + (m - (t + (cs drv - o))))%nat
        by lia.
      rewrite slice_app_mid by lia. rewrite Hcl.
      rewrite <- splice_splice_app, Hsl
        by (rewrite Hsl, length_slice by lia; lia).
      apply IH; try lia. rewrite length_splice by lia. lia.
Qed.

Lemma split_at_index (l : list Z) i :
  (i < length l)%nat -> exists l1 x l2, l = l1 ++ x :: l2 /\ i = length l1.
Proof.
  intros Hi. destruct (lookup_lt_is_Some_2 l i Hi) as [x Hx].
  apply list_elem_of_split_length in Hx as (l1 & l2 & -> & ->). eauto.
Qed.

Lemma chain_bytes_app b l1 l2 :
  chain_bytes drv b (l1 ++ l2) = chain_bytes drv b l1 ++ chain_bytes drv b l2.
Proof. unfold chain_bytes. by rewrite fmap_app, concat_app. Qed.

Lemma first_cluster_pos b c l : fits drv b -> chain drv b c l -> (c =? 0) = false.
Proof.
  intros F Hl. destruct (chain_in_table drv b c l Hl) as [Hin Hh].
  destruct l; [done|]. injection Hh as ->. apply Forall_cons_iff in Hin as [[? _] _].
  unfold ROOT_CLUSTER in *. apply Z.eqb_neq. lia.
Qed.

Lemma read_file_does b pc pl es j e fl id offset out :
  fits drv b -> file_repr drv b pc pl es j e fl -> names_file id pc e -> 0 <= offset ->
  let n := Nat.min (length out) (Z.to_nat (file_size e - offset)) in
  does (read_file drv id offset out) b
    (Ok (Z.of_nat n, splice out 0 (slice (contents drv b e fl) (Z.to_nat offset) n))) b.
Proof.
  intros F [Hdir Hfind Hlive Hl Hroom Hap] (a & Hid & Ha) Hoff n.
  destruct (cs_pos drv b F) as [Hcs Hce]. unfold read_file. rewrite Hid, Ha.
  rewrite (first_cluster_pos b _ fl F Hl).
  eapply runs_bind; [by eapply find_entry_by_cluster_does|].
  destruct (Z.leb_spec (file_size e) offset) as [Hle|Hlt].
  { replace n with 0%nat by lia. unfold slice. rewrite take_0, splice_nil. apply runs_ret. }
  rewrite Hce. destruct (Z.eqb_spec (Z.of_nat (cs drv)) 0); [lia|].
  set (q := Z.to_nat (offset / Z.of_nat (cs drv))). set (o := Z.to_nat (offset mod Z.of_nat (cs drv))).
  assert (Hqo : Z.to_nat offset = (q * cs drv + o)%nat /\ (o < cs drv)%nat).
  { pose proof (Z_div_mod_eq_full offset (Z.of_nat (cs drv))).
    pose proof (Z.mod_pos_bound offset (Z.of_nat (cs drv)) ltac:(lia)).
    assert (0 <= offset / Z.of_nat (cs drv)) by (apply Z.div_pos; lia). unfold q, o. nia. }
  destruct Hqo as [Hqo Ho].
  assert (Hq : (q < length fl)%nat) by nia.
  destruct (split_at_index fl q Hq) as (l1 & x & l2 & -> & Hq1). rewrite Hq1 in *.
  eapply runs_bind; [by eapply skip_clusters_does|].
  fold n. destruct (decide (n = 0)%nat) as [Hn0|Hn0].
  { eapply runs_bind.
    - rewrite Hn0. cbn [read_loop]. apply runs_ret.
    - rewrite Hn0. unfold slice. rewrite take_0, splice_nil. apply runs_ret. }
  assert (Hfit : (n + o <= length (x :: l2) * cs drv)%nat).
  { rewrite length_app in *. cbn [length] in *. nia. }
  eapply runs_bind.
  { apply (read_loop_does b x (x :: l2)); [done|by eapply chain_suffix|lia|lia|lia|lia|lia]. }
  cbn [fst snd].
  replace (slice (contents drv b e (l1 ++ x :: l2)) (Z.to_nat offset) n)
    with (slice (chain_bytes drv b (x :: l2)) o (n - 0)); [apply runs_ret|].
  unfold contents. rewrite slice_take by lia. rewrite chain_bytes_app, Hqo, Nat.sub_0_r.
  destruct (chain_in_table drv b _ _ Hl) as [Hin _]. apply Forall_app in Hin as [Hin _].
  rewrite <- (length_chain_bytes drv b l1 F Hin). unfold slice.
  rewrite drop_app_add. done.
Qed.

(** C33: [read_file] reads the file: the bytes of the contents from the offset on, as many
    as the buffer and the file hold, across cluster boundaries; past the end it reads
    nothing; the rest of the buffer and the volume are left alone. The id of a
    directory is refused. *)
Theorem read_file_contents b pc pl es j e fl id offset out :
  fits drv b -> file_repr drv b pc pl es j e fl -> names_file id pc e -> 0 <= offset ->
  let n := Nat.min (length out) (Z.to_nat (file_size e - offset)) in
  does (read_file drv id offset out) b
    (Ok (Z.of_nat n, splice out 0 (slice (contents drv b e fl) (Z.to_nat offset) n))) b /\
  (forall dir, is_directory (decode_node_id dir).2 = true ->
    does (read_file drv dir offset out) b (Err IsDirectory) b).
Proof.
  intros F FR Hid Hoff n. split; [by eapply read_file_does|].
  intros dir Hd. unfold read_file. destruct (decode_node_id dir) as [[? ?] at0]. simpl in Hd.
  rewrite Hd. apply runs_err.
Qed.

(** ** Growing and writing *)

Lemma extend_chain_does b fc l y z :
  fits drv b -> chain drv b fc (l ++ [y]) -> first_free drv b = Some z ->
  does (extend_chain drv y) b (Ok z) (linked drv b y z).
Proof.
  intros F Hl Hz. destruct (first_free_some drv b z F Hz) as (Hzin & _).
  destruct (fresh_facts drv b z F Hzin) as (F1 & _).
  assert (Hy : in_table drv y).
  { eapply chain_in; [exact Hl|]. apply elem_of_app. right. apply list_elem_of_here. }
  unfold extend_chain. apply (fresh_cluster_does drv b z); [done|done|].
  eapply runs_bind; [apply write_fat_entry_does; [done|by apply (in_table_bound drv b)]|].
  apply runs_ret.
Qed.

Lemma last_split (l : list Z) x i :
  l !! i = Some x -> (length l <= i + 1)%nat -> exists l0, l = l0 ++ [x].
Proof.
  intros Hx Hi. apply list_elem_of_split_length in Hx as (l1 & l2 & -> & ->).
  rewrite length_app in Hi. destruct l2; [by exists l1|]. simpl in Hi. lia.
Qed.

(** Stepping from the [i]-th cluster of a chain to the next, growing the chain at its end. *)
Lemma next_or_extend_does b fc l i x :
  fits drv b -> chain drv b fc l -> l !! i = Some x ->
  (i + 2 <= length l + free_count drv b)%nat ->
  exists b' l' y, does (next_or_extend drv x) b (Ok y) b' /\ grown drv fc b l b' l' /\
    l' !! (i + 1)%nat = Some y /\ length l' = Nat.max (length l) (i + 2) /\
    chain_bytes drv b' l' =
      chain_bytes drv b l ++ replicate ((length l' - length l) * cs drv) 0.
Proof.
  intros F Hl Hx Hroom. pose proof (chain_in drv b fc l x Hl) as Hin.
  specialize (Hin ltac:(by eapply list_elem_of_lookup_2)).
  pose proof (lookup_lt_Some _ _ _ Hx) as Hil.
  destruct (decide (length l <= i + 1)%nat) as [Hlast|Hmid].
  - destruct (last_split l x i Hx Hlast) as [l0 ->].
    destruct (count_free_pos drv b (Z.to_nat (max_cluster drv - ROOT_CLUSTER)) ROOT_CLUSTER)
      as [z Hz]; [fold (free_count drv b); lia|].
    change (first_free drv b = Some z) in Hz.
    destruct (grown_extend drv fc b l0 x z F Hl Hz) as [G Hb].
    rewrite length_app in *. cbn [length] in *.
    exists (linked drv b x z), (l0 ++ [x; z]), z. split_and!; [|done| | |].
    + unfold next_or_extend. eapply runs_bind.
      * apply get_next_end; [done|done|].
        pose proof (chain_suffix drv b fc l0 x [] Hl) as Hs. inversion Hs; [done|].
        match goal with H : chain _ _ _ [] |- _ => inversion H end.
      * by eapply extend_chain_does.
    + replace (i + 1)%nat with (length l0 + 1)%nat by lia. by rewrite lookup_app_r,
        Nat.add_comm, Nat.add_sub by lia.
    + rewrite length_app. cbn [length]. lia.
    + rewrite Hb. f_equal. unfold zeros. f_equal. rewrite length_app. cbn [length].
      replace (length l0 + 2 - (length l0 + 1))%nat with 1%nat by lia. lia.
  - destruct (lookup_lt_is_Some_2 l (i + 1)) as [y Hy]; [lia|].
    exists b, l, y. split_and!; [|by apply grown_refl|done|lia|].
    + apply list_elem_of_split_length in Hx as (l1 & l2 & -> & ->).
      pose proof (chain_suffix drv b fc l1 x l2 Hl) as Hs.
      rewrite lookup_app_r in Hy by lia.
      replace (length l1 + 1 - length l1)%nat with 1%nat in Hy by lia.
      destruct l2 as [|y' l2]; [done|]. simpl in Hy. injection Hy as ->.
      inversion Hs as [|? ? ? Hn Hs']; subst.
      destruct (chain_in_table drv b _ _ Hs') as [_ Hh]. simpl in Hh. injection Hh as ->.
      unfold next_or_extend. eapply runs_bind; [by apply get_next_link|]. apply runs_ret.
    + rewrite Nat.sub_diag. simpl. by rewrite app_nil_r.
Qed.

Lemma walk_extending_does n : forall b fc l i x,
  fits drv b -> chain drv b fc l -> l !! i = Some x ->
  (i + n + 1 <= length l + free_count drv b)%nat ->
  exists b' l' y, does (walk_extending drv n x) b (Ok y) b' /\ grown drv fc b l b' l' /\
    l' !! (i + n)%nat = Some y /\ length l' = Nat.max (length l) (i + n + 1) /\
    chain_bytes drv b' l' =
      chain_bytes drv b l ++ replicate ((length l' - length l) * cs drv) 0.
Proof.
  induction n as [|n IH]; intros b fc l i x F Hl Hx Hroom;
    pose proof (lookup_lt_Some _ _ _ Hx) as Hil.
  - exists b, l, x. split_and!; [apply runs_ret|by apply grown_refl| |lia|].
    + by rewrite Nat.add_0_r.
    + rewrite Nat.sub_diag. simpl. by rewrite app_nil_r.
  - destruct (next_or_extend_does b fc l i x F Hl Hx) as (b1 & l1 & y & H1 & G1 & Hy & Hl1 & Hb1);
      [lia|].
    pose proof (grown_count _ _ _ _ _ _ G1) as Hc1.
    destruct (IH b1 fc l1 (i + 1)%nat y) as (b2 & l2 & w & H2 & G2 & Hw & Hl2 & Hb2);
      [apply G1|apply G1|done|lia|].
    exists b2, l2, w. split_and!.
    + cbn [walk_extending]. by eapply runs_bind.
    + by eapply grown_trans.
    + rewrite <- Hw. f_equal. lia.
    + lia.
    + rewrite Hb2, Hb1, <- app_assoc, <- replicate_add. do 2 f_equal. nia.
Qed.

Lemma write_in_cluster_does b fc l x o new :
  fits drv b -> chain drv b fc l -> x ∈ l -> Forall byte new -> (o + length new <= cs drv)%nat ->
  does (write_in_cluster drv x o new) b (Ok tt)
    (set_data drv b x (splice (cluster_data drv b x) o new)).
Proof.
  intros F Hl Hx Hnew Ho. pose proof (chain_in drv b fc l x Hl Hx) as Hin.
  pose proof (length_cluster_data drv b x F Hin) as Hcl.
  assert (Hlen : length (splice (cluster_data drv b x) o new) = cs drv)
    by (rewrite length_splice by lia; done).
  apply does_bytes. intros Hb. unfold write_in_cluster. fold (cs drv).
  destruct (negb (o =? 0)%nat || (length new <? cs drv)%nat) eqn:Hpart.
  - eapply runs_bind; [by apply read_cluster_does|].
    apply write_cluster_does; [done|done|done|].
    apply byte_splice; [by apply byte_slice|done].
  - apply orb_false_iff in Hpart as [H1 H2]. apply negb_false_iff, Nat.eqb_eq in H1 as ->.
    apply Nat.ltb_ge in H2. rewrite splice_all by lia.
    apply write_cluster_does; [done|done|lia|done].
Qed.

Lemma write_loop_does data : Forall byte data ->
  forall fuel b fc l i x t o,
  fits drv b -> chain drv b fc l -> l !! i = Some x ->
  (o < cs drv)%nat -> (t < length data)%nat -> (length data - t < fuel)%nat ->
  let stop := (i * cs drv + o + (length data - t))%nat in
  (stop <= (length l + free_count drv b) * cs drv)%nat ->
  exists b' l', does (write_loop drv fuel x t o data) b (Ok (length data)) b' /\
    grown drv fc b l b' l' /\ length l' = Nat.max (length l) (clusters_for drv stop) /\
    chain_bytes drv b' l' =
      splice (chain_bytes drv b l ++ replicate ((length l' - length l) * cs drv) 0)
        (i * cs drv + o) (drop t data).
Proof.
  intros Hd. induction fuel as [|fuel IH]; intros b fc l i x t o F Hl Hx Ho Ht Hf stop Hroom;
    [lia|].
  cbn [write_loop]. rewrite (proj2 (Nat.ltb_lt t (length data)) Ht). fold (cs drv).
  set (k := Nat.min (cs drv - o) (length data - t)).
  assert (Hk : length (slice data t k) = k) by (apply length_slice; lia).
  pose proof (lookup_lt_Some _ _ _ Hx) as Hil.
  pose proof (list_elem_of_lookup_2 _ _ _ Hx) as Hxl.
  pose proof (chain_in drv b fc l x Hl Hxl) as Hin.
  pose proof (length_cluster_data drv b x F Hin) as Hcl.
  destruct (chain_in_table drv b fc l Hl) as [Hall _].
  pose proof (length_chain_bytes drv b l F Hall) as HB.
  assert (Hsp : length (splice (cluster_data drv b x) o (slice data t k)) = cs drv)
    by (rewrite length_splice by lia; done).
  set (b1 := set_data drv b x (splice (cluster_data drv b x) o (slice data t k))).
  pose proof (grown_set_data drv fc b l x _ F Hl Hxl Hsp) as G1. fold b1 in G1.
  assert (Hb1 : chain_bytes drv b1 l =
    splice (chain_bytes drv b l) (i * cs drv + o) (slice data t k)).
  { apply list_elem_of_split_length in Hx as (l1 & l2 & -> & ->).
    apply (chain_bytes_patch drv fc); [done|done|lia]. }
  assert (Hw : does (write_in_cluster drv x o (slice data t k)) b (Ok tt) b1).
  { apply (write_in_cluster_does b fc l); [done|done|done|by apply byte_slice|lia]. }
  assert (Hin_room : (i * cs drv + o + k <= length l * cs drv)%nat) by nia.
  destruct (Nat.ltb_spec (t + k) (length data)) as [Hmore|Hdone].
  - assert (Hkc : k = (cs drv - o)%nat) by lia.
    pose proof (grown_count _ _ _ _ _ _ G1) as Hc1.
    destruct (next_or_extend_does b1 fc l i x) as (b2 & l2 & y & H2 & G2 & Hy & Hl2 & Hb2);
      [apply G1|apply G1|done| |].
    { assert ((i + 1) * cs drv < (length l + free_count drv b) * cs drv)%nat by nia. nia. }
    pose proof (grown_count _ _ _ _ _ _ G2) as Hc2.
    assert (Hstop : ((i + 1) * cs drv + 0 + (length data - (t + k)))%nat = stop)
      by (unfold stop; nia).
    destruct (IH b2 fc l2 (i + 1)%nat y (t + k)%nat 0%nat) as (b3 & l3 & H3 & G3 & Hl3 & Hb3);
      [apply G2|apply G2|done|lia|lia|lia| |].
    { rewrite Hstop. replace (length l2 + free_count drv b2)%nat
        with (length l + free_count drv b)%nat by lia. done. }
    rewrite Hstop in Hl3.
    assert (Hneed : (i + 2 <= clusters_for drv stop)%nat).
    { destruct (Nat.le_gt_cases (i + 2) (clusters_for drv stop)) as [|Hc]; [done|].
      exfalso. assert (clusters_for drv stop <= i + 1)%nat as Hc' by lia.
      apply (clusters_for_le drv b _ _ F) in Hc'. unfold stop in Hc'. nia. }
    exists b3, l3. split_and!.
    + eapply runs_bind; [exact Hw|].
      eapply runs_bind; [exact H2|exact H3].
    + eapply grown_trans; [exact G1|]. by eapply grown_trans.
    + lia.
    + rewrite Hb3, Hb2, Hb1, Nat.add_0_r.
      replace (drop t data) with (slice data t k ++ drop (t + k) data)
        by (unfold slice; rewrite <- drop_drop; apply take_drop).
      rewrite <- splice_splice_app.
      * rewrite Hk. replace (i * cs drv + o + k)%nat with ((i + 1) * cs drv)%nat by nia.
        f_equal. rewrite <- app_assoc, <- replicate_add, splice_app_l by lia.
        do 2 f_equal. nia.
      * rewrite Hk, length_app, length_replicate, length_drop, HB.
        assert (clusters_for drv stop <= length l3)%nat as Hle by lia.
        apply (clusters_for_le drv b _ _ F) in Hle. unfold stop in Hle. nia.
  - assert (Hkl : k = (length data - t)%nat) by lia.
    assert (Hneed : (clusters_for drv stop <= length l)%nat).
    { apply (clusters_for_le drv b _ _ F). unfold stop. lia. }
    exists b1, l. split_and!; [|done|lia|].
    + eapply runs_bind; [exact Hw|].
      replace (t + k)%nat with (length data) by lia. apply runs_ret.
    + rewrite Nat.sub_diag. cbn [replicate Nat.mul]. rewrite app_nil_r, Hb1. f_equal.
      unfold slice. rewrite Hkl. apply take_ge. rewrite length_drop. lia.
Qed.

(** ** Updating the directory entry *)

Lemma find_index_some p es : forall i j e, find_index p es i = Some (j, e) ->
  (i <= j)%nat /\ es !! (j - i)%nat = Some e /\ p e = true.
Proof.
  induction es as [|x es IH]; intros i j e; cbn [find_index]; [done|].
  destruct (p x) eqn:Hp.
  - intros [= <- <-]. by rewrite Nat.sub_diag.
  - intros Hf. destruct (IH _ _ _ Hf) as (Hle & Hx & ?). split; [lia|]. split; [|done].
    replace (j - i)%nat with (S (j - S i)) by lia. done.
Qed.

Lemma find_index_replace p p' es e' : forall i j e,
  find_index p es i = Some (j, e) -> (forall x, p' x = true -> p x = true) -> p' e' = true ->
  find_index p' (<[ (j - i)%nat := e' ]> es) i = Some (j, e').
Proof.
  induction es as [|x es IH]; intros i j e; cbn [find_index]; [done|].
  destruct (p x) eqn:Hp.
  - intros [= <- <-] Hi He. rewrite Nat.sub_diag. cbn. by rewrite He.
  - intros Hf Hi He. destruct (find_index_some _ _ _ _ _ Hf) as (Hle & _ & _).
    replace (j - i)%nat with (S (j - S i)) by lia. cbn.
    destruct (p' x) eqn:Hp'; [apply Hi in Hp'; congruence|]. by eapply IH.
Qed.

Lemma find_index_stronger p p' es j e :
  find_index p es 0 = Some (j, e) -> (forall x, p' x = true -> p x = true) -> p' e = true ->
  find_index p' es 0 = Some (j, e).
Proof.
  intros Hf Hi He. destruct (find_index_some _ _ _ _ _ Hf) as (_ & Hj & _).
  rewrite Nat.sub_0_r in Hj.
  rewrite <- (list_insert_id es j e) by done. rewrite <- (Nat.sub_0_r j) at 1.
  by eapply find_index_replace.
Qed.

Lemma dir_repr_room b pc pl es :
  fits drv b -> dir_repr drv b pc pl es -> (length es * 32 <= length pl * cs drv)%nat.
Proof.
  intros F (Hl & Hes & k & Hk). destruct (chain_in_table drv b pc pl Hl) as [Hin _].
  rewrite <- (length_chain_bytes drv b pl F Hin), Hk, length_app, length_dir_bytes by done. lia.
Qed.

Lemma set_file_size_id e : set_file_size (file_size e) e = e.
Proof. by destruct e. Qed.

Lemma entry_live_resize e s : entry_live e -> in_width 32 s -> entry_live (set_file_size s e).
Proof. intros [[] He] Hs. split; [by constructor|done]. Qed.

(** A file's directory and data as other chains are written. *)
Lemma grown_dir b fc fl b' fl' pc pl es :
  fits drv b -> chain drv b fc fl -> grown drv fc b fl b' fl' -> dir_repr drv b pc pl es ->
  (forall x, x ∈ fl -> x ∉ pl) ->
  dir_repr drv b' pc pl es /\ (forall x, x ∈ fl' -> x ∉ pl).
Proof.
  intros F Hfl G R Hap. pose proof R as (Hl & _).
  assert (Hout : forall x, x ∈ pl -> in_table drv x /\ (x ∉ fl) /\ fat drv b x <> 0).
  { intros x Hx. split_and!; [by eapply chain_in| |by eapply chain_fat_nonzero].
    intros Hf. by apply (Hap x Hf). }
  split.
  - apply (dir_repr_ext drv b); [| |done]; intros x Hx; destruct (Hout x Hx) as (? & ? & ?).
    + by apply (grown_fat _ _ _ _ _ _ G).
    + by apply (grown_data _ _ _ _ _ _ G).
  - intros x Hx Hp. destruct (Hout x Hp) as (? & Hn & H0). apply H0.
    by apply (grown_new _ _ _ _ _ _ G).
Qed.

(** The size update at the end of [write_file]. *)
Definition update_size (pc : Z) (j : nat) (e : DirectoryEntry) (fc new_end : Z)
    : stM D FileSystemError unit :=
  if file_size e <? new_end then
    (let! entries := read_directory_entries drv pc in
     let! found := or_err (find_index
       (fun x => negb (is_deleted x) && (get_first_cluster x =? fc)) entries 0) NotFound in
     write_direntry drv pc found.1 (set_file_size (wrap 32 new_end) e))%rust
  else sret tt.

Lemma update_size_does b pc pl es j e fl new_end :
  fits drv b -> file_repr drv b pc pl es j e fl -> 0 <= new_end < 2 ^ 32 ->
  new_end <= Z.of_nat (length fl * cs drv) ->
  let e' := set_file_size (Z.max (file_size e) new_end) e in
  exists b', does (update_size pc j e (get_first_cluster e) new_end) b (Ok tt) b' /\
    fits drv b' /\ file_repr drv b' pc pl (<[ j := e' ]> es) j e' fl /\
    (forall x, 0 <= x < max_cluster drv -> fat drv b' x = fat drv b x) /\
    (forall x, in_table drv x -> x ∉ pl -> cluster_data drv b' x = cluster_data drv b x).
Proof.
  intros F [Hdir Hfind Hlive Hl Hroom Hap] Hend Hfit e'.
  pose proof (find_index_some _ _ _ _ _ Hfind) as (_ & Hj & _). rewrite Nat.sub_0_r in Hj.
  unfold update_size. destruct (Z.ltb_spec (file_size e) new_end) as [Hgrow|Hkeep].
  - assert (He' : e' = set_file_size (wrap 32 new_end) e).
    { unfold e'. rewrite Z.max_r, wrap_small by (unfold in_width; lia). done. }
    assert (Hlive' : entry_live e').
    { pose proof Hdir as (_ & Hes & _). rewrite Forall_forall in Hes.
      apply entry_live_resize; [|unfold in_width; lia].
      apply Hes, list_elem_of_In. by eapply list_elem_of_lookup_2. }
    pose proof (lookup_lt_Some _ _ _ Hj) as Hjl.
    destruct (write_direntry_does drv b pc pl es j e' F Hdir Hlive') as
      (b' & Hw & F' & R' & Hf & Hd); [lia| |].
    { pose proof (dir_repr_room b pc pl es F Hdir). lia. }
    unfold put_entry in R'. rewrite decide_True in R' by done.
    exists b'. split_and!; [|done| |done|done].
    + eapply runs_bind; [by eapply read_directory_entries_does|].
      rewrite (find_index_stronger (fun x => get_first_cluster x =? get_first_cluster e) _ es j e);
        [|done| |].
      * eapply runs_bind; [apply runs_ret|]. by rewrite <- He'.
      * intros x Hx. by apply andb_true_iff in Hx as [_ ?].
      * by rewrite Hlive, Z.eqb_refl.
    + constructor; [done| |done| |unfold e'; simpl; lia|done].
      * change (get_first_cluster e') with (get_first_cluster e).
        rewrite <- (Nat.sub_0_r j) at 1. eapply find_index_replace; [exact Hfind|done|].
        by rewrite Z.eqb_refl.
      * apply (chain_ext drv b); [|done]. intros x Hx. apply Hf, (in_table_bound drv b); [done|].
        by eapply chain_in.
  - assert (He' : e' = e) by (unfold e'; rewrite Z.max_l by lia; apply set_file_size_id).
    rewrite He'. exists b. rewrite list_insert_id by done. split_and!; try done. apply runs_ret.
Qed.

(** C7: [write_file] overwrites the file's bytes at the offset and nothing else: the
    contents become the old contents, zero-filled to the chain's new end, with the data
    spliced in at the offset; the size becomes the larger of the old one and the write's
    end and is what the directory lists; the chain grows by exactly the clusters the end
    needs; and every other allocated cluster of the volume keeps its table entry and its
    data. Reading the range back returns the data. *)
Theorem write_file_contents b pc pl es j e fl id offset data :
  fits drv b -> file_repr drv b pc pl es j e fl -> names_file id pc e ->
  0 <= offset -> data <> [] -> Forall byte data -> offset + zlen data < 2 ^ 32 ->
  let stop := (Z.to_nat offset + length data)%nat in
  (clusters_for drv stop <= length fl + free_count drv b)%nat ->
  let e' := set_file_size (Z.max (file_size e) (Z.of_nat stop)) e in
  exists b' fl', does (write_file drv id offset data) b (Ok (zlen data)) b' /\
    fits drv b' /\ file_repr drv b' pc pl (<[ j := e' ]> es) j e' fl' /\
    length fl' = Nat.max (length fl) (clusters_for drv stop) /\
    chain_bytes drv b' fl' =
      splice (chain_bytes drv b fl ++ replicate ((length fl' - length fl) * cs drv) 0)
        (Z.to_nat offset) data /\
    (forall x, in_table drv x -> x ∉ fl -> x ∉ pl -> fat drv b x <> 0 ->
      fat drv b' x = fat drv b x /\ cluster_data drv b' x = cluster_data drv b x) /\
    does (read_file drv id offset (replicate (length data) 0)) b' (Ok (zlen data, data)) b'.
Proof.
  intros F FR (a & Hid & Ha) Hoff Hne Hbytes Hend stop Hroom e'.
  pose proof FR as [Hdir Hfind Hlive Hl Hsize Hap].
  destruct (cs_pos drv b F) as [Hcs Hce].
  set (q := Z.to_nat (offset / Z.of_nat (cs drv))). set (o := Z.to_nat (offset mod Z.of_nat (cs drv))).
  assert (Hqo : Z.to_nat offset = (q * cs drv + o)%nat /\ (o < cs drv)%nat).
  { pose proof (Z_div_mod_eq_full offset (Z.of_nat (cs drv))).
    pose proof (Z.mod_pos_bound offset (Z.of_nat (cs drv)) ltac:(lia)).
    assert (0 <= offset / Z.of_nat (cs drv)) by (apply Z.div_pos; lia). unfold q, o. nia. }
  destruct Hqo as [Hqo Ho].
  assert (Hlen : (0 < length data)%nat) by (destruct data; [done|simpl; lia]).
  assert (Hcover : (stop <= (length fl + free_count drv b) * cs drv)%nat)
    by (by apply (clusters_for_le drv b)).
  assert (Hqn : (q + 1 <= clusters_for drv stop)%nat).
  { destruct (Nat.le_gt_cases (q + 1) (clusters_for drv stop)) as [|Hc]; [done|]. exfalso.
    assert (clusters_for drv stop <= q)%nat as Hc' by lia.
    apply (clusters_for_le drv b _ _ F) in Hc'. unfold stop in Hc'. lia. }
  destruct (chain_in_table drv b _ fl Hl) as [_ Hh].
  assert (Hfc : fl !! 0%nat = Some (get_first_cluster e))
    by (clear -Hh; destruct fl; exact Hh).
  destruct (walk_extending_does q b _ fl 0 _ F Hl Hfc) as (b1 & l1 & y & H1 & G1 & Hy & Hl1 & Hb1);
    [lia|].
  pose proof (grown_count _ _ _ _ _ _ G1) as Hc1. rewrite Nat.add_0_l in *.
  destruct (write_loop_does data Hbytes (S (length data)) b1 _ l1 q y 0 o
    (grown_fits _ _ _ _ _ _ G1) (grown_chain _ _ _ _ _ _ G1) Hy Ho Hlen ltac:(lia))
    as (b2 & l2 & H2 & G2 & Hl2 & Hb2).
  { rewrite Nat.sub_0_r, <- Hqo. fold stop. rewrite Hl1 in *. nia. }
  rewrite Nat.sub_0_r, <- Hqo in Hl2. fold stop in Hl2. rewrite <- Hqo, drop_0 in Hb2.
  pose proof (grown_trans drv _ _ _ _ _ _ _ G1 G2) as G.
  destruct (grown_dir b _ fl b2 l2 pc pl es F Hl G Hdir Hap) as [R2 Hap2].
  assert (Hmax : length l2 = Nat.max (length fl) (clusters_for drv stop)) by lia.
  assert (Hstop : (stop <= length l2 * cs drv)%nat) by (apply (clusters_for_le drv b _ _ F); lia).
  assert (FR2 : file_repr drv b2 pc pl es j e l2).
  { constructor; [done|done|done|apply G| |done].
    assert (length fl <= length l2)%nat by lia. nia. }
  destruct (update_size_does b2 pc pl es j e l2 (Z.of_nat stop) (grown_fits _ _ _ _ _ _ G) FR2)
    as (b3 & H3 & F3 & FR3 & Hf3 & Hd3); [lia|lia|].
  assert (Hsum : offset + zlen data = Z.of_nat stop) by lia.
  assert (Hb3 : chain_bytes drv b3 l2 = chain_bytes drv b2 l2).
  { apply chain_bytes_ext. intros x Hx. apply Hd3; [|by apply Hap2].
    eapply chain_in; [apply G|done]. }
  assert (Hbytes3 : chain_bytes drv b3 l2 =
    splice (chain_bytes drv b fl ++ replicate ((length l2 - length fl) * cs drv) 0)
      (Z.to_nat offset) data).
  { rewrite Hb3, Hb2, Hb1. f_equal. rewrite <- app_assoc, <- replicate_add. do 2 f_equal.
    rewrite <- Nat.mul_add_distr_r. f_equal. lia. }
  exists b3, l2. split_and!; [|done|exact FR3|done|done| |].
  - unfold write_file. rewrite bool_decide_eq_false_2 by done. rewrite Hid, Ha.
    rewrite (first_cluster_pos b _ fl F Hl).
    eapply runs_bind; [by eapply find_entry_by_cluster_does|].
    rewrite Hsum. destruct (Z.ltb_spec U64_MAX (Z.of_nat stop)); [unfold U64_MAX in *; lia|].
    rewrite Hce. destruct (Z.eqb_spec (Z.of_nat (cs drv)) 0); [lia|].
    eapply runs_bind; [exact H1|]. eapply runs_bind; [exact H2|].
    eapply runs_bind; [exact H3|]. apply runs_ret.
  - intros x Hx Hn Hp H0. split.
    + rewrite Hf3 by (by apply (in_table_bound drv b)). by apply (grown_fat _ _ _ _ _ _ G).
    + rewrite Hd3 by done. by apply (grown_data _ _ _ _ _ _ G).
  - pose proof (read_file_does b3 pc pl _ j e' l2 id offset (replicate (length data) 0) F3 FR3
      (ex_intro _ a (conj Hid Ha)) Hoff) as Hr.
    assert (Hn : Nat.min (length (replicate (length data) 0)) (Z.to_nat (file_size e' - offset))
      = length data).
    { rewrite length_replicate. unfold e'. simpl. lia. }
    cbv zeta in Hr. rewrite Hn in Hr.
    replace (slice (contents drv b3 e' l2) (Z.to_nat offset) (length data)) with data in Hr.
    + by rewrite splice_all in Hr by apply length_replicate.
    + unfold contents. rewrite slice_take by (unfold e'; simpl; lia).
      rewrite Hbytes3. symmetry. apply slice_splice_same.
      destruct (chain_in_table drv b _ fl Hl) as [Hin _].
      rewrite length_app, length_replicate, (length_chain_bytes drv b fl F Hin). nia.
Qed.

End files.

(** ** Witnesses on the demo volume *)

Definition demo_id : Z := encode_node_id demo_entry 2.

Lemma demo_file : file_repr demo_drv demo_volume 2 [2] [demo_entry] 0 demo_entry [3; 4].
Proof.
  constructor; [apply demo_dir|by vm_compute|by vm_compute|apply demo_file_chain| |].
  - split; vm_compute; congruence.
  - intros x Hx. apply elem_of_cons in Hx as [->|Hx].
    + intros Hp. by apply list_elem_of_singleton in Hp.
    + apply list_elem_of_singleton in Hx as ->. intros Hp. by apply list_elem_of_singleton in Hp.
Qed.

Lemma demo_names : names_file demo_id 2 demo_entry.
Proof. exists ATTR_ARCHIVE. split; vm_compute; reflexivity. Qed.

Lemma read_file_contents_witness :
  demo_does (read_file demo_drv demo_id 510 (replicate 4 0)) (Ok (4, [1; 1; 2; 2])) demo_volume.
Proof.
  pose proof (proj1 (read_file_contents (D:=MockDiskDevice.MockDiskDevice) demo_drv demo_volume
    2 [2] [demo_entry] 0 demo_entry [3; 4] demo_id 510 (replicate 4 0) demo_fits demo_file
    demo_names ltac:(lia))) as Hr.
  exact Hr.
Defined.

(** 600 bytes at offset 500 of the 600-byte file: the chain grows by cluster 5. *)
Lemma write_file_contents_witness :
  exists b' (fl' : list Z), demo_does (write_file demo_drv demo_id 500 (replicate 600 9)) (Ok 600) b' /\
    length fl' = 3%nat /\
    runs (S:=MockDiskDevice.MockDiskDevice) (E:=FileSystemError) holds
      (read_file demo_drv demo_id 500 (replicate 600 0)) b' (Ok (600, replicate 600 9)) b'.
Proof.
  destruct (write_file_contents (D:=MockDiskDevice.MockDiskDevice) demo_drv demo_volume
    2 [2] [demo_entry] 0 demo_entry [3; 4] demo_id 500 (replicate 600 9) demo_fits demo_file
    demo_names ltac:(lia) ltac:(discriminate)) as (b' & fl' & H1 & _ & _ & H2 & _ & _ & H3).
  - apply Forall_replicate. unfold byte. lia.
  - vm_compute. reflexivity.
  - vm_compute. lia.
  - exists b', fl'. split; [exact H1|]. split; [rewrite H2; vm_compute; reflexivity|exact H3].
Defined.
