(* ===== verification/FatCreate.v ===== *)
(** * FatCreate: creating, finding and deleting

    The operations that change a directory: [create_file] with its free slot, its growth
    of the directory and its fresh cluster, [find_node] on the name it was given, and
    [delete]. *)

From Stdlib Require Import ZArith Lia.
From stdpp Require Import base tactics list option numbers.
From S2P Require Import Prelude Disk FsTypes DirEntry BootSector Fat32 FatTable FatDemo FatChain FatDir FatFile.

(** The entry [create_file] writes. *)
Definition new_entry (n : str) (cluster : Z) : DirectoryEntry :=
  set_first_cluster cluster (set_attributes ATTR_ARCHIVE
    (set_names (pad 8 (upper <$> fst (stem_ext n)))
      (pad 3 (upper <$> default [] (snd (stem_ext n)))) create_empty)).

(** The slot it goes to, and how many clusters the directory grows by. *)
Definition free_slot (es : list DirectoryEntry) : nat :=
  match find_index (fun e => negb (is_valid e)) es 0 with
  | Some (i, _) => i
  | None => length es
  end.

Definition slot_growth (es : list DirectoryEntry) : nat :=
  match find_index (fun e => negb (is_valid e)) es 0 with Some _ => 0 | None => 1 end.

(** The duplicate check of [create_file]. *)
Definition listed (n : str) (es : list DirectoryEntry) : bool :=
  existsb (fun e => negb (is_deleted e) && bool_decide (get_filename e = utf8 n)) es.

(** The entries that are not deleted start allocated chains. *)
Definition dir_sound (drv : Fat32Driver) (b : list Z) (es : list DirectoryEntry) : Prop :=
  forall e, e ∈ es -> is_deleted e = false ->
    0 <= get_first_cluster e < max_cluster drv /\ fat drv b (get_first_cluster e) <> 0.

Lemma pad_byte k l : Forall byte l -> Forall byte (pad k l).
Proof.
  intros. unfold pad. apply Forall_app. split; [done|]. apply Forall_replicate.
  unfold byte, SPACE. lia.
Qed.

Lemma upper_byte s : forallb ascii s = true -> Forall byte (upper <$> s).
Proof.
  intros Hs. apply upper_ascii in Hs. rewrite forallb_forall in Hs. rewrite Forall_forall.
  intros x Hx. specialize (Hs x Hx). unfold ascii in Hs. bool_hyps. unfold byte. lia.
Qed.

(** The first byte of a plain name is a letter, digit or mark: neither flag byte. *)
Lemma stem_head n :
  plain_name n -> exists c s, fst (stem_ext n) = c :: s /\ plain c = true.
Proof.
  intros (Hv & Hp & _). unfold is_valid_filename, stem_ext in *. destruct n as [|c n]; [done|].
  destruct (Z.eqb_spec c DOT) as [|Hc]; [done|].
  assert (Hpc : plain c = true) by (cbn [forallb] in Hp; by apply andb_true_iff in Hp as [? _]).
  destruct (rsplit DOT (c :: n)) as [[a x]|] eqn:Hr; cbn [fst]; [|eauto].
  apply rsplit_some in Hr. destruct a as [|c' a]; simpl in Hr; [congruence|].
  injection Hr as <- _. eauto.
Qed.

Lemma new_entry_live n c :
  plain_name n -> 0 <= c <= MAX_CLUSTER ->
  entry_live (new_entry n c) /\ is_deleted (new_entry n c) = false /\
  get_first_cluster (new_entry n c) = c.
Proof.
  intros Hn Hc. pose proof Hn as (Hv & Hp & _). pose proof (plain_ascii n Hp) as Ha.
  destruct (stem_ext_bounds n Ha Hv) as (Hs & Hl & Hx).
  assert (Hfc : get_first_cluster (new_entry n c) = c).
  { apply get_set_first_cluster. unfold in_width, MAX_CLUSTER in *. lia. }
  assert (Hx' : forallb ascii (default [] (snd (stem_ext n))) = true /\
    (length (default [] (snd (stem_ext n))) <= 3)%nat).
  { destruct (snd (stem_ext n)); simpl; [tauto|lia]. }
  destruct (stem_head n Hn) as (c0 & s & Hcs & Hp0).
  assert (H0 : at_ (name (new_entry n c)) 0 = upper c0).
  { unfold new_entry. cbn [name set_first_cluster set_attributes set_names]. by rewrite Hcs. }
  unfold plain, ascii, SPACE in Hp0. bool_hyps.
  assert (Hu : 0 < upper c0 < 128) by (unfold upper; destruct ((0x61 <=? c0) && (c0 <=? 0x7A)) eqn:Hb; bool_hyps; lia).
  split_and!; [split|..|done].
  - constructor; [..|by rewrite Hfc; lia];
      unfold new_entry, set_first_cluster, set_attributes, set_names, create_empty;
      cbn [name extension attrs nt_reserved creation_time_tenth creation_time creation_date
        access_date first_cluster_high write_time write_date first_cluster_low file_size];
      try (apply in_width_wrap; lia); try (unfold in_width, byte, ATTR_ARCHIVE; lia).
    + split; [apply length_pad; rewrite length_fmap; done|]. by apply pad_byte, upper_byte.
    + split; [apply length_pad; rewrite length_fmap; tauto|]. apply pad_byte, upper_byte, Hx'.
  - unfold is_empty. rewrite H0. unfold FIRST_BYTE_IS_EMPTY_FLAG. apply Z.eqb_neq. lia.
  - unfold is_deleted. rewrite H0. unfold FIRST_BYTE_IS_DELETED_FLAG. apply Z.eqb_neq. lia.
Qed.

Lemma find_index_none p es : forall i, find_index p es i = None <-> Forall (fun e => p e = false) es.
Proof.
  induction es as [|e es IH]; intros i; cbn [find_index].
  - split; [intros _; by apply Forall_nil|done].
  - rewrite Forall_cons_iff. destruct (p e); [split; [done|by intros []]|].
    rewrite IH. split; [by split|by intros []].
Qed.

(** Nothing before the found index satisfies the predicate. *)
Lemma find_index_before p es : forall i j e k x,
  find_index p es i = Some (j, e) -> (i + k < j)%nat -> es !! k = Some x -> p x = false.
Proof.
  induction es as [|y es IH]; intros i j e k x; cbn [find_index]; [done|].
  destruct (p y) eqn:Hp; [intros [= <- <-]; lia|].
  intros Hf Hk Hx. destruct k as [|k]; [by injection Hx as <-|].
  by eapply (IH (S i) j e k x); [|lia|].
Qed.

(** A predicate that fails before a slot and holds of what is put there finds it. *)
Lemma find_index_put p es j e' :
  (j <= length es)%nat -> p e' = true ->
  (forall k x, (k < j)%nat -> es !! k = Some x -> p x = false) ->
  find_index p (put_entry j e' es) 0 = Some (j, e').
Proof.
  intros Hj He Hb. unfold put_entry.
  assert (Hg : forall i, find_index p (if decide (j < length es)%nat then <[ j := e' ]> es
    else es ++ [e']) i = Some ((i + j)%nat, e')); [|exact (Hg 0%nat)].
  revert es Hj Hb. induction j as [|j IH]; intros es Hj Hb i.
  - rewrite Nat.add_0_r. destruct es as [|x es].
    + rewrite decide_False by (simpl; lia). cbn [app find_index]. by rewrite He.
    + rewrite decide_True by (simpl; lia). cbn [insert list_insert find_index]. by rewrite He.
  - destruct es as [|x es]; cbn [length] in *; [lia|].
    assert (Hx : p x = false) by (apply (Hb 0%nat); [lia|done]).
    specialize (IH es ltac:(lia) (fun k y Hk Hy => Hb (S k) y ltac:(lia) Hy) (S i)).
    replace (i + S j)%nat with (S i + j)%nat by lia. rewrite <- IH.
    destruct (decide (S j < S (length es))%nat), (decide (j < length es)%nat); try lia;
      cbn [insert list_insert app find_index]; by rewrite Hx.
Qed.

Lemma free_slot_facts es :
  Forall entry_live es ->
  (free_slot es <= length es)%nat /\
  (forall k x, (k < free_slot es)%nat -> es !! k = Some x -> is_deleted x = false).
Proof.
  intros Hes. unfold free_slot. destruct (find_index _ es 0) as [[i e]|] eqn:Hf.
  - destruct (find_index_some _ _ _ _ _ Hf) as (_ & Hi & _). rewrite Nat.sub_0_r in Hi.
    split; [apply lookup_lt_Some in Hi; lia|]. intros k x Hk Hx.
    pose proof (find_index_before _ _ _ _ _ k x Hf Hk Hx) as Hv. simpl in Hv.
    unfold is_valid, is_deleted in *. apply negb_false_iff in Hv. case_match eqn:Ho; [done|].
    by apply orb_false_iff in Ho as [_ ?].
  - split; [done|]. intros k x Hk Hx. apply find_index_none in Hf.
    rewrite Forall_forall in Hf. specialize (Hf x).
    rewrite <- list_elem_of_In in Hf. specialize (Hf ltac:(by eapply list_elem_of_lookup_2)).
    unfold is_valid, is_deleted in *. apply negb_false_iff in Hf. case_match eqn:Ho; [done|].
    by apply orb_false_iff in Ho as [_ ?].
Qed.

(** Same table, same data: as good as the original. *)
Lemma grown_same drv fc b l b1 l1 b2 :
  grown drv fc b l b1 l1 -> fits drv b2 ->
  (forall x, 0 <= x < max_cluster drv -> fat drv b2 x = fat drv b1 x) ->
  (forall x, in_table drv x -> cluster_data drv b2 x = cluster_data drv b1 x) ->
  grown drv fc b l b2 l1.
Proof.
  intros G F2 Hf Hd. pose proof (grown_fits _ _ _ _ _ _ G) as F1. constructor.
  - done.
  - apply (chain_ext drv b1); [|apply G]. intros x Hx. apply Hf, (in_table_bound drv b1); [done|].
    eapply chain_in; [apply G|done].
  - apply G.
  - apply G.
  - intros x Hx Hn H0. rewrite Hf by (by apply (in_table_bound drv b1)).
    by apply (grown_fat _ _ _ _ _ _ G).
  - intros x Hx Hn H0. rewrite Hd by done. by apply (grown_data _ _ _ _ _ _ G).
  - rewrite <- (grown_count _ _ _ _ _ _ G). f_equal. apply count_free_ext. intros x Hx.
    rewrite Hf; [done|]. destruct F1. unfold ROOT_CLUSTER in *. lia.
Qed.

Section creating.
Context {D : Type} `{DL : DiskLaws D}.
Variable drv : Fat32Driver.
Implicit Types b : list Z.

Abbreviation does c b r b' := (runs (S:=D) (E:=FileSystemError) holds c b r b').

Lemma free_available b : (0 < free_count drv b)%nat -> exists z, first_free drv b = Some z.
Proof. apply count_free_pos. Qed.

Lemma expand_directory_does b pc pl es :
  fits drv b -> dir_repr drv b pc pl es -> (0 < free_count drv b)%nat ->
  exists b1 z, does (expand_directory drv pc (length es)) b (Ok (length es)) b1 /\
    grown drv pc b pl b1 (pl ++ [z]) /\ dir_repr drv b1 pc (pl ++ [z]) es.
Proof.
  intros F (Hl & Hes & k & Hk) Hfree. destruct (free_available b Hfree) as [z Hz].
  destruct (first_free_some drv b z F Hz) as (Hzin & Hz0 & _).
  pose proof (in_table_bound drv b z F Hzin) as Hzb.
  destruct (chain_in_table drv b pc pl Hl) as [_ Hh].
  destruct (exists_last (l := pl)) as (l0 & y & Hpl); [by destruct pl|]. subst pl.
  pose proof (last_cluster_does (D:=D) drv b pc _ F Hl (chain_fuel drv)
    (chain_short drv b pc _ F Hl)) as Hlast. rewrite last_last in Hlast.
  assert (Hy : in_table drv y).
  { eapply chain_in; [exact Hl|]. apply elem_of_app. right. apply list_elem_of_here. }
  destruct (grown_extend drv pc b l0 y z F Hl Hz) as [G Hb].
  pose proof (grown_fits _ _ _ _ _ _ G) as F1.
  destruct (fresh_facts drv b z F Hzin) as (F0 & _).
  set (b2 := set_fat drv (linked drv b y z) z END_OF_CHAIN).
  assert (Hyz : y <> z).
  { intros ->. apply (chain_fat_nonzero drv b pc _ z F Hl); [|done].
    apply elem_of_app. right. apply list_elem_of_here. }
  assert (Hfz : fat drv (linked drv b y z) z = END_OF_CHAIN).
  { unfold linked. rewrite fat_set_other by (done || by apply (in_table_bound drv b) || lia).
    by apply fresh_facts. }
  assert (Hf : forall x, 0 <= x < max_cluster drv -> fat drv b2 x = fat drv (linked drv b y z) x).
  { intros x Hx. unfold b2. destruct (decide (x = z)) as [->|].
    - by rewrite fat_set_same, Hfz by done.
    - apply fat_set_other; [done|done|lia|done]. }
  assert (Hd : forall x, in_table drv x ->
    cluster_data drv b2 x = cluster_data drv (linked drv b y z) x).
  { intros x Hx. by apply cluster_data_set_fat. }
  assert (F2 : fits drv b2) by (by apply fits_set_fat).
  pose proof (grown_same drv _ _ _ _ _ b2 G F2 Hf Hd) as G2.
  exists b2, z. rewrite <- app_assoc. cbn [app]. split_and!; [|done|].
  - unfold expand_directory. eapply runs_bind; [exact Hlast|].
    apply (fresh_cluster_does drv b z); [done|done|].
    eapply runs_bind; [apply write_fat_entry_does; [done|by apply (in_table_bound drv b)]|].
    eapply runs_bind; [by apply write_fat_entry_does|]. apply runs_ret.
  - split; [apply G2|]. split; [done|]. exists (k + cs drv)%nat.
    rewrite (chain_bytes_ext drv (linked drv b y z) b2), Hb, Hk.
    + unfold zeros. by rewrite replicate_add, app_assoc.
    + intros x Hx. apply Hd. eapply chain_in; [apply G|done].
Qed.

Lemma find_free_slot_does b pc pl es :
  fits drv b -> dir_repr drv b pc pl es -> (slot_growth es <= free_count drv b)%nat ->
  exists b1 pl1, does (find_free_slot_in_directory drv pc es) b (Ok (free_slot es)) b1 /\
    grown drv pc b pl b1 pl1 /\ dir_repr drv b1 pc pl1 es /\
    length pl1 = (length pl + slot_growth es)%nat /\
    ((free_slot es + 1) * 32 <= length pl1 * cs drv)%nat.
Proof.
  intros F R Hfree. pose proof (dir_repr_room drv b pc pl es F R) as Hroom.
  pose proof R as (Hl & _). destruct (cs_pos drv b F) as [Hcs _].
  unfold find_free_slot_in_directory, free_slot, slot_growth in *.
  destruct (find_index _ es 0) as [[i e]|] eqn:Hf.
  - exists b, pl. split_and!; [apply runs_ret|by apply grown_refl|done|lia|].
    destruct (find_index_some _ _ _ _ _ Hf) as (_ & Hi & _). rewrite Nat.sub_0_r in Hi.
    apply lookup_lt_Some in Hi. lia.
  - destruct (expand_directory_does b pc pl es F R) as (b1 & z & Hx & G & R1); [lia|].
    exists b1, (pl ++ [z]). split_and!; [done|done|done|by rewrite length_app|].
    rewrite length_app. cbn [length].
    assert (cs drv = (Z.to_nat (sectors_per_cluster drv) * 512)%nat /\
      0 < sectors_per_cluster drv) as [Hcs' ?].
    { destruct F. unfold cs, SECTOR_SIZE in *. lia. }
    nia.
Qed.

(** What [create_file] leaves, with the entry [e], its slot and its cluster. *)
Record created (b : list Z) (pc : Z) (pl : list Z) (es : list DirectoryEntry) (n : str)
    (b' : list Z) (pl' : list Z) (z : Z) : Prop := {
  created_fits : fits drv b';
  created_dir : dir_repr drv b' pc pl' (put_entry (free_slot es) (new_entry n z) es);
  created_growth : length pl' = (length pl + slot_growth es)%nat;
  created_free : fat drv b z = 0;
  created_chain : chain drv b' z [z];
  created_apart : z ∉ pl';
  created_blank : cluster_data drv b' z = zeros drv;
  created_frame : forall x, in_table drv x -> x ∉ pl -> fat drv b x <> 0 ->
    fat drv b' x = fat drv b x /\ cluster_data drv b' x = cluster_data drv b x;
}.

Lemma create_file_does b pc pl es n id :
  fits drv b -> dir_repr drv b pc pl es -> plain_name n -> listed n es = false ->
  (exists pp a, decode_node_id id = (pc, pp, a) /\ is_directory a = true) ->
  (slot_growth es + 1 <= free_count drv b)%nat ->
  exists b' pl' z, created b pc pl es n b' pl' z /\
    does (create_file drv id n) b (Ok (encode_node_id (new_entry n z) pc)) b'.
Proof.
  intros F R Hn Hlist (pp & a & Hid & Ha) Hfree.
  pose proof Hn as (Hv & Hp & _). pose proof (plain_ascii n Hp) as Hasc.
  destruct (find_free_slot_does b pc pl es F R ltac:(lia)) as (b1 & pl1 & H1 & G1 & R1 & Hl1 & Hr1).
  pose proof (grown_fits _ _ _ _ _ _ G1) as F1. pose proof (grown_count _ _ _ _ _ _ G1) as Hc1.
  destruct (free_available b1 ltac:(lia)) as [z Hz].
  destruct (first_free_some drv b1 z F1 Hz) as (Hzin & Hz0 & _).
  pose proof (in_table_bound drv b1 z F1 Hzin) as Hzb.
  destruct (fresh_facts drv b1 z F1 Hzin) as (F2 & Hzend & Hzf & Hzd & Hzo).
  assert (Hzpl : z ∉ pl1).
  { intros Hx. by apply (chain_fat_nonzero drv b1 pc pl1 z F1 (grown_chain _ _ _ _ _ _ G1) Hx). }
  assert (Hpin : forall x, x ∈ pl1 -> in_table drv x).
  { intros x Hx. eapply chain_in; [apply G1|done]. }
  assert (R2 : dir_repr drv (fresh drv b1 z) pc pl1 es).
  { apply (dir_repr_ext drv b1); [| |done]; intros x Hx.
    - apply Hzf; [by apply (in_table_bound drv b1), Hpin|by intros ->].
    - apply Hzo; [by apply Hpin|by intros ->]. }
  destruct (new_entry_live n z Hn) as (Hlive & _ & Hfc).
  { destruct F1. unfold MAX_CLUSTER in *. lia. }
  pose proof R as (_ & Hes & _). destruct (free_slot_facts es Hes) as [Hslot _].
  destruct (write_direntry_does drv (fresh drv b1 z) pc pl1 es (free_slot es) (new_entry n z)
    F2 R2 Hlive Hslot Hr1) as (b3 & H3 & F3 & R3 & Hf3 & Hd3).
  assert (Hzb0 : fat drv b z = 0).
  { destruct (decide (fat drv b z = 0)) as [|Hne]; [done|]. exfalso.
    destruct (decide (z ∈ pl)) as [Hin|Hout].
    - apply Hzpl. eapply elem_of_prefix; [done|apply G1].
    - apply Hne. rewrite <- Hz0. symmetry. by apply (grown_fat _ _ _ _ _ _ G1). }
  exists b3, pl1, z. split; [constructor; try done|].
  - constructor; [done|]. rewrite Hf3, Hzend by done. vm_compute. congruence.
  - by rewrite Hd3.
  - intros x Hx Hnx H0.
    assert (Hxp : x ∉ pl1).
    { intros Hxp. apply H0. by apply (grown_new _ _ _ _ _ _ G1). }
    assert (Hxz : x <> z) by (by intros ->).
    pose proof (in_table_bound drv b1 x F1 Hx). split.
    + rewrite Hf3, Hzf by done. by apply (grown_fat _ _ _ _ _ _ G1).
    + rewrite Hd3, Hzo by done. by apply (grown_data _ _ _ _ _ _ G1).
  - unfold create_file. rewrite Hid, Ha, Hv. cbn [negb].
    eapply runs_bind.
    { unfold check_new_name. eapply runs_bind; [apply (read_directory_entries_does drv b pc pl)|].
      - done.
      - done.
      - fold (listed n es). rewrite Hlist. apply runs_ret. }
    eapply runs_bind; [exact H1|]. apply (fresh_cluster_does drv b1 z); [done|done|].
    eapply runs_bind.
    { unfold named. destruct (encode_name n create_empty Hasc Hv) as [-> _]. apply runs_ret. }
    eapply runs_bind; [exact H3|]. apply runs_ret.
Qed.

(** The padded short name of a plain name. *)
Definition short_name (n : str) : list Z :=
  pad 8 (upper <$> fst (stem_ext n)) ++ pad 3 (upper <$> default [] (snd (stem_ext n))).

Lemma short_name_spec n : plain_name n -> to_fat32_name n = Ok (short_name n).
Proof.
  intros (Hv & Hp & _). by apply (encode_name n create_empty); [apply plain_ascii|].
Qed.

Lemma short_name_upper n n' : upper <$> n' = upper <$> n -> short_name n' = short_name n.
Proof. intros Hu. unfold short_name. by destruct (upper_spelling n n' Hu) as [-> ->]. Qed.

Lemma new_entry_matches n c : plain_name n -> full_name_matches (new_entry n c) (short_name n) = true.
Proof.
  intros (Hv & Hp & _). destruct (stem_ext_bounds n (plain_ascii n Hp) Hv) as (_ & Hl & Hx).
  apply (matches_pad _ _ (set_first_cluster c (set_attributes ATTR_ARCHIVE create_empty)));
    apply length_pad; rewrite length_fmap; [done|].
  destruct (snd (stem_ext n)); simpl; [tauto|lia].
Qed.

Lemma split_single sep (n : str) : sep ∉ n -> split sep n = [n].
Proof.
  induction n as [|c n IH]; [done|]. rewrite not_elem_of_cons. intros [Hc Hn]. cbn [split].
  destruct (Z.eqb_spec c sep); [congruence|]. by rewrite IH.
Qed.

(** Looking up a one-part path in the root directory. *)
Lemma find_node_root b l es n i e :
  fits drv b -> dir_repr drv b (root_cluster (boot_sector drv)) l es ->
  plain_name n -> SLASH ∉ n ->
  find_index (fun e => negb (is_deleted e) && full_name_matches e (short_name n)) es 0 =
    Some (i, e) ->
  entry_is_directory e = false ->
  does (find_node drv n) b (Ok (encode_node_id e (root_cluster (boot_sector drv)))) b.
Proof.
  intros F R Hn Hslash Hf Hdir. unfold find_node, find_direntry.
  rewrite split_single by done.
  assert (Hne : n <> []) by (intros ->; by destruct Hn).
  assert (Hparts : non_empty [n] = [n])
    by (unfold non_empty; cbn [List.filter]; by rewrite bool_decide_eq_false_2).
  rewrite Hparts. eapply runs_bind.
  { rewrite bool_decide_eq_false_2 by done. cbn [find_parts]. eapply runs_bind.
    - eapply runs_bind; [rewrite (short_name_spec n Hn); apply runs_lift|].
      eapply runs_bind; [by apply (read_directory_entries_does drv b _ l)|].
      rewrite Hf. eapply runs_bind; [apply runs_ret|]. cbn [length Nat.ltb Nat.leb andb].
      apply runs_ret.
    - apply runs_ret. }
  cbn [snd]. cbv beta iota. rewrite Hdir. cbn [andb negb]. eapply runs_bind; [by apply runs_assert|].
  apply runs_ret.
Qed.

(** C6: a created file is there: in the root directory, when no live entry has its short
    name and the table has room (the check of the code compares the names as they are given:
    [lowercase_duplicates]), [create_file] succeeds; the new entry is an empty file
    on a fresh zeroed cluster of its own, put into the first deleted slot or after the
    last entry; looking up any spelling of the name gives the id that was returned; and
    every other allocated cluster outside the directory is as before. *)
Theorem create_then_find b pl es n id :
  let root := root_cluster (boot_sector drv) in
  fits drv b -> dir_repr drv b root pl es -> dir_sound drv b es ->
  plain_name n -> SLASH ∉ n -> listed n es = false ->
  (forall x, x ∈ es -> is_deleted x = false -> full_name_matches x (short_name n) = false) ->
  (exists pp a, decode_node_id id = (root, pp, a) /\ is_directory a = true) ->
  (slot_growth es + 1 <= free_count drv b)%nat ->
  exists b' pl' e z id',
    does (create_file drv id n) b (Ok id') b' /\
    file_repr drv b' root pl' (put_entry (free_slot es) e es) (free_slot es) e [z] /\
    fat drv b z = 0 /\ file_size e = 0 /\ cluster_data drv b' z = zeros drv /\
    (forall n', plain_name n' -> upper <$> n' = upper <$> n -> SLASH ∉ n' ->
      does (find_node drv n') b' (Ok id') b') /\
    (forall x, in_table drv x -> x ∉ pl -> fat drv b x <> 0 ->
      fat drv b' x = fat drv b x /\ cluster_data drv b' x = cluster_data drv b x).
Proof.
  intros root F R Hsound Hn Hslash Hlist Hnew Hid Hfree.
  destruct (create_file_does b root pl es n id F R Hn Hlist Hid Hfree)
    as (b' & pl' & z & [F' R' _ Hz0 Hzc Hzp Hzd Hfr] & Hdo).
  pose proof R as (_ & Hes & _). destruct (free_slot_facts es Hes) as [Hslot Hbefore].
  destruct (chain_in_table drv b' z [z] Hzc) as [Hzin _].
  apply Forall_cons_iff in Hzin as [Hzin _].
  destruct (new_entry_live n z Hn) as (Hlive & Hdel & Hfc).
  { destruct F, Hzin. unfold MAX_CLUSTER, ROOT_CLUSTER in *. lia. }
  assert (Hmem : forall k x, (k < free_slot es)%nat -> es !! k = Some x ->
    x ∈ es /\ is_deleted x = false).
  { intros k x Hk Hx. split; [by eapply list_elem_of_lookup_2|by eapply Hbefore]. }
  exists b', pl', (new_entry n z), z, (encode_node_id (new_entry n z) root). split_and!; try done.
  - constructor; rewrite ?Hfc; try done.
    + apply find_index_put; [done|by rewrite Hfc, Z.eqb_refl|]. intros k x Hk Hx.
      destruct (Hmem k x Hk Hx) as [Hxe Hxd]. destruct (Hsound x Hxe Hxd) as [_ Hx0].
      apply Z.eqb_neq. congruence.
    + change (file_size (new_entry n z)) with 0. cbn [length]. lia.
    + intros x Hx. by apply list_elem_of_singleton in Hx as ->.
  - intros n' Hn' Hu Hs'.
    apply (find_node_root b' pl' (put_entry (free_slot es) (new_entry n z) es) n' (free_slot es));
      [done|done|done|done| |done].
    rewrite (short_name_upper n n' Hu). apply find_index_put; [done| |].
    + by rewrite Hdel, new_entry_matches.
    + intros k x Hk Hx. destruct (Hmem k x Hk Hx) as [Hxe Hxd].
      by rewrite (Hnew x Hxe Hxd), andb_false_r.
Qed.

Lemma listed_upper n es :
  plain_name n -> upper <$> n <> n ->
  (forall x, x ∈ es -> is_deleted x = false -> upper <$> get_filename x = get_filename x) ->
  listed n es = false.
Proof.
  intros (_ & Hp & _) Hu Hes. unfold listed. apply not_true_is_false. intros Hex.
  apply existsb_exists in Hex as (x & Hx & Ht). apply andb_true_iff in Ht as [Hd Hb].
  apply negb_true_iff in Hd. apply bool_decide_eq_true in Hb.
  rewrite utf8_ascii in Hb by (by apply plain_ascii). apply Hu.
  rewrite <- Hb. apply Hes; [by apply list_elem_of_In|done].
Qed.

(** The duplicate check misses the file system's own spelling: it compares the stored,
    upper-case name with the name as given, so a name with a lower-case letter is never
    found to exist. Creating it in a directory that already holds it succeeds and leaves
    two live entries that answer to the same short name. *)
Theorem lowercase_duplicates b pc pl es n id j old :
  fits drv b -> dir_repr drv b pc pl es -> plain_name n -> upper <$> n <> n ->
  (forall x, x ∈ es -> is_deleted x = false -> upper <$> get_filename x = get_filename x) ->
  es !! j = Some old -> is_deleted old = false -> full_name_matches old (short_name n) = true ->
  (exists pp a, decode_node_id id = (pc, pp, a) /\ is_directory a = true) ->
  (slot_growth es + 1 <= free_count drv b)%nat ->
  exists b' es' i new id',
    does (create_file drv id n) b (Ok id') b' /\
    does (read_directory_entries drv pc) b' (Ok es') b' /\
    i <> j /\ es' !! i = Some new /\ es' !! j = Some old /\
    is_deleted new = false /\ full_name_matches new (short_name n) = true.
Proof.
  intros F R Hn Hu Hes Hj Hold Hm Hid Hfree.
  pose proof (listed_upper n es Hn Hu Hes) as Hlist.
  destruct (create_file_does b pc pl es n id F R Hn Hlist Hid Hfree)
    as (b' & pl' & z & [F' R' _ Hz0 Hzc Hzp Hzd Hfr] & Hdo).
  destruct (chain_in_table drv b' z [z] Hzc) as [Hzin _].
  apply Forall_cons_iff in Hzin as [Hzin _].
  destruct (new_entry_live n z Hn) as (_ & Hdel & _).
  { destruct F, Hzin. unfold MAX_CLUSTER, ROOT_CLUSTER in *. lia. }
  pose proof (lookup_lt_Some _ _ _ Hj) as Hjl.
  assert (Hij : free_slot es <> j).
  { unfold free_slot. intros Heq. destruct (find_index _ es 0) as [[i e]|] eqn:Hf; [|lia].
    destruct (find_index_some _ _ _ _ _ Hf) as (_ & Hi & Hv). rewrite Nat.sub_0_r in Hi.
    subst i. rewrite Hj in Hi. injection Hi as <-.
    destruct R as (_ & Hlive & _). rewrite Forall_forall in Hlive.
    destruct (Hlive old) as [_ Hne]; [apply list_elem_of_In; by eapply list_elem_of_lookup_2|].
    unfold is_valid, is_deleted, is_empty in *. rewrite Hold, Hne in Hv. done. }
  exists b', (put_entry (free_slot es) (new_entry n z) es), (free_slot es), (new_entry n z),
    (encode_node_id (new_entry n z) pc).
  pose proof R as (_ & Hlive & _). destruct (free_slot_facts es Hlive) as [Hslot _].
  split_and!; [done|by apply (read_directory_entries_does drv b' pc pl')|done| | |done|
    by apply new_entry_matches].
  - unfold put_entry. case_decide; [by apply list_lookup_insert_eq|].
    rewrite lookup_app_r by lia. by replace (free_slot es - length es)%nat with 0%nat by lia.
  - unfold put_entry. case_decide; [by rewrite list_lookup_insert_ne|].
    by rewrite lookup_app_l.
Qed.

(** A directory without deleted entries grows by a whole cluster with every file
    created in it, however many free records its last cluster still has: the listing the
    slot search works on ends before the first free record, so none is ever found. *)
Theorem create_grows_directory b pc pl es n id :
  fits drv b -> dir_repr drv b pc pl es -> plain_name n -> listed n es = false ->
  Forall (fun e => is_valid e = true) es ->
  (exists pp a, decode_node_id id = (pc, pp, a) /\ is_directory a = true) ->
  (2 <= free_count drv b)%nat ->
  exists b' pl' id', does (create_file drv id n) b (Ok id') b' /\
    chain drv b pc pl /\ chain drv b' pc pl' /\ length pl' = S (length pl).
Proof.
  intros F R Hn Hlist Hval Hid Hfree.
  assert (Hnone : find_index (fun e => negb (is_valid e)) es 0 = None).
  { apply find_index_none. revert Hval. apply Forall_impl. by intros e ->. }
  assert (Hg : slot_growth es = 1%nat) by (unfold slot_growth; by rewrite Hnone).
  destruct (create_file_does b pc pl es n id F R Hn Hlist Hid ltac:(lia))
    as (b' & pl' & z & [F' R' Hgrow _ _ _ _ _] & Hdo).
  exists b', pl', (encode_node_id (new_entry n z) pc).
  split_and!; [done|apply R|apply R'|lia].
Qed.

(** C35: deleting a file frees exactly its clusters and marks exactly its entry: every table
    entry of the chain reads as free, the directory lists the entry as deleted, every
    other entry, table entry and cluster keeps its value. Deleting a directory that still
    holds a live entry besides the dot entries is refused and changes nothing. *)
Theorem delete_exact b pc pl es j e fl id :
  fits drv b -> file_repr drv b pc pl es j e fl -> names_file id pc e ->
  (exists b', does (delete drv id) b (Ok tt) b' /\
    does (read_directory_entries drv pc) b' (Ok (<[ j := mark_deleted e ]> es)) b' /\
    is_deleted (mark_deleted e) = true /\
    (forall x, x ∈ fl -> fat drv b' x = 0) /\
    (forall x, 0 <= x < max_cluster drv -> x ∉ fl -> fat drv b' x = fat drv b x) /\
    (forall x, in_table drv x -> x ∉ pl -> cluster_data drv b' x = cluster_data drv b x)) /\
  (forall dir c l des x y a k, decode_node_id dir = (c, pc, a) -> is_directory a = true ->
    find_index (fun e => negb (is_deleted e) && (get_first_cluster e =? c)) es 0 = Some (k, y) ->
    dir_repr drv b c l des -> x ∈ des -> is_valid x = true -> at_ (name x) 0 <> DOT ->
    does (delete drv dir) b (Err DirectoryNotEmpty) b).
Proof.
  intros F [Hdir Hfind Hlive Hl Hsize Hap] (a & Hid & Ha). split.
  - destruct (chain_in_table drv b _ fl Hl) as [Hin _].
    destruct (free_all_facts drv fl b F Hin) as (F1 & Ho & Hz & Hd).
    set (b1 := free_all drv b fl) in *.
    destruct (find_index_some _ _ _ _ _ Hfind) as (_ & Hj & _). rewrite Nat.sub_0_r in Hj.
    pose proof (lookup_lt_Some _ _ _ Hj) as Hjl.
    pose proof Hdir as (Hpc & Hes & _).
    assert (Hpl : forall x, x ∈ pl -> in_table drv x /\ x ∉ fl).
    { intros x Hx. split; [by eapply chain_in|]. intros Hf. by apply (Hap x Hf). }
    assert (R1 : dir_repr drv b1 pc pl es).
    { apply (dir_repr_ext drv b); [| |done]; intros x Hx; destruct (Hpl x Hx) as [Hxin Hxf].
      - apply Ho; [|done]. by apply (in_table_bound drv b).
      - by apply Hd. }
    assert (He : entry_live e).
    { rewrite Forall_forall in Hes. apply Hes, list_elem_of_In. by eapply list_elem_of_lookup_2. }
    assert (Hm : entry_live (mark_deleted e) /\ is_deleted (mark_deleted e) = true).
    { destruct He as [[] ?]. destruct ok_name as [Hn8 Hnb].
      destruct (list_8 (name e) Hn8) as (n0 & n1 & n2 & n3 & n4 & n5 & n6 & n7 & Hnm).
      unfold mark_deleted. rewrite Hnm in *. split; [split|done]; [|done].
      constructor; simpl; try done. split; [done|].
      apply Forall_cons_iff in Hnb as [_ Hnb]. apply Forall_cons; [|done].
      unfold byte, FIRST_BYTE_IS_DELETED_FLAG. lia. }
    destruct Hm as [Hm Hmd].
    pose proof (dir_repr_room drv b pc pl es F Hdir) as Hroom.
    destruct (write_direntry_does drv b1 pc pl es j (mark_deleted e) F1 R1 Hm)
      as (b2 & H2 & F2 & R2 & Hf2 & Hd2); [lia|lia|].
    unfold put_entry in R2. rewrite decide_True in R2 by done.
    exists b2. split_and!; [|by apply (read_directory_entries_does drv b2 pc pl)|done| | |].
    + unfold delete. rewrite Hid, Ha.
      eapply runs_bind; [by apply (read_directory_entries_does drv b pc pl)|].
      rewrite (find_index_stronger (fun x => get_first_cluster x =? get_first_cluster e) _ es j e);
        [|done| |by rewrite Hlive, Z.eqb_refl].
      * eapply runs_bind; [apply runs_ret|]. eapply runs_bind; [|exact H2].
        apply (free_chain_does drv b _ fl F Hl b); [done|by apply (chain_nodup drv b (get_first_cluster e))|done|].
        by apply (chain_short drv b (get_first_cluster e)).
      * intros x Hx. by apply andb_true_iff in Hx as [_ ?].
    + intros x Hx. rewrite Hf2; [by apply Hz|].
      apply (in_table_bound drv b); [done|by apply (chain_in drv b (get_first_cluster e) fl)].
    + intros x Hx Hn. rewrite Hf2 by done. apply Ho; [lia|done].
    + intros x Hx Hn. rewrite Hd2 by done. by apply Hd.
  - intros dir c l des x y a' k Hdid Ha' Hk Rd Hx Hv Hdot. unfold delete. rewrite Hdid, Ha'.
    eapply runs_bind; [by apply (read_directory_entries_does drv b pc pl)|].
    rewrite Hk. eapply runs_bind; [apply runs_ret|]. apply runs_bind_err.
    eapply runs_bind; [by apply (read_directory_entries_does drv b c l)|].
    replace (existsb _ des) with true; [apply runs_err|]. symmetry. apply existsb_exists.
    exists x. split; [by apply list_elem_of_In|]. rewrite Hv. by apply Z.eqb_neq in Hdot as ->.
Qed.

End creating.

(** ** Witnesses on the demo volume *)

(** "a.txt" and "b.txt" *)
Definition name_a : str := [0x61; 0x2E; 0x74; 0x78; 0x74].
Definition name_b : str := [0x62; 0x2E; 0x74; 0x78; 0x74].

Definition demo_root_id : Z := root_dir_node_id demo_drv.

Lemma demo_plain n : n = name_a \/ n = name_b -> plain_name n.
Proof. by intros [-> | ->]; (split; [done|]; split; [done|]); intros s x [= <- <-]. Qed.

Lemma demo_no_slash n : n = name_a \/ n = name_b -> SLASH ∉ n.
Proof.
  intros Hn Hs. apply list_elem_of_In in Hs. by destruct Hn as [-> | ->]; vm_compute in Hs; intuition.
Qed.

Lemma demo_parent :
  exists pp a, decode_node_id demo_root_id = (2, pp, a) /\ is_directory a = true.
Proof. exists 2, 16. split; vm_compute; reflexivity. Qed.

Lemma create_then_find_witness :
  exists b' id', demo_does (create_file demo_drv demo_root_id name_b) (Ok id') b' /\
    runs (S:=MockDiskDevice.MockDiskDevice) (E:=FileSystemError) holds
      (find_node demo_drv name_b) b' (Ok id') b'.
Proof.
  destruct (create_then_find (D:=MockDiskDevice.MockDiskDevice) demo_drv demo_volume [2]
    [demo_entry] name_b demo_root_id demo_fits demo_dir) as
    (b' & pl' & e & z & id' & H1 & _ & _ & _ & _ & H2 & _).
  - intros e He _. apply list_elem_of_singleton in He as ->.
    split; [split; vm_compute; congruence|]. vm_compute. congruence.
  - apply demo_plain. by right.
  - apply demo_no_slash. by right.
  - vm_compute. reflexivity.
  - intros x Hx _. apply list_elem_of_singleton in Hx as ->. vm_compute. reflexivity.
  - exact demo_parent.
  - vm_compute. lia.
  - exists b', id'. split; [exact H1|].
    apply (H2 name_b); [apply demo_plain; by right|reflexivity|apply demo_no_slash; by right].
Defined.

Lemma lowercase_duplicates_witness :
  exists b' (es' : list DirectoryEntry) (i : nat) new id',
    demo_does (create_file demo_drv demo_root_id name_a) (Ok id') b' /\
    i <> 0%nat /\ es' !! i = Some new /\ es' !! 0%nat = Some demo_entry /\
    full_name_matches new (short_name name_a) = true.
Proof.
  destruct (lowercase_duplicates (D:=MockDiskDevice.MockDiskDevice) demo_drv demo_volume 2 [2]
    [demo_entry] name_a demo_root_id 0 demo_entry demo_fits demo_dir) as
    (b' & es' & i & new & id' & H1 & _ & H2 & H3 & H4 & _ & H5).
  - apply demo_plain. by left.
  - vm_compute. congruence.
  - intros x Hx _. apply list_elem_of_singleton in Hx as ->. vm_compute. reflexivity.
  - reflexivity.
  - reflexivity.
  - vm_compute. reflexivity.
  - exact demo_parent.
  - vm_compute. lia.
  - exists b', es', i, new, id'. split; [exact H1|]. split; [exact H2|]. split; [exact H3|].
    split; [exact H4|exact H5].
Defined.

Lemma create_grows_directory_witness :
  exists b' (pl' : list Z) id',
    demo_does (create_file demo_drv demo_root_id name_b) (Ok id') b' /\ length pl' = 2%nat.
Proof.
  destruct (create_grows_directory (D:=MockDiskDevice.MockDiskDevice) demo_drv demo_volume 2 [2]
    [demo_entry] name_b demo_root_id demo_fits demo_dir) as (b' & pl' & id' & H1 & _ & _ & H2).
  - apply demo_plain. by right.
  - vm_compute. reflexivity.
  - apply Forall_cons; [reflexivity|by apply Forall_nil].
  - exact demo_parent.
  - vm_compute. lia.
  - exists b', pl', id'. split; [exact H1|exact H2].
Defined.

Lemma delete_exact_witness :
  exists b', demo_does (delete demo_drv demo_id) (Ok tt) b' /\
    fat demo_drv b' 3 = 0 /\ fat demo_drv b' 4 = 0.
Proof.
  destruct (proj1 (delete_exact (D:=MockDiskDevice.MockDiskDevice) demo_drv demo_volume 2 [2]
    [demo_entry] 0 demo_entry [3; 4] demo_id demo_fits demo_file demo_names))
    as (b' & H1 & _ & _ & H2 & _).
  exists b'. split; [exact H1|].
  split; apply H2; [apply list_elem_of_here|apply list_elem_of_further, list_elem_of_here].
Defined.
