(* ===== verification/FileCache.v ===== *)
(** * FileCache: the write-back file cache of kernel/src/filesystem/file_cache.rs

    Whole files are cached in one byte arena that is allocated by pushing at its end
    and compacted after an eviction.  [content c id] is the cached content of a file;
    [wf_cache] says that the cached files occupy disjoint regions below the push
    offset.  The maps are the tables of FxHashMap.v, so eviction scans them in the
    order of their slots.  The driver below the cache is the class
    [CacheFilesystemDriver]; its state is part of the cache's.  [usize] additions and
    subtractions that can leave the width panic, as in the default build. *)

From Stdlib Require Import ZArith Lia.
From stdpp Require Import base tactics list option numbers fin_maps gmap.
From S2P Require Import Prelude FxHashMap FsTypes.

Open Scope rust_scope.

Definition INVALID_NODE_HANDLE : Z := 0.

Definition FS_CACHE_MAP_FILE_COUNT : Z := 1024.

(** ** The driver below, and the importance of a file *)

(** [read_file_into] also hands back the buffer it filled. *)
Class CacheFilesystemDriver (D : Type) : Type := {
  cd_read_file_into : Z -> list Z -> stM D FileSystemError (Z * list Z);
  cd_write_file : Z -> Z -> list Z -> stM D FileSystemError Z;
  cd_file_size : Z -> stM D FileSystemError Z;
  cd_read_dir : Z -> stM D FileSystemError (list (list Z));
  cd_get_node : Z -> stM D FileSystemError FileNode;
}.

Inductive CacheImportance : Type :=
  | Minimal
  | Low
  | Normal
  | High
  | VeryHigh
  | Critical
  | Resident.

#[export] Instance CacheImportance_eq_dec : EqDecision CacheImportance.
Proof. solve_decision. Defined.

Definition from_u8 (value : Z) : option CacheImportance :=
  match value with
  | 0 => Some Minimal
  | 1 => Some Low
  | 2 => Some Normal
  | 3 => Some High
  | 4 => Some VeryHigh
  | 5 => Some Critical
  | 6 => Some Resident
  | _ => None
  end.

Definition eviction_priority (i : CacheImportance) : Z :=
  match i with
  | Minimal => 0
  | Low => 1
  | Normal => 2
  | High => 3
  | VeryHigh => 4
  | Critical => 5
  | Resident => U64_MAX
  end.

Record CachedFile : Type := mkCached {
  arena_offset : Z;
  cf_len : Z;
  last_access : Z;
  is_dirty : bool;
  pinned : bool;
  importance : CacheImportance;
}.

Definition new_cached (arena_offset len tick : Z) (importance : CacheImportance) : CachedFile :=
  mkCached arena_offset len tick false false importance.

Definition set_region (off len : Z) (f : CachedFile) : CachedFile :=
  mkCached off len (last_access f) (is_dirty f) (pinned f) (importance f).
Definition touch (tick : Z) (f : CachedFile) : CachedFile :=
  mkCached (arena_offset f) (cf_len f) tick (is_dirty f) (pinned f) (importance f).
Definition set_dirty (d : bool) (f : CachedFile) : CachedFile :=
  mkCached (arena_offset f) (cf_len f) (last_access f) d (pinned f) (importance f).
Definition set_pin (p : bool) (i : CacheImportance) (f : CachedFile) : CachedFile :=
  mkCached (arena_offset f) (cf_len f) (last_access f) (is_dirty f) p i.

Record CacheStats : Type := mkStats {
  total_files : Z;
  total_bytes : Z;
  max_bytes : Z;
  dirty_files : Z;
}.

(** ** The cache *)

Abbreviation FileMap := (FxHashMap Z CachedFile).

Record FileCache (D : Type) : Type := mkCache {
  driver : D;
  arena : list Z;
  arena_push_offset : Z;
  current_memory_used : Z;
  max_memory : Z;
  access_tick : Z;
  files : FileMap;
  file_nodes : FxHashMap Z FileNode;
  directory_children : FxHashMap Z (list Z);
  directory_hints : FxHashMap Z CacheImportance;
}.
Arguments mkCache {D}.
Arguments driver {D}.
Arguments arena {D}.
Arguments arena_push_offset {D}.
Arguments current_memory_used {D}.
Arguments max_memory {D}.
Arguments access_tick {D}.
Arguments files {D}.
Arguments file_nodes {D}.
Arguments directory_children {D}.
Arguments directory_hints {D}.

(** The maps are keyed by node handles, which are [usize]s. *)
Abbreviation mget := (FxHashMap.get usize_key).
Abbreviation mhas := (FxHashMap.contains_key usize_key).
Abbreviation mremove := (FxHashMap.remove usize_key).

Definition minsert {V E} (m : FxHashMap Z V) (k : Z) (v : V) : result E (FxHashMap Z V) :=
  match FxHashMap.insert usize_key m k v with
  | Some (_, m') => Ok m'
  | None => Panic
  end.

(** Changing the value [get_mut] finds, if it finds one. *)
Definition mupdate {V} (m : FxHashMap Z V) (k : Z) (f : V -> V) : FxHashMap Z V :=
  match mget m k with
  | Some v => default m (FxHashMap.get_mut_write usize_key m k (f v))
  | None => m
  end.

(** [&buf[off..off + n]], [buf[off..off + n].copy_from_slice(new)] and
    [buf.copy_within(src..src + n, dest)]; out of range they panic. *)
Definition slice_at {E} (buf : list Z) (off n : Z) : result E (list Z) :=
  if (0 <=? off) && (0 <=? n) && (off + n <=? zlen buf)
  then Ok (slice buf (Z.to_nat off) (Z.to_nat n)) else Panic.
Definition splice_at {E} (buf : list Z) (off : Z) (new : list Z) : result E (list Z) :=
  if (0 <=? off) && (off + zlen new <=? zlen buf)
  then Ok (splice buf (Z.to_nat off) new) else Panic.
Definition copy_within {E} (buf : list Z) (src n dest : Z) : result E (list Z) :=
  let? bytes := slice_at buf src n in splice_at buf dest bytes.

Definition zeros (n : Z) : list Z := replicate (Z.to_nat n) 0.

Definition Live : Type := Z * Z * Z.

Definition sort_key (sort_last : Z) (x : Live) : Z :=
  let '(id, offset, _) := x in if id =? sort_last then U64_MAX else offset.

(** The loop of [compact]: the arena, the files and the offset written so far. *)
Fixpoint compact_loop {E} (live : list Live) (write_offset : Z) (buf : list Z) (fs : FileMap)
    : result E (Z * list Z * FileMap) :=
  match live with
  | [] => Ok (write_offset, buf, fs)
  | (id, old_offset, len) :: live =>
      if old_offset =? write_offset then compact_loop live (write_offset + len) buf fs else
      let? buf := copy_within buf old_offset len write_offset in
      let fs := mupdate fs id (fun f => set_region write_offset (cf_len f) f) in
      compact_loop live (write_offset + len) buf fs
  end.

Definition live_of (kv : Z * CachedFile) : Live := (kv.1, arena_offset kv.2, cf_len kv.2).

Section cache.
Context {D : Type} `{CacheFilesystemDriver D}.
(** The cycle counter's time during the operation that has the given access tick. *)
Variable timestamp_us : Z -> Z.

Abbreviation M := (stM (FileCache D) FileSystemError).
Implicit Types c : FileCache D.

Definition get_st : M (FileCache D) := fun c => (Ok c, c).
Definition upd (f : FileCache D -> FileCache D) : M unit := fun c => (Ok tt, f c).

Definition set_driver (d : D) c : FileCache D :=
  mkCache d (arena c) (arena_push_offset c) (current_memory_used c) (max_memory c)
    (access_tick c) (files c) (file_nodes c) (directory_children c) (directory_hints c).
Definition set_arena (a : list Z) c : FileCache D :=
  mkCache (driver c) a (arena_push_offset c) (current_memory_used c) (max_memory c)
    (access_tick c) (files c) (file_nodes c) (directory_children c) (directory_hints c).
Definition set_push (p : Z) c : FileCache D :=
  mkCache (driver c) (arena c) p (current_memory_used c) (max_memory c)
    (access_tick c) (files c) (file_nodes c) (directory_children c) (directory_hints c).
Definition set_used (u : Z) c : FileCache D :=
  mkCache (driver c) (arena c) (arena_push_offset c) u (max_memory c)
    (access_tick c) (files c) (file_nodes c) (directory_children c) (directory_hints c).
Definition set_tick (t : Z) c : FileCache D :=
  mkCache (driver c) (arena c) (arena_push_offset c) (current_memory_used c) (max_memory c)
    t (files c) (file_nodes c) (directory_children c) (directory_hints c).
Definition set_files (fs : FileMap) c : FileCache D :=
  mkCache (driver c) (arena c) (arena_push_offset c) (current_memory_used c) (max_memory c)
    (access_tick c) fs (file_nodes c) (directory_children c) (directory_hints c).
Definition set_nodes (ns : FxHashMap Z FileNode) c : FileCache D :=
  mkCache (driver c) (arena c) (arena_push_offset c) (current_memory_used c) (max_memory c)
    (access_tick c) (files c) ns (directory_children c) (directory_hints c).
Definition set_children (ch : FxHashMap Z (list Z)) c : FileCache D :=
  mkCache (driver c) (arena c) (arena_push_offset c) (current_memory_used c) (max_memory c)
    (access_tick c) (files c) (file_nodes c) ch (directory_hints c).
Definition set_hints (h : FxHashMap Z CacheImportance) c : FileCache D :=
  mkCache (driver c) (arena c) (arena_push_offset c) (current_memory_used c) (max_memory c)
    (access_tick c) (files c) (file_nodes c) (directory_children c) h.

(** A call of the driver. *)
Definition on_driver {A} (call : stM D FileSystemError A) : M A := fun c =>
  let '(r, d) := call (driver c) in (r, set_driver d c).

(** The [Result] of a call as a value. *)
Definition attempt {A} (call : M A) : M (A + FileSystemError) := fun c =>
  match call c with
  | (Ok a, c) => (Ok (inl a), c)
  | (Err e, c) => (Ok (inr e), c)
  | (Panic, c) => (Panic, c)
  | (OutOfFuel, c) => (OutOfFuel, c)
  end.

Definition new (d : D) (max_memory : Z) : FileCache D :=
  mkCache d (zeros max_memory) 0 0 max_memory 0
    (FxHashMap.with_capacity FS_CACHE_MAP_FILE_COUNT)
    (FxHashMap.with_capacity FS_CACHE_MAP_FILE_COUNT) FxHashMap.new FxHashMap.new.

Definition arena_push_alloc (len : Z) : M (option Z) :=
  let! c := get_st in
  let! e := slift (uadd (arena_push_offset c) len) in
  if e <=? max_memory c
  then upd (set_push e) ;;; sret (Some (arena_push_offset c))
  else sret None.

Definition compact (sort_last : Z) : M unit :=
  let! c := get_st in
  let live := sort_by_key (sort_key sort_last) (live_of <$> iter (files c)) in
  let! (w, buf, fs) := slift (compact_loop live 0 (arena c) (files c)) in
  upd (fun c => set_push w (set_files fs (set_arena buf c))).

(** The scan of the eviction candidates: the best score so far and its file. *)
Definition evict_score c (f : CachedFile) : Z :=
  saturating_mul 64 (eviction_priority (importance f))
    (Z.max (wrap 64 (access_tick c - last_access f)) 1).

Definition candidate (keep : option Z) (force : bool) (kv : Z * CachedFile) : bool :=
  negb ((pinned kv.2 && negb force) || bool_decide (keep = Some kv.1)) &&
  negb ((eviction_priority (importance kv.2) =? U64_MAX) && negb force).

Definition evict_scan c (keep : option Z) (force : bool) (best : Z * Z) (kv : Z * CachedFile)
    : Z * Z :=
  if candidate keep force kv && (best.1 <? evict_score c kv.2)
  then (evict_score c kv.2, kv.1) else best.

Definition evict_choice c (keep : option Z) (force : bool) : Z :=
  (foldl (evict_scan c keep force) (0, INVALID_NODE_HANDLE) (iter (files c))).2.

(** What both evictions do with their choice: flush it when dirty, forget it, and
    return its size; 0 when there is none or the flush fails. *)
Definition evict_chosen (best_id : Z) : M Z :=
  if best_id =? INVALID_NODE_HANDLE then sret 0 else
  let! c := get_st in
  let! flushed := (match mget (files c) best_id with
    | Some f =>
        if is_dirty f then
          let! bytes := slift (slice_at (arena c) (arena_offset f) (cf_len f)) in
          let! r := attempt (on_driver (cd_write_file best_id 0 bytes)) in
          sret (match r with inl _ => true | inr _ => false end)
        else sret true
    | None => sret true
    end) in
  if negb flushed then sret 0 else
  let! c := get_st in
  match mremove (files c) best_id with
  | (Some f, fs) =>
      upd (set_files fs) ;;;
      let! u := slift (usub (current_memory_used c) (cf_len f)) in
      upd (set_used u) ;;; sret (cf_len f)
  | (None, _) => sret 0
  end.

Definition evict_one : M Z :=
  let! c := get_st in evict_chosen (evict_choice c None false).

Definition evict_one_keep_alive (file_to_keep : Z) (force_eviction : bool) : M Z :=
  let! c := get_st in evict_chosen (evict_choice c (Some file_to_keep) force_eviction).

(** The [while] loop of [ensure_space]; every turn but the last evicts a file, so the
    number of cached files bounds it ([ensure_space_safe]). *)
Fixpoint ensure_space_loop (fuel : nat) (needed file_to_end : Z) (force : bool) : M bool :=
  match fuel with
  | O => sfuel
  | S fuel =>
      let! c := get_st in
      let! e := slift (uadd (arena_push_offset c) needed) in
      if e <=? max_memory c then sret true else
      let! evicted_size := evict_one_keep_alive file_to_end force in
      if evicted_size =? 0 then sret false else
      let! c := get_st in
      let! t := slift (uadd (current_memory_used c) needed) in
      let! t := slift (usub t evicted_size) in
      (if t <=? max_memory c then compact file_to_end else sret tt) ;;;
      ensure_space_loop fuel needed file_to_end force
  end.

Definition ensure_space (needed file_to_end : Z) (force : bool) : M bool :=
  let! c := get_st in
  ensure_space_loop (S (length (iter (files c)))) needed file_to_end force.

Definition get_effective_importance c (node_id : Z) : CacheImportance :=
  default Normal (mget (directory_hints c) node_id).

Definition tick_op : M unit := upd (fun c => set_tick (wrap 64 (access_tick c + 1)) c).

(** Reads the whole file into the region just pushed and caches it. *)
Definition load_into (node_id arena_off file_size : Z) : M Z :=
  let! c := get_st in
  let! buf := slift (slice_at (arena c) arena_off file_size) in
  let! (read, buf) := on_driver (cd_read_file_into node_id buf) in
  let! c := get_st in
  let! a := slift (splice_at (arena c) arena_off buf) in
  let! fs := slift (minsert (files c) node_id
    (new_cached arena_off read (access_tick c) (get_effective_importance c node_id))) in
  upd (fun c => set_files fs (set_arena a c)) ;;; sret read.

(** [out[..n].copy_from_slice(&src[off..off + n])], and the result [Ok(n)] *)
Definition copy_out (src : list Z) (off n : Z) (out : list Z) : M (Z * list Z) :=
  let! bytes := slift (slice_at src off n) in
  let! out := slift (splice_at out 0 bytes) in
  sret (n, out).

Definition read_file_range (node_id offset : Z) (out : list Z) : M (Z * list Z) :=
  tick_op ;;;
  let! c := get_st in
  match mget (files c) node_id with
  | Some cached =>
      upd (set_files (mupdate (files c) node_id (touch (access_tick c)))) ;;;
      if cf_len cached <=? offset then sret (0, out) else
      copy_out (arena c) (arena_offset cached + offset)
        (Z.min (zlen out) (cf_len cached - offset)) out
  | None =>
      let! file_size := on_driver (cd_file_size node_id) in
      if file_size =? 0 then sret (0, out) else
      let! room := ensure_space file_size INVALID_NODE_HANDLE true in
      if negb room then serr CacheFull else
      let! pushed := arena_push_alloc file_size in
      match pushed with
      | None =>
          let! (read, tmp) := on_driver (cd_read_file_into node_id (zeros file_size)) in
          let e := Z.min (zlen out) (saturating_sub read offset) in
          if 0 <? e then copy_out tmp offset e out else sret (e, out)
      | Some arena_off =>
          let! read_bytes := load_into node_id arena_off file_size in
          let! node := on_driver (cd_get_node node_id) in
          let! c := get_st in
          let! ns := slift (minsert (file_nodes c) node_id node) in
          upd (set_nodes ns) ;;;
          let! u := slift (uadd (current_memory_used c) read_bytes) in
          upd (set_used u) ;;;
          if read_bytes <=? offset then sret (0, out) else
          let! c := get_st in
          copy_out (arena c) (arena_off + offset) (Z.min (zlen out) (read_bytes - offset)) out
      end
  end.

(** The metadata of a file that was just cached by a write. An entry that exists is
    overwritten with a clone of itself: the inner [node] shadows the one just read. *)
Definition note_node (node_id : Z) : M unit :=
  let! node := on_driver (cd_get_node node_id) in
  let! c := get_st in
  if mhas (file_nodes c) node_id then sret tt else
  let! ns := slift (minsert (file_nodes c) node_id node) in
  upd (set_nodes ns).

(** [write_file], first part: the file is put into the cache. *)
Definition write_miss (node_id offset : Z) (data : list Z) : M unit :=
  let! size := attempt (on_driver (cd_file_size node_id)) in
  let file_size := match size with inl n => n | inr _ => 0 end in
  if 0 <? file_size then
    let! room := ensure_space file_size INVALID_NODE_HANDLE true in
    if negb room then serr CacheFull else
    let! pushed := arena_push_alloc file_size in
    match pushed with
    | None => sret tt
    | Some arena_off =>
        let! read := load_into node_id arena_off file_size in
        note_node node_id ;;;
        let! c := get_st in
        let! u := slift (uadd (current_memory_used c) read) in
        upd (set_used u)
    end
  else
    let! needed := slift (uadd offset (zlen data)) in
    let! room := ensure_space needed INVALID_NODE_HANDLE true in
    if negb room then serr CacheFull else
    let! pushed := arena_push_alloc needed in
    match pushed with
    | None => sret tt
    | Some arena_off =>
        let! c := get_st in
        let! a := slift (splice_at (arena c) arena_off (zeros needed)) in
        let! fs := slift (minsert (files c) node_id
          (new_cached arena_off 0 (access_tick c) (get_effective_importance c node_id))) in
        upd (fun c => set_files fs (set_arena a c)) ;;;
        note_node node_id
    end.

(** Extends the file in place by [extra] zero bytes at the push offset. *)
Definition grow_at_tail (node_id extra new_len : Z) : M unit :=
  let! c := get_st in
  let! a := slift (splice_at (arena c) (arena_push_offset c) (zeros extra)) in
  upd (fun c => set_files (mupdate (files c) node_id (fun f => set_region (arena_offset f) new_len f))
    (set_used (current_memory_used c + extra)
    (set_push (arena_push_offset c + extra) (set_arena a c)))).

(** [write_file], second part: the three ways to grow the file to [new_len]. *)
Definition write_grow (node_id : Z) (file : CachedFile) (new_len : Z) : M unit :=
  let! c := get_st in
  let extra := new_len - cf_len file in
  let push := arena_push_offset c in
  let! in_place := (if arena_offset file + cf_len file =? push
    then let! e := slift (uadd push extra) in sret (e <=? max_memory c) else sret false) in
  if (in_place : bool) then
    grow_at_tail node_id extra new_len
  else
    let! free := slift (usub (max_memory c) push) in
    if new_len <=? free then
      let! a := slift (copy_within (arena c) (arena_offset file) (cf_len file) push) in
      let! a := slift (splice_at a (push + cf_len file) (zeros extra)) in
      upd (fun c => set_files (mupdate (files c) node_id (set_region push new_len))
        (set_used (current_memory_used c + extra) (set_push (push + new_len) (set_arena a c))))
    else
      let! room := ensure_space extra node_id true in
      if negb room then serr CacheFull else
      let! c := get_st in
      if arena_push_offset c + extra <=? max_memory c then
        match mget (files c) node_id with
        | Some f =>
            sassert (arena_offset f + cf_len f =? arena_push_offset c) ;;;
            grow_at_tail node_id extra new_len
        | None => sret tt
        end
      else sret tt.

(** [write_file], last part: the data and the metadata. *)
Definition write_patch (node_id offset : Z) (data : list Z) : M Z :=
  let! c := get_st in
  match mget (files c) node_id with
  | None => serr IoError
  | Some file =>
      let! a := slift (splice_at (arena c) (arena_offset file + offset) data) in
      let in_file_write_end := offset + zlen data in
      let len := Z.max (cf_len file) in_file_write_end in
      upd (fun c => set_files
          (mupdate (files c) node_id
            (fun f => touch (access_tick c) (set_dirty true (set_region (arena_offset f) len f))))
        (set_used (current_memory_used c + (len - cf_len file)) (set_arena a c))) ;;;
      let! node := on_driver (cd_get_node node_id) in
      let! c := get_st in
      (if mhas (file_nodes c) node_id then
         upd (set_nodes (mupdate (file_nodes c) node_id (fun n =>
           mkNode (FsTypes.node_id n) (node_name n) (file_type n) len (created_time n)
             (wrap 32 (timestamp_us (access_tick c))) (attributes n))))
       else
         let! ns := slift (minsert (file_nodes c) node_id node) in upd (set_nodes ns)) ;;;
      sret (zlen data)
  end.

Definition write_file (node_id offset : Z) (data : list Z) : M Z :=
  tick_op ;;;
  let! c := get_st in
  (if mhas (files c) node_id then sret tt else write_miss node_id offset data) ;;;
  let! in_file_write_end := slift (uadd offset (zlen data)) in
  let! c := get_st in
  match mget (files c) node_id with
  | None => serr FileNotFound
  | Some file =>
      (if cf_len file <? in_file_write_end
       then write_grow node_id file in_file_write_end else sret tt) ;;;
      write_patch node_id offset data
  end.

Definition get_node_cached (node_id : Z) : M FileNode :=
  let! c := get_st in
  match mget (file_nodes c) node_id with
  | Some node => sret node
  | None =>
      let! node := on_driver (cd_get_node node_id) in
      let! c := get_st in
      let! ns := slift (minsert (file_nodes c) node_id node) in
      upd (set_nodes ns) ;;; sret node
  end.

Definition flush_file (node_id : Z) : M unit :=
  let! c := get_st in
  match mget (files c) node_id with
  | Some cached =>
      if is_dirty cached then
        let! bytes := slift (slice_at (arena c) (arena_offset cached) (cf_len cached)) in
        on_driver (cd_write_file node_id 0 bytes) ;;;
        upd (fun c => set_files (mupdate (files c) node_id (set_dirty false)) c)
      else sret tt
  | None => sret tt
  end.

(** The loop body of [flush_nodes] and [flush_all] is the body of [flush_file]. *)
Fixpoint flush_nodes (node_ids : list Z) : M unit :=
  match node_ids with
  | [] => sret tt
  | node_id :: node_ids => flush_file node_id ;;; flush_nodes node_ids
  end.

Definition flush_all : M unit :=
  let! c := get_st in
  flush_nodes (fst <$> List.filter (fun kv => is_dirty kv.2) (iter (files c))).

Definition pin_file (node_id : Z) : M unit :=
  let! c := get_st in
  (if mhas (files c) node_id then sret tt else
   let! file_size := on_driver (cd_file_size node_id) in
   if 0 <? file_size then read_file_range node_id 0 [] ;;; sret tt else sret tt) ;;;
  upd (fun c => set_files (mupdate (files c) node_id (set_pin true Resident)) c).

Definition unpin_file (node_id : Z) : M unit :=
  upd (fun c => set_files (mupdate (files c) node_id (set_pin false Normal)) c).

Definition set_importance (i : CacheImportance) (f : CachedFile) : CachedFile :=
  if pinned f then f else set_pin (pinned f) i f.

Definition reserve_cache (node_id : Z) (i : CacheImportance) : M unit :=
  let! c := get_st in
  let! h := slift (minsert (directory_hints c) node_id i) in
  upd (set_hints h) ;;;
  upd (fun c => set_files
    (foldl (fun fs child => mupdate fs child (set_importance i)) (files c)
       (default [] (mget (directory_children c) node_id))) c).

(** The loop of [evict_directory], with the bytes freed so far. *)
Fixpoint evict_children (children : list Z) (freed : Z) : M Z :=
  match children with
  | [] => sret freed
  | child_id :: children =>
      let! c := get_st in
      match mget (files c) child_id with
      | Some cached =>
          if pinned cached then evict_children children freed else
          let freed := freed + cf_len cached in
          upd (set_files (mremove (files c) child_id).2) ;;;
          let! u := slift (usub (current_memory_used c) freed) in
          upd (set_used u) ;;;
          evict_children children freed
      | None => evict_children children freed
      end
  end.

Definition evict_directory (node_id : Z) : M Z :=
  let! c := get_st in
  let (children, ch) := mremove (directory_children c) node_id in
  upd (set_children ch) ;;;
  let! freed := evict_children (default [] children) 0 in
  upd (fun c => set_hints (mremove (directory_hints c) node_id).2 c) ;;;
  sret freed.

Definition register_file_in_directory (dir_id file_id : Z) : M unit :=
  let! c := get_st in
  match FxHashMap.entry_or_insert usize_key (directory_children c) dir_id [] with
  | Some (_, ch) => upd (set_children (mupdate ch dir_id (fun l => l ++ [file_id])))
  | None => spanic
  end.

Definition is_cached c (node_id : Z) : bool := mhas (files c) node_id.

Definition stats c : CacheStats :=
  mkStats (FxHashMap.len (files c)) (current_memory_used c) (max_memory c)
    (zlen (List.filter is_dirty (values (files c)))).

Definition invalidate (node_id : Z) : M unit :=
  let! c := get_st in
  (match mremove (files c) node_id with
   | (Some cached, fs) =>
       upd (set_files fs) ;;;
       let! u := slift (usub (current_memory_used c) (cf_len cached)) in upd (set_used u)
   | (None, _) => sret tt
   end) ;;;
  upd (fun c => set_nodes (mremove (file_nodes c) node_id).2 c).

Definition clear : M unit :=
  upd (fun c => mkCache (driver c) (arena c) 0 0 (max_memory c) (access_tick c)
    (FxHashMap.clear (files c)) (file_nodes c) (FxHashMap.clear (directory_children c))
    (FxHashMap.clear (directory_hints c))).

End cache.
