(* ===== verification/FileCacheOk.v ===== *)
(** * FileCacheOk: the file cache keeps the contents of the files

    [wf_cache] is the invariant, [content] the abstract state: what the cache holds
    for each file.  Compaction, eviction, reads, writes and flushes are specified on
    [content]; the cases in which the code breaks it are evaluated on small caches. *)

From Stdlib Require Import ZArith Lia Sorted.
From stdpp Require Import base tactics list option numbers fin_maps gmap.
From S2P Require Import Prelude FxHashMap FsTypes FileCache.

Open Scope rust_scope.

(** ** The tables of the cache as finite maps *)

Abbreviation wf_map := (FxHashMap.wf usize_key).

Section maps.
Context {V : Type}.
Implicit Types m : FxHashMap Z V.

Lemma mget_map m k : wf_map m -> mget m k = to_map m !! k.
Proof. intros W. apply get_to_map, W. Qed.

Lemma mhas_map m k : wf_map m -> mhas m k = bool_decide (is_Some (to_map m !! k)).
Proof. intros W. unfold FxHashMap.contains_key. by rewrite mget_map. Qed.

Lemma mupdate_ok m k f :
  wf_map m -> wf_map (mupdate m k f) /\ to_map (mupdate m k f) = alter f k (to_map m).
Proof.
  intros W. unfold mupdate. rewrite mget_map by done.
  destruct (to_map m !! k) as [v|] eqn:E.
  - pose proof (get_mut_write_ok usize_key m k (f v) W) as Hg.
    destruct (FxHashMap.get_mut_write usize_key m k (f v)) as [m'|]; simpl in *.
    + destruct Hg as (_ & W' & ->). split; [done|]. apply map_eq. intros i.
      destruct (decide (i = k)) as [->|].
      * rewrite lookup_insert_eq, lookup_alter_eq, E. done.
      * rewrite lookup_insert_ne, lookup_alter_ne by done. done.
    + congruence.
  - split; [done|]. symmetry. apply map_eq. intros i. destruct (decide (i = k)) as [->|].
    + rewrite lookup_alter_eq, E. done.
    + by rewrite lookup_alter_ne.
Qed.

Lemma mremove_ok m k :
  wf_map m -> (mremove m k).1 = to_map m !! k /\ wf_map (mremove m k).2 /\
    to_map (mremove m k).2 = base.delete k (to_map m).
Proof. intros W. destruct (remove_ok usize_key m k W) as (? & ? & ? & _). done. Qed.

Lemma minsert_ok {E} m k v :
  wf_map m -> has_empty (slots m) ->
  exists m', minsert (E:=E) m k v = Ok m' /\ wf_map m' /\ to_map m' = <[ k := v ]> (to_map m).
Proof.
  intros W He. unfold minsert. pose proof (insert_ok usize_key m k v W) as Hi.
  destruct (FxHashMap.insert usize_key m k v) as [[old m']|].
  - destruct Hi as (? & ? & _). by exists m'.
  - by destruct Hi as (_ & _ & [] & _).
Qed.

Lemma iter_map m : wf_map m -> NoDup (fst <$> iter m) /\ list_to_map (iter m) = to_map m.
Proof. intros W. split; [by eapply NoDup_iter, W|done]. Qed.

Lemma elem_of_iter_map m k v : wf_map m -> (k, v) ∈ iter m <-> to_map m !! k = Some v.
Proof.
  intros W. unfold to_map. apply elem_of_list_to_map. by eapply NoDup_iter, W.
Qed.

End maps.

(** ** Range-checked copies *)

Lemma slice_at_ok {E} (buf : list Z) off n :
  0 <= off -> 0 <= n -> off + n <= zlen buf ->
  slice_at (E:=E) buf off n = Ok (slice buf (Z.to_nat off) (Z.to_nat n)).
Proof.
  intros. unfold slice_at. rewrite !(proj2 (Z.leb_le _ _)) by lia. done.
Qed.

Lemma splice_at_ok {E} (buf : list Z) off new :
  0 <= off -> off + zlen new <= zlen buf ->
  splice_at (E:=E) buf off new = Ok (splice buf (Z.to_nat off) new).
Proof. intros. unfold splice_at. rewrite !(proj2 (Z.leb_le _ _)) by lia. done. Qed.

(** A region of the arena. *)
Definition region (buf : list Z) (off n : Z) : list Z := slice buf (Z.to_nat off) (Z.to_nat n).

Lemma length_region (buf : list Z) off n :
  0 <= off -> 0 <= n -> off + n <= zlen buf -> zlen (region buf off n) = n.
Proof. intros. unfold region. rewrite length_slice; lia. Qed.

Lemma region_zero (buf : list Z) off n : n <= 0 -> region buf off n = [].
Proof. intros. unfold region, slice. replace (Z.to_nat n) with 0%nat by lia. done. Qed.

Lemma region_splice_same (buf : list Z) off (new : list Z) :
  0 <= off -> off + zlen new <= zlen buf ->
  region (splice buf (Z.to_nat off) new) off (zlen new) = new.
Proof. intros. unfold region. rewrite Nat2Z.id. apply slice_splice_same. lia. Qed.

Lemma region_splice_other (buf : list Z) off (new : list Z) o n :
  0 <= off -> off + zlen new <= zlen buf -> 0 <= o ->
  n <= 0 \/ zlen new = 0 \/ o + n <= off \/ off + zlen new <= o ->
  region (splice buf (Z.to_nat off) new) o n = region buf o n.
Proof.
  intros ??? Hd. destruct (decide (n <= 0)); [by rewrite !region_zero by lia|].
  destruct (decide (zlen new = 0)) as [Hz|].
  - destruct new; [|simpl in Hz; lia]. by rewrite splice_nil.
  - apply slice_splice_disjoint; lia.
Qed.

Lemma length_splice_z (buf : list Z) off (new : list Z) :
  0 <= off -> off + zlen new <= zlen buf ->
  zlen (splice buf (Z.to_nat off) new) = zlen buf.
Proof. intros. rewrite length_splice; lia. Qed.

Lemma copy_within_ok {E} (buf : list Z) src n dest :
  0 <= src -> 0 <= n -> 0 <= dest -> src + n <= zlen buf -> dest + n <= zlen buf ->
  copy_within (E:=E) buf src n dest = Ok (splice buf (Z.to_nat dest) (region buf src n)).
Proof.
  intros. unfold copy_within. rewrite slice_at_ok by lia. cbn [rbind].
  pose proof (length_region buf src n). apply splice_at_ok; [lia|].
  unfold region in *. lia.
Qed.

(** ** The invariant and the contents *)

Definition total (m : gmap Z CachedFile) : Z := map_fold (fun _ f acc => cf_len f + acc) 0 m.

Lemma total_insert m k f :
  m !! k = None -> total (<[ k := f ]> m) = cf_len f + total m.
Proof.
  intros. unfold total. rewrite map_fold_insert_L; [done|intros; lia|done].
Qed.

Lemma total_delete m k f :
  m !! k = Some f -> total m = cf_len f + total (base.delete k m).
Proof.
  intros Hk. rewrite <- (total_insert _ k) by apply lookup_delete_eq. by rewrite insert_delete_id.
Qed.

Lemma total_alter m k f g :
  m !! k = Some f -> total (alter g k m) = total m + (cf_len (g f) - cf_len f).
Proof.
  intros Hk. rewrite (total_delete m k f Hk).
  rewrite (total_delete (alter g k m) k (g f)) by (by rewrite lookup_alter_eq, Hk).
  rewrite delete_alter_eq. lia.
Qed.

Lemma total_list (l : list (Z * CachedFile)) :
  NoDup l.*1 -> total (list_to_map l) = foldr (fun kv acc => cf_len kv.2 + acc) 0 l.
Proof.
  induction l as [|[k f] l IH]; intros Hn; [done|]. cbn [fmap list_fmap] in Hn.
  apply NoDup_cons in Hn as [Hk Hn]. cbn [list_to_map foldr]. simpl.
  rewrite total_insert by (by apply not_elem_of_list_to_map_1). simpl. by rewrite IH.
Qed.

Lemma total_nonneg m : map_Forall (fun _ f => 0 <= cf_len f) m -> 0 <= total m.
Proof.
  intros Hm. unfold total. revert Hm. apply (map_fold_weak_ind (fun r m =>
    map_Forall (fun _ f => 0 <= cf_len f) m -> 0 <= r)); [lia|].
  intros k f m' r Hk IH Hm. apply map_Forall_insert in Hm as [? Hm]; [|done].
  specialize (IH Hm). lia.
Qed.

Section cache.
Context {D : Type} `{CacheFilesystemDriver D}.
Variable timestamp_us : Z -> Z.
Implicit Types c : FileCache D.

Definition file_at c (id : Z) : option CachedFile := to_map (files c) !! id.

Definition content c (id : Z) : option (list Z) :=
  f ← file_at c id; Some (region (arena c) (arena_offset f) (cf_len f)).

(** Two regions do not overlap; an empty one overlaps nothing. *)
Definition apart (f g : CachedFile) : Prop :=
  cf_len f = 0 \/ cf_len g = 0 \/ arena_offset f + cf_len f <= arena_offset g \/
  arena_offset g + cf_len g <= arena_offset f.

Record wf_cache c : Prop := {
  wfc_files : wf_map (files c);
  wfc_nodes : wf_map (file_nodes c);
  wfc_arena : zlen (arena c) = max_memory c;
  wfc_max : max_memory c < 2 ^ 63;
  wfc_push : 0 <= arena_push_offset c <= max_memory c;
  wfc_region : forall i f, file_at c i = Some f ->
    0 <= arena_offset f /\ 0 <= cf_len f /\ arena_offset f + cf_len f <= arena_push_offset c;
  wfc_apart : forall i j f g, i <> j -> file_at c i = Some f -> file_at c j = Some g -> apart f g;
  wfc_used : current_memory_used c = total (to_map (files c));
}.

Lemma wf_new d max : 0 <= max < 2 ^ 63 -> wf_cache (new d max).
Proof.
  intros Hm. destruct (with_capacity_ok (V:=CachedFile) usize_key FS_CACHE_MAP_FILE_COUNT)
    as (Wf & Ef & _).
  destruct (with_capacity_ok (V:=FileNode) usize_key FS_CACHE_MAP_FILE_COUNT) as (Wn & _ & _).
  constructor; unfold file_at; cbn [new files file_nodes arena max_memory arena_push_offset
    current_memory_used]; rewrite ?Ef; try done; try lia.
  - unfold zeros. rewrite length_replicate. lia.
Qed.

(** ** Compaction *)

(** The new offset the loop of [compact] gives to a file. *)
Fixpoint placed (w : Z) (live : list Live) (id : Z) : option Z :=
  match live with
  | [] => None
  | (i, _, n) :: live => if decide (i = id) then Some w else placed (w + n) live id
  end.

Definition live_sum (live : list Live) : Z := foldr (fun x acc => x.2 + acc) 0 live.

(** Every region left is at or above the write offset and below the later ones. *)
Fixpoint ordered (w top : Z) (live : list Live) : Prop :=
  match live with
  | [] => w <= top
  | (id, off, n) :: live =>
      0 <= n /\ 0 <= off /\ (n = 0 \/ w <= off) /\ off + n <= top /\ w + n <= top /\
      (forall x, x ∈ live -> x.2 = 0 \/ n = 0 \/ off + n <= x.1.2) /\
      ordered (w + n) top live
  end.

Lemma placed_ge live : forall w top id o,
  ordered w top live -> placed w live id = Some o -> w <= o.
Proof.
  induction live as [|[[i off] n] live IH]; intros w top id o; simpl; [done|].
  intros (? & _ & _ & _ & _ & _ & Ho). case_decide; [intros [= ->]; lia|].
  intros Hp. specialize (IH _ _ _ _ Ho Hp). lia.
Qed.

Lemma ordered_elem live : forall w top x,
  ordered w top live -> x ∈ live -> 0 <= x.1.2 /\ 0 <= x.2 /\ x.1.2 + x.2 <= top.
Proof.
  induction live as [|[[i off] n] live IH]; intros w top x Ho Hin.
  { by apply not_elem_of_nil in Hin. }
  destruct Ho as (? & ? & _ & ? & _ & _ & Ho).
  apply elem_of_cons in Hin as [->|Hin]; [simpl; lia|]. by eapply IH.
Qed.

Lemma placed_none live : forall w id,
  placed w live id = None <-> (id ∉ ((fun x => x.1.1) <$> live)).
Proof.
  induction live as [|[[i off] n] live IH]; intros w id; simpl.
  - split; [intros _; apply not_elem_of_nil|done].
  - rewrite not_elem_of_cons. case_decide as Hd.
    + split; [done|]. intros []. by subst.
    + rewrite IH. split; [intros Hi; split; [by intros ->|done]|by intros []].
Qed.

Lemma placed_bound live : forall w top id off n o,
  ordered w top live -> NoDup ((fun x => x.1.1) <$> live) -> (id, off, n) ∈ live ->
  placed w live id = Some o -> w <= o /\ o + n <= w + live_sum live.
Proof.
  induction live as [|[[i o0] m] live IH]; intros w top id off n o Ho Hn Hin Hp.
  { by apply not_elem_of_nil in Hin. }
  cbn [ordered placed fmap list_fmap live_sum foldr fst snd] in *.
  destruct Ho as (? & _ & _ & _ & _ & _ & Ho). apply NoDup_cons in Hn as [Hi Hn].
  assert (Hs : 0 <= live_sum live).
  { clear -Ho. revert Ho. generalize (w + m). induction live as [|[[??] k] live IH]; intros v;
      cbn [live_sum foldr ordered snd]; [lia|].
    intros (? & _ & _ & _ & _ & _ & Ho). specialize (IH _ Ho). unfold live_sum in IH. lia. }
  unfold live_sum in Hs. apply elem_of_cons in Hin as [[= -> -> ->]|Hin].
  - rewrite decide_True in Hp by done. injection Hp as <-. lia.
  - rewrite decide_False in Hp.
    + specialize (IH _ _ _ _ _ _ Ho Hn Hin Hp). unfold live_sum in IH. lia.
    + intros ->. apply Hi. apply list_elem_of_fmap. by exists (id, off, n).
Qed.

(** What the loop is given: the files as the table has them. *)
Definition matches (fs : FileMap) (live : list Live) : Prop :=
  NoDup ((fun x => x.1.1) <$> live) /\
  forall id off n, (id, off, n) ∈ live ->
    exists f, to_map fs !! id = Some f /\ arena_offset f = off /\ cf_len f = n.

Lemma matches_tail fs id off n live g :
  wf_map fs -> matches fs ((id, off, n) :: live) -> matches (mupdate fs id g) live.
Proof.
  intros W [Hn Hm]. apply NoDup_cons in Hn as [Hi Hn]. split; [done|].
  intros i o k Hin. destruct (Hm i o k) as (f & Hf & ?); [by apply list_elem_of_further|].
  destruct (mupdate_ok fs id g W) as [_ ->]. exists f. split; [|done].
  rewrite lookup_alter_ne; [done|]. intros ->. apply Hi. apply list_elem_of_fmap.
  by exists (i, o, k).
Qed.

Lemma matches_same fs id off n live : matches fs ((id, off, n) :: live) -> matches fs live.
Proof.
  intros [Hn Hm]. apply NoDup_cons in Hn as [Hi Hn]. split; [done|].
  intros i o k Hin. apply Hm. by apply list_elem_of_further.
Qed.

Definition compacted (w : Z) (live : list Live) (buf : list Z) (fs : FileMap)
    (buf' : list Z) (fs' : FileMap) : Prop :=
  wf_map fs' /\ zlen buf' = zlen buf /\
  (forall id, placed w live id = None -> to_map fs' !! id = to_map fs !! id) /\
  (forall id off n o, (id, off, n) ∈ live -> placed w live id = Some o ->
     to_map fs' !! id = set_region o n <$> (to_map fs !! id) /\
     region buf' o n = region buf off n) /\
  (forall o n, 0 <= o -> o + n <= w -> region buf' o n = region buf o n).

(** One turn: the head's region is now at the write offset. *)
Lemma compacted_step w id off n live buf fs buf1 fs1 buf' fs' :
  0 <= w -> ordered w (zlen buf) ((id, off, n) :: live) ->
  matches fs ((id, off, n) :: live) ->
  to_map fs1 = alter (set_region w n) id (to_map fs) ->
  buf1 = splice buf (Z.to_nat w) (region buf off n) ->
  compacted (w + n) live buf1 fs1 buf' fs' ->
  compacted w ((id, off, n) :: live) buf fs buf' fs'.
Proof.
  intros Hw (Hn & Ho & Hwo & Htop & Hwn & Hlater & Hord) [Hnd Hm] E1 -> (W' & HL & HN & HS & HB).
  pose proof (length_region buf off n Ho Hn Htop) as Hlen.
  rewrite length_splice_z in HL by lia.
  apply NoDup_cons in Hnd as [Hid Hnd].
  split; [done|]. split; [done|]. split_and!.
  - intros i. simpl. case_decide; [done|]. intros Hp. rewrite HN, E1 by done.
    by rewrite lookup_alter_ne by done.
  - intros i o k p Hin Hp. simpl in Hp. apply elem_of_cons in Hin as [[= -> -> ->]|Hin].
    + rewrite decide_True in Hp by done. injection Hp as <-. split.
      * rewrite HN, E1, lookup_alter_eq; [done|]. by apply placed_none.
      * rewrite HB by lia. rewrite <- Hlen at 2. by rewrite region_splice_same by lia.
    + assert (id <> i) by (intros ->; apply Hid, list_elem_of_fmap; by exists (i, o, k)).
      rewrite decide_False in Hp by done. destruct (HS i o k p Hin Hp) as [Hf Hr].
      split; [by rewrite Hf, E1, lookup_alter_ne|]. rewrite Hr.
      specialize (Hlater _ Hin). simpl in Hlater.
      destruct (ordered_elem _ _ _ _ Hord Hin) as (? & ? & ?). simpl in *.
      apply region_splice_other; lia.
  - intros o k ? ?. rewrite HB by lia. apply region_splice_other; lia.
Qed.

Lemma compact_loop_ok live : forall w buf fs,
  wf_map fs -> 0 <= w -> ordered w (zlen buf) live -> matches fs live ->
  exists buf' fs', compact_loop (E:=FileSystemError) live w buf fs =
      Ok (w + live_sum live, buf', fs') /\ compacted w live buf fs buf' fs'.
Proof.
  induction live as [|[[id off] n] live IH]; intros w buf fs W Hw Ho Hm.
  - exists buf, fs. simpl. rewrite Z.add_0_r. split; [done|]. by split_and!.
  - pose proof Ho as (Hn & Hoff & Hwo & Htop & Hwn & _ & Hord).
    pose proof (proj2 Hm id off n ltac:(apply list_elem_of_here)) as (f & Hf & Hfo & Hfl).
    pose proof (length_region buf off n Hoff Hn Htop) as Hlen.
    cbn [compact_loop]. destruct (Z.eqb_spec off w) as [->|].
    + destruct (IH (w + n) buf fs) as (buf' & fs' & E & C);
        [done|lia|done|by eapply matches_same|].
      exists buf', fs'. rewrite E. cbn [live_sum foldr snd]. split; [do 3 f_equal; unfold live_sum; lia|].
      eapply compacted_step; [done|done|done| |symmetry|done].
      * apply map_eq. intros i. destruct (decide (i = id)) as [->|];
          [|by rewrite lookup_alter_ne].
        rewrite lookup_alter_eq, Hf. simpl. f_equal. destruct f; simpl in *. by subst.
      * apply splice_slice_id. lia.
    + rewrite copy_within_ok by lia. cbn [rbind].
      set (g := fun f => set_region w (cf_len f) f).
      destruct (mupdate_ok fs id g W) as [W1 E1].
      destruct (IH (w + n) (splice buf (Z.to_nat w) (region buf off n)) (mupdate fs id g))
        as (buf' & fs' & E & C); [done|lia| |by eapply matches_tail|].
      { by rewrite length_splice_z by lia. }
      exists buf', fs'. rewrite E. cbn [live_sum foldr snd]. split; [do 3 f_equal; unfold live_sum; lia|].
      eapply compacted_step; [done|done|done| |done|done].
      rewrite E1. apply map_eq. intros i. destruct (decide (i = id)) as [->|];
        [|by rewrite !lookup_alter_ne].
      rewrite !lookup_alter_eq, Hf. simpl. subst g. simpl. by rewrite Hfl.
Qed.

(** ** The order in which [compact] moves the files *)

Lemma ssorted_impl {A} (P R : A -> A -> Prop) (l : list A) :
  NoDup l -> (forall x y, x ∈ l -> y ∈ l -> x <> y -> P x y -> R x y) ->
  StronglySorted P l -> StronglySorted R l.
Proof.
  intros Hn HR Hs. induction Hs as [|x l Hs IH Hx]; [constructor|].
  apply NoDup_cons in Hn as [Hxl Hn]. constructor.
  - apply IH; [done|]. intros y z Hy Hz. apply HR; by apply list_elem_of_further.
  - rewrite List.Forall_forall in *. intros y Hy. apply HR.
    + apply list_elem_of_here.
    + by apply list_elem_of_further, list_elem_of_In.
    + intros ->. by apply Hxl, list_elem_of_In.
    + by apply Hx.
Qed.

Definition below (x y : Live) : Prop := y.2 = 0 \/ x.2 = 0 \/ x.1.2 + x.2 <= y.1.2.

Lemma ordered_of top live : forall w,
  w <= top -> (forall x, x ∈ live -> 0 <= x.1.2 /\ 0 <= x.2 /\ x.1.2 + x.2 <= top) ->
  (forall x, x ∈ live -> x.2 = 0 \/ w <= x.1.2) ->
  StronglySorted below live -> ordered w top live.
Proof.
  induction live as [|[[id off] n] live IH]; intros w Hw Hb Hl Hs; simpl; [done|].
  pose proof (Hb _ ltac:(apply list_elem_of_here)) as (? & ? & ?).
  pose proof (Hl _ ltac:(apply list_elem_of_here)) as Hl0. simpl in *.
  apply StronglySorted_inv in Hs as [Hs Hx].
  assert (Hx' : forall x, x ∈ live -> below (id, off, n) x).
  { intros x Hin. eapply List.Forall_forall in Hx; [done|]. by apply list_elem_of_In. }
  split_and!; try lia.
  - intros x Hin. apply (Hx' x Hin).
  - apply IH; [lia| | |done].
    + intros x Hin. apply Hb. by apply list_elem_of_further.
    + intros x Hin. pose proof (Hl x ltac:(by apply list_elem_of_further)).
      destruct (Hx' x Hin) as [|[|]]; simpl in *; lia.
Qed.

(** The file [compact] is told to move last lies above all the others. *)
Definition at_top c (sort_last : Z) : Prop :=
  forall i f g, i <> sort_last -> file_at c i = Some f -> file_at c sort_last = Some g ->
    cf_len f = 0 \/ cf_len g = 0 \/ arena_offset f + cf_len f <= arena_offset g.

Definition live c (sort_last : Z) : list Live :=
  sort_by_key (sort_key sort_last) (live_of <$> iter (files c)).

Lemma elem_of_live c sl id off n :
  wf_map (files c) ->
  (id, off, n) ∈ live c sl <->
  exists f, file_at c id = Some f /\ arena_offset f = off /\ cf_len f = n.
Proof.
  intros W. unfold live. rewrite sort_by_key_perm, list_elem_of_fmap. split.
  - intros ([k f] & [= -> -> ->] & Hin). exists f. by apply elem_of_iter_map in Hin.
  - intros (f & Hf & <- & <-). exists (id, f). split; [done|]. by apply elem_of_iter_map.
Qed.

Lemma live_ids c sl : wf_map (files c) -> NoDup ((fun x => x.1.1) <$> live c sl).
Proof.
  intros W. unfold live. rewrite sort_by_key_perm, <- list_fmap_compose.
  apply (iter_map _ W).
Qed.

Lemma live_sorted c sl :
  wf_cache c -> at_top c sl -> StronglySorted below (live c sl).
Proof.
  intros W Ht. pose proof (live_ids c sl (wfc_files c W)) as Hn.
  eapply ssorted_impl; [by eapply NoDup_fmap_1| |apply sort_by_key_sorted].
  intros [[i oi] ni] [[j oj] nj] Hi Hj Hne Hk.
  apply elem_of_live in Hi as (f & Hf & <- & <-); [|apply W].
  apply elem_of_live in Hj as (g & Hg & <- & <-); [|apply W].
  pose proof (wfc_region c W i f Hf) as (? & ? & ?).
  pose proof (wfc_region c W j g Hg) as (? & ? & ?).
  pose proof (wfc_push c W). pose proof (wfc_max c W).
  assert (Hij : i <> j) by (intros ->; apply Hne; congruence).
  pose proof (wfc_apart c W i j f g Hij Hf Hg) as Ha.
  unfold sort_key, below, apart, U64_MAX in *. cbn [fst snd].
  destruct (Z.eqb_spec i sl) as [->|]; destruct (Z.eqb_spec j sl) as [->|]; [done|lia| |lia].
  specialize (Ht i f g). destruct Ht as [|[]]; try done; lia.
Qed.

Lemma live_sum_perm l l' : l ≡ₚ l' -> live_sum l = live_sum l'.
Proof. unfold live_sum. induction 1; simpl in *; lia. Qed.

Lemma live_sum_total c sl : wf_map (files c) -> live_sum (live c sl) = total (to_map (files c)).
Proof.
  intros W. destruct (iter_map _ W) as [Hn <-]. rewrite total_list by done.
  unfold live. rewrite (live_sum_perm _ _ (sort_by_key_perm _ _)). unfold live_sum.
  clear. induction (iter (files c)) as [|kv l IH]; [done|].
  cbn [fmap list_fmap foldr live_of snd]. f_equal. apply IH.
Qed.

(** ** What compaction does *)

Lemma placed_some w l id : id ∈ ((fun x : Live => x.1.1) <$> l) -> is_Some (placed w l id).
Proof.
  intros Hin. destruct (placed w l id) eqn:E; [by eexists|]. by apply placed_none in E.
Qed.

(** Distinct placed files do not overlap. *)
Lemma placed_apart l : forall w top i j oi ni oj nj pi pj,
  ordered w top l -> NoDup ((fun x => x.1.1) <$> l) -> i <> j ->
  (i, oi, ni) ∈ l -> (j, oj, nj) ∈ l -> placed w l i = Some pi -> placed w l j = Some pj ->
  pi + ni <= pj \/ pj + nj <= pi.
Proof.
  induction l as [|[[k o] n] l IH]; intros w top i j oi ni oj nj pi pj Ho Hn Hij Hi Hj Hpi Hpj.
  { by apply not_elem_of_nil in Hi. }
  pose proof Ho as (_ & _ & _ & _ & _ & _ & Ho'). pose proof Hn as Hn'.
  apply NoDup_cons in Hn' as [Hk Hn'].
  assert (Hin : forall i o n, (i, o, n) ∈ l -> i <> k).
  { intros i' o' n' Hin ->. apply Hk, list_elem_of_fmap. by exists (k, o', n'). }
  cbn [placed] in Hpi, Hpj.
  apply elem_of_cons in Hi as [[= -> -> ->]|Hi]; apply elem_of_cons in Hj as [[= -> -> ->]|Hj].
  - done.
  - rewrite decide_True in Hpi by done. rewrite decide_False in Hpj by done.
    injection Hpi as <-. left. by eapply placed_ge.
  - rewrite decide_True in Hpj by done. rewrite decide_False in Hpi by done.
    injection Hpj as <-. right. by eapply placed_ge.
  - rewrite decide_False in Hpi by (intros ->; exact (Hin _ _ _ Hi eq_refl)).
    rewrite decide_False in Hpj by (intros ->; exact (Hin _ _ _ Hj eq_refl)). by eapply IH.
Qed.

(** The file to move last comes to lie above the others. *)
Lemma placed_last sl l : forall w top i oi ni os ns pi ps,
  ordered w top l -> NoDup ((fun x => x.1.1) <$> l) -> StronglySorted (fun x y => sort_key sl x <= sort_key sl y) l ->
  i <> sl -> oi < U64_MAX -> (i, oi, ni) ∈ l -> (sl, os, ns) ∈ l ->
  placed w l i = Some pi -> placed w l sl = Some ps -> pi + ni <= ps.
Proof.
  induction l as [|[[k o] n] l IH]; intros w top i oi ni os ns pi ps Ho Hn Hs Hi Hoi Hin Hsl Hpi Hps.
  { by apply not_elem_of_nil in Hin. }
  pose proof Ho as (_ & _ & _ & _ & _ & _ & Ho'). apply NoDup_cons in Hn as [Hk Hn'].
  apply StronglySorted_inv in Hs as [Hs Hle].
  assert (Hne : forall i o n, (i, o, n) ∈ l -> i <> k).
  { intros i' o' n' Hx ->. apply Hk, list_elem_of_fmap. by exists (k, o', n'). }
  cbn [placed] in Hpi, Hps.
  apply elem_of_cons in Hsl as [[= -> -> ->]|Hsl]; apply elem_of_cons in Hin as [[= -> -> ->]|Hin].
  - done.
  - eapply List.Forall_forall in Hle; [|by apply list_elem_of_In]. unfold sort_key in Hle. rewrite Z.eqb_refl in Hle.
    rewrite (proj2 (Z.eqb_neq i k)) in Hle by done. lia.
  - rewrite decide_True in Hpi by done. rewrite decide_False in Hps by done. injection Hpi as <-. by eapply placed_ge.
  - rewrite decide_False in Hpi by (intros ->; exact (Hne _ _ _ Hin eq_refl)).
    rewrite decide_False in Hps by (intros ->; exact (Hne _ _ _ Hsl eq_refl)). by eapply IH.
Qed.

Lemma live_ordered c sl : wf_cache c -> at_top c sl -> ordered 0 (zlen (arena c)) (live c sl).
Proof.
  intros W Ht. pose proof (wfc_push c W). rewrite (wfc_arena c W).
  assert (Hb : forall x, x ∈ live c sl ->
    0 <= x.1.2 /\ 0 <= x.2 /\ x.1.2 + x.2 <= arena_push_offset c).
  { intros [[id off] n] Hin. apply elem_of_live in Hin as (f & Hf & <- & <-); [|apply W].
    simpl. by eapply wfc_region. }
  apply ordered_of; [lia| | |by apply live_sorted].
  - intros x Hin. specialize (Hb x Hin). lia.
  - intros x Hin. specialize (Hb x Hin). lia.
Qed.

Lemma live_matches c sl : wf_cache c -> matches (files c) (live c sl).
Proof.
  intros W. split; [apply live_ids, W|]. intros id off n Hin. by apply elem_of_live in Hin; [|apply W].
Qed.

(** The files after the loop, one by one. *)
Lemma compacted_at c sl buf fs :
  wf_cache c -> at_top c sl -> compacted 0 (live c sl) (arena c) (files c) buf fs ->
  forall id, match file_at c id with
    | None => to_map fs !! id = None
    | Some f => exists o, placed 0 (live c sl) id = Some o /\ 0 <= o /\
        o + cf_len f <= total (to_map (files c)) /\
        to_map fs !! id = Some (set_region o (cf_len f) f) /\
        region buf o (cf_len f) = region (arena c) (arena_offset f) (cf_len f)
    end.
Proof.
  intros W Ht (Wf & HL & HN & HS & _) id. pose proof (live_ordered c sl W Ht) as Ho.
  pose proof (live_ids c sl (wfc_files c W)) as Hn. unfold file_at.
  destruct (to_map (files c) !! id) as [f|] eqn:Hf.
  - assert (Hin : (id, arena_offset f, cf_len f) ∈ live c sl)
      by (apply elem_of_live; [apply W|by exists f]).
    destruct (placed_some 0 (live c sl) id) as [o Hp].
    { apply list_elem_of_fmap. by exists (id, arena_offset f, cf_len f). }
    destruct (HS _ _ _ _ Hin Hp) as [E1 E2]. rewrite Hf in E1.
    destruct (placed_bound _ _ _ _ _ _ _ Ho Hn Hin Hp) as [? Hb].
    rewrite live_sum_total in Hb by apply W. exists o. by split_and!.
  - rewrite HN; [done|]. apply placed_none. intros Hin.
    apply list_elem_of_fmap in Hin as ([[k o] n] & -> & Hin).
    apply elem_of_live in Hin as (f & Hf' & _); [|apply W]. unfold file_at in Hf'.
    simpl in *. congruence.
Qed.

Lemma total_ext (m m' : gmap Z CachedFile) :
  (forall i, cf_len <$> m !! i = cf_len <$> m' !! i) -> total m = total m'.
Proof.
  revert m'. induction m as [|k f m Hk IH] using map_ind; intros m' Hm.
  - replace m' with (∅ : gmap Z CachedFile); [done|]. symmetry. apply map_empty. intros i.
    specialize (Hm i). rewrite lookup_empty in Hm. by destruct (m' !! i).
  - pose proof (Hm k) as Hk'. rewrite lookup_insert_eq in Hk'.
    destruct (m' !! k) as [g|] eqn:Eg; [|done]. injection Hk' as Hfg.
    rewrite total_insert by done. rewrite (total_delete m' k g Eg), Hfg. f_equal.
    apply IH. intros i. destruct (decide (i = k)) as [->|].
    + by rewrite Hk, lookup_delete_eq.
    + rewrite lookup_delete_ne by done. specialize (Hm i). by rewrite lookup_insert_ne in Hm.
Qed.

Lemma used_cap c sl : wf_cache c -> at_top c sl -> current_memory_used c <= max_memory c.
Proof.
  intros W Ht. pose proof (live_ordered c sl W Ht) as Ho.
  rewrite (wfc_used c W), <- (live_sum_total c sl), <- (wfc_arena c W) by apply W.
  revert Ho. generalize (zlen (arena c)). enough (Hg : forall l w top,
    ordered w top l -> w + live_sum l <= top) by (intros top Ho; apply Hg in Ho; lia).
  induction l as [|[[i o] n] l IH]; intros w top; cbn; [lia|].
  intros (_ & _ & _ & _ & _ & _ & Ho). specialize (IH _ _ Ho). unfold live_sum in IH. lia.
Qed.

Lemma compact_ok c sl :
  wf_cache c -> at_top c sl ->
  exists w fs buf, compact sl c = (Ok tt, set_push w (set_files fs (set_arena buf c))) /\
    let c' := set_push w (set_files fs (set_arena buf c)) in
    wf_cache c' /\ (forall id, content c' id = content c id) /\
    w = current_memory_used c /\
    (forall id, exists o, file_at c' id = (fun f => set_region o (cf_len f) f) <$> file_at c id) /\
    at_top c' sl.
Proof.
  intros W Ht. pose proof (live_ordered c sl W Ht) as Ho.
  destruct (compact_loop_ok (live c sl) 0 (arena c) (files c)) as (buf & fs & E & C);
    [apply W|lia|done|by apply live_matches|].
  pose proof (compacted_at c sl buf fs W Ht C) as Hat. destruct C as (Wf & HL & _).
  pose proof (live_ids c sl (wfc_files c W)) as Hn.
  assert (Hw : 0 + live_sum (live c sl) = current_memory_used c)
    by (rewrite live_sum_total, (wfc_used c W) by apply W; lia).
  pose proof (used_cap c sl W Ht) as Hcap.
  exists (current_memory_used c), fs, buf. split.
  { unfold compact, sbind, get_st, slift. fold (live c sl). rewrite E, Hw. done. }
  intros c'. assert (Hfile : forall id, file_at c' id = to_map fs !! id) by done.
  assert (Hlen : forall i f, to_map fs !! i = Some f -> exists f0 o, file_at c i = Some f0 /\
    f = set_region o (cf_len f0) f0 /\ placed 0 (live c sl) i = Some o /\ 0 <= o /\
    o + cf_len f0 <= current_memory_used c).
  { intros i f Hf. specialize (Hat i). destruct (file_at c i) as [f0|]; [|congruence].
    destruct Hat as (o & Hp & ? & Hb & Hf' & _). rewrite <- (wfc_used c W) in Hb.
    exists f0, o. split_and!; try done. congruence. }
  split_and!.
  - constructor; cbn; try apply W; try done.
    + by rewrite HL, (wfc_arena c W).
    + split; [|done]. rewrite (wfc_used c W). apply total_nonneg. intros i f Hf.
      by eapply (wfc_region c W).
    + intros i f Hf. destruct (Hlen i f Hf) as (f0 & o & Hf0 & -> & _ & ? & ?). cbn.
      pose proof (wfc_region c W i f0 Hf0). lia.
    + intros i j f g Hij Hf Hg. destruct (Hlen i f Hf) as (f0 & o & Hf0 & -> & Hp & _).
      destruct (Hlen j g Hg) as (g0 & o' & Hg0 & -> & Hp' & _). right; right. cbn.
      eapply placed_apart; [exact Ho|done|done| | |done|done];
        apply elem_of_live; try apply W; eauto.
    + rewrite (wfc_used c W). apply total_ext. intros i. specialize (Hat i). unfold file_at in Hat.
      destruct (to_map (files c) !! i) as [f0|]; [|by rewrite Hat].
      by destruct Hat as (o & _ & _ & _ & -> & _).
  - intros id. unfold content. rewrite Hfile. specialize (Hat id).
    destruct (file_at c id) as [f|]; [|by rewrite Hat].
    destruct Hat as (o & _ & _ & _ & -> & Hr). cbn. by rewrite <- Hr.
  - done.
  - intros id. rewrite Hfile. specialize (Hat id). destruct (file_at c id) as [f|].
    + destruct Hat as (o & _ & _ & _ & -> & Hr). by exists o.
    + exists 0. by rewrite Hat.
  - intros i f g Hi Hf Hg. destruct (Hlen i f Hf) as (f0 & o & Hf0 & -> & Hp & _).
    destruct (Hlen sl g Hg) as (g0 & o' & Hg0 & -> & Hp' & _). right; right. cbn.
    pose proof (wfc_region c W i f0 Hf0). pose proof (wfc_push c W). pose proof (wfc_max c W).
    eapply (placed_last sl (live c sl)); [exact Ho|exact Hn|apply sort_by_key_sorted|exact Hi| | | |exact Hp|exact Hp'].
    + unfold U64_MAX. instantiate (1 := arena_offset f0). lia.
    + apply elem_of_live; [apply W|by exists f0].
    + apply elem_of_live; [apply W|by exists g0].
Qed.

(** ** Eviction *)

(** The choice is a candidate of the highest score, if any has a positive one. *)
Lemma evict_fold c keep force l : forall best, 0 <= best.1 ->
  let r := foldl (evict_scan c keep force) best l in
  best.1 <= r.1 /\ (r = best \/ exists f, (r.2, f) ∈ l /\ candidate keep force (r.2, f) = true /\
     r.1 = evict_score c f /\ 0 < r.1) /\
  (forall k f, (k, f) ∈ l -> candidate keep force (k, f) = true -> evict_score c f <= r.1).
Proof.
  induction l as [|[k f] l IH]; intros best Hb; cbn [foldl].
  - split_and!; [done|by left|]. intros ?? Hin. by apply not_elem_of_nil in Hin.
  - set (b1 := evict_scan c keep force best (k, f)).
    assert (H1 : best.1 <= b1.1 /\ (b1 = best \/ (b1 = (evict_score c f, k) /\ 0 < evict_score c f /\
        candidate keep force (k, f) = true)) /\
      (candidate keep force (k, f) = true -> evict_score c f <= b1.1)).
    { subst b1. unfold evict_scan. cbn [snd fst]. destruct (candidate keep force (k, f)); simpl.
      - destruct (Z.ltb_spec best.1 (evict_score c f)); simpl; [split_and!; try lia|];
          [right; split_and!; [done|lia|done]|split_and!; [lia|by left|lia]].
      - split_and!; [lia|by left|done]. }
    destruct H1 as (Hle & Hor & Hk). destruct (IH b1) as (Hle' & Hor' & Hall); [lia|].
    split_and!; [lia| |].
    + destruct Hor' as [Er|(g & Hin & ?)].
      * rewrite Er. destruct Hor as [->|(-> & ? & ?)]; [by left|]. right. exists f.
        split_and!; [apply list_elem_of_here|done..].
      * right. exists g. split; [by apply list_elem_of_further|done].
    + intros k' f' Hin Hc. apply elem_of_cons in Hin as [[= -> ->]|Hin]; [|by eapply Hall].
      specialize (Hk Hc). lia.
Qed.

Lemma evict_choice_cases c keep force :
  wf_map (files c) ->
  let b := evict_choice c keep force in
  (b = INVALID_NODE_HANDLE /\ (forall k f, file_at c k = Some f ->
     candidate keep force (k, f) = true -> evict_score c f <= 0)) \/
  (exists f, file_at c b = Some f /\ candidate keep force (b, f) = true /\ 0 < evict_score c f /\
     forall k g, file_at c k = Some g -> candidate keep force (k, g) = true ->
       evict_score c g <= evict_score c f).
Proof.
  intros W. unfold evict_choice.
  destruct (evict_fold c keep force (iter (files c)) (0, INVALID_NODE_HANDLE)) as (_ & Hor & Hall);
    [done|]. destruct Hor as [E|(f & Hin & Hc & Es & Hpos)].
  - left. rewrite E in *. split; [done|]. intros k f Hf. by apply Hall, elem_of_iter_map.
  - right. exists f. rewrite Es in *. split_and!; [by apply elem_of_iter_map in Hin|done|done|].
    intros k g Hg. by apply Hall, elem_of_iter_map.
Qed.

(** The cache without one of its files, the driver in a new state. *)
Definition evicted (b : Z) (f : CachedFile) (d : D) c : FileCache D :=
  set_used (current_memory_used c - cf_len f)
    (set_files (mremove (files c) b).2 (set_driver d c)).

Lemma evicted_file b f d c id :
  wf_cache c ->
  file_at (evicted b f d c) id = if decide (id = b) then None else file_at c id.
Proof.
  intros W. unfold file_at. cbn. destruct (mremove_ok (files c) b (wfc_files c W)) as (_ & _ & ->).
  case_decide as E; [subst; by rewrite lookup_delete_eq|by rewrite lookup_delete_ne].
Qed.

Lemma evicted_content b f d c id :
  wf_cache c ->
  content (evicted b f d c) id = if decide (id = b) then None else content c id.
Proof. intros W. unfold content. rewrite evicted_file by done. by case_decide. Qed.

Lemma evicted_wf b f d c :
  wf_cache c -> file_at c b = Some f -> wf_cache (evicted b f d c).
Proof.
  intros W Hf. destruct (mremove_ok (files c) b (wfc_files c W)) as (_ & W' & E).
  constructor; try apply W.
  - done.
  - intros i g. rewrite evicted_file by done. case_decide; [done|]. apply (wfc_region c W).
  - intros i j g h Hij. rewrite !evicted_file by done. do 2 (case_decide; [done|]).
    by apply (wfc_apart c W).
  - cbn. rewrite E, (wfc_used c W), (total_delete _ b f Hf). lia.
Qed.

(** The driver's answer to the flush of a dirty file. *)
Definition flush_call c (b : Z) (f : CachedFile) : result FileSystemError Z * D :=
  if is_dirty f then cd_write_file b 0 (region (arena c) (arena_offset f) (cf_len f)) (driver c)
  else (Ok 0, driver c).

Lemma set_driver_same c : set_driver (driver c) c = c.
Proof. by destruct c. Qed.

Lemma evict_chosen_does c b f :
  wf_cache c -> b <> INVALID_NODE_HANDLE -> file_at c b = Some f ->
  evict_chosen b c =
    match flush_call c b f with
    | (Ok _, d) => (Ok (cf_len f), evicted b f d c)
    | (Err _, d) => (Ok 0, set_driver d c)
    | (Panic, d) => (Panic, set_driver d c)
    | (OutOfFuel, d) => (OutOfFuel, set_driver d c)
    end.
Proof.
  intros W Hb Hf. pose proof (wfc_region c W b f Hf) as (? & ? & ?).
  pose proof (wfc_push c W). pose proof (wfc_arena c W).
  unfold evict_chosen. rewrite (proj2 (Z.eqb_neq _ _)) by done.
  assert (Hend : forall d, (let! c := get_st in
    match mremove (files c) b with
    | (Some f, fs) => upd (set_files fs) ;;;
        let! u := slift (usub (current_memory_used c) (cf_len f)) in
        upd (set_used u) ;;; sret (cf_len f)
    | (None, _) => sret 0
    end) (set_driver d c) = (Ok (cf_len f), evicted b f d c)).
  { intros d. unfold sbind, get_st. cbn [set_driver files].
    destruct (mremove_ok (files c) b (wfc_files c W)) as (E1 & _ & _).
    unfold file_at in Hf. unfold evicted. destruct (mremove (files c) b) as [o fs]. simpl in *.
    rewrite E1, Hf. cbn. unfold slift, usub, upd, sret. cbn.
    assert (cf_len f <= current_memory_used c).
    { rewrite (wfc_used c W), (total_delete _ b f Hf).
      assert (0 <= total (base.delete b (to_map (files c)))); [|lia]. apply total_nonneg.
      intros i g Hg. apply lookup_delete_Some in Hg as [_ Hg]. by eapply (wfc_region c W). }
    by rewrite (proj2 (Z.leb_le _ _)) by lia. }
  unfold sbind at 1, get_st at 1. unfold flush_call. rewrite mget_map by apply W.
  unfold file_at in Hf. rewrite Hf. unfold sbind at 1. destruct (is_dirty f).
  - unfold sbind at 1, slift at 1. rewrite slice_at_ok by lia. unfold sbind at 1, attempt, on_driver.
    fold (region (arena c) (arena_offset f) (cf_len f)).
    destruct (cd_write_file b 0 _ (driver c)) as [[n0|e| |] d]; cbn [sret negb]; done.
  - cbn [sret negb]. rewrite <- (set_driver_same c) at 1. apply Hend.
Qed.

(** ** Making room *)

Lemma set_driver_wf d c : wf_cache c -> wf_cache (set_driver d c).
Proof. intros []. by constructor. Qed.

(** The driver's writes return. *)
Definition writes_return : Prop := forall id off bytes d,
  exists r d', cd_write_file id off bytes d = (r, d') /\
    match r with Ok _ | Err _ => True | _ => False end.

Lemma content_len c id bs :
  wf_cache c -> content c id = Some bs -> exists f, file_at c id = Some f /\ cf_len f = zlen bs.
Proof.
  intros W. unfold content. destruct (file_at c id) as [f|] eqn:Hf; [|done]. cbn. intros [= <-].
  exists f. split; [done|]. pose proof (wfc_region c W id f Hf). pose proof (wfc_push c W).
  rewrite length_region; rewrite ?(wfc_arena c W); lia.
Qed.

(** Some files were forgotten, the others are as they were. *)
Definition survives c c' : Prop :=
  wf_cache c' /\ max_memory c' = max_memory c /\
  forall id, content c' id = content c id \/ content c' id = None.

Lemma survives_trans c1 c2 c3 : survives c1 c2 -> survives c2 c3 -> survives c1 c3.
Proof.
  intros (_ & E1 & H1) (W & E2 & H2). split; [done|]. split; [congruence|]. intros id.
  destruct (H2 id) as [->| ->]; [apply H1|by right].
Qed.

Lemma survives_evicted c b f d :
  wf_cache c -> file_at c b = Some f -> survives c (evicted b f d c).
Proof.
  intros W Hf. split; [by apply evicted_wf|]. split; [done|]. intros id.
  rewrite evicted_content by done. case_decide; [by right|by left].
Qed.

Lemma file_content c id : file_at c id = None <-> content c id = None.
Proof. unfold content. by destruct (file_at c id). Qed.

Definition file_count c : nat := size (to_map (files c)).

Lemma evicted_count c b f d :
  wf_cache c -> file_at c b = Some f -> (file_count (evicted b f d c) < file_count c)%nat.
Proof.
  intros W Hf. unfold file_count. cbn. destruct (mremove_ok (files c) b (wfc_files c W)) as (_ & _ & ->).
  assert (size (to_map (files c)) <> 0)%nat.
  { intros Hz%map_size_empty_inv. unfold file_at in Hf. by rewrite Hz, lookup_empty in Hf. }
  rewrite map_size_delete_Some by (by exists f). lia.
Qed.

Lemma same_count c c' :
  (forall id, file_at c id = None <-> file_at c' id = None) -> file_count c = file_count c'.
Proof.
  intros Hs. unfold file_count. rewrite <- !size_dom. f_equal. apply set_eq. intros id.
  rewrite !elem_of_dom, <- !not_eq_None_Some. unfold file_at in Hs. by rewrite Hs.
Qed.

Lemma evicted_top c b f d sl : wf_cache c -> at_top c sl -> at_top (evicted b f d c) sl.
Proof.
  intros W Ht. assert (Hsub : forall i g, file_at (evicted b f d c) i = Some g -> file_at c i = Some g).
  { intros i g. unfold file_at. cbn. destruct (mremove_ok (files c) b (wfc_files c W)) as (_ & _ & ->).
    by intros [_ ?]%lookup_delete_Some. }
  intros i g h Hi Hg Hh. by apply (Ht i); [|apply Hsub..].
Qed.

(** One turn of the loop evicts nothing, or one file whose size it returns. *)
Lemma evict_turn c keep force :
  wf_cache c -> writes_return ->
  exists n c', evict_one_keep_alive keep force c = (Ok n, c') /\ survives c c' /\
    ((n = 0 /\ arena_push_offset c' = arena_push_offset c) \/
     exists b f d, b <> keep /\ file_at c b = Some f /\ n = cf_len f /\ c' = evicted b f d c) /\
    content c' keep = content c keep /\ forall sl, at_top c sl -> at_top c' sl.
Proof.
  intros W Hd. unfold evict_one_keep_alive, sbind, get_st.
  set (b := evict_choice c (Some keep) force).
  destruct (decide (b = INVALID_NODE_HANDLE)) as [->|Hb].
  { exists 0, c. cbn. split; [done|]. split; [by split_and!; auto|]. split; [by left|done]. }
  destruct (evict_choice_cases c (Some keep) force (wfc_files c W)) as [[? _]|(f & Hf & Hcand & _)]; [done|].
  rewrite (evict_chosen_does c b f W Hb Hf).
  assert (Hflush : exists r d, flush_call c b f = (r, d) /\
    match r with Ok _ | Err _ => True | _ => False end).
  { unfold flush_call. destruct (is_dirty f); [apply Hd|by eexists _, _]. }
  destruct Hflush as (r & d & -> & Hr). destruct r as [n|e| |]; try done.
  - exists (cf_len f), (evicted b f d c). split; [done|]. split; [by apply survives_evicted|].
    assert (Hk : b <> keep).
    { intros E. fold b in Hcand. unfold candidate in Hcand. cbn [fst snd] in Hcand.
      rewrite E, bool_decide_eq_true_2, orb_true_r in Hcand by done. done. }
    split; [right; by exists b, f, d|]. split; [rewrite evicted_content by done; by rewrite decide_False|].
    intros sl Ht. by apply evicted_top.
  - exists 0, (set_driver d c). split; [done|]. split; [|split; [by left|done]].
    split; [by apply set_driver_wf|]. split; [done|]. by left.
Qed.

Definition room_spec c needed (r : result FileSystemError bool) c' : Prop :=
  survives c c' /\
  match r with
  | Ok true => arena_push_offset c' + needed <= max_memory c'
  | Ok false => max_memory c' < arena_push_offset c' + needed
  | Panic => exists id bs, content c id = Some bs /\ needed < zlen bs
  | _ => False
  end.

Lemma room_spec_trans c1 c2 needed r c3 :
  survives c1 c2 -> room_spec c2 needed r c3 -> room_spec c1 needed r c3.
Proof.
  intros Hs [Hs' Hr]. split; [by eapply survives_trans|]. destruct r as [[]| | |]; try done.
  destruct Hr as (id & bs & Hc & ?). exists id, bs. split; [|done].
  destruct Hs as (_ & _ & Hs). destruct (Hs id); congruence.
Qed.

Lemma used_bound c : wf_cache c -> 0 <= current_memory_used c.
Proof.
  intros W. rewrite (wfc_used c W). apply total_nonneg. intros i f Hf.
  by eapply (wfc_region c W).
Qed.

Lemma at_top_uncached c sl : file_at c sl = None -> at_top c sl.
Proof. intros Hn i f g _ _ Hg. congruence. Qed.

Lemma survives_compact c sl :
  wf_cache c -> at_top c sl ->
  exists c', compact sl c = (Ok tt, c') /\ survives c c' /\ file_count c' = file_count c /\
    at_top c' sl /\ content c' sl = content c sl.
Proof.
  intros W Hsl. destruct (compact_ok c sl W Hsl) as (w & fs & buf & E & W' & Hc & _ & Hf & Ht).
  eexists. split; [exact E|]. split; [|split; [|split; [done|apply Hc]]].
  - split; [done|]. split; [done|]. intros id. left. apply Hc.
  - apply same_count. intros id. destruct (Hf id) as [o ->]. by destruct (file_at c id).
Qed.

Lemma ensure_space_loop_ok fuel : forall c needed fte force,
  wf_cache c -> writes_return -> at_top c fte -> 0 <= needed < 2 ^ 63 ->
  (file_count c < fuel)%nat ->
  exists r c', ensure_space_loop fuel needed fte force c = (r, c') /\ room_spec c needed r c' /\
    content c' fte = content c fte.
Proof.
  induction fuel as [|fuel IH]; intros c needed fte force W Hd Hfte Hn Hfuel; [lia|].
  pose proof (wfc_push c W). pose proof (wfc_max c W).
  assert (Hself : survives c c) by (split_and!; auto).
  cbn [ensure_space_loop]. unfold sbind at 1, get_st at 1. unfold sbind at 1, slift at 1, uadd at 1.
  rewrite (proj2 (Z.ltb_lt _ _)) by lia. destruct (Z.leb_spec (arena_push_offset c + needed) (max_memory c)).
  { exists (Ok true), c. split; [done|]. by split. }
  destruct (evict_turn c fte force W Hd) as (n & c1 & E1 & Hs1 & Hcase & Hfc1 & Htop1).
  unfold sbind at 1. rewrite E1. destruct Hcase as [[-> Hp]|(b & f & d & _ & Hf & -> & ->)].
  { exists (Ok false), c1. split; [done|]. split; [|done]. split; [done|]. destruct Hs1 as (_ & -> & _). lia. }
  destruct (Z.eqb_spec (cf_len f) 0).
  { exists (Ok false), (evicted b f d c). split; [done|]. split; [|done]. split; [done|]. cbn. lia. }
  pose proof (used_bound _ (proj1 Hs1)) as Hub. cbn in Hub.
  pose proof (used_cap c fte W Hfte).
  pose proof (wfc_region c W b f Hf).
  unfold sbind at 1, get_st at 1. unfold sbind at 1, slift at 1, uadd at 1.
  cbn [current_memory_used evicted set_used max_memory set_files set_driver].
  rewrite (proj2 (Z.ltb_lt _ _)) by lia. unfold sbind at 1, slift at 1, usub.
  destruct (Z.leb_spec (cf_len f) (current_memory_used c - cf_len f + needed)); cycle 1.
  { exists Panic, (evicted b f d c). split; [done|]. split; [|done]. split; [done|].
    exists b, (region (arena c) (arena_offset f) (cf_len f)). unfold content. rewrite Hf.
    split; [done|]. rewrite length_region; rewrite ?(wfc_arena c W); lia. }
  pose proof (evicted_count c b f d W Hf) as Hcnt.
  pose proof (Htop1 fte Hfte) as Hfte1.
  unfold sbind at 1. match goal with |- context [if ?t then _ else _] => destruct t end.
  - destruct (survives_compact _ fte (proj1 Hs1) Hfte1) as (c2 & -> & Hs2 & Hc2 & Ht2 & Hfc2).
    destruct (IH c2 needed fte force) as (r & c' & E & Hr & Hfc); [apply Hs2|done|done|done|lia|].
    exists r, c'. split; [exact E|]. split; [|congruence]. eapply room_spec_trans; [|done]. by eapply survives_trans.
  - destruct (IH (evicted b f d c) needed fte force) as (r & c' & E & Hr & Hfc);
      [apply Hs1|done|done|done|lia|].
    exists r, c'. split; [exact E|]. split; [|congruence]. by eapply room_spec_trans.
Qed.

Lemma iter_count c : wf_map (files c) -> length (iter (files c)) = file_count c.
Proof.
  intros W. unfold file_count. destruct (iter_map _ W) as [Hn <-].
  by rewrite map_size_list_to_map.
Qed.

Lemma ensure_space_does c needed fte force :
  wf_cache c -> writes_return -> at_top c fte -> 0 <= needed < 2 ^ 63 ->
  exists r c', ensure_space needed fte force c = (r, c') /\ room_spec c needed r c' /\
    content c' fte = content c fte.
Proof.
  intros W Hd Hf Hn. unfold ensure_space, sbind, get_st.
  apply ensure_space_loop_ok; try done. rewrite iter_count by apply W. lia.
Qed.

End cache.
