(* ===== verification/FileCacheIo.v ===== *)
(** * FileCacheIo: reading and writing through the file cache

    A read returns the cached content, loading it from the driver first when it is
    missing; a write patches the cached content, growing it with zeros when it
    ends past the file; a flush hands the content to the driver.  All leave the other
    files' contents alone. *)

From Stdlib Require Import ZArith Lia.
From stdpp Require Import base tactics list option numbers fin_maps gmap.
From S2P Require Import Prelude FxHashMap FsTypes FileCache FileCacheOk.

Open Scope rust_scope.

Section cache.
Context {D : Type} `{CacheFilesystemDriver D}.
Variable timestamp_us : Z -> Z.
Implicit Types c : FileCache D.

Lemma content_some c id bs :
  wf_cache c -> content c id = Some bs ->
  exists f, file_at c id = Some f /\ bs = region (arena c) (arena_offset f) (cf_len f) /\
    cf_len f = zlen bs /\ 0 <= arena_offset f /\
    arena_offset f + cf_len f <= arena_push_offset c <= zlen (arena c).
Proof.
  intros W Hc. destruct (content_len c id bs W Hc) as (f & Hf & Hl). exists f.
  unfold content in Hc. rewrite Hf in Hc. cbn in Hc. injection Hc as <-.
  pose proof (wfc_region c W id f Hf). pose proof (wfc_push c W). rewrite (wfc_arena c W).
  split_and!; try done; lia.
Qed.

Lemma region_app (buf : list Z) off n m :
  0 <= off -> 0 <= n -> 0 <= m -> region buf off (n + m) = region buf off n ++ region buf (off + n) m.
Proof.
  intros. unfold region. rewrite (Z2Nat.inj_add n m), slice_app, Z2Nat.inj_add by lia. done.
Qed.

Lemma region_region (buf : list Z) off n o m :
  0 <= off -> 0 <= o -> 0 <= m -> o + m <= n -> region (region buf off n) o m = region buf (off + o) m.
Proof.
  intros. unfold region. rewrite slice_slice by lia. by rewrite Z2Nat.inj_add by lia.
Qed.

Lemma region_splice_inside (buf : list Z) off n k (new : list Z) :
  0 <= off -> 0 <= k -> k + zlen new <= n -> off + n <= zlen buf ->
  region (splice buf (Z.to_nat (off + k)) new) off n = splice (region buf off n) (Z.to_nat k) new.
Proof.
  intros. pose proof (length_region buf off n) as Hl. unfold region in *.
  rewrite Z2Nat.inj_add, <- (splice_patch buf (Z.to_nat off) (Z.to_nat n) (Z.to_nat k) new) by lia.
  set (new' := splice _ (Z.to_nat k) new).
  assert (Hn : length new' = Z.to_nat n) by (unfold new'; rewrite length_splice by lia; lia).
  rewrite <- Hn at 1. apply slice_splice_same. lia.
Qed.

Lemma region_whole (bs : list Z) n : zlen bs = n -> region bs 0 n = bs.
Proof. intros. unfold region. apply slice_all. lia. Qed.

(** ** Changing one file *)

(** The file [id] has a new region in a new arena, disjoint from the others'. *)
Lemma regrow c id f g p a :
  wf_cache c -> file_at c id = Some f -> zlen a = zlen (arena c) ->
  arena_push_offset c <= p <= max_memory c ->
  0 <= arena_offset (g f) -> 0 <= cf_len (g f) -> arena_offset (g f) + cf_len (g f) <= p ->
  (forall j h, j <> id -> file_at c j = Some h -> cf_len h = 0 \/
     (apart (g f) h /\ region a (arena_offset h) (cf_len h) =
        region (arena c) (arena_offset h) (cf_len h))) ->
  let c' := set_files (mupdate (files c) id g)
    (set_used (current_memory_used c + (cf_len (g f) - cf_len f)) (set_push p (set_arena a c))) in
  wf_cache c' /\ content c' id = Some (region a (arena_offset (g f)) (cf_len (g f))) /\
  file_at c' id = Some (g f) /\
  (forall j, j <> id -> content c' j = content c j).
Proof.
  intros W Hf Ha Hp Ho Hl Hb Hj c'. destruct (mupdate_ok (files c) id g (wfc_files c W)) as [W' E].
  assert (Hat : forall j, file_at c' j = if decide (j = id) then Some (g f) else file_at c j).
  { intros j. unfold file_at. cbn. rewrite E. case_decide as Ej.
    - subst. rewrite lookup_alter_eq. unfold file_at in Hf. by rewrite Hf.
    - by rewrite lookup_alter_ne. }
  split_and!.
  - constructor; try apply W; try done.
    + cbn. by rewrite Ha, (wfc_arena c W).
    + pose proof (wfc_push c W). cbn. lia.
    + intros j h. rewrite Hat. case_decide; [intros [= <-]; done|].
      intros Hh. pose proof (wfc_region c W j h Hh). cbn. lia.
    + intros i j h h' Hij. rewrite !Hat. do 2 case_decide; try congruence.
      * intros [= <-] Hh. destruct (Hj j h') as [|[]]; [done|done|by right; left|done].
      * intros Hh [= <-]. destruct (Hj i h) as [|[Hap _]]; [done|done|by left|].
        unfold apart in *. lia.
      * by apply (wfc_apart c W).
    + cbn. rewrite E, (wfc_used c W). symmetry. by apply total_alter.
  - unfold content. rewrite Hat, decide_True by done. done.
  - by rewrite Hat, decide_True.
  - intros j Hne. unfold content. rewrite Hat, decide_False by done.
    destruct (file_at c j) as [h|] eqn:Hh; [|done]. cbn. f_equal.
    destruct (Hj j h Hne Hh) as [Hz|[_ Hr]]; [by rewrite Hz, !region_zero|done].
Qed.

(** Metadata only. *)
Lemma remeta c id f g :
  wf_cache c -> file_at c id = Some f -> arena_offset (g f) = arena_offset f ->
  cf_len (g f) = cf_len f ->
  let c' := set_files (mupdate (files c) id g) c in
  wf_cache c' /\ file_at c' id = Some (g f) /\ (forall j, content c' j = content c j).
Proof.
  intros W Hf Eo El c'. pose proof (wfc_region c W id f Hf).
  destruct (regrow c id f g (arena_push_offset c) (arena c)) as (W' & Hc & Hf' & Hj);
    try done; try lia.
  { pose proof (wfc_push c W). lia. }
  { intros j h Hne Hh. right. split; [|done]. pose proof (wfc_apart c W id j f h) as Hap.
    unfold apart in *. rewrite Eo, El. by apply Hap. }
  assert (E : c' = set_files (mupdate (files c) id g)
    (set_used (current_memory_used c + (cf_len (g f) - cf_len f))
      (set_push (arena_push_offset c) (set_arena (arena c) c)))).
  { rewrite El, Z.sub_diag, Z.add_0_r. by destruct c. }
  rewrite E. split; [done|]. split; [done|]. intros j. destruct (decide (j = id)) as [->|].
  - rewrite Hc. unfold content. rewrite Hf. cbn. by rewrite Eo, El.
  - by apply Hj.
Qed.

Lemma set_tick_wf t c : wf_cache c -> wf_cache (set_tick t c).
Proof. intros []. by constructor. Qed.

(** ** Reading *)

(** What a read of [out] at [offset] returns of a file's bytes. *)
Definition read_result (bs : list Z) (offset : Z) (out : list Z) : Z * list Z :=
  let n := Z.max 0 (Z.min (zlen out) (zlen bs - offset)) in
  (n, splice out 0 (region bs offset n)).

Lemma copy_out_region c src o n offset (out : list Z) :
  0 <= o -> 0 <= n -> o + n <= zlen src -> 0 <= offset ->
  (if n <=? offset then (Ok (0, out), c)
   else copy_out src (o + offset) (Z.min (zlen out) (n - offset)) out c) =
  (Ok (read_result (region src o n) offset out), c).
Proof.
  intros. unfold read_result. rewrite length_region by lia.
  destruct (Z.leb_spec n offset).
  - rewrite Z.max_l by lia. by rewrite region_zero, splice_nil by lia.
  - rewrite Z.max_r by lia. unfold copy_out, sbind, slift.
    rewrite slice_at_ok by lia. fold (region src (o + offset) (Z.min (zlen out) (n - offset))).
    rewrite splice_at_ok; [|lia|rewrite length_region; lia].
    rewrite region_region by lia. done.
Qed.

Lemma read_hit c id offset bs (out : list Z) :
  wf_cache c -> content c id = Some bs -> 0 <= offset ->
  exists c', read_file_range id offset out c = (Ok (read_result bs offset out), c') /\
    wf_cache c' /\ driver c' = driver c /\ (forall j, content c' j = content c j).
Proof.
  intros W Hc Hoff. destruct (content_some c id bs W Hc) as (f & Hf & -> & Hl & Ho & Hb).
  set (c1 := set_tick (wrap 64 (access_tick c + 1)) c).
  destruct (remeta c1 id f (touch (access_tick c1))) as (W' & _ & Hj);
    [by apply set_tick_wf|done|done|done|].
  pose proof (wfc_region c W id f Hf).
  eexists. split; [|split; [exact W'|split; [done|exact Hj]]].
  unfold read_file_range, tick_op, sbind at 1, upd at 1. fold c1.
  unfold sbind at 1, get_st at 1. rewrite mget_map by apply W. unfold file_at in Hf.
  cbn [files set_tick c1]. rewrite Hf. unfold sbind at 1, upd at 1.
  match goal with |- (if ?b then sret ?x else ?y) ?s = _ =>
    transitivity (if b then sret (S:=FileCache D) (E:=FileSystemError) x s else y s); [by destruct b|] end.
  apply copy_out_region; lia.
Qed.

(** With room, [ensure_space] changes nothing and the push succeeds. *)
Lemma ensure_room c needed fte force :
  wf_cache c -> 0 <= needed -> arena_push_offset c + needed <= max_memory c ->
  ensure_space needed fte force c = (Ok true, c).
Proof.
  intros W Hn Hroom. pose proof (wfc_push c W). pose proof (wfc_max c W).
  unfold ensure_space, sbind, get_st. cbn [ensure_space_loop].
  unfold sbind, get_st, slift, uadd. rewrite (proj2 (Z.ltb_lt _ _)) by lia.
  by rewrite (proj2 (Z.leb_le _ _)) by lia.
Qed.

Lemma push_room c n :
  wf_cache c -> 0 <= n -> arena_push_offset c + n <= max_memory c ->
  arena_push_alloc n c =
    (Ok (Some (arena_push_offset c)), set_push (arena_push_offset c + n) c).
Proof.
  intros W Hn Hroom. pose proof (wfc_push c W). pose proof (wfc_max c W).
  unfold arena_push_alloc, sbind, get_st, slift, uadd. rewrite (proj2 (Z.ltb_lt _ _)) by lia.
  by rewrite (proj2 (Z.leb_le _ _)) by lia.
Qed.

(** A new file in the region just pushed. *)
Lemma cached_wf c id f bytes fs d ns n :
  wf_cache c -> file_at c id = None -> wf_map fs -> to_map fs = <[ id := f ]> (to_map (files c)) ->
  wf_map ns -> arena_offset f = arena_push_offset c -> 0 <= cf_len f <= n -> zlen bytes = n ->
  arena_push_offset c + n <= max_memory c ->
  let c' := set_used (current_memory_used c + cf_len f)
    (set_nodes ns (set_driver d (set_files fs (set_arena
      (splice (arena c) (Z.to_nat (arena_push_offset c)) bytes)
      (set_push (arena_push_offset c + n) c))))) in
  wf_cache c' /\ content c' id = Some (region bytes 0 (cf_len f)) /\
  (forall j, j <> id -> content c' j = content c j).
Proof.
  intros W Hid Wfs Efs Wns Hfo Hfl Hb Hroom c'. pose proof (wfc_push c W).
  pose proof (wfc_arena c W).
  assert (Hat : forall j, file_at c' j = if decide (j = id) then Some f else file_at c j).
  { intros j. unfold file_at. cbn. rewrite Efs. case_decide as Ej.
    - subst. by rewrite lookup_insert_eq.
    - by rewrite lookup_insert_ne. }
  split_and!.
  - constructor; try apply W; try done.
    + cbn. by rewrite length_splice_z by lia.
    + cbn. lia.
    + intros j h. rewrite Hat. case_decide; [intros [= <-]; cbn; lia|].
      intros Hh. pose proof (wfc_region c W j h Hh). cbn. lia.
    + intros i j h h' Hij. rewrite !Hat. unfold apart. do 2 case_decide; try congruence.
      * intros [= <-] Hh. pose proof (wfc_region c W j h' Hh). lia.
      * intros Hh [= <-]. pose proof (wfc_region c W i h Hh). lia.
      * by apply (wfc_apart c W).
    + cbn. rewrite Efs, (wfc_used c W), total_insert by done. lia.
  - unfold content. rewrite Hat, decide_True by done. cbn. rewrite Hfo. f_equal.
    rewrite <- (Z.add_0_r (arena_push_offset c)) at 2.
    rewrite <- (region_region _ (arena_push_offset c) n 0 (cf_len f)) by lia.
    rewrite <- Hb. by rewrite region_splice_same by lia.
  - intros j Hne. unfold content. rewrite Hat, decide_False by done.
    destruct (file_at c j) as [h|] eqn:Hh; [|done]. cbn. f_equal.
    pose proof (wfc_region c W j h Hh). apply region_splice_other; lia.
Qed.

Lemma on_driver_ok {A} (call : stM D FileSystemError A) a d c :
  call (driver c) = (Ok a, d) -> on_driver call c = (Ok a, set_driver d c).
Proof. intros E. unfold on_driver. by rewrite E. Qed.

Lemma load_ok c id off n bytes d fs :
  zlen (arena c) = max_memory c -> 0 <= off -> 0 <= n -> off + n <= max_memory c ->
  zlen bytes = n ->
  cd_read_file_into id (region (arena c) off n) (driver c) = (Ok (n, bytes), d) ->
  minsert (E:=FileSystemError) (files c) id
    (new_cached off n (access_tick c) (get_effective_importance c id)) = Ok fs ->
  load_into id off n c =
    (Ok n, set_files fs (set_arena (splice (arena c) (Z.to_nat off) bytes) (set_driver d c))).
Proof.
  intros Ha Ho Hn Hb Hl Hrd Ei. unfold load_into.
  unfold sbind at 1, get_st at 1, sbind at 1, slift at 1. rewrite slice_at_ok by lia.
  rewrite (sbind_ok _ _ _ _ _ (on_driver_ok _ _ _ _ Hrd)).
  unfold sbind at 1, get_st at 1, sbind at 1, slift at 1. cbn [arena set_driver].
  rewrite splice_at_ok by lia. unfold sbind at 1, slift at 1.
  change (minsert _ _ _) with (minsert (E:=FileSystemError) (files c) id
    (new_cached off n (access_tick c) (get_effective_importance c id))).
  by rewrite Ei.
Qed.

(** The file's metadata inserted after a load. *)
Lemma insert_node_ok c id node {A} (k : unit -> stM (FileCache D) FileSystemError A) :
  wf_map (file_nodes c) -> has_empty (slots (file_nodes c)) ->
  exists ns, wf_map ns /\ to_map ns = <[ id := node ]> (to_map (file_nodes c)) /\
    (let! c := get_st in let! ns := slift (minsert (file_nodes c) id node) in
     let! u := upd (set_nodes ns) in k u) c = k tt (set_nodes ns c).
Proof.
  intros W He. destruct (minsert_ok (E:=FileSystemError) (file_nodes c) id node W He)
    as (ns & En & Wns & Ens).
  exists ns. split; [done|]. split; [done|].
  unfold sbind at 1, get_st at 1, sbind at 1, slift at 1. by rewrite En.
Qed.

Lemma read_miss c id offset (out : list Z) n bytes node d1 d2 d3 :
  wf_cache c -> content c id = None -> 0 <= offset -> 0 < n ->
  has_empty (slots (files c)) -> has_empty (slots (file_nodes c)) ->
  arena_push_offset c + n <= max_memory c ->
  cd_file_size id (driver c) = (Ok n, d1) ->
  cd_read_file_into id (region (arena c) (arena_push_offset c) n) d1 = (Ok (n, bytes), d2) ->
  zlen bytes = n -> cd_get_node id d2 = (Ok node, d3) ->
  exists c', read_file_range id offset out c = (Ok (read_result bytes offset out), c') /\
    wf_cache c' /\ driver c' = d3 /\ content c' id = Some bytes /\
    (forall j, j <> id -> content c' j = content c j).
Proof.
  intros W Hc Hoff Hn He He' Hroom Hsz Hrd Hb Hnd.
  apply file_content in Hc as Hf. pose proof (wfc_push c W). pose proof (wfc_max c W).
  pose proof (wfc_arena c W) as Ha.
  set (c1 := set_tick (wrap 64 (access_tick c + 1)) c).
  set (c2 := set_driver d1 c1). assert (W2 : wf_cache c2) by by apply set_driver_wf, set_tick_wf.
  set (f := new_cached (arena_push_offset c) n (access_tick c1) (get_effective_importance c id)).
  destruct (minsert_ok (E:=FileSystemError) (files c) id f (wfc_files c W) He) as (fs & Ei & Wfs & Efs).
  set (p := arena_push_offset c) in *. set (c3 := set_push (p + n) c2).
  assert (W3 : zlen (arena c3) = max_memory c3) by done.
  set (c4 := set_driver d3 (set_files fs (set_arena (splice (arena c) (Z.to_nat p) bytes)
    (set_driver d2 c3)))).
  destruct (insert_node_ok c4 id node (fun _ =>
      let! u := slift (uadd (current_memory_used c4) n) in
      upd (set_used u) ;;;
      if n <=? offset then sret (0, out) else
      let! c := get_st in
      copy_out (arena c) (p + offset) (Z.min (zlen out) (n - offset)) out))
    as (ns & Wns & _ & En); [apply W|done|].
  destruct (cached_wf c2 id f bytes fs d3 ns n) as (W' & Hc' & Hj);
    try done; try (cbn; lia).
  set (c5 := set_used (current_memory_used c + n) (set_nodes ns c4)).
  exists c5. rewrite region_whole in Hc' by done.
  split; [|split; [exact W'|split; [done|split; [exact Hc'|exact Hj]]]].
  unfold read_file_range.
  rewrite (sbind_ok _ _ _ _ _ (eq_refl : tick_op c = (Ok tt, c1))).
  unfold sbind at 1, get_st at 1. rewrite mget_map by apply W. unfold file_at in Hf.
  cbn [files set_tick c1]. rewrite Hf.
  rewrite (sbind_ok _ _ _ _ _ (on_driver_ok _ n d1 c1 Hsz)). fold c2.
  rewrite (proj2 (Z.eqb_neq n 0)) by lia.
  rewrite (sbind_ok _ _ _ _ _ (ensure_room c2 n _ _ W2 (Z.lt_le_incl _ _ Hn) Hroom)). cbn [negb].
  rewrite (sbind_ok _ _ _ _ _ (push_room c2 n W2 (Z.lt_le_incl _ _ Hn) Hroom)).
  change (arena_push_offset c2) with p. fold c3.
  rewrite (sbind_ok _ _ _ _ _ (load_ok c3 id p n bytes d2 fs W3 (proj1 H0)
    (Z.lt_le_incl _ _ Hn) Hroom Hb Hrd Ei)).
  rewrite (sbind_ok _ _ _ _ _ (on_driver_ok _ node d3 (set_files fs (set_arena
    (splice (arena c) (Z.to_nat p) bytes) (set_driver d2 c3))) Hnd)).
  fold c4. etransitivity; [exact En|].
  unfold sbind at 1, slift at 1, uadd. pose proof (used_bound c W).
  pose proof (used_cap c id W (at_top_uncached c id Hf)). cbn [current_memory_used c4 set_driver
    set_files set_arena c3 set_push c2 c1 set_tick].
  rewrite (proj2 (Z.ltb_lt _ _)) by lia. unfold sbind at 1, upd at 1. fold c5.
  transitivity (if n <=? offset then (Ok (0, out) : result FileSystemError _, c5)
    else copy_out (arena c5) (p + offset) (Z.min (zlen out) (n - offset)) out c5);
    [by destruct (n <=? offset)|].
  assert (El : zlen (arena c5) = max_memory c) by (cbn; rewrite length_splice_z by lia; done).
  rewrite copy_out_region by lia. do 3 f_equal. cbn [arena c5 set_used set_nodes c4 set_driver
    set_files set_arena]. rewrite <- Hb. by apply region_splice_same; lia.
Qed.

(** ** Writing *)

(** A file of bytes [bs] after [data] was written at [offset]: grown with zeros up to
    the end of the write, then patched. *)
Definition grown (bs : list Z) (n : Z) : list Z := bs ++ zeros (n - zlen bs).
Definition patched (bs : list Z) (offset : Z) (data : list Z) : list Z :=
  splice (grown bs (offset + zlen data)) (Z.to_nat offset) data.

Lemma zlen_zeros n : 0 <= n -> zlen (zeros n) = n.
Proof. intros. unfold zeros. rewrite length_replicate. lia. Qed.

Lemma length_grown bs n : zlen (grown bs n) = Z.max (zlen bs) n.
Proof. unfold grown, zeros. rewrite length_app, length_replicate. lia. Qed.

Lemma grown_small bs n : n <= zlen bs -> grown bs n = bs.
Proof.
  intros. unfold grown, zeros. replace (Z.to_nat (n - zlen bs)) with 0%nat by lia. apply app_nil_r.
Qed.

(** The file can grow to [new_len] without an eviction. *)
Definition can_grow c (f : CachedFile) (new_len : Z) : Prop :=
  (arena_offset f + cf_len f = arena_push_offset c /\
   arena_push_offset c + (new_len - cf_len f) <= max_memory c) \/
  arena_push_offset c + new_len <= max_memory c.

(** What a step of [write_file] keeps. *)
Definition kept (id : Z) c c' : Prop :=
  driver c' = driver c /\ file_nodes c' = file_nodes c /\ max_memory c' = max_memory c /\
  access_tick c' = access_tick c /\ forall j, j <> id -> content c' j = content c j.

Lemma grow_in_place c id f bs n :
  wf_cache c -> content c id = Some bs -> file_at c id = Some f -> zlen bs <= n ->
  arena_offset f + cf_len f = arena_push_offset c ->
  arena_push_offset c + (n - cf_len f) <= max_memory c ->
  exists c', grow_at_tail id (n - cf_len f) n c = (Ok tt, c') /\ wf_cache c' /\
    content c' id = Some (grown bs n) /\ kept id c c'.
Proof.
  intros W Hc Hf Hn Hat Hroom. destruct (content_some c id bs W Hc) as (f' & Hf' & Ebs & Hl & Ho & Hb).
  assert (f' = f) as -> by congruence. pose proof (wfc_arena c W) as Ha.
  pose proof (wfc_region c W id f Hf) as (_ & Hlf & _). pose proof (wfc_push c W).
  set (z := zeros (n - cf_len f)). assert (Hz : zlen z = n - cf_len f) by (apply zlen_zeros; lia).
  set (p := arena_push_offset c) in *.
  destruct (regrow c id f (fun f => set_region (arena_offset f) n f) (p + (n - cf_len f))
    (splice (arena c) (Z.to_nat p) z)) as (W' & Hc' & _ & Hj); try done; cbn; try lia.
  { by rewrite length_splice_z by lia. }
  { intros j h Hne Hh. pose proof (wfc_region c W j h Hh) as Hr. fold p in Hr.
    destruct (decide (cf_len h = 0)); [by left|]. right.
    pose proof (wfc_apart c W id j f h ltac:(done) Hf Hh). unfold apart in *. cbn. split; [lia|].
    apply region_splice_other; lia. }
  eexists. split; [|split; [exact W'|split; [|by split_and!]]].
  - fold p z. rewrite splice_at_ok by lia. done.
  - rewrite Hc'. cbn. f_equal. replace n with (cf_len f + (n - cf_len f)) at 1 by lia.
    rewrite region_app by lia. unfold grown. rewrite <- Hl, Hat. f_equal.
    + rewrite Ebs. apply region_splice_other; lia.
    + fold z. rewrite <- Hz. apply region_splice_same; lia.
Qed.

Lemma grow_by_copy c id f bs n :
  wf_cache c -> content c id = Some bs -> file_at c id = Some f -> zlen bs <= n ->
  arena_push_offset c + n <= max_memory c ->
  let p := arena_push_offset c in
  let a := splice (splice (arena c) (Z.to_nat p) (region (arena c) (arena_offset f) (cf_len f)))
    (Z.to_nat (p + cf_len f)) (zeros (n - cf_len f)) in
  let c' := set_files (mupdate (files c) id (set_region p n))
    (set_used (current_memory_used c + (n - cf_len f)) (set_push (p + n) (set_arena a c))) in
  wf_cache c' /\ content c' id = Some (grown bs n) /\ kept id c c'.
Proof.
  intros W Hc Hf Hn Hroom p a c'. destruct (content_some c id bs W Hc) as (f' & Hf' & Ebs & Hl & Ho & Hb).
  assert (f' = f) as -> by congruence. pose proof (wfc_arena c W) as Ha. pose proof (wfc_push c W).
  set (z := zeros (n - cf_len f)) in *. assert (Hz : zlen z = n - cf_len f) by (apply zlen_zeros; lia).
  assert (Ea : a = splice (arena c) (Z.to_nat p) (bs ++ z)).
  { unfold a. rewrite <- Ebs, Hl. replace (Z.to_nat (p + zlen bs)) with (Z.to_nat p + length bs)%nat by lia.
    apply splice_splice_app. subst p. lia. }
  assert (Hbz : zlen (bs ++ z) = n) by (rewrite length_app; lia).
  destruct (regrow c id f (set_region p n) (p + n) a) as (W' & Hc' & _ & Hj); try done; cbn; try lia.
  { rewrite Ea. by rewrite length_splice_z by lia. }
  { intros j h Hne Hh. pose proof (wfc_region c W j h Hh) as Hr. right. unfold apart. cbn. fold p in Hr.
    split; [lia|]. rewrite Ea. apply region_splice_other; lia. }
  split; [exact W'|]. split; [|by split_and!].
  etransitivity; [exact Hc'|]. cbn. f_equal.
  pose proof (region_splice_same (arena c) p (bs ++ z)) as Hr. rewrite Hbz in Hr.
  rewrite Ea, Hr by lia. unfold grown, z. by rewrite Hl.
Qed.

Lemma write_grow_ok c id f bs n :
  wf_cache c -> content c id = Some bs -> file_at c id = Some f -> zlen bs <= n < 2 ^ 63 ->
  can_grow c f n ->
  exists c', write_grow id f n c = (Ok tt, c') /\ wf_cache c' /\
    content c' id = Some (grown bs n) /\ kept id c c'.
Proof.
  intros W Hc Hf Hn Hg. destruct (content_some c id bs W Hc) as (f' & Hf' & Ebs & Hl & Ho & Hb).
  assert (f' = f) as -> by congruence. pose proof (wfc_arena c W) as Ha. pose proof (wfc_push c W).
  pose proof (wfc_max c W). pose proof (wfc_region c W id f Hf) as (_ & Hlf & _).
  set (p := arena_push_offset c) in *.
  assert (Hcase : arena_offset f + cf_len f = p /\ p + (n - cf_len f) <= max_memory c \/
    ~ (arena_offset f + cf_len f = p /\ p + (n - cf_len f) <= max_memory c) /\
    p + n <= max_memory c) by (unfold can_grow in Hg; fold p in Hg; lia).
  unfold write_grow, sbind at 1, get_st at 1. fold p. destruct Hcase as [[E1 E2]|[Hno Hroom]].
  - destruct (grow_in_place c id f bs n) as (c' & E & ?); try done; [lia|].
    exists c'. split; [|done]. rewrite (proj2 (Z.eqb_eq _ _)) by done.
    unfold sbind at 1. unfold sbind at 1, slift at 1, uadd. rewrite (proj2 (Z.ltb_lt _ _)) by lia.
    cbn [sret]. rewrite (proj2 (Z.leb_le _ _)) by done. exact E.
  - destruct (grow_by_copy c id f bs n) as (W' & Hc' & Hk); try done; [lia|]. fold p in W', Hc', Hk.
    eexists. split; [|split; [exact W'|split; [exact Hc'|exact Hk]]].
    unfold sbind at 1.
    match goal with |- context [match ?x with _ => _ end] =>
      assert (Ex : x = (Ok false, c)) end.
    { destruct (Z.eqb_spec (arena_offset f + cf_len f) p); [|done].
      unfold sbind, slift, uadd. rewrite (proj2 (Z.ltb_lt _ _)) by lia. cbn.
      by rewrite (proj2 (Z.leb_gt _ _)) by lia. }
    rewrite Ex. unfold sbind at 1, slift at 1, usub. rewrite (proj2 (Z.leb_le _ _)) by lia.
    rewrite (proj2 (Z.leb_le _ _)) by lia. unfold sbind at 1, slift at 1.
    rewrite copy_within_ok by lia. pose proof (length_region (arena c) (arena_offset f) (cf_len f)).
    unfold sbind at 1, slift at 1. rewrite splice_at_ok.
    + reflexivity.
    + lia.
    + rewrite length_splice_z, zlen_zeros by lia. lia.
Qed.

(** The metadata [m] has of a file gets a new size. *)
Definition resized (id len : Z) (m m' : FxHashMap Z FileNode) : Prop :=
  forall n, to_map m !! id = Some n -> exists n', to_map m' !! id = Some n' /\
    node_size n' = len /\ FsTypes.node_id n' = FsTypes.node_id n /\ file_type n' = file_type n.

(** The metadata step of [write_patch] touches only the node table. *)
Lemma patch_nodes c id node len now d {A} (a : A) :
  wf_cache c -> has_empty (slots (file_nodes c)) -> cd_get_node id (driver c) = (Ok node, d) ->
  exists ns, wf_map ns /\
    (let! node := on_driver (cd_get_node id) in
     let! c := get_st in
     (if mhas (file_nodes c) id then
        upd (set_nodes (mupdate (file_nodes c) id (fun n =>
          mkNode (FsTypes.node_id n) (node_name n) (file_type n) len (created_time n)
            (now (access_tick c)) (attributes n))))
      else let! ns := slift (minsert (file_nodes c) id node) in upd (set_nodes ns)) ;;;
     sret a) c = (Ok a, set_nodes ns (set_driver d c)) /\
    resized id len (file_nodes c) ns.
Proof.
  intros W He Hnd. rewrite (sbind_ok _ _ _ _ _ (on_driver_ok _ node d c Hnd)).
  unfold sbind at 1, get_st at 1. rewrite mhas_map by apply W. cbn [file_nodes set_driver].
  case_bool_decide as Hs.
  - set (g := fun n => mkNode _ _ _ _ _ _ _).
    destruct (mupdate_ok (file_nodes c) id g (wfc_nodes c W)) as [Wn En].
    eexists. split; [exact Wn|]. split; [done|]. intros n0 Hn0. exists (g n0).
    by rewrite En, lookup_alter_eq, Hn0.
  - destruct (minsert_ok (E:=FileSystemError) (file_nodes c) id node (wfc_nodes c W) He)
      as (ns & En & Wns & _).
    exists ns. split; [done|]. split; [unfold sbind, slift; by rewrite En|].
    intros n0 Hn0. destruct Hs. by exists n0.
Qed.

Lemma write_patch_ok c id offset data bs node d :
  wf_cache c -> content c id = Some bs -> 0 <= offset -> offset + zlen data <= zlen bs ->
  has_empty (slots (file_nodes c)) -> cd_get_node id (driver c) = (Ok node, d) ->
  exists c', write_patch timestamp_us id offset data c = (Ok (zlen data), c') /\ wf_cache c' /\
    content c' id = Some (splice bs (Z.to_nat offset) data) /\ is_dirty <$> file_at c' id = Some true /\
    driver c' = d /\ (forall j, j <> id -> content c' j = content c j) /\
    resized id (zlen bs) (file_nodes c) (file_nodes c').
Proof.
  intros W Hc Hoff Hb He Hnd. destruct (content_some c id bs W Hc) as (f & Hf & Ebs & Hl & Ho & Hbd).
  set (g := fun f => touch (access_tick c) (set_dirty true
    (set_region (arena_offset f) (Z.max (zlen bs) (offset + zlen data)) f))).
  set (a := splice (arena c) (Z.to_nat (arena_offset f + offset)) data).
  destruct (regrow c id f g (arena_push_offset c) a) as (W' & Hc' & Hf' & Hj); try done.
  { unfold a. by rewrite length_splice_z by lia. }
  { pose proof (wfc_arena c W). pose proof (wfc_push c W). lia. }
  { cbn. lia. } { cbn. lia. }
  { intros j h Hne Hh. pose proof (wfc_region c W j h Hh).
    destruct (decide (cf_len h = 0)); [by left|]. right.
    pose proof (wfc_apart c W id j f h ltac:(done) Hf Hh) as Hap. unfold apart in *. cbn.
    split; [lia|]. apply region_splice_other; lia. }
  set (c1 := set_files _ _) in *.
  destruct (patch_nodes c1 id node (Z.max (zlen bs) (offset + zlen data))
    (fun t => wrap 32 (timestamp_us t)) d (zlen data) W' He Hnd) as (ns & Wns & E & Hsz).
  exists (set_nodes ns (set_driver d c1)). split.
  - unfold write_patch, sbind at 1, get_st at 1. rewrite mget_map by apply W.
    unfold file_at in Hf. rewrite Hf. unfold sbind at 1, slift at 1.
    rewrite splice_at_ok by lia. rewrite Hl. etransitivity; [|exact E].
    unfold sbind at 1, upd at 1. do 2 f_equal. unfold c1, a. cbn [g touch set_dirty set_region cf_len].
    rewrite Hl. by destruct c.
  - split_and!; try done.
    + destruct W'. by constructor.
    + etransitivity; [exact Hc'|]. cbn. f_equal. rewrite Z.max_l, <- Hl by lia. unfold a.
      rewrite region_splice_inside by lia. by rewrite <- Ebs.
    + change (is_dirty <$> file_at c1 id = Some true). by rewrite Hf'.
    + rewrite Z.max_l in Hsz by lia. exact Hsz.
Qed.

Lemma write_cached c id offset data bs f node d :
  wf_cache c -> content c id = Some bs -> file_at c id = Some f -> 0 <= offset ->
  offset + zlen data < 2 ^ 63 ->
  (zlen bs < offset + zlen data -> can_grow c f (offset + zlen data)) ->
  has_empty (slots (file_nodes c)) -> cd_get_node id (driver c) = (Ok node, d) ->
  exists c', write_file timestamp_us id offset data c = (Ok (zlen data), c') /\ wf_cache c' /\
    content c' id = Some (patched bs offset data) /\ is_dirty <$> file_at c' id = Some true /\
    driver c' = d /\ (forall j, j <> id -> content c' j = content c j) /\
    resized id (Z.max (zlen bs) (offset + zlen data)) (file_nodes c) (file_nodes c').
Proof.
  intros W Hc Hf Hoff Hmax Hg He Hnd. destruct (content_some c id bs W Hc) as (f' & Hf' & Ebs & Hl & _).
  assert (f' = f) as -> by congruence.
  set (c1 := set_tick (wrap 64 (access_tick c + 1)) c).
  assert (W1 : wf_cache c1) by by apply set_tick_wf.
  set (n := offset + zlen data) in *.
  assert (Hgrow : exists c2, (if cf_len f <? n then write_grow id f n else sret tt) c1 = (Ok tt, c2) /\
    wf_cache c2 /\ content c2 id = Some (grown bs n) /\ kept id c1 c2).
  { destruct (Z.ltb_spec (cf_len f) n).
    - apply write_grow_ok; try done; [lia|]. apply Hg. lia.
    - exists c1. rewrite grown_small by lia. split_and!; done. }
  destruct Hgrow as (c2 & Eg & W2 & Hc2 & Hd2 & Hn2 & _ & _ & Hj2).
  destruct (write_patch_ok c2 id offset data (grown bs n) node d) as
    (c' & Ep & W' & Hc' & Hdirty & Hd' & Hj' & Hs'); try done.
  { rewrite length_grown. lia. } { by rewrite Hn2. } { by rewrite Hd2. }
  exists c'. split.
  - unfold write_file. rewrite (sbind_ok _ _ _ _ _ (eq_refl : tick_op c = (Ok tt, c1))).
    unfold sbind at 1, get_st at 1. rewrite mhas_map by apply W. unfold file_at in Hf.
    cbn [files set_tick c1]. rewrite bool_decide_eq_true_2 by by exists f.
    unfold sbind at 1, sret at 1. unfold sbind at 1, slift at 1, uadd. fold n.
    rewrite (proj2 (Z.ltb_lt _ _)) by lia. unfold sbind at 1, get_st at 1.
    rewrite mget_map by apply W1. cbn [files set_tick c1]. rewrite Hf.
    rewrite (sbind_ok _ _ _ _ _ Eg). exact Ep.
  - split_and!; try done.
    + intros j Hne. rewrite Hj', Hj2 by done. done.
    + rewrite length_grown, Hn2 in Hs'. exact Hs'.
Qed.

(** ** Flushing *)

Definition writes_succeed : Prop := forall id off bytes d,
  exists n d', cd_write_file id off bytes d = (Ok n, d').

(** The driver's state after the contents of [ids] were written one after the other. *)
Definition saved c (ids : list Z) (d : D) : D :=
  foldl (fun d id => (cd_write_file id 0 (default [] (content c id)) d).2) d ids.

Definition dirty c (id : Z) : Prop := is_dirty <$> file_at c id = Some true.

Lemma flush_file_dirty c id :
  wf_cache c -> writes_succeed -> dirty c id ->
  exists c', flush_file id c = (Ok tt, c') /\ wf_cache c' /\
    driver c' = (cd_write_file id 0 (default [] (content c id)) (driver c)).2 /\
    (forall j, content c' j = content c j) /\
    (forall j, file_at c' j = if decide (j = id) then set_dirty false <$> file_at c j else file_at c j).
Proof.
  intros W Hd Hdirty. unfold dirty in Hdirty.
  destruct (file_at c id) as [f|] eqn:Hf; [|done]. injection Hdirty as Hdf.
  destruct (Hd id 0 (region (arena c) (arena_offset f) (cf_len f)) (driver c)) as (n & d & Ew).
  set (c1 := set_driver d c). assert (W1 : wf_cache c1) by by apply set_driver_wf.
  destruct (remeta c1 id f (set_dirty false) W1 Hf eq_refl eq_refl) as (W' & Hf' & Hj).
  pose proof (wfc_region c W id f Hf). pose proof (wfc_push c W). pose proof (wfc_arena c W).
  eexists. split; [|split; [exact W'|split; [|split; [exact Hj|]]]].
  - unfold flush_file, sbind at 1, get_st at 1. rewrite mget_map by apply W. unfold file_at in Hf.
    rewrite Hf, Hdf. unfold sbind at 1, slift at 1. rewrite slice_at_ok by lia.
    fold (region (arena c) (arena_offset f) (cf_len f)).
    rewrite (sbind_ok _ _ _ _ _ (on_driver_ok _ n d c Ew)). reflexivity.
  - unfold content. rewrite Hf. cbn. by rewrite Ew.
  - intros j. case_decide as E; [subst; by rewrite Hf', Hf|].
    unfold file_at. cbn. destruct (mupdate_ok (files c) id (set_dirty false) (wfc_files c W)) as [_ ->].
    by rewrite lookup_alter_ne.
Qed.

Lemma saved_ext c c' ids : forall d,
  (forall j, content c' j = content c j) -> saved c' ids d = saved c ids d.
Proof.
  induction ids as [|id ids IH]; intros d Hc; [done|]. unfold saved in *. simpl.
  rewrite Hc. by apply IH.
Qed.

Lemma flush_nodes_ok ids : forall c,
  wf_cache c -> writes_succeed -> NoDup ids -> Forall (dirty c) ids ->
  exists c', flush_nodes ids c = (Ok tt, c') /\ wf_cache c' /\
    driver c' = saved c ids (driver c) /\ (forall j, content c' j = content c j) /\
    (forall j, file_at c' j = if decide (j ∈ ids) then set_dirty false <$> file_at c j else file_at c j).
Proof.
  induction ids as [|id ids IH]; intros c W Hd Hn Hall.
  - exists c. by split_and!.
  - apply NoDup_cons in Hn as [Hid Hn]. apply Forall_cons in Hall as [Hdi Hall].
    destruct (flush_file_dirty c id W Hd Hdi) as (c1 & E1 & W1 & Hd1 & Hc1 & Hf1).
    destruct (IH c1 W1 Hd Hn) as (c' & E & W' & Hd' & Hc' & Hf').
    { rewrite List.Forall_forall in *. intros j Hj. unfold dirty. rewrite Hf1, decide_False; [by apply Hall|].
      intros ->. by apply Hid, list_elem_of_In. }
    exists c'. split; [cbn [flush_nodes]; by rewrite (sbind_ok _ _ _ _ _ E1)|].
    split_and!; [done| | |].
    + rewrite Hd', Hd1, (saved_ext c c1) by done. reflexivity.
    + intros j. by rewrite Hc', Hc1.
    + intros j. rewrite Hf', Hf1. destruct (decide (j = id)) as [->|Hne].
      * rewrite decide_False by done. by rewrite decide_True by apply list_elem_of_here.
      * destruct (decide (j ∈ ids)).
        -- by rewrite decide_True by by apply list_elem_of_further.
        -- rewrite decide_False; [done|]. by apply not_elem_of_cons.
Qed.

Definition dirty_ids c : list Z :=
  fst <$> List.filter (fun kv => is_dirty kv.2) (iter (files c)).

Lemma dirty_ids_ok c : wf_cache c -> NoDup (dirty_ids c) /\ forall id, id ∈ dirty_ids c <-> dirty c id.
Proof.
  intros W. destruct (iter_map _ (wfc_files c W)) as [Hn _]. unfold dirty_ids. split.
  - revert Hn. clear. induction (iter (files c)) as [|[k f] l IH]; [done|]. cbn. intros Hn.
    apply NoDup_cons in Hn as [Hk Hn]. destruct (is_dirty f); [|by apply IH]. cbn.
    constructor; [|by apply IH]. intros Hin. apply Hk. apply list_elem_of_fmap in Hin as (kv & -> & Hin).
    apply list_elem_of_In, filter_In in Hin as [Hin _]. apply list_elem_of_fmap. exists kv.
    split; [done|]. by apply list_elem_of_In.
  - intros id. unfold dirty. rewrite list_elem_of_fmap. split.
    + intros ([k f] & -> & Hin). apply list_elem_of_In, filter_In in Hin as [Hin Hdf].
      apply list_elem_of_In, elem_of_iter_map in Hin; [|apply W]. cbn. unfold file_at. rewrite Hin. cbn in *. by f_equal.
    + destruct (file_at c id) as [f|] eqn:Hf; [|done]. intros [= Hdf]. exists (id, f).
      split; [done|]. apply list_elem_of_In, filter_In. split; [|done].
      apply list_elem_of_In, elem_of_iter_map; [apply W|done].
Qed.

(** ** What the cache promises *)

(** The file's bytes are [bs]: cached, or loaded from the driver into the room that is
    left; the driver is then in state [d]. *)
Definition available c (id : Z) (bs : list Z) (d : D) : Prop :=
  (content c id = Some bs /\ d = driver c) \/
  (content c id = None /\ 0 < zlen bs /\ arena_push_offset c + zlen bs <= max_memory c /\
   has_empty (slots (files c)) /\ has_empty (slots (file_nodes c)) /\
   exists node d1 d2, cd_file_size id (driver c) = (Ok (zlen bs), d1) /\
     cd_read_file_into id (region (arena c) (arena_push_offset c) (zlen bs)) d1 =
       (Ok (zlen bs, bs), d2) /\
     cd_get_node id d2 = (Ok node, d)).

(** Reading a file through the cache returns its bytes from the offset on, as many
    as the buffer holds and the file has, whether the file was cached or had to be
    loaded; the file is cached afterwards, the other files' contents are untouched and a
    hit does not reach the driver. *)
Theorem cache_read c id offset (out : list Z) bs d :
  wf_cache c -> 0 <= offset -> available c id bs d ->
  exists c', read_file_range id offset out c = (Ok (read_result bs offset out), c') /\
    wf_cache c' /\ driver c' = d /\ content c' id = Some bs /\
    (forall j, j <> id -> content c' j = content c j).
Proof.
  intros W Hoff [[Hc ->]|(Hc & Hn & Hroom & He & He' & node & d1 & d2 & H1 & H2 & H3)].
  - destruct (read_hit c id offset bs out W Hc Hoff) as (c' & E & W' & Hd & Hj).
    exists c'. rewrite Hj. by split_and!.
  - by eapply read_miss.
Qed.

(** A write to a cached file, growing it when the arena has room for that, leaves
    the patched bytes (zero-filled up to the offset) as the file's content, marks it
    dirty, records the new size in its metadata and leaves the other files alone; a
    read that follows returns the patched bytes without reaching the driver. *)
Theorem cache_write_then_read c id offset data bs f node d roff (out : list Z) :
  wf_cache c -> content c id = Some bs -> file_at c id = Some f ->
  0 <= offset -> offset + zlen data < 2 ^ 63 -> 0 <= roff ->
  (zlen bs < offset + zlen data -> can_grow c f (offset + zlen data)) ->
  has_empty (slots (file_nodes c)) -> cd_get_node id (driver c) = (Ok node, d) ->
  exists c1 c2, write_file timestamp_us id offset data c = (Ok (zlen data), c1) /\
    dirty c1 id /\ content c1 id = Some (patched bs offset data) /\
    (forall j, j <> id -> content c1 j = content c j) /\
    resized id (Z.max (zlen bs) (offset + zlen data)) (file_nodes c) (file_nodes c1) /\
    read_file_range id roff out c1 = (Ok (read_result (patched bs offset data) roff out), c2) /\
    wf_cache c2 /\ driver c2 = d /\ (forall j, content c2 j = content c1 j).
Proof.
  intros W Hc Hf Hoff Hmax Hr Hg He Hnd.
  destruct (write_cached c id offset data bs f node d W Hc Hf Hoff Hmax Hg He Hnd)
    as (c1 & E1 & W1 & Hc1 & Hd1 & Hdr & Hj1 & Hs1).
  destruct (read_hit c1 id roff _ out W1 Hc1 Hr) as (c2 & E2 & W2 & Hd2 & Hj2).
  exists c1, c2. rewrite Hd2. by split_and!.
Qed.

(** [flush_all] writes the content of every dirty file to the driver, once each,
    and leaves no dirty file; the contents do not change. *)
Theorem flush_all_saves c :
  wf_cache c -> writes_succeed ->
  exists c' ids, flush_all c = (Ok tt, c') /\ NoDup ids /\ (forall id, id ∈ ids <-> dirty c id) /\
    driver c' = saved c ids (driver c) /\ (forall id, ~ dirty c' id) /\
    wf_cache c' /\ (forall id, content c' id = content c id).
Proof.
  intros W Hd. destruct (dirty_ids_ok c W) as [Hn Hin].
  destruct (flush_nodes_ok (dirty_ids c) c W Hd Hn) as (c' & E & W' & Hdr & Hc' & Hf').
  { apply List.Forall_forall. intros id Hi. by apply Hin, list_elem_of_In. }
  exists c', (dirty_ids c). split_and!; try done. intros id. unfold dirty. rewrite Hf'.
  case_decide as Hi; [by destruct (file_at c id)|]. intros Hdi. by apply Hi, Hin.
Qed.

(** C10: evicting forgets exactly one file, one that is not to be kept and whose score
    no other candidate exceeds; if it was dirty its content has first been written to
    the driver.  It forgets nothing, and answers 0, only when no candidate has a positive score
    or the driver refused the write of the chosen dirty file.  The score is what the code
    computes: it grows with the importance of a file, and [force] makes pinned files
    candidates, against what the documentation of the file system says of both. *)
Theorem evict_saves_dirty c keep force n c' :
  wf_cache c -> file_at c INVALID_NODE_HANDLE = None -> evict_one_keep_alive keep force c = (Ok n, c') ->
  wf_cache c' /\
  ((n = 0 /\ (forall id, content c' id = content c id) /\
    ((forall k g, file_at c k = Some g -> candidate (Some keep) force (k, g) = true -> evict_score c g <= 0) \/
     exists b f e, b <> keep /\ file_at c b = Some f /\ is_dirty f = true /\
       cd_write_file b 0 (default [] (content c b)) (driver c) = (Err e, driver c'))) \/
   exists b f, b <> keep /\ file_at c b = Some f /\ n = cf_len f /\
     (forall id, content c' id = if decide (id = b) then None else content c id) /\
     (forall k g, file_at c k = Some g -> candidate (Some keep) force (k, g) = true ->
        evict_score c g <= evict_score c f) /\
     if is_dirty f
     then exists m, cd_write_file b 0 (default [] (content c b)) (driver c) = (Ok m, driver c')
     else driver c' = driver c).
Proof.
  intros W Hinv. unfold evict_one_keep_alive, sbind, get_st.
  destruct (evict_choice_cases c (Some keep) force (wfc_files c W)) as [[-> Hnone]|(f & Hf & Hcand & _ & Hmax)].
  { intros [= <- <-]. split; [done|]. left. split; [done|]. split; [done|by left]. }
  set (b := evict_choice c (Some keep) force) in *.
  assert (Hb : b <> INVALID_NODE_HANDLE) by (intros E; rewrite E in Hf; congruence).
  rewrite (evict_chosen_does c b f W Hb Hf). unfold flush_call.
  assert (Hk : b <> keep).
  { intros E. unfold candidate in Hcand. cbn in Hcand. rewrite E, bool_decide_eq_true_2 in Hcand by done.
    by rewrite orb_true_r in Hcand. }
  assert (Hcont : content c b = Some (region (arena c) (arena_offset f) (cf_len f)))
    by (unfold content; by rewrite Hf).
  destruct (is_dirty f) eqn:Hdf.
  - destruct (cd_write_file b 0 _ (driver c)) as [[m|e| |] d] eqn:Ew; intros [= <- <-].
    + split; [by apply evicted_wf|]. right. exists b, f. rewrite Hdf, Hcont. cbn [default].
      split_and!; try done; [|by exists m]. intros id. by apply evicted_content.
    + split; [by apply set_driver_wf|]. left. split; [done|]. split; [done|]. right. exists b, f, e. rewrite Hcont. by split_and!.
  - intros [= <- <-]. split; [by apply evicted_wf|]. right. exists b, f. rewrite Hdf.
    split_and!; try done. intros id. by apply evicted_content.
Qed.

(** C36: making room ends, when the file to end up last ([file_to_end]) is not cached or lies
    above the others in the arena already: it answers true only when the room is there and
    false only when it is not, the files that survive keep their contents, [file_to_end] is not
    evicted, and it panics only if a cached file is larger than the room asked for.  (A file
    grown from below the others is copied over by compaction: [grow_corrupts].) *)
Theorem ensure_space_safe c needed fte force :
  wf_cache c -> writes_return -> at_top c fte -> 0 <= needed < 2 ^ 63 ->
  exists r c', ensure_space needed fte force c = (r, c') /\ wf_cache c' /\
    max_memory c' = max_memory c /\
    (forall id, content c' id = content c id \/ content c' id = None) /\ content c' fte = content c fte /\
    match r with
    | Ok true => arena_push_offset c' + needed <= max_memory c'
    | Ok false => max_memory c' < arena_push_offset c' + needed
    | Panic => exists id bs, content c id = Some bs /\ needed < zlen bs
    | _ => False
    end.
Proof.
  intros W Hd Hf Hn. destruct (ensure_space_does c needed fte force W Hd Hf Hn)
    as (r & c' & E & ((W' & Hm & Hs) & Hr) & Hc).
  exists r, c'. by split_and!.
Qed.

(** Compaction keeps the content of every file and leaves no gap: the push offset
    is afterwards the sum of the sizes, provided the file it is told to move last lies
    above the others already (or is not cached). *)
Theorem compact_preserves c sort_last :
  wf_cache c -> at_top c sort_last ->
  exists c', compact sort_last c = (Ok tt, c') /\ wf_cache c' /\
    (forall id, content c' id = content c id) /\
    arena_push_offset c' = current_memory_used c /\ driver c' = driver c /\
    current_memory_used c' = current_memory_used c.
Proof.
  intros W Ht. destruct (compact_ok c sort_last W Ht) as (w & fs & buf & E & W' & Hc & -> & _).
  eexists. split; [exact E|]. by split_and!.
Qed.

End cache.

(** ** FileCacheDemo: small caches over a driver that keeps its files in memory

    The witnesses of FileCacheIo's theorems, and the runs in which the cache of
    kernel/src/filesystem/file_cache.rs goes wrong. *)

(** ** A driver in memory: file [id] is the [id - 1]st list of bytes. *)

Definition Ram : Type := list (list Z).

Definition ram_file (d : Ram) (id : Z) : option (list Z) := d !! Z.to_nat (id - 1).

Definition ram_read (id : Z) (buf : list Z) : stM Ram FileSystemError (Z * list Z) := fun d =>
  match ram_file d id with
  | Some bs => (Ok (Z.min (zlen buf) (zlen bs), take (length buf) bs ++ drop (length bs) buf), d)
  | None => (Err IoError, d)
  end.

Definition ram_write (id off : Z) (data : list Z) : stM Ram FileSystemError Z := fun d =>
  match ram_file d id with
  | Some bs => (Ok (zlen data), <[ Z.to_nat (id - 1) := patched bs off data ]> d)
  | None => (Err IoError, d)
  end.

Definition ram_size (id : Z) : stM Ram FileSystemError Z := fun d =>
  match ram_file d id with Some bs => (Ok (zlen bs), d) | None => (Err NotFound, d) end.

Definition ram_node (id : Z) : stM Ram FileSystemError FileNode := fun d =>
  match ram_file d id with
  | Some bs => (Ok (mkNode id [] File (zlen bs) 0 0 FILE_READ_WRITE), d)
  | None => (Err IoError, d)
  end.

#[export] Instance ram_driver : CacheFilesystemDriver Ram := {
  cd_read_file_into := ram_read;
  cd_write_file := ram_write;
  cd_file_size := ram_size;
  cd_read_dir := fun _ d => (Ok [], d);
  cd_get_node := ram_node;
}.

Definition clock (tick : Z) : Z := 1000 * tick.

(** Three files of four bytes. *)
Definition disk : Ram := [[1; 1; 1; 1]; [2; 2; 2; 2]; [3; 3; 3; 3]].

Abbreviation CM := (stM (FileCache Ram) FileSystemError).

(** Reads [n] bytes of a file from its beginning. *)
Definition cat (id n : Z) : CM (list Z) :=
  let! r := read_file_range id 0 (zeros n) in sret r.2.

(** What a run from a fresh cache returns, and the cache it leaves. *)
Definition outcome {A} (m : CM A) (max : Z) (d : Ram) : result FileSystemError A :=
  (m (new d max)).1.
Definition after {A} (m : CM A) (max : Z) (d : Ram) : FileCache Ram := (m (new d max)).2.

(** ** The runs that go wrong *)

(** Growing the file at the bottom of a full arena evicts another file, then compacts
    with the grown file moved last: the files above it are copied down over it first.
    The file reads back as another file's bytes. *)
Example grow_corrupts :
  outcome (let! _ := cat 1 4 in let! _ := cat 2 4 in let! _ := cat 3 4 in
    let! _ := write_file clock 1 4 [9; 9; 9; 9] in cat 1 8) 12 disk =
    Ok [3; 3; 3; 3; 9; 9; 9; 9].
Proof. vm_compute. reflexivity. Qed.

(** Making room for a file by evicting a larger one underflows. *)
Example room_underflow :
  outcome (let! _ := cat 1 8 in cat 2 1) 8 [[1; 1; 1; 1; 1; 1; 1; 1]; [2]] = Panic.
Proof. vm_compute. reflexivity. Qed.

(** Evicting a directory of two cached files underflows. *)
Example evict_directory_underflow :
  outcome (register_file_in_directory 7 1 ;;; register_file_in_directory 7 2 ;;;
    let! _ := cat 1 4 in let! _ := cat 2 4 in evict_directory 7) 12 disk = Panic.
Proof. vm_compute. reflexivity. Qed.

(** A pinned file is evicted before one of low importance, which was read earlier. *)
Example pinned_evicted_first :
  let c := after (let! _ := cat 1 4 in let! _ := cat 2 4 in pin_file 2 ;;; cat 3 4) 8 disk in
  is_cached c 1 = true /\ is_cached c 2 = false.
Proof. vm_compute. done. Qed.

(** A file of minimal importance is never evicted: the cache is full for good. *)
Example minimal_stays :
  outcome (register_file_in_directory 7 1 ;;; let! _ := cat 1 4 in
    reserve_cache 7 Minimal ;;; cat 2 4) 4 disk = Err CacheFull.
Proof. vm_compute. reflexivity. Qed.

(** A reservation made before the files are read does not reach them. *)
Example hint_ignored :
  let c := after (register_file_in_directory 7 1 ;;; reserve_cache 7 High ;;; cat 1 4) 8 disk in
  importance <$> file_at c 1 = Some Normal.
Proof. vm_compute. reflexivity. Qed.

(** Clearing the cache keeps the metadata of files whose changes it dropped. *)
Example clear_keeps_nodes :
  outcome (let! _ := cat 1 4 in let! _ := write_file clock 1 4 [9] in clear ;;;
    let! n := get_node_cached 1 in let! bs := cat 1 8 in sret (node_size n, bs)) 12 disk =
    Ok (5, [1; 1; 1; 1; 0; 0; 0; 0]).
Proof. vm_compute. reflexivity. Qed.

(** ** The theorems on these caches *)

Lemma fresh_empty {V} n : 0 <= n -> has_empty (slots (FxHashMap.with_capacity (Key:=Z) (V:=V) n)).
Proof.
  intros Hn. exists 0%nat. unfold FxHashMap.with_capacity. cbn [slots].
  rewrite length_replicate. unfold DEFAULT_CAPACITY. split; [lia|].
  rewrite lookup_replicate. split; [done|lia].
Qed.

Lemma demo_available : available (new disk 12) 1 [1; 1; 1; 1] disk.
Proof.
  right. split_and!; try done; try (by apply fresh_empty); try (vm_compute; done).
  by eexists _, _, _.
Qed.

(** The cache with file 1 loaded. *)
Definition loaded : FileCache Ram := (read_file_range 1 0 (zeros 4) (new disk 12)).2.

Lemma loaded_ok : wf_cache loaded /\ content loaded 1 = Some [1; 1; 1; 1] /\ forall j, j <> 1 -> file_at loaded j = None.
Proof.
  destruct demo_available as [[Hc _]|(Hc & H1 & H2 & H3 & H4 & nd & d1 & d2 & H5 & H6 & H7)].
  - vm_compute in Hc. discriminate.
  - destruct (read_miss (new disk 12) 1 0 (zeros 4) 4 [1; 1; 1; 1] nd d1 d2 disk
      (wf_new disk 12 ltac:(lia)) Hc ltac:(lia) H1 H3 H4 H2 H5 H6 eq_refl H7)
      as (c' & E & W & _ & Hc' & Hj).
    unfold loaded. rewrite E. split; [exact W|]. split; [exact Hc'|]. intros j Hne. apply file_content. cbn [snd]. by rewrite Hj.
Qed.

Lemma cache_read_witness :
  exists c', read_file_range 1 1 [0; 0] (new disk 12) = (Ok (2, [1; 1]), c') /\
    wf_cache c' /\ driver c' = disk /\ content c' 1 = Some [1; 1; 1; 1] /\
    (forall j, j <> 1 -> content c' j = content (new disk 12) j).
Proof.
  apply (cache_read (new disk 12) 1 1 [0; 0] [1; 1; 1; 1] disk).
  - by apply wf_new.
  - done.
  - apply demo_available.
Defined.

Lemma cache_write_then_read_witness :
  exists c1 c2, write_file clock 1 3 [8; 9] loaded = (Ok 2, c1) /\
    dirty c1 1 /\ content c1 1 = Some [1; 1; 1; 8; 9] /\
    (forall j, j <> 1 -> content c1 j = content loaded j) /\
    resized 1 5 (file_nodes loaded) (file_nodes c1) /\
    read_file_range 1 2 [0; 0; 0; 0] c1 = (Ok (3, [1; 8; 9; 0]), c2) /\
    wf_cache c2 /\ driver c2 = disk /\ (forall j, content c2 j = content c1 j).
Proof.
  refine (cache_write_then_read clock loaded 1 3 [8; 9] [1; 1; 1; 1] (new_cached 0 4 1 Normal)
    (mkNode 1 [] File 4 0 0 FILE_READ_WRITE) disk 2 [0; 0; 0; 0] _ _ _ _ _ _ _ _ _).
  - apply loaded_ok.
  - apply loaded_ok.
  - vm_compute. reflexivity.
  - lia.
  - simpl. lia.
  - lia.
  - intros _. left. vm_compute. split; [reflexivity|discriminate].
  - exists 0%nat. vm_compute. split; [lia|reflexivity].
  - vm_compute. reflexivity.
Defined.

(** A driver that logs the writes it is given. *)
Definition Log : Type := list (Z * list Z).

#[export] Instance log_driver : CacheFilesystemDriver Log := {
  cd_read_file_into := fun _ buf d => (Ok (zlen buf, buf), d);
  cd_write_file := fun id _ data d => (Ok (zlen data), d ++ [(id, data)]);
  cd_file_size := fun _ d => (Ok 2, d);
  cd_read_dir := fun _ d => (Ok [], d);
  cd_get_node := fun id d => (Ok (mkNode id [] File 2 0 0 FILE_READ_WRITE), d);
}.

Definition log_loaded : FileCache Log := (read_file_range 1 0 (zeros 2) (new [] 12)).2.

Lemma log_loaded_ok : wf_cache log_loaded /\ content log_loaded 1 = Some [0; 0].
Proof.
  destruct (read_miss (D:=Log) (new [] 12) 1 0 (zeros 2) 2 [0; 0]
    (mkNode 1 [] File 2 0 0 FILE_READ_WRITE) [] [] []
    (wf_new [] 12 ltac:(lia)) eq_refl ltac:(lia) ltac:(lia) (fresh_empty 1024 ltac:(lia))
    (fresh_empty 1024 ltac:(lia)) ltac:(vm_compute; discriminate) eq_refl eq_refl eq_refl eq_refl)
    as (c' & E & W & _ & Hc' & _).
  assert (E2 : log_loaded = c') by exact (f_equal snd E). rewrite E2. exact (conj W Hc').
Qed.

Definition log_dirty : FileCache Log := (write_file clock 1 1 [7] log_loaded).2.

Lemma log_dirty_ok : wf_cache log_dirty.
Proof.
  destruct (write_cached clock log_loaded 1 1 [7] [0; 0] (new_cached 0 2 1 Normal)
    (mkNode 1 [] File 2 0 0 FILE_READ_WRITE) [])
    as (c' & E & W & _).
  - apply log_loaded_ok.
  - apply log_loaded_ok.
  - vm_compute. reflexivity.
  - lia.
  - simpl. lia.
  - simpl. lia.
  - exists 0%nat. vm_compute. split; [lia|reflexivity].
  - reflexivity.
  - assert (E2 : log_dirty = c') by exact (f_equal snd E). rewrite E2. exact W.
Qed.

Lemma flush_all_saves_witness :
  dirty log_dirty 1 /\ saved log_dirty [1] [] = [(1, [0; 7])] /\
  exists c' ids, flush_all log_dirty = (Ok tt, c') /\ NoDup ids /\
    (forall id, id ∈ ids <-> dirty log_dirty id) /\
    driver c' = saved log_dirty ids (driver log_dirty) /\ (forall id, ~ dirty c' id) /\
    wf_cache c' /\ (forall id, content c' id = content log_dirty id).
Proof.
  split; [vm_compute; reflexivity|]. split; [vm_compute; reflexivity|].
  apply (flush_all_saves log_dirty).
  - apply log_dirty_ok.
  - intros id off bytes d. eexists _, _. reflexivity.
Defined.

Lemma evict_saves_dirty_witness :
  let c' := (evict_one_keep_alive 0 true log_dirty).2 in
  wf_cache c' /\ exists b f, b <> 0 /\ file_at log_dirty b = Some f /\ 2 = cf_len f /\
     (forall id, content c' id = if decide (id = b) then None else content log_dirty id) /\
     (forall k g, file_at log_dirty k = Some g -> candidate (Some 0) true (k, g) = true ->
        evict_score log_dirty g <= evict_score log_dirty f) /\
     if is_dirty f
     then exists m, cd_write_file b 0 (default [] (content log_dirty b)) (driver log_dirty) =
       (Ok m, driver c')
     else driver c' = driver log_dirty.
Proof.
  destruct (evict_saves_dirty log_dirty 0 true 2 (evict_one_keep_alive 0 true log_dirty).2) as [W [[H0 _]|H]].
  - apply log_dirty_ok.
  - vm_compute. reflexivity.
  - vm_compute. reflexivity.
  - discriminate H0.
  - split; [exact W|exact H].
Defined.

Lemma ensure_space_safe_witness :
  exists r c', ensure_space 10 1 true loaded = (r, c') /\ wf_cache c' /\ content c' 1 = Some [1; 1; 1; 1].
Proof.
  destruct (ensure_space_safe loaded 10 1 true) as (r & c' & E & W & _ & _ & Hc & _).
  - apply loaded_ok.
  - intros id off bytes d. cbn. unfold ram_write. destruct (ram_file d id); by eexists _, _.
  - intros i f g Hi Hf. rewrite (proj2 (proj2 loaded_ok) i Hi) in Hf. discriminate Hf.
  - lia.
  - exists r, c'. split; [exact E|]. split; [exact W|]. rewrite Hc. apply loaded_ok.
Defined.

Lemma compact_preserves_witness :
  exists c', compact 0 loaded = (Ok tt, c') /\ wf_cache c' /\
    (forall id, content c' id = content loaded id) /\
    arena_push_offset c' = current_memory_used loaded /\ driver c' = driver loaded /\
    current_memory_used c' = current_memory_used loaded.
Proof.
  apply (compact_preserves loaded 0).
  - apply loaded_ok.
  - apply at_top_uncached. vm_compute. reflexivity.
Defined.
