(* ===== verification/Sirius.v ===== *)
(** * Sirius: the path-level file system of kernel/src/filesystem/sirius.rs

    [Sirius] works over any [FilesystemDriver]; its one field is the driver, so its
    state is the driver's.  [CachedDriver] makes a driver out of the file cache over
    another driver, through the adapter; [init_filesystem] puts Sirius over the cache
    over the FAT32 driver over the disk in memory. *)

From Stdlib Require Import ZArith Lia.
From stdpp Require Import base tactics list option numbers fin_maps gmap.
From S2P Require Import Prelude FxHashMap Disk Fat32 FileCache FileCacheOk FileCacheIo FsTypes.

Open Scope rust_scope.

Definition SLASH : Z := 47.

Definition FILE_READ_WRITE_EXECUTE : Z := Z.lor FILE_READ_WRITE 4.

(** ** The adapter below the cache *)

Record FsDriverAdapter (D : Type) : Type := mkAdapter { adapted : D }.
Arguments mkAdapter {D}.
Arguments adapted {D}.

Section adapter.
Context {D : Type} `{FilesystemDriver D}.

(** A call of the inner driver, its error replaced ([map_err]). *)
Definition inner {A} (e : FileSystemError -> FileSystemError) (call : stM D FileSystemError A)
    : stM (FsDriverAdapter D) FileSystemError A := fun a =>
  match call (adapted a) with
  | (Ok x, d) => (Ok x, mkAdapter d)
  | (Err x, d) => (Err (e x), mkAdapter d)
  | (Panic, d) => (Panic, mkAdapter d)
  | (OutOfFuel, d) => (OutOfFuel, mkAdapter d)
  end.

#[export] Instance adapter_driver : CacheFilesystemDriver (FsDriverAdapter D) := {
  cd_read_file_into := fun node_id out => inner (fun _ => IoError) (read_file node_id 0 out);
  cd_write_file := fun node_id offset data =>
    inner (fun _ => IoError) (FsTypes.write_file node_id offset data);
  cd_file_size := fun node_id =>
    let! n := inner (fun _ => NotFound) (get_node node_id) in sret (node_size n);
  cd_read_dir := fun node_id =>
    let! nodes := inner (fun _ => IoError) (list_directory node_id) in sret (node_name <$> nodes);
  cd_get_node := fun node_id => inner (fun _ => IoError) (get_node node_id);
}.

End adapter.

(** ** The cached driver *)

Abbreviation CachedDriver D := (FileCache (FsDriverAdapter D)).

Section cached.
Context {D : Type} `{FilesystemDriver D}.
Variable timestamp_us : Z -> Z.

Abbreviation CM := (stM (CachedDriver D) FileSystemError).

Definition cached_new (d : D) (cache_size : Z) : CachedDriver D :=
  FileCache.new (mkAdapter d) cache_size.

(** [self.cache.driver.0.call(..)] *)
Definition below {A} (call : stM D FileSystemError A) : CM A := on_driver (inner id call).

Definition pin_path (path : str) : CM unit :=
  let! node_id := below (find_node path) in pin_file node_id.

Definition unpin_path (path : str) : CM unit :=
  let! node_id := below (find_node path) in unpin_file node_id.

Definition reserve_path (path : str) (i : CacheImportance) : CM unit :=
  let! node_id := below (find_node path) in reserve_cache node_id i.

Definition evict_path (path : str) : CM Z :=
  let! node_id := below (find_node path) in evict_directory node_id.

Definition cached_delete (node_id : Z) : CM unit :=
  invalidate node_id ;;; below (FsTypes.delete node_id).

#[export] Instance cached_driver : FilesystemDriver (CachedDriver D) := {|
  FsTypes.read_file := read_file_range;
  FsTypes.write_file := FileCache.write_file timestamp_us;
  FsTypes.find_node := fun path => below (find_node path);
  FsTypes.get_node := get_node_cached;
  FsTypes.list_directory := fun node_id => below (list_directory node_id);
  FsTypes.create_file := fun parent_id name => below (create_file parent_id name);
  FsTypes.create_directory := fun parent_id name => below (create_directory parent_id name);
  FsTypes.delete := cached_delete;
  FsTypes.root_node := fun c => root_node (adapted (driver c));
|}.

End cached.

(** ** Sirius *)

Section sirius.
Context {D : Type} `{FilesystemDriver D}.

Abbreviation SM := (stM D FileSystemError).

Definition resolve_path (path : str) : SM FileNode :=
  let! node_id := find_node path in get_node node_id.

Definition open_file (path : str) : SM FileNode :=
  let! node := resolve_path path in
  if bool_decide (file_type node = File) then sret node else serr IsDirectory.

Definition sirius_list_directory (path : str) : SM (list FileNode) :=
  let! node := resolve_path path in
  if bool_decide (file_type node = Directory) then list_directory (node_id node)
  else serr NotDirectory.

Definition sirius_read_file (path : str) (offset : Z) (buffer : list Z) : SM (Z * list Z) :=
  let! node := resolve_path path in
  if bool_decide (file_type node = File) then read_file (node_id node) offset buffer
  else serr IsDirectory.

Definition sirius_write_file (path : str) (offset : Z) (data : list Z) : SM Z :=
  let! node := resolve_path path in
  if bool_decide (file_type node = File) then FsTypes.write_file (node_id node) offset data
  else serr IsDirectory.

(** The parent's path and the last component. *)
Definition split_path (path : str) : result FileSystemError (str * str) :=
  if bool_decide (path = []) || bool_decide (path = [SLASH]) then Err InvalidPath else
  let trimmed := match path with c :: rest => if c =? SLASH then rest else path | [] => path end in
  match rsplit SLASH trimmed with
  | Some (before, name) => Ok (match before with [] => [SLASH] | _ => before end, name)
  | None => Ok ([SLASH], trimmed)
  end.

(** [create_file] and [create_directory], given the driver's operation. *)
Definition sirius_create_in (create : Z -> str -> SM Z) (path : str) : SM FileNode :=
  let! (parent_path, name) := slift (split_path path) in
  let! parent := resolve_path parent_path in
  if bool_decide (file_type parent = Directory) then
    let! node := create (node_id parent) name in get_node node
  else serr NotDirectory.

Definition sirius_create_file : str -> SM FileNode := sirius_create_in create_file.

Definition sirius_create_directory : str -> SM FileNode := sirius_create_in create_directory.

Definition sirius_delete (path : str) : SM unit :=
  let! node := resolve_path path in FsTypes.delete (node_id node).

End sirius.

(** ** Mounting an image held in memory *)

(** The driver of the image's boot sector, and the disk that holds the image; [None]
    when the disk or its image does not fit. [Panic] is the slice of a short image. *)
Definition init_filesystem (fat32_image : list Z)
    : result FileSystemError (option (Fat32Driver * MockDiskDevice.MockDiskDevice)) :=
  match MockDiskDevice.new (zlen fat32_image / 512 + 1) with
  | None => Panic
  | Some disk =>
      match MockDiskDevice.load_image fat32_image disk with
      | (Ok _, disk) =>
          if zlen fat32_image <? 512 then Panic else
          match Fat32.new (take 512 fat32_image) with
          | Ok drv => Ok (Some (drv, disk))
          | Err _ => Ok None
          | Panic => Panic
          | OutOfFuel => OutOfFuel
          end
      | (Err _, _) => Ok None
      | (Panic, _) => Panic
      | (OutOfFuel, _) => OutOfFuel
      end
  end.

(** ** Paths *)

Lemma split_app sep a b : split sep (a ++ sep :: b) = split sep a ++ split sep b.
Proof.
  induction a as [|c a IH]; simpl.
  - by rewrite Z.eqb_refl.
  - destruct (c =? sep); [by rewrite IH|]. rewrite IH.
    destruct (split sep a) as [|p ps] eqn:E; [|done].
    exfalso. clear -E. destruct a as [|x a]; simpl in E; [done|].
    destruct (x =? sep); [done|]. by destruct (split sep a).
Qed.

Lemma split_name sep a : (sep ∉ a) -> split sep a = [a].
Proof.
  induction a as [|c a IH]; simpl; [done|]. intros [Hc Ha]%not_elem_of_cons.
  rewrite (proj2 (Z.eqb_neq c sep)) by done. by rewrite IH.
Qed.

Lemma non_empty_app ps qs : non_empty (ps ++ qs) = non_empty ps ++ non_empty qs.
Proof. apply List.filter_app. Qed.

(** [split_path] fails exactly on the empty path and the root; otherwise the last
    component has no slash and the components of the parent followed by it are the
    components of the path. *)
Theorem split_path_components (path : str) :
  match split_path path with
  | Ok (parent, name) => (SLASH ∉ name) /\ parent <> [] /\
      non_empty (split SLASH parent) ++ non_empty [name] = non_empty (split SLASH path)
  | Err e => e = InvalidPath /\ (path = [] \/ path = [SLASH])
  | _ => False
  end.
Proof.
  unfold split_path. case_bool_decide as H1; [by split; [|left]|].
  case_bool_decide as H2; [by split; [|right]|]. simpl.
  set (trimmed := match path with c :: rest => _ | [] => _ end).
  assert (Ht : non_empty (split SLASH trimmed) = non_empty (split SLASH path)).
  { subst trimmed. destruct path as [|c rest]; [done|]. destruct (Z.eqb_spec c SLASH); [|done].
    subst. cbn [split]. by rewrite Z.eqb_refl. }
  destruct (rsplit SLASH trimmed) as [[before name]|] eqn:E.
  - pose proof (rsplit_last _ _ _ _ E) as Hn. apply rsplit_some in E.
    split; [done|]. split; [by destruct before|]. rewrite <- Ht, E, split_app, non_empty_app.
    rewrite (split_name SLASH name) by done. by destruct before.
  - apply rsplit_none in E. split; [done|]. split; [done|].
    by rewrite <- Ht, (split_name SLASH trimmed).
Qed.

(** ** A path over the cache *)

Section cached_paths.
Context {D : Type} `{FilesystemDriver D}.
Variable timestamp_us : Z -> Z.

#[local] Existing Instance adapter_driver.

Abbreviation driver_of := (cached_driver timestamp_us).

Lemma below_ok {A} (call : stM D FileSystemError A) a d (c : CachedDriver D) :
  call (adapted (driver c)) = (Ok a, d) -> below call c = (Ok a, set_driver (mkAdapter d) c).
Proof. intros E. unfold below, on_driver, inner. by rewrite E. Qed.

Lemma same_adapter (c : CachedDriver D) : set_driver (mkAdapter (adapted (driver c))) c = c.
Proof. destruct c as [[]]. done. Qed.

(** A path whose node is cached resolves without changing the cache. *)
Lemma resolve_cached (c : CachedDriver D) path id n :
  wf_cache c -> find_node path (adapted (driver c)) = (Ok id, adapted (driver c)) ->
  to_map (file_nodes c) !! id = Some n ->
  resolve_path (H:=driver_of) path c = (Ok n, c).
Proof.
  intros W Hf Hn. unfold resolve_path. cbn [FsTypes.find_node FsTypes.get_node cached_driver].
  rewrite (sbind_ok _ _ _ _ _ (below_ok _ _ _ _ Hf)), same_adapter.
  unfold get_node_cached, sbind, get_st. rewrite mget_map by apply W. by rewrite Hn.
Qed.

(** Writing a cached file by its path and reading it back by its path returns the
    patched bytes, and neither reaches the disk below: the driver under the cache is
    left in the state it was in. *)
Theorem sirius_write_then_read (c : CachedDriver D) path id bs f n nd offset data roff out :
  let d := adapted (driver c) in
  wf_cache c -> find_node path d = (Ok id, d) -> get_node id d = (Ok nd, d) ->
  to_map (file_nodes c) !! id = Some n -> node_id n = id -> file_type n = File ->
  content c id = Some bs -> file_at c id = Some f ->
  0 <= offset -> offset + zlen data < 2 ^ 63 -> 0 <= roff ->
  (zlen bs < offset + zlen data -> can_grow c f (offset + zlen data)) ->
  has_empty (slots (file_nodes c)) ->
  exists c1 c2,
    sirius_write_file (H:=driver_of) path offset data c = (Ok (zlen data), c1) /\
    sirius_read_file (H:=driver_of) path roff out c1 =
      (Ok (read_result (patched bs offset data) roff out), c2) /\
    wf_cache c2 /\ content c2 id = Some (patched bs offset data) /\
    adapted (driver c2) = d /\ (forall j, j <> id -> content c2 j = content c j).
Proof.
  intros d W Hfind Hget Hn Hid Hty Hc Hf Hoff Hmax Hr Hg He.
  assert (Hnode : cd_get_node id (driver c) = (Ok nd, driver c)).
  { cbn. unfold inner. fold d. rewrite Hget. subst d. by destruct (driver c). }
  destruct (write_cached timestamp_us c id offset data bs f nd (driver c) W Hc Hf Hoff Hmax Hg He Hnode)
    as (c1 & E1 & W1 & Hc1 & _ & Hd1 & Hj1 & Hs1).
  destruct (Hs1 n Hn) as (n1 & Hn1 & _ & Hid1 & Hty1).
  destruct (read_hit c1 id roff _ out W1 Hc1 Hr) as (c2 & E2 & W2 & Hd2 & Hj2).
  exists c1, c2. split; [|split; [|split; [done|split; [|split]]]].
  - unfold sirius_write_file. rewrite (sbind_ok _ _ _ _ _ (resolve_cached c path id n W Hfind Hn)).
    rewrite bool_decide_eq_true_2, Hid by done. exact E1.
  - unfold sirius_read_file. rewrite (sbind_ok _ _ _ _ _ (resolve_cached c1 path id n1 W1
      ltac:(rewrite Hd1; exact Hfind) Hn1)).
    rewrite bool_decide_eq_true_2 by congruence. rewrite Hid1, Hid. exact E2.
  - by rewrite Hj2.
  - by rewrite Hd2, Hd1.
  - intros j Hne. by rewrite Hj2, Hj1.
Qed.

End cached_paths.
