(* ===== verification/SiriusDemo.v ===== *)
(** * SiriusDemo: the whole stack on the small volume

    Sirius over the cache over the FAT32 driver over the disk in memory, run on the
    volume of FatDemo.v. *)

From Stdlib Require Import ZArith Lia.
From stdpp Require Import base tactics list option numbers fin_maps gmap.
From S2P Require Import Prelude FxHashMap Disk Fat32 FatTable FatDemo FileCache FileCacheOk FileCacheIo FsTypes Sirius.

Open Scope rust_scope.

#[local] Existing Instance adapter_driver.

#[local] Instance demo_fs : FilesystemDriver MockDiskDevice.MockDiskDevice := fat32_filesystem demo_drv.

#[local] Instance demo_cached : FilesystemDriver (CachedDriver MockDiskDevice.MockDiskDevice) :=
  cached_driver clock.

(** "/A.TXT" and "/NOTE.TXT" *)
Definition a_txt : str := [47; 0x41; 0x2E; 0x54; 0x58; 0x54].
Definition note_txt : str := [47; 0x4E; 0x4F; 0x54; 0x45; 0x2E; 0x54; 0x58; 0x54].

Definition mounted : CachedDriver MockDiskDevice.MockDiskDevice := cached_new demo_disk 2048.

(** A new file written through the cache reads back at once, is on the disk after a
    flush, and a fresh mount of that disk reads it. *)
Definition session : stM (CachedDriver MockDiskDevice.MockDiskDevice) FileSystemError (list Z) :=
  let! _ := sirius_create_file note_txt in
  let! _ := sirius_write_file note_txt 0 (replicate 700 5) in
  let! r := sirius_read_file note_txt 600 (zeros 200) in
  flush_all ;;; sret r.2.

Example mount_demo : init_filesystem demo_volume =
  Ok (Some (demo_drv, MockDiskDevice.mkMock 4608 (demo_volume ++ zeros 512))).
Proof. vm_compute. reflexivity. Qed.

Example session_reads : (session mounted).1 = Ok (replicate 100 5 ++ zeros 100).
Proof. vm_compute. reflexivity. Qed.

Example session_persists :
  let remounted := cached_new (adapted (driver (session mounted).2)) 2048 in
  (sirius_read_file note_txt 690 (zeros 20) remounted).1 = Ok (10, replicate 10 5 ++ zeros 10).
Proof. vm_compute. reflexivity. Qed.

(** ** The witness of [sirius_write_then_read]: A.TXT, loaded and then grown. *)

Definition a_id : Z := match (find_node a_txt demo_disk).1 with Ok id => id | _ => 0 end.

Definition a_bytes : list Z := replicate 512 1 ++ replicate 88 2.

Definition a_cached : CachedDriver MockDiskDevice.MockDiskDevice :=
  (read_file_range a_id 0 (zeros 600) mounted).2.

Definition a_node : FileNode :=
  match (get_node a_id demo_disk).1 with Ok n => n | _ => mkNode 0 [] File 0 0 0 0 end.

Lemma a_cached_ok : wf_cache a_cached /\ content a_cached a_id = Some a_bytes.
Proof.
  assert (W : wf_cache mounted) by (by apply wf_new).
  destruct (read_miss mounted a_id 0 (zeros 600) 600 a_bytes a_node (mkAdapter demo_disk)
    (mkAdapter demo_disk) (mkAdapter demo_disk) W) as (c' & E & W' & _ & Hc & _).
  - vm_compute. reflexivity.
  - lia.
  - lia.
  - exact (fresh_empty 1024 ltac:(lia)).
  - exact (fresh_empty 1024 ltac:(lia)).
  - vm_compute. discriminate.
  - vm_compute. reflexivity.
  - vm_compute. reflexivity.
  - vm_compute. reflexivity.
  - vm_compute. reflexivity.
  - assert (E2 : a_cached = c') by exact (f_equal snd E). rewrite E2. exact (conj W' Hc).
Qed.

Lemma sirius_write_then_read_witness :
  exists c1 c2,
    sirius_write_file a_txt 599 [7; 8] a_cached = (Ok 2, c1) /\
    sirius_read_file a_txt 598 [0; 0; 0; 0] c1 =
      (Ok (read_result (patched a_bytes 599 [7; 8]) 598 [0; 0; 0; 0]), c2) /\
    wf_cache c2 /\ content c2 a_id = Some (patched a_bytes 599 [7; 8]) /\
    adapted (driver c2) = adapted (driver a_cached) /\
    (forall j, j <> a_id -> content c2 j = content a_cached j).
Proof.
  refine (sirius_write_then_read clock a_cached a_txt a_id a_bytes (new_cached 0 600 1 Normal)
    a_node a_node 599 [7; 8] 598 [0; 0; 0; 0] _ _ _ _ _ _ _ _ _ _ _ _ _).
  - apply a_cached_ok.
  - vm_compute. reflexivity.
  - vm_compute. reflexivity.
  - vm_compute. reflexivity.
  - vm_compute. reflexivity.
  - vm_compute. reflexivity.
  - apply a_cached_ok.
  - vm_compute. reflexivity.
  - lia.
  - simpl. lia.
  - lia.
  - intros _. left. vm_compute. split; [reflexivity|discriminate].
  - exists 0%nat. split; [|vm_compute; reflexivity]. apply Nat.ltb_lt. vm_compute. reflexivity.
Defined.
