(* ===== verification/FrameAlloc.v ===== *)
(** * FrameAlloc: the physical frame allocator of kernel/src/memory/memory.rs

    A bump allocator over the usable regions of the boot memory map with a free list in
    front of it.  A frame is its start address.  The entry type and the constant
    [MEMMAP_USABLE] come from the limine crate; the constant is a parameter.
    [all_frames] is the sequence of frames the bump pointer walks through. *)

From Stdlib Require Import ZArith Lia Sorted.
From stdpp Require Import base tactics list option numbers relations.
From S2P Require Import Prelude.

Open Scope rust_scope.

Definition PAGE_SIZE : Z := 4096.

(** [limine::memmap::Entry] *)
Record Entry : Type := mkEntry {
  base : Z;
  length_ : Z;
  type_ : Z;
}.

Record MemoryMapFrameAllocator : Type := mkAllocator {
  memory_map : list Entry;
  curr_region_index : nat;
  frame_offset_in_region : Z;
  free_list : list Z;
}.

(** [(x + align - 1) & !(align - 1)] and [x & !(align - 1)]. *)
Definition align_up {E} (x align : Z) : result E Z :=
  let? s := uadd x align in let? t := usub s 1 in Ok (Z.land t (Z.lnot (align - 1))).

Definition align_down (x align : Z) : Z := Z.land x (Z.lnot (align - 1)).

Section allocator.
Variable MEMMAP_USABLE : Z.

Abbreviation M := (stM MemoryMapFrameAllocator Empty_set).

Definition is_usable (e : Entry) : bool := type_ e =? MEMMAP_USABLE.

Definition init (map : list Entry) : MemoryMapFrameAllocator := mkAllocator map 0 0 [].

Definition deallocate_frame (frame : Z) : M unit :=
  sassert (frame mod PAGE_SIZE =? 0) ;;;
  fun a => (Ok tt, mkAllocator (memory_map a) (curr_region_index a) (frame_offset_in_region a)
    (free_list a ++ [frame])).

(** The [loop] of [allocate_frame]: a turn returns or moves to the next region. *)
Fixpoint bump_loop (fuel : nat) : M (option Z) :=
  match fuel with
  | O => sfuel
  | S fuel => fun a =>
      match memory_map a !! curr_region_index a with
      | None => (Ok None, a)
      | Some region =>
          let next := mkAllocator (memory_map a) (S (curr_region_index a)) 0 (free_list a) in
          if negb (is_usable region) then bump_loop fuel next else
          (let! start := slift (align_up (base region) PAGE_SIZE) in
           let! e := slift (uadd (base region) (length_ region)) in
           let! addr := slift (uadd start (frame_offset_in_region a)) in
           let! top := slift (uadd addr PAGE_SIZE) in
           if top <=? e then fun _ => (Ok (Some addr),
             mkAllocator (memory_map a) (curr_region_index a)
               (frame_offset_in_region a + PAGE_SIZE) (free_list a))
           else fun _ => bump_loop fuel next) a
      end
  end.

(** [Vec::pop] takes the last element. *)
Definition allocate_frame : M (option Z) := fun a =>
  match list.last (free_list a) with
  | Some frame =>
      (Ok (Some frame), mkAllocator (memory_map a) (curr_region_index a)
        (frame_offset_in_region a) (take (length (free_list a) - 1) (free_list a)))
  | None => bump_loop (S (length (memory_map a) - curr_region_index a)) a
  end.

(** [sort_unstable] and the scan of adjacent pairs. *)
Fixpoint insert_frame (x : Z) (l : list Z) : list Z :=
  match l with
  | [] => [x]
  | y :: l => if x <=? y then x :: y :: l else y :: insert_frame x l
  end.

Definition sort_unstable (l : list Z) : list Z := foldr insert_frame [] l.

Fixpoint adjacent_equal (l : list Z) : bool :=
  match l with
  | x :: ((y :: _) as l) => (x =? y) || adjacent_equal l
  | _ => false
  end.

Definition free_list_has_duplicates (a : MemoryMapFrameAllocator) : bool :=
  adjacent_equal (sort_unstable (free_list a)).

Definition free_frame_count (a : MemoryMapFrameAllocator) : Z := zlen (free_list a).

(** The frames a finished region contributes to the count. *)
Definition region_count (region : Entry) : result Empty_set Z :=
  if is_usable region then
    let? start := align_up (base region) PAGE_SIZE in
    let? e := uadd (base region) (length_ region) in
    Ok (if start <? e then (e - start) / PAGE_SIZE else 0)
  else Ok 0.

Fixpoint count_regions (regions : list Entry) : result Empty_set Z :=
  match regions with
  | [] => Ok 0
  | r :: regions => let? n := region_count r in let? m := count_regions regions in Ok (n + m)
  end.

Definition allocated_bump_frames (a : MemoryMapFrameAllocator) : result Empty_set Z :=
  let? finished := count_regions (take (curr_region_index a) (memory_map a)) in
  let current := match memory_map a !! curr_region_index a with
    | Some r => if is_usable r then frame_offset_in_region a / PAGE_SIZE else 0
    | None => 0
    end in
  let count := finished + current in
  Ok (if zlen (free_list a) <=? count then count - zlen (free_list a) else 0).

(** ** The frames of a memory map *)

Definition page_up (x : Z) : Z := (x + PAGE_SIZE - 1) / PAGE_SIZE * PAGE_SIZE.

Definition frame_count (r : Entry) : nat :=
  if is_usable r then Z.to_nat ((base r + length_ r - page_up (base r)) / PAGE_SIZE) else 0.

Definition frames_of (r : Entry) : list Z :=
  (fun k => page_up (base r) + Z.of_nat k * PAGE_SIZE) <$> seq 0 (frame_count r).

Definition all_frames (map : list Entry) : list Z := mjoin (frames_of <$> map).

(** Addresses stay below 2^64 and the usable regions are disjoint. *)
Record sane (map : list Entry) : Prop := {
  sane_bounds : Forall (fun r => 0 <= base r /\ 0 <= length_ r /\
    base r + length_ r + 2 * PAGE_SIZE < 2 ^ 64) map;
  sane_disjoint : forall i j r s, i <> j -> map !! i = Some r -> map !! j = Some s ->
    is_usable r = true -> is_usable s = true ->
    base r + length_ r <= base s \/ base s + length_ s <= base r;
}.

(** [n] frames have been taken by the bump pointer. *)
Definition bumped (a : MemoryMapFrameAllocator) (n : nat) : Prop :=
  exists k, frame_offset_in_region a = Z.of_nat k * PAGE_SIZE /\
    (k <= match memory_map a !! curr_region_index a with Some r => frame_count r | None => 0 end)%nat /\
    n = (length (all_frames (take (curr_region_index a) (memory_map a))) + k)%nat.

(** The frames taken and not given back are [held]: together with the free list they are
    the first [n] frames of the map. *)
Definition holds (a : MemoryMapFrameAllocator) (held : list Z) : Prop :=
  exists n, bumped a n /\ free_list a ++ held ≡ₚ take n (all_frames (memory_map a)).

(** ** Arithmetic of pages *)

Lemma align_up_page {E} x : 0 <= x -> x + PAGE_SIZE < 2 ^ 64 ->
  align_up (E:=E) x PAGE_SIZE = Ok (page_up x).
Proof.
  unfold PAGE_SIZE. intros. unfold align_up, uadd. rewrite (proj2 (Z.ltb_lt _ _)) by lia. cbn [rbind].
  unfold usub. rewrite (proj2 (Z.leb_le _ _)) by lia. cbn [rbind]. f_equal.
  change (4096 - 1) with (Z.ones 12). rewrite <- Z.ldiff_land, Z.ldiff_ones_r by lia.
  rewrite Z.shiftr_div_pow2, Z.shiftl_mul_pow2 by lia. done.
Qed.

Lemma page_up_bounds x : x <= page_up x < x + PAGE_SIZE /\ page_up x mod PAGE_SIZE = 0.
Proof.
  unfold page_up, PAGE_SIZE. pose proof (Z.div_mod (x + 4096 - 1) 4096).
  pose proof (Z.mod_pos_bound (x + 4096 - 1) 4096). split; [lia|]. apply Z.mod_mul. lia.
Qed.

Lemma frame_fits r k : is_usable r = true ->
  (k < frame_count r)%nat <->
  page_up (base r) + Z.of_nat k * PAGE_SIZE + PAGE_SIZE <= base r + length_ r.
Proof.
  intros Hu. unfold frame_count. rewrite Hu. unfold PAGE_SIZE.
  set (d := base r + length_ r - page_up (base r)).
  pose proof (Z.div_mod d 4096). pose proof (Z.mod_pos_bound d 4096). lia.
Qed.

Lemma lookup_frames_of r k :
  (k < frame_count r)%nat -> frames_of r !! k = Some (page_up (base r) + Z.of_nat k * PAGE_SIZE).
Proof.
  intros Hk. unfold frames_of. rewrite list_lookup_fmap, lookup_seq_lt by done. done.
Qed.

Lemma length_frames_of r : length (frames_of r) = frame_count r.
Proof. unfold frames_of. by rewrite length_fmap, length_seq. Qed.

Lemma elem_of_frames_of r f :
  f ∈ frames_of r -> is_usable r = true /\ f mod PAGE_SIZE = 0 /\
    base r <= f /\ f + PAGE_SIZE <= base r + length_ r.
Proof.
  unfold frames_of. rewrite list_elem_of_fmap. intros (k & -> & Hk%elem_of_seq).
  assert (Hu : is_usable r = true) by (unfold frame_count in Hk; destruct (is_usable r); [done|lia]).
  pose proof (page_up_bounds (base r)) as [? Hm]. split; [done|]. split.
  - by rewrite Z.mod_add.
  - pose proof (proj1 (frame_fits r k Hu)). unfold PAGE_SIZE in *. lia.
Qed.

Lemma all_frames_app m1 m2 : all_frames (m1 ++ m2) = all_frames m1 ++ all_frames m2.
Proof. unfold all_frames. by rewrite fmap_app, join_app. Qed.

Lemma all_frames_cons r m : all_frames (r :: m) = frames_of r ++ all_frames m.
Proof. done. Qed.

Lemma all_frames_split map i r :
  map !! i = Some r ->
  all_frames map = all_frames (take i map) ++ frames_of r ++ all_frames (drop (S i) map).
Proof.
  intros Hr. rewrite <- (take_drop_middle map i r Hr) at 1.
  by rewrite all_frames_app, all_frames_cons.
Qed.

Lemma all_frames_take_S map i r :
  map !! i = Some r -> all_frames (take (S i) map) = all_frames (take i map) ++ frames_of r.
Proof.
  intros Hr. rewrite (take_S_r map i r Hr), all_frames_app. f_equal. apply app_nil_r.
Qed.

Lemma elem_of_all_frames map f :
  f ∈ all_frames map <-> exists i r, map !! i = Some r /\ f ∈ frames_of r.
Proof.
  unfold all_frames. rewrite list_elem_of_join. split.
  - intros (l & Hf & Hl). apply list_elem_of_fmap in Hl as (r & -> & Hr).
    apply list_elem_of_lookup in Hr as [i Hi]. by exists i, r.
  - intros (i & r & Hi & Hf). exists (frames_of r). split; [done|].
    apply list_elem_of_fmap. exists r. split; [done|]. by eapply list_elem_of_lookup_2.
Qed.

Lemma NoDup_frames_of r : NoDup (frames_of r).
Proof.
  unfold frames_of. apply NoDup_fmap_2; [|apply NoDup_seq].
  intros i j. unfold PAGE_SIZE. lia.
Qed.

Lemma sane_tail r map : sane (r :: map) -> sane map.
Proof.
  intros [Hb Hd]. constructor; [by apply Forall_cons_1 in Hb as [_ Hb]|].
  intros i j x y Hij. apply (Hd (S i) (S j) x y). congruence.
Qed.

Lemma NoDup_all_frames map : sane map -> NoDup (all_frames map).
Proof.
  induction map as [|r map IH]; intros Hs; [constructor|]. rewrite all_frames_cons.
  apply list.NoDup_app. split; [apply NoDup_frames_of|]. split; [|by eapply IH, sane_tail].
  intros f Hf Hin. apply elem_of_all_frames in Hin as (j & s & Hj & Hfs).
  apply elem_of_frames_of in Hf as (Hu & _ & ? & ?). apply elem_of_frames_of in Hfs as (Hu' & _ & ? & ?).
  pose proof (sane_disjoint _ Hs 0%nat (S j) r s ltac:(done) eq_refl Hj Hu Hu').
  unfold PAGE_SIZE in *. lia.
Qed.

(** ** The bump pointer *)

Lemma bumped_bound a n : bumped a n -> (n <= length (all_frames (memory_map a)))%nat.
Proof.
  intros (k & _ & Hk & ->). destruct (memory_map a !! curr_region_index a) as [r|] eqn:Er.
  - rewrite (all_frames_split _ _ _ Er), !length_app, length_frames_of. lia.
  - apply lookup_ge_None in Er. rewrite take_ge by done. lia.
Qed.

Lemma bump_next map i fl r n :
  map !! i = Some r -> n = (length (all_frames (take i map)) + frame_count r)%nat ->
  bumped (mkAllocator map (S i) 0 fl) n.
Proof.
  intros Hr ->. exists 0%nat. cbn [memory_map curr_region_index frame_offset_in_region]. split; [done|]. split; [lia|].
  rewrite (all_frames_take_S _ _ _ Hr), length_app, length_frames_of. lia.
Qed.

Lemma bump_loop_ok fuel : forall a n,
  sane (memory_map a) -> bumped a n -> (length (memory_map a) - curr_region_index a < fuel)%nat ->
  exists a', bump_loop fuel a = (Ok (all_frames (memory_map a) !! n), a') /\
    memory_map a' = memory_map a /\ free_list a' = free_list a /\
    bumped a' (if decide (n < length (all_frames (memory_map a)))%nat then S n else n).
Proof.
  induction fuel as [|fuel IH]; intros [map i off fl] n Hs Hb Hfuel; [lia|]. cbn in Hs, Hfuel.
  pose proof Hb as (k & Hoff & Hk & Hn). cbn [memory_map curr_region_index frame_offset_in_region] in *.
  cbn [bump_loop memory_map curr_region_index]. destruct (map !! i) as [r|] eqn:Er; cycle 1.
  { apply lookup_ge_None in Er. rewrite take_ge in Hn by done.
    exists (mkAllocator map i off fl). rewrite lookup_ge_None_2 by lia.
    split_and!; try done. rewrite decide_False by lia. done. }
  assert (Hnext : n = (length (all_frames (take i map)) + frame_count r)%nat ->
    exists a', bump_loop fuel (mkAllocator map (S i) 0 fl) = (Ok (all_frames map !! n), a') /\
      memory_map a' = map /\ free_list a' = fl /\
      bumped a' (if decide (n < length (all_frames map))%nat then S n else n)).
  { intros E. apply (IH (mkAllocator map (S i) 0 fl) n); cbn; [done| |].
    - by eapply bump_next.
    - apply lookup_lt_Some in Er. lia. }
  destruct (is_usable r) eqn:Hu; cbn [negb]; cycle 1.
  { apply Hnext. unfold frame_count in Hk |- *. rewrite Hu in *. lia. }
  pose proof (proj1 (Forall_lookup _ _) (sane_bounds _ Hs) i r Er) as (? & ? & ?).
  pose proof (page_up_bounds (base r)) as [? _].
  assert (Hpos : Z.of_nat k * PAGE_SIZE <= Z.max 0 (base r + length_ r - page_up (base r))).
  { destruct k as [|k]; [lia|]. pose proof (proj1 (frame_fits r k Hu)). unfold PAGE_SIZE in *. lia. }
  unfold PAGE_SIZE in *.
  unfold sbind at 1, slift at 1. rewrite align_up_page by (unfold PAGE_SIZE; lia).
  unfold sbind at 1, slift at 1, uadd at 1. rewrite (proj2 (Z.ltb_lt _ _)) by lia.
  unfold sbind at 1, slift at 1, uadd at 1. cbn [frame_offset_in_region]. rewrite Hoff.
  rewrite (proj2 (Z.ltb_lt _ _)) by lia.
  unfold sbind at 1, slift at 1, uadd at 1. rewrite (proj2 (Z.ltb_lt _ _)) by lia.
  pose proof (frame_fits r k Hu) as Hfit. unfold PAGE_SIZE in Hfit.
  destruct (Z.leb_spec (page_up (base r) + Z.of_nat k * 4096 + 4096) (base r + length_ r)) as [Hle|Hgt].
  - apply Hfit in Hle. exists (mkAllocator map i (Z.of_nat k * 4096 + PAGE_SIZE) fl).
    split; [|split; [done|split; [done|]]].
    + rewrite (all_frames_split _ _ _ Er), lookup_app_r, lookup_app_l by (rewrite ?length_frames_of; lia).
      replace (n - length (all_frames (take i map)))%nat with k by lia.
      rewrite lookup_frames_of by done. reflexivity.
    + rewrite decide_True; [|cbn [memory_map]; rewrite (all_frames_split _ _ _ Er), !length_app, length_frames_of; lia].
      exists (S k). cbn [memory_map curr_region_index frame_offset_in_region].
      rewrite Er. unfold PAGE_SIZE. split; [lia|]. split; [lia|]. lia.
  - apply Hnext. assert (~ (k < frame_count r)%nat) by (rewrite Hfit; lia). lia.
Qed.

(** ** The whole allocator *)

Lemma NoDup_take_all (l : list Z) n : NoDup l -> NoDup (take n l).
Proof. intros Hl. rewrite <- (take_drop n l) in Hl. by apply list.NoDup_app in Hl as [? _]. Qed.

Lemma allocate_does a held n :
  sane (memory_map a) -> bumped a n -> free_list a ++ held ≡ₚ take n (all_frames (memory_map a)) ->
  exists r a', allocate_frame a = (Ok r, a') /\ memory_map a' = memory_map a /\
    match r with
    | Some f => (f ∉ held) /\ holds a' (f :: held)
    | None => free_list a = [] /\ held ≡ₚ all_frames (memory_map a) /\ holds a' held
    end.
Proof.
  intros Hs Hb Hp. pose proof (NoDup_all_frames _ Hs) as Hnd. unfold allocate_frame.
  destruct (list.last (free_list a)) as [f|] eqn:El.
  - apply last_Some in El as [fl El]. eexists _, _. split; [reflexivity|]. cbn. split; [done|].
    rewrite El, length_app, Nat.add_sub, take_app_length in *.
    assert (Hp' : fl ++ f :: held ≡ₚ take n (all_frames (memory_map a))) by (by rewrite <- Hp, <- app_assoc).
    split; [|by exists n].
    assert (Hn' : NoDup (fl ++ f :: held)) by (rewrite Hp'; by apply NoDup_take_all).
    apply list.NoDup_app in Hn' as (_ & _ & Hn'). by apply NoDup_cons_1_1 in Hn'.
  - apply last_None in El. rewrite El in Hp. simpl in Hp.
    destruct (bump_loop_ok (S (length (memory_map a) - curr_region_index a)) a n Hs Hb) as
      (a' & E & Em & Ef & Hb'); [lia|].
    exists (all_frames (memory_map a) !! n), a'. split; [exact E|]. split; [done|].
    destruct (all_frames (memory_map a) !! n) as [f|] eqn:Ea.
    + pose proof (lookup_lt_Some _ _ _ Ea). rewrite decide_True in Hb' by done. split.
      * rewrite Hp. intros Hin. apply list_elem_of_lookup in Hin as [j Hj].
        apply lookup_take_Some in Hj as [Hj ?]. pose proof (NoDup_lookup _ _ _ _ Hnd Ea Hj). lia.
      * exists (S n). split; [done|]. rewrite Ef, El, Em, (take_S_r _ _ f Ea), Hp. simpl.
        by rewrite Permutation_app_comm.
    + apply lookup_ge_None in Ea. rewrite decide_False in Hb' by lia. split; [done|].
      rewrite take_ge in Hp by done. split; [done|]. exists n. split; [done|].
      by rewrite Ef, El, Em, take_ge.
Qed.

Lemma deallocate_does a held1 f held2 :
  sane (memory_map a) -> holds a (held1 ++ f :: held2) ->
  exists a', deallocate_frame f a = (Ok tt, a') /\ memory_map a' = memory_map a /\
    holds a' (held1 ++ held2).
Proof.
  intros Hs (n & Hb & Hp). eexists. split.
  - unfold deallocate_frame, sbind, sassert.
    assert (Hf : f ∈ all_frames (memory_map a)).
    { rewrite <- (take_drop n (all_frames _)), elem_of_app, <- Hp. left.
      rewrite !elem_of_app. right. right. apply list_elem_of_here. }
    apply elem_of_all_frames in Hf as (i & r & _ & Hf). apply elem_of_frames_of in Hf as (_ & Hm & _).
    rewrite Hm. reflexivity.
  - split; [done|]. exists n. split; [exact Hb|]. cbn [free_list memory_map]. rewrite <- Hp, <- !app_assoc.
    apply Permutation_app_head. simpl. by rewrite Permutation_middle.
Qed.

(** What [holds] says of the owners. *)
Lemma holds_facts a held :
  sane (memory_map a) -> holds a held ->
  NoDup (free_list a ++ held) /\
  forall f, f ∈ free_list a ++ held -> f mod PAGE_SIZE = 0 /\
    exists i r, memory_map a !! i = Some r /\ is_usable r = true /\
      base r <= f /\ f + PAGE_SIZE <= base r + length_ r.
Proof.
  intros Hs (n & _ & Hp). split.
  - rewrite Hp. by apply NoDup_take_all, NoDup_all_frames.
  - intros f Hf. rewrite Hp in Hf. assert (Hin : f ∈ all_frames (memory_map a)).
    { rewrite <- (take_drop n (all_frames _)). apply elem_of_app. by left. }
    apply elem_of_all_frames in Hin as (i & r & Hr & Hin).
    apply elem_of_frames_of in Hin as (? & ? & ? & ?). split; [done|]. by exists i, r.
Qed.

(** ** Counting *)

Lemma region_count_ok r :
  0 <= base r -> 0 <= length_ r -> base r + length_ r + 2 * PAGE_SIZE < 2 ^ 64 ->
  region_count r = Ok (Z.of_nat (frame_count r)).
Proof.
  intros ? ? Hb. unfold region_count, frame_count. destruct (is_usable r); [|done].
  rewrite align_up_page by (unfold PAGE_SIZE in *; lia). cbn [rbind]. unfold uadd, PAGE_SIZE in *.
  rewrite (proj2 (Z.ltb_lt _ _)) by lia. cbn [rbind]. f_equal.
  set (d := base r + length_ r - page_up (base r)).
  pose proof (Z.div_mod d 4096). pose proof (Z.mod_pos_bound d 4096).
  destruct (Z.ltb_spec (page_up (base r)) (base r + length_ r)); lia.
Qed.

Lemma count_regions_ok map :
  Forall (fun r => 0 <= base r /\ 0 <= length_ r /\ base r + length_ r + 2 * PAGE_SIZE < 2 ^ 64) map ->
  count_regions map = Ok (Z.of_nat (length (all_frames map))).
Proof.
  induction 1 as [|r map (? & ? & ?) _ IH]; [done|]. cbn [count_regions].
  rewrite region_count_ok, IH by done. cbn [rbind].
  rewrite all_frames_cons, length_app, length_frames_of. f_equal. lia.
Qed.

Lemma count_ok a n :
  sane (memory_map a) -> bumped a n ->
  allocated_bump_frames a =
    Ok (if zlen (free_list a) <=? Z.of_nat n then Z.of_nat n - zlen (free_list a) else 0).
Proof.
  intros Hs (k & Hoff & Hk & ->). unfold allocated_bump_frames.
  rewrite count_regions_ok by (apply Forall_take, Hs). cbn [rbind]. do 2 f_equal.
  assert (Hc : match memory_map a !! curr_region_index a with
    | Some r => if is_usable r then frame_offset_in_region a / PAGE_SIZE else 0
    | None => 0 end = Z.of_nat k).
  { rewrite Hoff, Z.div_mul by done. destruct (memory_map a !! curr_region_index a) as [r|]; [|lia].
    unfold frame_count in Hk. destruct (is_usable r); lia. }
  rewrite Hc, Nat2Z.inj_add. done.
Qed.

(** ** The duplicate check *)

Lemma insert_frame_perm x l : insert_frame x l ≡ₚ x :: l.
Proof.
  induction l as [|y l IH]; simpl; [done|]. destruct (x <=? y); [done|].
  rewrite IH. by constructor.
Qed.

Lemma sort_unstable_perm l : sort_unstable l ≡ₚ l.
Proof. induction l as [|x l IH]; simpl; [done|]. by rewrite insert_frame_perm, IH. Qed.

Lemma insert_frame_sorted x l : StronglySorted Z.le l -> StronglySorted Z.le (insert_frame x l).
Proof.
  induction 1 as [|y l Hs IH Hy]; simpl; [by repeat constructor|].
  destruct (Z.leb_spec x y).
  - constructor; [by constructor|]. constructor; [done|]. revert Hy. apply List.Forall_impl. intros z. lia.
  - constructor; [done|]. rewrite insert_frame_perm. constructor; [lia|done].
Qed.

Lemma adjacent_equal_sorted l :
  StronglySorted Z.le l -> adjacent_equal l = false <-> NoDup l.
Proof.
  induction 1 as [|x l Hs IH Hx]; [by split; [intros; constructor|]|].
  destruct l as [|y l]; [split; [intros _; apply NoDup_singleton|done]|].
  cbn [adjacent_equal]. rewrite orb_false_iff, Z.eqb_neq, IH. split.
  - intros [Hne Hn]. constructor; [|done]. intros Hin. apply elem_of_cons in Hin as [|Hin]; [done|].
    apply Forall_cons_1 in Hx as [Hxy _]. apply StronglySorted_inv in Hs as [_ Hy].
    rewrite List.Forall_forall in Hy. apply list_elem_of_In in Hin. specialize (Hy x Hin). lia.
  - intros Hn. split; [|by eapply NoDup_cons_1_2]. intros ->. apply NoDup_cons_1_1 in Hn.
    apply Hn, list_elem_of_here.
Qed.

Lemma duplicates_spec a : free_list_has_duplicates a = false <-> NoDup (free_list a).
Proof.
  unfold free_list_has_duplicates. rewrite adjacent_equal_sorted.
  - by rewrite sort_unstable_perm.
  - unfold sort_unstable. induction (free_list a); simpl; [constructor|]. by apply insert_frame_sorted.
Qed.

(** ** The allocator and its owners *)

(** A step of the kernel: a frame is handed to an owner, refused, or given back by the
    owner that has it. *)
Inductive owner_step : MemoryMapFrameAllocator * list Z -> MemoryMapFrameAllocator * list Z -> Prop :=
  | step_alloc a a' held f :
      allocate_frame a = (Ok (Some f), a') -> owner_step (a, held) (a', f :: held)
  | step_refused a a' held :
      allocate_frame a = (Ok None, a') -> owner_step (a, held) (a', held)
  | step_free a a' held1 f held2 :
      deallocate_frame f a = (Ok tt, a') ->
      owner_step (a, held1 ++ f :: held2) (a', held1 ++ held2).

Definition reachable (map : list Entry) (a : MemoryMapFrameAllocator) (held : list Z) : Prop :=
  rtc owner_step (init map, []) (a, held).

Lemma init_holds map : holds (init map) [].
Proof.
  exists 0%nat. split; [|done]. exists 0%nat. cbn. split; [done|]. split; [lia|done].
Qed.

Lemma reachable_holds map a held :
  sane map -> reachable map a held -> memory_map a = map /\ holds a held.
Proof.
  intros Hs Hr. enough (Hall : forall s, rtc owner_step (init map, []) s ->
    memory_map s.1 = map /\ holds s.1 s.2) by apply (Hall _ Hr).
  apply rtc_ind_r; [split; [done|apply init_holds]|].
  intros [b h] s2 _ Hstep [Em Hh]. cbn [fst snd] in *. rewrite <- Em in Hs.
  inversion Hstep as [? b' ? f Ha E1 E2|? b' ? Ha E1 E2|? b' h1 f h2 Ha E1 E2]; subst; cbn [fst snd].
  - destruct Hh as (n & Hb & Hp). destruct (allocate_does b h n Hs Hb Hp) as (r & b2 & E & Em' & Hr').
    rewrite Ha in E. injection E as <- <-. split; [congruence|apply Hr'].
  - destruct Hh as (n & Hb & Hp). destruct (allocate_does b h n Hs Hb Hp) as (r & b2 & E & Em' & Hr').
    rewrite Ha in E. injection E as <- <-. split; [congruence|apply Hr'].
  - destruct (deallocate_does b h1 f h2 Hs Hh) as (b2 & E & Em' & Hr').
    rewrite Ha in E. injection E as <-. split; [congruence|done].
Qed.

(** C22: however frames are handed out and given back, no frame has two owners or is
    free and owned at once, every one is page aligned and inside a usable region, the
    count the allocator reports is the number of frames owned, and its duplicate check
    passes. *)
Theorem frames_owned_once map a held :
  sane map -> reachable map a held ->
  NoDup (free_list a ++ held) /\
  (forall f, f ∈ free_list a ++ held -> f mod PAGE_SIZE = 0 /\
    exists i r, map !! i = Some r /\ is_usable r = true /\
      base r <= f /\ f + PAGE_SIZE <= base r + length_ r) /\
  allocated_bump_frames a = Ok (zlen held) /\
  free_list_has_duplicates a = false.
Proof.
  intros Hs Hr. destruct (reachable_holds map a held Hs Hr) as [<- Hh].
  destruct (holds_facts a held Hs Hh) as [Hn Hf]. split; [done|]. split; [done|].
  destruct Hh as (n & Hb & Hp). split.
  - rewrite (count_ok a n Hs Hb). pose proof (bumped_bound a n Hb).
    apply Permutation_length in Hp. rewrite length_app, length_take, Nat.min_l in Hp by done.
    rewrite (proj2 (Z.leb_le _ _)) by lia. f_equal. lia.
  - apply duplicates_spec. by apply list.NoDup_app in Hn as [? _].
Qed.

(** Allocation always answers; it refuses exactly when every frame of the map is
    owned, and the frame it hands out is one nobody owned. *)
Theorem allocate_frame_progress map a held :
  sane map -> reachable map a held ->
  exists r a', allocate_frame a = (Ok r, a') /\
    (r = None <-> held ≡ₚ all_frames map) /\
    (forall f, r = Some f -> f ∈ all_frames map /\ (f ∉ held)).
Proof.
  intros Hs Hr. destruct (reachable_holds map a held Hs Hr) as [<- (n & Hb & Hp)].
  destruct (allocate_does a held n Hs Hb Hp) as (r & a' & E & Em & Hres).
  exists r, a'. split; [done|]. destruct r as [f|].
  - destruct Hres as [Hf Hh]. assert (Hin : f ∈ all_frames (memory_map a)).
    { destruct Hh as (m & _ & Hp'). rewrite Em in Hp'.
      rewrite <- (take_drop m (all_frames _)), elem_of_app, <- Hp'. left.
      apply elem_of_app. right. apply list_elem_of_here. }
    split; [split; [done|]|by intros ? [= <-]]. intros Hall. by rewrite Hall in Hf.
  - destruct Hres as (_ & Hall & _). by split.
Qed.

End allocator.

(** ** A small map: two usable regions, the first not page aligned. *)

Definition demo_map : list Entry :=
  [mkEntry 100 12388 0; mkEntry 16384 8192 1; mkEntry 40960 4096 0].

Lemma demo_sane : sane 0 demo_map.
Proof.
  constructor.
  - repeat constructor; simpl; lia.
  - intros [|[|[|i]]] [|[|[|j]]] r s Hij Hr Hs; simpl in Hr, Hs; simplify_eq; simpl; lia || done.
Qed.

Example demo_frames : all_frames 0 demo_map = [4096; 8192; 40960].
Proof. vm_compute. reflexivity. Qed.

(** Two frames out, one back. *)
Lemma demo_reachable :
  exists a, reachable 0 demo_map a [8192] /\ free_list a = [4096].
Proof.
  eexists. split.
  - eapply rtc_l; [by apply step_alloc; vm_compute|].
    eapply rtc_l; [by apply step_alloc; vm_compute|].
    eapply rtc_l; [eapply (step_free 0 _ _ [8192] 4096 []); vm_compute; reflexivity|].
    apply rtc_refl.
  - reflexivity.
Defined.

Lemma frames_owned_once_witness :
  exists a, NoDup (free_list a ++ [8192]) /\ allocated_bump_frames 0 a = Ok 1.
Proof.
  destruct demo_reachable as (a & Hr & _). exists a.
  pose proof (frames_owned_once 0 demo_map a [8192] demo_sane Hr) as (Hn & _ & Hc & _).
  split; [exact Hn|exact Hc].
Defined.

Lemma allocate_frame_progress_witness :
  exists a r a', allocate_frame 0 a = (Ok r, a') /\
    (r = None <-> [8192] ≡ₚ all_frames 0 demo_map).
Proof.
  destruct demo_reachable as (a & Hr & _).
  destruct (allocate_frame_progress 0 demo_map a [8192] demo_sane Hr) as (r & a' & E & Hn & _).
  exists a, r, a'. split; [exact E|exact Hn].
Defined.
