(* ===== verification/Tasks.v ===== *)
(** * Tasks: the task slots of kernel/src/process/task.rs

    The static array [TASKS] is the list of its slots; a slot is addressed by its
    index.  The saved stack pointer is kept, the FPU image is its reset value or what
    the CPU left in it.  A load or store of an atomic field is one access of the record:
    the functions are modelled as they run when no other core interferes between two of
    their accesses. *)

From Stdlib Require Import ZArith Lia.
From stdpp Require Import base tactics list option numbers.
From S2P Require Import Prelude.

Open Scope rust_scope.

Definition MAX_TASKS : Z := 64.
Definition INVALID_SLOT : Z := 2 ^ 16 - 1.
Definition INVALID_PID : Z := 2 ^ 64 - 1.

Definition FPU_STATE_SIZE_BYTES : nat := 512.
Definition FXSAVE_FCW_OFFSET : nat := 0.
Definition FXSAVE_MXCSR_OFFSET : nat := 24.
Definition FCW_DEFAULT : Z := 0x37F.
Definition MXCSR_DEFAULT : Z := 0x1F80.

(** [FpuState::new]: the image of the FXSAVE area after a reset. *)
Definition fpu_new : list Z :=
  splice (splice (replicate FPU_STATE_SIZE_BYTES 0) FXSAVE_FCW_OFFSET (le_bytes 2 FCW_DEFAULT))
    FXSAVE_MXCSR_OFFSET (le_bytes 4 MXCSR_DEFAULT).

Inductive TaskState : Type :=
  | Free
  | Creating
  | Ready
  | Running
  | Blocked
  | Dead.

#[export] Instance TaskState_eq_dec : EqDecision TaskState.
Proof. solve_decision. Defined.

Record TaskRef : Type := mkRef {
  slot_of : Z;
  pid_of : Z;
}.

#[export] Instance TaskRef_eq_dec : EqDecision TaskRef.
Proof. solve_decision. Defined.

Record TaskSlot : Type := mkTask {
  pid : Z;
  state : TaskState;
  priority : Z;
  home_core : Z;
  on_cpu : bool;
  kill_pending : bool;
  exit_code_request : Z;
  cpu_ticks : Z;
  core_migration_count : Z;
  cr3 : Z;
  kernel_stack_top : Z;
  next : Z;
  fpu_state : list Z;
}.

(** [TaskSlot::new] *)
Definition task_new : TaskSlot :=
  mkTask INVALID_PID Free 0 0 false false 0 0 0 0 0 INVALID_SLOT fpu_new.

Abbreviation Tasks := (list TaskSlot).

Definition TASKS : Tasks := replicate (Z.to_nat MAX_TASKS) task_new.

(** The stores of the fields. *)
Definition set_state (s : TaskState) (t : TaskSlot) : TaskSlot :=
  mkTask (pid t) s (priority t) (home_core t) (on_cpu t) (kill_pending t) (exit_code_request t)
    (cpu_ticks t) (core_migration_count t) (cr3 t) (kernel_stack_top t) (next t) (fpu_state t).
Definition set_next (n : Z) (t : TaskSlot) : TaskSlot :=
  mkTask (pid t) (state t) (priority t) (home_core t) (on_cpu t) (kill_pending t)
    (exit_code_request t) (cpu_ticks t) (core_migration_count t) (cr3 t) (kernel_stack_top t) n
    (fpu_state t).
Definition set_on_cpu (b : bool) (t : TaskSlot) : TaskSlot :=
  mkTask (pid t) (state t) (priority t) (home_core t) b (kill_pending t) (exit_code_request t)
    (cpu_ticks t) (core_migration_count t) (cr3 t) (kernel_stack_top t) (next t) (fpu_state t).
Definition set_home (c : Z) (t : TaskSlot) : TaskSlot :=
  mkTask (pid t) (state t) (priority t) c (on_cpu t) (kill_pending t) (exit_code_request t)
    (cpu_ticks t) (wrap 32 (core_migration_count t + 1)) (cr3 t) (kernel_stack_top t) (next t)
    (fpu_state t).
Definition set_kill (code : Z) (t : TaskSlot) : TaskSlot :=
  mkTask (pid t) (state t) (priority t) (home_core t) (on_cpu t) true code
    (cpu_ticks t) (core_migration_count t) (cr3 t) (kernel_stack_top t) (next t) (fpu_state t).
Definition set_pid (p : Z) (t : TaskSlot) : TaskSlot :=
  mkTask p (state t) (priority t) (home_core t) (on_cpu t) (kill_pending t) (exit_code_request t)
    (cpu_ticks t) (core_migration_count t) (cr3 t) (kernel_stack_top t) (next t) (fpu_state t).
Definition add_tick (t : TaskSlot) : TaskSlot :=
  mkTask (pid t) (state t) (priority t) (home_core t) (on_cpu t) (kill_pending t)
    (exit_code_request t) (wrap 64 (cpu_ticks t + 1)) (core_migration_count t) (cr3 t)
    (kernel_stack_top t) (next t) (fpu_state t).

Definition task_at (ts : Tasks) (slot : Z) : option TaskSlot :=
  if 0 <=? slot then ts !! Z.to_nat slot else None.

Definition put_task (slot : Z) (f : TaskSlot -> TaskSlot) (ts : Tasks) : Tasks :=
  if 0 <=? slot then alter f (Z.to_nat slot) ts else ts.

(** ** Operations *)

Abbreviation TM := (stM Tasks Empty_set).

(** [slot(slot_index)], which panics out of range. *)
Definition slot (slot_index : Z) : TM TaskSlot := fun ts =>
  match task_at ts slot_index with Some t => (Ok t, ts) | None => (Panic, ts) end.

(** A store to a field of a slot. *)
Definition store (slot_index : Z) (f : TaskSlot -> TaskSlot) : TM unit :=
  slot slot_index ;;; fun ts => (Ok tt, put_task slot_index f ts).

(** [TaskSlot::transition]: a compare-and-exchange of the state. *)
Definition transition (slot_index : Z) (from to : TaskState) : TM bool :=
  let! t := slot slot_index in
  if decide (state t = from) then store slot_index (set_state to) ;;; sret true else sret false.

Fixpoint position {A} (p : A -> bool) (l : list A) (i : Z) : option Z :=
  match l with
  | [] => None
  | x :: l => if p x then Some i else position p l (i + 1)
  end.

Definition find_slot_by_pid (ts : Tasks) (p : Z) : option Z :=
  position (fun t => pid t =? p) ts 0.

(** [TaskRef::is_alive] *)
Definition is_alive (ts : Tasks) (r : TaskRef) : bool :=
  match task_at ts (slot_of r) with Some t => pid t =? pid_of r | None => false end.

(** [allocate_task_slot] scans for a Free slot. The kernel stack of a slot is laid out
    by gdt.rs. *)
Definition allocate_task_slot (task_stack_top : Z -> Z) (p prio core cr3 : Z) : TM (option Z) :=
  fun ts =>
    match position (fun t => bool_decide (state t = Free)) ts 0 with
    | None => (Ok None, ts)
    | Some i => (Ok (Some i), put_task i (fun _ =>
        mkTask p Creating prio core false false 0 0 0 cr3 (task_stack_top i) INVALID_SLOT fpu_new) ts)
    end.

Definition release_task_slot (slot_index : Z) : TM unit :=
  store slot_index (fun t => set_state Free (set_pid INVALID_PID t)).

(** ** Facts *)

Lemma task_at_range ts i t : task_at ts i = Some t -> 0 <= i < zlen ts.
Proof.
  unfold task_at. destruct (Z.leb_spec 0 i); [|done]. intros Hl%lookup_lt_Some. lia.
Qed.

Lemma task_at_some ts i : 0 <= i < zlen ts -> is_Some (task_at ts i).
Proof.
  intros Hi. unfold task_at. rewrite (proj2 (Z.leb_le _ _)) by lia.
  apply lookup_lt_is_Some. lia.
Qed.

Lemma task_at_put ts i f j :
  task_at (put_task i f ts) j = if decide (j = i) then f <$> task_at ts j else task_at ts j.
Proof.
  unfold task_at, put_task. destruct (Z.leb_spec 0 j); destruct (Z.leb_spec 0 i);
    case_decide; subst; try lia; try done.
  - by rewrite list_lookup_alter_eq.
  - rewrite list_lookup_alter_ne; [done|lia].
Qed.

Lemma length_put_task ts i f : length (put_task i f ts) = length ts.
Proof. unfold put_task. destruct (0 <=? i); [apply length_alter|done]. Qed.

Lemma slot_does ts i t : task_at ts i = Some t -> slot i ts = (Ok t, ts).
Proof. intros E. unfold slot. by rewrite E. Qed.

Lemma store_does ts i f t :
  task_at ts i = Some t -> store i f ts = (Ok tt, put_task i f ts).
Proof. intros E. unfold store. by rewrite (sbind_ok _ _ _ _ _ (slot_does _ _ _ E)). Qed.

Lemma transition_does ts i t from to :
  task_at ts i = Some t ->
  transition i from to ts =
    if decide (state t = from) then (Ok true, put_task i (set_state to) ts) else (Ok false, ts).
Proof.
  intros E. unfold transition. rewrite (sbind_ok _ _ _ _ _ (slot_does _ _ _ E)).
  case_decide; [|done]. by rewrite (sbind_ok _ _ _ _ _ (store_does _ _ _ _ E)).
Qed.

Lemma position_spec {A} (p : A -> bool) l : forall i,
  match position p l i with
  | Some j => i <= j < i + zlen l /\ exists x, l !! Z.to_nat (j - i) = Some x /\ p x = true /\
      forall k y, (k < Z.to_nat (j - i))%nat -> l !! k = Some y -> p y = false
  | None => Forall (fun x => p x = false) l
  end.
Proof.
  induction l as [|x l IH]; intros i; [constructor|]. cbn [position]. destruct (p x) eqn:Ep.
  - simpl. split; [lia|]. exists x. rewrite Z.sub_diag. split_and!; [done|done|lia].
  - specialize (IH (i + 1)). destruct (position p l (i + 1)) as [j|]; [|by constructor].
    destruct IH as (Hj & y & Hy & Hp & Hbefore). simpl. split; [lia|]. exists y.
    replace (Z.to_nat (j - i)) with (S (Z.to_nat (j - (i + 1)))) by lia.
    split_and!; [done|done|]. intros [|k] z Hk Hz; simpl in Hz; [congruence|].
    eapply Hbefore; [|done]. lia.
Qed.
