(* ===== verification/RunQueue.v ===== *)
(** * RunQueue: the run queues of kernel/src/process/scheduler.rs

    [SlotQueue] is a singly linked list threaded through the [next] fields of the task
    slots, [TaskSlotQueueTable] holds one per priority with a bitmap of the non-empty
    ones, and [CoreRunQueue] holds two tables and the sleeping tasks of a core.  An
    operation runs on the value it is called on and the task slots. *)

From Stdlib Require Import ZArith Lia.
From stdpp Require Import base tactics list option numbers.
From S2P Require Import Prelude Tasks.

Open Scope rust_scope.

(** [self] together with the task slots. *)
Abbreviation QM S := (stM (S * Tasks) Empty_set).

Definition on_tasks {S A} (m : TM A) : QM S A := fun '(s, ts) =>
  let '(r, ts') := m ts in (r, (s, ts')).
Definition self {S} : QM S S := fun '(s, ts) => (Ok s, (s, ts)).
Definition set_self {S} (f : S -> S) : QM S unit := fun '(s, ts) => (Ok tt, (f s, ts)).

(** ** SlotQueue *)

Record SlotQueue : Type := mkQueue {
  head : Z;
  tail : Z;
}.

Definition set_head (h : Z) (q : SlotQueue) : SlotQueue := mkQueue h (tail q).
Definition set_tail (t : Z) (q : SlotQueue) : SlotQueue := mkQueue (head q) t.

Definition slot_queue_new : SlotQueue := mkQueue INVALID_SLOT INVALID_SLOT.

Definition push_back (slot_index : Z) : QM SlotQueue unit :=
  on_tasks (store slot_index (set_next INVALID_SLOT)) ;;;
  let! q := self in
  (if tail q =? INVALID_SLOT then set_self (set_head (wrap 16 slot_index))
   else on_tasks (store (tail q) (set_next (wrap 16 slot_index)))) ;;;
  set_self (set_tail (wrap 16 slot_index)).

Definition pop_front : QM SlotQueue Z :=
  let! q := self in
  sassert (negb (head q =? INVALID_SLOT)) ;;;
  let! t := on_tasks (slot (head q)) in
  set_self (set_head (next t)) ;;;
  (if next t =? INVALID_SLOT then set_self (set_tail INVALID_SLOT) else sret tt) ;;;
  sret (head q).

(** Each turn of the [while] moves one task along. *)
Fixpoint remove_loop (fuel : nat) (accepts : Z -> TM bool) (previous cursor : Z) : QM SlotQueue Z :=
  match fuel with
  | O => sfuel
  | S fuel =>
      if cursor =? INVALID_SLOT then sret INVALID_SLOT else
      let! t := on_tasks (slot cursor) in
      let next := next t in
      let! yes := on_tasks (accepts cursor) in
      if (yes : bool) then
        (if previous =? INVALID_SLOT then set_self (set_head next)
         else on_tasks (store previous (set_next next))) ;;;
        let! q := self in
        (if tail q =? cursor then set_self (set_tail previous) else sret tt) ;;;
        sret cursor
      else remove_loop fuel accepts cursor next
  end.

Definition queue_fuel : nat := S (Z.to_nat MAX_TASKS).

Definition remove_first_where (accepts : Z -> TM bool) : QM SlotQueue Z :=
  let! q := self in remove_loop queue_fuel accepts INVALID_SLOT (head q).

Fixpoint contains_loop (fuel : nat) (slot_index cursor : Z) : QM SlotQueue bool :=
  match fuel with
  | O => sfuel
  | S fuel =>
      if cursor =? INVALID_SLOT then sret false else
      if cursor =? slot_index then sret true else
      let! t := on_tasks (slot cursor) in contains_loop fuel slot_index (next t)
  end.

Definition queue_contains (slot_index : Z) : QM SlotQueue bool :=
  let! q := self in contains_loop queue_fuel slot_index (head q).

(** ** TaskSlotQueueTable *)

Definition MAX_PRIORITY : Z := 7.
Definition PRIORITY_LEVEL_COUNT : Z := MAX_PRIORITY + 1.

Record TaskSlotQueueTable : Type := mkTable {
  queues : list SlotQueue;
  non_empty_levels : Z;
}.

Definition table_new : TaskSlotQueueTable :=
  mkTable (replicate (Z.to_nat PRIORITY_LEVEL_COUNT) slot_queue_new) 0.

Definition set_levels (b : Z) (T : TaskSlotQueueTable) : TaskSlotQueueTable :=
  mkTable (queues T) b.

(** A call on [self.queues[level]], which panics out of range. *)
Definition on_level {A} (level : Z) (m : QM SlotQueue A) : QM TaskSlotQueueTable A :=
  fun '(T, ts) =>
    match queues T !! Z.to_nat level with
    | None => (Panic, (T, ts))
    | Some q =>
        let '(r, (q', ts')) := m (q, ts) in
        (r, (mkTable (<[Z.to_nat level := q']> (queues T)) (non_empty_levels T), ts'))
    end.

Definition push (slot_index priority : Z) : QM TaskSlotQueueTable unit :=
  sassert (priority <=? MAX_PRIORITY) ;;;
  on_level priority (push_back slot_index) ;;;
  set_self (fun T => set_levels (Z.lor (non_empty_levels T) (Z.shiftl 1 priority)) T).

Definition is_empty (T : TaskSlotQueueTable) : bool := non_empty_levels T =? 0.

(** [u8::leading_zeros] *)
Definition leading_zeros (x : Z) : Z := if x =? 0 then 8 else 7 - Z.log2 x.

(** [non_empty_levels &= !(1 << level)] *)
Definition clear_level (level : Z) : QM TaskSlotQueueTable unit :=
  set_self (fun T => set_levels (Z.ldiff (non_empty_levels T) (Z.shiftl 1 level)) T).

(** The check after an element has left a level. *)
Definition note_level (level : Z) : QM TaskSlotQueueTable unit :=
  let! q := on_level level self in
  if head q =? INVALID_SLOT then clear_level level else sret tt.

Definition pop_highest_prio_oldest_task : QM TaskSlotQueueTable Z :=
  let! T := self in
  sassert (negb (is_empty T)) ;;;
  let! level := slift (usub (8 - 1) (leading_zeros (non_empty_levels T))) in
  let! slot_index := on_level level pop_front in
  note_level level ;;;
  sret slot_index.

(** [iter().any(..)] stops at the first level that answers true. *)
Fixpoint any_level (m : QM SlotQueue bool) (levels : list Z) : QM TaskSlotQueueTable bool :=
  match levels with
  | [] => sret false
  | level :: levels =>
      let! yes := on_level level m in if (yes : bool) then sret true else any_level m levels
  end.

Definition levels_up : list Z := seqZ 0 PRIORITY_LEVEL_COUNT.

Definition table_contains (slot_index : Z) : QM TaskSlotQueueTable bool :=
  any_level (queue_contains slot_index) levels_up.

Definition not_on_cpu (queued : Z) : TM bool :=
  let! t := slot queued in sret (negb (on_cpu t)).

Fixpoint take_loop (levels : list Z) : QM TaskSlotQueueTable Z :=
  match levels with
  | [] => sret INVALID_SLOT
  | level :: levels =>
      let! slot_index := on_level level (remove_first_where not_on_cpu) in
      if slot_index =? INVALID_SLOT then take_loop levels else
      note_level level ;;;
      sret slot_index
  end.

Definition take_task_not_currently_on_cpu : QM TaskSlotQueueTable Z :=
  take_loop (rev levels_up).

(** ** CoreRunQueue *)

Record SleepingTask : Type := mkSleeper {
  task_ref : TaskRef;
  wake_time_us : Z;
}.

Definition sleeper_empty : SleepingTask := mkSleeper (mkRef INVALID_SLOT INVALID_PID) 0.

Record CoreRunQueue : Type := mkRunQueue {
  executing_tasks : TaskSlotQueueTable;
  yielding_tasks : TaskSlotQueueTable;
  sleeping_tasks : list SleepingTask;
  sleeping_tasks_count : nat;
}.

Definition run_queue_new : CoreRunQueue :=
  mkRunQueue table_new table_new (replicate (Z.to_nat MAX_TASKS) sleeper_empty) 0.

Definition on_executing {A} (m : QM TaskSlotQueueTable A) : QM CoreRunQueue A :=
  fun '(rq, ts) =>
    let '(r, (T, ts')) := m (executing_tasks rq, ts) in
    (r, (mkRunQueue T (yielding_tasks rq) (sleeping_tasks rq) (sleeping_tasks_count rq), ts')).
Definition on_yielding {A} (m : QM TaskSlotQueueTable A) : QM CoreRunQueue A :=
  fun '(rq, ts) =>
    let '(r, (T, ts')) := m (yielding_tasks rq, ts) in
    (r, (mkRunQueue (executing_tasks rq) T (sleeping_tasks rq) (sleeping_tasks_count rq), ts')).
Definition set_sleeping (l : list SleepingTask) (n : nat) (rq : CoreRunQueue) : CoreRunQueue :=
  mkRunQueue (executing_tasks rq) (yielding_tasks rq) l n.

(** [is_stale] of a waiter or sleeper. *)
Definition is_stale (r : TaskRef) : TM bool :=
  let! t := slot (slot_of r) in
  sret (negb (pid t =? pid_of r) || negb (bool_decide (state t = Blocked))).

(** Dropping the entry at [index] of a list of [count] entries in use: the last one moves
    into its place. *)
Definition swap_out {A} (l : list A) (index count : nat) : list A :=
  match l !! (count - 1)%nat with Some x => <[index := x]> l | None => l end.

(** The [while] of [remove_stale]: a turn drops an entry or goes to the next. *)
Fixpoint stale_loop {A} (fuel : nat) (ref : A -> TaskRef) (l : list A) (index count : nat) :
    TM (list A * nat) :=
  match fuel with
  | O => sfuel
  | S fuel =>
      if (count <=? index)%nat then sret (l, count) else
      match l !! index with
      | None => spanic
      | Some x =>
          let! stale := is_stale (ref x) in
          if (stale : bool) then stale_loop fuel ref (swap_out l index count) index (count - 1)
          else stale_loop fuel ref l (S index) count
      end
  end.

Definition remove_stale_sleeping_tasks : QM CoreRunQueue unit :=
  let! rq := self in
  let n := sleeping_tasks_count rq in
  let! (l, n) := on_tasks (stale_loop (S n) task_ref (sleeping_tasks rq) 0 n) in
  set_self (set_sleeping l n).

Definition add_sleeping_task (r : TaskRef) (wake_time_us : Z) : QM CoreRunQueue unit :=
  let! rq := self in
  (if (sleeping_tasks_count rq =? length (sleeping_tasks rq))%nat then remove_stale_sleeping_tasks
   else sret tt) ;;;
  let! rq := self in
  sassert (sleeping_tasks_count rq <? length (sleeping_tasks rq))%nat ;;;
  set_self (set_sleeping
    (<[sleeping_tasks_count rq := mkSleeper r wake_time_us]> (sleeping_tasks rq))
    (S (sleeping_tasks_count rq))).

Definition push_executing_task (slot_index priority : Z) : QM CoreRunQueue unit :=
  on_executing (push slot_index priority).
Definition push_yielding_task (slot_index priority : Z) : QM CoreRunQueue unit :=
  on_yielding (push slot_index priority).

Definition swap_tables (rq : CoreRunQueue) : CoreRunQueue :=
  mkRunQueue (yielding_tasks rq) (executing_tasks rq) (sleeping_tasks rq) (sleeping_tasks_count rq).

Definition pick_next_task : QM CoreRunQueue Z :=
  let! rq := self in
  if is_empty (executing_tasks rq) then
    if is_empty (yielding_tasks rq) then sret INVALID_SLOT else
    set_self swap_tables ;;;
    on_executing pop_highest_prio_oldest_task
  else on_executing pop_highest_prio_oldest_task.

Definition take_stealable_task : QM CoreRunQueue Z :=
  let! slot_index := on_executing take_task_not_currently_on_cpu in
  if negb (slot_index =? INVALID_SLOT) then sret slot_index else
  on_yielding take_task_not_currently_on_cpu.

Definition contains (slot_index : Z) : QM CoreRunQueue bool :=
  let! yes := on_executing (table_contains slot_index) in
  if (yes : bool) then sret true else on_yielding (table_contains slot_index).

