(* ===== verification/RunQueueOk.v ===== *)
(** * RunQueueOk: what the operations of the run queues do

    A slot queue represents the list of its slots, a table a list per priority; each
    operation is shown to do on these lists what its name says, changing only [next]
    fields of the slots it handles. *)

From Stdlib Require Import ZArith Lia.
From stdpp Require Import base tactics list option numbers sets.
From S2P Require Import Prelude Tasks RunQueue.

Open Scope rust_scope.

(** ** Linked slots *)

Definition next_at (ts : Tasks) (x : Z) : option Z := next <$> task_at ts x.

(** The slots [l] are linked from [s] to [e]. *)
Fixpoint seg (ts : Tasks) (s : Z) (l : list Z) (e : Z) : Prop :=
  match l with
  | [] => s = e
  | x :: l => s = x /\ x <> INVALID_SLOT /\ exists n, next_at ts x = Some n /\ seg ts n l e
  end.

Record queue_ok (ts : Tasks) (q : SlotQueue) (l : list Z) : Prop := {
  qo_seg : seg ts (head q) l INVALID_SLOT;
  qo_tail : tail q = default INVALID_SLOT (list.last l);
  qo_nodup : NoDup l;
}.

(** Only the [next] fields of the slots [D] may have changed. *)
Definition relinked (D : list Z) (ts ts' : Tasks) : Prop :=
  length ts' = length ts /\
  forall j t, task_at ts j = Some t ->
    exists n, task_at ts' j = Some (set_next n t) /\ ((j ∉ D) -> n = next t).

Lemma set_next_same t : set_next (next t) t = t.
Proof. by destruct t. Qed.

Lemma relinked_refl D ts : relinked D ts ts.
Proof. split; [done|]. intros j t E. exists (next t). by rewrite set_next_same. Qed.

Lemma relinked_store i n ts : relinked [i] ts (put_task i (set_next n) ts).
Proof.
  split; [apply length_put_task|]. intros j t E. rewrite task_at_put, E. case_decide as Hj.
  - exists n. split; [done|]. subst. set_solver.
  - exists (next t). by rewrite set_next_same.
Qed.

Lemma relinked_trans D ts ts1 ts2 : relinked D ts ts1 -> relinked D ts1 ts2 -> relinked D ts ts2.
Proof.
  intros [L1 H1] [L2 H2]. split; [congruence|]. intros j t E.
  destruct (H1 j t E) as (n & E1 & N1). destruct (H2 j _ E1) as (m & E2 & N2).
  exists m. split; [done|]. intros Hj. rewrite (N2 Hj). by apply N1.
Qed.

Lemma relinked_mono D D' ts ts' : D ⊆ D' -> relinked D ts ts' -> relinked D' ts ts'.
Proof.
  intros HD [L H]. split; [done|]. intros j t E. destruct (H j t E) as (n & E' & N).
  exists n. split; [done|]. set_solver.
Qed.

Lemma relinked_next D ts ts' x : relinked D ts ts' -> (x ∉ D) -> is_Some (next_at ts x) ->
  next_at ts' x = next_at ts x.
Proof.
  intros [_ H] Hx [n Hn]. unfold next_at in *. destruct (task_at ts x) as [t|] eqn:E; [|done].
  destruct (H x t E) as (m & -> & Hm). simpl. by rewrite Hm.
Qed.

Lemma relinked_at D ts ts' x t : relinked D ts ts' -> task_at ts x = Some t ->
  exists n, task_at ts' x = Some (set_next n t).
Proof. intros [_ H] E. destruct (H x t E) as (n & ? & _). eauto. Qed.

Lemma relinked_len D ts ts' : relinked D ts ts' -> zlen ts' = zlen ts.
Proof. intros [L _]. unfold zlen. by rewrite L. Qed.

Lemma seg_frame ts ts' l : forall s e,
  (forall x, x ∈ l -> next_at ts' x = next_at ts x) -> seg ts s l e -> seg ts' s l e.
Proof.
  induction l as [|x l IH]; intros s e Hl; [done|]. intros (-> & Hi & n & Hn & Hs).
  split; [done|]. split; [done|]. exists n. split; [rewrite Hl; [done|set_solver]|].
  apply IH; [|done]. set_solver.
Qed.

Lemma seg_some ts l : forall s e x, seg ts s l e -> x ∈ l ->
  x <> INVALID_SLOT /\ is_Some (next_at ts x).
Proof.
  induction l as [|y l IH]; intros s e x; [set_solver|]. intros (-> & Hi & n & Hn & Hs).
  intros [->|Hx]%elem_of_cons; [by rewrite Hn|]. by apply (IH n e).
Qed.

Lemma seg_app ts l1 l2 : forall s e,
  seg ts s (l1 ++ l2) e <-> exists m, seg ts s l1 m /\ seg ts m l2 e.
Proof.
  induction l1 as [|x l1 IH]; intros s e; simpl.
  - split; [by eauto|]. by intros (m & -> & H).
  - split.
    + intros (-> & Hi & n & Hn & (m & H1 & H2)%IH). eauto 10.
    + intros (m & (-> & Hi & n & Hn & H1) & H2). split; [done|]. split; [done|].
      exists n. rewrite IH. eauto.
Qed.

Lemma seg_bound ts l s e x : seg ts s l e -> x ∈ l -> 0 <= x < zlen ts.
Proof.
  intros Hs Hx. destruct (seg_some _ _ _ _ _ Hs Hx) as [_ [n Hn]]. unfold next_at in Hn.
  destruct (task_at ts x) eqn:E; [|done]. by eapply task_at_range.
Qed.

Lemma seg_last_set ts l p s e n :
  seg ts s (l ++ [p]) e -> (p ∉ l) -> seg (put_task p (set_next n) ts) s (l ++ [p]) n.
Proof.
  intros (m & H1 & H2)%seg_app Hp. apply seg_app. exists m. split.
  - eapply seg_frame; [|exact H1]. intros x Hx. unfold next_at. rewrite task_at_put.
    rewrite decide_False by set_solver. done.
  - destruct H2 as (-> & Hi & k & Hk & _). simpl. split; [done|]. split; [done|]. exists n.
    split; [|done]. unfold next_at in *. rewrite task_at_put, decide_True by done.
    by destruct (task_at ts p).
Qed.

Lemma queue_frame D ts ts' q l : relinked D ts ts' -> (forall x, x ∈ l -> x ∉ D) ->
  queue_ok ts q l -> queue_ok ts' q l.
Proof.
  intros Hr Hd [Hs Ht Hn]. constructor; [|done|done]. eapply seg_frame; [|exact Hs].
  intros x Hx. eapply relinked_next; [done|by apply Hd|]. by eapply seg_some.
Qed.

Lemma queue_nil ts q : queue_ok ts q [] <-> q = slot_queue_new.
Proof.
  split; [|intros ->; by constructor; [| |constructor]]. intros [Hs Ht _]. destruct q as [h t].
  simpl in *. by subst.
Qed.

Lemma queue_head ts q l : queue_ok ts q l -> head q = default INVALID_SLOT (list.head l).
Proof. intros [Hs _ _]. destruct l; [done|]. by destruct Hs as [? _]. Qed.

Lemma queue_head_nil ts q l : queue_ok ts q l -> head q = INVALID_SLOT <-> l = [].
Proof.
  intros H. rewrite (queue_head _ _ _ H). destruct l as [|x l]; [done|]. simpl. split; [|done].
  destruct H as [(_ & Hi & _) _ _]. done.
Qed.

(** At most 64 slots fit, and INVALID_SLOT is not one of them. *)
Definition tasks_fit (ts : Tasks) : Prop := zlen ts = MAX_TASKS.

Lemma queue_short ts q l : tasks_fit ts -> queue_ok ts q l -> (length l < queue_fuel)%nat.
Proof.
  intros Hf [Hs _ Hn]. unfold queue_fuel. apply Nat.lt_succ_r.
  assert (length l <= length (seqZ 0 MAX_TASKS))%nat as H; [|by rewrite length_seqZ in H].
  apply submseteq_length, NoDup_submseteq; [done|]. intros x Hx.
  pose proof (seg_bound _ _ _ _ _ Hs Hx). apply elem_of_seqZ. unfold tasks_fit in Hf. lia.
Qed.

(** ** SlotQueue operations *)

Lemma on_tasks_does {S A} (m : TM A) (s : S) ts r ts' :
  m ts = (r, ts') -> on_tasks m (s, ts) = (r, (s, ts')).
Proof. intros E. unfold on_tasks. by rewrite E. Qed.

Lemma slot_on {S} (s : S) ts i t : task_at ts i = Some t -> on_tasks (slot i) (s, ts) = (Ok t, (s, ts)).
Proof. intros E. by apply on_tasks_does, slot_does. Qed.

Lemma store_on {S} (s : S) ts i f : is_Some (task_at ts i) ->
  on_tasks (store i f) (s, ts) = (Ok tt, (s, put_task i f ts)).
Proof. intros [t E]. by eapply on_tasks_does, store_does. Qed.

Lemma is_some_put ts i f j : is_Some (task_at ts j) -> is_Some (task_at (put_task i f ts) j).
Proof. intros [t E]. rewrite task_at_put, E. case_decide; simpl; eauto. Qed.

Lemma push_back_does q ts l s :
  tasks_fit ts -> queue_ok ts q l -> (s ∉ l) -> is_Some (task_at ts s) ->
  exists q' ts', push_back s (q, ts) = (Ok tt, (q', ts')) /\
    queue_ok ts' q' (l ++ [s]) /\ relinked (s :: l) ts ts'.
Proof.
  intros Hf [Hs Ht Hn] Hl Hsome.
  assert (Hr : 0 <= s < MAX_TASKS) by (destruct Hsome; rewrite <- Hf; by eapply task_at_range).
  assert (Hw : wrap 16 s = s) by (apply wrap_small; unfold in_width, MAX_TASKS in *; lia).
  assert (Hinv : s <> INVALID_SLOT) by (unfold INVALID_SLOT, MAX_TASKS in *; lia).
  unfold push_back. rewrite (sbind_ok _ _ _ _ _ (store_on q ts s _ Hsome)), Hw.
  set (ts1 := put_task s (set_next INVALID_SLOT) ts).
  assert (Hs1 : seg ts1 (head q) l INVALID_SLOT).
  { eapply seg_frame; [|exact Hs]. intros x Hx. unfold next_at, ts1. rewrite task_at_put.
    by rewrite decide_False by set_solver. }
  assert (Hn1 : next_at ts1 s = Some INVALID_SLOT).
  { unfold next_at, ts1. rewrite task_at_put, decide_True by done. destruct Hsome as [t ->]. done. }
  assert (Hrel : relinked (s :: l) ts ts1).
  { eapply relinked_mono; [|apply relinked_store]. set_solver. }
  cbn [sbind self]. rewrite Ht. destruct l as [|p l _] using rev_ind.
  - rewrite Z.eqb_refl. unfold sbind, set_self. eexists _, _. split; [reflexivity|]. split; [|done].
    constructor; [|done|apply NoDup_singleton]. cbn. split; [done|]. split; [done|]. eauto.
  - rewrite last_snoc. cbn [default]. destruct (seg_some _ _ _ _ p Hs1) as [Hp Hps]; [set_solver|].
    cbn [from_option]. unfold id. rewrite (proj2 (Z.eqb_neq _ _) Hp).
    assert (is_Some (task_at ts1 p)) by (unfold next_at in Hps; by destruct (task_at ts1 p); [|destruct Hps]).
    unfold sbind at 1. rewrite store_on by done. unfold set_self. eexists _, _. split; [reflexivity|].
    apply list.NoDup_app in Hn as (Hn & Hpl & _). split; [constructor|].
    + apply seg_app. exists s. cbn [head set_tail]. split.
      * apply (seg_last_set _ _ _ _ INVALID_SLOT); [done|]. intros Hin. apply (Hpl p Hin). set_solver.
      * split; [done|]. split; [done|]. exists INVALID_SLOT. split; [|done]. unfold next_at in *.
        rewrite task_at_put, decide_False by set_solver. done.
    + by rewrite last_snoc.
    + apply list.NoDup_app. split; [apply list.NoDup_app; split_and!; [done|done|apply NoDup_singleton]|].
      split; [set_solver|apply NoDup_singleton].
    + eapply relinked_trans; [done|]. eapply relinked_mono; [|apply relinked_store]. set_solver.
Qed.

Lemma pop_front_does q ts x l :
  queue_ok ts q (x :: l) ->
  exists q', pop_front (q, ts) = (Ok x, (q', ts)) /\ queue_ok ts q' l.
Proof.
  intros [(Hx & Hi & n & Hn & Hs) Ht Hnd]. unfold pop_front. cbn [sbind self]. rewrite Hx.
  rewrite (proj2 (Z.eqb_neq _ _) Hi). unfold next_at in Hn.
  destruct (task_at ts x) as [t|] eqn:E; [|done]. injection Hn as Hn.
  unfold sbind, sassert, sret, set_self. cbn [negb]. rewrite (slot_on _ _ _ _ E), Hn.
  apply NoDup_cons_1_2 in Hnd. destruct l as [|y l].
  - simpl in Hs. subst n. rewrite Hs, Z.eqb_refl. eexists. split; [reflexivity|]. by constructor.
  - destruct Hs as (-> & Hy & Hs). rewrite (proj2 (Z.eqb_neq _ _) Hy).
    eexists. split; [reflexivity|]. constructor; [by split|done|done].
Qed.

(** The list without its first accepted element. *)
Fixpoint take_first (p : Z -> bool) (l : list Z) : option (Z * list Z) :=
  match l with
  | [] => None
  | x :: l =>
      if p x then Some (x, l) else
      match take_first p l with Some (y, l') => Some (y, x :: l') | None => None end
  end.

Lemma take_first_spec p l :
  match take_first p l with
  | Some (x, l') => exists l1 l2, l = l1 ++ x :: l2 /\ l' = l1 ++ l2 /\ p x = true /\
      Forall (fun y => p y = false) l1
  | None => Forall (fun y => p y = false) l
  end.
Proof.
  induction l as [|x l IH]; [constructor|]. cbn [take_first]. destruct (p x) eqn:Ep.
  - exists [], l. by repeat split.
  - destruct (take_first p l) as [[y l']|]; [|by constructor].
    destruct IH as (l1 & l2 & -> & -> & Hy & Hl). exists (x :: l1), l2. repeat split; [done|].
    by constructor.
Qed.

Lemma last_ends (l1 : list Z) x l2 d : default d (list.last (l1 ++ x :: l2)) = default x (list.last l2).
Proof.
  induction l2 as [|y l2 _] using rev_ind; [by rewrite last_snoc|].
  rewrite app_comm_cons, app_assoc, last_snoc. by rewrite last_snoc.
Qed.

Section remove.
Variables (accepts : Z -> TM bool) (p : Z -> bool) (ts : Tasks).

(** The state when the cursor has passed [l1] and stands on [x]. *)
Lemma remove_here q l1 x l2 n :
  queue_ok ts q (l1 ++ x :: l2) -> next_at ts x = Some n -> seg ts n l2 INVALID_SLOT ->
  exists q' ts',
    ((if default INVALID_SLOT (list.last l1) =? INVALID_SLOT then set_self (set_head n)
      else on_tasks (store (default INVALID_SLOT (list.last l1)) (set_next n))) ;;;
     let! q := self in
     (if tail q =? x then set_self (set_tail (default INVALID_SLOT (list.last l1))) else sret tt) ;;;
     sret (E:=Empty_set) x) (q, ts) = (Ok x, (q', ts')) /\
    queue_ok ts' q' (l1 ++ l2) /\ relinked (l1 ++ x :: l2) ts ts'.
Proof.
  intros [Hs Ht Hnd] Hn Hs2. rewrite last_ends in Ht.
  assert (Hx : tail q =? x = bool_decide (l2 = [])).
  { rewrite Ht. destruct l2 as [|y l2 _] using rev_ind; [by rewrite Z.eqb_refl|].
    rewrite last_snoc, bool_decide_false by (by destruct l2). apply Z.eqb_neq. cbn. intros ->.
    apply list.NoDup_app in Hnd as (_ & _ & Hnd%NoDup_cons_1_1). set_solver. }
  assert (Hnd' : NoDup (l1 ++ l2)).
  { rewrite <- Permutation_middle in Hnd. by apply NoDup_cons_1_2 in Hnd. }
  apply seg_app in Hs as (m & Hs1 & Hm & _). subst m.
  assert (Htail : tail (if bool_decide (l2 = []) then set_tail (default INVALID_SLOT (list.last l1)) q else q)
    = default INVALID_SLOT (list.last (l1 ++ l2))).
  { case_bool_decide as E; [by rewrite E, app_nil_r|]. rewrite Ht.
    destruct l2 as [|y l2 _] using rev_ind; [done|]. by rewrite app_assoc, !last_snoc. }
  destruct l1 as [|z l1 _] using rev_ind.
  - change (default INVALID_SLOT (list.last [])) with INVALID_SLOT in *. rewrite Z.eqb_refl. unfold sbind, set_self, self, sret.
    change (tail (set_head n q)) with (tail q). rewrite Hx.
    destruct (bool_decide (l2 = [])); eexists _, ts; (split; [reflexivity|]);
      (split; [by constructor|apply relinked_refl]).
  - rewrite last_snoc in *. cbn [from_option] in *. unfold id in *.
    destruct (seg_some _ _ _ _ z Hs1) as [Hz Hzs]; [set_solver|].
    rewrite (proj2 (Z.eqb_neq _ _) Hz). unfold sbind at 1.
    rewrite store_on by (unfold next_at in Hzs; by destruct (task_at ts z); [|destruct Hzs]).
    unfold sbind, self, set_self, sret. rewrite Hx.
    assert (Hz1 : (z ∉ l1) /\ (z ∉ l2)).
    { rewrite <- app_assoc in Hnd'. apply list.NoDup_app in Hnd' as (_ & Hd & Hnd2).
      split; [|by apply NoDup_cons_1_1 in Hnd2]. intros Hin. apply (Hd z Hin). set_solver. }
    assert (queue_ok (put_task z (set_next n) ts)
      (if bool_decide (l2 = []) then set_tail z q else q) ((l1 ++ [z]) ++ l2)).
    { constructor; [|done|done]. apply seg_app. exists n. split.
      - destruct Hz1, (bool_decide (l2 = [])); by apply (seg_last_set _ _ _ _ x).
      - eapply seg_frame; [|exact Hs2]. intros y Hy. unfold next_at. rewrite task_at_put.
        rewrite decide_False by set_solver. done. }
    destruct (bool_decide (l2 = [])); eexists _, _; (split; [reflexivity|]); (split; [done|]);
      (eapply relinked_mono; [|apply relinked_store]; set_solver).
Qed.

Lemma remove_loop_does q l2 : forall fuel l1 c,
  queue_ok ts q (l1 ++ l2) -> seg ts c l2 INVALID_SLOT -> (length l2 < fuel)%nat ->
  (forall x, x ∈ l2 -> accepts x ts = (Ok (p x), ts)) ->
  exists q' ts', remove_loop fuel accepts (default INVALID_SLOT (list.last l1)) c (q, ts) =
      (Ok (match take_first p l2 with Some (x, _) => x | None => INVALID_SLOT end), (q', ts')) /\
    queue_ok ts' q' (l1 ++ match take_first p l2 with Some (_, l') => l' | None => l2 end) /\
    relinked (l1 ++ l2) ts ts' /\ (take_first p l2 = None -> q' = q /\ ts' = ts).
Proof.
  induction l2 as [|x l2 IH]; intros [|fuel] l1 c Hq Hs Hf Hp; simpl in Hf; try lia.
  - simpl in Hs. subst c. cbn [remove_loop]. rewrite Z.eqb_refl. eexists q, ts.
    split; [reflexivity|]. split; [done|]. split; [apply relinked_refl|done].
  - destruct Hs as (-> & Hx & n & Hn & Hs). cbn [remove_loop take_first].
    rewrite (proj2 (Z.eqb_neq _ _) Hx). pose proof Hn as Hn'. unfold next_at in Hn.
    destruct (task_at ts x) as [t|] eqn:E; [|done]. injection Hn as Hn.
    unfold sbind at 1. rewrite (slot_on _ _ _ _ E), Hn. unfold sbind at 1.
    rewrite (on_tasks_does _ _ _ _ _ (Hp x ltac:(set_solver))). destruct (p x).
    + destruct (remove_here q l1 x l2 n Hq Hn' Hs) as (q' & ts' & ? & ? & ?). by exists q', ts'.
    + destruct (IH fuel (l1 ++ [x]) n) as (q' & ts' & E1 & E2 & E3 & E4);
        [by rewrite <- app_assoc|done|lia|set_solver|].
      rewrite last_snoc in E1. cbn in E1. exists q', ts'. rewrite <- app_assoc in E3.
      destruct (take_first p l2) as [[y l']|]; split_and!; try done;
        try (by rewrite <- app_assoc in E2); intros _; by apply E4.
Qed.

Lemma remove_first_where_does q l :
  tasks_fit ts -> queue_ok ts q l -> (forall x, x ∈ l -> accepts x ts = (Ok (p x), ts)) ->
  exists q' ts', remove_first_where accepts (q, ts) =
      (Ok (match take_first p l with Some (x, _) => x | None => INVALID_SLOT end), (q', ts')) /\
    queue_ok ts' q' (match take_first p l with Some (_, l') => l' | None => l end) /\
    relinked l ts ts' /\ (take_first p l = None -> q' = q /\ ts' = ts).
Proof.
  intros Hf Hq Hp. unfold remove_first_where. cbn [sbind self].
  apply (remove_loop_does q l queue_fuel [] (head q)); [done|by destruct Hq|by eapply queue_short|done].
Qed.

End remove.

Lemma contains_loop_does ts q s l : forall fuel c,
  seg ts c l INVALID_SLOT -> (length l < fuel)%nat ->
  contains_loop fuel s c (q, ts) = (Ok (bool_decide (s ∈ l)), (q, ts)).
Proof.
  induction l as [|x l IH]; intros [|fuel] c Hs Hf; simpl in Hf; try lia.
  - simpl in Hs. subst c. done.
  - destruct Hs as (-> & Hx & n & Hn & Hs). cbn [contains_loop].
    rewrite (proj2 (Z.eqb_neq _ _) Hx). unfold next_at in Hn.
    destruct (task_at ts x) as [t|] eqn:E; [|done]. injection Hn as Hn.
    destruct (Z.eqb_spec x s) as [->|Hne].
    + rewrite bool_decide_true by set_solver. done.
    + unfold sbind. rewrite (slot_on _ _ _ _ E), Hn, (IH fuel n Hs) by lia.
      f_equal. f_equal. apply bool_decide_ext. rewrite elem_of_cons. naive_solver.
Qed.

Lemma queue_contains_does ts q s l :
  tasks_fit ts -> queue_ok ts q l ->
  queue_contains s (q, ts) = (Ok (bool_decide (s ∈ l)), (q, ts)).
Proof.
  intros Hf Hq. unfold queue_contains. cbn [sbind self]. apply contains_loop_does.
  - by destruct Hq.
  - by eapply queue_short.
Qed.

(** ** Tables *)

(** The element [f] takes out of the last list it can take one out of. *)
Fixpoint top (f : list Z -> option (Z * list Z)) (Q : list (list Z)) : option (Z * list (list Z)) :=
  match Q with
  | [] => None
  | l :: Q =>
      match top f Q with
      | Some (x, Q') => Some (x, l :: Q')
      | None => match f l with Some (x, l') => Some (x, l' :: Q) | None => None end
      end
  end.

Lemma top_none f Q : Forall (fun l => f l = None) Q -> top f Q = None.
Proof. induction 1 as [|l Q Hl _ IH]; [done|]. simpl. by rewrite IH, Hl. Qed.

Lemma top_some f Q : forall i l x l',
  Q !! i = Some l -> f l = Some (x, l') ->
  (forall j lj, (i < j)%nat -> Q !! j = Some lj -> f lj = None) ->
  top f Q = Some (x, <[i := l']> Q).
Proof.
  induction Q as [|k Q IH]; intros [|i] l x l' Hi Hf Hj; try done.
  - simpl in Hi. injection Hi as ->. simpl. rewrite top_none, Hf; [done|].
    apply Forall_lookup. intros j lj. apply (Hj (S j)). lia.
  - simpl in *. rewrite (IH i l x l' Hi Hf); [done|]. intros j lj Hlt. apply (Hj (S j)). lia.
Qed.

Lemma top_inv f Q x Q' : top f Q = Some (x, Q') ->
  exists i l l', Q !! i = Some l /\ f l = Some (x, l') /\ Q' = <[i := l']> Q /\
    forall j lj, (i < j)%nat -> Q !! j = Some lj -> f lj = None.
Proof.
  revert x Q'. induction Q as [|k Q IH]; intros x Q'; [done|]. simpl.
  destruct (top f Q) as [[y R]|] eqn:E.
  - intros [= -> <-]. destruct (IH _ _ eq_refl) as (i & l & l' & Hi & Hf & -> & Hj).
    exists (S i), l, l'. split_and!; [done..|]. intros [|j] lj Hlt; [lia|]. apply Hj. lia.
  - destruct (f k) as [[y l']|] eqn:Ef; [|done]. intros [= -> <-]. exists 0%nat, k, l'.
    split_and!; [done..|]. intros [|j] lj Hlt; [lia|]. intros Hj. simpl in Hj. clear IH.
    revert j E Hj Hlt. induction Q as [|m Q IH]; intros j E Hj Hlt; [done|]. simpl in E.
    destruct (top f Q) as [[??]|] eqn:E2; [done|]. destruct j as [|j].
    + injection Hj as ->. by destruct (f lj) as [[??]|].
    + apply (IH j); [done|done|lia].
Qed.

Definition uncons (l : list Z) : option (Z * list Z) :=
  match l with [] => None | x :: l => Some (x, l) end.

Definition filled (Q : list (list Z)) (i : nat) : bool :=
  match Q !! i with Some (_ :: _) => true | _ => false end.

(** The level lists of a table, apart from its bitmap. *)
Record levels_ok (ts : Tasks) (T : TaskSlotQueueTable) (Q : list (list Z)) : Prop := {
  lo_len : length (queues T) = Z.to_nat PRIORITY_LEVEL_COUNT;
  lo_len' : length Q = Z.to_nat PRIORITY_LEVEL_COUNT;
  lo_queues : forall i q l, queues T !! i = Some q -> Q !! i = Some l -> queue_ok ts q l;
  lo_nodup : NoDup (mjoin Q);
}.

Definition bits_ok (b : Z) (Q : list (list Z)) : Prop :=
  0 <= b /\ forall i : nat, Z.testbit b (Z.of_nat i) = filled Q i.

Record table_ok (ts : Tasks) (T : TaskSlotQueueTable) (Q : list (list Z)) : Prop := {
  tok_levels : levels_ok ts T Q;
  tok_bits : bits_ok (non_empty_levels T) Q;
}.

Lemma join_lookup (Q : list (list Z)) : forall i l, Q !! i = Some l ->
  mjoin Q ≡ₚ l ++ mjoin (base.delete i Q).
Proof.
  induction Q as [|k Q IH]; intros [|i] l; [done|done| |]; simpl.
  - by intros [= ->].
  - intros Hi. change (mjoin (k :: Q)) with (k ++ mjoin Q).
    change (mjoin (k :: base.delete i Q)) with (k ++ mjoin (base.delete i Q)).
    rewrite (IH i l Hi). rewrite !app_assoc. by rewrite (Permutation_app_comm k l).
Qed.

Lemma delete_insert_list {A} (Q : list A) : forall i l', base.delete i (<[i := l']> Q) = base.delete i Q.
Proof. induction Q as [|k Q IH]; intros [|i] l'; [done..|]. simpl. f_equal. apply IH. Qed.

Lemma join_insert (Q : list (list Z)) i l l' : Q !! i = Some l ->
  mjoin (<[i := l']> Q) ≡ₚ l' ++ mjoin (base.delete i Q).
Proof.
  intros Hi. rewrite (join_lookup (<[i := l']> Q) i l'), delete_insert_list; [done|].
  apply list_lookup_insert_eq. by eapply lookup_lt_Some.
Qed.

Lemma in_level (Q : list (list Z)) i l x : Q !! i = Some l -> x ∈ l -> x ∈ mjoin Q.
Proof. intros Hi Hx. rewrite (join_lookup Q i l Hi). set_solver. Qed.

Lemma levels_queue ts T Q i l : levels_ok ts T Q -> Q !! i = Some l ->
  exists q, queues T !! i = Some q /\ queue_ok ts q l.
Proof.
  intros [L L' Hq _] Hi. destruct (lookup_lt_is_Some_2 (queues T) i) as [q E].
  { apply lookup_lt_Some in Hi. lia. } exists q. split; [done|]. by eapply Hq.
Qed.

Lemma levels_frame D ts ts' T Q : relinked D ts ts' -> (forall x, x ∈ mjoin Q -> x ∉ D) ->
  levels_ok ts T Q -> levels_ok ts' T Q.
Proof.
  intros Hr Hd [L L' Hq Hn]. constructor; [done|done| |done]. intros i q l Hi Hl.
  eapply queue_frame; [done| |by eapply Hq]. intros x Hx. apply Hd. by eapply in_level.
Qed.

Lemma table_frame D ts ts' T Q : relinked D ts ts' -> (forall x, x ∈ mjoin Q -> x ∉ D) ->
  table_ok ts T Q -> table_ok ts' T Q.
Proof. intros Hr Hd [Hl Hb]. constructor; [by eapply levels_frame|done]. Qed.

(** One level changes, relinking its slots and others outside the table. *)
Lemma levels_update ts ts' T Q i l q' l' D b :
  levels_ok ts T Q -> Q !! i = Some l -> queue_ok ts' q' l' -> relinked D ts ts' ->
  (forall x, x ∈ D -> x ∈ l \/ x ∉ mjoin Q) ->
  (forall x, x ∈ l' -> x ∈ l \/ x ∉ mjoin Q) ->
  levels_ok ts' (mkTable (<[i := q']> (queues T)) b) (<[i := l']> Q).
Proof.
  intros [L L' Hq Hn] Hi Hok Hr Hd Hl'. pose proof (join_lookup Q i l Hi) as Hp.
  rewrite Hp in Hn. apply list.NoDup_app in Hn as (_ & Hdis & Hn).
  constructor; cbn [queues]; [by rewrite length_insert|by rewrite length_insert| |].
  - intros j q k Hj Hk. destruct (decide (i = j)) as [<-|Hij].
    + pose proof (lookup_lt_Some _ _ _ Hi). rewrite list_lookup_insert_eq in Hj by lia.
      rewrite list_lookup_insert_eq in Hk by lia. by simplify_eq.
    + rewrite list_lookup_insert_ne in Hj by done. rewrite list_lookup_insert_ne in Hk by done. eapply queue_frame; [done| |by eapply Hq].
      intros x Hx HxD. assert (Hxr : x ∈ mjoin (base.delete i Q)).
      { destruct (decide (j < i)%nat).
        - apply (in_level _ j k); [by rewrite list_lookup_delete_lt|done].
        - apply (in_level _ (pred j) k); [|done]. rewrite list_lookup_delete_ge by lia.
          by replace (S (pred j)) with j by lia. }
      destruct (Hd x HxD) as [Hxl|Hxn]; [by apply (Hdis x)|]. apply Hxn. rewrite Hp. set_solver.
  - rewrite (join_insert Q i l l' Hi). apply list.NoDup_app. split; [by destruct Hok|].
    split; [|done]. intros x Hx Hin. destruct (Hl' x Hx) as [Hxl|Hxn]; [by apply (Hdis x)|].
    apply Hxn. rewrite Hp. set_solver.
Qed.

Lemma filled_insert Q i l' j : (i < length Q)%nat ->
  filled (<[i := l']> Q) j = if decide (j = i) then negb (bool_decide (l' = [])) else filled Q j.
Proof.
  intros Hi. unfold filled. case_decide as E.
  - subst. rewrite list_lookup_insert_eq by done. by destruct l'.
  - by rewrite list_lookup_insert_ne.
Qed.

Lemma on_level_z {A} (m : QM SlotQueue A) T ts p q r q' ts' :
  queues T !! Z.to_nat p = Some q -> m (q, ts) = (r, (q', ts')) ->
  on_level p m (T, ts) =
    (r, (mkTable (<[Z.to_nat p := q']> (queues T)) (non_empty_levels T), ts')).
Proof. intros Hq Hm. unfold on_level. by rewrite Hq, Hm. Qed.

Lemma on_level_does {A} (m : QM SlotQueue A) T ts i q r q' ts' :
  queues T !! i = Some q -> m (q, ts) = (r, (q', ts')) ->
  on_level (Z.of_nat i) m (T, ts) =
    (r, (mkTable (<[i := q']> (queues T)) (non_empty_levels T), ts')).
Proof. intros Hq Hm. unfold on_level. by rewrite Nat2Z.id, Hq, Hm. Qed.

Lemma on_level_same {A} (m : QM SlotQueue A) T ts i q r :
  queues T !! i = Some q -> m (q, ts) = (r, (q, ts)) ->
  on_level (Z.of_nat i) m (T, ts) = (r, (T, ts)).
Proof.
  intros Hq Hm. rewrite (on_level_does _ _ _ _ _ _ _ _ Hq Hm), list_insert_id by done. by destruct T.
Qed.

(** [x] goes behind the others of level [p]. *)
Definition add_at (p : Z) (x : Z) (Q : list (list Z)) : list (list Z) :=
  alter (fun l => l ++ [x]) (Z.to_nat p) Q.

Lemma add_at_insert p x Q l : Q !! Z.to_nat p = Some l ->
  add_at p x Q = <[Z.to_nat p := l ++ [x]]> Q.
Proof.
  unfold add_at. generalize (Z.to_nat p). induction Q as [|k Q IH]; intros [|i]; [done..| |];
    simpl; [by intros [= ->]|]. intros Hi. f_equal. by apply IH.
Qed.

Lemma join_add p x Q : (Z.to_nat p < length Q)%nat -> mjoin (add_at p x Q) ≡ₚ x :: mjoin Q.
Proof.
  intros Hp. destruct (lookup_lt_is_Some_2 Q (Z.to_nat p) Hp) as [l Hl].
  rewrite (add_at_insert _ _ _ _ Hl), (join_insert _ _ _ _ Hl), (join_lookup _ _ _ Hl).
  rewrite <- app_assoc. cbn [app]. by rewrite <- Permutation_middle.
Qed.

Lemma join_top f Q x Q' :
  (forall l y l', f l = Some (y, l') -> l ≡ₚ y :: l') ->
  top f Q = Some (x, Q') -> mjoin Q ≡ₚ x :: mjoin Q'.
Proof.
  intros Hf Ht. destruct (top_inv _ _ _ _ Ht) as (i & l & l' & Hi & Hfl & -> & _).
  rewrite (join_insert Q i l l' Hi), (join_lookup _ _ _ Hi), (Hf _ _ _ Hfl). done.
Qed.

Lemma uncons_perm l y l' : uncons l = Some (y, l') -> l ≡ₚ y :: l'.
Proof. destruct l; [done|]. by intros [= -> ->]. Qed.

Lemma take_first_perm p l y l' : take_first p l = Some (y, l') -> l ≡ₚ y :: l'.
Proof.
  intros E. pose proof (take_first_spec p l) as H. rewrite E in H.
  destruct H as (l1 & l2 & -> & -> & _). by rewrite Permutation_middle.
Qed.

Lemma top_length f Q x Q' : top f Q = Some (x, Q') -> length Q' = length Q.
Proof. intros (i & l & l' & _ & _ & -> & _)%top_inv. by rewrite length_insert. Qed.

Lemma join_nil (Q : list (list Z)) : mjoin Q = [] <-> Forall (fun l => l = []) Q.
Proof.
  induction Q as [|l Q IH]; [by split; constructor|]. change (mjoin (l :: Q)) with (l ++ mjoin Q).
  rewrite list.Forall_cons, app_nil. by rewrite IH.
Qed.

Lemma uncons_none l : uncons l = None <-> l = [].
Proof. by destruct l. Qed.

Lemma top_uncons_none Q : top uncons Q = None <-> mjoin Q = [].
Proof.
  split; intros H.
  - destruct (decide (mjoin Q = [])) as [|Hne]; [done|exfalso]. revert H Hne.
    induction Q as [|l Q IH]; [done|]. simpl. destruct (top uncons Q) as [[??]|]; [done|].
    intros Hu Hne. destruct l; [|done]. by apply IH.
  - apply top_none. apply join_nil in H. revert H. apply List.Forall_impl. by intros l ->.
Qed.

Lemma push_does ts T Q s p :
  tasks_fit ts -> table_ok ts T Q -> 0 <= p <= MAX_PRIORITY -> (s ∉ mjoin Q) ->
  is_Some (task_at ts s) ->
  exists T' ts', push s p (T, ts) = (Ok tt, (T', ts')) /\
    table_ok ts' T' (add_at p s Q) /\ relinked (s :: mjoin Q) ts ts'.
Proof.
  intros Hf [Hl [Hb0 Hb]] Hp Hs Hsome. pose proof (lo_len' _ _ _ Hl) as L.
  destruct (lookup_lt_is_Some_2 Q (Z.to_nat p)) as [l Ei].
  { rewrite L. unfold PRIORITY_LEVEL_COUNT, MAX_PRIORITY in *. lia. }
  destruct (levels_queue _ _ _ _ _ Hl Ei) as (q & Eq & Hq).
  assert (Hsub : forall x, x ∈ l -> x ∈ mjoin Q) by (intros x; by apply in_level with (1 := Ei)).
  destruct (push_back_does q ts l s Hf Hq) as (q' & ts' & E & Hq' & Hr); [by intros ?%Hsub|done|].
  unfold push. rewrite (proj2 (Z.leb_le _ _)) by lia. unfold sbind, sassert, sret, set_self.
  rewrite (on_level_z _ _ _ _ _ _ _ _ Eq E). eexists _, ts'. split; [reflexivity|].
  rewrite (add_at_insert _ _ _ _ Ei). split; [constructor|].
  - eapply levels_update; [done..| |]; set_solver.
  - cbn [non_empty_levels]. rewrite Z.shiftl_1_l. split; [apply Z.lor_nonneg; lia|]. intros j.
    rewrite filled_insert by (by eapply lookup_lt_Some). cbn [set_levels non_empty_levels].
    rewrite Z.lor_spec, Hb, Z.pow2_bits_eqb by lia.
    case_decide as Ej.
    + subst j. rewrite (proj2 (Z.eqb_eq _ _)) by lia. rewrite orb_true_r. by destruct l.
    + rewrite (proj2 (Z.eqb_neq _ _)) by lia. apply orb_false_r.
  - eapply relinked_mono; [|done]. set_solver.
Qed.

(** After a level lost an element, its bit is cleared when nothing is left. *)
Lemma note_level_does ts T Q i l :
  levels_ok ts T Q -> Q !! i = Some l -> 0 <= non_empty_levels T ->
  (forall j : nat, Z.testbit (non_empty_levels T) (Z.of_nat j) =
    if decide (j = i) then true else filled Q j) ->
  exists T', note_level (Z.of_nat i) (T, ts) = (Ok tt, (T', ts)) /\ table_ok ts T' Q.
Proof.
  intros Hl Hi Hb0 Hb. destruct (levels_queue _ _ _ _ _ Hl Hi) as (q & Eq & Hq).
  unfold note_level, sbind. rewrite (on_level_same self T ts i q (Ok q) Eq) by done.
  assert (Hfi : filled Q i = negb (bool_decide (l = []))) by (unfold filled; rewrite Hi; by destruct l).
  pose proof (queue_head_nil _ _ _ Hq) as Hnil. destruct (Z.eqb_spec (head q) INVALID_SLOT) as [E|E].
  - unfold clear_level, set_self. eexists. split; [reflexivity|]. apply Hnil in E. subst l.
    constructor; [by destruct Hl|]. cbn [set_levels non_empty_levels]. rewrite Z.shiftl_1_l. split.
    + apply Z.ldiff_nonneg. by left.
    + intros j. rewrite Z.ldiff_spec, Hb, Z.pow2_bits_eqb by lia. case_decide as Ej.
      * subst. rewrite Z.eqb_refl, Hfi. done.
      * rewrite (proj2 (Z.eqb_neq _ _)) by lia. apply andb_true_r.
  - eexists. split; [reflexivity|]. constructor; [done|]. split; [done|]. intros j. rewrite Hb.
    case_decide as Ej; [|done]. subst. rewrite Hfi, bool_decide_false; [done|]. by intros ?%Hnil.
Qed.

Lemma is_empty_does ts T Q : table_ok ts T Q -> is_empty T = bool_decide (mjoin Q = []).
Proof.
  intros [Hl [Hb0 Hb]]. unfold is_empty. case_bool_decide as E.
  - apply Z.eqb_eq, Z.bits_inj_0. intros n. destruct (Z.leb_spec 0 n); [|by apply Z.testbit_neg_r].
    rewrite <- (Z2Nat.id n), Hb by done. unfold filled. destruct (Q !! _) as [l|] eqn:El; [|done].
    apply join_nil in E. by rewrite (proj1 (Forall_lookup _ _) E _ _ El).
  - apply Z.eqb_neq. intros H0. apply E, join_nil, Forall_lookup. intros i l Hi.
    specialize (Hb i). rewrite H0, Z.bits_0 in Hb. unfold filled in Hb. rewrite Hi in Hb. by destruct l.
Qed.

Lemma pop_does ts T Q x Q' :
  table_ok ts T Q -> top uncons Q = Some (x, Q') ->
  exists T', pop_highest_prio_oldest_task (T, ts) = (Ok x, (T', ts)) /\ table_ok ts T' Q'.
Proof.
  intros HT Ht. pose proof (is_empty_does _ _ _ HT) as Hemp. destruct HT as [Hl [Hb0 Hb]].
  rewrite bool_decide_false in Hemp by (intros ?%top_uncons_none; congruence).
  destruct (top_inv _ _ _ _ Ht) as (i & l & l' & Hi & Hu & -> & Hup).
  destruct l as [|y l]; [done|]. injection Hu as -> ->.
  assert (Hne : non_empty_levels T <> 0) by (by apply Z.eqb_neq).
  assert (Hlog : Z.log2 (non_empty_levels T) = Z.of_nat i).
  { apply Z.log2_bits_unique.
    - rewrite Hb. unfold filled. by rewrite Hi.
    - intros m Hm. rewrite <- (Z2Nat.id m), Hb by lia. unfold filled.
      destruct (Q !! Z.to_nat m) as [k|] eqn:Ek; [|done].
      assert (uncons k = None) as ->%uncons_none; [|done]. apply (Hup (Z.to_nat m)); [lia|done]. }
  assert (Hi8 : (i < 8)%nat) by (apply lookup_lt_Some in Hi; rewrite (lo_len' _ _ _ Hl) in Hi; exact Hi).
  destruct (levels_queue _ _ _ _ _ Hl Hi) as (q & Eq & Hq).
  destruct (pop_front_does _ _ _ _ Hq) as (q' & E & Hq').
  unfold pop_highest_prio_oldest_task. cbn [sbind self]. unfold sassert, sret.
  rewrite Hemp. cbn [negb]. unfold leading_zeros. rewrite (proj2 (Z.eqb_neq _ _) Hne), Hlog.
  unfold usub, sbind at 1, slift. rewrite (proj2 (Z.leb_le _ _)) by lia.
  replace (8 - 1 - (7 - Z.of_nat i)) with (Z.of_nat i) by lia.
  unfold sbind. rewrite (on_level_does _ _ _ _ _ _ _ _ Eq E).
  edestruct (note_level_does ts (mkTable (<[i:=q']> (queues T)) (non_empty_levels T)) (<[i:=l']> Q) i l')
    as (T' & En & HT'); cycle -1.
  - exists T'. rewrite En. done.
  - eapply (levels_update ts ts); [done..|apply (relinked_refl [])| |]; set_solver.
  - apply list_lookup_insert_eq. by eapply lookup_lt_Some.
  - done.
  - intros j. cbn [non_empty_levels]. rewrite Hb, filled_insert by (by eapply lookup_lt_Some).
    case_decide; [|done]. subst. unfold filled. by rewrite Hi.
Qed.

Definition cpu_free (ts : Tasks) (x : Z) : bool :=
  match task_at ts x with Some t => negb (on_cpu t) | None => false end.

Lemma not_on_cpu_does ts x : is_Some (task_at ts x) -> not_on_cpu x ts = (Ok (cpu_free ts x), ts).
Proof.
  intros [t E]. unfold not_on_cpu. rewrite (sbind_ok _ _ _ _ _ (slot_does _ _ _ E)).
  unfold cpu_free. by rewrite E.
Qed.

Lemma queue_tasks ts q l x : queue_ok ts q l -> x ∈ l -> is_Some (task_at ts x).
Proof. intros [Hs _ _] Hx. apply task_at_some. by eapply seg_bound. Qed.

Lemma table_tasks ts T Q x : levels_ok ts T Q -> x ∈ mjoin Q -> is_Some (task_at ts x).
Proof.
  intros Hl Hx. apply list_elem_of_join in Hx as (l & Hx & Hin).
  apply list_elem_of_lookup in Hin as [i Hi]. destruct (levels_queue _ _ _ _ _ Hl Hi) as (q & _ & Hq).
  by eapply queue_tasks.
Qed.

(** What a table loses when a task no CPU runs is taken. *)
Definition taken (ts : Tasks) (Q : list (list Z)) : option (Z * list (list Z)) :=
  top (take_first (cpu_free ts)) Q.

Lemma take_level_does ts T Q i l x l' :
  tasks_fit ts -> table_ok ts T Q -> Q !! i = Some l -> take_first (cpu_free ts) l = Some (x, l') ->
  exists T1 T' ts',
    on_level (Z.of_nat i) (remove_first_where not_on_cpu) (T, ts) = (Ok x, (T1, ts')) /\
    note_level (Z.of_nat i) (T1, ts') = (Ok tt, (T', ts')) /\
    table_ok ts' T' (<[i := l']> Q) /\ relinked (mjoin Q) ts ts'.
Proof.
  intros Hf [Hl [Hb0 Hb]] Hi Ht. destruct (levels_queue _ _ _ _ _ Hl Hi) as (q & Eq & Hq).
  destruct (remove_first_where_does not_on_cpu (cpu_free ts) ts q l Hf Hq) as (q' & ts' & E & Hq' & Hr & _).
  { intros y Hy. by eapply not_on_cpu_does, queue_tasks. }
  rewrite Ht in E, Hq'. rewrite (on_level_does _ _ _ _ _ _ _ _ Eq E).
  pose proof (take_first_perm _ _ _ _ Ht) as Hperm.
  assert (Hsub : forall y, y ∈ l -> y ∈ mjoin Q) by (intros y; by apply in_level with (1 := Hi)).
  edestruct (note_level_does ts' (mkTable (<[i:=q']> (queues T)) (non_empty_levels T)) (<[i:=l']> Q) i l')
    as (T' & En & HT'); cycle -1.
  - eexists _, T', ts'. split; [reflexivity|]. split; [exact En|]. split; [done|].
    eapply relinked_mono; [|done]. exact Hsub.
  - eapply (levels_update ts ts'); [done..| |]; [set_solver|]. intros y Hy. left. rewrite Hperm. set_solver.
  - apply list_lookup_insert_eq. by eapply lookup_lt_Some.
  - done.
  - intros j. cbn [non_empty_levels]. rewrite Hb, filled_insert by (by eapply lookup_lt_Some).
    case_decide; [|done]. subst. unfold filled. rewrite Hi. destruct l; [|done].
    by apply Permutation_nil_cons in Hperm.
Qed.

Lemma seq_rev_S n : rev (Z.of_nat <$> seq 0 (S n)) = Z.of_nat n :: rev (Z.of_nat <$> seq 0 n).
Proof. rewrite seq_S, fmap_app. simpl. by rewrite rev_app_distr. Qed.

Lemma task_not_invalid ts x : tasks_fit ts -> is_Some (task_at ts x) -> x <> INVALID_SLOT.
Proof.
  intros Hf [t Ht] ->. apply task_at_range in Ht. rewrite Hf in Ht.
  unfold INVALID_SLOT, MAX_TASKS in Ht. lia.
Qed.

Lemma take_loop_does ts T Q : tasks_fit ts -> table_ok ts T Q -> forall n,
  (n <= length Q)%nat ->
  (forall j lj, (n <= j)%nat -> Q !! j = Some lj -> take_first (cpu_free ts) lj = None) ->
  exists T' ts', take_loop (rev (Z.of_nat <$> seq 0 n)) (T, ts) =
      (Ok (match taken ts Q with Some (x, _) => x | None => INVALID_SLOT end), (T', ts')) /\
    table_ok ts' T' (match taken ts Q with Some (_, Q') => Q' | None => Q end) /\
    relinked (mjoin Q) ts ts' /\ (taken ts Q = None -> T' = T /\ ts' = ts).
Proof.
  intros Hf HT. induction n as [|n IH]; intros Hn Hup.
  - unfold taken. rewrite top_none; [|apply Forall_lookup; intros j lj; apply Hup; lia].
    exists T, ts. split; [done|]. split; [done|]. split; [apply relinked_refl|done].
  - destruct (lookup_lt_is_Some_2 Q n) as [l Hi]; [lia|]. rewrite seq_rev_S. cbn [take_loop].
    destruct (levels_queue _ _ _ _ _ (tok_levels _ _ _ HT) Hi) as (q & Eq & Hq).
    destruct (take_first (cpu_free ts) l) as [[x l']|] eqn:Et.
    + destruct (take_level_does _ _ _ _ _ _ _ Hf HT Hi Et) as (T1 & T' & ts' & E & En & HT' & Hr).
      assert (Hx : x <> INVALID_SLOT).
      { apply (task_not_invalid ts); [done|]. apply (queue_tasks _ _ _ _ Hq).
        rewrite (take_first_perm _ _ _ _ Et). set_solver. }
      unfold taken. rewrite (top_some _ _ _ _ _ _ Hi Et) by (intros; eapply Hup; [|done]; lia).
      exists T', ts'. unfold sbind. by rewrite E, (proj2 (Z.eqb_neq _ _) Hx), En.
    + destruct (remove_first_where_does not_on_cpu (cpu_free ts) ts q l Hf Hq) as (q' & ts' & E & _ & _ & Hsame).
      { intros y Hy. by eapply not_on_cpu_does, queue_tasks. }
      rewrite Et in E. destruct (Hsame Et) as [-> ->]. unfold sbind.
      rewrite (on_level_same _ _ _ _ _ _ Eq E), Z.eqb_refl. apply IH; [lia|].
      intros j lj Hj Hlj. destruct (decide (j = n)) as [->|]; [by simplify_eq|]. apply (Hup j); [lia|done].
Qed.

Lemma take_task_does ts T Q : tasks_fit ts -> table_ok ts T Q ->
  exists T' ts', take_task_not_currently_on_cpu (T, ts) =
      (Ok (match taken ts Q with Some (x, _) => x | None => INVALID_SLOT end), (T', ts')) /\
    table_ok ts' T' (match taken ts Q with Some (_, Q') => Q' | None => Q end) /\
    relinked (mjoin Q) ts ts' /\ (taken ts Q = None -> T' = T /\ ts' = ts).
Proof.
  intros Hf HT. pose proof (lo_len' _ _ _ (tok_levels _ _ _ HT)) as L.
  apply (take_loop_does ts T Q Hf HT 8); [by rewrite L|].
  intros j lj Hj Hlt%lookup_lt_Some. rewrite L in Hlt. change (j < 8)%nat in Hlt. lia.
Qed.

Lemma any_level_does ts T Q s n : tasks_fit ts -> table_ok ts T Q -> forall k,
  (k + n <= length Q)%nat ->
  any_level (queue_contains s) (Z.of_nat <$> seq k n) (T, ts) =
    (Ok (bool_decide (s ∈ mjoin (take n (drop k Q)))), (T, ts)).
Proof.
  intros Hf HT. induction n as [|n IH]; intros k Hk; [done|].
  destruct (lookup_lt_is_Some_2 Q k) as [l Hi]; [lia|].
  destruct (levels_queue _ _ _ _ _ (tok_levels _ _ _ HT) Hi) as (q & Eq & Hq).
  cbn [seq fmap list_fmap any_level]. unfold sbind.
  rewrite (on_level_same _ _ _ _ _ _ Eq (queue_contains_does _ _ s _ Hf Hq)).
  rewrite (drop_S _ _ _ Hi). cbn [take].
  change (mjoin (l :: take n (drop (S k) Q))) with (l ++ mjoin (take n (drop (S k) Q))).
  destruct (decide (s ∈ l)) as [Hs|Hs].
  - rewrite bool_decide_true by done. rewrite bool_decide_true by set_solver. done.
  - rewrite bool_decide_false by done. rewrite IH by lia. f_equal. f_equal.
    apply bool_decide_ext. set_solver.
Qed.

Lemma table_contains_does ts T Q s : tasks_fit ts -> table_ok ts T Q ->
  table_contains s (T, ts) = (Ok (bool_decide (s ∈ mjoin Q)), (T, ts)).
Proof.
  intros Hf HT. pose proof (lo_len' _ _ _ (tok_levels _ _ _ HT)) as L.
  unfold table_contains. change levels_up with (Z.of_nat <$> seq 0 8).
  rewrite (any_level_does ts T Q s 8 Hf HT 0) by (rewrite L; done).
  by rewrite drop_0, take_ge by (rewrite L; done).
Qed.

(** ** Run queues *)

(** The two tables of a run queue hold the level lists [E] and [Y], without a common slot. *)
Record rq_ok (ts : Tasks) (rq : CoreRunQueue) (E Y : list (list Z)) : Prop := {
  rq_executing : table_ok ts (executing_tasks rq) E;
  rq_yielding : table_ok ts (yielding_tasks rq) Y;
  rq_disjoint : forall x, x ∈ mjoin E -> x ∉ mjoin Y;
}.

Definition no_levels : list (list Z) := replicate (Z.to_nat PRIORITY_LEVEL_COUNT) [].

Lemma table_new_ok ts : table_ok ts table_new no_levels.
Proof.
  constructor; [constructor; try done|].
  - intros i q l Hq Hl. apply lookup_replicate in Hq as [-> _]. apply lookup_replicate in Hl as [-> _].
    by apply queue_nil.
  - constructor.
  - split; [done|]. intros i. cbn [table_new non_empty_levels]. rewrite Z.bits_0. unfold filled.
    destruct (no_levels !! i) as [l|] eqn:El; [|done]. by apply lookup_replicate in El as [-> _].
Qed.

Lemma rq_new_ok ts : rq_ok ts run_queue_new no_levels no_levels.
Proof. constructor; [apply table_new_ok|apply table_new_ok|]. intros x. set_solver. Qed.

(** Operations elsewhere leave the queue alone. *)
Lemma rq_frame D ts ts' rq E Y : relinked D ts ts' ->
  (forall x, x ∈ mjoin E ++ mjoin Y -> x ∉ D) -> rq_ok ts rq E Y -> rq_ok ts' rq E Y.
Proof.
  intros Hr Hd [HE HY Hx]. constructor; [| |done]; eapply table_frame; try done; set_solver.
Qed.

Lemma push_executing_does ts rq E Y s p :
  tasks_fit ts -> rq_ok ts rq E Y -> 0 <= p <= MAX_PRIORITY -> (s ∉ mjoin E ++ mjoin Y) ->
  is_Some (task_at ts s) ->
  exists rq' ts', push_executing_task s p (rq, ts) = (Ok tt, (rq', ts')) /\
    rq_ok ts' rq' (add_at p s E) Y /\ relinked (s :: mjoin E ++ mjoin Y) ts ts' /\
    sleeping_tasks rq' = sleeping_tasks rq /\ sleeping_tasks_count rq' = sleeping_tasks_count rq.
Proof.
  intros Hf [HE HY Hx] Hp Hs Hsome.
  destruct (push_does ts _ E s p Hf HE Hp) as (T & ts' & Eq & HT & Hr); [set_solver|done|].
  unfold push_executing_task, on_executing. rewrite Eq. eexists _, ts'. split; [reflexivity|].
  split; [constructor; cbn; [done| |]|].
  - eapply table_frame; [done| |done]. intros y Hy [->|HyE]%elem_of_cons; [set_solver|]. by apply (Hx y).
  - intros y. rewrite join_add; [set_solver|]. rewrite (lo_len' _ _ _ (tok_levels _ _ _ HE)).
    unfold PRIORITY_LEVEL_COUNT, MAX_PRIORITY in *. lia.
  - split; [|done]. eapply relinked_mono; [|done]. set_solver.
Qed.

(** The run queue with its tables exchanged: the yielding side by symmetry. *)
Lemma rq_swap ts rq E Y : rq_ok ts rq E Y -> rq_ok ts (swap_tables rq) Y E.
Proof. intros [HE HY Hx]. constructor; [done|done|]. set_solver. Qed.

Lemma on_yielding_swap {A} (m : QM TaskSlotQueueTable A) rq ts r rq' ts' :
  on_executing m (swap_tables rq, ts) = (r, (rq', ts')) ->
  on_yielding m (rq, ts) = (r, (swap_tables rq', ts')).
Proof.
  unfold on_executing, on_yielding. cbn. destruct (m (yielding_tasks rq, ts)) as [r' [T t]].
  by intros [= <- <- <-].
Qed.

Lemma push_yielding_does ts rq E Y s p :
  tasks_fit ts -> rq_ok ts rq E Y -> 0 <= p <= MAX_PRIORITY -> (s ∉ mjoin E ++ mjoin Y) ->
  is_Some (task_at ts s) ->
  exists rq' ts', push_yielding_task s p (rq, ts) = (Ok tt, (rq', ts')) /\
    rq_ok ts' rq' E (add_at p s Y) /\ relinked (s :: mjoin E ++ mjoin Y) ts ts' /\
    sleeping_tasks rq' = sleeping_tasks rq /\ sleeping_tasks_count rq' = sleeping_tasks_count rq.
Proof.
  intros Hf Hok Hp Hs Hsome.
  destruct (push_executing_does ts (swap_tables rq) Y E s p Hf (rq_swap _ _ _ _ Hok) Hp)
    as (rq' & ts' & Eq & Hok' & Hr & ? & ?); [set_solver|done|].
  exists (swap_tables rq'), ts'. split; [by apply on_yielding_swap|]. split; [by apply rq_swap|].
  split; [|done]. eapply relinked_mono; [|done]. set_solver.
Qed.

(** What [pick_next_task] does to the level lists. *)
Definition pick (E Y : list (list Z)) : Z * (list (list Z) * list (list Z)) :=
  match top uncons E with
  | Some (x, E') => (x, (E', Y))
  | None =>
      match top uncons Y with
      | Some (x, Y') => (x, (Y', E))
      | None => (INVALID_SLOT, (E, Y))
      end
  end.

Lemma pick_executing_does ts rq E Y x E' :
  rq_ok ts rq E Y -> top uncons E = Some (x, E') ->
  exists rq', on_executing pop_highest_prio_oldest_task (rq, ts) = (Ok x, (rq', ts)) /\
    rq_ok ts rq' E' Y /\
    sleeping_tasks rq' = sleeping_tasks rq /\ sleeping_tasks_count rq' = sleeping_tasks_count rq.
Proof.
  intros [HE HY Hx] Ht. destruct (pop_does _ _ _ _ _ HE Ht) as (T & Eq & HT).
  unfold on_executing. rewrite Eq. eexists. split; [reflexivity|]. split; [|done].
  constructor; [done|done|]. intros y Hy. apply Hx. rewrite (join_top _ _ _ _ uncons_perm Ht). set_solver.
Qed.

Lemma pick_next_task_does ts rq E Y :
  rq_ok ts rq E Y ->
  exists rq', pick_next_task (rq, ts) = (Ok (pick E Y).1, (rq', ts)) /\
    rq_ok ts rq' (pick E Y).2.1 (pick E Y).2.2 /\
    sleeping_tasks rq' = sleeping_tasks rq /\ sleeping_tasks_count rq' = sleeping_tasks_count rq.
Proof.
  intros Hok. unfold pick_next_task, pick. cbn [sbind self].
  rewrite (is_empty_does _ _ _ (rq_executing _ _ _ _ Hok)), (is_empty_does _ _ _ (rq_yielding _ _ _ _ Hok)).
  destruct (top uncons E) as [[x E']|] eqn:Et.
  - rewrite bool_decide_false by (intros ?%top_uncons_none; congruence).
    destruct (pick_executing_does _ _ _ _ _ _ Hok Et) as (rq' & ? & ? & ?). by exists rq'.
  - rewrite bool_decide_true by by apply top_uncons_none. destruct (top uncons Y) as [[x Y']|] eqn:Ey.
    + rewrite bool_decide_false by (intros ?%top_uncons_none; congruence).
      destruct (pick_executing_does _ _ _ _ _ _ (rq_swap _ _ _ _ Hok) Ey) as (rq' & ? & ? & ?).
      by exists rq'.
    + rewrite bool_decide_true by by apply top_uncons_none. by exists rq.
Qed.

(** What [take_stealable_task] does to the level lists. *)
Definition steal (ts : Tasks) (E Y : list (list Z)) : Z * (list (list Z) * list (list Z)) :=
  match taken ts E with
  | Some (x, E') => (x, (E', Y))
  | None =>
      match taken ts Y with
      | Some (x, Y') => (x, (E, Y'))
      | None => (INVALID_SLOT, (E, Y))
      end
  end.

Lemma steal_executing_does ts rq E Y :
  tasks_fit ts -> rq_ok ts rq E Y ->
  exists rq' ts', on_executing take_task_not_currently_on_cpu (rq, ts) =
      (Ok (match taken ts E with Some (x, _) => x | None => INVALID_SLOT end), (rq', ts')) /\
    rq_ok ts' rq' (match taken ts E with Some (_, E') => E' | None => E end) Y /\
    relinked (mjoin E) ts ts' /\ (taken ts E = None -> rq' = rq /\ ts' = ts) /\
    sleeping_tasks rq' = sleeping_tasks rq /\ sleeping_tasks_count rq' = sleeping_tasks_count rq.
Proof.
  intros Hf [HE HY Hx]. destruct (take_task_does _ _ _ Hf HE) as (T & ts' & Eq & HT & Hr & Hsame).
  unfold on_executing. rewrite Eq. eexists _, ts'. split; [reflexivity|]. split; [constructor; cbn|].
  - done.
  - eapply table_frame; [done| |done]. intros y Hy HyE. by apply (Hx y).
  - destruct (taken ts E) as [[x E']|] eqn:Et; [|done]. intros y Hy. apply Hx.
    rewrite (join_top _ _ _ _ (take_first_perm _) Et). set_solver.
  - split; [done|]. split; [|done]. intros Hn. destruct (Hsame Hn) as [-> ->]. by destruct rq.
Qed.

Lemma taken_elem ts Q x Q' : taken ts Q = Some (x, Q') -> x ∈ mjoin Q.
Proof. intros Ht. rewrite (join_top _ _ _ _ (take_first_perm _) Ht). set_solver. Qed.

Lemma take_stealable_does ts rq E Y :
  tasks_fit ts -> rq_ok ts rq E Y ->
  exists rq' ts', take_stealable_task (rq, ts) = (Ok (steal ts E Y).1, (rq', ts')) /\
    rq_ok ts' rq' (steal ts E Y).2.1 (steal ts E Y).2.2 /\
    relinked (mjoin E ++ mjoin Y) ts ts' /\
    sleeping_tasks rq' = sleeping_tasks rq /\ sleeping_tasks_count rq' = sleeping_tasks_count rq.
Proof.
  intros Hf Hok. destruct (steal_executing_does _ _ _ _ Hf Hok)
    as (rq1 & ts1 & E1 & Hok1 & Hr1 & Hsame & Hsl & Hsc).
  unfold take_stealable_task, steal. rewrite (sbind_ok _ _ _ _ _ E1).
  destruct (taken ts E) as [[x E']|] eqn:Et.
  - rewrite (proj2 (Z.eqb_neq _ _)); cycle 1.
    { apply (task_not_invalid ts); [done|]. eapply table_tasks; [apply (rq_executing _ _ _ _ Hok)|].
      by eapply taken_elem. }
    exists rq1, ts1. split_and!; try done. eapply relinked_mono; [|done]. set_solver.
  - rewrite Z.eqb_refl. cbn [negb]. destruct (Hsame eq_refl) as [-> ->].
    destruct (steal_executing_does ts _ _ _ Hf (rq_swap _ _ _ _ Hok))
      as (rq2 & ts2 & E2 & Hok2 & Hr2 & _ & ? & ?).
    exists (swap_tables rq2), ts2. rewrite (on_yielding_swap _ _ _ _ _ _ E2).
    apply rq_swap in Hok2. destruct (taken ts Y) as [[x Y']|]; split_and!; try done;
      (eapply relinked_mono; [|done]; set_solver).
Qed.

Lemma contains_does ts rq E Y s :
  tasks_fit ts -> rq_ok ts rq E Y ->
  contains s (rq, ts) = (Ok (bool_decide (s ∈ mjoin E ++ mjoin Y)), (rq, ts)).
Proof.
  intros Hf [HE HY Hx]. unfold contains, on_executing, on_yielding, sbind.
  rewrite (table_contains_does _ _ _ s Hf HE). destruct rq as [a b c d]; cbn.
  destruct (decide (s ∈ mjoin E)).
  - rewrite !bool_decide_true by set_solver. done.
  - rewrite (bool_decide_false (s ∈ mjoin E)) by done. rewrite (table_contains_does _ _ _ s Hf HY).
    f_equal. f_equal. apply bool_decide_ext. set_solver.
Qed.
