(* ===== verification/RunQueueSpec.v ===== *)
(** * RunQueueSpec: the contract of the run queues

    The refinement of priority queues by any run of the operations, the order in which
    tasks take turns, and the upkeep of the sleeping tasks. *)

From Stdlib Require Import ZArith Lia.
From stdpp Require Import base tactics list option numbers sets gmap.
From S2P Require Import Prelude Tasks RunQueue RunQueueOk.

Open Scope rust_scope.

(** ** Runs of operations *)

(** A call on the run queue of a core, or another core flipping the [on_cpu] flag of a
    slot. *)
Inductive rq_op : Type :=
  | OpExecuting (slot priority : Z)
  | OpYielding (slot priority : Z)
  | OpPick
  | OpSteal
  | OpContains (slot : Z)
  | OpCpu (slot : Z) (busy : bool).

Definition rq_step (o : rq_op) : QM CoreRunQueue Z :=
  match o with
  | OpExecuting s p => push_executing_task s p ;;; sret 0
  | OpYielding s p => push_yielding_task s p ;;; sret 0
  | OpPick => pick_next_task
  | OpSteal => take_stealable_task
  | OpContains s => let! b := contains s in sret (Z.b2z b)
  | OpCpu s b => on_tasks (store s (set_on_cpu b)) ;;; sret 0
  end.

Fixpoint rq_steps (os : list rq_op) : QM CoreRunQueue (list Z) :=
  match os with
  | [] => sret []
  | o :: os => let! r := rq_step o in let! rs := rq_steps os in sret (r :: rs)
  end.

(** The specification: two priority queues of slots and the set of slots a CPU runs. *)
Record rq_spec : Type := mkSpec {
  now : list (list Z);
  later : list (list Z);
  busy : gset Z;
}.

(** The last priority level with a slot that is not busy gives its first such slot. *)
Definition idle_first (b : gset Z) (Q : list (list Z)) : option (Z * list (list Z)) :=
  top (take_first (fun x => bool_decide (x ∉ b))) Q.

Definition spec_step (o : rq_op) (s : rq_spec) : Z * rq_spec :=
  match o with
  | OpExecuting x p => (0, mkSpec (add_at p x (now s)) (later s) (busy s))
  | OpYielding x p => (0, mkSpec (now s) (add_at p x (later s)) (busy s))
  | OpPick => let '(x, (E, Y)) := pick (now s) (later s) in (x, mkSpec E Y (busy s))
  | OpSteal =>
      match idle_first (busy s) (now s) with
      | Some (x, E) => (x, mkSpec E (later s) (busy s))
      | None =>
          match idle_first (busy s) (later s) with
          | Some (x, Y) => (x, mkSpec (now s) Y (busy s))
          | None => (INVALID_SLOT, s)
          end
      end
  | OpContains x => (Z.b2z (bool_decide (x ∈ mjoin (now s) ++ mjoin (later s))), s)
  | OpCpu x b => (0, mkSpec (now s) (later s) (if b then {[x]} ∪ busy s else busy s ∖ {[x]}))
  end.

Fixpoint spec_steps (os : list rq_op) (s : rq_spec) : list Z :=
  match os with
  | [] => []
  | o :: os => let '(r, s') := spec_step o s in r :: spec_steps os s'
  end.

(** Only slots that are not queued are queued, at a priority there is. *)
Definition legal (o : rq_op) (s : rq_spec) : Prop :=
  match o with
  | OpExecuting x p | OpYielding x p =>
      0 <= x < MAX_TASKS /\ 0 <= p <= MAX_PRIORITY /\ (x ∉ mjoin (now s) ++ mjoin (later s))
  | OpCpu x _ => 0 <= x < MAX_TASKS
  | _ => True
  end.

Fixpoint legal_run (os : list rq_op) (s : rq_spec) : Prop :=
  match os with
  | [] => True
  | o :: os => legal o s /\ legal_run os (spec_step o s).2
  end.

Record represents (ts : Tasks) (rq : CoreRunQueue) (s : rq_spec) : Prop := {
  rep_fit : tasks_fit ts;
  rep_rq : rq_ok ts rq (now s) (later s);
  rep_busy : forall x t, task_at ts x = Some t -> on_cpu t = bool_decide (x ∈ busy s);
}.

Lemma fit_relinked D ts ts' : relinked D ts ts' -> tasks_fit ts -> tasks_fit ts'.
Proof. unfold tasks_fit. intros Hr. by rewrite (relinked_len _ _ _ Hr). Qed.

Lemma busy_relinked D ts ts' (b : gset Z) : relinked D ts ts' ->
  (forall x t, task_at ts x = Some t -> on_cpu t = bool_decide (x ∈ b)) ->
  forall x t, task_at ts' x = Some t -> on_cpu t = bool_decide (x ∈ b).
Proof.
  intros Hr Hb x t E. destruct (task_at_some ts x) as [u Hu].
  { rewrite <- (relinked_len _ _ _ Hr). by eapply task_at_range. }
  destruct (relinked_at _ _ _ _ _ Hr Hu) as [n En]. simplify_eq. by rewrite <- (Hb x u).
Qed.

Lemma top_ext f g Q : (forall l, l ∈ Q -> f l = g l) -> top f Q = top g Q.
Proof.
  induction Q as [|l Q IH]; intros H; [done|]. simpl. rewrite IH by set_solver.
  by rewrite (H l) by set_solver.
Qed.

Lemma take_first_ext p q l : (forall x, x ∈ l -> p x = q x) -> take_first p l = take_first q l.
Proof.
  induction l as [|x l IH]; intros H; [done|]. simpl. rewrite (H x), IH by set_solver. done.
Qed.

Lemma taken_idle ts T Q (b : gset Z) : table_ok ts T Q ->
  (forall x t, task_at ts x = Some t -> on_cpu t = bool_decide (x ∈ b)) ->
  taken ts Q = idle_first b Q.
Proof.
  intros HT Hb. apply top_ext. intros l Hl. apply take_first_ext. intros x Hx.
  destruct (table_tasks ts T Q x) as [t Ht]; [by destruct HT| |].
  { apply list_elem_of_join. eauto. }
  unfold cpu_free. rewrite Ht, (Hb _ _ Ht). repeat case_bool_decide; done.
Qed.

(** A store to [on_cpu] is none of the queues' business. *)
Lemma cpu_next ts i b x : next_at (put_task i (set_on_cpu b) ts) x = next_at ts x.
Proof. unfold next_at. rewrite task_at_put. case_decide; [|done]. by destruct (task_at ts x). Qed.

Lemma queue_same_next ts ts' q l : (forall x, x ∈ l -> next_at ts' x = next_at ts x) ->
  queue_ok ts q l -> queue_ok ts' q l.
Proof. intros Hn [Hs Ht Hd]. constructor; [|done|done]. eapply seg_frame; [|exact Hs]. done. Qed.

Lemma rq_same_next ts ts' rq E Y :
  (forall x, x ∈ mjoin E ++ mjoin Y -> next_at ts' x = next_at ts x) ->
  rq_ok ts rq E Y -> rq_ok ts' rq E Y.
Proof.
  intros Hn [[[L L' Hq Hd] Hb] [[M M' Hq' Hd'] Hb'] Hx].
  constructor; [| |done]; (constructor; [|done]); constructor; try done;
    intros i q l Hi Hl; (eapply queue_same_next; [|by eauto]); intros x Hxl; apply Hn;
    apply elem_of_app; [left|right]; by eapply in_level.
Qed.

Lemma represents_step o ts rq s :
  represents ts rq s -> legal o s ->
  exists rq' ts', rq_step o (rq, ts) = (Ok (spec_step o s).1, (rq', ts')) /\
    represents ts' rq' (spec_step o s).2.
Proof.
  intros [Hf Hrq Hb] Hl. destruct o as [x p|x p| | |x|x b]; cbn [legal rq_step spec_step] in *.
  - destruct Hl as (Hx & Hp & Hn).
    destruct (push_executing_does ts rq _ _ x p Hf Hrq Hp Hn) as (rq' & ts' & E & Hok & Hr & _);
      [apply task_at_some; rewrite Hf; lia|].
    exists rq', ts'. rewrite (sbind_ok _ _ _ _ _ E). split; [done|].
    constructor; [by eapply fit_relinked|done|by eapply busy_relinked].
  - destruct Hl as (Hx & Hp & Hn).
    destruct (push_yielding_does ts rq _ _ x p Hf Hrq Hp Hn) as (rq' & ts' & E & Hok & Hr & _);
      [apply task_at_some; rewrite Hf; lia|].
    exists rq', ts'. rewrite (sbind_ok _ _ _ _ _ E). split; [done|].
    constructor; [by eapply fit_relinked|done|by eapply busy_relinked].
  - destruct (pick_next_task_does ts rq _ _ Hrq) as (rq' & E & Hok & _).
    destruct (pick (now s) (later s)) as [y [E' Y']]. by exists rq', ts.
  - destruct (take_stealable_does ts rq _ _ Hf Hrq) as (rq' & ts' & E & Hok & Hr & _).
    unfold steal in *. rewrite (taken_idle ts _ _ _ (rq_executing _ _ _ _ Hrq) Hb) in *.
    rewrite (taken_idle ts _ _ _ (rq_yielding _ _ _ _ Hrq) Hb) in *.
    exists rq', ts'. pose proof (fit_relinked _ _ _ Hr Hf). pose proof (busy_relinked _ _ _ _ Hr Hb).
    by destruct (idle_first (busy s) (now s)) as [[??]|]; [|destruct (idle_first (busy s) (later s)) as [[??]|]].
  - exists rq, ts. by rewrite (sbind_ok _ _ _ _ _ (contains_does ts rq _ _ x Hf Hrq)).
  - exists rq, (put_task x (set_on_cpu b) ts). unfold sbind.
    rewrite store_on by (apply task_at_some; rewrite Hf; lia). split; [done|]. constructor; cbn.
    + unfold tasks_fit, zlen. by rewrite length_put_task.
    + eapply rq_same_next; [intros; apply cpu_next|done].
    + intros y t. rewrite task_at_put. case_decide as E; [subst|].
      * intros Ht. destruct (task_at ts x) as [u|]; [|done]. simplify_eq/=.
        destruct b; symmetry; [apply bool_decide_true|apply bool_decide_false]; set_solver.
      * intros Ht. rewrite (Hb y t Ht). apply bool_decide_ext. destruct b; set_solver.
Qed.

(** C16: a run queue is a pair of priority queues: whatever tasks are queued, picked, taken
    by other cores and looked up, in any order, the linked lists threaded through the task
    slots, their bitmaps and the exchange of the two tables answer what the pair of lists
    per priority answers, oldest of the highest priority first, and nothing panics. *)
Theorem run_queue_refines ts (b : gset Z) os :
  tasks_fit ts -> (forall x t, task_at ts x = Some t -> on_cpu t = bool_decide (x ∈ b)) ->
  legal_run os (mkSpec no_levels no_levels b) ->
  exists rq ts', rq_steps os (run_queue_new, ts) =
    (Ok (spec_steps os (mkSpec no_levels no_levels b)), (rq, ts')).
Proof.
  intros Hf Hb. assert (represents ts run_queue_new (mkSpec no_levels no_levels b)) as Hrep
    by (constructor; [done|apply rq_new_ok|done]).
  revert Hrep. generalize (mkSpec no_levels no_levels b) run_queue_new. clear Hf Hb. revert ts.
  induction os as [|o os IH]; intros ts s rq Hrep Hl; [by exists rq, ts|].
  destruct Hl as [Ho Hl]. destruct (represents_step o ts rq s Hrep Ho) as (rq1 & ts1 & E & Hrep1).
  destruct (IH ts1 _ rq1 Hrep1 Hl) as (rq2 & ts2 & E2). exists rq2, ts2.
  cbn [rq_steps spec_steps]. destruct (spec_step o s) as [r s']. cbn in *.
  by rewrite (sbind_ok _ _ _ _ _ E), (sbind_ok _ _ _ _ _ E2).
Qed.

(** ** Turns *)

(** A core picks a task, which runs until its slice is used up. *)
Fixpoint turns (n : nat) : QM CoreRunQueue (list Z) :=
  match n with
  | O => sret []
  | S n =>
      let! s := pick_next_task in
      let! t := on_tasks (slot s) in
      push_yielding_task s (priority t) ;;;
      let! r := turns n in sret (s :: r)
  end.

(** Highest priority first, oldest first within one. *)
Definition order (Q : list (list Z)) : list Z := mjoin (rev Q).

(** Level by level, the slots of [Y] before those of [E]. *)
Definition merged (Y E : list (list Z)) : list (list Z) := zip_with app Y E.

Definition prios (ts : Tasks) (Q : list (list Z)) : Prop :=
  forall i l x, Q !! i = Some l -> x ∈ l ->
    exists t, task_at ts x = Some t /\ priority t = Z.of_nat i.

Lemma order_perm Q : order Q ≡ₚ mjoin Q.
Proof.
  unfold order. induction Q as [|l Q IH]; [done|]. simpl rev. rewrite join_app, IH.
  change (mjoin (l :: Q)) with (l ++ mjoin Q). change (mjoin [l]) with (l ++ []).
  by rewrite app_nil_r, Permutation_app_comm.
Qed.

Lemma join_none n : mjoin (replicate n []) = ([] : list Z).
Proof. induction n; [done|]. by simpl. Qed.

Lemma order_top Q x Q' : top uncons Q = Some (x, Q') -> order Q = x :: order Q'.
Proof.
  unfold order. revert x Q'. induction Q as [|l Q IH]; intros x Q'; [done|]. simpl.
  rewrite join_app. destruct (top uncons Q) as [[y R]|] eqn:E.
  - intros [= -> <-]. simpl. by rewrite join_app, (IH _ _ eq_refl).
  - apply top_uncons_none in E. destruct l as [|y l]; [done|]. simpl. intros [= -> <-]. simpl.
    rewrite join_app. assert (mjoin (rev Q) = []) as ->; [|done].
    apply Permutation_nil. symmetry. etransitivity; [apply order_perm|]. by rewrite E.
Qed.

Lemma merged_top Y E x E' i : length Y = length E ->
  top uncons E = Some (x, E') -> (forall j l, E !! j = Some l -> x ∈ l -> j = i) ->
  merged (add_at (Z.of_nat i) x Y) E' = merged Y E.
Proof.
  intros L Ht Hi. destruct (top_inv _ _ _ _ Ht) as (k & l & l' & Hk & Hu & -> & _).
  destruct l as [|y l]; [done|]. injection Hu as -> ->.
  rewrite <- (Hi k (x :: l') Hk) by set_solver. clear Hi Ht.
  destruct (lookup_lt_is_Some_2 Y k) as [m Hm]; [rewrite L; by eapply lookup_lt_Some|].
  rewrite (add_at_insert _ _ _ m), Nat2Z.id by (by rewrite Nat2Z.id). unfold merged.
  apply list_eq. intros j. rewrite !lookup_zip_with. destruct (decide (j = k)) as [->|Hj].
  - pose proof (lookup_lt_Some _ _ _ Hk). rewrite !list_lookup_insert_eq, Hm, Hk by lia. cbn.
    by rewrite <- app_assoc.
  - by rewrite !list_lookup_insert_ne by done.
Qed.

Lemma merged_none Y : length Y = Z.to_nat PRIORITY_LEVEL_COUNT -> merged Y no_levels = Y.
Proof.
  intros L. unfold merged, no_levels. apply list_eq. intros j. rewrite lookup_zip_with.
  destruct (Y !! j) as [l|] eqn:E; [|done]. rewrite lookup_replicate_2; [cbn; by rewrite app_nil_r|].
  apply lookup_lt_Some in E. lia.
Qed.

Lemma merged_none_l Y : length Y = Z.to_nat PRIORITY_LEVEL_COUNT -> merged no_levels Y = Y.
Proof.
  intros L. unfold merged, no_levels. apply list_eq. intros j. rewrite lookup_zip_with.
  destruct (Y !! j) as [l|] eqn:E.
  - rewrite lookup_replicate_2; [done|]. apply lookup_lt_Some in E. lia.
  - apply lookup_ge_None in E. by rewrite lookup_ge_None_2 by (rewrite length_replicate; lia).
Qed.

Lemma merged_perm Y : forall E, length Y = length E -> mjoin (merged Y E) ≡ₚ mjoin E ++ mjoin Y.
Proof.
  induction Y as [|y Y IH]; intros [|e E] L; simplify_eq/=; [done|].
  unfold mjoin, list_join in *. simpl. unfold merged in IH. rewrite (IH E) by done. solve_Permutation.
Qed.

Lemma join_nil_levels Q : length Q = Z.to_nat PRIORITY_LEVEL_COUNT -> mjoin Q = [] -> Q = no_levels.
Proof.
  intros L HQ%join_nil. unfold no_levels. rewrite <- L. symmetry. apply replicate_as_Forall.
  split; [done|]. revert HQ. by apply List.Forall_impl.
Qed.

Lemma prios_relinked D ts ts' Q : relinked D ts ts' -> prios ts Q -> prios ts' Q.
Proof.
  intros Hr Hp i l x Hi Hx. destruct (Hp i l x Hi Hx) as (t & Ht & Hpt).
  destruct (relinked_at _ _ _ _ _ Hr Ht) as [n Hn]. by eexists.
Qed.

Lemma prios_add ts Q x t : task_at ts x = Some t -> 0 <= priority t -> prios ts Q ->
  prios ts (add_at (priority t) x Q).
Proof.
  intros Ht H0 Hp i l y Hi Hy. unfold add_at in Hi.
  destruct (decide (i = Z.to_nat (priority t))) as [->|Hne].
  - rewrite list_lookup_alter_eq in Hi. destruct (Q !! _) as [m|] eqn:Em; [|done]. simplify_eq/=.
    apply elem_of_app in Hy as [Hy| ->%list_elem_of_singleton]; [by eapply Hp|].
    exists t. split; [done|lia].
  - rewrite list_lookup_alter_ne in Hi by done. by eapply Hp.
Qed.

Lemma prios_top ts Q x Q' : prios ts Q -> top uncons Q = Some (x, Q') -> prios ts Q'.
Proof.
  intros Hp Ht i l y Hi Hy. destruct (top_inv _ _ _ _ Ht) as (k & m & m' & Hk & Hu & -> & _).
  destruct (decide (i = k)) as [->|Hne].
  - rewrite list_lookup_insert_eq in Hi by (by eapply lookup_lt_Some). simplify_eq.
    apply (Hp k m y Hk). rewrite (uncons_perm _ _ _ Hu). set_solver.
  - rewrite list_lookup_insert_ne in Hi by done. by eapply Hp.
Qed.

Record ready (ts : Tasks) (rq : CoreRunQueue) (E Y : list (list Z)) : Prop := {
  ready_fit : tasks_fit ts;
  ready_rq : rq_ok ts rq E Y;
  ready_executing : prios ts E;
  ready_yielding : prios ts Y;
}.

Lemma rq_len ts rq E Y : rq_ok ts rq E Y ->
  length E = Z.to_nat PRIORITY_LEVEL_COUNT /\ length Y = Z.to_nat PRIORITY_LEVEL_COUNT.
Proof. by intros [[[_ L _ _] _] [[_ L' _ _] _] _]. Qed.

Lemma turn_does ts rq E Y x E' :
  ready ts rq E Y -> top uncons E = Some (x, E') ->
  exists rq' ts' Y', ready ts' rq' E' Y' /\ merged Y' E' = merged Y E /\
    forall n rs s, turns n (rq', ts') = (Ok rs, s) -> turns (S n) (rq, ts) = (Ok (x :: rs), s).
Proof.
  intros [Hf Hrq HpE HpY] Ht. destruct (rq_len _ _ _ _ Hrq) as [LE LY].
  destruct (pick_next_task_does ts rq E Y Hrq) as (rq1 & E1 & Hrq1 & _).
  unfold pick in E1, Hrq1. rewrite Ht in E1, Hrq1. cbn [fst snd] in E1, Hrq1.
  destruct (top_inv _ _ _ _ Ht) as (i & l & l' & Hi & Hu & HE' & _).
  destruct l as [|y l]; [done|]. injection Hu as -> ->.
  destruct (HpE i (x :: l') x Hi) as (t & Htx & Hpr); [set_solver|].
  assert (Hlev : forall j l, E !! j = Some l -> x ∈ l -> j = i).
  { intros j k Hj Hx. destruct (HpE j k x Hj Hx) as (u & Hu & Hpu). simplify_eq. lia. }
  assert (Hx : x ∉ mjoin E' ++ mjoin Y).
  { pose proof (join_top _ _ _ _ uncons_perm Ht) as Hperm. intros [HxE|HxY]%elem_of_app.
    - pose proof (lo_nodup _ _ _ (tok_levels _ _ _ (rq_executing _ _ _ _ Hrq))) as Hnd.
      rewrite Hperm in Hnd. by apply NoDup_cons_1_1 in Hnd.
    - apply (rq_disjoint _ _ _ _ Hrq x); [|done]. rewrite Hperm. set_solver. }
  pose proof (lookup_lt_Some _ _ _ Hi) as Hil. rewrite LE in Hil. change (i < 8)%nat in Hil.
  destruct (push_yielding_does ts rq1 E' Y x (priority t) Hf Hrq1) as (rq2 & ts2 & E2 & Hrq2 & Hr & _);
    [unfold MAX_PRIORITY; lia|done|by eexists|].
  exists rq2, ts2, (add_at (priority t) x Y). split; [|split].
  - constructor; [by eapply fit_relinked|done| |].
    + eapply prios_relinked; [done|]. by apply (prios_top ts E x).
    + eapply prios_relinked; [done|]. apply prios_add; [done|lia|done].
  - rewrite Hpr. apply merged_top; [congruence|done|done].
  - intros n rs s En. cbn [turns]. rewrite (sbind_ok _ _ _ _ _ E1). unfold sbind at 1.
    rewrite (slot_on _ _ _ _ Htx). by rewrite (sbind_ok _ _ _ _ _ E2), (sbind_ok _ _ _ _ _ En).
Qed.

Lemma epoch_does n : forall ts rq E Y,
  ready ts rq E Y -> length (mjoin E) = n ->
  exists rq' ts', turns n (rq, ts) = (Ok (order E), (rq', ts')) /\
    ready ts' rq' no_levels (merged Y E).
Proof.
  induction n as [|n IH]; intros ts rq E Y Hready Hn; pose proof (rq_len _ _ _ _ (ready_rq _ _ _ _ Hready)) as [LE LY].
  - apply nil_length_inv in Hn. rewrite (join_nil_levels E LE Hn) in *. exists rq, ts.
    rewrite merged_none by done. split; [|done]. unfold order. by vm_compute.
  - destruct (top uncons E) as [[x E']|] eqn:Et; [|apply top_uncons_none in Et; by rewrite Et in Hn].
    pose proof (join_top _ _ _ _ uncons_perm Et) as Hperm. rewrite Hperm in Hn. injection Hn as Hn.
    destruct (turn_does _ _ _ _ _ _ Hready Et) as (rq1 & ts1 & Y1 & Hready1 & Hm & Hturn).
    destruct (IH _ _ _ _ Hready1 Hn) as (rq2 & ts2 & E2 & Hready2).
    exists rq2, ts2. rewrite (order_top _ _ _ Et), <- Hm. split; [by apply Hturn|done].
Qed.

(** An epoch starts when only the yielding table has tasks; exchanging the tables by hand
    makes no difference to the next pick. *)
Lemma turns_swap n ts rq R : rq_ok ts rq no_levels R -> mjoin R <> [] ->
  turns (S n) (rq, ts) = turns (S n) (swap_tables rq, ts).
Proof.
  intros Hrq Hne. cbn [turns]. unfold sbind at 1. unfold sbind at 3.
  replace (pick_next_task (rq, ts)) with (pick_next_task (swap_tables rq, ts)); [done|].
  unfold pick_next_task. cbn [sbind self]. pose proof (rq_swap _ _ _ _ Hrq) as Hs.
  rewrite (is_empty_does _ _ _ (rq_executing _ _ _ _ Hs)), (is_empty_does _ _ _ (rq_executing _ _ _ _ Hrq)).
  rewrite (is_empty_does _ _ _ (rq_yielding _ _ _ _ Hrq)).
  by rewrite !(bool_decide_false (mjoin R = [])), (bool_decide_true (mjoin no_levels = [])).
Qed.

Lemma turns_app a : forall b s rs s1 rs2 s2,
  turns a s = (Ok rs, s1) -> turns b s1 = (Ok rs2, s2) -> turns (a + b) s = (Ok (rs ++ rs2), s2).
Proof.
  induction a as [|a IH]; intros b s rs s1 rs2 s2; cbn [turns Nat.add].
  - by intros [= <- <-] ?.
  - intros (x & u1 & E1 & (t & u2 & E2 & (? & u3 & E3 & (r & u4 & E4 & E5)%sbind_inv_ok)%sbind_inv_ok)%sbind_inv_ok)%sbind_inv_ok Hb.
    unfold sret in E5. simplify_eq. rewrite (sbind_ok _ _ _ _ _ E1), (sbind_ok _ _ _ _ _ E2).
    by rewrite (sbind_ok _ _ _ _ _ E3), (sbind_ok _ _ _ _ _ (IH _ _ _ _ _ _ E4 Hb)).
Qed.

Lemma epochs_do k : forall ts rq R,
  ready ts rq no_levels R ->
  exists s, turns (k * length (mjoin R)) (rq, ts) = (Ok (mjoin (replicate k (order R))), s).
Proof.
  induction k as [|k IH]; intros ts rq R Hready; [by eexists|].
  destruct (rq_len _ _ _ _ (ready_rq _ _ _ _ Hready)) as [_ LR].
  destruct (length (mjoin R)) as [|n] eqn:Hn.
  - rewrite Nat.mul_0_r. eexists. cbn [turns]. unfold sret. f_equal. f_equal.
    assert (order R = []) as ->; [|by rewrite join_none].
    apply Permutation_nil. symmetry. etransitivity; [apply order_perm|].
    apply nil_length_inv in Hn. by rewrite Hn.
  - assert (Hready' : ready ts (swap_tables rq) R no_levels)
      by (destruct Hready; constructor; [done|by apply rq_swap|done|done]).
    destruct (epoch_does (S n) _ _ _ _ Hready' Hn) as (rq1 & ts1 & E1 & Hready1).
    rewrite merged_none_l in Hready1 by done. destruct (IH _ _ _ Hready1) as [s Es].
    exists s. rewrite Hn in Es. cbn [Nat.mul replicate].
    change (mjoin (order R :: replicate k (order R))) with (order R ++ mjoin (replicate k (order R))).
    eapply turns_app; [|done]. rewrite (turns_swap n ts rq R); [done|by destruct Hready|].
    intros H0. by rewrite H0 in Hn.
Qed.

(** C37: round robin: while every picked task uses up its slice, the tasks of the current
    epoch run first, each exactly once, by priority and age; from then on all queued tasks
    take turns in one fixed order, each exactly once per round, for any number of rounds
    [k]: no task starves however long the others stay busy. *)
Theorem turns_round_robin ts rq E Y k :
  ready ts rq E Y ->
  exists s, turns (length (mjoin E) + k * length (mjoin (merged Y E))) (rq, ts) =
      (Ok (order E ++ mjoin (replicate k (order (merged Y E)))), s) /\
    order E ≡ₚ mjoin E /\ order (merged Y E) ≡ₚ mjoin E ++ mjoin Y /\
    NoDup (mjoin E ++ mjoin Y).
Proof.
  intros Hready. destruct (epoch_does _ _ _ _ _ Hready eq_refl) as (rq1 & ts1 & E1 & Hready1).
  destruct (epochs_do k _ _ _ Hready1) as [s Es]. exists s. split; [by eapply turns_app|].
  split; [apply order_perm|]. destruct (ready_rq _ _ _ _ Hready) as [[HE _] [HY _] Hx]. split.
  - rewrite order_perm. apply merged_perm. rewrite (lo_len' _ _ _ HE). by destruct HY.
  - apply list.NoDup_app. destruct HE, HY. done.
Qed.

(** ** Arrays of waiting tasks *)

(** The referenced task is still there and blocked. *)
Definition waiting (ts : Tasks) (r : TaskRef) : bool :=
  match task_at ts (slot_of r) with
  | Some t => (pid t =? pid_of r) && bool_decide (state t = Blocked)
  | None => false
  end.

Lemma is_stale_does ts r : is_Some (task_at ts (slot_of r)) ->
  is_stale r ts = (Ok (negb (waiting ts r)), ts).
Proof.
  intros [t E]. unfold is_stale. rewrite (sbind_ok _ _ _ _ _ (slot_does _ _ _ E)).
  unfold waiting. rewrite E. unfold sret. by rewrite negb_andb.
Qed.

Lemma length_swap_out {A} (l : list A) i n : length (swap_out l i n) = length l.
Proof. unfold swap_out. destruct (l !! (n - 1)%nat); [apply length_insert|done]. Qed.

(** The entry at [i] is gone and the others are there, in another order from [i] on. *)
Lemma swap_out_split {A} (l : list A) i n x :
  (i < n)%nat -> (n <= length l)%nat -> l !! i = Some x ->
  exists R R', take n l = take i l ++ x :: R /\ take (n - 1) (swap_out l i n) = take i l ++ R' /\ R' ≡ₚ R.
Proof.
  intros Hi Hn Hx. destruct (lookup_lt_is_Some_2 l (n - 1)) as [y Hy]; [lia|].
  unfold swap_out. rewrite Hy. destruct (decide (i = n - 1)%nat) as [->|Hne].
  - exists [], []. simplify_eq. rewrite list_insert_id, app_nil_r by done. split_and!; [|done|done].
    rewrite <- (take_S_r _ _ _ Hx). f_equal. lia.
  - exists (drop (S i) (take n l)), (y :: drop (S i) (take (n - 1) l)). split_and!.
    + rewrite <- (take_drop_middle (take n l) i x) at 1 by (by rewrite lookup_take_lt).
      by rewrite take_take, Nat.min_l by lia.
    + rewrite take_insert_lt, insert_take_drop by (rewrite ?length_take; lia).
      by rewrite take_take, Nat.min_l by lia.
    + replace n with (S (n - 1)) at 2 by lia. rewrite (take_S_r _ _ _ Hy), drop_app_le.
      * by rewrite Permutation_app_comm.
      * rewrite length_take. lia.
Qed.

Lemma stale_loop_does {A} (ref : A -> TaskRef) ts fuel : forall l i n,
  (n <= length l)%nat -> (n - i < fuel)%nat -> (i <= n)%nat ->
  (forall x, x ∈ take n l -> is_Some (task_at ts (slot_of (ref x)))) ->
  exists l' n', stale_loop fuel ref l i n ts = (Ok (l', n'), ts) /\
    length l' = length l /\ (n' <= n)%nat /\
    take n' l' ≡ₚ take i l ++ List.filter (fun x => waiting ts (ref x)) (drop i (take n l)).
Proof.
  induction fuel as [|fuel IH]; intros l i n Hn Hf Hi Hts; [lia|]. cbn [stale_loop].
  destruct (Nat.leb_spec n i) as [Hle|Hlt].
  - assert (i = n) as -> by lia. exists l, n. rewrite drop_ge by (rewrite length_take; lia).
    cbn. by rewrite app_nil_r.
  - destruct (lookup_lt_is_Some_2 l i) as [x Hx]; [lia|]. rewrite Hx.
    destruct (swap_out_split l i n x Hlt Hn Hx) as (R & R' & ER & ER' & Hp).
    assert (Hd : drop i (take n l) = x :: R).
    { rewrite ER, drop_app_le, drop_ge by (rewrite length_take; lia). done. }
    unfold sbind. rewrite is_stale_does by (apply Hts; rewrite ER; set_solver).
    rewrite Hd. cbn [List.filter]. destruct (waiting ts (ref x)); cbn [negb].
    + destruct (IH l (S i) n Hn) as (l' & n' & E & Hl & Hn' & Hperm); [lia|lia|done|].
      exists l', n'. split_and!; try done. rewrite Hperm, (take_S_r _ _ _ Hx).
      replace (drop (S i) (take n l)) with R; [by rewrite <- app_assoc|].
      replace (S i) with (i + 1)%nat by lia. by rewrite <- drop_drop, Hd.
    + destruct (IH (swap_out l i n) i (n - 1)%nat) as (l' & n' & E & Hl & Hn' & Hperm); [rewrite length_swap_out; lia|lia|lia| |].
      { intros y. rewrite ER', Hp. intros Hy. apply Hts. rewrite ER. set_solver. }
      exists l', n'. rewrite length_swap_out in Hl. split_and!; [done|done|lia|]. rewrite Hperm.
      assert (take i (swap_out l i n) = take i l) as ->.
      { replace i with (i `min` (n - 1))%nat at 1 by lia. rewrite <- take_take, ER'.
        rewrite take_app_le, take_take by (rewrite length_take; lia). f_equal. lia. }
      rewrite ER', drop_app_le, drop_ge by (rewrite length_take; lia). simpl.
      f_equiv. clear -Hp. induction Hp; simpl; repeat (destruct (waiting _ _)); simpl; eauto using perm_swap, Permutation_trans.
Qed.

(** ** Witnesses *)

Definition demo_ops : list rq_op :=
  [OpExecuting 3 2; OpExecuting 4 6; OpExecuting 5 2; OpPick; OpYielding 4 6; OpCpu 3 true; OpSteal;
   OpContains 5; OpPick; OpPick; OpPick].

Lemma run_queue_refines_witness :
  exists rq ts, rq_steps demo_ops (run_queue_new, TASKS) = (Ok [0; 0; 0; 4; 0; 0; 5; 0; 3; 4; INVALID_SLOT], (rq, ts)).
Proof.
  destruct (run_queue_refines TASKS ∅ demo_ops) as (rq & ts & E); cycle -1.
  - exists rq, ts. rewrite E. by do 2 f_equal.
  - done.
  - intros x t Ht. rewrite bool_decide_false by set_solver. unfold task_at, TASKS in Ht.
    destruct (0 <=? x); [|done]. by apply lookup_replicate in Ht as [-> _].
  - repeat split; try lia; try (apply (bool_decide_eq_true_1 _); by vm_compute).
Defined.

(** Three tasks of priorities 2, 2 and 5 are queued. *)
Definition prio_tasks : Tasks :=
  let prio p t := mkTask (pid t) Ready p (home_core t) (on_cpu t) (kill_pending t) (exit_code_request t)
    (cpu_ticks t) (core_migration_count t) (cr3 t) (kernel_stack_top t) (next t) (fpu_state t) in
  put_task 0 (prio 2) (put_task 1 (prio 2) (put_task 2 (prio 5) TASKS)).

Definition demo_levels : list (list Z) := add_at 5 2 (add_at 2 1 (add_at 2 0 no_levels)).

Lemma demo_ready : exists rq ts, ready ts rq demo_levels no_levels.
Proof.
  assert (Hsome : forall ts D x, relinked D prio_tasks ts -> 0 <= x < 64 -> is_Some (task_at ts x)).
  { intros ts D x Hr Hx. apply task_at_some. rewrite (relinked_len _ _ _ Hr). done. }
  assert (H0 : tasks_fit prio_tasks) by done.
  destruct (push_executing_does prio_tasks run_queue_new no_levels no_levels 0 2 H0 (rq_new_ok _))
    as (rq1 & ts1 & _ & Hq1 & Hr1 & _); [done|apply (bool_decide_eq_true_1 _); by vm_compute|
    by apply (Hsome _ []); [apply relinked_refl|]|].
  destruct (push_executing_does ts1 rq1 _ _ 1 2 (fit_relinked _ _ _ Hr1 H0) Hq1)
    as (rq2 & ts2 & _ & Hq2 & Hr2 & _); [done|apply (bool_decide_eq_true_1 _); by vm_compute|by eapply Hsome|].
  apply (relinked_mono _ [0; 1; 2]) in Hr1; [|apply (bool_decide_eq_true_1 _); by vm_compute].
  apply (relinked_mono _ [0; 1; 2]) in Hr2; [|apply (bool_decide_eq_true_1 _); by vm_compute].
  pose proof (relinked_trans _ _ _ _ Hr1 Hr2) as Hr12.
  destruct (push_executing_does ts2 rq2 _ _ 2 5 (fit_relinked _ _ _ Hr12 H0) Hq2)
    as (rq3 & ts3 & _ & Hq3 & Hr3 & _); [done|apply (bool_decide_eq_true_1 _); by vm_compute|by eapply Hsome|].
  apply (relinked_mono _ [0; 1; 2]) in Hr3; [|apply (bool_decide_eq_true_1 _); by vm_compute].
  pose proof (relinked_trans _ _ _ _ Hr12 Hr3) as Hr. exists rq3, ts3.
  constructor; [by eapply fit_relinked|done| |]; eapply prios_relinked; try exact Hr.
  - intros i l x Hi Hx. do 8 (destruct i as [|i]; [injection Hi as <-; repeat
      (apply elem_of_cons in Hx as [->|Hx]; [eexists; split; [vm_compute; reflexivity|done]|]);
      by apply elem_of_nil in Hx|]). done.
  - intros i l x Hi Hx. apply lookup_replicate in Hi as [-> _]. by apply elem_of_nil in Hx.
Qed.

Lemma turns_round_robin_witness :
  exists rq ts s, turns 9 (rq, ts) = (Ok [2; 0; 1; 2; 0; 1; 2; 0; 1], s).
Proof.
  destruct demo_ready as (rq & ts & Hready). exists rq, ts.
  destruct (turns_round_robin ts rq demo_levels no_levels 2 Hready) as (s & E & _).
  exists s. exact E.
Defined.
