(* ===== verification/Scheduler.v ===== *)
(** * Scheduler: the per-core schedulers of kernel/src/process/scheduler.rs

    The static arrays of the file, the task slots and the run queues form one state.  A
    function that switches stacks is split where it does: [switch_out] runs on the stack
    of the task, [run_task_end] on that of the scheduler loop, and other cores can run in
    between.  Locks are left out: the sections they protect are single steps.  The time
    and the executing core [me] are arguments; the reschedule interrupts sent are
    recorded. *)

From Stdlib Require Import ZArith Lia.
From stdpp Require Import base tactics list option numbers.
From S2P Require Import Prelude Tasks RunQueue.

Open Scope rust_scope.

Definition MAX_CORES : Z := 4.
Definition BASE_SLICE_TICKS : Z := 1.
Definition WORK_STEALING_ENABLED : bool := true.

Record Sched : Type := mkSched {
  tasks : Tasks;
  run_queues : list CoreRunQueue;
  current_slot_on_core : list Z;
  current_process_on_core : list Z;
  core_should_be_rescheduled : list bool;
  slice_remaining_ticks : list Z;
  runnable_tasks_count : list Z;
  reschedule_ipis : list Z;
}.

Definition per_core {A} (x : A) : list A := replicate (Z.to_nat MAX_CORES) x.

(** The initial values of the statics. *)
Definition sched_new : Sched :=
  mkSched TASKS (per_core run_queue_new) (per_core INVALID_SLOT) (per_core INVALID_PID)
    (per_core false) (per_core 0) (per_core 0) [].

Definition set_tasks ts s := mkSched ts (run_queues s) (current_slot_on_core s)
  (current_process_on_core s) (core_should_be_rescheduled s) (slice_remaining_ticks s)
  (runnable_tasks_count s) (reschedule_ipis s).
Definition set_queues qs s := mkSched (tasks s) qs (current_slot_on_core s)
  (current_process_on_core s) (core_should_be_rescheduled s) (slice_remaining_ticks s)
  (runnable_tasks_count s) (reschedule_ipis s).
Definition set_current l p s := mkSched (tasks s) (run_queues s) l p
  (core_should_be_rescheduled s) (slice_remaining_ticks s) (runnable_tasks_count s)
  (reschedule_ipis s).
Definition set_flags l s := mkSched (tasks s) (run_queues s) (current_slot_on_core s)
  (current_process_on_core s) l (slice_remaining_ticks s) (runnable_tasks_count s)
  (reschedule_ipis s).
Definition set_slices l s := mkSched (tasks s) (run_queues s) (current_slot_on_core s)
  (current_process_on_core s) (core_should_be_rescheduled s) l (runnable_tasks_count s)
  (reschedule_ipis s).
Definition set_runnable l s := mkSched (tasks s) (run_queues s) (current_slot_on_core s)
  (current_process_on_core s) (core_should_be_rescheduled s) (slice_remaining_ticks s) l
  (reschedule_ipis s).
Definition set_ipis l s := mkSched (tasks s) (run_queues s) (current_slot_on_core s)
  (current_process_on_core s) (core_should_be_rescheduled s) (slice_remaining_ticks s)
  (runnable_tasks_count s) l.

Abbreviation SM := (stM Sched Empty_set).

Definition on_slots {A} (m : TM A) : SM A := fun s =>
  let '(r, ts) := m (tasks s) in (r, set_tasks ts s).

(** A call on the locked run queue of a core. *)
Definition on_queue {A} (core_id : Z) (m : QM CoreRunQueue A) : SM A := fun s =>
  match run_queues s !! Z.to_nat core_id with
  | None => (Panic, s)
  | Some rq =>
      let '(r, (rq', ts)) := m (rq, tasks s) in
      (r, set_queues (<[Z.to_nat core_id := rq']> (run_queues s)) (set_tasks ts s))
  end.

(** A load from a per-core array, which panics out of range, and a store. *)
Definition load {A} (f : Sched -> list A) (core_id : Z) : SM A := fun s =>
  match f s !! Z.to_nat core_id with Some x => (Ok x, s) | None => (Panic, s) end.
Definition update (f : Sched -> Sched) : SM unit := fun s => (Ok tt, f s).

Definition at_core {A} (core_id : Z) (x : A) (l : list A) : list A := <[Z.to_nat core_id := x]> l.

Definition set_current_task_for_core (core_id slot_index pid : Z) : SM unit :=
  load current_slot_on_core core_id ;;;
  update (fun s => set_current (at_core core_id slot_index (current_slot_on_core s))
    (at_core core_id pid (current_process_on_core s)) s).

Definition get_current_process_for_core (core_id : Z) : SM Z := load current_process_on_core core_id.
Definition get_current_slot_for_core (core_id : Z) : SM Z := load current_slot_on_core core_id.
Definition core_runnable_tasks_count (core_id : Z) : SM Z := load runnable_tasks_count core_id.

(** [fetch_add] and [fetch_sub] of a u32 wrap and return the previous value. *)
Definition add_runnable (core_id d : Z) : SM Z :=
  let! n := load runnable_tasks_count core_id in
  update (fun s => set_runnable (at_core core_id (wrap 32 (n + d)) (runnable_tasks_count s)) s) ;;;
  sret n.

Definition core_task_leave_run_queue (core_id : Z) : SM unit :=
  let! previous := add_runnable core_id (-1) in sassert (0 <? previous).

Definition get_slice_ticks_for_priority (priority : Z) : Z := (priority + 1) * BASE_SLICE_TICKS.

Definition store_flag (core_id : Z) (b : bool) : SM unit :=
  load core_should_be_rescheduled core_id ;;;
  update (fun s => set_flags (at_core core_id b (core_should_be_rescheduled s)) s).

Definition mark_core_for_reschedule (core_id : Z) : SM unit := store_flag core_id true.

Definition store_slice (core_id n : Z) : SM unit :=
  load slice_remaining_ticks core_id ;;;
  update (fun s => set_slices (at_core core_id n (slice_remaining_ticks s)) s).

Definition send_reschedule_ipi (core_id : Z) : SM unit :=
  update (fun s => set_ipis (reschedule_ipis s ++ [core_id]) s).

(** ** Sleeping *)

Definition drop_sleeper (index : nat) (rq : CoreRunQueue) : CoreRunQueue :=
  set_sleeping (swap_out (sleeping_tasks rq) index (sleeping_tasks_count rq))
    (sleeping_tasks_count rq - 1) rq.

(** The body of the loop for a sleeper whose time has come. *)
Definition wake_sleeper (core_id : Z) (sleeper : SleepingTask) (highest : option Z) : SM (option Z) :=
  let i := slot_of (task_ref sleeper) in
  let! woken := on_slots (transition i Blocked Ready) in
  if (woken : bool) then
    let! t := on_slots (slot i) in
    add_runnable core_id 1 ;;;
    on_queue core_id (push_executing_task i (priority t)) ;;;
    sret (Some (match highest with None => priority t | Some p => Z.max p (priority t) end))
  else sret highest.

Fixpoint wake_due_loop (fuel : nat) (core_id now_us : Z) (index : nat) (highest : option Z) :
    SM (option Z) :=
  match fuel with
  | O => sfuel
  | S fuel =>
      let! rq := on_queue core_id self in
      if (sleeping_tasks_count rq <=? index)%nat then sret highest else
      match sleeping_tasks rq !! index with
      | None => spanic
      | Some sleeper =>
          let! stale := on_slots (is_stale (task_ref sleeper)) in
          if (stale : bool) then
            on_queue core_id (set_self (drop_sleeper index)) ;;;
            wake_due_loop fuel core_id now_us index highest
          else if now_us <? wake_time_us sleeper then
            wake_due_loop fuel core_id now_us (S index) highest
          else
            let! highest := wake_sleeper core_id sleeper highest in
            on_queue core_id (set_self (drop_sleeper index)) ;;;
            wake_due_loop fuel core_id now_us index highest
      end
  end.

(** [CoreRunQueue::wake_due_sleeping_tasks] *)
Definition queue_wake_due (core_id now_us : Z) : SM (option Z) :=
  let! rq := on_queue core_id self in
  wake_due_loop (S (sleeping_tasks_count rq)) core_id now_us 0 None.

(** [wake_due_sleeping_tasks] *)
Definition wake_due_sleeping_tasks (core_id now_us : Z) : SM unit :=
  let! highest := queue_wake_due core_id now_us in
  match highest with
  | None => sret tt
  | Some woken_priority =>
      let! running_slot := get_current_slot_for_core core_id in
      if running_slot =? INVALID_SLOT then sret tt else
      let! t := on_slots (slot running_slot) in
      if priority t <? woken_priority then mark_core_for_reschedule core_id else sret tt
  end.

Definition on_timer_tick (core_id now_us : Z) : SM unit :=
  wake_due_sleeping_tasks core_id now_us ;;;
  let! slot_index := get_current_slot_for_core core_id in
  if slot_index =? INVALID_SLOT then sret tt else
  on_slots (store slot_index add_tick) ;;;
  let! t := on_slots (slot slot_index) in
  let! remaining_ticks := load slice_remaining_ticks core_id in
  if 1 <? remaining_ticks then store_slice core_id (remaining_ticks - 1) else
  let! n := load runnable_tasks_count core_id in
  if 1 <? n then
    store_slice core_id 0 ;;;
    mark_core_for_reschedule core_id
  else store_slice core_id (get_slice_ticks_for_priority (priority t)).

(** [core_current_task_ref] of task.rs *)
Definition core_current_task_ref (core_id : Z) : SM TaskRef :=
  let! slot_index := get_current_slot_for_core core_id in
  sassert (negb (slot_index =? INVALID_SLOT)) ;;;
  let! pid := get_current_process_for_core core_id in
  sret (mkRef slot_index pid).

Definition core_current_task_kill_pending (core_id : Z) : SM bool :=
  let! r := core_current_task_ref core_id in
  let! t := on_slots (slot (slot_of r)) in
  sret (kill_pending t).

(** [core_block_current_task_until_wake_time] up to its call of [core_run_scheduling]. *)
Definition block_until_wake_time (wake_time_us core_id : Z) : SM Z :=
  let! r := core_current_task_ref core_id in
  let! t := on_slots (slot (slot_of r)) in
  on_queue (home_core t) (add_sleeping_task r wake_time_us) ;;;
  let! was_running := on_slots (transition (slot_of r) Running Blocked) in
  sassert was_running ;;;
  core_task_leave_run_queue (home_core t) ;;;
  sret (home_core t).

(** ** Queueing *)

Definition core_enqueue_ready_task (me core_id slot_index prio : Z) : SM unit :=
  add_runnable core_id 1 ;;;
  on_queue core_id (push_executing_task slot_index prio) ;;;
  let! running_slot := get_current_slot_for_core core_id in
  let! should_preempt :=
    (if running_slot =? INVALID_SLOT then sret true
     else let! t := on_slots (slot running_slot) in sret (priority t <? prio)) in
  if negb should_preempt then sret tt else
  if core_id =? me then mark_core_for_reschedule core_id else send_reschedule_ipi core_id.

(** [iter().any(..)] over the cores. *)
Fixpoint any_core (m : Z -> SM bool) (cores : list Z) : SM bool :=
  match cores with
  | [] => sret false
  | c :: cores => let! yes := m c in if (yes : bool) then sret true else any_core m cores
  end.

Definition is_pid_queued (p : Z) : SM bool :=
  let! found := on_slots (fun ts => (Ok (find_slot_by_pid ts p), ts)) in
  match found with
  | None => sret false
  | Some slot_index =>
      let! queued := any_core (fun c => on_queue c (contains slot_index)) (seqZ 0 MAX_CORES) in
      if (queued : bool) then sret true else
      any_core (fun c => let! s := get_current_slot_for_core c in sret (s =? slot_index))
        (seqZ 0 MAX_CORES)
  end.

Definition wake_task (me : Z) (r : TaskRef) : SM unit :=
  let! t := on_slots (slot (slot_of r)) in
  if negb (pid t =? pid_of r) then sret tt else
  let! woken := on_slots (transition (slot_of r) Blocked Ready) in
  if negb woken then sret tt else
  let! t := on_slots (slot (slot_of r)) in
  core_enqueue_ready_task me (home_core t) (slot_of r) (priority t).

(** ** Running and leaving a core *)

(** [run_task] up to [switch_context]. *)
Definition run_task_begin (core_id slot_index : Z) : SM unit :=
  let! t := on_slots (slot slot_index) in
  sassert (bool_decide (state t = Ready)) ;;;
  on_slots (store slot_index (set_state Running)) ;;;
  on_slots (store slot_index (set_on_cpu true)) ;;;
  set_current_task_for_core core_id (wrap 16 slot_index) (pid t) ;;;
  store_flag core_id false ;;;
  store_slice core_id (get_slice_ticks_for_priority (priority t)).

(** [run_task] after [switch_context]: the stores, then the check for a dead task. *)
Definition run_task_leave (core_id slot_index : Z) : SM unit :=
  on_slots (store slot_index (set_on_cpu false)) ;;;
  set_current_task_for_core core_id INVALID_SLOT INVALID_PID.
Definition run_task_reap (slot_index : Z) : SM unit :=
  let! t := on_slots (slot slot_index) in
  if decide (state t = Dead) then on_slots (release_task_slot slot_index) else sret tt.
Definition run_task_end (core_id slot_index : Z) : SM unit :=
  run_task_leave core_id slot_index ;;;
  run_task_reap slot_index.

Inductive RequeueType : Type :=
  | ExecutingTasks
  | YieldingTasks.

(** [core_switch_executing_yielding] up to [switch_context], which lands in the [run_task]
    that started the task; the result is its slot. *)
Definition switch_out (core_id : Z) (requeue_type : RequeueType) : SM Z :=
  let! slot_index := get_current_slot_for_core core_id in
  sassert (negb (slot_index =? INVALID_SLOT)) ;;;
  let! was_running := on_slots (transition slot_index Running Ready) in
  (if (was_running : bool) then
     let! t := on_slots (slot slot_index) in
     sassert (home_core t =? core_id) ;;;
     on_queue core_id (match requeue_type with
       | ExecutingTasks => push_executing_task slot_index (priority t)
       | YieldingTasks => push_yielding_task slot_index (priority t)
       end)
   else sret tt) ;;;
  sret slot_index.

(** The whole way from the task back into the scheduler loop. *)
Definition core_switch_executing_yielding (core_id : Z) (requeue_type : RequeueType) : SM unit :=
  let! slot_index := switch_out core_id requeue_type in
  run_task_end core_id slot_index.

Definition requeue_choice (core_id : Z) : SM RequeueType :=
  let! n := load slice_remaining_ticks core_id in
  sret (if n =? 0 then YieldingTasks else ExecutingTasks).

Definition core_run_scheduling (core_id : Z) : SM unit :=
  let! requeue_type := requeue_choice core_id in
  core_switch_executing_yielding core_id requeue_type.

(** False when the core has nothing else to run. *)
Definition core_yield_executing_tasks (core_id : Z) : SM bool :=
  let! n := load runnable_tasks_count core_id in
  if n <=? 1 then sret false else
  core_switch_executing_yielding core_id YieldingTasks ;;; sret true.

Definition core_block_current_task_until_wake_time (wake_time_us core_id : Z) : SM unit :=
  let! home_core := block_until_wake_time wake_time_us core_id in
  core_run_scheduling home_core.

(** ** Stealing *)

(** The body of the loop for one other core; true when a task was moved. *)
Definition steal_from (core_id core_from : Z) : SM bool :=
  let! slot_index := on_queue core_from take_stealable_task in
  if slot_index =? INVALID_SLOT then sret false else
  on_slots (store slot_index (set_home core_id)) ;;;
  add_runnable core_from (-1) ;;;
  add_runnable core_id 1 ;;;
  let! t := on_slots (slot slot_index) in
  on_queue core_id (push_executing_task slot_index (priority t)) ;;;
  sret true.

(** [locked c]: another core holds the run queue of [c] when [try_lock] asks for it. *)
Fixpoint steal_loop (locked : Z -> bool) (core_id : Z) (cores : list Z) : SM bool :=
  match cores with
  | [] => sret false
  | core_from :: cores =>
      if core_from =? core_id then steal_loop locked core_id cores else
      let! n := load runnable_tasks_count core_from in
      if n <=? 1 then steal_loop locked core_id cores else
      if locked core_from then steal_loop locked core_id cores else
      let! stolen := steal_from core_id core_from in
      if (stolen : bool) then sret true else steal_loop locked core_id cores
  end.

Definition try_steal_task (locked : Z -> bool) (core_id : Z) : SM bool :=
  steal_loop locked core_id (seqZ 1 (MAX_CORES - 1)).

(** One turn of [scheduler_loop]: it runs a task, goes round again, or waits for an
    interrupt. *)
Inductive LoopTurn : Type :=
  | Runs (slot_index : Z)
  | Again
  | Halts.

Definition scheduler_turn (locked : Z -> bool) (core_id : Z) : SM LoopTurn :=
  let! slot_index := on_queue core_id pick_next_task in
  if slot_index =? INVALID_SLOT then
    let! stolen := (if WORK_STEALING_ENABLED then try_steal_task locked core_id else sret false) in
    sret (if (stolen : bool) then Again else Halts)
  else
    run_task_begin core_id slot_index ;;;
    sret (Runs slot_index).

(** ** Ending tasks, task.rs *)

(** One turn of the loop of [exit_to_user]: the task exits, returns to ring 3, or has given
    way and asks again when it is its turn. *)
Inductive ExitTurn : Type :=
  | Exits (exit_code : Z)
  | Returns
  | GaveWay.

Definition exit_if_kill_pending (core_id : Z) : SM (option Z) :=
  let! slot_index := get_current_slot_for_core core_id in
  sassert (negb (slot_index =? INVALID_SLOT)) ;;;
  let! t := on_slots (slot slot_index) in
  sret (if kill_pending t then Some (exit_code_request t) else None).

Definition exit_to_user_turn (core_id : Z) : SM ExitTurn :=
  let! killed := exit_if_kill_pending core_id in
  match killed with
  | Some code => sret (Exits code)
  | None =>
      let! flag := load core_should_be_rescheduled core_id in
      store_flag core_id false ;;;
      if negb flag then sret Returns else
      core_run_scheduling core_id ;;; sret GaveWay
  end.

Definition request_kill (me p exit_code : Z) : SM bool :=
  let! found := on_slots (fun ts => (Ok (find_slot_by_pid ts p), ts)) in
  match found with
  | None => sret false
  | Some slot_index =>
      on_slots (store slot_index (set_kill exit_code)) ;;;
      wake_task me (mkRef (wrap 16 slot_index) p) ;;;
      let! t := on_slots (slot slot_index) in
      (if decide (state t = Running) then
         if home_core t =? me then mark_core_for_reschedule (home_core t)
         else send_reschedule_ipi (home_core t)
       else sret tt) ;;;
      sret true
  end.

(** [exit_current] after the process is torn down, up to the switch. *)
Definition exit_mark_dead (core_id : Z) : SM unit :=
  let! slot_index := get_current_slot_for_core core_id in
  sassert (negb (slot_index =? INVALID_SLOT)) ;;;
  let! t := on_slots (slot slot_index) in
  on_slots (store slot_index (set_state Dead)) ;;;
  core_task_leave_run_queue (home_core t).

(** A new task is ready: the end of [create_process_from_elf]. *)
Definition start_task (me core_id slot_index prio : Z) : SM unit :=
  on_slots (store slot_index (set_state Ready)) ;;;
  core_enqueue_ready_task me core_id slot_index prio.
