(* ===== verification/SchedulerOk.v ===== *)
(** * SchedulerOk: the invariant of the schedulers

    [shape] ties the run queues of the cores to lists of slots, [placed] says that these
    lists, the current slots and the counters are what the states of the tasks call for.
    The lemmas lift the run queue operations to the whole state and show how [placed]
    changes when one task does. *)

From Stdlib Require Import ZArith Lia.
From stdpp Require Import base tactics list option numbers sets.
From S2P Require Import Prelude Tasks RunQueue RunQueueOk RunQueueSpec Scheduler.

Open Scope rust_scope.

(** ** The view of a task the invariant needs *)

Record view : Type := mkView {
  v_state : TaskState;
  v_home : Z;
  v_cpu : bool;
  v_pid : Z;
  v_prio : Z;
}.

Definition view_of (t : TaskSlot) : view :=
  mkView (state t) (home_core t) (on_cpu t) (pid t) (priority t).

Definition look (ts : Tasks) (x : Z) : option view := view_of <$> task_at ts x.

Lemma look_relinked D ts ts' x : relinked D ts ts' -> look ts' x = look ts x.
Proof.
  intros Hr. unfold look. destruct (task_at ts x) as [t|] eqn:E.
  - destruct (relinked_at _ _ _ _ _ Hr E) as [n ->]. done.
  - destruct (task_at ts' x) as [t|] eqn:E'; [|done]. apply task_at_range in E'.
    rewrite (relinked_len _ _ _ Hr) in E'. destruct (task_at_some ts x E'). congruence.
Qed.

Lemma look_put ts x f y :
  look (put_task x f ts) y = if decide (y = x) then view_of ∘ f <$> task_at ts y else look ts y.
Proof.
  unfold look. rewrite task_at_put. case_decide; [|done]. by destruct (task_at ts y).
Qed.

Lemma look_some ts x v : look ts x = Some v -> exists t, task_at ts x = Some t /\ v = view_of t.
Proof. unfold look. destruct (task_at ts x) as [t|]; [|done]. intros [= <-]. eauto. Qed.

Lemma look_invalid ts : tasks_fit ts -> look ts INVALID_SLOT = None.
Proof.
  intros Hf. destruct (look ts INVALID_SLOT) as [v|] eqn:E; [|done].
  apply look_some in E as (t & E & _). by destruct (task_not_invalid ts INVALID_SLOT Hf).
Qed.

(** ** Counting *)

Definition is_core (c : Z) : Prop := 0 <= c < MAX_CORES.

Definition runnable_on (c : Z) (v : view) : bool :=
  bool_decide (v_state v = Ready \/ v_state v = Running) && (v_home v =? c).

Definition runnable_at (lk : Z -> option view) (c x : Z) : Z :=
  match lk x with Some v => Z.b2z (runnable_on c v) | None => 0 end.

Fixpoint total (f : Z -> Z) (l : list Z) : Z :=
  match l with [] => 0 | x :: l => f x + total f l end.

Definition count (lk : Z -> option view) (c : Z) : Z :=
  total (runnable_at lk c) (seqZ 0 MAX_TASKS).

Lemma slot_total_ext f g l : (forall x, x ∈ l -> f x = g x) -> total f l = total g l.
Proof.
  induction l as [|x l IH]; intros H; [done|]. simpl. rewrite (H x), IH by set_solver. done.
Qed.

Lemma total_one f g x l : NoDup l -> x ∈ l -> (forall y, y <> x -> f y = g y) ->
  total f l = total g l + (f x - g x).
Proof.
  intros Hn Hx Hfg. induction l as [|y l IH]; [set_solver|]. simpl.
  apply NoDup_cons_1_1 in Hn as Hy. apply NoDup_cons_1_2 in Hn.
  destruct (decide (y = x)) as [->|Hne].
  - rewrite (slot_total_ext f g l); [lia|]. intros z Hz. apply Hfg. set_solver.
  - rewrite (Hfg y Hne), IH; [lia|done|set_solver].
Qed.

Lemma total_bound f l : (forall x, 0 <= f x <= 1) -> 0 <= total f l <= zlen l.
Proof.
  intros Hf. induction l as [|x l IH]; [done|]. specialize (Hf x).
  cbn [total length]. lia.
Qed.

Lemma count_bound lk c : 0 <= count lk c <= MAX_TASKS.
Proof.
  apply total_bound. intros x. unfold runnable_at. destruct (lk x) as [v|]; [|lia].
  destruct (runnable_on c v); simpl; lia.
Qed.

(** ** The shape of the state *)

Abbreviation Levels := (list (list (list Z) * list (list Z))).

(** The slots queued on a core. *)
Definition queued (L : Levels) (c : Z) : list Z :=
  match L !! Z.to_nat c with Some (E, Y) => mjoin E ++ mjoin Y | None => [] end.

Definition sleep_array (s : Sched) (c : Z) : list SleepingTask * nat :=
  match run_queues s !! Z.to_nat c with
  | Some rq => (sleeping_tasks rq, sleeping_tasks_count rq)
  | None => ([], 0%nat)
  end.

(** The entries in use of the sleepers of a core. *)
Definition sleepers (s : Sched) (c : Z) : list SleepingTask :=
  take (sleep_array s c).2 (sleep_array s c).1.

(** The array is as long as the number of tasks, and no task is in it twice. *)
Definition sleeping_ok (a : list SleepingTask * nat) : Prop :=
  length a.1 = Z.to_nat MAX_TASKS /\ (a.2 <= length a.1)%nat /\ NoDup (task_ref <$> take a.2 a.1).

Definition cores {A} (l : list A) : Prop := zlen l = MAX_CORES.

Record shape (s : Sched) (L : Levels) : Prop := {
  sh_fit : tasks_fit (tasks s);
  sh_levels : cores L;
  sh_queues : cores (run_queues s);
  sh_current : cores (current_slot_on_core s);
  sh_process : cores (current_process_on_core s);
  sh_flags : cores (core_should_be_rescheduled s);
  sh_slices : cores (slice_remaining_ticks s);
  sh_runnable : cores (runnable_tasks_count s);
  sh_rq : forall c rq E Y, run_queues s !! c = Some rq -> L !! c = Some (E, Y) ->
    rq_ok (tasks s) rq E Y;
  sh_sleeping : forall c rq, run_queues s !! c = Some rq ->
    sleeping_ok (sleeping_tasks rq, sleeping_tasks_count rq);
  sh_apart : forall c c' x, is_core c -> is_core c' ->
    x ∈ queued L c -> x ∈ queued L c' -> c = c';
}.

Lemma core_at {A} (l : list A) c : cores l -> is_core c -> exists x, l !! Z.to_nat c = Some x.
Proof. unfold cores, is_core. intros Hl Hc. apply lookup_lt_is_Some. lia. Qed.

Lemma core_insert {A} (l : list A) c x : cores l -> cores (at_core c x l).
Proof. unfold cores, at_core. by rewrite length_insert. Qed.

Lemma core_lookup {A} (l : list A) c x c' : cores l -> is_core c -> is_core c' ->
  at_core c x l !! Z.to_nat c' = if decide (c' = c) then Some x else l !! Z.to_nat c'.
Proof.
  unfold cores, is_core, at_core. intros. case_decide.
  - subst. apply list_lookup_insert_eq. lia.
  - apply list_lookup_insert_ne. lia.
Qed.

Lemma shape_queue s L c : shape s L -> is_core c ->
  exists rq E Y, run_queues s !! Z.to_nat c = Some rq /\ L !! Z.to_nat c = Some (E, Y) /\
    rq_ok (tasks s) rq E Y.
Proof.
  intros Hs Hc. destruct (core_at _ c (sh_queues _ _ Hs) Hc) as [rq Erq].
  destruct (core_at _ c (sh_levels _ _ Hs) Hc) as [[E Y] EL]. exists rq, E, Y.
  split_and!; [done..|]. by eapply sh_rq.
Qed.

(** A store to a field other than [next], or to a task that is not queued. *)
Lemma shape_put s L x f :
  (forall t, next (f t) = next t) \/ (forall c, is_core c -> x ∉ queued L c) -> shape s L ->
  shape (set_tasks (put_task x f (tasks s)) s) L.
Proof.
  intros Hf [? ? ? ? ? ? ? ? Hrq Hsl Hap]. constructor; try done; cbn.
  - unfold tasks_fit. by rewrite length_put_task.
  - intros c rq E Y H1 H2. eapply rq_same_next; [|by eapply Hrq]. intros y Hy.
    unfold next_at. rewrite task_at_put. case_decide as Ey; [|done]. subst y.
    destruct Hf as [Hf|Hno]; [by destruct (task_at (tasks s) x); cbn; rewrite ?Hf|].
    destruct (Hno (Z.of_nat c)).
    + apply lookup_lt_Some in H2. unfold cores, is_core in *. lia.
    + unfold queued. by rewrite Nat2Z.id, H2.
Qed.

Lemma shape_queued_some s L c x : shape s L -> is_core c -> x ∈ queued L c ->
  is_Some (task_at (tasks s) x).
Proof.
  intros Hs Hc Hx. destruct (shape_queue _ _ _ Hs Hc) as (rq & E & Y & Erq & EL & [HE HY _]).
  unfold queued in Hx. rewrite EL in Hx. apply elem_of_app in Hx as [Hx|Hx].
  - by eapply table_tasks; [apply (tok_levels _ _ _ HE)|].
  - by eapply table_tasks; [apply (tok_levels _ _ _ HY)|].
Qed.

(** One run queue changes, relinking its slots and perhaps one that is queued nowhere. *)
Lemma shape_update s L c rq' E' Y' D ts' :
  shape s L -> is_core c -> rq_ok ts' rq' E' Y' -> relinked D (tasks s) ts' ->
  (forall x, x ∈ D -> x ∈ queued L c \/ forall c', is_core c' -> x ∉ queued L c') ->
  (forall x, x ∈ mjoin E' ++ mjoin Y' -> x ∈ queued L c \/ forall c', is_core c' -> x ∉ queued L c') ->
  sleeping_ok (sleeping_tasks rq', sleeping_tasks_count rq') ->
  shape (set_queues (at_core c rq' (run_queues s)) (set_tasks ts' s)) (at_core c (E', Y') L).
Proof.
  intros Hs Hc Hrq Hr HD HQ Hl.
  assert (Hother : forall c', is_core c' -> c' <> c -> queued (at_core c (E', Y') L) c' = queued L c').
  { intros c' Hc' Hne. unfold queued. rewrite core_lookup, decide_False; [done..|by destruct Hs|done|done]. }
  assert (Hsame : queued (at_core c (E', Y') L) c = mjoin E' ++ mjoin Y').
  { unfold queued. rewrite core_lookup, decide_True; [done..|by destruct Hs|done|done]. }
  destruct Hs as [Hfit HL HQs ? ? ? ? ? Hrqs Hsl Hap]. constructor; try done; cbn.
  - by eapply fit_relinked.
  - by apply core_insert.
  - by apply core_insert.
  - intros i q E Y Hq HLi.
    assert (Hi : is_core (Z.of_nat i)).
    { apply lookup_lt_Some in Hq. unfold at_core in Hq. rewrite length_insert in Hq.
      unfold cores, is_core in *. lia. }
    rewrite <- (Nat2Z.id i) in Hq, HLi. rewrite core_lookup in Hq by done.
    rewrite core_lookup in HLi by done. case_decide as Ei; [by simplify_eq|].
    eapply rq_frame; [done| |by eapply Hrqs]. intros x Hx HxD.
    assert (Hxi : x ∈ queued L (Z.of_nat i)) by (unfold queued; by rewrite HLi).
    destruct (HD x HxD) as [Hxc|Hno]; [|by apply (Hno _ Hi)]. apply Ei. by apply (Hap _ _ x).
  - intros i q Hq. destruct (decide (i = Z.to_nat c)) as [->|Hne]; unfold at_core in Hq.
    + rewrite list_lookup_insert_eq in Hq by (unfold cores, is_core in *; lia). by simplify_eq.
    + rewrite list_lookup_insert_ne in Hq by done. by eapply Hsl.
  - assert (Hcase : forall c1 x, is_core c1 -> c1 <> c -> x ∈ mjoin E' ++ mjoin Y' -> x ∉ queued L c1).
    { intros c1 x Hc1 Hne Hx Hx1. destruct (HQ x Hx) as [Hxc|Hno]; [|by apply (Hno c1)].
      apply Hne. by apply (Hap _ _ x). }
    intros c1 c2 x Hc1 Hc2. destruct (decide (c1 = c)) as [->|H1]; destruct (decide (c2 = c)) as [->|H2];
      rewrite ?Hsame, ?Hother by done; intros Hx1 Hx2; try done.
    + by destruct (Hcase c2 x Hc2 H2 Hx1).
    + by destruct (Hcase c1 x Hc1 H1 Hx2).
    + by apply (Hap _ _ x).
Qed.

(** ** Run queue operations on the whole state *)

(** Only the run queues and [next] fields differ. *)
Record requeued (s s' : Sched) : Prop := {
  rqd_state : exists qs ts, s' = set_queues qs (set_tasks ts s);
  rqd_look : forall x, look (tasks s') x = look (tasks s) x;
  rqd_array : forall c, is_core c -> sleep_array s' c = sleep_array s c;
}.

Lemma rqd_sleepers s s' c : requeued s s' -> is_core c -> sleepers s' c = sleepers s c.
Proof. intros Hr Hc. unfold sleepers. by rewrite (rqd_array _ _ Hr c Hc). Qed.

Lemma on_queue_does {A} c (m : QM CoreRunQueue A) s rq r rq' ts' :
  run_queues s !! Z.to_nat c = Some rq -> m (rq, tasks s) = (r, (rq', ts')) ->
  on_queue c m s = (r, set_queues (at_core c rq' (run_queues s)) (set_tasks ts' s)).
Proof. intros Hq Hm. unfold on_queue. by rewrite Hq, Hm. Qed.

Lemma on_queue_self c s L : shape s L -> is_core c ->
  exists rq, on_queue c self s = (Ok rq, s) /\ run_queues s !! Z.to_nat c = Some rq.
Proof.
  intros Hs Hc. destruct (shape_queue _ _ _ Hs Hc) as (rq & _ & _ & Erq & _). exists rq.
  rewrite (on_queue_does c self s rq (Ok rq) rq (tasks s) Erq eq_refl). split; [|done].
  unfold at_core. rewrite list_insert_id by done. by destruct s.
Qed.

Lemma queued_update L c E Y c' : cores L -> is_core c -> is_core c' ->
  queued (at_core c (E, Y) L) c' = if decide (c' = c) then mjoin E ++ mjoin Y else queued L c'.
Proof. intros. unfold queued. rewrite core_lookup by done. by case_decide. Qed.

Lemma requeued_on s L c rq rq' D ts' : shape s L -> is_core c ->
  run_queues s !! Z.to_nat c = Some rq -> relinked D (tasks s) ts' ->
  sleeping_tasks rq' = sleeping_tasks rq -> sleeping_tasks_count rq' = sleeping_tasks_count rq ->
  requeued s (set_queues (at_core c rq' (run_queues s)) (set_tasks ts' s)).
Proof.
  intros Hs Hc Erq Hr H1 H2. constructor.
  - by eexists _, _.
  - intros x. by eapply look_relinked.
  - intros c' Hc'. unfold sleep_array. cbn. rewrite core_lookup by (done || by destruct Hs).
    case_decide as Ec; [|done]. subst. by rewrite Erq, H1, H2.
Qed.

(** The two ways of queueing. *)
Definition push_kind (k : RequeueType) (x p : Z) : QM CoreRunQueue unit :=
  match k with
  | ExecutingTasks => push_executing_task x p
  | YieldingTasks => push_yielding_task x p
  end.

Lemma push_kind_does k ts rq E Y s p :
  tasks_fit ts -> rq_ok ts rq E Y -> 0 <= p <= MAX_PRIORITY -> (s ∉ mjoin E ++ mjoin Y) ->
  is_Some (task_at ts s) ->
  exists rq' ts' E' Y', push_kind k s p (rq, ts) = (Ok tt, (rq', ts')) /\
    rq_ok ts' rq' E' Y' /\ mjoin E' ++ mjoin Y' ≡ₚ s :: mjoin E ++ mjoin Y /\
    relinked (s :: mjoin E ++ mjoin Y) ts ts' /\
    sleeping_tasks rq' = sleeping_tasks rq /\ sleeping_tasks_count rq' = sleeping_tasks_count rq.
Proof.
  intros Hf Hrq Hp Hn Hsome. destruct (rq_len _ _ _ _ Hrq) as [LE LY].
  assert (Hlt : (Z.to_nat p < Z.to_nat PRIORITY_LEVEL_COUNT)%nat)
    by (unfold PRIORITY_LEVEL_COUNT, MAX_PRIORITY in *; lia). destruct k.
  - destruct (push_executing_does ts rq E Y s p Hf Hrq Hp Hn Hsome) as (rq' & ts' & ? & ? & ? & ? & ?).
    exists rq', ts', (add_at p s E), Y. split_and!; try done. by rewrite join_add by (by rewrite LE).
  - destruct (push_yielding_does ts rq E Y s p Hf Hrq Hp Hn Hsome) as (rq' & ts' & ? & ? & ? & ? & ?).
    exists rq', ts', E, (add_at p s Y). split_and!; try done.
    rewrite join_add by (by rewrite LY). by rewrite <- Permutation_middle.
Qed.

Lemma push_on_core k s L c x p :
  shape s L -> is_core c -> 0 <= p <= MAX_PRIORITY -> is_Some (task_at (tasks s) x) ->
  (forall c', is_core c' -> x ∉ queued L c') ->
  exists s' L', on_queue c (push_kind k x p) s = (Ok tt, s') /\ shape s' L' /\ requeued s s' /\
    forall c' y, is_core c' -> y ∈ queued L' c' <-> y ∈ queued L c' \/ (y = x /\ c' = c).
Proof.
  intros Hs Hc Hp Hsome Hno. destruct (shape_queue _ _ _ Hs Hc) as (rq & E & Y & Erq & EL & Hrq).
  pose proof (Hno c Hc) as Hn. unfold queued in Hn. rewrite EL in Hn.
  destruct (push_kind_does k _ _ _ _ x p (sh_fit _ _ Hs) Hrq Hp Hn Hsome)
    as (rq' & ts' & E' & Y' & Eq & Hrq' & Hperm & Hr & H1 & H2).
  assert (Hqc : queued L c = mjoin E ++ mjoin Y) by (unfold queued; by rewrite EL).
  eexists _, (at_core c (E', Y') L). split; [by eapply on_queue_does|]. split; [|split].
  - eapply shape_update; [done..| | |]; [| |rewrite H1, H2; by apply (sh_sleeping _ _ Hs _ _ Erq)].
    + intros y [->|Hy]%elem_of_cons; [by right|]. left. by rewrite Hqc.
    + intros y. rewrite Hperm. intros [->|Hy]%elem_of_cons; [by right|]. left. by rewrite Hqc.
  - by eapply requeued_on.
  - intros c' y Hc'. rewrite queued_update by (done || by destruct Hs). case_decide as Ec.
    + subst. rewrite Hperm, Hqc. set_solver.
    + naive_solver.
Qed.

(** A slot is taken from a run queue, or nothing is there to take. *)
Lemma taken_from_core s L c rq E Y rq' ts' E' Y' D r x :
  shape s L -> is_core c -> run_queues s !! Z.to_nat c = Some rq -> L !! Z.to_nat c = Some (E, Y) ->
  rq_ok ts' rq' E' Y' -> relinked D (tasks s) ts' -> D ⊆ mjoin E ++ mjoin Y ->
  (r = Some x /\ mjoin E ++ mjoin Y ≡ₚ x :: mjoin E' ++ mjoin Y' \/
   r = None /\ mjoin E' ++ mjoin Y' ≡ₚ mjoin E ++ mjoin Y) ->
  sleeping_tasks rq' = sleeping_tasks rq -> sleeping_tasks_count rq' = sleeping_tasks_count rq ->
  let s' := set_queues (at_core c rq' (run_queues s)) (set_tasks ts' s) in
  shape s' (at_core c (E', Y') L) /\ requeued s s' /\
  (forall x, r = Some x -> x ∈ queued L c) /\
  forall c' y, is_core c' -> y ∈ queued (at_core c (E', Y') L) c' <->
    y ∈ queued L c' /\ r <> Some y.
Proof.
  intros Hs Hc Erq EL Hrq Hr HD Hperm H1 H2.
  assert (Hqc : queued L c = mjoin E ++ mjoin Y) by (unfold queued; by rewrite EL).
  assert (Hsub : forall y, y ∈ mjoin E' ++ mjoin Y' -> y ∈ queued L c).
  { intros y. rewrite Hqc. destruct Hperm as [[_ ->]|[_ ->]]; set_solver. }
  assert (Hxin : forall x, r = Some x -> x ∈ queued L c).
  { intros y Hy. destruct Hperm as [[-> Hp]|[-> _]]; [|done]. injection Hy as ->. rewrite Hqc, Hp. set_solver. }
  split; [|split; [by eapply requeued_on|split; [done|]]].
  - eapply shape_update; [done..| | |]; [| |rewrite H1, H2; by apply (sh_sleeping _ _ Hs _ _ Erq)].
    + intros y Hy. left. rewrite Hqc. by apply HD.
    + intros y Hy. left. by apply Hsub.
  - intros c' y Hc'. rewrite queued_update by (done || by destruct Hs). case_decide as Ec.
    + subst c'. pose proof (rq_disjoint _ _ _ _ (sh_rq _ _ Hs _ _ _ _ Erq EL)) as Hx.
      assert (Hnd : NoDup (mjoin E ++ mjoin Y)).
      { destruct (sh_rq _ _ Hs _ _ _ _ Erq EL) as [[[] _] [[] _] _]. by apply list.NoDup_app. }
      rewrite Hqc. destruct Hperm as [[-> Hp]|[-> Hp]]; [|rewrite Hp; naive_solver].
      rewrite Hp in Hnd |- *. apply NoDup_cons_1_1 in Hnd. rewrite elem_of_cons.
      split; [|naive_solver]. intros Hy. split; [by right|]. intros [= ->]. done.
    + split; [|naive_solver]. intros Hy. split; [done|]. intros Hry. apply Ec.
      apply (sh_apart _ _ Hs _ _ y); [done..|by apply Hxin].
Qed.

Lemma pick_cases ts rq E Y : rq_ok ts rq E Y ->
  (exists x E' Y', pick E Y = (x, (E', Y')) /\ mjoin E ++ mjoin Y ≡ₚ x :: mjoin E' ++ mjoin Y') \/
  (pick E Y = (INVALID_SLOT, (E, Y)) /\ mjoin E ++ mjoin Y = []).
Proof.
  intros Hrq. unfold pick. destruct (top uncons E) as [[x E']|] eqn:Ee.
  - left. exists x, E', Y. split; [done|]. by rewrite (join_top _ _ _ _ uncons_perm Ee).
  - pose proof (proj1 (top_uncons_none E) Ee) as HE. destruct (top uncons Y) as [[x Y']|] eqn:Ey.
    + left. exists x, Y', E. split; [done|]. rewrite HE, (join_top _ _ _ _ uncons_perm Ey).
      by rewrite app_nil_r.
    + right. by rewrite HE, (proj1 (top_uncons_none Y) Ey).
Qed.

Lemma pick_on_core s L c :
  shape s L -> is_core c ->
  exists r s' L', on_queue c pick_next_task s = (Ok (default INVALID_SLOT r), s') /\
    shape s' L' /\ requeued s s' /\ (forall x, r = Some x -> x ∈ queued L c) /\
    (r = None -> queued L c = []) /\
    forall c' y, is_core c' -> y ∈ queued L' c' <-> y ∈ queued L c' /\ r <> Some y.
Proof.
  intros Hs Hc. destruct (shape_queue _ _ _ Hs Hc) as (rq & E & Y & Erq & EL & Hrq).
  destruct (pick_next_task_does _ _ _ _ Hrq) as (rq' & Eq & Hrq' & H1 & H2).
  assert (Hqc : queued L c = mjoin E ++ mjoin Y) by (unfold queued; by rewrite EL).
  destruct (pick_cases _ _ _ _ Hrq) as [(x & E' & Y' & Ep & Hp)|[Ep Hp]]; rewrite Ep in Eq, Hrq'; cbn in Hrq'.
  - exists (Some x). eexists _, _. split; [by eapply on_queue_does|].
    destruct (taken_from_core s L c rq E Y rq' _ E' Y' [] (Some x) x Hs Hc Erq EL Hrq'
      (relinked_refl _ _) (list_subseteq_nil _) (or_introl (conj eq_refl Hp)) H1 H2) as (? & ? & ? & ?).
    by split_and!.
  - exists None. eexists _, _. split; [by eapply on_queue_does|].
    destruct (taken_from_core s L c rq E Y rq' _ E Y [] None 0 Hs Hc Erq EL Hrq'
      (relinked_refl _ _) (list_subseteq_nil _) (or_intror (conj eq_refl (reflexivity _))) H1 H2)
      as (? & ? & ? & ?).
    split_and!; try done. by rewrite Hqc.
Qed.

Lemma taken_free ts Q x Q' : taken ts Q = Some (x, Q') -> cpu_free ts x = true.
Proof.
  intros Ht. destruct (top_inv _ _ _ _ Ht) as (i & l & l' & _ & Hf & _).
  pose proof (take_first_spec (cpu_free ts) l) as H. rewrite Hf in H.
  by destruct H as (? & ? & _ & _ & ? & _).
Qed.

Lemma steal_cases ts E Y :
  (exists x E' Y', steal ts E Y = (x, (E', Y')) /\ cpu_free ts x = true /\
    mjoin E ++ mjoin Y ≡ₚ x :: mjoin E' ++ mjoin Y') \/
  steal ts E Y = (INVALID_SLOT, (E, Y)).
Proof.
  unfold steal. destruct (taken ts E) as [[x E']|] eqn:Ee.
  - left. exists x, E', Y. split_and!; [done|by eapply taken_free|].
    by rewrite (join_top _ _ _ _ (take_first_perm _) Ee).
  - destruct (taken ts Y) as [[x Y']|] eqn:Ey; [|by right].
    left. exists x, E, Y'. split_and!; [done|by eapply taken_free|].
    rewrite (join_top _ _ _ _ (take_first_perm _) Ey). by rewrite <- Permutation_middle.
Qed.

Lemma steal_on_core s L c :
  shape s L -> is_core c ->
  exists r s' L', on_queue c take_stealable_task s = (Ok (default INVALID_SLOT r), s') /\
    shape s' L' /\ requeued s s' /\
    (forall x, r = Some x -> x ∈ queued L c /\ cpu_free (tasks s) x = true) /\
    forall c' y, is_core c' -> y ∈ queued L' c' <-> y ∈ queued L c' /\ r <> Some y.
Proof.
  intros Hs Hc. destruct (shape_queue _ _ _ Hs Hc) as (rq & E & Y & Erq & EL & Hrq).
  destruct (take_stealable_does _ _ _ _ (sh_fit _ _ Hs) Hrq) as (rq' & ts' & Eq & Hrq' & Hr & H1 & H2).
  destruct (steal_cases (tasks s) E Y) as [(x & E' & Y' & Ep & Hfree & Hp)|Ep]; rewrite Ep in Eq, Hrq'; cbn in Hrq'.
  - exists (Some x). eexists _, _. split; [by eapply on_queue_does|].
    destruct (taken_from_core s L c rq E Y rq' ts' E' Y' _ (Some x) x Hs Hc Erq EL Hrq' Hr
      (reflexivity _) (or_introl (conj eq_refl Hp)) H1 H2) as (? & ? & Hin & ?).
    split_and!; try done. intros y [= <-]. split; [by apply Hin|done].
  - exists None. eexists _, _. split; [by eapply on_queue_does|].
    destruct (taken_from_core s L c rq E Y rq' ts' E Y _ None 0 Hs Hc Erq EL Hrq' Hr
      (reflexivity _) (or_intror (conj eq_refl (reflexivity _))) H1 H2) as (? & ? & ? & ?).
    by split_and!.
Qed.

(** ** Everyone is where they should be *)

Definition view_ok (v : view) : Prop :=
  (v_state v = Running -> v_cpu v = true) /\
  (v_cpu v = true -> v_state v <> Free /\ v_state v <> Creating) /\
  is_core (v_home v) /\ 0 <= v_prio v <= MAX_PRIORITY.

Definition current_on (s : Sched) (c : Z) : Z :=
  default INVALID_SLOT (current_slot_on_core s !! Z.to_nat c).
Definition process_on (s : Sched) (c : Z) : Z :=
  default INVALID_PID (current_process_on_core s !! Z.to_nat c).
Definition counter (s : Sched) (c : Z) : Z := default 0 (runnable_tasks_count s !! Z.to_nat c).

Definition on_core (c : Z) (v : view) : bool := v_cpu v && (v_home v =? c).

(** A waiter or sleeper entry cannot wake its task on a foreign core. *)
Definition entry_ok (lk : Z -> option view) (c : Z) (e : SleepingTask) : Prop :=
  exists v, lk (slot_of (task_ref e)) = Some v /\
    (v_pid v = pid_of (task_ref e) -> v_state v = Blocked -> v_home v = c).

Record placed (s : Sched) (L : Levels) : Prop := {
  pl_queued : forall c x, is_core c ->
    x ∈ queued L c <-> exists v, look (tasks s) x = Some v /\ v_state v = Ready /\ v_home v = c;
  pl_current : forall c x, is_core c -> x <> INVALID_SLOT ->
    current_on s c = x <-> exists v, look (tasks s) x = Some v /\ on_core c v = true;
  pl_process : forall c v, is_core c -> look (tasks s) (current_on s c) = Some v ->
    process_on s c = v_pid v;
  pl_view : forall x v, look (tasks s) x = Some v -> view_ok v;
  pl_count : forall c, is_core c -> counter s c = count (look (tasks s)) c;
  pl_sleep : forall c e, is_core c -> e ∈ sleepers s c -> entry_ok (look (tasks s)) c e;
}.

Lemma count_change lk lk' c x v v' :
  0 <= x < MAX_TASKS -> lk x = Some v -> lk' x = Some v' -> (forall y, y <> x -> lk' y = lk y) ->
  count lk' c = count lk c - Z.b2z (runnable_on c v) + Z.b2z (runnable_on c v').
Proof.
  intros Hx E E' Hne. unfold count.
  rewrite (total_one (runnable_at lk' c) (runnable_at lk c) x).
  - unfold runnable_at at 2 3. rewrite E, E'. lia.
  - apply NoDup_seqZ.
  - by apply elem_of_seqZ.
  - intros y Hy. unfold runnable_at. by rewrite Hne.
Qed.

(** One task [x] changes from [v] to [v'], and the rest of the state follows. *)
Lemma placed_update s L s' L' x v v' :
  tasks_fit (tasks s) -> placed s L -> look (tasks s) x = Some v -> view_ok v' ->
  (forall y, look (tasks s') y = if decide (y = x) then Some v' else look (tasks s) y) ->
  (forall c y, is_core c -> y ∈ queued L' c <->
    (y <> x /\ y ∈ queued L c) \/ (y = x /\ v_state v' = Ready /\ v_home v' = c)) ->
  (v_cpu v' = true -> current_on s (v_home v') = x \/ current_on s (v_home v') = INVALID_SLOT) ->
  (forall c, is_core c -> current_on s' c =
    if on_core c v' then x else if on_core c v then INVALID_SLOT else current_on s c) ->
  (forall c, is_core c -> process_on s' c =
    if on_core c v' then v_pid v' else if on_core c v then INVALID_PID else process_on s c) ->
  (forall c, is_core c -> counter s' c =
    counter s c - Z.b2z (runnable_on c v) + Z.b2z (runnable_on c v')) ->
  (forall c e, is_core c -> e ∈ sleepers s' c ->
    (e ∈ sleepers s c /\ (slot_of (task_ref e) = x -> v_pid v' = pid_of (task_ref e) ->
       v_state v' = Blocked -> v_home v' = c)) \/
    (slot_of (task_ref e) = x /\ v_home v' = c)) ->
  placed s' L'.
Proof.
  intros Hf [Pq Pc Pp Pv Pn Ps] Hv Hok Hlk HQ Hfree HC HP HN HS.
  assert (Hxi : x <> INVALID_SLOT) by (intros ->; by rewrite look_invalid in Hv).
  assert (Hx : 0 <= x < MAX_TASKS).
  { apply look_some in Hv as (t & Ht & _). rewrite <- Hf. by eapply task_at_range. }
  assert (Hat : look (tasks s') x = Some v') by (by rewrite Hlk, decide_True).
  assert (Hother : forall y, y <> x -> look (tasks s') y = look (tasks s) y).
  { intros y Hy. by rewrite Hlk, decide_False. }
  constructor.
  - intros c y Hc. rewrite HQ by done. destruct (decide (y = x)) as [->|Hy].
    + rewrite Hat. naive_solver.
    + rewrite Hother, <- Pq by done. naive_solver.
  - intros c y Hc Hy. rewrite HC by done. destruct (decide (y = x)) as [->|Hne].
    + rewrite Hat. split.
      * destruct (on_core c v') eqn:E'; [by eauto|]. destruct (on_core c v) eqn:E; [by intros <-|].
        intros Hcur%Pc; [|done..]. destruct Hcur as (w & Hw & Hon). simplify_eq. congruence.
      * intros (w & [= <-] & ->). done.
    + rewrite Hother by done. rewrite <- Pc by done.
      assert (Hex : on_core c v' = true -> current_on s c <> y).
      { unfold on_core. intros [H1 H2%Z.eqb_eq]%andb_true_iff. subst c.
        destruct (Hfree H1) as [-> | ->]; congruence. }
      destruct (on_core c v') eqn:E'; [split; [congruence|naive_solver]|].
      destruct (on_core c v) eqn:E; [|done].
      assert (current_on s c = x) by (apply Pc; eauto). split; congruence.
  - intros c w Hc. rewrite HC, HP by done. destruct (on_core c v'); [by rewrite Hat; intros [= <-]|].
    destruct (on_core c v) eqn:E; [rewrite Hother, look_invalid by done; done|].
    destruct (decide (current_on s c = x)) as [Hcx|Hcx].
    + apply Pc in Hcx as (u & Hu & Hon); [|done..]. simplify_eq. congruence.
    + rewrite Hother by done. by apply Pp.
  - intros y w. rewrite Hlk. case_decide; [by intros [= <-]|apply Pv].
  - intros c Hc. rewrite HN, Pn by done. symmetry. by apply (count_change _ _ _ x).
  - intros c e Hc He. unfold entry_ok. destruct (HS c e Hc He) as [[He' Hcond]|[Hex Hh]].
    + destruct (Ps c e Hc He') as (w & Hw & Hent). destruct (decide (slot_of (task_ref e) = x)) as [Ex|Ex].
      * rewrite Ex. exists v'. split; [done|]. auto.
      * exists w. by rewrite Hother.
    + rewrite Hex. by exists v'.
Qed.
