(* ===== verification/SchedulerSteps.v ===== *)
(** * SchedulerSteps: every operation of the schedulers keeps the invariant

    Each lemma runs one operation from a state with [shape] and [placed]: it succeeds, no
    assertion fails, and the new state has both again. *)

From Stdlib Require Import ZArith Lia.
From stdpp Require Import base tactics list option numbers sets.
From S2P Require Import Prelude Tasks RunQueue RunQueueOk RunQueueSpec Scheduler SchedulerOk.

Open Scope rust_scope.

Definition inv (s : Sched) : Prop := exists L, shape s L /\ placed s L.

(** ** Loads and stores *)

Lemma load_does {A} (f : Sched -> list A) c s x : f s !! Z.to_nat c = Some x -> load f c s = (Ok x, s).
Proof. intros E. unfold load. by rewrite E. Qed.

Lemma on_slots_slot s x t : task_at (tasks s) x = Some t -> on_slots (slot x) s = (Ok t, s).
Proof. intros E. unfold on_slots. rewrite (slot_does _ _ _ E). by destruct s. Qed.

Lemma on_slots_store s x f : is_Some (task_at (tasks s) x) ->
  on_slots (store x f) s = (Ok tt, set_tasks (put_task x f (tasks s)) s).
Proof. intros [t E]. unfold on_slots. by rewrite (store_does _ _ _ _ E). Qed.

Lemma on_slots_transition s x t from to : task_at (tasks s) x = Some t ->
  on_slots (transition x from to) s =
    if decide (state t = from) then (Ok true, set_tasks (put_task x (set_state to) (tasks s)) s)
    else (Ok false, s).
Proof.
  intros E. unfold on_slots. rewrite (transition_does _ _ _ _ _ E). case_decide; [done|by destruct s].
Qed.

Lemma on_slots_stale s r t : task_at (tasks s) (slot_of r) = Some t ->
  on_slots (is_stale r) s =
    (Ok (negb (pid t =? pid_of r) || negb (bool_decide (state t = Blocked))), s).
Proof.
  intros E. unfold on_slots, is_stale. rewrite (sbind_ok _ _ _ _ _ (slot_does _ _ _ E)).
  by destruct s.
Qed.

Lemma current_load s L c : shape s L -> is_core c ->
  load current_slot_on_core c s = (Ok (current_on s c), s).
Proof.
  intros Hs Hc. destruct (core_at _ c (sh_current _ _ Hs) Hc) as [x E].
  rewrite (load_does _ _ _ _ E). unfold current_on. by rewrite E.
Qed.

Lemma process_load s L c : shape s L -> is_core c ->
  load current_process_on_core c s = (Ok (process_on s c), s).
Proof.
  intros Hs Hc. destruct (core_at _ c (sh_process _ _ Hs) Hc) as [x E].
  rewrite (load_does _ _ _ _ E). unfold process_on. by rewrite E.
Qed.

Lemma counter_load s L c : shape s L -> is_core c ->
  load runnable_tasks_count c s = (Ok (counter s c), s).
Proof.
  intros Hs Hc. destruct (core_at _ c (sh_runnable _ _ Hs) Hc) as [x E].
  rewrite (load_does _ _ _ _ E). unfold counter. by rewrite E.
Qed.

(** Values nobody's place depends on. *)
Ltac same_state := let H := fresh in intros H; destruct H; constructor; assumption.

Lemma shape_flags s L l : cores l -> shape s L -> shape (set_flags l s) L.
Proof. intros Hl. same_state. Qed.
Lemma shape_slices s L l : cores l -> shape s L -> shape (set_slices l s) L.
Proof. intros Hl. same_state. Qed.
Lemma shape_runnable s L l : cores l -> shape s L -> shape (set_runnable l s) L.
Proof. intros Hl. same_state. Qed.
Lemma shape_current s L l p : cores l -> cores p -> shape s L -> shape (set_current l p s) L.
Proof. intros Hl Hp. same_state. Qed.
Lemma shape_ipis s L l : shape s L -> shape (set_ipis l s) L.
Proof. same_state. Qed.
Lemma placed_flags s L l : placed s L -> placed (set_flags l s) L.
Proof. same_state. Qed.
Lemma placed_slices s L l : placed s L -> placed (set_slices l s) L.
Proof. same_state. Qed.
Lemma placed_ipis s L l : placed s L -> placed (set_ipis l s) L.
Proof. same_state. Qed.

Lemma store_flag_does s L c b : shape s L -> is_core c ->
  exists l, cores l /\ store_flag c b s = (Ok tt, set_flags l s).
Proof.
  intros Hs Hc. destruct (core_at _ c (sh_flags _ _ Hs) Hc) as [x E]. eexists. split; cycle 1.
  - unfold store_flag. by rewrite (sbind_ok _ _ _ _ _ (load_does _ _ _ _ E)).
  - apply core_insert, (sh_flags _ _ Hs).
Qed.

Lemma store_slice_does s L c n : shape s L -> is_core c ->
  exists l, cores l /\ store_slice c n s = (Ok tt, set_slices l s).
Proof.
  intros Hs Hc. destruct (core_at _ c (sh_slices _ _ Hs) Hc) as [x E]. eexists. split; cycle 1.
  - unfold store_slice. by rewrite (sbind_ok _ _ _ _ _ (load_does _ _ _ _ E)).
  - apply core_insert, (sh_slices _ _ Hs).
Qed.

Lemma set_current_does s L c x p : shape s L -> is_core c ->
  set_current_task_for_core c x p s = (Ok tt, set_current (at_core c x (current_slot_on_core s))
    (at_core c p (current_process_on_core s)) s).
Proof.
  intros Hs Hc. unfold set_current_task_for_core.
  by rewrite (sbind_ok _ _ _ _ _ (current_load _ _ _ Hs Hc)).
Qed.

Lemma add_runnable_does s L c d : shape s L -> is_core c ->
  add_runnable c d s = (Ok (counter s c),
    set_runnable (at_core c (wrap 32 (counter s c + d)) (runnable_tasks_count s)) s).
Proof.
  intros Hs Hc. unfold add_runnable. by rewrite (sbind_ok _ _ _ _ _ (counter_load _ _ _ Hs Hc)).
Qed.

Lemma current_set s L c x p c' : shape s L -> is_core c -> is_core c' ->
  current_on (set_current (at_core c x (current_slot_on_core s)) p s) c' =
    if decide (c' = c) then x else current_on s c'.
Proof.
  intros Hs Hc Hc'. unfold current_on. cbn. rewrite core_lookup by (done || by destruct Hs).
  by case_decide.
Qed.

Lemma process_set s L c l p c' : shape s L -> is_core c -> is_core c' ->
  process_on (set_current l (at_core c p (current_process_on_core s)) s) c' =
    if decide (c' = c) then p else process_on s c'.
Proof.
  intros Hs Hc Hc'. unfold process_on. cbn. rewrite core_lookup by (done || by destruct Hs).
  by case_decide.
Qed.

Lemma counter_set s L c n c' : shape s L -> is_core c -> is_core c' ->
  counter (set_runnable (at_core c n (runnable_tasks_count s)) s) c' =
    if decide (c' = c) then n else counter s c'.
Proof.
  intros Hs Hc Hc'. unfold counter. cbn. rewrite core_lookup by (done || by destruct Hs).
  by case_decide.
Qed.

(** A count never leaves the 32 bits of its counter. *)
Lemma counter_small s L c : placed s L -> is_core c -> 0 <= counter s c <= MAX_TASKS.
Proof. intros Hp Hc. rewrite (pl_count _ _ Hp c Hc). apply count_bound. Qed.

Lemma wrap_count n : 0 <= n <= MAX_TASKS + 1 -> wrap 32 n = n.
Proof. intros H. apply wrap_small. unfold in_width, MAX_TASKS in *. lia. Qed.

Lemma look_at s x t : task_at (tasks s) x = Some t -> look (tasks s) x = Some (view_of t).
Proof. intros E. unfold look. by rewrite E. Qed.

Lemma task_view s x v : look (tasks s) x = Some v ->
  exists t, task_at (tasks s) x = Some t /\ view_of t = v.
Proof. intros (t & E & ->)%look_some. eauto. Qed.

Lemma not_queued s L x v : placed s L -> look (tasks s) x = Some v -> v_state v <> Ready ->
  forall c, is_core c -> x ∉ queued L c.
Proof.
  intros Hp Hv Hr c Hc Hx. apply (pl_queued _ _ Hp) in Hx as (w & Hw & ? & _); [|done].
  by simplify_eq.
Qed.

Lemma view_current s L x v c : shape s L -> placed s L -> look (tasks s) x = Some v -> is_core c ->
  on_core c v = true -> current_on s c = x /\ process_on s c = v_pid v.
Proof.
  intros Hs Hp Hv Hc Hon. assert (current_on s c = x) as E.
  { apply (pl_current _ _ Hp); [done| |by eauto]. intros ->. by rewrite look_invalid in Hv by (by destruct Hs). }
  split; [done|]. apply (pl_process _ _ Hp); [done|]. by rewrite E.
Qed.

(** ** A task becomes ready *)

Definition with_state (st : TaskState) (v : view) : view :=
  mkView st (v_home v) (v_cpu v) (v_pid v) (v_prio v).

Lemma view_state st t : view_of (set_state st t) = with_state st (view_of t).
Proof. done. Qed.

Lemma view_ok_state st v : view_ok v ->
  st <> Free -> st <> Creating -> (st = Running -> v_cpu v = true) -> view_ok (with_state st v).
Proof. by intros (H1 & H2 & H3 & H4) Hs1 Hs2 Hr. Qed.

(** Only the state of a task changes: it stays on the core it is on. *)
Lemma placed_state s L s' L' x v st :
  shape s L -> placed s L -> look (tasks s) x = Some v -> view_ok (with_state st v) ->
  is_core (v_home v) ->
  (forall y, look (tasks s') y = if decide (y = x) then Some (with_state st v) else look (tasks s) y) ->
  (forall c y, is_core c -> y ∈ queued L' c <->
    (y <> x /\ y ∈ queued L c) \/ (y = x /\ st = Ready /\ v_home v = c)) ->
  current_slot_on_core s' = current_slot_on_core s ->
  current_process_on_core s' = current_process_on_core s ->
  (forall c, is_core c -> counter s' c =
    counter s c - Z.b2z (runnable_on c v) + Z.b2z (runnable_on c (with_state st v))) ->
  (forall c e, is_core c -> e ∈ sleepers s' c ->
    (e ∈ sleepers s c /\ (slot_of (task_ref e) = x -> v_pid v = pid_of (task_ref e) ->
       st = Blocked -> v_home v = c)) \/ (slot_of (task_ref e) = x /\ v_home v = c)) ->
  placed s' L'.
Proof.
  intros Hs Hp Hv Hok Hc Hlk HQ Ecur Eproc HN HS.
  apply (placed_update s L s' L' x v (with_state st v)); try done; [by destruct Hs| | |].
  - cbn. intros Hon. left. apply (view_current _ _ _ _ _ Hs Hp Hv Hc).
    unfold on_core. by rewrite Hon, Z.eqb_refl.
  - intros c Hc'. change (on_core c (with_state st v)) with (on_core c v).
    unfold current_on at 1. rewrite Ecur. fold (current_on s c).
    destruct (on_core c v) eqn:Eon; [|done]. by apply (view_current _ _ _ _ _ Hs Hp Hv Hc').
  - intros c Hc'. change (on_core c (with_state st v)) with (on_core c v).
    unfold process_on at 1. rewrite Eproc. fold (process_on s c).
    destruct (on_core c v) eqn:Eon; [|done]. by apply (view_current _ _ _ _ _ Hs Hp Hv Hc').
Qed.

(** The change of a counter when a task stops or starts counting. *)
Lemma runnable_state c st v : runnable_on c (with_state st v) =
  bool_decide (st = Ready \/ st = Running) && (v_home v =? c).
Proof. done. Qed.

(** The state is stored, the counter raised, the task queued. *)
Lemma ready_push s L x t k :
  shape s L -> placed s L -> task_at (tasks s) x = Some t ->
  state t <> Ready -> state t <> Running -> state t <> Free ->
  let c := home_core t in
  exists s' L', (on_slots (store x (set_state Ready)) ;;; add_runnable c 1 ;;;
      on_queue c (push_kind k x (priority t))) s = (Ok tt, s') /\
    shape s' L' /\ placed s' L' /\
    (forall y, look (tasks s') y =
      if decide (y = x) then Some (with_state Ready (view_of t)) else look (tasks s) y) /\
    (forall c, is_core c -> sleep_array s' c = sleep_array s c) /\
    current_slot_on_core s' = current_slot_on_core s.
Proof.
  intros Hs Hp Et Hr Hrun Hf c. pose proof (look_at _ _ _ Et) as Hv.
  destruct (pl_view _ _ Hp _ _ Hv) as (_ & _ & Hc & Hprio).
  cbn in Hc, Hprio. change (home_core t) with c in Hc.
  unfold sbind at 1. rewrite (on_slots_store _ _ _ (ex_intro _ _ Et)).
  set (s1 := set_tasks _ s). assert (Hs1 : shape s1 L) by (by apply shape_put; [left|]).
  rewrite (sbind_ok _ _ _ _ _ (add_runnable_does s1 L c 1 Hs1 Hc)).
  change (counter s1 c) with (counter s c). rewrite wrap_count by (pose proof (counter_small _ _ _ Hp Hc); lia).
  set (s2 := set_runnable _ s1).
  assert (Hs2 : shape s2 L) by (apply shape_runnable; [|done]; apply core_insert, (sh_runnable _ _ Hs1)).
  destruct (push_on_core k s2 L c x (priority t) Hs2 Hc Hprio) as (s3 & L3 & E3 & Hs3 & Hrq & HQ).
  { cbn. rewrite task_at_put, Et. case_decide; by eexists. }
  { by eapply not_queued. }
  exists s3, L3. split; [done|]. split; [done|]. destruct Hrq as [(qs & ts & ->) Hlk Hsl].
  assert (Hlook : forall y, look ts y =
      if decide (y = x) then Some (with_state Ready (view_of t)) else look (tasks s) y).
  { intros y. cbn in Hlk. rewrite Hlk, look_put. case_decide; [|done]. subst. by rewrite Et. }
  split; [|done]. apply (placed_state s L _ L3 x (view_of t) Ready); try done.
  - intros c' y Hc'. rewrite HQ by done.
    pose proof (not_queued _ _ _ _ Hp Hv Hr c' Hc') as Hno. subst c. cbn in *.
    split; [|naive_solver]. intros [Hy|[-> ->]]; [left|by right]. split; [|done]. by intros ->.
  - intros c' Hc'. change (counter (set_queues qs (set_tasks ts s2)) c') with (counter s2 c').
    unfold s2. rewrite (counter_set s1 L), runnable_state by done. unfold runnable_on.
    rewrite (bool_decide_false (v_state (view_of t) = Ready \/ _)) by (intros [?|?]; cbn in *; done).
    rewrite bool_decide_true by (by left). cbn. fold c. change (counter s1 c') with (counter s c').
    case_decide as Ec; [subst; rewrite Z.eqb_refl|rewrite (proj2 (Z.eqb_neq _ _)) by congruence]; cbn; lia.
  - intros c' e Hc' He. left. unfold sleepers in He. rewrite Hsl in He by done. by split.
Qed.

Lemma seq3_ok {S E A B C D} (a : stM S E A) (b : stM S E B) (c : stM S E C) (d : stM S E D) s x s' :
  (a ;;; b ;;; c) s = (Ok x, s') -> (a ;;; b ;;; c ;;; d) s = d s'.
Proof.
  intros (y & s1 & E1 & (z & s2 & E2 & E3)%sbind_inv_ok)%sbind_inv_ok.
  by rewrite (sbind_ok _ _ _ _ _ E1), (sbind_ok _ _ _ _ _ E2), (sbind_ok _ _ _ _ _ E3).
Qed.

(** The slot a core runs holds a task. *)
Lemma current_task s L c : shape s L -> placed s L -> is_core c -> current_on s c <> INVALID_SLOT ->
  exists t, task_at (tasks s) (current_on s c) = Some t /\ on_cpu t = true /\ home_core t = c /\
    process_on s c = pid t /\ state t <> Free /\ state t <> Creating /\ 0 <= priority t <= MAX_PRIORITY.
Proof.
  intros Hs Hp Hc Hi. destruct (proj1 (pl_current _ _ Hp c _ Hc Hi) eq_refl) as (v & Hv & Hon).
  destruct (task_view _ _ _ Hv) as (t & Et & <-). exists t. unfold on_core in Hon. cbn in Hon.
  apply andb_true_iff in Hon as [H1 H2%Z.eqb_eq]. pose proof (pl_process _ _ Hp c _ Hc Hv).
  destruct (pl_view _ _ Hp _ _ Hv) as (_ & H3 & _ & H4). destruct (H3 H1).
  cbn in *. split_and!; try done; lia.
Qed.

(** Telling a core that a task of priority [p] waits for it. *)
Definition preempt (me core_id prio : Z) : SM unit :=
  let! running_slot := get_current_slot_for_core core_id in
  let! should_preempt :=
    (if running_slot =? INVALID_SLOT then sret true
     else let! t := on_slots (slot running_slot) in sret (priority t <? prio)) in
  if negb should_preempt then sret tt else
  if core_id =? me then mark_core_for_reschedule core_id else send_reschedule_ipi core_id.

Lemma mark_keeps s L c : shape s L -> placed s L -> is_core c ->
  exists s', mark_core_for_reschedule c s = (Ok tt, s') /\ shape s' L /\ placed s' L /\ tasks s' = tasks s /\
    current_slot_on_core s' = current_slot_on_core s /\ run_queues s' = run_queues s.
Proof.
  intros Hs Hp Hc. destruct (store_flag_does s L c true Hs Hc) as (l & Hl & E). eexists.
  split; [exact E|]. split; [by apply shape_flags|]. split; [by apply placed_flags|done].
Qed.

Lemma notify_keeps me s L c : shape s L -> placed s L -> is_core c ->
  exists s', (if c =? me then mark_core_for_reschedule c else send_reschedule_ipi c) s = (Ok tt, s') /\
    shape s' L /\ placed s' L /\ tasks s' = tasks s /\
    current_slot_on_core s' = current_slot_on_core s /\ run_queues s' = run_queues s.
Proof.
  intros Hs Hp Hc. destruct (c =? me); [by apply mark_keeps|]. eexists. split; [reflexivity|].
  split; [by apply shape_ipis|]. split; [by apply placed_ipis|done].
Qed.

Lemma preempt_keeps me s L c p : shape s L -> placed s L -> is_core c ->
  exists s', preempt me c p s = (Ok tt, s') /\ shape s' L /\ placed s' L /\ tasks s' = tasks s /\
    current_slot_on_core s' = current_slot_on_core s /\ run_queues s' = run_queues s.
Proof.
  intros Hs Hp Hc. unfold preempt. rewrite (sbind_ok _ _ _ _ _ (current_load _ _ _ Hs Hc)).
  assert (exists b : bool, (if current_on s c =? INVALID_SLOT then sret true
    else let! t := on_slots (slot (current_on s c)) in sret (priority t <? p)) s = (Ok b, s)) as [b Eb].
  { destruct (Z.eqb_spec (current_on s c) INVALID_SLOT) as [Ei|Ei]; [by exists true|].
    destruct (current_task s L c Hs Hp Hc Ei) as (t & Et & _).
    rewrite (sbind_ok _ _ _ _ _ (on_slots_slot _ _ _ Et)). by eexists. }
  rewrite (sbind_ok _ _ _ _ _ Eb). destruct b; [by apply notify_keeps|]. by exists s.
Qed.

(** Whoever makes a task ready also queues it. *)
Lemma enqueue_ready me s L x t :
  shape s L -> placed s L -> task_at (tasks s) x = Some t ->
  state t <> Ready -> state t <> Running -> state t <> Free ->
  exists s', (on_slots (store x (set_state Ready)) ;;;
      core_enqueue_ready_task me (home_core t) x (priority t)) s = (Ok tt, s') /\ inv s' /\
    (forall y, look (tasks s') y =
      if decide (y = x) then Some (with_state Ready (view_of t)) else look (tasks s) y) /\
    current_slot_on_core s' = current_slot_on_core s /\
    (forall c, is_core c -> sleep_array s' c = sleep_array s c).
Proof.
  intros Hs Hp Et Hr Hrun Hf.
  destruct (ready_push s L x t ExecutingTasks Hs Hp Et Hr Hrun Hf) as (s1 & L1 & E1 & Hs1 & Hp1 & Hlk & Harr & Hcur).
  assert (Hc : is_core (home_core t)) by (apply (pl_view _ _ Hp _ _ (look_at _ _ _ Et)); done).
  destruct (preempt_keeps me s1 L1 (home_core t) (priority t) Hs1 Hp1 Hc) as (s2 & E2 & ? & ? & Htasks & Hsame).
  exists s2. split; [|split; [by exists L1|]]; cycle 1.
  { rewrite Htasks. split; [done|]. destruct Hsame as [Hc2 Hq2]. split; [congruence|].
    intros c Hc'. unfold sleep_array. rewrite Hq2. by apply Harr. }
  unfold core_enqueue_ready_task.
  change (push_executing_task x (priority t)) with (push_kind ExecutingTasks x (priority t)).
  rewrite (seq3_ok _ _ _ _ _ _ _ E1). exact E2.
Qed.

(** What waking [r] makes of the task in slot [y]. *)
Definition woken (r : TaskRef) (y : Z) (v : view) : view :=
  if decide (y = slot_of r /\ v_pid v = pid_of r /\ v_state v = Blocked) then with_state Ready v else v.

Lemma wake_task_does me s r : inv s -> is_Some (task_at (tasks s) (slot_of r)) ->
  exists s', wake_task me r s = (Ok tt, s') /\ inv s' /\
    (forall y, look (tasks s') y = woken r y <$> look (tasks s) y) /\
    current_slot_on_core s' = current_slot_on_core s /\
    (forall c, is_core c -> sleep_array s' c = sleep_array s c).
Proof.
  intros (L & Hs & Hp) [t Et]. unfold wake_task. pose proof (look_at _ _ _ Et) as Hv.
  assert (Hsame : (pid t = pid_of r -> state t <> Blocked) ->
    forall y, look (tasks s) y = woken r y <$> look (tasks s) y).
  { intros Hno y. destruct (look (tasks s) y) as [v|] eqn:Ev; [|done]. cbn. unfold woken.
    rewrite decide_False; [done|]. intros (-> & H1 & H2). rewrite Hv in Ev. injection Ev as <-. by apply Hno. }
  rewrite (sbind_ok _ _ _ _ _ (on_slots_slot _ _ _ Et)).
  destruct (Z.eqb_spec (pid t) (pid_of r)) as [Epid|Epid]; cbn [negb]; cycle 1.
  { exists s. split; [done|]. split; [by exists L|]. split; [by apply Hsame|done]. }
  unfold sbind at 1. rewrite (on_slots_transition _ _ _ _ _ Et). case_decide as Eb; cbn [negb]; cycle 1.
  { exists s. split; [done|]. split; [by exists L|]. split; [by apply Hsame|done]. }
  destruct (enqueue_ready me s L (slot_of r) t Hs Hp Et) as (s' & E & Hinv & Hlk & Hrest); [congruence..|].
  exists s'. split; [|split; [done|split; [|done]]].
  - revert E. unfold sbind at 1. rewrite (on_slots_store _ _ _ (ex_intro _ _ Et)).
    intros E. unfold sbind at 1. rewrite (on_slots_slot _ _ (set_state Ready t)); [exact E|].
    cbn. by rewrite task_at_put, decide_True, Et by done.
  - intros y. rewrite Hlk. case_decide as Ey.
    + subst y. rewrite Hv. cbn. unfold woken. by rewrite decide_True.
    + destruct (look (tasks s) y) as [v|]; [|done]. cbn. unfold woken. rewrite decide_False; [done|].
      by intros [? _].
Qed.

Lemma wake_task_keeps me s r : inv s -> is_Some (task_at (tasks s) (slot_of r)) ->
  exists s', wake_task me r s = (Ok tt, s') /\ inv s'.
Proof. intros Hinv Hr. destruct (wake_task_does me s r Hinv Hr) as (s' & ? & ? & _). eauto. Qed.

Lemma start_task_keeps me s x t : inv s -> task_at (tasks s) x = Some t -> state t = Creating ->
  exists s', start_task me (home_core t) x (priority t) s = (Ok tt, s') /\ inv s'.
Proof.
  intros (L & Hs & Hp) Et Est.
  destruct (enqueue_ready me s L x t Hs Hp Et) as (s' & ? & ? & _); [congruence..|]. eauto.
Qed.

(** ** A core picks a task up *)

Lemma queued_task s L c x : placed s L -> is_core c -> x ∈ queued L c ->
  exists t, task_at (tasks s) x = Some t /\ state t = Ready /\ home_core t = c /\
    0 <= priority t <= MAX_PRIORITY.
Proof.
  intros Hp Hc Hx. apply (pl_queued _ _ Hp) in Hx as (v & Hv & Hr & Hh); [|done].
  pose proof (pl_view _ _ Hp _ _ Hv) as (_ & _ & _ & H). destruct (task_view _ _ _ Hv) as (t & Et & <-).
  exists t. cbn in *. split_and!; try done; lia.
Qed.

Lemma requeued_task s s' x t : requeued s s' -> task_at (tasks s) x = Some t ->
  exists t', task_at (tasks s') x = Some t' /\ view_of t' = view_of t.
Proof.
  intros Hr Et. pose proof (rqd_look _ _ Hr x) as Hl. rewrite (look_at _ _ _ Et) in Hl.
  by apply task_view in Hl.
Qed.

Lemma wrap_slot s x t : tasks_fit (tasks s) -> task_at (tasks s) x = Some t -> wrap 16 x = x.
Proof.
  intros Hf Et. apply task_at_range in Et. rewrite Hf in Et. apply wrap_small.
  unfold in_width, MAX_TASKS in *. lia.
Qed.

Lemma begin_keeps s0 L0 s L c x t :
  shape s0 L0 -> placed s0 L0 -> is_core c -> current_on s0 c = INVALID_SLOT ->
  shape s L -> requeued s0 s -> task_at (tasks s0) x = Some t -> state t = Ready -> home_core t = c ->
  (forall c' y, is_core c' -> y ∈ queued L c' <-> y ∈ queued L0 c' /\ Some x <> Some y) ->
  exists s', run_task_begin c x s = (Ok tt, s') /\ shape s' L /\ placed s' L /\ current_on s' c = x.
Proof.
  intros Hs0 Hp0 Hc Hcur Hs Hrq Et0 Est Hhome HQ. pose proof (look_at _ _ _ Et0) as Hv0.
  destruct (requeued_task _ _ _ _ Hrq Et0) as (t1 & Et & Hview).
  assert (Hoff : on_cpu t = false).
  { destruct (on_cpu t) eqn:E; [|done]. exfalso.
    destruct (view_current s0 L0 x _ c Hs0 Hp0 Hv0 Hc) as [Hx _].
    - unfold on_core. cbn. by rewrite E, Hhome, Z.eqb_refl.
    - rewrite Hcur in Hx. subst x. by rewrite look_invalid in Hv0 by (by destruct Hs0). }
  injection Hview as V1 V2 V3 V4 V5 . unfold run_task_begin.
  rewrite (sbind_ok _ _ _ _ _ (on_slots_slot _ _ _ Et)). rewrite bool_decide_true by congruence.
  unfold sbind at 1, sassert, sret. unfold sbind at 1. rewrite (on_slots_store _ _ _ (ex_intro _ _ Et)).
  set (s1 := set_tasks _ s). assert (Hs1 : shape s1 L) by (by apply shape_put; [left|]).
  unfold sbind at 1. rewrite (on_slots_store s1 x) by (apply is_some_put; by eexists).
  set (s2 := set_tasks _ s1). assert (Hs2 : shape s2 L) by (by apply shape_put; [left|]).
  rewrite (wrap_slot _ _ _ (sh_fit _ _ Hs) Et).
  rewrite (sbind_ok _ _ _ _ _ (set_current_does s2 L c x (pid t1) Hs2 Hc)).
  set (s3 := set_current _ _ s2).
  assert (Hs3 : shape s3 L) by (apply shape_current; [apply core_insert..|]; by destruct Hs2).
  destruct (store_flag_does s3 L c false Hs3 Hc) as (fl & Hfl & Efl). rewrite (sbind_ok _ _ _ _ _ Efl).
  assert (Hs4 : shape (set_flags fl s3) L) by (by apply shape_flags).
  destruct (store_slice_does _ L c (get_slice_ticks_for_priority (priority t1)) Hs4 Hc) as (sl & Hsl & ->).
  eexists. split; [reflexivity|]. split; [by apply shape_slices|].
  assert (Hcur3 : forall c', is_core c' -> current_on s3 c' = if decide (c' = c) then x else current_on s0 c').
  { intros c' Hc'. unfold s3. rewrite (current_set s2 L) by done.
    destruct Hrq as [(qs & ts & ->) _ _]. done. }
  split; [|change (current_on s3 c = x); by rewrite Hcur3, decide_True].
  apply placed_slices, placed_flags.
  set (v' := mkView Running c true (pid t) (priority t)).
  assert (Hon : forall c', on_core c' v' = (c =? c')) by done.
  assert (Hon0 : forall c', on_core c' (view_of t) = false) by (intros c'; unfold on_core; cbn; by rewrite Hoff).
  apply (placed_update s0 L0 s3 L x (view_of t) v'); try done; [by destruct Hs0| | | | | | | |].
  - destruct (pl_view _ _ Hp0 _ _ Hv0) as (_ & _ & H). by subst c.
  - intros y. cbn. rewrite !look_put. case_decide; [|by apply rqd_look].
    subst. rewrite task_at_put, decide_True, Et by done. cbn. unfold v', view_of, compose. cbn. congruence.
  - intros c' y Hc'. rewrite HQ by done. naive_solver.
  - by right.
  - intros c' Hc'. rewrite Hcur3, Hon, Hon0 by done. destruct (Z.eqb_spec c c'); by case_decide; subst.
  - intros c' Hc'. unfold s3. rewrite (process_set s2 L), Hon, Hon0 by done.
    destruct Hrq as [(qs & ts & ->) _ _]. destruct (Z.eqb_spec c c'); case_decide; subst; by try congruence.
  - intros c' Hc'. change (counter s3 c') with (counter s c'). destruct Hrq as [(qs & ts & ->) _ _].
    change (counter (set_queues qs (set_tasks ts s0)) c') with (counter s0 c').
    unfold runnable_on. cbn. rewrite Est, Hhome. rewrite !bool_decide_true by auto. lia.
  - intros c' e Hc' He. left. change (e ∈ sleepers s c') in He. by rewrite (rqd_sleepers _ _ _ Hrq) in He.
Qed.
