(* ===== verification/SchedulerLeave.v ===== *)
(** * SchedulerLeave: tasks that leave their core, and tasks that change cores

    Preemption and yielding, blocking until a point in time, exiting, the return into the
    scheduler loop, the timer's wake-ups and work stealing keep the invariant. *)

From Stdlib Require Import ZArith Lia.
From stdpp Require Import base tactics list option numbers sets.
From S2P Require Import Prelude Tasks RunQueue RunQueueOk RunQueueSpec Scheduler SchedulerOk SchedulerSteps.

Open Scope rust_scope.

Lemma shape_sleepers s L c e : shape s L -> is_core c -> e ∈ sleepers s c ->
  exists rq, run_queues s !! Z.to_nat c = Some rq /\
    e ∈ take (sleeping_tasks_count rq) (sleeping_tasks rq).
Proof.
  intros Hs Hc He. destruct (shape_queue _ _ _ Hs Hc) as (rq & _ & _ & Erq & _). exists rq.
  split; [done|]. unfold sleepers, sleep_array in He. by rewrite Erq in He.
Qed.

Lemma switch_out_keeps s c k :
  inv s -> is_core c -> current_on s c <> INVALID_SLOT ->
  exists s', switch_out c k s = (Ok (current_on s c), s') /\ inv s' /\
    current_on s' c = current_on s c /\
    exists t, task_at (tasks s') (current_on s c) = Some t /\ state t <> Running.
Proof.
  intros (L & Hs & Hp) Hc Hi. set (x := current_on s c) in *.
  destruct (current_task s L c Hs Hp Hc Hi) as (t & Et & Hon & Hh & _ & Hf & _ & Hprio). fold x in Et.
  unfold switch_out. rewrite (sbind_ok _ _ _ _ _ (current_load _ _ _ Hs Hc)). fold x.
  rewrite (proj2 (Z.eqb_neq _ _) Hi). unfold sbind at 1, sassert at 1, sret at 1. cbn [negb].
  unfold sbind at 1. rewrite (on_slots_transition _ _ _ _ _ Et). case_decide as Er; cycle 1.
  { exists s. split_and!; try done; [by exists L|by exists t]. }
  set (s1 := set_tasks _ s). assert (Hs1 : shape s1 L) by (by apply shape_put; [left|]).
  assert (E1 : task_at (tasks s1) x = Some (set_state Ready t)).
  { cbn. by rewrite task_at_put, decide_True, Et by done. }
  pose proof (look_at _ _ _ Et) as Hv.
  destruct (push_on_core k s1 L c x (priority t) Hs1 Hc Hprio) as (s2 & L2 & E2 & Hs2 & Hrq & HQ).
  { by eexists. } { eapply not_queued; [done|exact Hv|]. cbn. congruence. }
  exists s2. split; [|split; [|split]].
  - unfold sbind at 1. unfold sbind at 1. rewrite (on_slots_slot _ _ _ E1).
    cbn [home_core set_state priority]. rewrite Hh, Z.eqb_refl. unfold sbind at 1, sassert, sret at 1.
    unfold push_kind in E2. destruct k; by rewrite E2.
  - exists L2. split; [done|]. destruct (requeued_task _ _ _ _ Hrq E1) as (t2 & E3 & Hview).
    apply (placed_state s L s2 L2 x (view_of t) Ready); try done.
    + apply view_ok_state; [by apply (pl_view _ _ Hp x)|done..].
    + cbn. by rewrite Hh.
    + intros y. rewrite (rqd_look _ _ Hrq). cbn. rewrite look_put. case_decide; [|done]. subst.
      by rewrite Et.
    + intros c' y Hc'. rewrite HQ by done. cbn. rewrite Hh.
      assert (Hno : x ∉ queued L c') by (eapply not_queued; [done|exact Hv| |done]; cbn; congruence).
      split; [|naive_solver]. intros [Hy|[-> ->]]; [left|by right]. split; [|done]. by intros ->.
    + by destruct Hrq as [(qs & ts & ->) _ _].
    + by destruct Hrq as [(qs & ts & ->) _ _].
    + intros c' _. destruct Hrq as [(qs & ts & ->) _ _]. rewrite runnable_state. unfold runnable_on.
      change (counter (set_queues qs (set_tasks ts s1)) c') with (counter s c').
      cbn. rewrite !bool_decide_true by auto. lia.
    + intros c' e Hc' He. left. rewrite (rqd_sleepers _ _ _ Hrq) in He by done. by split.
  - by destruct Hrq as [(qs & ts & ->) _ _].
  - destruct (requeued_task _ _ _ _ Hrq E1) as (t2 & E3 & Hview). exists t2. split; [done|].
    injection Hview as -> _. done.
Qed.

(** The scheduler loop takes the core back from a task that does not run any more. *)
Lemma run_task_leave_keeps s c t :
  inv s -> is_core c -> current_on s c <> INVALID_SLOT ->
  task_at (tasks s) (current_on s c) = Some t -> state t <> Running ->
  exists s' L, run_task_leave c (current_on s c) s = (Ok tt, s') /\ shape s' L /\ placed s' L /\
    task_at (tasks s') (current_on s c) = Some (set_on_cpu false t) /\ current_on s' c = INVALID_SLOT.
Proof.
  intros (L & Hs & Hp) Hc Hi Et Hrun. set (x := current_on s c) in *.
  destruct (current_task s L c Hs Hp Hc Hi) as (t0 & Et0 & Hon & Hh & _ & Hf & Hcr & Hprio).
  fold x in Et0. rewrite Et in Et0. injection Et0 as <-. pose proof (look_at _ _ _ Et) as Hv.
  unfold run_task_leave, sbind at 1. rewrite (on_slots_store _ _ _ (ex_intro _ _ Et)).
  set (s1 := set_tasks _ s). assert (Hs1 : shape s1 L) by (by apply shape_put; [left|]).
  rewrite (set_current_does s1 L) by done. eexists _, L. split; [reflexivity|].
  assert (Honc : forall c', on_core c' (view_of t) = (home_core t =? c'))
    by (intros; unfold on_core; cbn; by rewrite Hon).
  split; [|split; [|split]].
  - apply shape_current; [apply core_insert..|]; by destruct Hs1.
  - set (v' := mkView (state t) (home_core t) false (pid t) (priority t)).
    apply (placed_update s L _ L x (view_of t) v'); try done; [by destruct Hs| | | | | | | ].
    + destruct (pl_view _ _ Hp _ _ Hv) as (_ & _ & H). done.
    + intros y. cbn. rewrite look_put. case_decide; [|done]. subst. by rewrite Et.
    + intros c' y Hc'. rewrite !(pl_queued _ _ Hp) by done. cbn. split.
      * intros (w & Hw & Hr & Hhw). destruct (decide (y = x)) as [->|]; [right; naive_solver|].
        left. eauto.
      * intros [[_ ?]|(-> & ? & ?)]; [done|]. exists (view_of t). done.
    + intros c' Hc'. rewrite (current_set s1 L) by done. rewrite Honc. cbn. rewrite Hh.
      destruct (Z.eqb_spec c c'); case_decide; subst; done.
    + intros c' Hc'. rewrite (process_set s1 L) by done. rewrite Honc. cbn. rewrite Hh.
      destruct (Z.eqb_spec c c'); case_decide; subst; done.
    + intros c' Hc'. change (runnable_on c' v') with (runnable_on c' (view_of t)).
      change (counter (set_current _ _ s1) c') with (counter s c'). lia.
    + intros c' e Hc' He. left. split; [done|]. intros Hx Hpid Hb.
      destruct (pl_sleep _ _ Hp c' e Hc' He) as (w & Hw & Hent). rewrite Hx in Hw. simplify_eq.
      by apply Hent.
  - cbn. by rewrite task_at_put, decide_True, Et by done.
  - rewrite (current_set s1 L) by done. by rewrite decide_True.
Qed.

Lemma run_task_reap_keeps s L x t :
  shape s L -> placed s L -> task_at (tasks s) x = Some t -> (state t = Dead -> on_cpu t = false) ->
  exists s', run_task_reap x s = (Ok tt, s') /\ inv s' /\
    current_slot_on_core s' = current_slot_on_core s.
Proof.
  intros Hs Hp Et Hd. pose proof (look_at _ _ _ Et) as Hv. unfold run_task_reap.
  rewrite (sbind_ok _ _ _ _ _ (on_slots_slot _ _ _ Et)). case_decide as Ed; cycle 1.
  { exists s. split; [done|]. split; [by exists L|done]. }
  unfold release_task_slot. rewrite (on_slots_store _ _ _ (ex_intro _ _ Et)). eexists. split; [reflexivity|].
  split; [|done]. exists L. split; [by apply shape_put; [left|]|].
  set (v' := mkView Free (home_core t) false INVALID_PID (priority t)).
  assert (Honc : forall c', on_core c' (view_of t) = false)
    by (intros; unfold on_core; cbn; by rewrite Hd).
  apply (placed_update s L _ L x (view_of t) v'); try done; [by destruct Hs| | | | | | |].
  - by destruct (pl_view _ _ Hp _ _ Hv) as (_ & _ & H).
  - intros y. cbn. rewrite look_put. case_decide; [|done]. subst. rewrite Et. cbn.
    unfold v', view_of. cbn. by rewrite Hd.
  - intros c' y Hc'. rewrite !(pl_queued _ _ Hp) by done. cbn. split; [|naive_solver].
    intros (w & Hw & Hr & Hhw). left. split; [|by eauto]. intros ->. rewrite Hv in Hw. injection Hw as <-. cbn in Hr. congruence.
  - intros c' _. by rewrite Honc.
  - intros c' _. by rewrite Honc.
  - intros c' _. change (counter (set_tasks _ s) c') with (counter s c'). unfold runnable_on. cbn.
    rewrite Ed, !bool_decide_false by (intros [?|?]; congruence). cbn. lia.
  - intros c' e Hc' He. by left.
Qed.

Lemma run_task_end_keeps s c t :
  inv s -> is_core c -> current_on s c <> INVALID_SLOT ->
  task_at (tasks s) (current_on s c) = Some t -> state t <> Running ->
  exists s', run_task_end c (current_on s c) s = (Ok tt, s') /\ inv s' /\ current_on s' c = INVALID_SLOT.
Proof.
  intros Hinv Hc Hi Et Hrun.
  destruct (run_task_leave_keeps s c t Hinv Hc Hi Et Hrun) as (s1 & L & E1 & Hs1 & Hp1 & Et1 & Hcur).
  destruct (run_task_reap_keeps s1 L _ _ Hs1 Hp1 Et1) as (s2 & E2 & Hinv2 & Hcur2); [done|].
  exists s2. unfold run_task_end. rewrite (sbind_ok _ _ _ _ _ E1). split; [done|]. split; [done|].
  unfold current_on. by rewrite Hcur2.
Qed.

(** ** Exits *)

Lemma total_pos f l x : x ∈ l -> (forall y, 0 <= f y) -> f x = 1 -> 1 <= total f l.
Proof.
  intros Hx Hf H1. induction l as [|y l IH]; [set_solver|]. simpl. pose proof (Hf y).
  assert (0 <= total f l).
  { clear -Hf. induction l as [|z l IH]; simpl; [done|]. specialize (Hf z). lia. }
  apply elem_of_cons in Hx as [->|Hx]; [lia|]. specialize (IH Hx). lia.
Qed.

Lemma counter_pos s L x t c : shape s L -> placed s L -> is_core c ->
  task_at (tasks s) x = Some t -> state t = Running -> home_core t = c -> 1 <= counter s c.
Proof.
  intros Hs Hp Hc Et Hr Hh. rewrite (pl_count _ _ Hp c Hc). unfold count. apply (total_pos _ _ x).
  - apply elem_of_seqZ. apply task_at_range in Et. rewrite (sh_fit _ _ Hs) in Et. lia.
  - intros y. unfold runnable_at. destruct (look _ y) as [v|]; [destruct (runnable_on c v)|]; done.
  - unfold runnable_at. rewrite (look_at _ _ _ Et). unfold runnable_on. cbn.
    rewrite Hr, Hh, Z.eqb_refl, bool_decide_true by auto. done.
Qed.

(** The running task stops counting as runnable: it blocks or dies. *)
Lemma leave_run_queue s L c t st :
  shape s L -> placed s L -> is_core c -> current_on s c <> INVALID_SLOT ->
  task_at (tasks s) (current_on s c) = Some t -> state t = Running ->
  st = Blocked \/ st = Dead ->
  (forall c' e, is_core c' -> e ∈ sleepers s c' -> st = Blocked ->
    task_ref e = mkRef (current_on s c) (pid t) -> c' = c) ->
  exists s', (on_slots (store (current_on s c) (set_state st)) ;;; core_task_leave_run_queue c) s =
      (Ok tt, s') /\ shape s' L /\ placed s' L /\ current_on s' c = current_on s c.
Proof.
  intros Hs Hp Hc Hi Et Hr Hst Hent. set (x := current_on s c) in *.
  destruct (current_task s L c Hs Hp Hc Hi) as (t0 & Et0 & Hon & Hh & _ & Hf & _ & Hprio).
  fold x in Et0. rewrite Et in Et0. injection Et0 as <-. pose proof (look_at _ _ _ Et) as Hv.
  pose proof (counter_pos s L x t c Hs Hp Hc Et Hr Hh) as Hpos.
  pose proof (counter_small _ _ _ Hp Hc) as Hsmall.
  unfold sbind at 1. rewrite (on_slots_store _ _ _ (ex_intro _ _ Et)).
  set (s1 := set_tasks _ s). assert (Hs1 : shape s1 L) by (by apply shape_put; [left|]).
  unfold core_task_leave_run_queue. rewrite (sbind_ok _ _ _ _ _ (add_runnable_does s1 L c (-1) Hs1 Hc)).
  change (counter s1 c) with (counter s c). rewrite (proj2 (Z.ltb_lt _ _)) by lia.
  rewrite wrap_count by lia. eexists. split; [reflexivity|].
  split; [apply shape_runnable; [apply core_insert; by destruct Hs1|done]|]. split; [|done].
  assert (Hnr : st <> Ready /\ st <> Running /\ st <> Free /\ st <> Creating) by (destruct Hst; by subst).
  destruct Hnr as (Hn1 & Hn2 & Hn3 & Hn4).
  apply (placed_state s L _ L x (view_of t) st); try done.
  - apply view_ok_state; [by apply (pl_view _ _ Hp x)|done..].
  - cbn. by rewrite Hh.
  - intros y. cbn. rewrite look_put. case_decide; [|done]. subst y. by rewrite Et.
  - intros c' y Hc'. split; [|naive_solver]. intros Hy. left. split; [|done]. intros ->.
    eapply not_queued; [done|exact Hv| |exact Hc'|done]. cbn. congruence.
  - intros c' Hc'. rewrite (counter_set s1 L) by done. rewrite runnable_state. unfold runnable_on. cbn.
    rewrite Hr, Hh, bool_decide_true, (bool_decide_false (st = Ready \/ _)) by naive_solver. cbn.
    change (counter s1 c') with (counter s c').
    case_decide as E; [subst; rewrite Z.eqb_refl|rewrite (proj2 (Z.eqb_neq _ _)) by congruence]; cbn; lia.
  - intros c' e Hc' He. left. split; [exact He|]. intros Hx Hpid Hb. cbn. rewrite Hh. symmetry.
    apply (Hent c' e); try done. rewrite <- Hx. cbn in Hpid. rewrite Hpid. by destruct (task_ref e).
Qed.

Lemma exit_keeps s c t :
  inv s -> is_core c -> current_on s c <> INVALID_SLOT ->
  task_at (tasks s) (current_on s c) = Some t -> state t = Running ->
  exists s', exit_mark_dead c s = (Ok tt, s') /\ inv s' /\ current_on s' c = current_on s c.
Proof.
  intros (L & Hs & Hp) Hc Hi Et Hr.
  destruct (current_task s L c Hs Hp Hc Hi) as (t0 & Et0 & _ & Hh & _).
  rewrite Et in Et0. injection Et0 as <-.
  destruct (leave_run_queue s L c t Dead Hs Hp Hc Hi Et Hr) as (s' & E & ? & ? & ?); [by right|done|].
  exists s'. split; [|split; [by exists L|done]]. unfold exit_mark_dead.
  rewrite (sbind_ok _ _ _ _ _ (current_load _ _ _ Hs Hc)), (proj2 (Z.eqb_neq _ _) Hi).
  unfold sbind at 1, sassert, sret. cbn [negb].
  rewrite (sbind_ok _ _ _ _ _ (on_slots_slot _ _ _ Et)). by rewrite Hh.
Qed.

(** ** Sleeping *)

(** The array of sleepers of a core is replaced. *)
Lemma array_update s L c rq l n : shape s L -> is_core c ->
  run_queues s !! Z.to_nat c = Some rq -> sleeping_ok (l, n) ->
  let s' := set_queues (at_core c (set_sleeping l n rq) (run_queues s)) (set_tasks (tasks s) s) in
  shape s' L /\
  forall c', is_core c' -> sleep_array s' c' = if decide (c' = c) then (l, n) else sleep_array s c'.
Proof.
  intros Hs Hc Erq Hok. destruct (shape_queue _ _ _ Hs Hc) as (rq0 & E & Y & Erq0 & EL & Hrq).
  rewrite Erq in Erq0. injection Erq0 as <-.
  assert (rq_ok (tasks s) (set_sleeping l n rq) E Y) by (by destruct Hrq).
  assert (at_core c (E, Y) L = L) as HL by (unfold at_core; by rewrite list_insert_id).
  split.
  - rewrite <- HL. eapply (shape_update _ _ _ _ _ _ []); try done; [apply relinked_refl|set_solver|].
    intros x Hx. left. unfold queued. by rewrite EL.
  - intros c' Hc'. unfold sleep_array. cbn. rewrite core_lookup by (done || by destruct Hs).
    by case_decide.
Qed.

Lemma placed_array s L c rq' s' : placed s L ->
  s' = set_queues (at_core c rq' (run_queues s)) (set_tasks (tasks s) s) ->
  (forall c' e, is_core c' -> e ∈ sleepers s' c' -> entry_ok (look (tasks s)) c' e) -> placed s' L.
Proof. intros [] -> Hent. by constructor. Qed.

Lemma list_filter_in {A} (p : A -> bool) l x : x ∈ List.filter p l <-> x ∈ l /\ p x = true.
Proof. rewrite !list_elem_of_In. apply filter_In. Qed.

Lemma NoDup_fmap_filter {A B} (f : A -> B) (p : A -> bool) l :
  NoDup (f <$> l) -> NoDup (f <$> List.filter p l).
Proof.
  induction l as [|x l IH]; [done|]. rewrite fmap_cons. intros Hn. cbn [List.filter].
  apply NoDup_cons_1_1 in Hn as Hx. apply NoDup_cons_1_2 in Hn. destruct (p x); [|by apply IH].
  rewrite fmap_cons. constructor; [|by apply IH]. intros (y & Hxy & [Hy _]%list_filter_in)%list_elem_of_fmap.
  apply Hx. rewrite Hxy. by apply list_elem_of_fmap_2.
Qed.

(** With one task running, at most 63 distinct entries can be waiting. *)
Lemma waiting_room {A} (ref : A -> TaskRef) ts l x t :
  tasks_fit ts -> NoDup (ref <$> l) -> task_at ts x = Some t -> state t <> Blocked ->
  (length (List.filter (fun e => waiting ts (ref e)) l) < Z.to_nat MAX_TASKS)%nat.
Proof.
  intros Hf Hn Hx Hb. set (w := List.filter _ l).
  assert (Hw : forall e, e ∈ w -> exists u, task_at ts (slot_of (ref e)) = Some u /\
    pid u = pid_of (ref e) /\ state u = Blocked).
  { intros e [_ He]%list_filter_in. unfold waiting in He.
    destruct (task_at ts (slot_of (ref e))) as [u|]; [|done].
    apply andb_true_iff in He as [H1%Z.eqb_eq H2%bool_decide_eq_true]. by exists u. }
  assert (Hnd : NoDup (slot_of <$> (ref <$> w))).
  { apply NoDup_fmap_2_strong; [|by apply NoDup_fmap_filter].
    intros [i p] [j q] (e & -> & He)%list_elem_of_fmap (e' & -> & He')%list_elem_of_fmap Hij.
    destruct (Hw e He) as (u & Hu & Hp & _). destruct (Hw e' He') as (u' & Hu' & Hp' & _).
    rewrite Hij in Hu. simplify_eq. destruct (ref e), (ref e'). cbn in *. congruence. }
  assert (Hsub : NoDup (x :: (slot_of <$> (ref <$> w)))).
  { constructor; [|done]. intros (r & -> & (e & -> & He)%list_elem_of_fmap)%list_elem_of_fmap.
    destruct (Hw e He) as (u & Hu & _ & Hub). congruence. }
  assert (length (x :: (slot_of <$> (ref <$> w))) <= length (seqZ 0 MAX_TASKS))%nat as Hlen.
  { apply submseteq_length, NoDup_submseteq; [done|]. intros y Hy. apply elem_of_seqZ.
    assert (0 <= y < zlen ts); [|unfold tasks_fit in Hf; lia].
    apply elem_of_cons in Hy as [->|(r & -> & (e & -> & He)%list_elem_of_fmap)%list_elem_of_fmap];
      [by eapply task_at_range|]. destruct (Hw e He) as (u & Hu & _). by eapply task_at_range. }
  rewrite length_seqZ in Hlen. cbn [length] in Hlen. rewrite !length_fmap in Hlen. lia.
Qed.

Lemma sleeping_ok_add l n e :
  sleeping_ok (l, n) -> (n < length l)%nat -> (task_ref e ∉ task_ref <$> take n l) ->
  sleeping_ok (<[n := e]> l, S n) /\ take (S n) (<[n := e]> l) = take n l ++ [e].
Proof.
  intros (Hl & Hn & Hd) Hlt He. cbn in *.
  assert (Ht : take (S n) (<[n := e]> l) = take n l ++ [e]).
  { rewrite (take_S_r _ n e) by (by apply list_lookup_insert_eq). by rewrite take_insert_ge. }
  split; [|done]. unfold sleeping_ok. cbn [fst snd]. rewrite length_insert, Ht, fmap_app.
  split; [done|]. split; [lia|]. apply list.NoDup_app. split; [done|]. split; [|apply NoDup_singleton].
  intros y Hy Hin%list_elem_of_singleton. by subst.
Qed.

Lemma add_sleeping_does rq ts r w x t :
  tasks_fit ts -> sleeping_ok (sleeping_tasks rq, sleeping_tasks_count rq) ->
  (forall e, e ∈ take (sleeping_tasks_count rq) (sleeping_tasks rq) ->
    is_Some (task_at ts (slot_of (task_ref e)))) ->
  task_at ts x = Some t -> state t <> Blocked ->
  (r ∉ task_ref <$> take (sleeping_tasks_count rq) (sleeping_tasks rq)) ->
  exists l n, add_sleeping_task r w (rq, ts) =
      (Ok tt, (set_sleeping (<[n := mkSleeper r w]> l) (S n) rq, ts)) /\
    sleeping_ok (<[n := mkSleeper r w]> l, S n) /\
    forall e, e ∈ take (S n) (<[n := mkSleeper r w]> l) ->
      e ∈ take (sleeping_tasks_count rq) (sleeping_tasks rq) \/ e = mkSleeper r w.
Proof.
  intros Hf (Hl & Hn & Hd) Hts Hx Hb Hr. cbn [fst snd] in Hl, Hn, Hd. unfold add_sleeping_task.
  cbn [sbind self]. destruct (Nat.eqb_spec (sleeping_tasks_count rq) (length (sleeping_tasks rq))) as [Ec|Ec].
  - destruct (stale_loop_does task_ref ts (S (sleeping_tasks_count rq)) (sleeping_tasks rq) 0
      (sleeping_tasks_count rq)) as (l & n & E & Hll & Hnn & Hp); [done|lia|lia|done|].
    rewrite take_0, drop_0 in Hp. cbn [app] in Hp.
    pose proof (waiting_room task_ref ts _ x t Hf Hd Hx Hb) as Hroom. rewrite <- Hp in Hroom.
    rewrite length_take in Hroom.
    assert (Hok : sleeping_ok (l, n)).
    { unfold sleeping_ok. cbn. split; [congruence|]. split; [lia|]. rewrite Hp. by apply NoDup_fmap_filter. }
    assert (Hsub : forall e, e ∈ take n l -> e ∈ take (sleeping_tasks_count rq) (sleeping_tasks rq)).
    { intros e. rewrite Hp. by intros [? _]%list_filter_in. }
    assert (Hrn : task_ref (mkSleeper r w) ∉ task_ref <$> take n l).
    { intros (e & He & Hin)%list_elem_of_fmap. apply Hr. cbn in He. rewrite He.
      by apply list_elem_of_fmap_2, Hsub. }
    destruct (sleeping_ok_add l n _ Hok ltac:(lia) Hrn) as [Hok' Ht].
    exists l, n. unfold remove_stale_sleeping_tasks. cbn [sbind self]. unfold sbind, on_tasks, set_self, self.
    rewrite E. cbn [set_sleeping sleeping_tasks sleeping_tasks_count]. unfold sassert. rewrite (proj2 (Nat.ltb_lt n (length l))) by lia. unfold sret.
    split; [by destruct rq|]. split; [done|]. intros e. rewrite Ht.
    intros [?|?%list_elem_of_singleton]%elem_of_app; [left; by apply Hsub|by right].
  - destruct (sleeping_ok_add (sleeping_tasks rq) (sleeping_tasks_count rq) (mkSleeper r w)) as [Hok' Ht];
      [done|lia|done|].
    exists (sleeping_tasks rq), (sleeping_tasks_count rq). unfold sbind, sassert, self, set_self, sret.
    rewrite (proj2 (Nat.ltb_lt _ _)) by lia. split; [done|]. split; [done|].
    intros e. rewrite Ht. by intros [?|?%list_elem_of_singleton]%elem_of_app; [left|right].
Qed.

Lemma current_ref_does s L c : shape s L -> is_core c -> current_on s c <> INVALID_SLOT ->
  core_current_task_ref c s = (Ok (mkRef (current_on s c) (process_on s c)), s).
Proof.
  intros Hs Hc Hi. unfold core_current_task_ref.
  rewrite (sbind_ok _ _ _ _ _ (current_load s L c Hs Hc)), (proj2 (Z.eqb_neq _ _) Hi).
  unfold sbind at 1, sassert, sret at 1. cbn [negb].
  by rewrite (sbind_ok _ _ _ _ _ (process_load s L c Hs Hc)).
Qed.

(** A task goes to sleep on its core.  No entry of an earlier sleep of it may be left. *)
Lemma block_keeps s c t w :
  inv s -> is_core c -> current_on s c <> INVALID_SLOT ->
  task_at (tasks s) (current_on s c) = Some t -> state t = Running ->
  (forall c' e, is_core c' -> e ∈ sleepers s c' -> task_ref e <> mkRef (current_on s c) (pid t)) ->
  exists s', block_until_wake_time w c s = (Ok c, s') /\ inv s' /\ current_on s' c = current_on s c.
Proof.
  intros (L & Hs & Hp) Hc Hi Et Hr Hno. set (x := current_on s c) in *.
  destruct (current_task s L c Hs Hp Hc Hi) as (t0 & Et0 & _ & Hh & Hpid & _).
  fold x in Et0. rewrite Et in Et0. injection Et0 as <-.
  destruct (shape_queue _ _ _ Hs Hc) as (rq & _ & _ & Erq & _).
  assert (Hsl : sleepers s c = take (sleeping_tasks_count rq) (sleeping_tasks rq))
    by (unfold sleepers, sleep_array; by rewrite Erq).
  destruct (add_sleeping_does rq (tasks s) (mkRef x (pid t)) w x t) as (l & n & E & Hok & Hsub);
    [by destruct Hs|by apply (sh_sleeping _ _ Hs _ _ Erq)| |done|congruence| |].
  { intros e He. rewrite <- Hsl in He. destruct (pl_sleep _ _ Hp c e Hc He) as (v & Hv & _).
    apply look_some in Hv as (u & Hu & _). by exists u. }
  { intros (e & He & Hin)%list_elem_of_fmap. rewrite <- Hsl in Hin. by apply (Hno c e Hc Hin). }
  set (l' := <[n := mkSleeper (mkRef x (pid t)) w]> l) in *.
  destruct (array_update s L c rq l' (S n) Hs Hc Erq Hok) as [Hs1 Harr]. cbn zeta in Hs1, Harr.
  set (s1 := set_queues _ (set_tasks (tasks s) s)) in *.
  assert (Hent : forall c' e, is_core c' -> e ∈ sleepers s1 c' ->
    e ∈ sleepers s c' \/ (c' = c /\ task_ref e = mkRef x (pid t))).
  { intros c' e Hc' He. unfold sleepers in He at 1. rewrite Harr in He by done. case_decide as Ec.
    - subst c'. apply Hsub in He as [He| ->]; [left; by rewrite Hsl|by right].
    - by left. }
  assert (Hp1 : placed s1 L).
  { eapply placed_array; [done|reflexivity|]. intros c' e Hc' He.
    destruct (Hent c' e Hc' He) as [Hin|[-> Href]]; [by apply (pl_sleep _ _ Hp)|].
    exists (view_of t). rewrite Href. split; [by apply look_at|done]. }
  destruct (leave_run_queue s1 L c t Blocked Hs1 Hp1 Hc Hi Et Hr) as (s2 & E2 & Hs2 & Hp2 & Hcur); [by left| |].
  { intros c' e Hc' He _ Href. destruct (Hent c' e Hc' He) as [Hin|[-> _]]; [|done].
    by destruct (Hno c' e Hc' Hin). }
  exists s2. split; [|split; [by exists L|done]]. unfold block_until_wake_time.
  rewrite (sbind_ok _ _ _ _ _ (current_ref_does s L c Hs Hc Hi)). cbn [slot_of]. fold x. rewrite Hpid.
  rewrite (sbind_ok _ _ _ _ _ (on_slots_slot _ _ _ Et)), Hh.
  rewrite (sbind_ok _ _ _ _ _ (on_queue_does _ _ _ _ _ _ _ Erq E)). fold l'. fold s1.
  unfold sbind at 1. rewrite (on_slots_transition s1 _ _ _ _ Et), decide_True by done.
  revert E2. unfold sbind at 1. rewrite (on_slots_store s1 _ _ (ex_intro _ _ Et)).
  change (current_on s1 c) with x. intros E2. unfold sbind at 1, sassert, sret at 1.
  by rewrite (sbind_ok _ _ _ _ _ E2).
Qed.

(** ** Waking sleepers *)

Lemma seq2_ok {S E A B D} (a : stM S E A) (b : stM S E B) (d : stM S E D) s x s' :
  (a ;;; b) s = (Ok x, s') -> (a ;;; b ;;; d) s = d s'.
Proof.
  intros (y & s1 & E1 & E2)%sbind_inv_ok.
  by rewrite (sbind_ok _ _ _ _ _ E1), (sbind_ok _ _ _ _ _ E2).
Qed.

Lemma array_rq s L c l n : shape s L -> is_core c -> sleep_array s c = (l, n) ->
  exists rq, on_queue c self s = (Ok rq, s) /\ run_queues s !! Z.to_nat c = Some rq /\
    sleeping_tasks rq = l /\ sleeping_tasks_count rq = n /\ sleeping_ok (l, n).
Proof.
  intros Hs Hc Ha. destruct (on_queue_self c s L Hs Hc) as (rq & E & Erq). exists rq.
  pose proof (sh_sleeping _ _ Hs _ _ Erq) as Hok. unfold sleep_array in Ha. rewrite Erq in Ha.
  by injection Ha as <- <-.
Qed.

Lemma drop_keeps s L c l n i : shape s L -> placed s L -> is_core c -> sleep_array s c = (l, n) ->
  (i < n)%nat ->
  exists s', on_queue c (set_self (drop_sleeper i)) s = (Ok tt, s') /\ shape s' L /\ placed s' L /\
    sleep_array s' c = (swap_out l i n, (n - 1)%nat).
Proof.
  intros Hs Hp Hc Ha Hi. destruct (array_rq s L c l n Hs Hc Ha) as (rq & _ & Erq & El & En & Hl & Hn & Hd).
  cbn [fst snd] in Hl, Hn, Hd. destruct (lookup_lt_is_Some_2 l i) as [x Hx]; [lia|].
  destruct (swap_out_split l i n x Hi Hn Hx) as (R & R' & ER & ER' & Hperm).
  assert (Hok : sleeping_ok (swap_out l i n, (n - 1)%nat)).
  { unfold sleeping_ok. cbn [fst snd]. rewrite length_swap_out. split; [done|]. split; [lia|].
    rewrite ER in Hd. rewrite ER', fmap_app, Hperm. rewrite fmap_app, fmap_cons in Hd.
    rewrite <- Permutation_middle in Hd. by apply NoDup_cons_1_2 in Hd. }
  destruct (array_update s L c rq _ _ Hs Hc Erq Hok) as [Hs1 Harr]. cbn zeta in Hs1, Harr.
  eexists. split; [|split; [exact Hs1|split]].
  - erewrite on_queue_does; [|done|reflexivity]. unfold drop_sleeper. by rewrite El, En.
  - eapply placed_array; [done|reflexivity|]. intros c' e Hc' He. unfold sleepers in He.
    rewrite Harr in He by done. case_decide as Ec.
    + subst c'. cbn [fst snd] in He. apply (pl_sleep _ _ Hp); [done|]. unfold sleepers. rewrite Ha. cbn.
      rewrite ER' in He. rewrite ER. rewrite Hperm in He. set_solver.
    + by apply (pl_sleep _ _ Hp).
  - rewrite Harr, decide_True by done. done.
Qed.

Lemma wake_sleeper_keeps s L c e h t :
  shape s L -> placed s L -> is_core c -> task_at (tasks s) (slot_of (task_ref e)) = Some t ->
  pid t = pid_of (task_ref e) -> state t = Blocked -> e ∈ sleepers s c ->
  exists r s' L', wake_sleeper c e h s = (Ok r, s') /\ shape s' L' /\ placed s' L' /\
    sleep_array s' c = sleep_array s c.
Proof.
  intros Hs Hp Hc Et Hpid Hb He.
  destruct (pl_sleep _ _ Hp c e Hc He) as (v & Hv & Hent). rewrite (look_at _ _ _ Et) in Hv.
  injection Hv as <-. specialize (Hent Hpid Hb). cbn in Hent.
  destruct (ready_push s L _ t ExecutingTasks Hs Hp Et) as (s' & L' & E & ? & ? & _ & Harr & _);
    [congruence..|]. cbn zeta in E.
  eexists _, s', L'. split; [|by split_and!; try done; apply Harr]. unfold wake_sleeper.
  unfold sbind at 1. rewrite (on_slots_transition _ _ _ _ _ Et), decide_True by done.
  unfold sbind at 1. rewrite (on_slots_slot _ _ (set_state Ready t)); cycle 1.
  { cbn. by rewrite task_at_put, decide_True, Et by done. }
  revert E. rewrite Hent. unfold sbind at 1. rewrite (on_slots_store _ _ _ (ex_intro _ _ Et)).
  intros E. cbn [priority set_state]. rewrite (seq2_ok _ _ _ _ _ _ E). done.
Qed.

Lemma wake_due_loop_keeps c now fuel : is_core c -> forall s L l n i h,
  shape s L -> placed s L -> sleep_array s c = (l, n) -> (i <= n)%nat -> (n - i < fuel)%nat ->
  exists r s', wake_due_loop fuel c now i h s = (Ok r, s') /\ inv s'.
Proof.
  intros Hc. induction fuel as [|fuel IH]; intros s L l n i h Hs Hp Ha Hi Hf; [lia|]. cbn [wake_due_loop].
  destruct (array_rq s L c l n Hs Hc Ha) as (rq & E & Erq & El & En & Hl & Hn & Hd). cbn [fst snd] in Hl, Hn.
  rewrite (sbind_ok _ _ _ _ _ E), El, En.
  destruct (Nat.leb_spec n i) as [Hle|Hlt]; [exists h, s; split; [done|by exists L]|].
  destruct (lookup_lt_is_Some_2 l i) as [e He]; [lia|]. rewrite He.
  assert (Hin : e ∈ sleepers s c).
  { unfold sleepers. rewrite Ha. apply list_elem_of_lookup. exists i. by rewrite lookup_take_lt. }
  destruct (pl_sleep _ _ Hp c e Hc Hin) as (v & Hv & _). apply look_some in Hv as (t & Et & _).
  rewrite (sbind_ok _ _ _ _ _ (on_slots_stale _ _ _ Et)).
  destruct (negb _ || negb _) eqn:Est.
  - destruct (drop_keeps s L c l n i Hs Hp Hc Ha Hlt) as (s1 & E1 & Hs1 & Hp1 & Ha1).
    rewrite (sbind_ok _ _ _ _ _ E1). apply (IH s1 L _ _ i h Hs1 Hp1 Ha1); lia.
  - apply orb_false_iff in Est as [Hpid%negb_false_iff%Z.eqb_eq Hb%negb_false_iff%bool_decide_eq_true].
    destruct (now <? wake_time_us e); [apply (IH s L l n (S i) h); [done..|lia|lia]|].
    destruct (wake_sleeper_keeps s L c e h t Hs Hp Hc Et Hpid Hb Hin) as (r & s1 & L1 & E1 & Hs1 & Hp1 & Ha1).
    rewrite (sbind_ok _ _ _ _ _ E1). rewrite Ha in Ha1.
    destruct (drop_keeps s1 L1 c l n i Hs1 Hp1 Hc Ha1 Hlt) as (s2 & E2 & Hs2 & Hp2 & Ha2).
    rewrite (sbind_ok _ _ _ _ _ E2). apply (IH s2 L1 _ _ i r Hs2 Hp2 Ha2); lia.
Qed.

Lemma wake_due_keeps s c now : inv s -> is_core c ->
  exists s', wake_due_sleeping_tasks c now s = (Ok tt, s') /\ inv s'.
Proof.
  intros (L & Hs & Hp) Hc. unfold wake_due_sleeping_tasks, queue_wake_due.
  destruct (sleep_array s c) as [l n] eqn:Ha.
  destruct (array_rq s L c l n Hs Hc Ha) as (rq & E & Erq & El & En & Hl & Hn & _).
  destruct (wake_due_loop_keeps c now (S n) Hc s L l n 0 None Hs Hp Ha) as (r & s1 & E1 & (L1 & Hs1 & Hp1));
    [lia|lia|].
  unfold sbind at 1. rewrite (sbind_ok _ _ _ _ _ E), En, E1.
  destruct r as [p|]; [|exists s1; split; [done|by exists L1]].
  rewrite (sbind_ok _ _ _ _ _ (current_load s1 L1 c Hs1 Hc)).
  destruct (Z.eqb_spec (current_on s1 c) INVALID_SLOT) as [Ei|Ei]; [exists s1; split; [done|by exists L1]|].
  destruct (current_task s1 L1 c Hs1 Hp1 Hc Ei) as (t & Et & _).
  rewrite (sbind_ok _ _ _ _ _ (on_slots_slot _ _ _ Et)).
  destruct (priority t <? p); [|exists s1; split; [done|by exists L1]].
  destruct (mark_keeps s1 L1 c Hs1 Hp1 Hc) as (s2 & E2 & Hs2 & Hp2 & _). exists s2. split; [done|by exists L1].
Qed.

(** ** Timer ticks *)

Lemma slice_load s L c : shape s L -> is_core c ->
  exists n, load slice_remaining_ticks c s = (Ok n, s).
Proof.
  intros Hs Hc. destruct (core_at _ c (sh_slices _ _ Hs) Hc) as [x E]. exists x. by apply load_does.
Qed.

(** A field of a task nobody's place depends on. *)
Lemma placed_put s L x f t : (forall t, view_of (f t) = view_of t) ->
  shape s L -> placed s L -> task_at (tasks s) x = Some t -> is_core (home_core t) ->
  placed (set_tasks (put_task x f (tasks s)) s) L.
Proof.
  intros Hf Hs Hp Et Hh. pose proof (look_at _ _ _ Et) as Hv.
  apply (placed_state s L _ L x (view_of t) (state t)); try done.
  - by apply (pl_view _ _ Hp x).
  - intros y. cbn. rewrite look_put. case_decide; [|done]. subst. rewrite Et. cbn. by rewrite Hf.
  - intros c y Hc. rewrite (pl_queued _ _ Hp) by done. split.
    + intros (w & Hw & Hr & Hc'). destruct (decide (y = x)) as [->|]; [|left; eauto].
      rewrite Hv in Hw. injection Hw as <-. by right.
    + intros [[_ ?]|(-> & ? & ?)]; [done|]. by exists (view_of t).
  - intros c Hc. change (with_state (state t) (view_of t)) with (view_of t).
    change (counter (set_tasks _ s) c) with (counter s c). lia.
  - intros c e Hc He. left. split; [done|]. intros Hx Hpid Hb.
    destruct (pl_sleep _ _ Hp c e Hc He) as (w & Hw & Hent). rewrite Hx, Hv in Hw.
    injection Hw as <-. by apply Hent.
Qed.

Lemma on_timer_tick_keeps s c now : inv s -> is_core c ->
  exists s', on_timer_tick c now s = (Ok tt, s') /\ inv s'.
Proof.
  intros Hinv Hc. destruct (wake_due_keeps s c now Hinv Hc) as (s1 & E1 & (L & Hs & Hp)).
  unfold on_timer_tick. rewrite (sbind_ok _ _ _ _ _ E1).
  rewrite (sbind_ok _ _ _ _ _ (current_load s1 L c Hs Hc)).
  destruct (Z.eqb_spec (current_on s1 c) INVALID_SLOT) as [Ei|Ei]; [exists s1; split; [done|by exists L]|].
  destruct (current_task s1 L c Hs Hp Hc Ei) as (t & Et & _ & Hh & _).
  unfold sbind at 1. rewrite (on_slots_store _ _ _ (ex_intro _ _ Et)). set (s2 := set_tasks _ s1).
  assert (Hs2 : shape s2 L) by (by apply shape_put; [left|]).
  assert (Hp2 : placed s2 L) by (by apply (placed_put s1 L _ _ t); [..|rewrite Hh]).
  rewrite (sbind_ok _ _ _ _ _ (on_slots_slot s2 _ (add_tick t) ltac:(cbn; by rewrite task_at_put, decide_True, Et by done))).
  destruct (slice_load s2 L c Hs2 Hc) as [n En]. rewrite (sbind_ok _ _ _ _ _ En).
  assert (Hslice : forall m, exists s3, store_slice c m s2 = (Ok tt, s3) /\ shape s3 L /\ placed s3 L).
  { intros m. destruct (store_slice_does s2 L c m Hs2 Hc) as (sl & Hsl & E). eexists. split; [done|].
    split; [by apply shape_slices|by apply placed_slices]. }
  destruct (1 <? n).
  - destruct (Hslice (n - 1)) as (s3 & E3 & ? & ?). exists s3. split; [done|by exists L].
  - rewrite (sbind_ok _ _ _ _ _ (counter_load s2 L c Hs2 Hc)). destruct (1 <? counter s2 c).
    + destruct (Hslice 0) as (s3 & E3 & Hs3 & Hp3). rewrite (sbind_ok _ _ _ _ _ E3).
      destruct (mark_keeps s3 L c Hs3 Hp3 Hc) as (s4 & E4 & ? & ? & _). exists s4. split; [done|by exists L].
    + destruct (Hslice (get_slice_ticks_for_priority (priority (add_tick t)))) as (s3 & E3 & ? & ?).
      exists s3. split; [done|by exists L].
Qed.

(** ** Stealing *)

Lemma placed_requeued s s1 L L1 : requeued s s1 ->
  (forall c y, is_core c -> y ∈ queued L1 c <-> y ∈ queued L c) -> placed s L -> placed s1 L1.
Proof.
  intros Hrq HQ [Pq Pc Pp Pv Pn Ps]. pose proof (rqd_look _ _ Hrq) as Hlk.
  constructor.
  - intros c y Hc. rewrite HQ, Pq, Hlk by done. done.
  - intros c y Hc Hy. rewrite Hlk, <- Pc by done. by destruct Hrq as [(qs & ts & ->) _ _].
  - intros c v Hc. rewrite Hlk. destruct Hrq as [(qs & ts & ->) _ _]. by apply Pp.
  - intros y v. rewrite Hlk. apply Pv.
  - intros c Hc. transitivity (counter s c); [by destruct Hrq as [(qs & ts & ->) _ _]|].
    rewrite Pn by done. apply slot_total_ext. intros y _. unfold runnable_at. by rewrite Hlk.
  - intros c e Hc He. rewrite (rqd_sleepers _ _ _ Hrq) in He by done.
    destruct (Ps c e Hc He) as (v & Hv & H). exists v. by rewrite Hlk.
Qed.

Definition with_home (c : Z) (v : view) : view :=
  mkView (v_state v) c (v_cpu v) (v_pid v) (v_prio v).

(** A queued task no CPU runs moves from the run queue of [c'] to that of [c]. *)
Lemma move_keeps s L c c' x t s1 L1 :
  shape s L -> placed s L -> is_core c -> is_core c' -> c <> c' ->
  task_at (tasks s) x = Some t -> state t = Ready -> home_core t = c' -> on_cpu t = false ->
  0 <= priority t <= MAX_PRIORITY ->
  shape s1 L1 -> requeued s s1 ->
  (forall c1 y, is_core c1 -> y ∈ queued L1 c1 <-> y ∈ queued L c1 /\ Some x <> Some y) ->
  1 <= counter s c' ->
  exists s', (on_slots (store x (set_home c)) ;;;
      add_runnable c' (-1) ;;;
      add_runnable c 1 ;;;
      let! t := on_slots (slot x) in
      on_queue c (push_executing_task x (priority t)) ;;;
      sret true) s1 = (Ok true, s') /\ inv s' /\ current_slot_on_core s' = current_slot_on_core s.
Proof.
  intros Hs Hp Hc Hc' Hne Et Hr Hh Hoff Hprio Hs1 Hrq1 HQ1 Hcount.
  pose proof (counter_small _ _ _ Hp Hc). pose proof (counter_small _ _ _ Hp Hc').
  assert (Hcnt1 : forall c1, counter s1 c1 = counter s c1) by (by destruct Hrq1 as [(qs & ts & ->) _ _]).
  destruct (requeued_task _ _ _ _ Hrq1 Et) as (t1 & Et1 & Hview).
  unfold sbind at 1. rewrite (on_slots_store _ _ _ (ex_intro _ _ Et1)). set (s2 := set_tasks _ s1).
  assert (Hs2 : shape s2 L1) by (by apply shape_put; [left|]).
  rewrite (sbind_ok _ _ _ _ _ (add_runnable_does s2 L1 c' (-1) Hs2 Hc')). change (counter s2 c') with (counter s1 c').
  rewrite Hcnt1, wrap_count by lia. set (s3 := set_runnable _ s2).
  assert (Hs3 : shape s3 L1) by (apply shape_runnable; [apply core_insert; by destruct Hs2|done]).
  assert (Hc3 : counter s3 c = counter s c).
  { unfold s3. rewrite (counter_set s2 L1), decide_False by done. change (counter s2 c) with (counter s1 c). done. }
  rewrite (sbind_ok _ _ _ _ _ (add_runnable_does s3 L1 c 1 Hs3 Hc)), Hc3, wrap_count by lia.
  set (s4 := set_runnable _ s3).
  assert (Hs4 : shape s4 L1) by (apply shape_runnable; [apply core_insert; by destruct Hs3|done]).
  assert (Et4 : task_at (tasks s4) x = Some (set_home c t1)) by (cbn; by rewrite task_at_put, decide_True, Et1 by done).
  rewrite (sbind_ok _ _ _ _ _ (on_slots_slot _ _ _ Et4)).
  injection Hview as V1 V2 V3 V4 V5. cbn [priority set_home]. rewrite V5.
  destruct (push_on_core ExecutingTasks s4 L1 c x (priority t) Hs4 Hc Hprio) as (s5 & L5 & E5 & Hs5 & Hrq5 & HQ5);
    [by eexists|intros c1 Hc1; rewrite HQ1 by done; naive_solver|].
  cbn [push_kind] in E5. rewrite (sbind_ok _ _ _ _ _ E5). exists s5. split; [done|].
  split; [|destruct Hrq5 as [(qs & ts & ->) _ _]; by destruct Hrq1 as [(qs1 & ts1 & ->) _ _]].
  exists L5. split; [done|]. pose proof (look_at _ _ _ Et) as Hv.
  assert (Honv : forall c1 v, v_cpu v = false -> on_core c1 v = false) by (intros c1 v Hvc; unfold on_core; by rewrite Hvc).
  apply (placed_update s L s5 L5 x (view_of t) (with_home c (view_of t))); try done; [by destruct Hs| | | | | | | |].
  - destruct (pl_view _ _ Hp _ _ Hv) as (H1 & H2 & _). done.
  - intros y. rewrite (rqd_look _ _ Hrq5). cbn. rewrite look_put. case_decide; [|by apply rqd_look].
    subst. rewrite Et1. unfold with_home, view_of, compose. cbn. congruence.
  - intros c1 y Hc1. rewrite HQ5, HQ1 by done. cbn. rewrite Hr. naive_solver.
  - cbn. by rewrite Hoff.
  - intros c1 _. rewrite !Honv by done. destruct Hrq5 as [(qs & ts & ->) _ _].
    by destruct Hrq1 as [(qs1 & ts1 & ->) _ _].
  - intros c1 _. rewrite !Honv by done. destruct Hrq5 as [(qs & ts & ->) _ _].
    by destruct Hrq1 as [(qs1 & ts1 & ->) _ _].
  - intros c1 Hc1. transitivity (counter s4 c1); [by destruct Hrq5 as [(qs & ts & ->) _ _]|].
    unfold s4. rewrite (counter_set s3 L1) by done. unfold s3. rewrite (counter_set s2 L1) by done.
    change (counter s2 c1) with (counter s1 c1). rewrite Hcnt1. unfold runnable_on. cbn.
    rewrite Hr, Hh, !bool_decide_true by auto. cbn.
    destruct (Z.eqb_spec c' c1), (Z.eqb_spec c c1); repeat case_decide; subst; cbn; try lia; congruence.
  - intros c1 e Hc1 He. left. rewrite (rqd_sleepers _ _ _ Hrq5) in He by done.
    change (e ∈ sleepers s1 c1) in He. rewrite (rqd_sleepers _ _ _ Hrq1) in He by done.
    split; [done|]. cbn. rewrite Hr. done.
Qed.

Lemma steal_from_keeps s c c' :
  inv s -> is_core c -> is_core c' -> c <> c' -> 1 <= counter s c' ->
  exists b s', steal_from c c' s = (Ok b, s') /\ inv s' /\ current_slot_on_core s' = current_slot_on_core s.
Proof.
  intros (L & Hs & Hp) Hc Hc' Hne Hcount.
  destruct (steal_on_core s L c' Hs Hc') as (r & s1 & L1 & E1 & Hs1 & Hrq1 & Hin & HQ1).
  unfold steal_from. rewrite (sbind_ok _ _ _ _ _ E1). destruct r as [x|]; cbn [from_option]; unfold id.
  - destruct (Hin x eq_refl) as [Hx Hfree]. destruct (queued_task s L c' x Hp Hc' Hx) as (t & Et & Hr & Hh & Hprio).
    rewrite (proj2 (Z.eqb_neq _ _)); [|by eapply task_not_invalid; [by destruct Hs|eexists]].
    destruct (move_keeps s L c c' x t s1 L1) as (s' & E & ? & ?); try done.
    { unfold cpu_free in Hfree. rewrite Et in Hfree. by apply negb_true_iff. }
    by exists true, s'.
  - rewrite Z.eqb_refl. exists false, s1. split; [done|]. split.
    + exists L1. split; [done|]. eapply placed_requeued; [done| |done]. intros c1 y Hc1. rewrite HQ1 by done.
      naive_solver.
    + by destruct Hrq1 as [(qs & ts & ->) _ _].
Qed.

Lemma steal_loop_keeps locked c cs : is_core c -> Forall is_core cs -> forall s,
  inv s -> exists b s', steal_loop locked c cs s = (Ok b, s') /\ inv s' /\
    current_slot_on_core s' = current_slot_on_core s.
Proof.
  intros Hc Hcs. induction Hcs as [|c' cs Hc' _ IH]; intros s Hinv; [by exists false, s|].
  cbn [steal_loop]. destruct (Z.eqb_spec c' c) as [->|Hne]; [by apply IH|].
  destruct Hinv as (L & Hs & Hp). rewrite (sbind_ok _ _ _ _ _ (counter_load s L c' Hs Hc')).
  destruct (Z.leb_spec (counter s c') 1); [apply IH; by exists L|]. destruct (locked c'); [apply IH; by exists L|].
  destruct (steal_from_keeps s c c') as (b & s1 & E1 & Hinv1 & Hcur1);
    [by exists L|done|done|congruence|lia|].
  rewrite (sbind_ok _ _ _ _ _ E1). destruct b; [by exists true, s1|].
  destruct (IH s1 Hinv1) as (b & s2 & E2 & ? & ?). exists b, s2. split_and!; [done|done|congruence].
Qed.
