(* ===== verification/SchedulerRun.v ===== *)
(** * SchedulerRun: the schedulers as a transition system

    The operations of the cores as actions that interleave freely, and what holds after
    any sequence of them: no assertion fails, the run queues hold exactly the ready tasks
    of their core, no task runs on two cores, and the counters are right.  The end of the
    file runs the interleavings the code does not exclude. *)

From Stdlib Require Import ZArith Lia.
From stdpp Require Import base tactics list option numbers sets.
From S2P Require Import Prelude Tasks RunQueue RunQueueOk RunQueueSpec Scheduler SchedulerOk SchedulerSteps SchedulerLeave.

Open Scope rust_scope.

(** ** Actions *)

Inductive action : Type :=
  | Allocate (stack_top : Z -> Z) (p prio core cr3 : Z)
  | Start (me x : Z)
  | Turn (locked : Z -> bool) (c : Z)
  | SwitchOut (c : Z) (k : RequeueType)
  | Leave (c : Z)
  | Reap (x : Z)
  | Exit (c : Z)
  | Block (c wake_time_us : Z)
  | Wake (me : Z) (r : TaskRef)
  | Kill (me p exit_code : Z)
  | Tick (c now_us : Z).

Definition perform (a : action) : SM unit :=
  match a with
  | Allocate stack_top p prio core cr3 =>
      on_slots (allocate_task_slot stack_top p prio core cr3) ;;; sret tt
  | Start me x =>
      let! t := on_slots (slot x) in start_task me (home_core t) x (priority t)
  | Turn locked c => scheduler_turn locked c ;;; sret tt
  | SwitchOut c k => switch_out c k ;;; sret tt
  | Leave c => let! x := get_current_slot_for_core c in run_task_leave c x
  | Reap x => run_task_reap x
  | Exit c => exit_mark_dead c
  | Block c w => block_until_wake_time w c ;;; sret tt
  | Wake me r => wake_task me r
  | Kill me p code => request_kill me p code ;;; sret tt
  | Tick c now => on_timer_tick c now
  end.

Definition current_state (s : Sched) (c : Z) (P : TaskState -> Prop) : Prop :=
  current_on s c <> INVALID_SLOT /\
  exists t, task_at (tasks s) (current_on s c) = Some t /\ P (state t).

(** When a core can do what: only a core without a task goes round the scheduler loop; only
    a running task blocks or exits; and the loop takes the core back when the task does not
    run any more.  The return into the loop is two actions, and other cores act in between:
    the loop leaves the task, and later it looks at the slot and frees it if the task is dead
    by then ([Reap], which may come at any time and for any slot).

    Three things are asked beyond that, and the end of the file shows what happens without
    each.  A priority is at most 7, the highest a run queue has.  A task goes to sleep only
    when no entry of an earlier sleep is left; one is left behind only by a sleeper that was
    woken before its time, which the kernel does to kill it.  And a dead task that is reaped
    is not on a core any more: it could be if another core took it, ran it and let it exit
    between the two halves of the return. *)
Definition enabled (a : action) (s : Sched) : Prop :=
  match a with
  | Allocate _ _ prio core _ => is_core core /\ 0 <= prio <= MAX_PRIORITY
  | Start _ x => exists t, task_at (tasks s) x = Some t /\ state t = Creating
  | Turn _ c => is_core c /\ current_on s c = INVALID_SLOT
  | SwitchOut c _ => is_core c /\ current_on s c <> INVALID_SLOT
  | Leave c => is_core c /\ current_state s c (fun st => st <> Running)
  | Reap x => exists t, task_at (tasks s) x = Some t /\ (state t = Dead -> on_cpu t = false)
  | Exit c => is_core c /\ current_state s c (fun st => st = Running)
  | Block c _ => is_core c /\ current_state s c (fun st => st = Running) /\
      forall c' e t, is_core c' -> e ∈ sleepers s c' -> task_at (tasks s) (current_on s c) = Some t ->
        task_ref e <> mkRef (current_on s c) (pid t)
  | Wake _ r => is_Some (task_at (tasks s) (slot_of r))
  | Kill _ _ _ => True
  | Tick c _ => is_core c
  end.

(** ** The invariant holds along every run *)

Lemma look_new x : look TASKS x = if decide (0 <= x < MAX_TASKS) then Some (view_of task_new) else None.
Proof.
  unfold look, task_at. destruct (Z.leb_spec 0 x); [|by rewrite decide_False by lia].
  unfold TASKS. case_decide.
  - rewrite lookup_replicate_2 by lia. done.
  - rewrite lookup_ge_None_2; [done|]. rewrite length_replicate. lia.
Qed.

Lemma total_zero f l : (forall x, x ∈ l -> f x = 0) -> total f l = 0.
Proof.
  induction l as [|x l IH]; intros H; [done|]. simpl. rewrite (H x), IH by set_solver. done.
Qed.

Lemma inv_new : inv sched_new.
Proof.
  assert (Hq : forall c, queued (per_core (no_levels, no_levels)) c = []).
  { intros c. unfold queued, per_core. destruct (_ !! _) as [[E Y]|] eqn:El; [|done].
    apply lookup_replicate in El as [[= -> ->] _]. by vm_compute. }
  assert (Hl : forall c, sleepers sched_new c = []).
  { intros c. unfold sleepers, sleep_array. cbn [sched_new run_queues].
    destruct (_ !! _) as [rq|] eqn:El; [|done]. apply lookup_replicate in El as [-> _]. done. }
  exists (per_core (no_levels, no_levels)). split; constructor; try done.
  - intros c rq E Y H1 H2. apply lookup_replicate in H1 as [-> _]. apply lookup_replicate in H2 as [[= -> ->] _].
    apply rq_new_ok.
  - intros c rq H1. apply lookup_replicate in H1 as [-> _]. unfold sleeping_ok. cbn [run_queue_new fst snd sleeping_tasks sleeping_tasks_count].
    rewrite length_replicate, take_0. split; [done|]. split; [lia|constructor].
  - intros c c' x _ _. rewrite Hq. set_solver.
  - intros c x Hc. rewrite Hq. cbn [sched_new tasks]. rewrite look_new. split; [set_solver|].
    intros (v & Hv & Hr & _). case_decide; [by simplify_eq|done].
  - intros c x Hc Hx. cbn [sched_new tasks]. rewrite look_new. unfold current_on. cbn.
    unfold per_core. rewrite lookup_replicate_2 by (unfold is_core in Hc; lia). split; [by intros <-|].
    intros (v & Hv & Hon). case_decide; [by simplify_eq|done].
  - intros c v Hc. cbn [sched_new tasks]. rewrite look_new. unfold current_on. cbn.
    unfold per_core. rewrite lookup_replicate_2 by (unfold is_core in Hc; lia). done.
  - intros x v. cbn [sched_new tasks]. rewrite look_new. case_decide; [|done]. intros [= <-]. done.
  - intros c Hc. unfold counter. cbn [sched_new runnable_tasks_count]. unfold per_core.
    rewrite lookup_replicate_2 by (unfold is_core in Hc; lia). symmetry. apply total_zero.
    intros x _. unfold runnable_at. cbn [tasks]. rewrite look_new. by case_decide.
  - intros c e _. rewrite Hl. set_solver.
Qed.

Lemma scheduler_turn_keeps s c locked :
  inv s -> is_core c -> current_on s c = INVALID_SLOT ->
  exists r s', scheduler_turn locked c s = (Ok r, s') /\ inv s'.
Proof.
  intros (L & Hs & Hp) Hc Hcur.
  destruct (pick_on_core s L c Hs Hc) as (r & s1 & L1 & E1 & Hs1 & Hrq1 & Hin & _ & HQ1).
  unfold scheduler_turn. rewrite (sbind_ok _ _ _ _ _ E1). destruct r as [x|]; cbn [from_option]; unfold id.
  - destruct (queued_task s L c x Hp Hc (Hin x eq_refl)) as (t & Et & Hr & Hh & _).
    rewrite (proj2 (Z.eqb_neq _ _)); [|by eapply task_not_invalid; [by destruct Hs|eexists]].
    destruct (begin_keeps s L s1 L1 c x t) as (s2 & E2 & Hs2 & Hp2 & _); try done.
    rewrite (sbind_ok _ _ _ _ _ E2). exists (Runs x), s2. split; [done|by exists L1].
  - rewrite Z.eqb_refl. assert (Hinv1 : inv s1).
    { exists L1. split; [done|]. eapply placed_requeued; [done| |done]. intros c1 y Hc1.
      rewrite HQ1 by done. naive_solver. }
    unfold WORK_STEALING_ENABLED, try_steal_task.
    destruct (steal_loop_keeps locked c (seqZ 1 (MAX_CORES - 1)) Hc) with (s := s1) as (b & s2 & E2 & ? & _); [|done|].
    { apply Forall_forall. intros y Hy%elem_of_seqZ. unfold is_core, MAX_CORES in *. lia. }
    rewrite (sbind_ok _ _ _ _ _ E2). by eexists _, s2.
Qed.

Lemma request_kill_keeps me s p code : inv s ->
  exists b s', request_kill me p code s = (Ok b, s') /\ inv s'.
Proof.
  intros (L & Hs & Hp). unfold request_kill, find_slot_by_pid. unfold sbind at 1, on_slots at 1.
  replace (set_tasks (tasks s) s) with s by (by destruct s).
  pose proof (position_spec (fun t => pid t =? p) (tasks s) 0) as Hpos.
  destruct (position _ (tasks s) 0) as [x|]; [|exists false, s; split; [done|by exists L]].
  destruct Hpos as (Hx & t & Ht & _). rewrite Z.sub_0_r in Ht.
  assert (Et : task_at (tasks s) x = Some t).
  { unfold task_at. by rewrite (proj2 (Z.leb_le _ _)) by lia. }
  unfold sbind at 1. rewrite (on_slots_store _ _ _ (ex_intro _ _ Et)). set (s1 := set_tasks _ s).
  assert (Hs1 : shape s1 L) by (by apply shape_put; [left|]).
  assert (Hp1 : placed s1 L).
  { apply (placed_put s L _ _ t); try done. by apply (pl_view _ _ Hp x _ (look_at _ _ _ Et)). }
  rewrite (wrap_slot _ _ _ (sh_fit _ _ Hs) Et).
  assert (Et1 : is_Some (task_at (tasks s1) x)) by (apply is_some_put; by eexists).
  destruct (wake_task_keeps me s1 (mkRef x p)) as (s2 & E2 & (L2 & Hs2 & Hp2)); [by exists L|done|].
  rewrite (sbind_ok _ _ _ _ _ E2). destruct (task_at_some (tasks s2) x) as [t2 Et2].
  { rewrite (sh_fit _ _ Hs2), <- (sh_fit _ _ Hs). lia. }
  rewrite (sbind_ok _ _ _ _ _ (on_slots_slot _ _ _ Et2)). case_decide.
  - assert (Hh : is_core (home_core t2)) by (apply (pl_view _ _ Hp2 x _ (look_at _ _ _ Et2))).
    destruct (notify_keeps me s2 L2 (home_core t2) Hs2 Hp2 Hh) as (s3 & E3 & ? & ? & _).
    rewrite (sbind_ok _ _ _ _ _ E3). exists true, s3. split; [done|by exists L2].
  - exists true, s2. split; [done|by exists L2].
Qed.

Lemma allocate_keeps s top p prio core cr :
  inv s -> is_core core -> 0 <= prio <= MAX_PRIORITY ->
  exists r s', on_slots (allocate_task_slot top p prio core cr) s = (Ok r, s') /\ inv s'.
Proof.
  intros (L & Hs & Hp) Hc Hprio. unfold on_slots, allocate_task_slot.
  pose proof (position_spec (fun t => bool_decide (state t = Free)) (tasks s) 0) as Hpos.
  destruct (position _ (tasks s) 0) as [x|]; [|exists None, s; split; [by destruct s|by exists L]].
  destruct Hpos as (Hx & t & Ht & Hfree%bool_decide_eq_true & _). rewrite Z.sub_0_r in Ht.
  assert (Et : task_at (tasks s) x = Some t).
  { unfold task_at. by rewrite (proj2 (Z.leb_le _ _)) by lia. }
  pose proof (look_at _ _ _ Et) as Hv. eexists (Some x), _. split; [reflexivity|].
  set (t' := mkTask p Creating _ _ _ _ _ _ _ _ _ _ _).
  assert (Hno : forall c, is_core c -> x ∉ queued L c) by (eapply not_queued; [done|exact Hv|cbn; congruence]).
  assert (Hoff : on_cpu t = false).
  { destruct (pl_view _ _ Hp _ _ Hv) as (_ & H & _). cbn in H. destruct (on_cpu t); [|done].
    by destruct H. }
  assert (Hon : forall c v, v_cpu v = false -> on_core c v = false) by (intros c v E; unfold on_core; by rewrite E).
  exists L. split; [apply shape_put; [by right|done]|].
  apply (placed_update s L _ L x (view_of t) (view_of t')); try done; [by destruct Hs|..].
  - intros y. cbn. rewrite look_put. case_decide; [|done]. subst. by rewrite Et.
  - intros c y Hc'. split; [|naive_solver]. intros Hy. left. split; [|done]. intros ->. by apply (Hno c).
  - intros c _. by rewrite !Hon.
  - intros c _. by rewrite !Hon.
  - intros c _. change (counter (set_tasks _ s) c) with (counter s c). unfold runnable_on. cbn.
    rewrite Hfree, !bool_decide_false by (intros [?|?]; congruence). cbn. lia.
  - intros c e Hc' He. by left.
Qed.

Lemma perform_keeps a s : inv s -> enabled a s -> exists s', perform a s = (Ok tt, s') /\ inv s'.
Proof.
  intros Hinv He. destruct a as [top p prio core cr|me x|locked c|c k|c|x|c|c w|me r|me p code|c now];
    cbn [perform enabled] in *.
  - destruct He as [Hc Hprio]. destruct (allocate_keeps s top p prio core cr Hinv Hc Hprio) as (r & s' & E & ?).
    exists s'. by rewrite (sbind_ok _ _ _ _ _ E).
  - destruct He as (t & Et & Hst). rewrite (sbind_ok _ _ _ _ _ (on_slots_slot _ _ _ Et)).
    by apply start_task_keeps.
  - destruct He as [Hc Hcur]. destruct (scheduler_turn_keeps s c locked Hinv Hc Hcur) as (r & s' & E & ?).
    exists s'. by rewrite (sbind_ok _ _ _ _ _ E).
  - destruct He as [Hc Hi]. destruct (switch_out_keeps s c k Hinv Hc Hi) as (s' & E & ? & _).
    exists s'. by rewrite (sbind_ok _ _ _ _ _ E).
  - destruct He as (Hc & Hi & t & Et & Hr).
    destruct (run_task_leave_keeps s c t Hinv Hc Hi Et Hr) as (s' & L' & E & ? & ? & _). exists s'.
    destruct Hinv as (L & Hs & _). rewrite (sbind_ok _ _ _ _ _ (current_load s L c Hs Hc)).
    split; [done|by exists L'].
  - destruct He as (t & Et & Hd). destruct Hinv as (L & Hs & Hp).
    destruct (run_task_reap_keeps s L x t Hs Hp Et Hd) as (s' & E & ? & _). by exists s'.
  - destruct He as (Hc & Hi & t & Et & Hr). destruct (exit_keeps s c t Hinv Hc Hi Et Hr) as (s' & E & ? & _).
    by exists s'.
  - destruct He as (Hc & (Hi & t & Et & Hr) & Hno).
    destruct (block_keeps s c t w Hinv Hc Hi Et Hr) as (s' & E & ? & _); [by intros; eapply Hno|].
    exists s'. by rewrite (sbind_ok _ _ _ _ _ E).
  - by apply wake_task_keeps.
  - destruct (request_kill_keeps me s p code Hinv) as (b & s' & E & ?). exists s'.
    by rewrite (sbind_ok _ _ _ _ _ E).
  - by apply on_timer_tick_keeps.
Qed.

(** The states any interleaving of actions leads to. *)
Inductive reachable : Sched -> Prop :=
  | reach_new : reachable sched_new
  | reach_step s a s' : reachable s -> enabled a s -> perform a s = (Ok tt, s') -> reachable s'.

Lemma reachable_inv s : reachable s -> inv s.
Proof.
  induction 1 as [|s a s' _ IH He Hp]; [apply inv_new|].
  destruct (perform_keeps a s IH He) as (s1 & E & ?). rewrite E in Hp. by injection Hp as <-.
Qed.

(** The tasks of a core that are queued or running. *)
Definition runnable_tasks (ts : Tasks) (c : Z) : list Z :=
  List.filter (fun x => match task_at ts x with Some t => runnable_on c (view_of t) | None => false end)
    (seqZ 0 MAX_TASKS).

Lemma count_length ts c : count (look ts) c = zlen (runnable_tasks ts c).
Proof.
  unfold count, runnable_tasks. induction (seqZ 0 MAX_TASKS) as [|x l IH]; [done|].
  cbn [total List.filter]. rewrite IH. unfold runnable_at, look.
  destruct (task_at ts x) as [t|]; [|done]. cbn. destruct (runnable_on c (view_of t)); cbn [Z.b2z length]; lia.
Qed.

Lemma contains_on_core s L c x : shape s L -> is_core c ->
  on_queue c (contains x) s = (Ok (bool_decide (x ∈ queued L c)), s).
Proof.
  intros Hs Hc. destruct (shape_queue _ _ _ Hs Hc) as (rq & E & Y & Erq & EL & Hrq).
  rewrite (on_queue_does _ _ _ _ _ _ _ Erq (contains_does _ _ _ _ x (sh_fit _ _ Hs) Hrq)).
  unfold queued. rewrite EL. unfold at_core. rewrite list_insert_id by done. by destruct s.
Qed.

(** C1: in any interleaving of creating, starting, running, preempting, yielding, blocking,
    waking, killing, exiting, stealing, the timer and the two halves of the return into the
    scheduler loop, in which priorities are at most 7, no task goes to sleep while an entry of
    an earlier sleep is left, and a dead task is reaped only when it is off its core
    ([enabled]), no assertion of the scheduler fails and every action that may happen
    succeeds.  In every state a task is in the run queue of a core exactly when it is ready
    and at home there, so none is lost or queued on two cores; a running task is the current
    one of its home core, and no two cores have the same current task; and the counter of a
    core is the number of its ready and running tasks. *)
Theorem scheduler_safe s :
  reachable s ->
  (forall a, enabled a s -> exists s', perform a s = (Ok tt, s') /\ reachable s') /\
  (forall c x, is_core c -> exists b, on_queue c (contains x) s = (Ok b, s) /\
    (b = true <-> exists t, task_at (tasks s) x = Some t /\ state t = Ready /\ home_core t = c)) /\
  (forall x t, task_at (tasks s) x = Some t -> state t = Running -> current_on s (home_core t) = x) /\
  (forall c c', is_core c -> is_core c' -> current_on s c <> INVALID_SLOT ->
    current_on s c = current_on s c' -> c = c') /\
  (forall c, is_core c -> counter s c = zlen (runnable_tasks (tasks s) c)).
Proof.
  intros Hreach. pose proof (reachable_inv s Hreach) as Hinv.
  split; [|destruct Hinv as (L & Hs & Hp); split; [|split; [|split]]].
  - intros a He. destruct (perform_keeps a s Hinv He) as (s' & E & _). exists s'. split; [done|].
    by eapply reach_step.
  - intros c x Hc. eexists. split; [by apply contains_on_core|]. rewrite bool_decide_eq_true, (pl_queued _ _ Hp) by done.
    split.
    + intros (v & Hv & Hr & Hh). destruct (task_view _ _ _ Hv) as (t & Et & <-). eauto.
    + intros (t & Et & Hr & Hh). exists (view_of t). by rewrite (look_at _ _ _ Et).
  - intros x t Et Hr. pose proof (look_at _ _ _ Et) as Hv.
    destruct (pl_view _ _ Hp _ _ Hv) as (Hcpu & _ & Hh & _).
    apply (view_current s L x _ _ Hs Hp Hv Hh). unfold on_core. by rewrite (Hcpu Hr), Z.eqb_refl.
  - intros c c' Hc Hc' Hi E.
    destruct (current_task s L c Hs Hp Hc Hi) as (t & Et & _ & Hh & _).
    destruct (current_task s L c' Hs Hp Hc') as (t' & Et' & _ & Hh' & _); [congruence|].
    rewrite <- E, Et in Et'. congruence.
  - intros c Hc. rewrite (pl_count _ _ Hp c Hc). apply count_length.
Qed.

(** ** Runs on concrete states *)

Fixpoint performs (os : list action) : SM unit :=
  match os with [] => sret tt | a :: os => perform a ;;; performs os end.

Definition after (os : list action) : Sched := (performs os sched_new).2.

(** A task of priority 5 in slot 0 and one of priority 1 in slot 1, both of core 1, which
    runs the first. *)
Definition two_tasks : list action :=
  [Allocate id 7 5 1 0x1000; Start 0 0; Allocate id 8 1 1 0x2000; Start 0 1; Turn (fun _ => false) 1].

Definition state_at (s : Sched) (x : Z) : option (TaskState * Z * bool) :=
  (fun t => (state t, home_core t, on_cpu t)) <$> task_at (tasks s) x.

Example two_tasks_run :
  (performs two_tasks sched_new).1 = Ok tt /\ current_on (after two_tasks) 1 = 0 /\
  state_at (after two_tasks) 0 = Some (Running, 1, true) /\
  state_at (after two_tasks) 1 = Some (Ready, 1, false) /\ counter (after two_tasks) 1 = 2.
Proof. by vm_compute. Qed.

(** Without the condition of [Reap]: between the two halves of the return into the loop
    core 2 can steal the preempted task, run it and let it exit; core 1 then sees a dead
    task and frees the slot core 2 still stands on, and a new process gets that slot and
    its kernel stack. *)
Definition reap_race : SM (option Z) :=
  performs (two_tasks ++ [SwitchOut 1 ExecutingTasks; Leave 1;
    Turn (fun _ => false) 2; Turn (fun _ => false) 2; Exit 2; Reap 0]) ;;;
  on_slots (allocate_task_slot id 9 1 3 0x3000).

Example reap_race_frees_running_slot :
  (reap_race sched_new).1 = Ok (Some 0) /\ current_on (reap_race sched_new).2 2 = 0 /\
  process_on (reap_race sched_new).2 2 = 7.
Proof. by vm_compute. Qed.

(** A kill that arrives after the sleeping call has looked for one, and before the task is
    blocked, finds a running task and wakes nobody: the task sleeps on until its time. *)
Definition late_kill (now : Z) : list action :=
  two_tasks ++ [Kill 0 7 1; Block 1 1000; SwitchOut 1 ExecutingTasks; Leave 1; Reap 0; Tick 1 now].

Example late_kill_sleeps_on :
  state_at (after (late_kill 999)) 0 = Some (Blocked, 1, false) /\
  (kill_pending <$> task_at (tasks (after (late_kill 999))) 0) = Some true /\
  state_at (after (late_kill 1000)) 0 = Some (Ready, 1, false).
Proof. by vm_compute. Qed.

(** A sleeper woken early leaves its entry behind.  When it moves to another core and
    sleeps again, the old entry is due first: core 1 queues a task whose home is core 2,
    and the assertion fails when the task is preempted there. *)
Definition stray_sleeper : list action :=
  two_tasks ++ [Block 1 1000; SwitchOut 1 ExecutingTasks; Leave 1; Reap 0; Wake 0 (mkRef 0 7);
    Turn (fun _ => false) 2; Turn (fun _ => false) 2; Block 2 5000; SwitchOut 2 ExecutingTasks;
    Leave 2; Reap 0; Tick 1 1000; Turn (fun _ => false) 1].

Example stray_sleeper_panics :
  (performs stray_sleeper sched_new).1 = Ok tt /\
  state_at (after stray_sleeper) 0 = Some (Running, 2, true) /\ current_on (after stray_sleeper) 1 = 0 /\
  (perform (SwitchOut 1 ExecutingTasks) (after stray_sleeper)).1 = Panic.
Proof. by vm_compute. Qed.

(** The priority of a process may be 8, a queue takes at most 7. *)
Example priority_eight_panics :
  (performs [Allocate id 7 8 1 0x1000; Start 0 0] sched_new).1 = Panic.
Proof. by vm_compute. Qed.

Lemma reachable_two_tasks : reachable (after two_tasks).
Proof.
  assert (Hcore : is_core 1) by done.
  set (s1 := (perform (Allocate id 7 5 1 0x1000) sched_new).2).
  assert (R1 : reachable s1).
  { eapply (reach_step _ (Allocate id 7 5 1 0x1000)); [apply reach_new|by split|by vm_compute]. }
  set (s2 := (perform (Start 0 0) s1).2).
  assert (R2 : reachable s2).
  { eapply (reach_step _ (Start 0 0)); [exact R1| |by vm_compute]. eexists. by split; [vm_compute|]. }
  set (s3 := (perform (Allocate id 8 1 1 0x2000) s2).2).
  assert (R3 : reachable s3).
  { eapply (reach_step _ (Allocate id 8 1 1 0x2000)); [exact R2|by split|by vm_compute]. }
  set (s4 := (perform (Start 0 1) s3).2).
  assert (R4 : reachable s4).
  { eapply (reach_step _ (Start 0 1)); [exact R3| |by vm_compute]. eexists. by split; [vm_compute|]. }
  eapply (reach_step _ (Turn (fun _ => false) 1)); [exact R4|by split; vm_compute|by vm_compute].
Qed.

Lemma scheduler_safe_witness :
  exists b, on_queue 1 (contains 1) (after two_tasks) = (Ok b, after two_tasks) /\ b = true.
Proof.
  destruct (proj1 (proj2 (scheduler_safe _ reachable_two_tasks)) 1 1 ltac:(done)) as (b & E & Hb).
  exists b. split; [exact E|]. apply Hb. eexists. split; [vm_compute; reflexivity|]. by vm_compute.
Defined.
