(* ===== verification/Wait.v ===== *)
(** * Wait: wait queues and timed sleeps of kernel/src/process/wait.rs

    A [WaitQueue] is a locked array of task references.  An operation runs on the array
    and the schedulers' state; the loops that block the calling task are given by one
    turn, which ends when the task gives up the core. *)

From Stdlib Require Import ZArith Lia.
From stdpp Require Import base tactics list option numbers sets.
From S2P Require Import Prelude Tasks RunQueue RunQueueOk RunQueueSpec Scheduler SchedulerOk SchedulerSteps SchedulerLeave SchedulerRun.

Open Scope rust_scope.

Definition MICROSECONDS_PER_MILLISECOND : Z := 1000.

Record WaiterList : Type := mkWaiters {
  waiters : list TaskRef;
  waiter_count : nat;
}.

Definition waiter_list_new : WaiterList :=
  mkWaiters (replicate (Z.to_nat MAX_TASKS) (mkRef INVALID_SLOT INVALID_PID)) 0.

Abbreviation WM := (stM (WaiterList * Sched) Empty_set).

Definition on_sched {A} (m : SM A) : WM A := fun '(w, s) => let '(r, s') := m s in (r, (w, s')).
Definition the_list : WM WaiterList := fun '(w, s) => (Ok w, (w, s)).
Definition set_list (w : WaiterList) : WM unit := fun '(_, s) => (Ok tt, (w, s)).

(** [WaiterList::remove_stale] *)
Definition remove_stale : WM unit :=
  let! w := the_list in
  let! (l, n) := on_sched (on_slots (stale_loop (S (waiter_count w)) id (waiters w) 0 (waiter_count w))) in
  set_list (mkWaiters l n).

(** [WaiterList::push] *)
Definition push_waiter (r : TaskRef) : WM unit :=
  let! w := the_list in
  (if (waiter_count w =? length (waiters w))%nat then remove_stale else sret tt) ;;;
  let! w := the_list in
  sassert (waiter_count w <? length (waiters w))%nat ;;;
  set_list (mkWaiters (<[waiter_count w := r]> (waiters w)) (S (waiter_count w))).

(** [WaiterList::remove] and [WaitQueue::remove] *)
Definition remove (r : TaskRef) : WM unit :=
  let! w := the_list in
  match position (fun x => bool_decide (x = r)) (take (waiter_count w) (waiters w)) 0 with
  | None => sret tt
  | Some i => set_list (mkWaiters (swap_out (waiters w) (Z.to_nat i) (waiter_count w)) (waiter_count w - 1))
  end.

Definition add_current_task_and_mark_blocked (core_id : Z) : WM unit :=
  let! r := on_sched (core_current_task_ref core_id) in
  let! _ := on_sched (on_slots (slot (slot_of r))) in
  push_waiter r ;;;
  let! was_running := on_sched (on_slots (transition (slot_of r) Running Blocked)) in
  sassert was_running ;;;
  let! t := on_sched (on_slots (slot (slot_of r))) in
  on_sched (core_task_leave_run_queue (home_core t)).

Fixpoint wake_each (me : Z) (refs : list TaskRef) : SM unit :=
  match refs with
  | [] => sret tt
  | r :: refs => wake_task me r ;;; wake_each me refs
  end.

(** The entries are copied and the list emptied under the lock, then woken. *)
Definition wake_all (me : Z) : WM unit :=
  let! w := the_list in
  set_list (mkWaiters (waiters w) 0) ;;;
  on_sched (wake_each me (take (waiter_count w) (waiters w))).

(** One turn of the loop of [block_current_task_until_event]; [c1] and [c2] are what the
    condition says when it is asked.  True: the loop returns; false: the task has given
    up the core, and the loop goes round when it runs again.  [core_id] is read once
    before the loop, [me] is the core the task is on in this turn. *)
Definition wait_turn (me core_id : Z) (c1 c2 : bool) : WM bool :=
  let! go := (if c1 then sret true else on_sched (core_current_task_kill_pending core_id)) in
  if (go : bool) then sret true else
  add_current_task_and_mark_blocked me ;;;
  let! go := (if c2 then sret true else on_sched (core_current_task_kill_pending core_id)) in
  (if (go : bool) then
     let! r := on_sched (core_current_task_ref core_id) in
     remove r ;;;
     on_sched (wake_task me r)
   else sret tt) ;;;
  on_sched (core_run_scheduling core_id) ;;;
  sret false.

(** [sleep_current_task_ms]: the time to wake at, and one turn of its loop at [now_us]. *)
Definition wake_time (now_us duration_ms : Z) : result Empty_set Z :=
  if duration_ms * MICROSECONDS_PER_MILLISECOND <? 2 ^ 64
  then uadd now_us (duration_ms * MICROSECONDS_PER_MILLISECOND) else Panic.

Definition sleep_turn (core_id wake_time_us now_us : Z) : SM bool :=
  if wake_time_us <=? now_us then sret true else
  let! killed := core_current_task_kill_pending core_id in
  if (killed : bool) then sret true else
  core_block_current_task_until_wake_time wake_time_us core_id ;;;
  sret false.

(** ** Wait queues keep the invariant *)

Lemma core_run_scheduling_keeps s c : inv s -> is_core c -> current_on s c <> INVALID_SLOT ->
  exists s', core_run_scheduling c s = (Ok tt, s') /\ inv s' /\ current_on s' c = INVALID_SLOT.
Proof.
  intros Hinv Hc Hi. pose proof Hinv as (L & Hs & _). destruct (slice_load s L c Hs Hc) as [n En].
  unfold core_run_scheduling, requeue_choice. unfold sbind at 1. rewrite (sbind_ok _ _ _ _ _ En).
  unfold sret at 1. unfold core_switch_executing_yielding.
  destruct (switch_out_keeps s c (if n =? 0 then YieldingTasks else ExecutingTasks) Hinv Hc Hi)
    as (s1 & E1 & Hinv1 & Hcur1 & t & Et & Hr).
  rewrite (sbind_ok _ _ _ _ _ E1). rewrite <- Hcur1 in Et |- *.
  apply (run_task_end_keeps s1 c t); [done|done|congruence|done|done].
Qed.

(** A task that has blocked, or was woken right after, gives up its core. *)
Lemma core_run_scheduling_off s c t : inv s -> is_core c -> current_on s c <> INVALID_SLOT ->
  task_at (tasks s) (current_on s c) = Some t -> state t = Blocked \/ state t = Ready ->
  exists s', core_run_scheduling c s = (Ok tt, s') /\ inv s' /\
    task_at (tasks s') (current_on s c) = Some (set_on_cpu false t) /\ current_on s' c = INVALID_SLOT.
Proof.
  intros Hinv Hc Hi Et Hst. pose proof Hinv as (L & Hs & _). destruct (slice_load s L c Hs Hc) as [n En].
  assert (Hr : state t <> Running /\ state t <> Dead) by (destruct Hst as [-> | ->]; done).
  destruct (run_task_leave_keeps s c t Hinv Hc Hi Et) as (s1 & L1 & E1 & Hs1 & Hp1 & Et1 & Hcur); [by destruct Hr|].
  exists s1. split; [|split; [by exists L1|done]].
  unfold core_run_scheduling, requeue_choice. unfold sbind at 1. rewrite (sbind_ok _ _ _ _ _ En).
  unfold sret at 1. unfold core_switch_executing_yielding, switch_out.
  unfold sbind at 1. rewrite (sbind_ok _ _ _ _ _ (current_load s L c Hs Hc)), (proj2 (Z.eqb_neq _ _) Hi).
  unfold sbind at 1, sassert, sret at 1. cbn [negb].
  unfold sbind at 1. rewrite (on_slots_transition _ _ _ _ _ Et), decide_False by (by destruct Hr).
  unfold sbind at 1, sret at 1. unfold sret at 1. unfold run_task_end.
  rewrite (sbind_ok _ _ _ _ _ E1). unfold run_task_reap. rewrite (sbind_ok _ _ _ _ _ (on_slots_slot _ _ _ Et1)).
  cbn [state set_on_cpu]. by rewrite decide_False by (by destruct Hr).
Qed.

Lemma woken_ready r y v : v_state (woken r y v) = v_state v \/ v_state (woken r y v) = Ready.
Proof. unfold woken. case_decide; [by right|by left]. Qed.

Lemma woken_pid r y v : v_pid (woken r y v) = v_pid v.
Proof. unfold woken. by case_decide. Qed.

Lemma task_still s s1 x f : (forall y, look (tasks s1) y = f y <$> look (tasks s) y) ->
  is_Some (task_at (tasks s) x) -> is_Some (task_at (tasks s1) x).
Proof.
  intros Hlk [t Et]. specialize (Hlk x). rewrite (look_at _ _ _ Et) in Hlk.
  apply look_some in Hlk as (t1 & Et1 & _). by exists t1.
Qed.

Lemma wake_each_does me refs : forall s, inv s ->
  (forall r, r ∈ refs -> is_Some (task_at (tasks s) (slot_of r))) ->
  exists s', wake_each me refs s = (Ok tt, s') /\ inv s' /\
    forall y v, look (tasks s) y = Some v -> exists v', look (tasks s') y = Some v' /\
      v_pid v' = v_pid v /\ (v_state v' = v_state v \/ v_state v' = Ready) /\
      ((exists r, r ∈ refs /\ slot_of r = y /\ pid_of r = v_pid v) -> v_state v' <> Blocked).
Proof.
  induction refs as [|r refs IH]; intros s Hinv Hr.
  { exists s. split; [done|]. split; [done|]. intros y v Hv. exists v. split_and!; try done; [by left|].
    intros (r & Hr' & _). by apply elem_of_nil in Hr'. }
  cbn [wake_each]. destruct (wake_task_does me s r Hinv) as (s1 & E1 & Hinv1 & Hlk & _); [apply Hr; set_solver|].
  rewrite (sbind_ok _ _ _ _ _ E1). destruct (IH s1 Hinv1) as (s2 & E2 & Hinv2 & Hafter).
  { intros q Hq. eapply task_still; [exact Hlk|]. apply Hr. set_solver. }
  exists s2. split; [done|]. split; [done|]. intros y v Hv.
  destruct (Hafter y (woken r y v)) as (v' & Hv' & Hpid & Hst & Hwoke); [by rewrite Hlk, Hv|].
  exists v'. split; [done|]. rewrite Hpid, woken_pid. split; [done|]. rewrite woken_pid in Hwoke. split.
  - destruct Hst as [-> | ->]; [apply woken_ready|by right].
  - intros (q & [->|Hq]%elem_of_cons & Hy & Hp); [|apply Hwoke; eauto].
    destruct Hst as [-> | ->]; [|done]. unfold woken. case_decide as Hd; [done|]. intros Hb. apply Hd. auto.
Qed.

(** ** The contract *)

Definition listed (w : WaiterList) : list TaskRef := take (waiter_count w) (waiters w).

Record waiters_ok (s : Sched) (w : WaiterList) : Prop := {
  wk_length : length (waiters w) = Z.to_nat MAX_TASKS;
  wk_count : (waiter_count w <= length (waiters w))%nat;
  wk_nodup : NoDup (listed w);
  wk_tasks : forall r, r ∈ listed w -> is_Some (task_at (tasks s) (slot_of r));
}.

(** [wake_all] wakes everybody: every listed task that is still there and blocked is
    ready afterwards, the list is empty, and the schedulers' invariant holds. *)
Theorem wake_all_wakes me s w :
  inv s -> waiters_ok s w ->
  exists w' s', wake_all me (w, s) = (Ok tt, (w', s')) /\ listed w' = [] /\ inv s' /\
    forall r t, r ∈ listed w -> task_at (tasks s) (slot_of r) = Some t -> pid t = pid_of r ->
      state t = Blocked -> exists t', task_at (tasks s') (slot_of r) = Some t' /\ state t' = Ready.
Proof.
  intros Hinv [_ _ _ Hts]. destruct (wake_each_does me (listed w) s Hinv Hts) as (s' & E & Hinv' & Hafter).
  exists (mkWaiters (waiters w) 0), s'. unfold wake_all, sbind, the_list, set_list, on_sched.
  fold (listed w). rewrite E. split; [done|]. split; [done|]. split; [done|].
  intros r t Hr Et Hpid Hb. destruct (Hafter _ _ (look_at _ _ _ Et)) as (v' & Hv' & _ & Hst & Hwoke).
  destruct (task_view _ _ _ Hv') as (t' & Et' & <-). exists t'. split; [done|]. cbn in *.
  destruct Hst as [Hst|Hst]; [|done]. destruct Hwoke; [by exists r|congruence].
Qed.

Lemma push_waiter_does w s r x t :
  tasks_fit (tasks s) -> waiters_ok s w -> task_at (tasks s) x = Some t -> state t <> Blocked ->
  (r ∉ listed w) ->
  exists w', push_waiter r (w, s) = (Ok tt, (w', s)) /\
    (forall q, q ∈ listed w' -> q ∈ listed w \/ q = r) /\ r ∈ listed w' /\ NoDup (listed w') /\
    (waiter_count w' <= length (waiters w'))%nat /\ length (waiters w') = length (waiters w).
Proof.
  intros Hf [Hl Hn Hd Hts] Hx Hb Hr. unfold push_waiter.
  assert (Hroom : exists w1, (if (waiter_count w =? length (waiters w))%nat then remove_stale else sret tt) (w, s)
      = (Ok tt, (w1, s)) /\ (waiter_count w1 < length (waiters w1))%nat /\ NoDup (listed w1) /\
    length (waiters w1) = length (waiters w) /\ forall q, q ∈ listed w1 -> q ∈ listed w).
  { destruct (Nat.eqb_spec (waiter_count w) (length (waiters w))) as [Ec|Ec];
      [|exists w; split; [done|]; split; [lia|done]].
    destruct (stale_loop_does id (tasks s) (S (waiter_count w)) (waiters w) 0 (waiter_count w))
      as (l & n & E & Hll & Hnn & Hp); [done|lia|lia|done|].
    rewrite take_0, drop_0 in Hp. cbn [app] in Hp.
    pose proof (waiting_room id (tasks s) (listed w) x t Hf) as Hroom. rewrite list_fmap_id in Hroom.
    specialize (Hroom Hd Hx Hb). unfold listed in Hroom. rewrite <- Hp, length_take in Hroom.
    exists (mkWaiters l n). unfold remove_stale, sbind, the_list, on_sched, on_slots, set_list.
    rewrite E. replace (set_tasks (tasks s) s) with s by (by destruct s). split; [done|].
    unfold listed. cbn. split; [lia|]. rewrite Hp. split; [|split; [done|]].
    - rewrite <- (list_fmap_id (List.filter _ _)). apply (NoDup_fmap_filter id). by rewrite list_fmap_id.
    - intros q. rewrite Hp. by intros [? _]%list_filter_in. }
  destruct Hroom as (w1 & E1 & Hlt & Hnd1 & Hlen1 & Hsub). unfold sbind at 1, the_list at 1.
  rewrite (sbind_ok _ _ _ _ _ E1). unfold sbind, the_list, sassert, sret, set_list.
  rewrite (proj2 (Nat.ltb_lt _ _) Hlt). eexists. split; [reflexivity|].
  assert (Ht : listed (mkWaiters (<[waiter_count w1 := r]> (waiters w1)) (S (waiter_count w1))) = listed w1 ++ [r]).
  { unfold listed. cbn. rewrite (take_S_r _ _ r) by (by apply list_lookup_insert_eq). by rewrite take_insert_ge. }
  rewrite Ht. split_and!.
  - intros q [Hq|Hq%list_elem_of_singleton]%elem_of_app; [left; by apply Hsub|by right].
  - set_solver.
  - apply list.NoDup_app. split; [done|]. split; [|apply NoDup_singleton].
    intros q Hq Hqr%list_elem_of_singleton. subst q. by apply Hr, Hsub.
  - cbn. rewrite length_insert. lia.
  - cbn. by rewrite length_insert.
Qed.

Lemma remove_does w s r : (waiter_count w <= length (waiters w))%nat -> NoDup (listed w) -> r ∈ listed w ->
  exists w', remove r (w, s) = (Ok tt, (w', s)) /\ (r ∉ listed w').
Proof.
  intros Hn Hd Hr. unfold remove, sbind, the_list. fold (listed w).
  pose proof (position_spec (fun x => bool_decide (x = r)) (listed w) 0) as Hpos.
  destruct (position _ (listed w) 0) as [i|]; cycle 1.
  { rewrite Forall_forall in Hpos. specialize (Hpos r Hr). cbn in Hpos. by rewrite bool_decide_true in Hpos. }
  destruct Hpos as (Hi & x & Hx & ->%bool_decide_eq_true & _). rewrite Z.sub_0_r in Hx.
  eexists. split; [reflexivity|]. unfold listed in *. cbn [waiters waiter_count].
  pose proof (lookup_lt_Some _ _ _ Hx) as Hlt. rewrite length_take in Hlt.
  rewrite lookup_take_lt in Hx by lia.
  destruct (swap_out_split (waiters w) (Z.to_nat i) (waiter_count w) r) as (R & R' & ER & ER' & Hp); [lia|done|done|].
  rewrite ER', Hp. rewrite ER, <- Permutation_middle in Hd. by apply NoDup_cons_1_1 in Hd.
Qed.

(** A running task that has put itself in the list is blocked. *)
Lemma add_current_does s w c t :
  inv s -> is_core c -> current_on s c <> INVALID_SLOT ->
  task_at (tasks s) (current_on s c) = Some t -> state t = Running ->
  waiters_ok s w -> (mkRef (current_on s c) (pid t) ∉ listed w) ->
  (forall c' e, is_core c' -> e ∈ sleepers s c' -> task_ref e <> mkRef (current_on s c) (pid t)) ->
  exists w' s', add_current_task_and_mark_blocked c (w, s) = (Ok tt, (w', s')) /\ inv s' /\
    current_on s' c = current_on s c /\ process_on s' c = pid t /\
    task_at (tasks s') (current_on s c) = Some (set_state Blocked t) /\
    mkRef (current_on s c) (pid t) ∈ listed w' /\ waiters_ok s' w'.
Proof.
  intros (L & Hs & Hp) Hc Hi Et Hr Hw Hno Hsl. set (x := current_on s c) in *.
  destruct (current_task s L c Hs Hp Hc Hi) as (t0 & Et0 & _ & Hh & Hpid & _).
  fold x in Et0. rewrite Et in Et0. injection Et0 as <-.
  destruct (push_waiter_does w s (mkRef x (pid t)) x t) as (w' & E & Hold & Hin & Hnd & Hcnt & Hlen);
    [by destruct Hs|done|done|congruence|done|].
  destruct (leave_run_queue s L c t Blocked Hs Hp Hc Hi Et Hr) as (s' & E' & Hs' & Hp' & Hcur); [by left| |].
  { intros c' e Hc' He _ Href. by destruct (Hsl c' e Hc' He). }
  fold x in E', Hcur. exists w', s'. revert E'. unfold sbind at 1. rewrite (on_slots_store _ _ _ (ex_intro _ _ Et)).
  set (s1 := set_tasks _ s). intros E'.
  assert (Et1 : task_at (tasks s1) x = Some (set_state Blocked t)) by (cbn; by rewrite task_at_put, decide_True, Et by done).
  assert (Hs1 : shape s1 L) by (by apply shape_put; [left|]).
  assert (Heq : tasks s' = tasks s1 /\ current_process_on_core s' = current_process_on_core s1).
  { revert E'. unfold core_task_leave_run_queue. rewrite (sbind_ok _ _ _ _ _ (add_runnable_does s1 L c (-1) Hs1 Hc)).
    unfold sassert. destruct (0 <? _); [|done]. by intros [= <-]. }
  destruct Heq as [Heq1 Heq2]. split; [|split; [by exists L|split; [done|split; [|split; [|split; [done|]]]]]].
  - unfold add_current_task_and_mark_blocked, sbind at 1, on_sched at 1.
    rewrite (current_ref_does s L c Hs Hc Hi). fold x. rewrite Hpid. cbn [slot_of].
    unfold sbind at 1, on_sched at 1. rewrite (on_slots_slot _ _ _ Et).
    rewrite (sbind_ok _ _ _ _ _ E). unfold sbind at 1, on_sched at 1.
    rewrite (on_slots_transition _ _ _ _ _ Et), decide_True by done. fold s1.
    unfold sbind at 1, sassert, sret at 1. unfold sbind at 1, on_sched at 1.
    rewrite (on_slots_slot _ _ _ Et1). unfold on_sched. cbn [home_core set_state]. by rewrite Hh, E'.
  - unfold process_on. rewrite Heq2. exact Hpid.
  - by rewrite Heq1.
  - constructor; [by rewrite Hlen; destruct Hw|done|done|]. rewrite Heq1. intros q [Hq| ->]%Hold.
    + apply is_some_put. by apply (wk_tasks _ _ Hw).
    + by eexists.
Qed.

(** C14: no wake-up is lost between asking for the condition and blocking: a running task,
    still on the core whose number it read before its loop, not listed yet and with no entry
    left among the sleepers, whose condition does not hold, puts itself in the list and blocks; if the condition
    came true in the meantime it takes itself out again and is ready, otherwise it gives
    up its core blocked and listed, where the next [wake_all] finds it.  It returns at
    once when the condition holds or it is to be killed.  What a task does that has moved to
    another core in between is in [stale_core_switches_other_task] and [stale_core_panics]. *)
Theorem wait_turn_listed s w c t c1 c2 :
  inv s -> is_core c -> current_on s c <> INVALID_SLOT ->
  task_at (tasks s) (current_on s c) = Some t -> state t = Running ->
  waiters_ok s w -> (mkRef (current_on s c) (pid t) ∉ listed w) ->
  (forall c' e, is_core c' -> e ∈ sleepers s c' -> task_ref e <> mkRef (current_on s c) (pid t)) ->
  if c1 || kill_pending t then wait_turn c c c1 c2 (w, s) = (Ok true, (w, s))
  else exists w' s' t', wait_turn c c c1 c2 (w, s) = (Ok false, (w', s')) /\ inv s' /\
    current_on s' c = INVALID_SLOT /\ task_at (tasks s') (current_on s c) = Some t' /\
    if c2 then state t' = Ready /\ (mkRef (current_on s c) (pid t) ∉ listed w')
    else state t' = Blocked /\ mkRef (current_on s c) (pid t) ∈ listed w'.
Proof.
  intros Hinv Hc Hi Et Hr Hw Hno Hsl. unfold wait_turn. set (x := current_on s c) in *.
  pose proof Hinv as (L & Hs & Hp).
  assert (Hkill : core_current_task_kill_pending c s = (Ok (kill_pending t), s)).
  { unfold core_current_task_kill_pending. rewrite (sbind_ok _ _ _ _ _ (current_ref_does s L c Hs Hc Hi)).
    cbn [slot_of]. by rewrite (sbind_ok _ _ _ _ _ (on_slots_slot _ _ _ Et)). }
  assert (Hgo : (if c1 then sret true else on_sched (core_current_task_kill_pending c)) (w, s)
    = (Ok (c1 || kill_pending t), (w, s))).
  { destruct c1; [done|]. unfold on_sched. by rewrite Hkill. }
  rewrite (sbind_ok _ _ _ _ _ Hgo). destruct (c1 || kill_pending t) eqn:Ego; [done|].
  apply orb_false_iff in Ego as [-> Hnk].
  destruct (add_current_does s w c t Hinv Hc Hi Et Hr Hw Hno Hsl)
    as (w1 & s1 & E1 & Hinv1 & Hcur1 & Hproc1 & Et1 & Hin1 & [_ Hcnt1 Hnd1 _]). fold x in Hcur1, Et1, Hin1.
  rewrite (sbind_ok _ _ _ _ _ E1). pose proof Hinv1 as (L1 & Hs1 & Hp1).
  assert (Href1 : core_current_task_ref c s1 = (Ok (mkRef x (pid t)), s1)).
  { rewrite (current_ref_does s1 L1 c Hs1 Hc) by (by rewrite Hcur1). by rewrite Hcur1, Hproc1. }
  assert (Hgo1 : (if c2 then sret true else on_sched (core_current_task_kill_pending c)) (w1, s1)
    = (Ok c2, (w1, s1))).
  { destruct c2; [done|]. unfold on_sched, core_current_task_kill_pending.
    rewrite (sbind_ok _ _ _ _ _ Href1). cbn [slot_of]. rewrite (sbind_ok _ _ _ _ _ (on_slots_slot _ _ _ Et1)).
    cbn. by rewrite Hnk. }
  rewrite (sbind_ok _ _ _ _ _ Hgo1). destruct c2.
  - destruct (remove_does w1 s1 (mkRef x (pid t)) Hcnt1 Hnd1 Hin1) as (w2 & E2 & Hout).
    destruct (wake_task_does c s1 (mkRef x (pid t)) Hinv1) as (s2 & E3 & Hinv2 & Hlk & Hcur2 & _); [by eexists|].
    unfold sbind at 1. unfold sbind at 1, on_sched at 1. rewrite Href1, (sbind_ok _ _ _ _ _ E2).
    unfold on_sched at 1. rewrite E3. assert (Hx2 : current_on s2 c = x) by (unfold current_on; by rewrite Hcur2).
    specialize (Hlk x). rewrite (look_at _ _ _ Et1) in Hlk. apply look_some in Hlk as (t2 & Et2 & Hv2).
    assert (Hr2 : state t2 = Ready).
    { unfold woken in Hv2. rewrite decide_True in Hv2 by done. change (state t2) with (v_state (view_of t2)).
      by rewrite <- Hv2. }
    rewrite <- Hx2 in Et2. destruct (core_run_scheduling_off s2 c t2 Hinv2 Hc) as (s3 & E4 & Hinv3 & Et3 & Hcur3);
      [by rewrite Hx2|done|by right|].
    exists w2, s3, (set_on_cpu false t2). rewrite Hx2 in Et3. unfold sbind, on_sched. rewrite E4. by split_and!.
  - destruct (core_run_scheduling_off s1 c (set_state Blocked t) Hinv1 Hc) as (s3 & E4 & Hinv3 & Et3 & Hcur3);
      [by rewrite Hcur1|by rewrite Hcur1|by left|].
    exists w1, s3, (set_on_cpu false (set_state Blocked t)). rewrite Hcur1 in Et3.
    unfold sbind, sret, on_sched. rewrite E4. by split_and!.
Qed.

(** ** Runs on concrete states *)

Definition wait_as (me core_id : Z) (c1 c2 : bool) (ws : WaiterList * Sched) : WaiterList * Sched :=
  (wait_turn me core_id c1 c2 ws).2.

(** Slot 0 waits on core 1. *)
Definition one_waits : WaiterList * Sched := wait_as 1 1 false false (waiter_list_new, after two_tasks).

Example one_waits_run :
  listed one_waits.1 = [mkRef 0 7] /\ state_at one_waits.2 0 = Some (Blocked, 1, false).
Proof. split; vm_compute; reflexivity. Qed.

(** Core 1 runs the other task, the waiting one is woken, core 2 takes it over and runs it. *)
Definition migrated : WaiterList * Sched :=
  let s1 := (perform (Turn (fun _ => false) 1) one_waits.2).2 in
  let '(w, s2) := (wake_all 0 (one_waits.1, s1)).2 in
  (w, (performs [Turn (fun _ => false) 2; Turn (fun _ => false) 2] s2).2).

Example migrated_run :
  current_on migrated.2 2 = 0 /\ state_at migrated.2 0 = Some (Running, 2, true) /\
  current_on migrated.2 1 = 1 /\ state_at migrated.2 1 = Some (Running, 1, true).
Proof. by vm_compute. Qed.

(** The waiting loop reads the core once, before the loop.  A task that was woken and
    taken over by another core goes on with the number of the core it left: when its
    condition does not hold it blocks itself, but gives up the other core: the task that
    runs there is marked ready and queued while that core still executes it, and the
    waiting task stays current on its own. *)
Theorem stale_core_switches_other_task :
  (wait_turn 2 1 false false migrated).1 = Ok false /\
  state_at (wait_as 2 1 false false migrated).2 1 = Some (Ready, 1, false) /\
  current_on (wait_as 2 1 false false migrated).2 1 = INVALID_SLOT /\
  current_on (wait_as 2 1 false false migrated).2 2 = 0 /\
  state_at (wait_as 2 1 false false migrated).2 0 = Some (Blocked, 2, true).
Proof. by vm_compute. Qed.

(** With the other core idle the loop stops at an assertion. *)
Example stale_core_panics :
  (wait_turn 2 1 false false
     (migrated.1, (performs [Exit 1; Leave 1; Reap 1] migrated.2).2)).1 = Panic.
Proof. by vm_compute. Qed.

Lemma two_tasks_waiters : waiters_ok (after two_tasks) waiter_list_new.
Proof. constructor; [done|by vm_compute; lia|constructor|]. intros r Hr. by apply elem_of_nil in Hr. Qed.

Lemma two_tasks_sleepers c e : is_core c -> e ∈ sleepers (after two_tasks) c -> False.
Proof.
  intros Hc He. unfold is_core, MAX_CORES in Hc.
  assert (Hcases : c = 0 \/ c = 1 \/ c = 2 \/ c = 3) by lia.
  destruct Hcases as [-> | [-> | [-> | ->]]]; vm_compute in He; by apply elem_of_nil in He.
Qed.

Lemma wait_turn_listed_witness :
  exists w' s', wait_turn 1 1 false false (waiter_list_new, after two_tasks) = (Ok false, (w', s')) /\
    mkRef 0 7 ∈ listed w'.
Proof.
  destruct (task_at (tasks (after two_tasks)) 0) as [t|] eqn:Et; [|by vm_compute in Et].
  assert (Ht : kill_pending t = false /\ pid t = 7 /\ state t = Running)
    by (vm_compute in Et; injection Et as <-; done).
  destruct Ht as (Hk & Hp & Hr). assert (Hcur : current_on (after two_tasks) 1 = 0) by (by vm_compute).
  pose proof (wait_turn_listed (after two_tasks) waiter_list_new 1 t false false
    (reachable_inv _ reachable_two_tasks) ltac:(done)) as H. rewrite Hcur in H.
  specialize (H ltac:(done) Et Hr two_tasks_waiters). rewrite Hk in H.
  destruct H as (w' & s' & t' & E & _ & _ & _ & _ & Hin).
  - intros Hin. by apply elem_of_nil in Hin.
  - intros c' e Hc' He. by destruct (two_tasks_sleepers c' e Hc' He).
  - exists w', s'. split; [exact E|]. by rewrite Hp in Hin.
Defined.

Lemma wake_all_wakes_witness :
  exists w s w' s' t, wake_all 0 (w, s) = (Ok tt, (w', s')) /\
    task_at (tasks s') 0 = Some t /\ state t = Ready.
Proof.
  destruct (task_at (tasks (after two_tasks)) 0) as [t|] eqn:Et; [|by vm_compute in Et].
  assert (Ht : state t = Running /\ pid t = 7) by (vm_compute in Et; injection Et as <-; done).
  destruct Ht as [Hr Hp]. assert (Hcur : current_on (after two_tasks) 1 = 0) by (by vm_compute).
  pose proof (add_current_does (after two_tasks) waiter_list_new 1 t
    (reachable_inv _ reachable_two_tasks) ltac:(done)) as H. rewrite Hcur in H.
  destruct (H ltac:(done) Et Hr two_tasks_waiters) as (w & s & _ & Hinv & _ & _ & Et1 & Hin & Hw).
  { intros Hin. by apply elem_of_nil in Hin. }
  { intros c' e Hc' He. by destruct (two_tasks_sleepers c' e Hc' He). }
  destruct (wake_all_wakes 0 s w Hinv Hw) as (w' & s' & E & _ & _ & Hwoke).
  destruct (Hwoke _ _ Hin Et1 eq_refl eq_refl) as (t' & Et' & Hr'). exists w, s, w', s', t'. by split_and!.
Defined.
