(* ===== verification/Regions.v ===== *)
(** * Regions: the tracked memory of a process, kernel/src/process/process_mem.rs

    The list of mapped regions a process keeps, sorted by start, with the operations that
    add a region, look a range up and search the reservation window for a gap.  Mapping
    itself is in [UserMem] and [ProcessMem].  A [VirtAddr] is its 64-bit value; what the
    x86_64 crate does when one is made or advanced is the class [VirtAddrApi].
    [covers] is the set of addresses the list stands for. *)

From Stdlib Require Import ZArith Lia Sorted.
From stdpp Require Import base tactics list option numbers.
From S2P Require Import Prelude FrameAlloc.

Open Scope rust_scope.

(** [VirtAddr::new], [VirtAddr + u64], [VirtAddr - u64] and [containing_address] (of a
    [Page] or a [PhysFrame]) of the x86_64 crate. *)
Class VirtAddrApi : Type := {
  va_new : forall {E : Type}, Z -> result E Z;
  va_add : forall {E : Type}, Z -> Z -> result E Z;
  va_sub : forall {E : Type}, Z -> Z -> result E Z;
  containing_address : Z -> Z;
}.

(** User addresses, below 2^47, are canonical. *)
Class VirtAddrLaws `{VirtAddrApi} : Prop := {
  va_new_user : forall E a, 0 <= a < 2 ^ 47 -> va_new (E:=E) a = Ok a;
  va_add_user : forall E a n, 0 <= a -> 0 <= n -> a + n < 2 ^ 47 -> va_add (E:=E) a n = Ok (a + n);
  va_sub_user : forall E a n, 0 <= n <= a -> a < 2 ^ 47 -> va_sub (E:=E) a n = Ok (a - n);
  containing_is : forall a, 0 <= a -> containing_address a = a / PAGE_SIZE * PAGE_SIZE;
}.

(** Bits 48 to 63 repeat bit 47, or the constructor panics. *)
Definition canonical {E} (a : Z) : result E Z :=
  if (0 <=? a) && ((a <? 2 ^ 47) || ((2 ^ 64 - 2 ^ 47 <=? a) && (a <? 2 ^ 64))) then Ok a else Panic.

#[export] Instance canonical_api : VirtAddrApi :=
  {| va_new E a := canonical a; va_add E a n := canonical (a + n);
     va_sub E a n := canonical (a - n); containing_address a := a / PAGE_SIZE * PAGE_SIZE |}.

#[export] Instance canonical_laws : VirtAddrLaws.
Proof.
  assert (Hc : forall E a, 0 <= a < 2 ^ 47 -> canonical (E:=E) a = Ok a).
  { intros E a Ha. unfold canonical.
    rewrite (proj2 (Z.leb_le _ _)), (proj2 (Z.ltb_lt _ _)) by lia. done. }
  split; try done; intros; apply Hc; lia.
Qed.

Inductive FrameOwnership : Type := Owned | Borrowed.

#[export] Instance ownership_eq : EqDecision FrameOwnership.
Proof. solve_decision. Defined.

Record MappedMemoryRegion : Type := mkRegion {
  start_virt : Z;
  size_bytes : Z;
  page_flags : Z;
  frame_ownership : FrameOwnership;
}.

Record ProcessMemoryLayout : Type := mkLayout {
  top_page_table_phys : Z;
  heap_end : Z;
  next_alloc_vaddr : Z;
  regions : list MappedMemoryRegion;
}.

Definition set_regions (l : list MappedMemoryRegion) (p : ProcessMemoryLayout) : ProcessMemoryLayout :=
  mkLayout (top_page_table_phys p) (heap_end p) (next_alloc_vaddr p) l.

Definition PROCESS_USER_VADDR_ALLOC_MAX_SIZE : Z := 0x50000000.
Definition PROCESS_USER_VADDR_ALLOC_START : Z := 0x10000000.
Definition PROCESS_USER_VADDR_ALLOC_END : Z :=
  PROCESS_USER_VADDR_ALLOC_START + PROCESS_USER_VADDR_ALLOC_MAX_SIZE.
Definition PROCESS_WINDOW_BUFFER_BASE : Z := 0x100000000.
Definition PROCESS_HEAP_VIRT_START : Z := 0x60000000.
Definition PROCESS_HEAP_SIZE_BYTES : Z := PROCESS_WINDOW_BUFFER_BASE - PROCESS_HEAP_VIRT_START.
Definition PROCESS_HEAP_VIRT_END : Z := PROCESS_HEAP_VIRT_START + PROCESS_HEAP_SIZE_BYTES.

Definition align_to_page_size {E} (size : Z) : result E Z :=
  let? s := uadd size PAGE_SIZE in Ok ((s - 1) / PAGE_SIZE * PAGE_SIZE).

Definition align_down_to_page_size (address : Z) : Z := Z.land address (Z.lnot (PAGE_SIZE - 1)).

Definition end_virt {E} (r : MappedMemoryRegion) : result E Z := uadd (start_virt r) (size_bytes r).

Section regions.
Context `{VirtAddrApi} {E : Type}.

Definition with_page_table (top : Z) : result E ProcessMemoryLayout :=
  let? heap := va_new PROCESS_HEAP_VIRT_START in
  let? next := va_new PROCESS_USER_VADDR_ALLOC_START in
  Ok (mkLayout top heap next []).

(** [slice::partition_point]: the length of the longest prefix that satisfies [p]. *)
Fixpoint partition_point {A} (p : A -> bool) (l : list A) : nat :=
  match l with
  | x :: l => if p x then S (partition_point p l) else O
  | [] => O
  end.

Definition can_merge (existing candidate : MappedMemoryRegion) : bool :=
  (page_flags existing =? page_flags candidate) &&
  bool_decide (frame_ownership existing = frame_ownership candidate).

(** [can_merge(existing, candidate)] and [r] ends at or after [a]. *)
Definition reaches (existing candidate : MappedMemoryRegion) (a : Z) (r : MappedMemoryRegion)
    : result E bool :=
  if can_merge existing candidate then let? e := end_virt r in Ok (a <=? e) else Ok false.

(** The [while] loop of [track_region]; it removes one region per turn. *)
Fixpoint merge_following (fuel : nat) (insert_at : nat) (merged : MappedMemoryRegion)
    (l : list MappedMemoryRegion) : result E (MappedMemoryRegion * list MappedMemoryRegion) :=
  match fuel with
  | O => OutOfFuel
  | S fuel =>
      match l !! insert_at with
      | None => Ok (merged, l)
      | Some next =>
          let? touches := reaches next merged (start_virt next) merged in
          if negb touches then Ok (merged, l) else
          let? merged_end := end_virt merged in
          let? next_end := end_virt next in
          let? size := usub (Z.max merged_end next_end) (start_virt merged) in
          merge_following fuel insert_at
            (mkRegion (start_virt merged) size (page_flags merged) (frame_ownership merged))
            (base.delete insert_at l)
      end
  end.

(** The merge with the region before the insertion point. *)
Definition merge_previous (insert_index : nat) (merged : MappedMemoryRegion)
    (l : list MappedMemoryRegion) : result E (nat * MappedMemoryRegion * list MappedMemoryRegion) :=
  match insert_index with
  | O => Ok (O, merged, l)
  | S before =>
      match l !! before with
      | None => Panic
      | Some previous =>
          let? touches := reaches previous merged (start_virt merged) previous in
          if (touches : bool) then
            let? e := end_virt merged in
            let? previous_end := end_virt previous in
            let merged_end := Z.max e previous_end in
            let? size := usub merged_end (start_virt previous) in
            Ok (before, mkRegion (start_virt previous) size (page_flags merged) (frame_ownership merged),
                base.delete before l)
          else Ok (insert_index, merged, l)
      end
  end.

(** [Vec::insert] *)
Definition vec_insert {A} (i : nat) (x : A) (l : list A) : list A := take i l ++ x :: drop i l.

Definition track_region (region : MappedMemoryRegion) (l : list MappedMemoryRegion)
    : result E (list MappedMemoryRegion) :=
  if negb (0 <? size_bytes region) then Panic else
  let aligned_start := align_down_to_page_size (start_virt region) in
  let? region_end := end_virt region in
  let? aligned_end := align_to_page_size region_end in
  let? aligned_start_virt := va_new aligned_start in
  let? size := usub aligned_end aligned_start in
  let merged := mkRegion aligned_start_virt size (page_flags region) (frame_ownership region) in
  let insert_index := partition_point (fun existing => start_virt existing <? start_virt merged) l in
  let? (insert_at, merged, l) := merge_previous insert_index merged l in
  let? (merged, l) := merge_following (S (length l)) insert_at merged l in
  Ok (vec_insert insert_at merged l).

(** [region.start_virt <= range_start && region.end_virt() >= range_end], the second part
    only when the first holds. *)
Definition region_contains (range_start range_end : Z) (r : MappedMemoryRegion) : result E bool :=
  if start_virt r <=? range_start then let? e := end_virt r in Ok (range_end <=? e) else Ok false.

(** [iter().position(..)] *)
Fixpoint position {A} (p : A -> result E bool) (l : list A) : result E (option nat) :=
  match l with
  | [] => Ok None
  | x :: l =>
      let? found := p x in
      if (found : bool) then Ok (Some O) else let? i := position p l in Ok (S <$> i)
  end.

(** [iter().any(..)] stops at the first hit, as [position] does. *)
Definition is_range_tracked (start size : Z) (l : list MappedMemoryRegion) : result E bool :=
  let? range_end := uadd start size in
  let? i := position (region_contains start range_end) l in
  Ok (match i with Some _ => true | None => false end).

(** The list after [unmap_region] took the range out of the region it found. *)
Definition split_region (region_index : nat) (range_start range_end : Z) (l : list MappedMemoryRegion)
    : result E (list MappedMemoryRegion) :=
  match l !! region_index with
  | None => Panic
  | Some region =>
      let l := base.delete region_index l in
      let? (insert_at, l) :=
        (if start_virt region <? range_start then
           let? size := usub range_start (start_virt region) in
           Ok (S region_index, vec_insert region_index
             (mkRegion (start_virt region) size (page_flags region) (frame_ownership region)) l)
         else Ok (region_index, l)) in
      let? region_end := end_virt region in
      if range_end <? region_end then
        let? start := va_new range_end in
        let? size := usub region_end range_end in
        Ok (vec_insert insert_at (mkRegion start size (page_flags region) (frame_ownership region)) l)
      else Ok l
  end.

(** The loop over the regions: a gap before one of them, or the cursor after the last. *)
Fixpoint gap_loop (aligned_size cursor : Z) (l : list MappedMemoryRegion) : result E (Z + Z) :=
  match l with
  | [] => Ok (inr cursor)
  | region :: l =>
      let? region_end := end_virt region in
      if region_end <=? PROCESS_USER_VADDR_ALLOC_START then gap_loop aligned_size cursor l else
      if PROCESS_USER_VADDR_ALLOC_END <=? start_virt region then Ok (inr cursor) else
      if saturating_add 64 cursor aligned_size <=? start_virt region then Ok (inl cursor) else
      gap_loop aligned_size (Z.max cursor region_end) l
  end.

Definition find_free_gap (size : Z) (l : list MappedMemoryRegion) : result E (option Z) :=
  let? aligned_size := align_to_page_size size in
  if aligned_size =? 0 then Ok None else
  let? r := gap_loop aligned_size PROCESS_USER_VADDR_ALLOC_START l in
  match r with
  | inl cursor => let? v := va_new cursor in Ok (Some v)
  | inr cursor =>
      if saturating_add 64 cursor aligned_size <=? PROCESS_USER_VADDR_ALLOC_END then
        let? v := va_new cursor in Ok (Some v)
      else Ok None
  end.

Definition allocate_virtual_range (size : Z) (p : ProcessMemoryLayout)
    : result E (option Z * ProcessMemoryLayout) :=
  if PROCESS_USER_VADDR_ALLOC_MAX_SIZE <? size then Ok (None, p) else
  let? aligned_size := align_to_page_size size in
  let alloc_vaddr := next_alloc_vaddr p in
  let? range_end := uadd alloc_vaddr aligned_size in
  if PROCESS_USER_VADDR_ALLOC_END <? range_end then
    let? r := find_free_gap aligned_size (regions p) in Ok (r, p)
  else
    let? next := va_new range_end in
    let? v := va_new alloc_vaddr in
    Ok (Some v, mkLayout (top_page_table_phys p) (heap_end p) next (regions p)).

End regions.
