(* ===== verification/RegionsSpec.v ===== *)
(** * RegionsSpec: what the region list of a process stands for

    [covers l a f o]: some region of [l] with flags [f] and ownership [o] contains the
    address [a].  A list is [tidy] when its regions are page aligned, non-empty, in the
    user half and sorted by start, and [merged] when no region touches its mergeable
    predecessor.  Tracking adds exactly the pages of the new region, unmapping takes out
    exactly the range, and the gap search is a first fit. *)

From Stdlib Require Import ZArith Lia Sorted.
From stdpp Require Import base tactics list option numbers sorting.
From S2P Require Import Prelude FrameAlloc Regions.

Open Scope rust_scope.

Definition USER_END : Z := 2 ^ 47.

Abbreviation r_end r := (start_virt r + size_bytes r).

Record good (r : MappedMemoryRegion) : Prop := {
  good_start : 0 <= start_virt r;
  good_size : 0 < size_bytes r;
  good_end : r_end r < USER_END;
  good_aligned : (PAGE_SIZE | start_virt r);
  good_pages : (PAGE_SIZE | size_bytes r);
}.

Definition before (r s : MappedMemoryRegion) : Prop := start_virt r <= start_virt s.

Definition tidy (l : list MappedMemoryRegion) : Prop := Forall good l /\ StronglySorted before l.

Definition in_region (r : MappedMemoryRegion) (a : Z) : Prop := start_virt r <= a < r_end r.

Definition covers (l : list MappedMemoryRegion) (a f : Z) (o : FrameOwnership) : Prop :=
  exists r, r ∈ l /\ in_region r a /\ page_flags r = f /\ frame_ownership r = o.

(** Two neighbours that ought to be one region. *)
Definition touching (r s : MappedMemoryRegion) : Prop :=
  can_merge r s = true /\ start_virt s <= r_end r.

Definition merged (l : list MappedMemoryRegion) : Prop :=
  forall i r s, l !! i = Some r -> l !! S i = Some s -> ~ touching r s.

(** Every region ends before the next one starts: no address lies in two of them. *)
Definition apart (l : list MappedMemoryRegion) : Prop :=
  StronglySorted (fun r s => r_end r <= start_virt s) l.

(** ** Arithmetic of pages *)

Lemma align_down_page x : 0 <= x -> align_down_to_page_size x = x / PAGE_SIZE * PAGE_SIZE.
Proof.
  intros. unfold align_down_to_page_size, PAGE_SIZE. change (4096 - 1) with (Z.ones 12).
  rewrite <- Z.ldiff_land, Z.ldiff_ones_r, Z.shiftr_div_pow2, Z.shiftl_mul_pow2 by lia. done.
Qed.

Lemma align_page {E} x : 0 <= x -> x + PAGE_SIZE < 2 ^ 64 -> align_to_page_size (E:=E) x = Ok (page_up x).
Proof.
  intros. unfold align_to_page_size, uadd, page_up. rewrite (proj2 (Z.ltb_lt _ _)) by lia. done.
Qed.

Lemma page_up_aligned x : (PAGE_SIZE | x) -> page_up x = x.
Proof.
  intros [k ->]. unfold page_up, PAGE_SIZE.
  replace (k * 4096 + 4096 - 1) with (4095 + k * 4096) by lia.
  rewrite Z.div_add by lia. change (4095 / 4096) with 0. lia.
Qed.

Lemma page_up_divide x : (PAGE_SIZE | page_up x).
Proof. unfold page_up. apply Z.divide_factor_r. Qed.

Lemma page_down_bounds x : x / PAGE_SIZE * PAGE_SIZE <= x < x / PAGE_SIZE * PAGE_SIZE + PAGE_SIZE.
Proof. unfold PAGE_SIZE. pose proof (Z.div_mod x 4096). pose proof (Z.mod_pos_bound x 4096). lia. Qed.

Lemma divide_sub a b : (PAGE_SIZE | a) -> (PAGE_SIZE | b) -> (PAGE_SIZE | a - b).
Proof. intros. by apply Z.divide_sub_r. Qed.

Lemma divide_max a b : (PAGE_SIZE | a) -> (PAGE_SIZE | b) -> (PAGE_SIZE | Z.max a b).
Proof. intros. destruct (Z.max_spec a b) as [[_ ->]|[_ ->]]; done. Qed.

Lemma good_end_aligned r : good r -> (PAGE_SIZE | r_end r).
Proof. intros []. by apply Z.divide_add_r. Qed.

#[export] Hint Resolve page_up_divide divide_sub divide_max good_end_aligned Z.divide_factor_r : pages.

Lemma user_u64 x : x < USER_END -> x < 2 ^ 64.
Proof. unfold USER_END. lia. Qed.

Lemma end_ok {E} r : good r -> end_virt (E:=E) r = Ok (r_end r).
Proof.
  intros []. unfold end_virt, uadd. rewrite (proj2 (Z.ltb_lt _ _)); [done|]. by apply user_u64.
Qed.

Lemma usub_ok {E} a b : b <= a -> usub (E:=E) a b = Ok (a - b).
Proof. intros. unfold usub. by rewrite (proj2 (Z.leb_le _ _)). Qed.

Lemma can_merge_spec r s :
  can_merge r s = true <-> page_flags r = page_flags s /\ frame_ownership r = frame_ownership s.
Proof. unfold can_merge. by rewrite andb_true_iff, Z.eqb_eq, bool_decide_eq_true. Qed.

(** ** Coverage of lists *)

Lemma covers_nil a f o : ~ covers [] a f o.
Proof. intros (r & Hr & _). by apply elem_of_nil in Hr. Qed.

Lemma covers_cons r l a f o :
  covers (r :: l) a f o <->
  (in_region r a /\ page_flags r = f /\ frame_ownership r = o) \/ covers l a f o.
Proof.
  split.
  - intros (x & [->|Hx]%elem_of_cons & H); [by left|right; by exists x].
  - intros [H|(x & Hx & H)]; [exists r|exists x]; (split; [|done]); apply elem_of_cons; auto.
Qed.

Lemma covers_app l1 l2 a f o : covers (l1 ++ l2) a f o <-> covers l1 a f o \/ covers l2 a f o.
Proof.
  split.
  - intros (x & [Hx|Hx]%elem_of_app & H); [left|right]; by exists x.
  - intros [(x & Hx & H)|(x & Hx & H)]; exists x; (split; [|done]); apply elem_of_app; auto.
Qed.

(** A union of two touching ranges with the same attributes. *)
Lemma covers_join r s t l a f o :
  touching r s -> start_virt r <= start_virt s -> start_virt t = start_virt r ->
  r_end t = Z.max (r_end r) (r_end s) ->
  page_flags t = page_flags r -> frame_ownership t = frame_ownership r ->
  covers (t :: l) a f o <-> covers (r :: s :: l) a f o.
Proof.
  intros [Hm Ht] Hle Hs He Hf Ho. apply can_merge_spec in Hm as [Hmf Hmo].
  rewrite !covers_cons. unfold in_region. rewrite He, Hs, Hf, Ho, <- Hmf, <- Hmo.
  split; [|intuition lia]. intros [(Ha & Hb)|H]; [|auto].
  destruct (decide (a < r_end r)); [left|right; left]; (split; [lia|done]).
Qed.

(** ** Merged lists *)

Lemma merged_cons r l :
  merged (r :: l) <-> (forall s, head l = Some s -> ~ touching r s) /\ merged l.
Proof.
  split.
  - intros Hm. split; [|intros i; apply (Hm (S i))].
    intros s Hs. apply (Hm 0%nat); [done|]. by destruct l.
  - intros [Hh Hm] [|i] x y Hx Hy; simpl in Hx, Hy; [|by apply (Hm i)].
    injection Hx as <-. apply Hh. by destruct l.
Qed.

Lemma merged_app l1 l2 :
  merged (l1 ++ l2) <-> merged l1 /\ merged l2 /\
    (forall r s, list.last l1 = Some r -> head l2 = Some s -> ~ touching r s).
Proof.
  induction l1 as [|x l1 IH]; [split; [intros; split; [by intros i|done]|by intros (_ & ? & _)]|].
  change ((x :: l1) ++ l2) with (x :: (l1 ++ l2)). rewrite !merged_cons, IH.
  destruct l1 as [|y l1]; cbn [app head list.last].
  - split; [intros (H & _ & ? & _)|intros ((_ & _) & ? & H)]; split_and!; try done.
    + intros r s [= <-]. auto.
    + intros s Hs. by apply (H x s).
  - clear IH. intuition.
Qed.

Lemma merged_drop k l : merged l -> merged (drop k l).
Proof.
  intros Hm. rewrite <- (take_drop k l) in Hm. by apply merged_app in Hm as (_ & ? & _).
Qed.

Lemma touching_start r m m' :
  start_virt m' = start_virt m -> page_flags m' = page_flags m ->
  frame_ownership m' = frame_ownership m -> touching r m -> touching r m'.
Proof.
  intros E1 E2 E3 [H1 H2]. apply can_merge_spec in H1. split; [|lia]. apply can_merge_spec. intuition congruence.
Qed.

Section spec.
Context `{VA : VirtAddrApi, VL : !VirtAddrLaws} {E : Type}.

(** ** Tracking *)

Lemma reaches_ok x y a r : good r ->
  reaches (E:=E) x y a r = Ok (can_merge x y && (a <=? r_end r)).
Proof. intros Hr. unfold reaches. destruct (can_merge x y); [|done]. by rewrite end_ok. Qed.

(** The region that grew over [s]. *)
Definition grown (m s : MappedMemoryRegion) : MappedMemoryRegion :=
  mkRegion (start_virt m) (Z.max (r_end m) (r_end s) - start_virt m) (page_flags m) (frame_ownership m).

Lemma grown_good m s : good m -> good s -> good (grown m s).
Proof.
  intros Hm Hs. pose proof (good_end_aligned m Hm). pose proof (good_end_aligned s Hs).
  destruct Hm, Hs. unfold grown. split; cbn; auto with pages; lia.
Qed.

Lemma delete_at {A} (l1 : list A) x l2 : base.delete (length l1) (l1 ++ x :: l2) = l1 ++ l2.
Proof. by rewrite delete_middle. Qed.

Lemma merge_following_ok l2 : forall fuel l1 m,
  (length l2 < fuel)%nat -> good m -> Forall good l2 -> StronglySorted before (m :: l2) ->
  exists m' k, merge_following (E:=E) fuel (length l1) m (l1 ++ l2) = Ok (m', l1 ++ drop k l2) /\
    good m' /\ start_virt m' = start_virt m /\ page_flags m' = page_flags m /\
    frame_ownership m' = frame_ownership m /\
    (forall a f o, covers (m' :: drop k l2) a f o <-> covers (m :: l2) a f o) /\
    (forall s, drop k l2 !! 0%nat = Some s -> ~ touching m' s) /\
    (apart (m :: l2) -> apart (m' :: drop k l2)) /\ r_end m <= r_end m'.
Proof.
  induction l2 as [|s l2 IH]; intros [|fuel] l1 m Hf Hm Hg Hs; cbn [length] in Hf; try lia.
  - exists m, 0%nat. cbn [merge_following drop].
    rewrite lookup_app_r, Nat.sub_diag by lia. cbn. done.
  - apply Forall_cons in Hg as [Hgs Hg]. cbn [merge_following].
    rewrite list_lookup_middle by done. rewrite reaches_ok by done. cbn [rbind].
    apply StronglySorted_inv in Hs as [Hs Hms]. apply Forall_cons in Hms as [Hms Hml].
    destruct (can_merge s m && (start_virt s <=? r_end m)) eqn:Et; cbn [negb].
    + apply andb_true_iff in Et as [Hc Ht%Z.leb_le].
      assert (Htm : touching m s) by (split; [|done]; rewrite can_merge_spec in *; intuition congruence).
      rewrite !end_ok by done. cbn [rbind]. rewrite usub_ok by (destruct Hm; lia). cbn [rbind].
      change (mkRegion _ _ _ _) with (grown m s). rewrite delete_at.
      destruct (IH fuel l1 (grown m s)) as (m' & k & Em & Hg' & E1 & E2 & E3 & Hcov & Hn & Hap & Hre);
        [lia|by apply grown_good|done| |].
      { constructor; [by apply StronglySorted_inv in Hs as [? _]|done]. }
      exists m', (S k). cbn [drop]. split; [exact Em|]. split; [done|].
      rewrite E1, E2, E3. split_and!; try done.
      * intros a f o. rewrite Hcov. apply (covers_join m s (grown m s)); auto. cbn. lia.
      * intros Hap2. apply Hap. apply StronglySorted_inv in Hap2 as [Hap2 Hm2].
        apply StronglySorted_inv in Hap2 as [Hap2 Hs2]. constructor; [done|].
        apply Forall_cons in Hm2 as [Hm2 _]. revert Hs2. apply List.Forall_impl. cbn.
        destruct Hgs. intros. lia.
      * cbn in Hre. lia.
    + exists m, 0%nat. cbn [drop]. split_and!; try done. intros x [= <-] [Hc Ht].
      rewrite can_merge_spec in Hc. assert (Hc' : can_merge s m = true) by (rewrite can_merge_spec; intuition).
      rewrite Hc', (proj2 (Z.leb_le _ _)) in Et by done. done.
Qed.

Lemma partition_ok x l :
  StronglySorted before l ->
  exists l1 l2, l = l1 ++ l2 /\ partition_point (fun r => start_virt r <? x) l = length l1 /\
    Forall (fun r => start_virt r < x) l1 /\ Forall (fun r => x <= start_virt r) l2.
Proof.
  induction 1 as [|r l Hs IH Hr]; [by exists [], []|]. cbn [partition_point].
  destruct (Z.ltb_spec (start_virt r) x).
  - destruct IH as (l1 & l2 & -> & -> & G1 & G2). exists (r :: l1), l2.
    split_and!; try done. by constructor.
  - exists [], (r :: l). split_and!; try done. constructor; [done|].
    revert Hr. apply List.Forall_impl. unfold before. intros. lia.
Qed.

Lemma sorted_around l1 m l2 :
  StronglySorted before (l1 ++ l2) -> Forall (fun r => start_virt r <= start_virt m) l1 ->
  Forall (fun r => start_virt m <= start_virt r) l2 -> StronglySorted before (l1 ++ m :: l2).
Proof.
  intros (H12 & H1 & H2)%StronglySorted_app F1 F2. apply StronglySorted_app. split_and!.
  - intros x y Hx [->|Hy]%elem_of_cons; [|auto]. rewrite list.Forall_forall in F1. by apply F1.
  - done.
  - by constructor.
Qed.

(** Merging with the predecessor: the list splits around the region to insert. *)
Lemma merge_previous_ok l1 l2 m :
  tidy (l1 ++ l2) -> good m -> Forall (fun r => start_virt r < start_virt m) l1 ->
  Forall (fun r => start_virt m <= start_virt r) l2 ->
  exists l1' m', merge_previous (E:=E) (length l1) m (l1 ++ l2) = Ok (length l1', m', l1' ++ l2) /\
    (exists k, l1' = take k l1) /\ good m' /\ start_virt m' <= start_virt m /\
    Forall (fun r => start_virt r <= start_virt m') l1' /\
    page_flags m' = page_flags m /\ frame_ownership m' = frame_ownership m /\
    (forall a f o, covers (l1' ++ m' :: l2) a f o <-> covers (m :: l1 ++ l2) a f o) /\
    (merged l1 -> forall r, list.last l1' = Some r -> ~ touching r m') /\
    (apart (l1 ++ m :: l2) -> apart (l1' ++ m' :: l2)) /\ r_end m <= r_end m'.
Proof.
  intros [Hg Hs] Hm F1 F2. destruct l1 as [|p l1 _] using rev_ind.
  { exists [], m. cbn. split_and!; try done; by exists 0%nat. }
  rewrite length_app. cbn [length]. rewrite Nat.add_1_r. cbn [merge_previous].
  rewrite <- app_assoc in *. cbn [app] in *. rewrite list_lookup_middle by done.
  apply Forall_app in Hg as [Hg1 [Hgp Hg2]%Forall_cons].
  apply Forall_app in F1 as [F1 [Fp _]%Forall_cons].
  rewrite reaches_ok by done. cbn [rbind].
  destruct (can_merge p m && (start_virt m <=? r_end p)) eqn:Et.
  - apply andb_true_iff in Et as [Hc Ht%Z.leb_le]. rewrite !end_ok by done. cbn [rbind].
    rewrite usub_ok by (destruct Hm; lia). cbn [rbind]. rewrite delete_at.
    rewrite Z.max_comm. pose proof Hc as [Ef Eo]%can_merge_spec. rewrite <- Ef, <- Eo.
    change (mkRegion _ _ _ _) with (grown p m). exists l1, (grown p m). split; [done|].
    split; [exists (length l1); by rewrite take_app_length|]. split; [by apply grown_good|].
    split; [cbn; lia|]. apply StronglySorted_app in Hs as (Hs & _ & _). split; [|split_and!; try done].
    + apply list.Forall_forall. intros x Hx. apply (Hs x p Hx), list_elem_of_here.
    + intros a f o. rewrite covers_cons, covers_app, (covers_join p m (grown p m)); try done; try (cbn; lia).
      rewrite !covers_cons, !covers_app, !covers_cons. tauto.
    + intros Hmg r Hr Hto. apply merged_app in Hmg as (_ & _ & Hn). apply (Hn r p Hr); [done|].
      by apply (touching_start r (grown p m)).
    + rewrite <- app_assoc. cbn [app]. intros (H12 & Ha1 & [Hap Hp]%StronglySorted_inv)%StronglySorted_app.
      apply StronglySorted_inv in Hap as [Hap Hm2]. apply Forall_cons in Hp as [Hpm _].
      apply StronglySorted_app. split_and!; [|done|].
      * intros x y Hx [->|Hy]%elem_of_cons; [apply (H12 x p Hx), list_elem_of_here|].
        apply (H12 x y Hx). rewrite !elem_of_cons. auto.
      * constructor; [done|]. revert Hm2. apply List.Forall_impl. cbn. destruct Hm. intros. lia.
    + cbn. lia.
  - exists (l1 ++ [p]), m. split; [by rewrite length_app, Nat.add_1_r, <- app_assoc|].
    split; [exists (S (length l1)); by rewrite take_ge by (rewrite length_app; simpl; lia)|].
    split_and!; try done; try lia.
    + rewrite Forall_app. split; [|by constructor; [lia|]]. revert F1. apply List.Forall_impl. intros. lia.
    + intros a f o. rewrite !covers_cons, !covers_app, !covers_cons. pose proof (covers_nil a f o). tauto.
    + intros _ r. rewrite list.last_snoc. intros [= <-] [Hc Ht].
      rewrite Hc, (proj2 (Z.leb_le _ _)) in Et by done. done.
Qed.

(** A region between the ones that start before and after it, disjoint from both. *)
Lemma apart_around l1 m l2 : apart (l1 ++ l2) -> Forall good (l1 ++ l2) -> good m ->
  Forall (fun r => start_virt r < start_virt m) l1 -> Forall (fun r => start_virt m <= start_virt r) l2 ->
  (forall x a, x ∈ l1 ++ l2 -> in_region x a -> ~ in_region m a) -> apart (l1 ++ m :: l2).
Proof.
  intros (H12 & H1 & H2)%StronglySorted_app Hg Hm F1 F2 Hd.
  rewrite list.Forall_forall in Hg, F1, F2. apply StronglySorted_app. split_and!; [|done|].
  - intros x y Hx [->|Hy]%elem_of_cons; [|by apply H12].
    specialize (F1 x Hx). assert (Hin : x ∈ l1 ++ l2) by (apply elem_of_app; by left).
    pose proof (Hg x Hin) as []. pose proof (Hd x (start_virt m) Hin). destruct Hm. unfold in_region in *. lia.
  - constructor; [done|]. apply list.Forall_forall. intros y Hy. specialize (F2 y Hy).
    assert (Hin : y ∈ l1 ++ l2) by (apply elem_of_app; by right).
    pose proof (Hg y Hin) as []. pose proof (Hd y (start_virt y) Hin). unfold in_region in *. lia.
Qed.

Lemma apart_tail l1 m m' l2 l2' : apart (l1 ++ m :: l2) -> start_virt m' = start_virt m ->
  (exists k, l2' = drop k l2) -> (apart (m :: l2) -> apart (m' :: l2')) -> apart (l1 ++ m' :: l2').
Proof.
  intros (H12 & H1 & H2)%StronglySorted_app Es [k ->] Hap. apply StronglySorted_app.
  split_and!; [|done|by apply Hap]. intros x y Hx [->|Hy]%elem_of_cons.
  - rewrite Es. apply (H12 x m Hx), list_elem_of_here.
  - apply (H12 x y Hx), elem_of_cons. right. rewrite <- (take_drop k l2). apply elem_of_app. by right.
Qed.

(** The pages that cover a range. *)
Definition page_range (start size a : Z) : Prop :=
  start / PAGE_SIZE * PAGE_SIZE <= a < page_up (start + size).

Lemma track_ok r l :
  tidy l -> 0 <= start_virt r -> 0 < size_bytes r -> r_end r + PAGE_SIZE <= USER_END ->
  exists l', track_region (E:=E) r l = Ok l' /\ tidy l' /\
    (forall a f o, covers l' a f o <->
      covers l a f o \/
      (page_range (start_virt r) (size_bytes r) a /\ page_flags r = f /\ frame_ownership r = o)) /\
    (merged l -> merged l') /\
    (apart l -> (forall a f o, page_range (start_virt r) (size_bytes r) a -> ~ covers l a f o) -> apart l') /\
    exists x, x ∈ l' /\ start_virt x <= start_virt r / PAGE_SIZE * PAGE_SIZE /\ page_up (r_end r) <= r_end x.
Proof.
  intros [Hg Hs] H0 Hsz He. unfold track_region. rewrite (proj2 (Z.ltb_lt _ _)) by done. cbn [negb].
  unfold end_virt, uadd. rewrite (proj2 (Z.ltb_lt _ _)) by (unfold USER_END, PAGE_SIZE in *; lia). cbn [rbind].
  rewrite align_page, align_down_page by (unfold USER_END, PAGE_SIZE in *; lia). cbn [rbind].
  pose proof (page_down_bounds (start_virt r)) as Hd. pose proof (page_up_bounds (r_end r)) as [Hu _].
  assert (Hlow : 0 <= start_virt r / PAGE_SIZE) by (apply Z.div_pos; [done|unfold PAGE_SIZE; lia]).
  rewrite va_new_user by (unfold USER_END, PAGE_SIZE in *; lia). cbn [rbind].
  rewrite usub_ok by lia. cbn [rbind]. set (m := mkRegion _ _ _ _).
  assert (Hm : good m).
  { split; cbn; unfold USER_END, PAGE_SIZE in *; try lia; auto with pages. }
  destruct (partition_ok (start_virt m) l Hs) as (l1 & l2 & -> & -> & F1 & F2).
  destruct (merge_previous_ok l1 l2 m (conj Hg Hs) Hm F1 F2)
    as (l1' & m1 & -> & (k1 & El1) & Hm1 & Hle & F1' & Ef & Eo & Hcov & Hn1 & Hap1 & Hre1). cbn [rbind].
  assert (F2' : Forall (fun r => start_virt m1 <= start_virt r) l2)
    by (revert F2; apply List.Forall_impl; intros; lia).
  apply Forall_app in Hg as [Hg1 Hg2]. pose proof Hs as (_ & Hs1 & Hs2)%StronglySorted_app.
  destruct (merge_following_ok l2 (S (length (l1' ++ l2))) l1' m1) as
    (m2 & k2 & -> & Hm2 & Es2 & Ef2 & Eo2 & Hcov2 & Hn2 & Hap2 & Hre2);
    [rewrite length_app; lia|done|done|by constructor|]. cbn [rbind].
  exists (l1' ++ m2 :: drop k2 l2). split.
  { unfold vec_insert. by rewrite take_app_length, drop_app_length. }
  split; [|split; [|split; [|split]]].
  - split.
    + rewrite Forall_app, Forall_cons, El1. split_and!; [by apply Forall_take|done|by apply Forall_drop].
    + apply sorted_around.
      * apply StronglySorted_app in Hs as (H12 & _). apply StronglySorted_app. subst l1'. split_and!.
        -- intros x y Hx Hy. apply H12.
           ++ rewrite <- (take_drop k1 l1). apply elem_of_app. by left.
           ++ rewrite <- (take_drop k2 l2). apply elem_of_app. by right.
        -- rewrite <- (take_drop k1 l1) in Hs1. by apply StronglySorted_app in Hs1 as (_ & ? & _).
        -- rewrite <- (take_drop k2 l2) in Hs2. by apply StronglySorted_app in Hs2 as (_ & _ & ?).
      * by rewrite Es2.
      * rewrite Es2. by apply Forall_drop.
  - intros a f o. rewrite covers_app, Hcov2, <- covers_app, Hcov, covers_cons.
    unfold in_region, page_range. cbn. rewrite Z.add_comm, Z.sub_add. tauto.
  - intros Hmg. apply merged_app in Hmg as (Hg1' & Hg2' & _). apply merged_app. split_and!.
    + subst l1'. rewrite <- (take_drop k1 l1) in Hg1'. by apply merged_app in Hg1' as (? & _).
    + apply merged_cons. split; [|by apply merged_drop].
      intros s Hh. apply Hn2. by destruct (drop k2 l2).
    + intros x s Hx [= <-] Ht. apply (Hn1 Hg1' x Hx). by apply (touching_start x m2).
  - intros Hap Hnew. apply (apart_tail l1' m1 m2 l2); [|done|by exists k2|done]. apply Hap1. apply apart_around; try done; [by apply Forall_app|].
    intros x a Hx Ha Hma. apply (Hnew a (page_flags x) (frame_ownership x)); [|by exists x].
    unfold in_region in Hma. unfold page_range. cbn in Hma. lia.
  - exists m2. split; [apply elem_of_app; right; apply list_elem_of_here|]. cbn in *. lia.
Qed.

(** ** Looking a range up *)

Definition contains (s e : Z) (r : MappedMemoryRegion) : Prop := start_virt r <= s /\ e <= r_end r.

#[local] Instance contains_dec s e r : Decision (contains s e r).
Proof. unfold contains. apply _. Defined.

Lemma contains_ok s e r : good r ->
  region_contains (E:=E) s e r = Ok (bool_decide (contains s e r)).
Proof.
  intros Hr. unfold region_contains. destruct (Z.leb_spec (start_virt r) s).
  - rewrite end_ok by done. cbn [rbind]. f_equal. unfold contains.
    destruct (Z.leb_spec e (r_end r)); symmetry; [apply bool_decide_eq_true|apply bool_decide_eq_false]; lia.
  - symmetry. f_equal. apply bool_decide_eq_false. unfold contains. lia.
Qed.

Lemma position_ok s e l : Forall good l ->
  position (E:=E) (region_contains s e) l = Ok (fst <$> list_find (contains s e) l).
Proof.
  induction 1 as [|r l Hr Hl IH]; [done|]. cbn [position list_find].
  rewrite contains_ok by done. cbn [rbind]. destruct (decide (contains s e r)) as [Hc|Hc].
  - by rewrite bool_decide_eq_true_2.
  - rewrite bool_decide_eq_false_2, IH by done. cbn [rbind].
    by destruct (list_find (contains s e) l) as [[]|].
Qed.

Lemma tracked_ok s n l : Forall good l -> 0 <= s -> s + n < 2 ^ 64 -> 0 <= n ->
  exists b, is_range_tracked (E:=E) s n l = Ok b /\
    (b = true <-> exists r, r ∈ l /\ contains s (s + n) r).
Proof.
  intros Hg Hs Hn Hn0. unfold is_range_tracked, uadd. rewrite (proj2 (Z.ltb_lt _ _)) by done.
  cbn [rbind]. rewrite position_ok by done. cbn [rbind].
  destruct (list_find (contains s (s + n)) l) as [[i r]|] eqn:Ef; cbn; eexists; (split; [done|]).
  - apply list_find_Some in Ef as (Hl & Hc & _). split; [|done]. intros _. exists r.
    split; [by eapply list_elem_of_lookup_2|done].
  - apply list_find_None in Ef. split; [done|]. intros (r & Hr & Hc).
    rewrite list.Forall_forall in Ef. by destruct (Ef r Hr).
Qed.

(** ** Taking a range out of a region *)

Definition pieces (r : MappedMemoryRegion) (s e : Z) : list MappedMemoryRegion :=
  (if start_virt r <? s then [mkRegion (start_virt r) (s - start_virt r) (page_flags r) (frame_ownership r)]
   else []) ++
  (if e <? r_end r then [mkRegion e (r_end r - e) (page_flags r) (frame_ownership r)] else []).

Lemma split_pieces l1 r l2 s e :
  good r -> contains s e r -> 0 <= s < e ->
  split_region (E:=E) (length l1) s e (l1 ++ r :: l2) = Ok (l1 ++ pieces r s e ++ l2).
Proof.
  intros Hr [Hs He] Hse. unfold split_region, pieces. rewrite list_lookup_middle by done.
  rewrite delete_at. assert (Hu : r_end r < USER_END) by (by destruct Hr). unfold USER_END in Hu.
  destruct (Z.ltb_spec (start_virt r) s) as [Hl|Hl]; cbn [rbind].
  - rewrite usub_ok by lia. cbn [rbind]. rewrite end_ok by done. cbn [rbind].
    unfold vec_insert. rewrite take_app_length, drop_app_length.
    destruct (Z.ltb_spec e (r_end r)) as [He'|He']; [|done].
    rewrite va_new_user by lia. cbn [rbind]. rewrite usub_ok by lia. cbn [rbind app].
    set (p := mkRegion _ _ _ _). change (p :: l2) with ([p] ++ l2).
    rewrite app_assoc. replace (S (length l1)) with (length (l1 ++ [p])) by (rewrite length_app; simpl; lia).
    rewrite take_app_length, drop_app_length, <- app_assoc. done.
  - rewrite end_ok by done. cbn [rbind app]. destruct (Z.ltb_spec e (r_end r)) as [He'|He']; [|done].
    rewrite va_new_user by lia. cbn [rbind]. rewrite usub_ok by lia. cbn [rbind].
    unfold vec_insert. by rewrite take_app_length, drop_app_length.
Qed.

Lemma pieces_good r s e x : good r -> contains s e r -> s < e ->
  (PAGE_SIZE | s) -> (PAGE_SIZE | e) -> x ∈ pieces r s e ->
  good x /\ start_virt r <= start_virt x /\ r_end x <= r_end r.
Proof.
  intros Hr [Hs He] Hse Ds De Hx. pose proof (good_end_aligned r Hr) as Da. destruct Hr.
  unfold pieces in Hx. apply elem_of_app in Hx as [Hx|Hx].
  - destruct (Z.ltb_spec (start_virt r) s); [|by apply elem_of_nil in Hx].
    apply list_elem_of_singleton in Hx as ->. split; [split|]; cbn; auto with pages; lia.
  - destruct (Z.ltb_spec e (r_end r)); [|by apply elem_of_nil in Hx].
    apply list_elem_of_singleton in Hx as ->. split; [split|]; cbn; auto with pages; lia.
Qed.

Lemma pieces_cover r s e a f o : contains s e r -> s < e ->
  covers (pieces r s e) a f o <->
  in_region r a /\ ~ (s <= a < e) /\ page_flags r = f /\ frame_ownership r = o.
Proof.
  intros [Hs He] Hse. unfold pieces. rewrite covers_app. pose proof (covers_nil a f o) as Hn.
  destruct (Z.ltb_spec (start_virt r) s), (Z.ltb_spec e (r_end r));
    rewrite ?covers_cons; unfold in_region; cbn; (split; [intuition lia|]);
    intros (Ha & Hout & Hf & Ho); destruct (Z.lt_ge_cases a s);
    first [lia | left; left; split_and!; (lia || done) | right; left; split_and!; (lia || done)].
Qed.

Lemma pieces_apart r s e : contains s e r -> s < e -> apart (pieces r s e).
Proof.
  intros [Hs He] Hse. unfold pieces, apart.
  destruct (Z.ltb_spec (start_virt r) s), (Z.ltb_spec e (r_end r)); cbn; repeat constructor.
  cbn. lia.
Qed.

Lemma apart_tidy l : Forall good l -> apart l -> tidy l.
Proof.
  intros Hg Hs. split; [done|]. induction Hs as [|r l Hs IH Hr]; [constructor|].
  apply Forall_cons in Hg as [Hgr Hg]. constructor; [by apply IH|].
  revert Hr. apply List.Forall_impl. intros x Hx. destruct Hgr. unfold before. lia.
Qed.

(** The list after a range went out of one region. *)
Lemma split_ok l1 r l2 s e :
  tidy (l1 ++ r :: l2) -> apart (l1 ++ r :: l2) -> contains s e r -> s < e ->
  (PAGE_SIZE | s) -> (PAGE_SIZE | e) ->
  let l := l1 ++ pieces r s e ++ l2 in
  tidy l /\ apart l /\
  (forall a f o, covers l a f o <-> covers (l1 ++ r :: l2) a f o /\ ~ (s <= a < e)).
Proof.
  intros [Hg _] Hap Hc Hse Ds De l. apply Forall_app in Hg as [Hg1 [Hr Hg2]%Forall_cons].
  assert (Hp : forall x, x ∈ pieces r s e -> good x /\ start_virt r <= start_virt x /\ r_end x <= r_end r)
    by (intros; by apply (pieces_good r s e)).
  pose proof Hap as (H12 & Hs1 & [Hs2 Hr2]%StronglySorted_inv)%StronglySorted_app.
  rewrite list.Forall_forall in Hr2.
  assert (Hgl : Forall good l).
  { unfold l. rewrite !Forall_app. split_and!; try done. apply list.Forall_forall. intros x Hx. by apply Hp. }
  assert (Hal : apart l).
  { apply StronglySorted_app. split_and!; [|done|].
    - intros x y Hx [Hy|Hy]%elem_of_app; [|apply (H12 x y Hx), elem_of_cons; by right].
      apply Z.le_trans with (start_virt r); [|by apply Hp]. apply (H12 x r Hx), list_elem_of_here.
    - apply StronglySorted_app. split_and!; [|by apply pieces_apart|done].
      intros x y Hx Hy. destruct (Hp x Hx) as (_ & _ & He). specialize (Hr2 y Hy). lia. }
  split; [by apply apart_tidy|]. split; [done|]. intros a f o. unfold l.
  rewrite !covers_app, covers_cons, pieces_cover by done.
  assert (Ho1 : covers l1 a f o -> ~ (s <= a < e)).
  { intros (y & Hy & Hya & _) Ha. specialize (H12 y r Hy (list_elem_of_here _ _)).
    destruct Hc. unfold in_region in Hya. lia. }
  assert (Ho2 : covers l2 a f o -> ~ (s <= a < e)).
  { intros (y & Hy & Hya & _) Ha. specialize (Hr2 y Hy). destruct Hc. unfold in_region in Hya. lia. }
  tauto.
Qed.

(** ** The gap search *)

(** No region of [l] meets [v, v + n). *)
Definition free (v n : Z) (l : list MappedMemoryRegion) : Prop :=
  forall r a, r ∈ l -> in_region r a -> ~ (v <= a < v + n).

Lemma free_one v n r l : free v n (r :: l) -> good r -> 0 < n ->
  v + n <= start_virt r \/ r_end r <= v.
Proof.
  intros Hf Hr Hn. destruct Hr.
  destruct (Z.le_gt_cases (v + n) (start_virt r)); [by left|].
  destruct (Z.le_gt_cases (r_end r) v); [by right|]. exfalso.
  apply (Hf r (Z.max v (start_virt r))); [apply list_elem_of_here| |]; unfold in_region; lia.
Qed.

Lemma gap_loop_ok n l : 0 < n <= USER_END -> forall c,
  Forall good l -> StronglySorted before l ->
  PROCESS_USER_VADDR_ALLOC_START <= c < USER_END -> (PAGE_SIZE | c) ->
  exists g, gap_loop (E:=E) n c l = Ok g /\ (PAGE_SIZE | match g with inl v | inr v => v end) /\
    match g with
    | inl v => c <= v < USER_END /\ v + n <= PROCESS_USER_VADDR_ALLOC_END /\ free v n l /\
        (forall w, c <= w -> free w n l -> v <= w)
    | inr v => c <= v < USER_END /\
        (v + n <= PROCESS_USER_VADDR_ALLOC_END -> free v n l) /\
        (forall w, c <= w -> w + n <= PROCESS_USER_VADDR_ALLOC_END -> free w n l -> v <= w)
    end.
Proof.
  intros Hn. induction l as [|r l IH]; intros c Hg Hs Hc Hd.
  { exists (inr c). split; [done|]. split; [done|]. split; [lia|]. split; [|done]. intros _ r a Hr. by apply elem_of_nil in Hr. }
  apply Forall_cons in Hg as [Hr Hg]. apply StronglySorted_inv in Hs as [Hs Hrl].
  cbn [gap_loop]. rewrite end_ok by done. cbn [rbind].
  assert (Hsub : forall w, free w n (r :: l) -> free w n l)
    by (intros w Hf x a Hx; apply Hf, elem_of_cons; by right).
  assert (Hskip : forall v, r_end r <= v -> free v n l -> free v n (r :: l)).
  { intros v Hv Hf x a [->|Hx]%elem_of_cons Ha; [unfold in_region in Ha; lia|by apply (Hf x)]. }
  assert (Habove : forall v, v + n <= start_virt r -> free v n (r :: l)).
  { intros v Hv x a Hx Ha. assert (start_virt r <= start_virt x).
    { apply elem_of_cons in Hx as [->|Hx]; [done|]. rewrite list.Forall_forall in Hrl. by apply Hrl. }
    unfold in_region in Ha. lia. }
  assert (Hsat : saturating_add 64 c n = c + n)
    by (unfold saturating_add, USER_END in *; lia).
  destruct (Z.leb_spec (r_end r) PROCESS_USER_VADDR_ALLOC_START) as [Hlow|Hlow].
  { destruct (IH c Hg Hs Hc Hd) as ([v|v] & E1 & Hdv & Hv); eexists; (split; [exact E1|]); (split; [exact Hdv|]).
    - destruct Hv as (? & ? & ? & Hmin). split_and!; try lia; [apply Hskip; [lia|done]|auto].
    - destruct Hv as (? & Hf & Hmin). split_and!; try lia; [|auto].
      intros. apply Hskip; [lia|auto]. }
  destruct (Z.leb_spec PROCESS_USER_VADDR_ALLOC_END (start_virt r)) as [Hhigh|Hhigh].
  { exists (inr c). split; [done|]. split; [done|]. split_and!; try lia. intros. apply Habove. lia. }
  rewrite Hsat. destruct (Z.leb_spec (c + n) (start_virt r)) as [Hfit|Hfit].
  { exists (inl c). split; [done|]. split; [done|]. split_and!; try lia. by apply Habove. }
  destruct (IH (Z.max c (r_end r)) Hg Hs) as ([v|v] & E1 & Hdv & Hv); [destruct Hr; lia|auto with pages| |];
    eexists; (split; [exact E1|]); (split; [exact Hdv|]).
  - destruct Hv as (? & ? & ? & Hmin). split_and!; try lia; [apply Hskip; [lia|done]|].
    intros w Hw Hf. pose proof (free_one w n r l Hf Hr). apply Hmin; [lia|auto].
  - destruct Hv as (? & Hv & Hmin). split_and!; try lia; [intros; apply Hskip; [lia|auto]|].
    intros w Hw Hwn Hf. pose proof (free_one w n r l Hf Hr). apply Hmin; [lia|done|auto].
Qed.

(** The gap search is a first fit over the reservation window. *)
Lemma gap_ok size l :
  tidy l -> 0 < size <= PROCESS_USER_VADDR_ALLOC_MAX_SIZE ->
  exists g, find_free_gap (E:=E) size l = Ok g /\
    let window v := PROCESS_USER_VADDR_ALLOC_START <= v /\
      v + page_up size <= PROCESS_USER_VADDR_ALLOC_END /\ free v (page_up size) l in
    match g with
    | Some v => (PAGE_SIZE | v) /\ window v /\ (forall w, window w -> v <= w)
    | None => forall w, ~ window w
    end.
Proof.
  intros [Hg Hs] Hsz. unfold find_free_gap.
  rewrite align_page by (unfold PROCESS_USER_VADDR_ALLOC_MAX_SIZE, PAGE_SIZE in *; lia). cbn [rbind].
  pose proof (page_up_bounds size) as [Hu _].
  rewrite (proj2 (Z.eqb_neq _ _)) by lia.
  destruct (gap_loop_ok (page_up size) l) with (c := PROCESS_USER_VADDR_ALLOC_START) as (g & -> & Hdv & Hres);
    try done; try (by exists 65536); try (unfold PROCESS_USER_VADDR_ALLOC_MAX_SIZE, PROCESS_USER_VADDR_ALLOC_START,
      PAGE_SIZE, USER_END in *; lia).
  cbn [rbind]. destruct g as [v|v].
  - destruct Hres as (Hv & He & Hf & Hmin).
    rewrite va_new_user by (unfold PROCESS_USER_VADDR_ALLOC_START, USER_END in *; lia).
    cbn [rbind]. exists (Some v). split; [done|]. cbn zeta. split; [done|]. split; [split_and!; try lia; done|].
    intros w (Hw & _ & Hwf). auto.
  - destruct Hres as (Hv & Hf & Hmin).
    replace (saturating_add 64 v (page_up size)) with (v + page_up size)
      by (unfold saturating_add, PROCESS_USER_VADDR_ALLOC_MAX_SIZE, USER_END, PAGE_SIZE in *; lia).
    destruct (Z.leb_spec (v + page_up size) PROCESS_USER_VADDR_ALLOC_END) as [Hfit|Hfit].
    + rewrite va_new_user by (unfold PROCESS_USER_VADDR_ALLOC_START, USER_END in *; lia).
      cbn [rbind]. exists (Some v). split; [done|]. cbn zeta. split; [done|]. split; [split_and!; auto; lia|].
      intros w (Hw & Hwe & Hwf). auto.
    + exists None. split; [done|]. cbn zeta. intros w (Hw & Hwe & Hwf).
      specialize (Hmin w Hw Hwe Hwf). lia.
Qed.

End spec.
