(* ===== verification/UserMem.v ===== *)
(** * UserMem: user page tables, kernel/src/memory/usermem.rs

    Mapping and unmapping pages of an address space, with the frames taken from and given
    back to the frame allocator and the rollback of a mapping that fails half way.  The
    tables are reached through the [OffsetPageTable] of the x86_64 crate: the class
    [PageMapper], whose laws are stated over [mapping], the walk through the four levels
    of tables that the source also does by hand. *)

From Stdlib Require Import ZArith Lia.
From stdpp Require Import base tactics list option numbers.
From S2P Require Import Prelude FrameAlloc Regions RegionsSpec.

Open Scope rust_scope.

(** The bits of [PageTableFlags]. *)
Class PageFlags : Type := {
  PRESENT : Z;
  WRITABLE : Z;
  USER_ACCESSIBLE : Z;
  NO_EXECUTE : Z;
  HUGE_PAGE : Z;
}.

(** [contains] and [remove] of a flag set. *)
Definition has_flags (flags f : Z) : bool := Z.land flags f =? f.
Definition remove_flags (flags f : Z) : Z := Z.land flags (Z.lnot f).

(** [x86_64::structures::paging::mapper::MapToError] *)
Inductive MapToError : Type :=
  | FrameAllocationFailed
  | ParentEntryHugePage
  | PageAlreadyMapped (frame : Z).

(** The page tables of the machine, [T], as the crate keeps them: reading an entry, its
    address and flags, and the calls of [OffsetPageTable] and of the [range_inclusive] of
    its pages. *)
Class PageMapper (USABLE : Z) (T : Type) : Type := {
  entry : T -> Z -> Z -> Z * Z;
  map_to : Z -> Z -> Z -> Z -> stM (T * MemoryMapFrameAllocator) MapToError unit;
  unmap : Z -> Z -> T -> option Z * T;
  update_flags : Z -> Z -> Z -> T -> bool * T;
  range_inclusive : Z -> Z -> list Z;
}.

Definition page_index (level : Z) (vaddr : Z) : Z := Z.land (Z.shiftr vaddr (12 + 9 * level)) 0x1FF.

Record Machine (T : Type) : Type := mkMachine {
  tables : T;
  frames : MemoryMapFrameAllocator;
  memory : Z -> Z;
}.
Arguments mkMachine {T}. Arguments tables {T}. Arguments frames {T}. Arguments memory {T}.

Section usermem.
Context (USABLE : Z) {VA : VirtAddrApi} {PF : PageFlags} {T : Type} {PM : PageMapper USABLE T}.

Abbreviation UM := (stM (Machine T) MapToError).

(** A call on the frame allocator alone. *)
Definition on_frames {A} (c : stM MemoryMapFrameAllocator Empty_set A) : UM A := fun m =>
  let '(r, a) := c (frames m) in
  (match r with
   | Ok x => Ok x
   | Err e => match (e : Empty_set) with end
   | Panic => Panic
   | OutOfFuel => OutOfFuel
   end, mkMachine (tables m) a (memory m)).

(** [write_bytes(frame + phys_offset, 0, PAGE_SIZE)] *)
Definition zero_frame (frame : Z) : UM unit := fun m =>
  (Ok tt, mkMachine (tables m) (frames m)
    (fun a => if (frame <=? a) && (a <? frame + PAGE_SIZE) then 0 else memory m a)).

(** The walk of [translate_user_virt_to_phys]; [None] where an entry is not present. *)
Definition translate_user_virt_to_phys (t : T) (user_page_table_phys user_vaddr : Z) : option Z :=
  let '(pdpt, f4) := entry t user_page_table_phys (page_index 3 user_vaddr) in
  if negb (has_flags f4 PRESENT) then None else
  let '(pd, f3) := entry t pdpt (page_index 2 user_vaddr) in
  if negb (has_flags f3 PRESENT) then None else
  let '(pt, f2) := entry t pd (page_index 1 user_vaddr) in
  if negb (has_flags f2 PRESENT) then None else
  if has_flags f2 HUGE_PAGE then Some (pt + Z.land user_vaddr 0x1FFFFF) else
  let '(frame, f1) := entry t pt (page_index 0 user_vaddr) in
  if negb (has_flags f1 PRESENT) then None else Some (frame + Z.land user_vaddr 0xFFF).

Definition get_page_flags (t : T) (pml4_table_phys page : Z) : Z :=
  let '(pdpt, f4) := entry t pml4_table_phys (page_index 3 page) in
  if negb (has_flags f4 PRESENT) then 0 else
  let '(pd, f3) := entry t pdpt (page_index 2 page) in
  if negb (has_flags f3 PRESENT) then 0 else
  let '(pt, f2) := entry t pd (page_index 1 page) in
  if negb (has_flags f2 PRESENT) then 0 else
  (entry t pt (page_index 0 page)).2.

Fixpoint unmap_pages (pml4 : Z) (ownership : FrameOwnership) (pages : list Z) : UM unit :=
  match pages with
  | [] => sret tt
  | page :: pages =>
      let! unmapped := (fun m => let '(r, t) := unmap pml4 page (tables m) in
        (Ok r, mkMachine t (frames m) (memory m))) in
      (match unmapped with
       | Some frame => if bool_decide (ownership = Owned) then on_frames (deallocate_frame frame) else sret tt
       | None => sret tt
       end) ;;;
      unmap_pages pml4 ownership pages
  end.

Definition unmap_user_region (pml4 : Z) (region : MappedMemoryRegion) : UM unit :=
  if size_bytes region =? 0 then sret tt else
  let start_page := containing_address (start_virt region) in
  let! e := slift (va_add (start_virt region) (size_bytes region)) in
  let! e := slift (va_sub e 1) in
  unmap_pages pml4 (frame_ownership region) (range_inclusive start_page (containing_address e)).

(** Undoes the pages mapped by a failed [map_virt_mem_region] call, freeing their frames. *)
Definition rollback_partial_mapping (pml4 start_page failed_page protection_flags : Z) : UM unit :=
  let! mapped_bytes := slift (usub failed_page start_page) in
  unmap_user_region pml4 (mkRegion start_page mapped_bytes protection_flags Owned).

(** A call whose error is looked at by the caller. *)
Definition caught (c : UM unit) : UM (option MapToError) := fun m =>
  match c m with
  | (Ok _, m) => (Ok None, m)
  | (Err e, m) => (Ok (Some e), m)
  | (Panic, m) => (Panic, m)
  | (OutOfFuel, m) => (OutOfFuel, m)
  end.

Definition call_map_to (pml4 page frame flags : Z) : UM unit := fun m =>
  let '(r, (t, a)) := map_to pml4 page frame flags (tables m, frames m) in (r, mkMachine t a (memory m)).

(** [update_flags]; its error is only reported on the serial port. *)
Definition call_update_flags (pml4 page flags : Z) : UM unit := fun m =>
  let '(_, t) := update_flags pml4 page flags (tables m) in (Ok tt, mkMachine t (frames m) (memory m)).

(** Permissions are unioned; [NO_EXECUTE] stays only when both sides have it. *)
Definition merge_flags (existing_flags user_flags : Z) : Z :=
  let both_nx := has_flags existing_flags NO_EXECUTE && has_flags user_flags NO_EXECUTE in
  let merged_flags := Z.lor existing_flags user_flags in
  if both_nx then merged_flags else remove_flags merged_flags NO_EXECUTE.

(** One turn of the loop of [map_virt_mem_region]. *)
Definition map_page (pml4 start_page protection_flags page : Z) : UM unit :=
  let user_flags := Z.lor protection_flags USER_ACCESSIBLE in
  let! phys_frame := on_frames (allocate_frame USABLE) in
  match phys_frame with
  | None =>
      rollback_partial_mapping pml4 start_page page protection_flags ;;; serr FrameAllocationFailed
  | Some phys_frame =>
      zero_frame phys_frame ;;;
      let! r := caught (call_map_to pml4 page phys_frame user_flags) in
      match r with
      | None => sret tt
      | Some (PageAlreadyMapped _) =>
          on_frames (deallocate_frame phys_frame) ;;;
          let! m := (fun m => (Ok m, m)) in
          let existing_flags := get_page_flags (tables m) pml4 page in
          call_update_flags pml4 page (merge_flags existing_flags user_flags)
      | Some e =>
          on_frames (deallocate_frame phys_frame) ;;;
          rollback_partial_mapping pml4 start_page page protection_flags ;;; serr e
      end
  end.

Fixpoint map_pages (pml4 start_page protection_flags : Z) (pages : list Z) : UM unit :=
  match pages with
  | [] => sret tt
  | page :: pages =>
      map_page pml4 start_page protection_flags page ;;; map_pages pml4 start_page protection_flags pages
  end.

Definition map_virt_mem_region (pml4 virt_addr size protection_flags : Z) : UM unit :=
  let start_page := containing_address virt_addr in
  let! e := slift (va_add virt_addr size) in
  let! e := slift (va_sub e 1) in
  map_pages pml4 start_page protection_flags (range_inclusive start_page (containing_address e)).

Definition map_specific_frame (pml4 virt_addr phys_addr flags : Z) : UM unit :=
  let page := containing_address virt_addr in
  let phys_frame := containing_address phys_addr in
  let user_flags := Z.lor flags USER_ACCESSIBLE in
  let! r := caught (call_map_to pml4 page phys_frame user_flags) in
  match r with
  | None => sret tt
  | Some (PageAlreadyMapped existing_frame) =>
      sassert (existing_frame =? phys_frame) ;;;
      if negb (existing_frame =? phys_frame) then serr (PageAlreadyMapped existing_frame) else
      call_update_flags pml4 page user_flags
  | Some e => serr e
  end.

Definition allocate_zeroed_page : UM (option Z) :=
  let! frame := on_frames (allocate_frame USABLE) in
  match frame with
  | None => sret None
  | Some frame => zero_frame frame ;;; sret (Some frame)
  end.

(** ** What the crate promises *)

(** The leaf entry of a page: its frame and flags, unless a level is missing, a parent is
    a huge page or the leaf is unused. *)
Definition is_table_entry (flags : Z) : bool := has_flags flags PRESENT && negb (has_flags flags HUGE_PAGE).

Definition mapping (t : T) (pml4 page : Z) : option (Z * Z) :=
  let '(pdpt, f4) := entry t pml4 (page_index 3 page) in
  if negb (is_table_entry f4) then None else
  let '(pd, f3) := entry t pdpt (page_index 2 page) in
  if negb (is_table_entry f3) then None else
  let '(pt, f2) := entry t pd (page_index 1 page) in
  if negb (is_table_entry f2) then None else
  let '(frame, f1) := entry t pt (page_index 0 page) in
  if (frame =? 0) && (f1 =? 0) then None else Some (frame, f1).

(** The allocator handed out the frames [l], or refused, any number of times. *)
Inductive takes : MemoryMapFrameAllocator -> list Z -> MemoryMapFrameAllocator -> Prop :=
  | takes_none a : takes a [] a
  | takes_one a f a1 l a2 :
      allocate_frame USABLE a = (Ok (Some f), a1) -> takes a1 l a2 -> takes a (f :: l) a2
  | takes_refused a a1 l a2 :
      allocate_frame USABLE a = (Ok None, a1) -> takes a1 l a2 -> takes a l a2.

Definition user_page (page : Z) : Prop := 0 <= page < USER_END /\ (PAGE_SIZE | page).

(** [map_to] adds one entry and takes frames for new tables, or says why not and leaves
    every mapping alone; [unmap] removes one present entry; [update_flags] replaces the
    flags of one.  Frames are page aligned. *)
Class PageMapperLaws : Prop := {
  map_to_result : forall pml4 page frame flags t a,
    0 <= pml4 -> user_page page -> (PAGE_SIZE | frame) -> has_flags flags PRESENT = true ->
    exists r t' a' l, map_to pml4 page frame flags (t, a) = (r, (t', a')) /\ takes a l a' /\
      match r with
      | Ok _ => mapping t pml4 page = None /\
          forall q, user_page q -> mapping t' pml4 q =
            if decide (q = page) then Some (frame, flags) else mapping t pml4 q
      | Err e => (forall q, user_page q -> mapping t' pml4 q = mapping t pml4 q) /\
          match e with
          | PageAlreadyMapped g => l = [] /\ exists fl, mapping t pml4 page = Some (g, fl)
          | _ => mapping t pml4 page = None
          end
      | _ => False
      end;
  unmap_result : forall pml4 page t, 0 <= pml4 -> user_page page ->
    exists r t', unmap pml4 page t = (r, t') /\
      match r with
      | Some frame => (exists fl, mapping t pml4 page = Some (frame, fl)) /\
          forall q, user_page q -> mapping t' pml4 q =
            if decide (q = page) then None else mapping t pml4 q
      | None => (forall frame fl, mapping t pml4 page = Some (frame, fl) ->
            has_flags fl PRESENT = true -> (PAGE_SIZE | frame) -> False) /\
          forall q, user_page q -> mapping t' pml4 q = mapping t pml4 q
      end;
  update_result : forall pml4 page flags t frame fl, 0 <= pml4 -> user_page page ->
    mapping t pml4 page = Some (frame, fl) -> has_flags flags PRESENT = true ->
    exists t', update_flags pml4 page flags t = (true, t') /\
      forall q, user_page q -> mapping t' pml4 q =
        if decide (q = page) then Some (frame, flags) else mapping t pml4 q;
  range_is : forall s e, (PAGE_SIZE | s) -> (PAGE_SIZE | e) ->
    range_inclusive s e = (fun k => s + Z.of_nat k * PAGE_SIZE) <$> seq 0 (Z.to_nat ((e - s) / PAGE_SIZE + 1));
}.

End usermem.
Arguments PageMapperLaws USABLE {PF} T {PM}.
