(* ===== verification/UserMemSpec.v ===== *)
(** * UserMemSpec: what mapping and unmapping a range does to an address space

    The effect of [UserMem] on the mappings, on the frames held and on memory, for a
    mapper that keeps the laws of the crate. *)

From Stdlib Require Import ZArith Lia.
From stdpp Require Import base tactics list option numbers.
From S2P Require Import Prelude FrameAlloc Regions RegionsSpec UserMem.

Open Scope rust_scope.

(** [PRESENT] is a bit, and another one than [NO_EXECUTE]. *)
Class PageFlagsLaws {PF : PageFlags} : Prop := {
  present_nonzero : PRESENT <> 0;
  present_not_nx : Z.land PRESENT NO_EXECUTE = 0;
}.

(** [n] pages from the page [s] on. *)
Definition pages_from (s : Z) (n : nat) : list Z := (fun k => s + Z.of_nat k * PAGE_SIZE) <$> seq 0 n.

Lemma pages_from_S s n : pages_from s (S n) = pages_from s n ++ [s + Z.of_nat n * PAGE_SIZE].
Proof. unfold pages_from. by rewrite seq_S, fmap_app. Qed.

Lemma length_pages_from s n : length (pages_from s n) = n.
Proof. unfold pages_from. by rewrite length_fmap, length_seq. Qed.

Lemma elem_of_pages_from s n q :
  q ∈ pages_from s n <-> exists k, (k < n)%nat /\ q = s + Z.of_nat k * PAGE_SIZE.
Proof.
  unfold pages_from. rewrite list_elem_of_fmap. split.
  - intros (k & -> & Hk%elem_of_seq). exists k. split; [lia|done].
  - intros (k & Hk & ->). exists k. split; [done|]. apply elem_of_seq. lia.
Qed.

Lemma pages_from_NoDup s n : NoDup (pages_from s n).
Proof.
  unfold pages_from. apply NoDup_fmap_2, NoDup_seq. intros i j. unfold PAGE_SIZE. lia.
Qed.

Lemma pages_from_drop s n k : (k < n)%nat ->
  pages_from s n = pages_from s k ++ (s + Z.of_nat k * PAGE_SIZE) :: drop (S k) (pages_from s n).
Proof.
  intros Hk. rewrite <- (take_drop k (pages_from s n)) at 1.
  assert (E : forall j, (j < n)%nat -> pages_from s n !! j = Some (s + Z.of_nat j * PAGE_SIZE)).
  { intros j Hj. unfold pages_from. by rewrite list_lookup_fmap, lookup_seq_lt. }
  rewrite (drop_S _ _ _ (E k Hk)). f_equal. apply list_eq. intros j.
  unfold pages_from. destruct (decide (j < k)%nat).
  - rewrite lookup_take_lt by done. rewrite !list_lookup_fmap, !lookup_seq_lt by lia. done.
  - rewrite lookup_take_ge by lia. symmetry. apply lookup_ge_None_2. rewrite length_fmap, length_seq. lia.
Qed.

(** Aligned frames do not share an address. *)
Lemma frames_apart f g a : (PAGE_SIZE | f) -> (PAGE_SIZE | g) -> f <> g ->
  f <= a < f + PAGE_SIZE -> g <= a < g + PAGE_SIZE -> False.
Proof. intros [x ->] [y ->]. unfold PAGE_SIZE. intros. assert (x = y) by lia. lia. Qed.

Lemma lor_present {PF : PageFlags} x y : has_flags x PRESENT = true -> has_flags (Z.lor x y) PRESENT = true.
Proof.
  unfold has_flags. rewrite !Z.eqb_eq. intros Hx. rewrite Z.land_lor_distr_l, Hx.
  apply Z.bits_inj'. intros n Hn. rewrite Z.lor_spec, Z.land_spec.
  destruct (Z.testbit PRESENT n), (Z.testbit y n); done.
Qed.

Lemma merge_present `{PageFlagsLaws} x y :
  has_flags x PRESENT = true -> has_flags (merge_flags x y) PRESENT = true.
Proof.
  intros Hx. pose proof (lor_present x y Hx) as Hl. unfold merge_flags.
  destruct (_ && _); [done|]. unfold has_flags, remove_flags in *. rewrite Z.eqb_eq in *.
  rewrite <- Hl at 2. apply Z.bits_inj'. intros n Hn. rewrite !Z.land_spec, Z.lnot_spec by done.
  pose proof present_not_nx as Hp. apply (f_equal (fun z => Z.testbit z n)) in Hp.
  rewrite Z.land_spec, Z.bits_0 in Hp.
  destruct (Z.testbit PRESENT n), (Z.testbit NO_EXECUTE n); try done; by rewrite ?andb_false_r, ?andb_true_r.
Qed.

Section spec.
Context (USABLE : Z) {VA : VirtAddrApi} {VL : VirtAddrLaws} {PF : PageFlags} {PFL : PageFlagsLaws}.
Context {T : Type} {PM : PageMapper USABLE T} {PL : PageMapperLaws USABLE T}.

(** ** Frames *)

Lemma holds_perm a l l' : l ≡ₚ l' -> holds USABLE a l -> holds USABLE a l'.
Proof. intros Hl (n & Hb & Hp). exists n. by rewrite <- Hl. Qed.

Lemma holds_fresh a f held : sane USABLE (memory_map a) -> holds USABLE a (f :: held) ->
  (f ∉ held) /\ (PAGE_SIZE | f).
Proof.
  intros Hs Hh. destruct (holds_facts USABLE a _ Hs Hh) as [Hn Hf]. split.
  - apply list.NoDup_app in Hn as (_ & _ & Hn). by apply NoDup_cons_1_1 in Hn.
  - destruct (Hf f) as [Hm _]; [apply elem_of_app; right; apply list_elem_of_here|].
    apply Z.mod_divide; [unfold PAGE_SIZE; lia|done].
Qed.

Lemma holds_aligned a held f : sane USABLE (memory_map a) -> holds USABLE a held -> f ∈ held -> (PAGE_SIZE | f).
Proof.
  intros Hs Hh Hin. destruct (holds_facts USABLE a _ Hs Hh) as [_ Hf].
  destruct (Hf f) as [Hm _]; [apply elem_of_app; by right|].
  apply Z.mod_divide; [unfold PAGE_SIZE; lia|done].
Qed.

Lemma takes_holds a l a' held : takes USABLE a l a' ->
  sane USABLE (memory_map a) -> holds USABLE a held ->
  memory_map a' = memory_map a /\ holds USABLE a' (l ++ held).
Proof.
  intros Ht. revert held. induction Ht as [a|a f a1 l a2 Ha _ IH|a a1 l a2 Ha _ IH]; intros held Hs Hh; [done| |];
    pose proof Hh as (n & Hb & Hp); destruct (allocate_does USABLE a held n Hs Hb Hp) as (r & b & E & Em & Hr);
    rewrite Ha in E; injection E as <- <-.
  - destruct Hr as [_ Hr]. rewrite <- Em in Hs. destruct (IH (f :: held) Hs Hr) as [Em2 Hh2].
    split; [congruence|]. revert Hh2. apply holds_perm. by rewrite <- Permutation_middle.
  - destruct Hr as (_ & _ & Hr). rewrite <- Em in Hs. destruct (IH held Hs Hr) as [Em2 Hh2].
    split; [congruence|done].
Qed.

(** The state of a machine seen from one address space: its mappings, the frames that are
    held and the memory map, with every mapping present and page aligned. *)
Record machine_ok (m : Machine T) (pml4 : Z) (view : Z -> option (Z * Z)) (held : list Z) : Prop := {
  ok_root : 0 <= pml4;
  ok_view : forall q, user_page q -> mapping USABLE (tables m) pml4 q = view q;
  ok_sane : sane USABLE (memory_map (frames m));
  ok_holds : holds USABLE (frames m) held;
}.

Definition clean (view : Z -> option (Z * Z)) : Prop :=
  forall q f fl, view q = Some (f, fl) -> has_flags fl PRESENT = true /\ (PAGE_SIZE | f).

Lemma machine_perm m pml4 view held held' :
  held ≡ₚ held' -> machine_ok m pml4 view held -> machine_ok m pml4 view held'.
Proof. intros Hp []. split; try done. by eapply holds_perm. Qed.

Lemma machine_view m pml4 view view' held : (forall q, user_page q -> view q = view' q) ->
  machine_ok m pml4 view held -> machine_ok m pml4 view' held.
Proof. intros Hv []. split; try done. intros q Hq. rewrite <- Hv by done. auto. Qed.

Lemma allocate_ok m pml4 view held : machine_ok m pml4 view held ->
  exists r m', on_frames (T:=T) (allocate_frame USABLE) m = (Ok r, m') /\ memory m' = memory m /\
    match r with
    | Some f => machine_ok m' pml4 view (f :: held) /\ (f ∉ held) /\ (PAGE_SIZE | f)
    | None => machine_ok m' pml4 view held
    end.
Proof.
  intros [H0 Hv Hs Hh]. pose proof Hh as (n & Hb & Hp).
  destruct (allocate_does USABLE _ held n Hs Hb Hp) as (r & a & E & Em & Hr).
  exists r, (mkMachine (tables m) a (memory m)). unfold on_frames. rewrite E. split; [done|]. split; [done|].
  assert (Hs' : sane USABLE (memory_map a)) by (by rewrite Em).
  destruct r as [f|]; [|by destruct Hr as (_ & _ & Hr); split].
  destruct Hr as [Hf Hr]. split; [by split|]. by apply (holds_fresh a).
Qed.

Lemma deallocate_ok m pml4 view f held : machine_ok m pml4 view (f :: held) ->
  exists m', on_frames (T:=T) (deallocate_frame f) m = (Ok tt, m') /\ memory m' = memory m /\
    machine_ok m' pml4 view held.
Proof.
  intros [H0 Hv Hs Hh]. destruct (deallocate_does USABLE _ [] f held Hs Hh) as (a & E & Em & Hr).
  exists (mkMachine (tables m) a (memory m)). unfold on_frames. rewrite E.
  split; [done|]. split; [done|]. split; [done|done| |done]. cbn. by rewrite Em.
Qed.

(** ** Unmapping *)

Definition unmapped (pages : list Z) (view : Z -> option (Z * Z)) (q : Z) : option (Z * Z) :=
  if decide (q ∈ pages) then None else view q.

(** The frames behind a list of pages. *)
Definition frames_on (view : Z -> option (Z * Z)) (pages : list Z) : list Z :=
  omap (fun q => fst <$> view q) pages.

Lemma frames_on_app view l1 l2 : frames_on view (l1 ++ l2) = frames_on view l1 ++ frames_on view l2.
Proof. apply omap_app. Qed.

Lemma frames_on_cons view q l :
  frames_on view (q :: l) = match view q with Some (f, _) => f :: frames_on view l | None => frames_on view l end.
Proof. unfold frames_on. cbn. by destruct (view q) as [[]|]. Qed.

Lemma frames_on_ext view view' l : (forall q, q ∈ l -> view q = view' q) -> frames_on view l = frames_on view' l.
Proof.
  induction l as [|q l IH]; intros Hv; [done|]. rewrite !frames_on_cons.
  rewrite Hv by apply list_elem_of_here. rewrite IH; [done|]. intros x Hx. apply Hv, elem_of_cons. by right.
Qed.

Definition freed (o : FrameOwnership) (view : Z -> option (Z * Z)) (pages held : list Z) : list Z :=
  match o with Owned => frames_on view pages ++ held | Borrowed => held end.

Lemma unmap_pages_ok pml4 o pages : forall m view held,
  NoDup pages -> Forall user_page pages -> clean view ->
  machine_ok m pml4 view (freed o view pages held) ->
  exists m', unmap_pages USABLE pml4 o pages m = (Ok tt, m') /\ memory m' = memory m /\
    machine_ok m' pml4 (unmapped pages view) held.
Proof.
  induction pages as [|p pages IH]; intros m view held Hn Hu Hc Hm.
  { exists m. split; [done|]. split; [done|]. destruct o; exact Hm. }
  apply Forall_cons_1 in Hu as [Hp Hu]. pose proof (NoDup_cons_1_1 _ _ Hn) as Hpn.
  pose proof (NoDup_cons_1_2 _ _ Hn) as Hn'. cbn [unmap_pages]. unfold sbind at 1.
  destruct (unmap_result USABLE pml4 p (tables m) (ok_root _ _ _ _ Hm) Hp) as (r & t & -> & Hr).
  set (view1 := unmapped [p] view). set (m1 := mkMachine t (frames m) (memory m)).
  assert (Hv1 : forall q, user_page q -> mapping USABLE t pml4 q = view1 q).
  { intros q Hq. unfold view1, unmapped. destruct r as [f|].
    - destruct Hr as [_ Hr]. rewrite Hr by done.
      destruct (decide (q = p)) as [->|Hne].
      + by rewrite decide_True by apply list_elem_of_here.
      + rewrite decide_False by (by rewrite list_elem_of_singleton). by apply (ok_view _ _ _ _ Hm).
    - destruct Hr as [Habs Hr]. rewrite Hr, (ok_view _ _ _ _ Hm) by done.
      destruct (decide (q ∈ [p])) as [->%list_elem_of_singleton|]; [|done].
      destruct (view p) as [[f fl]|] eqn:Ev; [|done]. exfalso. destruct (Hc p f fl Ev).
      apply (Habs f fl); [|done|done]. by rewrite (ok_view _ _ _ _ Hm). }
  assert (Hc1 : clean view1) by (intros q f fl; unfold view1, unmapped; destruct decide; [done|apply Hc]).
  assert (Hfr : frames_on view1 pages = frames_on view pages).
  { apply frames_on_ext. intros q Hq. unfold view1, unmapped. rewrite decide_False; [done|].
    rewrite list_elem_of_singleton. by intros ->. }
  assert (Hview : forall q, unmapped pages view1 q = unmapped (p :: pages) view q).
  { intros q. unfold view1, unmapped. destruct (decide (q ∈ pages)).
    - rewrite decide_True; [done|]. apply elem_of_cons. by right.
    - destruct (decide (q ∈ [p])) as [Hq|Hq]; rewrite list_elem_of_singleton in Hq.
      + subst. by rewrite decide_True by apply list_elem_of_here.
      + rewrite decide_False; [done|]. rewrite elem_of_cons. tauto. }
  assert (Hm1 : machine_ok m1 pml4 view1 (freed o view (p :: pages) held))
    by (destruct Hm; by split).
  assert (Hvp : view p = mapping USABLE (tables m) pml4 p) by (by rewrite (ok_view _ _ _ _ Hm)).
  assert (Hstep : exists m2, (match r with
       | Some frame => if bool_decide (o = Owned) then on_frames (deallocate_frame frame) else sret tt
       | None => sret tt end) m1 = (Ok tt, m2) /\ memory m2 = memory m /\
       machine_ok m2 pml4 view1 (freed o view1 pages held)).
  { destruct r as [f|].
    - destruct Hr as [(fl & Hf) _]. destruct o; cbn [bool_decide freed] in *.
      + rewrite bool_decide_true by done. rewrite Hfr.
        rewrite frames_on_cons, Hvp, Hf in Hm1. exact (deallocate_ok m1 _ _ _ _ Hm1).
      + rewrite bool_decide_false by done. by exists m1.
    - exists m1. split; [done|]. split; [done|]. destruct o; cbn [freed] in *; [|done].
      rewrite Hfr. rewrite frames_on_cons in Hm1.
      destruct (view p) as [[f fl]|] eqn:Ev; [|done]. exfalso. destruct Hr as [Habs _].
      destruct (Hc p f fl Ev). by apply (Habs f fl). }
  destruct Hstep as (m2 & E2 & Emem & Hm2). unfold sbind at 1. fold m1. rewrite E2.
  destruct (IH m2 view1 held Hn' Hu Hc1 Hm2) as (m' & E' & Em' & Hm'). exists m'.
  split; [exact E'|]. split; [congruence|]. by apply (machine_view m' pml4 (unmapped pages view1)).
Qed.

(** The pages of a byte range, as the loops enumerate them. *)
Lemma range_pages s n : user_page s -> (0 < n)%nat -> s + Z.of_nat n * PAGE_SIZE <= USER_END ->
  forall e, s + Z.of_nat (n - 1) * PAGE_SIZE <= e < s + Z.of_nat n * PAGE_SIZE ->
  range_inclusive s (containing_address e) = pages_from s n.
Proof.
  intros [Hs [x Hx]] Hn Hu e He. rewrite containing_is by (unfold PAGE_SIZE in *; lia).
  assert (Ee : e / PAGE_SIZE = x + Z.of_nat (n - 1)).
  { subst s. unfold PAGE_SIZE in *.
    replace e with ((e - (x + Z.of_nat (n - 1)) * 4096) + (x + Z.of_nat (n - 1)) * 4096) by lia.
    rewrite Z.div_add, Z.div_small by lia. lia. }
  rewrite (range_is (PF:=PF) USABLE) by (rewrite ?Ee; subst s; auto with pages).
  unfold pages_from. do 2 f_equal. rewrite Ee. subst s.
  replace ((x + Z.of_nat (n - 1)) * PAGE_SIZE - x * PAGE_SIZE) with (Z.of_nat (n - 1) * PAGE_SIZE) by lia.
  rewrite Z.div_mul by (unfold PAGE_SIZE; lia). lia.
Qed.

Lemma pages_user s n : user_page s -> s + Z.of_nat n * PAGE_SIZE <= USER_END -> Forall user_page (pages_from s n).
Proof.
  intros [Hs Hd] Hu. apply list.Forall_forall. intros q (k & Hk & ->)%elem_of_pages_from.
  split; [unfold PAGE_SIZE in *; nia|]. apply Z.divide_add_r; [done|apply Z.divide_factor_r].
Qed.

(** Unmapping the pages of a region that starts and ends on page boundaries. *)
Lemma unmap_region_ok m pml4 r n view held :
  user_page (start_virt r) -> size_bytes r = Z.of_nat n * PAGE_SIZE -> r_end r < USER_END ->
  clean view ->
  machine_ok m pml4 view (freed (frame_ownership r) view (pages_from (start_virt r) n) held) ->
  exists m', unmap_user_region USABLE pml4 r m = (Ok tt, m') /\ memory m' = memory m /\
    machine_ok m' pml4 (unmapped (pages_from (start_virt r) n) view) held.
Proof.
  intros Hs Hsz Hu Hc Hm. unfold unmap_user_region. rewrite Hsz in *.
  destruct n as [|n].
  { exists m. split; [done|]. split; [done|]. destruct (frame_ownership r); exact Hm. }
  rewrite (proj2 (Z.eqb_neq _ _)) by (unfold PAGE_SIZE; lia).
  unfold sbind at 1, slift at 1. rewrite va_add_user by (unfold USER_END, PAGE_SIZE in *; destruct Hs; lia).
  unfold sbind at 1, slift at 1.
  rewrite va_sub_user by (unfold USER_END, PAGE_SIZE in *; destruct Hs; lia).
  replace (containing_address (start_virt r)) with (start_virt r).
  2:{ destruct Hs as [Hs0 [x Hx]]. rewrite containing_is by lia. rewrite Hx, Z.div_mul by (unfold PAGE_SIZE; lia). lia. }
  rewrite (range_pages _ (S n)) by (done || lia || (unfold PAGE_SIZE in *; lia)).
  apply unmap_pages_ok; [apply pages_from_NoDup|apply pages_user; [done|lia]|done|done].
Qed.

(** ** Mapping *)

Section mapping.
Variables (pml4 prot : Z) (view0 : Z -> option (Z * Z)) (memory0 : Z -> Z).
Hypothesis Hprot : has_flags prot PRESENT = true.
Hypothesis Hclean : clean view0.

Definition user_flags_of : Z := Z.lor prot USER_ACCESSIBLE.

(** The mappings after the pages [done] were mapped, with the new frames [g]. *)
Definition mapped_view (done : list Z) (g : Z -> option Z) (q : Z) : option (Z * Z) :=
  match view0 q with
  | Some (f, fl) => Some (f, if decide (q ∈ done) then merge_flags fl user_flags_of else fl)
  | None => (fun f => (f, user_flags_of)) <$> g q
  end.

(** [g] gives a frame to exactly the pages of [done] that had none. *)
Definition fresh_for (done : list Z) (g : Z -> option Z) : Prop :=
  forall q, is_Some (g q) <-> (q ∈ done /\ view0 q = None).

Record progress (m : Machine T) (done : list Z) (g : Z -> option Z) (tabs kept : list Z) : Prop := {
  pr_machine : machine_ok m pml4 (mapped_view done g) (omap g done ++ tabs ++ kept);
  pr_fresh : fresh_for done g;
  pr_zero : forall q f a, g q = Some f -> f <= a < f + PAGE_SIZE -> memory m a = 0;
  pr_kept : forall f a, f ∈ kept -> f <= a < f + PAGE_SIZE -> memory m a = memory0 a;
}.

Lemma mapped_clean m done g held : machine_ok m pml4 (mapped_view done g) held ->
  (forall q f, g q = Some f -> f ∈ held) -> clean (mapped_view done g).
Proof.
  intros [_ _ Hs Hh] Hin q f fl. unfold mapped_view. destruct (view0 q) as [[f0 fl0]|] eqn:E0.
  - intros [= <- <-]. destruct (Hclean _ _ _ E0). split; [|done].
    destruct decide; [by apply merge_present|done].
  - destruct (g q) as [f0|] eqn:Eg; [|done]. intros [= <- <-]. split; [by apply lor_present|].
    apply (holds_aligned _ _ f0 Hs Hh). eauto.
Qed.

Lemma fresh_in done g q f held : fresh_for done g -> g q = Some f -> f ∈ omap g done ++ held.
Proof.
  intros Hg Hq. apply elem_of_app. left. apply list_elem_of_omap. exists q. split; [|done].
  apply Hg. by rewrite Hq.
Qed.

Lemma frames_on_mapped done g all : (forall q, q ∈ done -> q ∈ all) -> fresh_for all g ->
  frames_on (mapped_view all g) done ≡ₚ omap g done ++ frames_on view0 done.
Proof.
  intros Hsub Hg. induction done as [|q done IH]; [done|].
  rewrite !frames_on_cons. unfold mapped_view at 1. cbn.
  assert (IH' : frames_on (mapped_view all g) done ≡ₚ omap g done ++ frames_on view0 done)
    by (apply IH; intros x Hx; apply Hsub, elem_of_cons; by right).
  destruct (view0 q) as [[f fl]|] eqn:E0.
  - destruct (g q) eqn:Eg; [destruct (proj1 (Hg q)); [by rewrite Eg|congruence]|].
    rewrite IH'. by rewrite Permutation_middle.
  - destruct (proj2 (Hg q)) as [f Ef]; [split; [apply Hsub, list_elem_of_here|done]|].
    rewrite Ef. cbn. by rewrite IH'.
Qed.

(** A mapping that failed at a page leaves the pages before it unmapped, whether this call
    or an earlier one had mapped them, and their frames free. *)
Lemma rollback_ok m s k g tabs rest :
  user_page s -> s + Z.of_nat k * PAGE_SIZE < USER_END ->
  progress m (pages_from s k) g tabs (frames_on view0 (pages_from s k) ++ rest) ->
  exists m', rollback_partial_mapping USABLE pml4 s (s + Z.of_nat k * PAGE_SIZE) prot m = (Ok tt, m') /\
    memory m' = memory m /\ machine_ok m' pml4 (unmapped (pages_from s k) view0) (tabs ++ rest).
Proof.
  intros Hs Hu Hp. unfold rollback_partial_mapping.
  unfold sbind at 1, slift at 1. rewrite usub_ok by (unfold PAGE_SIZE; lia).
  destruct (unmap_region_ok m pml4
    (mkRegion s (s + Z.of_nat k * PAGE_SIZE - s) prot Owned) k (mapped_view (pages_from s k) g) (tabs ++ rest))
    as (m' & E & Em & Hm'); cbn; try done; try lia.
  - destruct Hp as [Hm Hg _ _]. eapply mapped_clean; [exact Hm|]. intros. by eapply fresh_in.
  - destruct Hp as [Hm Hg _ _]. revert Hm. apply machine_perm.
    rewrite frames_on_mapped by done. solve_Permutation.
  - exists m'. split; [exact E|]. split; [done|]. revert Hm'. apply machine_view. intros q Hq.
    unfold unmapped, mapped_view. cbn. destruct (decide (q ∈ pages_from s k)) as [|Hn]; [done|].
    destruct (view0 q) as [[f fl]|] eqn:E0; [done|]. destruct (g q) eqn:Eg; [|done].
    destruct Hp as [_ Hg _ _]. destruct (proj1 (Hg q)); [by rewrite Eg|done].
Qed.

(** The frame taken for a page is zeroed and nothing that is held changes. *)
Lemma zero_ok m f view held : machine_ok m pml4 view (f :: held) ->
  exists m', zero_frame (T:=T) f m = (Ok tt, m') /\ machine_ok m' pml4 view (f :: held) /\
    (forall a, f <= a < f + PAGE_SIZE -> memory m' a = 0) /\
    (forall h a, h ∈ held -> h <= a < h + PAGE_SIZE -> memory m' a = memory m a).
Proof.
  intros [H0 Hv Hs Hh]. destruct (holds_fresh _ _ _ Hs Hh) as [Hf Ha]. eexists. split; [done|].
  split; [by split|]. cbn. split.
  - intros a Hr. rewrite (proj2 (Z.leb_le _ _)), (proj2 (Z.ltb_lt _ _)) by lia. done.
  - intros h a Hin Hr. destruct (Z.leb_spec f a), (Z.ltb_spec a (f + PAGE_SIZE)); try done.
    exfalso. apply (frames_apart h f a); try done.
    + apply (holds_aligned _ _ h Hs Hh), elem_of_cons. by right.
    + by intros ->.
Qed.

Lemma get_page_flags_ok t page f fl :
  mapping USABLE t pml4 page = Some (f, fl) -> get_page_flags USABLE t pml4 page = fl.
Proof.
  unfold mapping, get_page_flags, is_table_entry.
  destruct (entry t pml4 _) as [pdpt f4]. destruct (has_flags f4 PRESENT); [|done].
  destruct (has_flags f4 HUGE_PAGE); [done|]. cbn [andb negb].
  destruct (entry t pdpt _) as [pd f3]. destruct (has_flags f3 PRESENT); [|done].
  destruct (has_flags f3 HUGE_PAGE); [done|]. cbn [andb negb].
  destruct (entry t pd _) as [pt f2]. destruct (has_flags f2 PRESENT); [|done].
  destruct (has_flags f2 HUGE_PAGE); [done|]. cbn [andb negb].
  destruct (entry t pt _) as [x f1]. destruct (_ && _); [done|]. by intros [= -> ->].
Qed.

(** [map_to] of an aligned frame. *)
Lemma call_map_to_ok m page f flags view held :
  user_page page -> has_flags flags PRESENT = true -> (PAGE_SIZE | f) -> machine_ok m pml4 view held ->
  exists r m' l, call_map_to USABLE pml4 page f flags m = (r, m') /\ memory m' = memory m /\
    match r with
    | Ok _ => view page = None /\
        machine_ok m' pml4 (fun q => if decide (q = page) then Some (f, flags) else view q) (l ++ held)
    | Err e => machine_ok m' pml4 view (l ++ held) /\
        match e with PageAlreadyMapped g => l = [] /\ exists fl, view page = Some (g, fl) | _ => view page = None end
    | _ => False
    end.
Proof.
  intros Hu Hfl Ha [H0 Hv Hs Hh].
  destruct (map_to_result USABLE pml4 page f flags (tables m) (frames m) H0 Hu Ha Hfl)
    as (r & t & a & l & E & Ht & Hr).
  destruct (takes_holds _ _ _ _ Ht Hs Hh) as [Em Hh'].
  exists r, (mkMachine t a (memory m)), l. unfold call_map_to. rewrite E. split; [done|]. split; [done|].
  rewrite <- Em in Hs. destruct r as [[]|e| |]; [| |done|done].
  - destruct Hr as [Hn Hr]. rewrite Hv in Hn by done. split; [done|]. split; cbn; [done| |done|done].
    intros q Hq. rewrite Hr by done. destruct decide; [done|auto].
  - destruct Hr as [Hr He]. split; [split; cbn; [done| |done|done]; intros q Hq; rewrite Hr by done; auto|].
    rewrite Hv in He by done. done.
Qed.

Lemma fresh_more done g p f : (p ∉ done) -> view0 p = None -> fresh_for done g ->
  fresh_for (done ++ [p]) (fun q => if decide (q = p) then Some f else g q).
Proof.
  intros Hp Hv Hg q. rewrite elem_of_app, list_elem_of_singleton. destruct (decide (q = p)) as [->|Hne].
  - split; [by auto|by eexists].
  - rewrite (Hg q). tauto.
Qed.

Lemma fresh_none done g p f fl : view0 p = Some (f, fl) -> fresh_for done g -> fresh_for (done ++ [p]) g.
Proof.
  intros Hv Hg q. rewrite (Hg q), elem_of_app, list_elem_of_singleton. split; [by intuition|].
  intros [[?| ->] ?]; [done|congruence].
Qed.

Lemma omap_more (g : Z -> option Z) done p f : (p ∉ done) ->
  omap (fun q => if decide (q = p) then Some f else g q) (done ++ [p]) = omap g done ++ [f].
Proof.
  intros Hp. rewrite omap_app. cbn. rewrite decide_True by done. f_equal.
  induction done as [|q done IH]; [done|]. apply not_elem_of_cons in Hp as [Hq Hp]. cbn.
  rewrite decide_False by done. by rewrite IH.
Qed.

(** *** One turn of the loop

    [done] are the pages mapped before, [p] is the page of this turn. *)
Section turn.
Variables (s : Z) (k : nat) (g : Z -> option Z) (rest : list Z).
Hypothesis Hs : user_page s.
Hypothesis Hu : s + Z.of_nat k * PAGE_SIZE < USER_END.
Hypothesis Hg : fresh_for (pages_from s k) g.

Let p := s + Z.of_nat k * PAGE_SIZE.
Let kept := frames_on view0 (pages_from s k) ++ rest.

Definition undone (r : result MapToError unit) (m' : Machine T) : Prop :=
  match r with
  | Err _ => exists tabs', machine_ok m' pml4 (unmapped (pages_from s k) view0) (tabs' ++ rest)
  | _ => False
  end.

Lemma turn_page : user_page p.
Proof.
  destruct Hs. split; [unfold p, PAGE_SIZE in *; lia|]. unfold p. apply Z.divide_add_r; auto with pages.
Qed.

Lemma turn_new : p ∉ pages_from s k.
Proof. rewrite elem_of_pages_from. intros (j & Hj & E). unfold p, PAGE_SIZE in E. lia. Qed.

Lemma turn_unassigned : g p = None.
Proof. pose proof turn_new. destruct (g p) eqn:E; [destruct (proj1 (Hg p)); [by rewrite E|done]|done]. Qed.

Lemma turn_view : mapped_view (pages_from s k) g p = view0 p.
Proof.
  pose proof turn_new. unfold mapped_view. destruct (view0 p) as [[]|]; [by rewrite decide_False|].
  by rewrite turn_unassigned.
Qed.

(** The view of the other pages is not affected by one more page. *)
Lemma turn_others g' q : q <> p -> g' q = g q ->
  mapped_view (pages_from s (S k)) g' q = mapped_view (pages_from s k) g q.
Proof.
  intros Hne Eg. unfold mapped_view. rewrite Eg, pages_from_S. fold p.
  destruct (view0 q) as [[f0 fl0]|]; [|done]. do 2 f_equal.
  destruct (decide (q ∈ pages_from s k)), (decide (q ∈ pages_from s k ++ [p])) as [Hi|Hi]; try done;
    rewrite elem_of_app, list_elem_of_singleton in Hi; tauto.
Qed.

Lemma turn_failed m tabs e : progress m (pages_from s k) g tabs kept ->
  exists m', (rollback_partial_mapping USABLE pml4 s p prot ;;; serr (A:=unit) e) m = (Err e, m') /\ undone (Err e) m'.
Proof.
  intros Hp. destruct (rollback_ok m s k g tabs rest Hs Hu Hp) as (m2 & E2 & _ & Hm2).
  exists m2. split; [|by exists tabs]. unfold sbind. fold p in E2. by rewrite E2.
Qed.

(** The page had no frame: it gets [f]. *)
Lemma turn_mapped m f tabs l : progress m (pages_from s k) g tabs kept -> view0 p = None ->
  forall m', machine_ok m' pml4
    (fun q => if decide (q = p) then Some (f, user_flags_of) else mapped_view (pages_from s k) g q)
    (l ++ f :: omap g (pages_from s k) ++ tabs ++ kept) ->
  (forall a, f <= a < f + PAGE_SIZE -> memory m' a = 0) ->
  (forall h a, h ∈ omap g (pages_from s k) ++ tabs ++ kept -> h <= a < h + PAGE_SIZE ->
     memory m' a = memory m a) ->
  progress m' (pages_from s (S k)) (fun q => if decide (q = p) then Some f else g q) (l ++ tabs) kept.
Proof.
  intros [_ _ Hz Hk] Hn m' Hm' Hzf Hmem. pose proof turn_new as Hpd. split.
  - rewrite pages_from_S. fold p. rewrite omap_more by done.
    apply (machine_perm _ _ _ (l ++ f :: omap g (pages_from s k) ++ tabs ++ kept)); [solve_Permutation|].
    revert Hm'. apply machine_view. intros q Hq. destruct (decide (q = p)) as [->|Hne].
    + unfold mapped_view. rewrite Hn. by rewrite decide_True.
    + rewrite <- pages_from_S. symmetry. apply turn_others; [done|]. by rewrite decide_False.
  - rewrite pages_from_S. by apply fresh_more.
  - intros q h a. destruct (decide (q = p)) as [->|]; [intros [= <-]; apply Hzf|].
    intros Hq Hr. rewrite Hmem with (h := h); [by eapply Hz| |done].
    by eapply fresh_in.
  - intros h a Hin Hr. rewrite Hmem with (h := h); [by eapply Hk| |done]. rewrite !elem_of_app. by auto.
Qed.

(** The page was mapped before this call: its flags are merged. *)
Lemma turn_shared m tabs old fl : progress m (pages_from s k) g tabs kept -> view0 p = Some (old, fl) ->
  exists m', (let! m := (fun m => (Ok m, m)) in
    let existing_flags := get_page_flags USABLE (tables m) pml4 p in
    call_update_flags (T:=T) USABLE pml4 p (merge_flags existing_flags user_flags_of)) m = (Ok tt, m') /\
    progress m' (pages_from s (S k)) g tabs kept.
Proof.
  intros [Hm _ Hz Hk] Hv0. pose proof turn_view as Hvp. rewrite Hv0 in Hvp.
  assert (Hmp : mapping USABLE (tables m) pml4 p = Some (old, fl))
    by (rewrite (ok_view _ _ _ _ Hm); [done|apply turn_page]).
  unfold sbind. rewrite (get_page_flags_ok _ _ _ _ Hmp). set (nf := merge_flags fl user_flags_of).
  assert (Hnf : has_flags nf PRESENT = true) by (apply merge_present; by eapply Hclean).
  destruct (update_result USABLE pml4 p nf (tables m) old fl (ok_root _ _ _ _ Hm) turn_page Hmp Hnf) as (t & E5 & Hv5).
  unfold call_update_flags. fold p in E5. rewrite E5. eexists. split; [done|]. split; [|by rewrite pages_from_S; eapply fresh_none|done|done].
  rewrite pages_from_S. fold p. rewrite omap_app. cbn. rewrite turn_unassigned. cbn. rewrite app_nil_r.
  destruct Hm as [H0 Hv4 Hs4 Hh4]. split; cbn; [done| |done|done]. intros q Hq. rewrite Hv5 by done.
  destruct (decide (q = p)) as [->|Hne].
  - unfold mapped_view. rewrite Hv0.
    by rewrite decide_True by (apply elem_of_app; right; apply list_elem_of_here).
  - rewrite Hv4 by done. rewrite <- pages_from_S. symmetry. by apply turn_others.
Qed.

Lemma map_page_ok m tabs : progress m (pages_from s k) g tabs kept ->
  exists r m', map_page USABLE pml4 s prot p m = (r, m') /\
    match r with
    | Ok _ => exists g' tabs', progress m' (pages_from s (S k)) g' tabs' kept
    | _ => undone r m'
    end.
Proof.
  intros Hp. pose proof Hp as [Hm _ Hz Hk]. unfold map_page.
  destruct (allocate_ok _ _ _ _ Hm) as (r & m1 & E1 & Em1 & Hr). unfold sbind at 1. rewrite E1.
  destruct r as [f|]; cycle 1.
  { destruct (turn_failed m1 tabs FrameAllocationFailed) as (m2 & E2 & Hr2); [|by eexists _, _].
    split; [done|done|..]; rewrite Em1; done. }
  destruct Hr as (Hm1 & Hf & Ha).
  destruct (zero_ok _ _ _ _ Hm1) as (m2 & E2 & Hm2 & Hz2 & Hk2). rewrite Em1 in Hk2.
  unfold sbind at 1. rewrite E2. unfold sbind at 1, caught at 1.
  destruct (call_map_to_ok m2 p f user_flags_of _ _ turn_page (lor_present prot USER_ACCESSIBLE Hprot) Ha Hm2)
    as (r & m3 & l & E3 & Em3 & Hr). fold user_flags_of. rewrite E3, turn_view in *.
  destruct r as [[]|e| |]; [| |done|done].
  { destruct Hr as [Hn Hm3]. eexists (Ok tt), m3. split; [done|]. eexists _, _.
    apply (turn_mapped m f tabs l Hp Hn); [exact Hm3|by rewrite Em3..]. }
  destruct Hr as [Hm3 He].
  apply (machine_perm _ _ _ _ (f :: omap g (pages_from s k) ++ (l ++ tabs) ++ kept)) in Hm3; [|solve_Permutation].
  destruct (deallocate_ok _ _ _ _ _ Hm3) as (m4 & E4 & Em4 & Hm4).
  assert (Hp4 : progress m4 (pages_from s k) g (l ++ tabs) kept).
  { split; [done|done|..]; rewrite Em4, Em3.
    - intros q h a Hq Hr. rewrite (Hk2 h a); [by eapply Hz| |done].
      by eapply fresh_in.
    - intros h a Hin Hr. rewrite (Hk2 h a); [by eapply Hk| |done]. rewrite !elem_of_app. by auto. }
  destruct e as [| |old].
  3:{ destruct He as [-> (fl & He)]. unfold sbind at 1. rewrite E4.
      destruct (turn_shared m4 _ old fl Hp4 He) as (m5 & E5 & Hp5). exists (Ok tt), m5. split; [exact E5|]. by eexists _, _. }
  all: unfold sbind at 1; rewrite E4.
  - destruct (turn_failed m4 _ FrameAllocationFailed Hp4) as (m5 & E5 & Hr5). by eexists _, _.
  - destruct (turn_failed m4 _ ParentEntryHugePage Hp4) as (m5 & E5 & Hr5). by eexists _, _.
Qed.

End turn.
(** The loop over the pages. *)
Lemma map_pages_ok m s n held : user_page s -> s + Z.of_nat n * PAGE_SIZE <= USER_END ->
  let kept := frames_on view0 (pages_from s n) ++ held in
  forall j k g tabs, (j + k = n)%nat -> progress m (pages_from s k) g tabs kept ->
  exists r m', map_pages USABLE pml4 s prot (drop k (pages_from s n)) m = (r, m') /\
    match r with
    | Ok _ => exists g' tabs', progress m' (pages_from s n) g' tabs' kept
    | Err _ => exists i tabs', (i < n)%nat /\
        machine_ok m' pml4 (unmapped (pages_from s i) view0)
          (tabs' ++ frames_on view0 (drop i (pages_from s n)) ++ held)
    | _ => False
    end.
Proof.
  intros Hs Hu kept j. revert m. induction j as [|j IH]; intros m k g tabs Hjk Hp.
  - assert (k = n) as -> by lia. rewrite drop_ge by (by rewrite length_pages_from).
    exists (Ok tt), m. split; [done|]. by exists g, tabs.
  - assert (Hk : (k < n)%nat) by lia. pose proof (pages_from_drop s n k Hk) as Hd.
    assert (Hd' : drop k (pages_from s n) = (s + Z.of_nat k * PAGE_SIZE) :: drop (S k) (pages_from s n)).
    { rewrite Hd at 1. by rewrite drop_app_length' by (by rewrite length_pages_from). }
    assert (Ekept : kept = frames_on view0 (pages_from s k) ++
      frames_on view0 (drop k (pages_from s n)) ++ held).
    { unfold kept. rewrite Hd at 1. rewrite <- Hd'. by rewrite frames_on_app, <- app_assoc. }
    rewrite Hd'. cbn [map_pages]. rewrite Ekept in Hp.
    destruct (map_page_ok s k g (frames_on view0 (drop k (pages_from s n)) ++ held) Hs) with (m := m) (tabs := tabs)
      as (r & m1 & E1 & Hr); [unfold PAGE_SIZE in *; lia|by apply (pr_fresh _ _ _ _ _ Hp)|done|].
    unfold sbind at 1. rewrite E1. destruct r as [[]|e| |]; [|..|done|done].
    + destruct Hr as (g1 & tabs1 & Hp1). rewrite <- Ekept in Hp1. by apply (IH m1 (S k) g1 tabs1); [lia|].
    + destruct Hr as (tabs1 & Hm1). exists (Err e), m1. split; [done|]. by exists k, tabs1.
Qed.

End mapping.

(** The first page and the number of pages of a byte range. *)
Definition first_page (va : Z) : Z := va / PAGE_SIZE * PAGE_SIZE.
Definition page_count (va size : Z) : nat := Z.to_nat ((page_up (va + size) - first_page va) / PAGE_SIZE).
Definition pages_of (va size : Z) : list Z := pages_from (first_page va) (page_count va size).

Lemma page_count_exact va size : 0 <= va -> 0 < size ->
  first_page va + Z.of_nat (page_count va size) * PAGE_SIZE = page_up (va + size) /\
  (0 < page_count va size)%nat /\ user_page (first_page va) \/ USER_END <= va.
Proof.
  intros Hva Hsz. destruct (Z.le_gt_cases USER_END va); [by right|left].
  destruct (page_up_divide (va + size)) as [y Hy]. pose proof (page_up_bounds (va + size)) as [Hup _].
  pose proof (page_down_bounds va) as Hd. unfold page_count, first_page. rewrite Hy in *.
  rewrite <- Z.mul_sub_distr_r, Z.div_mul by (unfold PAGE_SIZE; lia).
  assert (0 <= va / PAGE_SIZE) by (apply Z.div_pos; [done|unfold PAGE_SIZE; lia]).
  unfold PAGE_SIZE in *. split; [lia|]. split; [lia|]. split; [lia|apply Z.divide_factor_r].
Qed.

(** What a call of [map_virt_mem_region] does to a machine. *)
Definition mapped_or_undone (pml4 prot : Z) (m : Machine T) (view : Z -> option (Z * Z))
    (pages held : list Z) (r : result MapToError unit) (m' : Machine T) : Prop :=
  match r with
  | Ok _ => exists g tabs,
      fresh_for view pages g /\
      machine_ok m' pml4 (mapped_view prot view pages g) (omap g pages ++ tabs ++ frames_on view pages ++ held) /\
      (forall q f a, g q = Some f -> f <= a < f + PAGE_SIZE -> memory m' a = 0) /\
      (forall f a, f ∈ frames_on view pages ++ held -> f <= a < f + PAGE_SIZE -> memory m' a = memory m a)
  | Err _ => exists i tabs, (i < length pages)%nat /\
      machine_ok m' pml4 (unmapped (take i pages) view) (tabs ++ frames_on view (drop i pages) ++ held)
  | _ => False
  end.

Lemma map_region_ok pml4 prot m view va size held :
  has_flags prot PRESENT = true -> clean view -> 0 <= va -> 0 < size ->
  va + size + PAGE_SIZE <= USER_END ->
  machine_ok m pml4 view (frames_on view (pages_of va size) ++ held) ->
  exists r m', map_virt_mem_region USABLE pml4 va size prot m = (r, m') /\
    mapped_or_undone pml4 prot m view (pages_of va size) held r m'.
Proof.
  intros Hprot Hc Hva Hsz Hu Hm.
  destruct (page_count_exact va size Hva Hsz) as [(He & Hn & Hs)|]; [|unfold PAGE_SIZE in *; lia].
  pose proof (page_up_bounds (va + size)) as [Hup _]. pose proof (page_down_bounds va) as Hd.
  fold (first_page va) in Hd. unfold map_virt_mem_region.
  unfold sbind at 1, slift at 1. rewrite va_add_user by (unfold USER_END, PAGE_SIZE in *; lia).
  unfold sbind at 1, slift at 1. rewrite va_sub_user by (unfold USER_END, PAGE_SIZE in *; lia).
  rewrite (containing_is va) by done. fold (first_page va).
  rewrite (range_pages _ (page_count va size)) by (done || unfold PAGE_SIZE in *; lia).
  destruct (map_pages_ok pml4 prot view (memory m) Hprot Hc m (first_page va) (page_count va size) held Hs)
    with (j := page_count va size) (k := 0%nat) (g := fun _ : Z => @None Z) (tabs := @nil Z)
    as (r & m' & E & Hr); [unfold PAGE_SIZE in *; lia|lia| |].
  { split; [|..|done].
    - revert Hm. apply machine_view. intros q _. unfold mapped_view. cbn.
      destruct (view q) as [[f fl]|]; [|done]. rewrite decide_False; [done|]. by apply not_elem_of_nil.
    - intros q. split; [by intros [? ?]|]. intros [Hq _]. by apply elem_of_nil in Hq.
    - done. }
  rewrite drop_0 in E. exists r, m'. split; [exact E|]. destruct r as [[]|e| |]; [| |done|done].
  - destruct Hr as (g & tabs & [Hm' Hg Hz Hk]). exists g, tabs. by split_and!.
  - destruct Hr as (i & tabs & Hi & Hm'). exists i, tabs. unfold pages_of. rewrite length_pages_from.
    split; [done|]. pose proof (pages_from_drop (first_page va) _ i Hi) as Hd'.
    rewrite Hd' at 1. by rewrite take_app_length' by (by rewrite length_pages_from).
Qed.

End spec.
