(* ===== verification/ProcessMem.v ===== *)
(** * ProcessMem: the memory of a process, kernel/src/process/process_mem.rs

    The operations that map, unmap and track at once: the state is the process's layout and
    the machine of [UserMem]. *)

From Stdlib Require Import ZArith Lia.
From stdpp Require Import base tactics list option numbers.
From S2P Require Import Prelude FrameAlloc Regions UserMem.

Open Scope rust_scope.

Inductive ProcessMemoryError : Type :=
  | OutOfVirtualRange
  | MapTo (e : MapToError).

Section process_mem.
Context (USABLE : Z) {VA : VirtAddrApi} {PF : PageFlags} {T : Type} {PM : PageMapper USABLE T}.

Abbreviation Proc := (ProcessMemoryLayout * Machine T)%type.
Abbreviation MM := (stM Proc MapToError).
Abbreviation PrM := (stM Proc ProcessMemoryError).

Definition on_machine {A} (c : Z -> stM (Machine T) MapToError A) : MM A := fun '(p, m) =>
  let '(r, m') := c (top_page_table_phys p) m in (r, (p, m')).

(** [?] with [From<MapToError> for ProcessMemoryError]. *)
Definition map_err {A} (c : MM A) : PrM A := fun s =>
  let '(r, s') := c s in
  (match r with
   | Ok a => Ok a
   | Err e => Err (MapTo e)
   | Panic => Panic
   | OutOfFuel => OutOfFuel
   end, s').

(** A computation on the regions. *)
Definition on_regions {E} (f : list MappedMemoryRegion -> result E (list MappedMemoryRegion))
    : stM Proc E unit := fun '(p, m) =>
  match f (regions p) with
  | Ok l => (Ok tt, (set_regions l p, m))
  | Err e => (Err e, (p, m))
  | Panic => (Panic, (p, m))
  | OutOfFuel => (OutOfFuel, (p, m))
  end.

Definition map_owned_region (start size flags : Z) : MM unit :=
  if size =? 0 then sret tt else
  on_machine (fun top => map_virt_mem_region USABLE top start size flags) ;;;
  on_regions (track_region (mkRegion start size flags Owned)).

(** The loop of [map_frames] from page [page_index] on. *)
Fixpoint map_frames_loop (start flags : Z) (page_index : nat) (phys : list Z) : MM unit :=
  match phys with
  | [] => sret tt
  | frame_phys :: phys =>
      let! page_virt := slift (va_add start (Z.of_nat page_index * PAGE_SIZE)) in
      let! r := on_machine (fun top =>
        caught (map_specific_frame USABLE top page_virt frame_phys flags)) in
      match r with
      | Some error =>
          on_machine (fun top => unmap_user_region USABLE top
            (mkRegion start (Z.of_nat page_index * PAGE_SIZE) flags Borrowed)) ;;;
          serr error
      | None => map_frames_loop start flags (S page_index) phys
      end
  end.

Definition map_frames (start : Z) (phys : list Z) (flags : Z) (ownership : FrameOwnership) : MM unit :=
  sassert (start mod PAGE_SIZE =? 0) ;;;
  if bool_decide (phys = []) then sret tt else
  map_frames_loop start flags 0 phys ;;;
  on_regions (track_region (mkRegion start (zlen phys * PAGE_SIZE) flags ownership)).

Definition unmap_region (start size : Z) : MM bool :=
  sassert (start mod PAGE_SIZE =? 0) ;;;
  sassert ((0 <? size) && (size mod PAGE_SIZE =? 0)) ;;;
  let! range_end := slift (uadd start size) in
  let! p := (fun '(p, m) => (Ok p, (p, m))) in
  let! found := slift (position (region_contains start range_end) (regions p)) in
  match found with
  | None => sret false
  | Some region_index =>
      match regions p !! region_index with
      | None => spanic
      | Some region =>
          on_machine (fun top => unmap_user_region USABLE top
            (mkRegion start size (page_flags region) (frame_ownership region))) ;;;
          on_regions (split_region region_index start range_end) ;;;
          sret true
      end
  end.

Definition get_heap_end : PrM Z := fun '(p, m) => (Ok (heap_end p), (p, m)).

Definition set_heap_end (e : Z) : PrM unit := fun '(p, m) =>
  (Ok tt, (mkLayout (top_page_table_phys p) e (next_alloc_vaddr p) (regions p), m)).

Definition grow_heap (new_heap_end : Z) : PrM Z :=
  let! heap_end := get_heap_end in
  if new_heap_end <=? heap_end then sret heap_end else
  let! limit := slift (va_new PROCESS_HEAP_VIRT_END) in
  if limit <? new_heap_end then serr OutOfVirtualRange else
  let! bytes := slift (usub new_heap_end heap_end) in
  let! grow_by := slift (align_to_page_size bytes) in
  if grow_by =? 0 then sret heap_end else
  let protection_flags := Z.lor (Z.lor PRESENT WRITABLE) NO_EXECUTE in
  map_err (map_owned_region heap_end grow_by protection_flags) ;;;
  let! e := slift (va_add heap_end grow_by) in
  set_heap_end e ;;;
  sret e.

Definition allocate_heap (size : Z) : PrM Z :=
  if size =? 0 then get_heap_end else
  if PROCESS_HEAP_SIZE_BYTES <? size then serr OutOfVirtualRange else
  let! aligned_size := slift (align_to_page_size size) in
  let! old_heap_end := get_heap_end in
  let! new_heap_end := slift (va_add old_heap_end aligned_size) in
  grow_heap new_heap_end ;;;
  sret old_heap_end.

(** The loop of [free_address_space] over the tracked regions. *)
Fixpoint unmap_regions (top : Z) (l : list MappedMemoryRegion) : stM (Machine T) MapToError unit :=
  match l with
  | [] => sret tt
  | region :: l => unmap_user_region USABLE top region ;;; unmap_regions top l
  end.

End process_mem.
