(* ===== verification/AddressSpace.v ===== *)
(** * AddressSpace: making and freeing page tables, kernel/src/memory/usermem.rs

    [allocate_new_address_space] makes a top table that shares the kernel half;
    [free_user_tables] walks the user half and frees every table below it;
    [free_address_space] releases a whole process.  Tables are read with the [entry] of
    [PageMapper] and written with [set_entry]. *)

From Stdlib Require Import ZArith Lia.
From stdpp Require Import base tactics list option numbers.
From S2P Require Import Prelude FrameAlloc Regions RegionsSpec UserMem UserMemSpec ProcessMem.

Open Scope rust_scope.

Definition LEVEL_4_KERNEL_ENTRIES_START : Z := 256.
Definition LEVEL_4_KERNEL_ENTRIES_END : Z := 512.
Definition ENTRIES_PER_TABLE : Z := 512.

(** Writing an entry of a table: its address and flags, (0, 0) for [set_unused]. *)
Class TableWrites (T : Type) : Type := {
  set_entry : Z -> Z -> Z * Z -> T -> T;
}.

(** What the walk that frees tables relies on: clearing an entry changes no other entry
    into something new, and the frame of an address is page aligned. *)
Class ClearLaws (USABLE : Z) {VA : VirtAddrApi} (T : Type) {PM : PageMapper USABLE T} {TW : TableWrites T} : Prop := {
  clear_mono : forall (t : T) table i table' i',
    entry (set_entry table i (0, 0) t) table' i' = (0, 0) \/
    entry (set_entry table i (0, 0) t) table' i' = entry t table' i';
  entry_frame : forall (t : T) table i, (PAGE_SIZE | containing_address (entry t table i).1);
}.

(** Tables are arrays in memory. *)
Class TableLaws (USABLE : Z) (T : Type) {PM : PageMapper USABLE T} {TW : TableWrites T} : Prop := {
  set_entry_is : forall (t : T) table i e table' i',
    entry (set_entry table i e t) table' i' = if decide (table' = table /\ i' = i) then e else entry t table' i';
}.

Section address_space.
Context (USABLE : Z) {VA : VirtAddrApi} {PF : PageFlags} {T : Type} {PM : PageMapper USABLE T} {TW : TableWrites T}.

Abbreviation UM := (stM (Machine T) MapToError).

Definition read_entry (table i : Z) : UM (Z * Z) := fun m => (Ok (entry (tables m) table i), m).

Definition write_entry (table i : Z) (e : Z * Z) : UM unit := fun m =>
  (Ok tt, mkMachine (set_entry table i e (tables m)) (frames m) (memory m)).

(** A [for] loop over indices. *)
Fixpoint each (body : Z -> UM unit) (indices : list Z) : UM unit :=
  match indices with
  | [] => sret tt
  | i :: indices => body i ;;; each body indices
  end.

Definition all_entries : list Z := seqZ 0 ENTRIES_PER_TABLE.
Definition user_entries : list Z := seqZ 0 LEVEL_4_KERNEL_ENTRIES_START.
Definition kernel_entries : list Z :=
  seqZ LEVEL_4_KERNEL_ENTRIES_START (LEVEL_4_KERNEL_ENTRIES_END - LEVEL_4_KERNEL_ENTRIES_START).

Definition allocate_new_address_space (kernel_page_table_phys : Z) : UM Z :=
  let! new_table_frame := on_frames (allocate_frame USABLE) in
  match new_table_frame with
  | None => serr FrameAllocationFailed
  | Some top =>
      each (fun i => write_entry top i (0, 0)) all_entries ;;;
      each (fun i => let! e := read_entry kernel_page_table_phys i in write_entry top i e) kernel_entries ;;;
      sret top
  end.

(** The body of each of the three nested loops: skip what is no table, free what is
    below it, clear the entry and free the table. *)
Definition free_entry (free_below : Z -> UM unit) (table i : Z) : UM unit :=
  let! e := read_entry table i in
  if negb (is_table_entry e.2) then sret tt else
  free_below e.1 ;;;
  let! e := read_entry table i in
  write_entry table i (0, 0) ;;;
  on_frames (deallocate_frame (containing_address e.1)).

Definition is_unused (e : Z * Z) : bool := (e.1 =? 0) && (e.2 =? 0).

(** The assertion on a page table. *)
Definition check_unused (pt : Z) : UM unit := fun m =>
  sassert (forallb (fun i => is_unused (entry (tables m) pt i)) all_entries) m.

Definition free_pd (pd : Z) : UM unit := each (free_entry check_unused pd) all_entries.

Definition free_pdpt (pdpt : Z) : UM unit := each (free_entry free_pd pdpt) all_entries.

Definition free_user_tables (pml4 : Z) : UM unit := each (free_entry free_pdpt pml4) user_entries.

Definition free_pml4_frame (pml4 : Z) : UM unit :=
  sassert (pml4 mod PAGE_SIZE =? 0) ;;; on_frames (deallocate_frame (containing_address pml4)).

Definition free_address_space : stM (ProcessMemoryLayout * Machine T) MapToError unit := fun '(p, m) =>
  on_machine (fun pml4 =>
    if pml4 =? 0 then sret tt else
    unmap_regions USABLE pml4 (regions p) ;;;
    free_user_tables pml4 ;;;
    free_pml4_frame pml4) (p, m).

(** [ProcessMemoryLayout::new] *)
Definition new_memory_layout (kernel_page_table_phys : Z) : UM ProcessMemoryLayout :=
  let! top_page_table_phys := allocate_new_address_space kernel_page_table_phys in
  slift (with_page_table top_page_table_phys).

(** ** The tables below a table *)

Definition child (t : T) (table i : Z) : option Z :=
  let '(a, f) := entry t table i in if is_table_entry f then Some a else None.

(** Every table reached from the given entries, in the order in which they are freed. *)
Fixpoint below (t : T) (level : nat) (indices : list Z) (table : Z) : list Z :=
  match level with
  | O => []
  | S level => mjoin ((fun i => match child t table i with
      | Some a => below t level all_entries a ++ [a]
      | None => []
      end) <$> indices)
  end.

(** The page tables at the bottom map nothing. *)
Fixpoint leaves_unused (t : T) (level : nat) (indices : list Z) (table : Z) : Prop :=
  match level with
  | O => forall i, i ∈ indices -> entry t table i = (0, 0)
  | S level => forall i a, i ∈ indices -> child t table i = Some a -> leaves_unused t level all_entries a
  end.

End address_space.
