(* ===== verification/AddressSpaceSpec.v ===== *)
(** * AddressSpaceSpec: page tables are freed exactly once

    Over tables that are arrays in memory, freeing an address space whose tables form a
    tree gives back every table frame once and leaves the kernel half alone; a new address
    space is empty below the kernel half it shares. *)

From Stdlib Require Import ZArith Lia.
From stdpp Require Import base tactics list option numbers.
From S2P Require Import Prelude FrameAlloc Regions RegionsSpec UserMem UserMemSpec ProcessMem AddressSpace.

Open Scope rust_scope.

Section tree.
Context (USABLE : Z) {VA : VirtAddrApi} {VL : VirtAddrLaws} {PF : PageFlags} {PFL : PageFlagsLaws} {T : Type} {PM : PageMapper USABLE T}.

Abbreviation below := (below USABLE).
Abbreviation leaves_unused := (leaves_unused USABLE).
Abbreviation child := (child USABLE).

Lemma below_cons (t : T) l i indices table : below t (S l) (i :: indices) table =
  match child t table i with Some a => below t l all_entries a ++ [a] | None => [] end ++ below t (S l) indices table.
Proof. reflexivity. Qed.

Lemma child_in (t : T) l indices table i a : i ∈ indices -> child t table i = Some a ->
  a ∈ below t (S l) indices table /\ forall x, x ∈ below t l all_entries a -> x ∈ below t (S l) indices table.
Proof.
  intros Hi Hc. induction indices as [|j indices IH]; [by apply elem_of_nil in Hi|]. rewrite below_cons.
  apply elem_of_cons in Hi as [<-|Hi].
  - rewrite Hc. split; [|intros x Hx]; rewrite !elem_of_app, list_elem_of_singleton; auto.
  - destruct (IH Hi) as [H1 H2]. split; [|intros x Hx]; rewrite elem_of_app; auto.
Qed.

Lemma child_ext (t t' : T) table i : entry t' table i = entry t table i -> child t' table i = child t table i.
Proof. intros E. unfold AddressSpace.child. by rewrite E. Qed.

(** The tables below depend only on the entries of the table and of those tables. *)
Lemma below_ext (t t' : T) l : forall indices table,
  (forall i, i ∈ indices -> entry t' table i = entry t table i) ->
  (forall x i, x ∈ below t l indices table -> entry t' x i = entry t x i) ->
  below t' l indices table = below t l indices table.
Proof.
  induction l as [|l IH]; intros indices table Ht Hx; [done|]. cbn. f_equal. apply list_fmap_ext.
  intros k i Hk%list_elem_of_lookup_2. rewrite (child_ext t t' table i) by auto.
  destruct (child t table i) as [a|] eqn:Ec; [|done]. destruct (child_in t l indices table i a Hk Ec) as [H1 H2].
  f_equal. apply IH; auto.
Qed.

Lemma leaves_ext (t t' : T) l : forall indices table,
  (forall i, i ∈ indices -> entry t' table i = entry t table i) ->
  (forall x i, x ∈ below t l indices table -> entry t' x i = entry t x i) ->
  leaves_unused t l indices table -> leaves_unused t' l indices table.
Proof.
  induction l as [|l IH]; intros indices table Ht Hx; cbn [AddressSpace.leaves_unused].
  - intros Hl i Hi. rewrite Ht by done. auto.
  - intros Hl i a Hi Hc. rewrite (child_ext t t' table i) in Hc by auto.
    destruct (child_in t l indices table i a Hi Hc) as [H1 H2]. apply IH; eauto.
Qed.

Lemma unused_no_table : is_table_entry 0 = false.
Proof.
  unfold is_table_entry, has_flags. rewrite Z.land_0_l, (proj2 (Z.eqb_neq _ _)); [done|].
  symmetry. apply present_nonzero.
Qed.

(** The frames held, in a memory map that is in order. *)
Record owns (m : Machine T) (held : list Z) : Prop := {
  ow_sane : sane USABLE (memory_map (frames m));
  ow_holds : holds USABLE (frames m) held;
}.

Lemma owns_perm m held held' : held ≡ₚ held' -> owns m held -> owns m held'.
Proof. intros Hp [Hs Hh]. split; [done|]. by eapply holds_perm. Qed.

Lemma owns_dealloc m f held : owns m (f :: held) ->
  (PAGE_SIZE | f) /\ exists m', on_frames (T:=T) (deallocate_frame f) m = (Ok tt, m') /\
    tables m' = tables m /\ memory m' = memory m /\ owns m' held.
Proof.
  intros [Hs Hh]. split; [by eapply (holds_fresh USABLE)|].
  destruct (deallocate_does USABLE _ [] f held Hs Hh) as (a & E & Em & Hr).
  exists (mkMachine (tables m) a (memory m)). unfold on_frames. rewrite E. split_and!; try done. split; [|done].
  cbn. by rewrite Em.
Qed.

Context {TW : TableWrites T} {TL : TableLaws USABLE T}.

Lemma containing_table a : 0 <= a -> (PAGE_SIZE | a) -> containing_address a = a.
Proof. intros H0 [x ->]. rewrite containing_is by done. rewrite Z.div_mul by (unfold PAGE_SIZE; lia). done. Qed.

Lemma owns_positive m f held : owns m (f :: held) -> 0 <= f.
Proof.
  intros [Hs Hh]. destruct (holds_facts USABLE _ _ Hs Hh) as [_ Hf].
  destruct (Hf f) as (_ & i & r & Hr & _ & Hb & _); [apply elem_of_app; right; apply list_elem_of_here|].
  pose proof (sane_bounds _ _ Hs) as Hb2. rewrite list.Forall_forall in Hb2.
  specialize (Hb2 r (list_elem_of_lookup_2 _ _ _ Hr)). lia.
Qed.

(** A walk over the tables below [table] that frees what is below it. *)
Definition frees (l : nat) (walk : Z -> stM (Machine T) MapToError unit) : Prop := forall m table held,
  NoDup (table :: below (tables m) l all_entries table) -> leaves_unused (tables m) l all_entries table ->
  owns m (below (tables m) l all_entries table ++ held) ->
  exists m', walk table m = (Ok tt, m') /\ memory m' = memory m /\ owns m' held /\
    forall x i, (x ∉ table :: below (tables m) l all_entries table) -> entry (tables m') x i = entry (tables m) x i.

(** One entry: what is below it is freed and the entry cleared. *)
Lemma free_entry_ok l walk m table i a held : frees l walk -> child (tables m) table i = Some a ->
  NoDup (table :: below (tables m) l all_entries a ++ [a]) -> leaves_unused (tables m) l all_entries a ->
  owns m (below (tables m) l all_entries a ++ a :: held) ->
  exists m', free_entry USABLE walk table i m = (Ok tt, m') /\ memory m' = memory m /\ owns m' held /\
    entry (tables m') table i = (0, 0) /\
    forall x j, (x ∉ below (tables m) l all_entries a ++ [a]) -> ~ (x = table /\ j = i) ->
      entry (tables m') x j = entry (tables m) x j.
Proof.
  intros Hw Hc Hn Hl Ho. pose proof (NoDup_cons_1_1 _ _ Hn) as Htab. pose proof (NoDup_cons_1_2 _ _ Hn) as Hna.
  rewrite <- Permutation_cons_append in Hna.
  destruct (Hw m a (a :: held) Hna Hl Ho) as (m1 & E1 & Em1 & Ho1 & Hk1). unfold free_entry.
  unfold sbind at 1, read_entry at 1. unfold AddressSpace.child in Hc. destruct (entry (tables m) table i) as [b f] eqn:Ee.
  cbn [fst snd]. destruct (is_table_entry f); [injection Hc as ->|done]. cbn [negb].
  unfold sbind at 1. rewrite E1. unfold sbind at 1, read_entry at 1.
  rewrite Hk1, Ee; [|rewrite Permutation_cons_append; exact Htab]. cbn [fst].
  destruct (owns_dealloc m1 a held Ho1) as [Ha _]. rewrite (containing_table a) by (done || by eapply owns_positive).
  unfold sbind at 1, write_entry at 1. set (m2 := mkMachine _ _ _).
  destruct (owns_dealloc m2 a held) as (_ & m3 & E3 & Et3 & Em3 & Ho3); [by destruct Ho1|].
  exists m3. split; [exact E3|]. split; [by rewrite Em3|]. split; [done|]. rewrite Et3. unfold m2. cbn [tables]. split.
  - rewrite set_entry_is, decide_True by done. done.
  - intros x j Hx Hxi. rewrite set_entry_is, decide_False by done. apply Hk1.
    by rewrite Permutation_cons_append.
Qed.

Lemma each_free l walk : frees l walk -> forall indices m table held, NoDup indices ->
  NoDup (table :: below (tables m) (S l) indices table) -> leaves_unused (tables m) (S l) indices table ->
  owns m (below (tables m) (S l) indices table ++ held) ->
  exists m', each (free_entry USABLE walk table) indices m = (Ok tt, m') /\ memory m' = memory m /\ owns m' held /\
    (forall x i, (x ∉ table :: below (tables m) (S l) indices table) -> entry (tables m') x i = entry (tables m) x i) /\
    (forall i, i ∈ indices -> child (tables m') table i = None) /\
    (forall i, (i ∉ indices) -> entry (tables m') table i = entry (tables m) table i).
Proof.
  intros Hw indices. induction indices as [|i indices IH]; intros m table held Hni Hn Hl Ho.
  { exists m. split_and!; try done. intros i Hi. by apply elem_of_nil in Hi. }
  pose proof (NoDup_cons_1_1 _ _ Hni) as Hi. apply NoDup_cons_1_2 in Hni. rewrite below_cons in *.
  assert (Hstep : exists m1, free_entry USABLE walk table i m = (Ok tt, m1) /\ memory m1 = memory m /\
    owns m1 (below (tables m) (S l) indices table ++ held) /\ child (tables m1) table i = None /\
    (forall x j, (x ∉ match child (tables m) table i with Some a => below (tables m) l all_entries a ++ [a] | None => [] end) ->
      ~ (x = table /\ j = i) -> entry (tables m1) x j = entry (tables m) x j)).
  { destruct (child (tables m) table i) as [a|] eqn:Ec.
    - destruct (free_entry_ok l walk m table i a (below (tables m) (S l) indices table ++ held) Hw Ec)
        as (m1 & E1 & Em1 & Ho1 & Hc1 & Hk1).
      + rewrite app_comm_cons in Hn. by apply list.NoDup_app in Hn as (Hn & _).
      + apply (Hl i a); [apply list_elem_of_here|done].
      + revert Ho. apply owns_perm. by rewrite <- !app_assoc.
      + exists m1. split_and!; try done. unfold AddressSpace.child. by rewrite Hc1, unused_no_table.
    - exists m. split_and!; try done. unfold free_entry, sbind at 1, read_entry at 1. unfold AddressSpace.child in Ec.
      destruct (entry (tables m) table i) as [b f]. cbn [fst snd]. by destruct (is_table_entry f). }
  destruct Hstep as (m1 & E1 & Em1 & Ho1 & Hc1 & Hk1). set (freed := match child _ _ i with Some _ => _ | None => _ end) in *.
  pose proof (NoDup_cons_1_1 _ _ Hn) as Htab. apply NoDup_cons_1_2 in Hn. rewrite elem_of_app in Htab.
  apply list.NoDup_app in Hn as (_ & Hdis & Hn).
  assert (Hsame : (forall j, j ∈ indices -> entry (tables m1) table j = entry (tables m) table j) /\
    (forall x j, x ∈ below (tables m) (S l) indices table -> entry (tables m1) x j = entry (tables m) x j)).
  { split; intros; apply Hk1; intuition (subst; eauto). }
  assert (Hb : below (tables m1) (S l) indices table = below (tables m) (S l) indices table) by (apply below_ext; apply Hsame).
  destruct (IH m1 table held Hni) as (m' & E' & Em' & Ho' & Hk' & Hc' & Hs').
  - rewrite Hb. constructor; [tauto|done].
  - apply (leaves_ext (tables m)); [apply Hsame..|]. intros j a Hj. apply Hl, elem_of_cons. by right.
  - by rewrite Hb.
  - exists m'. split; [cbn [each]; unfold sbind at 1; rewrite E1; exact E'|]. split; [congruence|]. split; [done|]. split_and!.
    + intros x j Hx. rewrite elem_of_cons, elem_of_app in Hx. rewrite Hk', Hk1; [done|tauto|tauto|].
      rewrite Hb, elem_of_cons. tauto.
    + intros j [->|Hj]%elem_of_cons; [|by apply Hc']. by rewrite (child_ext (tables m1)) by auto.
    + intros j Hj. apply not_elem_of_cons in Hj as [Hj1 Hj2]. rewrite Hs', Hk1; [done|tauto|tauto|done].
Qed.

(** *** The levels *)

Lemma NoDup_entries n m : NoDup (seqZ n m).
Proof. apply NoDup_seqZ. Qed.

Lemma frees_pt : frees 0 (check_unused USABLE).
Proof.
  intros m table held _ Hl Ho. exists m. unfold check_unused, sassert.
  replace (forallb _ _) with true; [by split_and!|]. symmetry. apply List.forallb_forall. intros i Hi.
  apply list_elem_of_In in Hi. by rewrite (Hl i Hi).
Qed.

Lemma frees_level l walk : frees l walk -> frees (S l) (fun table => each (free_entry USABLE walk table) all_entries).
Proof.
  intros Hw m table held Hn Hl Ho. destruct (each_free l walk Hw all_entries m table held) as (m' & E & Em & Ho' & Hk & _);
    [apply NoDup_entries|done..|]. by exists m'.
Qed.

(** ** The pages of the user half *)

Definition page_at (i3 i2 i1 i0 : Z) : Z := (((i3 * 512 + i2) * 512 + i1) * 512 + i0) * PAGE_SIZE.

Lemma page_index_at (level q k i : Z) : 0 <= level -> 0 <= i < 512 -> q = k * 512 + i ->
  forall r, 0 <= r < 2 ^ (12 + 9 * level) -> page_index level (q * 2 ^ (12 + 9 * level) + r) = i.
Proof.
  intros Hl Hi -> r Hr. unfold page_index. change 0x1FF with (Z.ones 9). rewrite Z.shiftr_div_pow2, Z.land_ones by lia.
  rewrite Z.add_comm, Z.div_add, Z.div_small by lia. change (2 ^ 9) with 512.
  rewrite Z.add_0_l, Z.add_comm, Z.mod_add by lia. by apply Z.mod_small.
Qed.

Lemma page_at_indices i3 i2 i1 i0 : 0 <= i3 < 256 -> 0 <= i2 < 512 -> 0 <= i1 < 512 -> 0 <= i0 < 512 ->
  let q := page_at i3 i2 i1 i0 in
  user_page q /\ page_index 3 q = i3 /\ page_index 2 q = i2 /\ page_index 1 q = i1 /\ page_index 0 q = i0.
Proof.
  intros H3 H2 H1 H0 q. unfold q, page_at, PAGE_SIZE. split_and!.
  - split; [unfold USER_END, PAGE_SIZE; lia|apply Z.divide_factor_r].
  - rewrite <- (page_index_at 3 i3 0 i3 ltac:(lia) ltac:(lia) ltac:(lia) ((i2 * 512 + i1) * 512 * 4096 + i0 * 4096)) at 2;
      [f_equal; lia|lia].
  - rewrite <- (page_index_at 2 (i3 * 512 + i2) i3 i2 ltac:(lia) ltac:(lia) ltac:(lia) (i1 * 512 * 4096 + i0 * 4096)) at 2;
      [f_equal; lia|lia].
  - rewrite <- (page_index_at 1 ((i3 * 512 + i2) * 512 + i1) (i3 * 512 + i2) i1 ltac:(lia) ltac:(lia) ltac:(lia) (i0 * 4096)) at 2;
      [f_equal; lia|lia].
  - rewrite <- (page_index_at 0 (((i3 * 512 + i2) * 512 + i1) * 512 + i0) ((i3 * 512 + i2) * 512 + i1) i0 ltac:(lia) ltac:(lia) ltac:(lia) 0) at 2;
      [f_equal; lia|lia].
Qed.

Lemma child_entry (t : T) table i a : child t table i = Some a ->
  exists f, entry t table i = (a, f) /\ is_table_entry f = true.
Proof.
  unfold AddressSpace.child. destruct (entry t table i) as [b f]. destruct (is_table_entry f) eqn:E; [|done].
  intros [= <-]. by exists f.
Qed.

Lemma top_index q : user_page q -> page_index 3 q ∈ user_entries.
Proof.
  intros [Hq _]. apply elem_of_seqZ. unfold page_index, LEVEL_4_KERNEL_ENTRIES_START. change 0x1FF with (Z.ones 9).
  rewrite Z.land_ones, Z.shiftr_div_pow2 by lia. change (2 ^ 9) with 512. change (2 ^ (12 + 9 * 3)) with 549755813888.
  unfold USER_END in Hq. pose proof (Z.div_pos q 549755813888). pose proof (Z.div_lt_upper_bound q 549755813888 256).
  rewrite Z.mod_small; lia.
Qed.

(** When no user page is mapped the page tables are empty. *)
Lemma unmapped_leaves (t : T) top : (forall q, user_page q -> mapping USABLE t top q = None) ->
  leaves_unused t 3 user_entries top.
Proof.
  intros Hm. cbn. intros i3 pdpt H3%elem_of_seqZ E3%child_entry i2 pd H2%elem_of_seqZ E2%child_entry
    i1 pt H1%elem_of_seqZ E1%child_entry i0 H0%elem_of_seqZ.
  destruct E3 as (f3 & E3 & F3), E2 as (f2 & E2 & F2), E1 as (f1 & E1 & F1).
  unfold LEVEL_4_KERNEL_ENTRIES_START, ENTRIES_PER_TABLE in *.
  destruct (page_at_indices i3 i2 i1 i0) as (Hu & I3 & I2 & I1 & I0); [lia..|].
  specialize (Hm _ Hu). unfold mapping in Hm. rewrite I3, I2, I1, I0, E3, F3, E2, F2, E1, F1 in Hm. cbn [negb] in Hm.
  destruct (entry t pt i0) as [frame f0]. destruct ((frame =? 0) && (f0 =? 0)) eqn:E; [|done].
  apply andb_true_iff in E as [->%Z.eqb_eq ->%Z.eqb_eq]. done.
Qed.

(** C15: once no user page is mapped, freeing the tables of an address space and its top
    table gives back each of these frames exactly once, whatever tables there are, and
    changes no entry of the kernel half and no table of anyone else. *)
Theorem tables_freed_once m top held :
  let tabs := below (tables m) 3 user_entries top in
  NoDup (top :: tabs) -> (forall q, user_page q -> mapping USABLE (tables m) top q = None) ->
  owns m (tabs ++ top :: held) ->
  exists m', (free_user_tables USABLE top ;;; free_pml4_frame (T:=T) top) m = (Ok tt, m') /\
    owns m' held /\ memory m' = memory m /\
    (forall i, i ∈ user_entries -> child (tables m') top i = None) /\
    (forall i, (i ∉ user_entries) -> entry (tables m') top i = entry (tables m) top i) /\
    (forall x i, (x ∉ top :: tabs) -> entry (tables m') x i = entry (tables m) x i).
Proof.
  intros tabs Hn Hm Ho.
  destruct (each_free 2 _ (frees_level 1 _ (frees_level 0 _ frees_pt)) user_entries m top (top :: held))
    as (m1 & E1 & Em1 & Ho1 & Hk1 & Hc1 & Hs1); [apply NoDup_entries|done|by apply unmapped_leaves|done|].
  destruct (owns_dealloc m1 top held Ho1) as [Ha (m2 & E2 & Et2 & Em2 & Ho2)].
  exists m2. split; [|rewrite Et2; split_and!; try done; congruence].
  unfold free_user_tables, free_pdpt, free_pd, sbind at 1. rewrite E1. unfold free_pml4_frame, sbind, sassert.
  rewrite (containing_table top) by (done || by eapply owns_positive).
  destruct Ha as [x ->]. rewrite Z.mod_mul by (unfold PAGE_SIZE; lia). exact E2.
Qed.

(** *** A new address space *)

Lemma each_write (e : Z -> Z * Z) top : forall indices (m : Machine T),
  exists m', each (fun i => write_entry top i (e i)) indices m = (Ok tt, m') /\
    frames m' = frames m /\ memory m' = memory m /\
    forall x j, entry (tables m') x j = if decide (x = top /\ j ∈ indices) then e j else entry (tables m) x j.
Proof.
  induction indices as [|i indices IH]; intros m.
  { exists m. split_and!; try done. intros x j. rewrite decide_False; [done|]. intros [_ Hj]. by apply elem_of_nil in Hj. }
  cbn [each]. unfold sbind at 1, write_entry at 1. set (m1 := mkMachine _ _ _).
  destruct (IH m1) as (m' & E & Ef & Em & Hx). exists m'. split_and!; try done. intros x j. rewrite Hx. unfold m1. cbn [tables].
  rewrite set_entry_is. destruct (decide (x = top /\ j ∈ indices)) as [[-> Hj]|Hn1].
  - rewrite decide_True; [done|]. split; [done|]. apply elem_of_cons. by right.
  - destruct (decide (x = top /\ j = i)) as [[-> ->]|Hn2].
    + rewrite decide_True; [done|]. split; [done|apply list_elem_of_here].
    + rewrite decide_False; [done|]. rewrite elem_of_cons. tauto.
Qed.

(** The copy of the kernel half reads a table it does not write. *)
Lemma each_copy kernel top (e : Z -> Z * Z) indices : kernel <> top -> forall m : Machine T,
  (forall i, entry (tables m) kernel i = e i) ->
  each (fun i => let! x := read_entry USABLE kernel i in write_entry top i x) indices m =
  each (fun i => write_entry top i (e i)) indices m.
Proof.
  intros Hne. induction indices as [|i indices IH]; intros m He; [done|]. cbn [each].
  unfold sbind, read_entry, write_entry. rewrite He. apply IH. intros j. cbn [tables].
  rewrite set_entry_is, decide_False; [apply He|tauto].
Qed.

(** A new address space takes one frame, or nothing when there is none; its user half
    is empty, its kernel half is the one of the kernel's table, and no other table
    changes. *)
Theorem new_address_space m kernel held : owns m held -> kernel ∈ held ->
  exists r m', allocate_new_address_space USABLE kernel m = (r, m') /\ memory m' = memory m /\
    match r with
    | Ok top => owns m' (top :: held) /\ (top ∉ held) /\
        below (tables m') 3 user_entries top = [] /\
        (forall q, user_page q -> mapping USABLE (tables m') top q = None) /\
        (forall i, i ∈ kernel_entries -> entry (tables m') top i = entry (tables m) kernel i) /\
        (forall x i, x <> top -> entry (tables m') x i = entry (tables m) x i)
    | Err e => e = FrameAllocationFailed /\ owns m' held /\ tables m' = tables m
    | _ => False
    end.
Proof.
  intros [Hs Hh] Hk. pose proof Hh as (n & Hb & Hp).
  destruct (allocate_does USABLE _ held n Hs Hb Hp) as (r & a & E & Em & Hr).
  assert (Hs' : sane USABLE (memory_map a)) by (by rewrite Em).
  unfold allocate_new_address_space, sbind at 1, on_frames. rewrite E.
  destruct r as [top|]; [|eexists _, _; split; [done|]; destruct Hr as (_ & _ & Hr); by split_and!].
  destruct Hr as [_ Hr]. pose proof (holds_fresh USABLE a top held Hs' Hr) as [Hf _].
  assert (Hne : kernel <> top) by (by intros ->). set (m1 := mkMachine _ _ _).
  destruct (each_write (fun _ => (0, 0)) top all_entries m1) as (m2 & E2 & Ef2 & Em2 & Hx2).
  unfold sbind at 1. rewrite E2. unfold sbind at 1.
  rewrite (each_copy kernel top (entry (tables m) kernel)); [|done|intros i; rewrite Hx2, decide_False; [done|tauto]].
  destruct (each_write (entry (tables m) kernel) top kernel_entries m2) as (m3 & E3 & Ef3 & Em3 & Hx3). rewrite E3.
  exists (Ok top), m3. split; [done|]. split; [by rewrite Em3, Em2|].
  assert (Hempty : forall i, i ∈ user_entries -> entry (tables m3) top i = (0, 0)).
  { intros i Hi. unfold user_entries in Hi. apply elem_of_seqZ in Hi. unfold LEVEL_4_KERNEL_ENTRIES_START in *.
    rewrite Hx3, decide_False, Hx2, decide_True; [done| |]; unfold all_entries, kernel_entries, ENTRIES_PER_TABLE,
      LEVEL_4_KERNEL_ENTRIES_END, LEVEL_4_KERNEL_ENTRIES_START; rewrite elem_of_seqZ; lia. }
  assert (Hch : forall i, i ∈ user_entries -> child (tables m3) top i = None).
  { intros i Hi. unfold AddressSpace.child. by rewrite Hempty, unused_no_table. }
  split; [|split; [exact Hf|split; [|split; [|split]]]].
  - split; rewrite Ef3, Ef2; [exact Hs'|exact Hr].
  - cbn [AddressSpace.below]. revert Hch. generalize user_entries as l. induction l as [|i l IH]; intros Hch; [reflexivity|]. cbn.
    rewrite Hch by apply list_elem_of_here. cbn. apply IH. intros j Hj. apply Hch, elem_of_cons. by right.
  - intros q Hq. unfold mapping. rewrite (Hempty _ (top_index q Hq)), unused_no_table. reflexivity.
  - intros i Hi. rewrite Hx3. apply decide_True. split; [reflexivity|exact Hi].
  - intros x i Hx. rewrite Hx3, decide_False, Hx2, decide_False; [reflexivity|tauto|tauto].
Qed.

End tree.

(** ** Freeing tables maps nothing *)

Section clearing.
Context (USABLE : Z) {VA : VirtAddrApi} {VL : VirtAddrLaws} {PF : PageFlags} {PFL : PageFlagsLaws} {T : Type} {PM : PageMapper USABLE T}.
Context {TW : TableWrites T} {CL : ClearLaws USABLE T}.

Abbreviation child := (child USABLE).
Abbreviation leaves_unused := (leaves_unused USABLE).

(** Some entries of [t] are cleared in [t']. *)
Definition cleared (t t' : T) : Prop :=
  forall table i, entry t' table i = (0, 0) \/ entry t' table i = entry t table i.

Lemma cleared_refl t : cleared t t.
Proof. intros table i. by right. Qed.

Lemma cleared_trans t1 t2 t3 : cleared t1 t2 -> cleared t2 t3 -> cleared t1 t3.
Proof. intros H1 H2 table i. destruct (H2 table i) as [?|E]; [by left|]. rewrite E. apply H1. Qed.

Lemma cleared_child t t' table i a : cleared t t' -> child t' table i = Some a -> child t table i = Some a.
Proof.
  intros Hc. unfold AddressSpace.child. destruct (Hc table i) as [-> | ->]; [|done].
  by rewrite unused_no_table.
Qed.

Lemma cleared_leaves t t' l : cleared t t' -> forall indices table,
  leaves_unused t l indices table -> leaves_unused t' l indices table.
Proof.
  intros Hc. induction l as [|l IH]; intros indices table; cbn [AddressSpace.leaves_unused].
  - intros Hl i Hi. destruct (Hc table i) as [?|E]; [done|]. rewrite E. auto.
  - intros Hl i a Hi Ha. eapply IH, Hl; [done|]. by eapply cleared_child.
Qed.

Lemma cleared_mapping t t' top q : cleared t t' -> mapping USABLE t top q = None -> mapping USABLE t' top q = None.
Proof.
  intros Hc. unfold mapping.
  destruct (Hc top (page_index 3 q)) as [-> | ->]; [by rewrite unused_no_table|].
  destruct (entry t top _) as [pdpt f4]. destruct (is_table_entry f4); [|done]. cbn [negb].
  destruct (Hc pdpt (page_index 2 q)) as [-> | ->]; [by rewrite unused_no_table|].
  destruct (entry t pdpt _) as [pd f3]. destruct (is_table_entry f3); [|done]. cbn [negb].
  destruct (Hc pd (page_index 1 q)) as [-> | ->]; [by rewrite unused_no_table|].
  destruct (entry t pd _) as [pt f2]. destruct (is_table_entry f2); [|done]. cbn [negb].
  by destruct (Hc pt (page_index 0 q)) as [-> | ->].
Qed.

(** A walk that returns and only clears entries. *)
Definition clears (l : nat) (walk : Z -> stM (Machine T) MapToError unit) : Prop := forall m table,
  leaves_unused (tables m) l all_entries table ->
  exists m', walk table m = (Ok tt, m') /\ cleared (tables m) (tables m').

Lemma dealloc_aligned (m : Machine T) a : (PAGE_SIZE | a) ->
  exists m', on_frames (T:=T) (deallocate_frame a) m = (Ok tt, m') /\ tables m' = tables m.
Proof.
  intros [x ->]. unfold on_frames, deallocate_frame, sbind, sassert.
  rewrite Z.mod_mul by (unfold PAGE_SIZE; lia). by eexists.
Qed.

Lemma each_clears l walk table : clears l walk -> forall indices m,
  leaves_unused (tables m) (S l) indices table ->
  exists m', each (free_entry USABLE walk table) indices m = (Ok tt, m') /\ cleared (tables m) (tables m').
Proof.
  intros Hw. induction indices as [|i indices IH]; intros m Hl.
  { exists m. split; [done|apply cleared_refl]. }
  assert (Hstep : exists m1, free_entry USABLE walk table i m = (Ok tt, m1) /\ cleared (tables m) (tables m1)).
  { unfold free_entry, sbind at 1, read_entry at 1. pose proof (Hl i) as Hi. unfold AddressSpace.child in Hi.
    destruct (entry (tables m) table i) as [a f]. cbn [fst snd].
    destruct (is_table_entry f); cbn [negb]; [|exists m; split; [done|apply cleared_refl]].
    destruct (Hw m a) as (m1 & E1 & Hc1); [by apply Hi; [apply list_elem_of_here|]|].
    unfold sbind at 1. rewrite E1. unfold sbind at 1, read_entry at 1. unfold sbind at 1, write_entry at 1.
    set (m2 := mkMachine _ _ _).
    destruct (dealloc_aligned m2 _ (entry_frame (tables m1) table i)) as (m3 & E3 & Et3). exists m3.
    split; [exact E3|]. rewrite Et3. apply (cleared_trans _ (tables m1)); [done|]. intros x j. apply clear_mono. }
  destruct Hstep as (m1 & E1 & Hc1). destruct (IH m1) as (m' & E' & Hc').
  { apply (cleared_leaves _ _ _ Hc1). intros j a Hj. apply Hl, elem_of_cons. by right. }
  exists m'. split; [|by eapply cleared_trans]. cbn [each]. unfold sbind. rewrite E1. exact E'.
Qed.

Lemma clears_pt : clears 0 (check_unused USABLE).
Proof.
  intros m table Hl. exists m. split; [|apply cleared_refl]. unfold check_unused, sassert.
  replace (forallb _ _) with true; [done|]. symmetry. apply List.forallb_forall. intros i Hi.
  apply list_elem_of_In in Hi. by rewrite (Hl i Hi).
Qed.

Lemma clears_level l walk : clears l walk -> clears (S l) (fun table => each (free_entry USABLE walk table) all_entries).
Proof. intros Hw m table Hl. by apply (each_clears l walk table Hw). Qed.

(** Freeing the tables of a space without mapped pages returns, and nothing gets mapped. *)
Lemma free_tables_unmapped (m : Machine T) top : 0 <= top -> (PAGE_SIZE | top) ->
  (forall q, user_page q -> mapping USABLE (tables m) top q = None) ->
  exists m', (free_user_tables USABLE top ;;; free_pml4_frame (T:=T) top) m = (Ok tt, m') /\
    forall q, user_page q -> mapping USABLE (tables m') top q = None.
Proof.
  intros H0 Ha Hm. destruct (each_clears 2 _ top (clears_level 1 _ (clears_level 0 _ clears_pt)) user_entries m)
    as (m1 & E1 & Hc1); [by apply unmapped_leaves|].
  destruct (dealloc_aligned m1 top Ha) as (m2 & E2 & Et2). exists m2. split.
  - unfold free_user_tables, free_pdpt, free_pd, sbind at 1. rewrite E1. unfold free_pml4_frame, sbind, sassert.
    rewrite (containing_table top H0 Ha). destruct Ha as [x ->]. rewrite Z.mod_mul by (unfold PAGE_SIZE; lia). exact E2.
  - intros q Hq. rewrite Et2. by eapply cleared_mapping, Hm.
Qed.

End clearing.

(** ** A small address space *)

Definition RawTables : Type := Z -> Z -> Z * Z.

(** Tables in memory.  Nothing here maps pages, so those calls of the crate refuse. *)
#[export] Instance raw_mapper USABLE : PageMapper USABLE RawTables :=
  {| entry t := t;
     map_to _ _ _ _ '(t, a) := (Err FrameAllocationFailed, (t, a));
     unmap _ _ t := (None, t);
     update_flags _ _ _ t := (false, t);
     range_inclusive s e := [] |}.

#[export] Instance raw_writes : TableWrites RawTables :=
  {| set_entry table i e t x j := if decide (x = table /\ j = i) then e else t x j |}.

#[export] Instance raw_laws USABLE : TableLaws USABLE RawTables.
Proof. split. reflexivity. Qed.

#[local] Instance bit_flags : PageFlags :=
  {| PRESENT := 1; WRITABLE := 2; USER_ACCESSIBLE := 4; NO_EXECUTE := 2 ^ 63; HUGE_PAGE := 128 |}.

#[local] Instance bit_flags_laws : PageFlagsLaws.
Proof. split; [discriminate|reflexivity]. Qed.

(** The top table 4096 leads through 8192 and 12288 to the page table 16384; 20480 is the
    kernel's top table. *)
Definition demo_tables : RawTables := fun x i =>
  if (x =? 4096) && (i =? 0) then (8192, 1) else
  if (x =? 8192) && (i =? 5) then (12288, 1) else
  if (x =? 12288) && (i =? 511) then (16384, 1) else
  if (x =? 20480) && (i =? 256) then (24576, 3) else (0, 0).

Definition demo_space : Machine RawTables :=
  mkMachine demo_tables (mkAllocator [mkEntry 4096 40960 0] 0 20480 []) (fun _ => 7).

Lemma demo_space_owns : owns 0 demo_space [16384; 12288; 8192; 4096; 20480].
Proof.
  split.
  - split; [repeat constructor; cbn; lia|]. intros [|i] [|j] r s Hij Hr Hs; cbn in *; simplify_eq; by destruct i || destruct j.
  - exists 5%nat. split; [exists 5%nat; vm_compute; repeat split; lia|]. vm_compute.
    change [4096; 8192; 12288; 16384; 20480] with ([4096; 8192; 12288; 16384] ++ [20480]).
    change [16384; 12288; 8192; 4096; 20480] with (rev [4096; 8192; 12288; 16384] ++ [20480]).
    by rewrite <- (Permutation_rev [4096; 8192; 12288; 16384]).
Defined.

Lemma demo_space_unmapped q : user_page q -> mapping 0 demo_tables 4096 q = None.
Proof.
  intros _. unfold mapping, entry, raw_mapper. unfold demo_tables at 1. cbn [Z.eqb Pos.eqb andb].
  destruct (page_index 3 q =? 0); [|done]. cbn. unfold demo_tables at 1. cbn [Z.eqb Pos.eqb andb].
  destruct (page_index 2 q =? 5); [|done]. cbn. unfold demo_tables at 1. cbn [Z.eqb Pos.eqb andb].
  destruct (page_index 1 q =? 511); [|done]. done.
Qed.

Example demo_below : below 0 demo_tables 3 user_entries 4096 = [16384; 12288; 8192].
Proof. vm_compute. reflexivity. Qed.

Example demo_freed : let '(r, m) := (free_user_tables 0 4096 ;;; free_pml4_frame (T:=RawTables) 4096) demo_space in
  r = Ok tt /\ free_list (frames m) = [16384; 12288; 8192; 4096].
Proof. vm_compute. split; reflexivity. Qed.

Lemma tables_freed_once_witness :
  exists m', (free_user_tables 0 4096 ;;; free_pml4_frame (T:=RawTables) 4096) demo_space = (Ok tt, m') /\ owns 0 m' [20480].
Proof.
  destruct (tables_freed_once 0 demo_space 4096 [20480]) as (m' & E & Ho & _).
  - cbn [tables demo_space]. rewrite demo_below. apply (bool_decide_unpack (NoDup [4096; 16384; 12288; 8192])). vm_compute. exact I.
  - exact demo_space_unmapped.
  - cbn [tables demo_space]. rewrite demo_below. exact demo_space_owns.
  - exists m'. split; [exact E|exact Ho].
Defined.

Lemma new_address_space_witness :
  exists r m', allocate_new_address_space 0 20480 demo_space = (r, m') /\
    match r with
    | Ok top => (forall i, i ∈ kernel_entries -> tables m' top i = demo_tables 20480 i)
    | Err e => e = FrameAllocationFailed
    | _ => False
    end.
Proof.
  destruct (new_address_space 0 demo_space 20480 [16384; 12288; 8192; 4096; 20480] demo_space_owns) as (r & m' & E & _ & Hr).
  - do 4 (apply elem_of_cons; right). apply list_elem_of_here.
  - exists r, m'. split; [exact E|]. destruct r as [top|e| |]; [|apply Hr|exact Hr..].
    destruct Hr as (_ & _ & _ & _ & Hk & _). exact Hk.
Defined.
