(* ===== verification/ProcessMemSpec.v ===== *)
(** * ProcessMemSpec: the memory of a process stays accounted for

    [proc_ok]: the regions are tidy and apart, a page of the user half is mapped exactly
    when a region covers it, and the process holds exactly the frames of its owned
    regions.  Every operation on a range that is not in use keeps this, when it fails as
    well, and unmapping the regions gives every frame back. *)

From Stdlib Require Import ZArith Lia Sorted.
From stdpp Require Import base tactics list option numbers sorting.
From S2P Require Import Prelude FrameAlloc Regions RegionsSpec UserMem UserMemSpec ProcessMem.

Open Scope rust_scope.

(** ** The pages of regions *)

Definition region_pages (r : MappedMemoryRegion) : list Z :=
  pages_from (start_virt r) (Z.to_nat (size_bytes r / PAGE_SIZE)).

Definition owned_pages (l : list MappedMemoryRegion) : list Z :=
  mjoin ((fun r => if bool_decide (frame_ownership r = Owned) then region_pages r else []) <$> l).

Lemma elem_of_region_pages r q : good r -> q ∈ region_pages r <-> (PAGE_SIZE | q) /\ in_region r q.
Proof.
  intros [H0 Hs He [x Hx] [y Hy]]. unfold region_pages, in_region. rewrite elem_of_pages_from, Hy, Hx.
  rewrite Z.div_mul by (unfold PAGE_SIZE; lia). unfold PAGE_SIZE in *. split.
  - intros (k & Hk & ->). split; [|lia]. exists (x + Z.of_nat k). lia.
  - intros [[z ->] Hz]. exists (Z.to_nat (z - x)). lia.
Qed.

Lemma elem_of_owned_pages l q : Forall good l ->
  q ∈ owned_pages l <-> (PAGE_SIZE | q) /\ exists f, covers l q f Owned.
Proof.
  induction 1 as [|r l Hr Hl IH].
  { split; [intros Hq; by apply elem_of_nil in Hq|]. intros (_ & f & Hc). by apply covers_nil in Hc. }
  unfold owned_pages. cbn [fmap list_fmap mjoin list_join]. fold (owned_pages l).
  rewrite elem_of_app, IH. split.
  - intros [Hq|[Hd [f Hc]]]; [|split; [done|]; exists f; apply covers_cons; by right].
    case_bool_decide as Ho; [|by apply elem_of_nil in Hq].
    apply elem_of_region_pages in Hq as [Hd Hq]; [|done]. split; [done|].
    exists (page_flags r). apply covers_cons. by left.
  - intros (Hd & f & [(Hq & _ & Ho)|Hc]%covers_cons); [left|right; split; [done|by exists f]].
    rewrite bool_decide_eq_true_2 by done. by apply elem_of_region_pages.
Qed.

Lemma NoDup_owned_pages l : Forall good l -> apart l -> NoDup (owned_pages l).
Proof.
  intros Hg Hs. induction Hs as [|r l Hs IH Hr]; [constructor|].
  apply Forall_cons in Hg as [Hgr Hg]. unfold owned_pages. cbn [fmap list_fmap mjoin list_join].
  fold (owned_pages l). apply list.NoDup_app. split_and!; [|intros q Hq Hl|by apply IH].
  - case_bool_decide; [apply pages_from_NoDup|constructor].
  - case_bool_decide; [|by apply elem_of_nil in Hq].
    apply elem_of_region_pages in Hq as [_ Hq]; [|done].
    apply elem_of_owned_pages in Hl as (_ & f & x & Hx & Hqx & _); [|done].
    rewrite list.Forall_forall in Hr. specialize (Hr x Hx). unfold in_region in *. lia.
Qed.

Lemma elem_of_pages_of va size q : 0 <= va -> 0 < size -> va < USER_END ->
  q ∈ pages_of va size <-> (PAGE_SIZE | q) /\ page_range va size q.
Proof.
  intros Hva Hsz Hu. destruct (page_count_exact va size Hva Hsz) as [(He & Hn & Hs)|]; [|lia].
  unfold pages_of, page_range. fold (first_page va). rewrite elem_of_pages_from, <- He.
  destruct Hs as [_ [x Hx]]. rewrite Hx in *. unfold PAGE_SIZE in *. split.
  - intros (k & Hk & ->). split; [|lia]. exists (x + Z.of_nat k). lia.
  - intros [[z ->] Hz]. exists (Z.to_nat (z - x)). lia.
Qed.

Lemma frames_on_none view l : (forall q, q ∈ l -> view q = None) -> frames_on view l = [].
Proof.
  induction l as [|q l IH]; intros Hv; [done|]. rewrite frames_on_cons, Hv by apply list_elem_of_here.
  apply IH. intros x Hx. apply Hv, elem_of_cons. by right.
Qed.

Lemma frames_on_perm view l l' : l ≡ₚ l' -> frames_on view l ≡ₚ frames_on view l'.
Proof. intros Hp. unfold frames_on. by rewrite Hp. Qed.

Section spec.
Context (USABLE : Z) {VA : VirtAddrApi} {VL : VirtAddrLaws} {PF : PageFlags} {PFL : PageFlagsLaws}.
Context {T : Type} {PM : PageMapper USABLE T} {PL : PageMapperLaws USABLE T}.

Abbreviation Proc := (ProcessMemoryLayout * Machine T)%type.

(** The process maps what it tracks and holds what it owns; [others] are the frames held
    elsewhere, its page tables among them. *)
Record proc_ok (s : Proc) (view : Z -> option (Z * Z)) (others : list Z) : Prop := {
  po_tidy : tidy (regions s.1);
  po_apart : apart (regions s.1);
  po_clean : clean view;
  po_mapped : forall q, user_page q -> is_Some (view q) <-> exists f o, covers (regions s.1) q f o;
  po_machine : machine_ok USABLE s.2 (top_page_table_phys s.1) view
    (frames_on view (owned_pages (regions s.1)) ++ others);
}.

(** The pages of the range are in no region. *)
Definition unused (l : list MappedMemoryRegion) (va size : Z) : Prop :=
  forall a f o, page_range va size a -> ~ covers l a f o.

Lemma range_user va size q : 0 <= va -> va + size + PAGE_SIZE <= USER_END ->
  (PAGE_SIZE | q) -> page_range va size q -> user_page q.
Proof.
  intros Hva Hu Hd Hr. unfold page_range in Hr. pose proof (page_up_bounds (va + size)) as [Hup _].
  pose proof (Z.div_pos va PAGE_SIZE). unfold user_page, PAGE_SIZE in *. split; [lia|done].
Qed.

Lemma unused_views s view others va size : proc_ok s view others ->
  0 <= va -> 0 < size -> va + size + PAGE_SIZE <= USER_END -> unused (regions s.1) va size ->
  forall q, q ∈ pages_of va size -> view q = None.
Proof.
  intros [Ht _ _ Hm _] Hva Hsz Hu Hn q Hq.
  apply elem_of_pages_of in Hq as [Hd Hr]; [|done..|unfold PAGE_SIZE in *; lia].
  destruct (view q) eqn:Ev; [|done]. exfalso.
  destruct (proj1 (Hm q (range_user va size q Hva Hu Hd Hr))) as (f & o & Hc); [by rewrite Ev|by apply (Hn q f o)].
Qed.

(** Tracking a range whose pages are new: what the process owns afterwards. *)
Lemma owned_after l l' va size flags o :
  tidy l -> apart l -> tidy l' -> apart l' -> 0 <= va -> 0 < size -> va < USER_END -> unused l va size ->
  (forall a f o', covers l' a f o' <-> covers l a f o' \/ (page_range va size a /\ flags = f /\ o = o')) ->
  owned_pages l' ≡ₚ (if bool_decide (o = Owned) then pages_of va size else []) ++ owned_pages l.
Proof.
  intros [Hg Hs] Ha [Hg' Hs'] Ha' Hva Hsz Hu Hn Hc.
  assert (Hin : forall q, q ∈ (if bool_decide (o = Owned) then pages_of va size else []) <->
    (PAGE_SIZE | q) /\ page_range va size q /\ o = Owned).
  { intros q. case_bool_decide; [rewrite elem_of_pages_of by done; tauto|].
    split; [intros Hq; by apply elem_of_nil in Hq|tauto]. }
  apply NoDup_Permutation; [by apply NoDup_owned_pages| |].
  - apply list.NoDup_app. split_and!; [case_bool_decide; [apply pages_from_NoDup|constructor]| |by apply NoDup_owned_pages].
    intros q Hq Hl. apply Hin in Hq as (_ & Hr & _).
    apply elem_of_owned_pages in Hl as (_ & f & Hl); [|done]. by apply (Hn q f Owned).
  - intros q. rewrite elem_of_app, Hin, !elem_of_owned_pages by done. split.
    + intros (Hd & f & [Hf|(Hr & _ & ->)]%Hc); [right; split; [done|by exists f]|by left].
    + intros [(Hd & Hr & ->)|(Hd & f & Hf)]; (split; [done|]); [exists flags|exists f]; apply Hc; auto.
Qed.

Lemma owned_views s view others q : proc_ok s view others -> q ∈ owned_pages (regions s.1) ->
  user_page q /\ is_Some (view q).
Proof.
  intros Hs Hq. destruct (po_tidy _ _ _ Hs) as [Hg _].
  apply elem_of_owned_pages in Hq as (Hd & f & Hc); [|done].
  assert (Hu : user_page q).
  { split; [|done]. destruct Hc as (r & Hr & Ha & _). rewrite list.Forall_forall in Hg.
    destruct (Hg r Hr). unfold in_region in Ha. lia. }
  split; [done|]. apply (po_mapped _ _ _ Hs); [done|]. by eexists _, _.
Qed.

(** *** Mapping new memory *)

(** [l'] covers the pages of the range on top of what [l] covers, and one region of it
    contains them all. *)
Record tracks (l l' : list MappedMemoryRegion) (va size flags : Z) (o : FrameOwnership) : Prop := {
  tracks_covers : forall a f o',
    covers l' a f o' <-> covers l a f o' \/ (page_range va size a /\ flags = f /\ o = o');
  tracks_one : exists x, x ∈ l' /\ contains (va / PAGE_SIZE * PAGE_SIZE) (page_up (va + size)) x;
}.

(** The pages of a new range are mapped by [view'] and tracked: the process is in order
    when it holds the frames of an owned range. *)
Lemma track_new_ok p m m' view view' others flags va size o : 0 <= va -> 0 < size ->
  va + size + PAGE_SIZE <= USER_END -> proc_ok (p, m) view others -> unused (regions p) va size ->
  clean view' ->
  (forall q, user_page q -> (q ∈ pages_of va size -> is_Some (view' q)) /\ ((q ∉ pages_of va size) -> view' q = view q)) ->
  forall others', machine_ok USABLE m' (top_page_table_phys p) view'
    ((if bool_decide (o = Owned) then frames_on view' (pages_of va size) else []) ++
     frames_on view (owned_pages (regions p)) ++ others') ->
  exists l', on_regions (T:=T) (E:=MapToError) (track_region (mkRegion va size flags o)) (p, m') =
      (Ok tt, (set_regions l' p, m')) /\
    tracks (regions p) l' va size flags o /\ proc_ok (set_regions l' p, m') view' others'.
Proof.
  intros Hva Hsz Hu Hs Hn Hc Hv others' Hm. pose proof (po_tidy _ _ _ Hs) as Ht. cbn in Ht.
  destruct (track_ok (E:=MapToError) (mkRegion va size flags o) (regions p) Ht)
    as (l' & El & Ht' & Hcov & _ & Hap & Hone); [done..|]. cbn [start_virt size_bytes page_flags frame_ownership] in *.
  specialize (Hap (po_apart _ _ _ Hs) Hn). exists l'. unfold on_regions. rewrite El. split; [done|].
  split; [by split|].
  assert (Hpg : forall q, user_page q -> q ∈ pages_of va size <-> page_range va size q).
  { intros q [_ Hd]. rewrite elem_of_pages_of; [tauto|done..|unfold PAGE_SIZE in *; lia]. }
  assert (Hold : forall q, q ∈ owned_pages (regions p) -> view' q = view q).
  { intros q Hq. destruct (owned_views _ _ _ q Hs Hq) as [Huq Hvq]. apply Hv; [done|].
    intros Hin. rewrite (unused_views _ _ _ va size Hs) in Hvq by done. by destruct Hvq. }
  split; cbn; [done|done|done| |].
  - intros q Hq. destruct (Hv q Hq) as [Hin Hout]. destruct (decide (q ∈ pages_of va size)) as [Hd|Hd].
    + split; [intros _|auto]. exists flags, o. apply Hcov. right. split; [by apply Hpg|done].
    + rewrite Hout, (po_mapped _ _ _ Hs q Hq) by done. cbn. split; intros (f & o' & Hf); exists f, o'.
      * apply Hcov. by left.
      * apply Hcov in Hf as [Hf|(Hf & _)]; [done|]. destruct Hd. by apply Hpg.
  - revert Hm. apply machine_perm.
    pose proof (owned_after (regions p) l' va size flags o Ht (po_apart _ _ _ Hs) Ht' Hap Hva Hsz) as Ho.
    rewrite (frames_on_perm view' _ _ (Ho ltac:(unfold PAGE_SIZE in *; lia) Hn Hcov)).
    rewrite frames_on_app, (frames_on_ext view' view (owned_pages (regions p))) by done.
    rewrite <- app_assoc. by case_bool_decide.
Qed.

(** Mapping an owned range that is not in use either adds it or leaves the process as it
    was; the frames [tabs] are the ones the mapper took for new tables. *)
Lemma map_owned_ok s view others va size flags :
  proc_ok s view others -> has_flags flags PRESENT = true -> 0 <= va -> 0 < size ->
  va + size + PAGE_SIZE <= USER_END -> unused (regions s.1) va size ->
  exists r s' tabs, map_owned_region USABLE va size flags s = (r, s') /\
    match r with
    | Ok _ => exists view' l', s'.1 = set_regions l' s.1 /\ proc_ok s' view' (tabs ++ others) /\
        tracks (regions s.1) l' va size flags Owned
    | Err _ => s'.1 = s.1 /\ proc_ok s' view (tabs ++ others)
    | _ => False
    end.
Proof.
  destruct s as [p m]. cbn [fst]. intros Hs Hf Hva Hsz Hu Hn.
  pose proof (unused_views _ _ _ va size Hs Hva Hsz Hu Hn) as Hnone.
  pose proof (po_machine _ _ _ Hs) as Hm. cbn in Hm. set (owned := frames_on view (owned_pages (regions p))) in *.
  unfold map_owned_region. rewrite (proj2 (Z.eqb_neq _ _)) by lia.
  destruct (map_region_ok USABLE (top_page_table_phys p) flags m view va size (owned ++ others) Hf
    (po_clean _ _ _ Hs) Hva Hsz Hu) as (r & m' & E & Hr); [by rewrite frames_on_none|].
  unfold sbind, on_machine. rewrite E. destruct r as [[]|e| |]; [| |done|done].
  - destruct Hr as (g & tabs & Hg & Hm' & _). rewrite (frames_on_none view) in Hm' by done.
    assert (Hvg : forall q, user_page q -> (q ∈ pages_of va size -> is_Some (mapped_view flags view (pages_of va size) g q)) /\
      ((q ∉ pages_of va size) -> mapped_view flags view (pages_of va size) g q = view q)).
    { intros q Hq. unfold mapped_view. split; intros Hin.
      - rewrite Hnone by done. destruct (proj2 (Hg q)) as [f ->]; [by auto|by eexists].
      - destruct (view q) as [[f fl]|] eqn:Ev; [by rewrite decide_False|].
        destruct (g q) eqn:Eg; [|done]. destruct (proj1 (Hg q)); [by rewrite Eg|done]. }
    assert (Hfr : frames_on (mapped_view flags view (pages_of va size) g) (pages_of va size) = omap g (pages_of va size)).
    { unfold frames_on. apply list_omap_ext, Forall_Forall2_diag, list.Forall_forall. intros q Hq.
      unfold mapped_view. rewrite Hnone by done. by destruct (g q). }
    destruct (track_new_ok p m m' view (mapped_view flags view (pages_of va size) g) others flags va size Owned)
      with (others' := tabs ++ others) as (l' & El & Hcov & Hs'); try done.
    + eapply (mapped_clean USABLE); [done|by apply (po_clean _ _ _ Hs)|exact Hm'|]. intros. by eapply fresh_in.
    + cbn. rewrite Hfr. revert Hm'. apply machine_perm. fold owned. solve_Permutation.
    + rewrite El. exists (Ok tt), (set_regions l' p, m'), tabs. split; [done|].
      by exists (mapped_view flags view (pages_of va size) g), l'.
  - destruct Hr as (i & tabs & Hi & Hm'). exists (Err e), (p, m'), tabs. split; [done|]. split; [done|].
    destruct Hs. split; cbn in *; try done. rewrite frames_on_none in Hm'.
    + fold owned. apply (machine_perm _ _ _ _ (tabs ++ owned ++ others)); [solve_Permutation|].
      revert Hm'. apply machine_view. intros q _. unfold unmapped. case_decide as Hq; [|done].
      symmetry. apply Hnone. rewrite <- (take_drop i (pages_of va size)). apply elem_of_app. by left.
    + intros q Hq. apply Hnone. rewrite <- (take_drop i (pages_of va size)). apply elem_of_app. by right.
Qed.

(** *** Unmapping *)

Lemma contained_user r st size : good r -> contains st (st + size) r -> 0 < size -> (PAGE_SIZE | st) ->
  user_page st /\ st + size < USER_END.
Proof. intros [] [Hc1 Hc2] Hsz Hd. split; [split; [lia|done]|lia]. Qed.

Lemma pages_of_aligned st size : user_page st -> 0 < size -> (PAGE_SIZE | size) ->
  pages_of st size = pages_from st (Z.to_nat (size / PAGE_SIZE)).
Proof.
  intros [Hs [x Hx]] Hsz [y Hy]. unfold pages_of, page_count, first_page.
  rewrite page_up_aligned by (subst; rewrite <- Z.mul_add_distr_r; apply Z.divide_factor_r).
  subst. rewrite !Z.div_mul by (unfold PAGE_SIZE; lia). f_equal.
  replace (x * PAGE_SIZE + y * PAGE_SIZE - x * PAGE_SIZE) with (y * PAGE_SIZE) by lia.
  rewrite Z.div_mul by (unfold PAGE_SIZE; lia). done.
Qed.

Lemma elem_of_pages_aligned st size q : user_page st -> 0 < size -> (PAGE_SIZE | size) ->
  q ∈ pages_of st size <-> (PAGE_SIZE | q) /\ st <= q < st + size.
Proof.
  intros [[H0 Hu] Ds] Hsz Dn. rewrite elem_of_pages_of by done. unfold page_range.
  rewrite (page_up_aligned (st + size)) by (by apply Z.divide_add_r).
  destruct Ds as [x ->]. rewrite Z.div_mul by (unfold PAGE_SIZE; lia). done.
Qed.

(** Taking a range out of one region takes its pages out of the owned ones. *)
Lemma owned_before l1 r l2 st size :
  let l := l1 ++ r :: l2 in
  let l' := l1 ++ pieces r st (st + size) ++ l2 in
  tidy l -> apart l -> contains st (st + size) r -> 0 < size -> (PAGE_SIZE | st) -> (PAGE_SIZE | size) ->
  owned_pages l ≡ₚ (if bool_decide (frame_ownership r = Owned) then pages_of st size else []) ++ owned_pages l'.
Proof.
  intros l l' Ht Ha Hc Hsz Ds Dn. assert (De : (PAGE_SIZE | st + size)) by (by apply Z.divide_add_r).
  destruct (split_ok l1 r l2 st (st + size) Ht Ha Hc) as (Ht' & Ha' & Hcov); [lia|done..|].
  assert (Hr : good r) by (destruct Ht as [Hg _]; apply Forall_app in Hg as [_ Hg]; by apply Forall_cons in Hg as [? _]).
  destruct (contained_user r st size Hr Hc Hsz Ds) as [Hus Hue].
  assert (Hpg : forall q, q ∈ pages_of st size <-> (PAGE_SIZE | q) /\ st <= q < st + size).
  { intros q. by apply elem_of_pages_aligned. }
  assert (Hin : forall a f o, st <= a < st + size -> covers l a f o -> f = page_flags r /\ o = frame_ownership r).
  { intros a f o Hra (x & Hx & Hxa & <- & <-). enough (x = r) as -> by done.
    pose proof Ha as (H12 & _ & [_ Hr2]%StronglySorted_inv)%StronglySorted_app. rewrite list.Forall_forall in Hr2.
    destruct Hc as [Hc1 Hc2]. unfold in_region in Hxa. apply elem_of_app in Hx as [Hx|[->|Hx]%elem_of_cons]; [| done|].
    - specialize (H12 x r Hx (list_elem_of_here _ _)). lia.
    - specialize (Hr2 x Hx). lia. }
  assert (Hif : forall q, q ∈ (if bool_decide (frame_ownership r = Owned) then pages_of st size else []) <->
    (PAGE_SIZE | q) /\ st <= q < st + size /\ frame_ownership r = Owned).
  { intros q. case_bool_decide; [rewrite Hpg; tauto|].
    split; [intros Hq; by apply elem_of_nil in Hq|tauto]. }
  destruct Ht as [Hg Hs], Ht' as [Hg' Hs'].
  apply NoDup_Permutation; [by apply NoDup_owned_pages| |].
  - apply list.NoDup_app. split_and!; [case_bool_decide; [apply pages_from_NoDup|constructor]| |by apply NoDup_owned_pages].
    intros q (_ & Hq & _)%Hif Hl. apply elem_of_owned_pages in Hl as (_ & f & Hl); [|done].
    by apply Hcov in Hl as [_ Hl].
  - intros q. rewrite elem_of_app, Hif, !elem_of_owned_pages by done. split.
    + intros (Hd & f & Hf). destruct (decide (st <= q < st + size)) as [Hq|Hq].
      * destruct (Hin q f Owned Hq Hf). left. done.
      * right. split; [done|]. exists f. by apply Hcov.
    + intros [(Hd & Hq & Ho)|(Hd & f & [Hf _]%Hcov)]; (split; [done|]); [|by exists f].
      exists (page_flags r). exists r. split; [apply elem_of_app; right; apply list_elem_of_here|].
      destruct Hc. split; [unfold in_region; lia|done].
Qed.

(** Unmapping a tracked range takes exactly its pages out and gives their frames back when
    the region owned them; a range no region contains changes nothing. *)
Lemma unmap_ok s view others st size : proc_ok s view others ->
  0 <= st -> (PAGE_SIZE | st) -> 0 < size -> (PAGE_SIZE | size) -> st + size < 2 ^ 64 ->
  exists b s', unmap_region USABLE st size s = (Ok b, s') /\
    (b = true <-> exists r, r ∈ regions s.1 /\ contains st (st + size) r) /\
    if b then
      exists l', s'.1 = set_regions l' s.1 /\ proc_ok s' (unmapped (pages_of st size) view) others /\
        (forall a f o, covers l' a f o <-> covers (regions s.1) a f o /\ ~ (st <= a < st + size))
    else s' = s.
Proof.
  destruct s as [p m]. cbn [fst]. intros Hs H0 Ds Hsz Dn Hlt.
  destruct (po_tidy _ _ _ Hs) as [Hg Hso]. cbn in Hg, Hso. unfold unmap_region.
  assert (Ems : forall x, (PAGE_SIZE | x) -> (x mod PAGE_SIZE =? 0) = true).
  { intros x Hx. apply Z.eqb_eq. apply Z.mod_divide; [unfold PAGE_SIZE; lia|done]. }
  rewrite !Ems, (proj2 (Z.ltb_lt _ _)) by done. cbn [andb sassert].
  unfold sbind at 1 2, sret at 1 2. unfold sbind at 1, slift at 1, uadd. rewrite (proj2 (Z.ltb_lt _ _)) by done.
  unfold sbind at 1. unfold sbind at 1, slift at 1. rewrite position_ok by done.
  destruct (list_find (contains st (st + size)) (regions p)) as [[i r]|] eqn:Ef; cbn [fmap option_fmap option_map fst].
  2:{ exists false, (p, m). split; [done|]. split; [|done]. split; [done|]. intros (r & Hr & Hc).
      apply list_find_None in Ef. rewrite list.Forall_forall in Ef. by destruct (Ef r Hr). }
  apply list_find_Some in Ef as (Hi & Hc & _). rewrite Hi.
  pose proof (list_elem_of_lookup_2 _ _ _ Hi) as Hin.
  assert (Hr : good r) by (rewrite list.Forall_forall in Hg; auto).
  destruct (contained_user r st size Hr Hc Hsz Ds) as [Hus Hue].
  apply list_elem_of_split_length in Hi as (l1 & l2 & El & ->).
  pose proof (po_apart _ _ _ Hs) as Ha. pose proof (po_tidy _ _ _ Hs) as Ht. cbn in Ha, Ht. rewrite El in Ha, Ht.
  set (l' := l1 ++ pieces r st (st + size) ++ l2).
  destruct (split_ok l1 r l2 st (st + size) Ht Ha Hc) as (Ht' & Ha' & Hcov);
    [lia|done|by apply Z.divide_add_r|].
  pose proof (owned_before l1 r l2 st size Ht Ha Hc Hsz Ds Dn) as Ho. fold l' in Ht', Ha', Hcov, Ho.
  set (view' := unmapped (pages_of st size) view).
  assert (Hold : frames_on view (owned_pages l') = frames_on view' (owned_pages l')).
  { apply frames_on_ext. intros q Hq. unfold view', unmapped. rewrite decide_False; [done|]. intros Hq'.
    destruct Ht' as [Hg' _]. apply elem_of_owned_pages in Hq as (_ & f & Hq); [|done]. apply Hcov in Hq as [_ Hq].
    apply elem_of_pages_aligned in Hq' as [_ Hq']; [|done..]. tauto. }
  pose proof (po_machine _ _ _ Hs) as Hm. cbn in Hm. rewrite El in Hm.
  destruct (unmap_region_ok USABLE m (top_page_table_phys p)
    (mkRegion st size (page_flags r) (frame_ownership r)) (Z.to_nat (size / PAGE_SIZE)) view
    (frames_on view' (owned_pages l') ++ others)) as (m' & E & _ & Hm'); cbn; try done.
  { destruct Dn as [y ->]. rewrite Z.div_mul by (unfold PAGE_SIZE; lia). unfold PAGE_SIZE in *. lia. }
  { apply (po_clean _ _ _ Hs). }
  { revert Hm. apply machine_perm. rewrite (frames_on_perm view _ _ Ho), frames_on_app, Hold, <- app_assoc.
    rewrite <- pages_of_aligned by done. unfold freed. by destruct (frame_ownership r). }
  cbn in Hm'. rewrite <- pages_of_aligned in Hm' by done. fold view' in Hm'.
  unfold sbind at 1, on_machine. rewrite E. unfold sbind at 1, on_regions. rewrite El.
  rewrite split_pieces by (done || lia). fold l'.
  rewrite El in Hin. exists true, (set_regions l' p, m'). split; [done|]. split; [split; [intros _; by exists r|done]|].
  exists l'. split; [done|]. split; [|done]. split; cbn; [done|done| | |done].
  - intros q f fl. unfold view', unmapped. destruct decide; [done|apply (po_clean _ _ _ Hs)].
  - intros q Hq. assert (Hpg : q ∈ pages_of st size <-> st <= q < st + size).
    { destruct Hq as [? Hd]. rewrite elem_of_pages_aligned by done. tauto. }
    unfold view', unmapped. destruct (decide (q ∈ pages_of st size)) as [Hq'|Hq'].
    + split; [by intros [? ?]|]. intros (f & o & [_ Hf]%Hcov). destruct Hf. by apply Hpg.
    + rewrite (po_mapped _ _ _ Hs q Hq). cbn. rewrite El. split; intros (f & o & Hf); exists f, o.
      * apply Hcov. tauto.
      * by apply Hcov in Hf as [Hf _].
Qed.

(** *** Mapping given frames *)

Definition frame_address (f : Z) : Prop := 0 <= f /\ (PAGE_SIZE | f).

Lemma containing_aligned x : frame_address x -> containing_address x = x.
Proof. intros [Hx [y ->]]. rewrite containing_is by done. rewrite Z.div_mul by (unfold PAGE_SIZE; lia). lia. Qed.

(** [map_specific_frame] on a page without a frame. *)
Lemma map_specific_ok m top view held page f flags : user_page page -> frame_address f ->
  has_flags flags PRESENT = true -> view page = None -> machine_ok USABLE m top view held ->
  exists r m' l, map_specific_frame USABLE top page f flags m = (r, m') /\
    match r with
    | Ok _ => machine_ok USABLE m' top
        (fun q => if decide (q = page) then Some (f, Z.lor flags USER_ACCESSIBLE) else view q) (l ++ held)
    | Err _ => machine_ok USABLE m' top view (l ++ held)
    | _ => False
    end.
Proof.
  intros Hp Hf Hfl Hv Hm. unfold map_specific_frame.
  rewrite (containing_aligned page) by (destruct Hp as [[? _] ?]; by split). rewrite containing_aligned by done.
  destruct (call_map_to_ok USABLE top m page f (Z.lor flags USER_ACCESSIBLE) view held Hp
    (lor_present _ _ Hfl) (proj2 Hf) Hm) as (r & m' & l & E & _ & Hr).
  unfold sbind at 1, caught. rewrite E. destruct r as [[]|e| |]; [| |done|done].
  - exists (Ok tt), m', l. split; [done|]. by destruct Hr.
  - destruct Hr as [Hm' He]. destruct e as [| |g]; [by exists (Err FrameAllocationFailed), m', l| |].
    + by exists (Err ParentEntryHugePage), m', l.
    + destruct He as [_ [fl He]]. by rewrite Hv in He.
Qed.

Lemma page_offset start k : Z.to_nat ((start + Z.of_nat k * PAGE_SIZE - start) / PAGE_SIZE) = k.
Proof.
  replace (start + Z.of_nat k * PAGE_SIZE - start) with (Z.of_nat k * PAGE_SIZE) by lia.
  rewrite Z.div_mul by (unfold PAGE_SIZE; lia). lia.
Qed.

Section frames.
Variables (p : ProcessMemoryLayout) (view : Z -> option (Z * Z)) (held : list Z).
Variables (start flags : Z) (phys : list Z).
Hypothesis Hstart : user_page start.
Hypothesis Hend : start + zlen phys * PAGE_SIZE < USER_END.
Hypothesis Hflags : has_flags flags PRESENT = true.
Hypothesis Hphys : Forall frame_address phys.
Hypothesis Hclean : clean view.
Hypothesis Hfree : forall q, q ∈ pages_from start (length phys) -> view q = None.

(** The mappings once [k] frames are mapped. *)
Definition framed (k : nat) (q : Z) : option (Z * Z) :=
  if decide (q ∈ pages_from start k) then
    (fun f => (f, Z.lor flags USER_ACCESSIBLE)) <$> phys !! Z.to_nat ((q - start) / PAGE_SIZE)
  else view q.

Lemma framed_clean k : clean (framed k).
Proof.
  intros q f fl. unfold framed. destruct decide; [|apply Hclean].
  destruct (phys !! _) as [x|] eqn:Ex; [|done]. intros [= <- <-]. split; [by apply lor_present|].
  rewrite list.Forall_lookup in Hphys. by eapply Hphys.
Qed.

Lemma framed_S k f q : phys !! k = Some f ->
  framed (S k) q = if decide (q = start + Z.of_nat k * PAGE_SIZE) then Some (f, Z.lor flags USER_ACCESSIBLE)
    else framed k q.
Proof.
  intros Hf. unfold framed. rewrite pages_from_S. destruct (decide (q = _)) as [->|Hne].
  - rewrite decide_True by (apply elem_of_app; right; apply list_elem_of_here). by rewrite page_offset, Hf.
  - destruct (decide (q ∈ pages_from start k)) as [Hq|Hq].
    + by rewrite decide_True by (apply elem_of_app; by left).
    + rewrite decide_False; [done|]. rewrite elem_of_app, list_elem_of_singleton. tauto.
Qed.

Lemma framed_frames : frames_on (framed (length phys)) (pages_from start (length phys)) = phys.
Proof.
  assert (H : forall k, (k <= length phys)%nat ->
    frames_on (framed (length phys)) (pages_from start k) = take k phys).
  { induction k as [|k IH]; intros Hk; [done|]. destruct (lookup_lt_is_Some_2 phys k Hk) as [f Hf].
    rewrite pages_from_S, frames_on_app, IH, (take_S_r _ _ f) by (done || lia). f_equal.
    rewrite frames_on_cons. unfold framed. rewrite decide_True.
    - by rewrite page_offset, Hf.
    - apply elem_of_pages_from. by exists k. }
  rewrite H by done. by apply take_ge.
Qed.

Lemma frames_loop_ok rest : forall k m tabs, phys = take k phys ++ rest -> length (take k phys) = k ->
  machine_ok USABLE m (top_page_table_phys p) (framed k) (tabs ++ held) ->
  exists r m' tabs', map_frames_loop USABLE start flags k rest (p, m) = (r, (p, m')) /\
    match r with
    | Ok _ => machine_ok USABLE m' (top_page_table_phys p) (framed (length phys)) (tabs' ++ held)
    | Err _ => machine_ok USABLE m' (top_page_table_phys p) view (tabs' ++ held)
    | _ => False
    end.
Proof.
  induction rest as [|f rest IH]; intros k m tabs Hph Hk Hm.
  { exists (Ok tt), m, tabs. split; [done|]. rewrite app_nil_r in Hph.
    assert (length phys = k) as -> by (rewrite Hph; done). done. }
  assert (Hf : phys !! k = Some f).
  { rewrite Hph, lookup_app_r by lia. by rewrite Hk, Nat.sub_diag. }
  pose proof (lookup_lt_Some _ _ _ Hf) as Hlt. set (q := start + Z.of_nat k * PAGE_SIZE).
  assert (Hq : user_page q).
  { destruct Hstart as [? Hd]. split; [unfold q, PAGE_SIZE in *; lia|].
    apply Z.divide_add_r; [done|apply Z.divide_factor_r]. }
  assert (Hfa : frame_address f) by (rewrite list.Forall_lookup in Hphys; eauto).
  assert (Hvq : framed k q = None).
  { unfold framed. rewrite decide_False.
    - apply Hfree, elem_of_pages_from. by exists k.
    - rewrite elem_of_pages_from. intros (j & Hj & E). unfold q, PAGE_SIZE in E. lia. }
  cbn [map_frames_loop]. unfold sbind at 1, slift at 1.
  rewrite va_add_user by (destruct Hq, Hstart; unfold USER_END, PAGE_SIZE, q in *; lia). fold q.
  destruct (map_specific_ok m (top_page_table_phys p) _ _ q f flags Hq Hfa Hflags Hvq Hm) as (r & m1 & l & E & Hr).
  unfold sbind at 1, on_machine at 1, caught at 1. rewrite E. destruct r as [[]|e| |]; [| |done|done].
  - apply (IH (S k) m1 (l ++ tabs)).
    + by rewrite (take_S_r _ _ f), <- app_assoc by done.
    + rewrite length_take. lia.
    + rewrite <- app_assoc. revert Hr. apply machine_view. intros x _. symmetry. by apply framed_S.
  - destruct (unmap_region_ok USABLE m1 (top_page_table_phys p)
      (mkRegion start (Z.of_nat k * PAGE_SIZE) flags Borrowed) k (framed k) (l ++ tabs ++ held))
      as (m2 & E2 & _ & Hm2); cbn; [done|done| |by apply framed_clean|done|].
    { unfold PAGE_SIZE in *. lia. }
    unfold sbind at 1, on_machine. rewrite E2. exists (Err e), m2, (l ++ tabs). split; [done|].
    rewrite <- app_assoc. revert Hm2. apply machine_view. intros x _. unfold unmapped, framed. cbn.
    destruct (decide (x ∈ pages_from start k)) as [Hx|]; [|done]. symmetry. apply Hfree.
    apply elem_of_pages_from in Hx as (j & Hj & ->). apply elem_of_pages_from. exists j. split; [lia|done].
Qed.
End frames.

(** Mapping given frames over a range that is not in use either adds it or leaves the
    process as it was, with the frames left to the caller. *)
Lemma map_frames_ok s view others start flags phys o :
  let given := if bool_decide (o = Owned) then phys else [] in
  proc_ok s view (given ++ others) -> has_flags flags PRESENT = true -> user_page start ->
  phys <> [] -> Forall frame_address phys ->
  start + zlen phys * PAGE_SIZE + PAGE_SIZE <= USER_END ->
  unused (regions s.1) start (zlen phys * PAGE_SIZE) ->
  exists r s' tabs, map_frames USABLE start phys flags o s = (r, s') /\
    match r with
    | Ok _ => exists l', s'.1 = set_regions l' s.1 /\
        proc_ok s' (framed view start flags phys (length phys)) (tabs ++ others) /\
        tracks (regions s.1) l' start (zlen phys * PAGE_SIZE) flags o
    | Err _ => s'.1 = s.1 /\ proc_ok s' view (tabs ++ given ++ others)
    | _ => False
    end.
Proof.
  intros given. destruct s as [p m]. cbn [fst]. intros Hs Hf Hst Hne Hph Hu Hn.
  assert (Hlen : (0 < length phys)%nat) by (destruct phys; [done|cbn; lia]).
  assert (Hpg : pages_of start (zlen phys * PAGE_SIZE) = pages_from start (length phys)).
  { rewrite pages_of_aligned; [|done|unfold PAGE_SIZE; lia|apply Z.divide_factor_r].
    by rewrite Z.div_mul, Nat2Z.id by (unfold PAGE_SIZE; lia). }
  assert (Hva : 0 <= start) by (destruct Hst; lia).
  assert (Hsz : 0 < zlen phys * PAGE_SIZE) by (unfold PAGE_SIZE; lia).
  pose proof (unused_views _ _ _ _ _ Hs Hva Hsz Hu Hn) as Hnone. rewrite Hpg in Hnone.
  pose proof (po_machine _ _ _ Hs) as Hm. cbn in Hm. set (owned := frames_on view (owned_pages (regions p))) in *.
  unfold map_frames. rewrite (proj2 (Z.eqb_eq _ _)) by
    (apply Z.mod_divide; [unfold PAGE_SIZE; lia|by destruct Hst]).
  rewrite bool_decide_eq_false_2 by done. unfold sbind at 1, sassert, sret at 1.
  destruct (frames_loop_ok p view (owned ++ given ++ others) start flags phys Hst) with
    (rest := phys) (k := 0%nat) (m := m) (tabs := @nil Z) as (r & m' & tabs & E & Hr);
    [unfold PAGE_SIZE in *; lia|done|done|by apply (po_clean _ _ _ Hs)|done|done|done| |].
  { revert Hm. apply machine_view. intros q _. unfold framed. rewrite decide_False; [done|]. by apply not_elem_of_nil. }
  unfold sbind at 1. rewrite E. destruct r as [[]|e| |]; [| |done|done].
  - destruct (track_new_ok p m m' view (framed view start flags phys (length phys)) (given ++ others)
      flags start (zlen phys * PAGE_SIZE) o) with (others' := tabs ++ others) as (l' & El & Hcov & Hs'); try done.
    + apply framed_clean; [done|done|]. by apply (po_clean _ _ _ Hs).
    + rewrite Hpg. intros q _. unfold framed. split; intros Hq; [|by rewrite decide_False].
      rewrite decide_True by done. apply elem_of_pages_from in Hq as (j & Hj & ->). rewrite page_offset.
      apply lookup_lt_is_Some in Hj as [x ->]. by eexists.
    + rewrite Hpg. revert Hr. apply machine_perm. rewrite framed_frames by done. fold owned. unfold given.
      case_bool_decide; solve_Permutation.
    + rewrite El. exists (Ok tt), (set_regions l' p, m'), tabs. split; [done|]. by exists l'.
  - exists (Err e), (p, m'), tabs. split; [done|]. split; [done|]. destruct Hs. split; cbn in *; try done.
    fold owned. revert Hr. apply machine_perm. solve_Permutation.
Qed.

(** *** The end of a process *)

Lemma unmap_regions_ok l : forall m top view others,
  Forall good l -> apart l -> clean view ->
  machine_ok USABLE m top view (frames_on view (owned_pages l) ++ others) ->
  exists m', unmap_regions USABLE top l m = (Ok tt, m') /\
    machine_ok USABLE m' top (unmapped (mjoin (region_pages <$> l)) view) others.
Proof.
  induction l as [|r l IH]; intros m top view others Hg Ha Hc Hm.
  { exists m. split; [done|]. revert Hm. apply machine_view. intros q _. unfold unmapped.
    by rewrite decide_False by apply not_elem_of_nil. }
  apply Forall_cons in Hg as [Hr Hg]. apply StronglySorted_inv in Ha as [Ha Hlater].
  set (n := Z.to_nat (size_bytes r / PAGE_SIZE)). set (view1 := unmapped (region_pages r) view).
  assert (Hv1 : frames_on view (owned_pages l) = frames_on view1 (owned_pages l)).
  { apply frames_on_ext. intros q Hq. unfold view1, unmapped. rewrite decide_False; [done|]. intros Hq'.
    apply elem_of_region_pages in Hq' as [_ Hq']; [|done].
    apply elem_of_owned_pages in Hq as (_ & f & x & Hx & Hqx & _); [|done].
    rewrite list.Forall_forall in Hlater. specialize (Hlater x Hx). unfold in_region in *. lia. }
  destruct (unmap_region_ok USABLE m top r n view (frames_on view1 (owned_pages l) ++ others)) as (m1 & E1 & _ & Hm1).
  - destruct Hr. split; [lia|done].
  - destruct Hr as [_ Hsz _ _ [y Hy]]. unfold n. rewrite Hy, Z.div_mul by (unfold PAGE_SIZE; lia).
    destruct (Z.le_gt_cases 0 y); [by rewrite Z2Nat.id|]. unfold PAGE_SIZE in *. lia.
  - by destruct Hr.
  - done.
  - rewrite <- Hv1. revert Hm. apply machine_perm. unfold owned_pages at 1. cbn [fmap list_fmap mjoin list_join].
    fold (owned_pages l). rewrite frames_on_app, <- app_assoc. unfold freed.
    change (pages_from (start_virt r) n) with (region_pages r). by destruct (frame_ownership r).
  - cbn [unmap_regions]. unfold sbind. rewrite E1.
    destruct (IH m1 top view1 others) as (m2 & E2 & Hm2); [done|done| |exact Hm1|].
    { intros q f fl. unfold view1, unmapped. destruct decide; [done|apply Hc]. }
    exists m2. split; [exact E2|]. revert Hm2. apply machine_view. intros q _. unfold view1, unmapped.
    cbn [fmap list_fmap mjoin list_join].
    destruct (decide (q ∈ mjoin (region_pages <$> l))) as [Hq|Hq].
    + by rewrite decide_True by (apply elem_of_app; by right).
    + destruct (decide (q ∈ region_pages r)) as [Hq'|Hq'].
      * by rewrite decide_True by (apply elem_of_app; by left).
      * rewrite decide_False; [done|]. rewrite elem_of_app. tauto.
Qed.

Lemma free_regions_ok s view others : proc_ok s view others ->
  exists m', unmap_regions USABLE (top_page_table_phys s.1) (regions s.1) s.2 = (Ok tt, m') /\
    machine_ok USABLE m' (top_page_table_phys s.1) (fun _ => None) others.
Proof.
  intros [[Hg Hs] Ha Hc Hm Hk]. destruct (unmap_regions_ok _ _ _ _ _ Hg Ha Hc Hk) as (m' & E & Hm').
  exists m'. split; [exact E|]. revert Hm'. apply machine_view. intros q Hq. unfold unmapped.
  destruct (decide (q ∈ mjoin (region_pages <$> regions s.1))) as [|Hn]; [done|].
  destruct (view q) eqn:Ev; [|done]. destruct (proj1 (Hm q Hq)) as (f & o & r & Hr & Hqr & _); [by rewrite Ev|].
  destruct Hn. apply list_elem_of_join. exists (region_pages r). split; [|apply list_elem_of_fmap; by exists r].
  rewrite list.Forall_forall in Hg. apply elem_of_region_pages; [by apply Hg|]. by destruct Hq.
Qed.

(** *** The heap *)

(** The heap and the reservation pointer are no part of what [proc_ok] says. *)
Lemma proc_ok_layout p m view others h n : proc_ok (p, m) view others ->
  proc_ok (mkLayout (top_page_table_phys p) h n (regions p), m) view others.
Proof. intros []. by split. Qed.

(** The flags of heap pages. *)
Definition heap_flags : Z := Z.lor (Z.lor PRESENT WRITABLE) NO_EXECUTE.

Lemma heap_flags_present : has_flags heap_flags PRESENT = true.
Proof. apply lor_present, lor_present. unfold has_flags. rewrite Z.land_diag. apply Z.eqb_refl. Qed.

Definition heap_ok (p : ProcessMemoryLayout) : Prop :=
  PROCESS_HEAP_VIRT_START <= heap_end p <= PROCESS_HEAP_VIRT_END /\ (PAGE_SIZE | heap_end p).

(** An allocation of [size > 0] bytes: it grows the heap by whole pages, refuses, or fails
    in the mapper and leaves the heap where it was. *)
Definition heap_grown (s s' : Proc) (size : Z) (r : result ProcessMemoryError Z) : Prop :=
  match r with
  | Ok v => v = heap_end s.1 /\ heap_end s'.1 = heap_end s.1 + page_up size /\
      tracks (regions s.1) (regions s'.1) (heap_end s.1) (page_up size) heap_flags Owned
  | Err OutOfVirtualRange => s' = s /\ PROCESS_HEAP_VIRT_END < heap_end s.1 + page_up size
  | Err (MapTo _) => s'.1 = s.1 /\ heap_end s.1 + page_up size <= PROCESS_HEAP_VIRT_END
  | _ => False
  end.

Lemma heap_end_user e : e <= PROCESS_HEAP_VIRT_END -> e + 2 * PAGE_SIZE + PROCESS_HEAP_SIZE_BYTES < USER_END.
Proof.
  unfold PROCESS_HEAP_SIZE_BYTES, PROCESS_HEAP_VIRT_END, PROCESS_HEAP_SIZE_BYTES,
    PROCESS_HEAP_VIRT_START, PROCESS_WINDOW_BUFFER_BASE, PAGE_SIZE, USER_END. lia.
Qed.

Lemma page_up_pages size n : size <= n * PAGE_SIZE -> page_up size <= n * PAGE_SIZE.
Proof.
  intros Hle. pose proof (page_up_bounds size) as [Hu _]. destruct (page_up_divide size) as [k Hk].
  rewrite Hk in *. unfold PAGE_SIZE in *. lia.
Qed.

Lemma allocate_heap_ok s view others size : proc_ok s view others -> heap_ok s.1 -> 0 < size ->
  (heap_end s.1 + page_up size <= PROCESS_HEAP_VIRT_END -> unused (regions s.1) (heap_end s.1) (page_up size)) ->
  exists r s' view' tabs, allocate_heap USABLE size s = (r, s') /\
    proc_ok s' view' (tabs ++ others) /\ heap_ok s'.1 /\ heap_grown s s' size r.
Proof.
  intros Hs Hh Hsz Hn. pose proof Hh as [[Hh1 Hh2] Hd]. destruct s as [p m]. cbn [fst] in *.
  pose proof (page_up_bounds size) as [Hup _]. pose proof (heap_end_user _ Hh2) as Hend.
  unfold allocate_heap. rewrite (proj2 (Z.eqb_neq _ _)) by lia.
  assert (Hcap : page_up size > PROCESS_HEAP_SIZE_BYTES \/ size <= PROCESS_HEAP_SIZE_BYTES) by lia.
  destruct (Z.ltb_spec PROCESS_HEAP_SIZE_BYTES size) as [Hbig|Hbig].
  { exists (Err OutOfVirtualRange), (p, m), view, []. split; [done|]. split; [done|]. split; [done|].
    split; [done|]. cbn. unfold PROCESS_HEAP_VIRT_END. lia. }
  assert (Hpu : page_up size <= PROCESS_HEAP_SIZE_BYTES)
    by (apply (page_up_pages size (PROCESS_HEAP_SIZE_BYTES / PAGE_SIZE)); exact Hbig).
  assert (H0 : 0 <= heap_end p) by (unfold PROCESS_HEAP_VIRT_START in Hh1; lia).
  unfold sbind at 1, slift at 1. rewrite align_page by (unfold PAGE_SIZE, USER_END in *; lia).
  unfold sbind at 1, get_heap_end at 1. unfold sbind at 1, slift at 1.
  rewrite va_add_user by (unfold PAGE_SIZE, USER_END in *; lia).
  unfold sbind at 1, grow_heap. unfold sbind at 1, get_heap_end at 1.
  rewrite (proj2 (Z.leb_gt _ _)) by lia. unfold sbind at 1, slift at 1.
  rewrite va_new_user by (unfold PROCESS_HEAP_VIRT_END, PROCESS_HEAP_SIZE_BYTES, PROCESS_WINDOW_BUFFER_BASE,
    PROCESS_HEAP_VIRT_START; lia).
  destruct (Z.ltb_spec PROCESS_HEAP_VIRT_END (heap_end p + page_up size)) as [Hover|Hfit].
  { exists (Err OutOfVirtualRange), (p, m), view, []. by split. }
  unfold sbind at 1, slift at 1. rewrite usub_ok by lia.
  replace (heap_end p + page_up size - heap_end p) with (page_up size) by lia.
  unfold sbind at 1, slift at 1. rewrite align_page by (unfold PAGE_SIZE, USER_END in *; lia).
  rewrite (page_up_aligned (page_up size)) by apply page_up_divide.
  rewrite (proj2 (Z.eqb_neq _ _)) by lia.
  destruct (map_owned_ok (p, m) view others (heap_end p) (page_up size) heap_flags Hs heap_flags_present H0)
    as (r & s' & tabs & E & Hr); [lia|unfold PAGE_SIZE in *; lia|auto|].
  unfold sbind at 1, map_err at 1. fold heap_flags. rewrite E. destruct r as [[]|e| |]; [| |done|done].
  - destruct Hr as (view' & l' & El & Hs' & Hcov). destruct s' as [p' m']. cbn [fst] in *. subst p'.
    unfold sbind at 1, slift at 1. rewrite va_add_user by (unfold PAGE_SIZE, USER_END in *; lia).
    unfold sbind at 1, set_heap_end. eexists (Ok (heap_end p)), _, view', tabs. split; [done|].
    split; [by apply (proc_ok_layout (set_regions l' p))|]. split; [|done].
    split; cbn; [lia|]. apply Z.divide_add_r; [done|apply page_up_divide].
  - destruct Hr as [Ep Hs']. destruct s' as [p' m']. cbn [fst] in *. subst p'.
    exists (Err (MapTo e)), (p, m'), view, tabs. by split.
Qed.

End spec.
