(* ===== verification/FlatTables.v ===== *)
(** * FlatTables: an instance of the page mapper

    Page tables whose address is the path that leads to them, so that every table exists
    and reads are decided by one finite map from address spaces and pages to entries.  It
    shows that the laws of [PageMapper] can be met, and it evaluates. *)

From Stdlib Require Import ZArith Lia.
From stdpp Require Import base tactics list option numbers gmap.
From S2P Require Import Prelude FrameAlloc Regions RegionsSpec UserMem UserMemSpec ProcessMem AddressSpace.

Open Scope rust_scope.

#[export] Instance x86_flags : PageFlags :=
  {| PRESENT := 1; WRITABLE := 2; USER_ACCESSIBLE := 4; NO_EXECUTE := 2 ^ 63; HUGE_PAGE := 128 |}.

#[export] Instance x86_flags_laws : PageFlagsLaws.
Proof. split; [discriminate|reflexivity]. Qed.

(** Leaf entries by root and the four indices of the page. *)
Abbreviation FlatTables := (gmap (Z * list Z) (Z * Z)).

(** A table below the root [pml4] at the end of [path] has a negative address. *)
Definition table_id (pml4 : Z) (path : list Z) : Z := - Zpos (encode (pml4, path)).

Definition table_path (table : Z) : Z * list Z :=
  match table with
  | Zneg p => match decode p with Some x => x | None => (0, []) end
  | _ => (table, [])
  end.

Definition flat_entry (t : FlatTables) (table index : Z) : Z * Z :=
  let '(pml4, path) := table_path table in
  let path := path ++ [index] in
  if (length path <? 4)%nat then (table_id pml4 path, 1) else
  match t !! (pml4, path) with Some e => e | None => (0, 0) end.

Definition page_path (page : Z) : list Z := [page_index 3 page; page_index 2 page; page_index 1 page; page_index 0 page].

Definition leaf (t : FlatTables) (pml4 page : Z) : option (Z * Z) :=
  match t !! (pml4, page_path page) with
  | Some (f, fl) => if (f =? 0) && (fl =? 0) then None else Some (f, fl)
  | None => None
  end.

#[export] Instance flat_mapper USABLE : PageMapper USABLE FlatTables :=
  {| entry := flat_entry;
     map_to pml4 page frame flags '(t, a) :=
       match leaf t pml4 page with
       | Some (g, _) => (Err (PageAlreadyMapped g), (t, a))
       | None => (Ok tt, (<[(pml4, page_path page) := (frame, flags)]> t, a))
       end;
     unmap pml4 page t :=
       match leaf t pml4 page with
       | Some (f, _) => (Some f, base.delete (pml4, page_path page) t)
       | None => (None, t)
       end;
     update_flags pml4 page flags t :=
       match leaf t pml4 page with
       | Some (f, _) => (true, <[(pml4, page_path page) := (f, flags)]> t)
       | None => (false, t)
       end;
     range_inclusive s e :=
       (fun k => s + Z.of_nat k * PAGE_SIZE) <$> seq 0 (Z.to_nat ((e - s) / PAGE_SIZE + 1)) |}.

Lemma table_path_id pml4 path : table_path (table_id pml4 path) = (pml4, path).
Proof. unfold table_id, table_path. rewrite Pos2Z.opp_pos, decode_encode. done. Qed.

Lemma table_path_root pml4 : 0 <= pml4 -> table_path pml4 = (pml4, []).
Proof. intros. unfold table_path. destruct pml4; [done|done|lia]. Qed.

Lemma flat_mapping USABLE t pml4 page : 0 <= pml4 -> mapping USABLE t pml4 page = leaf t pml4 page.
Proof.
  intros H0. unfold mapping, entry, flat_mapper, flat_entry.
  rewrite table_path_root by done. cbn [app length Nat.ltb Nat.leb].
  change (negb (is_table_entry 1)) with false. cbn [negb].
  do 2 (rewrite table_path_id; cbn [app length Nat.ltb Nat.leb negb];
    change (negb (is_table_entry 1)) with false; cbn [negb]).
  rewrite table_path_id. cbn [app length Nat.ltb Nat.leb]. unfold leaf, page_path.
  by destruct (t !! _) as [[]|].
Qed.

(** The four indices determine a user page. *)
Lemma page_index_is level v : 0 <= level -> page_index level v = v / 2 ^ (12 + 9 * level) mod 512.
Proof.
  intros. unfold page_index. change 511 with (Z.ones 9). rewrite Z.land_ones, Z.shiftr_div_pow2 by lia. done.
Qed.

Lemma page_path_inj p q : user_page p -> user_page q -> page_path p = page_path q -> p = q.
Proof.
  intros [Hp [x Hx]] [Hq [y Hy]]. unfold page_path. rewrite !page_index_is by lia.
  unfold USER_END, PAGE_SIZE in *. cbn [Z.mul Z.add Pos.add Pos.mul Pos.succ]. intros [= E3 E2 E1 E0].
  enough (x = y) by congruence. subst p q.
  assert (Hdiv : forall z k, 0 <= k -> (z * 4096) / 2 ^ (12 + k) = z / 2 ^ k).
  { intros z k Hk. rewrite Z.pow_add_r by lia. change (2 ^ 12) with 4096. rewrite Z.mul_comm.
    apply Z.div_mul_cancel_l; lia. }
  rewrite !Hdiv in * by lia.
  assert (Hstep : forall z k, 0 <= k -> z / 2 ^ k = z / 2 ^ (k + 9) * 512 + (z / 2 ^ k) mod 512).
  { intros z k Hk. rewrite Z.pow_add_r, <- Z.div_div by lia. change (2 ^ 9) with 512.
    pose proof (Z.div_mod (z / 2 ^ k) 512). lia. }
  pose proof (Hstep x 0) as X0. pose proof (Hstep x 9) as X1. pose proof (Hstep x 18) as X2. pose proof (Hstep x 27) as X3.
  pose proof (Hstep y 0) as Y0. pose proof (Hstep y 9) as Y1. pose proof (Hstep y 18) as Y2. pose proof (Hstep y 27) as Y3.
  change (0 + 9) with 9 in *. change (9 + 9) with 18 in *. change (18 + 9) with 27 in *. change (27 + 9) with 36 in *.
  assert (Htop : forall z, 0 <= z < 2 ^ 35 -> z / 2 ^ 36 = 0) by (intros; apply Z.div_small; lia).
  rewrite (Htop x) in X3 by lia. rewrite (Htop y) in Y3 by lia.
  change (9 * 3) with 27 in *. change (9 * 2) with 18 in *. change (9 * 1) with 9 in *. change (9 * 0) with 0 in *.
  assert (A3 : x / 2 ^ 27 = y / 2 ^ 27) by (rewrite X3, Y3, E3 by lia; done).
  assert (A2 : x / 2 ^ 18 = y / 2 ^ 18) by (rewrite X2, Y2, E2, A3 by lia; done).
  assert (A1 : x / 2 ^ 9 = y / 2 ^ 9) by (rewrite X1, Y1, E1, A2 by lia; done).
  change (2 ^ 0) with 1 in *. rewrite <- (Z.div_1_r x), <- (Z.div_1_r y), X0, Y0, E0, A1 by lia. done.
Qed.

Lemma leaf_insert t pml4 p q f fl : user_page p -> user_page q -> (f =? 0) && (fl =? 0) = false ->
  leaf (<[(pml4, page_path p) := (f, fl)]> t) pml4 q = if decide (q = p) then Some (f, fl) else leaf t pml4 q.
Proof.
  intros Hp Hq Hne. unfold leaf. destruct (decide (q = p)) as [->|Hd].
  - by rewrite lookup_insert_eq, Hne.
  - rewrite lookup_insert_ne; [done|]. intros E. apply Hd. symmetry. apply page_path_inj; [done..|congruence].
Qed.

Lemma present_leaf f fl : has_flags fl PRESENT = true -> (f =? 0) && (fl =? 0) = false.
Proof.
  intros Hp. destruct (Z.eqb_spec fl 0) as [->|]; [done|]. by rewrite andb_false_r.
Qed.

#[export] Instance flat_laws USABLE : PageMapperLaws USABLE FlatTables.
Proof.
  split.
  - intros pml4 p f fl t a H0 Hp Hf Hfl. cbn [map_to flat_mapper]. rewrite !flat_mapping by done.
    destruct (leaf t pml4 p) as [[g gl]|] eqn:El; eexists _, _, _, []; (split; [done|]); (split; [constructor|]).
    + split; [done|]. split; [done|]. by exists gl.
    + split; [done|]. intros q Hq. rewrite !flat_mapping by done. apply leaf_insert; [done..|by apply present_leaf].
  - intros pml4 p t H0 Hp. cbn [unmap flat_mapper]. rewrite !flat_mapping by done.
    destruct (leaf t pml4 p) as [[f fl]|] eqn:El; eexists _, _; (split; [done|]).
    + split; [by exists fl|]. intros q Hq. rewrite !flat_mapping by done. unfold leaf.
      destruct (decide (q = p)) as [->|Hd]; [by rewrite lookup_delete_eq|].
      rewrite lookup_delete_ne; [done|]. intros E. apply Hd. symmetry. apply page_path_inj; [done..|congruence].
    + split; [|done]. by intros f fl [=].
  - intros pml4 p fl t f gl H0 Hp. rewrite flat_mapping by done. intros El Hfl. cbn [update_flags flat_mapper].
    rewrite El. eexists. split; [done|]. intros q Hq. rewrite !flat_mapping by done.
    apply leaf_insert; [done..|by apply present_leaf].
  - done.
Qed.

(** Writing a leaf; the tables above exist whatever is written. *)
#[export] Instance flat_writes : TableWrites FlatTables :=
  {| set_entry table i e t :=
       let '(pml4, path) := table_path table in
       if (length path =? 3)%nat then <[(pml4, path ++ [i]) := e]> t else t |}.

#[export] Instance flat_clears USABLE : ClearLaws USABLE FlatTables.
Proof.
  split.
  - intros t table i table' i'. cbn [entry set_entry flat_mapper flat_writes]. unfold flat_entry.
    destruct (table_path table) as [pml4 path], (table_path table') as [pml4' path'].
    destruct (length path =? 3)%nat; [|by right]. destruct (length (path' ++ [i']) <? 4)%nat; [by right|].
    destruct (decide ((pml4, path ++ [i]) = (pml4', path' ++ [i']))) as [->|Hne].
    + left. by rewrite lookup_insert_eq.
    + right. by rewrite lookup_insert_ne.
  - intros t table i. cbn. apply Z.divide_factor_r.
Qed.
