(* ===== verification/ProcessLife.v ===== *)
(** * ProcessLife: theorems on the memory of a process

    The life of an address space as a step relation over the operations of [ProcessMem],
    the theorems that every frame stays accounted for, that tracking is exact, that the
    reservation window is searched first fit and how a reservation can be handed out
    twice. *)

From Stdlib Require Import ZArith Lia Sorted.
From stdpp Require Import base tactics list option numbers relations sorting.
From S2P Require Import Prelude FrameAlloc Regions RegionsSpec UserMem UserMemSpec ProcessMem ProcessMemSpec FlatTables.

Open Scope rust_scope.

Section life.
Context (USABLE : Z) {VA : VirtAddrApi} {VL : VirtAddrLaws} {PF : PageFlags} {PFL : PageFlagsLaws}.
Context {T : Type} {PM : PageMapper USABLE T} {PL : PageMapperLaws USABLE T}.

Abbreviation Proc := (ProcessMemoryLayout * Machine T)%type.

(** A range the callers may map: user pages that no region covers. *)
Definition mappable (l : list MappedMemoryRegion) (va size : Z) : Prop :=
  0 <= va /\ 0 < size /\ va + size + PAGE_SIZE <= USER_END /\ unused l va size.

(** A step of the kernel on a process, [out] being the frames the kernel took for buffers
    and has neither given back nor mapped as owned. *)
Inductive life : Proc * list Z -> Proc * list Z -> Prop :=
  | life_map s s' r va size flags out :
      has_flags flags PRESENT = true -> mappable (regions s.1) va size ->
      map_owned_region USABLE va size flags s = (r, s') -> life (s, out) (s', out)
  | life_take p m m' f out :
      on_frames (T:=T) (allocate_frame USABLE) m = (Ok (Some f), m') -> life ((p, m), out) ((p, m'), f :: out)
  | life_give p m m' f out1 out2 :
      on_frames (T:=T) (deallocate_frame f) m = (Ok tt, m') ->
      life ((p, m), out1 ++ f :: out2) ((p, m'), out1 ++ out2)
  | life_own s s' start phys flags out :
      has_flags flags PRESENT = true -> user_page start -> phys <> [] -> Forall (fun f => 0 <= f) phys ->
      mappable (regions s.1) start (zlen phys * PAGE_SIZE) ->
      map_frames USABLE start phys flags Owned s = (Ok tt, s') -> life (s, phys ++ out) (s', out)
  | life_borrow s s' r start phys flags out :
      has_flags flags PRESENT = true -> user_page start -> phys <> [] -> Forall frame_address phys ->
      mappable (regions s.1) start (zlen phys * PAGE_SIZE) ->
      map_frames USABLE start phys flags Borrowed s = (r, s') -> life (s, out) (s', out)
  | life_unmap s s' b start size out :
      0 <= start -> (PAGE_SIZE | start) -> 0 < size -> (PAGE_SIZE | size) -> start + size < 2 ^ 64 ->
      unmap_region USABLE start size s = (Ok b, s') -> life (s, out) (s', out)
  | life_heap s s' r size out :
      0 < size ->
      (heap_end s.1 + page_up size <= PROCESS_HEAP_VIRT_END -> unused (regions s.1) (heap_end s.1) (page_up size)) ->
      allocate_heap USABLE size s = (r, s') -> life (s, out) (s', out)
  | life_reserve p p' m v size out :
      allocate_virtual_range (E:=ProcessMemoryError) size p = Ok (v, p') -> life ((p, m), out) ((p', m), out).

(** Everything is accounted for: [tabs] are the frames of the page tables and of the rest
    of the kernel. *)
Definition accounted (s : Proc) (out : list Z) : Prop :=
  heap_ok s.1 /\ exists view tabs, proc_ok USABLE s view (out ++ tabs).

Lemma reserve_layout {E} size p v p' : allocate_virtual_range (E:=E) size p = Ok (v, p') ->
  exists n, p' = mkLayout (top_page_table_phys p) (heap_end p) n (regions p).
Proof.
  unfold allocate_virtual_range. destruct (_ <? size); [intros [= _ <-]; by exists (next_alloc_vaddr p); destruct p|].
  destruct (align_to_page_size size) as [n| | |]; try done. cbn [rbind].
  destruct (uadd _ n) as [e| | |]; try done. cbn [rbind]. destruct (_ <? e).
  - destruct (find_free_gap n (regions p)); try done. intros [= _ <-]. by exists (next_alloc_vaddr p); destruct p.
  - destruct (va_new e) as [x| | |]; try done. cbn [rbind]. destruct (va_new _); try done.
    intros [= _ <-]. by eexists.
Qed.

Lemma proc_perm s view others others' : others ≡ₚ others' -> proc_ok USABLE s view others -> proc_ok USABLE s view others'.
Proof.
  intros Hp []. split; try done. eapply machine_perm; [|done]. by rewrite Hp.
Qed.

Lemma life_accounted s out s' out' : accounted s out -> life (s, out) (s', out') -> accounted s' out'.
Proof.
  intros [Hh (view & tabs & Hs)] Hl.
  inversion Hl as [? ? r va size flags ? Hf (H0 & Hsz & Hu & Hn) E|p m m' f ? E|p m m' f out1 out2 E|
    ? ? st phys flags ? Hf Hst Hne Hph (H0 & Hsz & Hu & Hn) E|? ? r st phys flags ? Hf Hst Hne Hph (H0 & Hsz & Hu & Hn) E|
    ? ? b st size ? H0 Ds Hsz Dn Hlt E|? ? r size ? Hsz Hn E|p p' m v size ? E]; subst.
  - destruct (map_owned_ok USABLE s view (out' ++ tabs) va size flags Hs Hf H0 Hsz Hu Hn) as (r' & s2 & tabs' & E2 & Hr).
    rewrite E in E2. injection E2 as <- <-. destruct r as [[]|e| |]; [| |done|done].
    + destruct Hr as (view' & l' & El & Hs' & _). split; [by rewrite El|]. exists view', (tabs' ++ tabs).
      revert Hs'. apply proc_perm. solve_Permutation.
    + destruct Hr as (El & Hs'). split; [by rewrite El|]. exists view, (tabs' ++ tabs).
      revert Hs'. apply proc_perm. solve_Permutation.
  - split; [done|]. exists view, tabs. destruct Hs as [? ? ? ? Hm]. cbn in *.
    destruct (allocate_ok USABLE m _ view _ Hm) as (r & m2 & E2 & _ & Hr). rewrite E in E2.
    injection E2 as <- <-. destruct Hr as (Hr & _). split; cbn; try done. revert Hr. apply machine_perm.
    solve_Permutation.
  - split; [done|]. exists view, tabs. destruct Hs as [? ? ? ? Hm]. cbn in *.
    destruct (deallocate_ok USABLE m (top_page_table_phys p) view f
      (frames_on view (owned_pages (regions p)) ++ (out1 ++ out2) ++ tabs)) as (m2 & E2 & _ & Hr).
    { revert Hm. apply machine_perm. solve_Permutation. }
    rewrite E in E2. injection E2 as <-. by split.
  - assert (Hph' : Forall frame_address phys).
    { rewrite list.Forall_forall in Hph |- *. intros f Hin. split; [by apply Hph|].
      destruct Hs as [_ _ _ _ [_ _ Hsane Hk]]. eapply holds_aligned; [done|exact Hk|]. rewrite !elem_of_app. auto. }
    rewrite <- app_assoc in Hs.
    destruct (map_frames_ok USABLE s view (out' ++ tabs) st flags phys Owned Hs Hf Hst Hne Hph' Hu Hn)
      as (r' & s2 & tabs' & E2 & Hr). rewrite E in E2. injection E2 as <- <-.
    destruct Hr as (l' & El & Hs' & _). split; [by rewrite El|].
    eexists _, (tabs' ++ tabs). eapply proc_perm; [|exact Hs']. solve_Permutation.
  - destruct (map_frames_ok USABLE s view (out' ++ tabs) st flags phys Borrowed Hs Hf Hst Hne Hph Hu Hn)
      as (r' & s2 & tabs' & E2 & Hr). rewrite E in E2. injection E2 as <- <-.
    destruct r as [[]|e| |]; [| |done|done].
    + destruct Hr as (l' & El & Hs' & _). split; [by rewrite El|].
      eexists _, (tabs' ++ tabs). eapply proc_perm; [|exact Hs']. solve_Permutation.
    + destruct Hr as (El & Hs'). split; [by rewrite El|]. exists view, (tabs' ++ tabs).
      revert Hs'. apply proc_perm. cbn. solve_Permutation.
  - destruct (unmap_ok USABLE s view (out' ++ tabs) st size Hs H0 Ds Hsz Dn Hlt) as (b' & s2 & E2 & _ & Hr).
    rewrite E in E2. injection E2 as <- <-. destruct b.
    + destruct Hr as (l' & El & Hs' & _). split; [by rewrite El|]. by eexists _, tabs.
    + subst. split; [done|]. by eexists _, tabs.
  - destruct (allocate_heap_ok USABLE s view (out' ++ tabs) size Hs Hh Hsz Hn) as (r' & s2 & view' & tabs' & E2 & Hs' & Hh' & _).
    rewrite E in E2. injection E2 as <- <-. split; [done|]. exists view', (tabs' ++ tabs).
    revert Hs'. apply proc_perm. solve_Permutation.
  - destruct (reserve_layout _ _ _ _ E) as (n & ->). split; [done|]. exists view, tabs.
    by apply (proc_ok_layout USABLE p).
Qed.

(** A fresh address space: no user page is mapped and nothing is tracked. *)
Definition fresh_space (s : Proc) (top : Z) (tabs : list Z) : Prop :=
  with_page_table (E:=ProcessMemoryError) top = Ok s.1 /\ machine_ok USABLE s.2 top (fun _ => None) tabs.

Lemma fresh_accounted s top tabs : fresh_space s top tabs -> accounted s [].
Proof.
  intros [Hl Hm]. unfold with_page_table in Hl.
  rewrite !va_new_user in Hl by (unfold PROCESS_HEAP_VIRT_START, PROCESS_USER_VADDR_ALLOC_START; lia).
  cbn [rbind] in Hl. destruct s as [p m]. cbn [fst snd] in *. injection Hl as <-. split.
  - split; cbn; [unfold PROCESS_HEAP_VIRT_START, PROCESS_HEAP_VIRT_END, PROCESS_HEAP_SIZE_BYTES, PROCESS_WINDOW_BUFFER_BASE; unfold PROCESS_HEAP_VIRT_START; lia|].
    exists (PROCESS_HEAP_VIRT_START / PAGE_SIZE). reflexivity.
  - exists (fun _ => None), tabs. split; cbn; try done; [split; constructor|constructor|].
    intros q _. split; [by intros [? ?]|]. intros (f & o & Hf). by apply covers_nil in Hf.
Qed.

End life.

(** ** What the operations promise *)

Section theorems.
Context (USABLE : Z) {VA : VirtAddrApi} {VL : VirtAddrLaws} {PF : PageFlags} {PFL : PageFlagsLaws}.
Context {T : Type} {PM : PageMapper USABLE T} {PL : PageMapperLaws USABLE T}.

Abbreviation Proc := (ProcessMemoryLayout * Machine T)%type.

(** C5: along any life of an address space whose mappings go to pages no region covers yet,
    whichever operations fail, a user page is mapped exactly when it is tracked, regions do not overlap, and no frame is at once
    free, owned by the process twice, or owned and held elsewhere; at the end, unmapping
    the tracked regions gives back every frame the process owns and leaves no user page
    mapped.  (Segments of a program that share a page are mapped by ElfLoad.v; when such a
    mapping fails, the pages of the earlier segment stay tracked without being mapped:
    [rollback_unmaps_earlier_segment].) *)
Theorem process_frames_accounted s0 top tabs0 s out :
  fresh_space USABLE s0 top tabs0 -> rtc (life USABLE) (s0, []) (s, out) ->
  exists view tabs,
    (forall q, user_page q -> mapping USABLE (tables s.2) (top_page_table_phys s.1) q = view q) /\
    (forall q, user_page q -> is_Some (view q) <-> exists f o, covers (regions s.1) q f o) /\
    tidy (regions s.1) /\ apart (regions s.1) /\
    NoDup (free_list (frames s.2) ++ frames_on view (owned_pages (regions s.1)) ++ out ++ tabs) /\
    exists m', unmap_regions USABLE (top_page_table_phys s.1) (regions s.1) s.2 = (Ok tt, m') /\
      (forall q, user_page q -> mapping USABLE (tables m') (top_page_table_phys s.1) q = None) /\
      holds USABLE (frames m') (out ++ tabs).
Proof.
  intros H0 Hr. assert (Ha : accounted USABLE s out).
  { enough (Hall : forall x, rtc (life USABLE) (s0, []) x -> accounted USABLE x.1 x.2) by apply (Hall _ Hr).
    apply rtc_ind_r; [by eapply fresh_accounted|]. intros [x o] [y o'] _ Hl Hx. by eapply life_accounted. }
  destruct Ha as [_ (view & tabs & Hs)]. pose proof Hs as [Ht Hp Hc Hm [H0' Hv Hsane Hk]].
  exists view, tabs. destruct (holds_facts _ _ _ Hsane Hk) as [Hn _].
  destruct (free_regions_ok USABLE s view (out ++ tabs) Hs) as (m' & E & [_ Hv' _ Hk']).
  split_and!; try done; [by apply Ht..|]. by exists m'.
Qed.

(** Mapping a range of user memory gives every page that had no frame a fresh zeroed
    one and merges the flags of the others, without touching other pages or the contents
    of frames in use; when it fails every page before the failing one is unmapped and its
    frame freed, the ones an earlier call had mapped included. *)
Theorem map_virt_mem_region_effect pml4 prot m view va size held :
  has_flags prot PRESENT = true -> clean view -> 0 <= va -> 0 < size ->
  va + size + PAGE_SIZE <= USER_END ->
  machine_ok USABLE m pml4 view (frames_on view (pages_of va size) ++ held) ->
  exists r m', map_virt_mem_region USABLE pml4 va size prot m = (r, m') /\
    mapped_or_undone USABLE pml4 prot m view (pages_of va size) held r m'.
Proof. intros. by apply map_region_ok. Qed.

(** C38: growing the heap by an allocation hands out the old end, adds exactly the whole
    pages of the size and stays inside the heap's window; it is refused exactly when it
    would not, and a failure in the mapper leaves the heap as it was. *)
Theorem heap_grows_in_bounds s view others size : proc_ok USABLE s view others -> heap_ok s.1 -> 0 < size ->
  (heap_end s.1 + page_up size <= PROCESS_HEAP_VIRT_END -> unused (regions s.1) (heap_end s.1) (page_up size)) ->
  exists r s' view' tabs, allocate_heap USABLE size s = (r, s') /\
    proc_ok USABLE s' view' (tabs ++ others) /\ heap_ok s'.1 /\ heap_grown s s' size r.
Proof. intros. by eapply allocate_heap_ok. Qed.

End theorems.

Section regions_theorems.
Context {VA : VirtAddrApi} {VL : VirtAddrLaws} {E : Type}.


Lemma reserve_range_ok p size : tidy (regions p) ->
  PROCESS_USER_VADDR_ALLOC_START <= next_alloc_vaddr p <= PROCESS_USER_VADDR_ALLOC_END ->
  0 < size <= PROCESS_USER_VADDR_ALLOC_MAX_SIZE ->
  let n := page_up size in
  let window v := PROCESS_USER_VADDR_ALLOC_START <= v /\ v + n <= PROCESS_USER_VADDR_ALLOC_END /\ free v n (regions p) in
  exists v p', allocate_virtual_range (E:=E) size p = Ok (v, p') /\ regions p' = regions p /\
    if decide (next_alloc_vaddr p + n <= PROCESS_USER_VADDR_ALLOC_END) then
      v = Some (next_alloc_vaddr p) /\ next_alloc_vaddr p' = next_alloc_vaddr p + n
    else p' = p /\
      match v with
      | Some v => (PAGE_SIZE | v) /\ window v /\ forall w, window w -> v <= w
      | None => forall w, ~ window w
      end.
Proof.
  intros Ht Hp Hsz n window. pose proof (page_up_bounds size) as [Hup _]. fold n in Hup.
  assert (Hn : n <= PROCESS_USER_VADDR_ALLOC_MAX_SIZE)
    by (apply (page_up_pages size (PROCESS_USER_VADDR_ALLOC_MAX_SIZE / PAGE_SIZE)); cbn; apply Hsz).
  assert (Hend : PROCESS_USER_VADDR_ALLOC_END = 0x60000000) by reflexivity.
  assert (Hstart : PROCESS_USER_VADDR_ALLOC_START = 0x10000000) by reflexivity.
  assert (Hmax : PROCESS_USER_VADDR_ALLOC_MAX_SIZE = 0x50000000) by reflexivity.
  unfold allocate_virtual_range. rewrite (proj2 (Z.ltb_ge _ _)) by lia.
  rewrite align_page by (unfold PAGE_SIZE; lia). cbn [rbind]. fold n.
  unfold uadd. rewrite (proj2 (Z.ltb_lt _ _)) by lia. cbn [rbind].
  destruct (Z.ltb_spec PROCESS_USER_VADDR_ALLOC_END (next_alloc_vaddr p + n)) as [Hover|Hfit].
  - destruct (gap_ok (E:=E) n (regions p) Ht) as (g & Eg & Hg); [lia|]. rewrite Eg. cbn [rbind].
    rewrite (page_up_aligned n) in Hg by apply page_up_divide.
    exists g, p. split; [done|]. split; [done|]. rewrite decide_False by lia. by split.
  - rewrite !va_new_user by lia. cbn [rbind]. eexists _, _. split; [done|]. split; [done|].
    by rewrite decide_True.
Qed.

(** A reservation takes the range at the reservation pointer while it fits and else
    the lowest range of the window that no mapped region meets; it is refused exactly when
    there is none. *)
Theorem reserve_first_fit p size : tidy (regions p) ->
  PROCESS_USER_VADDR_ALLOC_START <= next_alloc_vaddr p <= PROCESS_USER_VADDR_ALLOC_END ->
  0 < size <= PROCESS_USER_VADDR_ALLOC_MAX_SIZE ->
  let n := page_up size in
  let window v := PROCESS_USER_VADDR_ALLOC_START <= v /\ v + n <= PROCESS_USER_VADDR_ALLOC_END /\ free v n (regions p) in
  exists v p', allocate_virtual_range (E:=E) size p = Ok (v, p') /\ regions p' = regions p /\
    if decide (next_alloc_vaddr p + n <= PROCESS_USER_VADDR_ALLOC_END) then
      v = Some (next_alloc_vaddr p) /\ next_alloc_vaddr p' = next_alloc_vaddr p + n
    else p' = p /\
      match v with
      | Some v => (PAGE_SIZE | v) /\ window v /\ forall w, window w -> v <= w
      | None => forall w, ~ window w
      end.
Proof. intros. by apply reserve_range_ok. Qed.

End regions_theorems.

(** ** Concrete runs *)

Definition ten_frames : list Entry := [mkEntry 4096 40960 0].

Lemma ten_frames_sane : sane 0 ten_frames.
Proof.
  constructor.
  - repeat constructor; simpl; lia.
  - intros [|i] [|j] r s Hij Hr Hs; simpl in Hr, Hs; simplify_eq; done.
Qed.

(** A machine with ten frames and the layout of a new process whose root is at 0. *)
Definition new_machine : Machine FlatTables := mkMachine ∅ (init ten_frames) (fun _ => 7).
Definition new_layout : ProcessMemoryLayout := mkLayout 0 PROCESS_HEAP_VIRT_START PROCESS_USER_VADDR_ALLOC_START [].

Lemma new_machine_ok : machine_ok 0 new_machine 0 (fun _ => None) [].
Proof.
  split; [done| |apply ten_frames_sane|apply init_holds].
  intros q _. rewrite flat_mapping by done. reflexivity.
Qed.

Definition RW : Z := 3.

(** Two regions of three and two pages, then the middle page of the first one goes. *)
Definition demo_life : ProcessMemoryLayout * Machine FlatTables :=
  let s := (new_layout, new_machine) in
  let s := (map_owned_region 0 0x400000 10000 RW s).2 in
  let s := (map_frames 0 0x10000000 [36864; 40960] RW Borrowed s).2 in
  (unmap_region 0 0x401000 4096 s).2.

Example demo_life_regions : regions demo_life.1 =
  [mkRegion 0x400000 4096 RW Owned; mkRegion 0x402000 4096 RW Owned; mkRegion 0x10000000 8192 RW Borrowed].
Proof. vm_compute. reflexivity. Qed.

(** Reserve, map, unmap and reserve again, on the layout alone. *)
Definition reserve (size : Z) (p : ProcessMemoryLayout) : option Z * ProcessMemoryLayout :=
  match allocate_virtual_range (E:=ProcessMemoryError) size p with Ok r => r | _ => (None, p) end.

Definition tracked (va size : Z) (p : ProcessMemoryLayout) : ProcessMemoryLayout :=
  match track_region (E:=ProcessMemoryError) (mkRegion va size RW Borrowed) (regions p) with
  | Ok l => set_regions l p
  | _ => p
  end.

Definition untracked (i : nat) (va size : Z) (p : ProcessMemoryLayout) : ProcessMemoryLayout :=
  match split_region (E:=ProcessMemoryError) i va (va + size) (regions p) with
  | Ok l => set_regions l p
  | _ => p
  end.

(** The window is filled up to its last page and the two pages before that are unmapped. *)
Definition nearly_full : ProcessMemoryLayout :=
  let big := PROCESS_USER_VADDR_ALLOC_MAX_SIZE - 12288 in
  let p := tracked PROCESS_USER_VADDR_ALLOC_START big (reserve big new_layout).2 in
  let p := tracked (PROCESS_USER_VADDR_ALLOC_END - 12288) 8192 (reserve 8192 p).2 in
  untracked 0 (PROCESS_USER_VADDR_ALLOC_END - 12288) 8192 p.

(** A gap found below the reservation pointer may reach past it, and the pointer does
    not move: the next reservation hands out pages of a range that is already mapped. *)
Theorem reserved_twice :
  let first := reserve 12288 nearly_full in
  let p := tracked (PROCESS_USER_VADDR_ALLOC_END - 12288) 12288 first.2 in
  let second := reserve 4096 p in
  first.1 = Some (PROCESS_USER_VADDR_ALLOC_END - 12288) /\
  second.1 = Some (PROCESS_USER_VADDR_ALLOC_END - 4096) /\
  is_range_tracked (E:=ProcessMemoryError) (PROCESS_USER_VADDR_ALLOC_END - 4096) 4096 (regions p) = Ok true.
Proof. vm_compute. repeat split. Qed.

Definition three_frames : list Entry := [mkEntry 4096 12288 0].

(** Two segments that share the page 0x401000; the frames run out in the second one. *)
Example rollback_unmaps_earlier_segment :
  let s0 := (new_layout, mkMachine ∅ (init three_frames) (fun _ => 7)) in
  let s1 := (map_owned_region (T:=FlatTables) 0 0x400000 8192 RW s0).2 in
  let '(r, s2) := map_owned_region (T:=FlatTables) 0 0x401000 12288 RW s1 in
  mapping 0 (tables s1.2) 0 0x401000 = Some (8192, 7) /\
  r = Err FrameAllocationFailed /\
  mapping 0 (tables s2.2) 0 0x401000 = None /\
  is_range_tracked (E:=ProcessMemoryError) 0x401000 4096 (regions s2.1) = Ok true /\
  free_list (frames s2.2) = [8192; 12288].
Proof. vm_compute. repeat split. Qed.

(** ** Witnesses *)

Lemma fresh_demo : fresh_space 0 (new_layout, new_machine) 0 [].
Proof. split; [reflexivity|apply new_machine_ok]. Defined.

(** A computable test for [unused]. *)
Definition clear_of (va size : Z) (r : MappedMemoryRegion) : bool :=
  (r_end r <=? va / PAGE_SIZE * PAGE_SIZE) || (page_up (va + size) <=? start_virt r).

Lemma clear_unused l va size : forallb (clear_of va size) l = true -> unused l va size.
Proof.
  intros Hf a f o Hp (r & Hr & Ha & _). rewrite List.forallb_forall in Hf.
  specialize (Hf r (proj1 (list_elem_of_In _ _) Hr)). unfold clear_of in Hf. apply orb_true_iff in Hf as [Hf%Z.leb_le|Hf%Z.leb_le];
    unfold page_range, in_region in *; lia.
Qed.

Lemma pair_fst {A B} (x : A * B) a : x.1 = a -> x = (a, x.2).
Proof. intros <-. apply surjective_pairing. Qed.

Lemma demo_life_steps : rtc (life 0) ((new_layout, new_machine), []) (demo_life, []).
Proof.
  eapply rtc_l; [eapply (life_map 0) with (va := 0x400000) (size := 10000) (flags := RW)|].
  { reflexivity. }
  { split; [lia|]. split; [lia|]. split; [vm_compute; discriminate|]. by apply clear_unused. }
  { apply surjective_pairing. }
  eapply rtc_l; [eapply (life_borrow 0) with (start := 0x10000000) (phys := [36864; 40960]) (flags := RW)|].
  { reflexivity. }
  { split; [unfold USER_END; lia|]. by exists 65536. }
  { done. }
  { repeat constructor; try lia; [by exists 9|by exists 10]. }
  { split; [lia|]. split; [vm_compute; reflexivity|]. split; [vm_compute; discriminate|].
    apply clear_unused. vm_compute. reflexivity. }
  { apply surjective_pairing. }
  eapply rtc_l; [eapply (life_unmap 0) with (start := 0x401000) (size := 4096) (b := true)|].
  { lia. }
  { by exists 1025. }
  { lia. }
  { by exists 1. }
  { lia. }
  { unfold demo_life. cbn zeta. apply pair_fst. vm_compute. reflexivity. }
  apply rtc_refl.
Defined.

Lemma process_frames_accounted_witness :
  exists view tabs, NoDup (free_list (frames demo_life.2) ++
      frames_on view (owned_pages (regions demo_life.1)) ++ [] ++ tabs) /\
    exists m', unmap_regions 0 0 (regions demo_life.1) demo_life.2 = (Ok tt, m').
Proof.
  destruct (process_frames_accounted 0 _ _ _ _ _ fresh_demo demo_life_steps)
    as (view & tabs & _ & _ & _ & _ & Hn & m' & E & _).
  exists view, tabs. split; [exact Hn|]. exists m'. exact E.
Defined.

Lemma map_virt_mem_region_effect_witness :
  exists r m', map_virt_mem_region 0 0 0x400000 10000 RW new_machine = (r, m') /\
    mapped_or_undone 0 0 RW new_machine (fun _ => None) (pages_of 0x400000 10000) [] r m'.
Proof.
  apply (map_virt_mem_region_effect 0 0 RW new_machine (fun _ => None) 0x400000 10000 []).
  - reflexivity.
  - intros q f fl [=].
  - lia.
  - lia.
  - unfold USER_END, PAGE_SIZE. lia.
  - rewrite frames_on_none by done. apply new_machine_ok.
Defined.

Lemma new_proc_ok : proc_ok 0 (new_layout, new_machine) (fun _ => None) [].
Proof.
  split; cbn; try done; [split; constructor|constructor| |apply new_machine_ok].
  intros q _. split; [by intros [? ?]|]. intros (f & o & Hf). by apply covers_nil in Hf.
Defined.

Lemma heap_grows_in_bounds_witness :
  exists r s' view' tabs, allocate_heap 0 5000 (new_layout, new_machine) = (r, s') /\
    proc_ok 0 s' view' (tabs ++ []) /\ heap_ok s'.1 /\ heap_grown (new_layout, new_machine) s' 5000 r.
Proof.
  apply (heap_grows_in_bounds 0 _ _ _ 5000 new_proc_ok); [|lia|].
  - split; [vm_compute; split; discriminate|]. by exists 393216.
  - intros _. by apply clear_unused.
Defined.

Definition one_region : list MappedMemoryRegion := [mkRegion 0x400000 12288 RW Owned].

Lemma one_region_tidy : tidy one_region.
Proof.
  split; [|repeat constructor]. constructor; [|constructor].
  split; cbn; [lia|lia|unfold USER_END; lia|by exists 1024|by exists 3].
Defined.


Lemma reserve_first_fit_witness :
  exists v p', allocate_virtual_range (E:=Empty_set) 5000 (set_regions one_region new_layout) = Ok (v, p') /\
    v = Some PROCESS_USER_VADDR_ALLOC_START.
Proof.
  destruct (reserve_first_fit (E:=Empty_set) (set_regions one_region new_layout) 5000 one_region_tidy)
    as (v & p' & E & _ & Hv); [split; vm_compute; discriminate|split; vm_compute; discriminate || reflexivity|].
  exists v, p'. split; [exact E|]. rewrite decide_True in Hv by (vm_compute; discriminate). apply Hv.
Defined.
