(* ===== verification/CircularBuffer.v ===== *)
(** * CircularBuffer: doubly mapped buffers, kernel/src/data_structures/circular_buffer.rs

    The same frames mapped twice, back to back, in a process: the first view owns them, the
    second borrows them.  The theorem shows that both views lead to the same frames and
    that every failure leaves the process as it was. *)

From Stdlib Require Import ZArith Lia Sorted.
From stdpp Require Import base tactics list option numbers sorting.
From S2P Require Import Prelude FrameAlloc Regions RegionsSpec UserMem UserMemSpec ProcessMem ProcessMemSpec FlatTables ProcessLife.

Open Scope rust_scope.

Definition CIRCULAR_BUFFER_MAX_VIEW_BYTES : Z := PROCESS_USER_VADDR_ALLOC_MAX_SIZE / 2.

Record CircularBufferInfo : Type := mkInfo {
  virtual_base : Z;
  view_size : Z;
  total_virtual_size : Z;
}.

Section circular_buffer.
Context (USABLE : Z) {VA : VirtAddrApi} {PF : PageFlags} {T : Type} {PM : PageMapper USABLE T}.

Abbreviation Proc := (ProcessMemoryLayout * Machine T)%type.
Abbreviation MM := (stM Proc MapToError).

Definition on_phys {A} (c : stM (Machine T) MapToError A) : MM A := on_machine (fun _ => c).

Fixpoint free_frames (phys : list Z) : MM unit :=
  match phys with
  | [] => sret tt
  | frame_phys :: phys =>
      on_phys (on_frames (deallocate_frame (containing_address frame_phys))) ;;; free_frames phys
  end.

(** The loop that takes and zeroes the frames; it stops at the first refusal. *)
Fixpoint take_frames (n : nat) (phys : list Z) : MM (bool * list Z) :=
  match n with
  | O => sret (true, phys)
  | S n =>
      let! frame := on_phys (on_frames (allocate_frame USABLE)) in
      match frame with
      | None => sret (false, phys)
      | Some frame => on_phys (zero_frame frame) ;;; take_frames n (phys ++ [frame])
      end
  end.

Definition set_next (n : Z) : MM unit := fun '(p, m) =>
  (Ok tt, (mkLayout (top_page_table_phys p) (heap_end p) n (regions p), m)).

Definition reserve_range (size : Z) : MM (option Z) := fun '(p, m) =>
  match allocate_virtual_range size p with
  | Ok (v, p) => (Ok v, (p, m))
  | Err e => (Err e, (p, m))
  | Panic => (Panic, (p, m))
  | OutOfFuel => (OutOfFuel, (p, m))
  end.

(** [is_err()] on a mapping call. *)
Definition succeeds (c : MM unit) : MM bool := fun s =>
  match c s with
  | (Ok _, s) => (Ok true, s)
  | (Err _, s) => (Ok false, s)
  | (Panic, s) => (Panic, s)
  | (OutOfFuel, s) => (OutOfFuel, s)
  end.

Definition buffer_flags (page_flags : Z) : Z :=
  let user_flags := Z.lor (Z.lor PRESENT USER_ACCESSIBLE) NO_EXECUTE in
  if has_flags page_flags WRITABLE then Z.lor user_flags WRITABLE else user_flags.

Definition map_for_user (size : Z) (page_flags : Z) : MM (option CircularBufferInfo) :=
  if (size =? 0) || (CIRCULAR_BUFFER_MAX_VIEW_BYTES <? size) then sret None else
  let! data_size := slift (align_up size PAGE_SIZE) in
  let total_virt_size := 2 * data_size in
  let user_flags := buffer_flags page_flags in
  let! previous_next_alloc_vaddr := (fun '(p, m) => (Ok (next_alloc_vaddr p), (p, m))) in
  let! base := reserve_range total_virt_size in
  match base with
  | None => sret None
  | Some virt_view_base =>
      let! virt_second_view_base := slift (va_add virt_view_base data_size) in
      let! (ok, phys) := take_frames (Z.to_nat (data_size / PAGE_SIZE)) [] in
      if negb ok then free_frames phys ;;; set_next previous_next_alloc_vaddr ;;; sret None else
      let! ok := succeeds (map_frames USABLE virt_view_base phys user_flags Owned) in
      if negb ok then free_frames phys ;;; set_next previous_next_alloc_vaddr ;;; sret None else
      let! ok := succeeds (map_frames USABLE virt_second_view_base phys user_flags Borrowed) in
      if negb ok then
        let! b := unmap_region USABLE virt_view_base data_size in
        set_next previous_next_alloc_vaddr ;;; sret None
      else sret (Some (mkInfo virt_view_base data_size total_virt_size))
  end.

End circular_buffer.

Section spec.
Context (USABLE : Z) {VA : VirtAddrApi} {VL : VirtAddrLaws} {PF : PageFlags} {PFL : PageFlagsLaws}.
Context {T : Type} {PM : PageMapper USABLE T} {PL : PageMapperLaws USABLE T}.

Abbreviation Proc := (ProcessMemoryLayout * Machine T)%type.

Lemma buffer_flags_present fl : has_flags (buffer_flags fl) PRESENT = true.
Proof.
  unfold buffer_flags. assert (H : has_flags (Z.lor (Z.lor PRESENT USER_ACCESSIBLE) NO_EXECUTE) PRESENT = true).
  { apply lor_present, lor_present. unfold has_flags. rewrite Z.land_diag. apply Z.eqb_refl. }
  destruct (has_flags fl WRITABLE); [by apply lor_present|done].
Qed.

(** Held frames are addresses of frames. *)
Lemma held_address a held f : sane USABLE (memory_map a) -> holds USABLE a held -> f ∈ held -> frame_address f.
Proof.
  intros Hs Hh Hin. split; [|by eapply holds_aligned].
  destruct (holds_facts USABLE a _ Hs Hh) as [_ Hf].
  destruct (Hf f) as (_ & i & r & Hr & _ & Hb & _); [apply elem_of_app; by right|].
  pose proof (proj1 (list.Forall_lookup _ _) (sane_bounds _ _ Hs) i r Hr) as (? & _). cbn in *. lia.
Qed.

Lemma free_frames_ok phys : forall p m view others, proc_ok USABLE (p, m) view (phys ++ others) ->
  exists m', free_frames (T:=T) phys (p, m) = (Ok tt, (p, m')) /\ proc_ok USABLE (p, m') view others.
Proof.
  induction phys as [|f phys IH]; intros p m view others Hs; [by exists m|].
  pose proof Hs as [? ? ? ? Hm]. cbn in *. pose proof Hm as [_ _ Hsane Hk].
  cbn [free_frames]. rewrite containing_aligned.
  2:{ eapply held_address; [done|exact Hk|]. rewrite elem_of_app, elem_of_cons. auto. }
  destruct (deallocate_ok USABLE m (top_page_table_phys p) view f
    (frames_on view (owned_pages (regions p)) ++ phys ++ others)) as (m1 & E1 & _ & Hm1).
  { revert Hm. apply machine_perm. solve_Permutation. }
  unfold sbind at 1, on_phys, on_machine. rewrite E1. apply IH. by split.
Qed.

Lemma take_frames_ok n : forall phys p m view others, proc_ok USABLE (p, m) view (phys ++ others) ->
  exists b phys' m', take_frames USABLE n phys (p, m) = (Ok (b, phys'), (p, m')) /\
    proc_ok USABLE (p, m') view (phys' ++ others) /\ (b = true -> length phys' = (length phys + n)%nat).
Proof.
  induction n as [|n IH]; intros phys p m view others Hs.
  { exists true, phys, m. split; [done|]. split; [done|]. lia. }
  pose proof Hs as [? ? ? ? Hm]. cbn in *.
  destruct (allocate_ok USABLE _ _ _ _ Hm) as (r & m1 & E1 & _ & Hr).
  unfold sbind at 1, on_phys at 1, on_machine at 1. rewrite E1. destruct r as [f|].
  - destruct Hr as (Hm1 & _). destruct (zero_ok USABLE _ _ _ _ _ Hm1) as (m2 & E2 & Hm2 & _).
    unfold sbind at 1, on_phys at 1, on_machine at 1. rewrite E2.
    destruct (IH (phys ++ [f]) p m2 view others) as (b & phys' & m' & E & Hs' & Hl).
    { split; try done. cbn. revert Hm2. apply machine_perm. solve_Permutation. }
    exists b, phys', m'. split; [exact E|]. split; [done|].
    intros Hb. rewrite (Hl Hb), length_app. cbn. lia.
  - exists false, phys, m1. split; [done|]. split; [by split|done].
Qed.

Lemma set_next_ok p m view others n : proc_ok USABLE (p, m) view others ->
  exists p', set_next n (p, m) = (Ok tt, (p', m)) /\ regions p' = regions p /\ heap_end p' = heap_end p /\
    next_alloc_vaddr p' = n /\ proc_ok USABLE (p', m) view others.
Proof. intros Hs. eexists. split; [done|]. split_and!; try done. by apply (proc_ok_layout USABLE p). Qed.

(** The process is as it was but for the frames of new tables. *)
Definition unchanged (s s' : Proc) (view : Z -> option (Z * Z)) (others : list Z) : Prop :=
  next_alloc_vaddr s'.1 = next_alloc_vaddr s.1 /\ heap_end s'.1 = heap_end s.1 /\
  (forall a f o, covers (regions s'.1) a f o <-> covers (regions s.1) a f o) /\
  exists tabs view', proc_ok USABLE s' view' (tabs ++ others) /\ forall q, user_page q -> view' q = view q.

(** Both views lead to the same frames, which the process owns. *)
Definition mirrored (s s' : Proc) (view : Z -> option (Z * Z)) (others : list Z) (fl : Z) (i : CircularBufferInfo) : Prop :=
  exists phys view' tabs, proc_ok USABLE s' view' (tabs ++ others) /\
    length phys = Z.to_nat (view_size i / PAGE_SIZE) /\
    (forall k f, phys !! k = Some f ->
      view' (virtual_base i + Z.of_nat k * PAGE_SIZE) = Some (f, Z.lor fl USER_ACCESSIBLE) /\
      view' (virtual_base i + view_size i + Z.of_nat k * PAGE_SIZE) = Some (f, Z.lor fl USER_ACCESSIBLE)) /\
    (forall a f o, covers (regions s'.1) a f o <-> covers (regions s.1) a f o \/
      (virtual_base i <= a < virtual_base i + view_size i /\ fl = f /\ Owned = o) \/
      (virtual_base i + view_size i <= a < virtual_base i + total_virtual_size i /\ fl = f /\ Borrowed = o)).

Lemma view_max : CIRCULAR_BUFFER_MAX_VIEW_BYTES = 0x28000000.
Proof. reflexivity. Qed.

Lemma reserved_user v n : PROCESS_USER_VADDR_ALLOC_START <= v -> v + n <= PROCESS_USER_VADDR_ALLOC_END ->
  0 <= v /\ v + n + 2 * PAGE_SIZE <= USER_END.
Proof.
  unfold PROCESS_USER_VADDR_ALLOC_END, PROCESS_USER_VADDR_ALLOC_START, PROCESS_USER_VADDR_ALLOC_MAX_SIZE,
    USER_END, PAGE_SIZE. lia.
Qed.

(** The reservation of both views: a page aligned range of the window that no region meets. *)
Lemma reserve_views_ok p m view others n :
  proc_ok USABLE (p, m) view others -> (PAGE_SIZE | n) -> 0 < n <= CIRCULAR_BUFFER_MAX_VIEW_BYTES ->
  PROCESS_USER_VADDR_ALLOC_START <= next_alloc_vaddr p <= PROCESS_USER_VADDR_ALLOC_END ->
  (PAGE_SIZE | next_alloc_vaddr p) ->
  (next_alloc_vaddr p + 2 * n <= PROCESS_USER_VADDR_ALLOC_END -> free (next_alloc_vaddr p) (2 * n) (regions p)) ->
  exists v p', reserve_range (2 * n) (p, m) = (Ok v, (p', m)) /\
    regions p' = regions p /\ heap_end p' = heap_end p /\ proc_ok USABLE (p', m) view others /\
    match v with
    | Some v => (PAGE_SIZE | v) /\ PROCESS_USER_VADDR_ALLOC_START <= v /\ v + 2 * n <= PROCESS_USER_VADDR_ALLOC_END /\
        free v (2 * n) (regions p)
    | None => p' = p
    end.
Proof.
  intros Hs Dn Hn Hp Dp Hfree.
  assert (Hmax : 2 * n <= PROCESS_USER_VADDR_ALLOC_MAX_SIZE)
    by (rewrite view_max in Hn; unfold PROCESS_USER_VADDR_ALLOC_MAX_SIZE; lia).
  assert (D2 : (PAGE_SIZE | 2 * n)) by (by apply Z.divide_mul_r).
  destruct (reserve_range_ok (E:=MapToError) p (2 * n) (po_tidy _ _ _ _ Hs) Hp) as (v & p' & E & El & Hv); [lia|].
  rewrite (page_up_aligned (2 * n)) in Hv by done.
  unfold reserve_range. rewrite E. exists v, p'. split; [done|]. split; [done|].
  destruct (reserve_layout _ _ _ _ E) as (nx & ->). split; [done|]. split; [by apply (proc_ok_layout USABLE p)|].
  destruct decide as [Hfit|Hover].
  - destruct Hv as [-> _]. split_and!; try lia; [done|by apply Hfree].
  - destruct Hv as [Ep Hv]. destruct v as [v|]; [|done]. destruct Hv as (Dv & (H1 & H2 & H3) & _). done.
Qed.

Lemma free_unused l v n w k : (PAGE_SIZE | w) -> (PAGE_SIZE | k) -> v <= w -> w + k <= v + n ->
  free v n l -> unused l w k.
Proof.
  intros Dw Dk H1 H2 Hf a f o Hr (r & Hin & Ha & _). apply (Hf r a Hin Ha).
  unfold page_range in Hr. rewrite page_up_aligned in Hr by (by apply Z.divide_add_r).
  destruct Dw as [x ->]. rewrite Z.div_mul in Hr by (unfold PAGE_SIZE; lia). lia.
Qed.

Lemma range_aligned w k a : (PAGE_SIZE | w) -> (PAGE_SIZE | k) -> page_range w k a <-> w <= a < w + k.
Proof.
  intros Dw Dk. unfold page_range. rewrite page_up_aligned by (by apply Z.divide_add_r).
  destruct Dw as [x ->]. by rewrite Z.div_mul by (unfold PAGE_SIZE; lia).
Qed.

Lemma framed_at view start flags phys k f : phys !! k = Some f ->
  framed view start flags phys (length phys) (start + Z.of_nat k * PAGE_SIZE) = Some (f, Z.lor flags USER_ACCESSIBLE).
Proof.
  intros Hf. unfold framed. rewrite decide_True; [by rewrite page_offset, Hf|].
  apply elem_of_pages_from. exists k. split; [by eapply lookup_lt_Some|done].
Qed.

Lemma framed_outside view start flags phys n q : (q ∉ pages_from start n) -> framed view start flags phys n q = view q.
Proof. intros Hq. unfold framed. by rewrite decide_False. Qed.

(** The two mapping calls on frames that were taken for them. *)
Lemma map_views_ok p m view others v n phys fl :
  proc_ok USABLE (p, m) view (phys ++ others) -> has_flags fl PRESENT = true ->
  PROCESS_USER_VADDR_ALLOC_START <= v -> v + 2 * n <= PROCESS_USER_VADDR_ALLOC_END ->
  (PAGE_SIZE | v) -> 0 < n -> n = zlen phys * PAGE_SIZE -> free v (2 * n) (regions p) -> Forall frame_address phys ->
  exists b m1 l1, succeeds (map_frames USABLE v phys fl Owned) (p, m) = (Ok b, (set_regions l1 p, m1)) /\
    if b then
      exists b2 m2 l2 tabs, succeeds (map_frames USABLE (v + n) phys fl Borrowed) (set_regions l1 p, m1) =
          (Ok b2, (set_regions l2 p, m2)) /\
        if b2 then
          proc_ok USABLE (set_regions l2 p, m2) (framed (framed view v fl phys (length phys)) (v + n) fl phys (length phys)) (tabs ++ others) /\
          (forall a f o, covers l2 a f o <-> covers (regions p) a f o \/
            (v <= a < v + n /\ fl = f /\ Owned = o) \/ (v + n <= a < v + 2 * n /\ fl = f /\ Borrowed = o))
        else
          proc_ok USABLE (set_regions l2 p, m2) (framed view v fl phys (length phys)) (tabs ++ others) /\
          (exists x, x ∈ l2 /\ contains v (v + n) x) /\
          (forall a f o, covers l2 a f o <-> covers (regions p) a f o \/ (v <= a < v + n /\ fl = f /\ Owned = o))
    else l1 = regions p /\ exists tabs, proc_ok USABLE (p, m1) view (tabs ++ phys ++ others).
Proof.
  intros Hs Hfl H1 H2 Dv Hn En Hfree Hph. destruct (reserved_user v (2 * n) H1 H2) as [Hv0 Hvu].
  assert (Dn : (PAGE_SIZE | n)) by (rewrite En; apply Z.divide_factor_r).
  assert (Hne : phys <> []) by (intros ->; cbn in En; lia).
  assert (Hup : user_page v) by (split; [unfold PAGE_SIZE in *; lia|done]).
  assert (Hup2 : user_page (v + n)) by (split; [unfold PAGE_SIZE in *; lia|by apply Z.divide_add_r]).
  destruct (map_frames_ok USABLE (p, m) view others v fl phys Owned Hs Hfl Hup Hne Hph) as (r & s1 & tabs & E & Hr).
  { rewrite <- En. unfold PAGE_SIZE in *. lia. }
  { rewrite <- En. apply (free_unused _ v (2 * n)); try done; lia. }
  rewrite <- En in *. destruct s1 as [p1 m1]. cbn [fst] in Hr. unfold succeeds at 1. rewrite E.
  destruct r as [[]|e| |]; [| |done|done].
  2:{ destruct Hr as [-> Hs1]. exists false, m1, (regions p). split; [by destruct p|]. split; [done|].
      by exists tabs. }
  destruct Hr as (l1 & -> & Hs1 & [Hc1 Hone]). exists true, m1, l1. split; [done|].
  assert (Hc1' : forall a f o, covers l1 a f o <-> covers (regions p) a f o \/ (v <= a < v + n /\ fl = f /\ Owned = o)).
  { intros a f o. rewrite Hc1, range_aligned by done. done. }
  assert (Hun : unused l1 (v + n) n).
  { intros a f o Ha [Hc|Hc]%Hc1'.
    - revert Ha Hc. apply (free_unused _ v (2 * n)); [by apply Z.divide_add_r|done|lia..|done].
    - apply range_aligned in Ha; [lia|by apply Z.divide_add_r|done]. }
  destruct (map_frames_ok USABLE (set_regions l1 p, m1) _ (tabs ++ others) (v + n) fl phys Borrowed Hs1 Hfl Hup2 Hne Hph)
    as (r & s2 & tabs2 & E2 & Hr); [rewrite <- En; unfold PAGE_SIZE in *; lia|by rewrite <- En|].
  rewrite <- En in *. destruct s2 as [p2 m2]. cbn [fst] in Hr. unfold succeeds. rewrite E2.
  destruct r as [[]|e| |]; [| |done|done].
  - destruct Hr as (l2 & -> & Hs2 & [Hc2 _]). exists true, m2, l2, (tabs2 ++ tabs). split; [done|].
    split; [by rewrite <- app_assoc|]. intros a f o. cbn [regions set_regions] in Hc2.
    rewrite Hc2, Hc1', range_aligned by (done || by apply Z.divide_add_r).
    replace (v + n + n) with (v + 2 * n) by lia. tauto.
  - destruct Hr as [-> Hs2]. exists false, m2, l1, (tabs2 ++ tabs). split; [done|].
    split; [by rewrite <- app_assoc|]. split; [|done].
    destruct Hone as (x & Hx & Hc). exists x. split; [done|].
    rewrite page_up_aligned in Hc by (by apply Z.divide_add_r).
    destruct Dv as [y Hy]. rewrite Hy, Z.div_mul in Hc by (unfold PAGE_SIZE; lia). by rewrite Hy.
Qed.

(** Giving up: the reservation pointer goes back, nothing stays mapped or tracked. *)
Lemma give_up_ok p p1 m m1 l1 view view1 others tabs :
  heap_end p1 = heap_end p -> (forall q, user_page q -> view1 q = view q) ->
  (forall a f o, covers l1 a f o <-> covers (regions p) a f o) ->
  proc_ok USABLE (set_regions l1 p1, m1) view1 (tabs ++ others) -> exists s',
  (set_next (T:=T) (next_alloc_vaddr p) ;;; sret None) (set_regions l1 p1, m1) = (Ok (@None CircularBufferInfo), s') /\
  unchanged (p, m) s' view others.
Proof.
  intros Eh Hv Hl Hx. destruct (set_next_ok _ _ _ _ (next_alloc_vaddr p) Hx) as (p' & E & Er & Eh' & En & Hx').
  unfold sbind. rewrite E. exists (p', m1). split; [done|]. split_and!; cbn; [done|by rewrite Eh'| |by exists tabs, view1].
  by rewrite Er.
Qed.

(** Giving up with frames in hand. *)
Lemma give_back_ok p p1 m m1 phys view others tabs :
  regions p1 = regions p -> heap_end p1 = heap_end p -> proc_ok USABLE (p1, m1) view (tabs ++ phys ++ others) ->
  exists s', (free_frames (T:=T) phys ;;; set_next (T:=T) (next_alloc_vaddr p) ;;; sret None) (p1, m1) =
    (Ok (@None CircularBufferInfo), s') /\ unchanged (p, m) s' view others.
Proof.
  intros El Eh Hx. destruct (free_frames_ok phys p1 m1 view (tabs ++ others)) as (my & E & Hy).
  { revert Hx. apply proc_perm. solve_Permutation. }
  unfold sbind at 1. rewrite E. assert (Ep : p1 = set_regions (regions p1) p1) by (by destruct p1).
  rewrite Ep in Hy |- *. by apply (give_up_ok p p1 m my (regions p1) view view others tabs); [done..|rewrite El|].
Qed.

(** Giving up when only the first view is mapped. *)
Lemma unmap_view_ok p p1 m m3 l3 phys view others tabs v n fl :
  regions p1 = regions p -> heap_end p1 = heap_end p -> proc_ok USABLE (p1, m) view others ->
  PROCESS_USER_VADDR_ALLOC_START <= v -> v + 2 * n <= PROCESS_USER_VADDR_ALLOC_END ->
  (PAGE_SIZE | v) -> 0 < n -> n = zlen phys * PAGE_SIZE -> free v (2 * n) (regions p) ->
  proc_ok USABLE (set_regions l3 p1, m3) (framed view v fl phys (length phys)) (tabs ++ others) ->
  (exists x, x ∈ l3 /\ contains v (v + n) x) ->
  (forall a f o, covers l3 a f o <-> covers (regions p) a f o \/ (v <= a < v + n /\ fl = f /\ Owned = o)) ->
  exists s', (let! b := unmap_region USABLE v n in
     set_next (T:=T) (next_alloc_vaddr p) ;;; sret None) (set_regions l3 p1, m3) =
    (Ok (@None CircularBufferInfo), s') /\ unchanged (p, m) s' view others.
Proof.
  intros El Eh Hs Hv1 Hv2 Dv Hn En Hvf Hx Hone Hcov. destruct (reserved_user v (2 * n) Hv1 Hv2) as [Hv0 Hvu].
  assert (Dn : (PAGE_SIZE | n)) by (rewrite En; apply Z.divide_factor_r).
  assert (Hup : user_page v) by (split; [unfold PAGE_SIZE in *; lia|done]).
  assert (Hpg : pages_of v n = pages_from v (length phys)).
  { rewrite pages_of_aligned by done. rewrite En, Z.div_mul, Nat2Z.id by (unfold PAGE_SIZE; lia). done. }
  destruct (unmap_ok USABLE _ _ _ v n Hx Hv0 Dv) as (b & s4 & E5 & Hbt & Hs4); [lia|done|unfold USER_END, PAGE_SIZE in *; lia|].
  destruct b; [|by discriminate (proj2 Hbt Hone)].
  unfold sbind at 1. rewrite E5.
  destruct Hs4 as (l4 & Ep4 & Hs4 & Hcov4). destruct s4 as [p4 m4]. cbn [fst] in *. subst p4.
  apply (give_up_ok p (set_regions l3 p1) m m4 l4 view _ others tabs Eh) in Hs4; [done|..].
  - intros q Hq. unfold unmapped, framed. rewrite Hpg.
    destruct (decide (q ∈ pages_from v (length phys))) as [Hin|]; [|done]. symmetry.
    apply (unused_views USABLE _ _ _ v n Hs); [lia|lia|unfold PAGE_SIZE in *; lia| |by rewrite Hpg].
    cbn. rewrite El. apply (free_unused _ v (2 * n)); try done; lia.
  - intros a f o. rewrite Hcov4. cbn. rewrite Hcov. split; [intuition|]. intros Hc. split; [by left|].
    intros Ha. destruct Hc as (r & Hr & Hra & _). apply (Hvf r a Hr Hra). lia.
Qed.


End spec.

(** A buffer of two pages in a new process: both views of the first page lead to one frame. *)
Example circular_buffer_run :
  let '(r, s) := map_for_user 0 5000 2 (new_layout, new_machine) in
  r = Ok (Some (mkInfo 0x10000000 8192 16384)) /\
  mapping 0 (tables s.2) 0 0x10000000 = Some (4096, 2 ^ 63 + 7) /\
  mapping 0 (tables s.2) 0 0x10002000 = Some (4096, 2 ^ 63 + 7) /\
  regions s.1 = [mkRegion 0x10000000 8192 (2 ^ 63 + 7) Owned; mkRegion 0x10002000 8192 (2 ^ 63 + 7) Borrowed].
Proof. vm_compute. repeat split. Qed.

