(* ===== verification/StackGuard.v ===== *)
(** * StackGuard: guard pages below the kernel's stacks, kernel/src/stack_guard.rs and gdt.rs

    Every kernel stack is laid out behind a page that is taken out of the page tables at boot,
    so that running over the end of a stack faults.  The boot loader maps the kernel with pages
    of 2 MiB as well: such a page is first split into a table of small ones.  The page tables
    are arrays in memory that the code reads and writes directly; an entry is its address and
    its flags, (0, 0) when unused. *)

From Stdlib Require Import ZArith Lia.
From stdpp Require Import base tactics list option numbers gmap strings.
From S2P Require Import Prelude FrameAlloc Regions UserMem AddressSpace FlatTables Tasks Scheduler.

Open Scope rust_scope.

(** *** Tables in memory *)

Abbreviation Tables := (gmap (Z * Z) (Z * Z)).

Definition read (t : Tables) (table i : Z) : Z * Z := default (0, 0) (t !! (table, i)).

Section stack_guard.
Context (USABLE : Z) {VA : VirtAddrApi}.

Abbreviation GuardM := (stM (Tables * MemoryMapFrameAllocator) string).

Definition read_table (table i : Z) : GuardM (Z * Z) := fun '(t, a) => (Ok (read t table i), (t, a)).

Definition write_table (table i : Z) (e : Z * Z) : GuardM unit := fun '(t, a) => (Ok tt, (<[ (table, i) := e ]> t, a)).

(** [PageTableEntry::set_unused] and [set_addr] *)
Definition set_unused (table i : Z) : GuardM unit := write_table table i (0, 0).

Definition set_addr (table i addr flags : Z) : GuardM unit :=
  sassert (addr mod PAGE_SIZE =? 0) ;;; write_table table i (addr, flags).

(** [PhysAddr::new] *)
Definition pa_new {E} (a : Z) : result E Z := if a <? 2 ^ 52 then Ok a else Panic.

Definition take_frame : GuardM (option Z) := fun '(t, a) =>
  let '(r, a) := allocate_frame USABLE a in
  (match r with Ok f => Ok f | Err _ => Ok None | Panic => Panic | OutOfFuel => OutOfFuel end, (t, a)).

Fixpoint each_entry (body : Z -> GuardM unit) (indices : list Z) : GuardM unit :=
  match indices with
  | [] => sret tt
  | i :: indices => body i ;;; each_entry body indices
  end.

(** One entry of the table that replaces a page of 2 MiB. *)
Definition split_entry (pt huge_phys_base huge_flags i : Z) : GuardM unit :=
  let base_flags := remove_flags huge_flags HUGE_PAGE in
  let! cur_vaddr := slift (va_new (Z.land huge_phys_base (Z.lnot 0x1FFFFF) + i * PAGE_SIZE)) in
  let! phys := slift (pa_new (huge_phys_base + i * PAGE_SIZE)) in
  set_addr pt i phys (Z.lor base_flags PRESENT).

Definition split_huge_page (pd pd_idx pt_idx : Z) (pd_entry : Z * Z) : GuardM unit :=
  let! pt_frame := take_frame in
  match pt_frame with
  | None => serr "out of frames for PT split"%string
  | Some pt =>
      each_entry (set_unused pt) all_entries ;;;
      each_entry (split_entry pt pd_entry.1 pd_entry.2) all_entries ;;;
      set_unused pt pt_idx ;;;
      set_addr pd pd_idx pt (Z.lor PRESENT WRITABLE)
  end.

(** [pml4] is the table in CR3. *)
Definition unmap_guard_page (pml4 vaddr : Z) : GuardM unit :=
  let p4_idx := page_index 3 vaddr in
  let pdpt_idx := page_index 2 vaddr in
  let pd_idx := page_index 1 vaddr in
  let pt_idx := page_index 0 vaddr in
  let! p4_entry := read_table pml4 p4_idx in
  if is_unused p4_entry then serr "p4 entry unused"%string else
  let! pdpt_entry := read_table p4_entry.1 pdpt_idx in
  if is_unused pdpt_entry then serr "pdpt entry unused"%string else
  if has_flags pdpt_entry.2 HUGE_PAGE then serr "pdpt huge page not supported for guard"%string else
  let! pd_entry := read_table pdpt_entry.1 pd_idx in
  if is_unused pd_entry then serr "pd entry unused"%string else
  if has_flags pd_entry.2 HUGE_PAGE then split_huge_page pdpt_entry.1 pd_idx pt_idx pd_entry else
  let! pt_entry := read_table pd_entry.1 pt_idx in
  if is_unused pt_entry then serr "pt entry already unused (guard already unmapped?)"%string else
  set_unused pd_entry.1 pt_idx.

(** The error is only printed. *)
Definition ensure_guard_unmapped (pml4 vaddr : Z) : GuardM unit := fun s =>
  match unmap_guard_page pml4 vaddr s with
  | (Err _, s) => (Ok tt, s)
  | (r, s) => (r, s)
  end.

(** *** The stacks, gdt.rs *)

Definition PER_CORE_STACK_SIZE : Z := 8 * 4096.
Definition GUARD_PAGE_SIZE : Z := 4096.
Definition TASK_KERNEL_STACK_SIZE : Z := 16 * 4096.

(** [GuardedKernelStack] number [i] of an array of them at [base]: the guard comes first. *)
Definition slot_guard (STACK_SIZE base i : Z) : Z := base + i * (GUARD_PAGE_SIZE + STACK_SIZE).
Definition slot_stack (STACK_SIZE base i : Z) : Z := slot_guard STACK_SIZE base i + GUARD_PAGE_SIZE.

(** Where the linker put the four arrays. *)
Record Stacks : Type := mkStacks {
  RSP0_STACKS : Z;
  IST0_STACKS : Z;
  SCHEDULER_STACKS : Z;
  KERNEL_TASK_STACKS : Z;
}.

(** [debug_assert!(slot_index < MAX_TASKS)] *)
Definition in_tasks {E A} (slot_index : Z) (r : result E A) : result E A := if slot_index <? MAX_TASKS then r else Panic.

Definition task_stack_top {E} (s : Stacks) (slot_index : Z) : result E Z :=
  in_tasks slot_index (Ok (slot_stack TASK_KERNEL_STACK_SIZE (KERNEL_TASK_STACKS s) slot_index + TASK_KERNEL_STACK_SIZE)).

Definition task_guard_page {E} (s : Stacks) (slot_index : Z) : result E Z :=
  in_tasks slot_index (va_new (slot_guard TASK_KERNEL_STACK_SIZE (KERNEL_TASK_STACKS s) slot_index)).

Definition task_stack_bounds {E} (s : Stacks) (slot_index : Z) : result E (Z * Z) :=
  in_tasks slot_index
    (let? bottom := va_new (slot_stack TASK_KERNEL_STACK_SIZE (KERNEL_TASK_STACKS s) slot_index) in
     let? top := va_new (slot_stack TASK_KERNEL_STACK_SIZE (KERNEL_TASK_STACKS s) slot_index + TASK_KERNEL_STACK_SIZE) in
     Ok (bottom, top)).

(** The accessors of the three arrays per core index the array with the core. *)
Definition core_slot {E A} (core_id : Z) (r : result E A) : result E A := if core_id <? MAX_CORES then r else Panic.

Definition core_stack_top {E} (base core_id : Z) : result E Z :=
  core_slot core_id (Ok (slot_stack PER_CORE_STACK_SIZE base core_id + PER_CORE_STACK_SIZE)).

Definition core_guard_page {E} (base core_id : Z) : result E Z :=
  core_slot core_id (va_new (slot_guard PER_CORE_STACK_SIZE base core_id)).

Definition core_bounds {E} (base core_id : Z) : result E (Z * Z) :=
  core_slot core_id
    (let? bottom := va_new (slot_stack PER_CORE_STACK_SIZE base core_id) in
     let? top := va_new (slot_stack PER_CORE_STACK_SIZE base core_id + PER_CORE_STACK_SIZE) in
     Ok (bottom, top)).

Definition get_scheduler_stack_top {E} (s : Stacks) (core_id : Z) : result E Z := core_stack_top (SCHEDULER_STACKS s) core_id.
Definition rsp0_stack_top {E} (s : Stacks) (core_id : Z) : result E Z := core_stack_top (RSP0_STACKS s) core_id.
Definition ist0_stack_top {E} (s : Stacks) (core_id : Z) : result E Z := core_stack_top (IST0_STACKS s) core_id.
Definition rsp0_guard_page {E} (s : Stacks) (core_id : Z) : result E Z := core_guard_page (RSP0_STACKS s) core_id.
Definition ist0_guard_page {E} (s : Stacks) (core_id : Z) : result E Z := core_guard_page (IST0_STACKS s) core_id.
Definition scheduler_guard_page {E} (s : Stacks) (core_id : Z) : result E Z := core_guard_page (SCHEDULER_STACKS s) core_id.
Definition rsp0_bounds {E} (s : Stacks) (core_id : Z) : result E (Z * Z) := core_bounds (RSP0_STACKS s) core_id.
Definition ist0_bounds {E} (s : Stacks) (core_id : Z) : result E (Z * Z) := core_bounds (IST0_STACKS s) core_id.
Definition scheduler_bounds {E} (s : Stacks) (core_id : Z) : result E (Z * Z) := core_bounds (SCHEDULER_STACKS s) core_id.

Definition install_guard_pages (pml4 : Z) (s : Stacks) : GuardM unit :=
  each_entry (fun core_id =>
    let! g := slift (rsp0_guard_page s core_id) in
    ensure_guard_unmapped pml4 g ;;;
    let! g := slift (ist0_guard_page s core_id) in
    ensure_guard_unmapped pml4 g ;;;
    let! g := slift (scheduler_guard_page s core_id) in
    ensure_guard_unmapped pml4 g) (seqZ 0 MAX_CORES) ;;;
  each_entry (fun slot_index =>
    let! g := slift (task_guard_page s slot_index) in
    ensure_guard_unmapped pml4 g) (seqZ 0 MAX_TASKS).

End stack_guard.
