(* ===== verification/StackGuardSpec.v ===== *)
(** * StackGuardSpec: what installing the guard pages does to the address space

    [walk] is the processor's walk of the page tables: the physical address, whether it may be
    written and whether it may not be executed.  The theorem compares the walks of all
    addresses before and after. *)

From Stdlib Require Import ZArith Lia.
From stdpp Require Import base tactics list option numbers gmap strings.
From S2P Require Import Prelude FrameAlloc Tasks Scheduler Regions RegionsSpec UserMem AddressSpace FlatTables StackGuard.

Open Scope rust_scope.

(** ** The walk *)

Definition Reached : Type := (Z * bool * bool)%type.

(** The rights of an entry that leads on. *)
Definition through (flags : Z) (r : option Reached) : option Reached :=
  '(p, w, x) ← r; Some (p, w && has_flags flags WRITABLE, x || has_flags flags NO_EXECUTE).

Definition reached (flags p : Z) : option Reached := Some (p, has_flags flags WRITABLE, has_flags flags NO_EXECUTE).

(** From a table of the level: 3 for the top, 0 for the tables of small pages. *)
Fixpoint walk (t : Tables) (table : Z) (level : nat) (va : Z) : option Reached :=
  let e := read t table (page_index (Z.of_nat level) va) in
  if negb (has_flags e.2 PRESENT) then None else
  match level with
  | O => reached e.2 (e.1 + va mod PAGE_SIZE)
  | S below =>
      if has_flags e.2 HUGE_PAGE then reached e.2 (e.1 + va mod 2 ^ (12 + 9 * Z.of_nat level))
      else through e.2 (walk t e.1 below va)
  end.

(** The indices of an address from a level down. *)
Fixpoint indices (level : nat) (va : Z) : list Z :=
  page_index (Z.of_nat level) va :: match level with O => [] | S below => indices below va end.

(** The table a path of indices leads to. *)
Fixpoint table_at (t : Tables) (table : Z) (path : list Z) : option Z :=
  match path with
  | [] => Some table
  | i :: path => let e := read t table i in if is_table_entry e.2 then table_at t e.1 path else None
  end.

(** The rights gathered on a path. *)
Fixpoint through_path (t : Tables) (table : Z) (path : list Z) (r : option Reached) : option Reached :=
  match path with
  | [] => r
  | i :: path => let e := read t table i in through e.2 (through_path t e.1 path r)
  end.

Lemma table_at_app t p : forall table q, table_at t table (p ++ q) = tb ← table_at t table p; table_at t tb q.
Proof. induction p as [|i p IH]; intros table q; [done|]. cbn. destruct (is_table_entry _); [apply IH|done]. Qed.

Lemma table_entry_flags f : is_table_entry f = true <-> has_flags f PRESENT = true /\ has_flags f HUGE_PAGE = false.
Proof. unfold is_table_entry. rewrite andb_true_iff, negb_true_iff. done. Qed.

(** A walk goes on from the table its path leads to. *)
Lemma walk_from t p : forall table level va tb rest, indices level va = p ++ rest -> rest <> [] ->
  table_at t table p = Some tb -> walk t table level va = through_path t table p (walk t tb (level - length p) va).
Proof.
  induction p as [|i p IH]; intros table level va tb rest Hi Hr Ht; cbn in Ht.
  - injection Ht as ->. by rewrite Nat.sub_0_r.
  - destruct level as [|level]; cbn [indices app] in Hi; injection Hi as Ei Hi.
    { exfalso. destruct p, rest; done. }
    destruct (is_table_entry _) eqn:Et in Ht; [|done]. apply table_entry_flags in Et as [Ep Eh].
    cbn [walk through_path]. rewrite Ei, Ep, Eh. cbn [negb length Nat.sub]. by rewrite (IH _ level va tb rest).
Qed.

(** Where the tables read on a walk lie. *)
Lemma walk_agree t t' level : forall table va,
  (forall p i rest tb, indices level va = p ++ i :: rest -> table_at t table p = Some tb -> read t' tb i = read t tb i) ->
  walk t' table level va = walk t table level va.
Proof.
  induction level as [|level IH]; intros table va Ha; cbn [walk].
  - by rewrite (Ha [] _ [] table eq_refl eq_refl).
  - rewrite (Ha [] _ _ table eq_refl eq_refl). set (e := read t table _). destruct (has_flags e.2 PRESENT) eqn:Ep; [|done].
    cbn [negb]. destruct (has_flags e.2 HUGE_PAGE) eqn:Eh; [done|]. f_equal. apply IH. intros p i rest tb Hi Ht.
    apply (Ha (page_index (Z.of_nat (S level)) va :: p) i rest tb); [cbn [indices app]; by rewrite Hi|].
    cbn. fold e. by rewrite (proj2 (table_entry_flags _)).
Qed.

Lemma table_at_agree t t' p : forall table,
  (forall q i rest tb, p = q ++ i :: rest -> table_at t table q = Some tb -> read t' tb i = read t tb i) ->
  table_at t' table p = table_at t table p.
Proof.
  induction p as [|i p IH]; intros table Ha; [done|]. cbn [table_at]. rewrite (Ha [] i p table eq_refl eq_refl).
  destruct (is_table_entry _) eqn:Et; [|done]. apply IH. intros q j rest tb -> Ht.
  apply (Ha (i :: q) j rest tb); [done|]. cbn. by rewrite Et.
Qed.

Lemma through_path_agree t t' p r : forall table tb,
  table_at t table p = Some tb ->
  (forall q i rest tb, p = q ++ i :: rest -> table_at t table q = Some tb -> read t' tb i = read t tb i) ->
  through_path t' table p r = through_path t table p r.
Proof.
  induction p as [|i p IH]; intros table tb Ht Ha; [done|]. cbn [table_at through_path] in *. rewrite (Ha [] i p table eq_refl eq_refl).
  destruct (is_table_entry _) eqn:Et in Ht; [|done]. f_equal. apply (IH _ tb Ht). intros q j rest tq -> Hq.
  apply (Ha (i :: q) j rest tq); [done|]. cbn. by rewrite Et.
Qed.

Lemma length_indices level va : length (indices level va) = S level.
Proof. induction level as [|level IH]; cbn; [done|]. by rewrite IH. Qed.

Lemma through_none t p : forall table, through_path t table p None = None.
Proof. induction p as [|i p IH]; intros table; cbn; [done|]. by rewrite IH. Qed.

(** ** Address spaces in order *)

Section spec.
Context (USABLE : Z) {VA : VirtAddrApi} {VL : VirtAddrLaws}.

Abbreviation GuardState := (Tables * MemoryMapFrameAllocator)%type.

(** The tables form a tree of frames that are not free; what is used is present; pages of
    2 MiB lie at multiples of their size, in physical memory. *)
Record tables_ok (s : GuardState) (pml4 : Z) (held : list Z) : Prop := {
  to_sane : sane USABLE (memory_map s.2);
  to_holds : holds USABLE s.2 held;
  to_tree : forall p q tb, (length p <= 3)%nat -> (length q <= 3)%nat ->
    table_at s.1 pml4 p = Some tb -> table_at s.1 pml4 q = Some tb -> p = q;
  to_taken : forall p tb, (length p <= 3)%nat -> table_at s.1 pml4 p = Some tb -> (tb ∈ held) \/ (tb ∉ all_frames USABLE (memory_map s.2));
  to_used : forall p tb i, (length p <= 3)%nat -> table_at s.1 pml4 p = Some tb -> 0 <= i < ENTRIES_PER_TABLE ->
    read s.1 tb i = (0, 0) \/ has_flags (read s.1 tb i).2 PRESENT = true;
  to_top : forall i, has_flags (read s.1 pml4 i).2 HUGE_PAGE = false;
  to_huge : forall p tb i, length p = 2%nat -> table_at s.1 pml4 p = Some tb -> has_flags (read s.1 tb i).2 HUGE_PAGE = true ->
    (2 ^ 21 | (read s.1 tb i).1) /\ 0 <= (read s.1 tb i).1 < 2 ^ 46;
}.

(** A page of 1 GiB, which the code leaves alone. *)
Definition giant (t : Tables) (pml4 va : Z) : Prop :=
  exists tb, table_at t pml4 [page_index 3 va] = Some tb /\ has_flags (read t tb (page_index 2 va)).2 HUGE_PAGE = true.

Definition same_page (va va' : Z) : Prop := indices 3 va = indices 3 va'.

(** One guard: its page is gone and nothing else has changed. *)
Definition guarded (t t' : Tables) (pml4 va : Z) : Prop :=
  forall va', walk t' pml4 3 va' = if decide (indices 3 va = indices 3 va') then None else walk t pml4 3 va'.

Definition unchanged (t t' : Tables) (pml4 : Z) : Prop := forall va, walk t' pml4 3 va = walk t pml4 3 va.

Definition same_giants (t t' : Tables) (pml4 : Z) : Prop := forall va, giant t' pml4 va <-> giant t pml4 va.

Lemma read_write t table i e table' i' : read (<[ (table, i) := e ]> t) table' i' = if decide (table' = table /\ i' = i) then e else read t table' i'.
Proof.
  unfold read. case_decide as Hd.
  - destruct Hd as [-> ->]. by rewrite lookup_insert_eq.
  - rewrite lookup_insert_ne; [done|]. intros [= -> ->]. by destruct Hd.
Qed.

(** ** A change of one entry *)

Section change.
Context (t t' : Tables) (pml4 : Z) (p0 : list Z) (c j : Z).
Hypothesis Htree : forall p q tb, (length p <= 3)%nat -> (length q <= 3)%nat ->
  table_at t pml4 p = Some tb -> table_at t pml4 q = Some tb -> p = q.
Hypothesis Hlen : (length p0 <= 3)%nat.
Hypothesis Hc : table_at t pml4 p0 = Some c.
Hypothesis Hread : forall q tb i, (length q <= 3)%nat -> table_at t pml4 q = Some tb -> tb = c /\ i = j \/ read t' tb i = read t tb i.

Lemma change_at q i rest tb : (length q <= 3)%nat -> table_at t pml4 q = Some tb ->
  ~ p0 ++ [j] `prefix_of` q ++ i :: rest -> read t' tb i = read t tb i.
Proof.
  intros Hq Ht Hn. destruct (Hread q tb i Hq Ht) as [[-> ->]|E]; [|done]. destruct Hn.
  rewrite (Htree q p0 c Hq Hlen Ht Hc). exists rest. by rewrite <- app_assoc.
Qed.

Lemma change_paths p : (length p <= 4)%nat -> ~ p0 ++ [j] `prefix_of` p -> table_at t' pml4 p = table_at t pml4 p.
Proof.
  intros Hp Hn. apply table_at_agree. intros q i rest tb -> Ht. rewrite length_app in Hp. cbn in Hp.
  apply (change_at q i rest tb); [lia|done|done].
Qed.

Lemma change_walks va : ~ p0 ++ [j] `prefix_of` indices 3 va -> walk t' pml4 3 va = walk t pml4 3 va.
Proof.
  intros Hn. apply walk_agree. intros q i rest tb E Ht. pose proof (f_equal length E) as El.
  rewrite length_indices, length_app in El. cbn in El. apply (change_at q i rest tb); [lia|done|by rewrite <- E].
Qed.

Lemma change_prefix q r : p0 = q ++ r -> ~ p0 ++ [j] `prefix_of` q.
Proof.
  intros E Hp. apply prefix_length in Hp. rewrite length_app in Hp. apply (f_equal length) in E. rewrite length_app in E. cbn in Hp. lia.
Qed.

Lemma change_reach : table_at t' pml4 p0 = Some c.
Proof. rewrite change_paths; [done|lia|]. apply (change_prefix p0 []). by rewrite app_nil_r. Qed.

Lemma change_through r : through_path t' pml4 p0 r = through_path t pml4 p0 r.
Proof.
  apply (through_path_agree t t' p0 r pml4 c Hc). intros q i rest tb E Ht. pose proof (f_equal length E) as El. rewrite length_app in El. cbn in El.
  apply (change_at q i rest tb); [lia|done|]. rewrite <- E. apply (change_prefix p0 []). by rewrite app_nil_r.
Qed.

Lemma change_giants : length p0 = 2%nat \/ length p0 = 3%nat -> same_giants t t' pml4.
Proof.
  intros Hl va. assert (Hs : forall l : list Z, (length l <= 2)%nat -> ~ p0 ++ [j] `prefix_of` l).
  { intros l Hl' Hp. apply prefix_length in Hp. rewrite length_app in Hp. cbn in Hp. lia. }
  unfold giant. rewrite change_paths by (cbn; lia || (apply Hs; cbn; lia)).
  split; intros (tb & Ht & Hh); exists tb; (split; [done|]); [rewrite <- (change_at [page_index 3 va] _ [] tb)|rewrite (change_at [page_index 3 va] _ [] tb)];
    (done || (cbn; lia) || (apply Hs; cbn; lia)).
Qed.

End change.

Lemma prefix_indices p0 j va : length p0 = 3%nat -> p0 ++ [j] `prefix_of` indices 3 va <-> indices 3 va = p0 ++ [j].
Proof.
  intros Hl. split; [|intros ->; done]. intros [rest E]. pose proof (f_equal length E) as El.
  rewrite length_indices, !length_app, Hl in El. cbn in El. destruct rest; [by rewrite app_nil_r in E|cbn in El; lia].
Qed.

(** *** A small page *)

Lemma unmap_small s pml4 held va pt p0 : tables_ok s pml4 held -> indices 3 va = p0 ++ [page_index 0 va] ->
  table_at s.1 pml4 p0 = Some pt ->
  let t' := <[ (pt, page_index 0 va) := (0, 0) ]> s.1 in
  tables_ok (t', s.2) pml4 held /\ guarded s.1 t' pml4 va /\ same_giants s.1 t' pml4.
Proof.
  intros Hok Hi Hpt t'. pose proof Hok as [Hs Hh Htree Htaken Hused Htop Hhuge].
  assert (Hl : length p0 = 3%nat) by (pose proof (f_equal length Hi) as El; rewrite length_indices, length_app in El; cbn in El; lia).
  assert (Hread : forall q tb i, (length q <= 3)%nat -> table_at s.1 pml4 q = Some tb ->
    tb = pt /\ i = page_index 0 va \/ read t' tb i = read s.1 tb i).
  { intros q tb i _ _. unfold t'. rewrite read_write. case_decide; tauto. }
  assert (Hp : forall p, (length p <= 3)%nat -> table_at t' pml4 p = table_at s.1 pml4 p).
  { intros p Hlp. apply (change_paths s.1 t' pml4 p0 pt (page_index 0 va)); try done; [lia|lia|].
    intros Hpre. apply prefix_length in Hpre. rewrite length_app in Hpre. cbn in Hpre. lia. }
  assert (Ho : forall p tb i, (length p <= 2)%nat -> table_at s.1 pml4 p = Some tb -> read t' tb i = read s.1 tb i).
  { intros p tb i Hlp Ht. unfold t'. rewrite read_write. case_decide as Hd; [|done]. destruct Hd as [-> _].
    specialize (Htree p p0 pt ltac:(lia) ltac:(lia) Ht Hpt) as ->. lia. }
  split; [|split].
  - split; cbn [fst snd]; [done|done|..].
    + intros p q tb Hlp Hlq. rewrite !Hp by done. by apply Htree.
    + intros p tb Hlp. rewrite Hp by done. by apply Htaken.
    + intros p tb i Hlp. rewrite Hp by done. intros Ht Hr. unfold t'. rewrite read_write. case_decide; [by left|by apply (Hused p tb i)].
    + intros i. rewrite (Ho [] pml4) by (done || (cbn; lia)). apply Htop.
    + intros p tb i Hlp. rewrite Hp by lia. intros Ht. rewrite (Ho p tb i) by (done || lia). by apply (Hhuge p).
  - intros va'. case_decide as Hd.
    + rewrite Hi in Hd. rewrite (walk_from t' p0 pml4 3 va' pt [page_index 0 va]) by (done || (rewrite Hp by lia; done)).
      rewrite Hl. cbn [Nat.sub walk]. assert (Ej : page_index 0 va' = page_index 0 va).
      { cbn [indices] in Hd. assert (E0 : list.last (p0 ++ [page_index 0 va]) = Some (page_index 0 va)) by apply last_snoc.
        rewrite Hd in E0. by injection E0. }
      change (Z.of_nat 0) with 0. rewrite Ej. unfold t' at 2. rewrite read_write, decide_True by done. cbn. apply through_none.
    + apply (change_walks s.1 t' pml4 p0 pt (page_index 0 va)); try done; [lia|]. rewrite prefix_indices by done. congruence.
  - apply (change_giants s.1 t' pml4 p0 pt (page_index 0 va)); try done; [lia|]. by right.
Qed.

(** *** A page of 2 MiB *)

Lemma flag_bit f k : 0 <= k -> has_flags f (2 ^ k) = Z.testbit f k.
Proof.
  intros Hk. unfold has_flags. destruct (Z.testbit f k) eqn:Eb.
  - apply Z.eqb_eq, Z.bits_inj'. intros n Hn. rewrite Z.land_spec, Z.pow2_bits_eqb by done.
    destruct (Z.eqb_spec k n) as [<-|]; [by rewrite Eb|apply andb_false_r].
  - apply Z.eqb_neq. intros E. apply (f_equal (fun x => Z.testbit x k)) in E. by rewrite Z.land_spec, Eb, Z.pow2_bits_true in E.
Qed.

Definition small_flags (huge_flags : Z) : Z := Z.lor (remove_flags huge_flags HUGE_PAGE) PRESENT.

Lemma small_flags_are f : has_flags (small_flags f) PRESENT = true /\ has_flags (small_flags f) WRITABLE = has_flags f WRITABLE /\
  has_flags (small_flags f) NO_EXECUTE = has_flags f NO_EXECUTE.
Proof.
  unfold small_flags, remove_flags. change (@PRESENT x86_flags) with (2 ^ 0). change (@WRITABLE x86_flags) with (2 ^ 1).
  change (@NO_EXECUTE x86_flags) with (2 ^ 63). change (@HUGE_PAGE x86_flags) with (2 ^ 7).
  rewrite !flag_bit by lia. rewrite !Z.lor_spec, !Z.land_spec, !Z.lnot_spec, !Z.pow2_bits_eqb by lia. cbn [Z.eqb Pos.eqb negb].
  rewrite !andb_true_r, !orb_false_r. by rewrite orb_true_r.
Qed.

Lemma page_index_range k va : 0 <= page_index k va < ENTRIES_PER_TABLE.
Proof. unfold page_index. change 0x1FF with (Z.ones 9). rewrite Z.land_ones by lia. by apply Z.mod_pos_bound. Qed.

(** The offset in a page of 2 MiB is the index of a small page and the offset in it. *)
Lemma huge_offset va : va mod 2 ^ 21 = page_index 0 va * PAGE_SIZE + va mod PAGE_SIZE.
Proof.
  unfold page_index. change 0x1FF with (Z.ones 9). rewrite Z.land_ones, Z.shiftr_div_pow2 by lia.
  change (2 ^ 21) with (PAGE_SIZE * 2 ^ 9). change (2 ^ (12 + 9 * 0)) with PAGE_SIZE.
  rewrite Z.rem_mul_r; [lia|done|done].
Qed.

(** The tables after the split: the new table [f] in place of the page at [(pd, j)]. *)
Definition split_into (t t' : Tables) (pd j f i0 : Z) : Prop :=
  let e := read t pd j in
  forall tb i, read t' tb i =
    if decide (tb = pd /\ i = j) then (f, Z.lor PRESENT WRITABLE) else
    if decide (tb = f /\ 0 <= i < ENTRIES_PER_TABLE) then (if decide (i = i0) then (0, 0) else (e.1 + i * PAGE_SIZE, small_flags e.2)) else read t tb i.

Section split.
Context (s : GuardState) (t' : Tables) (a' : MemoryMapFrameAllocator) (pml4 : Z) (held : list Z) (va pd f : Z) (p0 : list Z).
Hypothesis Hok : tables_ok s pml4 held.
Hypothesis Hi : indices 3 va = p0 ++ [page_index 1 va; page_index 0 va].
Hypothesis Hpd : table_at s.1 pml4 p0 = Some pd.
Hypothesis Hhuge : has_flags (read s.1 pd (page_index 1 va)).2 HUGE_PAGE = true.
Hypothesis Hpres : has_flags (read s.1 pd (page_index 1 va)).2 PRESENT = true.
Hypothesis Hfresh : (f ∉ held) /\ f ∈ all_frames USABLE (memory_map s.2).
Hypothesis Hmap : memory_map a' = memory_map s.2.
Hypothesis Hheld : holds USABLE a' (f :: held).
Hypothesis Hsplit : split_into s.1 t' pd (page_index 1 va) f (page_index 0 va).

Lemma split_len : length p0 = 2%nat.
Proof. pose proof (f_equal length Hi) as El. rewrite length_indices, length_app in El. cbn in El. lia. Qed.

Lemma split_new p tb : (length p <= 3)%nat -> table_at s.1 pml4 p = Some tb -> tb <> f.
Proof. intros Hl Ht ->. destruct (to_taken _ _ _ Hok p f Hl Ht) as [Hin|Hin]; by destruct Hfresh. Qed.

Lemma split_old q tb i : (length q <= 3)%nat -> table_at s.1 pml4 q = Some tb ->
  tb = pd /\ i = page_index 1 va \/ read t' tb i = read s.1 tb i.
Proof.
  intros Hq Ht. rewrite Hsplit. case_decide; [by left|right]. rewrite decide_False; [done|]. intros [-> _]. by apply (split_new q f).
Qed.

Lemma split_len_le : (length p0 <= 3)%nat.
Proof. rewrite split_len. lia. Qed.

Lemma split_same p : (length p <= 4)%nat -> ~ p0 ++ [page_index 1 va] `prefix_of` p -> table_at t' pml4 p = table_at s.1 pml4 p.
Proof. apply (change_paths s.1 t' pml4 p0 pd (page_index 1 va) (to_tree _ _ _ Hok) split_len_le Hpd split_old). Qed.

Lemma split_entry_read : read t' pd (page_index 1 va) = (f, Z.lor PRESENT WRITABLE).
Proof. by rewrite Hsplit, decide_True. Qed.

Lemma split_table : table_at t' pml4 (p0 ++ [page_index 1 va]) = Some f.
Proof.
  rewrite table_at_app. rewrite (change_reach s.1 t' pml4 p0 pd (page_index 1 va) (to_tree _ _ _ Hok) split_len_le Hpd split_old).
  cbn. by rewrite split_entry_read.
Qed.

(** The new table is the only new one. *)
Lemma split_tables p : (length p <= 3)%nat ->
  table_at t' pml4 p = if decide (p = p0 ++ [page_index 1 va]) then Some f else table_at s.1 pml4 p.
Proof.
  intros Hl. case_decide as Hd; [subst p; apply split_table|]. apply split_same; [lia|]. intros [r E]. apply Hd. rewrite E.
  pose proof (f_equal length E) as El. rewrite !length_app, split_len in El. cbn in El. destruct r; [by rewrite app_nil_r|cbn in El; lia].
Qed.

Lemma split_no_old : table_at s.1 pml4 (p0 ++ [page_index 1 va]) = None.
Proof. rewrite table_at_app, Hpd. cbn. unfold is_table_entry. by rewrite Hhuge, andb_false_r. Qed.

Lemma guard_split_ok : tables_ok (t', a') pml4 (f :: held).
Proof.
  pose proof Hok as [Hs Hh Htree Htaken Hused Htop Hhg]. pose proof split_len as Hl2.
  split; cbn [fst snd].
  - by rewrite Hmap.
  - exact Hheld.
  - intros p q tb Hp Hq. rewrite !split_tables by done. repeat case_decide; try congruence.
    + intros [= <-] Ht. by destruct (split_new q f Hq Ht).
    + intros Ht [= <-]. by destruct (split_new p f Hp Ht).
    + by apply Htree.
  - intros p tb Hp. rewrite split_tables, Hmap by done. case_decide; [intros [= <-]; left; apply list_elem_of_here|].
    intros Ht. destruct (Htaken p tb Hp Ht) as [Hin|Hin]; [left; apply elem_of_cons; by right|by right].
  - intros p tb i Hp. rewrite split_tables by done. case_decide.
    + intros [= <-] Hr. rewrite Hsplit. case_decide; [by right|]. rewrite decide_True by done. case_decide; [by left|right].
      apply small_flags_are.
    + intros Ht Hr. destruct (split_old p tb i Hp Ht) as [[-> ->]|E]; [right; by rewrite split_entry_read|rewrite E; by apply (Hused p)].
  - intros i. destruct (split_old [] pml4 i) as [[-> ->]|E]; [cbn; lia|done|by rewrite split_entry_read|rewrite E; apply Htop].
  - intros p tb i Hp. rewrite split_tables by lia. rewrite decide_False by (intros ->; rewrite length_app in Hp; cbn in Hp; lia).
    intros Ht. destruct (split_old p tb i ltac:(lia) Ht) as [[-> ->]|E]; [by rewrite split_entry_read|rewrite E; by apply (Hhg p)].
Qed.

Lemma split_walk va' : indices 3 va' = p0 ++ [page_index 1 va; page_index 0 va'] ->
  walk t' pml4 3 va' = if decide (page_index 0 va = page_index 0 va') then None else walk s.1 pml4 3 va'.
Proof.
  intros Hi'. pose proof split_len as Hl2.
  rewrite (walk_from t' p0 pml4 3 va' pd _ Hi') by (done || apply (change_reach s.1 t' pml4 p0 pd (page_index 1 va) (to_tree _ _ _ Hok) split_len_le Hpd split_old)).
  rewrite (walk_from s.1 p0 pml4 3 va' pd _ Hi') by done.
  rewrite (change_through s.1 t' pml4 p0 pd (page_index 1 va) (to_tree _ _ _ Hok) split_len_le Hpd split_old).
  rewrite Hl2. cbn [Nat.sub].
  assert (E1 : page_index 1 va' = page_index 1 va).
  { cbn [indices] in Hi'. destruct p0 as [|x [|y [|z p]]]; try done. cbn in Hi'. by injection Hi'. }
  assert (Hr0 : 0 <= page_index 0 va' < ENTRIES_PER_TABLE) by apply page_index_range.
  assert (Hf : read t' f (page_index 0 va') = if decide (page_index 0 va' = page_index 0 va) then (0, 0)
    else ((read s.1 pd (page_index 1 va)).1 + page_index 0 va' * PAGE_SIZE, small_flags (read s.1 pd (page_index 1 va)).2)).
  { rewrite Hsplit. rewrite decide_False; [by rewrite decide_True|]. intros [E _]. by apply (split_new p0 pd split_len_le Hpd). }
  cbn [walk]. change (Z.of_nat 1) with 1. change (Z.of_nat 0) with 0. rewrite E1, split_entry_read, Hpres, Hhuge. cbn [fst snd].
  change (has_flags (Z.lor PRESENT WRITABLE) PRESENT) with true. change (has_flags (Z.lor PRESENT WRITABLE) HUGE_PAGE) with false.
  cbn [negb]. rewrite Hf. destruct (small_flags_are (read s.1 pd (page_index 1 va)).2) as (Hp & Hw & Hn).
  destruct (decide (page_index 0 va' = page_index 0 va)) as [E0|E0].
  - rewrite decide_True by done. cbn. apply through_none.
  - rewrite decide_False by congruence. cbn [fst snd]. rewrite Hp. cbn [negb]. unfold reached. rewrite Hw, Hn. f_equal.
    unfold through. cbn [mbind option_bind]. change (has_flags (Z.lor PRESENT WRITABLE) WRITABLE) with true.
    change (has_flags (Z.lor PRESENT WRITABLE) NO_EXECUTE) with false. rewrite andb_true_r, orb_false_r.
    change (12 + 9 * 1) with 21. rewrite huge_offset. by rewrite Z.add_assoc.
Qed.

Lemma split_guarded : guarded s.1 t' pml4 va.
Proof.
  intros va'. pose proof split_len as Hl2. destruct (decide (p0 ++ [page_index 1 va] `prefix_of` indices 3 va')) as [[r E]|Hn].
  - assert (Hi' : indices 3 va' = p0 ++ [page_index 1 va; page_index 0 va']).
    { pose proof (f_equal length E) as El. rewrite length_indices, !length_app, Hl2 in El. cbn in El. destruct r as [|x [|]]; try (cbn in El; lia).
      rewrite E, <- app_assoc. cbn. do 3 f_equal. assert (E0 : list.last (indices 3 va') = Some (page_index 0 va')) by done.
      rewrite E, last_snoc in E0. by injection E0. }
    rewrite (split_walk va' Hi'). rewrite Hi, Hi'. destruct (decide (page_index 0 va = page_index 0 va')) as [E0|E0].
    + by rewrite E0, decide_True.
    + rewrite decide_False; [done|]. intros Ea. apply app_inv_head in Ea. by injection Ea.
  - rewrite decide_False by (intros Ea; rewrite <- Ea, Hi in Hn; apply Hn; exists [page_index 0 va]; by rewrite <- app_assoc).
    apply (change_walks s.1 t' pml4 p0 pd (page_index 1 va) (to_tree _ _ _ Hok) split_len_le Hpd split_old va' Hn).
Qed.

Lemma split_giants : same_giants s.1 t' pml4.
Proof.
  apply (change_giants s.1 t' pml4 p0 pd (page_index 1 va) (to_tree _ _ _ Hok) split_len_le Hpd split_old). left. apply split_len.
Qed.

End split.

(** ** One guard page *)

Lemma unused_is (e : Z * Z) : is_unused e = true <-> e = (0, 0).
Proof. unfold is_unused. rewrite andb_true_iff, !Z.eqb_eq. destruct e as [x y]. cbn. split; [by intros [-> ->]|by intros [= -> ->]]. Qed.

Lemma used_present s pml4 held p tb i : tables_ok s pml4 held -> (length p <= 3)%nat -> table_at s.1 pml4 p = Some tb ->
  0 <= i < ENTRIES_PER_TABLE -> is_unused (read s.1 tb i) = false -> has_flags (read s.1 tb i).2 PRESENT = true.
Proof. intros Hok Hl Ht Hr Hu. destruct (to_used _ _ _ Hok p tb i Hl Ht Hr) as [E|E]; [|done]. by rewrite (proj2 (unused_is _) E) in Hu. Qed.

Lemma walk_unused t pml4 va p tb i rest : indices 3 va = p ++ i :: rest -> table_at t pml4 p = Some tb ->
  is_unused (read t tb i) = true -> walk t pml4 3 va = None.
Proof.
  intros Hi Ht Hu. rewrite (walk_from t p pml4 3 va tb (i :: rest)) by done. apply unused_is in Hu.
  pose proof (f_equal length Hi) as El. rewrite length_indices, length_app in El. cbn in El.
  assert (Hl : exists l, (3 - length p = l)%nat /\ page_index (Z.of_nat l) va = i).
  { exists (3 - length p)%nat. split; [done|]. destruct p as [|a [|b [|c [|d p]]]]; cbn in El |- *; try lia; cbn in Hi; by injection Hi. }
  destruct Hl as (l & -> & E). destruct l; cbn [walk]; rewrite E, Hu; apply through_none.
Qed.

Lemma take_frame_ok s pml4 held : tables_ok s pml4 held -> exists r a', take_frame USABLE s = (Ok r, (s.1, a')) /\ memory_map a' = memory_map s.2 /\
  match r with
  | Some f => ((f ∉ held) /\ f ∈ all_frames USABLE (memory_map s.2)) /\ holds USABLE a' (f :: held)
  | None => held ≡ₚ all_frames USABLE (memory_map s.2) /\ holds USABLE a' held
  end.
Proof.
  intros Hok. pose proof (to_sane _ _ _ Hok) as Hs. destruct (to_holds _ _ _ Hok) as (n & Hb & Hp). destruct s as [t a]. cbn [fst snd] in *.
  destruct (allocate_does USABLE a held n Hs Hb Hp) as (r & a' & E & Em & Hr). exists r, a'. unfold take_frame. rewrite E.
  split; [done|]. split; [done|]. destruct r as [f|]; [|by destruct Hr as (_ & ? & ?)].
  destruct Hr as [Hf Hh]. split; [|done]. split; [done|]. destruct Hh as (m & _ & Hp'). rewrite Em in Hp'.
  rewrite <- (take_drop m (all_frames _ _)), elem_of_app, <- Hp'. left. apply elem_of_app. right. apply list_elem_of_here.
Qed.

(** Loops that write the entries of a table. *)
Lemma each_writes (body : Z -> stM GuardState string unit) (value : Z -> Z * Z) table l :
  (forall i t a, i ∈ l -> body i (t, a) = (Ok tt, (<[ (table, i) := value i ]> t, a))) -> forall t a,
  exists t', each_entry body l (t, a) = (Ok tt, (t', a)) /\
    forall tb i, read t' tb i = if decide (tb = table /\ i ∈ l) then value i else read t tb i.
Proof.
  induction l as [|j l IH]; intros Hb t a.
  - exists t. split; [done|]. intros tb i. rewrite decide_False; [done|]. intros [_ Hin]. by apply elem_of_nil in Hin.
  - destruct (IH (fun i t a Hin => Hb i t a (proj2 (elem_of_cons _ _ _) (or_intror Hin))) (<[ (table, j) := value j ]> t) a) as (t' & E & Hr).
    exists t'. cbn [each_entry]. rewrite (sbind_ok _ _ _ _ _ (Hb j t a (list_elem_of_here _ _))). split; [exact E|].
    intros tb i. rewrite Hr, read_write. destruct (decide (tb = table /\ i ∈ l)) as [[-> Hin]|Hn].
    + rewrite decide_True; [done|]. split; [done|]. apply elem_of_cons. by right.
    + destruct (decide (tb = table /\ i = j)) as [[-> ->]|Hj].
      * rewrite decide_True; [done|]. split; [done|apply list_elem_of_here].
      * rewrite decide_False; [done|]. intros [-> Hin]. apply elem_of_cons in Hin as [->|Hin]; tauto.
Qed.

Lemma all_entries_range i : i ∈ all_entries <-> 0 <= i < ENTRIES_PER_TABLE.
Proof. unfold all_entries. rewrite elem_of_seqZ. lia. Qed.

(** The entry written for a small page: no address check fails. *)
Lemma split_entry_ok pt e i t a : (2 ^ 21 | e.1) -> 0 <= e.1 < 2 ^ 46 -> i ∈ all_entries ->
  split_entry pt e.1 e.2 i (t, a) = (Ok tt, (<[ (pt, i) := (e.1 + i * PAGE_SIZE, small_flags e.2) ]> t, a)).
Proof.
  intros [k Hk] He Hi. apply all_entries_range in Hi. unfold ENTRIES_PER_TABLE in Hi. unfold split_entry, PAGE_SIZE.
  assert (El : Z.land e.1 (Z.lnot 0x1FFFFF) = e.1).
  { change 0x1FFFFF with (Z.ones 21). rewrite <- Z.ldiff_land, Z.ldiff_ones_r, Z.shiftr_div_pow2, Z.shiftl_mul_pow2 by lia.
    rewrite Hk, Z.div_mul by lia. done. }
  rewrite El. unfold sbind at 1, slift at 1. rewrite va_new_user by lia. unfold sbind at 1, slift at 1, pa_new.
  rewrite (proj2 (Z.ltb_lt _ _)) by lia. unfold set_addr, sbind, sassert.
  assert (Em : (e.1 + i * 4096) mod 4096 = 0) by (rewrite Z.mod_add by lia; rewrite Hk; change (2 ^ 21) with (2 ^ 9 * 4096); by rewrite Z.mul_assoc, Z.mod_mul).
  change PAGE_SIZE with 4096. rewrite Em. reflexivity.
Qed.

Lemma split_huge_ok s pml4 held pd j i0 : tables_ok s pml4 held -> 0 <= i0 < ENTRIES_PER_TABLE ->
  (2 ^ 21 | (read s.1 pd j).1) -> 0 <= (read s.1 pd j).1 < 2 ^ 46 ->
  exists r s', split_huge_page USABLE pd j i0 (read s.1 pd j) s = (r, s') /\ memory_map s'.2 = memory_map s.2 /\
    match r with
    | Ok _ => exists f, ((f ∉ held) /\ f ∈ all_frames USABLE (memory_map s.2)) /\ holds USABLE s'.2 (f :: held) /\
        (pd <> f -> split_into s.1 s'.1 pd j f i0)
    | Err _ => s'.1 = s.1 /\ held ≡ₚ all_frames USABLE (memory_map s.2) /\ holds USABLE s'.2 held
    | _ => False
    end.
Proof.
  intros Hok Hr0 Hd He. set (e := read s.1 pd j) in *. destruct (take_frame_ok s pml4 held Hok) as (r & a1 & E1 & Em & Hr).
  unfold split_huge_page. rewrite (sbind_ok _ _ _ _ _ E1). destruct r as [f|].
  2:{ exists (Err "out of frames for PT split"%string), (s.1, a1). destruct Hr as [H1 H2]. by split_and!. }
  destruct Hr as [Hf Hh].
  assert (Hal : f mod PAGE_SIZE = 0).
  { pose proof (to_sane _ _ _ Hok) as Hsane. rewrite <- Em in Hsane. apply (holds_facts USABLE a1 (f :: held)); [done|done|].
    apply elem_of_app. right. apply list_elem_of_here. }
  destruct (each_writes (set_unused f) (fun _ => (0, 0)) f all_entries (fun _ _ _ _ => eq_refl) s.1 a1) as (t2 & E2 & H2).
  rewrite (sbind_ok _ _ _ _ _ E2).
  destruct (each_writes (split_entry f e.1 e.2) (fun i => (e.1 + i * PAGE_SIZE, small_flags e.2)) f all_entries
    (fun i t a Hi => split_entry_ok f e i t a Hd He Hi) t2 a1) as (t3 & E3 & H3).
  rewrite (sbind_ok _ _ _ _ _ E3). unfold set_unused. rewrite (sbind_ok _ _ _ _ _ (eq_refl : write_table f i0 (0, 0) (t3, a1) = _)).
  unfold set_addr, sbind, sassert. rewrite Hal. eexists (Ok tt), _. split; [reflexivity|]. split; [exact Em|].
  exists f. split; [done|]. split; [exact Hh|]. intros Hne tb i. cbn [fst]. rewrite read_write. case_decide; [done|]. rewrite read_write, H3, H2.
  destruct (decide (tb = f)) as [->|Hf'].
  - destruct (decide (i ∈ all_entries)) as [Hi|Hi].
    + apply all_entries_range in Hi as Hi'. rewrite (decide_True (P := f = f /\ 0 <= i < ENTRIES_PER_TABLE)) by done.
      destruct (decide (i = i0)) as [->|]; [by rewrite decide_True|]. rewrite decide_False by tauto. by rewrite decide_True.
    + rewrite (decide_False (P := f = f /\ i = i0)) by (intros [_ ->]; by rewrite all_entries_range in Hi).
      rewrite !decide_False by tauto. rewrite decide_False; [done|]. rewrite all_entries_range in Hi. tauto.
  - by rewrite !decide_False by tauto.
Qed.

(** What became of one guard page. *)
Definition guard_result (t t' : Tables) (pml4 va : Z) (map : list Entry) (held' : list Z) (r : result string unit) : Prop :=
  match r with
  | Ok _ => guarded t t' pml4 va
  | Err _ => t' = t /\ (walk t pml4 3 va = None \/ giant t pml4 va \/ held' ≡ₚ all_frames USABLE map)
  | _ => False
  end.

(** The frames held grow, and no longer when all are taken. *)
Definition grown (map : list Entry) (held held' : list Z) : Prop :=
  held' = held \/ exists f, held' = f :: held /\ (f ∉ held) /\ f ∈ all_frames USABLE map.

Lemma unmap_guard_ok s pml4 held va : tables_ok s pml4 held ->
  exists r s' held', unmap_guard_page USABLE pml4 va s = (r, s') /\ tables_ok s' pml4 held' /\ memory_map s'.2 = memory_map s.2 /\
    same_giants s.1 s'.1 pml4 /\ grown (memory_map s.2) held held' /\ guard_result s.1 s'.1 pml4 va (memory_map s.2) held' r.
Proof.
  intros Hok. set (i3 := page_index 3 va). set (i2 := page_index 2 va). set (i1 := page_index 1 va). set (i0 := page_index 0 va).
  assert (Hstay : forall e, walk s.1 pml4 3 va = None \/ giant s.1 pml4 va \/ held ≡ₚ all_frames USABLE (memory_map s.2) ->
    exists r s' held', (Err e, s) = (r, s') /\ tables_ok s' pml4 held' /\ memory_map s'.2 = memory_map s.2 /\
      same_giants s.1 s'.1 pml4 /\ grown (memory_map s.2) held held' /\ guard_result s.1 s'.1 pml4 va (memory_map s.2) held' r).
  { intros e Hw. exists (Err e), s, held. split_and!; [done|done|done|done|by left|done]. }
  assert (Hread : forall table i, read_table table i s = (Ok (read s.1 table i), s)) by (intros; by destruct s).
  unfold unmap_guard_page. fold i3 i2 i1 i0. rewrite (sbind_ok _ _ _ _ _ (Hread pml4 i3)).
  destruct (is_unused (read s.1 pml4 i3)) eqn:U3.
  { apply Hstay. left. by apply (walk_unused s.1 pml4 va [] pml4 i3 [i2; i1; i0]). }
  pose proof (used_present s pml4 held [] pml4 i3 Hok ltac:(cbn; lia) eq_refl (page_index_range _ _) U3) as P3.
  assert (T3 : table_at s.1 pml4 [i3] = Some (read s.1 pml4 i3).1).
  { cbn. unfold is_table_entry. by rewrite P3, (to_top _ _ _ Hok). }
  set (pdpt := (read s.1 pml4 i3).1) in *. rewrite (sbind_ok _ _ _ _ _ (Hread pdpt i2)).
  destruct (is_unused (read s.1 pdpt i2)) eqn:U2.
  { apply Hstay. left. by apply (walk_unused s.1 pml4 va [i3] pdpt i2 [i1; i0]). }
  destruct (has_flags (read s.1 pdpt i2).2 HUGE_PAGE) eqn:G2.
  { apply Hstay. right. left. exists pdpt. done. }
  pose proof (used_present s pml4 held [i3] pdpt i2 Hok ltac:(cbn; lia) T3 (page_index_range _ _) U2) as P2.
  assert (T2 : table_at s.1 pml4 [i3; i2] = Some (read s.1 pdpt i2).1).
  { change [i3; i2] with ([i3] ++ [i2]). rewrite table_at_app, T3. cbn. unfold is_table_entry. by rewrite P2, G2. }
  set (pd := (read s.1 pdpt i2).1) in *. rewrite (sbind_ok _ _ _ _ _ (Hread pd i1)).
  destruct (is_unused (read s.1 pd i1)) eqn:U1.
  { apply Hstay. left. by apply (walk_unused s.1 pml4 va [i3; i2] pd i1 [i0]). }
  pose proof (used_present s pml4 held [i3; i2] pd i1 Hok ltac:(cbn; lia) T2 (page_index_range _ _) U1) as P1.
  destruct (has_flags (read s.1 pd i1).2 HUGE_PAGE) eqn:G1.
  - destruct (to_huge _ _ _ Hok [i3; i2] pd i1 eq_refl T2 G1) as [Hd Hb].
    destruct (split_huge_ok s pml4 held pd i1 i0 Hok (page_index_range _ _) Hd Hb) as (r & [t' a'] & E & Em & Hr). cbn [fst snd] in *.
    rewrite E. destruct r as [[]|e| |]; [| |done|done].
    + destruct Hr as (f & Hf & Hh & Hsp).
      assert (Hne : pd <> f) by (intros Ef; destruct (to_taken _ _ _ Hok [i3; i2] pd ltac:(cbn; lia) T2) as [Hin|Hin]; rewrite Ef in Hin; by destruct Hf).
      specialize (Hsp Hne). exists (Ok tt), (t', a'), (f :: held). split; [done|].
      assert (Hi : indices 3 va = [i3; i2] ++ [i1; i0]) by done. split_and!.
      * by apply (guard_split_ok s t' a' pml4 held va pd f [i3; i2]).
      * done.
      * by apply (split_giants s t' pml4 held va pd f [i3; i2]).
      * right. exists f. done.
      * by apply (split_guarded s t' pml4 held va pd f [i3; i2]).
    + destruct Hr as (-> & Hall & Hh). exists (Err e), (s.1, a'), held. split_and!; [done| |done|done|by left|split; [done|right; by right]].
      destruct Hok as [Hs _ ? Htk ? ? ?]. split; cbn [fst snd] in *; try done; by rewrite Em.
  - assert (T1 : table_at s.1 pml4 [i3; i2; i1] = Some (read s.1 pd i1).1).
    { change [i3; i2; i1] with ([i3; i2] ++ [i1]). rewrite table_at_app, T2. cbn. unfold is_table_entry. by rewrite P1, G1. }
    set (pt := (read s.1 pd i1).1) in *. rewrite (sbind_ok _ _ _ _ _ (Hread pt i0)).
    destruct (is_unused (read s.1 pt i0)) eqn:U0.
    { apply Hstay. left. by apply (walk_unused s.1 pml4 va [i3; i2; i1] pt i0 []). }
    destruct (unmap_small s pml4 held va pt [i3; i2; i1] Hok eq_refl T1) as (Hok' & Hg & Hgi).
    exists (Ok tt), (<[ (pt, i0) := (0, 0) ]> s.1, s.2), held. split_and!; try done; [by destruct s|by left].
Qed.

(** ** All of them *)

Definition exhausted (map : list Entry) (held : list Z) : Prop := held ≡ₚ all_frames USABLE map.

Lemma grown_exhausted map held held' : grown map held held' -> exhausted map held -> held' = held.
Proof. intros [->|(f & -> & Hn & Hin)] He; [done|]. by rewrite He in Hn. Qed.

(** After some guards [gs]: every walk is as before or of a guard and gone, and a guard that is
    still mapped lies in a page of 1 GiB or was met when no frame was left. *)
Record installed (s s' : GuardState) (pml4 : Z) (gs : list Z) (held' : list Z) : Prop := {
  in_ok : tables_ok s' pml4 held';
  in_map : memory_map s'.2 = memory_map s.2;
  in_giants : same_giants s.1 s'.1 pml4;
  in_walks : forall va, walk s'.1 pml4 3 va = walk s.1 pml4 3 va \/
    (walk s'.1 pml4 3 va = None /\ exists g, g ∈ gs /\ same_page g va);
  in_gone : forall g, g ∈ gs -> walk s'.1 pml4 3 g = None \/ giant s.1 pml4 g \/ exhausted (memory_map s.2) held';
}.

Lemma install_one s s1 pml4 gs held1 g : installed s s1 pml4 gs held1 ->
  exists s' held', ensure_guard_unmapped USABLE pml4 g s1 = (Ok tt, s') /\ installed s s' pml4 (gs ++ [g]) held'.
Proof.
  intros [Hok Hm Hg Hw Hgone]. destruct (unmap_guard_ok s1 pml4 held1 g Hok) as (r & s' & held' & E & Hok' & Hm' & Hg' & Hgr & Hr).
  exists s', held'. unfold ensure_guard_unmapped. rewrite E. split; [by destruct r as [[]| | |]|].
  assert (Hall : forall va, walk s'.1 pml4 3 va = walk s1.1 pml4 3 va \/ (walk s'.1 pml4 3 va = None /\ same_page g va)).
  { intros va. destruct r as [[]|e| |]; [| |done|done].
    - rewrite Hr. case_decide; [by right|by left].
    - destruct Hr as [-> _]. by left. }
  split; [done|congruence|intros va; etransitivity; [apply Hg'|apply Hg]| |].
  - intros va. destruct (Hall va) as [->|[-> Hs]].
    + destruct (Hw va) as [->|(-> & x & Hx & Hs)]; [by left|right]. split; [done|]. exists x. split; [apply elem_of_app; by left|done].
    + right. split; [done|]. exists g. split; [apply elem_of_app; right; apply list_elem_of_here|done].
  - intros x Hx. apply elem_of_app in Hx as [Hx|Hx].
    + destruct (Hgone x Hx) as [Hn|[Hn|Hn]]; [left|by right; left|right; right].
      * destruct (Hall x) as [->|[-> _]]; done.
      * rewrite Hm in Hgr. by rewrite (grown_exhausted _ _ _ Hgr Hn).
    + apply list_elem_of_singleton in Hx as ->. destruct r as [[]|e| |]; [| |done|done].
      * left. rewrite Hr. by rewrite decide_True.
      * destruct Hr as [-> [Hn|[Hn|Hn]]]; [by left|right; left; by apply Hg|right; right]. by rewrite Hm in Hn.
Qed.

Lemma install_each (s : GuardState) (pml4 : Z) (f : Z -> list Z) (body : Z -> stM GuardState string unit) (l : list Z) :
  (forall i s1 gs held1, i ∈ l -> installed s s1 pml4 gs held1 ->
    exists s2 held2, body i s1 = (Ok tt, s2) /\ installed s s2 pml4 (gs ++ f i) held2) ->
  forall s1 gs held1, installed s s1 pml4 gs held1 ->
  exists s2 held2, each_entry body l s1 = (Ok tt, s2) /\ installed s s2 pml4 (gs ++ mjoin (f <$> l)) held2.
Proof.
  induction l as [|i l IH]; intros Hb s1 gs held1 H1.
  - exists s1, held1. cbn. by rewrite app_nil_r.
  - destruct (Hb i s1 gs held1 (list_elem_of_here _ _) H1) as (s2 & held2 & E & H2).
    destruct (IH (fun j s1 gs held1 Hj => Hb j s1 gs held1 (proj2 (elem_of_cons _ _ _) (or_intror Hj))) s2 _ held2 H2) as (s3 & held3 & E3 & H3).
    exists s3, held3. cbn [each_entry]. rewrite (sbind_ok _ _ _ _ _ E). split; [exact E3|].
    cbn [fmap list_fmap mjoin list_join]. by rewrite app_assoc.
Qed.

(** *** Where the stacks lie *)

Definition core_guards (k : Stacks) (core_id : Z) : list Z :=
  (fun base => slot_guard PER_CORE_STACK_SIZE base core_id) <$> [RSP0_STACKS k; IST0_STACKS k; SCHEDULER_STACKS k].

Definition guards_of (k : Stacks) : list Z :=
  mjoin (core_guards k <$> seqZ 0 MAX_CORES) ++
  mjoin ((fun i => [slot_guard TASK_KERNEL_STACK_SIZE (KERNEL_TASK_STACKS k) i]) <$> seqZ 0 MAX_TASKS).

(** The arrays: base, size of a stack, number of stacks. *)
Definition arrays (k : Stacks) : list (Z * Z * Z) :=
  [(RSP0_STACKS k, PER_CORE_STACK_SIZE, MAX_CORES); (IST0_STACKS k, PER_CORE_STACK_SIZE, MAX_CORES);
   (SCHEDULER_STACKS k, PER_CORE_STACK_SIZE, MAX_CORES); (KERNEL_TASK_STACKS k, TASK_KERNEL_STACK_SIZE, MAX_TASKS)].

Definition array_end (x : Z * Z * Z) : Z := x.1.1 + x.2 * (GUARD_PAGE_SIZE + x.1.2).

(** The linker aligns the arrays to pages, keeps them apart and puts them in the upper half. *)
Record layout_ok (k : Stacks) : Prop := {
  lo_pages : Forall (fun x => (PAGE_SIZE | x.1.1)) (arrays k);
  lo_high : Forall (fun x => 2 ^ 64 - 2 ^ 47 <= x.1.1 /\ array_end x <= 2 ^ 64) (arrays k);
  lo_apart : forall i j x y, arrays k !! i = Some x -> arrays k !! j = Some y -> i <> j ->
    array_end x <= y.1.1 \/ array_end y <= x.1.1;
  lo_canonical : forall g E, g ∈ guards_of k -> va_new (E := E) g = Ok g;
}.

Definition in_stack (k : Stacks) (va : Z) : Prop :=
  exists x i, x ∈ arrays k /\ 0 <= i < x.2 /\ slot_stack x.1.2 x.1.1 i <= va < slot_stack x.1.2 x.1.1 i + x.1.2.

Lemma guard_in_array k g : g ∈ guards_of k -> exists x i, x ∈ arrays k /\ 0 <= i < x.2 /\ g = slot_guard x.1.2 x.1.1 i.
Proof.
  unfold guards_of. rewrite elem_of_app, !list_elem_of_join. intros [(l & Hg & Hl)|(l & Hg & Hl)];
    apply list_elem_of_fmap in Hl as (i & -> & Hi); apply elem_of_seqZ in Hi.
  - unfold core_guards in Hg. apply list_elem_of_fmap in Hg as (b & -> & Hb).
    exists (b, PER_CORE_STACK_SIZE, MAX_CORES), i. split; [|split; [cbn; lia|done]].
    unfold arrays. rewrite !elem_of_cons in *. destruct Hb as [->|[->|[->|Hb]]]; [tauto..|by apply elem_of_nil in Hb].
  - apply list_elem_of_singleton in Hg as ->. exists (KERNEL_TASK_STACKS k, TASK_KERNEL_STACK_SIZE, MAX_TASKS), i.
    split; [|split; [cbn; lia|done]]. unfold arrays. rewrite !elem_of_cons. tauto.
Qed.

(** Canonical addresses of the upper half on the same path share their page. *)
Lemma same_page_high a b : 2 ^ 64 - 2 ^ 47 <= a < 2 ^ 64 -> 2 ^ 64 - 2 ^ 47 <= b < 2 ^ 64 -> same_page a b ->
  a / PAGE_SIZE = b / PAGE_SIZE.
Proof.
  intros Ha Hb. unfold same_page, indices, page_index. change 0x1FF with (Z.ones 9).
  change (Z.of_nat 3) with 3. change (Z.of_nat 2) with 2. change (Z.of_nat 1) with 1. change (Z.of_nat 0) with 0.
  rewrite !Z.land_ones, !Z.shiftr_div_pow2 by lia. intros [= H3 H2 H1 H0].
  assert (Hx : forall v, v / 2 ^ (12 + 9 * 3) = v / PAGE_SIZE / 2 ^ 27 /\ v / 2 ^ (12 + 9 * 2) = v / PAGE_SIZE / 2 ^ 18 /\
    v / 2 ^ (12 + 9 * 1) = v / PAGE_SIZE / 2 ^ 9 /\ v / 2 ^ (12 + 9 * 0) = v / PAGE_SIZE).
  { intros v. rewrite !Z.div_div by done. done. }
  destruct (Hx a) as (A3 & A2 & A1 & A0), (Hx b) as (B3 & B2 & B1 & B0). rewrite A3, B3 in H3. rewrite A2, B2 in H2. rewrite A1, B1 in H1. rewrite A0, B0 in H0.
  assert (Hp : forall v, 2 ^ 64 - 2 ^ 47 <= v < 2 ^ 64 -> 2 ^ 52 - 2 ^ 35 <= v / PAGE_SIZE < 2 ^ 52).
  { intros v Hv. unfold PAGE_SIZE. split; [apply Z.div_le_lower_bound; lia|apply Z.div_lt_upper_bound; lia]. }
  specialize (Hp a Ha) as Pa. specialize (Hp b Hb) as Pb. clear - H3 H2 H1 H0 Pa Pb.
  set (x := a / PAGE_SIZE) in *. set (y := b / PAGE_SIZE) in *.
  assert (Hm : x mod 2 ^ 36 = y mod 2 ^ 36).
  { assert (Hs : forall v, v mod 2 ^ 36 = v mod 2 ^ 9 + 2 ^ 9 * ((v / 2 ^ 9) mod 2 ^ 9 + 2 ^ 9 * ((v / 2 ^ 18) mod 2 ^ 9 + 2 ^ 9 * ((v / 2 ^ 27) mod 2 ^ 9)))).
    { intros v. change (2 ^ 36) with (2 ^ 9 * (2 ^ 9 * (2 ^ 9 * 2 ^ 9))). rewrite !Z.rem_mul_r by done. rewrite !Z.div_div by done. done. }
    by rewrite !Hs, H3, H2, H1, H0. }
  pose proof (Z.div_mod x (2 ^ 36)). pose proof (Z.div_mod y (2 ^ 36)). pose proof (Z.mod_pos_bound x (2 ^ 36)).
  pose proof (Z.mod_pos_bound y (2 ^ 36)). lia.
Qed.

Lemma guard_not_stack k g va : layout_ok k -> g ∈ guards_of k -> in_stack k va -> ~ same_page g va.
Proof.
  intros [Hp Hh Ha _] Hg (y & j & Hy & Hj & Hva) Hs. destruct (guard_in_array k g Hg) as (x & i & Hx & Hi & ->).
  rewrite list.Forall_forall in Hp, Hh. pose proof (Hp x Hx) as [px Epx]. pose proof (Hh x Hx) as Hhx. pose proof (Hh y Hy) as Hhy.
  apply list_elem_of_lookup in Hx as [ix Hix], Hy as [iy Hiy].
  assert (Hsz : forall z, z ∈ arrays k -> exists n, 0 < n /\ z.1.2 = n * PAGE_SIZE).
  { unfold arrays. intros z Hz. rewrite !elem_of_cons in Hz. unfold PAGE_SIZE.
    destruct Hz as [->|[->|[->|[->|Hz]]]]; [by exists 8|by exists 8|by exists 8|by exists 16|by apply elem_of_nil in Hz]. }
  destruct (Hsz x) as (nx & Hnx & Ex); [by eapply list_elem_of_lookup_2|]. destruct (Hsz y) as (ny & Hny & Ey); [by eapply list_elem_of_lookup_2|].
  destruct x as [[bx sx] cx], y as [[by' sy] cy]. unfold array_end, slot_stack, slot_guard, GUARD_PAGE_SIZE, PAGE_SIZE in *. cbn [fst snd] in *.
  assert (Hg1 : bx + i * (4096 + sx) + 4096 <= bx + cx * (4096 + sx)) by nia.
  assert (Hg0 : bx <= bx + i * (4096 + sx)) by nia.
  assert (Hv1 : by' + j * (4096 + sy) + 4096 + sy <= by' + cy * (4096 + sy)) by nia.
  assert (Hv0 : by' <= by' + j * (4096 + sy)) by nia.
  apply same_page_high in Hs; [|lia|lia]. unfold PAGE_SIZE in Hs.
  assert (Hin : bx + i * (4096 + sx) <= va < bx + i * (4096 + sx) + 4096).
  { assert (Em : (bx + i * (4096 + sx)) mod 4096 = 0)
      by (replace (bx + i * (4096 + sx)) with ((px + i * (1 + nx)) * 4096) by (subst; lia); apply Z.mod_mul; lia).
    pose proof (Z.div_mod (bx + i * (4096 + sx)) 4096). pose proof (Z.div_mod va 4096). pose proof (Z.mod_pos_bound va 4096). lia. }
  destruct (decide (ix = iy)) as [->|Hne].
  - rewrite Hix in Hiy. injection Hiy as <- <- <-.
    assert (Hmul : forall u v, u < v -> u * (4096 + sx) + (4096 + sx) <= v * (4096 + sx)).
    { clear - Ex Hnx. intros u v Huv. replace (u * (4096 + sx) + (4096 + sx)) with ((u + 1) * (4096 + sx)) by ring.
      apply Z.mul_le_mono_nonneg_r; lia. }
    destruct (Z.lt_trichotomy i j) as [Hlt|[->|Hlt]]; [specialize (Hmul i j Hlt); lia|lia|specialize (Hmul j i Hlt); lia].
  - destruct (Ha ix iy _ _ Hix Hiy Hne) as [Hap|Hap]; cbn [fst snd] in Hap; lia.
Qed.

(** ** The theorem *)

Lemma lift_value {A B} (x : A) (c : A -> stM GuardState string B) s : sbind (slift (Ok x)) c s = c x s.
Proof. done. Qed.

Lemma install_core s pml4 k core_id s1 gs held1 : layout_ok k -> core_id ∈ seqZ 0 MAX_CORES -> installed s s1 pml4 gs held1 ->
  exists s2 held2,
    (let! g := slift (rsp0_guard_page k core_id) in
     ensure_guard_unmapped USABLE pml4 g ;;;
     let! g := slift (ist0_guard_page k core_id) in
     ensure_guard_unmapped USABLE pml4 g ;;;
     let! g := slift (scheduler_guard_page k core_id) in
     ensure_guard_unmapped USABLE pml4 g) s1 = (Ok tt, s2) /\ installed s s2 pml4 (gs ++ core_guards k core_id) held2.
Proof.
  intros Hk Hc H1. pose proof (lo_canonical _ Hk) as Hcan. apply elem_of_seqZ in Hc as Hr.
  assert (Hg : forall base, base ∈ [RSP0_STACKS k; IST0_STACKS k; SCHEDULER_STACKS k] ->
    core_guard_page (E := string) base core_id = Ok (slot_guard PER_CORE_STACK_SIZE base core_id)).
  { intros base Hb. unfold core_guard_page, core_slot. rewrite (proj2 (Z.ltb_lt _ _)) by lia. apply Hcan. unfold guards_of.
    apply elem_of_app. left. apply list_elem_of_join. exists (core_guards k core_id).
    split; [apply list_elem_of_fmap; by exists base|apply list_elem_of_fmap; by exists core_id]. }
  unfold rsp0_guard_page, ist0_guard_page, scheduler_guard_page.
  rewrite !Hg by (rewrite !elem_of_cons; tauto). unfold core_guards. cbn [fmap list_fmap].
  destruct (install_one s s1 pml4 gs held1 (slot_guard PER_CORE_STACK_SIZE (RSP0_STACKS k) core_id) H1) as (s2 & held2 & E2 & H2).
  destruct (install_one s s2 pml4 _ held2 (slot_guard PER_CORE_STACK_SIZE (IST0_STACKS k) core_id) H2) as (s3 & held3 & E3 & H3).
  destruct (install_one s s3 pml4 _ held3 (slot_guard PER_CORE_STACK_SIZE (SCHEDULER_STACKS k) core_id) H3) as (s4 & held4 & E4 & H4).
  exists s4, held4. rewrite lift_value, (sbind_ok _ _ _ _ _ E2), lift_value, (sbind_ok _ _ _ _ _ E3), lift_value. split; [exact E4|]. rewrite <- !app_assoc in H4. exact H4.
Qed.

Lemma install_task s pml4 k i s1 gs held1 : layout_ok k -> i ∈ seqZ 0 MAX_TASKS -> installed s s1 pml4 gs held1 ->
  exists s2 held2,
    (let! g := slift (task_guard_page k i) in ensure_guard_unmapped USABLE pml4 g) s1 = (Ok tt, s2) /\
    installed s s2 pml4 (gs ++ [slot_guard TASK_KERNEL_STACK_SIZE (KERNEL_TASK_STACKS k) i]) held2.
Proof.
  intros Hk Hi H1. apply elem_of_seqZ in Hi as Hr. unfold task_guard_page, in_tasks. rewrite (proj2 (Z.ltb_lt _ _)) by lia.
  rewrite (lo_canonical _ Hk).
  - rewrite lift_value. by apply (install_one s s1 pml4 gs held1).
  - unfold guards_of. apply elem_of_app. right. apply list_elem_of_join.
    eexists. split; [apply list_elem_of_here|]. apply list_elem_of_fmap. by exists i.
Qed.

(** C21: Installing the guard pages at boot: it always comes to its end; every address of every
    kernel stack, and every other address that is no guard's, is translated as before, to the
    same place with the same rights, although pages of 2 MiB are split on the way; and every
    guard page is gone afterwards, unless it lies in a page of 1 GiB or no frame was left to
    split the page it lies in. *)
Theorem guards_installed (s : GuardState) (pml4 : Z) (held : list Z) (k : Stacks) : tables_ok s pml4 held -> layout_ok k ->
  exists s' held', install_guard_pages USABLE pml4 k s = (Ok tt, s') /\ tables_ok s' pml4 held' /\
    (forall va, in_stack k va -> walk s'.1 pml4 3 va = walk s.1 pml4 3 va) /\
    (forall va, (forall g, g ∈ guards_of k -> ~ same_page g va) -> walk s'.1 pml4 3 va = walk s.1 pml4 3 va) /\
    (forall g, g ∈ guards_of k -> walk s'.1 pml4 3 g = None \/ giant s.1 pml4 g \/ held' ≡ₚ all_frames USABLE (memory_map s.2)).
Proof.
  intros Hok Hk. assert (H0 : installed s s pml4 [] held).
  { split; [done|done|done|by left|]. intros g Hg. by apply elem_of_nil in Hg. }
  destruct (install_each s pml4 (core_guards k) _ _ (fun i s1 gs held1 Hi H1 => install_core s pml4 k i s1 gs held1 Hk Hi H1) s [] held H0)
    as (s1 & held1 & E1 & H1).
  destruct (install_each s pml4 _ _ _ (fun i s1 gs held1 Hi H1 => install_task s pml4 k i s1 gs held1 Hk Hi H1) s1 _ held1 H1)
    as (s2 & held2 & E2 & H2).
  exists s2, held2. unfold install_guard_pages. rewrite (sbind_ok _ _ _ _ _ E1). split; [exact E2|]. cbn [app] in H2. fold (guards_of k) in H2.
  destruct H2 as [Hok2 _ _ Hw Hg].
  assert (Hother : forall va, (forall g, g ∈ guards_of k -> ~ same_page g va) -> walk s2.1 pml4 3 va = walk s.1 pml4 3 va).
  { intros va Hn. destruct (Hw va) as [E|(_ & g & Hin & Hs)]; [done|]. by destruct (Hn g Hin). }
  split_and!; [done| |done|done]. intros va Hva. apply Hother. intros g Hin. by apply (guard_not_stack k).
Qed.

End spec.

(** ** Guard pages on a small machine

    Page tables as the boot loader leaves them, with the stacks in three pages of 2 MiB, and a
    frame allocator with three frames: all three pages are split. *)

Definition demo_base : Z := 0xFFFFFFFF80200000.

Definition demo_stacks : Stacks := mkStacks demo_base (demo_base + 147456) (demo_base + 294912) (demo_base + 442368).

(** The tables lie outside of the allocator's regions; 131 is present, writable and huge. *)
Definition demo_pml4 : Z := 0x100000.

Definition demo_tables : Tables :=
  <[ (0x100000, 511) := (0x101000, 3) ]> (<[ (0x101000, 510) := (0x102000, 3) ]>
  (<[ (0x102000, 1) := (0x200000, 131) ]> (<[ (0x102000, 2) := (0x400000, 131) ]> (<[ (0x102000, 3) := (0x600000, 131) ]> ∅)))).

Lemma demo_read tb i : read demo_tables tb i =
  if decide (tb = 0x100000 /\ i = 511) then (0x101000, 3) else if decide (tb = 0x101000 /\ i = 510) then (0x102000, 3) else
  if decide (tb = 0x102000 /\ i = 1) then (0x200000, 131) else if decide (tb = 0x102000 /\ i = 2) then (0x400000, 131) else
  if decide (tb = 0x102000 /\ i = 3) then (0x600000, 131) else (0, 0).
Proof. unfold demo_tables. rewrite !read_write. done. Qed.

(** There are three tables. *)
Lemma demo_paths p tb : table_at demo_tables demo_pml4 p = Some tb ->
  (p, tb) = ([], 0x100000) \/ (p, tb) = ([511], 0x101000) \/ (p, tb) = ([511; 510], 0x102000).
Proof.
  unfold demo_pml4. destruct p as [|a p]; [intros [= <-]; by left|]. cbn [table_at]. rewrite demo_read.
  destruct (decide (1048576 = 0x100000 /\ a = 511)) as [[_ ->]|Hn]; [|rewrite !decide_False by (lia || (intros [? ->]; tauto)); done].
  destruct p as [|b p]; [intros [= <-]; by right; left|]. cbn [table_at is_table_entry]. change (is_table_entry _) with true at 1. cbn [fst snd].
  rewrite demo_read. rewrite decide_False by (intros [? _]; done).
  destruct (decide (1052672 = 0x101000 /\ b = 510)) as [[_ ->]|Hn]; [|rewrite !decide_False by (intros [? _]; done); done].
  change (is_table_entry (1056768, 3).2) with true. cbn [fst snd].
  destruct p as [|c p]; [intros [= <-]; by right; right|]. cbn [table_at]. rewrite demo_read.
  rewrite !(decide_False (P := 1056768 = _ /\ _)) by (intros [? _]; done).
  repeat case_decide; done.
Qed.

Lemma demo_tables_ok : tables_ok 0 (demo_tables, FrameAlloc.init demo_map) demo_pml4 [].
Proof.
  split; cbn [fst snd].
  - exact demo_sane.
  - apply init_holds.
  - intros p q tb _ _ Hp Hq. apply demo_paths in Hp as [[= -> ->]|[[= -> ->]|[= -> ->]]]; apply demo_paths in Hq as [[=]|[[=]|[=]]]; congruence.
  - intros p tb _ Hp. right. change (all_frames 0 _) with [4096; 8192; 40960]. rewrite !elem_of_cons.
    apply demo_paths in Hp as [[= -> ->]|[[= -> ->]|[= -> ->]]]; intros [E|[E|[E|E]]]; (done || by apply elem_of_nil in E).
  - intros p tb i _ _ _. rewrite demo_read. repeat case_decide; (by right) || (by left).
  - intros i. unfold demo_pml4. rewrite demo_read. repeat case_decide; (reflexivity || lia).
  - intros p tb i _ _. rewrite demo_read. repeat case_decide; intros Hh; try discriminate Hh; cbn [fst];
      (split; [|lia]); [by exists 1|by exists 2|by exists 3].
Qed.

Lemma demo_layout : layout_ok demo_stacks.
Proof.
  assert (Hb : forall x, x ∈ arrays demo_stacks -> 2 ^ 64 - 2 ^ 47 <= x.1.1 /\ array_end x <= 2 ^ 64).
  { unfold arrays. intros x Hx. rewrite !elem_of_cons in Hx. destruct Hx as [->|[->|[->|[->|Hx]]]]; [vm_compute; split; discriminate..|by apply elem_of_nil in Hx]. }
  split.
  - repeat constructor; [by exists 0xFFFFFFFF80200|by exists (0xFFFFFFFF80200 + 36)|by exists (0xFFFFFFFF80200 + 72)|by exists (0xFFFFFFFF80200 + 108)].
  - apply list.Forall_forall, Hb.
  - intros [|[|[|[|i]]]] [|[|[|[|j]]]] x y Hx Hy Hne; cbn in Hx, Hy; try done; injection Hx as <-; injection Hy as <-;
      ((by left) || (by right)).
  - intros g E Hg. destruct (guard_in_array demo_stacks g Hg) as (x & i & Hx & Hi & ->). pose proof (Hb x Hx) as [H1 H2].
    assert (Hs : 0 < x.1.2) by (unfold arrays in Hx; rewrite !elem_of_cons in Hx; destruct Hx as [->|[->|[->|[->|Hx]]]]; [done..|by apply elem_of_nil in Hx]).
    unfold array_end, slot_guard, GUARD_PAGE_SIZE in *. change (va_new (E := E)) with (canonical (E := E)). unfold canonical.
    rewrite (proj2 (Z.leb_le 0 _)) by nia. rewrite (proj2 (Z.leb_le (2 ^ 64 - 2 ^ 47) _)) by nia. rewrite (proj2 (Z.ltb_lt _ (2 ^ 64))) by nia.
    by rewrite orb_true_r.
Qed.

(** The first word of the first stack keeps its frame; the guard in front of it is gone. *)
Lemma guards_installed_witness :
  exists s' held', install_guard_pages 0 demo_pml4 demo_stacks (demo_tables, FrameAlloc.init demo_map) = (Ok tt, s') /\
    tables_ok 0 s' demo_pml4 held' /\
    walk s'.1 demo_pml4 3 (demo_base + 4096) = Some (0x201000, true, false) /\
    (walk s'.1 demo_pml4 3 demo_base = None \/ giant demo_tables demo_pml4 demo_base \/ held' ≡ₚ all_frames 0 demo_map).
Proof.
  destruct (guards_installed 0 (demo_tables, FrameAlloc.init demo_map) demo_pml4 [] demo_stacks demo_tables_ok demo_layout)
    as (s' & held' & E & Hok & Hst & _ & Hg).
  exists s', held'. split; [exact E|]. split; [exact Hok|]. split.
  - rewrite Hst; [vm_compute; reflexivity|]. exists (demo_base, PER_CORE_STACK_SIZE, MAX_CORES), 0.
    split; [apply list_elem_of_here|]. split; [vm_compute; split; [discriminate|reflexivity]|]. vm_compute. split; [discriminate|reflexivity].
  - apply Hg. unfold guards_of. apply elem_of_app. left. vm_compute. apply list_elem_of_here.
Defined.

(** All three pages are split and every guard page is gone. *)
Lemma demo_all_gone :
  let s' := (install_guard_pages 0 demo_pml4 demo_stacks (demo_tables, FrameAlloc.init demo_map)).2 in
  forallb (fun g => match walk s'.1 demo_pml4 3 g with None => true | Some _ => false end) (guards_of demo_stacks) = true.
Proof. vm_compute. reflexivity. Qed.
