(* ===== verification/Elf.v ===== *)
(** * Elf: program images, kernel/src/process/elf_loader.rs

    Reading the loadable segments of a program and merging the ones that overlap or touch.
    Parsing the file is the work of the elf crate: [minimal_parse] is a parameter.
    [segment_byte] is the byte a segment puts at an address: its file data, then zeroes up
    to its size in memory. *)

From Stdlib Require Import ZArith Lia Sorted.
From stdpp Require Import base tactics list option numbers.
From S2P Require Import Prelude.

Open Scope rust_scope.

Record LoadSegment : Type := mkSegment {
  vaddr : Z;
  in_file_size : Z;
  in_memory_size : Z;
  flags : Z;
  data : list Z;
}.

Record ElfLoadInfo : Type := mkLoadInfo {
  entry_point : Z;
  min_vaddr : Z;
  max_vaddr : Z;
  segments : list LoadSegment;
}.

(** [ElfLoadFlags] *)
Definition Executable : Z := 1.
Definition Writable : Z := 2.
Definition Readable : Z := 4.

Inductive ElfLoadError : Type :=
  | InvalidMagic
  | InvalidHeader
  | InvalidArch
  | InvalidType
  | NoLoadableSegments
  | ReadError
  | ParseError.

Section merge.
Context {E : Type}.

(** [data.resize(n, 0)] of a shorter vector. *)
Definition grow_to (n : nat) (d : list Z) : list Z :=
  if (length d <? n)%nat then d ++ replicate (n - length d) 0 else d.

(** The body of the loop for a segment that starts at or before the end of the current one. *)
Definition merge_into (curr_seg next : LoadSegment) (curr_end : Z) : result E LoadSegment :=
  let? next_end := uadd (vaddr next) (in_memory_size next) in
  let new_end := Z.max next_end curr_end in
  let? memory_size := usub new_end (vaddr curr_seg) in
  let? merged_data :=
    (if 0 <? in_file_size next then
       let? offset_in_curr := usub (vaddr next) (vaddr curr_seg) in
       let? merged_data_size := uadd offset_in_curr (zlen (data next)) in
       Ok (splice (grow_to (Z.to_nat merged_data_size) (data curr_seg)) (Z.to_nat offset_in_curr) (data next))
     else Ok (data curr_seg)) in
  let? file_end := uadd (vaddr next) (in_file_size next) in
  let? curr_file_end := uadd (vaddr curr_seg) (in_file_size curr_seg) in
  let? file_size :=
    (if curr_file_end <? file_end then usub file_end (vaddr curr_seg) else Ok (in_file_size curr_seg)) in
  Ok (mkSegment (vaddr curr_seg) file_size memory_size (Z.lor (flags curr_seg) (flags next)) merged_data).

Fixpoint merge_loop (curr_seg : LoadSegment) (sorted_iter merged : list LoadSegment)
    : result E (list LoadSegment) :=
  match sorted_iter with
  | [] => Ok (merged ++ [curr_seg])
  | next :: sorted_iter =>
      let? curr_end := uadd (vaddr curr_seg) (in_memory_size curr_seg) in
      if vaddr next <=? curr_end then
        let? curr_seg := merge_into curr_seg next curr_end in merge_loop curr_seg sorted_iter merged
      else merge_loop next sorted_iter (merged ++ [curr_seg])
  end.

Definition merge_segments (segs : list LoadSegment) : result E (list LoadSegment) :=
  match sort_by_key vaddr segs with
  | [] => Panic
  | curr_seg :: sorted_iter => merge_loop curr_seg sorted_iter []
  end.

End merge.

(** What the elf crate makes of a file: machine, entry point and program headers. *)
Record ProgramHeader : Type := mkHeader {
  p_type : Z;
  p_flags : Z;
  p_offset : Z;
  p_vaddr : Z;
  p_filesz : Z;
  p_memsz : Z;
}.

Record ElfBytes : Type := mkElf {
  e_machine : Z;
  e_entry : Z;
  e_segments : option (list ProgramHeader);
}.

Section loader.
Variables (EM_X86_64 PT_LOAD : Z).
Variable minimal_parse : list Z -> option ElfBytes.

Abbreviation R := (result ElfLoadError).

Definition segment_data (elf_data : list Z) (offset in_file_size : Z) : R (list Z) :=
  if 0 <? in_file_size then
    let? e := uadd offset in_file_size in
    if zlen elf_data <? e then Err ReadError else
    Ok (slice elf_data (Z.to_nat offset) (Z.to_nat in_file_size))
  else Ok [].

(** The loop over the program headers. *)
Fixpoint load_segments (elf_data : list Z) (headers : list ProgramHeader) (min_vaddr max_vaddr : Z)
    (segs : list LoadSegment) : R (Z * Z * list LoadSegment) :=
  match headers with
  | [] => Ok (min_vaddr, max_vaddr, segs)
  | segment :: headers =>
      if negb (p_type segment =? PT_LOAD) then load_segments elf_data headers min_vaddr max_vaddr segs else
      let? e := uadd (p_vaddr segment) (p_memsz segment) in
      let? d := segment_data elf_data (p_offset segment) (p_filesz segment) in
      load_segments elf_data headers (Z.min (p_vaddr segment) min_vaddr) (Z.max e max_vaddr)
        (segs ++ [mkSegment (p_vaddr segment) (p_filesz segment) (p_memsz segment) (p_flags segment) d])
  end.

Definition from_elf_data (elf_data : list Z) : R ElfLoadInfo :=
  match minimal_parse elf_data with
  | None => Err ParseError
  | Some elf =>
      if negb (e_machine elf =? EM_X86_64) then Err InvalidArch else
      match e_segments elf with
      | None => Err InvalidHeader
      | Some headers =>
          let? (lo, hi, segs) := load_segments elf_data headers U64_MAX 0 [] in
          match segs with
          | [] => Err NoLoadableSegments
          | _ => let? segs := merge_segments segs in
                 let? _ := usub hi lo in
                 Ok (mkLoadInfo (e_entry elf) lo hi segs)
          end
      end
  end.

End loader.

(** ** What the segments put into memory *)

Abbreviation s_end s := (vaddr s + in_memory_size s).

(** The byte of the file data at an address. *)
Definition file_byte (s : LoadSegment) (a : Z) : option Z :=
  if (vaddr s <=? a) && (a <? vaddr s + in_file_size s) then data s !! Z.to_nat (a - vaddr s) else None.

Definition in_segment (s : LoadSegment) (a : Z) : Prop := vaddr s <= a < s_end s.

#[export] Instance in_segment_dec s a : Decision (in_segment s a).
Proof. unfold in_segment. apply _. Defined.

(** The file data at an address: the last segment that has some wins. *)
Fixpoint file_image (l : list LoadSegment) (a : Z) : option Z :=
  match l with
  | [] => None
  | s :: l => match file_image l a with Some b => Some b | None => file_byte s a end
  end.

(** What a list of segments, loaded in this order, puts at an address: file data, or zero
    where a segment has none. *)
Definition image (l : list LoadSegment) (a : Z) : option Z :=
  match file_image l a with
  | Some b => Some b
  | None => if decide (Exists (fun s => in_segment s a) l) then Some 0 else None
  end.

(** A segment with file data that fits its memory and the address space. *)
Record seg_ok (s : LoadSegment) : Prop := {
  so_start : 0 <= vaddr s;
  so_file : 0 < in_file_size s <= in_memory_size s;
  so_data : zlen (data s) = in_file_size s;
  so_end : s_end s < 2 ^ 64;
}.

(** ** Images *)

Lemma file_byte_in s a b : seg_ok s -> file_byte s a = Some b -> in_segment s a.
Proof.
  intros [] Hb. unfold file_byte, in_segment in *.
  destruct (Z.leb_spec (vaddr s) a), (Z.ltb_spec a (vaddr s + in_file_size s)); try done. lia.
Qed.

Lemma image_outside l a : Forall seg_ok l -> Forall (fun s => ~ in_segment s a) l ->
  file_image l a = None /\ image l a = None.
Proof.
  intros Hok Hout. assert (Hf : file_image l a = None).
  { induction Hout as [|s l Hs _ IH]; [done|]. apply Forall_cons_1 in Hok as [Hsk Hok]. cbn.
    rewrite IH by done. destruct (file_byte s a) eqn:E; [|done]. by destruct Hs; eapply file_byte_in. }
  split; [done|]. unfold image. rewrite Hf, decide_False; [done|].
  rewrite list.Exists_exists. intros (s & Hs & Ha). rewrite list.Forall_forall in Hout. by apply (Hout s).
Qed.

Lemma file_image_app l1 l2 a :
  file_image (l1 ++ l2) a = match file_image l2 a with Some b => Some b | None => file_image l1 a end.
Proof. induction l1 as [|s l1 IH]; cbn; [by destruct (file_image l2 a)|]. rewrite IH. by destruct (file_image l2 a). Qed.

(** Segments below an address and segments above it do not meet. *)
Lemma image_app l1 l2 x a : Forall seg_ok l1 -> Forall seg_ok l2 ->
  Forall (fun s => s_end s <= x) l1 -> Forall (fun s => x <= vaddr s) l2 ->
  image (l1 ++ l2) a = if a <? x then image l1 a else image l2 a.
Proof.
  intros H1 H2 F1 F2. unfold image. rewrite file_image_app.
  assert (He : forall P Q : Prop, (P <-> Q) -> forall (dp : Decision P) (dq : Decision Q),
    (if decide P then Some 0 else None) = (if decide Q then Some 0 else None)).
  { intros P Q Hpq dp dq. destruct (decide P), (decide Q); tauto. }
  destruct (Z.ltb_spec a x).
  - destruct (image_outside l2 a H2) as [-> _].
    { revert F2. apply List.Forall_impl. unfold in_segment. intros. lia. }
    destruct (file_image l1 a); [done|]. apply He. rewrite Exists_app. split; [|auto]. intros [?|Hx]; [done|].
    apply list.Exists_exists in Hx as (s & Hs & Ha). rewrite list.Forall_forall in F2. specialize (F2 s Hs).
    unfold in_segment in Ha. lia.
  - destruct (image_outside l1 a H1) as [-> _].
    { revert F1. apply List.Forall_impl. unfold in_segment. intros. lia. }
    destruct (file_image l2 a); [done|]. apply He. rewrite Exists_app. split; [|auto]. intros [Hx|?]; [|done].
    apply list.Exists_exists in Hx as (s & Hs & Ha). rewrite list.Forall_forall in F1. specialize (F1 s Hs).
    unfold in_segment in Ha. lia.
Qed.

(** ** Merging two segments *)

Lemma lookup_grow_to n d i : (i < Nat.max n (length d))%nat ->
  grow_to n d !! i = if decide (i < length d)%nat then d !! i else Some 0.
Proof.
  intros Hi. unfold grow_to. destruct (Nat.ltb_spec (length d) n).
  - destruct (decide (i < length d)%nat); [by rewrite lookup_app_l|].
    rewrite lookup_app_r by lia. apply lookup_replicate_2. lia.
  - by rewrite decide_True by lia.
Qed.

Lemma length_grow_to n d : length (grow_to n d) = Nat.max n (length d).
Proof.
  unfold grow_to. destruct (Nat.ltb_spec (length d) n); [|lia]. rewrite length_app, length_replicate. lia.
Qed.

Lemma merge_into_ok {E} c n : seg_ok c -> seg_ok n -> vaddr c <= vaddr n <= s_end c ->
  exists m, merge_into (E:=E) c n (s_end c) = Ok m /\ seg_ok m /\ vaddr m = vaddr c /\
    s_end m = Z.max (s_end n) (s_end c) /\ flags m = Z.lor (flags c) (flags n) /\
    (forall l a, image (m :: l) a = image (c :: n :: l) a).
Proof.
  intros [Hc1 Hc2 Hc3 Hc4] [Hn1 Hn2 Hn3 Hn4] Hv. unfold merge_into, uadd, usub.
  rewrite !(proj2 (Z.ltb_lt _ _)) by lia. cbn [rbind]. rewrite !(proj2 (Z.leb_le _ _)) by lia. cbn [rbind].
  set (off := vaddr n - vaddr c). rewrite !(proj2 (Z.ltb_lt (off + _) _)) by (unfold off; lia). cbn [rbind].
  set (d := splice _ _ _). set (fs := Z.max (off + in_file_size n) (in_file_size c)).
  assert (Efs : (if vaddr c + in_file_size c <? vaddr n + in_file_size n
    then Ok (vaddr n + in_file_size n - vaddr c)
    else Ok (in_file_size c)) = @Ok E Z fs).
  { unfold fs, off. destruct (Z.ltb_spec (vaddr c + in_file_size c) (vaddr n + in_file_size n)).
    - f_equal. lia.
    - f_equal. lia. }
  rewrite Efs. cbn [rbind]. eexists. split; [done|].
  assert (Hgl : length (grow_to (Z.to_nat (off + zlen (data n))) (data c)) = Z.to_nat fs)
    by (rewrite length_grow_to; unfold fs, off; lia).
  assert (Hd : zlen d = fs).
  { unfold d. rewrite length_splice by (rewrite Hgl; unfold fs, off; lia). rewrite Hgl. unfold fs, off. lia. }
  split; [split; cbn; unfold fs, off in *; lia|]. cbn. split; [done|]. split; [lia|]. split; [done|].
  intros l a. unfold image. cbn [file_image]. destruct (file_image l a) as [b|]; [done|].
  set (m := mkSegment _ _ _ _ _).
  assert (Hcov : Exists (fun s => in_segment s a) (m :: l) <-> Exists (fun s => in_segment s a) (c :: n :: l)).
  { rewrite !Exists_cons. unfold in_segment. cbn. intuition lia. }
  assert (Hfm : file_byte m a = match file_byte n a with
    | Some b => Some b
    | None => match file_byte c a with
      | Some b => Some b
      | None => if (vaddr c <=? a) && (a <? vaddr c + fs) then Some 0 else None
      end end).
  { unfold file_byte at 1. cbn [vaddr in_file_size data m].
    destruct ((vaddr c <=? a) && (a <? vaddr c + fs)) eqn:Em.
    - bool_hyps. unfold d. rewrite lookup_splice by (rewrite Hgl; unfold fs, off; lia).
      unfold file_byte. case_decide as Hi.
      + rewrite (proj2 (Z.leb_le (vaddr n) a)), (proj2 (Z.ltb_lt a (vaddr n + _))) by (unfold off in *; lia).
        cbn [andb]. replace (Z.to_nat (a - vaddr c) - Z.to_nat off)%nat with (Z.to_nat (a - vaddr n)) by (unfold off in *; lia).
        destruct (lookup_lt_is_Some_2 (data n) (Z.to_nat (a - vaddr n))) as [b ->]; [unfold off in *; lia|done].
      + replace ((vaddr n <=? a) && (a <? vaddr n + in_file_size n)) with false
          by (symmetry; apply andb_false_iff; rewrite Z.leb_gt, Z.ltb_ge; unfold off in *; lia).
        rewrite lookup_grow_to by (unfold fs, off in *; lia).
        rewrite (proj2 (Z.leb_le (vaddr c) a)) by done. cbn [andb].
        destruct (Z.ltb_spec a (vaddr c + in_file_size c)).
        * rewrite decide_True by lia.
          destruct (lookup_lt_is_Some_2 (data c) (Z.to_nat (a - vaddr c))) as [b ->]; [lia|done].
        * by rewrite decide_False by lia.
    - assert (Hout : a < vaddr c \/ vaddr c + fs <= a)
        by (apply andb_false_iff in Em as [?%Z.leb_gt|?%Z.ltb_ge]; lia).
      unfold file_byte.
      replace ((vaddr n <=? a) && (a <? vaddr n + in_file_size n)) with false
        by (symmetry; apply andb_false_iff; rewrite Z.leb_gt, Z.ltb_ge; unfold fs, off in *; lia).
      replace ((vaddr c <=? a) && (a <? vaddr c + in_file_size c)) with false
        by (symmetry; apply andb_false_iff; rewrite Z.leb_gt, Z.ltb_ge; unfold fs, off in *; lia).
      done. }
  rewrite Hfm. destruct (file_byte n a) as [b|] eqn:En; [done|]. destruct (file_byte c a) as [b|] eqn:Ec; [done|].
  destruct ((vaddr c <=? a) && (a <? vaddr c + fs)) eqn:Em.
  - bool_hyps. rewrite decide_True; [done|]. apply Hcov. rewrite Exists_cons. left.
    unfold in_segment. cbn. unfold fs, off in *. lia.
  - destruct (decide (Exists _ (m :: l))), (decide (Exists _ (c :: n :: l))); tauto.
Qed.

(** ** The whole list *)

Lemma merge_loop_app {E} rest : forall c pre,
  merge_loop (E:=E) c rest pre = let? out := merge_loop c rest [] in Ok (pre ++ out).
Proof.
  induction rest as [|n rest IH]; intros c pre; cbn [merge_loop]; [done|].
  destruct (uadd _ _) as [e| | |]; [|done..]. cbn [rbind]. destruct (_ <=? e).
  - destruct (merge_into c n e) as [m| | |]; [|done..]. cbn [rbind]. apply IH.
  - rewrite IH, (IH n ([] ++ [c])). destruct (merge_loop n rest []); [|done..]. cbn [rbind].
    by rewrite app_nil_l, <- app_assoc.
Qed.

Definition gaps (l : list LoadSegment) : Prop := StronglySorted (fun s t => s_end s < vaddr t) l.

(** [t] spans [s] and allows what [s] allows. *)
Definition spans (t s : LoadSegment) : Prop :=
  vaddr t <= vaddr s /\ s_end s <= s_end t /\ Z.land (flags s) (flags t) = flags s.

Lemma spans_merged m c n s : vaddr m = vaddr c -> vaddr c <= vaddr n -> s_end m = Z.max (s_end n) (s_end c) ->
  flags m = Z.lor (flags c) (flags n) -> s = c \/ s = n -> spans m s.
Proof.
  intros Ev Hv Ee Ef Hs. assert (Hland : forall x y, Z.land x (Z.lor x y) = x /\ Z.land y (Z.lor x y) = y).
  { intros x y. split; apply Z.bits_inj'; intros k Hk; rewrite Z.land_spec, Z.lor_spec;
      destruct (Z.testbit x k), (Z.testbit y k); done. }
  unfold spans. rewrite Ee, Ev, Ef. destruct (Hland (flags c) (flags n)). destruct Hs as [-> | ->]; (split; [lia|]); (split; [lia|done]).
Qed.

Lemma spans_trans t m s : spans t m -> spans m s -> spans t s.
Proof.
  intros (H1 & H2 & H3) (H4 & H5 & H6). split; [lia|]. split; [lia|].
  rewrite <- H6 at 1. by rewrite <- Z.land_assoc, H3, H6.
Qed.

Lemma spans_refl s : spans s s.
Proof. split; [lia|]. split; [lia|]. apply Z.land_diag. Qed.

Lemma merge_loop_ok {E} rest : forall c, Forall seg_ok (c :: rest) ->
  StronglySorted (fun x y => vaddr x <= vaddr y) (c :: rest) ->
  exists out, merge_loop (E:=E) c rest [] = Ok out /\ Forall seg_ok out /\ gaps out /\
    Forall (fun t => vaddr c <= vaddr t) out /\
    (forall a, image out a = image (c :: rest) a) /\
    (forall s, s ∈ c :: rest -> exists t, t ∈ out /\ spans t s).
Proof.
  induction rest as [|n rest IH]; intros c Hok Hs.
  { exists [c]. split; [done|]. split; [done|]. split; [repeat constructor|]. split; [by repeat constructor|].
    split; [done|]. intros s ->%list_elem_of_singleton. exists c. split; [apply list_elem_of_here|apply spans_refl]. }
  apply Forall_cons_1 in Hok as [Hc [Hn Hr]%Forall_cons_1]. apply StronglySorted_inv in Hs as [Hs Hcs].
  apply Forall_cons_1 in Hcs as [Hcn Hcr]. cbn [merge_loop]. unfold uadd at 1.
  rewrite (proj2 (Z.ltb_lt _ _)) by (by destruct Hc). cbn [rbind].
  destruct (Z.leb_spec (vaddr n) (s_end c)) as [Ht|Ht].
  - destruct (merge_into_ok (E:=E) c n Hc Hn (conj Hcn Ht)) as (m & -> & Hm & Ev & Ee & Ef & Him). cbn [rbind].
    destruct (IH m) as (out & E1 & Hout & Hg & Hlow & Himg & Hsp).
    + by constructor.
    + constructor; [by apply StronglySorted_inv in Hs as [? _]|by rewrite Ev].
    + exists out. split; [exact E1|]. split; [done|]. split; [done|]. split; [by rewrite <- Ev|].
      split; [intros a; by rewrite Himg, Him|].
      intros s Hin. assert (Hms : exists x, x ∈ m :: rest /\ spans x s).
      { rewrite !elem_of_cons in Hin. destruct Hin as [->|[->|Hin]].
        - exists m. split; [apply list_elem_of_here|]. by apply (spans_merged m c n); auto.
        - exists m. split; [apply list_elem_of_here|]. by apply (spans_merged m c n); auto.
        - exists s. split; [apply elem_of_cons; by right|apply spans_refl]. }
      destruct Hms as (x & Hx & Hxs). destruct (Hsp x Hx) as (t & Ht' & Htx). exists t. split; [done|].
      by eapply spans_trans.
  - destruct (IH n) as (out & E1 & Hout & Hg & Hlow & Himg & Hsp); [by constructor|done|].
    rewrite merge_loop_app, E1. cbn [rbind]. exists (c :: out). split; [done|].
    assert (Hafter : Forall (fun t => vaddr n <= vaddr t) (n :: rest)).
    { constructor; [lia|]. by apply StronglySorted_inv in Hs as [_ ?]. }
    split; [by constructor|]. split.
    { constructor; [done|]. revert Hlow. apply List.Forall_impl. intros. lia. }
    split; [constructor; [lia|]; revert Hlow; apply List.Forall_impl; intros; lia|]. split.
    + intros a. change (c :: out) with ([c] ++ out). change (c :: n :: rest) with ([c] ++ n :: rest).
      rewrite (image_app [c] out (vaddr n)), (image_app [c] (n :: rest) (vaddr n));
        try done; try (by constructor); try (constructor; [lia|constructor]). by rewrite Himg.
    + intros s [->|Hin]%elem_of_cons; [exists c; split; [apply list_elem_of_here|apply spans_refl]|].
      destruct (Hsp s Hin) as (t & Ht' & Hts). exists t. split; [apply elem_of_cons; by right|done].
Qed.

Lemma merge_segments_ok {E} segs : segs <> [] -> Forall seg_ok segs ->
  exists out, merge_segments (E:=E) segs = Ok out /\ Forall seg_ok out /\ gaps out /\
    (forall a, image out a = image (sort_by_key vaddr segs) a) /\
    (forall s, s ∈ segs -> exists t, t ∈ out /\ spans t s).
Proof.
  intros Hne Hok. unfold merge_segments. pose proof (sort_by_key_perm vaddr segs) as Hp.
  pose proof (sort_by_key_sorted vaddr segs) as Hs.
  destruct (sort_by_key vaddr segs) as [|c rest]; [by apply Permutation_nil_l in Hp|].
  destruct (merge_loop_ok (E:=E) rest c) as (out & E1 & Hout & Hg & _ & Him & Hsp).
  - by rewrite Hp.
  - done.
  - exists out. split_and!; try done. intros s Hin. apply Hsp. by rewrite Hp.
Qed.

(** An address has a byte exactly when a segment covers it. *)
Lemma image_some l a : Forall seg_ok l -> is_Some (image l a) <-> Exists (fun s => in_segment s a) l.
Proof.
  intros Hok. split.
  - intros [b Hb]. destruct (decide (Exists (fun s => in_segment s a) l)) as [|Hn]; [done|].
    apply not_Exists_Forall in Hn; [|apply _]. by destruct (image_outside l a Hok Hn) as [_ Hi]; rewrite Hi in Hb.
  - intros He. unfold image. destruct (file_image l a); [by eexists|]. rewrite decide_True by done. by eexists.
Qed.

(** Merging does not reach past the segments it merges. *)
Lemma merged_ends {E} segs out x : Forall seg_ok segs -> Forall (fun s => s_end s <= x) segs ->
  merge_segments (E:=E) segs = Ok out -> segs <> [] -> Forall (fun s => s_end s <= x) out.
Proof.
  intros Hok Hx Hm Hne. destruct (merge_segments_ok (E:=E) segs Hne Hok) as (out' & E1 & Hout & _ & Him & _).
  rewrite Hm in E1. injection E1 as <-. apply list.Forall_forall. intros t Ht.
  assert (Hin : Exists (fun s => in_segment s (s_end t - 1)) (sort_by_key vaddr segs)).
  { apply image_some; [by rewrite sort_by_key_perm|]. rewrite <- Him. apply image_some; [done|].
    apply list.Exists_exists. exists t. split; [done|]. rewrite list.Forall_forall in Hout.
    destruct (Hout t Ht). unfold in_segment. lia. }
  apply list.Exists_exists in Hin as (s & Hs & Hi). rewrite sort_by_key_perm in Hs.
  rewrite list.Forall_forall in Hx. specialize (Hx s Hs). unfold in_segment in Hi. lia.
Qed.

(** Merging the loadable segments keeps what they put into memory: at every address
    the result has the file data of the last segment, in address order, that has some
    there, or zero inside any segment; the merged segments are sorted and separated, and
    each one spans the segments it came from with all their permissions. *)
Theorem merge_segments_image {E} segs : segs <> [] -> Forall seg_ok segs ->
  exists out, merge_segments (E:=E) segs = Ok out /\ Forall seg_ok out /\ gaps out /\
    (forall a, image out a = image (sort_by_key vaddr segs) a) /\
    (forall s, s ∈ segs -> exists t, t ∈ out /\ spans t s).
Proof. apply merge_segments_ok. Qed.

(** Two overlapping segments and one apart from them. *)
Definition demo_segments : list LoadSegment :=
  [mkSegment 9000 2 10 Readable [7; 8];
   mkSegment 4098 3 4 (Readable + Writable) [4; 5; 6];
   mkSegment 4096 4 4 (Readable + Executable) [1; 2; 3; 3]].

Example demo_merged : merge_segments (E:=Empty_set) demo_segments =
  Ok [mkSegment 4096 5 6 7 [1; 2; 4; 5; 6]; mkSegment 9000 2 10 4 [7; 8]].
Proof. vm_compute. reflexivity. Qed.

Lemma merge_segments_image_witness :
  exists out, merge_segments (E:=Empty_set) demo_segments = Ok out /\ gaps out.
Proof.
  destruct (merge_segments_image (E:=Empty_set) demo_segments) as (out & E1 & _ & Hg & _).
  - discriminate.
  - repeat constructor; cbn; lia.
  - exists out. split; [exact E1|exact Hg].
Defined.

(** A segment without file data that begins where the memory of the one before it ends. *)
Definition data_then_bss : list LoadSegment :=
  [mkSegment 4096 2 4096 (Readable + Writable) [1; 2]; mkSegment 8192 0 100 (Readable + Writable) []].

(** Merging a segment without file data into one with a zeroed tail makes the tail
    count as file data: the merged segment claims more file data than it has. *)
Theorem bss_becomes_file_data :
  exists s, merge_segments (E:=Empty_set) data_then_bss = Ok [s] /\
    in_file_size s = 4096 /\ zlen (data s) = 2.
Proof. vm_compute. eexists. repeat split. Qed.
