(* ===== verification/ElfLoad.v ===== *)
(** * ElfLoad: loading a program, kernel/src/process/process.rs

    [Process::create_with_elf] maps every segment and copies its file data through the
    page tables, page by page, then zeroes the rest.  [user_byte] is what the process
    reads at an address; the theorem shows it reads the image of the segments. *)

From Stdlib Require Import ZArith Lia Sorted.
From stdpp Require Import base tactics list option numbers sorting.
From S2P Require Import Prelude FrameAlloc Regions RegionsSpec UserMem UserMemSpec ProcessMem AddressSpace AddressSpaceSpec ProcessMemSpec FlatTables ProcessLife Elf.

Open Scope rust_scope.

Definition USER_STACK_TOP : Z := 0x7FFFFFFFF000.
Definition DEFAULT_NEW_PROCESS_STACK_SIZE : Z := 1048576.

Section load.
Context (USABLE : Z) {VA : VirtAddrApi} {PF : PageFlags} {T : Type} {PM : PageMapper USABLE T} {TW : TableWrites T}.

Abbreviation Proc := (ProcessMemoryLayout * Machine T)%type.
Abbreviation MM := (stM Proc MapToError).

Definition segment_flags (s : LoadSegment) : Z :=
  let fl := Z.lor PRESENT USER_ACCESSIBLE in
  let fl := if negb (Z.land (flags s) Writable =? 0) then Z.lor fl WRITABLE else fl in
  if Z.land (flags s) Executable =? 0 then Z.lor fl NO_EXECUTE else fl.

(** [translate_user_virt_to_phys(..).expect(..)] *)
Definition translate (vaddr : Z) : MM Z := fun '(p, m) =>
  (match translate_user_virt_to_phys USABLE (tables m) (top_page_table_phys p) vaddr with
   | Some phys => Ok phys
   | None => Panic
   end, (p, m)).

Definition write_phys (phys : Z) (bytes : list Z) : MM unit := fun '(p, m) =>
  (Ok tt, (p, mkMachine (tables m) (frames m) (fun a =>
    if phys <=? a then match bytes !! Z.to_nat (a - phys) with Some b => b | None => memory m a end
    else memory m a))).

(** The loop over the pages: [bytes n] are the bytes to write from offset [n] on. Reading
    past the segment's data is undefined behaviour, the model stops there. *)
Fixpoint copy_loop (fuel : nat) (start : Z) (dat : list Z) (size bytes_copied : Z) : MM unit :=
  match fuel with
  | O => sfuel
  | S fuel =>
      if negb (bytes_copied <? size) then sret tt else
      let! src_vaddr := slift (va_add start bytes_copied) in
      let! phys := translate src_vaddr in
      let page_offset := Z.land src_vaddr 0xFFF in
      let bytes_in_page := Z.min (0x1000 - page_offset) (size - bytes_copied) in
      sassert (bytes_copied + bytes_in_page <=? zlen dat) ;;;
      write_phys phys (slice dat (Z.to_nat bytes_copied) (Z.to_nat bytes_in_page)) ;;;
      copy_loop fuel start dat size (bytes_copied + bytes_in_page)
  end.

(** The copy of the file data and the zeroes after it. *)
Definition fill_segment (s : LoadSegment) : MM unit :=
  copy_loop (S (Z.to_nat (in_file_size s))) (vaddr s) (data s) (in_file_size s) 0 ;;;
  if in_file_size s <? in_memory_size s then
    let! bss_size := slift (usub (in_memory_size s) (in_file_size s)) in
    let! bss := slift (va_add (vaddr s) (in_file_size s)) in
    copy_loop (S (Z.to_nat bss_size)) bss (replicate (Z.to_nat bss_size) 0) bss_size 0
  else sret tt.

(** A mapping call whose failure releases the whole address space. *)
Definition map_or_release (start size fl : Z) : MM unit := fun s =>
  match map_owned_region USABLE start size fl s with
  | (Err e, s) => (free_address_space USABLE ;;; serr e) s
  | r => r
  end.

Fixpoint load_all (segs : list LoadSegment) : MM unit :=
  match segs with
  | [] => sret tt
  | s :: segs =>
      let! start := slift (va_new (vaddr s)) in
      map_or_release start (in_memory_size s) (segment_flags s) ;;;
      fill_segment s ;;;
      load_all segs
  end.

(** A page shared by the kernel, kernel/src/process/shared_state.rs. *)
Record SharedRegion : Type := mkShared {
  phys_addr : Z;
  default_user_vaddr : Z;
  page_table_flags : Z;
}.

(** The loop of [SharedState::map_into_process]. *)
Fixpoint map_into_process (shared : list SharedRegion) : MM unit :=
  match shared with
  | [] => sret tt
  | region :: shared =>
      map_frames USABLE (default_user_vaddr region) [phys_addr region] (page_table_flags region) Borrowed ;;;
      map_into_process shared
  end.

Definition unwrap {A} (c : MM A) : MM A := fun s =>
  match c s with
  | (Err _, s) => (Panic, s)
  | r => r
  end.

(** [create_with_elf] from the new address space on. *)
Definition build_process (elf_info : ElfLoadInfo) (shared : list SharedRegion) : MM unit :=
  load_all (segments elf_info) ;;;
  unwrap (map_into_process shared) ;;;
  let! stack_top := slift (va_new USER_STACK_TOP) in
  let! stack_start := slift (va_sub stack_top DEFAULT_NEW_PROCESS_STACK_SIZE) in
  map_or_release stack_start DEFAULT_NEW_PROCESS_STACK_SIZE (Z.lor (Z.lor PRESENT WRITABLE) NO_EXECUTE).

(** The memory of the new process. *)
Definition create_with_elf (kernel_page_table_phys : Z) (shared : list SharedRegion) (elf_info : ElfLoadInfo)
    : stM (Machine T) MapToError ProcessMemoryLayout :=
  let! memory_layout := new_memory_layout USABLE kernel_page_table_phys in
  fun m =>
    match build_process elf_info shared (memory_layout, m) with
    | (Ok _, (memory_layout, m)) => (Ok memory_layout, m)
    | (Err e, (_, m)) => (Err e, m)
    | (Panic, (_, m)) => (Panic, m)
    | (OutOfFuel, (_, m)) => (OutOfFuel, m)
    end.

End load.

(** ** What a process reads *)

Definition page_of (a : Z) : Z := a / PAGE_SIZE * PAGE_SIZE.

Definition user_byte (mem : Z -> Z) (view : Z -> option (Z * Z)) (a : Z) : option Z :=
  match view (page_of a) with
  | Some (f, _) => Some (mem (f + a mod PAGE_SIZE))
  | None => None
  end.

Lemma page_split a : a = page_of a + a mod PAGE_SIZE /\ 0 <= a mod PAGE_SIZE < PAGE_SIZE.
Proof.
  unfold page_of, PAGE_SIZE. pose proof (Z.div_mod a 4096). pose proof (Z.mod_pos_bound a 4096). lia.
Qed.

Lemma page_of_user a : 0 <= a < USER_END -> user_page (page_of a).
Proof.
  intros Ha. destruct (page_split a). pose proof (Z.div_pos a PAGE_SIZE). unfold page_of, PAGE_SIZE in *.
  split; [lia|apply Z.divide_factor_r].
Qed.

Section spec.
Context (USABLE : Z) {VA : VirtAddrApi} {VL : VirtAddrLaws} {PF : PageFlags} {PFL : PageFlagsLaws}.
Context {T : Type} {PM : PageMapper USABLE T} {PL : PageMapperLaws USABLE T}.
Context {TW : TableWrites T} {CL : ClearLaws USABLE T}.

Abbreviation Proc := (ProcessMemoryLayout * Machine T)%type.

Lemma page_index_page level a : 0 <= level -> 0 <= a -> page_index level (page_of a) = page_index level a.
Proof.
  intros Hl Ha. unfold page_index, page_of, PAGE_SIZE. f_equal. rewrite !Z.shiftr_div_pow2 by lia.
  rewrite !Z.pow_add_r by lia. change (2 ^ 12) with 4096. rewrite <- !Z.div_div by lia.
  by rewrite Z.div_mul by lia.
Qed.

(** The walk done by hand finds what the crate mapped. *)
Lemma translate_ok t top a f fl : 0 <= a -> mapping USABLE t top (page_of a) = Some (f, fl) ->
  has_flags fl PRESENT = true ->
  translate_user_virt_to_phys USABLE t top a = Some (f + a mod PAGE_SIZE).
Proof.
  intros Ha Hm Hfl. unfold mapping, translate_user_virt_to_phys, is_table_entry in *.
  rewrite !page_index_page in Hm by lia.
  destruct (entry t top _) as [pdpt f4]. destruct (has_flags f4 PRESENT); [|done].
  destruct (has_flags f4 HUGE_PAGE); [done|]. cbn [andb negb] in *.
  destruct (entry t pdpt _) as [pd f3]. destruct (has_flags f3 PRESENT); [|done].
  destruct (has_flags f3 HUGE_PAGE); [done|]. cbn [andb negb] in *.
  destruct (entry t pd _) as [pt f2]. destruct (has_flags f2 PRESENT); [|done].
  destruct (has_flags f2 HUGE_PAGE); [done|]. cbn [andb negb] in *.
  destruct (entry t pt _) as [x f1]. destruct (_ && _); [done|]. injection Hm as -> ->. rewrite Hfl. cbn [negb].
  change 0xFFF with (Z.ones 12). by rewrite Z.land_ones by lia.
Qed.

(** An address space whose pages have frames of their own, all of them held. *)
Record space (m : Machine T) (top : Z) (view : Z -> option (Z * Z)) (held : list Z) : Prop := {
  sp_machine : machine_ok USABLE m top view held;
  sp_clean : clean view;
  sp_inj : forall q1 q2 f fl1 fl2, view q1 = Some (f, fl1) -> view q2 = Some (f, fl2) -> q1 = q2;
  sp_held : forall q f fl, view q = Some (f, fl) -> f ∈ held;
}.

(** A write through the frame of a page is a write of the process. *)
Lemma write_user_byte mem view a bytes f fl b :
  clean view -> (forall q1 q2 f fl1 fl2, view q1 = Some (f, fl1) -> view q2 = Some (f, fl2) -> q1 = q2) ->
  view (page_of a) = Some (f, fl) -> a mod PAGE_SIZE + zlen bytes <= PAGE_SIZE ->
  user_byte (fun x => if f + a mod PAGE_SIZE <=? x then
      match bytes !! Z.to_nat (x - (f + a mod PAGE_SIZE)) with Some b => b | None => mem x end else mem x) view b =
    if decide (a <= b < a + zlen bytes) then bytes !! Z.to_nat (b - a) else user_byte mem view b.
Proof.
  intros Hc Hinj Hv Hlen. destruct (page_split a) as [Ea Hoff], (page_split b) as [Eb Hoffb].
  destruct (Hc _ _ _ Hv) as [_ Df]. unfold user_byte.
  destruct (decide (a <= b < a + zlen bytes)) as [Hb|Hb].
  - assert (Hpg : page_of b = page_of a).
    { unfold page_of, PAGE_SIZE in *. f_equal. nia. }
    rewrite Hpg, Hv, (proj2 (Z.leb_le _ _)) by lia.
    replace (f + b mod PAGE_SIZE - (f + a mod PAGE_SIZE)) with (b - a) by lia.
    destruct (lookup_lt_is_Some_2 bytes (Z.to_nat (b - a))) as [x ->]; [lia|done].
  - destruct (view (page_of b)) as [[g gl]|] eqn:Evb; [|done]. f_equal.
    destruct (Z.leb_spec (f + a mod PAGE_SIZE) (g + b mod PAGE_SIZE)) as [Hle|]; [|done].
    destruct (bytes !! _) as [x|] eqn:Ex; [|done]. exfalso. apply lookup_lt_Some in Ex.
    destruct (Hc _ _ _ Evb) as [_ Dg]. destruct (decide (g = f)) as [->|Hne].
    + assert (Hpg : page_of b = page_of a) by (by eapply Hinj). lia.
    + apply (frames_apart f g (g + b mod PAGE_SIZE) Df Dg); [done|lia|lia].
Qed.

Lemma space_frames m m' top view held : space m top view held -> tables m' = tables m -> frames m' = frames m ->
  space m' top view held.
Proof. intros [[? ? ? ?] ? ? ?] Et Ef. split; [|done..]. split; rewrite ?Et, ?Ef; done. Qed.

(** The copy loop writes the bytes it is given, and nothing else the process can read. *)
Lemma copy_loop_ok fuel : forall p m view held start dat size c,
  space m (top_page_table_phys p) view held -> 0 <= start -> start + size <= USER_END -> zlen dat = size ->
  (forall a, start <= a < start + size -> is_Some (view (page_of a))) ->
  0 <= c <= size -> (Z.to_nat (size - c) < fuel)%nat ->
  exists m', copy_loop USABLE fuel start dat size c (p, m) = (Ok tt, (p, m')) /\
    space m' (top_page_table_phys p) view held /\
    forall b, user_byte (memory m') view b =
      if decide (start + c <= b < start + size) then dat !! Z.to_nat (b - start) else user_byte (memory m) view b.
Proof.
  induction fuel as [|fuel IH]; intros p m view held start dat size c Hsp H0 Hu Hd Hv Hc Hf; [lia|].
  cbn [copy_loop]. destruct (Z.ltb_spec c size) as [Hlt|Hge]; cbn [negb].
  2:{ exists m. split; [done|]. split; [done|]. intros b. by rewrite decide_False by lia. }
  destruct (Hv (start + c)) as [[f fl] Hvf]; [lia|].
  destruct (page_split (start + c)) as [Ea Hoff]. pose proof (sp_clean _ _ _ _ Hsp _ _ _ Hvf) as [Hfl _].
  assert (Hpage : user_page (page_of (start + c))) by (apply page_of_user; lia).
  unfold sbind at 1, slift at 1. rewrite va_add_user by (unfold USER_END in *; lia).
  unfold sbind at 1, translate at 1.
  rewrite (translate_ok _ _ _ f fl); [|lia|rewrite (ok_view _ _ _ _ _ (sp_machine _ _ _ _ Hsp)); done|done].
  change 0xFFF with (Z.ones 12). rewrite Z.land_ones by lia. change (2 ^ 12) with PAGE_SIZE.
  change 0x1000 with PAGE_SIZE. set (n := Z.min (PAGE_SIZE - (start + c) mod PAGE_SIZE) (size - c)).
  assert (Hn : 0 < n <= size - c /\ (start + c) mod PAGE_SIZE + n <= PAGE_SIZE) by (unfold n; lia).
  unfold sbind at 1, sassert. rewrite (proj2 (Z.leb_le _ _)) by lia. unfold sret at 1.
  assert (Hbl : zlen (slice dat (Z.to_nat c) (Z.to_nat n)) = n) by (rewrite length_slice by lia; lia).
  set (bytes := slice dat (Z.to_nat c) (Z.to_nat n)) in *. unfold sbind at 1, write_phys at 1.
  set (m1 := mkMachine _ _ _).
  destruct (IH p m1 view held start dat size (c + n)) as (m' & E & Hsp' & Hub); try done; try lia.
  { by apply (space_frames m). }
  exists m'. split; [exact E|]. split; [done|]. intros b. rewrite Hub. unfold m1. cbn [memory].
  pose proof (write_user_byte (memory m) view (start + c) bytes f fl b (sp_clean _ _ _ _ Hsp) (sp_inj _ _ _ _ Hsp) Hvf) as Hw.
  rewrite Hbl in Hw. specialize (Hw ltac:(lia)).
  destruct (decide (start + (c + n) <= b < start + size)); [by rewrite decide_True by lia|].
  rewrite Hw. destruct (decide (start + c <= b < start + c + n)).
  - rewrite decide_True by lia. unfold bytes. rewrite lookup_slice by lia. f_equal. lia.
  - by rewrite decide_False by lia.
Qed.

(** What a segment puts at an address it covers. *)
Lemma image_one s a : seg_ok s -> image [s] a =
  if decide (vaddr s <= a < vaddr s + in_file_size s) then data s !! Z.to_nat (a - vaddr s)
  else if decide (in_segment s a) then Some 0 else None.
Proof.
  intros [Hs1 Hs2 Hs3 Hs4]. unfold image, file_byte. cbn [file_image]. unfold file_byte.
  destruct (Z.leb_spec (vaddr s) a), (Z.ltb_spec a (vaddr s + in_file_size s)); cbn [andb].
  1: { rewrite (decide_True (P := vaddr s <= a < vaddr s + in_file_size s)) by lia.
    destruct (lookup_lt_is_Some_2 (data s) (Z.to_nat (a - vaddr s))) as [b ->]; [lia|done]. }
  all: rewrite (decide_False (P := vaddr s <= a < vaddr s + in_file_size s)) by lia;
    destruct (decide (Exists (fun s0 => in_segment s0 a) [s])) as [He|He], (decide (in_segment s a)) as [Hi|Hi]; try done;
    [apply Exists_cons in He as [?|He]; [done|by apply Exists_nil in He]|destruct He; by constructor].
Qed.

Lemma fill_segment_ok p m view held s :
  space m (top_page_table_phys p) view held -> seg_ok s -> s_end s <= USER_END ->
  (forall a, in_segment s a -> is_Some (view (page_of a))) ->
  exists m', fill_segment USABLE s (p, m) = (Ok tt, (p, m')) /\
    space m' (top_page_table_phys p) view held /\
    forall b, user_byte (memory m') view b = if decide (in_segment s b) then image [s] b else user_byte (memory m) view b.
Proof.
  intros Hsp Hs Hu Hv. pose proof Hs as [Hs1 Hs2 Hs3 Hs4]. unfold fill_segment.
  destruct (copy_loop_ok (S (Z.to_nat (in_file_size s))) p m view held (vaddr s) (data s) (in_file_size s) 0)
    as (m1 & E1 & Hsp1 & Hb1); try done; try lia.
  { intros a Ha. apply Hv. unfold in_segment. lia. }
  unfold sbind at 1. rewrite E1.
  destruct (Z.ltb_spec (in_file_size s) (in_memory_size s)) as [Hlt|Hge]; cycle 1.
  { exists m1. split; [done|]. split; [done|]. intros b. rewrite image_one, Hb1, Z.add_0_r by done.
    destruct (decide (vaddr s <= b < vaddr s + in_file_size s)) as [Hi|Hi].
    - by rewrite decide_True by (unfold in_segment; lia).
    - by rewrite decide_False by (unfold in_segment; lia). }
  unfold sbind at 1, slift at 1. rewrite usub_ok by lia. unfold sbind at 1, slift at 1.
  rewrite va_add_user by (unfold USER_END in *; lia).
  destruct (copy_loop_ok (S (Z.to_nat (in_memory_size s - in_file_size s))) p m1 view held
    (vaddr s + in_file_size s) (replicate (Z.to_nat (in_memory_size s - in_file_size s)) 0)
    (in_memory_size s - in_file_size s) 0) as (m2 & E2 & Hsp2 & Hb2); try done; try lia.
  { rewrite length_replicate. lia. }
  { intros a Ha. apply Hv. unfold in_segment. lia. }
  exists m2. split; [exact E2|]. split; [done|]. intros b. rewrite image_one, Hb2, Hb1, !Z.add_0_r by done.
  destruct (decide (vaddr s + in_file_size s <= b < vaddr s + in_file_size s + (in_memory_size s - in_file_size s))) as [Hi|Hi].
  - rewrite decide_True by (unfold in_segment; lia). rewrite decide_False by lia.
    rewrite decide_True by (unfold in_segment; lia). apply lookup_replicate_2. lia.
  - destruct (decide (vaddr s <= b < vaddr s + in_file_size s)) as [Hj|Hj].
    + by rewrite decide_True by (unfold in_segment; lia).
    + by rewrite decide_False by (unfold in_segment; lia).
Qed.

(** *** Mapping and unmapping in a space *)

Lemma frames_on_NoDup view ps : NoDup ps ->
  (forall q1 q2 f fl1 fl2, view q1 = Some (f, fl1) -> view q2 = Some (f, fl2) -> q1 = q2) ->
  NoDup (frames_on view ps).
Proof.
  intros Hn Hinj. induction ps as [|p ps IH]; [constructor|]. rewrite frames_on_cons.
  pose proof (NoDup_cons_1_1 _ _ Hn). pose proof (NoDup_cons_1_2 _ _ Hn).
  destruct (view p) as [[f fl]|] eqn:Ev; [|auto]. constructor; [|auto]. unfold frames_on.
  rewrite list_elem_of_omap. intros (q & Hq & Eq). destruct (view q) as [[g gl]|] eqn:Eg; [|done].
  injection Eq as ->. by rewrite (Hinj q p f gl fl) in Hq.
Qed.

(** The frames of some pages, and the other frames held. *)
Lemma space_take m top view held ps : space m top view held -> NoDup ps ->
  exists rest, held ≡ₚ frames_on view ps ++ rest /\
    (forall q f fl, view q = Some (f, fl) -> (q ∉ ps) -> f ∈ rest).
Proof.
  intros Hsp Hn. destruct (submseteq_Permutation (frames_on view ps) held) as [rest Hp].
  { apply NoDup_submseteq; [apply frames_on_NoDup; [done|apply Hsp]|]. intros f Hf. unfold frames_on in Hf.
    apply list_elem_of_omap in Hf as (q & _ & Eq). destruct (view q) as [[g gl]|] eqn:Eg; [|done].
    injection Eq as ->. by apply (sp_held _ _ _ _ Hsp q f gl). }
  exists rest. split; [done|]. intros q f fl Hv Hq.
  assert (Hin : f ∈ frames_on view ps ++ rest) by (rewrite <- Hp; by apply (sp_held _ _ _ _ Hsp q f fl)).
  apply elem_of_app in Hin as [Hin|Hin]; [|done]. unfold frames_on in Hin.
  apply list_elem_of_omap in Hin as (q' & Hq' & Eq). destruct (view q') as [[g gl]|] eqn:Eg; [|done].
  injection Eq as ->. by rewrite (sp_inj _ _ _ _ Hsp q q' f fl gl) in Hq.
Qed.

Lemma unmapped_some ps view q x : unmapped ps view q = Some x -> (q ∉ ps) /\ view q = Some x.
Proof. unfold unmapped. by case_decide. Qed.

Lemma space_unmapped m m' top view held ps held' : space m top view held ->
  machine_ok USABLE m' top (unmapped ps view) held' ->
  (forall q f fl, view q = Some (f, fl) -> (q ∉ ps) -> f ∈ held') ->
  space m' top (unmapped ps view) held'.
Proof.
  intros [_ Hc Hi _] Hm Hh. split; [done|..].
  - intros q f fl [_ Hq]%unmapped_some. by apply (Hc q).
  - intros q1 q2 f fl1 fl2 [_ H1]%unmapped_some [_ H2]%unmapped_some. by apply (Hi q1 q2 f fl1 fl2).
  - intros q f fl [Hq Hv]%unmapped_some. by apply (Hh q f fl).
Qed.

Lemma unmap_space m top view held r : good r -> frame_ownership r = Owned -> space m top view held ->
  exists m' held', unmap_user_region USABLE top r m = (Ok tt, m') /\ space m' top (unmapped (region_pages r) view) held'.
Proof.
  intros Hr Ho Hsp. destruct (space_take m top view held (region_pages r) Hsp (pages_from_NoDup _ _)) as (rest & Hp & Hrest).
  destruct Hr as [H0 Hs He Hd [y Hy]].
  assert (Hn : size_bytes r = Z.of_nat (Z.to_nat (size_bytes r / PAGE_SIZE)) * PAGE_SIZE).
  { rewrite Hy, Z.div_mul by (unfold PAGE_SIZE; lia). unfold PAGE_SIZE in *. lia. }
  assert (Hu : user_page (start_virt r)) by (split; [lia|done]).
  destruct (unmap_region_ok USABLE m top r _ view rest Hu Hn He (sp_clean _ _ _ _ Hsp))
    as (m' & E & _ & Hm').
  { rewrite Ho. cbn. eapply machine_perm; [exact Hp|apply Hsp]. }
  exists m', rest. split; [exact E|]. by eapply space_unmapped.
Qed.

(** Releasing all regions leaves no page of theirs mapped. *)
Lemma unmap_regions_space l : forall m top view held, Forall good l ->
  Forall (fun r => frame_ownership r = Owned) l -> space m top view held ->
  exists m' view' held', unmap_regions USABLE top l m = (Ok tt, m') /\ space m' top view' held' /\
    (forall q, is_Some (view' q) -> is_Some (view q) /\ Forall (fun r => q ∉ region_pages r) l).
Proof.
  induction l as [|r l IH]; intros m top view held Hg Ho Hsp.
  { exists m, view, held. by split_and!. }
  apply Forall_cons_1 in Hg as [Hr Hg]. apply Forall_cons_1 in Ho as [Hor Ho]. cbn [unmap_regions].
  destruct (unmap_space m top view held r Hr Hor Hsp) as (m1 & held1 & E1 & Hsp1). unfold sbind at 1. rewrite E1.
  destruct (IH m1 top _ held1 Hg Ho Hsp1) as (m' & view' & held' & E & Hsp' & Hv). exists m', view', held'.
  split; [exact E|]. split; [done|]. intros q Hq. destruct (Hv q Hq) as [[x Hx] Hf].
  apply unmapped_some in Hx as [Hn Hx]. split; [by exists x|]. by constructor.
Qed.

Lemma omap_NoDup_inj (g : Z -> option Z) l q1 q2 f : NoDup (omap g l) -> q1 ∈ l -> q2 ∈ l ->
  g q1 = Some f -> g q2 = Some f -> q1 = q2.
Proof.
  assert (Hin : forall q (l : list Z), q ∈ l -> g q = Some f -> f ∈ omap g l).
  { intros q l' Hq Hf. apply list_elem_of_omap. by exists q. }
  induction l as [|q l IH]; intros Hn H1 H2 E1 E2; [by apply elem_of_nil in H1|]. cbn in Hn.
  apply elem_of_cons in H1 as [->|H1], H2 as [->|H2].
  - done.
  - rewrite E1 in Hn. apply NoDup_cons_1_1 in Hn. destruct Hn. by eapply Hin.
  - rewrite E2 in Hn. apply NoDup_cons_1_1 in Hn. destruct Hn. by eapply Hin.
  - apply IH; try done. destruct (g q); [by apply NoDup_cons_1_2 in Hn|done].
Qed.

(** A range mapped into a space: the pages that had none get frames of their own,
    and every byte that could be read still can. *)
Lemma map_space m top view held fl va size : has_flags fl PRESENT = true -> 0 <= va -> 0 < size ->
  va + size + PAGE_SIZE <= USER_END -> space m top view held ->
  exists r m' view' held', map_virt_mem_region USABLE top va size fl m = (r, m') /\ space m' top view' held' /\
    match r with
    | Ok _ => forall q, is_Some (view' q) <-> q ∈ pages_of va size \/ is_Some (view q)
    | Err _ => forall q, is_Some (view' q) -> is_Some (view q)
    | _ => False
    end /\
    (r = Ok tt -> forall a b, user_byte (memory m) view a = Some b -> user_byte (memory m') view' a = Some b).
Proof.
  intros Hfl Hva Hsz Hu Hsp.
  destruct (space_take m top view held (pages_of va size) Hsp (pages_from_NoDup _ _)) as (rest & Hp & Hrest).
  destruct (map_region_ok USABLE top fl m view va size rest Hfl (sp_clean _ _ _ _ Hsp) Hva Hsz Hu)
    as (r & m' & E & Hr); [eapply machine_perm; [exact Hp|apply Hsp]|].
  exists r, m'. destruct r as [[]|e| |]; [| |done|done].
  2:{ destruct Hr as (i & tabs & Hi & Hm'). exists (unmapped (take i (pages_of va size)) view),
      (tabs ++ frames_on view (drop i (pages_of va size)) ++ rest). split; [done|]. split; [|split; [|done]].
    - eapply space_unmapped; [done|exact Hm'|]. intros q f gl Hv Hq. rewrite !elem_of_app. right.
      destruct (decide (q ∈ pages_of va size)) as [Hin|]; [left|right; by eapply Hrest].
      rewrite <- (take_drop i) in Hin. apply elem_of_app in Hin as [?|Hin]; [done|].
      apply list_elem_of_omap. exists q. by rewrite Hv.
    - intros q [x [_ Hx]%unmapped_some]. by exists x. }
  destruct Hr as (g & tabs & Hg & Hm' & Hz & Hk).
  exists (mapped_view fl view (pages_of va size) g), (omap g (pages_of va size) ++ tabs ++ frames_on view (pages_of va size) ++ rest).
  assert (Hold : forall q f l, view q = Some (f, l) -> f ∈ frames_on view (pages_of va size) ++ rest).
  { intros q f l Hv. rewrite <- Hp. by apply (sp_held _ _ _ _ Hsp q f l). }
  pose proof (ok_holds _ _ _ _ _ Hm') as Hh. pose proof (ok_sane _ _ _ _ _ Hm') as Hs.
  destruct (holds_facts USABLE _ _ Hs Hh) as [Hnd _]. apply list.NoDup_app in Hnd as (_ & _ & Hnd).
  apply list.NoDup_app in Hnd as (Hndg & Hdis & _).
  assert (Hnew : forall q f, g q = Some f -> q ∈ pages_of va size /\ f ∈ omap g (pages_of va size)).
  { intros q f Hq. destruct (proj1 (Hg q)) as [Hin _]; [by rewrite Hq|]. split; [done|].
    apply list_elem_of_omap. by exists q. }
  assert (Hview : forall q f l, mapped_view fl view (pages_of va size) g q = Some (f, l) ->
    (exists l', view q = Some (f, l')) \/ g q = Some f).
  { intros q f l. unfold mapped_view. destruct (view q) as [[h hl]|]; [intros [= <- _]; left; by exists hl|].
    destruct (g q) as [h|]; [intros [= <- _]; by right|done]. }
  split; [done|]. split; [split|].
  - done.
  - eapply (mapped_clean USABLE); [done|apply Hsp|exact Hm'|]. intros. by eapply fresh_in.
  - intros q1 q2 f l1 l2 H1 H2. apply Hview in H1 as [[k1 H1]|H1], H2 as [[k2 H2]|H2].
    + by apply (sp_inj _ _ _ _ Hsp q1 q2 f k1 k2).
    + destruct (Hdis f); [by eapply Hnew|apply elem_of_app; right; by eapply Hold].
    + destruct (Hdis f); [by eapply Hnew|apply elem_of_app; right; by eapply Hold].
    + eapply omap_NoDup_inj; [exact Hndg|by eapply Hnew..|done|done].
  - intros q f l [[k Hv]|Hv]%Hview; rewrite !elem_of_app; [|left; by eapply Hnew].
    right. right. apply elem_of_app. by eapply Hold.
  - split.
    + intros q. unfold mapped_view. destruct (view q) as [[f l]|] eqn:Ev.
      * split; [intros _; right; by eexists|intros _; by eexists].
      * rewrite fmap_is_Some, (Hg q). split; [tauto|]. intros [Hq|[? ?]]; [done|done].
    + intros _ a b. unfold user_byte, mapped_view. destruct (view (page_of a)) as [[f l]|] eqn:Ev; [|done].
      destruct (page_split a). rewrite (Hk f); [done|by eapply Hold|lia].
Qed.

(** ** Loading *)

(** The state between two segments: everything that is mapped lies in an owned region. *)
Record loading (s : Proc) (view : Z -> option (Z * Z)) (held : list Z) : Prop := {
  ld_space : space s.2 (top_page_table_phys s.1) view held;
  ld_tidy : tidy (regions s.1);
  ld_owned : Forall (fun r => frame_ownership r = Owned) (regions s.1);
  ld_covered : forall q, is_Some (view q) -> (PAGE_SIZE | q) /\ exists f o, covers (regions s.1) q f o;
}.

Definition nothing_mapped (s : Proc) : Prop :=
  forall q, user_page q -> mapping USABLE (tables s.2) (top_page_table_phys s.1) q = None.

Lemma covers_owned l : tidy l -> (forall a f o, covers l a f o -> o = Owned) ->
  Forall (fun r => frame_ownership r = Owned) l.
Proof.
  intros [Hg _] Hc. apply list.Forall_forall. intros r Hr. rewrite list.Forall_forall in Hg.
  apply (Hc (start_virt r) (page_flags r)). exists r. split; [done|]. destruct (Hg r Hr). unfold in_region. split; [lia|done].
Qed.

Lemma release_ok p m m' view view' held held' : loading (p, m) view held -> 0 < top_page_table_phys p ->
  (PAGE_SIZE | top_page_table_phys p) ->
  space m' (top_page_table_phys p) view' held' -> (forall q, is_Some (view' q) -> is_Some (view q)) ->
  exists m2, free_address_space USABLE (p, m') = (Ok tt, (p, m2)) /\ nothing_mapped (p, m2).
Proof.
  intros [_ [Hg Hs] Ho Hc] H0 Ha Hsp Hsub. cbn [fst snd] in *.
  destruct (unmap_regions_space (regions p) m' _ view' held' Hg Ho Hsp) as (m2 & view2 & held2 & E & Hsp2 & Hv).
  assert (Hnone : forall q, user_page q -> mapping USABLE (tables m2) (top_page_table_phys p) q = None).
  { intros q Hq. rewrite (ok_view _ _ _ _ _ (sp_machine _ _ _ _ Hsp2)) by done.
    destruct (view2 q) eqn:E2; [|done]. exfalso. destruct (Hv q) as [Hv1 Hv2]; [by eexists|].
    destruct (Hc q (Hsub q Hv1)) as (Hd & f & o & r & Hr & Hin & _). rewrite list.Forall_forall in Hv2, Hg.
    apply (Hv2 r Hr), elem_of_region_pages; [by apply Hg|done]. }
  destruct (free_tables_unmapped USABLE m2 (top_page_table_phys p)) as (m3 & E3 & Hn3); [lia|done|done|].
  exists m3. split; [|exact Hn3]. unfold free_address_space, on_machine. rewrite (proj2 (Z.eqb_neq _ _)) by lia.
  unfold sbind at 1. by rewrite E, E3.
Qed.

Lemma in_pages_of va size a : 0 <= va -> 0 < size -> va + size <= USER_END -> va <= a < va + size ->
  page_of a ∈ pages_of va size.
Proof.
  intros Hva Hsz Hu Ha. rewrite elem_of_pages_of by lia. split; [apply Z.divide_factor_r|].
  unfold page_range, page_of. pose proof (page_up_bounds (va + size)) as [Hup _].
  pose proof (Z.div_le_mono va a PAGE_SIZE). pose proof (Z.mul_div_le a PAGE_SIZE). unfold PAGE_SIZE in *. lia.
Qed.

(** Mapping a segment adds its pages, or fails with everything released. *)
Lemma map_or_release_ok s view held va size fl : loading s view held -> has_flags fl PRESENT = true ->
  0 < top_page_table_phys s.1 -> (PAGE_SIZE | top_page_table_phys s.1) ->
  0 <= va -> 0 < size -> va + size + PAGE_SIZE <= USER_END ->
  exists r s', map_or_release USABLE va size fl s = (r, s') /\
    top_page_table_phys s'.1 = top_page_table_phys s.1 /\
    match r with
    | Ok _ => exists view' held', loading s' view' held' /\
        (forall a, va <= a < va + size -> is_Some (view' (page_of a))) /\
        (forall a b, user_byte (memory s.2) view a = Some b -> user_byte (memory s'.2) view' a = Some b)
    | Err _ => nothing_mapped s'
    | _ => False
    end.
Proof.
  destruct s as [p m]. cbn [fst]. intros Hl Hfl Ht0 Hta Hva Hsz Hu. unfold map_or_release, map_owned_region.
  rewrite (proj2 (Z.eqb_neq _ _)) by lia.
  destruct (map_space m _ view held fl va size Hfl Hva Hsz Hu (ld_space _ _ _ Hl))
    as (r & m' & view' & held' & E & Hsp & Hr & Hb). unfold sbind at 1, on_machine at 1. cbn [fst snd] in *. rewrite E.
  destruct r as [[]|e| |]; [| |done|done].
  - destruct (track_ok (E:=MapToError) (mkRegion va size fl Owned) (regions p) (ld_tidy _ _ _ Hl))
      as (l' & El & Ht' & Hcov & _); [done..|]. cbn [start_virt size_bytes page_flags frame_ownership] in Hcov.
    unfold on_regions. rewrite El. exists (Ok tt), (set_regions l' p, m'). split; [done|]. split; [done|].
    exists view', held'. cbn [fst snd]. split_and!.
    + split; cbn [fst snd]; [exact Hsp|done|..].
      * apply covers_owned; [done|]. intros a f o [(x & Hx & _ & _ & Eo)|(_ & _ & Eo)]%Hcov; [|done].
        pose proof (ld_owned _ _ _ Hl) as Ho. rewrite list.Forall_forall in Ho. by rewrite <- Eo, Ho.
      * intros q [Hq|Hq]%Hr.
        -- apply elem_of_pages_of in Hq as [Hd Hq]; [|done..|unfold PAGE_SIZE in *; lia].
           split; [done|]. exists fl, Owned. apply Hcov. by right.
        -- destruct (ld_covered _ _ _ Hl q Hq) as (Hd & f & o & Hc). split; [done|]. exists f, o. apply Hcov. by left.
    + intros a Ha. apply Hr. left. apply in_pages_of; unfold PAGE_SIZE in *; lia.
    + by apply Hb.
  - destruct (release_ok p m m' view view' held held' Hl Ht0 Hta Hsp Hr) as (m2 & E2 & Hn).
    exists (Err e), (p, m2). unfold sbind. rewrite E2. by split_and!.
Qed.

Lemma segment_flags_present s : has_flags (segment_flags s) PRESENT = true.
Proof.
  unfold segment_flags. assert (Hp : has_flags (Z.lor PRESENT USER_ACCESSIBLE) PRESENT = true)
    by (apply lor_present; unfold has_flags; by rewrite Z.land_diag, Z.eqb_refl).
  destruct (negb _), (_ =? 0); auto using lor_present.
Qed.

Definition fits (s : LoadSegment) : Prop := s_end s + PAGE_SIZE <= USER_END.

(** Loading separate segments. *)
Lemma load_all_ok segs : forall st view held, loading st view held ->
  0 < top_page_table_phys st.1 -> (PAGE_SIZE | top_page_table_phys st.1) -> Forall seg_ok segs -> Forall fits segs -> gaps segs ->
  exists r st', load_all USABLE segs st = (r, st') /\ top_page_table_phys st'.1 = top_page_table_phys st.1 /\
    match r with
    | Ok _ => exists view' held', loading st' view' held' /\
        (forall a b, image segs a = Some b -> user_byte (memory st'.2) view' a = Some b) /\
        (forall a b, image segs a = None -> user_byte (memory st.2) view a = Some b ->
          user_byte (memory st'.2) view' a = Some b)
    | Err _ => nothing_mapped st'
    | _ => False
    end.
Proof.
  induction segs as [|s segs IH]; intros st view held Hl Ht0 Hta Hok Hf Hg.
  { exists (Ok tt), st. split; [done|]. split; [done|]. exists view, held. split; [done|]. split; [|done].
    intros a b. unfold image. cbn. rewrite decide_False by (by intros He%Exists_nil). done. }
  apply Forall_cons_1 in Hok as [Hs Hok]. apply Forall_cons_1 in Hf as [Hfs Hf]. apply StronglySorted_inv in Hg as [Hg Hgs].
  pose proof Hs as [Hs1 Hs2 Hs3 Hs4]. unfold fits in Hfs. cbn [load_all]. unfold sbind at 1, slift at 1.
  rewrite va_new_user by (unfold USER_END, PAGE_SIZE in *; lia).
  destruct (map_or_release_ok st view held (vaddr s) (in_memory_size s) (segment_flags s) Hl (segment_flags_present s) Ht0 Hta)
    as (r & [p m] & E & Et & Hr); [lia..|]. unfold sbind at 1. rewrite E. cbn [fst snd] in *.
  destruct r as [[]|e| |]; [|by exists (Err e), (p, m)|done..].
  destruct Hr as (view1 & held1 & Hl1 & Hv1 & Hb1).
  destruct (fill_segment_ok p m view1 held1 s (ld_space _ _ _ Hl1) Hs) as (m1 & E1 & Hsp1 & Hfill);
    [unfold PAGE_SIZE in *; lia|exact Hv1|]. unfold sbind at 1. rewrite E1.
  destruct (IH (p, m1) view1 held1) as (r & st' & E2 & Et2 & Hr); [by split; destruct Hl1|cbn [fst]; by rewrite Et|cbn [fst]; by rewrite Et|done..|].
  exists r, st'. split; [exact E2|]. cbn [fst snd] in *. split; [congruence|]. destruct r as [[]|e| |]; [|done..].
  destruct Hr as (view' & held' & Hl' & Him & Hkeep). exists view', held'. split; [done|].
  assert (Hafter : Forall (fun t => s_end s <= vaddr t) segs) by (revert Hgs; apply List.Forall_impl; intros; lia).
  assert (Hcase : forall a, image (s :: segs) a = if a <? s_end s then image [s] a else image segs a).
  { intros a. change (s :: segs) with ([s] ++ segs). apply image_app; try done; by constructor. }
  assert (Hlow : forall a, a < s_end s -> image segs a = None).
  { intros a Ha. apply image_outside; [done|]. revert Hafter. apply List.Forall_impl. unfold in_segment. intros. lia. }
  split.
  - intros a b. rewrite Hcase. destruct (Z.ltb_spec a (s_end s)) as [Ha|Ha]; [|by apply Him].
    intros Hb. apply Hkeep; [by apply Hlow|]. rewrite Hfill, decide_True; [done|].
    assert (He : Exists (fun t => in_segment t a) [s]) by (apply image_some; [by constructor|by rewrite Hb]).
    by apply Exists_cons in He as [|He%Exists_nil].
  - intros a b. rewrite Hcase. intros Hn Hb. assert (Hns : ~ in_segment s a /\ image segs a = None).
    { destruct (Z.ltb_spec a (s_end s)) as [Ha|Ha].
      - split; [|by apply Hlow]. intros Hi. destruct (proj2 (image_some [s] a ltac:(by constructor))); [by constructor|congruence].
      - split; [unfold in_segment; lia|done]. }
    destruct Hns as [Hns Hn']. apply Hkeep; [done|]. rewrite Hfill, decide_False by done. by apply Hb1.
Qed.

(** A fresh address space: no user page is mapped and nothing is tracked. *)
Lemma new_loading p m top tabs : with_page_table (E:=MapToError) top = Ok p -> machine_ok USABLE m top (fun _ => None) tabs ->
  loading (p, m) (fun _ => None) tabs.
Proof.
  unfold with_page_table. rewrite !va_new_user by (unfold PROCESS_HEAP_VIRT_START, PROCESS_USER_VADDR_ALLOC_START; lia).
  cbn [rbind]. intros [= <-] Hm. split; cbn.
  - by split.
  - split; constructor.
  - constructor.
  - by intros q [? ?].
Qed.

(** C9: a program whose segments all have file data ([seg_ok]; a segment without any takes
    over data of its neighbour, [bss_becomes_file_data]) is loaded as it says: merging its segments
    and mapping and copying the result either fails, with no user page left mapped, or
    gives an address space in which the process reads, at every address of a segment, the
    file data of the last segment in address order that has some there, or zero. *)
Theorem loaded_program_reads_image segs p m top tabs : 0 < top -> (PAGE_SIZE | top) -> segs <> [] -> Forall seg_ok segs -> Forall fits segs ->
  with_page_table (E:=MapToError) top = Ok p -> machine_ok USABLE m top (fun _ => None) tabs ->
  exists out r s', merge_segments (E:=MapToError) segs = Ok out /\ load_all USABLE out (p, m) = (r, s') /\
    match r with
    | Ok _ => exists view, (forall q, user_page q -> mapping USABLE (tables s'.2) top q = view q) /\
        forall a b, image (sort_by_key vaddr segs) a = Some b -> user_byte (memory s'.2) view a = Some b
    | Err _ => nothing_mapped s'
    | _ => False
    end.
Proof.
  intros H0 Ha Hne Hok Hf Hp Hm. destruct (merge_segments_ok (E:=MapToError) segs Hne Hok) as (out & Em & Hout & Hg & Him & _).
  assert (Hfo : Forall fits out).
  { eapply List.Forall_impl; [|apply (merged_ends (E:=MapToError) segs out (USER_END - PAGE_SIZE) Hok); [|exact Em|done]].
    - unfold fits. intros. cbn beta in *. lia.
    - revert Hf. apply List.Forall_impl. unfold fits. intros. lia. }
  assert (Ht : top_page_table_phys p = top).
  { unfold with_page_table in Hp. rewrite !va_new_user in Hp by (unfold PROCESS_HEAP_VIRT_START, PROCESS_USER_VADDR_ALLOC_START; lia).
    by injection Hp as <-. }
  destruct (load_all_ok out (p, m) (fun _ => None) tabs (new_loading p m top tabs Hp Hm))
    as (r & s' & E & Et & Hr); [cbn [fst]; by rewrite Ht|cbn [fst]; by rewrite Ht|done..|]. exists out, r, s'. split; [done|]. split; [exact E|]. cbn [fst] in Et.
  destruct r as [[]|e| |]; [|done..]. destruct Hr as (view & held & Hl & Hread & _). exists view. split.
  - intros q Hq. rewrite <- Ht, <- Et. by apply (ok_view _ _ _ _ _ (sp_machine _ _ _ _ (ld_space _ _ _ Hl))).
  - intros a b Hb. apply Hread. by rewrite Him.
Qed.

End spec.

(** ** Loading a small program *)

(** The layout over the top table at 65536. *)
Definition demo_layout : ProcessMemoryLayout :=
  mkLayout 65536 PROCESS_HEAP_VIRT_START PROCESS_USER_VADDR_ALLOC_START [].

Definition demo_loaded : result MapToError unit * (ProcessMemoryLayout * Machine FlatTables) :=
  match merge_segments (E:=MapToError) demo_segments with
  | Ok out => load_all 0 out (demo_layout, new_machine)
  | _ => (Panic, (demo_layout, new_machine))
  end.

(** File data, the zeroes after it, and the end of the first page, which no segment covers. *)
Example demo_loaded_bytes :
  demo_loaded.1 = Ok tt /\
  (user_byte (memory demo_loaded.2.2) (mapping 0 (tables demo_loaded.2.2) 65536) <$>
    [4096; 4098; 4100; 4101; 9001; 9002; 12288]) = [Some 1; Some 4; Some 6; Some 0; Some 8; Some 0; None].
Proof. vm_compute. split; reflexivity. Qed.

Lemma demo_space_ok : machine_ok 0 new_machine 65536 (fun _ => None) [].
Proof.
  destruct new_machine_ok as [_ _ Hs Hh]. split; [done| |done|done].
  intros q _. rewrite flat_mapping by done. reflexivity.
Qed.

Lemma loaded_program_reads_image_witness :
  exists out r s', merge_segments (E:=MapToError) demo_segments = Ok out /\
    load_all 0 out (demo_layout, new_machine) = (r, s') /\ (r = Ok tt -> exists view,
      (forall q, user_page q -> mapping 0 (tables s'.2) 65536 q = view q) /\ user_byte (memory s'.2) view 4098 = Some 4).
Proof.
  destruct (loaded_program_reads_image 0 demo_segments demo_layout new_machine 65536 []) as (out & r & s' & E1 & E2 & Hr).
  - lia.
  - by exists 16.
  - discriminate.
  - repeat constructor; cbn; lia.
  - repeat constructor; vm_compute; discriminate.
  - reflexivity.
  - apply demo_space_ok.
  - exists out, r, s'. split; [exact E1|]. split; [exact E2|]. intros ->. destruct Hr as (view & Hv & Hb).
    exists view. split; [exact Hv|]. apply Hb. vm_compute. reflexivity.
Defined.
