(* ===== verification/Events.v ===== *)
(** * Events: input events, kernel/src/events/

    The ring buffer that hands input events from the kernel to a program, one writer and
    one reader on different cores, with the atomic accesses of [push] and [read] as single
    steps; the packing of mouse events; and the bit sets of held keys.  The atomics are
    sequentially consistent here. *)

From Stdlib Require Import ZArith Lia.
From stdpp Require Import base tactics list option numbers relations.
From S2P Require Import Prelude.

Open Scope rust_scope.

(** ** Events *)

Inductive KeyState : Type := Pressed | Released.

Inductive EventType : Type := NoEvent | CharEvent | KeyEvent | MouseEventType | KeyStateEvent.

Record MouseEvent : Type := mkMouse {
  x_delta : Z;
  y_delta : Z;
  buttons : Z;
  x_overflow : bool;
  y_overflow : bool;
}.

Record InputEvent : Type := mkEvent {
  event_type : EventType;
  value : Z;
  extra : Z;
  modifiers : Z;
}.

(** All bits of [MouseButtons] and of [KeyModifiers]. *)
Definition BUTTON_BITS : Z := 7.
Definition MODIFIER_BITS : Z := 255.

Definition event_new (event_type : EventType) (value extra : Z) : InputEvent := mkEvent event_type value extra 0.

Definition with_modifiers (e : InputEvent) (m : Z) : InputEvent := mkEvent (event_type e) (value e) (extra e) m.

Definition key_modifiers (e : InputEvent) : Z := Z.land (modifiers e) MODIFIER_BITS.

Definition key_state_raw (s : KeyState) : Z := match s with Pressed => 0 | Released => 1 end.

Definition new_key (keycode : Z) (state : KeyState) (m : Z) : InputEvent :=
  with_modifiers (event_new KeyEvent keycode (key_state_raw state)) m.

Definition new_key_state (keycode : Z) (state : KeyState) (m : Z) : InputEvent :=
  with_modifiers (event_new KeyStateEvent keycode (key_state_raw state)) m.

Definition new_char (keycode : Z) (state : KeyState) (m : Z) : InputEvent :=
  with_modifiers (event_new CharEvent keycode (key_state_raw state)) m.

(** [as i16] of the low 16 bits. *)
Definition as_i16 (x : Z) : Z := let y := x mod 2 ^ 16 in if y <? 2 ^ 15 then y else y - 2 ^ 16.

(** [KeyState::from_raw] *)
Definition from_raw {E} (raw : Z) : result E KeyState :=
  if negb (raw <=? 1) then Panic else Ok (if raw =? 0 then Pressed else Released).

Definition new_mouse (e : MouseEvent) : InputEvent :=
  let v := wrap 32 (x_delta e) in
  let ex := Z.land (wrap 32 (y_delta e)) 0xFFFF in
  let ex := Z.lor ex (Z.land (Z.shiftl (buttons e) 16) 0x00070000) in
  let overflow_bits := Z.lor (Z.b2z (x_overflow e)) (Z.shiftl (Z.b2z (y_overflow e)) 1) in
  let ex := Z.lor ex (Z.land (Z.shiftl overflow_bits 19) 0x00180000) in
  event_new MouseEventType v ex.

Definition decode_mouse (e : InputEvent) : MouseEvent :=
  let overflow_bits := Z.land (Z.shiftr (extra e) 19) 0x03 in
  mkMouse (as_i16 (value e)) (as_i16 (Z.land (extra e) 0xFFFF))
    (Z.land (Z.land (wrap 16 (Z.shiftr (extra e) 16)) 0x07) BUTTON_BITS)
    (negb (Z.land overflow_bits 0x01 =? 0)) (negb (Z.land overflow_bits 0x02 =? 0)).

(** ** The ring buffer *)

Definition BUFFER_HEADER_SIZE : Z := 4 * 4 + 8 * 4.
Definition MAX_EVENT_COUNT : Z := (4096 - BUFFER_HEADER_SIZE) / 16.

Inductive EventBufferError : Type := Full.

Record EventBuffer : Type := mkBuffer {
  write_idx : Z;
  read_idx : Z;
  event_count : Z;
  events : list InputEvent;
  shared_modifiers : Z;
  shared_key_down : list Z;
}.

Definition new_buffer : EventBuffer :=
  mkBuffer 0 0 0 (replicate (Z.to_nat MAX_EVENT_COUNT) (event_new NoEvent 0 0)) 0 (replicate 4 0).

Definition publish_keyboard_state (words : list Z) (m : Z) (b : EventBuffer) : EventBuffer :=
  mkBuffer (write_idx b) (read_idx b) (event_count b) (events b) m
    (zip_with (fun _ word => word) (shared_key_down b) words).

Definition is_empty (b : EventBuffer) : bool := event_count b =? 0.

(** *** The atomic steps

    What the writer has done of a [push] so far, and the reader of a [read]. *)

Inductive Writer : Type :=
  | WIdle
  | WHasRoom (e : InputEvent)
  | WAt (e : InputEvent) (idx : Z)
  | WWritten (e : InputEvent) (idx : Z)
  | WAdvanced (e : InputEvent).

Inductive Reader : Type :=
  | RIdle
  | RHasOne
  | RAt (idx : Z)
  | RTaken (e : InputEvent) (idx : Z)
  | RAdvanced (e : InputEvent).

(** One access of [push(event)], with the result when it returns. *)
Definition push_step (event : InputEvent) (w : Writer) (b : EventBuffer)
    : result Empty_set (Writer * option (result EventBufferError InputEvent) * EventBuffer) :=
  match w with
  | WIdle =>
      Ok (if MAX_EVENT_COUNT <=? event_count b then (WIdle, Some (Err Full), b) else (WHasRoom event, None, b))
  | WHasRoom e => Ok (WAt e (write_idx b), None, b)
  | WAt e idx =>
      if negb ((0 <=? idx) && (idx <? zlen (events b))) then Panic else
      Ok (WWritten e idx, None, mkBuffer (write_idx b) (read_idx b) (event_count b) (<[ Z.to_nat idx := e ]> (events b)) (shared_modifiers b) (shared_key_down b))
  | WWritten e idx =>
      Ok (WAdvanced e, None, mkBuffer ((idx + 1) mod MAX_EVENT_COUNT) (read_idx b) (event_count b) (events b) (shared_modifiers b) (shared_key_down b))
  | WAdvanced e =>
      Ok (WIdle, Some (Ok e), mkBuffer (write_idx b) (read_idx b) (wrap 32 (event_count b + 1)) (events b) (shared_modifiers b) (shared_key_down b))
  end.

(** One access of [read()]. *)
Definition read_step (r : Reader) (b : EventBuffer)
    : result Empty_set (Reader * option (option InputEvent) * EventBuffer) :=
  match r with
  | RIdle => Ok (if is_empty b then (RIdle, Some None, b) else (RHasOne, None, b))
  | RHasOne => Ok (RAt (read_idx b), None, b)
  | RAt idx =>
      match events b !! Z.to_nat idx with
      | None => Panic
      | Some e => Ok (RTaken e idx, None, b)
      end
  | RTaken e idx =>
      Ok (RAdvanced e, None, mkBuffer (write_idx b) ((idx + 1) mod MAX_EVENT_COUNT) (event_count b) (events b) (shared_modifiers b) (shared_key_down b))
  | RAdvanced e =>
      Ok (RIdle, Some (Some e), mkBuffer (write_idx b) (read_idx b) (wrap 32 (event_count b - 1)) (events b) (shared_modifiers b) (shared_key_down b))
  end.

(** The whole calls, undisturbed: five accesses each. *)
Fixpoint push_from (fuel : nat) (event : InputEvent) (w : Writer) (b : EventBuffer)
    : result EventBufferError InputEvent * EventBuffer :=
  match fuel with
  | O => (OutOfFuel, b)
  | S fuel =>
      match push_step event w b with
      | Ok (_, Some r, b) => (r, b)
      | Ok (w, None, b) => push_from fuel event w b
      | _ => (Panic, b)
      end
  end.

Definition push (event : InputEvent) : stM EventBuffer EventBufferError unit := fun b =>
  match push_from 5 event WIdle b with
  | (Ok _, b) => (Ok tt, b)
  | (Err e, b) => (Err e, b)
  | (Panic, b) => (Panic, b)
  | (OutOfFuel, b) => (OutOfFuel, b)
  end.

Fixpoint read_from (fuel : nat) (r : Reader) (b : EventBuffer) : result Empty_set (option InputEvent) * EventBuffer :=
  match fuel with
  | O => (OutOfFuel, b)
  | S fuel =>
      match read_step r b with
      | Ok (_, Some v, b) => (Ok v, b)
      | Ok (r, None, b) => read_from fuel r b
      | _ => (Panic, b)
      end
  end.

Definition read : stM EventBuffer Empty_set (option InputEvent) := read_from 5 RIdle.

(** ** One writer and one reader

    [sent] are the events whose [push] has returned [Ok], [got] those [read] has returned. *)

Record Ring : Type := mkRing {
  buffer : EventBuffer;
  writer : Writer;
  reader : Reader;
  sent : list InputEvent;
  got : list InputEvent;
}.

Definition ring_start : Ring := mkRing new_buffer WIdle RIdle [] [].

Inductive ring_step : Ring -> Ring -> Prop :=
  | ring_write s event w res b :
      push_step event (writer s) (buffer s) = Ok (w, res, b) ->
      ring_step s (mkRing b w (reader s)
        (match res with Some (Ok e) => sent s ++ [e] | _ => sent s end) (got s))
  | ring_read s r res b :
      read_step (reader s) (buffer s) = Ok (r, res, b) ->
      ring_step s (mkRing b (writer s) r (sent s)
        (match res with Some (Some e) => got s ++ [e] | _ => got s end)).

Definition slot (i : nat) : nat := (i mod Z.to_nat MAX_EVENT_COUNT)%nat.

Definition writer_ok (s : Ring) : Prop :=
  let n := length (sent s) in
  let room := zlen (sent s) - zlen (got s) < MAX_EVENT_COUNT in
  match writer s with
  | WIdle => write_idx (buffer s) = Z.of_nat (slot n)
  | WHasRoom _ => room /\ write_idx (buffer s) = Z.of_nat (slot n)
  | WAt _ idx => room /\ write_idx (buffer s) = Z.of_nat (slot n) /\ idx = Z.of_nat (slot n)
  | WWritten e idx => room /\ write_idx (buffer s) = Z.of_nat (slot n) /\ idx = Z.of_nat (slot n) /\
      events (buffer s) !! slot n = Some e
  | WAdvanced e => room /\ write_idx (buffer s) = Z.of_nat (slot (S n)) /\ events (buffer s) !! slot n = Some e
  end.

Definition reader_ok (s : Ring) : Prop :=
  let g := length (got s) in
  let some := (length (got s) < length (sent s))%nat in
  match reader s with
  | RIdle => read_idx (buffer s) = Z.of_nat (slot g)
  | RHasOne => some /\ read_idx (buffer s) = Z.of_nat (slot g)
  | RAt idx => some /\ read_idx (buffer s) = Z.of_nat (slot g) /\ idx = Z.of_nat (slot g)
  | RTaken e idx => some /\ read_idx (buffer s) = Z.of_nat (slot g) /\ idx = Z.of_nat (slot g) /\ sent s !! g = Some e
  | RAdvanced e => some /\ read_idx (buffer s) = Z.of_nat (slot (S g)) /\ sent s !! g = Some e
  end.

Record ring_ok (s : Ring) : Prop := {
  ri_length : length (events (buffer s)) = Z.to_nat MAX_EVENT_COUNT;
  ri_count : event_count (buffer s) = zlen (sent s) - zlen (got s);
  ri_bound : 0 <= zlen (sent s) - zlen (got s) <= MAX_EVENT_COUNT;
  ri_prefix : got s = take (length (got s)) (sent s);
  ri_slots : forall i, (length (got s) <= i < length (sent s))%nat -> events (buffer s) !! slot i = sent s !! i;
  ri_writer : writer_ok s;
  ri_reader : reader_ok s;
}.

Lemma slot_lt i : (slot i < Z.to_nat MAX_EVENT_COUNT)%nat.
Proof. unfold slot. apply Nat.mod_upper_bound. discriminate. Qed.

Lemma slot_next i : (Z.of_nat (slot i) + 1) mod MAX_EVENT_COUNT = Z.of_nat (slot (S i)).
Proof.
  unfold slot. rewrite !Nat2Z.inj_mod, Nat2Z.inj_succ. change (Z.of_nat (Z.to_nat MAX_EVENT_COUNT)) with MAX_EVENT_COUNT.
  rewrite Z.add_mod_idemp_l by discriminate. f_equal.
Qed.

(** Less than a whole turn apart, different positions have different slots. *)
Lemma slot_ne i j : (i < j)%nat -> Z.of_nat j - Z.of_nat i < MAX_EVENT_COUNT -> slot i <> slot j.
Proof.
  intros Hij Hd E. unfold slot in E. set (m := Z.to_nat MAX_EVENT_COUNT) in *.
  assert (Hm : Z.of_nat m = MAX_EVENT_COUNT) by reflexivity.
  pose proof (Nat.div_mod i m). pose proof (Nat.div_mod j m). assert (m <> 0)%nat by discriminate.
  assert (i / m < j / m \/ j / m <= i / m)%nat as [?|?] by lia; nia.
Qed.

Lemma max_small : MAX_EVENT_COUNT = 253.
Proof. reflexivity. Qed.

Ltac fields := repeat match goal with H : _ /\ _ |- _ => destruct H end; cbn in *; rewrite ?length_app in *; cbn in *;
  split_and?; try done; try lia; try congruence.

Lemma write_keeps s event w res b : ring_ok s -> push_step event (writer s) (buffer s) = Ok (w, res, b) ->
  ring_ok (mkRing b w (reader s) (match res with Some (Ok e) => sent s ++ [e] | _ => sent s end) (got s)).
Proof.
  destruct s as [[wi ri c ev sm sk] ws rs st gt]. intros [Hl Hc Hb Hp Hs Hw Hr]. unfold writer_ok, reader_ok in *.
  cbn [buffer writer reader sent got write_idx read_idx event_count events] in *.
  destruct ws as [|e|e idx|e idx|e]; cbn [push_step event_count events write_idx read_idx] in *.
  - destruct (Z.leb_spec MAX_EVENT_COUNT c); intros [= <- <- <-]; split; unfold writer_ok, reader_ok; fields.
  - intros [= <- <- <-]. split; unfold writer_ok, reader_ok; fields.
  - destruct Hw as (Hroom & Hwi & ->). pose proof (slot_lt (length st)) as Hlt.
    destruct (negb _); [done|]. intros [= <- <- <-]. rewrite Nat2Z.id.
    split; unfold writer_ok, reader_ok; cbn; try done.
    + by rewrite length_insert.
    + intros i Hi. rewrite list_lookup_insert_ne; [by apply Hs|]. intros E. apply (slot_ne i (length st)); [lia|lia|done].
    + split_and!; try done. apply list_lookup_insert_eq. lia.
  - destruct Hw as (Hroom & Hwi & -> & He). intros [= <- <- <-]. rewrite slot_next.
    split; unfold writer_ok, reader_ok; fields.
  - destruct Hw as (Hroom & Hwi & He). intros [= <- <- <-].
    assert (Hlen : length (st ++ [e]) = S (length st)) by (rewrite length_app; cbn; lia).
    split; unfold writer_ok, reader_ok; cbn [buffer writer reader sent got write_idx read_idx event_count events]; rewrite ?Hlen.
    + done.
    + rewrite wrap_small; [lia|]. unfold in_width. rewrite max_small in *. lia.
    + lia.
    + rewrite Hp at 1. by rewrite take_app_le by lia.
    + intros i Hi. destruct (decide (i = length st)) as [->|].
      * by rewrite He, lookup_app_r, Nat.sub_diag by lia.
      * rewrite lookup_app_l by lia. apply Hs. lia.
    + done.
    + destruct rs; fields; rewrite lookup_app_l by lia; done.
Qed.

Lemma read_keeps s r res b : ring_ok s -> read_step (reader s) (buffer s) = Ok (r, res, b) ->
  ring_ok (mkRing b (writer s) r (sent s) (match res with Some (Some e) => got s ++ [e] | _ => got s end)).
Proof.
  destruct s as [[wi ri c ev sm sk] ws rs st gt]. intros [Hl Hc Hb Hp Hs Hw Hr]. unfold writer_ok, reader_ok in *.
  cbn [buffer writer reader sent got write_idx read_idx event_count events] in *.
  destruct rs as [| |idx|e idx|e]; cbn [read_step event_count events write_idx read_idx] in *.
  - unfold is_empty. cbn. destruct (Z.eqb_spec c 0); intros [= <- <- <-]; split; unfold writer_ok, reader_ok; fields.
  - intros [= <- <- <-]. split; unfold writer_ok, reader_ok; fields.
  - destruct Hr as (Hsome & Hri & ->). rewrite Nat2Z.id, Hs by lia.
    destruct (st !! length gt) eqn:E; [|done]. intros [= <- <- <-]. split; unfold writer_ok, reader_ok; fields.
  - destruct Hr as (Hsome & Hri & -> & He). intros [= <- <- <-]. rewrite slot_next.
    split; unfold writer_ok, reader_ok; fields.
  - destruct Hr as (Hsome & Hri & He). intros [= <- <- <-].
    assert (Hlen : length (gt ++ [e]) = S (length gt)) by (rewrite length_app; cbn; lia).
    split; unfold writer_ok, reader_ok; cbn [buffer writer reader sent got write_idx read_idx event_count events]; rewrite ?Hlen.
    + done.
    + rewrite wrap_small; [lia|]. unfold in_width. rewrite max_small in *. lia.
    + lia.
    + rewrite (take_S_r _ _ e) by done. by rewrite <- Hp.
    + intros i Hi. apply Hs. lia.
    + destruct ws; fields.
    + done.
Qed.

Lemma ring_start_ok : ring_ok ring_start.
Proof. split; unfold writer_ok, reader_ok; try done. intros i Hi. cbn in Hi. lia. Qed.

Lemma ring_reachable s : rtc ring_step ring_start s -> ring_ok s.
Proof.
  intros Hr. enough (forall a c, rtc ring_step a c -> ring_ok a -> ring_ok c) by (eauto using ring_start_ok).
  induction 1 as [|a b c Hab _ IH]; [done|]. intros Ha. apply IH.
  destruct Hab; [by eapply write_keeps|by eapply read_keeps].
Qed.

(** C24: however the accesses of one writer and one reader interleave, events come out in
    the order in which they went in, none lost or doubled; no access is out of range; an
    event is refused exactly when 253 are waiting and nothing is returned exactly when
    none is. *)
Theorem event_ring_fifo s : rtc ring_step ring_start s ->
  got s = take (length (got s)) (sent s) /\
  event_count (buffer s) = zlen (sent s) - zlen (got s) /\ zlen (sent s) - zlen (got s) <= MAX_EVENT_COUNT /\
  (forall event, exists w res b, push_step event (writer s) (buffer s) = Ok (w, res, b) /\
    (res = Some (Err Full) -> zlen (sent s) - zlen (got s) = MAX_EVENT_COUNT) /\
  (writer s = WIdle -> res = None -> zlen (sent s) - zlen (got s) < MAX_EVENT_COUNT)) /\
  (exists r res b, read_step (reader s) (buffer s) = Ok (r, res, b) /\
  (res = Some None -> got s = sent s) /\
  (forall e, res = Some (Some e) -> sent s !! length (got s) = Some e)).
Proof.
  intros Hr. destruct (ring_reachable s Hr) as [Hl Hc Hb Hp Hs Hw Hrd]. split; [done|]. split; [done|]. split; [lia|].
  unfold writer_ok, reader_ok in *. split.
  - intros event. destruct (writer s) as [|e|e idx|e idx|e] eqn:Ew; cbn [push_step].
    + destruct (Z.leb_spec MAX_EVENT_COUNT (event_count (buffer s))); eexists _, _, _; (split; [done|]); split; try done; intros; lia.
    + by eexists _, _, _.
    + destruct Hw as (_ & _ & ->). pose proof (slot_lt (length (sent s))).
      rewrite (proj2 (Z.leb_le _ _)), (proj2 (Z.ltb_lt _ _)) by lia. by eexists _, _, _.
    + by eexists _, _, _.
    + by eexists _, _, _.
  - destruct (reader s) as [| |idx|e idx|e] eqn:Er; cbn [read_step].
    + unfold is_empty. destruct (Z.eqb_spec (event_count (buffer s)) 0); eexists _, _, _; (split; [done|]); split; try done.
      intros _. rewrite Hp. apply take_ge. lia.
    + by eexists _, _, _.
    + destruct Hrd as (Hsome & _ & ->). rewrite Nat2Z.id, Hs by lia.
      destruct (lookup_lt_is_Some_2 (sent s) (length (got s))) as [e ->]; [done|]. by eexists _, _, _.
    + by eexists _, _, _.
    + destruct Hrd as (_ & _ & He). eexists _, _, _. split; [done|]. split; [done|]. by intros ? [= <-].
Qed.

(** The program can write the page the buffer is in: an index it left there stops the kernel. *)
Example corrupt_index_panics b e : event_count b = 0 -> zlen (events b) <= write_idx b -> (push e b).1 = Panic.
Proof.
  intros Hc Hi. unfold push, push_from. cbn [push_step]. rewrite Hc. cbn [Z.leb Z.compare MAX_EVENT_COUNT].
  change (MAX_EVENT_COUNT <=? 0) with false. cbn [push_step]. rewrite (proj2 (Z.ltb_ge _ _) Hi), andb_false_r. reflexivity.
Qed.

(** *** Undisturbed calls *)

(** The events waiting in a buffer nobody is working on. *)
Definition waiting (b : EventBuffer) (l : list InputEvent) : Prop :=
  exists st gt, ring_ok (mkRing b WIdle RIdle st gt) /\ l = drop (length gt) st.

Lemma new_waiting : waiting new_buffer [].
Proof. exists [], []. split; [apply ring_start_ok|done]. Qed.

Lemma push_queue e b l : waiting b l ->
  exists b', push e b = (if (length l <? Z.to_nat MAX_EVENT_COUNT)%nat then Ok tt else Err Full, b') /\
    waiting b' (if (length l <? Z.to_nat MAX_EVENT_COUNT)%nat then l ++ [e] else l).
Proof.
  intros (st & gt & H0 & ->). rewrite length_drop. pose proof (ri_count _ H0) as Hc. pose proof (ri_bound _ H0) as Hb.
  cbn [buffer sent got] in Hc, Hb. unfold push, push_from. cbn [push_step].
  destruct (Z.leb_spec MAX_EVENT_COUNT (event_count b)) as [Hfull|Hroom].
  - replace (_ <? _)%nat with false by (symmetry; apply Nat.ltb_ge; rewrite max_small in *; lia).
    exists b. split; [done|]. by exists st, gt.
  - replace (_ <? _)%nat with true by (symmetry; apply Nat.ltb_lt; rewrite max_small in *; lia).
    assert (H1 : ring_ok (mkRing b (WHasRoom e) RIdle st gt)).
    { apply (write_keeps _ e _ None _ H0). cbn. by rewrite (proj2 (Z.leb_gt _ _)). }
    pose proof (write_keeps _ e _ None _ H1 eq_refl) as H2. cbn [writer buffer] in H2.
    pose proof (ri_writer _ H2) as (_ & Hwi & _). cbn [buffer sent] in Hwi. pose proof (slot_lt (length st)) as Hlt.
    pose proof (ri_length _ H0) as Hlen. cbn [buffer] in Hlen.
    assert (Hin : (0 <=? write_idx b) && (write_idx b <? zlen (events b)) = true)
      by (rewrite Hwi, (proj2 (Z.leb_le _ _)), (proj2 (Z.ltb_lt _ _)) by lia; done).
    cbn [push_step]. rewrite Hin. cbn. eexists. split; [done|].
    assert (Hs : push_step e (WAt e (write_idx b)) b = Ok (WWritten e (write_idx b), None,
      mkBuffer (write_idx b) (read_idx b) (event_count b) (<[ Z.to_nat (write_idx b) := e ]> (events b)) (shared_modifiers b) (shared_key_down b)))
      by (cbn [push_step]; by rewrite Hin).
    pose proof (write_keeps _ e _ None _ H2 Hs) as H3. pose proof (write_keeps _ e _ None _ H3 eq_refl) as H4.
    pose proof (write_keeps _ e _ (Some (Ok e)) _ H4 eq_refl) as H5. cbn [writer reader sent got buffer] in H5.
    exists (st ++ [e]), gt. split; [exact H5|]. rewrite drop_app_le by lia. done.
Qed.

Lemma read_queue b l : waiting b l ->
  exists b', read b = (Ok (head l), b') /\ waiting b' (tail l).
Proof.
  intros (st & gt & H0 & ->). pose proof (ri_count _ H0) as Hc. pose proof (ri_bound _ H0) as Hb.
  cbn [buffer sent got] in Hc, Hb. unfold read, read_from. cbn [read_step]. unfold is_empty.
  destruct (Z.eqb_spec (event_count b) 0) as [Hz|Hz].
  - exists b. rewrite drop_ge by lia. split; [done|]. exists st, gt. split; [done|]. symmetry. apply drop_ge. lia.
  - assert (H1 : ring_ok (mkRing b WIdle RHasOne st gt)).
    { apply (read_keeps _ _ None _ H0). cbn. unfold is_empty. by rewrite (proj2 (Z.eqb_neq _ _)). }
    pose proof (read_keeps _ _ None _ H1 eq_refl) as H2. cbn [reader buffer] in H2.
    pose proof (ri_reader _ H2) as (Hsome & Hri & _). cbn [buffer got sent] in Hri, Hsome.
    assert (He : events b !! Z.to_nat (read_idx b) = st !! length gt)
      by (rewrite Hri, Nat2Z.id; apply (ri_slots _ H0); cbn; lia).
    destruct (lookup_lt_is_Some_2 st (length gt) Hsome) as [e Eg]. rewrite Eg in He. cbn [read_step]. rewrite He. cbn.
    eexists. split; [by rewrite (drop_S _ _ _ Eg)|].
    assert (Hs : read_step (RAt (read_idx b)) b = Ok (RTaken e (read_idx b), None, b)) by (cbn [read_step]; by rewrite He).
    pose proof (read_keeps _ _ None _ H2 Hs) as H3. pose proof (read_keeps _ _ None _ H3 eq_refl) as H4.
    pose proof (read_keeps _ _ (Some (Some e)) _ H4 eq_refl) as H5. cbn [writer reader sent got buffer] in H5.
    exists st, (gt ++ [e]). split; [exact H5|]. rewrite (drop_S _ _ _ Eg), length_app, Nat.add_comm. done.
Qed.

(** ** Mouse events *)

Lemma as_i16_wrap x : - 2 ^ 15 <= x < 2 ^ 15 -> as_i16 (wrap 32 x mod 2 ^ 16) = x.
Proof.
  intros Hx. unfold as_i16, wrap. rewrite Z.mod_mod by lia.
  replace (x mod 2 ^ 32 mod 2 ^ 16) with (x mod 2 ^ 16)
    by (rewrite <- Znumtheory.Zmod_div_mod; [done|lia|lia|by exists (2 ^ 16)]).
  destruct (Z.lt_ge_cases x 0) as [Hn|Hp].
  - replace (x mod 2 ^ 16) with (x + 2 ^ 16) by (apply Z.mod_unique_pos with (-1); lia).
    rewrite (proj2 (Z.ltb_ge _ _)) by lia. lia.
  - rewrite Z.mod_small by lia. rewrite (proj2 (Z.ltb_lt _ _)) by lia. done.
Qed.

(** Reading the fields back from a low half and a multiple of 2^16. *)
Lemma extra_fields y c : 0 <= y < 2 ^ 16 -> 0 <= c < 2 ^ 16 ->
  Z.lor y (c * 2 ^ 16) mod 2 ^ 16 = y /\ Z.shiftr (Z.lor y (c * 2 ^ 16)) 16 = c.
Proof.
  intros Hy Hc. rewrite <- Z.shiftl_mul_pow2 by lia. split.
  - rewrite <- Z.land_ones by lia. rewrite Z.land_lor_distr_l.
    rewrite (Z.land_ones (Z.shiftl c 16)), Z.shiftl_mul_pow2, Z.mod_mul, Z.lor_0_r by lia.
    rewrite Z.land_ones by lia. by apply Z.mod_small.
  - rewrite Z.shiftr_lor, Z.shiftr_shiftl_l by lia. rewrite Z.shiftr_div_pow2, Z.div_small by lia.
    by rewrite Z.sub_diag, Z.shiftl_0_r, Z.lor_0_l.
Qed.

Definition mouse_ok (e : MouseEvent) : Prop :=
  - 2 ^ 15 <= x_delta e < 2 ^ 15 /\ - 2 ^ 15 <= y_delta e < 2 ^ 15 /\ 0 <= buttons e <= BUTTON_BITS.

(** A mouse event survives being packed into an input event and unpacked. *)
Theorem mouse_event_roundtrip e : mouse_ok e -> decode_mouse (new_mouse e) = e.
Proof.
  destruct e as [x y b xo yo]. unfold mouse_ok, BUTTON_BITS. cbn [x_delta y_delta buttons]. intros (Hx & Hy & Hb).
  unfold decode_mouse, new_mouse. cbn [x_delta y_delta buttons x_overflow y_overflow value extra event_new].
  set (yl := Z.land (wrap 32 y) 0xFFFF). set (o := Z.lor (Z.b2z xo) (Z.shiftl (Z.b2z yo) 1)).
  assert (Hyl : yl = wrap 32 y mod 2 ^ 16) by (unfold yl; change 0xFFFF with (Z.ones 16); by rewrite Z.land_ones by lia).
  set (c := b + o * 8).
  assert (Ex : Z.lor (Z.lor yl (Z.land (Z.shiftl b 16) 0x00070000)) (Z.land (Z.shiftl o 19) 0x00180000) =
    Z.lor yl (c * 2 ^ 16)).
  { rewrite <- Z.lor_assoc. f_equal. unfold c, o.
    assert (b = 0 \/ b = 1 \/ b = 2 \/ b = 3 \/ b = 4 \/ b = 5 \/ b = 6 \/ b = 7) as Hcases by lia.
    destruct xo, yo; destruct Hcases as [->|[->|[->|[->|[->|[->|[->| ->]]]]]]]; reflexivity. }
  rewrite Ex. assert (Ho : o = 0 \/ o = 1 \/ o = 2 \/ o = 3) by (unfold o; destruct xo, yo; vm_compute; tauto).
  destruct (extra_fields yl c) as [El Eh]; [rewrite Hyl; apply Z.mod_pos_bound; lia|unfold c; lia|].
  assert (E19 : Z.shiftr (Z.lor yl (c * 2 ^ 16)) 19 = Z.shiftr c 3)
    by (rewrite <- Eh at 2; by rewrite Z.shiftr_shiftr by lia).
  change 0xFFFF with (Z.ones 16). rewrite Z.land_ones, El, Eh, E19, Hyl, as_i16_wrap by lia.
  f_equal.
  - rewrite <- (as_i16_wrap x Hx) at 2. unfold as_i16. by rewrite Z.mod_mod by lia.
  - unfold wrap. rewrite (Z.mod_small c) by (unfold c; lia). unfold c.
    assert (b = 0 \/ b = 1 \/ b = 2 \/ b = 3 \/ b = 4 \/ b = 5 \/ b = 6 \/ b = 7) as Hcases by lia.
    destruct Ho as [->|[->|[->| ->]]]; destruct Hcases as [->|[->|[->|[->|[->|[->|[->| ->]]]]]]]; reflexivity.
  - unfold c, o. replace (Z.shiftr (b + _) 3) with (Z.lor (Z.b2z xo) (Z.shiftl (Z.b2z yo) 1)).
    + by destruct xo, yo.
    + rewrite Z.shiftr_div_pow2, Z.div_add, Z.div_small by lia. lia.
  - unfold c, o. replace (Z.shiftr (b + _) 3) with (Z.lor (Z.b2z xo) (Z.shiftl (Z.b2z yo) 1)).
    + by destruct xo, yo.
    + rewrite Z.shiftr_div_pow2, Z.div_add, Z.div_small by lia. lia.
Qed.

(** ** Held keys, kernel/src/events/keyboard_state.rs *)

Definition KEY_COUNT : Z := 256.
Definition BITS_PER_WORD : Z := 64.
Definition BITSET_WORD_COUNT : Z := KEY_COUNT / BITS_PER_WORD.

Abbreviation KeyBitset := (list Z).

Definition bitset_new : KeyBitset := replicate (Z.to_nat BITSET_WORD_COUNT) 0.

Definition word_of (key : Z) : nat := Z.to_nat (key / BITS_PER_WORD).
Definition bit_of (key : Z) : Z := Z.shiftl 1 (key mod BITS_PER_WORD).

(** An index out of range panics; a [u8] never is. *)
Definition on_word {A} (words : KeyBitset) (key : Z) (f : Z -> A) : result Empty_set A :=
  match words !! word_of key with
  | None => Panic
  | Some w => Ok (f w)
  end.

Definition test (words : KeyBitset) (key : Z) : result Empty_set bool :=
  on_word words key (fun w => negb (Z.land w (bit_of key) =? 0)).

Definition set (words : KeyBitset) (key : Z) : result Empty_set KeyBitset :=
  on_word words key (fun w => <[ word_of key := Z.lor w (bit_of key) ]> words).

(** [!x] of a [u64] *)
Definition not64 (x : Z) : Z := U64_MAX - x.

Definition clear (words : KeyBitset) (key : Z) : result Empty_set KeyBitset :=
  on_word words key (fun w => <[ word_of key := Z.land w (not64 (bit_of key)) ]> words).

Record KeyboardState : Type := mkKeyboard {
  key_down : KeyBitset;
  key_pressed : KeyBitset;
  key_released : KeyBitset;
  held_modifiers : Z;
}.

Definition keyboard_new : KeyboardState := mkKeyboard bitset_new bitset_new bitset_new 0.

Definition update (k : KeyboardState) (key : Z) (state : KeyState) (modifiers : Z) : result Empty_set KeyboardState :=
  match state with
  | Pressed =>
      let? down := test (key_down k) key in
      let? pressed := (if negb down then set (key_pressed k) key else Ok (key_pressed k)) in
      let? key_down := set (key_down k) key in
      Ok (mkKeyboard key_down pressed (key_released k) modifiers)
  | Released =>
      let? key_down := clear (key_down k) key in
      let? released := set (key_released k) key in
      Ok (mkKeyboard key_down (key_pressed k) released modifiers)
  end.

Definition clear_transient (k : KeyboardState) : KeyboardState :=
  mkKeyboard (key_down k) bitset_new bitset_new (held_modifiers k).

(** The set a bit set stands for. *)
Definition holds_key (words : KeyBitset) (key : Z) : bool :=
  match test words key with Ok b => b | _ => false end.

Record bitset_ok (words : KeyBitset) : Prop := {
  bo_length : length words = Z.to_nat BITSET_WORD_COUNT;
  bo_words : Forall (in_width 64) words;
}.

Definition is_key (key : Z) : Prop := 0 <= key < KEY_COUNT.

Lemma bit_test w key : 0 <= key -> negb (Z.land w (bit_of key) =? 0) = Z.testbit w (key mod BITS_PER_WORD).
Proof.
  intros Hk. unfold bit_of. pose proof (Z.mod_pos_bound key BITS_PER_WORD ltac:(done)) as Hb.
  rewrite Z.shiftl_1_l. set (i := key mod BITS_PER_WORD) in *. destruct (Z.testbit w i) eqn:E.
  - apply negb_true_iff, Z.eqb_neq. intros Hz. assert (H : Z.testbit (Z.land w (2 ^ i)) i = false) by (by rewrite Hz, Z.bits_0).
    rewrite Z.land_spec, E, Z.pow2_bits_true in H by lia. done.
  - apply negb_false_iff, Z.eqb_eq, Z.bits_inj'. intros j Hj. rewrite Z.land_spec, Z.bits_0.
    destruct (Z.eq_dec i j) as [<-|Hne]; [by rewrite E|]. rewrite Z.pow2_bits_false by done. by rewrite andb_false_r.
Qed.

Lemma word_some words key : bitset_ok words -> is_key key ->
  exists w, words !! word_of key = Some w /\ in_width 64 w.
Proof.
  intros [Hl Hw] [H0 Hk]. destruct (lookup_lt_is_Some_2 words (word_of key)) as [w Ew].
  - rewrite Hl. unfold word_of. change (Z.to_nat BITSET_WORD_COUNT) with 4%nat. unfold KEY_COUNT, BITS_PER_WORD in *.
    pose proof (Z.div_lt_upper_bound key 64 4). lia.
  - exists w. split; [done|]. by eapply list.Forall_lookup_1 in Ew.
Qed.

Lemma holds_is words key w : 0 <= key -> words !! word_of key = Some w ->
  holds_key words key = Z.testbit w (key mod BITS_PER_WORD).
Proof. intros Hk Ew. unfold holds_key, test, on_word. rewrite Ew. by apply bit_test. Qed.

Lemma same_bit i j : 0 <= i -> 0 <= j -> word_of i = word_of j -> i mod BITS_PER_WORD = j mod BITS_PER_WORD -> i = j.
Proof.
  unfold word_of, BITS_PER_WORD. intros Hi Hj Ew Em. pose proof (Z.div_pos i 64). pose proof (Z.div_pos j 64).
  pose proof (Z.div_mod i 64). pose proof (Z.div_mod j 64). lia.
Qed.

(** Writing a word back changes the one key. *)
Lemma put_word words key w w' b : bitset_ok words -> is_key key -> words !! word_of key = Some w -> in_width 64 w' ->
  (forall i, 0 <= i -> Z.testbit w' i = if decide (i = key mod BITS_PER_WORD) then b else Z.testbit w i) ->
  bitset_ok (<[ word_of key := w' ]> words) /\
  forall j, is_key j -> holds_key (<[ word_of key := w' ]> words) j = if decide (j = key) then b else holds_key words j.
Proof.
  intros [Hl Hw] Hk Ew Hw' Hb. split.
  - split; [by rewrite length_insert|by apply Forall_insert].
  - intros j Hj. destruct (word_some words j) as (v & Ev & _); [by split|done|].
    destruct Hk as [Hk0 Hk], Hj as [Hj0 Hj]. pose proof (Z.mod_pos_bound j BITS_PER_WORD ltac:(done)).
    destruct (decide (word_of j = word_of key)) as [E|Hne].
    + rewrite (holds_is _ j w'), Hb by (done || lia || (rewrite E; apply list_lookup_insert_eq; by eapply lookup_lt_Some)).
      rewrite (holds_is words j w) by (done || by rewrite E).
      destruct (decide (j mod BITS_PER_WORD = key mod BITS_PER_WORD)) as [Em|Em].
      * rewrite decide_True; [done|]. by apply same_bit.
      * rewrite decide_False; [done|]. by intros ->.
    + rewrite (holds_is _ j v), (holds_is words j v) by (done || by rewrite list_lookup_insert_ne by congruence).
      rewrite decide_False; [done|]. by intros ->.
Qed.

Lemma bits_width w : 0 <= w -> (forall i, 64 <= i -> Z.testbit w i = false) -> in_width 64 w.
Proof.
  intros H0 Hb. split; [done|]. destruct (Z.lt_ge_cases w (2 ^ 64)) as [?|Hge]; [done|]. exfalso.
  assert (Hl : 64 <= Z.log2 w) by (apply Z.log2_le_pow2; lia).
  pose proof (Z.bit_log2 w ltac:(lia)) as Ht. rewrite Hb in Ht by done. done.
Qed.

Lemma width_bits w i : in_width 64 w -> 64 <= i -> Z.testbit w i = false.
Proof.
  intros [H0 H1] Hi. destruct (Z.eq_dec w 0) as [->|]; [apply Z.bits_0|]. apply Z.bits_above_log2; [done|].
  apply Z.log2_lt_pow2; [lia|]. pose proof (Z.pow_le_mono_r 2 64 i). lia.
Qed.

Lemma set_ok words key : bitset_ok words -> is_key key ->
  exists words', set words key = Ok words' /\ bitset_ok words' /\
    forall j, is_key j -> holds_key words' j = if decide (j = key) then true else holds_key words j.
Proof.
  intros Hok Hk. destruct (word_some words key Hok Hk) as (w & Ew & Hw). unfold set, on_word. rewrite Ew.
  eexists. split; [done|]. unfold bit_of. rewrite Z.shiftl_1_l.
  pose proof (Z.mod_pos_bound key BITS_PER_WORD ltac:(done)) as Hb. unfold BITS_PER_WORD in Hb at 3.
  assert (Hbits : forall i, 0 <= i -> Z.testbit (Z.lor w (2 ^ (key mod BITS_PER_WORD))) i =
    if decide (i = key mod BITS_PER_WORD) then true else Z.testbit w i).
  { intros i Hi. rewrite Z.lor_spec. destruct (decide (i = key mod BITS_PER_WORD)) as [->|Hne].
    - by rewrite Z.pow2_bits_true, orb_true_r by lia.
    - by rewrite Z.pow2_bits_false, orb_false_r by congruence. }
  apply put_word with w; try done. apply bits_width.
  - apply Z.lor_nonneg. destruct Hw. pose proof (Z.pow_nonneg 2 (key mod BITS_PER_WORD)). lia.
  - intros i Hi. rewrite Hbits, decide_False by lia. by apply width_bits.
Qed.

Lemma clear_key_ok words key : bitset_ok words -> is_key key ->
  exists words', clear words key = Ok words' /\ bitset_ok words' /\
    forall j, is_key j -> holds_key words' j = if decide (j = key) then false else holds_key words j.
Proof.
  intros Hok Hk. destruct (word_some words key Hok Hk) as (w & Ew & Hw). unfold clear, on_word. rewrite Ew.
  eexists. split; [done|]. unfold bit_of. rewrite Z.shiftl_1_l.
  pose proof (Z.mod_pos_bound key BITS_PER_WORD ltac:(done)) as Hb. unfold BITS_PER_WORD in Hb at 3.
  assert (Hnot : not64 (2 ^ (key mod BITS_PER_WORD)) = Z.ldiff (Z.ones 64) (2 ^ (key mod BITS_PER_WORD))).
  { unfold not64, U64_MAX. change (2 ^ 64 - 1) with (Z.ones 64). apply Z.sub_nocarry_ldiff.
    apply Z.bits_inj'. intros i Hi. rewrite Z.ldiff_spec, Z.bits_0. destruct (Z.eq_dec (key mod BITS_PER_WORD) i) as [<-|].
    - rewrite Z.ones_spec_low by lia. apply andb_false_r.
    - by rewrite Z.pow2_bits_false. }
  assert (Hbits : forall i, 0 <= i -> Z.testbit (Z.land w (not64 (2 ^ (key mod BITS_PER_WORD)))) i =
    if decide (i = key mod BITS_PER_WORD) then false else Z.testbit w i).
  { intros i Hi. rewrite Hnot, Z.land_spec, Z.ldiff_spec. destruct (decide (i = key mod BITS_PER_WORD)) as [->|Hne].
    - rewrite Z.pow2_bits_true by lia. by rewrite andb_false_r, andb_false_r.
    - rewrite Z.pow2_bits_false by congruence. cbn [negb]. rewrite andb_true_r.
      destruct (Z.lt_ge_cases i 64); [by rewrite Z.ones_spec_low, andb_true_r by lia|].
      by rewrite width_bits. }
  apply put_word with w; try done. apply bits_width.
  - apply Z.land_nonneg. left. by destruct Hw.
  - intros i Hi. rewrite Hbits, decide_False by lia. by apply width_bits.
Qed.

Lemma bitset_new_ok : bitset_ok bitset_new /\ forall j, is_key j -> holds_key bitset_new j = false.
Proof.
  split; [split; [done|]; repeat constructor; done|].
  intros j Hj. destruct (word_some bitset_new j) as (w & Ew & _); [split; [done|repeat constructor; done]|done|].
  rewrite (holds_is _ _ w) by (done || by destruct Hj). apply lookup_replicate in Ew as [-> _]. apply Z.bits_0.
Qed.

(** *** A run of key transitions, newest first *)

Abbreviation KeyLog := (list (Z * KeyState)).

Definition is_pressed (s : KeyState) : bool := match s with Pressed => true | Released => false end.

Definition run_updates (log : KeyLog) (k : KeyboardState) : result Empty_set KeyboardState :=
  foldr (fun x r => let? k := r in update k x.1 x.2 0) (Ok k) log.

(** Held afterwards: the last transition of the key decides. *)
Fixpoint down_after (log : KeyLog) (before : Z -> bool) (key : Z) : bool :=
  match log with
  | [] => before key
  | (k, s) :: log => if decide (key = k) then is_pressed s else down_after log before key
  end.

(** Went down: a press while the key was not held. *)
Fixpoint went_down (log : KeyLog) (before : Z -> bool) (key : Z) : bool :=
  match log with
  | [] => false
  | (k, s) :: log =>
      went_down log before key || (bool_decide (key = k) && is_pressed s && negb (down_after log before key))
  end.

Definition went_up (log : KeyLog) (key : Z) : bool :=
  existsb (fun x => bool_decide (key = x.1) && negb (is_pressed x.2)) log.

Record keyboard_ok (k : KeyboardState) : Prop := {
  ko_down : bitset_ok (key_down k);
  ko_pressed : bitset_ok (key_pressed k);
  ko_released : bitset_ok (key_released k);
}.

Lemma test_ok words key : bitset_ok words -> is_key key -> test words key = Ok (holds_key words key).
Proof.
  intros Hok Hk. destruct (word_some words key Hok Hk) as (w & Ew & _). unfold holds_key, test, on_word. by rewrite Ew.
Qed.

Lemma update_ok k key s m : keyboard_ok k -> is_key key ->
  exists k', update k key s m = Ok k' /\ keyboard_ok k' /\ forall j, is_key j ->
    holds_key (key_down k') j = (if decide (j = key) then is_pressed s else holds_key (key_down k) j) /\
    holds_key (key_pressed k') j = holds_key (key_pressed k) j ||
      (bool_decide (j = key) && is_pressed s && negb (holds_key (key_down k) j)) /\
    holds_key (key_released k') j = bool_decide (j = key) && negb (is_pressed s) || holds_key (key_released k) j.
Proof.
  intros [Hd Hp Hr] Hk. unfold update. destruct s.
  - rewrite test_ok by done. cbn [rbind]. destruct (set_ok _ key Hd Hk) as (d' & Ed & Hd' & Hdj).
    assert (Hpr : exists p', (if negb (holds_key (key_down k) key) then set (key_pressed k) key else Ok (key_pressed k)) = Ok p' /\
      bitset_ok p' /\ forall j, is_key j -> holds_key p' j = holds_key (key_pressed k) j ||
        (bool_decide (j = key) && true && negb (holds_key (key_down k) j))).
    { destruct (holds_key (key_down k) key) eqn:E; cbn [negb].
      - eexists. split; [done|]. split; [done|]. intros j _. destruct (bool_decide_reflect (j = key)) as [->|]; cbn [andb].
        + by rewrite E, orb_false_r.
        + by rewrite orb_false_r.
      - destruct (set_ok _ key Hp Hk) as (p' & Ep & Hp' & Hpj). exists p'. split; [done|]. split; [done|].
        intros j Hj. rewrite Hpj by done. destruct (bool_decide_reflect (j = key)) as [->|Hne]; cbn [andb].
        + by rewrite decide_True, E, orb_true_r.
        + by rewrite decide_False, orb_false_r. }
    destruct Hpr as (p' & -> & Hp' & Hpj). cbn [rbind]. rewrite Ed. cbn [rbind]. eexists. split; [done|].
    split; [by split|]. intros j Hj. cbn. split; [by apply Hdj|]. split; [by apply Hpj|]. by rewrite andb_false_r.
  - destruct (clear_key_ok _ key Hd Hk) as (d' & -> & Hd' & Hdj). cbn [rbind].
    destruct (set_ok _ key Hr Hk) as (r' & -> & Hr' & Hrj). cbn [rbind]. eexists. split; [done|].
    split; [by split|]. intros j Hj. cbn. split; [by apply Hdj|]. split; [by rewrite andb_false_r, orb_false_r|].
    rewrite Hrj by done. destruct (bool_decide_reflect (j = key)) as [->|Hne]; [by rewrite decide_True|by rewrite decide_False].
Qed.

(** After a run of key transitions the keyboard state says which keys are held, which
    went down and which went up since the transient sets were cleared. *)
Theorem keyboard_tracks_keys k log : keyboard_ok k -> Forall (fun x => is_key x.1) log ->
  exists k', run_updates log (clear_transient k) = Ok k' /\ keyboard_ok k' /\ forall j, is_key j ->
    holds_key (key_down k') j = down_after log (holds_key (key_down k)) j /\
    holds_key (key_pressed k') j = went_down log (holds_key (key_down k)) j /\
    holds_key (key_released k') j = went_up log j.
Proof.
  intros [Hd Hp Hr] Hlog. destruct bitset_new_ok as [Hn Hnj]. induction Hlog as [|[key s] log Hk _ IH].
  { exists (clear_transient k). split; [done|]. split; [by split|]. intros j Hj. cbn. by rewrite Hnj. }
  destruct IH as (k1 & E1 & Hk1 & Hj1). destruct (update_ok k1 key s 0 Hk1 Hk) as (k' & E & Hk' & Hj').
  exists k'. split; [cbn; unfold run_updates in E1; by rewrite E1|]. split; [done|]. intros j Hj.
  destruct (Hj1 j Hj) as (D & P & R), (Hj' j Hj) as (D' & P' & R'). cbn [down_after went_down went_up existsb fst snd].
  rewrite D', P', R', D, P, R. done.
Qed.

(** ** Witnesses *)

Definition demo_event : InputEvent := new_key 65 Pressed 1.

(** The reader looks at the buffer while the writer is half way through its second event. *)
Definition demo_ring : Ring :=
  mkRing (mkBuffer 1 0 1 (<[ 1%nat := demo_event ]> (<[ 0%nat := demo_event ]> (events new_buffer))) 0 (replicate 4 0))
    (WWritten demo_event 1) RHasOne [demo_event] [].

Lemma demo_ring_steps : rtc ring_step ring_start demo_ring.
Proof.
  do 5 (eapply rtc_l; [eapply (ring_write _ demo_event); reflexivity|cbn]).
  eapply rtc_l; [eapply ring_read; reflexivity|cbn].
  do 3 (eapply rtc_l; [eapply (ring_write _ demo_event); reflexivity|cbn]).
  apply rtc_refl.
Defined.

Lemma event_ring_fifo_witness : exists r res b, read_step (reader demo_ring) (buffer demo_ring) = Ok (r, res, b).
Proof.
  destruct (event_ring_fifo demo_ring demo_ring_steps) as (_ & _ & _ & _ & r & res & b & E & _).
  exists r, res, b. exact E.
Defined.

Definition demo_mouse : MouseEvent := mkMouse (-3) 32767 5 true false.

Lemma mouse_event_roundtrip_witness : decode_mouse (new_mouse demo_mouse) = demo_mouse.
Proof. apply mouse_event_roundtrip. unfold mouse_ok. cbn. unfold BUTTON_BITS. lia. Defined.

Lemma keyboard_new_ok : keyboard_ok keyboard_new.
Proof. split; apply bitset_new_ok. Defined.

Lemma keyboard_tracks_keys_witness : exists k,
  run_updates [(200, Released); (65, Pressed); (200, Pressed)] (clear_transient keyboard_new) = Ok k /\
  holds_key (key_down k) 65 = true /\ holds_key (key_pressed k) 200 = true.
Proof.
  destruct (keyboard_tracks_keys keyboard_new [(200, Released); (65, Pressed); (200, Pressed)] keyboard_new_ok)
    as (k & E & _ & Hj).
  - repeat constructor; cbn; unfold KEY_COUNT; lia.
  - exists k. split; [exact E|]. split.
    + destruct (Hj 65) as (-> & _); [unfold is_key, KEY_COUNT; lia|]. vm_compute. reflexivity.
    + destruct (Hj 200) as (_ & -> & _); [unfold is_key, KEY_COUNT; lia|]. vm_compute. reflexivity.
Defined.
