(* ===== verification/Processes.v ===== *)
(** * Processes: the process manager, kernel/src/process/process_manager.rs

    The table of processes with creation from a program image, termination and cleanup, on
    top of the machine, the scheduler and the kernel stacks prepared for new tasks.  Locks
    are left out.  [me] is the executing core. *)

From Stdlib Require Import ZArith Lia.
From stdpp Require Import base tactics list option numbers relations.
From S2P Require Import Prelude Tasks RunQueue Scheduler FrameAlloc Regions UserMem ProcessMem AddressSpace Elf ElfLoad.

Open Scope rust_scope.

(** ** The core pool, kernel/src/process/core_pool.rs *)

(** The pool, with the two tables that the initialisation fills as well. *)
Record CorePool : Type := mkPool {
  total_cores : Z;
  lapic_ids : list Z;
  TOTAL_CORE_COUNT : Z;
  LAPIC_ID_OF_CORE : list Z;
}.

Definition pool_new : CorePool := mkPool 1 (per_core 0) 1 (per_core 0).

(** One round of the loop over the cores; an index out of range panics. *)
Definition set_core (cpus : list Z) (i : Z) : stM CorePool Empty_set unit := fun p =>
  match cpus !! Z.to_nat i with
  | None => (Panic, p)
  | Some lapic_id =>
      if decide (i < zlen (lapic_ids p)) then
        (Ok tt, mkPool (total_cores p) (<[Z.to_nat i := lapic_id]> (lapic_ids p)) (TOTAL_CORE_COUNT p)
          (<[Z.to_nat i := lapic_id]> (LAPIC_ID_OF_CORE p)))
      else (Panic, p)
  end.

Fixpoint set_cores (cpus cores : list Z) : stM CorePool Empty_set unit :=
  match cores with
  | [] => sret tt
  | i :: cores => set_core cpus i ;;; set_cores cpus cores
  end.

(** [cpus] holds the [lapic_id as u8] of every processor.  The assignment of [MAX_CORES]
    is overwritten by the one after it. *)
Definition init_with_core_count (core_count : Z) (cpus : list Z) : stM CorePool Empty_set unit :=
  if core_count =? 0 then sret tt else
  (fun p => (Ok tt, if MAX_CORES <? core_count
    then mkPool MAX_CORES (lapic_ids p) (TOTAL_CORE_COUNT p) (LAPIC_ID_OF_CORE p) else p)) ;;;
  (fun p => (Ok tt, mkPool core_count (lapic_ids p) core_count (LAPIC_ID_OF_CORE p))) ;;;
  set_cores cpus (seqZ 0 core_count).

Definition lapic_id_of_core (p : CorePool) (core_id : Z) : result Empty_set Z :=
  if core_id <? total_cores p then
    match lapic_ids p !! Z.to_nat core_id with Some l => Ok l | None => Panic end
  else Panic.

(** ** The process manager *)

Definition MAX_PRIORITY : Z := 8.
Definition RFLAGS_DEFAULT : Z := 0x202.
Definition ARCHE_PID : Z := 0.
Definition FD_FLAG_READ : Z := 1.
Definition FD_FLAG_WRITE : Z := 2.

Inductive ProcessState : Type := PReady | PRunning | PWaiting | PTerminated.

#[export] Instance process_state_eq : EqDecision ProcessState.
Proof. solve_decision. Defined.

Record ProcessResources : Type := mkResources {
  memory_limit : Z;
  memory_used : Z;
  cpu_time_slice : Z;
}.

Definition default_resources : ProcessResources := mkResources 0 0 0.

Record FileDescriptor : Type := mkFd {
  fd_node : Z;
  fd_flags : Z;
}.

Record Process : Type := mkProcess {
  p_pid : Z;
  p_parent : Z;
  p_priority : Z;
  p_state : ProcessState;
  p_name : list Z;
  p_children : list Z;
  p_files : list FileDescriptor;
  p_resources : ProcessResources;
  p_exit_code : option Z;
  p_is_out : bool;
  p_layout : ProcessMemoryLayout;
}.

Inductive ProcessError : Type :=
  | ProcessNotFound
  | ParentNotFound
  | DoubleDelete
  | NoCoresAvailable
  | SchedulerError
  | OutOfTaskSlots.

Record ProcessManager : Type := mkManager {
  processes : list Process;
  new_pid : Z;
}.

(** The first frame of a task, as [iretq] pops it; the other registers are zero. *)
Record TrapFrame : Type := mkFrame {
  rip : Z;
  cs : Z;
  rflags : Z;
  rsp : Z;
  ss : Z;
}.

Record Kernel (T : Type) : Type := mkKernel {
  manager : ProcessManager;
  machine : Machine T;
  sched : Sched;
  stacks : list (Z * TrapFrame);
}.
Arguments mkKernel {T}. Arguments manager {T}. Arguments machine {T}. Arguments sched {T}. Arguments stacks {T}.

Definition set_children (l : list Z) (p : Process) : Process :=
  mkProcess (p_pid p) (p_parent p) (p_priority p) (p_state p) (p_name p) l (p_files p) (p_resources p)
    (p_exit_code p) (p_is_out p) (p_layout p).
Definition set_parent (pid : Z) (p : Process) : Process :=
  mkProcess (p_pid p) pid (p_priority p) (p_state p) (p_name p) (p_children p) (p_files p) (p_resources p)
    (p_exit_code p) (p_is_out p) (p_layout p).
Definition set_files (l : list FileDescriptor) (p : Process) : Process :=
  mkProcess (p_pid p) (p_parent p) (p_priority p) (p_state p) (p_name p) (p_children p) l (p_resources p)
    (p_exit_code p) (p_is_out p) (p_layout p).
Definition set_layout (m : ProcessMemoryLayout) (p : Process) : Process :=
  mkProcess (p_pid p) (p_parent p) (p_priority p) (p_state p) (p_name p) (p_children p) (p_files p)
    (p_resources p) (p_exit_code p) (p_is_out p) m.
Definition set_terminated (code : Z) (p : Process) : Process :=
  mkProcess (p_pid p) (p_parent p) (p_priority p) PTerminated (p_name p) (p_children p) (p_files p)
    (p_resources p) (Some code) (p_is_out p) (p_layout p).

Section processes.
Context (USABLE : Z) {VA : VirtAddrApi} {PF : PageFlags} {T : Type} {PM : PageMapper USABLE T} {TW : TableWrites T}.
Variables (task_stack_top : Z -> Z) (USER_CODE_SELECTOR_VALUE USER_DATA_SELECTOR_VALUE : Z).

Abbreviation KM := (stM (Kernel T) ProcessError).

(** Calls on one part of the kernel. *)
Definition on_pm {A} (f : ProcessManager -> A * ProcessManager) : KM A := fun k =>
  let '(a, pm) := f (manager k) in (Ok a, mkKernel pm (machine k) (sched k) (stacks k)).

Definition on_memory {A} (c : stM (Machine T) MapToError A) : KM A := fun k =>
  let '(r, m) := c (machine k) in
  (match r with
   | Ok a => Ok a
   | Err _ => Err SchedulerError
   | Panic => Panic
   | OutOfFuel => OutOfFuel
   end, mkKernel (manager k) m (sched k) (stacks k)).

Definition on_scheduler {A} (c : stM Sched Empty_set A) : KM A := fun k =>
  let '(r, s) := c (sched k) in
  (match r with
   | Ok a => Ok a
   | Err e => match (e : Empty_set) with end
   | Panic => Panic
   | OutOfFuel => OutOfFuel
   end, mkKernel (manager k) (machine k) s (stacks k)).

(** [processes.iter().find(|p| p.pid == pid)] *)
Fixpoint find_process (pid : Z) (l : list Process) : option Process :=
  match l with
  | [] => None
  | p :: l => if p_pid p =? pid then Some p else find_process pid l
  end.

(** A change through the reference [find] returns. *)
Fixpoint update_process (pid : Z) (f : Process -> Process) (l : list Process) : list Process :=
  match l with
  | [] => []
  | p :: l => if p_pid p =? pid then f p :: l else p :: update_process pid f l
  end.

Definition get_process (pid : Z) : KM Process := fun k =>
  if pid =? INVALID_PID then (Panic, k) else
  match find_process pid (processes (manager k)) with
  | Some p => (Ok p, k)
  | None => (Err ProcessNotFound, k)
  end.

Definition change_process (pid : Z) (f : Process -> Process) : KM unit :=
  on_pm (fun pm => (tt, mkManager (update_process pid f (processes pm)) (new_pid pm))).

Definition arche : Process :=
  mkProcess ARCHE_PID ARCHE_PID MAX_PRIORITY PReady [] [] [] (mkResources U64_MAX 0 0) None true
    (mkLayout 0 PROCESS_HEAP_VIRT_START PROCESS_USER_VADDR_ALLOC_START []).

(** [ProcessManager::new] and [init_arche] *)
Definition manager_start : ProcessManager := mkManager [arche] 1.

(** The search for the core with the fewest queued tasks. *)
Fixpoint pick_core (cores : list Z) (best_core best_count : Z) : SM Z :=
  match cores with
  | [] => sret best_core
  | c :: cores =>
      let! queued := core_runnable_tasks_count c in
      if queued <? best_count then pick_core cores c queued else pick_core cores best_core best_count
  end.

(** [init_task_stack] *)
Definition init_task_stack (slot_index user_rip user_rsp : Z) : KM unit :=
  let! task := on_scheduler (on_slots (slot slot_index)) in
  sassert (kernel_stack_top task mod 16 =? 0) ;;;
  fun k => (Ok tt, mkKernel (manager k) (machine k) (sched k)
    ((slot_index, mkFrame user_rip USER_CODE_SELECTOR_VALUE RFLAGS_DEFAULT user_rsp USER_DATA_SELECTOR_VALUE) :: stacks k)).

(** [get_process(..).map_err(..)] *)
Definition caught_as {A} (e : ProcessError) (c : KM A) : KM A := fun k =>
  match c k with
  | (Err _, k) => (Err e, k)
  | r => r
  end.

Definition create_process_from_elf (me total_cores kernel_page_table_phys : Z) (shared : list SharedRegion)
    (parent_pid : Z) (elf_info : ElfLoadInfo) (name : list Z) (priority : Z) : KM Z :=
  caught_as ParentNotFound (get_process parent_pid) ;;;
  let! pid := on_pm (fun pm => (new_pid pm, pm)) in
  let! next := slift (uadd pid 1) in
  on_pm (fun pm => (tt, mkManager (processes pm) next)) ;;;
  let! core_id := on_scheduler (pick_core (seqZ 1 (total_cores - 1)) 1 U64_MAX) in
  let! layout := on_memory (create_with_elf USABLE kernel_page_table_phys shared elf_info) in
  let process := mkProcess pid parent_pid priority PReady name [] [] default_resources None true layout in
  let! slot_index := on_scheduler (on_slots
    (allocate_task_slot task_stack_top pid priority core_id (top_page_table_phys layout))) in
  match slot_index with
  | None =>
      on_memory (fun m => let '(r, (_, m)) := free_address_space USABLE (layout, m) in (r, m)) ;;;
      serr OutOfTaskSlots
  | Some slot_index =>
      init_task_stack slot_index (entry_point elf_info) USER_STACK_TOP ;;;
      on_pm (fun pm => (tt, mkManager (processes pm ++ [process]) (new_pid pm))) ;;;
      on_scheduler (start_task me core_id slot_index priority) ;;;
      sret pid
  end.

(** Asks the tasks of all children to end. *)
Fixpoint kill_children (me exit_code : Z) (children : list Z) : KM unit :=
  match children with
  | [] => sret tt
  | child_pid :: children =>
      on_scheduler (request_kill me child_pid exit_code) ;;;
      kill_children me exit_code children
  end.

(** Gives the children to arche. *)
Fixpoint reparent_children (children : list Z) : KM unit :=
  match children with
  | [] => sret tt
  | child_pid :: children =>
      (if child_pid =? INVALID_PID then spanic else change_process child_pid (set_parent ARCHE_PID)) ;;;
      change_process ARCHE_PID (fun p => set_children (p_children p ++ [child_pid]) p) ;;;
      reparent_children children
  end.

Definition terminate_process (me pid exit_code : Z) (cascade : bool) : KM unit :=
  if pid =? INVALID_PID then serr DoubleDelete else
  let! process := get_process pid in
  change_process pid (set_terminated exit_code) ;;;
  (if negb (top_page_table_phys (p_layout process) =? 0) then
     on_memory (fun m => let '(r, (_, m)) := free_address_space USABLE (p_layout process, m) in (r, m)) ;;;
     change_process pid (fun p =>
       let l := p_layout p in set_layout (mkLayout 0 (heap_end l) (next_alloc_vaddr l) []) p)
   else sret tt) ;;;
  if cascade then kill_children me exit_code (p_children process)
  else reparent_children (p_children process).

(** [Vec::retain] *)
Definition cleanup_dead : KM unit :=
  on_pm (fun pm => (tt, mkManager
    (filter (fun p => p_state p <> PTerminated) (processes pm)) (new_pid pm))).

Definition process_count (k : Kernel T) : Z := zlen (processes (manager k)).

End processes.
