(* ===== verification/ProcessesSpec.v ===== *)
(** * ProcessesSpec: what the process manager keeps

    Pids are never reused, a terminated process has no memory left and is freed once,
    whatever the outcomes of the calls; and nobody ever becomes a child. *)

From Stdlib Require Import ZArith Lia.
From stdpp Require Import base tactics list option numbers relations.
From S2P Require Import Prelude Tasks RunQueue Scheduler FrameAlloc Regions UserMem ProcessMem AddressSpace FlatTables ProcessLife Elf ElfLoad Processes.

Open Scope rust_scope.

(** ** The core pool *)

Lemma set_cores_run cpus n : forall i p, (i + n <= length cpus)%nat -> length (lapic_ids p) = 4%nat ->
  LAPIC_ID_OF_CORE p = lapic_ids p -> lapic_ids p = take i cpus ++ replicate (4 - i) 0 -> (i <= 4)%nat ->
  let c := set_cores cpus (seqZ (Z.of_nat i) (Z.of_nat n)) p in
  if decide (i + n <= 4)%nat then
    let ids := take (i + n) cpus ++ replicate (4 - (i + n)) 0 in
    c = (Ok tt, mkPool (total_cores p) ids (TOTAL_CORE_COUNT p) ids)
  else c.1 = Panic.
Proof.
  induction n as [|n IH]; intros i p Hn Hlen Heq Hids Hi.
  - rewrite seqZ_nil by lia. rewrite Nat.add_0_r, decide_True by done. cbn. rewrite <- Hids. destruct p; cbn in *.
    by subst.
  - rewrite seqZ_cons by lia. replace (Z.pred (Z.of_nat (S n))) with (Z.of_nat n) by lia.
    replace (Z.succ (Z.of_nat i)) with (Z.of_nat (S i)) by lia.
    cbn [set_cores]. cbn zeta. unfold sbind, set_core. rewrite Nat2Z.id.
    destruct (lookup_lt_is_Some_2 cpus i) as [l El]; [lia|]. rewrite El. rewrite Hlen.
    destruct (decide (Z.of_nat i < Z.of_nat 4)) as [Hlt|Hge]; [|by rewrite decide_False by lia].
    match goal with |- context [set_cores _ _ ?q] => specialize (IH (S i) q) end.
    replace (S i + n)%nat with (i + S n)%nat in IH by lia. apply IH; cbn [lapic_ids LAPIC_ID_OF_CORE].
    + lia.
    + by rewrite length_insert.
    + by rewrite Heq.
    + rewrite Hids, (take_S_r _ _ _ El), insert_app_r_alt by (rewrite length_take; lia).
      rewrite length_take_le, Nat.sub_diag by lia. replace (4 - i)%nat with (S (4 - S i)) by lia. cbn.
      by rewrite <- app_assoc.
    + lia.
Qed.

(** What the pool holds for up to four processors; with more of them the kernel panics,
    although the code means to go on with four. *)
Theorem core_pool_init core_count cpus : 0 <= core_count <= U8_MAX -> zlen cpus = core_count ->
  let '(r, p) := init_with_core_count core_count cpus pool_new in
  if decide (core_count = 0) then r = Ok tt /\ p = pool_new else
  if decide (core_count <= MAX_CORES) then
    r = Ok tt /\ total_cores p = core_count /\ TOTAL_CORE_COUNT p = core_count /\ LAPIC_ID_OF_CORE p = lapic_ids p /\
    forall c l, cpus !! Z.to_nat c = Some l -> 0 <= c -> lapic_id_of_core p c = Ok l
  else r = Panic.
Proof.
  intros Hc Hl. unfold init_with_core_count. destruct (Z.eqb_spec core_count 0) as [->|Hne]; [by cbn|].
  destruct (decide (core_count = 0)); [done|]. unfold sbind. cbn [total_cores lapic_ids TOTAL_CORE_COUNT LAPIC_ID_OF_CORE].
  match goal with |- context [set_cores _ _ ?q] =>
    assert (Hq : q = mkPool core_count (per_core 0) core_count (per_core 0)) by (by destruct (MAX_CORES <? core_count));
    rewrite Hq; clear Hq end.
  rewrite <- Hl in *. change (seqZ 0) with (seqZ (Z.of_nat 0)).
  match goal with |- context [set_cores _ _ ?q] => pose proof (set_cores_run cpus (length cpus) 0 q) as Hrun end.
  cbn [Nat.add] in Hrun. specialize (Hrun (le_n _) eq_refl eq_refl eq_refl (Nat.le_0_l _)). revert Hrun.
  unfold MAX_CORES. destruct (decide (length cpus <= 4)%nat) as [Hd|Hd], (decide (zlen cpus <= 4)); try lia; cbn zeta.
  - intros ->. split_and!; try done. intros c x El H0c. unfold lapic_id_of_core.
    pose proof (lookup_lt_Some _ _ _ El) as Hlt. cbn [total_cores lapic_ids].
    rewrite (proj2 (Z.ltb_lt _ _)) by lia. rewrite take_ge by lia. by rewrite lookup_app_l, El by lia.
  - destruct (set_cores _ _ _). by intros [= ->].
Qed.

(** ** The table of processes *)

(** A process that is over has no address space. *)
Definition released (p : Process) : Prop :=
  p_state p = PTerminated -> top_page_table_phys (p_layout p) = 0.

Record manager_ok (pm : ProcessManager) : Prop := {
  mk_pids : NoDup (p_pid <$> processes pm);
  mk_below : Forall (fun p => 0 <= p_pid p < new_pid pm) (processes pm);
  mk_positive : 1 <= new_pid pm;
  mk_children : Forall (fun p => p_children p = []) (processes pm);
  mk_released : Forall released (processes pm);
}.

Lemma find_process_in pid l p : find_process pid l = Some p -> p ∈ l /\ p_pid p = pid.
Proof.
  induction l as [|q l IH]; [done|]. cbn. destruct (Z.eqb_spec (p_pid q) pid).
  - intros [= <-]. split; [apply list_elem_of_here|done].
  - intros [Hp E]%IH. split; [apply elem_of_cons; by right|done].
Qed.

Lemma update_pids pid f l : (forall p, p_pid (f p) = p_pid p) -> p_pid <$> update_process pid f l = p_pid <$> l.
Proof.
  intros Hf. induction l as [|q l IH]; [done|]. cbn. destruct (p_pid q =? pid); cbn; [by rewrite Hf|by rewrite IH].
Qed.

Lemma update_Forall (P : Process -> Prop) pid f l : Forall P l -> (forall p, P p -> P (f p)) -> Forall P (update_process pid f l).
Proof.
  intros Hl Hf. induction Hl as [|q l Hq Hl IH]; cbn; [constructor|]. destruct (p_pid q =? pid); constructor; auto.
Qed.

Lemma update_find pid f l q : (forall p, p_pid (f p) = p_pid p) ->
  find_process q (update_process pid f l) = if decide (q = pid) then f <$> find_process q l else find_process q l.
Proof.
  intros Hf. induction l as [|p l IH]; cbn; [by case_decide|]. destruct (Z.eqb_spec (p_pid p) pid) as [E|E]; cbn.
  - rewrite Hf. destruct (Z.eqb_spec (p_pid p) q) as [E'|E'].
    + by rewrite decide_True by congruence.
    + by rewrite decide_False by congruence.
  - destruct (Z.eqb_spec (p_pid p) q) as [E'|E']; [by rewrite decide_False by congruence|done].
Qed.

(** A process that is already over, changed again. *)
Lemma update_update pid f g l : (forall p, p_pid (f p) = p_pid p) ->
  update_process pid g (update_process pid f l) = update_process pid (fun p => g (f p)) l.
Proof.
  intros Hf. induction l as [|p l IH]; [done|]. cbn. destruct (Z.eqb_spec (p_pid p) pid) as [E|E]; cbn.
  - by rewrite Hf, E, Z.eqb_refl.
  - rewrite (proj2 (Z.eqb_neq _ _)) by done. by rewrite IH.
Qed.

Lemma update_ext pid f g l p : find_process pid l = Some p -> f p = g p -> update_process pid f l = update_process pid g l.
Proof.
  induction l as [|q l IH]; [done|]. cbn. destruct (p_pid q =? pid); [intros [= ->] ->; done|].
  intros Hf He. by rewrite IH.
Qed.

Section spec.
Context (USABLE : Z) {VA : VirtAddrApi} {PF : PageFlags} {T : Type} {PM : PageMapper USABLE T} {TW : TableWrites T}.
Variables (task_stack_top : Z -> Z) (CODE DATA : Z).

Abbreviation create := (create_process_from_elf USABLE task_stack_top CODE DATA).
Abbreviation terminate := (terminate_process USABLE (T:=T)).

(** Calls that do not touch the table of processes. *)
Definition same_manager {A} (c : stM (Kernel T) ProcessError A) : Prop :=
  forall k r k', c k = (r, k') -> manager k' = manager k.

Lemma same_memory {A} (c : stM (Machine T) MapToError A) : same_manager (on_memory c).
Proof. intros k r k'. unfold on_memory. destruct (c (machine k)) as [x m]. by intros [= _ <-]. Qed.

Lemma same_scheduler {A} (c : stM Sched Empty_set A) : same_manager (on_scheduler (T:=T) c).
Proof. intros k r k'. unfold on_scheduler. destruct (c (sched k)) as [x s]. by intros [= _ <-]. Qed.

Lemma same_bind {A B} (c : stM (Kernel T) ProcessError A) (f : A -> stM (Kernel T) ProcessError B) :
  same_manager c -> (forall a, same_manager (f a)) -> same_manager (sbind c f).
Proof.
  intros Hc Hf k r k'. unfold sbind. destruct (c k) as [x k1] eqn:E. pose proof (Hc _ _ _ E) as E1.
  destruct x; [intros E2; rewrite <- E1; by eapply Hf|intros [= _ <-]; done..].
Qed.

Lemma same_stack i a b : same_manager (init_task_stack (T:=T) CODE DATA i a b).
Proof.
  unfold init_task_stack. apply same_bind; [apply same_scheduler|]. intros t.
  apply same_bind; [|intros _ k r k' [= _ <-]; done].
  intros k r k'. unfold sassert. by destruct (_ =? _); intros [= _ <-].
Qed.

(** What creating a process does to the table. *)
Lemma create_table me cores ktop shared parent elf name prio k r k' :
  create me cores ktop shared parent elf name prio k = (r, k') ->
  manager k' = manager k \/
  exists next, next = new_pid (manager k) + 1 /\
    (manager k' = mkManager (processes (manager k)) next \/
     exists layout, manager k' = mkManager (processes (manager k) ++
       [mkProcess (new_pid (manager k)) parent prio PReady name [] [] default_resources None true layout]) next).
Proof.
  unfold create_process_from_elf. unfold sbind at 1, caught_as at 1, get_process.
  destruct (parent =? INVALID_PID); [intros [= _ <-]; by left|].
  destruct (find_process parent _); [|intros [= _ <-]; by left].
  unfold sbind at 1, on_pm at 1. destruct k as [pm m s st]. cbn [manager machine sched stacks].
  unfold sbind at 1, slift at 1, uadd at 1. destruct (new_pid pm + 1 <? 2 ^ 64); [|intros [= _ <-]; by left].
  unfold sbind at 1, on_pm at 1. cbn [manager machine sched stacks]. set (k1 := mkKernel _ _ _ _). intros E.
  right. exists (new_pid pm + 1). split; [done|]. revert E.
  change (mkManager (processes pm) (new_pid pm + 1)) with (manager k1).
  assert (Hk1 : manager k1 = mkManager (processes pm) (new_pid pm + 1)) by done. revert Hk1. generalize k1 as ka. clear k1.
  intros ka Hka. unfold sbind at 1. destruct (on_scheduler _ ka) as [c kb] eqn:Eb. pose proof (same_scheduler _ _ _ _ Eb) as Hkb.
  destruct c as [c|e| |]; [|intros [= _ <-]; left; congruence..].
  unfold sbind at 1. destruct (on_memory _ kb) as [layout kc] eqn:Ec. pose proof (same_memory _ _ _ _ Ec) as Hkc.
  destruct layout as [layout|e| |]; [|intros [= _ <-]; left; congruence..].
  unfold sbind at 1. destruct (on_scheduler _ kc) as [i kd] eqn:Ed. pose proof (same_scheduler _ _ _ _ Ed) as Hkd.
  destruct i as [[i|]|e| |]; [| |intros [= _ <-]; left; congruence..].
  - unfold sbind at 1. destruct (init_task_stack _ _ i _ _ kd) as [x ke] eqn:Ee. pose proof (same_stack _ _ _ _ _ _ Ee) as Hke.
    destruct x; [|intros [= _ <-]; left; congruence..]. unfold sbind at 1, on_pm at 1.
    unfold sbind at 1. match goal with |- context [on_scheduler ?c ?k] => destruct (on_scheduler c k) as [y kf] eqn:Ef end.
    pose proof (same_scheduler _ _ _ _ Ef) as Hkf. cbn [manager] in Hkf. intros E. right. exists layout.
    assert (Hk' : manager k' = manager kf) by (by destruct y; injection E as _ <-).
    rewrite Hk', Hkf, Hke, Hkd, Hkc, Hkb, Hka. done.
  - intros E. left. revert E. unfold sbind at 1. destruct (on_memory _ kd) as [x ke] eqn:Ee.
    pose proof (same_memory _ _ _ _ Ee) as Hke. destruct x; intros [= _ <-]; congruence.
Qed.

Lemma created_ok pm p : manager_ok pm -> p_pid p = new_pid pm -> p_children p = [] -> released p ->
  manager_ok (mkManager (processes pm ++ [p]) (new_pid pm + 1)).
Proof.
  intros [Hn Hb Hp Hc Hr] Ep Ec Er. split; cbn.
  - rewrite fmap_app. apply list.NoDup_app. split; [done|]. split; [|apply NoDup_singleton].
    intros i Hi ->%list_elem_of_singleton. apply list_elem_of_fmap in Hi as (q & Eq & Hq).
    rewrite list.Forall_forall in Hb. specialize (Hb q Hq). lia.
  - apply Forall_app. split; [revert Hb; apply List.Forall_impl; intros; lia|]. constructor; [lia|constructor].
  - lia.
  - apply Forall_app. split; [done|]. by constructor.
  - apply Forall_app. split; [done|]. by constructor.
Qed.

Lemma more_pids pm n : manager_ok pm -> new_pid pm <= n -> manager_ok (mkManager (processes pm) n).
Proof. intros [? Hb ? ? ?] Hn. split; cbn; try done; [|lia]. revert Hb. apply List.Forall_impl. intros. lia. Qed.

(** What ending a process that has no children does. *)
Definition ended (pid code : Z) (p : Process) : Process :=
  set_layout (if top_page_table_phys (p_layout p) =? 0 then p_layout p
    else mkLayout 0 (heap_end (p_layout p)) (next_alloc_vaddr (p_layout p)) []) (set_terminated code p).

Lemma terminate_table me pid code cascade k p : manager_ok (manager k) -> pid <> INVALID_PID ->
  find_process pid (processes (manager k)) = Some p ->
  exists r k', terminate me pid code cascade k = (r, k') /\ sched k' = sched k /\ stacks k' = stacks k /\
    (top_page_table_phys (p_layout p) = 0 -> r = Ok tt /\ machine k' = machine k) /\
    (top_page_table_phys (p_layout p) <> 0 ->
      machine k' = (free_address_space USABLE (p_layout p, machine k)).2.2) /\
    (r = Ok tt ->
      manager k' = mkManager (update_process pid (ended pid code) (processes (manager k))) (new_pid (manager k))).
Proof.
  intros Hok Hne Hf. destruct k as [pm m sc st]. cbn [manager machine sched stacks] in *.
  pose proof (find_process_in _ _ _ Hf) as [Hin Hpid].
  assert (Hnil : p_children p = []) by (by pose proof (mk_children _ Hok) as Hc; rewrite list.Forall_forall in Hc; auto).
  unfold terminate_process. rewrite (proj2 (Z.eqb_neq _ _)) by done. unfold sbind at 1, get_process at 1.
  rewrite (proj2 (Z.eqb_neq _ _)) by done. cbn [manager processes]. rewrite Hf, Hnil. cbn [kill_children reparent_children].
  unfold sbind at 1, change_process at 1, on_pm at 1. cbn [manager machine sched stacks processes new_pid].
  assert (Hlast : (if cascade then sret tt else sret tt : stM (Kernel T) ProcessError unit) = sret tt) by (by destruct cascade).
  rewrite Hlast. unfold sbind at 1. destruct (Z.eqb_spec (top_page_table_phys (p_layout p)) 0) as [Hz|Hz]; cbn [negb].
  - eexists _, _. split; [done|]. cbn [sched stacks machine manager]. split_and!; try done. intros _. f_equal.
    apply (update_ext _ _ _ _ p Hf). unfold ended. rewrite Hz, Z.eqb_refl. by destruct p.
  - unfold sbind at 1, on_memory at 1. cbn [machine].
    destruct (free_address_space USABLE (p_layout p, m)) as [x [l m']]. cbn [snd].
    destruct x; (eexists _, _; split; [done|]; cbn [sched stacks machine manager]; split_and!; try done).
    intros _. cbn [processes new_pid]. f_equal. rewrite update_update by done. apply (update_ext _ _ _ _ p Hf).
    unfold ended. by rewrite (proj2 (Z.eqb_neq _ _)).
Qed.

(** *** Runs of the manager *)

Inductive manager_step : Kernel T -> Kernel T -> Prop :=
  | step_create k me cores ktop shared parent elf name prio r k' :
      create me cores ktop shared parent elf name prio k = (r, k') -> manager_step k k'
  | step_terminate k me pid code cascade k' :
      terminate me pid code cascade k = (Ok tt, k') -> manager_step k k'
  | step_cleanup k k' : cleanup_dead k = (Ok tt, k') -> manager_step k k'
  | step_other k m s st : manager_step k (mkKernel (manager k) m s st).

Lemma ended_ok pid code p : released (ended pid code p).
Proof. intros _. unfold ended. cbn. by destruct (Z.eqb_spec (top_page_table_phys (p_layout p)) 0). Qed.

Lemma change_ok pm pid f : manager_ok pm -> (forall p, p_pid (f p) = p_pid p) ->
  (forall p, p_children (f p) = p_children p) -> (forall p, released p -> released (f p)) ->
  manager_ok (mkManager (update_process pid f (processes pm)) (new_pid pm)).
Proof.
  intros [Hn Hb Hp Hc Hr] Hf Hfc Hfr. split; cbn.
  - by rewrite update_pids.
  - apply update_Forall; [done|]. intros q. by rewrite Hf.
  - done.
  - apply update_Forall; [done|]. intros q. by rewrite Hfc.
  - by apply update_Forall.
Qed.

Lemma terminate_none me pid code cascade (k : Kernel T) r k' : find_process pid (processes (manager k)) = None ->
  terminate me pid code cascade k = (r, k') -> r <> Ok tt.
Proof.
  intros Hf. unfold terminate_process. destruct (pid =? INVALID_PID) eqn:E; [by intros [= <- _]|].
  unfold sbind at 1, get_process. rewrite E, Hf. by intros [= <- _].
Qed.

Lemma filter_pids (P : Process -> Prop) `{forall p, Decision (P p)} l : NoDup (p_pid <$> l) -> NoDup (p_pid <$> filter P l).
Proof.
  induction l as [|q l IH]; [done|]. rewrite fmap_cons, NoDup_cons. intros [Hq Hl]. rewrite filter_cons.
  case_decide; [|auto]. rewrite fmap_cons, NoDup_cons. split; [|auto]. intros (r & Er & Hr)%list_elem_of_fmap.
  apply Hq, list_elem_of_fmap. exists r. split; [done|]. by apply list_elem_of_filter in Hr as [_ Hr].
Qed.

Lemma filter_Forall (P Q : Process -> Prop) `{forall p, Decision (P p)} l : Forall Q l -> Forall Q (filter P l).
Proof. rewrite !list.Forall_forall. intros Hl p [_ Hp]%list_elem_of_filter. auto. Qed.

Lemma manager_step_ok k k' : manager_step k k' -> manager_ok (manager k) -> manager_ok (manager k').
Proof.
  intros Hs Hok. destruct Hs as [k me cores ktop shared parent elf name prio r k' E|k me pid code cascade k' E|k k' E|k m s st].
  - destruct (create_table _ _ _ _ _ _ _ _ _ _ _ E) as [->|(n & -> & [->|[layout ->]])]; [done| |].
    + apply more_pids; [done|lia].
    + by apply created_ok.
  - destruct (decide (pid = INVALID_PID)) as [->|Hne]; [by unfold terminate_process in E|].
    destruct (find_process pid (processes (manager k))) as [p|] eqn:Hf; [|by destruct (terminate_none _ _ _ _ _ _ _ Hf E)].
    destruct (terminate_table me pid code cascade k p Hok Hne Hf) as (r & k2 & E2 & _ & _ & _ & _ & Hm).
    rewrite E in E2. injection E2 as <- <-. rewrite Hm by done. apply change_ok; try done. intros q _. apply ended_ok.
  - unfold cleanup_dead, on_pm in E. injection E as <-. cbn [manager]. destruct Hok as [Hn Hb Hp Hc Hr]. split; cbn.
    + by apply filter_pids.
    + by apply filter_Forall.
    + done.
    + by apply filter_Forall.
    + by apply filter_Forall.
  - done.
Qed.

Lemma manager_start_ok : manager_ok manager_start.
Proof.
  split; cbn; try lia; repeat constructor; cbn; try lia; try done.
  intros Hin. by apply elem_of_nil in Hin.
Qed.

(** Along any run of the process manager pids stay unique and are never given out
    again, and every process that is over has given up its address space. *)
Theorem process_table_invariant m sc st k : rtc manager_step (mkKernel manager_start m sc st) k ->
  NoDup (p_pid <$> processes (manager k)) /\
  Forall (fun p => 0 <= p_pid p < new_pid (manager k)) (processes (manager k)) /\
  Forall released (processes (manager k)).
Proof.
  intros Hr. enough (H : manager_ok (manager k)) by (split; [apply H|split; apply H]).
  revert Hr. generalize (manager_start_ok : manager_ok (manager (mkKernel manager_start m sc st))).
  intros H0 Hr. induction Hr as [|a b c Hab _ IH]; [done|]. by eapply IH, manager_step_ok.
Qed.

(** C18: ending a process that exists frees its address space exactly when it still has
    one, so that ending it again frees nothing; and it asks no other task to end, with
    [cascade] as well, since no process is ever recorded as a child. *)
Theorem terminate_frees_once m sc st k me pid code cascade p :
  rtc manager_step (mkKernel manager_start m sc st) k -> pid <> INVALID_PID ->
  find_process pid (processes (manager k)) = Some p ->
  exists r k', terminate me pid code cascade k = (r, k') /\ sched k' = sched k /\
    machine k' = (if top_page_table_phys (p_layout p) =? 0 then machine k
      else (free_address_space USABLE (p_layout p, machine k)).2.2) /\
    (r = Ok tt -> exists p', find_process pid (processes (manager k')) = Some p' /\
      p_state p' = PTerminated /\ p_exit_code p' = Some code /\ top_page_table_phys (p_layout p') = 0 /\
      forall me2 code2 cascade2, exists k2, terminate me2 pid code2 cascade2 k' = (Ok tt, k2) /\ machine k2 = machine k').
Proof.
  intros Hr Hne Hf. assert (Hok : manager_ok (manager k)).
  { revert Hr. generalize (manager_start_ok : manager_ok (manager (mkKernel manager_start m sc st))).
    intros H0 Hr. induction Hr as [|a b c Hab _ IH]; [done|]. by eapply IH, manager_step_ok. }
  destruct (terminate_table me pid code cascade k p Hok Hne Hf) as (r & k' & E & Es & _ & Hz & Hnz & Hm).
  exists r, k'. split; [done|]. split; [done|]. split.
  { destruct (Z.eqb_spec (top_page_table_phys (p_layout p)) 0) as [Ez|Ez]; [by apply Hz|by apply Hnz]. }
  intros ->. specialize (Hm eq_refl). assert (Hok' : manager_ok (manager k')).
  { rewrite Hm. apply change_ok; try done. intros q _. apply ended_ok. }
  assert (Hf' : find_process pid (processes (manager k')) = Some (ended pid code p)).
  { rewrite Hm. cbn [processes]. by rewrite update_find, decide_True, Hf. }
  assert (Ht : top_page_table_phys (p_layout (ended pid code p)) = 0) by (by apply (ended_ok pid code p)).
  exists (ended pid code p). split_and!; try done. intros me2 code2 cascade2.
  destruct (terminate_table me2 pid code2 cascade2 k' _ Hok' Hne Hf') as (r2 & k2 & E2 & _ & _ & Hz2 & _).
  destruct (Hz2 Ht) as [-> Hm2]. by exists k2.
Qed.

End spec.

(** ** A process created and ended twice *)

Definition demo_kernel : Kernel FlatTables :=
  mkKernel manager_start (mkMachine ∅ (init [mkEntry 4096 0x800000 0]) (fun _ => 7)) sched_new [].

Definition demo_elf : ElfLoadInfo := mkLoadInfo 4096 4096 9010
  [mkSegment 4096 5 6 7 [1; 2; 4; 5; 6]; mkSegment 9000 2 10 4 [7; 8]].

Definition demo_created : result ProcessError Z * Kernel FlatTables :=
  create_process_from_elf 0 (fun slot => (slot + 1) * 16384) 51 43 0 2 0 [] ARCHE_PID demo_elf [] 3 demo_kernel.

(** The creator does not learn of its child, the scheduler has its task, and the first frame
    of the task starts the program. *)
Example demo_created_ok :
  demo_created.1 = Ok 1 /\ (p_children <$> processes (manager demo_created.2)) = [[]; []] /\
  (rip <$> (stacks demo_created.2).*2) = [4096].
Proof. vm_compute. repeat split; reflexivity. Qed.

(** On a machine with one core the search settles on core 1, which is not there. *)
Example one_core_machine :
  (create_process_from_elf 0 (fun slot => (slot + 1) * 16384) 51 43 0 1 0 [] ARCHE_PID demo_elf [] 3 demo_kernel).1 = Ok 1.
Proof. vm_compute. reflexivity. Qed.

Lemma demo_reached : rtc (manager_step 0 (fun slot => (slot + 1) * 16384) 51 43) demo_kernel demo_created.2.
Proof. apply rtc_once. eapply step_create. apply surjective_pairing. Qed.

Lemma process_table_invariant_witness :
  (p_pid <$> processes (manager demo_created.2)) = [0; 1] /\ NoDup (p_pid <$> processes (manager demo_created.2)).
Proof.
  split; [vm_compute; reflexivity|].
  apply (process_table_invariant 0 (fun slot => (slot + 1) * 16384) 51 43 _ _ _ demo_created.2 demo_reached).
Defined.

Lemma terminate_frees_once_witness :
  exists p r k', find_process 1 (processes (manager demo_created.2)) = Some p /\ top_page_table_phys (p_layout p) = 4096 /\
    terminate_process 0 1 1 9 true demo_created.2 = (r, k') /\ sched k' = sched demo_created.2 /\
    machine k' = (free_address_space 0 (p_layout p, machine demo_created.2)).2.2.
Proof.
  destruct (find_process 1 (processes (manager demo_created.2))) as [p|] eqn:Ep; [|vm_compute in Ep; discriminate].
  assert (Ef : top_page_table_phys <$> (p_layout <$> find_process 1 (processes (manager demo_created.2))) = Some 4096)
    by (vm_compute; reflexivity).
  rewrite Ep in Ef. injection Ef as Ef.
  destruct (terminate_frees_once 0 (fun slot => (slot + 1) * 16384) 51 43 _ _ _ demo_created.2 1 1 9 true p demo_reached)
    as (r & k' & E & Es & Em & _); [vm_compute; discriminate|exact Ep|].
  rewrite Ef in Em. exists p, r, k'. split; [done|]. split; [exact Ef|]. split; [exact E|]. split; [exact Es|exact Em].
Defined.
