(* ===== verification/Surface.v ===== *)
(** * Surface: pixels, rectangles and window buffers, kernel/src/graphics/

    The pixel formats of color.rs, the frame buffer of framebuffer.rs, the rectangles and
    double buffers of window.rs, and the drawing half of compositor.rs: the cursor and
    [compose].  Pixel memory is a list of 32-bit words; a raw access outside of it, or one
    that is not aligned, is the error [BadAccess].  The formats of floats are in
    Shading.v. *)

From Stdlib Require Import ZArith Lia.
From stdpp Require Import base tactics list option numbers.
From S2P Require Import Prelude.

Open Scope rust_scope.

Definition FRAMEBUFFER_BYTES_PER_PIXEL : Z := 4.
Definition CURSOR_COLOR_XRGB : Z := 0xFFAAAAFF.
Definition CLEAR_COLOR_XRGB : Z := 0xFF000000.
Definition CURSOR_SIZE_X : Z := 3.
Definition CURSOR_SIZE_Y : Z := 10.
Definition INVALID_WINDOW_ID : Z := U32_MAX.

Inductive Fault : Type := BadAccess.

(** Checked arithmetic on [u32] and [i32], and [as i32]. *)
Definition u32 {E} (v : Z) : result E Z := if (0 <=? v) && (v <? 2 ^ 32) then Ok v else Panic.
Definition i32 {E} (v : Z) : result E Z := if (- 2 ^ 31 <=? v) && (v <? 2 ^ 31) then Ok v else Panic.
Definition as_i32 (v : Z) : Z := let y := v mod 2 ^ 32 in if y <? 2 ^ 31 then y else y - 2 ^ 32.

(** ** Colours *)

Record Rgba8888UNORM : Type := mkRgba {
  red : Z;
  green : Z;
  blue : Z;
  alpha : Z;
}.

Definition BLACK : Rgba8888UNORM := mkRgba 0 0 0 255.

Definition from_rgb (r g b : Z) : Rgba8888UNORM := mkRgba r g b 255.

Definition from_u32_rgba8 (rgba : Z) : Rgba8888UNORM :=
  mkRgba (Z.land (Z.shiftr rgba 24) 0xFF) (Z.land (Z.shiftr rgba 16) 0xFF)
    (Z.land (Z.shiftr rgba 8) 0xFF) (Z.land rgba 0xFF).

Definition to_u32_rgba (c : Rgba8888UNORM) : Z :=
  Z.lor (Z.lor (Z.lor (Z.shiftl (red c) 24) (Z.shiftl (green c) 16)) (Z.shiftl (blue c) 8)) (alpha c).

Definition rgba_to_xrgb (c : Rgba8888UNORM) : Z :=
  Z.lor (Z.lor (Z.shiftl (red c) 16) (Z.shiftl (green c) 8)) (blue c).

Definition xrgb_to_rgba (xrgb : Z) : Rgba8888UNORM :=
  mkRgba (Z.land (Z.shiftr xrgb 16) 0xFF) (Z.land (Z.shiftr xrgb 8) 0xFF) (Z.land xrgb 0xFF) 255.

(** ** Raw pixel memory *)

Abbreviation Words := (list Z).

Definition load_word (words : Words) (i : Z) : result Fault Z :=
  if 0 <=? i then match words !! Z.to_nat i with Some v => Ok v | None => Err BadAccess end else Err BadAccess.

Definition store_word (i v : Z) : stM Words Fault unit := fun words =>
  if (0 <=? i) && (i <? zlen words) then (Ok tt, <[Z.to_nat i := v]> words) else (Err BadAccess, words).

(** [copy_nonoverlapping] of [n] words. *)
Definition copy_words (src : Words) (from to n : Z) : stM Words Fault unit := fun words =>
  if (from + n <=? zlen src) && (to + n <=? zlen words)
  then (Ok tt, splice words (Z.to_nat to) (slice src (Z.to_nat from) (Z.to_nat n)))
  else (Err BadAccess, words).

(** The word at a byte offset. *)
Definition word_at (offset : Z) : result Fault Z := if offset mod 4 =? 0 then Ok (offset / 4) else Err BadAccess.

(** [for i in l] *)
Fixpoint each_of (f : Z -> stM Words Fault unit) (l : list Z) : stM Words Fault unit :=
  match l with
  | [] => sret tt
  | i :: l => f i ;;; each_of f l
  end.

(** ** The frame buffer *)

Record FrameBufferTarget : Type := mkTarget {
  fb_width : Z;
  fb_height : Z;
  pitch : Z;
}.

(** [FrameBufferTarget::write_pixel], of a packed colour; the arithmetic is on [u64]. *)
Definition fb_write_pixel (fb : FrameBufferTarget) (x y color : Z) : stM Words Fault unit :=
  if (fb_width fb <=? x) || (fb_height fb <=? y) then sret tt else
  let! at_word := slift (word_at (y * pitch fb + x * FRAMEBUFFER_BYTES_PER_PIXEL)) in
  store_word at_word color.

Definition copy_row (fb : FrameBufferTarget) (src : Words) (dst_y dst_x width : Z) : stM Words Fault unit :=
  if (fb_height fb <=? dst_y) || (fb_width fb <=? dst_x) then sret tt else
  let copy_width := Z.min width (fb_width fb - dst_x) in
  let! at_word := slift (word_at (dst_y * pitch fb + dst_x * FRAMEBUFFER_BYTES_PER_PIXEL)) in
  copy_words src 0 at_word copy_width.

Definition fill_rect (fb : FrameBufferTarget) (x y width height color : Z) : stM Words Fault unit :=
  let x := Z.min x (fb_width fb) in
  let y := Z.min y (fb_height fb) in
  let width := Z.min width (fb_width fb - x) in
  let height := Z.min height (fb_height fb - y) in
  each_of (fun row =>
    let! row_word := slift (word_at ((y + row) * pitch fb + x * FRAMEBUFFER_BYTES_PER_PIXEL)) in
    each_of (fun col => store_word (row_word + col) color) (seqZ 0 width)) (seqZ 0 height).

(** ** Rectangles *)

Record Rect : Type := mkRect {
  rect_x : Z;
  rect_y : Z;
  rect_width : Z;
  rect_height : Z;
}.

(** [&&] evaluates its right side only when the left one holds. *)
Definition and_then {E} (c1 c2 : result E bool) : result E bool :=
  let? v := c1 in if (v : bool) then c2 else Ok false.

Definition contains {E} (q : Rect) (px py : Z) : result E bool :=
  and_then (Ok (rect_x q <=? px)) (and_then (let? x_end := u32 (rect_x q + rect_width q) in Ok (px <? x_end))
    (and_then (Ok (rect_y q <=? py)) (let? y_end := u32 (rect_y q + rect_height q) in Ok (py <? y_end)))).

Definition intersects {E} (q other : Rect) : result E bool :=
  and_then (let? v := u32 (rect_x other + rect_width other) in Ok (rect_x q <? v))
    (and_then (let? v := u32 (rect_x q + rect_width q) in Ok (rect_x other <? v))
      (and_then (let? v := u32 (rect_y other + rect_height other) in Ok (rect_y q <? v))
        (let? v := u32 (rect_y q + rect_height q) in Ok (rect_y other <? v)))).

Definition get_intersection_rect {E} (q other : Rect) : result E (option Rect) :=
  let? self_right := u32 (rect_x q + rect_width q) in
  let? self_bottom := u32 (rect_y q + rect_height q) in
  let? other_right := u32 (rect_x other + rect_width other) in
  let? other_bottom := u32 (rect_y other + rect_height other) in
  if (self_right <=? rect_x other) || (other_right <=? rect_x q) || (self_bottom <=? rect_y other) || (other_bottom <=? rect_y q)
  then Ok None else
  let x1 := Z.max (rect_x q) (rect_x other) in
  let y1 := Z.max (rect_y q) (rect_y other) in
  let x2 := Z.min self_right other_right in
  let y2 := Z.min self_bottom other_bottom in
  let? w := u32 (x2 - x1) in
  let? h := u32 (y2 - y1) in
  Ok (Some (mkRect x1 y1 w h)).

Definition get_union_rect {E} (q other : Rect) : result E Rect :=
  let? self_right := u32 (rect_x q + rect_width q) in
  let? self_bottom := u32 (rect_y q + rect_height q) in
  let? other_right := u32 (rect_x other + rect_width other) in
  let? other_bottom := u32 (rect_y other + rect_height other) in
  let x0 := Z.min (rect_x q) (rect_x other) in
  let y0 := Z.min (rect_y q) (rect_y other) in
  let x2 := Z.max self_right other_right in
  let y2 := Z.max self_bottom other_bottom in
  let? w := u32 (x2 - x0) in
  let? h := u32 (y2 - y0) in
  Ok (mkRect x0 y0 w h).

(** ** Window buffers *)

Record WindowBuffer : Type := mkWindowBuffer {
  wb_width : Z;
  wb_height : Z;
  wb_x : Z;
  wb_y : Z;
  back_buffer : Words;
  front_buffer : Words;
  needs_swap : bool;
  swap_count : Z;
}.

(** [WindowBuffer::new]; [granted] tells whether the heap has room for both buffers. *)
Definition window_buffer_new {E} (granted : bool) (width height x y : Z) : result E WindowBuffer :=
  let? pixels := u32 (width * height) in
  if (granted : bool) then
    Ok (mkWindowBuffer width height x y (replicate (Z.to_nat pixels) 0) (replicate (Z.to_nat pixels) 0) false 0)
  else Panic.

Definition present (w : WindowBuffer) : WindowBuffer :=
  mkWindowBuffer (wb_width w) (wb_height w) (wb_x w) (wb_y w) (back_buffer w) (front_buffer w) true (swap_count w).

Definition try_swap (w : WindowBuffer) : bool * WindowBuffer :=
  if negb (needs_swap w) then (false, w) else
  (true, mkWindowBuffer (wb_width w) (wb_height w) (wb_x w) (wb_y w) (front_buffer w) (back_buffer w) false
    (wrap 32 (swap_count w + 1))).

Definition pixel_count {E} (w : WindowBuffer) : result E Z := u32 (wb_width w * wb_height w).

Definition page_count {E} (w : WindowBuffer) : result E Z :=
  let? pixels := pixel_count w in Ok ((pixels * FRAMEBUFFER_BYTES_PER_PIXEL + 4095) / 4096).

Definition get_bounding_rect (w : WindowBuffer) : Rect :=
  mkRect (wrap 32 (wb_x w)) (wrap 32 (wb_y w)) (wb_width w) (wb_height w).

(** The index of a pixel. *)
Definition pixel_offset {E} (w : WindowBuffer) (x y : Z) : result E Z :=
  let? row := u32 (y * wb_width w) in u32 (row + x).

(** [WindowBackBuffer::write_pixel] *)
Definition write_pixel (x y : Z) (color : Rgba8888UNORM) : stM WindowBuffer Fault unit := fun w =>
  if negb ((x <? wb_width w) && (y <? wb_height w)) then (Ok tt, w) else
  match pixel_offset (E:=Fault) w x y with
  | Ok offset =>
      let '(res, words) := store_word offset (rgba_to_xrgb color) (back_buffer w) in
      (res, present (mkWindowBuffer (wb_width w) (wb_height w) (wb_x w) (wb_y w) words (front_buffer w)
        (needs_swap w) (swap_count w)))
  | _ => (Panic, w)
  end.

(** [WindowBackBuffer::clear] *)
Definition clear (color : Rgba8888UNORM) : stM WindowBuffer Fault unit := fun w =>
  match pixel_count (E:=Fault) w with
  | Ok pixels =>
      let '(res, words) := each_of (fun i => store_word i (rgba_to_xrgb color)) (seqZ 0 pixels) (back_buffer w) in
      (res, present (mkWindowBuffer (wb_width w) (wb_height w) (wb_x w) (wb_y w) words (front_buffer w)
        (needs_swap w) (swap_count w)))
  | _ => (Panic, w)
  end.

(** [WindowPresentBuffer::read_pixel] *)
Definition read_pixel (w : WindowBuffer) (x y : Z) : result Fault Rgba8888UNORM :=
  if (x <? wb_width w) && (y <? wb_height w) then
    let? offset := pixel_offset w x y in
    let? xrgb := load_word (front_buffer w) offset in
    Ok (xrgb_to_rgba xrgb)
  else Ok BLACK.

(** ** Windows and the picture they make *)

Record Window : Type := mkWindow {
  w_id : Z;
  owner_pid : Z;
  w_x : Z;
  w_y : Z;
  z_index : Z;
  is_visible : bool;
  buffer : WindowBuffer;
  event_buffer : option Z;
  event_buffer_phys : Z;
}.

Definition set_buffer (wb : WindowBuffer) (w : Window) : Window :=
  mkWindow (w_id w) (owner_pid w) (w_x w) (w_y w) (z_index w) (is_visible w) wb (event_buffer w) (event_buffer_phys w).

(** The byte offset of a pixel of the frame buffer, in [u32]. *)
Definition dst_offset {E} (fb_pitch x y : Z) : result E Z :=
  let? row := u32 (y * fb_pitch) in
  let? col := u32 (x * FRAMEBUFFER_BYTES_PER_PIXEL) in
  u32 (row + col).

(** The arguments of [draw_cursor] are [u32]; the frame buffer's sizes are cast to it. *)
Definition draw_cursor (cursor_x cursor_y color_xrgb fb_pitch framebuffer_width framebuffer_height : Z)
    : stM Words Fault unit :=
  if (0 <=? cursor_x) && (cursor_x <? as_i32 framebuffer_width) && (0 <=? cursor_y) && (cursor_y <? as_i32 framebuffer_height)
  then
    let start_x := Z.max cursor_x 0 in
    let start_y := Z.max cursor_y 0 in
    let! x_end := slift (i32 (cursor_x + CURSOR_SIZE_X)) in
    let! y_end := slift (i32 (cursor_y + CURSOR_SIZE_Y)) in
    let end_x := wrap 32 (Z.min x_end (as_i32 framebuffer_width)) in
    let end_y := wrap 32 (Z.min y_end (as_i32 framebuffer_height)) in
    each_of (fun y => each_of (fun x =>
      let! offset := slift (dst_offset fb_pitch x y) in
      let! at_word := slift (word_at offset) in
      store_word at_word color_xrgb) (seqZ start_x (end_x - start_x))) (seqZ start_y (end_y - start_y))
  else sret tt.

(** One row of the copy of a window. *)
Definition compose_row (fb_pitch win_width : Z) (src : Words) (src_x src_y start_x start_y copy_width y : Z)
    : stM Words Fault unit :=
  let! src_row := slift (u32 (src_y + y)) in
  let! src_line := slift (u32 (src_row * win_width)) in
  let! src_offset := slift (u32 (src_line + src_x)) in
  let! dst_row := slift (u32 (start_y + y)) in
  let! offset := slift (dst_offset fb_pitch start_x dst_row) in
  let! at_word := slift (word_at offset) in
  copy_words src src_offset at_word copy_width.

(** The body of the loop over the windows, of a visible window. *)
Definition compose_window (fb : FrameBufferTarget) (w : Window) : stM Words Fault Window :=
  let wb := (try_swap (buffer w)).2 in
  let start_x := wrap 32 (Z.max (w_x w) 0) in
  let start_y := wrap 32 (Z.max (w_y w) 0) in
  let! x_end := slift (i32 (w_x w + as_i32 (wb_width wb))) in
  let end_x := wrap 32 (Z.min x_end (as_i32 (fb_width fb))) in
  let! y_end := slift (i32 (w_y w + as_i32 (wb_height wb))) in
  let end_y := wrap 32 (Z.min y_end (as_i32 (fb_height fb))) in
  if (end_x <=? start_x) || (end_y <=? start_y) then sret (set_buffer wb w) else
  let! src_x := (if 0 <? w_x w then sret 0 else slift (let? m := i32 (- w_x w) in Ok (wrap 32 m))) in
  let! src_y := (if 0 <? w_y w then sret 0 else slift (let? m := i32 (- w_y w) in Ok (wrap 32 m))) in
  let copy_width := end_x - start_x in
  let copy_height := end_y - start_y in
  each_of (compose_row (wrap 32 (pitch fb)) (wb_width wb) (front_buffer wb) src_x src_y start_x start_y copy_width)
    (seqZ 0 copy_height) ;;;
  sret (set_buffer wb w).

(** The loop over the windows; the invisible ones are filtered out before it. *)
Fixpoint compose_windows (fb : FrameBufferTarget) (l : list Window) : stM Words Fault (list Window) :=
  match l with
  | [] => sret []
  | w :: l =>
      let! w := (if is_visible w then compose_window fb w else sret w) in
      let! l := compose_windows fb l in
      sret (w :: l)
  end.

(** What [compose] reads and keeps of the pointer. *)
Record Pointer : Type := mkPointer {
  mouse_x : Z;
  mouse_y : Z;
  cursor_visible : bool;
  mouse_last_drawn_x : Z;
  mouse_last_drawn_y : Z;
}.

Definition compose (fb : FrameBufferTarget) (windows : list Window) (p : Pointer) : stM Words Fault (list Window * Pointer) :=
  let w32 := wrap 32 (fb_width fb) in
  let h32 := wrap 32 (fb_height fb) in
  let p32 := wrap 32 (pitch fb) in
  draw_cursor (mouse_last_drawn_x p) (mouse_last_drawn_y p) CLEAR_COLOR_XRGB p32 w32 h32 ;;;
  let! windows := compose_windows fb windows in
  if cursor_visible p then
    draw_cursor (mouse_x p) (mouse_y p) CURSOR_COLOR_XRGB p32 w32 h32 ;;;
    sret (windows, mkPointer (mouse_x p) (mouse_y p) true (mouse_x p) (mouse_y p))
  else sret (windows, p).
