(* ===== verification/SurfaceSpec.v ===== *)
(** * SurfaceSpec: the picture that [compose] makes

    A frame buffer shows a picture, a colour for every word of every line.  The theorems
    give the picture after [compose] in terms of the windows, the pixels a window buffer
    gives back, and the rectangles in terms of the points they contain. *)

From Stdlib Require Import ZArith Lia.
From stdpp Require Import base tactics list option numbers.
From S2P Require Import Prelude Surface.

Open Scope rust_scope.

(** ** Checked arithmetic *)

Lemma u32_ok {E} v : 0 <= v < 2 ^ 32 -> u32 (E:=E) v = Ok v.
Proof. intros Hv. unfold u32. by rewrite (proj2 (Z.leb_le _ _)), (proj2 (Z.ltb_lt _ _)) by lia. Qed.

Lemma i32_ok {E} v : - 2 ^ 31 <= v < 2 ^ 31 -> i32 (E:=E) v = Ok v.
Proof. intros Hv. unfold i32. by rewrite (proj2 (Z.leb_le _ _)), (proj2 (Z.ltb_lt _ _)) by lia. Qed.

Lemma as_i32_small v : 0 <= v < 2 ^ 31 -> as_i32 v = v.
Proof. intros Hv. unfold as_i32. rewrite Z.mod_small by lia. by rewrite (proj2 (Z.ltb_lt _ _)) by lia. Qed.

Lemma wrap_same v : 0 <= v < 2 ^ 32 -> wrap 32 v = v.
Proof. intros Hv. apply wrap_small. unfold in_width. lia. Qed.

(** Two tests of coordinates that say the same. *)
Ltac same_test :=
  match goal with |- (if ?t then _ else _) = (if ?t' then _ else _) => replace t' with t; [done|] end;
  apply eq_true_iff_eq; rewrite ?andb_true_iff, ?Z.leb_le, ?Z.ltb_lt, ?Z.eqb_eq; lia.

(** A test of coordinates that fails. *)
Ltac fails_test :=
  match goal with |- context [if ?t then _ else _] => replace t with false; [done|] end;
  symmetry; apply not_true_iff_false; rewrite ?andb_true_iff, ?Z.leb_le, ?Z.ltb_lt, ?Z.eqb_eq; lia.

(** ** Pictures *)

Section picture.
(** Words in a line, lines. *)
Variables (line lines : Z).

Definition shows (words : list Z) (f : Z -> Z -> Z) : Prop :=
  zlen words = line * lines /\
  forall x y, 0 <= x < line -> 0 <= y < lines -> words !! Z.to_nat (y * line + x) = Some (f x y).

Lemma shows_ext words f g : shows words f -> (forall x y, 0 <= x < line -> 0 <= y < lines -> f x y = g x y) -> shows words g.
Proof. intros [Hl Hf] Hfg. split; [done|]. intros x y Hx Hy. rewrite Hf by done. by rewrite Hfg. Qed.

Lemma index_bound x y : 0 <= x < line -> 0 <= y < lines -> 0 <= y * line + x < line * lines.
Proof. nia. Qed.

Lemma index_inj x y x' y' : 0 <= x < line -> 0 <= x' < line -> y * line + x = y' * line + x' -> x = x' /\ y = y'.
Proof. intros. assert (y = y') by nia. nia. Qed.

(** One word. *)
Definition dot (px py v : Z) (f : Z -> Z -> Z) (x y : Z) : Z := if (x =? px) && (y =? py) then v else f x y.

Lemma store_shows words f px py v : shows words f -> 0 <= px < line -> 0 <= py < lines ->
  exists words', store_word (py * line + px) v words = (Ok tt, words') /\ shows words' (dot px py v f).
Proof.
  intros [Hl Hf] Hx Hy. pose proof (index_bound px py Hx Hy). unfold store_word.
  rewrite (proj2 (Z.leb_le _ _)), (proj2 (Z.ltb_lt _ _)) by lia. eexists. split; [done|]. split; [by rewrite length_insert|].
  intros x y Hx' Hy'. pose proof (index_bound x y Hx' Hy'). unfold dot.
  destruct (Z.eqb_spec x px) as [->|Hnx], (Z.eqb_spec y py) as [->|Hny]; cbn [andb];
    [by rewrite list_lookup_insert_eq by lia|..];
    (rewrite list_lookup_insert_ne; [by apply Hf|]); intros E%Z2Nat.inj; try lia;
    destruct (index_inj px py _ _ Hx Hx' E); congruence.
Qed.

(** A run of words of one line. *)
Definition run (px py n : Z) (src : Z -> Z) (f : Z -> Z -> Z) (x y : Z) : Z :=
  if (y =? py) && (px <=? x) && (x <? px + n) then src (x - px) else f x y.

Lemma copy_shows words f src from px py n : shows words f -> 0 <= px -> 0 < n -> px + n <= line -> 0 <= py < lines ->
  0 <= from -> from + n <= zlen src ->
  exists words', copy_words src from (py * line + px) n words = (Ok tt, words') /\
    shows words' (run px py n (fun i => src !!! Z.to_nat (from + i)) f).
Proof.
  intros [Hl Hf] Hx Hn Hw Hy H0 Hs. pose proof (index_bound (px + n - 1) py). pose proof (index_bound px py). unfold copy_words.
  rewrite !(proj2 (Z.leb_le _ _)) by lia. cbn [andb]. eexists. split; [done|].
  assert (Hlen : length (slice src (Z.to_nat from) (Z.to_nat n)) = Z.to_nat n)
    by (unfold slice; rewrite length_take, length_drop; lia).
  split; [unfold splice; rewrite !length_app, length_take, length_drop, Hlen; lia|].
  intros x y Hx' Hy'. pose proof (index_bound x y Hx' Hy'). unfold run, splice.
  destruct (decide (y * line + x < py * line + px)) as [Hlt|Hge].
  - rewrite lookup_app_l by (rewrite length_take; lia). rewrite lookup_take_lt by lia. rewrite Hf by done.
    destruct (Z.eqb_spec y py); [|done]. subst. rewrite (proj2 (Z.leb_gt _ _)) by lia. done.
  - rewrite lookup_app_r by (rewrite length_take; lia). rewrite length_take_le by lia.
    destruct (decide (y * line + x < py * line + px + n)) as [Hin|Hout].
    + assert (y = py) as -> by nia. rewrite Z.eqb_refl, (proj2 (Z.leb_le _ _)), (proj2 (Z.ltb_lt _ _)) by lia. cbn [andb].
      rewrite lookup_app_l by lia. unfold slice. rewrite lookup_take_lt by lia. rewrite lookup_drop.
      replace (Z.to_nat from + _)%nat with (Z.to_nat (from + (x - px))) by lia. apply list_lookup_lookup_total_lt. lia.
    + rewrite lookup_app_r by lia. rewrite lookup_drop, Hlen.
      replace (Z.to_nat (py * line + px) + Z.to_nat n + _)%nat with (Z.to_nat (y * line + x)) by lia. rewrite Hf by done.
      destruct (Z.eqb_spec y py) as [->|]; [|done]. rewrite (proj2 (Z.ltb_ge _ _)) by lia. by rewrite andb_false_r.
Qed.

(** A loop that draws line after line: [f] changes from [F i] to [F (i + 1)]. *)
Lemma each_shows (c : Z -> stM Words Fault unit) (F : Z -> Z -> Z -> Z) m : forall n words, 0 <= n -> shows words (F m) ->
  (forall i words, m <= i < m + n -> shows words (F i) -> exists words', c i words = (Ok tt, words') /\ shows words' (F (i + 1))) ->
  exists words', each_of c (seqZ m n) words = (Ok tt, words') /\ shows words' (F (m + n)).
Proof.
  intros n words Hn. revert m words. pattern n. apply natlike_ind; [| |done]; clear n Hn.
  - intros m words Hw _. rewrite Z.add_0_r. by exists words.
  - intros n Hn IH m words Hw Hc. rewrite seqZ_cons, Z.pred_succ by lia. cbn [each_of].
    destruct (Hc m words ltac:(lia) Hw) as (w1 & E1 & Hw1). rewrite (sbind_ok _ _ _ _ _ E1).
    destruct (IH (Z.succ m) w1) as (w2 & E2 & Hw2); [done|intros i w Hi; apply Hc; lia|].
    exists w2. split; [done|]. by replace (m + Z.succ n) with (Z.succ m + n) by lia.
Qed.

End picture.

(** ** The frame buffer *)

Record target_ok (fb : FrameBufferTarget) (line : Z) : Prop := {
  to_pitch : pitch fb = line * 4;
  to_width : 0 < fb_width fb <= line;
  to_height : 0 < fb_height fb;
  to_width_i32 : fb_width fb + 3 < 2 ^ 31;
  to_height_i32 : fb_height fb + 10 < 2 ^ 31;
  to_size : pitch fb * fb_height fb < 2 ^ 32;
}.

Section target.
Variables (fb : FrameBufferTarget) (line : Z).
Hypothesis Hfb : target_ok fb line.

Abbreviation shown := (shows line (fb_height fb)).

Lemma dst_offset_ok {E} x y : 0 <= x < line -> 0 <= y < fb_height fb ->
  dst_offset (E:=E) (pitch fb) x y = Ok ((y * line + x) * 4).
Proof.
  destruct Hfb as [Hp Hw Hh _ _ Hs]. intros Hx Hy. unfold dst_offset, FRAMEBUFFER_BYTES_PER_PIXEL. rewrite Hp in *.
  rewrite (u32_ok (y * _)) by nia. cbn [rbind]. rewrite (u32_ok (x * _)) by nia. cbn [rbind]. rewrite u32_ok by nia.
  f_equal. lia.
Qed.

Lemma word_at_ok i : word_at (i * 4) = Ok i.
Proof. unfold word_at. by rewrite Z.mod_mul, Z.div_mul by lia. Qed.

Lemma wrap_pitch : wrap 32 (pitch fb) = pitch fb.
Proof. destruct Hfb as [Hp Hw Hh _ _ Hs]. apply wrap_same. nia. Qed.

Lemma cast_sizes : wrap 32 (fb_width fb) = fb_width fb /\ wrap 32 (fb_height fb) = fb_height fb /\
  as_i32 (fb_width fb) = fb_width fb /\ as_i32 (fb_height fb) = fb_height fb.
Proof. destruct Hfb as [Hp Hw Hh Hw' Hh' Hs]. rewrite !wrap_same, !as_i32_small by lia. done. Qed.

(** *** The cursor *)

Definition on_screen (x y : Z) : bool := (0 <=? x) && (x <? fb_width fb) && (0 <=? y) && (y <? fb_height fb).

Definition under_cursor (cx cy x y : Z) : bool :=
  on_screen cx cy && (cx <=? x) && (x <? cx + CURSOR_SIZE_X) && (x <? fb_width fb) && (cy <=? y) && (y <? cy + CURSOR_SIZE_Y).

Definition with_cursor (cx cy v : Z) (f : Z -> Z -> Z) (x y : Z) : Z := if under_cursor cx cy x y then v else f x y.

Lemma draw_cursor_shows words f cx cy v : shown words f ->
  exists words', draw_cursor cx cy v (pitch fb) (fb_width fb) (fb_height fb) words = (Ok tt, words') /\
    shown words' (with_cursor cx cy v f).
Proof.
  intros Hw. destruct cast_sizes as (_ & _ & Ew & Eh). pose proof Hfb as [_ Hwd Hh Hw' Hh' _].
  unfold draw_cursor. rewrite Ew, Eh. fold (on_screen cx cy).
  destruct (on_screen cx cy) eqn:Eon; cycle 1.
  { exists words. split; [done|]. apply (shows_ext _ _ _ _ _ Hw). intros. unfold with_cursor, under_cursor. by rewrite Eon. }
  pose proof Eon as E'. unfold on_screen in E'. rewrite !andb_true_iff, !Z.leb_le, !Z.ltb_lt in E'. destruct E' as [[[? ?] ?] ?].
  unfold CURSOR_SIZE_X, CURSOR_SIZE_Y. rewrite !Z.max_l by lia. unfold slift at 1 2, sbind at 1 2.
  rewrite !i32_ok by lia. rewrite !wrap_same by lia.
  set (ex := Z.min (cx + 3) (fb_width fb)). set (ey := Z.min (cy + 10) (fb_height fb)).
  set (F := fun i x y => if (cy <=? y) && (y <? i) && (cx <=? x) && (x <? ex) then v else f x y).
  destruct (each_shows line (fb_height fb) (fun y => each_of (fun x =>
      let! offset := slift (dst_offset (pitch fb) x y) in
      let! at_word := slift (word_at offset) in
      store_word at_word v) (seqZ cx (ex - cx))) F cy (ey - cy) words) as (w' & E & Hw2).
  - lia.
  - apply (shows_ext _ _ _ _ _ Hw). intros x y _ _. unfold F. destruct (Z.leb_spec cy y), (Z.ltb_spec y cy); try lia; done.
  - intros i w0 Hi Hw0.
    set (G := fun j x y => if (y =? i) && (cx <=? x) && (x <? j) then v else F i x y).
    destruct (each_shows line (fb_height fb) (fun x =>
      let! offset := slift (dst_offset (pitch fb) x i) in
      let! at_word := slift (word_at offset) in
      store_word at_word v) G cx (ex - cx) w0) as (w1 & E1 & Hw1).
    + lia.
    + apply (shows_ext _ _ _ _ _ Hw0). intros x y _ _. unfold G. destruct (y =? i), (Z.leb_spec cx x), (Z.ltb_spec x cx); try lia; done.
    + intros j w2 Hj Hw2. unfold slift, sbind. rewrite dst_offset_ok, word_at_ok by lia.
      destruct (store_shows _ _ _ _ j i v Hw2) as (w3 & E3 & Hw3); [lia..|]. exists w3. split; [done|].
      apply (shows_ext _ _ _ _ _ Hw3). intros x y _ _. unfold dot, G.
      destruct (Z.eqb_spec x j) as [->|], (Z.eqb_spec y i); cbn [andb]; [by rewrite (proj2 (Z.leb_le _ _)), (proj2 (Z.ltb_lt _ _)) by lia|done| |done].
      destruct (Z.ltb_spec x j), (Z.ltb_spec x (j + 1)); try lia; done.
    + exists w1. split; [done|]. apply (shows_ext _ _ _ _ _ Hw1). intros x y _ _. unfold G, F.
      replace (cx + (ex - cx)) with ex by lia. destruct (Z.eqb_spec y i) as [->|]; cbn [andb].
      * rewrite (proj2 (Z.leb_le cy i)), (proj2 (Z.ltb_lt i (i + 1))), (proj2 (Z.ltb_ge i i)) by lia. by destruct (cx <=? x), (x <? ex).
      * by destruct (Z.ltb_spec y i), (Z.ltb_spec y (i + 1)); try lia.
  - exists w'. split; [done|]. apply (shows_ext _ _ _ _ _ Hw2). intros x y _ Hy. unfold F, with_cursor, under_cursor. rewrite Eon.
    unfold CURSOR_SIZE_X, CURSOR_SIZE_Y. replace (cy + (ey - cy)) with ey by lia. unfold ex, ey.
    rewrite (andb_true_l (cx <=? x)). same_test.
Qed.

(** *** A window *)

(** A window that [compose] can draw: it does not end left of or above the screen, and
    its buffers have the size they claim. *)
Record drawable (w : Window) : Prop := {
  dr_x : - 2 ^ 31 < w_x w /\ 0 <= w_x w + wb_width (buffer w) < 2 ^ 31;
  dr_y : - 2 ^ 31 < w_y w /\ 0 <= w_y w + wb_height (buffer w) < 2 ^ 31;
  dr_width : 0 <= wb_width (buffer w) < 2 ^ 31;
  dr_height : 0 <= wb_height (buffer w) < 2 ^ 31;
  dr_pixels : wb_width (buffer w) * wb_height (buffer w) < 2 ^ 32;
  dr_front : zlen (front_buffer (buffer w)) = wb_width (buffer w) * wb_height (buffer w);
  dr_back : zlen (back_buffer (buffer w)) = wb_width (buffer w) * wb_height (buffer w);
}.

Definition covers (w : Window) (x y : Z) : bool :=
  is_visible w && (w_x w <=? x) && (x <? w_x w + wb_width (buffer w)) && (x <? fb_width fb) &&
  (w_y w <=? y) && (y <? w_y w + wb_height (buffer w)).

(** The buffer that is in front when the window is drawn. *)
Definition presented (w : Window) : Words :=
  if needs_swap (buffer w) then back_buffer (buffer w) else front_buffer (buffer w).

Definition window_pixel (w : Window) (x y : Z) : Z :=
  presented w !!! Z.to_nat ((y - w_y w) * wb_width (buffer w) + (x - w_x w)).

Definition with_window (w : Window) (f : Z -> Z -> Z) (x y : Z) : Z :=
  if covers w x y then window_pixel w x y else f x y.

Definition drawn (w : Window) : Window := if is_visible w then set_buffer (try_swap (buffer w)).2 w else w.

Lemma swapped w : drawable w ->
  let wb := (try_swap (buffer w)).2 in
  wb_width wb = wb_width (buffer w) /\ wb_height wb = wb_height (buffer w) /\ front_buffer wb = presented w /\
  zlen (presented w) = wb_width (buffer w) * wb_height (buffer w).
Proof. intros [_ _ _ _ _ Hf Hb]. unfold try_swap, presented. by destruct (needs_swap (buffer w)). Qed.

Lemma compose_row_shows words f src ww sx sy px py n i : shown words f -> 0 <= i -> 0 <= sx -> 0 < n -> sx + n <= ww ->
  0 <= sy -> (sy + i + 1) * ww <= zlen src -> zlen src < 2 ^ 32 -> 0 <= px -> px + n <= line -> 0 <= py -> py + i < fb_height fb ->
  exists words', compose_row (pitch fb) ww src sx sy px py n i words = (Ok tt, words') /\
    shown words' (run px (py + i) n (fun j => src !!! Z.to_nat ((sy + i) * ww + sx + j)) f).
Proof.
  intros Hw Hi Hsx Hn Hww Hsy Hsrc H32 Hpx Hline Hpy Hrow. pose proof (to_height_i32 _ _ Hfb).
  unfold compose_row, slift, sbind. rewrite (u32_ok (sy + i)) by nia. rewrite (u32_ok ((sy + i) * ww)) by nia.
  rewrite (u32_ok ((sy + i) * ww + sx)) by nia. rewrite (u32_ok (py + i)) by nia.
  rewrite dst_offset_ok, word_at_ok by lia.
  apply copy_shows; try done; nia.
Qed.

Lemma compose_window_shows words f w : shown words f -> drawable w -> is_visible w = true ->
  exists words', compose_window fb w words = (Ok (drawn w), words') /\ shown words' (with_window w f).
Proof.
  intros Hw Hd Hv. destruct (swapped w Hd) as (Eww & Ewh & Ef & Hlen). destruct Hd as [[Hx Hx'] [Hy Hy'] Hwd Hht Hpix _ _].
  destruct cast_sizes as (_ & _ & Ew & Eh). pose proof Hfb as [Hp Hfw Hfh Hfw' Hfh' _].
  unfold compose_window, drawn. rewrite Hv. cbv zeta. rewrite Eww, Ewh, Ef, Ew, Eh, !as_i32_small by lia.
  unfold slift at 1 2, sbind at 1 2. rewrite !i32_ok by lia. rewrite !wrap_same by lia.
  set (ww := wb_width (buffer w)) in *. set (wh := wb_height (buffer w)) in *.
  set (ex := Z.min (w_x w + ww) (fb_width fb)). set (ey := Z.min (w_y w + wh) (fb_height fb)).
  set (sx := Z.max (w_x w) 0). set (sy := Z.max (w_y w) 0).
  destruct ((ex <=? sx) || (ey <=? sy)) eqn:Eclip.
  { exists words. split; [done|]. apply (shows_ext _ _ _ _ _ Hw). intros x y Hx0 Hy0. unfold with_window, covers.
    fold ww wh. rewrite Hv. cbn [andb]. apply orb_true_iff in Eclip. rewrite !Z.leb_le in Eclip. unfold ex, ey, sx, sy in Eclip.
    fails_test. }
  apply orb_false_iff in Eclip. rewrite !Z.leb_gt in Eclip. destruct Eclip as [Hcx Hcy].
  assert (Esrc : forall v : Z, - 2 ^ 31 < v < 2 ^ 31 ->
    (if 0 <? v then sret 0 else slift (let? m := Ok (- v) in Ok (wrap 32 m)) : stM Words Fault Z) = sret (Z.max (- v) 0)).
  { intros v Hv'. destruct (Z.ltb_spec 0 v); [by rewrite Z.max_r by lia|]. cbn [rbind].
    by rewrite wrap_same, Z.max_l by lia. }
  rewrite !Esrc by lia. unfold sret at 1 2, sbind at 1 2. rewrite wrap_pitch.
  set (F := fun i x y => if (sy <=? y) && (y <? sy + i) && (sx <=? x) && (x <? ex) then window_pixel w x y else f x y).
  destruct (each_shows line (fb_height fb) (compose_row (pitch fb) ww (presented w) (Z.max (- w_x w) 0) (Z.max (- w_y w) 0)
    sx sy (ex - sx)) F 0 (ey - sy) words) as (w' & E & Hw2).
  - lia.
  - apply (shows_ext _ _ _ _ _ Hw). intros x y _ _. unfold F. destruct (Z.leb_spec sy y), (Z.ltb_spec y (sy + 0)); try lia; done.
  - intros i w0 Hi Hw0. destruct (compose_row_shows w0 (F i) (presented w) ww (Z.max (- w_x w) 0) (Z.max (- w_y w) 0) sx sy (ex - sx) i)
      as (w1 & E1 & Hw1); try done; [unfold ex, ey, sx, sy in *; nia..|].
    exists w1. split; [done|]. apply (shows_ext _ _ _ _ _ Hw1). intros x y _ _. unfold run, F.
    replace (sx + (ex - sx)) with ex by lia. destruct (Z.eqb_spec y (sy + i)) as [->|]; cbn [andb].
    + rewrite (proj2 (Z.leb_le sy (sy + i))), (proj2 (Z.ltb_lt (sy + i) (sy + (i + 1)))), (proj2 (Z.ltb_ge (sy + i) (sy + i))) by lia. cbn [andb].
      destruct (Z.leb_spec sx x), (Z.ltb_spec x ex); try done. cbn [andb]. unfold window_pixel. fold ww.
      f_equal. f_equal. replace (Z.max (- w_y w) 0 + i) with (sy + i - w_y w) by lia. lia.
    + by destruct (Z.ltb_spec y (sy + i)), (Z.ltb_spec y (sy + (i + 1))); try lia.
  - rewrite (sbind_ok _ _ _ _ _ E). exists w'. split; [done|]. apply (shows_ext _ _ _ _ _ Hw2). intros x y Hx0 Hy0.
    unfold F, with_window, covers. fold ww wh. rewrite Hv. cbn [andb]. unfold ex, ey, sx, sy.
    same_test.
Qed.

End target.

(** ** The composed picture *)

Definition picture_of (fb : FrameBufferTarget) (windows : list Window) (f : Z -> Z -> Z) : Z -> Z -> Z :=
  foldl (fun f w => with_window fb w f) f windows.

Lemma compose_windows_shows fb line windows : target_ok fb line -> (forall w, w ∈ windows -> is_visible w = true -> drawable w) ->
  forall words f, shows line (fb_height fb) words f ->
  exists words', compose_windows fb windows words = (Ok (map drawn windows), words') /\
    shows line (fb_height fb) words' (picture_of fb windows f).
Proof.
  intros Hfb. induction windows as [|w windows IH]; intros Hd words f Hw; [by exists words|].
  destruct (IH (fun w' Hin => Hd w' (list_elem_of_further _ _ _ Hin))) with (words := words) (f := f) as (w0 & E0 & Hw0); [done|].
  clear w0 E0 Hw0. cbn [compose_windows map]. destruct (is_visible w) eqn:Ev.
  - destruct (compose_window_shows fb line Hfb words f w Hw) as (w1 & E1 & Hw1); [apply Hd; [apply list_elem_of_here|done]|done|].
    rewrite (sbind_ok _ _ _ _ _ E1).
    destruct (IH (fun w' Hin => Hd w' (list_elem_of_further _ _ _ Hin)) w1 _ Hw1) as (w2 & E2 & Hw2).
    rewrite (sbind_ok _ _ _ _ _ E2). by exists w2.
  - unfold sret at 1, sbind at 1.
    destruct (IH (fun w' Hin => Hd w' (list_elem_of_further _ _ _ Hin)) words (with_window fb w f)) as (w2 & E2 & Hw2).
    { apply (shows_ext _ _ _ _ _ Hw). intros. unfold with_window, covers. by rewrite Ev. }
    rewrite (sbind_ok _ _ _ _ _ E2). exists w2. split; [|done]. unfold drawn at 2. by rewrite Ev.
Qed.

(** C32: composing a frame whose visible windows all reach into the screen or past its right
    and lower edges ([drawable]: none ends left of or above it, and its sizes fit 32-bit arithmetic) draws, over what the last cursor
    left, every visible window clipped to the screen, later windows over earlier ones whatever
    their z-index, then the cursor; all accesses stay inside the buffers.  What a visible window
    that ends left of the screen does is [compose_overruns]. *)
Theorem compose_draws fb line words f windows p : target_ok fb line -> shows line (fb_height fb) words f ->
  (forall w, w ∈ windows -> is_visible w = true -> drawable w) ->
  exists words', compose fb windows p words =
    (Ok (map drawn windows, if cursor_visible p then mkPointer (mouse_x p) (mouse_y p) true (mouse_x p) (mouse_y p) else p), words') /\
    let background := with_cursor fb (mouse_last_drawn_x p) (mouse_last_drawn_y p) CLEAR_COLOR_XRGB f in
    let picture := picture_of fb windows background in
    shows line (fb_height fb) words'
      (if cursor_visible p then with_cursor fb (mouse_x p) (mouse_y p) CURSOR_COLOR_XRGB picture else picture).
Proof.
  intros Hfb Hw Hd. destruct (cast_sizes fb line Hfb) as (Ew & Eh & _). unfold compose. cbv zeta.
  rewrite Ew, Eh, (wrap_pitch fb line Hfb).
  destruct (draw_cursor_shows fb line Hfb words f (mouse_last_drawn_x p) (mouse_last_drawn_y p) CLEAR_COLOR_XRGB Hw) as (w1 & E1 & Hw1).
  rewrite (sbind_ok _ _ _ _ _ E1). destruct (compose_windows_shows fb line windows Hfb Hd w1 _ Hw1) as (w2 & E2 & Hw2).
  rewrite (sbind_ok _ _ _ _ _ E2). destruct (cursor_visible p); [|by exists w2].
  destruct (draw_cursor_shows fb line Hfb w2 _ (mouse_x p) (mouse_y p) CURSOR_COLOR_XRGB Hw2) as (w3 & E3 & Hw3).
  rewrite (sbind_ok _ _ _ _ _ E3). by exists w3.
Qed.

Lemma compose_row_faults fb line words src ww sx py n : target_ok fb line -> 0 <= sx < 2 ^ 32 -> 0 <= py < fb_height fb ->
  zlen src < sx + n -> compose_row (pitch fb) ww src sx 0 0 py n 0 words = (Err BadAccess, words).
Proof.
  intros Hfb Hsx Hpy Hn. pose proof (to_width _ _ Hfb). pose proof (to_height_i32 _ _ Hfb).
  unfold compose_row, slift, sbind. rewrite Z.add_0_r, (u32_ok 0) by lia. rewrite Z.mul_0_l, (u32_ok 0) by lia.
  rewrite Z.add_0_l, (u32_ok sx), Z.add_0_r, (u32_ok py), (dst_offset_ok fb line Hfb), word_at_ok by lia.
  unfold copy_words. by rewrite (proj2 (Z.leb_gt _ (zlen src))) by lia.
Qed.

(** C40: a window that lies entirely left of the screen makes [compose] access memory out of
    bounds: its negative right edge becomes a huge number, and so does the width to copy. *)
Theorem compose_overruns fb line words f w rest p : target_ok fb line -> shows line (fb_height fb) words f ->
  is_visible w = true -> - 2 ^ 31 < w_x w -> w_x w + wb_width (buffer w) < 0 -> 0 <= w_y w < fb_height fb ->
  0 <= wb_width (buffer w) -> 0 < wb_height (buffer w) -> w_y w + wb_height (buffer w) < 2 ^ 31 ->
  zlen (presented w) = wb_width (buffer w) * wb_height (buffer w) -> zlen (presented w) < 2 ^ 32 ->
  (compose fb (w :: rest) p words).1 = Err BadAccess.
Proof.
  intros Hfb Hw Hv Hx Hneg Hy Hwd Hht Hbot Hlen Hl32. destruct (cast_sizes fb line Hfb) as (Ew & Eh & Ew' & Eh').
  pose proof (to_width _ _ Hfb). pose proof (to_width_i32 _ _ Hfb). pose proof (to_height_i32 _ _ Hfb).
  unfold compose. cbv zeta. rewrite Ew, Eh, (wrap_pitch fb line Hfb).
  destruct (draw_cursor_shows fb line Hfb words f (mouse_last_drawn_x p) (mouse_last_drawn_y p) CLEAR_COLOR_XRGB Hw) as (w1 & E1 & _).
  rewrite (sbind_ok _ _ _ _ _ E1). cbn [compose_windows]. rewrite Hv.
  enough (Hc : (compose_window fb w w1).1 = Err BadAccess) by (unfold sbind; destruct (compose_window fb w w1) as [e w2]; by cbn in Hc; subst e).
  assert (Ewb : wb_width (try_swap (buffer w)).2 = wb_width (buffer w) /\ wb_height (try_swap (buffer w)).2 = wb_height (buffer w) /\
    front_buffer (try_swap (buffer w)).2 = presented w) by (unfold try_swap, presented; by destruct (needs_swap (buffer w))).
  destruct Ewb as (Eww & Ewh & Efr). unfold compose_window. cbv zeta. rewrite Eww, Ewh, Efr, Ew', Eh'.
  rewrite !as_i32_small by lia. unfold slift at 1 2, sbind at 1 2. rewrite !i32_ok by lia.
  set (ww := wb_width (buffer w)) in *. set (wh := wb_height (buffer w)) in *. rewrite (Z.max_r (w_x w)), (Z.max_l (w_y w)) by lia.
  rewrite (Z.min_l (w_x w + ww)) by lia.
  replace (wrap 32 (w_x w + ww)) with (w_x w + ww + 2 ^ 32) by (unfold wrap; apply Z.mod_unique_pos with (-1); lia).
  rewrite !wrap_same by lia. set (ey := Z.min (w_y w + wh) (fb_height fb)).
  rewrite (proj2 (Z.leb_gt _ 0)), (proj2 (Z.leb_gt ey (w_y w))) by (unfold ey; lia). cbn [orb].
  rewrite (proj2 (Z.ltb_ge 0 (w_x w))) by lia. cbn [rbind]. unfold slift at 1, sbind at 1. rewrite (wrap_same (- w_x w)) by lia.
  replace (if 0 <? w_y w then sret 0 else slift (Ok (wrap 32 (- w_y w)))) with (sret 0 : stM Words Fault Z)
    by (destruct (Z.ltb_spec 0 (w_y w)); [done|by assert (w_y w = 0) as -> by lia]).
  unfold sret at 1, sbind at 1. rewrite (wrap_pitch fb line Hfb), seqZ_cons by (unfold ey; lia). cbn [each_of].
  unfold sbind. rewrite (compose_row_faults fb line _ _ _ _ _ _ Hfb) by lia. done.
Qed.

(** ** Colours *)

Definition rgba_ok (c : Rgba8888UNORM) : Prop := byte (red c) /\ byte (green c) /\ byte (blue c) /\ byte (alpha c).

Lemma shift_field v n : 0 <= n -> Z.land (Z.shiftr v n) 0xFF = v / 2 ^ n mod 256.
Proof. intros Hn. rewrite Z.shiftr_div_pow2 by done. change 0xFF with (Z.ones 8). by rewrite Z.land_ones by lia. Qed.

Lemma xrgb_value c : rgba_ok c -> rgba_to_xrgb c = (red c * 256 + green c) * 256 + blue c.
Proof.
  unfold rgba_ok, byte. intros (Hr & Hg & Hb & _). unfold rgba_to_xrgb. rewrite !Z.shiftl_mul_pow2 by lia.
  replace (Z.lor (red c * 2 ^ 16) (green c * 2 ^ 8)) with ((red c * 2 ^ 8 + green c) * 2 ^ 8).
  - rewrite lor_low; lia.
  - change (2 ^ 16) with (2 ^ 8 * 2 ^ 8). rewrite Z.mul_assoc, <- !(Z.shiftl_mul_pow2 _ 8), <- Z.shiftl_lor by lia.
    f_equal. rewrite Z.shiftl_mul_pow2 by lia. symmetry. apply lor_low; lia.
Qed.

Ltac byte_fields := rewrite ?shift_field by lia; change 0xFF with (Z.ones 8); rewrite ?Z.land_ones by lia;
  rewrite ?Z.pow_0_r; Z.div_mod_to_equations; lia.

(** A colour keeps all but its alpha in the frame buffer. *)
Lemma xrgb_roundtrip c : rgba_ok c -> xrgb_to_rgba (rgba_to_xrgb c) = from_rgb (red c) (green c) (blue c).
Proof.
  intros Hc. rewrite xrgb_value by done. destruct Hc as (Hr & Hg & Hb & _). unfold byte in *. unfold xrgb_to_rgba, from_rgb.
  f_equal; byte_fields.
Qed.

Lemma rgba_roundtrip c : rgba_ok c -> from_u32_rgba8 (to_u32_rgba c) = c.
Proof.
  intros Hc. assert (E : to_u32_rgba c = rgba_to_xrgb c * 2 ^ 8 + alpha c).
  { destruct Hc as (_ & _ & _ & Ha). unfold byte in Ha. unfold to_u32_rgba, rgba_to_xrgb.
    rewrite <- lor_low by lia. rewrite <- (Z.shiftl_mul_pow2 _ 8), !Z.shiftl_lor, !Z.shiftl_shiftl by lia. done. }
  rewrite E, xrgb_value by done. destruct c as [cr cg cb ca], Hc as (Hr & Hg & Hb & Ha). cbn in *. unfold byte in *. unfold from_u32_rgba8.
  f_equal; byte_fields.
Qed.

(** ** Window buffers *)

Record buffer_ok (w : WindowBuffer) : Prop := {
  bo_width : 0 <= wb_width w;
  bo_height : 0 <= wb_height w;
  bo_pixels : wb_width w * wb_height w < 2 ^ 32;
  bo_back : zlen (back_buffer w) = wb_width w * wb_height w;
  bo_front : zlen (front_buffer w) = wb_width w * wb_height w;
}.

Lemma pixel_offset_ok {E} w x y : buffer_ok w -> 0 <= x < wb_width w -> 0 <= y < wb_height w ->
  pixel_offset (E:=E) w x y = Ok (y * wb_width w + x) /\ 0 <= y * wb_width w + x < wb_width w * wb_height w.
Proof.
  intros [? ? Hp _ _] Hx Hy. assert (0 <= y * wb_width w + x < wb_width w * wb_height w) by nia. split; [|done].
  unfold pixel_offset. rewrite u32_ok by nia. cbn [rbind]. by rewrite u32_ok by lia.
Qed.

Lemma new_buffer_ok {E} granted w h x y wb : 0 <= w -> 0 <= h -> window_buffer_new (E:=E) granted w h x y = Ok wb ->
  buffer_ok wb /\ wb_width wb = w /\ wb_height wb = h.
Proof.
  intros Hw Hh. unfold window_buffer_new, u32. destruct (Z.leb_spec 0 (w * h)), (Z.ltb_spec (w * h) (2 ^ 32)); cbn; try done.
  destruct granted; [|done]. intros [= <-]. split; [|done]. split; cbn; rewrite ?length_replicate; lia.
Qed.

Lemma read_pixel_at w x y : buffer_ok w -> 0 <= x < wb_width w -> 0 <= y < wb_height w ->
  read_pixel w x y = Ok (xrgb_to_rgba (front_buffer w !!! Z.to_nat (y * wb_width w + x))).
Proof.
  intros Hok Hx Hy. destruct (pixel_offset_ok (E:=Fault) w x y Hok Hx Hy) as [E Hb]. unfold read_pixel.
  rewrite !(proj2 (Z.ltb_lt _ _)) by lia. cbn [andb]. rewrite E. cbn [rbind]. unfold load_word.
  rewrite (proj2 (Z.leb_le _ _)) by lia. rewrite list_lookup_lookup_total_lt; [done|]. pose proof (bo_front _ Hok). lia.
Qed.

(** A pixel written to the back buffer is the one read from the front buffer after the
    swap, without its alpha; the other pixels are those the back buffer held. *)
Theorem pixel_write_swap_read w x y c : buffer_ok w -> rgba_ok c -> 0 <= x < wb_width w -> 0 <= y < wb_height w ->
  exists w1, write_pixel x y c w = (Ok tt, w1) /\ buffer_ok w1 /\ (try_swap w1).1 = true /\ buffer_ok (try_swap w1).2 /\
    read_pixel (try_swap w1).2 x y = Ok (from_rgb (red c) (green c) (blue c)) /\
    (forall x' y', 0 <= x' < wb_width w -> 0 <= y' < wb_height w -> (x', y') <> (x, y) ->
      read_pixel (try_swap w1).2 x' y' = Ok (xrgb_to_rgba (back_buffer w !!! Z.to_nat (y' * wb_width w + x')))) /\
    front_buffer w1 = front_buffer w.
Proof.
  intros Hok Hc Hx Hy. destruct (pixel_offset_ok (E:=Fault) w x y Hok Hx Hy) as [E Hb]. pose proof Hok as [? ? ? Hback Hfront].
  unfold write_pixel. rewrite !(proj2 (Z.ltb_lt _ _)) by lia. cbn [andb negb]. rewrite E. unfold store_word.
  rewrite (proj2 (Z.leb_le _ _)), (proj2 (Z.ltb_lt _ _)) by lia. cbn [andb].
  set (words := <[Z.to_nat (y * wb_width w + x) := rgba_to_xrgb c]> (back_buffer w)).
  assert (Hlen : zlen words = wb_width w * wb_height w) by (unfold words; rewrite length_insert; done).
  eexists. split; [done|].
  match goal with |- buffer_ok ?w1 /\ _ => assert (Hok2 : buffer_ok (try_swap w1).2) by (split; cbn; done) end.
  split; [by split|]. split; [done|]. split; [done|]. split; [|split; [|done]].
  - rewrite read_pixel_at by done. cbn [try_swap present needs_swap negb snd front_buffer back_buffer wb_width].
    unfold words. rewrite list_lookup_total_insert_eq by lia. by rewrite xrgb_roundtrip.
  - intros x' y' Hx' Hy' Hne. rewrite read_pixel_at by done.
    cbn [try_swap present needs_swap negb snd front_buffer back_buffer wb_width]. unfold words.
    rewrite list_lookup_total_insert_ne; [done|]. intros E'%Z2Nat.inj; [|lia|nia].
    destruct (index_inj (wb_width w) x y x' y' Hx Hx' E') as [-> ->]. done.
Qed.

(** ** Rectangles *)

Definition rect_ok (q : Rect) : Prop :=
  0 <= rect_x q /\ 0 <= rect_y q /\ 0 <= rect_width q /\ 0 <= rect_height q /\
  rect_x q + rect_width q < 2 ^ 32 /\ rect_y q + rect_height q < 2 ^ 32.

Definition inside (q : Rect) (px py : Z) : Prop :=
  rect_x q <= px < rect_x q + rect_width q /\ rect_y q <= py < rect_y q + rect_height q.

Lemma contains_inside {E} q px py : rect_ok q -> exists v, contains (E:=E) q px py = Ok v /\ (v = true <-> inside q px py).
Proof.
  intros (H1 & H2 & H3 & H4 & H5 & H6). unfold contains, and_then. rewrite !u32_ok by lia. cbn [rbind]. unfold inside.
  destruct (Z.leb_spec (rect_x q) px), (Z.ltb_spec px (rect_x q + rect_width q)), (Z.leb_spec (rect_y q) py),
    (Z.ltb_spec py (rect_y q + rect_height q)); cbn [rbind]; (eexists; split; [done|]); (split; [intros; (done || lia)|intros; (done || lia)]).
Qed.

(** The intersection of two rectangles contains the points in both, and there is none
    exactly when no point is in both or one of them is empty; their union contains both and
    lies in every rectangle that does. *)
Theorem rectangles {E} q o : rect_ok q -> rect_ok o ->
  (exists i, get_intersection_rect (E:=E) q o = Ok i /\
    forall px py, inside q px py /\ inside o px py <-> match i with Some i => inside i px py | None => False end) /\
  (exists u, get_union_rect (E:=E) q o = Ok u /\ rect_ok u /\
    (forall px py, inside q px py \/ inside o px py -> inside u px py) /\
    (forall v, (forall px py, inside q px py \/ inside o px py -> inside v px py) ->
      0 < rect_width q -> 0 < rect_height q -> 0 < rect_width o -> 0 < rect_height o ->
      forall px py, inside u px py -> inside v px py)).
Proof.
  destruct q as [qx qy qw qh], o as [ox oy ow oh]. unfold rect_ok, inside. cbn. intros Hq Ho. split.
  - unfold get_intersection_rect. cbn. rewrite !u32_ok by lia. cbn [rbind].
    destruct (_ || _ || _ || _) eqn:E1.
    + eexists. split; [done|]. intros px py. rewrite !orb_true_iff, !Z.leb_le in E1. lia.
    + rewrite !orb_false_iff, !Z.leb_gt in E1. rewrite !u32_ok by lia. cbn [rbind]. eexists. split; [done|]. intros px py. cbn. lia.
  - unfold get_union_rect. cbn. rewrite !u32_ok by lia. cbn [rbind]. rewrite !u32_ok by lia. cbn [rbind].
    eexists. split; [done|]. cbn. split; [lia|]. split; [lia|]. intros [vx vy vw vh] Hv. cbn in *. intros.
    pose proof (Hv qx qy). pose proof (Hv ox oy). pose proof (Hv (qx + qw - 1) (qy + qh - 1)). pose proof (Hv (ox + ow - 1) (oy + oh - 1)). lia.
Qed.

(** ** A small screen *)

Definition demo_target : FrameBufferTarget := mkTarget 6 4 32.

(** Two windows, the second hanging over the left edge; and one entirely left of it. *)
Definition demo_window (id x y w h colour : Z) : Window :=
  mkWindow id 1 x y 0 true (mkWindowBuffer w h x y (replicate (Z.to_nat (w * h)) colour) (replicate (Z.to_nat (w * h)) 0) true 0) None 0.

Definition demo_windows : list Window := [demo_window 0 1 1 3 2 7; demo_window 1 (-1) 0 3 2 9].
Definition demo_pointer : Pointer := mkPointer 5 3 true 0 0.

Lemma demo_target_ok : target_ok demo_target 8.
Proof. split; cbn; lia. Qed.

Lemma demo_shows : shows 8 4 (replicate 32 0) (fun _ _ => 0).
Proof. split; [done|]. intros x y Hx Hy. apply lookup_replicate. split; [done|]. nia. Qed.

Lemma demo_drawable w : w ∈ demo_windows -> is_visible w = true -> drawable w.
Proof. unfold demo_windows. rewrite !elem_of_cons. intros [-> | [-> | []%elem_of_nil]] _; split; repeat split; vm_compute; (reflexivity || discriminate). Qed.

Example demo_frame :
  (compose demo_target demo_windows demo_pointer (replicate 32 0)).2 =
  let C := CLEAR_COLOR_XRGB in let K := CURSOR_COLOR_XRGB in
  [9; 9; C; 0; 0; 0; 0; 0;
   9; 9; 7; 7; 0; 0; 0; 0;
   C; 7; 7; 7; 0; 0; 0; 0;
   C; C; C; 0; 0; K; 0; 0].
Proof. vm_compute. reflexivity. Qed.

Lemma compose_draws_witness :
  exists words', (compose demo_target demo_windows demo_pointer (replicate 32 0)).2 = words' /\ words' !! 9%nat = Some 9.
Proof.
  destruct (compose_draws demo_target 8 (replicate 32 0) (fun _ _ => 0) demo_windows demo_pointer demo_target_ok demo_shows demo_drawable)
    as (words' & E & _ & Hp).
  exists words'. split; [by rewrite E|]. exact (Hp 1 1 ltac:(lia) ltac:(cbn; lia)).
Defined.

Lemma compose_overruns_witness :
  (compose demo_target (demo_window 2 (-5) 1 3 2 7 :: demo_windows) demo_pointer (replicate 32 0)).1 = Err BadAccess.
Proof.
  apply (compose_overruns demo_target 8 (replicate 32 0) (fun _ _ => 0)); [apply demo_target_ok|apply demo_shows|..]; vm_compute; repeat split; (reflexivity || discriminate).
Defined.

Lemma pixel_write_swap_read_witness :
  let w := buffer (demo_window 0 1 1 3 2 7) in
  exists w1, write_pixel 2 1 (mkRgba 1 2 3 4) w = (Ok tt, w1) /\ read_pixel (try_swap w1).2 2 1 = Ok (mkRgba 1 2 3 255) /\
    read_pixel (try_swap w1).2 1 1 = Ok (mkRgba 0 0 7 255).
Proof.
  cbv zeta. destruct (pixel_write_swap_read (buffer (demo_window 0 1 1 3 2 7)) 2 1 (mkRgba 1 2 3 4)) as (w1 & E & _ & _ & _ & Hr & Ho & _).
  - split; vm_compute; (reflexivity || discriminate).
  - unfold rgba_ok, byte. cbn. lia.
  - cbn. lia.
  - cbn. lia.
  - exists w1. split; [done|]. split; [done|]. apply (Ho 1 1); cbn; (lia || discriminate).
Defined.

Lemma rectangles_witness : exists i, get_intersection_rect (E:=Empty_set) (mkRect 1 1 4 4) (mkRect 3 2 5 1) = Ok i /\
  (inside (mkRect 1 1 4 4) 4 2 /\ inside (mkRect 3 2 5 1) 4 2 <-> match i with Some i => inside i 4 2 | None => False end).
Proof.
  destruct (rectangles (E:=Empty_set) (mkRect 1 1 4 4) (mkRect 3 2 5 1)) as [(i & E & H) _]; [unfold rect_ok; cbn; lia..|].
  exists i. split; [done|]. apply H.
Defined.
