(* ===== verification/Compositor.v ===== *)
(** * Compositor: the windows of all processes, kernel/src/graphics/compositor.rs

    Creation, destruction and focus of windows, the mapping of their event pages into the
    processes, and the way input events take.  The drawing is in [Surface].  The state is
    the compositor with the kernel's processes and memory and the pages of the event
    buffers by their frames; locks are left out. *)

From Stdlib Require Import ZArith Lia.
From stdpp Require Import base tactics list option numbers gmap.
From S2P Require Import Prelude Tasks RunQueue Scheduler Wait FrameAlloc Regions UserMem ProcessMem Processes Events Surface.

Open Scope rust_scope.

Definition NORMALIZE_Z_INDEX_THRESHOLD : Z := 250.
Definition PROCESS_WINDOW_BUFFER_HARD_MAX_SIZE : Z := 64 * 1024 * 1024.
Definition PROCESS_EVENT_BUFFER_BASE : Z := 0x800000000.

Definition event_buffer_user_vaddr {E} (window_id : Z) : result E Z :=
  if window_id =? INVALID_WINDOW_ID then Panic else Ok (PROCESS_EVENT_BUFFER_BASE + window_id * PAGE_SIZE).

Record Compositor : Type := mkCompositor {
  framebuffer_width : Z;
  framebuffer_height : Z;
  next_window_id : Z;
  currently_focused_window : Z;
  free_window_ids : list Z;
  windows : list Window;
  pointer : Pointer;
  keyboard_state : KeyboardState;
}.

Definition compositor_new (framebuffer_width framebuffer_height : Z) : Compositor :=
  mkCompositor framebuffer_width framebuffer_height 0 INVALID_WINDOW_ID [] [] (mkPointer 0 0 true 0 0) keyboard_new.

(** The compositor, the kernel below it, the event pages, the queue of raw input, the
    focused window that programs are shown, and the tasks waiting for input. *)
Record Desk (T : Type) : Type := mkDesk {
  comp : Compositor;
  kern : Kernel T;
  pages : gmap Z EventBuffer;
  input_buffer : EventBuffer;
  focused_window_id : Z;
  input_waiters : WaiterList;
}.
Arguments mkDesk {T}. Arguments comp {T}. Arguments kern {T}. Arguments pages {T}.
Arguments input_buffer {T}. Arguments focused_window_id {T}. Arguments input_waiters {T}.

Definition set_z (z : Z) (w : Window) : Window :=
  mkWindow (w_id w) (owner_pid w) (w_x w) (w_y w) z (is_visible w) (buffer w) (event_buffer w) (event_buffer_phys w).
Definition set_hidden (w : Window) : Window :=
  mkWindow (w_id w) (owner_pid w) (w_x w) (w_y w) (z_index w) false (buffer w) None 0.

Definition set_windows (l : list Window) (c : Compositor) : Compositor :=
  mkCompositor (framebuffer_width c) (framebuffer_height c) (next_window_id c) (currently_focused_window c)
    (free_window_ids c) l (pointer c) (keyboard_state c).
Definition set_focused (id : Z) (c : Compositor) : Compositor :=
  mkCompositor (framebuffer_width c) (framebuffer_height c) (next_window_id c) id
    (free_window_ids c) (windows c) (pointer c) (keyboard_state c).
Definition set_ids (next : Z) (free : list Z) (c : Compositor) : Compositor :=
  mkCompositor (framebuffer_width c) (framebuffer_height c) next (currently_focused_window c)
    free (windows c) (pointer c) (keyboard_state c).
Definition set_pointer (p : Pointer) (c : Compositor) : Compositor :=
  mkCompositor (framebuffer_width c) (framebuffer_height c) (next_window_id c) (currently_focused_window c)
    (free_window_ids c) (windows c) p (keyboard_state c).
Definition set_keyboard (k : KeyboardState) (c : Compositor) : Compositor :=
  mkCompositor (framebuffer_width c) (framebuffer_height c) (next_window_id c) (currently_focused_window c)
    (free_window_ids c) (windows c) (pointer c) k.

(** [iter().max_by_key(..)]: the last of the largest. *)
Fixpoint max_by_key {A} (key : A -> Z) (l : list A) : option A :=
  match l with
  | [] => None
  | w :: l =>
      match max_by_key key l with
      | None => Some w
      | Some v => Some (if key v <? key w then w else v)
      end
  end.

(** [windows.get(id as usize)] *)
Definition get_window (l : list Window) (id : Z) : option Window :=
  if (0 <=? id) && (id <? zlen l) then l !! Z.to_nat id else None.

(** The windows sorted by z-index, with their places in the list, get their ranks, [as u8]. *)
Definition normalize (l : list Window) : list Window :=
  let visible := filter (fun '(_, w) => is_visible w = true) (imap pair l) in
  foldl (fun l '(rank, (place, _)) => alter (set_z (wrap 8 (Z.of_nat rank))) place l) l
    (imap pair (sort_by_key (fun '(_, w) => z_index w) visible)).

Definition clamp {E} (v lo hi : Z) : result E Z := if hi <? lo then Panic else Ok (Z.max lo (Z.min v hi)).

Section compositor.
Context (USABLE : Z) {VA : VirtAddrApi} {PF : PageFlags} {T : Type} {PM : PageMapper USABLE T}.
Variables (LAlt ArrowLeft ArrowRight : Z).

Abbreviation DM := (stM (Desk T) Empty_set).

Definition gets {A} (f : Desk T -> A) : DM A := fun d => (Ok (f d), d).

Definition on_comp (f : Compositor -> Compositor) : DM unit := fun d =>
  (Ok tt, mkDesk (f (comp d)) (kern d) (pages d) (input_buffer d) (focused_window_id d) (input_waiters d)).

Definition set_pages (p : gmap Z EventBuffer) : DM unit := fun d =>
  (Ok tt, mkDesk (comp d) (kern d) p (input_buffer d) (focused_window_id d) (input_waiters d)).

Definition publish_focus (id : Z) : DM unit := fun d =>
  (Ok tt, mkDesk (comp d) (kern d) (pages d) (input_buffer d) id (input_waiters d)).

(** Through the reference to an event buffer; a page that is gone would be freed memory. *)
Definition on_page {E A} (phys : Z) (c : stM EventBuffer E A) : DM (A + E) := fun d =>
  match pages d !! phys with
  | None => (Panic, d)
  | Some b =>
      let '(r, b) := c b in
      (match r with
       | Ok a => Ok (inl a)
       | Err e => Ok (inr e)
       | Panic => Panic
       | OutOfFuel => OutOfFuel
       end, mkDesk (comp d) (kern d) (<[phys := b]> (pages d)) (input_buffer d) (focused_window_id d) (input_waiters d))
  end.

(** [let _ = event_buffer.push(event)] *)
Definition push_to (phys : Z) (event : InputEvent) : DM unit :=
  let! _ := on_page phys (push event) in sret tt.

Definition publish_to (phys : Z) (words : KeyBitset) (m : Z) : DM unit :=
  let! _ := on_page (E:=Empty_set) phys (fun b => (Ok tt, publish_keyboard_state words m b)) in sret tt.

Definition on_machine_frames {A} (c : stM MemoryMapFrameAllocator Empty_set A) : DM A := fun d =>
  let k := kern d in
  let m := machine k in
  let '(r, a) := c (frames m) in
  (r, mkDesk (comp d) (mkKernel (manager k) (mkMachine (tables m) a (memory m)) (sched k) (stacks k))
        (pages d) (input_buffer d) (focused_window_id d) (input_waiters d)).

(** On the memory of a process that [get_process_mut] finds: its result, or none. *)
Definition on_process {A} (pid : Z) (c : stM (ProcessMemoryLayout * Machine T) MapToError A) : DM (option (A + MapToError)) := fun d =>
  let k := kern d in
  if pid =? INVALID_PID then (Panic, d) else
  match find_process pid (processes (manager k)) with
  | None => (Ok None, d)
  | Some p =>
      let '(r, (l, m)) := c (p_layout p, machine k) in
      (match r with
       | Ok a => Ok (Some (inl a))
       | Err e => Ok (Some (inr e))
       | Panic => Panic
       | OutOfFuel => OutOfFuel
       end, mkDesk (comp d)
              (mkKernel (mkManager (update_process pid (set_layout l) (processes (manager k))) (new_pid (manager k)))
                m (sched k) (stacks k))
              (pages d) (input_buffer d) (focused_window_id d) (input_waiters d))
  end.

(** [usermem::allocate_zeroed_page] *)
Definition zeroed_page : DM (option Z) := fun d =>
  let k := kern d in
  let '(r, m) := allocate_zeroed_page USABLE (machine k) in
  (match r with
   | Ok a => Ok a
   | Err _ => Panic
   | Panic => Panic
   | OutOfFuel => OutOfFuel
   end, mkDesk (comp d) (mkKernel (manager k) m (sched k) (stacks k)) (pages d) (input_buffer d) (focused_window_id d) (input_waiters d)).

(** ** Where a window's memory goes *)

Definition max_window_buffer_bytes (c : Compositor) : result Empty_set Z :=
  let framebuffer_bytes := framebuffer_width c * framebuffer_height c * FRAMEBUFFER_BYTES_PER_PIXEL in
  let? framebuffer_bytes := (if framebuffer_bytes <? 2 ^ 64 then Ok framebuffer_bytes else Panic) in
  let? bytes := align_up framebuffer_bytes PAGE_SIZE in
  Ok (Z.min bytes PROCESS_WINDOW_BUFFER_HARD_MAX_SIZE).

Definition window_buffer_user_base (c : Compositor) (window_id : Z) : result Empty_set Z :=
  let? bytes := max_window_buffer_bytes c in
  let slot_size := 2 * bytes in
  uadd PROCESS_WINDOW_BUFFER_BASE (window_id * slot_size).

Definition EVENT_PAGE_FLAGS : Z := Z.lor (Z.lor PRESENT WRITABLE) NO_EXECUTE.

Definition allocate_event_buffer_for_window (window_id pid : Z) : DM (option Z) :=
  let! page := zeroed_page in
  match page with
  | None => sret None
  | Some phys =>
      let! virt := slift (let? a := event_buffer_user_vaddr window_id in va_new a) in
      let! r := on_process pid (map_frames USABLE virt [phys] EVENT_PAGE_FLAGS Borrowed) in
      match r with
      | Some (inl _) =>
          let! p := gets pages in
          set_pages (<[phys := new_buffer]> p) ;;;
          sret (Some phys)
      | _ =>
          on_machine_frames (deallocate_frame (containing_address phys)) ;;;
          sret None
      end
  end.

(** ** Focus *)

Definition set_z_index (window_id z : Z) : DM unit :=
  if window_id =? INVALID_WINDOW_ID then sret tt else
  let! l := gets (fun d => windows (comp d)) in
  match get_window l window_id with
  | None => spanic
  | Some _ => on_comp (set_windows (alter (set_z z) (Z.to_nat window_id) l))
  end.

Fixpoint release_keys (phys : Z) (down : KeyBitset) (keys : list Z) : DM unit :=
  match keys with
  | [] => sret tt
  | key :: keys =>
      let! held := slift (test down key) in
      (if (held : bool) then push_to phys (new_key_state key Released 0) else sret tt) ;;;
      release_keys phys down keys
  end.

Definition release_held_keys (phys : Z) : DM unit :=
  let! k := gets (fun d => keyboard_state (comp d)) in
  release_keys phys (key_down k) (seqZ 0 KEY_COUNT) ;;;
  publish_to phys bitset_new 0.

(** [if let Some(event_buffer) = ..] *)
Definition when_buffer (b : option Z) (c : Z -> DM unit) : DM unit :=
  match b with
  | Some phys => c phys
  | None => sret tt
  end.

Definition focus_window (window_id : Z) : DM unit :=
  if window_id =? INVALID_WINDOW_ID then sret tt else
  let! focused_window := gets (fun d => currently_focused_window (comp d)) in
  if window_id =? focused_window then sret tt else
  let! l := gets (fun d => windows (comp d)) in
  match max_by_key z_index l with
  | None => spanic
  | Some top =>
      match get_window l window_id with
      | None => sret tt
      | Some window =>
          sassert (z_index top <? U8_MAX) ;;;
          let l := alter (set_z (z_index top + 1)) (Z.to_nat window_id) l in
          on_comp (fun c => set_focused window_id (set_windows l c)) ;;;
          (if NORMALIZE_Z_INDEX_THRESHOLD <? z_index top then on_comp (set_windows (normalize l)) else sret tt) ;;;
          when_buffer (get_window l focused_window ≫= event_buffer) release_held_keys ;;;
          let! k := gets (fun d => keyboard_state (comp d)) in
          when_buffer (event_buffer window) (fun phys => publish_to phys (key_down k) (held_modifiers k)) ;;;
          publish_focus window_id
      end
  end.

(** ** Creation and destruction *)

(** [granted]: the heap has room for the pixels. *)
Definition create_window (granted : bool) (width height x y pid : Z) : DM Z :=
  let! wb := slift (window_buffer_new granted width height x y) in
  let! c := gets comp in
  let! id := (match last (free_window_ids c) with
    | Some free_id => on_comp (set_ids (next_window_id c) (removelast (free_window_ids c))) ;;; sret free_id
    | None => on_comp (set_ids (wrap 32 (next_window_id c + 1)) (free_window_ids c)) ;;; sret (next_window_id c)
    end) in
  let! page := allocate_event_buffer_for_window id pid in
  let window := mkWindow id pid x y 0 true wb page (default 0 page) in
  let! l := gets (fun d => windows (comp d)) in
  on_comp (set_windows (if zlen l <=? id then l ++ [window] else <[Z.to_nat id := window]> l)) ;;;
  focus_window id ;;;
  sret id.

(** The unmapping in [destroy_window], of a process that has an address space. *)
Definition unmap_window (c : Compositor) (window_id buffer_bytes : Z) (event_phys : Z)
    : stM (ProcessMemoryLayout * Machine T) MapToError unit := fun s =>
  if top_page_table_phys s.1 =? 0 then (Ok tt, s) else
  (let! back_base := slift (match window_buffer_user_base c window_id with Ok a => va_new a | _ => Panic end) in
   let! max_bytes := slift (match max_window_buffer_bytes c with Ok a => Ok a | _ => Panic end) in
   let! front_base := slift (let? a := uadd back_base max_bytes in va_new a) in
   unmap_region USABLE back_base buffer_bytes ;;;
   unmap_region USABLE front_base buffer_bytes ;;;
   if event_phys =? 0 then sret tt else
   let! virt := slift (let? a := event_buffer_user_vaddr window_id in va_new a) in
   unmap_region USABLE virt PAGE_SIZE ;;;
   sret tt) s.

Definition destroy_window (window_id : Z) : DM unit :=
  if window_id =? INVALID_WINDOW_ID then sret tt else
  let! c := gets comp in
  match get_window (windows c) window_id with
  | None => sret tt
  | Some window =>
      if negb (is_visible window) then sret tt else
      on_comp (set_windows (alter set_hidden (Z.to_nat window_id) (windows c))) ;;;
      let! page_count := slift (page_count (buffer window)) in
      on_comp (set_ids (next_window_id c) (free_window_ids c ++ [window_id])) ;;;
      let! r := on_process (owner_pid window) (unmap_window c window_id (page_count * PAGE_SIZE) (event_buffer_phys window)) in
      (match r with Some (inr _) => spanic | _ => sret tt end) ;;;
      if event_buffer_phys window =? 0 then sret tt else
      let! p := gets pages in
      set_pages (base.delete (event_buffer_phys window) p) ;;;
      on_machine_frames (deallocate_frame (containing_address (event_buffer_phys window)))
  end.

Fixpoint destroy_each (ids : list Z) : DM unit :=
  match ids with
  | [] => sret tt
  | id :: ids => destroy_window id ;;; destroy_each ids
  end.

Definition destroy_windows_of_process (pid : Z) : DM unit :=
  let! l := gets (fun d => windows (comp d)) in
  destroy_each (map w_id (filter (fun w => is_visible w = true /\ owner_pid w = pid) l)).

(** [any] stops at the first window with input. *)
Fixpoint any_pending (p : gmap Z EventBuffer) (pid : Z) (l : list Window) : result Empty_set bool :=
  match l with
  | [] => Ok false
  | w :: l =>
      if (owner_pid w =? pid) && is_visible w then
        match event_buffer w with
        | None => any_pending p pid l
        | Some phys =>
            match p !! phys with
            | None => Panic
            | Some b => if negb (is_empty b) then Ok true else any_pending p pid l
            end
        end
      else any_pending p pid l
  end.

Definition process_has_pending_input (pid : Z) : DM bool :=
  let! l := gets (fun d => windows (comp d)) in
  let! p := gets pages in
  slift (any_pending p pid l).

(** ** Input *)

Definition get_focused_window_event_buffer : DM (option Z) :=
  gets (fun d =>
    let id := currently_focused_window (comp d) in
    if id =? INVALID_WINDOW_ID then None else get_window (windows (comp d)) id ≫= event_buffer).

Definition handle_key_state_event (event : InputEvent) : DM unit :=
  sassert (value event <? KEY_COUNT) ;;;
  let! k := gets (fun d => keyboard_state (comp d)) in
  let! state := slift (from_raw (extra event)) in
  let! k := slift (update k (wrap 8 (value event)) state (key_modifiers event)) in
  on_comp (set_keyboard k) ;;;
  let! b := get_focused_window_event_buffer in
  when_buffer b (fun phys =>
    publish_to phys (key_down k) (held_modifiers k) ;;;
    push_to phys event).

Definition handle_keyboard_event (event : InputEvent) : DM unit :=
  sassert (value event <? KEY_COUNT) ;;;
  let key := wrap 8 (value event) in
  let! state := slift (from_raw (extra event)) in
  let! alt := gets (fun d => test (key_down (keyboard_state (comp d))) LAlt) in
  let! alt := slift alt in
  (if alt && match state with Pressed => true | Released => false end then
     let! focused := gets (fun d => currently_focused_window (comp d)) in
     if key =? ArrowLeft then focus_window (saturating_sub focused 1)
     else if key =? ArrowRight then focus_window (wrap 32 (focused + 1))
     else sret tt
   else sret tt) ;;;
  let! b := get_focused_window_event_buffer in
  when_buffer b (fun phys => push_to phys event).

(** The test of a point against a window; sums are formed from left to right as needed. *)
Definition hits (mouse_x mouse_y : Z) (w : Window) : result Empty_set bool :=
  and_then (Ok (w_x w <=? mouse_x))
    (and_then (let? x_end := i32 (w_x w + as_i32 (wb_width (buffer w))) in Ok (mouse_x <? x_end))
      (and_then (Ok (w_y w <=? mouse_y))
        (let? y_end := i32 (w_y w + as_i32 (wb_height (buffer w))) in Ok (mouse_y <? y_end)))).

Fixpoint windows_at (mouse_x mouse_y : Z) (l : list Window) : result Empty_set (list Window) :=
  match l with
  | [] => Ok []
  | w :: l =>
      let? hit := (if is_visible w then hits mouse_x mouse_y w else Ok false) in
      let? l := windows_at mouse_x mouse_y l in
      Ok (if (hit : bool) then w :: l else l)
  end.

Definition find_and_focus_window_at (mouse_x mouse_y : Z) : DM unit :=
  let! c := gets comp in
  let! l := slift (windows_at mouse_x mouse_y (windows c)) in
  match max_by_key z_index l with
  | None => sret tt
  | Some w => if w_id w =? currently_focused_window c then sret tt else focus_window (w_id w)
  end.

Definition handle_mouse_click (mouse_x mouse_y : Z) : DM unit :=
  let! c := gets comp in
  let focused := currently_focused_window c in
  let! inside := slift (
    if focused =? INVALID_WINDOW_ID then Ok false else
    match get_window (windows c) focused with
    | Some w => if is_visible w then hits mouse_x mouse_y w else Ok false
    | None => Ok false
    end) in
  if (inside : bool) then sret tt else find_and_focus_window_at mouse_x mouse_y.

Definition handle_mouse_event (event : InputEvent) : DM unit :=
  let! c := gets comp in
  let mouse_event := decode_mouse event in
  let! x := slift (i32 (mouse_x (pointer c) + x_delta mouse_event)) in
  let! y := slift (i32 (mouse_y (pointer c) + y_delta mouse_event)) in
  let! x_max := slift (i32 (as_i32 (framebuffer_width c) - 1)) in
  let! x := slift (clamp x 0 x_max) in
  let! y_max := slift (i32 (as_i32 (framebuffer_height c) - 1)) in
  let! y := slift (clamp y 0 y_max) in
  on_comp (set_pointer (mkPointer x y (cursor_visible (pointer c)) (mouse_last_drawn_x (pointer c)) (mouse_last_drawn_y (pointer c)))) ;;;
  (if negb (buttons mouse_event =? 0) then handle_mouse_click x y else sret tt) ;;;
  let! b := get_focused_window_event_buffer in
  when_buffer b (fun phys => push_to phys event).

Definition handle_event (event : InputEvent) : DM unit :=
  match event_type event with
  | MouseEventType => handle_mouse_event event
  | KeyEvent => handle_keyboard_event event
  | KeyStateEvent => handle_key_state_event event
  | _ =>
      let! b := get_focused_window_event_buffer in
      when_buffer b (fun phys => push_to phys event)
  end.

Definition read_input : DM (option InputEvent) := fun d =>
  let '(r, b) := read (input_buffer d) in
  (r, mkDesk (comp d) (kern d) (pages d) b (focused_window_id d) (input_waiters d)).

(** The loop over the queued events; true when there was one. *)
Fixpoint drain (fuel : nat) (forwarded_any_event : bool) : DM bool :=
  match fuel with
  | O => sfuel
  | S fuel =>
      let! e := read_input in
      match e with
      | None => sret forwarded_any_event
      | Some event => handle_event event ;;; drain fuel true
      end
  end.

Definition wake_input_waiters (me : Z) : DM unit := fun d =>
  let k := kern d in
  let '(r, (w, s)) := wake_all me (input_waiters d, sched k) in
  (r, mkDesk (comp d) (mkKernel (manager k) (machine k) s (stacks k)) (pages d) (input_buffer d) (focused_window_id d) w).

(** Nothing is queued while this runs: one round more than events fit is enough. *)
Definition process_input_events (me : Z) : DM unit :=
  on_comp (fun c => set_keyboard (clear_transient (keyboard_state c)) c) ;;;
  let! forwarded_any_event := drain (S (Z.to_nat MAX_EVENT_COUNT)) false in
  if (forwarded_any_event : bool) then wake_input_waiters me else sret tt.

(** [compose] on the compositor's windows. *)
Definition compose_frame (fb : FrameBufferTarget) (words : list Z) : stM Compositor Fault (list Z) := fun c =>
  match compose fb (windows c) (pointer c) words with
  | (Ok (l, p), words) => (Ok words, set_pointer p (set_windows l c))
  | (Err e, _) => (Err e, c)
  | (Panic, _) => (Panic, c)
  | (OutOfFuel, _) => (OutOfFuel, c)
  end.

End compositor.
