(* ===== verification/CompositorSpec.v ===== *)
(** * CompositorSpec: what the compositor keeps

    The table of windows stays consistent in every run, event buffers that windows refer to
    are never freed pages, a focused window is the one that clicks find, and input reaches
    the focused window. *)

From Stdlib Require Import ZArith Lia.
From stdpp Require Import base tactics list option numbers sets gmap fin_map_dom relations.
From S2P Require Import Prelude Tasks RunQueue Scheduler Wait FrameAlloc Regions UserMem UserMemSpec ProcessMem Processes Events Surface SurfaceSpec Compositor.

Open Scope rust_scope.

(** ** The table of windows *)

Record windows_ok (c : Compositor) : Prop := {
  wo_ids : forall i w, windows c !! i = Some w -> w_id w = Z.of_nat i;
  wo_next : next_window_id c = zlen (windows c);
  wo_nodup : NoDup (free_window_ids c);
  wo_free : forall id, id ∈ free_window_ids c <-> exists i w, id = Z.of_nat i /\ windows c !! i = Some w /\ is_visible w = false;
  wo_hidden : forall i w, windows c !! i = Some w -> is_visible w = false -> event_buffer w = None;
  wo_focus : currently_focused_window c = INVALID_WINDOW_ID \/ 0 <= currently_focused_window c < zlen (windows c);
}.

(** Every event buffer a window refers to is a page of its own that is still there. *)
Record pages_ok (l : list Window) (p : gmap Z EventBuffer) : Prop := {
  po_page : forall i w phys, l !! i = Some w -> event_buffer w = Some phys -> event_buffer_phys w = phys /\ is_Some (p !! phys);
  po_own : forall i j w v phys, l !! i = Some w -> l !! j = Some v -> event_buffer w = Some phys -> event_buffer v = Some phys -> i = j;
  po_none : forall i w, l !! i = Some w -> event_buffer w = None -> event_buffer_phys w = 0;
}.

Definition desk_ok {T} (d : Desk T) : Prop := windows_ok (comp d) /\ pages_ok (windows (comp d)) (pages d).

(** Lists of windows that differ in their z-indices only. *)
Definition same_but_z (l l' : list Window) : Prop := Forall2 (fun w w' => w' = set_z (z_index w') w) l l'.

Lemma same_refl l : same_but_z l l.
Proof. induction l as [|[] l IH]; constructor; done. Qed.

Lemma same_trans l1 l2 l3 : same_but_z l1 l2 -> same_but_z l2 l3 -> same_but_z l1 l3.
Proof.
  intros H. revert l3. induction H as [|w v l1 l2 Hw _ IH]; intros l3 H3; inversion H3; subst; constructor; [|by apply IH].
  rewrite Hw in *. done.
Qed.

Lemma same_alter l z i : same_but_z l (alter (set_z z) i l).
Proof.
  revert i. induction l as [|w l IH]; intros [|i]; cbn; constructor; try done; try apply same_refl; [by destruct w|apply IH].
Qed.

Lemma same_normalize l : same_but_z l (normalize l).
Proof.
  unfold normalize. generalize (imap pair (sort_by_key (fun '(_, w) => z_index w) (filter (fun '(_, w) => is_visible w = true) (imap pair l)))) as ranks.
  intros ranks. enough (forall l', same_but_z l l' -> same_but_z l (foldl (fun l '(rank, (place, _)) =>
    alter (set_z (wrap 8 (Z.of_nat rank))) place l) l' ranks)) by auto using same_refl.
  induction ranks as [|[rank [place w]] ranks IH]; intros l' Hl; [done|]. cbn. apply IH. eapply same_trans; [done|apply same_alter].
Qed.

Lemma same_lookup l l' i w' : same_but_z l l' -> l' !! i = Some w' -> exists w z, l !! i = Some w /\ w' = set_z z w.
Proof. intros H Hw. destruct (Forall2_lookup_r _ _ _ _ _ H Hw) as (w & Hl & E). by exists w, (z_index w'). Qed.

Lemma same_lookup_l l l' i w : same_but_z l l' -> l !! i = Some w -> exists w' z, l' !! i = Some w' /\ w' = set_z z w.
Proof. intros H Hw. destruct (Forall2_lookup_l _ _ _ _ _ H Hw) as (w' & Hl & E). by exists w', (z_index w'). Qed.

(** The invariant does not look at z-indices. *)
Lemma windows_ok_same c c' : windows_ok c -> same_but_z (windows c) (windows c') -> next_window_id c' = next_window_id c ->
  free_window_ids c' = free_window_ids c ->
  (currently_focused_window c' = INVALID_WINDOW_ID \/ 0 <= currently_focused_window c' < zlen (windows c')) -> windows_ok c'.
Proof.
  intros [Hi Hn Hd Hf Hh _] Hs En Ef Hfoc. pose proof (Forall2_length _ _ _ Hs) as Hlen. split; [..|done].
  - intros i w' Hw'. destruct (same_lookup _ _ _ _ Hs Hw') as (w & z & Hw & ->). cbn. by apply Hi.
  - by rewrite En, Hn, Hlen.
  - by rewrite Ef.
  - intros id. rewrite Ef, Hf. split; intros (i & w & -> & Hw & Hv).
    + destruct (same_lookup_l _ _ _ _ Hs Hw) as (w' & z & Hw' & ->). by exists i, (set_z z w).
    + destruct (same_lookup _ _ _ _ Hs Hw) as (w' & z & Hw' & ->). by exists i, w'.
  - intros i w' Hw'. destruct (same_lookup _ _ _ _ Hs Hw') as (w & z & Hw & ->). cbn. by apply (Hh i).
Qed.

Lemma pages_ok_same l l' p : pages_ok l p -> same_but_z l l' -> pages_ok l' p.
Proof.
  intros [Hp Ho Hn] Hs. split.
  - intros i w' phys Hw'. destruct (same_lookup _ _ _ _ Hs Hw') as (w & z & Hw & ->). cbn. by apply (Hp i).
  - intros i j w' v' phys Hw' Hv'. destruct (same_lookup _ _ _ _ Hs Hw') as (w & z & Hw & ->), (same_lookup _ _ _ _ Hs Hv') as (v & zv & Hv & ->).
    cbn. by apply (Ho i j).
  - intros i w' Hw'. destruct (same_lookup _ _ _ _ Hs Hw') as (w & z & Hw & ->). cbn. by apply (Hn i).
Qed.

Lemma pages_ok_dom l p p' : pages_ok l p -> dom p' = dom p -> pages_ok l p'.
Proof.
  intros [Hp Ho Hn] Hd. split; [|done..]. intros i w phys Hw He. destruct (Hp i w phys Hw He) as [E Hs]. split; [done|].
  apply elem_of_dom. rewrite Hd. by apply elem_of_dom.
Qed.

Lemma get_window_nat l i : get_window l (Z.of_nat i) = l !! i.
Proof.
  unfold get_window. rewrite (proj2 (Z.leb_le _ _)), Nat2Z.id by lia. cbn [andb].
  destruct (Z.ltb_spec (Z.of_nat i) (zlen l)); [done|]. symmetry. apply lookup_ge_None. lia.
Qed.

Lemma get_window_Some l id w : get_window l id = Some w -> l !! Z.to_nat id = Some w /\ 0 <= id < zlen l.
Proof. unfold get_window. destruct (Z.leb_spec 0 id), (Z.ltb_spec id (zlen l)); cbn; done. Qed.

Section spec.
Context (USABLE : Z) {VA : VirtAddrApi} {PF : PageFlags} {T : Type} {PM : PageMapper USABLE T}.
Variables (LAlt ArrowLeft ArrowRight : Z).

Abbreviation DM := (stM (Desk T) Empty_set).

(** *** Calls that leave the compositor alone and keep the set of event pages *)

Definition quiet {A} (c : DM A) : Prop := forall d r d', c d = (r, d') -> comp d' = comp d /\ dom (pages d') = dom (pages d).

Lemma quiet_ret {A} (a : A) : quiet (sret a).
Proof. by intros d r d' [= _ <-]. Qed.

Lemma quiet_gets {A} (f : Desk T -> A) : quiet (gets f).
Proof. by intros d r d' [= _ <-]. Qed.

Lemma quiet_lift {A} (r : result Empty_set A) : quiet (slift r).
Proof. by intros d r' d' [= _ <-]. Qed.

Lemma quiet_panic {A} : quiet (spanic (A:=A)).
Proof. by intros d r d' [= _ <-]. Qed.

Lemma quiet_assert b : quiet (sassert b).
Proof. destruct b; [apply quiet_ret|apply quiet_panic]. Qed.

Lemma quiet_bind {A B} (c : DM A) (k : A -> DM B) : quiet c -> (forall a, quiet (k a)) -> quiet (sbind c k).
Proof.
  intros Hc Hk d r d' E. unfold sbind in E. destruct (c d) as [x d1] eqn:E1. destruct (Hc _ _ _ E1) as [H1 H2].
  destruct x; [destruct (Hk _ _ _ _ E) as [H3 H4]; split; congruence|injection E as _ <-; done..].
Qed.

Lemma quiet_page {E A} phys (c : stM EventBuffer E A) : quiet (on_page phys c).
Proof.
  intros d r d'. unfold on_page. destruct (pages d !! phys) as [b|] eqn:Eb; [|by intros [= _ <-]].
  destruct (c b) as [x b']. intros [= _ <-]. split; [done|]. cbn. rewrite dom_insert_L.
  assert (phys ∈ dom (pages d)) by (apply elem_of_dom; by exists b). set_solver.
Qed.

Lemma quiet_frames {A} (c : stM MemoryMapFrameAllocator Empty_set A) : quiet (on_machine_frames c).
Proof. intros d r d'. unfold on_machine_frames. destruct (c _). by intros [= _ <-]. Qed.

Lemma quiet_process {A} pid (c : stM (ProcessMemoryLayout * Machine T) MapToError A) : quiet (on_process pid c).
Proof.
  intros d r d'. unfold on_process. destruct (pid =? INVALID_PID); [by intros [= _ <-]|].
  destruct (find_process _ _); [|by intros [= _ <-]]. destruct (c _) as [? []]. by intros [= _ <-].
Qed.

Lemma quiet_zeroed : quiet (zeroed_page USABLE).
Proof. intros d r d'. unfold zeroed_page. destruct (allocate_zeroed_page _ _). by intros [= _ <-]. Qed.

Lemma quiet_push phys e : quiet (push_to phys e).
Proof. apply quiet_bind; [apply quiet_page|intros; apply quiet_ret]. Qed.

Lemma quiet_publish phys w m : quiet (publish_to phys w m).
Proof. apply quiet_bind; [apply quiet_page|intros; apply quiet_ret]. Qed.

Lemma quiet_release phys down keys : quiet (release_keys phys down keys).
Proof.
  induction keys as [|key keys IH]; [apply quiet_ret|]. cbn. apply quiet_bind; [apply quiet_lift|]. intros held.
  apply quiet_bind; [destruct held; [apply quiet_push|apply quiet_ret]|done].
Qed.

Lemma quiet_release_held phys : quiet (release_held_keys phys).
Proof.
  apply quiet_bind; [apply quiet_gets|]. intros k. apply quiet_bind; [apply quiet_release|]. intros _. apply quiet_publish.
Qed.

Lemma quiet_when b (c : Z -> DM unit) : (forall p, quiet (c p)) -> quiet (when_buffer b c).
Proof. destruct b; cbn; [done|intros _; apply quiet_ret]. Qed.

Lemma quiet_focus id : quiet (publish_focus (T:=T) id).
Proof. by intros d r d' [= _ <-]. Qed.

End spec.

#[export] Hint Resolve quiet_ret quiet_gets quiet_lift quiet_panic quiet_assert quiet_page quiet_frames quiet_process
  quiet_zeroed quiet_push quiet_publish quiet_release_held quiet_focus : quiet.

Section keeps.
Context (USABLE : Z) {VA : VirtAddrApi} {PF : PageFlags} {T : Type} {PM : PageMapper USABLE T}.
Variables (LAlt ArrowLeft ArrowRight : Z).

Abbreviation DM := (stM (Desk T) Empty_set).

(** *** Calls that keep the invariant *)

Definition keeps {A} (d : Desk T) (c : DM A) : Prop := desk_ok d -> forall r d', c d = (Ok r, d') -> desk_ok d'.

Lemma keeps_quiet {A} d (c : DM A) : quiet c -> keeps d c.
Proof.
  intros Hq [Hw Hp] r d' E. destruct (Hq _ _ _ E) as [Ec Ed]. unfold desk_ok. rewrite Ec. split; [done|]. by apply (pages_ok_dom _ (pages d)).
Qed.

Lemma keeps_bind {A B} d (c : DM A) (k : A -> DM B) : keeps d c ->
  (forall a d1, c d = (Ok a, d1) -> desk_ok d1 -> keeps d1 (k a)) -> keeps d (sbind c k).
Proof.
  intros Hc Hk Hd r d' E. destruct (sbind_inv_ok _ _ _ _ _ E) as (a & d1 & E1 & E2).
  by apply (Hk a d1 E1 (Hc Hd a d1 E1) (Hc Hd a d1 E1) r d').
Qed.

Lemma keeps_quiet_bind {A B} d (c : DM A) (k : A -> DM B) : quiet c ->
  (forall a d1, comp d1 = comp d -> dom (pages d1) = dom (pages d) -> keeps d1 (k a)) -> keeps d (sbind c k).
Proof.
  intros Hq Hk Hd r d' E. destruct (sbind_inv_ok _ _ _ _ _ E) as (a & d1 & E1 & E2). destruct (Hq _ _ _ E1) as [H1 H2].
  apply (Hk a d1 H1 H2) with (r := r); [|done]. by apply (keeps_quiet d c Hq Hd a d1).
Qed.

Lemma keeps_gets {A B} d (f : Desk T -> A) (k : A -> DM B) : keeps d (k (f d)) -> keeps d (sbind (gets f) k).
Proof. done. Qed.

Lemma keeps_lift {A B} d (r : result Empty_set A) (k : A -> DM B) : (forall a, r = Ok a -> keeps d (k a)) -> keeps d (sbind (slift r) k).
Proof. intros Hk Hd x d' E. unfold sbind, slift in E. destruct r; try done. by apply (Hk a eq_refl Hd x d'). Qed.

Lemma keeps_intro {A} d (c : DM A) : (desk_ok d -> keeps d c) -> keeps d c.
Proof. intros H Hd. by apply H. Qed.

(** A change of the compositor that only moves z-indices, the focus, the pointer and the keys. *)
Lemma keeps_comp d f : same_but_z (windows (comp d)) (windows (f (comp d))) ->
  next_window_id (f (comp d)) = next_window_id (comp d) -> free_window_ids (f (comp d)) = free_window_ids (comp d) ->
  (currently_focused_window (f (comp d)) = currently_focused_window (comp d) \/
    0 <= currently_focused_window (f (comp d)) < zlen (windows (comp d))) ->
  keeps d (on_comp f).
Proof.
  intros Hs Hn Hf Hfoc [Hw Hp] r d' [= _ <-]. cbn. split; cbn; [|by eapply pages_ok_same].
  apply (windows_ok_same (comp d)); try done. pose proof (wo_focus _ Hw). rewrite <- (Forall2_length _ _ _ Hs).
  destruct Hfoc as [->|?]; [done|by right].
Qed.

Lemma keeps_focus d id : 0 <= id -> keeps d (focus_window (T:=T) id).
Proof.
  intros H0. unfold focus_window. destruct (id =? INVALID_WINDOW_ID); [apply keeps_quiet, quiet_ret|].
  apply keeps_gets. destruct (id =? _); [apply keeps_quiet, quiet_ret|]. apply keeps_gets.
  destruct (max_by_key _ _) as [top|]; [|apply keeps_quiet, quiet_panic].
  destruct (get_window (windows (comp d)) id) as [w|] eqn:Ew; [|apply keeps_quiet, quiet_ret]. apply get_window_Some in Ew as [Ew _].
  apply keeps_quiet_bind; [apply quiet_assert|]. intros _ d1 E1 _. apply keeps_bind.
  { apply keeps_comp; cbn; rewrite ?E1; try done; [apply same_alter|]. right. apply lookup_lt_Some in Ew. lia. }
  intros [] d2 [= <-] Hd2. apply keeps_bind.
  { destruct (_ <? _); [|apply keeps_quiet, quiet_ret]. apply keeps_comp; cbn; rewrite ?E1; try done; [apply same_normalize|by left]. }
  intros _ d3 _ _. apply keeps_quiet_bind; [apply quiet_when; intros; apply quiet_release_held|]. intros _ d4 _ _.
  apply keeps_gets. apply keeps_quiet_bind; [apply quiet_when; intros; apply quiet_publish|]. intros _ d5 _ _. apply keeps_quiet, quiet_focus.
Qed.

Lemma keeps_set_z d id z : keeps d (set_z_index (T:=T) id z).
Proof.
  unfold set_z_index. destruct (id =? INVALID_WINDOW_ID); [apply keeps_quiet, quiet_ret|]. apply keeps_gets.
  destruct (get_window _ _); [|apply keeps_quiet, quiet_panic]. apply keeps_comp; cbn; try done; [apply same_alter|by left].
Qed.

(** *** Input *)

Lemma quiet_focused : quiet (get_focused_window_event_buffer (T:=T)).
Proof. apply quiet_gets. Qed.

Ltac route := apply keeps_gets; apply keeps_quiet, quiet_when; intros; apply quiet_push.

Lemma keeps_key_state d e : keeps d (handle_key_state_event (T:=T) e).
Proof.
  unfold handle_key_state_event. apply keeps_quiet_bind; [apply quiet_assert|]. intros _ d1 _ _. apply keeps_gets.
  apply keeps_lift. intros s _. apply keeps_lift. intros k _.
  apply keeps_bind; [apply keeps_comp; cbn; try done; [apply same_refl|by left]|]. intros _ d4 _ _.
  apply keeps_gets. apply keeps_quiet, quiet_when. intros. apply quiet_bind; [apply quiet_publish|]. intros _. apply quiet_push.
Qed.

Lemma keeps_keyboard d e : keeps d (handle_keyboard_event (T:=T) LAlt ArrowLeft ArrowRight e).
Proof.
  unfold handle_keyboard_event. apply keeps_quiet_bind; [apply quiet_assert|]. intros _ d1 _ _.
  apply keeps_lift. intros s _. apply keeps_gets. apply keeps_lift. intros alt _. apply keeps_bind.
  { destruct (alt && _); [|apply keeps_quiet, quiet_ret]. apply keeps_gets.
    destruct (_ =? _); [apply keeps_focus; unfold saturating_sub; lia|]. destruct (_ =? _); [|apply keeps_quiet, quiet_ret].
    apply keeps_focus. apply Z.mod_pos_bound. lia. }
  intros _ d4 _ _. route.
Qed.

Lemma windows_at_in mx my l l' w : windows_at mx my l = Ok l' -> w ∈ l' -> w ∈ l /\ is_visible w = true /\ hits mx my w = Ok true.
Proof.
  revert l'. induction l as [|v l IH]; intros l' E; [injection E as <-; by intros ?%elem_of_nil|]. cbn [windows_at] in E.
  destruct (if is_visible v then hits mx my v else Ok false) as [hit|e| |] eqn:Eh; try done. cbn [rbind] in E.
  destruct (windows_at mx my l) as [l1|e| |] eqn:El; try done. cbn [rbind] in E.
  assert (Hl1 : w ∈ l1 -> w ∈ v :: l /\ is_visible w = true /\ hits mx my w = Ok true).
  { intros Hin. destruct (IH l1 eq_refl Hin) as (? & ? & ?). rewrite elem_of_cons. auto. }
  destruct hit; injection E as <-; [|done]. intros [->|Hin]%elem_of_cons; [|auto].
  destruct (is_visible v); [|done]. split; [apply list_elem_of_here|done].
Qed.

Lemma max_in {A} (key : A -> Z) l w : max_by_key key l = Some w -> w ∈ l /\ forall v, v ∈ l -> key v <= key w.
Proof.
  revert w. induction l as [|v l IH]; intros w; [done|]. cbn. destruct (max_by_key key l) as [u|] eqn:Eu.
  - destruct (IH u eq_refl) as [Hin Hmax]. destruct (Z.ltb_spec (key u) (key v)); intros [= <-]; (split; [rewrite elem_of_cons; auto|]);
      intros x Hx; apply elem_of_cons in Hx as [->|Hx]; try lia; specialize (Hmax x Hx); lia.
  - intros [= <-]. destruct l as [|x l]; [|cbn in Eu; by destruct (max_by_key key l)].
    split; [apply list_elem_of_here|]. intros x Hx. apply list_elem_of_singleton in Hx as ->. lia.
Qed.

Lemma keeps_find d x y : keeps d (find_and_focus_window_at (T:=T) x y).
Proof.
  apply keeps_intro. intros [Hw _]. unfold find_and_focus_window_at. apply keeps_gets. apply keeps_lift. intros l El.
  destruct (max_by_key z_index l) as [w|] eqn:Em; [|apply keeps_quiet, quiet_ret].
  destruct (max_in _ _ _ Em) as [Hin _]. destruct (windows_at_in _ _ _ _ _ El Hin) as (Hin' & _ & _).
  apply list_elem_of_lookup in Hin' as [i Hi]. destruct (_ =? _); [apply keeps_quiet, quiet_ret|].
  apply keeps_focus. rewrite (wo_ids _ Hw i w Hi). lia.
Qed.

Lemma keeps_mouse d e : keeps d (handle_mouse_event (T:=T) e).
Proof.
  unfold handle_mouse_event. apply keeps_gets. do 6 (apply keeps_lift; intros ? _).
  apply keeps_bind; [apply keeps_comp; cbn; try done; [apply same_refl|by left]|]. intros _ d1 _ _. apply keeps_bind.
  - destruct (negb _); [|apply keeps_quiet, quiet_ret]. unfold handle_mouse_click. apply keeps_gets. apply keeps_lift. intros inside _.
    destruct inside; [apply keeps_quiet, quiet_ret|apply keeps_find].
  - intros _ d2 _ _. route.
Qed.

Lemma keeps_event d e : keeps d (handle_event (T:=T) LAlt ArrowLeft ArrowRight e).
Proof.
  unfold handle_event. destruct (event_type e); [route|route|apply keeps_keyboard|apply keeps_mouse|apply keeps_key_state].
Qed.

Lemma quiet_read : quiet (read_input (T:=T)).
Proof. intros d r d'. unfold read_input. destruct (read _). by intros [= _ <-]. Qed.

Lemma quiet_wake me : quiet (wake_input_waiters (T:=T) me).
Proof. intros d r d'. unfold wake_input_waiters. destruct (wake_all _ _) as [? []]. by intros [= _ <-]. Qed.

Lemma keeps_drain n : forall d b, keeps d (drain (T:=T) LAlt ArrowLeft ArrowRight n b).
Proof.
  induction n as [|n IH]; intros d b; [by intros ? ? ?|]. cbn [drain]. apply keeps_quiet_bind; [apply quiet_read|].
  intros [e|] d1 _ _; [|apply keeps_quiet, quiet_ret]. apply keeps_bind; [apply keeps_event|]. intros _ d2 _ _. apply IH.
Qed.

Lemma keeps_input me d : keeps d (process_input_events (T:=T) LAlt ArrowLeft ArrowRight me).
Proof.
  unfold process_input_events. apply keeps_bind; [apply keeps_comp; cbn; try done; [apply same_refl|by left]|].
  intros _ d1 _ _. apply keeps_bind; [apply keeps_drain|]. intros [] d2 _ _; [apply keeps_quiet, quiet_wake|apply keeps_quiet, quiet_ret].
Qed.

(** *** Creation *)

Lemma alloc_effect d window_id pid r d' : allocate_event_buffer_for_window USABLE window_id pid d = (Ok r, d') ->
  comp d' = comp d /\
  match r with
  | Some phys => (exists m, allocate_zeroed_page USABLE (machine (kern d)) = (Ok (Some phys), m)) /\
      dom (pages d') = {[phys]} ∪ dom (pages d)
  | None => dom (pages d') = dom (pages d)
  end.
Proof.
  unfold allocate_event_buffer_for_window. intros E. destruct (sbind_inv_ok _ _ _ _ _ E) as (page & d1 & E1 & E2).
  destruct (quiet_zeroed USABLE _ _ _ E1) as [C1 P1]. destruct page as [phys|]; [|injection E2 as <- <-; by rewrite C1, P1].
  destruct (sbind_inv_ok _ _ _ _ _ E2) as (virt & d2 & E3 & E4). injection E3 as _ <-.
  destruct (sbind_inv_ok _ _ _ _ _ E4) as (x & d3 & E5 & E6). destruct (quiet_process _ _ _ _ _ E5) as [C3 P3].
  assert (Hm : exists m, allocate_zeroed_page USABLE (machine (kern d)) = (Ok (Some phys), m)).
  { unfold zeroed_page in E1. destruct (allocate_zeroed_page USABLE (machine (kern d))) as [[o|e| |] m]; try done.
    exists m. by injection E1 as ->. }
  assert (Hfail : forall d4, (on_machine_frames (deallocate_frame (containing_address phys)) ;;; sret None) d3 = (Ok r, d4) ->
    r = None /\ comp d4 = comp d /\ dom (pages d4) = dom (pages d)).
  { intros d4 E7. destruct (sbind_inv_ok _ _ _ _ _ E7) as (u & d5 & E8 & E9). destruct (quiet_frames _ _ _ _ E8) as [C4 P4].
    injection E9 as <- <-. rewrite C4, P4, C3, P3. done. }
  destruct x as [[u|e]|]; [|destruct (Hfail _ E6) as (-> & ? & ?); done..].
  injection E6 as <- <-. cbn. rewrite C3, dom_insert_L, P3, C1, P1. done.
Qed.

Lemma removelast_snoc {A} (l : list A) x : last l = Some x -> l = removelast l ++ [x].
Proof.
  intros Hx. apply last_Some in Hx as [l' ->]. by rewrite List.removelast_last.
Qed.

(** The new window in the slot it gets. *)
Lemma placed_reused c i w v page : windows_ok c -> last (free_window_ids c) = Some (Z.of_nat i) -> windows c !! i = Some v ->
  w_id w = Z.of_nat i -> is_visible w = true -> event_buffer w = page ->
  windows_ok (set_windows (<[i := w]> (windows c)) (set_ids (next_window_id c) (removelast (free_window_ids c)) c)).
Proof.
  intros [Hi Hn Hd Hf Hh Hfoc] Hl Hv Eid Evis Epage. pose proof (removelast_snoc _ _ Hl) as Es.
  pose proof (lookup_lt_Some _ _ _ Hv) as Hlt. rewrite Es in Hd, Hf. apply list.NoDup_app in Hd as (Hd & Hdis & _).
  set (free := removelast (free_window_ids c)) in *.
  split; cbn [windows set_windows set_ids next_window_id free_window_ids currently_focused_window].
  - intros j u [(<- & <- & _)|[Hne Hu]]%list_lookup_insert_Some; [done|]. by apply Hi.
  - by rewrite length_insert.
  - done.
  - intros id. split.
    + intros Hin. destruct (proj1 (Hf id)) as (j & u & -> & Hu & Hvu); [set_solver|]. exists j, u. split_and!; try done.
      rewrite list_lookup_insert_ne; [done|]. intros ->. apply (Hdis (Z.of_nat j) Hin). set_solver.
    + intros (j & u & -> & [(<- & <- & _)|[Hne Hu]]%list_lookup_insert_Some & Hvu); [congruence|].
      assert (Hin : Z.of_nat j ∈ free ++ [Z.of_nat i]) by (apply Hf; by exists j, u).
      apply elem_of_app in Hin as [Hin|Hin%list_elem_of_singleton]; [done|]. lia.
  - intros j u [(<- & <- & _)|[Hne Hu]]%list_lookup_insert_Some Hvu; [congruence|]. by apply (Hh j).
  - by rewrite length_insert.
Qed.

Lemma placed_new c w page : windows_ok c -> zlen (windows c) < U32_MAX -> w_id w = zlen (windows c) -> is_visible w = true ->
  event_buffer w = page ->
  windows_ok (set_windows (windows c ++ [w]) (set_ids (wrap 32 (next_window_id c + 1)) (free_window_ids c) c)).
Proof.
  intros [Hi Hn Hd Hf Hh Hfoc] Hlt Eid Evis Epage. unfold U32_MAX in Hlt.
  split; cbn [windows set_windows set_ids next_window_id free_window_ids currently_focused_window].
  - intros j u [Hu|[? Hu]]%lookup_app_Some; [by apply Hi|]. apply list_lookup_singleton_Some in Hu as [Ej <-]. rewrite Eid. lia.
  - rewrite length_app, Hn. cbn. rewrite wrap_same by lia. lia.
  - done.
  - intros id. rewrite Hf. split; intros (j & u & -> & Hu & Hvu); exists j, u; (split; [done|]); (split; [|done]).
    + apply lookup_app_Some. by left.
    + apply lookup_app_Some in Hu as [Hu|[? Hu]]; [done|]. apply list_lookup_singleton_Some in Hu as [_ <-]. congruence.
  - intros j u [Hu|[? Hu]]%lookup_app_Some Hvu; [by apply (Hh j)|]. apply list_lookup_singleton_Some in Hu as [_ <-]. congruence.
  - rewrite length_app. cbn. destruct Hfoc as [?|?]; [by left|right; lia].
Qed.

(** Its page is its own when the allocator gave one that no window has. *)
Lemma placed_pages l l' i w p p' : pages_ok l p -> l' !! i = Some w -> (forall j u, l' !! j = Some u -> j <> i -> l !! j = Some u) ->
  match event_buffer w with
  | Some phys => p !! phys = None /\ event_buffer_phys w = phys /\ dom p' = {[phys]} ∪ dom p
  | None => dom p' = dom p /\ event_buffer_phys w = 0
  end -> pages_ok l' p'.
Proof.
  intros [Hp Ho Hn] Hw Hl Hpage.
  assert (Hsub : forall phys, is_Some (p !! phys) -> is_Some (p' !! phys)).
  { intros q Hq%elem_of_dom. apply elem_of_dom. destruct (event_buffer w); destruct_and!; set_solver. }
  assert (Hnew : forall j u phys, l' !! j = Some u -> event_buffer u = Some phys -> j <> i -> l !! j = Some u /\ is_Some (p !! phys))
    by (intros j u q Hu Hq Hj; split; [by apply Hl|]; by destruct (Hp j u q (Hl j u Hu Hj) Hq)).
  split.
  - intros j u phys Hu Hq. destruct (decide (j = i)) as [->|Hj].
    + rewrite Hw in Hu. injection Hu as <-. rewrite Hq in Hpage. destruct Hpage as (_ & Hphys & Hd). split; [done|].
      apply elem_of_dom. set_solver.
    + destruct (Hnew j u phys Hu Hq Hj) as [Hl1 Hs]. split; [by destruct (Hp j u phys Hl1 Hq)|auto].
  - intros j k u v phys Hu Hv Hqu Hqv. destruct (decide (j = i)) as [->|Hj], (decide (k = i)) as [->|Hk]; [done|..].
    + rewrite Hw in Hu. injection Hu as <-. rewrite Hqu in Hpage. destruct (Hnew k v phys Hv Hqv Hk) as [_ [b Hb]].
      destruct Hpage as [Hnone _]. congruence.
    + rewrite Hw in Hv. injection Hv as <-. rewrite Hqv in Hpage. destruct (Hnew j u phys Hu Hqu Hj) as [_ [b Hb]].
      destruct Hpage as [Hnone _]. congruence.
    + by apply (Ho j k u v phys); auto.
  - intros j u Hu Hq. destruct (decide (j = i)) as [->|Hj].
    + rewrite Hw in Hu. injection Hu as <-. rewrite Hq in Hpage. by destruct Hpage.
    + by apply (Hn j); auto.
Qed.

(** The frame allocator counts the event pages there are among the frames it has handed out. *)
Definition pages_held (d : Desk T) : Prop :=
  let a := frames (machine (kern d)) in
  sane USABLE (memory_map a) /\ exists other, holds USABLE a (elements (dom (pages d)) ++ other).

(** Then what it hands out next is not the page of a window. *)
Lemma page_fresh d phys m : pages_held d -> allocate_zeroed_page USABLE (machine (kern d)) = (Ok (Some phys), m) -> pages d !! phys = None.
Proof.
  intros (Hs & other & Hh) E. unfold allocate_zeroed_page, sbind, on_frames in E.
  destruct (allocate_frame USABLE (frames (machine (kern d)))) as [[[frame|]|[]| |] a] eqn:Ea; try done.
  assert (frame = phys) as ->.
  { cbn beta iota in E. destruct (zero_frame frame _) as [[u|e| |] m1]; try done. by injection E as -> _. }
  destruct (takes_holds USABLE _ _ a _ (takes_one USABLE _ phys a [] a Ea (takes_none USABLE a)) Hs Hh) as [Em Hh2].
  rewrite <- Em in Hs. destruct (holds_fresh USABLE a phys _ Hs Hh2) as [Hn _].
  apply eq_None_not_Some. intros Hin%elem_of_dom. apply Hn, elem_of_app. left. by apply elem_of_elements.
Qed.

Lemma create_ok d granted width height x y pid id d' : desk_ok d -> zlen (windows (comp d)) < U32_MAX -> pages_held d ->
  create_window USABLE granted width height x y pid d = (Ok id, d') -> desk_ok d'.
Proof.
  intros [Hw Hp] Hlt Hfresh E. unfold create_window in E. destruct (sbind_inv_ok _ _ _ _ _ E) as (wb & d1 & E1 & E2).
  injection E1 as _ <-. unfold sbind at 1, gets at 1 in E2. destruct (sbind_inv_ok _ _ _ _ _ E2) as (slot & d2 & E3 & E4).
  destruct (sbind_inv_ok _ _ _ _ _ E4) as (page & d3 & E5 & E6). destruct (alloc_effect _ _ _ _ _ E5) as [C3 P3].
  unfold sbind at 1, gets at 1 in E6. unfold sbind at 1, on_comp at 1 in E6.
  match type of E6 with sbind _ _ ?d4 = _ => enough (H4 : desk_ok d4 /\ 0 <= slot) end.
  { destruct H4 as [H4 H0]. destruct (sbind_inv_ok _ _ _ _ _ E6) as (u & d5 & E7 & E8). injection E8 as _ <-.
    by apply (keeps_focus _ slot H0 H4 u d5). }
  set (w := mkWindow slot pid x y 0 true wb page (default 0 page)) in *.
  assert (Hpage : forall k, kern d2 = kern d -> pages d2 = pages d -> k = match event_buffer w with
    | Some phys => pages d !! phys = None /\ event_buffer_phys w = phys /\ dom (pages d3) = {[phys]} ∪ dom (pages d)
    | None => dom (pages d3) = dom (pages d) /\ event_buffer_phys w = 0 end -> k).
  { intros k Ek Ep ->. rewrite Ek, Ep in P3. cbn [w event_buffer event_buffer_phys]. destruct page as [phys|]; [|done].
    destruct P3 as [[m Em] Hdom]. split; [by apply (page_fresh d phys m)|done]. }
  unfold desk_ok. cbn [comp pages]. rewrite C3. cbn [windows set_windows]. clear E E2 E4 E6 E5.
  destruct (last (free_window_ids (comp d))) as [free_id|] eqn:El.
  - injection E3 as <- <-. pose proof (removelast_snoc _ _ El) as Es.
    destruct (proj1 (wo_free _ Hw free_id)) as (i & v & -> & Hv & _); [rewrite Es; set_solver|].
    pose proof (lookup_lt_Some _ _ _ Hv). cbn [comp windows set_ids]. rewrite (proj2 (Z.leb_gt _ _)) by lia. rewrite Nat2Z.id.
    split; [split|lia].
    + by apply (placed_reused _ i w v page).
    + apply (placed_pages (windows (comp d)) _ i w (pages d)); [done|by rewrite list_lookup_insert_eq| |by apply (Hpage _ eq_refl eq_refl eq_refl)].
      intros j u Hu Hj. by rewrite list_lookup_insert_ne in Hu by done.
  - injection E3 as <- <-. pose proof (wo_next _ Hw) as Hnext. cbn [comp windows set_ids].
    rewrite (proj2 (Z.leb_le _ _)) by lia. split; [split|lia].
    + apply (placed_new _ w page); try done.
    + apply (placed_pages (windows (comp d)) _ (length (windows (comp d))) w (pages d)); [done|..|by apply (Hpage _ eq_refl eq_refl eq_refl)].
      * apply lookup_app_Some. right. split; [done|]. by rewrite Nat.sub_diag.
      * intros j u [Hu|[? Hu]]%lookup_app_Some Hj; [done|]. apply list_lookup_singleton_Some in Hu as [? _]. lia.
Qed.

(** *** Destruction *)

Lemma hidden_windows c i w : windows_ok c -> windows c !! i = Some w -> is_visible w = true ->
  windows_ok (set_ids (next_window_id c) (free_window_ids c ++ [Z.of_nat i]) (set_windows (alter set_hidden i (windows c)) c)).
Proof.
  intros [Hi Hn Hd Hf Hh Hfoc] Hw Hv.
  assert (Hl : forall j u, alter set_hidden i (windows c) !! j = Some u ->
    (j = i /\ u = set_hidden w) \/ (j <> i /\ windows c !! j = Some u)).
  { intros j u. destruct (decide (j = i)) as [->|Hne].
    - rewrite list_lookup_alter_eq, Hw. intros [= <-]. by left.
    - rewrite list_lookup_alter_ne by done. auto. }
  split; cbn [windows set_windows set_ids next_window_id free_window_ids currently_focused_window].
  - intros j u [[-> ->]|[_ Hu]]%Hl; cbn; by apply Hi.
  - by rewrite length_alter.
  - apply list.NoDup_app. split; [done|]. split; [|apply NoDup_singleton]. intros id Hin ->%list_elem_of_singleton.
    apply Hf in Hin as (j & u & Ej & Hu & Hvu). apply Nat2Z.inj in Ej as <-. congruence.
  - intros id. rewrite elem_of_app, list_elem_of_singleton, Hf. split.
    + intros [(j & u & -> & Hu & Hvu)| ->].
      * exists j, u. split_and!; try done. rewrite list_lookup_alter_ne; [done|]. intros <-. congruence.
      * exists i, (set_hidden w). split_and!; try done. by rewrite list_lookup_alter_eq, Hw.
    + intros (j & u & -> & [[-> ->]|[_ Hu]]%Hl & Hvu); [by right|]. left. by exists j, u.
  - intros j u [[-> ->]|[_ Hu]]%Hl Hvu; [done|]. by apply (Hh j).
  - by rewrite length_alter.
Qed.

Lemma hidden_pages l i w p : pages_ok l p -> l !! i = Some w ->
  pages_ok (alter set_hidden i l) p /\
  forall p', event_buffer_phys w <> 0 -> dom p' = dom (base.delete (event_buffer_phys w) p) -> pages_ok (alter set_hidden i l) p'.
Proof.
  intros [Hp Ho Hn] Hw.
  assert (Hl : forall j u, alter set_hidden i l !! j = Some u -> (u = set_hidden w) \/ (j <> i /\ l !! j = Some u)).
  { intros j u. destruct (decide (j = i)) as [->|Hne].
    - rewrite list_lookup_alter_eq, Hw. intros [= <-]. by left.
    - rewrite list_lookup_alter_ne by done. auto. }
  assert (Hok : pages_ok (alter set_hidden i l) p).
  { split.
    - intros j u phys [->|[_ Hu]]%Hl; [done|]. by apply (Hp j).
    - intros j k u v phys [->|[_ Hu]]%Hl; [done|]. intros [->|[_ Hv]]%Hl; [done|]. by apply (Ho j k).
    - intros j u [->|[_ Hu]]%Hl; [done|]. by apply (Hn j). }
  split; [done|]. intros p' H0 Hd. destruct Hok as [Hp2 Ho2 Hn2]. split; [|done..]. intros j u phys Hu Hq.
  destruct (Hp2 j u phys Hu Hq) as [E Hs]. split; [done|]. apply elem_of_dom. rewrite Hd, dom_delete_L.
  apply elem_of_difference. split; [by apply elem_of_dom|]. intros ->%elem_of_singleton.
  destruct (Hl j u Hu) as [->|[Hne Hu']]; [done|]. destruct (event_buffer w) as [q|] eqn:Eq.
  - destruct (Hp i w q Hw Eq) as [Eqq _]. apply Hne, (Ho j i u w q); try done. congruence.
  - by destruct (H0 (Hn i w Hw Eq)).
Qed.

Lemma destroy_ok d id d' : 0 <= id -> desk_ok d -> destroy_window USABLE id d = (Ok tt, d') -> desk_ok d'.
Proof.
  intros H0 [Hw Hp] E. unfold destroy_window in E. destruct (id =? INVALID_WINDOW_ID); [by injection E as <-|].
  unfold sbind at 1, gets at 1 in E. destruct (get_window (windows (comp d)) id) as [w|] eqn:Ew; [|by injection E as <-]. apply get_window_Some in Ew as [Ew _].
  destruct (is_visible w) eqn:Ev; cbn [negb] in E; [|by injection E as <-].
  unfold sbind at 1, on_comp at 1 in E. destruct (sbind_inv_ok _ _ _ _ _ E) as (count & d1 & E1 & E2). injection E1 as _ <-.
  unfold sbind at 1, on_comp at 1 in E2. destruct (sbind_inv_ok _ _ _ _ _ E2) as (r & d2 & E3 & E4).
  destruct (quiet_process _ _ _ _ _ E3) as [C2 P2]. cbn [comp pages] in C2, P2.
  destruct (sbind_inv_ok _ _ _ _ _ E4) as (u & d3 & E5 & E6). assert (d3 = d2) as -> by (by destruct r as [[]|]; injection E5 as _ <-).
  assert (Hc : windows_ok (comp d2)).
  { rewrite C2. replace id with (Z.of_nat (Z.to_nat id)) at 1 by lia. by apply (hidden_windows _ _ w). }
  destruct (hidden_pages _ _ _ _ Hp Ew) as [Hp1 Hp2].
  assert (Ewin : windows (comp d2) = alter set_hidden (Z.to_nat id) (windows (comp d))) by (by rewrite C2).
  destruct (Z.eqb_spec (event_buffer_phys w) 0) as [Hz|Hz].
  - injection E6 as <-. split; [done|]. rewrite Ewin. by apply (pages_ok_dom _ (pages d)).
  - unfold sbind at 1, gets at 1 in E6. unfold sbind at 1, set_pages at 1 in E6. destruct (quiet_frames _ _ _ _ E6) as [C4 P4].
    cbn [comp pages] in C4, P4. split; [by rewrite C4|]. rewrite C4, Ewin. apply Hp2; [done|]. by rewrite P4, !dom_delete_L, P2.
Qed.

Lemma destroy_each_ok ids : forall d d', Forall (Z.le 0) ids -> desk_ok d -> destroy_each USABLE ids d = (Ok tt, d') -> desk_ok d'.
Proof.
  induction ids as [|id ids IH]; intros d d' Hids Hd E; [by injection E as <-|]. cbn [destroy_each] in E.
  destruct (sbind_inv_ok _ _ _ _ _ E) as ([] & d1 & E1 & E2). inversion Hids; subst. eapply IH; [done| |exact E2].
  by eapply destroy_ok; [|exact Hd|exact E1].
Qed.

Lemma destroy_process_ok d pid d' : desk_ok d -> destroy_windows_of_process USABLE pid d = (Ok tt, d') -> desk_ok d'.
Proof.
  intros Hd E. unfold destroy_windows_of_process in E. unfold sbind, gets in E. eapply destroy_each_ok; [|exact Hd|exact E].
  apply list.Forall_forall. intros id (w & -> & Hw)%list_elem_of_fmap. apply list_elem_of_filter in Hw as [_ Hw].
  apply list_elem_of_lookup in Hw as [i Hi]. destruct Hd as [Hok _]. rewrite (wo_ids _ Hok i w Hi). lia.
Qed.

(** *** Runs *)

(** What the cores do to the compositor, when it does not panic.  Programs write their event
    pages and the kernel changes behind the compositor, which alone makes and removes those
    pages.  A window is made while the frame allocator counts the pages there are as handed
    out, which FrameAlloc.v and ProcessLife.v show of the frames of the other owners, and
    while there are fewer windows than numbers for them. *)
Inductive desk_step : Desk T -> Desk T -> Prop :=
  | step_create_window d granted width height x y pid id d' :
      zlen (windows (comp d)) < U32_MAX -> pages_held d ->
      create_window USABLE granted width height x y pid d = (Ok id, d') -> desk_step d d'
  | step_destroy d id d' : 0 <= id -> destroy_window USABLE id d = (Ok tt, d') -> desk_step d d'
  | step_destroy_process d pid d' : destroy_windows_of_process USABLE pid d = (Ok tt, d') -> desk_step d d'
  | step_focus d id d' : 0 <= id -> focus_window id d = (Ok tt, d') -> desk_step d d'
  | step_set_z d id z d' : set_z_index id z d = (Ok tt, d') -> desk_step d d'
  | step_input d me d' : process_input_events LAlt ArrowLeft ArrowRight me d = (Ok tt, d') -> desk_step d d'
  | step_outside d k p b f w : dom p = dom (pages d) -> desk_step d (mkDesk (comp d) k p b f w).

Lemma desk_step_ok d d' : desk_step d d' -> desk_ok d -> desk_ok d'.
Proof.
  intros Hs Hd. destruct Hs as [d granted width height x y pid id d' Hlt Hf E|d id d' H0 E|d pid d' E|d id d' H0 E|d id z d' E|d me d' E|d k p b f w Hdom].
  - by eapply create_ok.
  - by eapply destroy_ok.
  - by eapply destroy_process_ok.
  - by eapply (keeps_focus d id H0 Hd).
  - by eapply (keeps_set_z d id z Hd).
  - by eapply (keeps_input me d Hd).
  - destruct Hd as [Hw Hp]. split; [done|]. by apply (pages_ok_dom _ (pages d)).
Qed.

Definition desk_start (width height : Z) (k : Kernel T) (b : EventBuffer) (w : WaiterList) : Desk T :=
  mkDesk (compositor_new width height) k ∅ b INVALID_WINDOW_ID w.

Lemma desk_start_ok width height k b w : desk_ok (desk_start width height k b w).
Proof.
  split; split; cbn; try done.
  - constructor.
  - intros id. split; [by intros ?%elem_of_nil|]. intros (i & w0 & _ & Hi & _). by rewrite lookup_nil in Hi.
  - by left.
Qed.

(** C4: in every run without a panic, over a frame allocator that keeps count of the event
    pages handed out, the table of windows stays consistent: a window's id is its place, the
    free ids are the hidden windows, each listed once, the focus is none or a window there
    is; and every event buffer a window refers to is a page of its own that has not been
    freed. *)
Theorem window_table_invariant width height k b w d : rtc desk_step (desk_start width height k b w) d ->
  windows_ok (comp d) /\ pages_ok (windows (comp d)) (pages d).
Proof.
  intros Hr. enough (forall a c, rtc desk_step a c -> desk_ok a -> desk_ok c) as H by (exact (H _ _ Hr (desk_start_ok width height k b w))).
  induction 1 as [|x y z Hxy _ IH]; [done|]. intros Hx. by eapply IH, desk_step_ok.
Qed.

End keeps.
