(* ===== verification/CompositorFocus.v ===== *)
(** * CompositorFocus: which window is on top, and where input goes

    Focusing a visible window puts it above all other visible ones; focusing hidden
    windows drives the z-indices up to a panic; queued input reaches the focused window. *)

From Stdlib Require Import ZArith Lia Sorted.
From stdpp Require Import base tactics list option numbers sets gmap fin_map_dom relations sorting.
From S2P Require Import Prelude Tasks RunQueue Scheduler Wait FrameAlloc Regions UserMem ProcessMem FlatTables ProcessLife Processes ProcessesSpec Events Surface SurfaceSpec Compositor CompositorSpec.

Open Scope rust_scope.

(** ** Ranks *)

Definition ranks (l : list Window) : list (nat * (nat * Window)) :=
  imap pair (sort_by_key (fun '(_, w) => z_index w) (filter (fun '(_, w) => is_visible w = true) (imap pair l))).

Definition give_ranks (l : list Window) (rs : list (nat * (nat * Window))) : list Window :=
  foldl (fun l '(rank, (place, _)) => alter (set_z (wrap 8 (Z.of_nat rank))) place l) l rs.

Lemma give_other rs : forall l i, (forall rank v, (rank, (i, v)) ∉ rs) -> give_ranks l rs !! i = l !! i.
Proof.
  induction rs as [|[rank [place v]] rs IH]; intros l i Hi; [done|]. cbn.
  rewrite IH; [|intros r' v' Hin; apply (Hi r' v'); by apply elem_of_cons; right].
  apply list_lookup_alter_ne. intros <-. apply (Hi rank v), list_elem_of_here.
Qed.

Lemma give_at rs : forall l i rank v, NoDup (map (fun x => x.2.1) rs) -> (rank, (i, v)) ∈ rs ->
  give_ranks l rs !! i = set_z (wrap 8 (Z.of_nat rank)) <$> l !! i.
Proof.
  induction rs as [|[rank' [place u]] rs IH]; intros l i rank v Hnd Hin; [by apply elem_of_nil in Hin|].
  cbn in Hnd. apply NoDup_cons in Hnd as [Hno Hnd]. cbn. apply elem_of_cons in Hin as [[= <- <- <-]|Hin].
  - fold (give_ranks (alter (set_z (wrap 8 (Z.of_nat rank))) i l) rs). rewrite give_other; [apply list_lookup_alter_eq|].
    intros r' v' Hin. apply Hno, list_elem_of_fmap. by exists (r', (i, v')).
  - fold (give_ranks (alter (set_z (wrap 8 (Z.of_nat rank'))) place l) rs). rewrite (IH _ i rank v Hnd Hin).
    rewrite list_lookup_alter_ne; [done|]. intros <-. apply Hno, list_elem_of_fmap. by exists (rank, (place, v)).
Qed.

Lemma elem_imap_pair {A} (l : list A) i x : (i, x) ∈ imap pair l <-> l !! i = Some x.
Proof.
  rewrite list_elem_of_lookup. split.
  - intros [k Hk]. rewrite list_lookup_imap in Hk. destruct (l !! k) eqn:E; [|done]. by injection Hk as <- <-.
  - intros Hi. exists i. by rewrite list_lookup_imap, Hi.
Qed.

Lemma rank_of l rank i w : (rank, (i, w)) ∈ ranks l -> l !! i = Some w /\ is_visible w = true.
Proof.
  unfold ranks. intros Hin%elem_imap_pair%list_elem_of_lookup_2. rewrite sort_by_key_perm in Hin.
  apply list_elem_of_filter in Hin as [Hv Hin%elem_imap_pair]. done.
Qed.

Lemma visible_ranked l i w : l !! i = Some w -> is_visible w = true -> exists rank, (rank, (i, w)) ∈ ranks l.
Proof.
  intros Hi Hv. assert (Hin : (i, w) ∈ sort_by_key (fun '(_, w) => z_index w) (filter (fun '(_, w) => is_visible w = true) (imap pair l))).
  { rewrite sort_by_key_perm. apply list_elem_of_filter. split; [done|]. by apply elem_imap_pair. }
  apply list_elem_of_lookup in Hin as [rank Hr]. exists rank. by apply elem_imap_pair.
Qed.

Lemma ranks_places l : map (fun x => x.2.1) (ranks l) =
  map fst (sort_by_key (fun '(_, w) => z_index w) (filter (fun '(_, w) => is_visible w = true) (imap pair l))).
Proof.
  unfold ranks. apply list_eq. intros i. rewrite !list_lookup_fmap, list_lookup_imap. by destruct (_ !! i).
Qed.

Lemma NoDup_imap_pair {A} (l : list A) : NoDup (imap pair l).
Proof.
  apply NoDup_alt. intros i j x Hi Hj. rewrite list_lookup_imap in Hi, Hj.
  destruct (l !! i) eqn:Ei, (l !! j) eqn:Ej; cbn in *; congruence.
Qed.

Lemma ranks_nodup l : NoDup (map (fun x => x.2.1) (ranks l)).
Proof.
  rewrite ranks_places, sort_by_key_perm. apply NoDup_fmap_fst.
  - intros i v1 v2 [_ H1%elem_imap_pair]%list_elem_of_filter [_ H2%elem_imap_pair]%list_elem_of_filter. congruence.
  - apply NoDup_filter, NoDup_imap_pair.
Qed.

(** A hidden window keeps its z-index; a visible one gets its rank among the visible ones. *)
Lemma normalize_hidden l i w : l !! i = Some w -> is_visible w = false -> normalize l !! i = Some w.
Proof.
  intros Hi Hv. change (normalize l) with (give_ranks l (ranks l)). rewrite give_other; [done|].
  intros rank v [Hi' Hv']%rank_of. congruence.
Qed.

Lemma normalize_visible l i w rank : (rank, (i, w)) ∈ ranks l -> normalize l !! i = Some (set_z (wrap 8 (Z.of_nat rank)) w).
Proof.
  intros Hin. change (normalize l) with (give_ranks l (ranks l)). rewrite (give_at _ _ _ _ _ (ranks_nodup l) Hin).
  destruct (rank_of _ _ _ _ Hin) as [-> _]. done.
Qed.

Definition visible_count (l : list Window) : nat := length (filter (fun w => is_visible w = true) l).

Lemma filter_imap_length l : length (filter (fun '(_, w) => is_visible w = true) (imap pair l)) = visible_count l.
Proof.
  unfold visible_count. assert (Hg : forall k, length (filter (fun '(_, w) => is_visible w = true) (imap (fun i x => ((k + i)%nat, x)) l)) =
    length (filter (fun w => is_visible w = true) l)).
  { induction l as [|w l IH]; intros k; [done|]. cbn [imap]. rewrite !filter_cons.
    assert (E : length (filter (fun '(_, w) => is_visible w = true) (imap ((fun i x => ((k + i)%nat, x)) ∘ S) l)) =
      length (filter (fun w => is_visible w = true) l)).
    { rewrite <- (IH (S k)). f_equal. f_equal. apply imap_ext. intros i x _. cbn. f_equal. lia. }
    destruct (decide (is_visible w = true)) as [Hv|Hv]; [cbn [length]; by rewrite E|done]. }
  apply (Hg 0%nat).
Qed.

Lemma sorted_lookup {A} (R : A -> A -> Prop) l i j x y : StronglySorted R l -> l !! i = Some x -> l !! j = Some y -> (i < j)%nat -> R x y.
Proof.
  intros Hs. revert i j. induction Hs as [|z l _ IH Hz]; intros [|i] [|j] Hi Hj Hlt; try done; try lia; cbn in *.
  - injection Hi as ->. rewrite list.Forall_forall in Hz. by apply Hz, list_elem_of_lookup_2 in Hj || (apply Hz; by eapply list_elem_of_lookup_2).
  - apply (IH i j); [done|done|lia].
Qed.

(** The window with the largest z-index gets the last rank. *)
Lemma top_rank l i w rank : (rank, (i, w)) ∈ ranks l ->
  (forall j v, l !! j = Some v -> is_visible v = true -> j <> i -> z_index v < z_index w) ->
  forall j v rank', (rank', (j, v)) ∈ ranks l -> j <> i -> (rank' < rank < visible_count l)%nat.
Proof.
  intros Hin Hmax j v rank' Hin' Hj. destruct (rank_of _ _ _ _ Hin') as [Hlv Hv]. specialize (Hmax j v Hlv Hv Hj).
  unfold ranks in *. apply elem_imap_pair in Hin, Hin'. set (S := sort_by_key _ _) in *.
  assert (Hlen : length S = visible_count l) by (unfold S; rewrite sort_by_key_perm; apply filter_imap_length).
  pose proof (lookup_lt_Some _ _ _ Hin). split; [|lia]. destruct (decide (rank' < rank)%nat); [done|].
  destruct (decide (rank' = rank)) as [->|]; [rewrite Hin in Hin'; injection Hin' as <- <-; lia|]. exfalso.
  assert (Hle : z_index w <= z_index v); [|lia].
  exact (sorted_lookup _ _ rank rank' _ _ (sort_by_key_sorted _ _) Hin Hin' ltac:(lia)).
Qed.

Section focus.
Context {T : Type}.

Abbreviation DM := (stM (Desk T) Empty_set).

(** ** Event pages that the programs have left in order *)

Definition page_sane (b : EventBuffer) : Prop := (exists l, waiting b l) /\ length (shared_key_down b) = 4%nat.

Definition pages_sane (d : Desk T) : Prop :=
  forall i w phys, windows (comp d) !! i = Some w -> event_buffer w = Some phys ->
    exists b, pages d !! phys = Some b /\ page_sane b.

Lemma waiting_publish b l words m : waiting b l -> waiting (publish_keyboard_state words m b) l.
Proof.
  intros (st & gt & [Hl Hc Hb Hp Hs Hw Hr] & E). exists st, gt. split; [|done].
  split; unfold writer_ok, reader_ok in *; cbn in *; done.
Qed.

Lemma push_waiting b e : page_sane b -> exists r b', push e b = (r, b') /\ (r = Ok tt \/ r = Err Full) /\ page_sane b' /\
  shared_modifiers b' = shared_modifiers b /\ shared_key_down b' = shared_key_down b.
Proof.
  intros [[l Hl] Hlen]. destruct (push_queue e b l Hl) as (b' & E & Hw). eexists _, b'. split; [done|].
  assert (Hsh : shared_modifiers b' = shared_modifiers b /\ shared_key_down b' = shared_key_down b).
  { revert E. clear. unfold push, push_from. cbn [push_step]. destruct (MAX_EVENT_COUNT <=? event_count b); [by intros [= _ <-]|].
    cbn [push_step]. destruct (negb _); [by intros [= _ <-]|]. cbn. by intros [= _ <-]. }
  split; [by destruct (_ <? _)%nat; [left|right]|]. split; [|done]. split; [by eexists|]. by destruct Hsh as [_ ->].
Qed.

(** The state with another event page. *)
Definition with_page (phys : Z) (b : EventBuffer) (d : Desk T) : Desk T :=
  mkDesk (comp d) (kern d) (<[phys := b]> (pages d)) (input_buffer d) (focused_window_id d) (input_waiters d).

Lemma push_to_ok phys e d b : pages d !! phys = Some b -> page_sane b ->
  exists b', push_to phys e d = (Ok tt, with_page phys b' d) /\ page_sane b'.
Proof.
  intros Eb Hb. destruct (push_waiting b e Hb) as (r & b' & E & Hr & Hb' & _). exists b'. split; [|done].
  unfold push_to, sbind, on_page. rewrite Eb, E. by destruct Hr as [-> | ->].
Qed.

Lemma publish_to_ok phys words m d b : pages d !! phys = Some b -> page_sane b -> length words = 4%nat ->
  publish_to phys words m d = (Ok tt, with_page phys (publish_keyboard_state words m b) d) /\
  page_sane (publish_keyboard_state words m b) /\ shared_modifiers (publish_keyboard_state words m b) = m /\
  shared_key_down (publish_keyboard_state words m b) = words.
Proof.
  intros Eb [[l Hl] Hlen] Hw. assert (Ek : shared_key_down (publish_keyboard_state words m b) = words).
  { cbn. destruct (shared_key_down b) as [|? [|? [|? [|? []]]]], words as [|? [|? [|? [|? []]]]]; done. }
  split; [by unfold publish_to, sbind, on_page; rewrite Eb|]. split; [split; [exists l; by apply waiting_publish|by rewrite Ek]|done].
Qed.

Lemma release_keys_ok phys down keys : forall d b, pages d !! phys = Some b -> page_sane b -> bitset_ok down -> Forall is_key keys ->
  exists b', release_keys phys down keys d = (Ok tt, with_page phys b' d) /\ page_sane b'.
Proof.
  induction keys as [|key keys IH]; intros d b Eb Hb Hd Hk.
  - exists b. split; [|done]. unfold with_page. rewrite insert_id by done. by destruct d.
  - apply Forall_cons_1 in Hk as [Hkey Hk]. cbn [release_keys]. unfold sbind at 1, slift. rewrite (test_ok _ _ Hd Hkey).
    assert (H1 : exists b1, (if holds_key down key then push_to phys (new_key_state key Released 0) else sret tt) d = (Ok tt, with_page phys b1 d) /\ page_sane b1).
    { destruct (holds_key down key); [by apply (push_to_ok _ _ _ b)|]. exists b. split; [|done]. unfold with_page.
      rewrite insert_id by done. by destruct d. }
    destruct H1 as (b1 & E1 & Hb1). rewrite (sbind_ok _ _ _ _ _ E1).
    destruct (IH (with_page phys b1 d) b1) as (b2 & E2 & Hb2); [by cbn; rewrite lookup_insert_eq|done..|].
    exists b2. split; [|done]. rewrite E2. unfold with_page. cbn. by rewrite insert_insert_eq.
Qed.

Lemma release_held_ok phys d b : pages d !! phys = Some b -> page_sane b -> keyboard_ok (keyboard_state (comp d)) ->
  exists b', release_held_keys phys d = (Ok tt, with_page phys b' d) /\ page_sane b'.
Proof.
  intros Eb Hb Hk. unfold release_held_keys. unfold sbind at 1, gets.
  destruct (release_keys_ok phys (key_down (keyboard_state (comp d))) (seqZ 0 KEY_COUNT) d b Eb Hb) as (b1 & E1 & Hb1);
    [apply Hk|apply Forall_seqZ; intros; split; lia|].
  rewrite (sbind_ok _ _ _ _ _ E1). destruct (publish_to_ok phys bitset_new 0 (with_page phys b1 d) b1) as (E2 & Hb2 & _);
    [by cbn; rewrite lookup_insert_eq|done|done|].
  exists (publish_keyboard_state bitset_new 0 b1). split; [|done]. rewrite E2. unfold with_page. cbn. by rewrite insert_insert_eq.
Qed.

(** ** What [focus_window] does *)

Definition raised (l : list Window) (id : nat) (z : Z) : list Window :=
  let l := alter (set_z (z + 1)) id l in if NORMALIZE_Z_INDEX_THRESHOLD <? z then normalize l else l.

Lemma same_raised l id z : same_but_z l (raised l id z).
Proof.
  unfold raised. destruct (_ <? _); [|apply same_alter]. eapply same_trans; [apply same_alter|apply same_normalize].
Qed.

(** A buffer of a window of [l] is one of the windows of the state. *)
Lemma sane_page_of d l i w phys : pages_sane d -> same_but_z (windows (comp d)) l -> l !! i = Some w -> event_buffer w = Some phys ->
  exists b, pages d !! phys = Some b /\ page_sane b.
Proof.
  intros Hs Hl Hw He. destruct (same_lookup _ _ _ _ Hl Hw) as (v & z & Hv & ->). by apply (Hs i v).
Qed.

Lemma insert_sane (p : gmap Z EventBuffer) q b phys : page_sane b ->
  (exists c, p !! phys = Some c /\ page_sane c) -> exists c, <[q := b]> p !! phys = Some c /\ page_sane c.
Proof.
  intros Hb (c & Ec & Hc). destruct (decide (q = phys)) as [->|Hne]; [by exists b; rewrite lookup_insert_eq|].
  exists c. by rewrite lookup_insert_ne.
Qed.

Lemma focus_runs d id w top : pages_sane d -> keyboard_ok (keyboard_state (comp d)) -> zlen (windows (comp d)) < U32_MAX ->
  windows (comp d) !! id = Some w -> Z.of_nat id <> currently_focused_window (comp d) ->
  max_by_key z_index (windows (comp d)) = Some top -> z_index top < U8_MAX ->
  exists p, focus_window (Z.of_nat id) d = (Ok tt, mkDesk
      (set_focused (Z.of_nat id) (set_windows (raised (windows (comp d)) id (z_index top)) (comp d)))
      (kern d) p (input_buffer d) (Z.of_nat id) (input_waiters d)) /\
    (forall i v phys, windows (comp d) !! i = Some v -> event_buffer v = Some phys -> exists b, p !! phys = Some b /\ page_sane b) /\
    (forall phys, event_buffer w = Some phys -> exists b, p !! phys = Some b /\
      shared_key_down b = key_down (keyboard_state (comp d)) /\ shared_modifiers b = held_modifiers (keyboard_state (comp d))).
Proof.
  intros Hs Hk Hlt Hw Hne Htop Hz. pose proof (lookup_lt_Some _ _ _ Hw) as Hid. unfold focus_window.
  rewrite (proj2 (Z.eqb_neq _ INVALID_WINDOW_ID)) by (unfold INVALID_WINDOW_ID; lia).
  unfold sbind at 1, gets at 1. rewrite (proj2 (Z.eqb_neq _ _)) by done. unfold sbind at 1, gets at 1. rewrite Htop, get_window_nat, Hw, ?Nat2Z.id.
  unfold sbind at 1, sassert. rewrite (proj2 (Z.ltb_lt _ _)) by done. unfold sret at 1.
  set (l := windows (comp d)) in *. set (l1 := alter (set_z (z_index top + 1)) id l).
  unfold sbind at 1, on_comp at 1.
  assert (Hn : forall c : Compositor, windows c = l1 -> forall k p b f wt, (if NORMALIZE_Z_INDEX_THRESHOLD <? z_index top
    then on_comp (T:=T) (set_windows (normalize l1)) else sret tt) (mkDesk c k p b f wt) =
    (Ok tt, mkDesk (set_windows (raised l id (z_index top)) c) k p b f wt)).
  { intros c Ec k p b f wt. unfold raised. fold l1. destruct (_ <? _); [done|]. unfold sret. do 3 f_equal. destruct c; cbn in *. by subst. }
  rewrite (sbind_ok _ _ _ _ _ (Hn (set_focused (Z.of_nat id) (set_windows l1 (comp d))) eq_refl _ _ _ _ _)).
  set (d2 := mkDesk _ _ _ _ _ _).
  assert (Hsame : same_but_z l (raised l id (z_index top))) by apply same_raised.
  assert (H3 : exists p, when_buffer (get_window l1 (currently_focused_window (comp d)) ≫= event_buffer)
      release_held_keys d2 = (Ok tt, mkDesk (comp d2) (kern d2) p (input_buffer d2) (focused_window_id d2) (input_waiters d2)) /\
    (forall i v phys, l !! i = Some v -> event_buffer v = Some phys -> exists b, p !! phys = Some b /\ page_sane b)).
  { destruct (get_window l1 (currently_focused_window (comp d))) as [o|] eqn:Ho; cbn [option_bind mbind]; [|by exists (pages d2)].
    apply get_window_Some in Ho as [Ho _].
    destruct (event_buffer o) as [phys|] eqn:Ep; [|by exists (pages d2)].
    destruct (sane_page_of d l1 _ o phys Hs (same_alter l _ id) Ho Ep) as (b & Eb & Hb).
    destruct (release_held_ok phys d2 b Eb Hb Hk) as (b' & E & Hb'). exists (<[phys := b']> (pages d2)). split; [done|].
    intros i v q Hv Hq. apply insert_sane; [done|]. by apply (Hs i v). }
  destruct H3 as (p & E3 & Hp). rewrite (sbind_ok _ _ _ _ _ E3). unfold sbind at 1, gets at 1. cbn [comp d2].
  cbn [keyboard_state set_windows set_focused]. destruct (event_buffer w) as [phys|] eqn:Ew; cbn [when_buffer].
  - destruct (Hp id w phys Hw Ew) as (b & Eb & Hb).
    destruct (publish_to_ok phys (key_down (keyboard_state (comp d))) (held_modifiers (keyboard_state (comp d)))
      (mkDesk (comp d2) (kern d2) p (input_buffer d2) (focused_window_id d2) (input_waiters d2)) b Eb Hb) as (E4 & Hb4 & Em & Ek);
      [apply Hk|].
    rewrite (sbind_ok _ _ _ _ _ E4). eexists. split; [done|]. split.
    + intros i v q Hv Hq. cbn. apply insert_sane; [done|]. by apply (Hp i v).
    + intros q [= <-]. eexists. split; [cbn; apply lookup_insert_eq|]. done.
  - exists p. done.
Qed.

Lemma same_visible_count l l' : same_but_z l l' -> visible_count l' = visible_count l.
Proof.
  induction 1 as [|w w' l l' E _ IH]; [done|]. unfold visible_count in *. rewrite !filter_cons.
  assert (Ev : is_visible w' = is_visible w) by (by rewrite E).
  destruct (decide (is_visible w' = true)), (decide (is_visible w = true)); cbn [length]; congruence.
Qed.

(** The raised window is above every other visible one. *)
Lemma raised_top l id w z : l !! id = Some w -> is_visible w = true -> (forall v, v ∈ l -> z_index v <= z) ->
  (visible_count l <= 256)%nat ->
  exists w', raised l id z !! id = Some w' /\
    forall j v, raised l id z !! j = Some v -> is_visible v = true -> j <> id -> z_index v < z_index w'.
Proof.
  intros Hw Hv Hmax Hcount. unfold raised. set (l1 := alter (set_z (z + 1)) id l).
  assert (H1 : l1 !! id = Some (set_z (z + 1) w)) by (unfold l1; by rewrite list_lookup_alter_eq, Hw).
  assert (Hother : forall j v, l1 !! j = Some v -> j <> id -> z_index v <= z).
  { intros j v Hj Hne. unfold l1 in Hj. rewrite list_lookup_alter_ne in Hj by done. eapply Hmax, list_elem_of_lookup_2, Hj. }
  destruct (NORMALIZE_Z_INDEX_THRESHOLD <? z).
  - destruct (visible_ranked l1 id _ H1 Hv) as [rank Hr]. exists (set_z (wrap 8 (Z.of_nat rank)) (set_z (z + 1) w)).
    split; [by apply normalize_visible|]. intros j v Hj Hvv Hne.
    destruct (same_lookup _ _ _ _ (same_normalize l1) Hj) as (u & zu & Hu & Ev). assert (Hvu : is_visible u = true) by (by subst v).
    destruct (visible_ranked l1 j u Hu Hvu) as [rank' Hr']. rewrite (normalize_visible _ _ _ _ Hr') in Hj. injection Hj as <-. cbn.
    destruct (top_rank l1 id _ rank Hr) with (j := j) (v := u) (rank' := rank') as [Hlt Hlen]; try done.
    + intros k x Hx Hvx Hk. cbn. pose proof (Hother k x Hx Hk). lia.
    + pose proof (same_visible_count _ _ (same_alter l (z + 1) id)) as Hc. fold l1 in Hc. unfold wrap. rewrite !Z.mod_small by lia. lia.
  - exists (set_z (z + 1) w). split; [done|]. intros j v Hj _ Hne. cbn. pose proof (Hother j v Hj Hne). lia.
Qed.

(** Focusing a visible window always succeeds while z-indices are below 255 and programs
    leave their event pages in order: the window gets a z-index above every other visible
    one, also when the indices are compacted, so that a click anywhere on it finds it; it is
    announced as focused and its page shows the keys held down. *)
Theorem focus_raises d id w top : windows_ok (comp d) -> pages_sane d -> keyboard_ok (keyboard_state (comp d)) ->
  zlen (windows (comp d)) < U32_MAX -> windows (comp d) !! id = Some w -> is_visible w = true ->
  Z.of_nat id <> currently_focused_window (comp d) -> max_by_key z_index (windows (comp d)) = Some top -> z_index top < U8_MAX ->
  (visible_count (windows (comp d)) <= 256)%nat ->
  exists d' w', focus_window (Z.of_nat id) d = (Ok tt, d') /\ currently_focused_window (comp d') = Z.of_nat id /\
    focused_window_id d' = Z.of_nat id /\ windows_ok (comp d') /\ windows (comp d') !! id = Some w' /\
    (forall j v, windows (comp d') !! j = Some v -> is_visible v = true -> j <> id -> z_index v < z_index w') /\
    (forall x y l, windows_at x y (windows (comp d')) = Ok l -> w' ∈ l -> max_by_key z_index l = Some w') /\
    (forall phys, event_buffer w = Some phys -> exists b, pages d' !! phys = Some b /\
      shared_key_down b = key_down (keyboard_state (comp d)) /\ shared_modifiers b = held_modifiers (keyboard_state (comp d))).
Proof.
  intros Hok Hs Hk Hlt Hw Hv Hne Htop Hz Hcount.
  destruct (focus_runs d id w top Hs Hk Hlt Hw Hne Htop Hz) as (p & E & _ & Hpub).
  destruct (raised_top _ id w (z_index top) Hw Hv (proj2 (max_in _ _ _ Htop)) Hcount) as (w' & Hw' & Hbelow).
  pose proof (lookup_lt_Some _ _ _ Hw). eexists _, w'. split; [exact E|]. cbn. split; [done|]. split; [done|]. split.
  { apply (windows_ok_same (comp d)); try done; cbn; [apply same_raised|].
    rewrite <- (Forall2_length _ _ _ (same_raised (windows (comp d)) id (z_index top))). right. lia. }
  split; [done|]. split; [done|]. split; [|done]. intros x y l El Hin.
  destruct (max_by_key z_index l) as [m|] eqn:Em; cycle 1.
  { destruct l as [|u l]; [by apply elem_of_nil in Hin|]. cbn in Em. by destruct (max_by_key z_index l). }
  destruct (max_in _ _ _ Em) as [Hm Hmax]. destruct (windows_at_in _ _ _ _ _ El Hm) as (Hm' & Hvm & _).
  apply list_elem_of_lookup in Hm' as [j Hj]. destruct (decide (j = id)) as [->|Hjd]; [congruence|].
  pose proof (Hbelow j m Hj Hvm Hjd). specialize (Hmax w' Hin). lia.
Qed.

(** ** Hidden windows *)

(** Focus goes to one window, then to another, and so on. *)
Fixpoint alternate (n : nat) (i j : Z) : DM unit :=
  match n with
  | O => sret tt
  | S n => focus_window i ;;; alternate n j i
  end.

Lemma raised_hidden l id z j v : l !! j = Some v -> is_visible v = false -> j <> id -> raised l id z !! j = Some v.
Proof.
  intros Hj Hv Hne. assert (H1 : alter (set_z (z + 1)) id l !! j = Some v) by (by rewrite list_lookup_alter_ne).
  unfold raised. destruct (_ <? _); [by apply normalize_hidden|done].
Qed.

Lemma raised_hidden_self l id z w : l !! id = Some w -> is_visible w = false -> raised l id z !! id = Some (set_z (z + 1) w).
Proof.
  intros Hj Hv. assert (H1 : alter (set_z (z + 1)) id l !! id = Some (set_z (z + 1) w)) by (by rewrite list_lookup_alter_eq, Hj).
  unfold raised. destruct (_ <? _); [by apply normalize_hidden|done].
Qed.

(** A focus change when the largest z-index is 255. *)
Lemma focus_full (d : Desk T) id w top : zlen (windows (comp d)) < U32_MAX ->
  windows (comp d) !! id = Some w -> Z.of_nat id <> currently_focused_window (comp d) ->
  max_by_key z_index (windows (comp d)) = Some top -> U8_MAX <= z_index top -> focus_window (Z.of_nat id) d = (Panic, d).
Proof.
  intros Hlt Hw Hne Htop Hz. pose proof (lookup_lt_Some _ _ _ Hw). unfold focus_window.
  rewrite (proj2 (Z.eqb_neq _ INVALID_WINDOW_ID)) by (unfold INVALID_WINDOW_ID; lia).
  unfold sbind at 1, gets at 1. rewrite (proj2 (Z.eqb_neq _ _)) by done. unfold sbind at 1, gets at 1. rewrite Htop, get_window_nat, Hw, ?Nat2Z.id.
  unfold sbind at 1, sassert. by rewrite (proj2 (Z.ltb_ge _ _)).
Qed.

Lemma alternate_panics n : forall d i j w v top, pages_sane d -> keyboard_ok (keyboard_state (comp d)) ->
  zlen (windows (comp d)) < U32_MAX -> i <> j -> Z.of_nat i <> currently_focused_window (comp d) ->
  windows (comp d) !! i = Some w -> is_visible w = false -> windows (comp d) !! j = Some v -> is_visible v = false ->
  max_by_key z_index (windows (comp d)) = Some top -> U8_MAX - z_index top < Z.of_nat n -> (0 < n)%nat ->
  (alternate n (Z.of_nat i) (Z.of_nat j) d).1 = Panic.
Proof.
  induction n as [|n IH]; intros d i j w v top Hs Hk Hlt Hij Hne Hw Hvw Hv Hvv Htop Hn H0; [lia|]. cbn [alternate].
  destruct (decide (z_index top < U8_MAX)) as [Hz|Hz]; cycle 1.
  { unfold sbind. by rewrite (focus_full d i w top) by (done || lia). }
  destruct (focus_runs d i w top Hs Hk Hlt Hw Hne Htop Hz) as (p & E & Hp & _). rewrite (sbind_ok _ _ _ _ _ E).
  set (l := windows (comp d)) in *. set (l2 := raised l i (z_index top)) in *.
  pose proof (same_raised l i (z_index top)) as Hsame. pose proof (Forall2_length _ _ _ Hsame) as Hlen. fold l2 in Hsame, Hlen.
  assert (Hi2 : l2 !! i = Some (set_z (z_index top + 1) w)) by (by apply raised_hidden_self).
  assert (Hj2 : l2 !! j = Some v) by (by apply raised_hidden).
  destruct (max_by_key z_index l2) as [top2|] eqn:Etop2; cycle 1.
  { destruct l2 as [|u l2']; [done|]. cbn in Etop2. by destruct (max_by_key z_index l2'). }
  destruct (max_in _ _ _ Etop2) as [_ Hmax2]. pose proof (Hmax2 _ (list_elem_of_lookup_2 _ _ _ Hi2)) as Hle. cbn in Hle.
  apply (IH _ j i v (set_z (z_index top + 1) w) top2); cbn; try done; [|lia|lia..].
  intros k u phys Hu Hq. cbn in Hu. destruct (same_lookup _ _ _ _ Hsame Hu) as (u0 & z & Hu0 & ->). by apply (Hp k u0).
Qed.

(** Switching the focus between two destroyed windows, which any program may do, makes
    the kernel panic: the z-index of the destroyed windows grows with every switch and is
    never compacted.  And with no window at all the first request for focus panics. *)
Theorem focus_panics d i j w v : pages_sane d -> keyboard_ok (keyboard_state (comp d)) -> zlen (windows (comp d)) < U32_MAX ->
  (forall u, u ∈ windows (comp d) -> 0 <= z_index u) -> i <> j -> Z.of_nat i <> currently_focused_window (comp d) ->
  windows (comp d) !! i = Some w -> is_visible w = false -> windows (comp d) !! j = Some v -> is_visible v = false ->
  (alternate 256 (Z.of_nat i) (Z.of_nat j) d).1 = Panic /\
  forall d0 : Desk T, windows (comp d0) = [] -> currently_focused_window (comp d0) <> 0 -> focus_window 0 d0 = (Panic, d0).
Proof.
  intros Hs Hk Hlt Hz Hij Hne Hw Hvw Hv Hvv. split.
  - destruct (max_by_key z_index (windows (comp d))) as [top|] eqn:Etop; cycle 1.
    { destruct (windows (comp d)) as [|u l]; [done|]. cbn in Etop. by destruct (max_by_key z_index l). }
    destruct (max_in _ _ _ Etop) as [Hin _]. specialize (Hz top Hin).
    apply (alternate_panics 256 d i j w v top); try done; [unfold U8_MAX; lia|lia].
  - intros d0 Hnil Hf. unfold focus_window. change (0 =? INVALID_WINDOW_ID) with false. cbv iota.
    unfold sbind, gets. rewrite (proj2 (Z.eqb_neq 0 (currently_focused_window (comp d0)))) by congruence. by rewrite Hnil.
Qed.

End focus.

(** ** Input *)

Section input.
Context {T : Type}.
Variables (LAlt ArrowLeft ArrowRight : Z).

(** Characters, and transitions of keys that there are. *)
Definition routed (e : InputEvent) : Prop :=
  match event_type e with
  | NoEvent | CharEvent => True
  | KeyStateEvent => is_key (value e) /\ 0 <= extra e <= 1
  | _ => False
  end.

Lemma waiting_bound b l : waiting b l -> (length l <= Z.to_nat MAX_EVENT_COUNT)%nat.
Proof. intros (st & gt & [_ _ Hb _ _ _ _] & ->). cbn in Hb. rewrite length_drop. lia. Qed.

Lemma page_push_room (d : Desk T) phys e b q : pages d !! phys = Some b -> waiting b q -> (length q < Z.to_nat MAX_EVENT_COUNT)%nat ->
  exists b', push_to phys e d = (Ok tt, with_page phys b' d) /\ waiting b' (q ++ [e]).
Proof.
  intros Eb Hq Hroom. destruct (push_queue e b q Hq) as (b' & E & Hb'). rewrite (proj2 (Nat.ltb_lt _ _)) in E, Hb' by done.
  exists b'. split; [|done]. unfold push_to, sbind, on_page. by rewrite Eb, E.
Qed.

Lemma focused_buffer (d : Desk T) id w phys : currently_focused_window (comp d) = Z.of_nat id -> Z.of_nat id <> INVALID_WINDOW_ID ->
  windows (comp d) !! id = Some w -> event_buffer w = Some phys -> get_focused_window_event_buffer d = (Ok (Some phys), d).
Proof.
  intros Hf Hi Hw He. unfold get_focused_window_event_buffer, gets. rewrite Hf, (proj2 (Z.eqb_neq _ _)), get_window_nat, Hw by done.
  cbn. by rewrite He.
Qed.

Lemma handle_routed (d : Desk T) e id w phys b q : routed e -> keyboard_ok (keyboard_state (comp d)) ->
  currently_focused_window (comp d) = Z.of_nat id -> Z.of_nat id <> INVALID_WINDOW_ID -> windows (comp d) !! id = Some w ->
  event_buffer w = Some phys -> pages d !! phys = Some b -> waiting b q -> (length q < Z.to_nat MAX_EVENT_COUNT)%nat ->
  exists k b', handle_event LAlt ArrowLeft ArrowRight e d =
      (Ok tt, mkDesk (set_keyboard k (comp d)) (kern d) (<[phys := b']> (pages d)) (input_buffer d) (focused_window_id d) (input_waiters d)) /\
    keyboard_ok k /\ waiting b' (q ++ [e]).
Proof.
  intros He Hk Hf Hi Hw Hb Eb Hq Hroom. pose proof (focused_buffer d id w phys Hf Hi Hw Hb) as Hfoc.
  assert (Hplain : exists k b', (let! b := get_focused_window_event_buffer in when_buffer b (fun phys => push_to phys e)) d =
      (Ok tt, mkDesk (set_keyboard k (comp d)) (kern d) (<[phys := b']> (pages d)) (input_buffer d) (focused_window_id d) (input_waiters d)) /\
    keyboard_ok k /\ waiting b' (q ++ [e])).
  { rewrite (sbind_ok _ _ _ _ _ Hfoc). cbn [when_buffer]. destruct (page_push_room d phys e b q Eb Hq Hroom) as (b' & E & Hb').
    exists (keyboard_state (comp d)), b'. split; [|done]. rewrite E. unfold with_page. by destruct d as [[] ]. }
  unfold routed in He. unfold handle_event. destruct (event_type e); try done. clear Hplain. destruct He as [Hkey Hex].
  unfold handle_key_state_event. unfold sbind at 1, sassert. rewrite (proj2 (Z.ltb_lt _ _)) by (destruct Hkey; lia). unfold sret at 1.
  unfold sbind at 1, gets at 1. unfold sbind at 1, slift at 1, from_raw. rewrite (proj2 (Z.leb_le _ _)) by lia. cbn [negb].
  replace (wrap 8 (value e)) with (value e) by (symmetry; apply wrap_small; unfold in_width; destruct Hkey; unfold KEY_COUNT in *; lia).
  destruct (update_ok (keyboard_state (comp d)) (value e) (if extra e =? 0 then Pressed else Released) (key_modifiers e) Hk Hkey)
    as (k & Ek & Hk' & _).
  unfold sbind at 1, slift at 1. rewrite Ek. unfold sbind at 1, on_comp at 1.
  set (d1 := mkDesk (set_keyboard k (comp d)) _ _ _ _ _).
  assert (Hfoc1 : get_focused_window_event_buffer d1 = (Ok (Some phys), d1)) by (by apply (focused_buffer d1 id w)).
  rewrite (sbind_ok _ _ _ _ _ Hfoc1). cbn [when_buffer].
  assert (E2 : publish_to phys (key_down k) (held_modifiers k) d1 =
    (Ok tt, with_page phys (publish_keyboard_state (key_down k) (held_modifiers k) b) d1)) by (unfold publish_to, sbind, on_page; cbn; by rewrite Eb).
  rewrite (sbind_ok _ _ _ _ _ E2). pose proof (waiting_publish b q (key_down k) (held_modifiers k) Hq) as Hq'.
  destruct (page_push_room (with_page phys (publish_keyboard_state (key_down k) (held_modifiers k) b) d1) phys e _ q (lookup_insert_eq _ _ _) Hq' Hroom)
    as (b' & E3 & Hb').
  exists k, b'. rewrite E3. unfold with_page. cbn. by rewrite insert_insert_eq.
Qed.

(** C25: queued characters and key transitions all reach the focused window, in their order,
    behind what waits there already, as long as there is room; the loop empties the queue
    and ends within its bound. *)
Theorem input_reaches_focus (d : Desk T) evs id w phys b q : waiting (input_buffer d) evs -> Forall routed evs ->
  keyboard_ok (keyboard_state (comp d)) -> currently_focused_window (comp d) = Z.of_nat id -> Z.of_nat id <> INVALID_WINDOW_ID ->
  windows (comp d) !! id = Some w -> event_buffer w = Some phys -> pages d !! phys = Some b -> waiting b q ->
  (length q + length evs <= Z.to_nat MAX_EVENT_COUNT)%nat ->
  exists d', drain LAlt ArrowLeft ArrowRight (S (Z.to_nat MAX_EVENT_COUNT)) false d = (Ok (negb (bool_decide (evs = []))), d') /\
    waiting (input_buffer d') [] /\ windows (comp d') = windows (comp d) /\
    currently_focused_window (comp d') = currently_focused_window (comp d) /\ kern d' = kern d /\
    (forall other, other <> phys -> pages d' !! other = pages d !! other) /\
    exists b', pages d' !! phys = Some b' /\ waiting b' (q ++ evs).
Proof.
  intros Hin Hev Hk Hf Hi Hw Hb Eb Hq Hroom.
  enough (H : forall n any, (length evs < n)%nat -> exists d', drain LAlt ArrowLeft ArrowRight n any d = (Ok (any || negb (bool_decide (evs = []))), d') /\
    waiting (input_buffer d') [] /\ windows (comp d') = windows (comp d) /\
    currently_focused_window (comp d') = currently_focused_window (comp d) /\ kern d' = kern d /\
    (forall other, other <> phys -> pages d' !! other = pages d !! other) /\
    exists b', pages d' !! phys = Some b' /\ waiting b' (q ++ evs)).
  { apply (H (S (Z.to_nat MAX_EVENT_COUNT)) false). pose proof (waiting_bound _ _ Hin). lia. }
  revert d b q Hin Hk Hf Hw Eb Hq Hroom. induction Hev as [|e evs He _ IH]; intros d b q Hin Hk Hf Hw Eb Hq Hroom n any Hn.
  - destruct n as [|n]; [cbn in Hn; lia|]. destruct (read_queue _ _ Hin) as (b1 & E1 & Hb1). cbn [drain].
    unfold sbind at 1, read_input. rewrite E1. cbn [head]. eexists. split; [by rewrite orb_false_r|].
    cbn. split_and!; try done. exists b. by rewrite app_nil_r.
  - destruct n as [|n]; [cbn in Hn; lia|]. destruct (read_queue _ _ Hin) as (b1 & E1 & Hb1). cbn [drain].
    cbn [head tail length] in *. set (d1 := mkDesk (comp d) (kern d) (pages d) b1 (focused_window_id d) (input_waiters d)).
    assert (Er : read_input d = (Ok (Some e), d1)) by (unfold read_input; by rewrite E1). rewrite (sbind_ok _ _ _ _ _ Er).
    destruct (handle_routed d1 e id w phys b q He Hk Hf Hi Hw Hb Eb Hq) as (k & b2 & E2 & Hk2 & Hq2); [lia|].
    rewrite (sbind_ok _ _ _ _ _ E2).
    match type of E2 with _ = (_, ?x) => set (d2 := x) end.
    destruct (IH d2 b2 (q ++ [e]) Hb1 Hk2 Hf Hw) with (n := n) (any := true) as (d' & E & Hi' & Hw' & Hf' & Hkn & Ho & b3 & Eb3 & Hq3);
      [apply lookup_insert_eq|done|rewrite length_app; cbn; lia|lia|].
    exists d'. split; [rewrite E, (bool_decide_eq_false_2 (e :: evs = [])) by done; by rewrite orb_true_r|]. split; [done|]. split; [done|]. split; [done|].
    split; [done|]. split; [intros o Hne; rewrite Ho by done; cbn; by rewrite lookup_insert_ne|].
    exists b3. split; [done|]. by rewrite <- app_assoc in Hq3.
Qed.

End input.

(** ** A desk with two windows *)

Definition demo_win (id x z : Z) (visible : bool) (page : option Z) : Window :=
  mkWindow id 1 x 2 z visible (mkWindowBuffer 8 8 x 2 (replicate 64 0) (replicate 64 0) false 0) page (default 0 page).

Definition demo_desk (l : list Window) (focus : Z) (p : gmap Z EventBuffer) (input : EventBuffer) : Desk FlatTables :=
  mkDesk (mkCompositor 64 48 (zlen l) focus [] l (mkPointer 0 0 true 0 0) keyboard_new) demo_kernel p input focus waiter_list_new.

Definition two_windows : Desk FlatTables :=
  demo_desk [demo_win 0 4 251 true (Some 4096); demo_win 1 8 252 true (Some 8192)] 1
    (<[4096 := new_buffer]> (<[8192 := new_buffer]> ∅)) new_buffer.

Definition two_hidden : Desk FlatTables :=
  demo_desk [demo_win 0 4 7 false None; demo_win 1 8 7 false None] 1 ∅ new_buffer.

Lemma demo_pages_sane : pages_sane two_windows.
Proof.
  intros i w phys Hi He. assert (Hp : page_sane new_buffer) by (split; [exists []; apply new_waiting|reflexivity]).
  destruct i as [|[|i]]; cbn in Hi; [injection Hi as <-; injection He as <-..|by destruct i].
  - exists new_buffer. split; [reflexivity|done].
  - exists new_buffer. split; [reflexivity|done].
Qed.

Lemma demo_keyboard_ok : keyboard_ok keyboard_new.
Proof. split; apply bitset_new_ok. Qed.

Lemma two_windows_ok : windows_ok (comp two_windows).
Proof.
  split; cbn.
  - intros [|[|i]] w Hi; cbn in Hi; [by injection Hi as <-..|by destruct i].
  - done.
  - constructor.
  - intros id. split; [by intros ?%elem_of_nil|]. intros ([|[|i]] & w & _ & Hi & Hv); cbn in Hi; [injection Hi as <-; done..|by destruct i].
  - intros [|[|i]] w Hi Hv; cbn in Hi; [injection Hi as <-; done..|by destruct i].
  - right. lia.
Qed.

(** Compacted: the raised window has rank one, the other rank zero. *)
Lemma focus_raises_witness : exists d' w', focus_window 0 two_windows = (Ok tt, d') /\ windows (comp d') !! 0%nat = Some w' /\
  (forall j v, windows (comp d') !! j = Some v -> is_visible v = true -> j <> 0%nat -> z_index v < z_index w') /\
  (z_index <$> windows (comp (focus_window 0 two_windows).2)) = [1; 0].
Proof.
  destruct (focus_raises two_windows 0 (demo_win 0 4 251 true (Some 4096)) (demo_win 1 8 252 true (Some 8192)) two_windows_ok
    demo_pages_sane demo_keyboard_ok) as (d' & w' & E & _ & _ & _ & Hw' & Hz & _); try reflexivity; [discriminate|vm_compute; repeat constructor|].
  exists d', w'. split; [exact E|]. split; [exact Hw'|]. split; [exact Hz|]. vm_compute. reflexivity.
Defined.

Lemma focus_panics_witness : (alternate 256 0 1 two_hidden).1 = Panic.
Proof.
  apply (focus_panics two_hidden 0 1 (demo_win 0 4 7 false None) (demo_win 1 8 7 false None)).
  - intros [|[|i]] w phys Hi He; cbn in Hi; [injection Hi as <-; done..|by destruct i].
  - apply demo_keyboard_ok.
  - reflexivity.
  - intros u Hu. change (u ∈ [demo_win 0 4 7 false None; demo_win 1 8 7 false None]) in Hu. rewrite !elem_of_cons in Hu.
    destruct Hu as [-> | [-> | Hu%elem_of_nil]]; [cbn; lia..|done].
  - discriminate.
  - discriminate.
  - reflexivity.
  - reflexivity.
  - reflexivity.
  - reflexivity.
Defined.

Definition queue_of (l : list InputEvent) : EventBuffer := foldl (fun b e => (push e b).2) new_buffer l.

Definition demo_input : list InputEvent := [new_char 97 Pressed 0; new_key_state 30 Pressed 1; new_char 98 Pressed 0].

Lemma queue_waiting l : (length l <= 3)%nat -> waiting (queue_of l) l.
Proof.
  unfold queue_of. intros Hl. enough (H : forall b q, waiting b q -> (length q + length l <= 3)%nat ->
    waiting (foldl (fun b e => (push e b).2) b l) (q ++ l)) by (apply (H new_buffer []); [apply new_waiting|done]).
  clear Hl. induction l as [|e l IH]; intros b q Hq Hl; cbn [foldl]; [by rewrite app_nil_r|]. cbn [length] in Hl.
  destruct (push_queue e b q Hq) as (b' & E & Hb'). assert (Hlt : (length q <? Z.to_nat MAX_EVENT_COUNT)%nat = true)
    by (apply Nat.ltb_lt; rewrite max_small; lia).
  rewrite Hlt in Hb'. rewrite E. cbn [snd]. rewrite (cons_middle e q l), app_assoc. apply IH; [done|]. rewrite length_app. cbn. lia.
Qed.

Lemma input_reaches_focus_witness :
  let d := demo_desk (windows (comp two_windows)) 0 (pages two_windows) (queue_of demo_input) in
  exists d' b', drain 1 2 3 (S (Z.to_nat MAX_EVENT_COUNT)) false d = (Ok true, d') /\ pages d' !! 4096 = Some b' /\ waiting b' demo_input.
Proof.
  cbv zeta. destruct (input_reaches_focus 1 2 3 (demo_desk (windows (comp two_windows)) 0 (pages two_windows) (queue_of demo_input))
    demo_input 0 (demo_win 0 4 251 true (Some 4096)) 4096 new_buffer []) as (d' & E & _ & _ & _ & _ & _ & b' & Eb & Hb).
  - apply (queue_waiting demo_input). vm_compute. repeat constructor.
  - repeat constructor; discriminate.
  - apply demo_keyboard_ok.
  - reflexivity.
  - discriminate.
  - reflexivity.
  - reflexivity.
  - apply lookup_insert_eq.
  - apply new_waiting.
  - vm_compute. repeat constructor.
  - exists d', b'. split; [exact E|]. split; [exact Eb|exact Hb].
Defined.

(** *** A run from the start *)

Definition desk0 : Desk FlatTables := desk_start 64 48 demo_created.2 new_buffer waiter_list_new.
Definition desk1 : Desk FlatTables := (create_window 0 true 8 8 3 4 1 desk0).2.
Definition desk2 : Desk FlatTables := (create_window 0 true 8 8 6 6 1 desk1).2.

(** Two windows are made, both are destroyed, and the focus goes back and forth. *)
Example destroyed_windows_panic :
  let d := (destroy_each 0 [0; 1] desk2).2 in
  (is_visible <$> windows (comp d)) = [false; false] /\ free_window_ids (comp d) = [0; 1] /\ size (pages d) = 0%nat /\
  (alternate 257 0 1 d).1 = Panic.
Proof. vm_compute. repeat split; reflexivity. Qed.

(** The allocator has handed out the first frames of the map, the event pages among them. *)
Lemma desk_holds (d : Desk FlatTables) : let a := frames (machine (kern d)) in let l := elements (dom (pages d)) in
  memory_map a = [mkEntry 4096 0x800000 0] -> curr_region_index a = 0%nat -> free_list a = [] ->
  let n := Z.to_nat (frame_offset_in_region a / PAGE_SIZE) in
  bool_decide (frame_offset_in_region a = Z.of_nat n * PAGE_SIZE /\ (n <= 2048)%nat /\
    l ++ filter (.∉ l) (take n (frames_of 0 (mkEntry 4096 0x800000 0))) ≡ₚ take n (frames_of 0 (mkEntry 4096 0x800000 0))) = true ->
  pages_held 0 d.
Proof.
  intros a l Em Ei Ef n (Hn & Hle & Hp)%bool_decide_eq_true. unfold pages_held. fold a l. rewrite Em. split.
  - split; [repeat constructor; done|]. intros [|i] [|j] r q Hij Hi Hj; cbn in Hi, Hj; try rewrite lookup_nil in *; done.
  - exists (filter (.∉ l) (take n (frames_of 0 (mkEntry 4096 0x800000 0)))), n. rewrite Em, Ef. split.
    + exists n. rewrite Ei, Em. split; [exact Hn|]. split; [exact Hle|reflexivity].
    + cbn [app all_frames fmap list_fmap mjoin list_join]. by rewrite app_nil_r.
Qed.

Lemma window_table_invariant_witness : size (pages desk2) = 2%nat /\ windows_ok (comp desk2) /\ pages_ok (windows (comp desk2)) (pages desk2).
Proof.
  split; [vm_compute; reflexivity|].
  apply (window_table_invariant 0 1 2 3 64 48 demo_created.2 new_buffer waiter_list_new desk2).
  eapply rtc_l; [apply (step_create_window 0 1 2 3 desk0 true 8 8 3 4 1 0 desk1)|apply rtc_once; apply (step_create_window 0 1 2 3 desk1 true 8 8 6 6 1 1 desk2)].
  - reflexivity.
  - apply desk_holds; vm_compute; reflexivity.
  - assert (E : (create_window 0 true 8 8 3 4 1 desk0).1 = Ok 0) by (vm_compute; reflexivity).
    rewrite (surjective_pairing (create_window 0 true 8 8 3 4 1 desk0)). by rewrite E.
  - reflexivity.
  - apply desk_holds; vm_compute; reflexivity.
  - assert (E : (create_window 0 true 8 8 6 6 1 desk1).1 = Ok 1) by (vm_compute; reflexivity).
    rewrite (surjective_pairing (create_window 0 true 8 8 6 6 1 desk1)). by rewrite E.
Defined.
