(* ===== verification/F32.v ===== *)
(** * binary32: the arithmetic of [f32], and vectors of four of them

    Rust's [f32] is the binary32 format of IEEE 754 with rounding to nearest, ties to even;
    the operations are those of the Standard Library's [SpecFloat] at that precision.  Order is
    by value.  A NaN has no payload here.  Then [rep]: the floats that hold a multiple of a
    power of two without rounding, on which sums, differences and products are exact. *)

From Stdlib Require Import ZArith Lia SpecFloat.
From stdpp Require Import base tactics list option numbers.
From S2P Require Import Prelude.

Open Scope rust_scope.

Definition f32 : Type := spec_float.
Definition PREC : Z := 24.
Definition EMAX : Z := 128.

Definition fneg : f32 -> f32 := SFopp.
Definition fabs : f32 -> f32 := SFabs.
Definition fadd : f32 -> f32 -> f32 := SFadd PREC EMAX.
Definition fsub : f32 -> f32 -> f32 := SFsub PREC EMAX.
Definition fmul : f32 -> f32 -> f32 := SFmul PREC EMAX.
Definition fdiv : f32 -> f32 -> f32 := SFdiv PREC EMAX.

Declare Scope f32_scope.
Delimit Scope f32_scope with f32.
Bind Scope f32_scope with f32.
Infix "+" := fadd : f32_scope.
Infix "-" := fsub : f32_scope.
Infix "*" := fmul : f32_scope.
Infix "/" := fdiv : f32_scope.
Notation "- x" := (fneg x) : f32_scope.

(** [as f32] of an integer, and a decimal literal as a quotient of integers that are exact. *)
Definition of_int (n : Z) : f32 := binary_normalize PREC EMAX n 0 false.
Definition of_ratio (n d : Z) : f32 := fdiv (of_int n) (of_int d).

(** [f32::from_bits] *)
Definition of_bits (b : Z) : f32 :=
  let s := Z.testbit b 31 in
  let e := Z.land (Z.shiftr b 23) 255 in
  let m := Z.land b (Z.ones 23) in
  if e =? 255 then (if m =? 0 then S754_infinity s else S754_nan)
  else if e =? 0 then (match m with Zpos p => S754_finite s p (-149) | _ => S754_zero s end)
  else S754_finite s (Z.to_pos (m + 2 ^ 23)) (e - 150).

Definition F_MAX : f32 := S754_finite false (2 ^ 24 - 1) 104.
Definition F_EPSILON : f32 := S754_finite false (2 ^ 23) (-46).

Definition is_nan (x : f32) : bool := match x with S754_nan => true | _ => false end.

(** The value of a finite float: a signed mantissa and an exponent of two. *)
Definition dyadic (x : f32) : Z * Z :=
  match x with
  | S754_finite s m e => (if s then Zneg m else Zpos m, e)
  | _ => (0, 0)
  end.

Definition dcompare (a b : Z * Z) : comparison :=
  let e := Z.min a.2 b.2 in (a.1 * 2 ^ (a.2 - e) ?= b.1 * 2 ^ (b.2 - e)).

Definition fcompare (x y : f32) : option comparison :=
  match x, y with
  | S754_nan, _ | _, S754_nan => None
  | S754_infinity s, S754_infinity s' => Some (if s then (if s' then Eq else Lt) else (if s' then Gt else Eq))
  | S754_infinity s, _ => Some (if s then Lt else Gt)
  | _, S754_infinity s => Some (if s then Gt else Lt)
  | _, _ => Some (dcompare (dyadic x) (dyadic y))
  end.

Definition flt (x y : f32) : bool := match fcompare x y with Some Lt => true | _ => false end.
Definition fle (x y : f32) : bool := match fcompare x y with Some (Lt | Eq) => true | _ => false end.
Definition fgt (x y : f32) : bool := flt y x.
Definition fge (x y : f32) : bool := fle y x.

(** [f32::min] and [f32::max]: a NaN gives way to the other argument. *)
Definition fmin (x y : f32) : f32 := if is_nan x then y else if is_nan y then x else if flt y x then y else x.
Definition fmax (x y : f32) : f32 := if is_nan x then y else if is_nan y then x else if flt x y then y else x.

(** [f32::clamp] *)
Definition fclamp (x low high : f32) : f32 := if flt x low then low else if fgt x high then high else x.

(** [as] an unsigned integer of [w] bits: towards zero, and to the nearest bound outside. *)
Definition dtrunc (a : Z * Z) : Z := if 0 <=? a.2 then a.1 * 2 ^ a.2 else a.1 / 2 ^ (- a.2).

Definition to_uint (w : Z) (x : f32) : Z :=
  match x with
  | S754_infinity false => 2 ^ w - 1
  | S754_finite false _ _ => Z.min (dtrunc (dyadic x)) (2 ^ w - 1)
  | _ => 0
  end.

Definition to_u32 : f32 -> Z := to_uint 32.
Definition to_u8 : f32 -> Z := to_uint 8.

(** ** Four lanes *)

Record f32x4 : Type := mk4 {
  lane0 : f32;
  lane1 : f32;
  lane2 : f32;
  lane3 : f32;
}.

Definition lane (v : f32x4) (i : nat) : f32 :=
  match i with 0%nat => lane0 v | 1%nat => lane1 v | 2%nat => lane2 v | _ => lane3 v end.

Definition splat (x : f32) : f32x4 := mk4 x x x x.
Definition lanes (f : nat -> f32) : f32x4 := mk4 (f 0%nat) (f 1%nat) (f 2%nat) (f 3%nat).
Definition map2 (f : f32 -> f32 -> f32) (a b : f32x4) : f32x4 := lanes (fun i => f (lane a i) (lane b i)).

Definition vadd : f32x4 -> f32x4 -> f32x4 := map2 fadd.
Definition vsub : f32x4 -> f32x4 -> f32x4 := map2 fsub.
Definition vmul : f32x4 -> f32x4 -> f32x4 := map2 fmul.
Definition vdiv : f32x4 -> f32x4 -> f32x4 := map2 fdiv.
Definition vneg (a : f32x4) : f32x4 := lanes (fun i => fneg (lane a i)).

Declare Scope f32x4_scope.
Delimit Scope f32x4_scope with x4.
Bind Scope f32x4_scope with f32x4.
Infix "+" := vadd : f32x4_scope.
Infix "-" := vsub : f32x4_scope.
Infix "*" := vmul : f32x4_scope.
Infix "/" := vdiv : f32x4_scope.
Notation "- x" := (vneg x) : f32x4_scope.

(** [simd_ge] *)
Definition vge (a b : f32x4) (i : nat) : bool := fge (lane a i) (lane b i).

Lemma lane_map2 f a b i : lane (map2 f a b) i = f (lane a i) (lane b i).
Proof. unfold map2, lanes. by destruct i as [|[|[|i]]]. Qed.

Lemma lane_splat x i : lane (splat x) i = x.
Proof. by destruct i as [|[|[|i]]]. Qed.

(** ** Order *)

(** Values on a common scale. *)
Definition scaled (e : Z) (a : Z * Z) : Z := a.1 * 2 ^ (a.2 - e).

Lemma scaled_up e e' a : e' <= e -> e <= a.2 -> scaled e' a = scaled e a * 2 ^ (e - e').
Proof. intros He Ha. unfold scaled. rewrite <- Z.mul_assoc, <- Z.pow_add_r by lia. do 2 f_equal. lia. Qed.

Lemma dcompare_scaled e a b : e <= a.2 -> e <= b.2 -> dcompare a b = (scaled e a ?= scaled e b).
Proof.
  intros Ha Hb. unfold dcompare. fold (scaled (Z.min a.2 b.2) a) (scaled (Z.min a.2 b.2) b).
  rewrite (scaled_up (Z.min a.2 b.2) e a), (scaled_up (Z.min a.2 b.2) e b) by lia.
  apply Zmult_compare_compat_r. apply Z.lt_gt, Z.pow_pos_nonneg; lia.
Qed.

(** Where a float lies: an integer on a scale, or an end of the line. *)
Inductive at_scale (e : Z) : f32 -> Z + bool -> Prop :=
  | at_zero s : at_scale e (S754_zero s) (inl 0)
  | at_finite s m x : e <= x -> at_scale e (S754_finite s m x) (inl (scaled e (dyadic (S754_finite s m x))))
  | at_infinity s : at_scale e (S754_infinity s) (inr s).

Definition compare_places (a b : Z + bool) : comparison :=
  match a, b with
  | inl u, inl v => (u ?= v)
  | inl _, inr s => if s then Gt else Lt
  | inr s, inl _ => if s then Lt else Gt
  | inr s, inr s' => if s then (if s' then Eq else Lt) else (if s' then Gt else Eq)
  end.

Lemma zero_scaled e x : e <= x -> scaled e (0, x) = 0.
Proof. done. Qed.

Lemma fcompare_places e x y a b : e <= 0 -> at_scale e x a -> at_scale e y b -> fcompare x y = Some (compare_places a b).
Proof.
  intros He Hx Hy. destruct Hx, Hy; cbn [fcompare compare_places]; try done; f_equal; by apply (dcompare_scaled e).
Qed.

Definition exponent (x : f32) : Z := match x with S754_finite _ _ e => e | _ => 0 end.

Lemma at_scale_some e x : is_nan x = false -> e <= exponent x -> exists a, at_scale e x a.
Proof. destruct x; cbn; intros Hn He; try done; eexists; by constructor. Qed.

(** A scale fine enough for three floats. *)
Definition common (x y z : f32) : Z := Z.min 0 (Z.min (exponent x) (Z.min (exponent y) (exponent z))).

Lemma common_le x y z : common x y z <= 0.
Proof. unfold common. lia. Qed.

Ltac places x y z :=
  let a := fresh "a" in let b := fresh "b" in let c := fresh "c" in
  let Ha := fresh "Ha" in let Hb := fresh "Hb" in let Hc := fresh "Hc" in
  destruct (at_scale_some (common x y z) x) as [a Ha]; [done|unfold common; lia|];
  destruct (at_scale_some (common x y z) y) as [b Hb]; [done|unfold common; lia|];
  destruct (at_scale_some (common x y z) z) as [c Hc]; [done|unfold common; lia|].

Lemma flt_nan x y : flt x y = true -> is_nan x = false /\ is_nan y = false.
Proof. by destruct x, y. Qed.

Lemma fle_nan x y : fle x y = true -> is_nan x = false /\ is_nan y = false.
Proof. by destruct x, y. Qed.

Lemma compare_places_trans a b c : compare_places a b <> Gt -> compare_places b c <> Gt -> compare_places a c <> Gt.
Proof.
  destruct a as [u|[]], b as [v|[]], c as [w|[]]; cbn; try done.
  rewrite !Z.compare_gt_iff. lia.
Qed.

Lemma fle_trans x y z : fle x y = true -> fle y z = true -> fle x z = true.
Proof.
  intros Hxy Hyz. destruct (fle_nan _ _ Hxy) as [Hx Hy], (fle_nan _ _ Hyz) as [_ Hz]. places x y z.
  unfold fle in *. rewrite (fcompare_places _ _ _ _ _ (common_le _ _ _) Ha Hb) in Hxy.
  rewrite (fcompare_places _ _ _ _ _ (common_le _ _ _) Hb Hc) in Hyz.
  rewrite (fcompare_places _ _ _ _ _ (common_le _ _ _) Ha Hc).
  pose proof (compare_places_trans a b c) as H. destruct (compare_places a b), (compare_places b c), (compare_places a c); try done;
    exfalso; by apply H.
Qed.

Lemma compare_places_flip a b : compare_places b a = CompOpp (compare_places a b).
Proof. destruct a as [u|[]], b as [v|[]]; cbn; try done. by rewrite Z.compare_antisym. Qed.

(** Of two numbers one is below the other or not above. *)
Lemma flt_total x y : is_nan x = false -> is_nan y = false -> flt x y = negb (fle y x).
Proof.
  intros Hx Hy. places x y y. unfold flt, fle. rewrite (fcompare_places _ _ _ _ _ (common_le _ _ _) Ha Hb).
  rewrite (fcompare_places _ _ _ _ _ (common_le _ _ _) Hb Ha), (compare_places_flip a b).
  by destruct (compare_places a b).
Qed.

Lemma flt_fle x y : flt x y = true -> fle x y = true.
Proof. unfold flt, fle. by destruct (fcompare x y) as [[]|]. Qed.

Lemma flt_fle_trans x y z : flt x y = true -> fle y z = true -> flt x z = true.
Proof.
  intros Hxy Hyz. destruct (flt_nan _ _ Hxy) as [Hx Hy], (fle_nan _ _ Hyz) as [_ Hz].
  rewrite flt_total in * by done. apply negb_true_iff in Hxy. apply negb_true_iff. apply not_true_is_false. intros Hzx.
  rewrite (fle_trans y z x) in Hxy by done. done.
Qed.

(** A smaller threshold is met by fewer. *)
Lemma flt_mono z d d' : fle d' d = true -> flt z d = false -> flt z d' = false.
Proof.
  intros Hd Hz. apply not_true_is_false. intros H. by rewrite (flt_fle_trans z d' d) in Hz.
Qed.

(** *** To integers *)

Lemma dtrunc_scaled e a : e <= a.2 -> e <= 0 -> dtrunc a = scaled e a / 2 ^ (- e).
Proof.
  intros Ha He. unfold dtrunc, scaled. destruct (Z.leb_spec 0 a.2).
  - rewrite <- (Z.div_mul (a.1 * 2 ^ a.2) (2 ^ (- e))) by (apply Z.pow_nonzero; lia).
    rewrite <- Z.mul_assoc, <- Z.pow_add_r by lia. do 3 f_equal.
  - replace (- e) with ((a.2 - e) + - a.2) by lia. rewrite Z.pow_add_r by lia.
    assert (0 < 2 ^ (a.2 - e)) by (apply Z.pow_pos_nonneg; lia). assert (0 < 2 ^ (- a.2)) by (apply Z.pow_pos_nonneg; lia).
    rewrite <- Z.div_div, Z.div_mul by lia. done.
Qed.

(** The conversion as a function of the place. *)
Definition place_uint (w e : Z) (a : Z + bool) : Z :=
  match a with
  | inl n => Z.max 0 (Z.min (n / 2 ^ (- e)) (2 ^ w - 1))
  | inr s => if s then 0 else 2 ^ w - 1
  end.

Lemma to_uint_place w e x a : 0 <= w -> e <= 0 -> at_scale e x a -> to_uint w x = place_uint w e a.
Proof.
  intros Hw He Hx. assert (0 < 2 ^ w) by (apply Z.pow_pos_nonneg; lia). destruct Hx as [s|s m x Hx|[]]; cbn [to_uint place_uint]; try done.
  - rewrite Zdiv_0_l. lia.
  - set (d := dyadic (S754_finite s m x)). assert (Ht : dtrunc d = scaled e d / 2 ^ (- e)) by (by apply dtrunc_scaled).
    assert (Hp : 0 < 2 ^ (- e)) by (apply Z.pow_pos_nonneg; lia). destruct s.
    + enough (scaled e d / 2 ^ (- e) <= 0) by lia. apply Z.div_le_upper_bound; [done|].
      unfold d, scaled. cbn [dyadic fst snd]. assert (0 < 2 ^ (x - e)) by (apply Z.pow_pos_nonneg; lia). nia.
    + fold d. rewrite Ht. enough (0 <= scaled e d / 2 ^ (- e)) by lia. apply Z.div_pos; [|done].
      unfold d, scaled. cbn [dyadic fst snd]. assert (0 < 2 ^ (x - e)) by (apply Z.pow_pos_nonneg; lia). nia.
Qed.

Lemma to_uint_mono w x y : 0 <= w -> fle x y = true -> to_uint w x <= to_uint w y.
Proof.
  intros Hw Hxy. destruct (fle_nan _ _ Hxy) as [Hx Hy]. assert (0 < 2 ^ w) by (apply Z.pow_pos_nonneg; lia). places x y y.
  assert (He : common x y y <= 0) by (unfold common; lia).
  rewrite (to_uint_place w _ _ _ Hw He Ha), (to_uint_place w _ _ _ Hw He Hb).
  unfold fle in Hxy. rewrite (fcompare_places _ _ _ _ _ He Ha Hb) in Hxy.
  assert (Hp : 0 < 2 ^ (- common x y y)) by (apply Z.pow_pos_nonneg; lia).
  destruct a as [u|[]], b as [v|[]]; cbn [compare_places place_uint] in *; try done; try lia.
  destruct (Z.compare_spec u v) as [->|Huv|]; try done.
  pose proof (Z.div_le_mono u v _ Hp). lia.
Qed.

Lemma to_uint_range w x : 0 <= w -> 0 <= to_uint w x < 2 ^ w.
Proof.
  intros Hw. assert (0 < 2 ^ w) by (apply Z.pow_pos_nonneg; lia). destruct x as [s|[]| |s m e]; cbn [to_uint]; try lia.
  destruct s; [lia|]. enough (0 <= dtrunc (dyadic (S754_finite false m e))) by lia.
  unfold dtrunc. cbn [dyadic fst snd]. destruct (Z.leb_spec 0 e); [apply Z.mul_nonneg_nonneg; [lia|apply Z.pow_nonneg; lia]|].
  apply Z.div_pos; [lia|apply Z.pow_pos_nonneg; lia].
Qed.

Lemma fmin_nan x y : is_nan y = false -> is_nan (fmin x y) = false.
Proof. intros Hy. unfold fmin. rewrite Hy. by destruct (is_nan x) eqn:?, (flt y x). Qed.

(** A minimum is not above its second argument, if that is a number. *)
Lemma fmin_le_r x y : is_nan y = false -> fle (fmin x y) y = true.
Proof.
  intros Hy. assert (Hr : fle y y = true).
  { places y y y. unfold fle. rewrite (fcompare_places _ _ _ _ _ (common_le _ _ _) Ha Ha).
    destruct a as [u|[]]; cbn; [by rewrite Z.compare_refl|done..]. }
  unfold fmin. rewrite Hy. destruct (is_nan x) eqn:Hx; [done|]. destruct (flt y x) eqn:E; [done|].
  rewrite flt_total in E by done. by apply negb_false_iff in E.
Qed.

(** ** Where binary32 does not round

    [rep k n x]: the float [x] is n / 2^k.  As long as |n| stays below 2^24, sums, differences
    and products of such floats are exact; quotients and products with them keep their sign. *)

(** ** Values as mantissa and exponent *)

Definition deq (a b : Z * Z) : Prop := dcompare a b = Eq.

Lemma deq_scaled e a b : e <= a.2 -> e <= b.2 -> deq a b <-> scaled e a = scaled e b.
Proof. intros Ha Hb. unfold deq. rewrite (dcompare_scaled e) by done. apply Z.compare_eq_iff. Qed.

Lemma deq_trans a b c : deq a b -> deq b c -> deq a c.
Proof.
  set (e := Z.min a.2 (Z.min b.2 c.2)). rewrite !(deq_scaled e) by lia. congruence.
Qed.

Lemma deq_sym a b : deq a b -> deq b a.
Proof. rewrite !(deq_scaled (Z.min a.2 b.2)) by lia. congruence. Qed.

Lemma deq_refl a : deq a a.
Proof. by rewrite (deq_scaled a.2) by lia. Qed.

Lemma deq_shift m e d : 0 <= d -> deq (m * 2 ^ d, e) (m, e + d).
Proof.
  intros Hd. rewrite (deq_scaled e) by (cbn; lia). unfold scaled. cbn [fst snd].
  rewrite Z.sub_diag, Z.mul_1_r. do 2 f_equal. lia.
Qed.

Lemma deq_add e a b x y z : deq (x, e) a -> deq (y, e) b -> a.2 = b.2 -> z = x + y -> deq (z, e) (a.1 + b.1, a.2).
Proof.
  intros Hx Hy Ee ->. set (c := Z.min e a.2).
  rewrite (deq_scaled c) in Hx, Hy by (cbn; lia). rewrite (deq_scaled c) by (cbn; lia).
  unfold scaled in *. cbn [fst snd] in *. rewrite <- Ee in Hy. lia.
Qed.

Lemma deq_mul a b c d : deq a b -> deq c d -> deq (a.1 * c.1, a.2 + c.2) (b.1 * d.1, b.2 + d.2).
Proof.
  intros Hab Hcd. set (e := Z.min a.2 b.2) in *. set (f := Z.min c.2 d.2).
  rewrite (deq_scaled e) in Hab by lia. rewrite (deq_scaled f) in Hcd by lia. rewrite (deq_scaled (e + f)) by (cbn; lia).
  unfold scaled in *. cbn [fst snd].
  replace (a.2 + c.2 - (e + f)) with ((a.2 - e) + (c.2 - f)) by lia.
  replace (b.2 + d.2 - (e + f)) with ((b.2 - e) + (d.2 - f)) by lia. rewrite !Z.pow_add_r by lia.
  transitivity ((a.1 * 2 ^ (a.2 - e)) * (c.1 * 2 ^ (c.2 - f))); [ring|]. rewrite Hab, Hcd. ring.
Qed.

(** ** Digits and shifts *)

Lemma digits_spec m : 2 ^ (Zpos (digits2_pos m) - 1) <= Zpos m < 2 ^ Zpos (digits2_pos m).
Proof.
  induction m as [m IH|m IH|]; [| |done].
  - cbn [digits2_pos]. rewrite Pos2Z.inj_succ, (Pos2Z.inj_xI m). rewrite Z.pow_succ_r by lia.
    replace (Z.succ (Zpos (digits2_pos m)) - 1) with (Z.succ (Zpos (digits2_pos m) - 1)) by lia.
    rewrite Z.pow_succ_r by lia. lia.
  - cbn [digits2_pos]. rewrite Pos2Z.inj_succ, (Pos2Z.inj_xO m). rewrite Z.pow_succ_r by lia.
    replace (Z.succ (Zpos (digits2_pos m)) - 1) with (Z.succ (Zpos (digits2_pos m) - 1)) by lia.
    rewrite Z.pow_succ_r by lia. lia.
Qed.

Lemma pow2_lt a b : 0 <= b -> 2 ^ a < 2 ^ b -> a < b.
Proof. intros Hb H. by apply (Z.pow_lt_mono_r_iff 2) in H. Qed.

Lemma digits_unique m d : 0 < d -> 2 ^ (d - 1) <= Zpos m < 2 ^ d -> Zpos (digits2_pos m) = d.
Proof.
  intros Hd Hm. pose proof (digits_spec m) as Hs.
  assert (d - 1 < Zpos (digits2_pos m)) by (apply pow2_lt; lia).
  assert (Zpos (digits2_pos m) - 1 < d) by (apply pow2_lt; lia). lia.
Qed.

Lemma iter_pos_nat {A} (f : A -> A) p : forall x, SpecFloat.iter_pos f p x = Nat.iter (Pos.to_nat p) f x.
Proof.
  induction p as [p IH|p IH|]; intros x; cbn [SpecFloat.iter_pos]; rewrite ?IH; [| |done].
  - replace (Pos.to_nat (xI p)) with (Pos.to_nat p + (Pos.to_nat p + 1))%nat by lia. by rewrite !Nat.iter_add.
  - replace (Pos.to_nat (xO p)) with (Pos.to_nat p + Pos.to_nat p)%nat by lia. by rewrite Nat.iter_add.
Qed.

Lemma shr_1_half r : 0 <= shr_m r -> shr_m (shr_1 r) = shr_m r / 2.
Proof.
  destruct r as [[|[p|p|]|p] r s]; cbn [shr_1 shr_m]; intros Hm; try done.
  - apply (Z.div_unique _ _ _ 1); lia.
  - apply (Z.div_unique _ _ _ 0); lia.
Qed.

Lemma shr_iter n : forall r, 0 <= shr_m r -> shr_m (Nat.iter n shr_1 r) = shr_m r / 2 ^ Z.of_nat n.
Proof.
  induction n as [|n IH]; intros r Hr; [by rewrite Z.div_1_r|].
  change (Nat.iter (S n) shr_1 r) with (shr_1 (Nat.iter n shr_1 r)). rewrite shr_1_half by (rewrite IH by done; apply Z.div_pos; lia).
  rewrite IH by done. rewrite Z.div_div by lia. f_equal. rewrite Nat2Z.inj_succ, Z.pow_succ_r by lia. lia.
Qed.

(** Zeros that are shifted out leave no trace. *)
Lemma shr_zeros n q : 0 < q ->
  Nat.iter n shr_1 (Build_shr_record (q * 2 ^ Z.of_nat n) false false) = Build_shr_record q false false.
Proof.
  intros Hq. induction n as [|n IH]; [by rewrite Z.mul_1_r|].
  rewrite Nat.iter_succ_r. rewrite Nat2Z.inj_succ, Z.pow_succ_r by lia.
  assert (Hp : 0 < q * 2 ^ Z.of_nat n) by (apply Z.mul_pos_pos; [done|apply Z.pow_pos_nonneg; lia]).
  replace (q * (2 * 2 ^ Z.of_nat n)) with (2 * (q * 2 ^ Z.of_nat n)) by lia.
  destruct (q * 2 ^ Z.of_nat n) as [|p|p]; try done.
Qed.

Definition digits (m : Z) : Z := Zdigits2 m.

Lemma fexp_le d : fexp PREC EMAX d = Z.max (d - 24) (-149).
Proof. reflexivity. Qed.

(** One rounding step: the place of the leading digit stays. *)
Lemma shr_fexp_ok m e l : -140 <= Zpos (digits2_pos m) + e ->
  exists q e', (shr_m (shr_fexp PREC EMAX (Zpos m) e l).1 = Zpos q /\ (shr_fexp PREC EMAX (Zpos m) e l).2 = e') /\
    Zpos (digits2_pos q) + e' = Zpos (digits2_pos m) + e /\ Zpos (digits2_pos m) + e - 24 <= e' /\ e' = Z.max e (fexp PREC EMAX (Zpos (digits2_pos m) + e)).
Proof.
  intros Hd. set (d := Zpos (digits2_pos m)) in *. unfold shr_fexp. cbn [Zdigits2]. fold d.
  assert (Hm : shr_m (shr_record_of_loc (Zpos m) l) = Zpos m) by by destruct l as [|[]].
  rewrite fexp_le. destruct (Z.max (d + e - 24) (-149) - e) as [|p|p] eqn:Es; cbn [shr fst snd].
  - exists m, e. rewrite Hm. fold d. lia.
  - pose proof (digits_spec m) as Hs. fold d in Hs.
    assert (Hp : Zpos p <= d - 1) by lia.
    assert (Hq : 2 ^ (d - Zpos p - 1) <= Zpos m / 2 ^ Zpos p < 2 ^ (d - Zpos p)).
    { split.
      - apply Z.div_le_lower_bound; [lia|]. rewrite <- Z.pow_add_r by lia. replace (Zpos p + (d - Zpos p - 1)) with (d - 1) by lia. lia.
      - apply Z.div_lt_upper_bound; [lia|]. rewrite <- Z.pow_add_r by lia. replace (Zpos p + (d - Zpos p)) with d by lia. lia. }
    assert (0 < 2 ^ (d - Zpos p - 1)) by (apply Z.pow_pos_nonneg; lia).
    exists (Z.to_pos (Zpos m / 2 ^ Zpos p)), (e + Zpos p). split_and!; try lia.
    + rewrite iter_pos_nat, shr_iter, Hm by (rewrite Hm; lia). rewrite positive_nat_Z, Z2Pos.id by lia. done.
    + rewrite (digits_unique _ (d - Zpos p)); [lia|lia|]. rewrite Z2Pos.id by lia. done.
  - exists m, e. rewrite Hm. fold d. lia.
Qed.

(** Rounding keeps the sign and the size. *)
Lemma round_aux_size sx m e l : -130 <= Zpos (digits2_pos m) + e <= 120 -> e <= 104 ->
  exists m' e', binary_round_aux PREC EMAX sx (Zpos m) e l = S754_finite sx m' e' /\
    Zpos (digits2_pos m) + e <= Zpos (digits2_pos m') + e' <= Zpos (digits2_pos m) + e + 1.
Proof.
  intros Hd He. unfold binary_round_aux.
  destruct (shr_fexp_ok m e l) as (q & e1 & [E1 E2] & Hq & Hl1 & He1); [lia|].
  destruct (shr_fexp PREC EMAX (Zpos m) e l) as [r1 x1]. cbn [fst snd] in *. subst x1.
  set (l1 := loc_of_shr_record r1). rewrite E1.
  assert (exists q2, round_nearest_even (Zpos q) l1 = Zpos q2 /\ (q2 = q \/ Zpos q2 = Zpos q + 1)) as (q2 & E3 & Hq2).
  { unfold round_nearest_even. destruct l1 as [|[]]; [eauto| |eauto|].
    - destruct (Z.even _); [eauto|]. exists (Pos.succ q). split; [lia|]. right. lia.
    - exists (Pos.succ q). split; [lia|]. right. lia. }
  assert (Hd2 : Zpos (digits2_pos q) <= Zpos (digits2_pos q2) <= Zpos (digits2_pos q) + 1).
  { destruct Hq2 as [->|Hq2]; [lia|]. pose proof (digits_spec q) as Ha. pose proof (digits_spec q2) as Hb. split.
    - assert (Zpos (digits2_pos q) - 1 < Zpos (digits2_pos q2)) by (apply pow2_lt; lia). lia.
    - assert (Zpos (digits2_pos q2) - 1 < Zpos (digits2_pos q) + 1); [|lia]. apply pow2_lt; [lia|].
      rewrite (Z.pow_add_r 2 (Zpos (digits2_pos q))) by lia. lia. }
  rewrite E3. destruct (shr_fexp_ok q2 e1 loc_Exact) as (q3 & e3 & [E5 E6] & Hq3 & Hl3 & He3); [lia|].
  destruct (shr_fexp PREC EMAX (Zpos q2) e1 loc_Exact) as [r2 x2]. cbn [fst snd] in *. subst x2. rewrite E5.
  rewrite (proj2 (Z.leb_le _ _)).
  2: { rewrite fexp_le in *. change (EMAX - PREC) with 104. lia. }
  exists q3, e3. split; [done|]. lia.
Qed.

(** Rounding a value of fewer than 25 bits changes nothing. *)
Lemma round_aux_exact sx m e n k : 0 < n < 2 ^ 24 -> 0 <= k <= 149 -> deq (Zpos m, e) (n, - k) ->
  exists m' e', binary_round_aux PREC EMAX sx (Zpos m) e loc_Exact = S754_finite sx m' e' /\ deq (Zpos m', e') (n, - k).
Proof.
  intros Hn Hk Hm. pose proof (digits_spec m) as Hd. set (d := Zpos (digits2_pos m)) in *.
  assert (Hf : d + e <= 24 - k).
  { set (c := Z.min e (- k)). rewrite (deq_scaled c) in Hm by (cbn; lia). unfold scaled in Hm. cbn [fst snd] in Hm.
    assert (0 < 2 ^ (e - c)) by (apply Z.pow_pos_nonneg; lia). assert (0 < 2 ^ (- k - c)) by (apply Z.pow_pos_nonneg; lia).
    enough (d - 1 + (e - c) < 24 + (- k - c)) by lia. apply pow2_lt; [lia|]. rewrite !Z.pow_add_r by lia. nia. }
  set (f := fexp PREC EMAX (d + e)). assert (Ef : f = Z.max (d + e - 24) (-149)) by apply fexp_le.
  unfold binary_round_aux, shr_fexp at 1. cbn [Zdigits2]. fold d. fold f.
  destruct (Z.le_gt_cases f e) as [Hfe|Hfe].
  - assert (Es : forall r, shr r e (f - e) = (r, e)) by (intros r; destruct (f - e) eqn:E; [done|lia|done]).
    rewrite Es. cbn [shr_record_of_loc shr_m loc_of_shr_record round_nearest_even]. unfold shr_fexp. cbn [Zdigits2]. fold d. fold f.
    rewrite Es. cbn [shr_record_of_loc shr_m]. rewrite (proj2 (Z.leb_le _ _)) by (change (EMAX - PREC) with 104; lia).
    by exists m, e.
  - set (q := n * 2 ^ (- k - f)). assert (Hmq : Zpos m = q * 2 ^ (f - e)).
    { rewrite (deq_scaled e) in Hm by (cbn; lia). unfold scaled in Hm. cbn [fst snd] in Hm. rewrite Z.sub_diag, Z.mul_1_r in Hm.
      rewrite Hm. unfold q. rewrite <- Z.mul_assoc, <- Z.pow_add_r by lia. do 2 f_equal. lia. }
    assert (Hq : 0 < q) by (unfold q; apply Z.mul_pos_pos; [lia|apply Z.pow_pos_nonneg; lia]).
    destruct (f - e) as [|p|p] eqn:Es; try lia. unfold shr at 1. rewrite iter_pos_nat. cbn [shr_record_of_loc].
    rewrite Hmq, <- (positive_nat_Z p), shr_zeros, positive_nat_Z by done.
    cbn [shr_record_of_loc shr_m loc_of_shr_record round_nearest_even].
    destruct q as [|q'|q'] eqn:Eq; try lia. assert (Hdq : Zpos (digits2_pos q') = d - Zpos p).
    { assert (0 < 2 ^ Zpos p) by (apply Z.pow_pos_nonneg; lia).
      assert (Hpd : Zpos p < d). { apply pow2_lt; [lia|]. nia. }
      apply digits_unique; [lia|]. replace (d - 1) with ((d - Zpos p - 1) + Zpos p) in Hd by lia.
      replace d with ((d - Zpos p) + Zpos p) in Hd at 2 by lia. rewrite !Z.pow_add_r, Hmq in Hd by lia. nia. }
    unfold shr_fexp. cbn [Zdigits2]. rewrite Hdq. replace (d - Zpos p + (e + Zpos p)) with (d + e) by lia. fold f.
    replace (f - (e + Zpos p)) with 0 by lia. cbn [shr shr_record_of_loc shr_m].
    rewrite (proj2 (Z.leb_le _ _)) by (change (EMAX - PREC) with 104; lia).
    exists q', (e + Zpos p). split; [done|]. rewrite (deq_scaled f) by (cbn; lia). unfold scaled. cbn [fst snd].
    replace (e + Zpos p - f) with 0 by lia. rewrite <- Eq. unfold q. lia.
Qed.

(** ** Floats that are n / 2^k *)

Definition rep (k n : Z) (x : f32) : Prop :=
  match x with
  | S754_zero _ => n = 0
  | S754_finite _ _ _ => deq (dyadic x) (n, - k)
  | _ => False
  end.

Definition small (n : Z) : Prop := - 2 ^ 24 < n < 2 ^ 24.

Lemma rep_zero k n x : rep k n x -> n = 0 -> exists s, x = S754_zero s.
Proof.
  destruct x as [s| | |s m e]; cbn [rep]; try done; [by exists s|]. intros Hx ->. exfalso. set (c := Z.min e (- k)) in *.
  rewrite (deq_scaled c) in Hx by (cbn; lia). unfold scaled in Hx. cbn [dyadic fst snd] in Hx.
  assert (0 < 2 ^ (e - c)) by (apply Z.pow_pos_nonneg; lia). destruct s; nia.
Qed.

Lemma rep_finite k n x : rep k n x -> n <> 0 ->
  exists m e, x = S754_finite (n <? 0) m e /\ deq (Zpos m, e) (Z.abs n, - k).
Proof.
  destruct x as [s| | |s m e]; cbn [rep]; try done. intros Hx Hn. set (c := Z.min e (- k)) in *.
  rewrite (deq_scaled c) in Hx by (cbn; lia). unfold scaled in Hx. cbn [dyadic fst snd] in Hx.
  assert (0 < 2 ^ (e - c)) by (apply Z.pow_pos_nonneg; lia). assert (0 < 2 ^ (- k - c)) by (apply Z.pow_pos_nonneg; lia).
  exists m, e. assert (s = (n <? 0)) as ->.
  { destruct s; symmetry; [apply Z.ltb_lt|apply Z.ltb_ge]; nia. }
  split; [done|]. rewrite (deq_scaled c) by (cbn; lia). unfold scaled. cbn [fst snd]. destruct (Z.ltb_spec n 0); nia.
Qed.

Lemma rep_of_finite k n s m e : deq (Zpos m, e) (Z.abs n, - k) -> s = (n <? 0) -> rep k n (S754_finite s m e).
Proof.
  intros Hm ->. cbn [rep dyadic]. set (c := Z.min e (- k)) in *. rewrite (deq_scaled c) in * by (cbn; lia).
  unfold scaled in *. cbn [fst snd] in *. destruct (Z.ltb_spec n 0); nia.
Qed.

Lemma round_rep sx m e n k : n <> 0 -> small n -> 0 <= k <= 149 -> sx = (n <? 0) -> deq (Zpos m, e) (Z.abs n, - k) ->
  rep k n (binary_round_aux PREC EMAX sx (Zpos m) e loc_Exact).
Proof.
  intros Hn0 Hn Hk Hs Hm. unfold small in Hn. destruct (round_aux_exact sx m e (Z.abs n) k) as (m' & e' & -> & Hd); [lia|done|done|].
  by apply rep_of_finite.
Qed.

Lemma iter_xO p : forall m, Zpos (Pos.iter xO m p) = Zpos m * 2 ^ Zpos p.
Proof.
  intros m. induction p as [|p IH] using Pos.peano_ind; [cbn; lia|].
  rewrite Pos.iter_succ. transitivity (2 * Zpos (Pos.iter xO m p)); [done|]. rewrite IH, Pos2Z.inj_succ, Z.pow_succ_r by lia. lia.
Qed.

Lemma shl_align_ok m e e' : exists m' x, shl_align m e e' = (m', x) /\ x = Z.min e e' /\ Zpos m' = Zpos m * 2 ^ (e - x).
Proof.
  unfold shl_align. destruct (e' - e) as [|p|p] eqn:E.
  - exists m, e. rewrite Z.sub_diag, Z.mul_1_r. split_and!; [done|lia|done].
  - exists m, e. rewrite Z.sub_diag, Z.mul_1_r. split_and!; [done|lia|done].
  - exists (Pos.iter xO m p), e'. split; [done|]. split; [lia|]. rewrite iter_xO. do 2 f_equal. lia.
Qed.

Lemma normalize_rep M e n k s : small n -> 0 <= k <= 149 -> deq (M, e) (n, - k) -> rep k n (binary_normalize PREC EMAX M e s).
Proof.
  intros Hn Hk Hd. set (c := Z.min e (- k)). pose proof Hd as Hs. rewrite (deq_scaled c) in Hs by (cbn; lia).
  unfold scaled in Hs. cbn [fst snd] in Hs.
  assert (0 < 2 ^ (e - c)) by (apply Z.pow_pos_nonneg; lia). assert (0 < 2 ^ (- k - c)) by (apply Z.pow_pos_nonneg; lia).
  unfold binary_normalize. destruct M as [|m|m].
  - cbn [rep]. nia.
  - unfold binary_round. destruct (shl_align_ok m e (fexp PREC EMAX (Zpos (digits2_pos m) + e))) as (m' & x & -> & Hx & Em).
    apply round_rep; [nia|done|done|symmetry; apply Z.ltb_ge; nia|]. rewrite Em. rewrite Z.abs_eq by nia.
    apply deq_trans with (Zpos m, e); [|done]. replace e with (x + (e - x)) at 2 by lia. apply deq_shift. lia.
  - unfold binary_round. destruct (shl_align_ok m e (fexp PREC EMAX (Zpos (digits2_pos m) + e))) as (m' & x & -> & Hx & Em).
    apply round_rep; [nia|done|done|symmetry; apply Z.ltb_lt; nia|]. rewrite Em. rewrite Z.abs_neq by nia.
    apply deq_trans with (Zpos m, e).
    + replace e with (x + (e - x)) at 2 by lia. apply deq_shift. lia.
    + rewrite (deq_scaled c) by (cbn; lia). unfold scaled. cbn [fst snd]. lia.
Qed.

Lemma rep_of_int n : small n -> rep 0 n (of_int n).
Proof. intros Hn. apply normalize_rep; [done|lia|apply deq_refl]. Qed.

Lemma rep_neg k n x : rep k n x -> rep k (- n) (fneg x).
Proof.
  destruct x as [s| | |s m e]; cbn [rep fneg SFopp dyadic]; try done; [lia|]. set (c := Z.min e (- k)).
  rewrite !(deq_scaled c) by (cbn; lia). unfold scaled. cbn [fst snd]. destruct s; cbn [negb]; lia.
Qed.

Lemma rep_abs k n x : rep k n x -> rep k (Z.abs n) (fabs x).
Proof.
  intros Hx. destruct (Z.eq_dec n 0) as [->|Hn].
  - destruct (rep_zero _ _ _ Hx eq_refl) as [s ->]. done.
  - destruct (rep_finite _ _ _ Hx Hn) as (m & e & -> & Hd). apply rep_of_finite; [by rewrite Z.abs_involutive|].
    symmetry. apply Z.ltb_ge. lia.
Qed.

Lemma rep_scale k n d x : 0 <= d -> rep k n x -> rep (k + d) (n * 2 ^ d) x.
Proof.
  intros Hd. destruct x as [s| | |s m e]; cbn [rep]; try done; [by intros ->|]. intros Hx. apply deq_trans with (n, - k); [done|].
  apply deq_sym. replace (- k) with (- (k + d) + d) by lia. by apply deq_shift.
Qed.

Lemma fsub_fadd x y : fsub x y = fadd x (fneg y).
Proof.
  destruct x as [[]|[]| |s m e], y as [[]|[]| |s' m' e']; try reflexivity.
  unfold fsub, fadd, fneg, SFsub, SFadd, SFopp. f_equal. unfold Z.sub. f_equal. by destruct s'.
Qed.

Lemma rep_add k a b x y : rep k a x -> rep k b y -> small (a + b) -> 0 <= k <= 149 -> rep k (a + b) (fadd x y).
Proof.
  intros Hx Hy Hn Hk.
  destruct x as [s| | |s m e]; try done; destruct y as [s'| | |s' m' e']; try done.
  - cbn [rep] in Hx, Hy. subst. by destruct s, s'.
  - cbn [rep] in Hx. subst a. exact Hy.
  - cbn [rep] in Hy. subst b. rewrite Z.add_0_r. exact Hx.
  - unfold fadd, SFadd. set (z := Z.min e e').
    destruct (shl_align_ok m e z) as (m1 & x1 & -> & Ex1 & Em1), (shl_align_ok m' e' z) as (m2 & x2 & -> & Ex2 & Em2). cbn [fst].
    apply normalize_rep; [done|done|]. change (a + b, - k) with ((a, - k).1 + (b, - k).1, (a, - k).2).
    eapply (deq_add z (a, - k) (b, - k)); [| |done|done].
    + apply deq_trans with (dyadic (S754_finite s m e)); [|exact Hx]. cbn [dyadic].
      replace (cond_Zopp s (Zpos m1)) with ((if s then Zneg m else Zpos m) * 2 ^ (e - z)) by (destruct s; cbn [cond_Zopp]; subst x1; rewrite Em1; replace (Z.min e z) with z by lia; lia).
      replace e with (z + (e - z)) at 2 by lia. apply deq_shift. lia.
    + apply deq_trans with (dyadic (S754_finite s' m' e')); [|exact Hy]. cbn [dyadic].
      replace (cond_Zopp s' (Zpos m2)) with ((if s' then Zneg m' else Zpos m') * 2 ^ (e' - z)) by (destruct s'; cbn [cond_Zopp]; subst x2; rewrite Em2; replace (Z.min e' z) with z by lia; lia).
      replace e' with (z + (e' - z)) at 2 by lia. apply deq_shift. lia.
Qed.

Lemma rep_sub k a b x y : rep k a x -> rep k b y -> small (a - b) -> 0 <= k <= 149 -> rep k (a - b) (fsub x y).
Proof. intros Hx Hy%rep_neg Hn Hk. rewrite fsub_fadd. by apply rep_add. Qed.

Lemma rep_mul j k a b x y : rep j a x -> rep k b y -> small (a * b) -> 0 <= j + k <= 149 -> rep (j + k) (a * b) (fmul x y).
Proof.
  intros Hx Hy Hn Hk. destruct (Z.eq_dec a 0) as [->|Ha].
  { destruct (rep_zero _ _ _ Hx eq_refl) as [s ->]. by destruct y. }
  destruct (Z.eq_dec b 0) as [->|Hb].
  { destruct (rep_zero _ _ _ Hy eq_refl) as [s ->]. rewrite Z.mul_0_r. by destruct x. }
  destruct (rep_finite _ _ _ Hx Ha) as (m & e & -> & Hd), (rep_finite _ _ _ Hy Hb) as (m' & e' & -> & Hd').
  unfold fmul, SFmul. rewrite Pos2Z.inj_mul. rewrite <- Pos2Z.inj_mul. apply round_rep; [nia|done|done| |].
  - destruct (Z.ltb_spec a 0), (Z.ltb_spec b 0); cbn [xorb]; symmetry; (apply Z.ltb_ge || apply Z.ltb_lt); nia.
  - rewrite Pos2Z.inj_mul, Z.abs_mul. pose proof (deq_mul _ _ _ _ Hd Hd') as H. cbn [fst snd] in H.
    by replace (- (j + k)) with (- j + - k) by lia.
Qed.

(** ** Comparisons and conversions *)

Lemma rep_place k n x e : rep k n x -> e <= - k -> e <= exponent x -> at_scale e x (inl (n * 2 ^ (- k - e))).
Proof.
  destruct x as [s| | |s m y]; cbn [rep exponent]; try done; intros Hx Hk He; [subst; constructor|].
  rewrite (deq_scaled e) in Hx by done. change (n * 2 ^ (- k - e)) with (scaled e (n, - k)). rewrite <- Hx. by constructor.
Qed.

Lemma rep_nan k n x : rep k n x -> is_nan x = false.
Proof. by destruct x. Qed.

Lemma rep_compare k a b x y : 0 <= k -> rep k a x -> rep k b y -> fcompare x y = Some (a ?= b).
Proof.
  intros Hk Hx Hy. set (e := Z.min (- k) (Z.min (exponent x) (exponent y))).
  rewrite (fcompare_places e _ _ _ _ ltac:(lia) (rep_place k a x e Hx ltac:(lia) ltac:(lia)) (rep_place k b y e Hy ltac:(lia) ltac:(lia))).
  cbn [compare_places]. f_equal. assert (0 < 2 ^ (- k - e)) by (apply Z.pow_pos_nonneg; lia).
  destruct (Z.compare_spec a b) as [->|?|?]; [apply Z.compare_refl|apply Z.compare_lt_iff|apply Z.compare_gt_iff]; nia.
Qed.

Lemma rep_flt k a b x y : 0 <= k -> rep k a x -> rep k b y -> flt x y = (a <? b).
Proof. intros Hk Hx Hy. unfold flt, Z.ltb. rewrite (rep_compare k a b) by done. by destruct (a ?= b). Qed.

Lemma rep_fle k a b x y : 0 <= k -> rep k a x -> rep k b y -> fle x y = (a <=? b).
Proof. intros Hk Hx Hy. unfold fle, Z.leb. rewrite (rep_compare k a b) by done. by destruct (a ?= b). Qed.

Lemma rep_min k a b x y : 0 <= k -> rep k a x -> rep k b y -> rep k (Z.min a b) (fmin x y).
Proof.
  intros Hk Hx Hy. unfold fmin. rewrite (rep_nan _ _ _ Hx), (rep_nan _ _ _ Hy), (rep_flt k b a) by done.
  destruct (Z.ltb_spec b a); [rewrite Z.min_r by lia|rewrite Z.min_l by lia]; done.
Qed.

Lemma rep_max k a b x y : 0 <= k -> rep k a x -> rep k b y -> rep k (Z.max a b) (fmax x y).
Proof.
  intros Hk Hx Hy. unfold fmax. rewrite (rep_nan _ _ _ Hx), (rep_nan _ _ _ Hy), (rep_flt k a b) by done.
  destruct (Z.ltb_spec a b); [rewrite Z.max_r by lia|rewrite Z.max_l by lia]; done.
Qed.

Lemma rep_to_uint w k n x : 0 <= w -> 0 <= k -> rep k n x -> to_uint w x = Z.max 0 (Z.min (n / 2 ^ k) (2 ^ w - 1)).
Proof.
  intros Hw Hk Hx. set (e := Z.min (- k) (exponent x)).
  rewrite (to_uint_place w e x _ Hw ltac:(lia) (rep_place k n x e Hx ltac:(lia) ltac:(lia))). cbn [place_uint]. do 2 f_equal.
  assert (0 < 2 ^ (- k - e)) by (apply Z.pow_pos_nonneg; lia). assert (0 < 2 ^ k) by (apply Z.pow_pos_nonneg; lia).
  replace (- e) with (k + (- k - e)) by lia. rewrite Z.pow_add_r by lia. by rewrite Z.div_mul_cancel_r by lia.
Qed.

(** ** The sign of a product with an inverse *)

Definition one : f32 := of_int 1.

Lemma rep_size k n m e : deq (Zpos m, e) (n, - k) -> 0 < n < 2 ^ 24 -> 1 - k <= Zpos (digits2_pos m) + e <= 24 - k.
Proof.
  intros Hd Hn. pose proof (digits_spec m) as Hm. set (d := Zpos (digits2_pos m)) in *. set (c := Z.min e (- k)).
  rewrite (deq_scaled c) in Hd by (cbn; lia). unfold scaled in Hd. cbn [fst snd] in Hd.
  assert (0 < 2 ^ (e - c)) by (apply Z.pow_pos_nonneg; lia). assert (0 < 2 ^ (- k - c)) by (apply Z.pow_pos_nonneg; lia).
  assert (d - 1 + (e - c) < 24 + (- k - c)). { apply pow2_lt; [lia|]. rewrite !Z.pow_add_r by lia. nia. }
  assert (- k - c < d + (e - c)). { apply pow2_lt; [lia|]. rewrite Z.pow_add_r by lia. nia. }
  lia.
Qed.

(** The quotient of one by an exact float: finite, of its sign and of moderate size. *)
Lemma inverse_size n x : rep 0 n x -> n <> 0 -> small n ->
  exists m e, fdiv one x = S754_finite (n <? 0) m e /\ -30 <= Zpos (digits2_pos m) + e <= 10 /\ e <= 10.
Proof.
  intros Hx Hn0 Hn. unfold small in Hn. destruct (rep_finite _ _ _ Hx Hn0) as (m & e & -> & Hd).
  pose proof (rep_size 0 (Z.abs n) m e Hd ltac:(lia)) as Hsize. pose proof (digits_spec m) as Hm.
  set (d := Zpos (digits2_pos m)) in *. change one with (S754_finite false 8388608 (-23)).
  unfold fdiv, SFdiv, SFdiv_core_binary. cbn [Zdigits2]. fold d. change (Zpos (digits2_pos 8388608)) with 24.
  rewrite fexp_le. set (x := Z.min (Z.max (24 + -23 - (d + e) - 24) (-149)) (-23 - e)).
  assert (Hs : 0 <= -23 - e - x) by lia.
  assert (Em : match -23 - e - x with Zpos _ => Z.shiftl 8388608 (-23 - e - x) | Z0 => 8388608 | Zneg _ => 0 end = 2 ^ (-e - x)).
  { destruct (-23 - e - x) as [|p|p] eqn:E; [by replace (- e - x) with 23 by lia| |lia].
    rewrite Z.shiftl_mul_pow2 by lia. change 8388608 with (2 ^ 23). rewrite <- Z.pow_add_r by lia. f_equal. lia. }
  rewrite Em. replace (- e - x) with (23 + d) by lia. rewrite Z.pow_add_r by lia. assert (0 < 2 ^ (d - 1)) by (apply Z.pow_pos_nonneg; lia).
  destruct (Z.div_eucl (2 ^ 23 * 2 ^ d) (Zpos m)) as [q r] eqn:Eq.
  assert (Hq : q = 2 ^ 23 * 2 ^ d / Zpos m) by (unfold Z.div; by rewrite Eq).
  assert (Hlow : 2 ^ 23 <= q) by (rewrite Hq; apply Z.div_le_lower_bound; nia).
  assert (Hhigh : q < 2 ^ 25).
  { rewrite Hq. apply Z.div_lt_upper_bound; [lia|]. replace (2 ^ d) with (2 * 2 ^ (d - 1)); [nia|].
    rewrite <- Z.pow_succ_r by lia. f_equal. lia. }
  destruct q as [|q|q]; try lia. pose proof (digits_spec q) as Hdq.
  assert (23 < Zpos (digits2_pos q)) by (apply pow2_lt; lia).
  assert (Zpos (digits2_pos q) - 1 < 25) by (apply pow2_lt; lia).
  destruct (round_aux_size (xorb false (n <? 0)) q x (new_location (Zpos m) r)) as (m' & e' & -> & Hb); [lia|lia|].
  exists m', e'. rewrite xorb_false_l. split; [done|]. lia.
Qed.

(** Whether a product with an inverse is negative shows in the signs of the factors. *)
Lemma scaled_sign k a n x y : rep k a x -> rep 0 n y -> n <> 0 -> small a -> small n -> 0 <= k <= 40 ->
  fge (fmul x (fdiv one y)) (S754_zero false) = (0 <=? a * n).
Proof.
  intros Hx Hy Hn0 Ha Hn Hk. destruct (inverse_size n y Hy Hn0 Hn) as (m' & e' & -> & Hsz & He').
  destruct (Z.eq_dec a 0) as [->|Ha0].
  { destruct (rep_zero _ _ _ Hx eq_refl) as [s ->]. done. }
  destruct (rep_finite _ _ _ Hx Ha0) as (m & e & -> & Hd). unfold small in Ha.
  pose proof (rep_size k (Z.abs a) m e Hd ltac:(lia)) as Hsx. unfold fmul, SFmul.
  assert (Hdm : Zpos (digits2_pos m) + Zpos (digits2_pos m') - 1 <= Zpos (digits2_pos (m * m')) <= Zpos (digits2_pos m) + Zpos (digits2_pos m')).
  { pose proof (digits_spec m) as Hm. pose proof (digits_spec m') as Hm'. pose proof (digits_spec (m * m')) as Hmm.
    rewrite Pos2Z.inj_mul in Hmm. set (u := Zpos (digits2_pos m)) in *. set (v := Zpos (digits2_pos m')) in *. set (w := Zpos (digits2_pos (m * m'))) in *.
    assert (0 < 2 ^ (u - 1)) by (apply Z.pow_pos_nonneg; lia). assert (0 < 2 ^ (v - 1)) by (apply Z.pow_pos_nonneg; lia).
    assert (u - 1 + (v - 1) < w). { apply pow2_lt; [lia|]. rewrite Z.pow_add_r by lia. nia. }
    assert (w - 1 < u + v). { apply pow2_lt; [lia|]. rewrite Z.pow_add_r by lia. nia. }
    lia. }
  destruct (round_aux_size (xorb (a <? 0) (n <? 0)) (m * m') (e + e') loc_Exact) as (p & f & -> & _); [lia|lia|].
  unfold fge, fle, fcompare. cbn [dyadic]. unfold dcompare. cbn [fst snd]. rewrite Z.mul_0_l.
  assert (0 < 2 ^ (f - Z.min 0 f)) by (apply Z.pow_pos_nonneg; lia).
  destruct (Z.ltb_spec a 0), (Z.ltb_spec n 0); cbn [xorb].
  - rewrite (proj2 (Z.compare_lt_iff _ _)) by nia. symmetry. apply Z.leb_le. nia.
  - rewrite (proj2 (Z.compare_gt_iff _ _)) by nia. symmetry. apply Z.leb_gt. nia.
  - rewrite (proj2 (Z.compare_gt_iff _ _)) by nia. symmetry. apply Z.leb_gt. nia.
  - rewrite (proj2 (Z.compare_lt_iff _ _)) by nia. symmetry. apply Z.leb_le. nia.
Qed.
