(* ===== verification/Shading.v ===== *)
(** * Shading: vertices, shaders, resources and matrices of the renderer, kernel/src/graphics/

    The float formats of color.rs, resources.rs, pipeline.rs, transform.rs and shaders.rs.  The
    functions of the micromath crate are the class [MathFns].  A vertex travels to its shader
    as the bytes of its floats; here they stay floats. *)

From Stdlib Require Import ZArith Lia SpecFloat.
From stdpp Require Import base tactics list option numbers.
From S2P Require Import Prelude F32 Surface.

Open Scope rust_scope.

Class MathFns : Type := {
  sqrt : f32 -> f32;
  sin : f32 -> f32;
  cos : f32 -> f32;
  tan : f32 -> f32;
  powf : f32 -> f32 -> f32;
}.

Definition f0 : f32 := S754_zero false.
Definition f1 : f32 := of_int 1.
Definition half : f32 := of_ratio 1 2.

(** ** Colours of floats (color.rs) *)

Definition from_rgbf32 (r g b : f32) : Rgba8888UNORM :=
  mkRgba (to_u8 (r * of_int 255)%f32) (to_u8 (g * of_int 255)%f32) (to_u8 (b * of_int 255)%f32) 255.

(** A colour of [Rgb888] is its three bytes. *)
Definition from_rgb_emb (c : Z * Z * Z) : Rgba8888UNORM := let '(r, g, b) := c in mkRgba r g b 255.

Definition blend_over (c : Rgba8888UNORM) (dest : Z * Z * Z) : Z * Z * Z :=
  let '(dr, dg, db) := dest in
  if alpha c =? 255 then (red c, green c, blue c) else if alpha c =? 0 then dest else
  let a := (of_int (alpha c) / of_int 255)%f32 in
  let inv_alpha := (f1 - a)%f32 in
  (to_u8 (of_int (red c) * a + of_int dr * inv_alpha)%f32,
   to_u8 (of_int (green c) * a + of_int dg * inv_alpha)%f32,
   to_u8 (of_int (blue c) * a + of_int db * inv_alpha)%f32).

Module Rgba8888F.
Record t : Type := mk { r : f32; g : f32; b : f32; a : f32 }.

Definition RED : t := mk f1 f0 f0 f1.
Definition GREEN : t := mk f0 f1 f0 f1.
Definition BLUE : t := mk f0 f0 f1 f1.
Definition GRAY : t := let quarter := of_ratio 1 4 in mk quarter quarter quarter f1.
Definition WHITE : t := mk f1 f1 f1 f1.

Definition from_rgbf32 (r g b : f32) : t := mk r g b f1.

Definition to_u32_xrgb (c : t) : Z :=
  let r := to_u32 (fclamp (r c) f0 f1 * of_int 255)%f32 in
  let g := to_u32 (fclamp (g c) f0 f1 * of_int 255)%f32 in
  let b := to_u32 (fclamp (b c) f0 f1 * of_int 255)%f32 in
  Z.lor (Z.lor (Z.shiftl r 16) (Z.shiftl g 8)) b.
End Rgba8888F.

(** ** Resources (resources.rs) *)

Record Texture : Type := mkTexture {
  t_width : Z;
  t_height : Z;
  t_data : list Z;
}.

Definition texture_new {E} (width height : Z) : result E Texture :=
  let? size := u32 (width * height) in Ok (mkTexture width height (replicate (Z.to_nat size) 0)).

Definition texture_from_data (width height : Z) (data : list Z) : Texture := mkTexture width height data.

Definition index_of {A E} (l : list A) (i : Z) : result E A :=
  match l !! Z.to_nat i with Some a => Ok a | None => Panic end.

(** The remainder by a width of zero panics. *)
Definition rem_u32 {E} (x n : Z) : result E Z := if n =? 0 then Panic else Ok (x mod n).

Definition texel_index {E} (t : Texture) (x y : Z) : result E Z :=
  let? row := u32 (y * t_width t) in u32 (row + x).

Definition sample_nearest {E} (t : Texture) (u v : f32) : result E Rgba8888UNORM :=
  let? x := rem_u32 (to_u32 (u * of_int (t_width t))%f32) (t_width t) in
  let? y := rem_u32 (to_u32 (v * of_int (t_height t))%f32) (t_height t) in
  let? index := texel_index t x y in
  let? pixel := index_of (t_data t) index in
  Ok (from_u32_rgba8 pixel).

Definition sample {E} (t : Texture) (x y : Z) : result E Rgba8888UNORM :=
  if (x <? t_width t) && (y <? t_height t) then
    let? index := texel_index t x y in
    let? pixel := index_of (t_data t) index in
    Ok (from_u32_rgba8 pixel)
  else Ok BLACK.

(** Raw bytes. *)
Abbreviation ConstantBuffer := (list Z).
Definition constant_buffer_new (size : Z) : ConstantBuffer := replicate (Z.to_nat size) 0.
Definition constant_buffer_from_data (data : list Z) : ConstantBuffer := data.

Record DepthBuffer : Type := mkDepth {
  d_width : Z;
  d_height : Z;
  d_data : list f32;
}.

Definition depth_new {E} (width height : Z) : result E DepthBuffer :=
  let? size := u32 (width * height) in Ok (mkDepth width height (replicate (Z.to_nat size) F_MAX)).

Definition depth_index {E} (d : DepthBuffer) (x y : Z) : result E Z :=
  let? row := u32 (y * d_width d) in u32 (row + x).

Definition depth_test {E} (d : DepthBuffer) (x y : Z) (val : f32) : result E bool :=
  let? idx := depth_index d x y in
  let? old := index_of (d_data d) idx in
  Ok (flt val old).

Definition test_and_set {E} (x y : Z) (val : f32) : stM DepthBuffer E bool := fun d =>
  match (let? idx := depth_index d x y in let? old := index_of (d_data d) idx in Ok (idx, old)) with
  | Ok (idx, old) =>
      if flt val old then (Ok true, mkDepth (d_width d) (d_height d) (<[Z.to_nat idx := val]> (d_data d))) else (Ok false, d)
  | Err e => (Err e, d)
  | Panic => (Panic, d)
  | OutOfFuel => (OutOfFuel, d)
  end.

Definition depth_clear (d : DepthBuffer) : DepthBuffer :=
  mkDepth (d_width d) (d_height d) (replicate (length (d_data d)) F_MAX).

(** ** The pipeline (pipeline.rs) *)

Record Vertex2D : Type := mkVertex2D { xyuv : f32x4 }.
Definition vertex2d_new (x y u v : f32) : Vertex2D := mkVertex2D (mk4 x y u v).

Record Vertex3D : Type := mkVertex3D {
  pos : f32x4;
  uv : f32x4;
  norm : f32x4;
}.

Definition vertex3d_new (x y z w u v nx ny nz : f32) : Vertex3D :=
  mkVertex3D (mk4 x y z w) (mk4 u v f0 f0) (mk4 nx ny nz f0).

Record VertexLayout : Type := mkLayout { stride : Z; offset : Z }.
Definition layout_2d : VertexLayout := mkLayout 8 0.
Definition layout_3d : VertexLayout := mkLayout 16 0.

Inductive CullMode : Type := CullNone | CullBack | CullFront.
Inductive BlendFactor : Type := FactorOne | FactorZero | SrcAlpha | OneMinusSrcAlpha.
Inductive RenderMode : Type := XY | XYZ.
Inductive DepthFunc : Type := DepthLess | DepthLessEqual | DepthGreater | DepthGreaterEqual.

#[export] Instance RenderMode_eq_dec : EqDecision RenderMode.
Proof. solve_decision. Defined.

Record BlendState : Type := mkBlend {
  blend_enabled : bool;
  src_factor : BlendFactor;
  dst_factor : BlendFactor;
}.

Definition blend_default : BlendState := mkBlend false FactorOne FactorZero.

(** Both pipeline states; the rasterizer state is its cull mode. *)
Record PipelineState (VS PS : Type) : Type := mkPipeline {
  vs : VS;
  ps : PS;
  vertex_layout : VertexLayout;
  cull_mode : CullMode;
  blend_state : BlendState;
  render_mode : RenderMode;
  depth_enabled : bool;
  depth_write : bool;
  depth_func : DepthFunc;
}.
Arguments mkPipeline {VS PS}. Arguments vs {VS PS}. Arguments ps {VS PS}. Arguments cull_mode {VS PS}.
Arguments render_mode {VS PS}.

Record VSIn : Type := mkVSIn {
  vertex_data : list f32;
  vertex_id : Z;
  instance_id : Z;
}.

Record VSOut : Type := mkVSOut {
  position : f32x4;
  attributes : f32x4;
  extra : f32x4;
}.

Definition vsout_with_pos_uv (position : f32x4) (u v : f32) : VSOut := mkVSOut position (mk4 u v f0 f0) (splat f0).

Definition from_xyuv (p : f32x4) : VSOut :=
  mkVSOut (mk4 (lane0 p) (lane1 p) f0 f1) (mk4 (lane2 p) (lane3 p) f0 f0) (splat f0).

Definition vx (v : VSOut) : f32 := lane0 (position v).
Definition vy (v : VSOut) : f32 := lane1 (position v).

Module VSOut3D.
Record t : Type := mk {
  position : f32x4;
  world_position : f32x4;
  attributes : f32x4;
  extra : f32x4;
}.

Definition with_attributes (position attributes extra : f32x4) : t := mk position (splat f0) attributes extra.

Definition with_pos_uv (position : f32x4) (u v : f32) : t := mk position (splat f0) (mk4 u v f0 f0) (splat f0).

Definition from_xyuv (p : f32x4) : t :=
  mk (mk4 (lane0 p) (lane1 p) f0 f1) (splat f0) (mk4 (lane2 p) (lane3 p) f0 f0) (splat f0).

Definition x (v : t) : f32 := lane0 (position v).
Definition y (v : t) : f32 := lane1 (position v).
Definition z (v : t) : f32 := lane2 (position v).
Definition w (v : t) : f32 := lane3 (position v).
End VSOut3D.

(** What a pixel shader sees; the one pixel it may write is its other argument. *)
Record PSIn : Type := mkPSIn {
  p_attributes : f32x4;
  p_extra : f32x4;
  screen_x : Z;
  screen_y : Z;
  p_textures : list Texture;
  p_constants : list ConstantBuffer;
}.

Class PixelShader (PS : Type) : Type := run_ps : PS -> PSIn -> Z -> Z.
Class VertexShader (VS : Type) : Type := run_vs : VS -> VSIn -> VSOut -> list ConstantBuffer -> result Fault VSOut.
Class VertexShader3D (VS : Type) : Type := run_vs3d : VS -> VSIn -> VSOut3D.t -> list ConstantBuffer -> result Fault VSOut3D.t.

(** ** Vectors and matrices (transform.rs) *)

Definition dot3 (a b : f32x4) : f32 := (lane0 a * lane0 b + lane1 a * lane1 b + lane2 a * lane2 b)%f32.

Definition cross (a b : f32x4) : f32x4 :=
  mk4 (lane1 a * lane2 b - lane2 a * lane1 b)%f32 (lane2 a * lane0 b - lane0 a * lane2 b)%f32
    (lane0 a * lane1 b - lane1 a * lane0 b)%f32 f0.

Definition normalize `{MathFns} (a : f32x4) : f32x4 :=
  let len := sqrt (lane0 a * lane0 a + lane1 a * lane1 a + lane2 a * lane2 a)%f32 in
  if fgt len F_EPSILON then (a / splat len)%x4 else a.

Module Matrix4x4.

Record t : Type := mk { col0 : f32x4; col1 : f32x4; col2 : f32x4; col3 : f32x4 }.

Definition identity : t := mk (mk4 f1 f0 f0 f0) (mk4 f0 f1 f0 f0) (mk4 f0 f0 f1 f0) (mk4 f0 f0 f0 f1).

Definition mul_vec (m : t) (v : f32x4) : f32x4 :=
  (splat (lane0 v) * col0 m + splat (lane1 v) * col1 m + splat (lane2 v) * col2 m + splat (lane3 v) * col3 m)%x4.

(** Column by column. *)
Definition mul (m other : t) : t :=
  let column (col : f32x4) :=
    let x := (splat (lane0 col) * col0 m)%x4 in
    let y := (splat (lane1 col) * col1 m)%x4 in
    let z := (splat (lane2 col) * col2 m)%x4 in
    let w := (splat (lane3 col) * col3 m)%x4 in
    (x + y + z + w)%x4 in
  mk (column (col0 other)) (column (col1 other)) (column (col2 other)) (column (col3 other)).

Definition translation (x y z : f32) : t := mk (mk4 f1 f0 f0 f0) (mk4 f0 f1 f0 f0) (mk4 f0 f0 f1 f0) (mk4 x y z f1).
Definition scale_matrix (x y z : f32) : t := mk (mk4 x f0 f0 f0) (mk4 f0 y f0 f0) (mk4 f0 f0 z f0) (mk4 f0 f0 f0 f1).

Section math.
Context `{MathFns}.

Definition look_at (eye target up : f32x4) : t :=
  let f := normalize (target - eye)%x4 in
  let s := normalize (cross f up) in
  let u := cross s f in
  mk (mk4 (lane0 s) (lane0 u) (- lane0 f)%f32 f0) (mk4 (lane1 s) (lane1 u) (- lane1 f)%f32 f0)
    (mk4 (lane2 s) (lane2 u) (- lane2 f)%f32 f0) (mk4 (- dot3 s eye)%f32 (- dot3 u eye)%f32 (dot3 f eye) f1).

Definition rotation_x (angle : f32) : t :=
  mk (mk4 f1 f0 f0 f0) (mk4 f0 (cos angle) (sin angle) f0) (mk4 f0 (- sin angle)%f32 (cos angle) f0) (mk4 f0 f0 f0 f1).
Definition rotation_y (angle : f32) : t :=
  mk (mk4 (cos angle) f0 (- sin angle)%f32 f0) (mk4 f0 f1 f0 f0) (mk4 (sin angle) f0 (cos angle) f0) (mk4 f0 f0 f0 f1).
Definition rotation_z (angle : f32) : t :=
  mk (mk4 (cos angle) (sin angle) f0 f0) (mk4 (- sin angle)%f32 (cos angle) f0 f0) (mk4 f0 f0 f1 f0) (mk4 f0 f0 f0 f1).

Definition from_trs (translation_ rotation_euler scale : f32x4) : t :=
  let rot_x := rotation_x (lane0 rotation_euler) in
  let rot_y := rotation_y (lane1 rotation_euler) in
  let rot_z := rotation_z (lane2 rotation_euler) in
  let rotation := mul (mul rot_z rot_y) rot_x in
  let scale_mat := scale_matrix (lane0 scale) (lane1 scale) (lane2 scale) in
  let translation_mat := translation (lane0 translation_) (lane1 translation_) (lane2 translation_) in
  mul (mul translation_mat rotation) scale_mat.

Definition translate (x y z : f32) (m : t) : t := mul (translation x y z) m.
Definition scale (x y z : f32) (m : t) : t := mul (scale_matrix x y z) m.
Definition rotate_x (angle : f32) (m : t) : t := mul (rotation_x angle) m.
Definition rotate_y (angle : f32) (m : t) : t := mul (rotation_y angle) m.
Definition rotate_z (angle : f32) (m : t) : t := mul (rotation_z angle) m.

Definition create_perspective_matrix (fov aspect near far : f32) : t :=
  let f := (f1 / tan (fov * half))%f32 in
  mk (mk4 (f / aspect)%f32 f0 f0 f0) (mk4 f0 f f0 f0)
    (mk4 f0 f0 ((far + near) / (near - far))%f32 (- f1)%f32)
    (mk4 f0 f0 ((of_int 2 * far * near) / (near - far))%f32 f0).

End math.
End Matrix4x4.

(** ** Shaders (shaders.rs) *)

Record FlatColorPS : Type := mkFlat { color : Rgba8888UNORM }.
#[export] Instance flat_color_ps : PixelShader FlatColorPS := fun self _ _ => rgba_to_xrgb (color self).

Inductive UVDebugPS : Type := uv_debug.
#[export] Instance uv_debug_ps : PixelShader UVDebugPS := fun _ input _ =>
  rgba_to_xrgb (from_rgbf32 (lane0 (p_attributes input)) (lane1 (p_attributes input)) f0).

(** The texture is looked up, and not sampled. *)
Record TextureSamplePS : Type := mkTextureSample { texture_slot : Z }.
#[export] Instance texture_sample_ps : PixelShader TextureSamplePS := fun self input old =>
  match p_textures input !! Z.to_nat (texture_slot self) with
  | Some _ => rgba_to_xrgb (from_rgbf32 (lane0 (p_attributes input)) (lane1 (p_attributes input)) f0)
  | None => old
  end.

Record BlinnPhongPS : Type := mkBlinnPhongPS {
  light_dir_intensity : f32x4;
  albedo : Rgba8888F.t;
  specular_color : Rgba8888F.t;
  shininess : f32;
  ambient_color : Rgba8888F.t;
  camera_pos : f32x4;
}.

#[export] Instance blinn_phong_ps `{MathFns} : PixelShader BlinnPhongPS := fun self input _ =>
  let a := p_attributes input in
  let e := p_extra input in
  let normal := normalize (mk4 (lane2 a) (lane3 a) (lane0 e) f0) in
  let world_pos := mk4 (lane1 e) (lane2 e) (lane3 e) f0 in
  let view_dir := normalize (camera_pos self - world_pos)%x4 in
  let light_dir := (- normalize (light_dir_intensity self))%x4 in
  let light_intensity := lane3 (light_dir_intensity self) in
  let h := normalize (light_dir + view_dir)%x4 in
  let nol := fmax (dot3 normal light_dir) f0 in
  let diffuse := (nol * light_intensity)%f32 in
  let noh := fmax (dot3 normal h) f0 in
  let specular := if fgt nol f0 then (powf noh (shininess self) * light_intensity)%f32 else f0 in
  let channel (c : Rgba8888F.t -> f32) :=
    (c (ambient_color self) + c (albedo self) * diffuse + c (specular_color self) * specular)%f32 in
  Rgba8888F.to_u32_xrgb (Rgba8888F.from_rgbf32 (channel Rgba8888F.r) (channel Rgba8888F.g) (channel Rgba8888F.b)).

(** The vertex behind a pointer to its bytes. *)
Definition vertex_at (data : list f32) : result Fault Vertex3D :=
  match data with
  | x :: y :: z :: w :: u :: v :: u' :: v' :: nx :: ny :: nz :: nw :: _ =>
      Ok (mkVertex3D (mk4 x y z w) (mk4 u v u' v') (mk4 nx ny nz nw))
  | _ => Err BadAccess
  end.

Inductive PassThroughVS : Type := pass_through.
#[export] Instance pass_through_vs : VertexShader PassThroughVS := fun _ input output _ =>
  match vertex_data input with
  | x :: y :: _ => Ok (mkVSOut (mk4 x y f0 f1) (attributes output) (extra output))
  | _ => Panic
  end.

Record Basic3DVS : Type := mkBasic3D { model_view_proj : Matrix4x4.t }.
#[export] Instance basic_3d_vs : VertexShader3D Basic3DVS := fun self input output _ =>
  let? vertex := vertex_at (vertex_data input) in
  Ok (VSOut3D.mk (Matrix4x4.mul_vec (model_view_proj self) (pos vertex)) (VSOut3D.world_position output) (uv vertex) (norm vertex)).

Record BlinnPhongVS : Type := mkBlinnPhongVS { view_proj : Matrix4x4.t; model_world : Matrix4x4.t }.
#[export] Instance blinn_phong_vs : VertexShader3D BlinnPhongVS := fun self input output _ =>
  let? vertex := vertex_at (vertex_data input) in
  Ok (VSOut3D.mk (Matrix4x4.mul_vec (view_proj self) (pos vertex)) (Matrix4x4.mul_vec (model_world self) (pos vertex))
    (uv vertex) (Matrix4x4.mul_vec (model_world self) (norm vertex))).
