(* ===== verification/Raster.v ===== *)
(** * Raster: triangles in software, kernel/src/graphics/renderer.rs

    The render context, the two rasterizers with their 2x2 quads of pixels in four lanes, and
    the draw calls above them.  The render target is a slice of pixels that the rasterizers
    write through raw pointers: an index outside of it is [BadAccess]. *)

From Stdlib Require Import ZArith Lia SpecFloat.
From stdpp Require Import base tactics list option numbers.
From S2P Require Import Prelude F32 Surface Shading.

Open Scope rust_scope.

Definition MIN_TRIANGLE_AREA : f32 := of_ratio 1 10000.
Definition IS_2D_Y_FLIPPED : bool := true.

(** [for x in l] *)
Fixpoint for_in {A S E} (f : A -> stM S E unit) (l : list A) : stM S E unit :=
  match l with
  | [] => sret tt
  | a :: l => f a ;;; for_in f l
  end.

(** [(first..=last).step_by(2)] *)
Definition every_other (first last : Z) : list Z :=
  (fun k => first + 2 * Z.of_nat k) <$> seq 0 (Z.to_nat ((last - first) / 2 + 1)).

(** ** The context *)

Record RenderContext : Type := mkContext {
  vertex_outputs : list VSOut;
  textures : list Texture;
  constant_buffers : list ConstantBuffer;
}.

Definition context_new : RenderContext := mkContext [] [] [].

Definition bind_texture (texture : Texture) (c : RenderContext) : Z * RenderContext :=
  (zlen (textures c), mkContext (vertex_outputs c) (textures c ++ [texture]) (constant_buffers c)).

Definition bind_cbuffer (b : ConstantBuffer) (c : RenderContext) : Z * RenderContext :=
  (zlen (constant_buffers c), mkContext (vertex_outputs c) (textures c) (constant_buffers c ++ [b])).

Definition bind_rwbuffer (b : list Z) (c : RenderContext) : Z * RenderContext := (0, c).

Definition apply_matrix_to_vertices (vertices : list f32x4) : list f32x4 := vertices.

Definition transform_vertices (vertices : list Vertex2D) : list VSOut :=
  map from_xyuv (apply_matrix_to_vertices (map xyuv vertices)).

(** ** Edges *)

Definition edge_function_scalar (ax ay bx by_ px py : f32) : f32 :=
  ((px - ax) * (by_ - ay) - (py - ay) * (bx - ax))%f32.

Definition edge_function (dx dy px py constant : f32x4) : f32x4 := (dy * px - dx * py + constant)%x4.
Definition edge_function_flip (dx dy px py constant : f32x4) : f32x4 := (dx * py - dy * px - constant)%x4.

(** Lane by lane: the weights are of four pixels, the attributes of one vertex. *)
Definition interpolate_attributes_barycentric (attr0 attr1 attr2 w0 w1 w2 : f32x4) : f32x4 :=
  ((w0 * attr0) + (w1 * attr1) + (w2 * attr2))%x4.

Definition interpolate_perspective_correct (attr0 attr1 attr2 w0 w1 w2 : f32x4) (inv_w0 inv_w1 inv_w2 : f32) : f32x4 * f32x4 :=
  let w0_rcp := splat inv_w0 in
  let w1_rcp := splat inv_w1 in
  let w2_rcp := splat inv_w2 in
  let attr_num := ((w0 * attr0 * w0_rcp) + (w1 * attr1 * w1_rcp) + (w2 * attr2 * w2_rcp))%x4 in
  let denom := ((w0 * w0_rcp) + (w1 * w1_rcp) + (w2 * w2_rcp))%x4 in
  let depth_z := (splat f1 / denom)%x4 in
  ((attr_num * depth_z)%x4, depth_z).

(** The three edges of a triangle, each as its differences and its constant. *)
Record Edges : Type := mkEdges {
  e0_dx : f32x4; e0_dy : f32x4; e0_const : f32x4;
  e1_dx : f32x4; e1_dy : f32x4; e1_const : f32x4;
  e2_dx : f32x4; e2_dy : f32x4; e2_const : f32x4;
}.

Definition edges_of (x0 y0 x1 y1 x2 y2 : f32x4) : Edges :=
  let e0_dx := (x1 - x0)%x4 in
  let e0_dy := (y1 - y0)%x4 in
  let e1_dx := (x2 - x1)%x4 in
  let e1_dy := (y2 - y1)%x4 in
  let e2_dx := (x0 - x2)%x4 in
  let e2_dy := (y0 - y2)%x4 in
  mkEdges e0_dx e0_dy (e0_dx * y0 - e0_dy * x0)%x4 e1_dx e1_dy (e1_dx * y1 - e1_dy * x1)%x4
    e2_dx e2_dy (e2_dx * y2 - e2_dy * x2)%x4.

(** The bounding box of a triangle in the target: left, right, top, bottom. *)
Record Bounds : Type := mkBounds { min_x : Z; max_x : Z; min_y : Z; max_y : Z }.

Definition bounds_of (x0 y0 x1 y1 x2 y2 : f32) (rt_width rt_height : Z) : Bounds :=
  mkBounds (to_u32 (fmax (fmin (fmin x0 x1) x2) f0)) (to_u32 (fmin (fmax (fmax x0 x1) x2) (of_int rt_width - f1)%f32))
    (to_u32 (fmax (fmin (fmin y0 y1) y2) f0)) (to_u32 (fmin (fmax (fmax y0 y1) y2) (of_int rt_height - f1)%f32)).

(** [x & !1] *)
Definition even_floor (x : Z) : Z := Z.ldiff x 1.

(** ** Quads of pixels *)

Definition quad_px (x : Z) : f32x4 :=
  let left := (of_int x + half)%f32 in let right := (of_int (x + 1) + half)%f32 in mk4 left right left right.
Definition quad_py (y : Z) : f32x4 :=
  let top := (of_int y + half)%f32 in let bottom := (of_int (y + 1) + half)%f32 in mk4 top top bottom bottom.

Definition quad_lanes : list nat := [0; 1; 2; 3]%nat.

(** The bits of the mask of lanes inside. *)
Definition inside (w0 w1 w2 : f32x4) (i : nat) : bool :=
  let epsilon := splat f0 in vge w0 epsilon i && vge w1 epsilon i && vge w2 epsilon i.

Definition mask_is_zero (mask : nat -> bool) : bool := forallb (fun i => negb (mask i)) quad_lanes.

Definition lane_x (x : Z) (i : nat) : Z := x + Z.of_nat (Nat.modulo i 2).
Definition lane_y (y : Z) (i : nat) : Z := y + Z.of_nat (Nat.div i 2).

Section render.
Context {VS PS : Type} `{PixelShader PS}.
Variable self : RenderContext.

(** [pipeline.ps.run] on the pixel at [idx] of the target. *)
Definition run_pixel (shader : PS) (attributes extra : f32x4) (sx sy idx : Z) : stM Words Fault unit :=
  let! old := (fun rt => (load_word rt idx, rt)) in
  store_word idx (run_ps shader (mkPSIn attributes extra (wrap 16 sx) (wrap 16 sy) (textures self) (constant_buffers self)) old).

Definition pixel_index {E} (rt_width x y : Z) : result E Z :=
  let? row := u32 (y * rt_width) in u32 (row + x).

(** *** In two dimensions *)

Definition quad_2d (v0 v1 v2 : VSOut) (e : Edges) (inv_area : f32x4) (b : Bounds) (rt_width : Z) (shader : PS) (x y : Z)
    : stM Words Fault unit :=
  let px := quad_px x in
  let py := quad_py y in
  let edge := if IS_2D_Y_FLIPPED then edge_function else edge_function_flip in
  let w0 := (edge (e1_dx e) (e1_dy e) px py (e1_const e) * inv_area)%x4 in
  let w1 := (edge (e2_dx e) (e2_dy e) px py (e2_const e) * inv_area)%x4 in
  let w2 := (edge (e0_dx e) (e0_dy e) px py (e0_const e) * inv_area)%x4 in
  let mask := inside w0 w1 w2 in
  if mask_is_zero mask then sret tt else
  let interp := interpolate_attributes_barycentric (attributes v0) (attributes v1) (attributes v2) w0 w1 w2 in
  let interp := if IS_2D_Y_FLIPPED then mk4 (lane0 interp) (f1 - lane1 interp)%f32 (lane2 interp) (lane3 interp) else interp in
  for_in (fun i =>
    if mask i then
      let sx := lane_x x i in
      let sy := lane_y y i in
      if (sx <=? max_x b) && (sy <=? max_y b) then
        let! idx := slift (pixel_index rt_width sx sy) in
        run_pixel shader interp (splat f0) sx sy idx
      else sret tt
    else sret tt) quad_lanes.

Definition rasterize_triangle_simd (v0 v1 v2 : VSOut) (rt_width rt_height : Z) (pipeline : PipelineState VS PS) : stM Words Fault unit :=
  let x0 := splat (vx v0) in
  let y0 := splat (vy v0) in
  let x1 := splat (vx v1) in
  let y1 := splat (vy v1) in
  let x2 := splat (vx v2) in
  let y2 := splat (vy v2) in
  let e := edges_of x0 y0 x1 y1 x2 y2 in
  let area := if IS_2D_Y_FLIPPED then edge_function_scalar (lane0 x0) (lane0 y0) (lane0 x1) (lane0 y1) (lane0 x2) (lane0 y2)
    else ((vx v1 - vx v0) * (vy v2 - vy v0) - (vy v1 - vy v0) * (vx v2 - vx v0))%f32 in
  if flt (fabs area) MIN_TRIANGLE_AREA then sret tt else
  let inv_area := splat (f1 / area)%f32 in
  let b := bounds_of (vx v0) (vy v0) (vx v1) (vy v1) (vx v2) (vy v2) rt_width rt_height in
  for_in (fun y => for_in (fun x => quad_2d v0 v1 v2 e inv_area b rt_width (ps pipeline) x y)
    (every_other (even_floor (min_x b)) (max_x b))) (every_other (even_floor (min_y b)) (max_y b)).

Definition draw_single_triangle_vertex_list (a b c : Vertex2D) (rt_width rt_height : Z) (pipeline : PipelineState VS PS) : stM Words Fault unit :=
  rasterize_triangle_simd (from_xyuv (xyuv a)) (from_xyuv (xyuv b)) (from_xyuv (xyuv c)) rt_width rt_height pipeline.

Definition draw_triangle_2d (x0 y0 u0 v0 x1 y1 u1 v1 x2 y2 u2 v2 : f32) (rt_width rt_height : Z) (pipeline : PipelineState VS PS)
    : stM Words Fault unit :=
  draw_single_triangle_vertex_list (vertex2d_new x0 y0 u0 v0) (vertex2d_new x1 y1 u1 v1) (vertex2d_new x2 y2 u2 v2) rt_width rt_height pipeline.

(** Vertices that do not fill a triangle are left over. *)
Fixpoint draw_triangle_list (vertices : list Vertex2D) (rt_width rt_height : Z) (pipeline : PipelineState VS PS) : stM Words Fault unit :=
  match vertices with
  | a :: b :: c :: rest =>
      draw_single_triangle_vertex_list a b c rt_width rt_height pipeline ;;;
      draw_triangle_list rest rt_width rt_height pipeline
  | _ => sret tt
  end.

Definition draw_triangle_pair_vertex_list (a b c d e f : Vertex2D) (rt_width rt_height : Z) (pipeline : PipelineState VS PS) : stM Words Fault unit :=
  draw_single_triangle_vertex_list a b c rt_width rt_height pipeline ;;;
  draw_single_triangle_vertex_list d e f rt_width rt_height pipeline.

Definition draw_rect_2d (x y width height : f32) (rt_width rt_height : Z) (pipeline : PipelineState VS PS) : stM Words Fault unit :=
  let '(top, bottom) := if IS_2D_Y_FLIPPED then ((y + height)%f32, y) else (y, (y + height)%f32) in
  let right := (x + width)%f32 in
  draw_triangle_pair_vertex_list
    (vertex2d_new x top f0 f0) (vertex2d_new right bottom f1 f1) (vertex2d_new right top f1 f0)
    (vertex2d_new x top f0 f0) (vertex2d_new x bottom f0 f1) (vertex2d_new right bottom f1 f1) rt_width rt_height pipeline.

(** *** In three dimensions *)

Definition clip_to_screen (v : VSOut3D.t) (rt_width rt_height : Z) : f32 * f32 * f32 :=
  let w := VSOut3D.w v in
  let inv_w := if fgt (fabs w) F_EPSILON then (f1 / w)%f32 else f1 in
  let ndc_x := (VSOut3D.x v * inv_w)%f32 in
  let ndc_y := (VSOut3D.y v * inv_w)%f32 in
  let ndc_z := (VSOut3D.z v * inv_w)%f32 in
  (((ndc_x + f1) * half * of_int rt_width)%f32, ((f1 - ndc_y) * half * of_int rt_height)%f32, ndc_z).

(** The pixels and the depths that a draw call works on. *)
Record Target3D : Type := mkTarget3D { pixels : Words; depths : DepthBuffer }.

Definition on_depth {A} (c : stM DepthBuffer Fault A) : stM Target3D Fault A := fun t =>
  let '(r, d) := c (depths t) in (r, mkTarget3D (pixels t) d).
Definition on_pixels {A} (c : stM Words Fault A) : stM Target3D Fault A := fun t =>
  let '(r, p) := c (pixels t) in (r, mkTarget3D p (depths t)).

Definition quad_3d (z0 z1 z2 w0_clip w1_clip w2_clip : f32) (e : Edges) (inv_area : f32x4) (bo : Bounds) (rt_width : Z) (shader : PS) (x y : Z)
    : stM Target3D Fault unit :=
  let px := quad_px x in
  let py := quad_py y in
  let alpha := (edge_function (e1_dx e) (e1_dy e) px py (e1_const e) * inv_area)%x4 in
  let beta := (edge_function (e2_dx e) (e2_dy e) px py (e2_const e) * inv_area)%x4 in
  let gamma := (edge_function (e0_dx e) (e0_dy e) px py (e0_const e) * inv_area)%x4 in
  let mask := inside alpha beta gamma in
  if mask_is_zero mask then sret tt else
  let a := (alpha * splat (f1 / w0_clip)%f32)%x4 in
  let b := (beta * splat (f1 / w1_clip)%f32)%x4 in
  let g := (gamma * splat (f1 / w2_clip)%f32)%x4 in
  let inv_denom := (splat f1 / (a + b + g))%x4 in
  let z_interp := ((splat z0 * a + splat z1 * b + splat z2 * g) * inv_denom)%x4 in
  for_in (fun i =>
    if mask i then
      let sx := lane_x x i in
      let sy := lane_y y i in
      if (sx <=? max_x bo) && (sy <=? max_y bo) then
        let! nearer := on_depth (test_and_set sx sy (lane z_interp i)) in
        if (nearer : bool) then
          let! idx := slift (pixel_index rt_width sx sy) in
          on_pixels (run_pixel shader (splat f0) (splat f0) sx sy idx)
        else sret tt
      else sret tt
    else sret tt) quad_lanes.

Definition culled (mode : CullMode) (edge : f32) : bool :=
  match mode with
  | CullBack => flt edge f0
  | CullFront => fge edge f0
  | CullNone => false
  end.

Definition rasterize_triangle_3d (v0 v1 v2 : VSOut3D.t) (rt_width rt_height : Z) (pipeline : PipelineState VS PS) : stM Target3D Fault unit :=
  let '(sx0, sy0, z0) := clip_to_screen v0 rt_width rt_height in
  let '(sx1, sy1, z1) := clip_to_screen v1 rt_width rt_height in
  let '(sx2, sy2, z2) := clip_to_screen v2 rt_width rt_height in
  let edge := edge_function_scalar sx0 sy0 sx1 sy1 sx2 sy2 in
  if culled (cull_mode pipeline) edge then sret tt else
  let e := edges_of (splat sx0) (splat sy0) (splat sx1) (splat sy1) (splat sx2) (splat sy2) in
  let area := edge_function_scalar sx0 sy0 sx1 sy1 sx2 sy2 in
  if flt (fabs area) MIN_TRIANGLE_AREA then sret tt else
  let inv_area := splat (f1 / area)%f32 in
  let b := bounds_of sx0 sy0 sx1 sy1 sx2 sy2 rt_width rt_height in
  if (max_x b <? min_x b) || (max_y b <? min_y b) then sret tt else
  for_in (fun y => for_in (fun x => quad_3d z0 z1 z2 (VSOut3D.w v0) (VSOut3D.w v1) (VSOut3D.w v2) e inv_area b rt_width (ps pipeline) x y)
    (every_other (even_floor (min_x b)) (max_x b))) (every_other (even_floor (min_y b)) (max_y b)).

Definition should_cull_triangle (v0 v1 v2 : VSOut3D.t) : bool :=
  fle (VSOut3D.w v0) f0 && fle (VSOut3D.w v1) f0 && fle (VSOut3D.w v2) f0.

Context `{VertexShader3D VS}.

Definition vertex_floats (v : Vertex3D) : list f32 :=
  flat_map (fun l => [lane0 l; lane1 l; lane2 l; lane3 l]) [pos v; uv v; norm v].

Definition process_vertex_3d (vertex : Vertex3D) (pipeline : PipelineState VS PS) : result Fault VSOut3D.t :=
  let input := mkVSIn (vertex_floats vertex) 0 0 in
  let output := VSOut3D.with_attributes (splat f0) (splat f0) (splat f0) in
  run_vs3d (vs pipeline) input output (constant_buffers self).

Definition draw_one_3d (vertices : list Vertex3D) (i0 i1 i2 rt_width rt_height : Z) (pipeline : PipelineState VS PS) : stM Target3D Fault unit :=
  let! v0 := slift (index_of vertices i0) in
  let! v1 := slift (index_of vertices i1) in
  let! v2 := slift (index_of vertices i2) in
  let! vs0 := slift (process_vertex_3d v0 pipeline) in
  let! vs1 := slift (process_vertex_3d v1 pipeline) in
  let! vs2 := slift (process_vertex_3d v2 pipeline) in
  if should_cull_triangle vs0 vs1 vs2 then sret tt else
  rasterize_triangle_3d vs0 vs1 vs2 rt_width rt_height pipeline.

(** Indices that do not fill a triangle are left over. *)
Fixpoint draw_chunks_3d (vertices : list Vertex3D) (indices : list Z) (rt_width rt_height : Z) (pipeline : PipelineState VS PS)
    : stM Target3D Fault unit :=
  match indices with
  | i0 :: i1 :: i2 :: rest =>
      draw_one_3d vertices i0 i1 i2 rt_width rt_height pipeline ;;;
      draw_chunks_3d vertices rest rt_width rt_height pipeline
  | _ => sret tt
  end.

Definition draw_indexed_3d (vertices : list Vertex3D) (indices : list Z) (rt_width rt_height : Z) (pipeline : PipelineState VS PS)
    : stM Target3D Fault unit :=
  sassert (bool_decide (render_mode pipeline = XYZ)) ;;;
  draw_chunks_3d vertices indices rt_width rt_height pipeline.

End render.

(** ** Clearing *)

(** Four pixels at a time, then the rest one by one, whose index is checked. *)
Fixpoint clear_quads (fuel : nat) (color_u32 i : Z) : stM Words Fault Z := fun rt =>
  match fuel with
  | O => (OutOfFuel, rt)
  | S fuel =>
      if i + 4 <=? zlen rt then
        (for_in (fun k => store_word (i + k) color_u32) [0; 1; 2; 3] ;;; clear_quads fuel color_u32 (i + 4)) rt
      else (Ok i, rt)
  end.

Definition clear_target (c : Rgba8888UNORM) : stM Words Fault unit := fun rt =>
  let color_u32 := rgba_to_xrgb c in
  (let! i := clear_quads (S (length rt)) color_u32 0 in
   for_in (fun j => let! _ := slift (index_of rt j) in store_word j color_u32) (seqZ i (zlen rt - i))) rt.

(** ** Targets

    A frame is drawn into the back buffer of a window. *)

Record RenderTarget : Type := mkTarget {
  rt_width : Z;
  rt_height : Z;
  rt_buffer : WindowBuffer;
}.

Definition target_new (buffer : WindowBuffer) : RenderTarget := mkTarget (wb_width buffer) (wb_height buffer) buffer.
Definition begin_frame (backbuffer : WindowBuffer) : RenderTarget := target_new backbuffer.

(** [get_buffer_mut], and what is done with the slice; a slice beyond the buffer is a bad access. *)
Definition with_slice {A} (draw : stM Words Fault A) : stM RenderTarget Fault A := fun t =>
  let w := rt_buffer t in
  match pixel_count (E:=Fault) w with
  | Ok n =>
      if n <=? zlen (back_buffer w) then
        let '(res, px) := draw (take (Z.to_nat n) (back_buffer w)) in
        (res, mkTarget (rt_width t) (rt_height t)
          (mkWindowBuffer (wb_width w) (wb_height w) (wb_x w) (wb_y w) (px ++ drop (Z.to_nat n) (back_buffer w)) (front_buffer w)
            (needs_swap w) (swap_count w)))
      else (Err BadAccess, t)
  | _ => (Panic, t)
  end.

(** [RenderTarget::clear] *)
Definition target_clear (color : Rgba8888UNORM) : stM RenderTarget Fault unit := fun t =>
  let '(res, w) := clear color (rt_buffer t) in (res, mkTarget (rt_width t) (rt_height t) w).

(** [RenderContext::clear] *)
Definition context_clear (color : Rgba8888UNORM) : stM RenderTarget Fault unit := with_slice (clear_target color).
