(* ===== verification/RasterSpec.v ===== *)
(** * What the rasterizers draw

    A triangle is drawn pixel by pixel: the quads and lanes of the loops come to one test for
    every pixel of the bounding box, and nothing outside of the target is touched.  With a
    depth buffer the nearest fragment of a draw call stays. *)

From Stdlib Require Import ZArith Lia SpecFloat.
From stdpp Require Import base tactics sets list option numbers.
From S2P Require Import Prelude Surface F32 Shading Raster.

Open Scope rust_scope.

(** ** Loops *)

Section loops.
Context {S E : Type}.

Lemma for_in_app {A} (f : A -> stM S E unit) l1 l2 s : for_in f (l1 ++ l2) s = sbind (for_in f l1) (fun _ => for_in f l2) s.
Proof.
  revert s. induction l1 as [|a l1 IH]; intros s; [done|]. cbn [app for_in]. unfold sbind in *.
  destruct (f a s) as [[u|e| |] s']; [apply IH|done..].
Qed.

Lemma for_in_ext {A} (f g : A -> stM S E unit) l : (forall a s, a ∈ l -> f a s = g a s) -> forall s, for_in f l s = for_in g l s.
Proof.
  induction l as [|a l IH]; intros Hfg s; [done|]. cbn [for_in]. unfold sbind. rewrite Hfg by set_solver.
  destruct (g a s) as [[u|e| |] s']; [|done..]. apply IH. set_solver.
Qed.

Lemma for_in_bind {A B} (f : B -> stM S E unit) (k : A -> list B) l : forall s,
  for_in (fun a => for_in f (k a)) l s = for_in f (l ≫= k) s.
Proof.
  induction l as [|a l IH]; intros s; [done|]. cbn [for_in]. rewrite bind_cons. rewrite for_in_app. unfold sbind.
  destruct (for_in f (k a) s) as [[u|e| |] s']; [apply IH|done..].
Qed.

(** Conditions in the body, and in the list. *)
Lemma for_in_filter {A} (f : A -> stM S E unit) (c : A -> bool) l : forall s,
  for_in (fun a => if c a then f a else sret tt) l s = for_in f (filter (fun a => c a = true) l) s.
Proof.
  induction l as [|a l IH]; intros s; [done|]. cbn [for_in]. rewrite filter_cons. unfold sbind at 1. destruct (c a).
  - rewrite decide_True by done. cbn [for_in]. unfold sbind. destruct (f a s) as [[u|e| |] s']; [apply IH|done..].
  - rewrite decide_False by done. apply IH.
Qed.

Lemma for_in_skip {A} (f : A -> stM S E unit) l : (forall a s, a ∈ l -> f a s = (Ok tt, s)) -> forall s, for_in f l s = (Ok tt, s).
Proof.
  induction l as [|a l IH]; intros Hf s; [done|]. cbn [for_in]. unfold sbind. rewrite Hf by set_solver. apply IH. set_solver.
Qed.

Lemma for_in_map {A B} (f : B -> stM S E unit) (g : A -> B) l s : for_in f (g <$> l) s = for_in (fun a => f (g a)) l s.
Proof.
  revert s. induction l as [|a l IH]; intros s; [done|]. cbn [fmap list_fmap for_in]. unfold sbind.
  destruct (f (g a) s) as [[u|e| |] s']; [apply IH|done..].
Qed.

End loops.

(** Steps that each change one cell of their own. *)
Section cells.
Context {S C P E : Type} (cells : S -> list C) (good : S -> Prop) (okp : P -> Prop).
Context (paint : P -> stM S E unit) (idx : P -> nat) (f : P -> C -> C).
Hypothesis paint_ok : forall p s, good s -> okp p ->
  exists s', paint p s = (Ok tt, s') /\ good s' /\ cells s' = alter (f p) (idx p) (cells s).

Lemma paint_all l : forall s, good s -> Forall okp l -> NoDup (idx <$> l) ->
  exists s', for_in paint l s = (Ok tt, s') /\ good s' /\
    (forall p, p ∈ l -> cells s' !! idx p = f p <$> cells s !! idx p) /\
    (forall i, i ∉ idx <$> l -> cells s' !! i = cells s !! i).
Proof.
  induction l as [|p l IH]; intros s Hs Hin Hnd; [exists s; split_and!; try done; set_solver|].
  inversion_clear Hin as [|? ? Hp Hin']. rename Hin' into Hin.
  rewrite fmap_cons in Hnd. inversion_clear Hnd as [|? ? Hpn Hnd']. rename Hnd' into Hnd.
  destruct (paint_ok p s Hs Hp) as (s1 & E1 & Hs1 & Ec). destruct (IH s1 Hs1 Hin Hnd) as (s2 & E2 & Hs2 & Hin2 & Hout2).
  exists s2. split; [cbn [for_in]; by rewrite (sbind_ok _ _ _ _ _ E1)|]. split; [done|]. split.
  - intros q [->|Hq]%elem_of_cons.
    + rewrite Hout2 by done. rewrite Ec. by rewrite list_lookup_alter_eq.
    + rewrite Hin2 by done. rewrite Ec, list_lookup_alter_ne; [done|]. intros Eq. apply Hpn. rewrite Eq. by apply list_elem_of_fmap_2.
  - intros i Hi. rewrite fmap_cons in Hi. apply not_elem_of_cons in Hi as [Hne Hi]. rewrite Hout2 by done. by rewrite Ec, list_lookup_alter_ne.
Qed.
End cells.

(** ** Pixels of a bounding box *)

Lemma even_floor_ok x : even_floor x = x - x mod 2.
Proof.
  unfold even_floor. change (Z.ldiff x 1) with (Z.ldiff x (Z.ones 1)). rewrite Z.ldiff_ones_r by lia.
  rewrite Z.shiftr_div_pow2, Z.shiftl_mul_pow2 by lia. change (2 ^ 1) with 2. pose proof (Z.div_mod x 2). lia.
Qed.

Lemma elem_of_every_other a b x : a mod 2 = 0 -> x ∈ every_other a b <-> x mod 2 = 0 /\ a <= x <= b.
Proof.
  intros Ha. unfold every_other. rewrite list_elem_of_fmap. split.
  - intros (k & -> & Hk%elem_of_seq). pose proof (Z.div_mod a 2). pose proof (Z.div_mod (b - a) 2).
    pose proof (Z.mod_pos_bound (b - a) 2 ltac:(lia)). split; [|lia].
    rewrite (Z.mul_comm 2), Z.mod_add by lia. done.
  - intros (Hx & Hlo & Hhi). exists (Z.to_nat ((x - a) / 2)). pose proof (Z.div_mod a 2). pose proof (Z.div_mod x 2).
    pose proof (Z.div_mod (x - a) 2) as Hd. assert (Hm : (x - a) mod 2 = 0) by (rewrite Zminus_mod, Hx, Ha; done).
    pose proof (Z.div_le_mono (x - a) (b - a) 2). pose proof (Z.div_pos (x - a) 2). split; [lia|]. apply elem_of_seq. lia.
Qed.

Lemma NoDup_every_other a b : NoDup (every_other a b).
Proof. apply NoDup_fmap_2_strong; [|apply NoDup_seq]. intros x y _ _ Hxy. lia. Qed.

Definition quad_pixels (b : Bounds) (x y : Z) : list (Z * Z) :=
  filter (fun p => (p.1 <=? max_x b) && (p.2 <=? max_y b) = true) ((fun i => (lane_x x i, lane_y y i)) <$> quad_lanes).

Definition box_pixels (b : Bounds) : list (Z * Z) :=
  every_other (even_floor (min_y b)) (max_y b) ≫= fun y =>
  every_other (even_floor (min_x b)) (max_x b) ≫= fun x => quad_pixels b x y.

Definition in_box (b : Bounds) (x y : Z) : bool :=
  (even_floor (min_x b) <=? x) && (x <=? max_x b) && (even_floor (min_y b) <=? y) && (y <=? max_y b).

Lemma quad_pixels_in b x y p : x mod 2 = 0 -> y mod 2 = 0 -> p ∈ quad_pixels b x y <->
  even_floor p.1 = x /\ even_floor p.2 = y /\ p.1 <= max_x b /\ p.2 <= max_y b.
Proof.
  intros Hx Hy. unfold quad_pixels. rewrite list_elem_of_filter, andb_true_iff, !Z.leb_le, !even_floor_ok.
  destruct p as [px py]. cbn [fst snd]. split.
  - intros [Hb Hin]. apply list_elem_of_fmap in Hin as (i & [= -> ->] & Hi). pose proof (Z.div_mod x 2). pose proof (Z.div_mod y 2).
    unfold quad_lanes in Hi. split_and!; try lia.
    + enough (lane_x x i mod 2 = lane_x x i - x) by lia. unfold lane_x. set_unfold in Hi.
      destruct Hi as [->|[->|[->|[->|[]]]]]; cbn [Nat.modulo Nat.divmod snd Nat.sub Z.of_nat]; Z.div_mod_to_equations; lia.
    + enough (lane_y y i mod 2 = lane_y y i - y) by lia. unfold lane_y. set_unfold in Hi.
      destruct Hi as [->|[->|[->|[->|[]]]]]; cbn; Z.div_mod_to_equations; lia.
  - intros (Ex & Ey & Hb). split; [lia|]. apply list_elem_of_fmap.
    assert (px mod 2 = 0 \/ px mod 2 = 1) as Cx by (pose proof (Z.mod_pos_bound px 2); lia).
    assert (py mod 2 = 0 \/ py mod 2 = 1) as Cy by (pose proof (Z.mod_pos_bound py 2); lia).
    destruct Cx as [Cx|Cx], Cy as [Cy|Cy]; rewrite Cx, Cy in *;
      [exists 0%nat|exists 2%nat|exists 1%nat|exists 3%nat].
    all: split; [unfold lane_x, lane_y; cbn; f_equal; lia|].
    all: unfold quad_lanes; set_solver.
Qed.

Lemma elem_of_box b p : p ∈ box_pixels b <-> in_box b p.1 p.2 = true.
Proof.
  unfold box_pixels, in_box. rewrite !andb_true_iff, !Z.leb_le, list_elem_of_bind. setoid_rewrite list_elem_of_bind.
  assert (Hev : forall z, even_floor z mod 2 = 0) by (intros z; rewrite even_floor_ok; Z.div_mod_to_equations; lia).
  assert (Hfl : forall z, even_floor z <= z < even_floor z + 2) by (intros z; rewrite even_floor_ok; pose proof (Z.mod_pos_bound z 2); lia).
  split.
  - intros (y & (x & Hp & Hx) & Hy). apply elem_of_every_other in Hx as (Hx & Hlx & _); [|done].
    apply elem_of_every_other in Hy as (Hy & Hly & _); [|done]. apply quad_pixels_in in Hp as (<- & <- & ? & ?); [|done..].
    pose proof (Hfl p.1). pose proof (Hfl p.2). lia.
  - intros (((H1 & H2) & H3) & H4). exists (even_floor p.2). split.
    + exists (even_floor p.1). split; [by apply quad_pixels_in|]. apply elem_of_every_other; [done|].
      pose proof (Hfl p.1). split; [done|]. pose proof (Hev (min_x b)). pose proof (Hev p.1). Z.div_mod_to_equations. lia.
    + apply elem_of_every_other; [done|]. pose proof (Hfl p.2). split; [done|]. pose proof (Hev (min_y b)). pose proof (Hev p.2).
      Z.div_mod_to_equations. lia.
Qed.

Lemma NoDup_box b : NoDup (box_pixels b).
Proof.
  assert (Hev : forall z, even_floor z mod 2 = 0) by (intros z; rewrite even_floor_ok; Z.div_mod_to_equations; lia).
  unfold box_pixels. apply NoDup_bind.
  - intros y y' p Hy Hy'. rewrite !list_elem_of_bind. intros (x & Hp & Hx) (x' & Hp' & Hx').
    apply elem_of_every_other in Hx as [Hx _], Hx' as [Hx' _], Hy as [Hy _], Hy' as [Hy' _]; try done.
    apply quad_pixels_in in Hp as (_ & <- & _), Hp' as (_ & <- & _); done.
  - intros y Hy. apply elem_of_every_other in Hy as [Hy _]; [|done]. apply NoDup_bind.
    + intros x x' p Hx Hx' Hp Hp'. apply elem_of_every_other in Hx as [Hx _], Hx' as [Hx' _]; try done.
      apply quad_pixels_in in Hp as (<- & _), Hp' as (<- & _); done.
    + intros x Hx. unfold quad_pixels. apply list.NoDup_filter. unfold quad_lanes, lane_x, lane_y. cbn. rewrite !list.NoDup_cons.
      split_and!; try apply NoDup_nil_2; rewrite ?not_elem_of_cons; split_and?; try apply not_elem_of_nil; intros [=]; lia.
    + apply NoDup_every_other.
  - apply NoDup_every_other.
Qed.

(** ** One test for every pixel *)

(** The weight of one edge at the centre of a pixel. *)
Definition weight (dx dy c inv_area : f32) (sx sy : Z) : f32 :=
  ((dy * (of_int sx + half) - dx * (of_int sy + half) + c) * inv_area)%f32.

Definition edge_const (dx dy x y : f32) : f32 := (dx * y - dy * x)%f32.

(** The corners of a triangle on the screen. *)
Record Corners : Type := mkCorners { cx0 : f32; cy0 : f32; cx1 : f32; cy1 : f32; cx2 : f32; cy2 : f32 }.

Definition area_of (t : Corners) : f32 := edge_function_scalar (cx0 t) (cy0 t) (cx1 t) (cy1 t) (cx2 t) (cy2 t).

Definition weight_of (x y x' y' : f32) (inv_area : f32) : Z -> Z -> f32 :=
  weight (x' - x)%f32 (y' - y)%f32 (edge_const (x' - x)%f32 (y' - y)%f32 x y) inv_area.

Definition alpha_at (t : Corners) : Z -> Z -> f32 := weight_of (cx1 t) (cy1 t) (cx2 t) (cy2 t) (f1 / area_of t)%f32.
Definition beta_at (t : Corners) : Z -> Z -> f32 := weight_of (cx2 t) (cy2 t) (cx0 t) (cy0 t) (f1 / area_of t)%f32.
Definition gamma_at (t : Corners) : Z -> Z -> f32 := weight_of (cx0 t) (cy0 t) (cx1 t) (cy1 t) (f1 / area_of t)%f32.

Definition covered (t : Corners) (x y : Z) : bool :=
  fge (alpha_at t x y) f0 && fge (beta_at t x y) f0 && fge (gamma_at t x y) f0.

Definition box_of (t : Corners) (w h : Z) : Bounds := bounds_of (cx0 t) (cy0 t) (cx1 t) (cy1 t) (cx2 t) (cy2 t) w h.
Definition edges (t : Corners) : Edges :=
  edges_of (splat (cx0 t)) (splat (cy0 t)) (splat (cx1 t)) (splat (cy1 t)) (splat (cx2 t)) (splat (cy2 t)).
Definition inverse (t : Corners) : f32x4 := splat (f1 / area_of t)%f32.

(** A pixel the triangle draws. *)
Definition drawn (t : Corners) (w h x y : Z) : bool :=
  negb (flt (fabs (area_of t)) MIN_TRIANGLE_AREA) && in_box (box_of t w h) x y && covered t x y.

Definition lanes_of (t : Corners) (x y : Z) : f32x4 * f32x4 * f32x4 :=
  let e := edges t in
  ((edge_function (e1_dx e) (e1_dy e) (quad_px x) (quad_py y) (e1_const e) * inverse t)%x4,
   (edge_function (e2_dx e) (e2_dy e) (quad_px x) (quad_py y) (e2_const e) * inverse t)%x4,
   (edge_function (e0_dx e) (e0_dy e) (quad_px x) (quad_py y) (e0_const e) * inverse t)%x4).

Lemma lane_px x i : i ∈ quad_lanes -> lane (quad_px x) i = (of_int (lane_x x i) + half)%f32.
Proof. unfold quad_lanes. rewrite !elem_of_cons. intros [->|[->|[->|[->|[]%elem_of_nil]]]]; unfold lane_x; cbn; by rewrite ?Z.add_0_r. Qed.

Lemma lane_py y i : i ∈ quad_lanes -> lane (quad_py y) i = (of_int (lane_y y i) + half)%f32.
Proof. unfold quad_lanes. rewrite !elem_of_cons. intros [->|[->|[->|[->|[]%elem_of_nil]]]]; unfold lane_y; cbn; by rewrite ?Z.add_0_r. Qed.

Lemma lane_weights t x y i : i ∈ quad_lanes ->
  lane (lanes_of t x y).1.1 i = alpha_at t (lane_x x i) (lane_y y i) /\
  lane (lanes_of t x y).1.2 i = beta_at t (lane_x x i) (lane_y y i) /\
  lane (lanes_of t x y).2 i = gamma_at t (lane_x x i) (lane_y y i).
Proof.
  intros Hi. unfold lanes_of, alpha_at, beta_at, gamma_at, weight_of, weight, edge_const, inverse, edges, edges_of, edge_function, vadd, vsub, vmul.
  cbn [fst snd e0_dx e0_dy e0_const e1_dx e1_dy e1_const e2_dx e2_dy e2_const].
  rewrite !lane_map2, !lane_splat, lane_px, lane_py by done. done.
Qed.

Lemma inside_covered t x y i : i ∈ quad_lanes ->
  inside (lanes_of t x y).1.1 (lanes_of t x y).1.2 (lanes_of t x y).2 i = covered t (lane_x x i) (lane_y y i).
Proof.
  intros Hi. destruct (lane_weights t x y i Hi) as (Ha & Hb & Hg). unfold inside, vge, covered. cbv zeta. by rewrite Ha, Hb, Hg, !lane_splat.
Qed.

Lemma lane_floor x y i : x mod 2 = 0 -> y mod 2 = 0 -> i ∈ quad_lanes ->
  even_floor (lane_x x i) = x /\ even_floor (lane_y y i) = y.
Proof.
  intros Hx Hy. rewrite !even_floor_ok. unfold quad_lanes. rewrite !elem_of_cons.
  intros [->|[->|[->|[->|[]%elem_of_nil]]]]; unfold lane_x, lane_y; cbn; Z.div_mod_to_equations; lia.
Qed.

(** A quad, whose lanes draw where the mask is set, as a loop over its pixels in the box. *)
Lemma quad_as_pixels {S E} (quad : Z -> Z -> stM S E unit) (mask : Z -> Z -> nat -> bool) (draw : Z -> Z -> nat -> stM S E unit)
    (cov : Z -> Z -> bool) (paint : Z * Z -> stM S E unit) b x y :
  x mod 2 = 0 -> y mod 2 = 0 ->
  (forall i, i ∈ quad_lanes -> mask x y i = cov (lane_x x i) (lane_y y i)) ->
  quad x y = (if mask_is_zero (mask x y) then sret tt else
    for_in (fun i => if mask x y i then (if (lane_x x i <=? max_x b) && (lane_y y i <=? max_y b) then draw x y i else sret tt) else sret tt) quad_lanes) ->
  (forall i s, i ∈ quad_lanes -> paint (lane_x x i, lane_y y i) s = (if cov (lane_x x i) (lane_y y i) then draw x y i else sret tt) s) ->
  forall s, quad x y s = for_in paint (quad_pixels b x y) s.
Proof.
  intros Hx Hy Hmask -> Hpaint s. unfold quad_pixels. rewrite <- (for_in_filter paint (fun p => (p.1 <=? max_x b) && (p.2 <=? max_y b))).
  rewrite for_in_map. cbn [fst snd]. destruct (mask_is_zero (mask x y)) eqn:Ez.
  - symmetry. apply for_in_skip. intros i s' Hi. cbv beta. destruct (_ && _); [|done]. rewrite Hpaint, <- Hmask by done.
    unfold mask_is_zero in Ez. rewrite forallb_forall in Ez.
    by rewrite (proj1 (negb_true_iff _) (Ez i (proj1 (list_elem_of_In _ _) Hi))).
  - apply for_in_ext. intros i s' Hi. cbv beta. destruct (_ && _).
    + by rewrite Hpaint, <- Hmask by done.
    + by destruct (mask x y i).
Qed.

(** The loops of a triangle as one loop over the pixels of its box. *)
Lemma box_loop {S E} (quad : Z -> Z -> stM S E unit) (paint : Z * Z -> stM S E unit) b s :
  (forall x y s, x mod 2 = 0 -> y mod 2 = 0 -> quad x y s = for_in paint (quad_pixels b x y) s) ->
  for_in (fun y => for_in (fun x => quad x y) (every_other (even_floor (min_x b)) (max_x b))) (every_other (even_floor (min_y b)) (max_y b)) s =
  for_in paint (box_pixels b) s.
Proof.
  assert (Hev : forall z, even_floor z mod 2 = 0) by (intros z; rewrite even_floor_ok; Z.div_mod_to_equations; lia).
  intros Hq. unfold box_pixels. rewrite <- for_in_bind. apply for_in_ext. intros y s1 Hy. apply elem_of_every_other in Hy as [Hy _]; [|done].
  rewrite <- for_in_bind. apply for_in_ext. intros x s2 Hx. apply elem_of_every_other in Hx as [Hx _]; [|done]. by apply Hq.
Qed.

(** ** In the target *)

Definition target_ok (w h : Z) : Prop := 1 <= w < 2 ^ 24 /\ 1 <= h < 2 ^ 24 /\ w * h < 2 ^ 32.

Lemma max_in_target x w : 1 <= w < 2 ^ 24 -> to_u32 (fmin x (of_int w - f1)%f32) <= w - 1.
Proof.
  intros Hw. assert (Hr : rep 0 (w - 1) (of_int w - f1)%f32).
  { apply rep_sub; [apply rep_of_int; unfold small; lia|apply rep_of_int; done|unfold small; lia|lia]. }
  etransitivity; [apply to_uint_mono; [done|]; apply fmin_le_r; by eapply rep_nan|].
  rewrite (rep_to_uint 32 0 (w - 1)) by (done || lia). change (2 ^ 0) with 1. rewrite Z.div_1_r. lia.
Qed.

Definition pixel_ok (w h : Z) (p : Z * Z) : Prop := 0 <= p.1 < w /\ 0 <= p.2 < h.

Lemma box_in_target t w h : target_ok w h -> Forall (pixel_ok w h) (box_pixels (box_of t w h)).
Proof.
  intros (Hw & Hh & _). apply list.Forall_forall. intros p Hp%elem_of_box. unfold in_box in Hp. rewrite !andb_true_iff, !Z.leb_le in Hp.
  destruct Hp as [[[H1 H2] H3] H4]. unfold box_of, bounds_of in *. cbn [min_x max_x min_y max_y] in *.
  pose proof (max_in_target (fmax (fmax (cx0 t) (cx1 t)) (cx2 t)) w Hw). pose proof (max_in_target (fmax (fmax (cy0 t) (cy1 t)) (cy2 t)) h Hh).
  rewrite even_floor_ok in *.
  pose proof (to_uint_range 32 (fmax (fmin (fmin (cx0 t) (cx1 t)) (cx2 t)) f0) ltac:(done)).
  pose proof (to_uint_range 32 (fmax (fmin (fmin (cy0 t) (cy1 t)) (cy2 t)) f0) ltac:(done)).
  unfold to_u32 in *. split; Z.div_mod_to_equations; lia.
Qed.

Definition cell_index (w : Z) (p : Z * Z) : nat := Z.to_nat (p.2 * w + p.1).

Lemma cell_index_inj w h p q : pixel_ok w h p -> pixel_ok w h q -> cell_index w p = cell_index w q -> p = q.
Proof.
  destruct p as [x y], q as [x' y']. unfold pixel_ok, cell_index. cbn [fst snd]. intros Hp Hq E.
  assert (0 <= y * w) by nia. assert (0 <= y' * w) by nia. assert (E' : y * w + x = y' * w + x') by lia.
  assert (y = y') as -> by (destruct (Z.lt_trichotomy y y') as [|[|]]; nia). f_equal. lia.
Qed.

Lemma cell_index_range w h p : pixel_ok w h p -> 0 <= p.2 * w + p.1 < w * h.
Proof. unfold pixel_ok. intros [Hx Hy]. nia. Qed.

Lemma pixel_index_ok {E} w h x y : target_ok w h -> pixel_ok w h (x, y) -> pixel_index (E := E) w x y = Ok (y * w + x).
Proof.
  intros (Hw & Hh & Hwh) Hp. pose proof (cell_index_range w h (x, y) Hp) as Hr. unfold pixel_ok in Hp. cbn [fst snd] in *. unfold pixel_index, u32.
  rewrite (proj2 (Z.leb_le _ _)), (proj2 (Z.ltb_lt _ _)) by nia. cbn [andb rbind].
  by rewrite (proj2 (Z.leb_le _ _)), (proj2 (Z.ltb_lt _ _)) by lia.
Qed.

Lemma box_indices t w h : target_ok w h -> NoDup (cell_index w <$> box_pixels (box_of t w h)).
Proof.
  intros Ht. apply NoDup_fmap_2_strong; [|apply NoDup_box]. intros p q Hp Hq.
  pose proof (box_in_target t w h Ht) as Hall. rewrite list.Forall_forall in Hall. apply cell_index_inj with h; by apply Hall.
Qed.

(** *** In two dimensions *)

#[local] Opaque fadd fsub fmul fdiv of_int.

Section draw.
Context {VS PS : Type} `{PixelShader PS}.
Variable self : RenderContext.

Definition corners_2d (v0 v1 v2 : VSOut) : Corners := mkCorners (vx v0) (vy v0) (vx v1) (vy v1) (vx v2) (vy v2).

(** The attributes the pixels of a quad share. *)
Definition quad_attributes (v0 v1 v2 : VSOut) (x y : Z) : f32x4 :=
  let w := lanes_of (corners_2d v0 v1 v2) x y in
  let interp := interpolate_attributes_barycentric (attributes v0) (attributes v1) (attributes v2) w.1.1 w.1.2 w.2 in
  mk4 (lane0 interp) (f1 - lane1 interp)%f32 (lane2 interp) (lane3 interp).

Definition shade_2d (v0 v1 v2 : VSOut) (shader : PS) (x y old : Z) : Z :=
  run_ps shader (mkPSIn (quad_attributes v0 v1 v2 (even_floor x) (even_floor y)) (splat f0) (wrap 16 x) (wrap 16 y)
    (textures self) (constant_buffers self)) old.

Definition paint_2d (v0 v1 v2 : VSOut) (shader : PS) (w : Z) (p : Z * Z) : stM Words Fault unit :=
  if covered (corners_2d v0 v1 v2) p.1 p.2 then
    let! idx := slift (pixel_index w p.1 p.2) in
    run_pixel self shader (quad_attributes v0 v1 v2 (even_floor p.1) (even_floor p.2)) (splat f0) p.1 p.2 idx
  else sret tt.

Lemma run_pixel_ok shader attrs ex sx sy idx (rt : Words) old : 0 <= idx -> rt !! Z.to_nat idx = Some old ->
  run_pixel self shader attrs ex sx sy idx rt =
    (Ok tt, <[Z.to_nat idx := run_ps shader (mkPSIn attrs ex (wrap 16 sx) (wrap 16 sy) (textures self) (constant_buffers self)) old]> rt).
Proof.
  intros Hi Ho. pose proof (lookup_lt_Some _ _ _ Ho) as Hl. unfold run_pixel, sbind, load_word, store_word.
  rewrite (proj2 (Z.leb_le 0 idx)) by done. cbn [andb]. rewrite Ho. by rewrite (proj2 (Z.ltb_lt _ _)) by lia.
Qed.

Lemma alter_insert {A} (g : A -> A) (l : list A) i a : l !! i = Some a -> alter g i l = <[i := g a]> l.
Proof.
  intros Hl. apply list_eq. intros j. destruct (decide (i = j)) as [<-|Hne].
  - rewrite list_lookup_alter_eq, Hl, list_lookup_insert_eq by (by eapply lookup_lt_Some). done.
  - by rewrite list_lookup_alter_ne, list_lookup_insert_ne by done.
Qed.

Lemma alter_same {A} (g : A -> A) (l : list A) i : (forall a, l !! i = Some a -> g a = a) -> alter g i l = l.
Proof.
  intros Hg. apply list_eq. intros j. destruct (decide (i = j)) as [<-|Hne].
  - rewrite list_lookup_alter_eq. destruct (l !! i) eqn:E; [|done]. cbn. by rewrite Hg.
  - by rewrite list_lookup_alter_ne.
Qed.

Lemma paint_2d_ok v0 v1 v2 shader w h p (rt : Words) : target_ok w h -> zlen rt = w * h -> pixel_ok w h p ->
  exists rt', paint_2d v0 v1 v2 shader w p rt = (Ok tt, rt') /\ zlen rt' = w * h /\
    rt' = alter (fun old => if covered (corners_2d v0 v1 v2) p.1 p.2 then shade_2d v0 v1 v2 shader p.1 p.2 old else old) (cell_index w p) rt.
Proof.
  intros Ht Hl Hp. unfold paint_2d. destruct (covered _ _ _).
  - pose proof (cell_index_range w h p Hp) as Hr. destruct (lookup_lt_is_Some_2 rt (cell_index w p)) as [old Ho]; [unfold cell_index; lia|].
    destruct p as [x y]. cbn [fst snd] in *. unfold slift, sbind. rewrite (pixel_index_ok w h x y Ht Hp).
    rewrite (run_pixel_ok _ _ _ _ _ _ rt old) by (done || lia).
    eexists. split; [done|]. split; [by rewrite length_insert|]. by rewrite (alter_insert _ _ _ _ Ho).
  - exists rt. split; [done|]. split; [done|]. symmetry. by apply alter_same.
Qed.

Lemma quad_2d_pixels v0 v1 v2 shader w b x y s : x mod 2 = 0 -> y mod 2 = 0 ->
  let t := corners_2d v0 v1 v2 in
  quad_2d self v0 v1 v2 (edges t) (inverse t) b w shader x y s = for_in (paint_2d v0 v1 v2 shader w) (quad_pixels b x y) s.
Proof.
  intros Hx Hy t. set (mask x y := inside (lanes_of t x y).1.1 (lanes_of t x y).1.2 (lanes_of t x y).2).
  apply (quad_as_pixels (quad_2d self v0 v1 v2 (edges t) (inverse t) b w shader) mask
    (fun x y i => let! idx := slift (pixel_index w (lane_x x i) (lane_y y i)) in
       run_pixel self shader (quad_attributes v0 v1 v2 x y) (splat f0) (lane_x x i) (lane_y y i) idx) (covered t)); [exact Hx|exact Hy| | |].
  - intros i Hi. exact (inside_covered t x y i Hi).
  - reflexivity.
  - intros i s' Hi. unfold paint_2d. cbn [fst snd]. destruct (lane_floor x y i Hx Hy Hi) as [-> ->]. done.
Qed.

(** A triangle changes the pixels it covers, each once, and touches nothing outside of the target. *)
Lemma triangle_pixels v0 v1 v2 w h (pipeline : PipelineState VS PS) (rt : Words) : target_ok w h -> zlen rt = w * h ->
  exists rt', rasterize_triangle_simd self v0 v1 v2 w h pipeline rt = (Ok tt, rt') /\ zlen rt' = w * h /\
    forall x y, pixel_ok w h (x, y) ->
      rt' !! Z.to_nat (y * w + x) =
      (fun old => if drawn (corners_2d v0 v1 v2) w h x y then shade_2d v0 v1 v2 (ps pipeline) x y old else old) <$> rt !! Z.to_nat (y * w + x).
Proof.
  intros Ht Hl. set (t := corners_2d v0 v1 v2).
  assert (E : rasterize_triangle_simd self v0 v1 v2 w h pipeline rt = (if flt (fabs (area_of t)) MIN_TRIANGLE_AREA then sret tt else
    for_in (fun y => for_in (fun x => quad_2d self v0 v1 v2 (edges t) (inverse t) (box_of t w h) w (ps pipeline) x y)
      (every_other (even_floor (min_x (box_of t w h))) (max_x (box_of t w h))))
      (every_other (even_floor (min_y (box_of t w h))) (max_y (box_of t w h)))) rt) by reflexivity.
  rewrite E. clear E. unfold drawn. destruct (flt (fabs (area_of t)) MIN_TRIANGLE_AREA).
  { exists rt. split; [done|]. split; [done|]. intros x y _. cbn [negb andb]. by destruct (rt !! _). }
  cbn [negb andb]. rewrite (box_loop _ (paint_2d v0 v1 v2 (ps pipeline) w)) by (intros; by apply quad_2d_pixels).
  destruct (paint_all id (fun rt => zlen rt = w * h) (pixel_ok w h) (paint_2d v0 v1 v2 (ps pipeline) w) (cell_index w)
    (fun p old => if covered t p.1 p.2 then shade_2d v0 v1 v2 (ps pipeline) p.1 p.2 old else old)
    (fun p s Hs Hp => paint_2d_ok v0 v1 v2 (ps pipeline) w h p s Ht Hs Hp) (box_pixels (box_of t w h)) rt Hl)
    as (rt' & E' & Hl' & Hin & Hout); [by apply box_in_target|by apply box_indices|].
  exists rt'. split; [done|]. split; [done|]. intros x y Hp. change (Z.to_nat (y * w + x)) with (cell_index w (x, y)).
  destruct (in_box (box_of t w h) x y) eqn:Eb; cbn [andb].
  - apply (Hin (x, y)). by apply elem_of_box.
  - unfold id in Hout. rewrite Hout; [by destruct (rt !! _)|]. intros ((x' & y') & Ec & Hin')%list_elem_of_fmap.
    pose proof (box_in_target t w h Ht) as Hall. rewrite list.Forall_forall in Hall.
    apply (cell_index_inj w h) in Ec; [|done|by apply Hall]. injection Ec as -> ->. apply elem_of_box in Hin'. cbn [fst snd] in Hin'. congruence.
Qed.
End draw.

(** ** Triangles with depth

    A draw call in three dimensions, pixel by pixel: the fragments of its triangles in their
    order, each kept if it is nearer than what the depth buffer holds. *)

#[local] Opaque fadd fsub fmul fdiv of_int.

Lemma flt_irrefl x : flt x x = false.
Proof.
  apply not_true_is_false. intros H. destruct (flt_nan _ _ H) as [Hn _]. pose proof (flt_fle _ _ H) as Hl.
  rewrite flt_total in H by done. by rewrite Hl in H.
Qed.

Section depth.
Context {VS PS : Type} `{PixelShader PS}.
Variable self : RenderContext.
Variables w h : Z.
Hypothesis Ht : target_ok w h.

(** ** The fragments of a triangle *)

Abbreviation Triangle := (VSOut3D.t * VSOut3D.t * VSOut3D.t)%type.

Definition corners_3d (v : Triangle) : Corners :=
  let '(v0, v1, v2) := v in
  let '(sx0, sy0, _) := clip_to_screen v0 w h in
  let '(sx1, sy1, _) := clip_to_screen v1 w h in
  let '(sx2, sy2, _) := clip_to_screen v2 w h in
  mkCorners sx0 sy0 sx1 sy1 sx2 sy2.

Definition depth_at (v : Triangle) (x y : Z) : f32 :=
  let '(v0, v1, v2) := v in
  let t := corners_3d v in
  let a := (alpha_at t x y * (f1 / VSOut3D.w v0))%f32 in
  let b := (beta_at t x y * (f1 / VSOut3D.w v1))%f32 in
  let g := (gamma_at t x y * (f1 / VSOut3D.w v2))%f32 in
  (((clip_to_screen v0 w h).2 * a + (clip_to_screen v1 w h).2 * b + (clip_to_screen v2 w h).2 * g) * (f1 / (a + b + g)))%f32.

(** Behind the camera, turned away, without area or off the screen. *)
Definition dropped (mode : CullMode) (v : Triangle) : bool :=
  let t := corners_3d v in let b := box_of t w h in
  should_cull_triangle v.1.1 v.1.2 v.2 || culled mode (area_of t) || flt (fabs (area_of t)) MIN_TRIANGLE_AREA ||
  ((max_x b <? min_x b) || (max_y b <? min_y b)).

Definition fragment (mode : CullMode) (x y : Z) (v : Triangle) : option f32 :=
  if dropped mode v then None else
  if in_box (box_of (corners_3d v) w h) x y && covered (corners_3d v) x y then Some (depth_at v x y) else None.

Definition shade_3d (shader : PS) (x y old : Z) : Z :=
  run_ps shader (mkPSIn (splat f0) (splat f0) (wrap 16 x) (wrap 16 y) (textures self) (constant_buffers self)) old.

(** A pixel and its depth, met by a fragment. *)
Definition keep_nearer (shader : PS) (x y : Z) (c : Z * f32) (z : f32) : Z * f32 :=
  if flt z c.2 then (shade_3d shader x y c.1, z) else c.

(** ** A triangle *)

Definition good (t : Target3D) : Prop :=
  zlen (pixels t) = w * h /\ zlen (d_data (depths t)) = w * h /\ d_width (depths t) = w.

Definition cells_of (t : Target3D) : list (Z * f32) := zip (pixels t) (d_data (depths t)).

Definition paint_3d (v : Triangle) (shader : PS) (p : Z * Z) : stM Target3D Fault unit :=
  if covered (corners_3d v) p.1 p.2 then
    let! nearer := on_depth (test_and_set p.1 p.2 (depth_at v p.1 p.2)) in
    if (nearer : bool) then
      let! idx := slift (pixel_index w p.1 p.2) in
      on_pixels (run_pixel self shader (splat f0) (splat f0) p.1 p.2 idx)
    else sret tt
  else sret tt.

Lemma cell_lookup t p : good t -> pixel_ok w h p ->
  exists c d, pixels t !! cell_index w p = Some c /\ d_data (depths t) !! cell_index w p = Some d /\ cells_of t !! cell_index w p = Some (c, d).
Proof.
  intros (Hp & Hd & _) Hpx. pose proof (cell_index_range w h p Hpx) as Hr.
  destruct (lookup_lt_is_Some_2 (pixels t) (cell_index w p)) as [c Hc]; [unfold cell_index; lia|].
  destruct (lookup_lt_is_Some_2 (d_data (depths t)) (cell_index w p)) as [d Hd']; [unfold cell_index; lia|].
  exists c, d. split; [done|]. split; [done|]. unfold cells_of. by rewrite lookup_zip_with, Hc, Hd'.
Qed.

Lemma paint_3d_ok v shader p t : good t -> pixel_ok w h p ->
  exists t', paint_3d v shader p t = (Ok tt, t') /\ good t' /\
    cells_of t' = alter (fun c => if covered (corners_3d v) p.1 p.2 then keep_nearer shader p.1 p.2 c (depth_at v p.1 p.2) else c) (cell_index w p) (cells_of t).
Proof.
  intros Hg Hp. destruct (cell_lookup t p Hg Hp) as (c & d & Hc & Hd & Hcd). pose proof (cell_index_range w h p Hp) as Hr.
  destruct Hg as (Hpl & Hdl & Hdw). unfold paint_3d. destruct (covered _ _ _).
  2: { exists t. split; [done|]. split; [done|]. symmetry. by apply alter_same. }
  destruct t as [px [dw dh dd]]. destruct p as [x y]. cbn [pixels depths d_width d_height d_data fst snd] in *. subst dw.
  set (z := depth_at v x y). rewrite (alter_insert _ _ _ _ Hcd). unfold keep_nearer. cbn [fst snd].
  unfold on_depth, test_and_set, sbind, depth_index, index_of. cbn [depths d_width d_data d_height pixels].
  change (let? row := u32 (y * w) in u32 (row + x)) with (pixel_index (E := Fault) w x y).
  rewrite (pixel_index_ok w h x y Ht Hp). cbn [rbind]. change (Z.to_nat (y * w + x)) with (cell_index w (x, y)). rewrite Hd. cbn [rbind].
  destruct (flt z d).
  - unfold slift, on_pixels. cbn [pixels depths].
    rewrite (run_pixel_ok self _ _ _ _ _ _ px c) by (done || lia). eexists. split; [done|]. split.
    + split_and!; cbn; rewrite ?length_insert; done.
    + unfold cells_of. cbn [pixels depths d_data]. by rewrite insert_zip_with.
  - eexists. split; [done|]. split; [done|]. unfold cells_of. cbn [pixels depths d_data]. by rewrite list_insert_id.
Qed.

Lemma quad_3d_pixels v0 v1 v2 shader b x y s : x mod 2 = 0 -> y mod 2 = 0 ->
  let v := (v0, v1, v2) in let t := corners_3d v in
  quad_3d self (clip_to_screen v0 w h).2 (clip_to_screen v1 w h).2 (clip_to_screen v2 w h).2 (VSOut3D.w v0) (VSOut3D.w v1) (VSOut3D.w v2)
    (edges t) (inverse t) b w shader x y s = for_in (paint_3d v shader) (quad_pixels b x y) s.
Proof.
  intros Hx Hy v t. set (mask x y := inside (lanes_of t x y).1.1 (lanes_of t x y).1.2 (lanes_of t x y).2).
  set (zs x y := let l := lanes_of t x y in
    let a := (l.1.1 * splat (f1 / VSOut3D.w v0)%f32)%x4 in
    let b := (l.1.2 * splat (f1 / VSOut3D.w v1)%f32)%x4 in
    let g := (l.2 * splat (f1 / VSOut3D.w v2)%f32)%x4 in
    ((splat (clip_to_screen v0 w h).2 * a + splat (clip_to_screen v1 w h).2 * b + splat (clip_to_screen v2 w h).2 * g) *
     (splat f1 / (a + b + g)))%x4).
  assert (Hz : forall i, i ∈ quad_lanes -> lane (zs x y) i = depth_at v (lane_x x i) (lane_y y i)).
  { intros i Hi. destruct (lane_weights t x y i Hi) as (Ha & Hb & Hg). unfold zs, vadd, vmul, vdiv. cbv zeta.
    rewrite !lane_map2, !lane_splat, Ha, Hb, Hg. reflexivity. }
  apply (quad_as_pixels (quad_3d self (clip_to_screen v0 w h).2 (clip_to_screen v1 w h).2 (clip_to_screen v2 w h).2
      (VSOut3D.w v0) (VSOut3D.w v1) (VSOut3D.w v2) (edges t) (inverse t) b w shader) mask
    (fun x y i =>
       let! nearer := on_depth (test_and_set (lane_x x i) (lane_y y i) (lane (zs x y) i)) in
       if (nearer : bool) then
         let! idx := slift (pixel_index w (lane_x x i) (lane_y y i)) in
         on_pixels (run_pixel self shader (splat f0) (splat f0) (lane_x x i) (lane_y y i) idx)
       else sret tt) (covered t)); [exact Hx|exact Hy| | |].
  - intros i Hi. exact (inside_covered t x y i Hi).
  - reflexivity.
  - intros i s' Hi. unfold paint_3d. cbn [fst snd]. rewrite (Hz i Hi). reflexivity.
Qed.

Lemma triangle_3d v0 v1 v2 (pipeline : PipelineState VS PS) t : good t ->
  let v := (v0, v1, v2) in
  exists t', (if should_cull_triangle v0 v1 v2 then sret tt else rasterize_triangle_3d self v0 v1 v2 w h pipeline) t = (Ok tt, t') /\ good t' /\
    forall x y, pixel_ok w h (x, y) ->
      cells_of t' !! cell_index w (x, y) =
      (fun c => match fragment (cull_mode pipeline) x y v with Some z => keep_nearer (ps pipeline) x y c z | None => c end) <$> cells_of t !! cell_index w (x, y).
Proof.
  intros Hg v. set (tr := corners_3d v). set (b := box_of tr w h).
  assert (E : (if should_cull_triangle v0 v1 v2 then sret tt else rasterize_triangle_3d self v0 v1 v2 w h pipeline) t =
    (if dropped (cull_mode pipeline) v then sret tt else
     for_in (fun y => for_in (fun x => quad_3d self (clip_to_screen v0 w h).2 (clip_to_screen v1 w h).2 (clip_to_screen v2 w h).2
        (VSOut3D.w v0) (VSOut3D.w v1) (VSOut3D.w v2) (edges tr) (inverse tr) b w (ps pipeline) x y)
       (every_other (even_floor (min_x b)) (max_x b))) (every_other (even_floor (min_y b)) (max_y b))) t).
  { unfold dropped. cbv zeta. cbn [v fst snd]. destruct (should_cull_triangle v0 v1 v2); [done|]. cbn [orb].
    unfold b, tr, rasterize_triangle_3d, corners_3d, box_of, area_of, edges, inverse. cbn [v].
    destruct (clip_to_screen v0 w h) as [[sx0 sy0] z0], (clip_to_screen v1 w h) as [[sx1 sy1] z1], (clip_to_screen v2 w h) as [[sx2 sy2] z2].
    cbn [cx0 cy0 cx1 cy1 cx2 cy2 snd]. destruct (culled _ _); [done|]. destruct (flt _ MIN_TRIANGLE_AREA); [done|]. cbn [orb].
    destruct (_ || _); reflexivity. }
  rewrite E. clear E. unfold fragment. destruct (dropped (cull_mode pipeline) v).
  { exists t. split; [done|]. split; [done|]. intros x y _. by destruct (cells_of t !! _). }
  rewrite (box_loop _ (paint_3d v (ps pipeline))) by (intros; by apply quad_3d_pixels).
  destruct (paint_all cells_of good (pixel_ok w h) (paint_3d v (ps pipeline)) (cell_index w)
    (fun p c => if covered tr p.1 p.2 then keep_nearer (ps pipeline) p.1 p.2 c (depth_at v p.1 p.2) else c)
    (fun p s Hs Hp => paint_3d_ok v (ps pipeline) p s Hs Hp) (box_pixels b) t Hg)
    as (t' & E' & Hg' & Hin & Hout); [by apply box_in_target|by apply box_indices|].
  exists t'. split; [done|]. split; [done|]. intros x y Hp. fold tr. fold b. destruct (in_box b x y) eqn:Eb; cbn [andb].
  - rewrite (Hin (x, y)) by (by apply elem_of_box). cbn [fst snd]. by destruct (covered tr x y).
  - rewrite Hout; [by destruct (cells_of t !! _)|]. intros ((x' & y') & Ec & Hin')%list_elem_of_fmap.
    pose proof (box_in_target tr w h Ht) as Hall. rewrite list.Forall_forall in Hall.
    apply (cell_index_inj w h) in Ec; [|done|by apply Hall]. injection Ec as -> ->. apply elem_of_box in Hin'. cbn [fst snd] in Hin'. congruence.
Qed.
(** ** A draw call *)

(** Fragments meet a pixel one after the other. *)
Definition fragments (mode : CullMode) (x y : Z) (ts : list Triangle) : list f32 := omap (fragment mode x y) ts.

Lemma nearest_kept shader x y zs : forall c d,
  let r := foldl (keep_nearer shader x y) (c, d) zs in
  fle r.2 d = true \/ r = (c, d).
Proof using Type.
  clear Ht w h.
  induction zs as [|z zs IH]; intros c d; [by right|]. cbn [foldl]. unfold keep_nearer at 2 4. cbn [fst snd].
  destruct (flt z d) eqn:E; [|apply IH]. left. destruct (IH (shade_3d shader x y c) z) as [Hl| ->]; [|by apply flt_fle].
  apply fle_trans with z; [done|by apply flt_fle].
Qed.

(** No fragment is nearer than what is left; what is left was there, or is of a fragment. *)
Lemma nearest_left shader x y zs : forall c d,
  let r := foldl (keep_nearer shader x y) (c, d) zs in
  (forall z, z ∈ zs -> flt z r.2 = false) /\ (r = (c, d) \/ r.2 ∈ zs /\ flt r.2 d = true).
Proof using Type.
  clear Ht w h.
  induction zs as [|z zs IH]; intros c d; [split; [set_solver|by left]|]. cbn [foldl]. unfold keep_nearer at 2 4 6 8. cbn [fst snd].
  destruct (flt z d) eqn:E.
  - destruct (IH (shade_3d shader x y c) z) as [Hz Hr]. pose proof (nearest_kept shader x y zs (shade_3d shader x y c) z) as Hk. split.
    + intros z' [->|Hin]%elem_of_cons; [|by apply Hz]. destruct Hk as [Hk| ->]; [|apply flt_irrefl].
      apply (flt_mono _ z); [done|apply flt_irrefl].
    + right. destruct Hr as [->|[Hin Hlt]]; [split; [set_solver|done]|]. split; [set_solver|].
      apply flt_fle_trans with z; [done|by apply flt_fle].
  - destruct (IH c d) as [Hz Hr]. pose proof (nearest_kept shader x y zs c d) as Hk. split.
    + intros z' [->|Hin]%elem_of_cons; [|by apply Hz]. destruct Hk as [Hk| ->]; [|done]. by apply (flt_mono _ d).
    + destruct Hr as [->|[Hin Hlt]]; [by left|right; split; [set_solver|done]].
Qed.

Context `{VertexShader3D VS}.

(** The triangles of a draw call after the vertex shader. *)
Fixpoint assemble (pipeline : PipelineState VS PS) (vertices : list Vertex3D) (indices : list Z) : result Fault (list Triangle) :=
  match indices with
  | i0 :: i1 :: i2 :: rest =>
      let shaded i := let? v := index_of vertices i in process_vertex_3d self v pipeline in
      let? vs0 := shaded i0 in
      let? vs1 := shaded i1 in
      let? vs2 := shaded i2 in
      let? ts := assemble pipeline vertices rest in
      Ok ((vs0, vs1, vs2) :: ts)
  | _ => Ok []
  end.

Lemma rbind_ok {E A B} (c : result E A) (k : A -> result E B) b : rbind c k = Ok b -> exists a, c = Ok a /\ k a = Ok b.
Proof. destruct c; cbn; try done. eauto. Qed.

Lemma slift_bind {S E A B} (c : result E A) a (k : A -> stM S E B) s : c = Ok a -> sbind (slift c) k s = k a s.
Proof. by intros ->. Qed.

Lemma chunks_drawn (pipeline : PipelineState VS PS) vertices n : forall indices ts t, (length indices <= n)%nat ->
  assemble pipeline vertices indices = Ok ts -> good t ->
  exists t', draw_chunks_3d self vertices indices w h pipeline t = (Ok tt, t') /\ good t' /\
    forall x y, pixel_ok w h (x, y) ->
      cells_of t' !! cell_index w (x, y) =
      (fun c => foldl (keep_nearer (ps pipeline) x y) c (fragments (cull_mode pipeline) x y ts)) <$> cells_of t !! cell_index w (x, y).
Proof.
  assert (Hnone : forall t, good t -> exists t', sret (E := Fault) tt t = (Ok tt, t') /\ good t' /\
    forall x y, pixel_ok w h (x, y) -> cells_of t' !! cell_index w (x, y) = (fun c => c) <$> cells_of t !! cell_index w (x, y)).
  { intros t Hg. exists t. split; [done|]. split; [done|]. intros x y _. by destruct (cells_of t !! _). }
  induction n as [|n IH]; intros indices ts t Hn Ha Hg.
  { destruct indices; [|cbn in Hn; lia]. injection Ha as <-. by apply Hnone. }
  destruct indices as [|i0 [|i1 [|i2 rest]]]; try (injection Ha as <-; by apply Hnone).
  cbn [assemble] in Ha. apply rbind_ok in Ha as (vs0 & (v0 & E0 & P0)%rbind_ok & Ha). apply rbind_ok in Ha as (vs1 & (v1 & E1 & P1)%rbind_ok & Ha).
  apply rbind_ok in Ha as (vs2 & (v2 & E2 & P2)%rbind_ok & Ha). apply rbind_ok in Ha as (ts' & Ets & [= <-]).
  destruct (triangle_3d vs0 vs1 vs2 pipeline t Hg) as (t1 & D1 & Hg1 & Hc1).
  destruct (IH rest ts' t1) as (t2 & D2 & Hg2 & Hc2); [cbn in Hn; lia|done|done|].
  exists t2. split; [|split; [done|]].
  - cbn [draw_chunks_3d]. assert (D : draw_one_3d self vertices i0 i1 i2 w h pipeline t = (Ok tt, t1)).
    { unfold draw_one_3d. rewrite (slift_bind _ _ _ _ E0), (slift_bind _ _ _ _ E1), (slift_bind _ _ _ _ E2),
        (slift_bind _ _ _ _ P0), (slift_bind _ _ _ _ P1), (slift_bind _ _ _ _ P2). exact D1. }
    by rewrite (sbind_ok _ _ _ _ _ D).
  - intros x y Hp. rewrite Hc2, Hc1 by done. unfold fragments. cbn [omap list_omap].
    destruct (cells_of t !! cell_index w (x, y)) as [c|]; [|done]. cbn. by destruct (fragment _ _ _ _).
Qed.

End depth.

(** C19: a draw call of triangles into a target of any size from 1x1 on, with a depth buffer of
    that size, touches nothing outside of both; afterwards every pixel has met the fragments
    that cover it in their order: no fragment is nearer than the depth that is left, and the
    pixel and its depth are as before, or the depth is that of a fragment nearer than before. *)
Theorem nearest_fragment_wins {VS PS} `{PixelShader PS} `{VertexShader3D VS} self w h (pipeline : PipelineState VS PS) vertices indices ts t :
  target_ok w h -> good w h t -> render_mode pipeline = XYZ -> assemble self pipeline vertices indices = Ok ts ->
  exists t', draw_indexed_3d self vertices indices w h pipeline t = (Ok tt, t') /\ good w h t' /\
    forall x y c d, pixel_ok w h (x, y) ->
      pixels t !! cell_index w (x, y) = Some c -> d_data (depths t) !! cell_index w (x, y) = Some d ->
      let zs := fragments w h (cull_mode pipeline) x y ts in
      exists c' d', pixels t' !! cell_index w (x, y) = Some c' /\ d_data (depths t') !! cell_index w (x, y) = Some d' /\
        (c', d') = foldl (keep_nearer self (ps pipeline) x y) (c, d) zs /\
        (forall z, z ∈ zs -> flt z d' = false) /\ ((c', d') = (c, d) \/ d' ∈ zs /\ flt d' d = true).
Proof.
  intros Ht Hg Hm Ha. destruct (chunks_drawn self w h Ht pipeline vertices (length indices) indices ts t) as (t' & E & Hg' & Hc); [done..|].
  exists t'. split; [unfold draw_indexed_3d, sassert; rewrite Hm; exact E|]. split; [done|].
  intros x y c d Hp Hcx Hdx zs. specialize (Hc x y Hp).
  destruct (cell_lookup w h t' (x, y) Hg' Hp) as (c' & d' & Hc' & Hd' & Hcd'). destruct (cell_lookup w h t (x, y) Hg Hp) as (c0 & d0 & Hc0 & Hd0 & Hcd0).
  assert (c0 = c) as -> by congruence. assert (d0 = d) as -> by congruence.
  rewrite Hcd', Hcd0 in Hc. injection Hc as Hc. exists c', d'. split; [done|]. split; [done|]. split; [done|].
  pose proof (nearest_left self (ps pipeline) x y zs c d) as Hn. cbv zeta in Hn. fold zs in Hc. rewrite <- Hc in Hn. exact Hn.
Qed.

(** Two triangles over a target of 4x4 pixels, the nearer one last. *)
Definition demo_pipeline : PipelineState Basic3DVS FlatColorPS :=
  mkPipeline (mkBasic3D Matrix4x4.identity) (mkFlat (mkRgba 255 0 16 255)) layout_3d CullNone blend_default XYZ true true DepthLess.

Definition demo_vertices : list Vertex3D :=
  let corner x y z := vertex3d_new (of_int x) (of_int y) z f1 f0 f0 f0 f0 f1 in
  [corner (-1) (-1) half; corner 1 (-1) half; corner (-1) 1 half;
   corner (-1) (-1) (of_ratio 1 4); corner 1 (-1) (of_ratio 1 4); corner (-1) 1 (of_ratio 1 4)].

Lemma nearest_fragment_wins_witness :
  let t := mkTarget3D (replicate 16 7) (mkDepth 4 4 (replicate 16 F_MAX)) in
  exists t', draw_indexed_3d context_new demo_vertices [0; 1; 2; 3; 4; 5] 4 4 demo_pipeline t = (Ok tt, t') /\
    pixels t' !! 4%nat = Some 16711696 /\ d_data (depths t') !! 4%nat = Some (of_ratio 1 4) /\
    pixels t' !! 3%nat = Some 7 /\ d_data (depths t') !! 3%nat = Some F_MAX.
Proof.
  intros t. destruct (assemble context_new demo_pipeline demo_vertices [0; 1; 2; 3; 4; 5]) as [ts| | |] eqn:Ets; try discriminate (eq_trans (eq_sym Ets) eq_refl).
  destruct (nearest_fragment_wins context_new 4 4 demo_pipeline demo_vertices [0; 1; 2; 3; 4; 5] ts t) as (t' & E & _ & Hp).
  - unfold target_ok. lia.
  - unfold good. done.
  - reflexivity.
  - exact Ets.
  - exists t'. split; [exact E|]. vm_compute in Ets. injection Ets as <-.
    destruct (Hp 0 1 7 F_MAX) as (c & d & Hc & Hd & Hcd & _); [unfold pixel_ok; cbn; lia|reflexivity|reflexivity|].
    destruct (Hp 3 0 7 F_MAX) as (c' & d' & Hc' & Hd' & Hcd' & _); [unfold pixel_ok; cbn; lia|reflexivity|reflexivity|].
    vm_compute in Hcd, Hcd'. injection Hcd as -> ->. injection Hcd' as -> ->. split_and!; [exact Hc|exact Hd|exact Hc'|exact Hd'].
Defined.
