(* ===== verification/RasterRect.v ===== *)
(** * Rectangles on whole pixels

    [draw_rect_2d] splits a rectangle into two triangles and tests the centre of every pixel
    against three edges in binary32.  With whole coordinates up to 2000 nothing is rounded
    before the last product, and the two triangles together are the rectangle. *)

From Stdlib Require Import ZArith Lia SpecFloat.
From stdpp Require Import base tactics sets list option numbers.
From S2P Require Import Prelude F32 Surface Shading Raster RasterSpec.

Open Scope rust_scope.

Definition LIMIT : Z := 2000.

Lemma rep_half : rep 1 1 half.
Proof. by vm_compute. Qed.

Lemma rep_one : rep 0 1 f1.
Proof. by apply rep_of_int. Qed.

Lemma rep_f0 k : rep k 0 f0.
Proof. done. Qed.

(** Twice the coordinate of the centre of a pixel. *)
Lemma rep_centre n : 0 <= n <= LIMIT -> rep 1 (2 * n + 1) (of_int n + half)%f32.
Proof.
  unfold LIMIT. intros Hn. apply rep_add; [|exact rep_half|unfold small; lia|lia].
  rewrite (Z.mul_comm 2). apply (rep_scale 0 n 1); [lia|]. apply rep_of_int. unfold small. lia.
Qed.

(** The edge from (x, y) to (x', y') at a pixel, twice. *)
Definition edge_at (x y x' y' sx sy : Z) : Z := (y' - y) * (2 * (sx - x) + 1) - (x' - x) * (2 * (sy - y) + 1).

(** What keeps the edge exact: whole corners and a pixel no further than an edge is long. *)
Record edge_small (x y x' y' sx sy : Z) : Prop := {
  es_corner : - LIMIT <= x <= LIMIT /\ - LIMIT <= y <= LIMIT;
  es_length : - LIMIT <= x' - x <= LIMIT /\ - LIMIT <= y' - y <= LIMIT;
  es_pixel : 0 <= sx <= LIMIT /\ 0 <= sy <= LIMIT;
  es_near : - LIMIT - 1 <= sx - x <= LIMIT /\ - LIMIT - 1 <= sy - y <= LIMIT;
}.

Lemma small_product a b c d : - c <= a <= c -> - d <= b <= d -> 0 <= c -> 0 <= d -> - (c * d) <= a * b <= c * d.
Proof. nia. Qed.

Lemma edge_exact x y x' y' sx sy fx fy fx' fy' : edge_small x y x' y' sx sy ->
  rep 0 x fx -> rep 0 y fy -> rep 0 x' fx' -> rep 0 y' fy' ->
  let dx := (fx' - fx)%f32 in let dy := (fy' - fy)%f32 in
  rep 1 (edge_at x y x' y' sx sy) (dy * (of_int sx + half) - dx * (of_int sy + half) + edge_const dx dy fx fy)%f32 /\
  small (edge_at x y x' y' sx sy).
Proof.
  intros [[Hx Hy] [Hdx Hdy] [Hsx Hsy] [Hnx Hny]] Rx Ry Rx' Ry' dx dy. unfold LIMIT in *.
  set (dX := x' - x) in *. set (dY := y' - y) in *. unfold edge_at. fold dX dY.
  assert (Rdx : rep 0 dX dx) by (apply rep_sub; [done|done|unfold small; lia|lia]).
  assert (Rdy : rep 0 dY dy) by (apply rep_sub; [done|done|unfold small; lia|lia]).
  pose proof (small_product dY (2 * sx + 1) 2000 4001 ltac:(lia) ltac:(lia) ltac:(lia) ltac:(lia)) as B1.
  pose proof (small_product dX (2 * sy + 1) 2000 4001 ltac:(lia) ltac:(lia) ltac:(lia) ltac:(lia)) as B2.
  pose proof (small_product dX y 2000 2000 ltac:(lia) ltac:(lia) ltac:(lia) ltac:(lia)) as B3.
  pose proof (small_product dY x 2000 2000 ltac:(lia) ltac:(lia) ltac:(lia) ltac:(lia)) as B4.
  pose proof (small_product dY (2 * (sx - x) + 1) 2000 4003 ltac:(lia) ltac:(lia) ltac:(lia) ltac:(lia)) as B5.
  pose proof (small_product dX (2 * (sy - y) + 1) 2000 4003 ltac:(lia) ltac:(lia) ltac:(lia) ltac:(lia)) as B6.
  assert (R1 : rep 1 (dY * (2 * sx + 1)) (dy * (of_int sx + half))%f32)
    by (apply (rep_mul 0 1); [done|by apply rep_centre|unfold small; lia|lia]).
  assert (R2 : rep 1 (dX * (2 * sy + 1)) (dx * (of_int sy + half))%f32)
    by (apply (rep_mul 0 1); [done|by apply rep_centre|unfold small; lia|lia]).
  assert (R3 : rep 0 (dX * y) (dx * fy)%f32) by (apply (rep_mul 0 0); [done|done|unfold small; lia|lia]).
  assert (R4 : rep 0 (dY * x) (dy * fx)%f32) by (apply (rep_mul 0 0); [done|done|unfold small; lia|lia]).
  assert (R5 : rep 1 ((dX * y - dY * x) * 2) (edge_const dx dy fx fy)).
  { apply (rep_scale 0 _ 1); [lia|]. apply rep_sub; [done|done|unfold small; lia|lia]. }
  split; [|unfold small; lia].
  replace (dY * (2 * (sx - x) + 1) - dX * (2 * (sy - y) + 1)) with (dY * (2 * sx + 1) - dX * (2 * sy + 1) + (dX * y - dY * x) * 2) by ring.
  assert (R6 : rep 1 (dY * (2 * sx + 1) - dX * (2 * sy + 1)) (dy * (of_int sx + half) - dx * (of_int sy + half))%f32)
    by (apply rep_sub; [done|done|unfold small; lia|lia]).
  apply rep_add; [done|done| |lia].
  replace (dY * (2 * sx + 1) - dX * (2 * sy + 1) + (dX * y - dY * x) * 2) with (dY * (2 * (sx - x) + 1) - dX * (2 * (sy - y) + 1)) by ring.
  unfold small. lia.
Qed.

(** A triangle with whole corners covers the centres on the inner side of its edges. *)
Lemma covered_exact (t : Corners) x0 y0 x1 y1 x2 y2 sx sy :
  rep 0 x0 (cx0 t) -> rep 0 y0 (cy0 t) -> rep 0 x1 (cx1 t) -> rep 0 y1 (cy1 t) -> rep 0 x2 (cx2 t) -> rep 0 y2 (cy2 t) ->
  edge_small x0 y0 x1 y1 sx sy -> edge_small x1 y1 x2 y2 sx sy -> edge_small x2 y2 x0 y0 sx sy ->
  let area := (x2 - x0) * (y1 - y0) - (y2 - y0) * (x1 - x0) in
  area <> 0 ->
  rep 0 area (area_of t) /\
  covered t sx sy = (0 <=? edge_at x1 y1 x2 y2 sx sy * area) && (0 <=? edge_at x2 y2 x0 y0 sx sy * area) && (0 <=? edge_at x0 y0 x1 y1 sx sy * area).
Proof.
  intros R0x R0y R1x R1y R2x R2y S01 S12 S20 area Harea.
  destruct (edge_exact _ _ _ _ sx sy _ _ _ _ S12 R1x R1y R2x R2y) as [Ra Sa], (edge_exact _ _ _ _ sx sy _ _ _ _ S20 R2x R2y R0x R0y) as [Rb Sb],
    (edge_exact _ _ _ _ sx sy _ _ _ _ S01 R0x R0y R1x R1y) as [Rg Sg].
  destruct S01 as [[? ?] [? ?] _ _], S20 as [_ [? ?] _ _]. unfold LIMIT in *.
  pose proof (small_product (x2 - x0) (y1 - y0) 2000 2000 ltac:(lia) ltac:(lia) ltac:(lia) ltac:(lia)) as B1.
  pose proof (small_product (y2 - y0) (x1 - x0) 2000 2000 ltac:(lia) ltac:(lia) ltac:(lia) ltac:(lia)) as B2.
  assert (Rarea : rep 0 area (area_of t)).
  { unfold area_of, edge_function_scalar. apply rep_sub; [| |unfold small, area; lia|lia]; apply (rep_mul 0 0); try lia; try (unfold small; lia);
      (apply rep_sub; [done|done|unfold small; lia|lia]). }
  assert (Sarea : small area) by (unfold small, area; lia).
  split; [done|]. unfold covered, alpha_at, beta_at, gamma_at, weight_of, weight. change f1 with one. change f0 with (S754_zero false).
  rewrite (scaled_sign 1 _ area _ _ Ra Rarea), (scaled_sign 1 _ area _ _ Rb Rarea), (scaled_sign 1 _ area _ _ Rg Rarea) by (done || lia). done.
Qed.

(** ** The box of a triangle with whole corners *)

Definition whole_box (x0 x1 x2 w sx : Z) : bool :=
  (even_floor (Z.max 0 (Z.min (Z.min x0 x1) x2)) <=? sx) && (sx <=? Z.max 0 (Z.min (Z.max (Z.max x0 x1) x2) (w - 1))).

Lemma bound_low x0 x1 x2 f0' f1' f2' : rep 0 x0 f0' -> rep 0 x1 f1' -> rep 0 x2 f2' ->
  - 2 * LIMIT <= x0 <= 2 * LIMIT -> - 2 * LIMIT <= x1 <= 2 * LIMIT -> - 2 * LIMIT <= x2 <= 2 * LIMIT ->
  to_u32 (fmax (fmin (fmin f0' f1') f2') f0) = Z.max 0 (Z.min (Z.min x0 x1) x2).
Proof.
  unfold LIMIT. intros R0 R1 R2 H0 H1 H2. unfold to_u32.
  rewrite (rep_to_uint 32 0 (Z.max (Z.min (Z.min x0 x1) x2) 0)); [|done|done|by repeat first [apply rep_max|apply rep_min]].
  change (2 ^ 0) with 1. rewrite Z.div_1_r. lia.
Qed.

Lemma bound_high x0 x1 x2 f0' f1' f2' w : rep 0 x0 f0' -> rep 0 x1 f1' -> rep 0 x2 f2' -> 1 <= w <= LIMIT ->
  - 2 * LIMIT <= x0 <= 2 * LIMIT -> - 2 * LIMIT <= x1 <= 2 * LIMIT -> - 2 * LIMIT <= x2 <= 2 * LIMIT ->
  to_u32 (fmin (fmax (fmax f0' f1') f2') (of_int w - f1)%f32) = Z.max 0 (Z.min (Z.max (Z.max x0 x1) x2) (w - 1)).
Proof.
  unfold LIMIT. intros R0 R1 R2 Hw H0 H1 H2.
  assert (Rw : rep 0 (w - 1) (of_int w - f1)%f32).
  { apply rep_sub; [apply rep_of_int; unfold small; lia|exact rep_one|unfold small; lia|lia]. }
  unfold to_u32. rewrite (rep_to_uint 32 0 (Z.min (Z.max (Z.max x0 x1) x2) (w - 1))); [|done|done|by repeat first [apply rep_max|apply rep_min]].
  change (2 ^ 0) with 1. rewrite Z.div_1_r. lia.
Qed.

(** A triangle with whole corners, in integers. *)
Record Whole (t : Corners) (x0 y0 x1 y1 x2 y2 : Z) : Prop := {
  wh_0 : rep 0 x0 (cx0 t) /\ rep 0 y0 (cy0 t);
  wh_1 : rep 0 x1 (cx1 t) /\ rep 0 y1 (cy1 t);
  wh_2 : rep 0 x2 (cx2 t) /\ rep 0 y2 (cy2 t);
  wh_in : Forall (fun z => - LIMIT <= z <= LIMIT) [x0; y0; x1; y1; x2; y2];
  wh_long : Forall (fun z => - LIMIT <= z <= LIMIT) [x1 - x0; y1 - y0; x2 - x1; y2 - y1; x0 - x2; y0 - y2];
}.

Definition whole_area (x0 y0 x1 y1 x2 y2 : Z) : Z := (x2 - x0) * (y1 - y0) - (y2 - y0) * (x1 - x0).

Lemma area_large n x : rep 0 n x -> n <> 0 -> flt (fabs x) MIN_TRIANGLE_AREA = false.
Proof.
  intros Hx%rep_abs Hn. apply not_true_is_false. intros Hlt.
  assert (Hm : flt (fabs x) f1 = true) by (apply flt_fle_trans with MIN_TRIANGLE_AREA; [done|by vm_compute]).
  rewrite (rep_flt 0 (Z.abs n) 1) in Hm by (done || exact rep_one). lia.
Qed.

(** A pixel of the box is near every corner. *)
Lemma box_near x0 x1 x2 w sx : Forall (fun z => - LIMIT <= z <= LIMIT) [x0; x1; x2] ->
  Forall (fun z => - LIMIT <= z <= LIMIT) [x1 - x0; x2 - x1; x0 - x2] -> whole_box x0 x1 x2 w sx = true ->
  Forall (fun x => - LIMIT - 1 <= sx - x <= LIMIT) [x0; x1; x2].
Proof.
  unfold whole_box, LIMIT. rewrite andb_true_iff, !Z.leb_le, even_floor_ok. intros Hin Hlong [Hlo Hhi].
  rewrite !list.Forall_cons in *. destruct Hin as (? & ? & ? & _), Hlong as (? & ? & ? & _).
  pose proof (Z.mod_pos_bound (Z.max 0 (Z.min (Z.min x0 x1) x2)) 2). split_and!; try lia; done.
Qed.

Lemma drawn_exact t x0 y0 x1 y1 x2 y2 w h sx sy : Whole t x0 y0 x1 y1 x2 y2 ->
  let area := whole_area x0 y0 x1 y1 x2 y2 in
  area <> 0 -> 1 <= w <= LIMIT -> 1 <= h <= LIMIT -> pixel_ok w h (sx, sy) ->
  drawn t w h sx sy = (whole_box x0 x1 x2 w sx && whole_box y0 y1 y2 h sy) &&
    ((0 <=? edge_at x1 y1 x2 y2 sx sy * area) && (0 <=? edge_at x2 y2 x0 y0 sx sy * area) && (0 <=? edge_at x0 y0 x1 y1 sx sy * area)).
Proof.
  intros [[R0x R0y] [R1x R1y] [R2x R2y] Hin Hlong] area Harea Hw Hh Hp.
  assert (Hin' := Hin). assert (Hlong' := Hlong). rewrite !list.Forall_cons in Hin', Hlong'.
  destruct Hin' as (? & ? & ? & ? & ? & ? & _), Hlong' as (? & ? & ? & ? & ? & ? & _). unfold pixel_ok in Hp. cbn [fst snd] in Hp.
  assert (Hbox : in_box (box_of t w h) sx sy = whole_box x0 x1 x2 w sx && whole_box y0 y1 y2 h sy).
  { unfold in_box, box_of, bounds_of, whole_box. cbn [min_x max_x min_y max_y].
    rewrite (bound_low x0 x1 x2), (bound_low y0 y1 y2), (bound_high x0 x1 x2), (bound_high y0 y1 y2) by (done || unfold LIMIT in *; lia).
    by rewrite !andb_assoc. }
  unfold drawn. rewrite Hbox. destruct (whole_box x0 x1 x2 w sx) eqn:Ex; cbn [andb]; [|by rewrite andb_false_r].
  destruct (whole_box y0 y1 y2 h sy) eqn:Ey; cbn [andb]; [|by rewrite andb_false_r].
  apply box_near in Ex; [|by rewrite !list.Forall_cons..]. apply box_near in Ey; [|by rewrite !list.Forall_cons..].
  rewrite !list.Forall_cons in Ex, Ey. destruct Ex as (? & ? & ? & _), Ey as (? & ? & ? & _).
  destruct (covered_exact t x0 y0 x1 y1 x2 y2 sx sy) as [Ra Hc]; try done; try (constructor; unfold LIMIT in *; lia).
  by rewrite (area_large area), Hc by done.
Qed.

(** ** The two halves of a rectangle *)

Lemma against_area e W H : 0 < W -> 0 < H -> (0 <=? e * - (W * H)) = (e <=? 0).
Proof.
  intros HW HH. assert (0 < W * H) by nia. destruct (Z.leb_spec e 0); [apply Z.leb_le|apply Z.leb_gt]; nia.
Qed.

Definition in_rect (X Y W H sx sy : Z) : bool := (X <=? sx) && (sx <? X + W) && (Y <=? sy) && (sy <? Y + H).

Definition first_half (X Y W H sx sy : Z) : bool :=
  (sx <? X + W) && (sy <? Y + H) && (2 * W * H <=? H * (2 * (sx - X) + 1) + W * (2 * (sy - Y) + 1)).
Definition second_half (X Y W H sx sy : Z) : bool :=
  (Y <=? sy) && (H * (2 * (sx - X) + 1) + W * (2 * (sy - Y) + 1) <=? 2 * W * H) && (X <=? sx).

Lemma first_half_edges X Y W H sx sy : 0 < W -> 0 < H ->
  (edge_at (X + W) Y (X + W) (Y + H) sx sy <=? 0) && (edge_at (X + W) (Y + H) X (Y + H) sx sy <=? 0) &&
    (edge_at X (Y + H) (X + W) Y sx sy <=? 0) = first_half X Y W H sx sy.
Proof.
  intros HW HH. unfold first_half, edge_at. f_equal; [f_equal|].
  - replace ((Y + H - Y) * (2 * (sx - (X + W)) + 1) - (X + W - (X + W)) * (2 * (sy - Y) + 1)) with (H * (2 * (sx - (X + W)) + 1)) by ring.
    destruct (Z.ltb_spec sx (X + W)); [apply Z.leb_le|apply Z.leb_gt]; nia.
  - replace ((Y + H - (Y + H)) * (2 * (sx - (X + W)) + 1) - (X - (X + W)) * (2 * (sy - (Y + H)) + 1)) with (W * (2 * (sy - (Y + H)) + 1)) by ring.
    destruct (Z.ltb_spec sy (Y + H)); [apply Z.leb_le|apply Z.leb_gt]; nia.
  - destruct (Z.leb_spec (2 * W * H) (H * (2 * (sx - X) + 1) + W * (2 * (sy - Y) + 1))); [apply Z.leb_le|apply Z.leb_gt]; lia.
Qed.

Lemma second_half_edges X Y W H sx sy : 0 < W -> 0 < H ->
  (edge_at X Y (X + W) Y sx sy <=? 0) && (edge_at (X + W) Y X (Y + H) sx sy <=? 0) &&
    (edge_at X (Y + H) X Y sx sy <=? 0) = second_half X Y W H sx sy.
Proof.
  intros HW HH. unfold second_half, edge_at. f_equal; [f_equal|].
  - replace ((Y - Y) * (2 * (sx - X) + 1) - (X + W - X) * (2 * (sy - Y) + 1)) with (W * (2 * (Y - sy) - 1)) by ring.
    destruct (Z.leb_spec Y sy); [apply Z.leb_le|apply Z.leb_gt]; nia.
  - destruct (Z.leb_spec (H * (2 * (sx - X) + 1) + W * (2 * (sy - Y) + 1)) (2 * W * H)); [apply Z.leb_le|apply Z.leb_gt]; lia.
  - replace ((Y - (Y + H)) * (2 * (sx - X) + 1) - (X - X) * (2 * (sy - (Y + H)) + 1)) with (H * (2 * (X - sx) - 1)) by ring.
    destruct (Z.leb_spec X sx); [apply Z.leb_le|apply Z.leb_gt]; nia.
Qed.

(** The diagonal goes to both halves, and nothing is left between them. *)
Lemma halves_make_rect X Y W H sx sy : 0 < W -> 0 < H ->
  first_half X Y W H sx sy || second_half X Y W H sx sy = in_rect X Y W H sx sy.
Proof.
  intros HW HH. apply eq_true_iff_eq. unfold first_half, second_half, in_rect. rewrite orb_true_iff, !andb_true_iff, !Z.leb_le, !Z.ltb_lt.
  set (p := sx - X). set (q := sy - Y). replace sx with (X + p) by lia. replace sy with (Y + q) by lia. split.
  - intros [[[Hp Hq] Hs]|[[Hq Hs] Hp]]; split_and!; try lia; nia.
  - intros [[[? ?] ?] ?]. destruct (Z.le_ge_cases (2 * W * H) (H * (2 * p + 1) + W * (2 * q + 1))); [left|right]; split_and!; lia.
Qed.

Lemma rect_in_box x0 x1 x2 X W w sx : Z.min (Z.min x0 x1) x2 = X -> Z.max (Z.max x0 x1) x2 = X + W ->
  0 <= sx < w -> X <= sx < X + W -> whole_box x0 x1 x2 w sx = true.
Proof.
  intros Hmin Hmax Hw Hsx. unfold whole_box. rewrite Hmin, Hmax, andb_true_iff, !Z.leb_le, even_floor_ok.
  pose proof (Z.mod_pos_bound (Z.max 0 X) 2). lia.
Qed.

(** ** A rectangle *)

(** A rectangle of whole coordinates, on the screen or beyond its edges. *)
Record RectOk (X Y W H : Z) : Prop := {
  ro_size : 0 < W <= LIMIT /\ 0 < H <= LIMIT;
  ro_low : - LIMIT <= X /\ - LIMIT <= Y;
  ro_high : X + W <= LIMIT /\ Y + H <= LIMIT;
}.

Definition rect_half (first : bool) (X Y W H : Z) : Corners :=
  let x := of_int X in let y := of_int Y in let right := (of_int X + of_int W)%f32 in let top := (of_int Y + of_int H)%f32 in
  if first then mkCorners x top right y right top else mkCorners x top x y right y.

Lemma rect_reps X Y W H : RectOk X Y W H ->
  rep 0 X (of_int X) /\ rep 0 Y (of_int Y) /\ rep 0 (X + W) (of_int X + of_int W)%f32 /\ rep 0 (Y + H) (of_int Y + of_int H)%f32.
Proof.
  unfold LIMIT. intros [[? ?] [? ?] [? ?]]; unfold LIMIT in *.
  split_and!; try (apply rep_of_int; unfold small; lia); apply rep_add; try (apply rep_of_int); unfold small; lia.
Qed.

Lemma half_drawn first X Y W H w h sx sy : RectOk X Y W H -> 1 <= w <= LIMIT -> 1 <= h <= LIMIT -> pixel_ok w h (sx, sy) ->
  exists box, drawn (rect_half first X Y W H) w h sx sy = box && (if first then first_half X Y W H sx sy else second_half X Y W H sx sy) /\
    (in_rect X Y W H sx sy = true -> box = true).
Proof.
  intros Hr Hw Hh Hp. destruct (rect_reps _ _ _ _ Hr) as (RX & RY & RXW & RYH). assert (Hp' := Hp). unfold pixel_ok in Hp'. cbn [fst snd] in Hp'.
  destruct Hr as [[? ?] [? ?] [? ?]]. unfold LIMIT in *. destruct first.
  - exists (whole_box X (X + W) (X + W) w sx && whole_box (Y + H) Y (Y + H) h sy). split.
    + rewrite (drawn_exact _ X (Y + H) (X + W) Y (X + W) (Y + H)); try done; [|split; [done..| |]; repeat constructor; unfold LIMIT; lia|unfold whole_area; nia].
      unfold whole_area. replace ((X + W - X) * (Y - (Y + H)) - (Y + H - (Y + H)) * (X + W - X)) with (- (W * H)) by ring.
      rewrite !against_area by lia. by rewrite first_half_edges by lia.
    + unfold in_rect. rewrite !andb_true_iff, !Z.leb_le, !Z.ltb_lt. intros [[[? ?] ?] ?]. rewrite (rect_in_box _ _ _ X W), (rect_in_box _ _ _ Y H); (done || lia).
  - exists (whole_box X X (X + W) w sx && whole_box (Y + H) Y Y h sy). split.
    + rewrite (drawn_exact _ X (Y + H) X Y (X + W) Y); try done; [|split; [done..| |]; repeat constructor; unfold LIMIT; lia|unfold whole_area; nia].
      unfold whole_area. replace ((X + W - X) * (Y - (Y + H)) - (Y - (Y + H)) * (X - X)) with (- (W * H)) by ring.
      rewrite !against_area by lia. by rewrite second_half_edges by lia.
    + unfold in_rect. rewrite !andb_true_iff, !Z.leb_le, !Z.ltb_lt. intros [[[? ?] ?] ?]. rewrite (rect_in_box _ _ _ X W), (rect_in_box _ _ _ Y H); (done || lia).
Qed.

Lemma halves_drawn X Y W H w h sx sy : RectOk X Y W H -> 1 <= w <= LIMIT -> 1 <= h <= LIMIT -> pixel_ok w h (sx, sy) ->
  drawn (rect_half true X Y W H) w h sx sy || drawn (rect_half false X Y W H) w h sx sy = in_rect X Y W H sx sy.
Proof.
  intros Hr Hw Hh Hp. destruct (half_drawn true _ _ _ _ w h sx sy Hr Hw Hh Hp) as (b1 & -> & H1), (half_drawn false _ _ _ _ w h sx sy Hr Hw Hh Hp) as (b2 & -> & H2).
  destruct Hr as [[? ?] _ _]. rewrite <- (halves_make_rect X Y W H sx sy) in * by lia.
  destruct (first_half _ _ _ _ _ _), (second_half _ _ _ _ _ _); cbn [orb] in *; rewrite ?andb_false_r; try done; rewrite ?H1, ?H2 by done; done.
Qed.


