(* ===== verification/UserGfx.v ===== *)
(** * UserGfx: the surface and the renderer of programs, user/rustspace/src/gfx/

    A program draws into the two buffers of its window that the kernel maps for it.  Its
    renderer repeats the one of the kernel in its own words; the colours, pipeline types,
    matrices and shaders it works with are line for line those of Shading.v. *)

From Stdlib Require Import ZArith Lia SpecFloat.
From stdpp Require Import base tactics sets list option numbers.
From S2P Require Import Prelude Surface F32 Shading Raster RasterSpec RasterRect.

Open Scope rust_scope.

Definition MIN_TRIANGLE_AREA : f32 := of_ratio 1 10000.
Definition IS_2D_Y_FLIPPED : bool := true.

(** ** The surface (surface.rs) *)

(** The words behind the two pointers. *)
Record UserSurface : Type := mkSurface {
  s_pixels : Words;
  s_pixels_second : Words;
  s_width : Z;
  s_height : Z;
}.

Definition surface_new (pixels pixels_second : Words) (width height : Z) : UserSurface := mkSurface pixels pixels_second width height.

Definition swap (s : UserSurface) : UserSurface := mkSurface (s_pixels_second s) (s_pixels s) (s_width s) (s_height s).

Definition on_words {A} (c : stM Words Fault A) : stM UserSurface Fault A := fun s =>
  let '(res, px) := c (s_pixels s) in (res, mkSurface px (s_pixels_second s) (s_width s) (s_height s)).

Definition surface_offset (s : UserSurface) (x y : Z) : result Fault Z := let? row := u32 (y * s_width s) in u32 (row + x).

Definition write_pixel_unchecked (x y : Z) (color : Rgba8888UNORM) : stM UserSurface Fault unit := fun s =>
  (let! offset := slift (surface_offset s x y) in on_words (store_word offset (rgba_to_xrgb color))) s.

Definition write_pixel (x y : Z) (color : Rgba8888UNORM) : stM UserSurface Fault unit := fun s =>
  if (x <? s_width s) && (y <? s_height s) then
    (let! offset := slift (surface_offset s x y) in on_words (store_word offset (rgba_to_xrgb color))) s
  else (Ok tt, s).

(** Four pixels at a time and the rest one by one, through the pointer; the index is a u32. *)
Fixpoint clear_quads (fuel : nat) (len color_u32 i : Z) : stM Words Fault Z :=
  match fuel with
  | O => fun words => (OutOfFuel, words)
  | S fuel =>
      let! next := slift (u32 (i + 4)) in
      if next <=? len then
        for_in (fun k => store_word (i + k) color_u32) [0; 1; 2; 3] ;;; clear_quads fuel len color_u32 next
      else sret i
  end.

Definition surface_clear (color : Rgba8888UNORM) : stM UserSurface Fault unit := fun s =>
  (let! len := slift (u32 (s_width s * s_height s)) in
   let color_u32 := rgba_to_xrgb color in
   on_words (
     let! i := clear_quads (S (Z.to_nat len)) len color_u32 0 in
     for_in (fun j => store_word j color_u32) (seqZ i (len - i)))) s.

(** [as_slice_mut], and what is done with the slice. *)
Definition with_slice {A} (draw : stM Words Fault A) : stM UserSurface Fault A := fun s =>
  match u32 (E := Fault) (s_width s * s_height s) with
  | Ok n =>
      if n <=? zlen (s_pixels s) then
        on_words (fun px => let '(res, slice) := draw (take (Z.to_nat n) px) in (res, slice ++ drop (Z.to_nat n) px)) s
      else (Err BadAccess, s)
  | _ => (Panic, s)
  end.

(** [DrawTarget::draw_iter]: pixels with their signed coordinates. *)
Definition draw_iter (pixels : list (Z * Z * (Z * Z * Z))) : stM UserSurface Fault unit :=
  for_in (fun p => let '(x, y, color) := p in
    if (0 <=? x) && (0 <=? y) then write_pixel x y (from_rgb_emb color) else sret tt) pixels.

Definition size (s : UserSurface) : Z * Z := (s_width s, s_height s).

(** The render target is the surface and its size. *)
Record RenderTarget : Type := mkTarget {
  rt_width : Z;
  rt_height : Z;
  surface : UserSurface;
}.

Definition target_new (s : UserSurface) : RenderTarget := mkTarget (s_width s) (s_height s) s.

Definition on_surface {A} (c : stM UserSurface Fault A) : stM RenderTarget Fault A := fun t =>
  let '(res, s) := c (surface t) in (res, mkTarget (rt_width t) (rt_height t) s).

Definition target_clear (color : Rgba8888UNORM) : stM RenderTarget Fault unit := on_surface (surface_clear color).

(** [rt_width], [rt_height] and [get_buffer_mut] of a target. *)
Definition draw_on {A} (draw : Z -> Z -> stM Words Fault A) : stM RenderTarget Fault A := fun t =>
  on_surface (with_slice (draw (rt_width t) (rt_height t))) t.

(** ** The context (renderer.rs) *)

Record RenderContext : Type := mkContext {
  textures : list Texture;
  constant_buffers : list ConstantBuffer;
}.

Definition context_new : RenderContext := mkContext [] [].

Definition bind_texture (texture : Texture) (c : RenderContext) : Z * RenderContext :=
  (zlen (textures c), mkContext (textures c ++ [texture]) (constant_buffers c)).

Definition bind_cbuffer (cbuf : ConstantBuffer) (c : RenderContext) : Z * RenderContext :=
  (zlen (constant_buffers c), mkContext (textures c) (constant_buffers c ++ [cbuf])).

Definition begin_frame (s : UserSurface) : RenderTarget := target_new s.

(** Every slot of the slice. *)
Definition fill (color_u32 : Z) : stM Words Fault unit := fun buffer =>
  for_in (fun i => store_word i color_u32) (seqZ 0 (zlen buffer)) buffer.

Definition context_clear (color : Rgba8888UNORM) : stM RenderTarget Fault unit :=
  draw_on (fun _ _ => fill (rgba_to_xrgb color)).

Definition edge_function_scalar (ax ay bx by_ px py : f32) : f32 :=
  ((px - ax) * (by_ - ay) - (py - ay) * (bx - ax))%f32.

Definition edge_fn (dx dy px py c : f32x4) : f32x4 := (dy * px - dx * py + c)%x4.
Definition edge_fn_flip (dx dy px py c : f32x4) : f32x4 := (dx * py - dy * px - c)%x4.
Definition interpolate_bary (a0 a1 a2 w0 w1 w2 : f32x4) : f32x4 := ((w0 * a0) + (w1 * a1) + (w2 * a2))%x4.

Definition edges_of (x0 y0 x1 y1 x2 y2 : f32x4) : Edges :=
  let e0_dx := (x1 - x0)%x4 in let e0_dy := (y1 - y0)%x4 in
  let e1_dx := (x2 - x1)%x4 in let e1_dy := (y2 - y1)%x4 in
  let e2_dx := (x0 - x2)%x4 in let e2_dy := (y0 - y2)%x4 in
  mkEdges e0_dx e0_dy (e0_dx * y0 - e0_dy * x0)%x4 e1_dx e1_dy (e1_dx * y1 - e1_dy * x1)%x4
    e2_dx e2_dy (e2_dx * y2 - e2_dy * x2)%x4.

Definition bounds_of (x0 y0 x1 y1 x2 y2 : f32) (rt_width rt_height : Z) : Bounds :=
  mkBounds (to_u32 (fmax (fmin (fmin x0 x1) x2) f0)) (to_u32 (fmin (fmax (fmax x0 x1) x2) (of_int rt_width - f1)%f32))
    (to_u32 (fmax (fmin (fmin y0 y1) y2) f0)) (to_u32 (fmin (fmax (fmax y0 y1) y2) (of_int rt_height - f1)%f32)).

Definition inside (a b c : f32x4) (i : nat) : bool :=
  let eps := splat f0 in vge a eps i && vge b eps i && vge c eps i.

Definition clip_to_screen (v : VSOut3D.t) (rt_width rt_height : Z) : f32 * f32 * f32 :=
  let w := VSOut3D.w v in
  let inv_w := if fgt (fabs w) F_EPSILON then (f1 / w)%f32 else f1 in
  let ndc_x := (VSOut3D.x v * inv_w)%f32 in
  let ndc_y := (VSOut3D.y v * inv_w)%f32 in
  let ndc_z := (VSOut3D.z v * inv_w)%f32 in
  let screen_x := ((ndc_x + f1) * half * of_int rt_width)%f32 in
  let screen_y := ((f1 - ndc_y) * half * of_int rt_height)%f32 in
  (screen_x, screen_y, ndc_z).

Definition is_back (m : CullMode) : bool := match m with CullBack => true | _ => false end.
Definition is_front (m : CullMode) : bool := match m with CullFront => true | _ => false end.

Section render.
Context {VS PS : Type} `{PixelShader PS}.
Variable self : RenderContext.

Definition run_pixel (shader : PS) (attributes extra : f32x4) (sx sy idx : Z) : stM Words Fault unit :=
  let! old := (fun rt => (load_word rt idx, rt)) in
  store_word idx (run_ps shader (mkPSIn attributes extra (wrap 16 sx) (wrap 16 sy) (textures self) (constant_buffers self)) old).

Definition pixel_index (rt_width x y : Z) : result Fault Z :=
  let? row := u32 (y * rt_width) in u32 (row + x).

Definition quad_3d (z0 z1 z2 w0_clip w1_clip w2_clip : f32) (e : Edges) (inv_area : f32x4) (bo : Bounds) (rt_width : Z) (shader : PS) (x y : Z)
    : stM Target3D Fault unit :=
  let px := quad_px x in
  let py := quad_py y in
  let w0 := edge_fn (e1_dx e) (e1_dy e) px py (e1_const e) in
  let w1 := edge_fn (e2_dx e) (e2_dy e) px py (e2_const e) in
  let w2 := edge_fn (e0_dx e) (e0_dy e) px py (e0_const e) in
  let alpha := (w0 * inv_area)%x4 in
  let beta := (w1 * inv_area)%x4 in
  let gamma := (w2 * inv_area)%x4 in
  let mask := inside alpha beta gamma in
  if mask_is_zero mask then sret tt else
  let a := (alpha * splat (f1 / w0_clip)%f32)%x4 in
  let b := (beta * splat (f1 / w1_clip)%f32)%x4 in
  let g := (gamma * splat (f1 / w2_clip)%f32)%x4 in
  let inv_denom := (splat f1 / (a + b + g))%x4 in
  let z_interp := ((splat z0 * a + splat z1 * b + splat z2 * g) * inv_denom)%x4 in
  for_in (fun i =>
    if mask i then
      if (lane_x x i <=? max_x bo) && (lane_y y i <=? max_y bo) then
        let! nearer := on_depth (test_and_set (lane_x x i) (lane_y y i) (lane z_interp i)) in
        if (nearer : bool) then
          let! idx := slift (pixel_index rt_width (lane_x x i) (lane_y y i)) in
          on_pixels (run_pixel shader (splat f0) (splat f0) (lane_x x i) (lane_y y i) idx)
        else sret tt
      else sret tt
    else sret tt) quad_lanes.

Definition rasterize_triangle_3d (v0 v1 v2 : VSOut3D.t) (rt_width rt_height : Z) (pipeline : PipelineState VS PS) : stM Target3D Fault unit :=
  let '(sx0, sy0, z0) := clip_to_screen v0 rt_width rt_height in
  let '(sx1, sy1, z1) := clip_to_screen v1 rt_width rt_height in
  let '(sx2, sy2, z2) := clip_to_screen v2 rt_width rt_height in
  let edge := edge_function_scalar sx0 sy0 sx1 sy1 sx2 sy2 in
  if is_back (cull_mode pipeline) && flt edge f0 then sret tt else
  if is_front (cull_mode pipeline) && fge edge f0 then sret tt else
  let area := edge in
  if flt (fabs area) MIN_TRIANGLE_AREA then sret tt else
  let inv_area := splat (f1 / area)%f32 in
  let e := edges_of (splat sx0) (splat sy0) (splat sx1) (splat sy1) (splat sx2) (splat sy2) in
  let b := bounds_of sx0 sy0 sx1 sy1 sx2 sy2 rt_width rt_height in
  if (max_x b <? min_x b) || (max_y b <? min_y b) then sret tt else
  for_in (fun y => for_in (fun x => quad_3d z0 z1 z2 (VSOut3D.w v0) (VSOut3D.w v1) (VSOut3D.w v2) e inv_area b rt_width (ps pipeline) x y)
    (every_other (even_floor (min_x b)) (max_x b))) (every_other (even_floor (min_y b)) (max_y b)).

Definition quad_2d (v0 v1 v2 : VSOut) (e : Edges) (inv_area : f32x4) (b : Bounds) (rt_width : Z) (shader : PS) (x y : Z)
    : stM Words Fault unit :=
  let px := quad_px x in
  let py := quad_py y in
  let '(w0, w1, w2) :=
    if IS_2D_Y_FLIPPED then
      (edge_fn (e1_dx e) (e1_dy e) px py (e1_const e), edge_fn (e2_dx e) (e2_dy e) px py (e2_const e),
       edge_fn (e0_dx e) (e0_dy e) px py (e0_const e))
    else
      (edge_fn_flip (e1_dx e) (e1_dy e) px py (e1_const e), edge_fn_flip (e2_dx e) (e2_dy e) px py (e2_const e),
       edge_fn_flip (e0_dx e) (e0_dy e) px py (e0_const e)) in
  let bw0 := (w0 * inv_area)%x4 in
  let bw1 := (w1 * inv_area)%x4 in
  let bw2 := (w2 * inv_area)%x4 in
  let mask := inside bw0 bw1 bw2 in
  if mask_is_zero mask then sret tt else
  let interp := interpolate_bary (attributes v0) (attributes v1) (attributes v2) bw0 bw1 bw2 in
  let interp := if IS_2D_Y_FLIPPED then mk4 (lane0 interp) (f1 - lane1 interp)%f32 (lane2 interp) (lane3 interp) else interp in
  for_in (fun i =>
    if mask i then
      if (lane_x x i <=? max_x b) && (lane_y y i <=? max_y b) then
        let! idx := slift (pixel_index rt_width (lane_x x i) (lane_y y i)) in
        run_pixel shader interp (splat f0) (lane_x x i) (lane_y y i) idx
      else sret tt
    else sret tt) quad_lanes.

Definition rasterize_triangle_simd (v0 v1 v2 : VSOut) (pipeline : PipelineState VS PS) (rt_width rt_height : Z) : stM Words Fault unit :=
  let x0 := splat (vx v0) in
  let y0 := splat (vy v0) in
  let x1 := splat (vx v1) in
  let y1 := splat (vy v1) in
  let x2 := splat (vx v2) in
  let y2 := splat (vy v2) in
  let e := edges_of x0 y0 x1 y1 x2 y2 in
  let area := if IS_2D_Y_FLIPPED then edge_function_scalar (lane0 x0) (lane0 y0) (lane0 x1) (lane0 y1) (lane0 x2) (lane0 y2)
    else ((vx v1 - vx v0) * (vy v2 - vy v0) - (vy v1 - vy v0) * (vx v2 - vx v0))%f32 in
  if flt (fabs area) MIN_TRIANGLE_AREA then sret tt else
  let inv_area := splat (f1 / area)%f32 in
  let b := bounds_of (vx v0) (vy v0) (vx v1) (vy v1) (vx v2) (vy v2) rt_width rt_height in
  for_in (fun y => for_in (fun x => quad_2d v0 v1 v2 e inv_area b rt_width (ps pipeline) x y)
    (every_other (even_floor (min_x b)) (max_x b))) (every_other (even_floor (min_y b)) (max_y b)).

Definition rect_vertices (x y width height : f32) : VSOut * VSOut * VSOut * (VSOut * VSOut * VSOut) :=
  let at_ x y u v := from_xyuv (xyuv (vertex2d_new x y u v)) in
  if IS_2D_Y_FLIPPED then
    let fy := (y + height)%f32 in
    let fyh := y in
    (at_ x fy f0 f0, at_ (x + width)%f32 fyh f1 f1, at_ (x + width)%f32 fy f1 f0,
     (at_ x fy f0 f0, at_ x fyh f0 f1, at_ (x + width)%f32 fyh f1 f1))
  else
    (at_ x y f0 f0, at_ (x + width)%f32 (y + height)%f32 f1 f1, at_ (x + width)%f32 y f1 f0,
     (at_ x y f0 f0, at_ x (y + height)%f32 f0 f1, at_ (x + width)%f32 (y + height)%f32 f1 f1)).

Definition draw_rect_2d (x y width height : f32) (pipeline : PipelineState VS PS) : stM RenderTarget Fault unit :=
  let '(v0, v1, v2, (v3, v4, v5)) := rect_vertices x y width height in
  draw_on (fun rt_width rt_height =>
    rasterize_triangle_simd v0 v1 v2 pipeline rt_width rt_height ;;;
    rasterize_triangle_simd v3 v4 v5 pipeline rt_width rt_height).

Definition draw_triangle_2d (x0 y0 u0 v0 x1 y1 u1 v1 x2 y2 u2 v2 : f32) (pipeline : PipelineState VS PS) : stM RenderTarget Fault unit :=
  draw_on (rasterize_triangle_simd (from_xyuv (xyuv (vertex2d_new x0 y0 u0 v0))) (from_xyuv (xyuv (vertex2d_new x1 y1 u1 v1)))
    (from_xyuv (xyuv (vertex2d_new x2 y2 u2 v2))) pipeline).

Context `{VertexShader3D VS}.

Definition process_vertex_3d (vertex : Vertex3D) (pipeline : PipelineState VS PS) : result Fault VSOut3D.t :=
  let input := mkVSIn (Raster.vertex_floats vertex) 0 0 in
  let output := VSOut3D.with_attributes (splat f0) (splat f0) (splat f0) in
  run_vs3d (vs pipeline) input output (constant_buffers self).

Fixpoint draw_chunks (vertices : list Vertex3D) (indices : list Z) (rt_width rt_height : Z) (pipeline : PipelineState VS PS)
    : stM Target3D Fault unit :=
  match indices with
  | i0 :: i1 :: i2 :: rest =>
      let! v0 := slift (index_of vertices i0) in
      let! v1 := slift (index_of vertices i1) in
      let! v2 := slift (index_of vertices i2) in
      let! vs0 := slift (process_vertex_3d v0 pipeline) in
      let! vs1 := slift (process_vertex_3d v1 pipeline) in
      let! vs2 := slift (process_vertex_3d v2 pipeline) in
      (if fle (VSOut3D.w vs0) f0 && fle (VSOut3D.w vs1) f0 && fle (VSOut3D.w vs2) f0 then sret tt
       else rasterize_triangle_3d vs0 vs1 vs2 rt_width rt_height pipeline) ;;;
      draw_chunks vertices rest rt_width rt_height pipeline
  | _ => sret tt
  end.

Definition draw_indexed_3d (vertices : list Vertex3D) (indices : list Z) (depth_buffer : DepthBuffer) (pipeline : PipelineState VS PS)
    : stM RenderTarget Fault DepthBuffer :=
  sassert (bool_decide (render_mode pipeline = XYZ)) ;;;
  draw_on (fun rt_width rt_height rt_buffer =>
    let '(res, t) := draw_chunks vertices indices rt_width rt_height pipeline (mkTarget3D rt_buffer depth_buffer) in
    (match res with Ok _ => Ok (depths t) | Err e => Err e | Panic => Panic | OutOfFuel => OutOfFuel end, pixels t)).

End render.

(** ** The renderer of programs against the one of the kernel

    Both clear a target by the same picture, four pixels at a time or one by one, and draw the
    same pixels from the same calls. *)

(** ** Clearing *)

Lemma store_in i v (words : Words) : 0 <= i < zlen words -> store_word i v words = (Ok tt, <[Z.to_nat i := v]> words).
Proof. intros Hi. unfold store_word. by rewrite (proj2 (Z.leb_le _ _)), (proj2 (Z.ltb_lt _ _)) by lia. Qed.

(** The words before an index hold the colour, the others are as they were. *)
Definition filled (v : Z) (i : Z) (words : Words) : Words := replicate (Z.to_nat i) v ++ drop (Z.to_nat i) words.

Lemma filled_length v i words : 0 <= i <= zlen words -> zlen (filled v i words) = zlen words.
Proof. intros Hi. unfold filled. rewrite length_app, length_replicate, length_drop. lia. Qed.

Lemma filled_all v words : filled v (zlen words) words = replicate (length words) v.
Proof. unfold filled. rewrite Nat2Z.id, drop_all. apply app_nil_r. Qed.

Lemma store_filled v i words : 0 <= i < zlen words -> store_word i v (filled v i words) = (Ok tt, filled v (i + 1) words).
Proof.
  intros Hi. rewrite store_in by (rewrite filled_length; lia). do 2 f_equal. unfold filled.
  destruct (lookup_lt_is_Some_2 words (Z.to_nat i)) as [x Hx]; [lia|]. rewrite (drop_S _ _ _ Hx).
  rewrite insert_app_r_alt by (rewrite length_replicate; lia). rewrite length_replicate, Nat.sub_diag. cbn [list_insert insert].
  replace (Z.to_nat (i + 1)) with (S (Z.to_nat i)) by lia. rewrite replicate_S_end, <- app_assoc. done.
Qed.

Lemma seqZ_here a n : 0 < n -> seqZ a n = a :: seqZ (a + 1) (n - 1).
Proof. intros Hn. rewrite seqZ_cons by lia. by rewrite Z.add_1_r, Z.sub_1_r. Qed.

(** One by one up to the end. *)
Lemma fill_rest v (f : Z -> stM Words Fault unit) words (n : nat) : forall i,
  (forall j, i <= j < i + Z.of_nat n -> f j (filled v j words) = (Ok tt, filled v (j + 1) words)) ->
  for_in f (seqZ i (Z.of_nat n)) (filled v i words) = (Ok tt, filled v (i + Z.of_nat n) words).
Proof.
  induction n as [|n IH]; intros i Hf; [by rewrite Z.add_0_r|].
  rewrite seqZ_here by lia. cbn [for_in]. rewrite (sbind_ok _ _ _ _ _ (Hf i ltac:(lia))).
  replace (Z.of_nat (S n) - 1) with (Z.of_nat n) by lia. rewrite IH; [do 2 f_equal; lia|]. intros j Hj. apply Hf. lia.
Qed.

Lemma four_stored v i words : 0 <= i -> i + 4 <= zlen words ->
  for_in (fun k => store_word (i + k) v) [0; 1; 2; 3] (filled v i words) = (Ok tt, filled v (i + 4) words).
Proof.
  intros H0 H4. cbn [for_in]. rewrite Z.add_0_r, (sbind_ok _ _ _ _ _ (store_filled v i words ltac:(lia))).
  rewrite (sbind_ok _ _ _ _ _ (store_filled v (i + 1) words ltac:(lia))). rewrite <- !Z.add_assoc.
  rewrite (sbind_ok _ _ _ _ _ (store_filled v (i + (1 + 1)) words ltac:(lia))).
  rewrite <- !Z.add_assoc. by rewrite (sbind_ok _ _ _ _ _ (store_filled v (i + (1 + (1 + 1))) words ltac:(lia))), <- !Z.add_assoc.
Qed.

(** Four at a time, as far as four fit. *)
Lemma quads_stored v words fuel : forall i, 0 <= i <= zlen words -> (Z.to_nat (zlen words - i) < fuel)%nat ->
  exists i', i <= i' <= zlen words /\ Raster.clear_quads fuel v i (filled v i words) = (Ok i', filled v i' words).
Proof.
  induction fuel as [|fuel IH]; intros i Hi Hfuel; [lia|]. cbn [Raster.clear_quads]. rewrite filled_length by done.
  destruct (Z.leb_spec (i + 4) (zlen words)) as [H4|H4]; [|exists i; split; [lia|done]].
  rewrite (sbind_ok _ _ _ _ _ (four_stored v i words ltac:(lia) H4)).
  destruct (IH (i + 4)) as (i' & Hi' & E); [lia|lia|]. exists i'. split; [lia|done].
Qed.

Lemma user_quads_stored v words fuel : zlen words + 4 < 2 ^ 32 -> forall i, 0 <= i <= zlen words -> (Z.to_nat (zlen words - i) < fuel)%nat ->
  exists i', i <= i' <= zlen words /\ UserGfx.clear_quads fuel (zlen words) v i (filled v i words) = (Ok i', filled v i' words).
Proof.
  intros Hn. induction fuel as [|fuel IH]; intros i Hi Hfuel; [lia|]. cbn [UserGfx.clear_quads].
  assert (Eu : u32 (E := Fault) (i + 4) = Ok (i + 4)).
  { unfold u32. by rewrite (proj2 (Z.leb_le _ _)), (proj2 (Z.ltb_lt _ _)) by lia. }
  unfold sbind at 1, slift. rewrite Eu.
  destruct (Z.leb_spec (i + 4) (zlen words)) as [H4|H4]; [|exists i; split; [lia|done]].
  rewrite (sbind_ok _ _ _ _ _ (four_stored v i words ltac:(lia) H4)).
  destruct (IH (i + 4)) as (i' & Hi' & E); [lia|lia|]. exists i'. split; [lia|done].
Qed.

Lemma rest_stored v (f : Z -> stM Words Fault unit) words i : 0 <= i <= zlen words ->
  (forall j w, 0 <= j < zlen w -> zlen w = zlen words -> f j w = store_word j v w) ->
  for_in f (seqZ i (zlen words - i)) (filled v i words) = (Ok tt, replicate (length words) v).
Proof.
  intros Hi Hf. rewrite <- (Z2Nat.id (zlen words - i)) by lia.
  rewrite (fill_rest v f words); [|intros j Hj; rewrite Hf by (rewrite ?filled_length; lia); apply store_filled; lia].
  rewrite <- filled_all. do 2 f_equal. lia.
Qed.

Lemma indexed_store v j (rt w : Words) : 0 <= j < zlen w -> zlen w = zlen rt ->
  (let! _ := slift (index_of rt j) in store_word j v) w = store_word j v w.
Proof.
  intros Hj Hw. unfold slift, sbind, index_of. destruct (lookup_lt_is_Some_2 rt (Z.to_nat j)) as [x ->]; [lia|]. done.
Qed.

Lemma kernel_clear color (rt : Words) : clear_target color rt = (Ok tt, replicate (length rt) (rgba_to_xrgb color)).
Proof.
  unfold clear_target. destruct (quads_stored (rgba_to_xrgb color) rt (S (length rt)) 0) as (i & Hi & E); [lia|lia|].
  change (filled (rgba_to_xrgb color) 0 rt) with rt in E. rewrite (sbind_ok _ _ _ _ _ E). apply rest_stored; [lia|].
  intros j w Hj Hw. by apply indexed_store.
Qed.

Lemma user_fill v (rt : Words) : fill v rt = (Ok tt, replicate (length rt) v).
Proof. unfold fill. rewrite <- (Z.sub_0_r (zlen rt)). by apply (rest_stored v _ rt 0); [lia|]. Qed.

(** ** The same pixels *)

(** A surface over all of its pixels, as the kernel maps it. *)
Record SurfaceOk (s : UserSurface) : Prop := {
  so_length : zlen (s_pixels s) = s_width s * s_height s;
  so_fits : zlen (s_pixels s) + 4 < 2 ^ 32;
}.

Definition as_kernel (c : UserGfx.RenderContext) : Raster.RenderContext :=
  Raster.mkContext [] (UserGfx.textures c) (UserGfx.constant_buffers c).

Definition on_target {A} (s : UserSurface) (r : result Fault A * Words) : result Fault A * UserGfx.RenderTarget :=
  (r.1, UserGfx.mkTarget (s_width s) (s_height s) (mkSurface r.2 (s_pixels_second s) (s_width s) (s_height s))).

Lemma size_fits s : SurfaceOk s -> u32 (E := Fault) (s_width s * s_height s) = Ok (s_width s * s_height s).
Proof. intros [Hl Hf]. unfold u32. by rewrite (proj2 (Z.leb_le _ _)), (proj2 (Z.ltb_lt _ _)) by lia. Qed.

Lemma draw_on_ok {A} (draw : Z -> Z -> stM Words Fault A) s : SurfaceOk s ->
  draw_on draw (UserGfx.target_new s) = on_target s (draw (s_width s) (s_height s) (s_pixels s)).
Proof.
  intros Hs. unfold draw_on, on_surface, UserGfx.target_new, UserGfx.with_slice. cbn [surface UserGfx.rt_width UserGfx.rt_height].
  rewrite (size_fits s Hs). destruct Hs as [Hl Hf]. rewrite <- Hl. rewrite Z.leb_refl, Nat2Z.id. unfold on_words.
  rewrite firstn_all, drop_all. destruct (draw _ _ _) as [r px]. by rewrite app_nil_r.
Qed.

Lemma surface_clear_ok color s : SurfaceOk s ->
  surface_clear color s = (Ok tt, mkSurface (replicate (length (s_pixels s)) (rgba_to_xrgb color)) (s_pixels_second s) (s_width s) (s_height s)).
Proof.
  intros Hs. unfold surface_clear. unfold sbind at 1, slift. rewrite (size_fits s Hs). destruct Hs as [Hl Hf]. rewrite <- Hl, Nat2Z.id.
  unfold on_words. destruct (user_quads_stored (rgba_to_xrgb color) (s_pixels s) (S (length (s_pixels s))) Hf 0) as (i & Hi & E); [lia|lia|].
  change (filled (rgba_to_xrgb color) 0 (s_pixels s)) with (s_pixels s) in E. rewrite (sbind_ok _ _ _ _ _ E).
  by rewrite (rest_stored (rgba_to_xrgb color) _ (s_pixels s) i).
Qed.

Section agree.
Context {VS PS : Type} `{PixelShader PS}.
Variable self : UserGfx.RenderContext.

Lemma rasterize_2d_agrees v0 v1 v2 w h (pipeline : PipelineState VS PS) :
  UserGfx.rasterize_triangle_simd self v0 v1 v2 pipeline w h = Raster.rasterize_triangle_simd (as_kernel self) v0 v1 v2 w h pipeline.
Proof. reflexivity. Qed.

Lemma rasterize_3d_agrees v0 v1 v2 w h (pipeline : PipelineState VS PS) t :
  UserGfx.rasterize_triangle_3d self v0 v1 v2 w h pipeline t = Raster.rasterize_triangle_3d (as_kernel self) v0 v1 v2 w h pipeline t.
Proof.
  unfold UserGfx.rasterize_triangle_3d, Raster.rasterize_triangle_3d.
  change (UserGfx.clip_to_screen v0 w h) with (Raster.clip_to_screen v0 w h). change (UserGfx.clip_to_screen v1 w h) with (Raster.clip_to_screen v1 w h).
  change (UserGfx.clip_to_screen v2 w h) with (Raster.clip_to_screen v2 w h).
  destruct (Raster.clip_to_screen v0 w h) as [[sx0 sy0] z0], (Raster.clip_to_screen v1 w h) as [[sx1 sy1] z1], (Raster.clip_to_screen v2 w h) as [[sx2 sy2] z2].
  change (UserGfx.edge_function_scalar sx0 sy0 sx1 sy1 sx2 sy2) with (Raster.edge_function_scalar sx0 sy0 sx1 sy1 sx2 sy2).
  set (edge := Raster.edge_function_scalar sx0 sy0 sx1 sy1 sx2 sy2). unfold culled. destruct (cull_mode pipeline); cbn [is_back is_front andb].
  - reflexivity.
  - destruct (flt edge f0); reflexivity.
  - destruct (fge edge f0); reflexivity.
Qed.

Context `{VertexShader3D VS}.

Lemma chunks_agree vertices w h (pipeline : PipelineState VS PS) n : forall indices t, (length indices <= n)%nat ->
  UserGfx.draw_chunks self vertices indices w h pipeline t = draw_chunks_3d (as_kernel self) vertices indices w h pipeline t.
Proof.
  induction n as [|n IH]; intros [|i0 [|i1 [|i2 rest]]] t Hn; try done; [cbn in Hn; lia|].
  cbn [UserGfx.draw_chunks draw_chunks_3d]. unfold draw_one_3d.
  change (UserGfx.process_vertex_3d self) with (Raster.process_vertex_3d (PS := PS) (as_kernel self)).
  unfold slift, sbind. destruct (index_of vertices i0) as [v0| | |]; try done. destruct (index_of vertices i1) as [v1| | |]; try done.
  destruct (index_of vertices i2) as [v2| | |]; try done. destruct (Raster.process_vertex_3d _ v0 _) as [vs0| | |]; try done.
  destruct (Raster.process_vertex_3d _ v1 _) as [vs1| | |]; try done. destruct (Raster.process_vertex_3d _ v2 _) as [vs2| | |]; try done.
  change (fle (VSOut3D.w vs0) f0 && fle (VSOut3D.w vs1) f0 && fle (VSOut3D.w vs2) f0) with (should_cull_triangle vs0 vs1 vs2).
  destruct (should_cull_triangle vs0 vs1 vs2); [apply IH; cbn in Hn; lia|]. rewrite rasterize_3d_agrees.
  destruct (Raster.rasterize_triangle_3d _ _ _ _ _ _ _ _) as [[u| | |] t']; try done. apply IH. cbn in Hn. lia.
Qed.

End agree.

(** C27: on a surface as the kernel maps it, the renderer of a program does what the renderer of
    the kernel does to a buffer of the same size: its triangles, its rectangles and its indexed
    triangles with depth give the same pixels, the same depths and the same failures; and each
    way to clear, four pixels at a time or slot by slot, leaves one colour everywhere. *)
Theorem user_draws_as_kernel {VS PS} `{PixelShader PS} `{VertexShader3D VS} (self : UserGfx.RenderContext) s (pipeline : PipelineState VS PS) :
  SurfaceOk s -> let w := s_width s in let h := s_height s in let t := UserGfx.target_new s in
  (forall x y width height, UserGfx.draw_rect_2d self x y width height pipeline t =
    on_target s (Raster.draw_rect_2d (as_kernel self) x y width height w h pipeline (s_pixels s))) /\
  (forall x0 y0 u0 v0 x1 y1 u1 v1 x2 y2 u2 v2, UserGfx.draw_triangle_2d self x0 y0 u0 v0 x1 y1 u1 v1 x2 y2 u2 v2 pipeline t =
    on_target s (Raster.draw_triangle_2d (as_kernel self) x0 y0 u0 v0 x1 y1 u1 v1 x2 y2 u2 v2 w h pipeline (s_pixels s))) /\
  (forall vertices indices d r t', Raster.draw_indexed_3d (as_kernel self) vertices indices w h pipeline (mkTarget3D (s_pixels s) d) = (r, t') ->
    UserGfx.draw_indexed_3d self vertices indices d pipeline t = on_target s (rbind r (fun _ => Ok (depths t')), pixels t')) /\
  (forall color, let cleared := replicate (length (s_pixels s)) (rgba_to_xrgb color) in
    clear_target color (s_pixels s) = (Ok tt, cleared) /\ UserGfx.context_clear color t = on_target s (Ok tt, cleared) /\
    UserGfx.target_clear color t = on_target s (Ok tt, cleared)).
Proof.
  intros Hs w h t. split_and!.
  - intros x y width height. exact (draw_on_ok _ s Hs).
  - intros x0 y0 u0 v0 x1 y1 u1 v1 x2 y2 u2 v2. exact (draw_on_ok _ s Hs).
  - intros vertices indices d r t' E. unfold UserGfx.draw_indexed_3d. unfold Raster.draw_indexed_3d in E.
    destruct (bool_decide (render_mode pipeline = XYZ)).
    + change ((sassert true ;;; ?c) t) with (c t). unfold t. rewrite (draw_on_ok _ s Hs).
      change ((sassert true ;;; ?c) (mkTarget3D (s_pixels s) d)) with (c (mkTarget3D (s_pixels s) d)) in E.
      rewrite (chunks_agree self vertices _ _ pipeline (length indices)) by done. fold w h. rewrite E. done.
    + injection E as <- <-. cbn. unfold on_target, t, UserGfx.target_new. cbn. by destruct s.
  - intros color cleared. split; [apply kernel_clear|]. split.
    + unfold context_clear, t. rewrite (draw_on_ok _ s Hs). by rewrite user_fill.
    + unfold UserGfx.target_clear, on_surface, t, UserGfx.target_new. cbn [surface]. by rewrite (surface_clear_ok color s Hs).
Qed.

Lemma user_draws_as_kernel_witness :
  let s := surface_new (replicate 6 7) (replicate 6 9) 3 2 in
  let t := UserGfx.target_new s in
  let pipeline := mkPipeline (mkBasic3D Matrix4x4.identity) (mkFlat (mkRgba 255 0 0 255)) layout_3d CullBack blend_default XYZ true true DepthLess in
  UserGfx.draw_rect_2d UserGfx.context_new (of_int 1) (of_int 0) (of_int 1) (of_int 1) pipeline t =
    on_target s (Ok tt, [7; 16711680; 7; 7; 7; 7]) /\
  UserGfx.context_clear (mkRgba 255 0 0 255) t = on_target s (Ok tt, replicate 6 16711680).
Proof.
  intros s t pipeline. destruct (user_draws_as_kernel UserGfx.context_new s pipeline) as (Hr & _ & _ & Hc).
  - split; [reflexivity|vm_compute; reflexivity].
  - split; [|apply (Hc (mkRgba 255 0 0 255))]. unfold t. rewrite Hr. vm_compute. reflexivity.
Defined.
