(* ===== verification/Interrupts.v ===== *)
(** * Interrupts: the clock and the input of interrupts.rs

    The handlers of the timer, the reschedule request, the keyboard and the mouse, without the
    registers of the interrupt controller.  The time stamp counter is an argument where it is
    read.  The [pc_keyboard] crate, which turns scan codes into keys, is the class
    [KeyboardDecoder]. *)

From Stdlib Require Import ZArith Lia.
From stdpp Require Import base tactics list option numbers relations.
From S2P Require Import Prelude Regions Tasks RunQueue Scheduler SchedulerOk SchedulerSteps SchedulerLeave SchedulerRun StackGuard Events.

Open Scope rust_scope.

(** *** The clock *)

Definition TIMER_TICK_INTERVAL_MS : Z := 10.
Definition TIMER_TICK_FREQ_HZ : Z := 1000 / TIMER_TICK_INTERVAL_MS.
Definition TICK_DURATION_NS : Z := 1000000000 / TIMER_TICK_FREQ_HZ.
Definition TICK_DURATION_US : Z := 1000000 / TIMER_TICK_FREQ_HZ.

(** [deadlines] are the writes to the deadline register of the cores. *)
Record Clock : Type := mkClock {
  TSC_FREQUENCY_HZ : Z;
  BOOT_TSC : Z;
  SYSTEM_TICKS : Z;
  deadlines : list (Z * Z);
}.

Definition u64_mul {E} (a b : Z) : result E Z := if a * b <? 2 ^ 64 then Ok (a * b) else Panic.

Definition tsc_timestamp_us {E} (c : Clock) (now : Z) : result E Z :=
  let freq := TSC_FREQUENCY_HZ c in
  if freq =? 0 then Ok 0 else
  let per_us := freq / 1000000 in
  if per_us =? 0 then Panic else Ok (saturating_sub now (BOOT_TSC c) / per_us).

Definition tsc_cycles_per_tick (c : Clock) : Z :=
  let freq := TSC_FREQUENCY_HZ c in
  if freq =? 0 then 2000000000 / TIMER_TICK_FREQ_HZ else freq / TIMER_TICK_FREQ_HZ.

Definition system_uptime_ns {E} (c : Clock) : result E Z := u64_mul (SYSTEM_TICKS c) TICK_DURATION_NS.
Definition system_uptime_us {E} (c : Clock) : result E Z := u64_mul (SYSTEM_TICKS c) TICK_DURATION_US.

Definition add_system_tick (c : Clock) : Clock :=
  mkClock (TSC_FREQUENCY_HZ c) (BOOT_TSC c) (wrap 64 (SYSTEM_TICKS c + 1)) (deadlines c).

Definition write_deadline (core_id d : Z) (c : Clock) : Clock :=
  mkClock (TSC_FREQUENCY_HZ c) (BOOT_TSC c) (SYSTEM_TICKS c) (deadlines c ++ [(core_id, d)]).

(** *** The timer *)

Definition RPL_MASK : Z := 3.
Definition RPL_USER : Z := 3.

Definition is_user_frame (cs : Z) : bool := Z.land cs RPL_MASK =? RPL_USER.

Section handlers.
Context {VA : VirtAddrApi}.

Abbreviation IrqM := (stM (Sched * Clock) Empty_set).

Definition on_sched {A} (m : SM A) : IrqM A := fun '(s, c) => let '(r, s) := m s in (r, (s, c)).
Definition on_clock (f : Clock -> Clock) : IrqM unit := fun '(s, c) => (Ok tt, (s, f c)).
Definition the_clock : IrqM Clock := fun '(s, c) => (Ok c, (s, c)).

(** gdt.rs *)
Definition assert_rsp_in_task_stack (k : Stacks) (core_id rsp : Z) : IrqM unit :=
  let! slot_index := on_sched (get_current_slot_for_core core_id) in
  if slot_index =? INVALID_SLOT then sret tt else
  let! b := slift (task_stack_bounds k slot_index) in
  sassert ((b.1 <=? rsp) && (rsp <=? b.2)).

(** What an interrupt finds: the code segment it came from, the stack pointer, and the time
    stamp when the deadline is set and when the scheduler looks at the sleepers. *)
Record TimerIrq : Type := mkIrq { cs : Z; rsp : Z; now : Z; later : Z }.

Definition timer_interrupt_handler (k : Stacks) (core_id : Z) (i : TimerIrq) : IrqM unit :=
  (if is_user_frame (cs i) then assert_rsp_in_task_stack k core_id (rsp i) else sret tt) ;;;
  (if core_id =? 0 then on_clock add_system_tick else sret tt) ;;;
  let! c := the_clock in
  let! next_deadline := slift (uadd (now i) (tsc_cycles_per_tick c)) in
  on_clock (write_deadline core_id next_deadline) ;;;
  let! now_us := slift (tsc_timestamp_us c (later i)) in
  on_sched (on_timer_tick core_id now_us).

Definition reschedule_interrupt_handler (core_id : Z) : IrqM unit := on_sched (mark_core_for_reschedule core_id).

Fixpoint timer_run (k : Stacks) (core_id : Z) (irqs : list TimerIrq) : IrqM unit :=
  match irqs with
  | [] => sret tt
  | i :: irqs => timer_interrupt_handler k core_id i ;;; timer_run k core_id irqs
  end.

End handlers.

(** *** The keyboard *)

(** What [pc_keyboard] reports. *)
Inductive PcKeyState : Type := Down | Up | SingleShot.

Record PcKeyEvent : Type := mkPcKey { code : Z; pc_state : PcKeyState }.

Inductive DecodedKey : Type := Unicode (c : Z) | RawKey (k : Z).

Record PcModifiers : Type := mkPcModifiers {
  lshift : bool; rshift : bool; lctrl : bool; rctrl : bool; lalt : bool; ralt : bool; numlock : bool; capslock : bool;
}.

(** [add_byte] answers [None] for an incomplete or an unknown code. *)
Class KeyboardDecoder (K : Type) : Type := {
  add_byte : Z -> K -> option PcKeyEvent * K;
  process_keyevent : PcKeyEvent -> K -> option DecodedKey * K;
  get_modifiers : K -> PcModifiers;
}.

(** [KeyModifiers::from] *)
Definition modifiers_from (m : PcModifiers) : Z :=
  let put (on : bool) (bit : Z) (w : Z) := if on then Z.lor w bit else w in
  put (capslock m) 0x80 (put (numlock m) 0x40 (put (ralt m) 0x20 (put (lalt m) 0x10
    (put (rctrl m) 8 (put (lctrl m) 4 (put (rshift m) 2 (put (lshift m) 1 0))))))).

Section keyboard.
Context {K : Type} {KD : KeyboardDecoder K}.

Abbreviation KeyM := (stM (K * EventBuffer) Empty_set).

(** [let _ = buffer.push(..)]: a full buffer drops the event. *)
Definition push_quiet (e : InputEvent) : KeyM unit := fun '(k, b) =>
  let '(r, b) := push e b in
  (match r with Ok _ | Err _ => Ok tt | Panic => Panic | OutOfFuel => OutOfFuel end, (k, b)).

Definition decoder {A} (f : K -> A * K) : KeyM A := fun '(k, b) => let '(x, k) := f k in (Ok x, (k, b)).

Definition keyboard_interrupt_handler (scancode : Z) : KeyM unit :=
  let! found := decoder (add_byte scancode) in
  match found with
  | None => sret tt
  | Some key_event =>
      let key_state := match pc_state key_event with Down | SingleShot => Pressed | Up => Released end in
      let key_code := code key_event in
      let! decoded_key := decoder (process_keyevent key_event) in
      let! modifiers := decoder (fun k => (modifiers_from (get_modifiers k), k)) in
      push_quiet (new_key_state key_code key_state modifiers) ;;;
      match decoded_key with
      | Some (Unicode c) => push_quiet (new_char c key_state modifiers)
      | Some (RawKey k) => push_quiet (new_key k key_state modifiers)
      | None => sret tt
      end
  end.

Fixpoint keyboard_run (scancodes : list Z) : KeyM unit :=
  match scancodes with
  | [] => sret tt
  | s :: scancodes => keyboard_interrupt_handler s ;;; keyboard_run scancodes
  end.

End keyboard.

(** *** The mouse *)

(** What [ps2_mouse] reports of a complete packet. *)
Record MouseState : Type := mkMouseState { left_button_down : bool; right_button_down : bool; get_x : Z; get_y : Z }.

(** [-mouse_state.get_y()] of an i16 *)
Definition mouse_on_packed_processed (m : MouseState) : stM EventBuffer Empty_set unit := fun b =>
  let buttons := Z.lor (if left_button_down m then 1 else 0) (if right_button_down m then 2 else 0) in
  if get_y m =? - 2 ^ 15 then (Panic, b) else
  let '(r, b) := push (new_mouse (mkMouse (get_x m) (- get_y m) buttons false false)) b in
  (match r with Ok _ | Err _ => Ok tt | Panic => Panic | OutOfFuel => OutOfFuel end, b).

(** ** The time *)

(** Time stamps do not go back. *)
Lemma timestamp_monotone c now later : 1000000 <= TSC_FREQUENCY_HZ c -> now <= later ->
  exists x y, tsc_timestamp_us (E := Empty_set) c now = Ok x /\ tsc_timestamp_us (E := Empty_set) c later = Ok y /\ 0 <= x <= y.
Proof.
  intros Hf Hn. unfold tsc_timestamp_us. rewrite (proj2 (Z.eqb_neq _ _)) by lia.
  assert (Hd : 1 <= TSC_FREQUENCY_HZ c / 1000000) by (apply Z.div_le_lower_bound; lia).
  rewrite (proj2 (Z.eqb_neq (_ / _) 0)) by lia. eexists _, _. split; [done|]. split; [done|]. unfold saturating_sub.
  split; [apply Z.div_pos; lia|apply Z.div_le_mono; lia].
Qed.

(** ** Ticks *)

Definition slice_of (s : Sched) (c : Z) : Z := default 0 (slice_remaining_ticks s !! Z.to_nat c).
Definition flag_of (s : Sched) (c : Z) : Prop := core_should_be_rescheduled s !! Z.to_nat c = Some true.
Definition runnable_of (s : Sched) (c : Z) : Z := default 0 (runnable_tasks_count s !! Z.to_nat c).

(** What waking sleepers leaves alone: the slices, the current slots, and the request once made. *)
Definition calm (sl cur : list Z) (c : Z) (b : Prop) (s : Sched) : Prop :=
  slice_remaining_ticks s = sl /\ current_slot_on_core s = cur /\ (b -> flag_of s c).

Section calm.
Context (sl cur : list Z) (c : Z) (b : Prop).
Abbreviation K := (calm sl cur c b).

Lemma calm_slots {A} (m : TM A) : preserves K (on_slots m).
Proof. intros s r s' Hs. unfold on_slots. destruct (m (tasks s)) as [x ts]. by intros [= _ <-]. Qed.

Lemma calm_queue {A} core (m : QM CoreRunQueue A) : preserves K (on_queue core m).
Proof.
  intros s r s' Hs. unfold on_queue. destruct (run_queues s !! Z.to_nat core) as [rq|]; [|by intros [= _ <-]].
  destruct (m _) as [x [rq' ts]]. by intros [= _ <-].
Qed.

Lemma calm_load {A} (f : Sched -> list A) core : preserves K (load f core).
Proof. intros s r s' Hs. unfold load. destruct (f s !! _); by intros [= _ <-]. Qed.

Lemma calm_runnable core d : preserves K (add_runnable core d).
Proof.
  unfold add_runnable. apply preserves_bind; [apply calm_load|]. intros n. apply preserves_bind; [|intros; apply preserves_ret].
  intros s r s' Hs. by intros [= _ <-].
Qed.

Lemma calm_mark core : preserves K (mark_core_for_reschedule core).
Proof.
  intros s r s' (H1 & H2 & H3). unfold mark_core_for_reschedule, store_flag, sbind, load.
  destruct (core_should_be_rescheduled s !! Z.to_nat core) as [x|] eqn:Ex; [|by intros [= _ <-]]. intros [= _ <-].
  split; [done|]. split; [done|]. intros Hb. specialize (H3 Hb). unfold flag_of, at_core in *. cbn.
  destruct (decide (Z.to_nat core = Z.to_nat c)) as [E|Hne].
  - rewrite E, list_lookup_insert_eq; [done|]. rewrite <- E. by apply lookup_lt_Some in Ex.
  - by rewrite list_lookup_insert_ne.
Qed.

#[local] Hint Resolve calm_slots calm_queue calm_load calm_runnable calm_mark : preserves.

Lemma calm_wake_loop core now fuel : forall index highest, preserves K (wake_due_loop fuel core now index highest).
Proof.
  induction fuel as [|fuel IH]; intros index highest; cbn [wake_due_loop]; [by intros s r s' Hs [= _ <-]|].
  unfold wake_sleeper. preserves_walk.
Qed.

Lemma calm_wake core now : preserves K (wake_due_sleeping_tasks core now).
Proof.
  unfold wake_due_sleeping_tasks, queue_wake_due, get_current_slot_for_core.
  repeat first [apply calm_wake_loop|progress preserves_walk].
Qed.

End calm.

Lemma tick_effect s c now : inv s -> is_core c -> current_on s c <> INVALID_SLOT ->
  exists s', on_timer_tick c now s = (Ok tt, s') /\ inv s' /\ current_slot_on_core s' = current_slot_on_core s /\
    (flag_of s c -> flag_of s' c) /\
    (if 1 <? slice_of s c then slice_of s' c = slice_of s c - 1 else runnable_of s' c <= 1 \/ flag_of s' c).
Proof.
  intros Hinv Hc Hcur. destruct (on_timer_tick_keeps s c now Hinv Hc) as (s' & E & Hinv'). exists s'. split; [exact E|]. split; [exact Hinv'|].
  unfold on_timer_tick in E. apply sbind_inv_ok in E as ([] & s1 & E1 & E).
  destruct (calm_wake _ _ c (flag_of s c) c now s (Ok tt) s1 (conj eq_refl (conj eq_refl (fun H => H))) E1) as (Hsl & Hcs & Hfl).
  apply sbind_inv_ok in E as (x & s2 & E2 & E). unfold get_current_slot_for_core, load in E2.
  destruct (current_slot_on_core s1 !! Z.to_nat c) as [x'|] eqn:Ex; [|done]. injection E2 as -> <-.
  rewrite Hcs in Ex. unfold current_on in Hcur. rewrite Ex in Hcur. cbn in Hcur. rewrite (proj2 (Z.eqb_neq _ _)) in E by done.
  apply sbind_inv_ok in E as ([] & s2 & E2 & E). apply sbind_inv_ok in E as (t & s3 & E3 & E).
  assert (H3 : calm (slice_remaining_ticks s) (current_slot_on_core s) c (flag_of s c) s3).
  { eapply calm_slots; [|exact E3]. eapply calm_slots; [|exact E2]. done. }
  clear E2 E3 Hsl Hcs Hfl E1. destruct H3 as (Hsl & Hcs & Hfl).
  apply sbind_inv_ok in E as (r & s4 & E4 & E). unfold load in E4.
  destruct (slice_remaining_ticks s3 !! Z.to_nat c) as [r'|] eqn:Er; [|done]. injection E4 as -> <-.
  assert (Es : slice_of s c = r) by (unfold slice_of; by rewrite <- Hsl, Er). rewrite Es.
  assert (Hstore : forall n u s5, store_slice c n s3 = (Ok u, s5) -> s5 = set_slices (at_core c n (slice_remaining_ticks s3)) s3).
  { intros n u s5. unfold store_slice, sbind, load. rewrite Er. by intros [= _ <-]. }
  destruct (1 <? r).
  - apply Hstore in E as ->. split_and!; [done|done|]. unfold slice_of, at_core. cbn.
    rewrite list_lookup_insert_eq by (by apply lookup_lt_Some in Er). done.
  - apply sbind_inv_ok in E as (n & s5 & E5 & E). unfold load in E5. destruct (runnable_tasks_count s3 !! Z.to_nat c) as [n'|] eqn:En; [|done].
    injection E5 as -> <-. destruct (Z.ltb_spec 1 n) as [Hn|Hn].
    + apply sbind_inv_ok in E as (u & s5 & E5 & E). apply Hstore in E5 as ->.
      unfold mark_core_for_reschedule, store_flag, sbind, load in E.
      destruct (core_should_be_rescheduled _ !! Z.to_nat c) as [y|] eqn:Ey in E; [|done]. injection E as <-.
      assert (Hf : flag_of (set_flags (at_core c true (core_should_be_rescheduled (set_slices (at_core c 0 (slice_remaining_ticks s3)) s3)))
        (set_slices (at_core c 0 (slice_remaining_ticks s3)) s3)) c).
      { unfold flag_of, at_core. cbn. apply list_lookup_insert_eq. by apply lookup_lt_Some in Ey. }
      split_and!; [done|done|by right].
    + apply Hstore in E as ->. split_and!; [done|done|left]. unfold runnable_of. cbn. by rewrite En.
Qed.

(** *** What the other cores do in between *)

(** An action that is not one of core [c]'s own: another core goes round its loop, switches,
    blocks, exits or gets its timer; anybody creates, starts, wakes, kills or reaps. *)
Definition elsewhere (c : Z) (a : action) : Prop :=
  match a with
  | Turn _ c' | SwitchOut c' _ | Leave c' | Exit c' | Block c' _ | Tick c' _ => c' <> c
  | Allocate _ _ _ _ _ | Start _ _ | Reap _ | Wake _ _ | Kill _ _ _ => True
  end.

Definition others (c : Z) (s s' : Sched) : Prop :=
  exists a, elsewhere c a /\ enabled a s /\ perform a s = (Ok tt, s').

(** The slice and the current task of a core. *)
Definition untouched (c : Z) (sl cur : option Z) (s : Sched) : Prop :=
  slice_remaining_ticks s !! Z.to_nat c = sl /\ current_slot_on_core s !! Z.to_nat c = cur.

Section untouched.
Context (c : Z) (sl cur : option Z).
Abbreviation U := (untouched c sl cur).

Lemma untouched_slots {A} (m : TM A) : preserves U (on_slots m).
Proof. intros s r s' Hs. unfold on_slots. destruct (m (tasks s)) as [x ts]. by intros [= _ <-]. Qed.

Lemma untouched_queue {A} core (m : QM CoreRunQueue A) : preserves U (on_queue core m).
Proof.
  intros s r s' Hs. unfold on_queue. destruct (run_queues s !! Z.to_nat core) as [rq|]; [|by intros [= _ <-]].
  destruct (m _) as [x [rq' ts]]. by intros [= _ <-].
Qed.

Lemma untouched_load {A} (f : Sched -> list A) core : preserves U (load f core).
Proof. intros s r s' Hs. unfold load. destruct (f s !! _); by intros [= _ <-]. Qed.

Lemma untouched_update f : (forall s, U s -> U (f s)) -> preserves U (Scheduler.update f).
Proof. intros Hf s r s' Hs. intros [= _ <-]. by apply Hf. Qed.

Lemma untouched_flag core b : preserves U (store_flag core b).
Proof. apply preserves_bind; [apply untouched_load|]. intros _. by apply untouched_update. Qed.

Lemma untouched_runnable core d : preserves U (add_runnable core d).
Proof.
  apply preserves_bind; [apply untouched_load|]. intros n. apply preserves_bind; [by apply untouched_update|]. intros _. apply preserves_ret.
Qed.

Lemma untouched_ipi core : preserves U (send_reschedule_ipi core).
Proof. by apply untouched_update. Qed.

Lemma untouched_slice core n : 0 <= core -> 0 <= c -> core <> c -> preserves U (store_slice core n).
Proof.
  intros ? ? ?. apply preserves_bind; [apply untouched_load|]. intros _. apply untouched_update. intros s [Hs Hu]. split; [|done].
  cbn. unfold at_core. by rewrite list_lookup_insert_ne by lia.
Qed.

Lemma untouched_current core x p : 0 <= core -> 0 <= c -> core <> c -> preserves U (set_current_task_for_core core x p).
Proof.
  intros ? ? ?. apply preserves_bind; [apply untouched_load|]. intros _. apply untouched_update. intros s [Hs Hu]. split; [done|].
  cbn. unfold at_core. by rewrite list_lookup_insert_ne by lia.
Qed.

#[local] Hint Resolve untouched_slots untouched_queue untouched_load untouched_flag untouched_runnable untouched_ipi : preserves.

Lemma untouched_enqueue me core x prio : preserves U (core_enqueue_ready_task me core x prio).
Proof. unfold core_enqueue_ready_task, mark_core_for_reschedule, get_current_slot_for_core. preserves_walk. Qed.

Lemma untouched_steal locked core cores : preserves U (steal_loop locked core cores).
Proof. induction cores as [|x cores IH]; cbn [steal_loop]; [apply preserves_ret|]. unfold steal_from. preserves_walk. Qed.

Lemma untouched_wake_loop core now fuel : forall index highest, preserves U (wake_due_loop fuel core now index highest).
Proof.
  induction fuel as [|fuel IH]; intros index highest; cbn [wake_due_loop]; [by intros s r s' Hs [= _ <-]|].
  unfold wake_sleeper. preserves_walk.
Qed.

#[local] Hint Resolve untouched_enqueue untouched_steal untouched_wake_loop : preserves.

Lemma perform_untouched a s s' : is_core c -> elsewhere c a -> enabled a s -> U s -> perform a s = (Ok tt, s') -> U s'.
Proof.
  intros Hc He Hen Hs E. enough (Hp : preserves U (perform a)) by by eapply Hp.
  assert (Hcur : forall core x p, is_core core -> core <> c -> preserves U (set_current_task_for_core core x p))
    by (intros; apply untouched_current; unfold is_core in *; lia).
  assert (Hslice : forall core n, is_core core -> core <> c -> preserves U (store_slice core n))
    by (intros; apply untouched_slice; unfold is_core in *; lia).
  clear E Hs s'. destruct a; cbn [elsewhere enabled perform] in *; try match type of Hen with is_core _ /\ _ => destruct Hen as [Hen _] end;
    unfold start_task, scheduler_turn, try_steal_task, run_task_begin, switch_out, run_task_leave, run_task_reap, exit_mark_dead,
      block_until_wake_time, core_current_task_ref, wake_task, request_kill, on_timer_tick, wake_due_sleeping_tasks, queue_wake_due,
      core_task_leave_run_queue, mark_core_for_reschedule, get_current_slot_for_core, get_current_process_for_core;
    preserves_walk.
Qed.

End untouched.

(** ** Preemption *)

Section preemption.
Context {VA : VirtAddrApi}.

(** The kernel stacks lie at canonical addresses. *)
Definition stacks_canonical (k : Stacks) : Prop := forall x, 0 <= x < MAX_TASKS ->
  let bottom := slot_stack TASK_KERNEL_STACK_SIZE (KERNEL_TASK_STACKS k) x in
  va_new (E := Empty_set) bottom = Ok bottom /\
  va_new (E := Empty_set) (bottom + TASK_KERNEL_STACK_SIZE) = Ok (bottom + TASK_KERNEL_STACK_SIZE).

(** A timer interrupt of a core that runs the task of [slot]: one out of a program came in on
    the kernel stack of that task, which [run_task] gave the processor; and the counter of the
    processor is not at the end of its 64 bits. *)
Definition irq_of (k : Stacks) (slot : Z) (c : Clock) (i : TimerIrq) : Prop :=
  now i + tsc_cycles_per_tick c < 2 ^ 64 /\
  (is_user_frame (cs i) = true -> exists top, task_stack_top (E := Empty_set) k slot = Ok top /\
    top - TASK_KERNEL_STACK_SIZE <= rsp i <= top).

Lemma timer_irq_ok k core s c i : inv s -> is_core core -> current_on s core <> INVALID_SLOT ->
  1000000 <= TSC_FREQUENCY_HZ c -> stacks_canonical k -> irq_of k (current_on s core) c i ->
  exists s' c', timer_interrupt_handler k core i (s, c) = (Ok tt, (s', c')) /\ TSC_FREQUENCY_HZ c' = TSC_FREQUENCY_HZ c /\
    inv s' /\ current_slot_on_core s' = current_slot_on_core s /\ (flag_of s core -> flag_of s' core) /\
    (if 1 <? slice_of s core then slice_of s' core = slice_of s core - 1 else runnable_of s' core <= 1 \/ flag_of s' core).
Proof.
  intros Hinv Hc Hcur Hf Hk [Hov Hrsp]. set (c1 := if core =? 0 then add_system_tick c else c).
  destruct (tick_effect s core (saturating_sub (later i) (BOOT_TSC c) / (TSC_FREQUENCY_HZ c / 1000000)) Hinv Hc Hcur) as (s' & E & Heff).
  exists s', (write_deadline core (now i + tsc_cycles_per_tick c) c1). split; [|split; [by unfold c1; destruct (core =? 0)|exact Heff]].
  assert (E1 : (if is_user_frame (cs i) then assert_rsp_in_task_stack k core (rsp i) else sret tt) (s, c) = (Ok tt, (s, c))).
  { destruct (is_user_frame (cs i)); [|done]. destruct Hrsp as (top & Etop & Hr); [done|].
    unfold task_stack_top, in_tasks in Etop. destruct (Z.ltb_spec (current_on s core) MAX_TASKS) as [Hlt|]; [|done]. injection Etop as <-.
    assert (H0 : 0 <= current_on s core).
    { destruct Hinv as (L & Hs & Hp). destruct (current_task s L core Hs Hp Hc Hcur) as (t & Et & _). apply task_at_range in Et. lia. }
    destruct (Hk (current_on s core)) as [Eb Et]; [lia|].
    unfold assert_rsp_in_task_stack, sbind, on_sched, get_current_slot_for_core, load. unfold current_on in *.
    destruct (current_slot_on_core s !! Z.to_nat core) as [x|] eqn:Ex; cbn [default] in *; [|done]. unfold id in *.
    rewrite (proj2 (Z.eqb_neq _ _)) by done. unfold slift, task_stack_bounds, in_tasks. rewrite (proj2 (Z.ltb_lt _ _)) by done.
    cbv zeta in Eb, Et. rewrite Eb. cbn [rbind]. rewrite Et. cbn [rbind fst snd].
    by rewrite (proj2 (Z.leb_le _ (rsp i))), (proj2 (Z.leb_le (rsp i) _)) by lia. }
  unfold timer_interrupt_handler. rewrite (sbind_ok _ _ _ _ _ E1).
  assert (E2 : (if core =? 0 then on_clock add_system_tick else sret tt) (s, c) = (Ok tt, (s, c1))) by (unfold c1; by destruct (core =? 0)).
  rewrite (sbind_ok _ _ _ _ _ E2). rewrite (sbind_ok _ _ _ _ _ (eq_refl : the_clock (s, c1) = _)).
  assert (Ec : tsc_cycles_per_tick c1 = tsc_cycles_per_tick c) by (unfold c1; by destruct (core =? 0)).
  rewrite Ec. unfold sbind at 1, slift at 1, uadd. rewrite (proj2 (Z.ltb_lt _ _)) by done.
  rewrite (sbind_ok _ _ _ _ _ (eq_refl : on_clock _ (s, c1) = _)). unfold sbind at 1, slift at 1.
  assert (Et : tsc_timestamp_us (E := Empty_set) c1 (later i) = Ok (saturating_sub (later i) (BOOT_TSC c) / (TSC_FREQUENCY_HZ c / 1000000))).
  { unfold tsc_timestamp_us. replace (TSC_FREQUENCY_HZ c1) with (TSC_FREQUENCY_HZ c) by (unfold c1; by destruct (core =? 0)).
    replace (BOOT_TSC c1) with (BOOT_TSC c) by (unfold c1; by destruct (core =? 0)).
    assert (Hd : 1 <= TSC_FREQUENCY_HZ c / 1000000) by (apply Z.div_le_lower_bound; lia).
    rewrite (proj2 (Z.eqb_neq _ _)) by lia. by rewrite (proj2 (Z.eqb_neq (_ / _) 0)) by lia. }
  rewrite Et. unfold on_sched. by rewrite E.
Qed.

(** Timer interrupts of a core, and before each of them whatever the other cores do. *)
Inductive timed (k : Stacks) (core : Z) : list TimerIrq -> Sched * Clock -> Sched * Clock -> Prop :=
  | timed_none x : timed k core [] x x
  | timed_irq i irqs s s1 c x x' : rtc (others core) s s1 -> timer_interrupt_handler k core i (s1, c) = (Ok tt, x) ->
      timed k core irqs x x' -> timed k core (i :: irqs) (s, c) x'.

Lemma others_keep core s s1 : is_core core -> rtc (others core) s s1 -> inv s ->
  inv s1 /\ slice_of s1 core = slice_of s core /\ current_on s1 core = current_on s core.
Proof.
  intros Hc Hr Hinv. enough (Hu : inv s1 /\ untouched core (slice_remaining_ticks s !! Z.to_nat core) (current_slot_on_core s !! Z.to_nat core) s1).
  { destruct Hu as (? & E1 & E2). unfold slice_of, current_on. by rewrite E1, E2. }
  apply (rtc_ind_r (fun x => inv x /\ untouched core (slice_remaining_ticks s !! Z.to_nat core) (current_slot_on_core s !! Z.to_nat core) x) s) with (3 := Hr).
  - done.
  - intros x y _ (a & He & Hen & E) [Hix Hux]. split; [|by eapply perform_untouched].
    destruct (perform_keeps a x Hix Hen) as (y' & E' & Hy). rewrite E in E'. by injection E' as <-.
Qed.

(** A state in the run of a slice: [n] interrupts of it are left. *)
Record in_slice (core x : Z) (freq n : Z) (s : Sched) (c : Clock) : Prop := {
  is_inv : inv s;
  is_current : current_on s core = x;
  is_freq : TSC_FREQUENCY_HZ c = freq;
  is_left : n = Z.max 1 (slice_of s core);
}.

Lemma in_slice_irq k core x freq n s c i s1 :
  is_core core -> x <> INVALID_SLOT -> 1000000 <= freq -> stacks_canonical k -> in_slice core x freq n s c ->
  irq_of k x c i -> rtc (others core) s s1 ->
  exists s' c', timer_interrupt_handler k core i (s1, c) = (Ok tt, (s', c')) /\
    (if 1 <? n then in_slice core x freq (n - 1) s' c' else current_on s' core = x /\ (runnable_of s' core <= 1 \/ flag_of s' core)).
Proof.
  intros Hc Hx Hf Hk [Hinv Hcur Hfr Hn] Hi Hr. destruct (others_keep core s s1 Hc Hr Hinv) as (Hinv1 & Hsl1 & Hcur1).
  destruct (timer_irq_ok k core s1 c i) as (s' & c' & E & Hf' & Hinv' & Hcs & _ & Hsl); [done..|congruence|lia|done|by rewrite Hcur1, Hcur|].
  exists s', c'. split; [exact E|]. assert (Hcur' : current_on s' core = x) by (unfold current_on in *; by rewrite Hcs, Hcur1).
  rewrite Hsl1 in Hsl. destruct (Z.ltb_spec 1 (slice_of s core)), (Z.ltb_spec 1 n); try lia; [|done].
  split; [done|done|congruence|lia].
Qed.

Lemma irq_of_freq k x c c' i : TSC_FREQUENCY_HZ c' = TSC_FREQUENCY_HZ c -> irq_of k x c i -> irq_of k x c' i.
Proof. intros E [H1 H2]. split; [|done]. unfold tsc_cycles_per_tick in *. by rewrite E. Qed.

Lemma timed_slice k core x freq irqs : is_core core -> x <> INVALID_SLOT -> 1000000 <= freq -> stacks_canonical k ->
  forall n s c s' c', in_slice core x freq n s c -> Forall (irq_of k x c) irqs -> timed k core irqs (s, c) (s', c') ->
  (zlen irqs < n -> in_slice core x freq (n - zlen irqs) s' c') /\
  (zlen irqs = n -> current_on s' core = x /\ (runnable_of s' core <= 1 \/ flag_of s' core)).
Proof.
  intros Hc Hx Hf Hk. induction irqs as [|i irqs IH]; intros n s c s' c' Hs Hok Ht.
  { inversion Ht; subst. cbn [length]. split; [intros _; by rewrite Z.sub_0_r|]. destruct Hs as [_ _ _ Hn]. lia. }
  inversion Ht as [|? ? ? s1 ? [s2 c2] ? Ho Eh Ht']; subst. apply list.Forall_cons in Hok as [Hi Hok].
  destruct (in_slice_irq k core x freq n s c i s1) as (s2' & c2' & E & Hres); try done. rewrite E in Eh. injection Eh as -> ->.
  cbn [length]. destruct (Z.ltb_spec 1 n) as [Hn|Hn].
  - destruct (IH (n - 1) s2 c2 s' c') as [H1 H2]; [done| |done|].
    { destruct Hres as [_ _ Hfr _], Hs as [_ _ Hfr' _]. eapply List.Forall_impl; [|exact Hok]. intros j. apply irq_of_freq. congruence. }
    split; [intros; replace (n - Z.of_nat (S (length irqs))) with (n - 1 - zlen irqs) by lia; apply H1; lia|intros; apply H2; lia].
  - destruct Hs as [_ _ _ Hn1]. split; [lia|]. intros Hlen. destruct irqs; [|cbn [length] in Hlen; lia]. by inversion Ht'; subst.
Qed.

(** C13: The timer preempts, whatever the other cores do meanwhile: from every state the
    schedulers can be in, on a core that runs a task with [n] ticks of its slice left, the
    [max 1 n]-th timer interrupt finds no other task to run on the core or leaves the core
    marked for rescheduling; until then, with any actions of other cores before each
    interrupt, the task stays the current one and the handler returns, its checks passed.
    Interrupts out of a program come in on the kernel stack of the running task, the time
    stamp counter is calibrated (to 1 MHz or more) and not at the end of its 64 bits. *)
Theorem timer_preempts (k : Stacks) (core : Z) (s : Sched) (c : Clock) (irqs : list TimerIrq) :
  reachable s -> is_core core -> current_on s core <> INVALID_SLOT -> 1000000 <= TSC_FREQUENCY_HZ c -> stacks_canonical k ->
  Forall (irq_of k (current_on s core) c) irqs -> zlen irqs = Z.max 1 (slice_of s core) ->
  (forall before i after s1 c1 s2, irqs = before ++ i :: after -> timed k core before (s, c) (s1, c1) -> rtc (others core) s1 s2 ->
    current_on s2 core = current_on s core /\ exists x, timer_interrupt_handler k core i (s2, c1) = (Ok tt, x)) /\
  (forall s' c', timed k core irqs (s, c) (s', c') ->
    current_on s' core = current_on s core /\ (runnable_of s' core <= 1 \/ flag_of s' core)).
Proof.
  intros Hr Hc Hcur Hf Hk Hok Hlen.
  assert (Hs : in_slice core (current_on s core) (TSC_FREQUENCY_HZ c) (zlen irqs) s c) by (split; [by apply reachable_inv|done..]).
  split.
  - intros before i after s1 c1 s2 -> Ht Ho. apply Forall_app in Hok as [Hb Hi%list.Forall_cons]. destruct Hi as [Hi _].
    destruct (timed_slice k core _ _ before Hc Hcur Hf Hk _ s c s1 c1 Hs Hb Ht) as [Hin _].
    specialize (Hin ltac:(rewrite length_app; cbn [length]; lia)). pose proof Hin as [Hinv1 Hcur1 Hfr _].
    split; [by rewrite (proj2 (proj2 (others_keep core s1 s2 Hc Ho Hinv1)))|].
    destruct (in_slice_irq k core _ _ _ s1 c1 i s2 Hc Hcur Hf Hk Hin (irq_of_freq _ _ _ _ _ Hfr Hi) Ho) as (s' & c' & E & _). by exists (s', c').
  - intros s' c' Ht. by apply (timed_slice k core _ _ irqs Hc Hcur Hf Hk _ s c s' c' Hs Hok Ht).
Qed.

End preemption.

(** ** Keys *)

Section keys.
Context {K : Type} {KD : KeyboardDecoder K}.

(** The events of a scan code: the change of the key's state first, then what it types. *)
Definition key_events (scancode : Z) (k : K) : list InputEvent * K :=
  match add_byte scancode k with
  | (None, k) => ([], k)
  | (Some e, k) =>
      let st := match pc_state e with Down | SingleShot => Pressed | Up => Released end in
      let '(d, k) := process_keyevent e k in
      let m := modifiers_from (get_modifiers k) in
      (new_key_state (code e) st m :: match d with
         | Some (Unicode c) => [new_char c st m]
         | Some (RawKey r) => [new_key r st m]
         | None => []
         end, k)
  end.

Fixpoint all_key_events (scancodes : list Z) (k : K) : list InputEvent * K :=
  match scancodes with
  | [] => ([], k)
  | s :: scancodes =>
      let '(l, k) := key_events s k in
      let '(l', k) := all_key_events scancodes k in (l ++ l', k)
  end.

Abbreviation ring_size := (Z.to_nat MAX_EVENT_COUNT).

Lemma push_quiet_ok e (k : K) b l : waiting b l -> (length l <= ring_size)%nat ->
  exists b', push_quiet e (k, b) = (Ok tt, (k, b')) /\ waiting b' (take ring_size (l ++ [e])).
Proof.
  intros Hw Hl. destruct (push_queue e b l Hw) as (b' & E & Hw'). exists b'. unfold push_quiet. rewrite E.
  destruct (Nat.ltb_spec (length l) ring_size) as [Hlt|Hge]; (split; [done|]).
  - rewrite take_ge; [done|]. rewrite length_app. cbn [length]. lia.
  - by replace (take ring_size (l ++ [e])) with l by (rewrite take_app_le, take_ge by lia; done).
Qed.

(** What is left of two additions to a full ring is what is left of one. *)
Lemma take_take_app {A} n (l m : list A) : take n (take n l ++ m) = take n (l ++ m).
Proof.
  destruct (Nat.le_gt_cases (length l) n); [by rewrite (take_ge l) by done|].
  rewrite !take_app_le by (rewrite ?length_take; lia). rewrite take_take. by rewrite Nat.min_id.
Qed.

Lemma keyboard_irq_ok scancode (k : K) b l : waiting b l -> (length l <= ring_size)%nat ->
  exists b', keyboard_interrupt_handler scancode (k, b) = (Ok tt, ((key_events scancode k).2, b')) /\
    waiting b' (take ring_size (l ++ (key_events scancode k).1)).
Proof.
  intros Hw Hl. unfold keyboard_interrupt_handler, key_events, decoder. unfold sbind at 1.
  destruct (add_byte scancode k) as [[e|] k1]; [|exists b; cbn; split; [done|]; rewrite app_nil_r, take_ge by done; done].
  unfold sbind at 1. destruct (process_keyevent e k1) as [d k2]. cbn zeta. unfold sbind at 1.
  set (st := match pc_state e with Down | SingleShot => Pressed | Up => Released end). set (m := modifiers_from (get_modifiers k2)).
  destruct (push_quiet_ok (new_key_state (code e) st m) k2 b l Hw Hl) as (b1 & E1 & Hw1). rewrite (sbind_ok _ _ _ _ _ E1).
  assert (Hl1 : (length (take ring_size (l ++ [new_key_state (code e) st m])) <= ring_size)%nat) by (rewrite length_take; lia).
  destruct d as [[c|r]|]; cbn [fst snd].
  - destruct (push_quiet_ok (new_char c st m) k2 b1 _ Hw1 Hl1) as (b2 & E2 & Hw2). exists b2. split; [exact E2|].
    rewrite take_take_app, <- app_assoc in Hw2. exact Hw2.
  - destruct (push_quiet_ok (new_key r st m) k2 b1 _ Hw1 Hl1) as (b2 & E2 & Hw2). exists b2. split; [exact E2|].
    rewrite take_take_app, <- app_assoc in Hw2. exact Hw2.
  - by exists b1.
Qed.

(** However many keys are hit, the ring holds the first events that fit behind those that were
    waiting, in order; the rest is dropped without a trace, releases of keys included. *)
Lemma keyboard_queues scancodes : forall (k : K) b l, waiting b l -> (length l <= ring_size)%nat ->
  exists b', keyboard_run scancodes (k, b) = (Ok tt, ((all_key_events scancodes k).2, b')) /\
    waiting b' (take ring_size (l ++ (all_key_events scancodes k).1)).
Proof.
  induction scancodes as [|s scancodes IH]; intros k b l Hw Hl.
  - exists b. cbn. split; [done|]. by rewrite app_nil_r, take_ge.
  - destruct (keyboard_irq_ok s k b l Hw Hl) as (b1 & E1 & Hw1). cbn [keyboard_run all_key_events]. rewrite (sbind_ok _ _ _ _ _ E1).
    destruct (key_events s k) as [l1 k1]. cbn [fst snd] in *.
    destruct (IH k1 b1 _ Hw1 ltac:(rewrite length_take; lia)) as (b2 & E2 & Hw2). exists b2.
    destruct (all_key_events scancodes k1) as [l2 k2]. cbn [fst snd] in *. split; [exact E2|].
    by rewrite take_take_app, <- app_assoc in Hw2.
Qed.

End keys.

(** ** Six ticks of a time slice *)

Definition demo_kernel_stacks : Stacks := mkStacks 0xFFFFFFFF80000000 0xFFFFFFFF80100000 0xFFFFFFFF80200000 0xFFFFFFFF80300000.

Definition demo_clock : Clock := mkClock 2000000000 5000 0 [].

Definition demo_irqs : list TimerIrq :=
  (fun n => mkIrq 51 (0xFFFFFFFF80300000 + 8192) (n * 20000000) (n * 20000000 + 100)) <$> seqZ 1 6.

Lemma demo_stacks_canonical : stacks_canonical demo_kernel_stacks.
Proof.
  intros x Hx. unfold MAX_TASKS in Hx. cbv zeta. unfold slot_stack, slot_guard, TASK_KERNEL_STACK_SIZE, GUARD_PAGE_SIZE. cbn [KERNEL_TASK_STACKS demo_kernel_stacks va_new canonical_api].
  unfold canonical. rewrite !(proj2 (Z.leb_le _ _)), !(proj2 (Z.ltb_ge _ (2 ^ 47))), !(proj2 (Z.ltb_lt _ (2 ^ 64))) by lia. done.
Qed.

Lemma timer_preempts_witness :
  (exists x, timer_interrupt_handler demo_kernel_stacks 1 (mkIrq 51 (0xFFFFFFFF80300000 + 8192) 20000000 20000100) (after two_tasks, demo_clock) = (Ok tt, x)) /\
  forall s' c', timed demo_kernel_stacks 1 demo_irqs (after two_tasks, demo_clock) (s', c') ->
    current_on s' 1 = 0 /\ (runnable_of s' 1 <= 1 \/ flag_of s' 1).
Proof.
  destruct (timer_preempts demo_kernel_stacks 1 (after two_tasks) demo_clock demo_irqs reachable_two_tasks) as [Hb Hl].
  - done.
  - by vm_compute.
  - by vm_compute.
  - exact demo_stacks_canonical.
  - unfold demo_irqs. apply Forall_fmap, list.Forall_forall. intros n Hn. apply elem_of_seqZ in Hn. split; cbn [compose now cs rsp].
    + change (tsc_cycles_per_tick demo_clock) with 20000000. lia.
    + intros _. exists (0xFFFFFFFF80300000 + 4096 + 65536). split; [vm_compute; reflexivity|unfold TASK_KERNEL_STACK_SIZE; lia].
  - by vm_compute.
  - split; [|exact Hl]. apply (Hb [] _ (drop 1 demo_irqs) (after two_tasks) demo_clock (after two_tasks)); [reflexivity|constructor|constructor].
Defined.

(** The sixth tick marks the core. *)
Example demo_marked :
  let '(_, (s', _)) := timer_run demo_kernel_stacks 1 demo_irqs (after two_tasks, demo_clock) in
  core_should_be_rescheduled s' !! 1%nat = Some true /\ runnable_of s' 1 = 2.
Proof. vm_compute. done. Qed.
