(* ===== verification/Machine.v ===== *)
(** * The processor: the part of x86-64 that the assembly of the kernel uses

    Registers, segment selectors, model-specific registers and memory as 64-bit words at
    multiples of eight; an address without a word is not mapped, and touching it is a fault
    ([Panic]).  The instructions are those of the naked functions of trap.rs, task.rs,
    scheduler.rs and syscall.rs, with the meaning the manuals of the processor give them; so
    are the two ways into the kernel, the interrupt and the [syscall] instruction.  Words are
    integers below 2^64; addresses of stacks stay far from the ends of the address space, so
    that the stack pointer does not wrap.

    Code that Rust compiles is reached by [Call]: a state transformer that keeps the promises
    of the C calling convention ([abi]). *)

From Stdlib Require Import ZArith Lia.
From stdpp Require Import base tactics gmap list numbers option.
From S2P Require Import Prelude.

Open Scope rust_scope.

Inductive Reg : Type :=
  | RAX | RCX | RDX | RBX | RBP | RSI | RDI | RSP
  | R8 | R9 | R10 | R11 | R12 | R13 | R14 | R15.

#[export] Instance Reg_eq_dec : EqDecision Reg.
Proof. solve_decision. Defined.

Record Machine : Type := mkMachine {
  gprs : Reg -> Z;
  RIP : Z;
  RFLAGS : Z;
  CS : Z;
  SS : Z;
  data_segs : list Z;
  CR3 : Z;
  fpu : list Z;
  msrs : gmap Z Z;
  mem : gmap Z Z;
}.

Definition set_reg (r : Reg) (v : Z) (g : Reg -> Z) : Reg -> Z := fun r' => if decide (r' = r) then v else g r'.
Definition with_gprs g m := mkMachine g (RIP m) (RFLAGS m) (CS m) (SS m) (data_segs m) (CR3 m) (fpu m) (msrs m) (mem m).
Definition with_reg r v m := with_gprs (set_reg r v (gprs m)) m.
Definition with_mem h m := mkMachine (gprs m) (RIP m) (RFLAGS m) (CS m) (SS m) (data_segs m) (CR3 m) (fpu m) (msrs m) h.
Definition with_msrs h m := mkMachine (gprs m) (RIP m) (RFLAGS m) (CS m) (SS m) (data_segs m) (CR3 m) (fpu m) h (mem m).
Definition with_rflags f m := mkMachine (gprs m) (RIP m) f (CS m) (SS m) (data_segs m) (CR3 m) (fpu m) (msrs m) (mem m).
Definition with_segs l m := mkMachine (gprs m) (RIP m) (RFLAGS m) (CS m) (SS m) l (CR3 m) (fpu m) (msrs m) (mem m).
Definition with_cr3 p m := mkMachine (gprs m) (RIP m) (RFLAGS m) (CS m) (SS m) (data_segs m) p (fpu m) (msrs m) (mem m).
Definition with_fpu l m := mkMachine (gprs m) (RIP m) (RFLAGS m) (CS m) (SS m) (data_segs m) (CR3 m) l (msrs m) (mem m).
Definition with_rip a m := mkMachine (gprs m) a (RFLAGS m) (CS m) (SS m) (data_segs m) (CR3 m) (fpu m) (msrs m) (mem m).
(** The registers that a change of privilege sets together. *)
Definition with_context ip flags c s m := mkMachine (gprs m) ip flags c s (data_segs m) (CR3 m) (fpu m) (msrs m) (mem m).

Abbreviation MachM := (stM Machine Empty_set).

Definition get (r : Reg) : MachM Z := fun m => (Ok (gprs m r), m).
Definition put (r : Reg) (v : Z) : MachM unit := fun m => (Ok tt, with_reg r v m).
Definition change (f : Machine -> Machine) : MachM unit := fun m => (Ok tt, f m).

Definition load (a : Z) : MachM Z := fun m =>
  match mem m !! a with Some v => (Ok v, m) | None => (Panic, m) end.
Definition store (a v : Z) : MachM unit := fun m =>
  match mem m !! a with Some _ => (Ok tt, with_mem (<[a := v]> (mem m)) m) | None => (Panic, m) end.

Fixpoint store_words (a : Z) (l : list Z) : MachM unit :=
  match l with
  | [] => sret tt
  | v :: l => store a v ;;; store_words (a + 8) l
  end.

Fixpoint load_words (a : Z) (n : nat) : MachM (list Z) :=
  match n with
  | O => sret []
  | S n => let! v := load a in let! l := load_words (a + 8) n in sret (v :: l)
  end.

(** The words of an FXSAVE image that the processor reads and writes: its last 48 bytes are
    left to software. *)
Definition FPU_WORDS : nat := 58.

(** Model-specific registers and the flag of interrupts. *)
Definition IA32_GS_BASE : Z := 0xC0000101.
Definition IA32_KERNEL_GS_BASE : Z := 0xC0000102.
Definition IA32_STAR : Z := 0xC0000081.
Definition IA32_LSTAR : Z := 0xC0000082.
Definition IA32_FMASK : Z := 0xC0000084.
Definition IF_BIT : Z := 9.

Definition rdmsr (n : Z) (m : Machine) : Z := default 0 (msrs m !! n).
Definition wrmsr (n v : Z) (m : Machine) : Machine := with_msrs (<[n := v]> (msrs m)) m.

Definition interrupts_enabled (m : Machine) : bool := Z.testbit (RFLAGS m) IF_BIT.

Definition swapgs : MachM unit :=
  change (fun m => wrmsr IA32_GS_BASE (rdmsr IA32_KERNEL_GS_BASE m)
                     (wrmsr IA32_KERNEL_GS_BASE (rdmsr IA32_GS_BASE m) m)).

Definition push_word (v : Z) : MachM unit :=
  let! sp := get RSP in
  store (sp - 8) v ;;;
  put RSP (sp - 8).

Fixpoint push_words (l : list Z) : MachM unit :=
  match l with
  | [] => sret tt
  | v :: l => push_word v ;;; push_words l
  end.

Definition pop_word : MachM Z :=
  let! sp := get RSP in
  let! v := load sp in
  put RSP (sp + 8) ;;;
  sret v.

(** [mov ds, ax] and its like: a selector of a flat segment sets the base of gs to 0. *)
Definition load_segments (v : Z) : MachM unit :=
  change (fun m => wrmsr IA32_GS_BASE 0 (with_segs (replicate 4 v) m)).

Inductive Instr : Type :=
  | Push (r : Reg)
  | Pop (r : Reg)
  | Mov (dst src : Reg)
  | MovImm (dst : Reg) (v : Z)
  | MovToMem (base src : Reg)
  | MovToGs (off : Z) (src : Reg)
  | MovFromGs (dst : Reg) (off : Z)
  | PushGs (off : Z)
  | Swapgs
  | AddImm (r : Reg) (v : Z)
  | Cli
  | LoadSegments (src : Reg)
  | FxSave (a : Z)
  | FxRestore (a : Z)
  | Call (return_address : Z) (f : MachM unit)
  | Ret
  | Iretq
  | Sysretq.

(** The low 16 bits of a register: what [mov ax, imm] replaces and [mov ds, ax] reads. *)
Definition set_low16 (old v : Z) : Z := old - old mod 2 ^ 16 + v.

Definition exec_instr (i : Instr) : MachM unit :=
  match i with
  | Push r => let! v := get r in push_word v
  | Pop RSP => let! sp := get RSP in let! v := load sp in put RSP v
  | Pop r => let! v := pop_word in put r v
  | Mov dst src => let! v := get src in put dst v
  | MovImm dst v => let! old := get dst in put dst (set_low16 old v)
  | MovToMem base src => let! a := get base in let! v := get src in store a v
  | MovToGs off src => let! v := get src in fun m => store (rdmsr IA32_GS_BASE m + off) v m
  | MovFromGs dst off => let! v := (fun m => load (rdmsr IA32_GS_BASE m + off) m) in put dst v
  | PushGs off => let! v := (fun m => load (rdmsr IA32_GS_BASE m + off) m) in push_word v
  | Swapgs => swapgs
  | AddImm r v => let! old := get r in put r (old + v)
  | Cli => change (fun m => with_rflags (Z.clearbit (RFLAGS m) IF_BIT) m)
  | FxSave a => sassert (a mod 16 =? 0) ;;; fun m => store_words a (fpu m) m
  | FxRestore a =>
      sassert (a mod 16 =? 0) ;;; let! l := load_words a FPU_WORDS in change (with_fpu l)
  | LoadSegments src => let! v := get src in load_segments (v mod 2 ^ 16)
  | Call ra f => push_word ra ;;; f ;;; (pop_word ;;; sret tt)
  | Ret => let! ip := pop_word in change (with_rip ip)
  | Iretq =>
      let! sp := get RSP in
      let! ip := load sp in let! c := load (sp + 8) in let! flags := load (sp + 16) in
      let! sp' := load (sp + 24) in let! s := load (sp + 32) in
      put RSP sp' ;;; change (with_context ip flags c s)
  | Sysretq => fun m =>
      let base := Z.shiftr (rdmsr IA32_STAR m) 48 in
      (Ok tt, with_context (gprs m RCX) (Z.lor (Z.land (gprs m R11) 0x3C7FD7) 2)
                (Z.lor (base + 16) 3) (Z.lor (base + 8) 3) m)
  end.

(** A block of assembly, up to the instruction that leaves it. *)
Fixpoint exec (l : list Instr) : MachM unit :=
  match l with
  | [] => sret tt
  | i :: l => exec_instr i ;;; exec l
  end.

(** The processor's part of an interrupt: from ring 3 it changes to the stack of the task
    state segment, in ring 0 it aligns the stack pointer; then it pushes the context and
    turns interrupts off. *)
Definition interrupt_entry (rsp0 vector_address : Z) : MachM unit := fun m =>
  let user := Z.land (CS m) 3 =? 3 in
  (put RSP (if user then rsp0 else gprs m RSP - gprs m RSP mod 16) ;;;
   push_words [SS m; gprs m RSP; RFLAGS m; CS m; RIP m] ;;;
   change (with_context vector_address (Z.clearbit (RFLAGS m) IF_BIT) 0x08
             (if user then 0 else SS m))) m.

(** The [syscall] instruction; [RIP] is the address of the instruction after it. *)
Definition syscall_entry : MachM unit := fun m =>
  let base := Z.land (Z.shiftr (rdmsr IA32_STAR m) 32) 0xFFFF in
  (Ok tt, with_context (rdmsr IA32_LSTAR m) (Z.ldiff (RFLAGS m) (rdmsr IA32_FMASK m))
            (Z.land base 0xFFFC) (base + 8)
            (with_gprs (set_reg RCX (RIP m) (set_reg R11 (RFLAGS m) (gprs m))) m)).

(** ** Stacks and the calling convention *)

(** The words of a stack are mapped. *)
Definition stack_mapped (base top : Z) (m : Machine) : Prop :=
  forall a, base <= a < top -> a mod 8 = 0 -> is_Some (mem m !! a).

Definition callee_saved : list Reg := [RBX; RBP; R12; R13; R14; R15].

(** What every called function leaves as it was: registers of the caller, its return address,
    the selectors of [syscall] and [sysretq]. *)
Definition regs_kept (m m' : Machine) : Prop :=
  (forall r, r ∈ callee_saved -> gprs m' r = gprs m r) /\ gprs m' RSP = gprs m RSP /\
  mem m' !! gprs m RSP = mem m !! gprs m RSP /\ rdmsr IA32_STAR m' = rdmsr IA32_STAR m.

(** A compiled function that needs [room] bytes of stack: called in a state with [pre] it
    returns, in one that [post] relates to it. *)
Definition fn_ok (base top room : Z) (pre : Machine -> Prop) (post : Machine -> Machine -> Prop)
    (f : MachM unit) : Prop := forall m,
  pre m -> stack_mapped base top m -> base + room <= gprs m RSP < top -> gprs m RSP mod 16 = 8 ->
  exists m', f m = (Ok tt, m') /\ stack_mapped base top m' /\ regs_kept m m' /\ post m m'.

(** The stack of the callers, up to [top], is as it was. *)
Definition stack_kept (top : Z) (m m' : Machine) : Prop :=
  forall a, gprs m RSP <= a < top -> mem m' !! a = mem m !! a.

Definition abi (base top room : Z) (f : MachM unit) : Prop :=
  fn_ok base top room (fun _ => True) (stack_kept top) f.

(** [words_at h a l]: the words of [l] lie in memory from [a] on. *)
Definition words_at (h : gmap Z Z) (a : Z) (l : list Z) : Prop :=
  forall i v, l !! i = Some v -> h !! (a + 8 * Z.of_nat i) = Some v.

Lemma aligned_16_8 x : x mod 16 = 0 -> x mod 8 = 0.
Proof. intros Ha. rewrite <- (Z.mod_mod_divide _ 16 8), Ha by (exists 2; lia). done. Qed.

Lemma sub_aligned n x y : x mod n = 0 -> y mod n = 0 -> (x - y) mod n = 0.
Proof. intros Hx Hy. by rewrite Zminus_mod, Hx, Hy. Qed.

(** ** Lemmas on the blocks of pushes and pops *)

Lemma words_at_nil h a : words_at h a [].
Proof. by intros i v ?. Qed.

Lemma words_at_cons h a v l : words_at h a (v :: l) <-> h !! a = Some v /\ words_at h (a + 8) l.
Proof.
  split.
  - intros H. split; [specialize (H 0%nat v eq_refl); by rewrite Z.add_0_r in H|].
    intros i w Hi. specialize (H (S i) w Hi). rewrite <- H. f_equal. lia.
  - intros [H0 H] [|i] w Hi; [injection Hi as <-; by rewrite Z.add_0_r|].
    specialize (H i w Hi). rewrite <- H. f_equal. lia.
Qed.

Lemma words_at_app h a l l' :
  words_at h a (l ++ l') <-> words_at h a l /\ words_at h (a + 8 * zlen l) l'.
Proof.
  revert a; induction l as [|v l IH]; intros a; cbn [app length].
  - rewrite Z.mul_0_r, Z.add_0_r. split; [split; [apply words_at_nil|done]|tauto].
  - rewrite !words_at_cons, IH. replace (a + 8 * Z.of_nat (S (length l))) with (a + 8 + 8 * zlen l) by lia.
    tauto.
Qed.

(** Memory that agrees on the words holds them too. *)
Lemma words_at_frame h h' a l :
  words_at h a l -> (forall b, a <= b < a + 8 * zlen l -> h' !! b = h !! b) -> words_at h' a l.
Proof.
  intros H Hf i v Hi. rewrite Hf; [by apply H|].
  apply lookup_lt_Some in Hi. lia.
Qed.

Lemma push_ok base top v m :
  stack_mapped base top m -> base + 8 <= gprs m RSP <= top -> gprs m RSP mod 8 = 0 ->
  exists m', push_word v m = (Ok tt, m') /\
    m' = with_reg RSP (gprs m RSP - 8) (with_mem (<[gprs m RSP - 8 := v]> (mem m)) m) /\
    stack_mapped base top m'.
Proof.
  intros Hs Hr Ha. destruct (Hs (gprs m RSP - 8)) as [x Hx]; [lia| |].
  - rewrite Zminus_mod, Ha. done.
  - eexists. split; [|split; [reflexivity|]].
    + unfold push_word, get, store, put, sbind. cbn. by rewrite Hx.
    + intros a Hin Hal. cbn. destruct (decide (a = gprs m RSP - 8)) as [->|].
      * rewrite lookup_insert_eq. by eexists.
      * rewrite lookup_insert_ne by done. by apply Hs.
Qed.

Lemma set_reg_eq r v g : set_reg r v g r = v.
Proof. unfold set_reg. by case_decide. Qed.
Lemma set_reg_ne r r' v g : r' <> r -> set_reg r v g r' = g r'.
Proof. unfold set_reg. by case_decide. Qed.

(** Machines that differ in the stack pointer and in memory only. *)
Definition same_context (m m' : Machine) : Prop :=
  RIP m' = RIP m /\ RFLAGS m' = RFLAGS m /\ CS m' = CS m /\ SS m' = SS m /\ data_segs m' = data_segs m /\
  CR3 m' = CR3 m /\ fpu m' = fpu m /\ msrs m' = msrs m.

#[export] Instance same_context_preorder : PreOrder same_context.
Proof. split; [done|]. intros x y z; unfold same_context; intuition congruence. Qed.

Lemma push_words_ok base top vs m :
  stack_mapped base top m -> gprs m RSP mod 8 = 0 -> base + 8 * zlen vs <= gprs m RSP <= top ->
  exists m', push_words vs m = (Ok tt, m') /\
    gprs m' RSP = gprs m RSP - 8 * zlen vs /\ (forall r, r <> RSP -> gprs m' r = gprs m r) /\
    words_at (mem m') (gprs m' RSP) (rev vs) /\
    (forall a, gprs m RSP <= a \/ a < gprs m' RSP -> mem m' !! a = mem m !! a) /\
    same_context m m' /\ stack_mapped base top m'.
Proof.
  revert m; induction vs as [|v vs IH]; intros m Hs Ha Hr.
  - exists m. cbn [push_words rev length]. rewrite Z.mul_0_r, Z.sub_0_r.
    repeat split; try done.
  - cbn [length] in Hr.
    destruct (push_ok base top v m Hs ltac:(lia) Ha) as (m1 & E1 & Em1 & Hs1).
    assert (Hsp1 : gprs m1 RSP = gprs m RSP - 8) by (by rewrite Em1).
    assert (Hm1 : forall a, a <> gprs m RSP - 8 -> mem m1 !! a = mem m !! a).
    { intros a Hne. rewrite Em1. cbn. by rewrite lookup_insert_ne. }
    destruct (IH m1 Hs1) as (m' & E & Hsp & Hg & Hw & Hm & Hc & Hs').
    { rewrite Hsp1, Zminus_mod, Ha. done. }
    { lia. }
    exists m'. cbn [push_words length rev].
    split; [|split; [|split; [|split; [|split; [|split]]]]].
    + by rewrite (sbind_ok _ _ _ _ _ E1).
    + rewrite Hsp, Hsp1. lia.
    + intros r0 H0. rewrite Hg, Em1 by done. cbn. by rewrite set_reg_ne.
    + apply words_at_app. split; [done|].
      apply words_at_cons. split; [|apply words_at_nil].
      rewrite length_rev, Hm by lia. rewrite Hsp, Hsp1, Em1. cbn.
      replace (gprs m RSP - 8 - 8 * zlen vs + 8 * zlen vs) with (gprs m RSP - 8) by lia.
      apply lookup_insert_eq.
    + intros a Hin. rewrite Hm by lia. apply Hm1. lia.
    + rewrite <- Hc, Em1. done.
    + exact Hs'.
Qed.

Lemma pushes_words rs m : RSP ∉ rs -> exec (map Push rs) m = push_words (map (gprs m) rs) m.
Proof.
  revert m; induction rs as [|r rs IH]; intros m Hn; [done|].
  apply not_elem_of_cons in Hn as [_ Hn]. cbn [map exec push_words exec_instr].
  unfold sbind at 1 2 3, get. destruct (push_word (gprs m r) m) as [[[]|[]| |] m1] eqn:E; try done.
  rewrite IH by done. f_equal. apply map_ext_in. intros r0 H0.
  unfold push_word, get, store, put, sbind in E. destruct (mem m !! _); [|done]. injection E as <-.
  cbn. apply set_reg_ne. intros ->. apply Hn. by apply list_elem_of_In.
Qed.

Lemma pushes_ok base top rs m :
  RSP ∉ rs -> stack_mapped base top m -> gprs m RSP mod 8 = 0 -> base + 8 * zlen rs <= gprs m RSP <= top ->
  exists m', exec (map Push rs) m = (Ok tt, m') /\
    gprs m' RSP = gprs m RSP - 8 * zlen rs /\ (forall r, r <> RSP -> gprs m' r = gprs m r) /\
    words_at (mem m') (gprs m' RSP) (rev (map (gprs m) rs)) /\
    (forall a, gprs m RSP <= a \/ a < gprs m' RSP -> mem m' !! a = mem m !! a) /\
    same_context m m' /\ stack_mapped base top m'.
Proof.
  intros Hn Hs Ha Hr. rewrite (pushes_words _ _ Hn).
  destruct (push_words_ok base top (map (gprs m) rs) m Hs Ha) as (m' & H); rewrite ?length_map in *; eauto.
Qed.

Lemma pops_ok rs vs m :
  RSP ∉ rs -> NoDup rs -> length vs = length rs -> words_at (mem m) (gprs m RSP) vs ->
  exists m', exec (map Pop rs) m = (Ok tt, m') /\
    gprs m' RSP = gprs m RSP + 8 * zlen rs /\
    (forall i r v, rs !! i = Some r -> vs !! i = Some v -> gprs m' r = v) /\
    (forall r, r <> RSP -> r ∉ rs -> gprs m' r = gprs m r) /\
    mem m' = mem m /\ same_context m m'.
Proof.
  revert vs m; induction rs as [|r rs IH]; intros [|v vs] m Hn Hd Hl Hw; try discriminate Hl.
  - exists m. cbn [map exec length]. rewrite Z.mul_0_r, Z.add_0_r. repeat split; done.
  - apply not_elem_of_cons in Hn as [Hr' Hn]. apply list.NoDup_cons in Hd as [Hnr Hd].
    apply words_at_cons in Hw as [H0 Hw]. injection Hl as Hl.
    set (m1 := with_reg r v (with_reg RSP (gprs m RSP + 8) m)).
    assert (Hsp1 : gprs m1 RSP = gprs m RSP + 8) by (cbn; by rewrite set_reg_ne, set_reg_eq).
    assert (E1 : exec_instr (Pop r) m = (Ok tt, m1)).
    { destruct r; try done; unfold exec_instr, pop_word, get, load, put, sret, sbind; cbn; by rewrite H0. }
    destruct (IH vs m1 Hn Hd Hl) as (m' & E & Hsp & Hv & Hg & Hm & Hc).
    { by rewrite Hsp1. }
    exists m'. cbn [map exec length]. rewrite (sbind_ok _ _ _ _ _ E1). split; [done|].
    split; [rewrite Hsp, Hsp1; lia|]. split; [|split; [|split; [done|exact Hc]]].
    + intros [|i] r0 v0 Hi Hiv.
      * injection Hi as <-. injection Hiv as <-. rewrite Hg by done. cbn. by rewrite set_reg_eq.
      * by apply (Hv i).
    + intros r0 H1 H2. apply not_elem_of_cons in H2 as [H2 H3]. rewrite Hg by done. cbn.
      by rewrite !set_reg_ne.
Qed.

Lemma exec_app l l' m : exec (l ++ l') m = (exec l ;;; exec l') m.
Proof.
  revert m; induction l as [|i l IH]; intros m; cbn [app exec].
  - done.
  - unfold sbind. destruct (exec_instr i m) as [[[]|[]| |] m1]; [by rewrite IH|done..].
Qed.

Lemma exec_app_ok l l' m m1 : exec l m = (Ok tt, m1) -> exec (l ++ l') m = exec l' m1.
Proof. intros E. by rewrite exec_app, (sbind_ok _ _ _ _ _ E). Qed.

(** The state in which a called function starts: the return address is pushed. *)
Definition called (ra : Z) (m m1 : Machine) : Prop :=
  gprs m1 RSP = gprs m RSP - 8 /\ (forall r, r <> RSP -> gprs m1 r = gprs m r) /\
  (forall a, gprs m RSP <= a -> mem m1 !! a = mem m !! a) /\ msrs m1 = msrs m.

Lemma call_ok base top room pre post ra f m :
  fn_ok base top room pre post f -> stack_mapped base top m -> gprs m RSP mod 16 = 0 ->
  base + room + 8 <= gprs m RSP <= top -> 0 <= room ->
  (forall m1, called ra m m1 -> pre m1) ->
  exists m1 m2, exec_instr (Call ra f) m = (Ok tt, with_reg RSP (gprs m RSP) m2) /\ called ra m m1 /\
    stack_mapped base top m2 /\ regs_kept m1 m2 /\ post m1 m2.
Proof.
  intros Hf Hs Ha Hr Hroom Hpre.
  assert (Ha8 : gprs m RSP mod 8 = 0).
  { by apply aligned_16_8. }
  destruct (push_ok base top ra m Hs ltac:(lia) Ha8) as (m1 & E1 & Em1 & Hs1).
  assert (Hc : called ra m m1).
  { rewrite Em1. unfold called. cbn. rewrite set_reg_eq. repeat split.
    - intros r Hne. by rewrite set_reg_ne.
    - intros a Hin. by rewrite lookup_insert_ne by lia. }
  pose proof Hc as (Hsp1 & _).
  destruct (Hf m1 (Hpre m1 Hc) Hs1) as (m2 & E2 & Hs2 & Hk & Hp); [lia| |].
  { rewrite Hsp1, Zminus_mod, Ha. done. }
  exists m1, m2. split; [|done].
  cbn [exec_instr]. rewrite (sbind_ok _ _ _ _ _ E1), (sbind_ok _ _ _ _ _ E2).
  destruct Hk as (_ & Hsp2 & Hra & _).
  unfold pop_word, get, load, put, sret, sbind. rewrite Hsp2, Hra, Hsp1, Em1. cbn.
  rewrite lookup_insert_eq. cbn. do 2 f_equal. lia.
Qed.

(** A call of an ordinary function, seen by the caller. *)
Lemma call_abi base top room ra f m :
  abi base top room f -> stack_mapped base top m -> gprs m RSP mod 16 = 0 ->
  base + room + 8 <= gprs m RSP <= top -> 0 <= room ->
  exists m', exec_instr (Call ra f) m = (Ok tt, m') /\ stack_mapped base top m' /\
    (forall r, r ∈ callee_saved -> gprs m' r = gprs m r) /\ gprs m' RSP = gprs m RSP /\ stack_kept top m m' /\
    rdmsr IA32_STAR m' = rdmsr IA32_STAR m.
Proof.
  intros Hf Hs Ha Hr Hroom.
  destruct (call_ok _ _ _ _ _ ra _ m Hf Hs Ha Hr Hroom) as (m1 & m2 & E & (Hsp & Hg & Hm & Hmsr) & Hs2 & Hk & Hp);
    [done|].
  destruct Hk as (Hcs & Hsp2 & _ & Hst).
  exists (with_reg RSP (gprs m RSP) m2). split; [done|]. split; [done|]. split; [|split; [|split]].
  - intros r Hin. assert (r <> RSP).
    { intros ->. apply list_elem_of_In in Hin. by repeat destruct Hin as [Hin|Hin]. }
    cbn. rewrite set_reg_ne by done. by rewrite Hcs, Hg.
  - cbn. by rewrite set_reg_eq.
  - intros a Hin. cbn. rewrite (Hp a) by lia. apply Hm. lia.
  - unfold rdmsr in *. cbn. by rewrite Hst, Hmsr.
Qed.

(** Storing and loading blocks of words. *)
Lemma store_words_ok l a m :
  (forall i, (i < length l)%nat -> is_Some (mem m !! (a + 8 * Z.of_nat i))) ->
  exists h, store_words a l m = (Ok tt, with_mem h m) /\ words_at h a l /\
    (forall b, b < a \/ a + 8 * zlen l <= b -> h !! b = mem m !! b) /\
    (forall b, is_Some (mem m !! b) -> is_Some (h !! b)).
Proof.
  revert a m; induction l as [|v l IH]; intros a m Hs.
  - exists (mem m). cbn. split; [by destruct m|]. split; [apply words_at_nil|done].
  - cbn [length] in *. destruct (Hs 0%nat ltac:(lia)) as [x Hx]. rewrite Z.mul_0_r, Z.add_0_r in Hx.
    set (m1 := with_mem (<[a := v]> (mem m)) m).
    assert (Hsome : forall b, is_Some (mem m !! b) -> is_Some (mem m1 !! b)).
    { intros b Hb. cbn. destruct (decide (b = a)) as [->|]; [rewrite lookup_insert_eq; by eexists|].
      by rewrite lookup_insert_ne. }
    destruct (IH (a + 8) m1) as (h & E & Hw & Hf & Hk).
    { intros i Hi. apply Hsome. specialize (Hs (S i) ltac:(lia)). by replace (a + 8 + 8 * Z.of_nat i) with (a + 8 * Z.of_nat (S i)) by lia. }
    exists h. split; [|split; [|split]].
    + cbn [store_words]. rewrite (sbind_ok (store a v) _ m tt m1); [done|]. unfold store. by rewrite Hx.
    + apply words_at_cons. split; [|done]. rewrite Hf by lia. cbn. apply lookup_insert_eq.
    + intros b Hb. rewrite Hf by lia. cbn. rewrite lookup_insert_ne; [done|]. lia.
    + intros b Hb. by apply Hk, Hsome.
Qed.

Lemma load_words_ok l a m : words_at (mem m) a l -> load_words a (length l) m = (Ok l, m).
Proof.
  revert a; induction l as [|v l IH]; intros a Hw; [done|].
  apply words_at_cons in Hw as [H0 Hw]. cbn [length load_words].
  rewrite (sbind_ok (load a) _ m v m); [|unfold load; by rewrite H0].
  rewrite (sbind_ok _ _ _ _ _ (IH _ Hw)). done.
Qed.
