(* ===== verification/Contexts.v ===== *)
(** * Contexts: the assembly that enters, leaves and switches the kernel

    kernel/src/trap.rs (interrupt stubs), process/syscall.rs (the entry of system calls),
    process/scheduler.rs ([switch_context]) and process/task.rs (the stack of a new task, its
    first entry into ring 3, the FPU image), as blocks of instructions of Machine.v.  The
    bodies they call are parameters: the handlers, [exit_to_user] and the dispatch of system
    calls, whose logic is in Interrupts.v, Scheduler.v and Syscalls.v.  Addresses of code and
    statics, which the linker chooses, are parameters as well. *)

From Stdlib Require Import ZArith Lia.
From stdpp Require Import base tactics gmap list numbers option.
From S2P Require Import Prelude Tasks Scheduler Interrupts Machine.

Open Scope rust_scope.

Definition KERNEL_CODE_SELECTOR_VALUE : Z := 0x08.
Definition KERNEL_DATA_SELECTOR_VALUE : Z := 0x10.
Definition USER_DATA_SELECTOR_VALUE : Z := Z.lor 0x18 3.
Definition USER_CODE_SELECTOR_VALUE : Z := Z.lor 0x20 3.
Definition RFLAGS_DEFAULT : Z := 0x202.

(** ** Trap frames and interrupt stubs (trap.rs) *)

Module TrapFrame.

(** The fields in the order of their addresses. *)
Record t : Type := mk {
  r15 : Z; r14 : Z; r13 : Z; r12 : Z; r11 : Z; r10 : Z; r9 : Z; r8 : Z;
  rdi : Z; rsi : Z; rbp : Z; rbx : Z; rdx : Z; rcx : Z; rax : Z;
  rip : Z; cs : Z; rflags : Z; rsp : Z; ss : Z;
}.

Definition words (f : t) : list Z :=
  [r15 f; r14 f; r13 f; r12 f; r11 f; r10 f; r9 f; r8 f; rdi f; rsi f; rbp f; rbx f; rdx f; rcx f; rax f;
   rip f; cs f; rflags f; rsp f; ss f].

Definition zeroed : t := mk 0 0 0 0 0 0 0 0 0 0 0 0 0 0 0 0 0 0 0 0.

Definition cs_offset : Z := 16 * 8.
Definition ss_offset : Z := 19 * 8.

End TrapFrame.

Definition TRAP_FRAME_SIZE : Z := 20 * 8.

Definition push_all_gprs : list Instr :=
  map Push [RAX; RCX; RDX; RBX; RBP; RSI; RDI; R8; R9; R10; R11; R12; R13; R14; R15].

Definition pop_all_gprs : list Instr :=
  map Pop [R15; R14; R13; R12; R11; R10; R9; R8; RDI; RSI; RBP; RBX; RDX; RCX; RAX].

(** [interrupt_return_path(frame)], the frame at the address in RDI. *)
Definition interrupt_return_path (exit_to_user : MachM unit) : MachM unit :=
  let! frame := get RDI in
  let! cs := load (frame + TrapFrame.cs_offset) in
  if negb (Z.land cs RPL_MASK =? RPL_USER) then sret tt
  else store (frame + TrapFrame.ss_offset) USER_DATA_SELECTOR_VALUE ;;; exit_to_user.

(** [interrupt_stub!] *)
Definition interrupt_stub (ra1 ra2 : Z) (handler return_path : MachM unit) : list Instr :=
  push_all_gprs ++
  [Mov RDI RSP; Call ra1 handler; Mov RDI RSP; Call ra2 return_path] ++
  pop_all_gprs ++ [Iretq].

(** ** System calls (process/syscall.rs) *)

Module SyscallRegs.

(** [SyscallFrame], the fields in the order of their addresses. *)
Record t : Type := mk {
  r15 : Z; r14 : Z; r13 : Z; r12 : Z; rbp : Z; rbx : Z;
  arg6 : Z; arg5 : Z; arg4 : Z; arg3 : Z; arg2 : Z; arg1 : Z; syscall_num : Z;
  rflags : Z; user_rip : Z; user_rsp : Z;
}.

Definition words (f : t) : list Z :=
  [r15 f; r14 f; r13 f; r12 f; rbp f; rbx f; arg6 f; arg5 f; arg4 f; arg3 f; arg2 f; arg1 f; syscall_num f;
   rflags f; user_rip f; user_rsp f].

(** The reference to a frame in memory. *)
Definition at_address (a : Z) : MachM t :=
  let! l := load_words a 16 in
  match l with
  | [x15; x14; x13; x12; xbp; xbx; x9; x8; x10; xdx; xsi; xdi; xax; xfl; xip; xsp] =>
      sret (mk x15 x14 x13 x12 xbp xbx x9 x8 x10 xdx xsi xdi xax xfl xip xsp)
  | _ => spanic
  end.

End SyscallRegs.

Definition PER_CORE_SYSCALL_DATA_SIZE : Z := 64.
Definition STACK_TOP_OFFSET : Z := 0.
Definition SYSCALL_USER_RSP_SCRATCH_OFFSET : Z := 8.

Definition syscall_slot (SYSCALL_DATA core_id : Z) : Z := SYSCALL_DATA + core_id * PER_CORE_SYSCALL_DATA_SIZE.

Definition set_syscall_stack_top (SYSCALL_DATA core_id stack_top : Z) : MachM unit :=
  store (syscall_slot SYSCALL_DATA core_id + STACK_TOP_OFFSET) stack_top.

Definition syscall_saves : list Reg :=
  [RCX; R11; RAX; RDI; RSI; RDX; R10; R8; R9; RBX; RBP; R12; R13; R14; R15].

Definition syscall_restores : list Reg :=
  [R15; R14; R13; R12; RBP; RBX; R9; R8; R10; RDX; RSI; RDI].

Definition syscall_handler (ra : Z) (handle_syscall : MachM unit) : list Instr :=
  [Swapgs; MovToGs SYSCALL_USER_RSP_SCRATCH_OFFSET RSP; MovFromGs RSP STACK_TOP_OFFSET;
   PushGs SYSCALL_USER_RSP_SCRATCH_OFFSET; Swapgs] ++
  map Push syscall_saves ++
  [Mov RDI RSP; Call ra handle_syscall; Cli] ++
  map Pop syscall_restores ++
  [AddImm RSP 8; Pop R11; Pop RCX; Pop RSP; Sysretq].

(** [handle_syscall_inner]: the frame is read, the call dispatched, the result returned in
    RAX.  [work] is the rest of the compiled function: it runs the call and [exit_to_user]. *)
Definition handle_syscall_inner (dispatch_syscall : SyscallRegs.t -> Z) (work : MachM unit) : MachM unit :=
  let! frame := get RDI in
  sassert (frame mod 16 =? 0) ;;;
  let! f := SyscallRegs.at_address frame in
  work ;;;
  put RAX (dispatch_syscall f).

(** [init_syscall]; the bit of EFER that turns [syscall] on is left out. *)
Definition STAR_VALUE : Z := Z.lor (Z.shiftl 0x10 48) (Z.shiftl 0x08 32).
Definition SFMASK : Z := Z.shiftl 1 9.

Definition init_syscall (SYSCALL_DATA core_id handler_address : Z) : MachM unit :=
  sassert (core_id <? MAX_CORES) ;;;
  change (wrmsr IA32_KERNEL_GS_BASE (syscall_slot SYSCALL_DATA core_id)) ;;;
  change (wrmsr IA32_STAR STAR_VALUE) ;;;
  change (wrmsr IA32_LSTAR handler_address) ;;;
  change (wrmsr IA32_FMASK SFMASK).

(** ** Switching (process/scheduler.rs) *)

Definition switch_saves : list Reg := [RBX; RBP; R12; R13; R14; R15].

(** [switch_context(save_rsp, load_rsp)], with its arguments in RDI and RSI. *)
Definition switch_context : list Instr :=
  map Push switch_saves ++ [MovToMem RDI RSP; Mov RSP RSI] ++ map Pop (rev switch_saves) ++ [Ret].

(** A call of it: the arguments, the return address, the block. *)
Definition call_switch (ra save_rsp load_rsp : Z) : MachM unit :=
  put RDI save_rsp ;;; put RSI load_rsp ;;; push_word ra ;;; exec switch_context.

(** [run_task] at the switch: the FPU image of the task, its page table, its stack. *)
Definition run_task_switch (ra scheduler_rsp fpu_state cr3 saved_rsp : Z) : MachM unit :=
  exec [FxRestore fpu_state] ;;;
  change (with_cr3 cr3) ;;;
  let! sp := load saved_rsp in
  call_switch ra scheduler_rsp sp.

(** [core_switch_executing_yielding] at the switch. *)
Definition yield_switch (ra scheduler_rsp fpu_state saved_rsp : Z) : MachM unit :=
  exec [FxSave fpu_state] ;;;
  let! sp := load scheduler_rsp in
  call_switch ra saved_rsp sp.

(** ** New tasks (process/task.rs) *)

Definition CALLEE_SAVED_REGISTER_COUNT : nat := 6.
Definition CALLEE_SAVED_SIZE : Z := Z.of_nat CALLEE_SAVED_REGISTER_COUNT * 8.
Definition RETURN_ADDRESS_SIZE : Z := 8.

(** The FPU image of a slot as words. *)
Definition fpu_words_new : list Z :=
  map (fun i => le_word (slice fpu_new (8 * i) 8)) (seq 0 FPU_WORDS).

(** [init_task_stack]: [task_first_entry] is the address of the block below. *)
Definition init_task_stack (task_first_entry stack_top saved_rsp_cell user_rip user_rsp : Z) : MachM unit :=
  sassert (stack_top mod 16 =? 0) ;;;
  let! trap_frame_addr := slift (usub stack_top TRAP_FRAME_SIZE) in
  let! return_address_slot := slift (usub trap_frame_addr RETURN_ADDRESS_SIZE) in
  let! saved_rsp := slift (usub return_address_slot CALLEE_SAVED_SIZE) in
  let frame := TrapFrame.mk 0 0 0 0 0 0 0 0 0 0 0 0 0 0 0
    user_rip USER_CODE_SELECTOR_VALUE RFLAGS_DEFAULT user_rsp USER_DATA_SELECTOR_VALUE in
  store_words trap_frame_addr (TrapFrame.words frame) ;;;
  store return_address_slot task_first_entry ;;;
  store_words saved_rsp (replicate CALLEE_SAVED_REGISTER_COUNT 0) ;;;
  store saved_rsp_cell saved_rsp.

(** [allocate_task_slot] gives the slot the FPU state of a reset. *)
Definition reset_fpu_state (fpu_state : Z) : MachM unit := store_words fpu_state fpu_words_new.

Definition task_first_entry_check (exit_if_kill_pending : MachM unit) : MachM unit :=
  let! frame := get RDI in
  sassert (frame mod 16 =? 0) ;;;
  let! cs := load (frame + TrapFrame.cs_offset) in
  sassert (cs =? USER_CODE_SELECTOR_VALUE) ;;;
  exit_if_kill_pending.

Definition task_first_entry (ra : Z) (check : MachM unit) : list Instr :=
  [Mov RDI RSP; Call ra check; MovImm RAX USER_DATA_SELECTOR_VALUE; LoadSegments RAX] ++
  pop_all_gprs ++ [Iretq].
