(* ===== verification/ContextsSpec.v ===== *)
(** * Contexts: nothing of an interrupted or calling program is lost

    An interrupt stub brings every register back ([interrupt_resumes]); a system call passes
    its arguments, returns its result and changes no other register than the two the
    instruction uses ([syscall_returns]); the first switch to a new task ends in ring 3 at its
    entry point ([first_entry_ok]). *)

From Stdlib Require Import ZArith Lia.
From stdpp Require Import base tactics gmap list numbers option.
From S2P Require Import Prelude Tasks Scheduler Interrupts Machine Contexts.

Open Scope rust_scope.

(** Facts about concrete lists of registers. *)
Ltac decided := apply (bool_decide_unpack _); vm_compute; exact I.

Lemma multiple_mod x n q : n <> 0 -> x = q * n -> x mod n = 0.
Proof. intros ? ->. by apply Z.mod_mul. Qed.

Lemma low16_set old v : 0 <= v < 2 ^ 16 -> set_low16 old v mod 2 ^ 16 = v.
Proof.
  intros Hv. unfold set_low16.
  replace (old - old mod 2 ^ 16 + v) with (v + (old / 2 ^ 16) * 2 ^ 16) by (pose proof (Z.div_mod old (2 ^ 16)); lia).
  rewrite Z.mod_add by done. by apply Z.mod_small.
Qed.

(** ** Memory that a call leaves alone *)

(** Called on the stack from [base] to [top], with the room it needs, [f] leaves the word at [a]
    as it was. *)
Definition spares (base top room a : Z) (f : MachM unit) : Prop := forall m r m',
  base + room <= gprs m RSP < top -> f m = (r, m') -> mem m' !! a = mem m !! a.

Lemma push_word_mem v m m' a : push_word v m = (Ok tt, m') -> a <> gprs m RSP - 8 ->
  mem m' !! a = mem m !! a /\ gprs m' RSP = gprs m RSP - 8 /\ forall r, r <> RSP -> gprs m' r = gprs m r.
Proof.
  unfold push_word, sbind, get, store, put. intros E Hne. destruct (mem m !! (gprs m RSP - 8)) eqn:El; [|done].
  injection E as <-. cbn. split; [by rewrite lookup_insert_ne by done|]. split; [apply set_reg_eq|]. intros r Hr. by apply set_reg_ne.
Qed.

Lemma pop_word_mem m v m' : pop_word m = (Ok v, m') -> mem m' = mem m.
Proof. unfold pop_word, sbind, get, load, put, sret. destruct (mem m !! gprs m RSP); [|done]. by intros [= _ <-]. Qed.

(** A call of [f], whose run from the pushed return address on leaves [a] alone. *)
Lemma call_mem ra f m m' a : exec_instr (Call ra f) m = (Ok tt, m') -> a <> gprs m RSP - 8 ->
  (forall m1 r m2, gprs m1 RDI = gprs m RDI -> gprs m1 RSP = gprs m RSP - 8 -> f m1 = (r, m2) -> mem m2 !! a = mem m1 !! a) -> mem m' !! a = mem m !! a.
Proof.
  cbn [exec_instr]. intros E Hne Hf. apply sbind_inv_ok in E as ([] & m1 & E1 & E). apply sbind_inv_ok in E as ([] & m2 & E2 & E).
  apply sbind_inv_ok in E as (v & m3 & E3 & E). injection E as <-. apply pop_word_mem in E3 as ->.
  destruct (push_word_mem _ _ _ a E1 Hne) as (Em & Esp & Eg). rewrite <- Em. eapply Hf; [|exact Esp|exact E2]. by apply Eg.
Qed.

Lemma return_path_mem base top room exit_to_user m r m' a : spares base top room a exit_to_user -> base + room <= gprs m RSP < top -> a <> gprs m RDI + TrapFrame.ss_offset ->
  interrupt_return_path exit_to_user m = (r, m') -> mem m' !! a = mem m !! a.
Proof.
  intros Hx Hr Hne. unfold interrupt_return_path, sbind, get, load, store, sret.
  destruct (mem m !! (gprs m RDI + TrapFrame.cs_offset)) as [cs|]; [|by intros [= _ <-]]. destruct (negb _); [by intros [= _ <-]|].
  destruct (mem m !! (gprs m RDI + TrapFrame.ss_offset)); [|by intros [= _ <-]]. intros E. apply Hx in E; [|done]. rewrite E. cbn.
  by rewrite lookup_insert_ne by done.
Qed.

(** ** Interrupts *)

Section stubs.
Context (base top room : Z) (Hroom : 0 <= room).

(** The way back to ring 3 writes the stack selector of the frame and nothing else of it. *)
Definition return_path_pre (user : bool) (m : Machine) : Prop :=
  (exists cs, mem m !! (gprs m RDI + 128) = Some cs /\ (Z.land cs 3 =? 3) = user) /\
  is_Some (mem m !! (gprs m RDI + 152)) /\ gprs m RSP < gprs m RDI.

Definition return_path_post (user : bool) (m m' : Machine) : Prop :=
  forall a, gprs m RSP <= a < top ->
    mem m' !! a = if user && (a =? gprs m RDI + 152) then Some USER_DATA_SELECTOR_VALUE else mem m !! a.

Lemma return_path_ok user exit_to_user :
  abi base top room exit_to_user ->
  fn_ok base top room (return_path_pre user) (return_path_post user) (interrupt_return_path exit_to_user).
Proof.
  intros Hx m ((cs & Hcs & Hu) & (ss & Hss) & Hlt) Hs Hr Ha.
  unfold interrupt_return_path, get. change TrapFrame.cs_offset with 128. change TrapFrame.ss_offset with 152.
  rewrite (sbind_ok _ _ m (gprs m RDI) m) by done.
  rewrite (sbind_ok (load (gprs m RDI + 128)) _ m cs m) by (unfold load; by rewrite Hcs).
  change (Z.land cs RPL_MASK =? RPL_USER) with (Z.land cs 3 =? 3). rewrite Hu. destruct user; cbn [negb].
  - set (m1 := with_mem (<[gprs m RDI + 152 := USER_DATA_SELECTOR_VALUE]> (mem m)) m).
    rewrite (sbind_ok (store (gprs m RDI + 152) _) _ m tt m1) by (unfold store; by rewrite Hss).
    destruct (Hx m1 I) as (m' & E & Hs' & (Hk & Hsp & Hra & Hst) & Hp); [|done..|].
    { intros a Hin Hal. cbn. destruct (decide (a = gprs m RDI + 152)) as [->|].
      - rewrite lookup_insert_eq. by eexists.
      - rewrite lookup_insert_ne by done. by apply Hs. }
    exists m'. split; [done|]. split; [done|]. split.
    + split; [done|]. split; [done|]. split; [|done]. etrans; [exact Hra|]. cbn. by rewrite lookup_insert_ne by lia.
    + intros a Hin. rewrite Hp by done. cbn. destruct (Z.eqb_spec a (gprs m RDI + 152)) as [->|].
      * apply lookup_insert_eq.
      * by rewrite lookup_insert_ne.
  - exists m. split; [done|]. split; [done|]. split; [done|]. by intros a Hin.
Qed.

Definition user_mode (m : Machine) : bool := Z.land (CS m) 3 =? 3.

(** Where the processor starts to push. *)
Definition entry_stack (rsp0 : Z) (m : Machine) : Z :=
  if user_mode m then rsp0 else gprs m RSP - gprs m RSP mod 16.

Lemma interrupt_entry_ok rsp0 vec m :
  stack_mapped base top m -> entry_stack rsp0 m mod 16 = 0 -> base + 40 <= entry_stack rsp0 m <= top ->
  exists m1, interrupt_entry rsp0 vec m = (Ok tt, m1) /\ gprs m1 RSP = entry_stack rsp0 m - 40 /\
    (forall r, r <> RSP -> gprs m1 r = gprs m r) /\
    words_at (mem m1) (gprs m1 RSP) [RIP m; CS m; RFLAGS m; gprs m RSP; SS m] /\
    (forall a, entry_stack rsp0 m <= a \/ a < entry_stack rsp0 m - 40 -> mem m1 !! a = mem m !! a) /\
    interrupts_enabled m1 = false /\ stack_mapped base top m1.
Proof.
  intros Hs Ha Hr. unfold interrupt_entry.
  change (if Z.land (CS m) 3 =? 3 then rsp0 else gprs m RSP - gprs m RSP mod 16) with (entry_stack rsp0 m).
  set (m0 := with_reg RSP (entry_stack rsp0 m) m).
  rewrite (sbind_ok (put _ _) _ m tt m0) by done.
  destruct (push_words_ok base top [SS m; gprs m RSP; RFLAGS m; CS m; RIP m] m0) as (m1 & E & Hsp & Hg & Hw & Hm & Hc & Hs').
  { exact Hs. }
  { cbn. rewrite set_reg_eq. by apply aligned_16_8. }
  { cbn. rewrite set_reg_eq. lia. }
  cbn in Hsp. rewrite set_reg_eq in Hsp. rewrite (sbind_ok _ _ _ _ _ E).
  eexists. split; [reflexivity|]. cbn -[interrupts_enabled]. split; [lia|]. split; [|split; [|split; [|split]]].
  - intros r Hne. rewrite Hg by done. cbn. by apply set_reg_ne.
  - exact Hw.
  - intros a Hin. rewrite Hm; [done|]. cbn. rewrite set_reg_eq, Hsp. change (zlen [_; _; _; _; _]) with 5. lia.
  - apply Z.clearbit_eq.
  - exact Hs'.
Qed.

(** The two calls of a stub, around a trap frame: only the stack selector may change. *)
Definition set_ss (v : Z) (f : TrapFrame.t) : TrapFrame.t :=
  TrapFrame.mk (TrapFrame.r15 f) (TrapFrame.r14 f) (TrapFrame.r13 f) (TrapFrame.r12 f) (TrapFrame.r11 f)
    (TrapFrame.r10 f) (TrapFrame.r9 f) (TrapFrame.r8 f) (TrapFrame.rdi f) (TrapFrame.rsi f) (TrapFrame.rbp f)
    (TrapFrame.rbx f) (TrapFrame.rdx f) (TrapFrame.rcx f) (TrapFrame.rax f) (TrapFrame.rip f) (TrapFrame.cs f)
    (TrapFrame.rflags f) (TrapFrame.rsp f) v.

Definition returning (f : TrapFrame.t) : TrapFrame.t :=
  if Z.land (TrapFrame.cs f) 3 =? 3 then set_ss USER_DATA_SELECTOR_VALUE f else f.

Lemma returning_words f :
  TrapFrame.words (returning f) = take 19 (TrapFrame.words f) ++
    [if Z.land (TrapFrame.cs f) 3 =? 3 then USER_DATA_SELECTOR_VALUE else TrapFrame.ss f].
Proof. unfold returning. by destruct (Z.land (TrapFrame.cs f) 3 =? 3). Qed.

Definition stub_calls (ra1 ra2 : Z) (handler return_path : MachM unit) : list Instr :=
  [Mov RDI RSP; Call ra1 handler; Mov RDI RSP; Call ra2 return_path].

Lemma stub_calls_ok ra1 ra2 handler exit_to_user m f :
  abi base top room handler -> abi base top room exit_to_user ->
  stack_mapped base top m -> gprs m RSP mod 16 = 0 -> base + room + 8 <= gprs m RSP <= top - TRAP_FRAME_SIZE ->
  words_at (mem m) (gprs m RSP) (TrapFrame.words f) ->
  exists m', exec (stub_calls ra1 ra2 handler (interrupt_return_path exit_to_user)) m = (Ok tt, m') /\
    gprs m' RSP = gprs m RSP /\ words_at (mem m') (gprs m' RSP) (TrapFrame.words (returning f)) /\
    (forall a, gprs m RSP + TRAP_FRAME_SIZE <= a < top -> mem m' !! a = mem m !! a) /\ stack_mapped base top m' /\
    (forall a, a < base \/ top <= a -> spares base top room a handler -> spares base top room a exit_to_user -> mem m' !! a = mem m !! a).
Proof.
  intros Hh Hx Hs Ha Hr Hw. set (user := Z.land (TrapFrame.cs f) 3 =? 3). change TRAP_FRAME_SIZE with 160 in *.
  set (m2 := with_reg RDI (gprs m RSP) m).
  destruct (call_abi base top room ra1 handler m2 Hh Hs Ha) as (m3 & E3 & Hs3 & _ & Hsp3 & Hst3 & _); [change (gprs m2 RSP) with (gprs m RSP); lia|done|].
  change (gprs m3 RSP = gprs m RSP) in Hsp3. set (m4 := with_reg RDI (gprs m3 RSP) m3).
  change (gprs m4 RSP = gprs m RSP) in Hsp3.
  assert (Hdi : gprs m4 RDI = gprs m RSP) by (rewrite <- Hsp3; apply set_reg_eq).
  assert (Hf : forall a, gprs m RSP <= a < top -> mem m4 !! a = mem m !! a) by apply Hst3.
  assert (Hw4 : words_at (mem m4) (gprs m RSP) (TrapFrame.words f)).
  { apply (words_at_frame (mem m)); [done|]. cbn [TrapFrame.words length]. intros b Hb. apply Hf. lia. }
  destruct (call_ok base top room _ _ ra2 _ m4 (return_path_ok user exit_to_user Hx) Hs3)
    as (m5 & m6 & E6 & (Hsp5 & Hg5 & Hm5 & _) & Hs6 & Hk6 & Hp6).
  { by rewrite Hsp3. }
  { lia. }
  { done. }
  { intros m5 (Hsp5 & Hg5 & Hm5 & _). unfold return_path_pre. rewrite Hg5, Hsp5, Hdi, Hsp3, !Hm5 by done || lia.
    split; [|split; [|lia]].
    - exists (TrapFrame.cs f). split; [|done]. by apply (Hw4 16%nat).
    - exists (TrapFrame.ss f). by apply (Hw4 19%nat). }
  assert (Hmem : forall a, gprs m RSP <= a < top ->
    mem m6 !! a = if user && (a =? gprs m RSP + 152) then Some USER_DATA_SELECTOR_VALUE else mem m !! a).
  { intros a Hin. rewrite Hp6 by lia. rewrite Hg5, Hm5, Hdi, Hf by done || lia. done. }
  exists (with_reg RSP (gprs m4 RSP) m6). split; [|split; [|split; [|split; [|split]]]].
  - unfold stub_calls. cbn [exec]. rewrite (sbind_ok (exec_instr (Mov RDI RSP)) _ m tt m2) by done.
    rewrite (sbind_ok _ _ _ _ _ E3). rewrite (sbind_ok (exec_instr (Mov RDI RSP)) _ m3 tt m4) by done.
    rewrite (sbind_ok _ _ _ _ _ E6). done.
  - cbn. by rewrite set_reg_eq.
  - cbn [with_reg with_gprs gprs mem]. rewrite set_reg_eq, Hsp3, returning_words.
    change (TrapFrame.words f) with (take 19 (TrapFrame.words f) ++ [TrapFrame.ss f]) in Hw.
    apply words_at_app in Hw as [Hw Hlast]. apply words_at_cons in Hlast as [Hlast _].
    change (zlen (take 19 (TrapFrame.words f))) with 19 in *.
    apply words_at_app. split.
    + apply (words_at_frame (mem m)); [done|]. intros b Hb. change (zlen (take 19 (TrapFrame.words f))) with 19 in Hb.
      rewrite Hmem by lia. by replace (b =? gprs m RSP + 152) with false by lia; rewrite andb_false_r.
    + change (zlen (take 19 (TrapFrame.words f))) with 19. apply words_at_cons. split; [|apply words_at_nil].
      rewrite Hmem by lia. replace (gprs m RSP + 8 * 19 =? gprs m RSP + 152) with true by lia.
      fold user. destruct user; [done|]. exact Hlast.
  - intros a Hin. cbn. rewrite Hmem by lia. by replace (a =? gprs m RSP + 152) with false by lia; rewrite andb_false_r.
  - exact Hs6.
  - intros a Hout Ha1 Ha2. etrans.
    + eapply call_mem; [exact E6|rewrite Hsp3; lia|]. intros m1 r m2' Edi Esp E. eapply (return_path_mem base top room); [done|lia| |exact E].
      rewrite Edi, Hdi. change TrapFrame.ss_offset with 152. lia.
    + etrans; [|eapply (call_mem ra1 handler m2); [exact E3|change (gprs m2 RSP) with (gprs m RSP); lia|]; intros m1 r m2' _ Esp E; eapply Ha1; [|exact E]; change (gprs m2 RSP) with (gprs m RSP) in Esp; lia]. done.
Qed.
End stubs.

(** ** Leaving through a trap frame *)

Definition frame_reg (f : TrapFrame.t) (r : Reg) : Z :=
  match r with
  | RAX => TrapFrame.rax f | RCX => TrapFrame.rcx f | RDX => TrapFrame.rdx f | RBX => TrapFrame.rbx f
  | RBP => TrapFrame.rbp f | RSI => TrapFrame.rsi f | RDI => TrapFrame.rdi f | RSP => TrapFrame.rsp f
  | R8 => TrapFrame.r8 f | R9 => TrapFrame.r9 f | R10 => TrapFrame.r10 f | R11 => TrapFrame.r11 f
  | R12 => TrapFrame.r12 f | R13 => TrapFrame.r13 f | R14 => TrapFrame.r14 f | R15 => TrapFrame.r15 f
  end.

(** The processor runs the context of the frame. *)
Definition runs_frame (f : TrapFrame.t) (m : Machine) : Prop :=
  (forall r, gprs m r = frame_reg f r) /\ RIP m = TrapFrame.rip f /\ CS m = TrapFrame.cs f /\
  RFLAGS m = TrapFrame.rflags f /\ SS m = TrapFrame.ss f.

Lemma leave_ok f m :
  words_at (mem m) (gprs m RSP) (TrapFrame.words f) ->
  exists m', exec (pop_all_gprs ++ [Iretq]) m = (Ok tt, m') /\ runs_frame f m' /\ mem m' = mem m /\
    data_segs m' = data_segs m /\ msrs m' = msrs m.
Proof.
  intros Hw. change (TrapFrame.words f) with (take 15 (TrapFrame.words f) ++ drop 15 (TrapFrame.words f)) in Hw.
  apply words_at_app in Hw as [Hw Hi]. change (zlen (take 15 (TrapFrame.words f))) with 15 in Hi.
  destruct (pops_ok [R15; R14; R13; R12; R11; R10; R9; R8; RDI; RSI; RBP; RBX; RDX; RCX; RAX] (take 15 (TrapFrame.words f)) m)
    as (m1 & E & Hsp & Hv & _ & Hm & Hc); [decided|decided|done|done|].
  change (zlen [R15; _; _; _; _; _; _; _; _; _; _; _; _; _; _]) with 15 in Hsp.
  rewrite <- Hm, <- Hsp in Hi. cbn [drop TrapFrame.words] in Hi.
  apply words_at_cons in Hi as [H0 Hi]. apply words_at_cons in Hi as [H1 Hi]. apply words_at_cons in Hi as [H2 Hi].
  apply words_at_cons in Hi as [H3 Hi]. apply words_at_cons in Hi as [H4 _].
  unfold pop_all_gprs. rewrite (exec_app_ok _ _ _ _ E). eexists. split; [|split].
  - cbn [exec exec_instr]. unfold sbind, get, load, put, change, sret. rewrite H0, H1.
    replace (gprs m1 RSP + 16) with (gprs m1 RSP + 8 + 8) by lia. rewrite H2.
    replace (gprs m1 RSP + 24) with (gprs m1 RSP + 8 + 8 + 8) by lia. rewrite H3.
    replace (gprs m1 RSP + 32) with (gprs m1 RSP + 8 + 8 + 8 + 8) by lia. rewrite H4. reflexivity.
  - unfold runs_frame. cbn [with_context with_reg with_gprs gprs RIP CS RFLAGS SS]. split; [|done].
    intros r. destruct (decide (r = RSP)) as [->|Hne]; [apply set_reg_eq|]. rewrite set_reg_ne by done.
    destruct r; try done.
    1: by apply (Hv 14%nat). 1: by apply (Hv 13%nat). 1: by apply (Hv 12%nat). 1: by apply (Hv 11%nat).
    1: by apply (Hv 10%nat). 1: by apply (Hv 9%nat). 1: by apply (Hv 8%nat). 1: by apply (Hv 7%nat).
    1: by apply (Hv 6%nat). 1: by apply (Hv 5%nat). 1: by apply (Hv 4%nat). 1: by apply (Hv 3%nat).
    1: by apply (Hv 2%nat). 1: by apply (Hv 1%nat). by apply (Hv 0%nat).
  - cbn. split; [done|]. split; apply Hc.
Qed.

(** ** Interrupts, from the interrupted instruction to the next *)

Section interrupts.
Context (base top room : Z) (Hroom : 0 <= room).

(** The frame the stub builds of the interrupted context. *)
Definition frame_of (m : Machine) : TrapFrame.t :=
  let g := gprs m in
  TrapFrame.mk (g R15) (g R14) (g R13) (g R12) (g R11) (g R10) (g R9) (g R8) (g RDI) (g RSI) (g RBP) (g RBX)
    (g RDX) (g RCX) (g RAX) (RIP m) (CS m) (RFLAGS m) (g RSP) (SS m).

(** C11: whatever stub takes an interrupt, and whatever its handler and the way out do within
    the calling convention, the interrupted code goes on where it was with all its registers,
    its flags and its CS; a program gets the user selector in SS.  The kernel stack the
    interrupt came in on is as it was from the point of entry up, which for interrupted kernel
    code is the stack it stood on; and the words of all other memory, the stack of an
    interrupted program among them, are as they were unless the handler or the way out
    changes them. *)
Theorem interrupt_resumes rsp0 vec ra1 ra2 handler exit_to_user m :
  abi base top room handler -> abi base top room exit_to_user -> stack_mapped base top m ->
  entry_stack rsp0 m mod 16 = 0 -> base + room + 8 + TRAP_FRAME_SIZE <= entry_stack rsp0 m <= top ->
  exists m1 m', interrupt_entry rsp0 vec m = (Ok tt, m1) /\
    exec (interrupt_stub ra1 ra2 handler (interrupt_return_path exit_to_user)) m1 = (Ok tt, m') /\
    (forall r, gprs m' r = gprs m r) /\ RIP m' = RIP m /\ CS m' = CS m /\ RFLAGS m' = RFLAGS m /\
    SS m' = (if user_mode m then USER_DATA_SELECTOR_VALUE else SS m) /\
    (forall a, entry_stack rsp0 m <= a < top -> mem m' !! a = mem m !! a) /\
    (forall a, a < base \/ top <= a -> spares base top room a handler -> spares base top room a exit_to_user -> mem m' !! a = mem m !! a).
Proof.
  intros Hh Hx Hs Ha Hr. change TRAP_FRAME_SIZE with 160 in *.
  pose proof Ha as [q Hq]%Z.mod_divide; [|done].
  destruct (interrupt_entry_ok base top rsp0 vec m Hs Ha) as (m1 & E1 & Hsp1 & Hg1 & Hw1 & Hm1 & _ & Hs1); [lia|].
  destruct (pushes_ok base top [RAX; RCX; RDX; RBX; RBP; RSI; RDI; R8; R9; R10; R11; R12; R13; R14; R15] m1)
    as (m2 & E2 & Hsp2 & _ & Hw2 & Hm2 & _ & Hs2).
  { decided. }
  { done. }
  { apply (multiple_mod _ _ (2 * q - 5)); [done|lia]. }
  { rewrite Hsp1. cbn [length]. lia. }
  change (zlen _) with 15 in Hsp2. rewrite Hsp1 in Hsp2.
  destruct (stub_calls_ok base top room Hroom ra1 ra2 handler exit_to_user m2 (frame_of m) Hh Hx Hs2)
    as (m3 & E3 & Hsp3 & Hw3 & Hm3 & _ & Hout3).
  { apply (multiple_mod _ _ (q - 10)); [done|lia]. }
  { rewrite Hsp2. change TRAP_FRAME_SIZE with 160. lia. }
  { change (TrapFrame.words (frame_of m)) with
      (rev (map (gprs m) [RAX; RCX; RDX; RBX; RBP; RSI; RDI; R8; R9; R10; R11; R12; R13; R14; R15]) ++
       [RIP m; CS m; RFLAGS m; gprs m RSP; SS m]).
    assert (Eg : forall l, RSP ∉ l -> map (gprs m1) l = map (gprs m) l).
    { intros l Hl. apply map_ext_in. intros r Hin. apply Hg1. intros ->. apply Hl. by apply list_elem_of_In. }
    rewrite <- Eg by decided. apply words_at_app. split; [done|].
    replace (gprs m2 RSP + _) with (gprs m1 RSP) by (rewrite length_rev, length_map, Hsp1, Hsp2; cbn [length]; lia).
    apply (words_at_frame (mem m1)); [done|]. intros b Hb. apply Hm2. lia. }
  change TRAP_FRAME_SIZE with 160 in Hm3. destruct (leave_ok _ m3 Hw3) as (m' & E4 & (Hg & Hip & Hcs & Hfl & Hss) & Hm4 & _).
  exists m1, m'. split; [done|]. split.
  { unfold interrupt_stub. change (push_all_gprs) with
      (map Push [RAX; RCX; RDX; RBX; RBP; RSI; RDI; R8; R9; R10; R11; R12; R13; R14; R15]).
    rewrite (exec_app_ok _ _ _ _ E2). change [Mov RDI RSP; _; _; _] with (stub_calls ra1 ra2 handler (interrupt_return_path exit_to_user)).
    rewrite (exec_app_ok _ _ _ _ E3). exact E4. }
  unfold returning in *. change (Z.land (TrapFrame.cs (frame_of m)) 3 =? 3) with (user_mode m) in *.
  split; [|split; [|split; [|split; [|split; [|split]]]]].
  - intros r. rewrite Hg. destruct (user_mode m), r; reflexivity.
  - rewrite Hip. by destruct (user_mode m).
  - rewrite Hcs. by destruct (user_mode m).
  - rewrite Hfl. by destruct (user_mode m).
  - rewrite Hss. by destruct (user_mode m).
  - intros a Hin. rewrite Hm4, Hm3, Hm2, Hm1 by lia. done.
  - intros a Hin Ha1 Ha2. rewrite Hm4, Hout3 by done. rewrite Hm2, Hm1 by lia. done.
Qed.
End interrupts.

(** ** The first entry of a task into ring 3 *)

Section first_entry.
Context (base top room : Z) (Hroom : 0 <= room).

Definition check_pre (m : Machine) : Prop :=
  gprs m RDI mod 16 = 0 /\ mem m !! (gprs m RDI + 128) = Some USER_CODE_SELECTOR_VALUE.

Lemma first_entry_check_ok exit_if_kill_pending :
  abi base top room exit_if_kill_pending ->
  fn_ok base top room check_pre (stack_kept top) (task_first_entry_check exit_if_kill_pending).
Proof.
  intros Hx m (Ha & Hcs) Hs Hr Hal. unfold task_first_entry_check. change TrapFrame.cs_offset with 128.
  rewrite (sbind_ok (get RDI) _ m (gprs m RDI) m) by done. rewrite Ha. cbn [Z.eqb sassert].
  rewrite (sbind_ok (sret tt) _ m tt m) by done.
  rewrite (sbind_ok (load (gprs m RDI + 128)) _ m USER_CODE_SELECTOR_VALUE m) by (unfold load; by rewrite Hcs).
  rewrite (sbind_ok (sassert _) _ m tt m) by done. by apply Hx.
Qed.

Lemma first_entry_ok ra exit_if_kill_pending m f :
  abi base top room exit_if_kill_pending -> stack_mapped base top m ->
  gprs m RSP mod 16 = 0 -> base + room + 8 <= gprs m RSP <= top - TRAP_FRAME_SIZE ->
  words_at (mem m) (gprs m RSP) (TrapFrame.words f) -> TrapFrame.cs f = USER_CODE_SELECTOR_VALUE ->
  exists m', exec (task_first_entry ra (task_first_entry_check exit_if_kill_pending)) m = (Ok tt, m') /\
    runs_frame f m' /\ data_segs m' = replicate 4 USER_DATA_SELECTOR_VALUE.
Proof.
  intros Hx Hs Ha Hr Hw Hcs. change TRAP_FRAME_SIZE with 160 in *.
  set (m1 := with_reg RDI (gprs m RSP) m).
  destruct (call_ok base top room _ _ ra _ m1 (first_entry_check_ok _ Hx) Hs Ha) as (m2 & m3 & E & (Hsp2 & Hg2 & Hm2 & _) & Hs3 & Hk3 & Hp3).
  { change (gprs m1 RSP) with (gprs m RSP). lia. }
  { done. }
  { intros m2 (Hsp2 & Hg2 & Hm2 & _). split; rewrite Hg2 by done; [exact Ha|].
    change (gprs m1 RDI) with (gprs m RSP). change (gprs m1 RSP) with (gprs m RSP) in Hm2. rewrite Hm2 by lia. cbn.
    rewrite <- Hcs. by apply (Hw 16%nat). }
  change (gprs m1 RSP) with (gprs m RSP) in *.
  set (m4 := with_reg RAX (set_low16 (gprs m3 RAX) USER_DATA_SELECTOR_VALUE) (with_reg RSP (gprs m RSP) m3)).
  set (m5 := wrmsr IA32_GS_BASE 0 (with_segs (replicate 4 USER_DATA_SELECTOR_VALUE) m4)).
  destruct (leave_ok f m5) as (m' & E' & Hf & _ & Hseg & _).
  { change (gprs m5 RSP) with (gprs m RSP). apply (words_at_frame (mem m)); [done|]. cbn [TrapFrame.words length].
    intros b Hb. change (mem m5) with (mem m3). rewrite (Hp3 b) by lia. rewrite Hm2 by lia. done. }
  exists m'. split; [|split; [exact Hf|exact Hseg]].
  unfold task_first_entry. cbn [app exec]. rewrite (sbind_ok (exec_instr (Mov RDI RSP)) _ m tt m1) by done.
  rewrite (sbind_ok _ _ _ _ _ E). rewrite (sbind_ok (exec_instr (MovImm _ _)) _ _ tt m4) by done.
  rewrite (sbind_ok (exec_instr (LoadSegments RAX)) _ m4 tt m5); [exact E'|].
  cbn [exec_instr]. unfold load_segments, get, sbind, change, m5. do 4 f_equal.
  change (gprs m4 RAX) with (set_low16 (gprs m3 RAX) USER_DATA_SELECTOR_VALUE). apply low16_set. by vm_compute.
Qed.
End first_entry.

(** ** System calls *)

Section syscalls.
Context (base top room : Z) (Hroom : 0 <= room).

(** What the dispatcher sees of the calling program. *)
Definition syscall_frame (m : Machine) : SyscallRegs.t :=
  let g := gprs m in
  SyscallRegs.mk (g R15) (g R14) (g R13) (g R12) (g RBP) (g RBX) (g R9) (g R8) (g R10) (g RDX) (g RSI) (g RDI) (g RAX)
    (RFLAGS m) (RIP m) (g RSP).

(** The core is set up: [init_syscall] ran, and the top of the stack of the task is set. *)
Record kernel_ready (slot handler_address : Z) (m : Machine) : Prop := {
  ready_gs : rdmsr IA32_KERNEL_GS_BASE m = slot;
  ready_star : rdmsr IA32_STAR m = STAR_VALUE;
  ready_lstar : rdmsr IA32_LSTAR m = handler_address;
  ready_mask : rdmsr IA32_FMASK m = SFMASK;
  ready_top : mem m !! (slot + STACK_TOP_OFFSET) = Some top;
  ready_scratch : is_Some (mem m !! (slot + SYSCALL_USER_RSP_SCRATCH_OFFSET));
}.

Definition handle_pre (f : SyscallRegs.t) (m : Machine) : Prop :=
  gprs m RDI mod 16 = 0 /\ words_at (mem m) (gprs m RDI) (SyscallRegs.words f).

Definition handle_post (dispatch : SyscallRegs.t -> Z) (f : SyscallRegs.t) (m m' : Machine) : Prop :=
  stack_kept top m m' /\ gprs m' RAX = dispatch f.

Lemma at_address_ok f m a :
  words_at (mem m) a (SyscallRegs.words f) -> SyscallRegs.at_address a m = (Ok f, m).
Proof.
  intros Hw. unfold SyscallRegs.at_address. change 16%nat with (length (SyscallRegs.words f)).
  rewrite (sbind_ok _ _ _ _ _ (load_words_ok _ _ _ Hw)). by destruct f.
Qed.

Lemma handle_ok dispatch work f :
  abi base top room work ->
  fn_ok base top room (handle_pre f) (handle_post dispatch f) (handle_syscall_inner dispatch work).
Proof.
  intros Hx m (Ha & Hw) Hs Hr Hal. destruct (Hx m I Hs Hr Hal) as (m' & E & Hs' & (Hk & Hsp & Hra & Hst) & Hp).
  exists (with_reg RAX (dispatch f) m'). split; [|split; [exact Hs'|split; [split; [|done]|split; [exact Hp|apply set_reg_eq]]]].
  - unfold handle_syscall_inner. rewrite (sbind_ok (get RDI) _ m (gprs m RDI) m) by done. rewrite Ha. cbn [Z.eqb sassert].
    rewrite (sbind_ok (sret tt) _ m tt m) by done. rewrite (sbind_ok _ _ _ _ _ (at_address_ok _ _ _ Hw)).
    by rewrite (sbind_ok _ _ _ _ _ E).
  - intros r Hin. cbn. rewrite set_reg_ne; [by apply Hk|]. intros ->. apply list_elem_of_In in Hin.
    by repeat destruct Hin as [Hin|Hin].
Qed.

(** Up to the call: the stack of the task holds the frame. *)
Definition enter_syscall : list Instr :=
  [Swapgs; MovToGs SYSCALL_USER_RSP_SCRATCH_OFFSET RSP; MovFromGs RSP STACK_TOP_OFFSET;
   PushGs SYSCALL_USER_RSP_SCRATCH_OFFSET; Swapgs].

Lemma enter_syscall_ok slot h m :
  kernel_ready slot h m -> stack_mapped base top m -> base + 8 <= top -> top mod 16 = 0 ->
  exists m', exec enter_syscall m = (Ok tt, m') /\ gprs m' RSP = top - 8 /\
    (forall r, r <> RSP -> gprs m' r = gprs m r) /\ mem m' !! (top - 8) = Some (gprs m RSP) /\
    rdmsr IA32_STAR m' = STAR_VALUE /\ RIP m' = RIP m /\ RFLAGS m' = RFLAGS m /\ CS m' = CS m /\ stack_mapped base top m'.
Proof.
  intros [Hgs Hstar _ _ Htop [x Hscr]] Hs Hr Ha.
  change (slot + STACK_TOP_OFFSET) with (slot + 0) in Htop.
  change (slot + SYSCALL_USER_RSP_SCRATCH_OFFSET) with (slot + 8) in Hscr.
  set (h1 := <[slot + 8 := gprs m RSP]> (mem m)).
  set (m0 := wrmsr IA32_GS_BASE (rdmsr IA32_KERNEL_GS_BASE m) (wrmsr IA32_KERNEL_GS_BASE (rdmsr IA32_GS_BASE m) m)).
  set (m1 := with_mem h1 m0).
  assert (Hgs0 : rdmsr IA32_GS_BASE m0 = slot).
  { unfold rdmsr, m0. cbn. rewrite lookup_insert_eq. exact Hgs. }
  assert (Hgs1 : rdmsr IA32_GS_BASE m1 = slot) by exact Hgs0.
  assert (Hs1 : stack_mapped base top m1).
  { intros a Hin Hal. unfold m1, h1. cbn. destruct (decide (a = slot + 8)) as [->|]; [rewrite lookup_insert_eq; by eexists|].
    rewrite lookup_insert_ne by done. by apply Hs. }
  set (m2 := with_reg RSP top m1).
  destruct (push_ok base top (gprs m RSP) m2) as (m3 & E3 & Em3 & Hs3); [exact Hs1|cbn; rewrite set_reg_eq; lia| |].
  { cbn. rewrite set_reg_eq. by apply aligned_16_8. }
  change (gprs m2 RSP) with top in Em3.
  eexists. split; [|split; [|split; [|split]]].
  - unfold enter_syscall. cbn [exec].
    rewrite (sbind_ok (exec_instr Swapgs) _ m tt m0) by done.
    rewrite (sbind_ok (exec_instr (MovToGs _ _)) _ m0 tt m1).
    2:{ cbn [exec_instr]. unfold sbind, get, store. rewrite Hgs0.
        change SYSCALL_USER_RSP_SCRATCH_OFFSET with 8. change (mem m0) with (mem m). by rewrite Hscr. }
    rewrite (sbind_ok (exec_instr (MovFromGs _ _)) _ m1 tt m2).
    2:{ cbn [exec_instr]. unfold sbind, load. rewrite Hgs1. change STACK_TOP_OFFSET with 0. unfold m1, h1. cbn [mem with_mem].
        rewrite lookup_insert_ne by lia. by rewrite Htop. }
    rewrite (sbind_ok (exec_instr (PushGs _)) _ m2 tt m3).
    2:{ cbn [exec_instr]. unfold sbind at 1, load. change (rdmsr IA32_GS_BASE m2) with (rdmsr IA32_GS_BASE m1). rewrite Hgs1.
        change SYSCALL_USER_RSP_SCRATCH_OFFSET with 8. change (mem m2) with h1. unfold h1. rewrite lookup_insert_eq. exact E3. }
    reflexivity.
  - rewrite Em3. cbn. by rewrite set_reg_eq.
  - intros r Hne. rewrite Em3. cbn. by rewrite !set_reg_ne.
  - rewrite Em3. cbn. apply lookup_insert_eq.
  - rewrite Em3. repeat split; [|exact Hs3 || by rewrite <- Em3]. unfold rdmsr in *. cbn.
    by rewrite !lookup_insert_ne.
Qed.

Definition leave_syscall : list Instr :=
  Cli :: map Pop syscall_restores ++ [AddImm RSP 8; Pop R11; Pop RCX; Pop RSP; Sysretq].

(** The registers the program finds, apart from the result. *)
Definition syscall_reg (f : SyscallRegs.t) (r : Reg) : option Z :=
  match r with
  | RAX => None
  | RCX => Some (SyscallRegs.user_rip f) | R11 => Some (SyscallRegs.rflags f) | RSP => Some (SyscallRegs.user_rsp f)
  | RDX => Some (SyscallRegs.arg3 f) | RBX => Some (SyscallRegs.rbx f) | RBP => Some (SyscallRegs.rbp f)
  | RSI => Some (SyscallRegs.arg2 f) | RDI => Some (SyscallRegs.arg1 f) | R8 => Some (SyscallRegs.arg5 f)
  | R9 => Some (SyscallRegs.arg6 f) | R10 => Some (SyscallRegs.arg4 f) | R12 => Some (SyscallRegs.r12 f)
  | R13 => Some (SyscallRegs.r13 f) | R14 => Some (SyscallRegs.r14 f) | R15 => Some (SyscallRegs.r15 f)
  end.

Definition sysret_flags (flags : Z) : Z := Z.lor (Z.land flags 0x3C7FD7) 2.

Lemma leave_syscall_ok f m :
  words_at (mem m) (gprs m RSP) (SyscallRegs.words f) -> rdmsr IA32_STAR m = STAR_VALUE ->
  exists m', exec leave_syscall m = (Ok tt, m') /\ gprs m' RAX = gprs m RAX /\
    (forall r v, syscall_reg f r = Some v -> gprs m' r = v) /\ RIP m' = SyscallRegs.user_rip f /\
    RFLAGS m' = sysret_flags (SyscallRegs.rflags f) /\ CS m' = USER_CODE_SELECTOR_VALUE /\
    SS m' = USER_DATA_SELECTOR_VALUE /\ mem m' = mem m.
Proof.
  intros Hw Hstar. set (m0 := with_rflags (Z.clearbit (RFLAGS m) IF_BIT) m).
  change (SyscallRegs.words f) with (take 12 (SyscallRegs.words f) ++ drop 12 (SyscallRegs.words f)) in Hw.
  apply words_at_app in Hw as [Hw Hi]. change (zlen (take 12 (SyscallRegs.words f))) with 12 in Hi.
  destruct (pops_ok syscall_restores (take 12 (SyscallRegs.words f)) m0) as (m1 & E & Hsp & Hv & Hrest & Hm & Hc);
    [decided|decided|done|exact Hw|].
  change (zlen syscall_restores) with 12 in Hsp. change (gprs m0 RSP) with (gprs m RSP) in Hsp.
  change (mem m0) with (mem m) in Hm. rewrite <- Hm, <- Hsp in Hi. cbn [drop SyscallRegs.words] in Hi.
  apply words_at_cons in Hi as [_ Hi]. apply words_at_cons in Hi as [H1 Hi]. apply words_at_cons in Hi as [H2 Hi].
  apply words_at_cons in Hi as [H3 _].
  set (m2 := with_reg RSP (SyscallRegs.user_rsp f) (with_reg RCX (SyscallRegs.user_rip f)
    (with_reg RSP (gprs m1 RSP + 8 + 8 + 8) (with_reg R11 (SyscallRegs.rflags f)
      (with_reg RSP (gprs m1 RSP + 8 + 8) (with_reg RSP (gprs m1 RSP + 8) m1)))))).
  assert (Est : rdmsr IA32_STAR m2 = STAR_VALUE).
  { unfold rdmsr in *. change (msrs m2) with (msrs m1). destruct Hc as (_ & _ & _ & _ & _ & _ & _ & ->). exact Hstar. }
  eexists. split; [|split; [|split]].
  - unfold leave_syscall. cbn [app exec]. rewrite (sbind_ok (exec_instr Cli) _ m tt m0) by done.
    rewrite (exec_app_ok _ _ _ _ E). cbn [exec].
    rewrite (sbind_ok (exec_instr (AddImm RSP 8)) _ m1 tt (with_reg RSP (gprs m1 RSP + 8) m1)) by done.
    rewrite (sbind_ok (exec_instr (Pop R11)) _ _ tt (with_reg R11 (SyscallRegs.rflags f)
      (with_reg RSP (gprs m1 RSP + 8 + 8) (with_reg RSP (gprs m1 RSP + 8) m1)))).
    2:{ cbn [exec_instr]. unfold pop_word, get, load, put, sret, sbind. cbn. by rewrite set_reg_eq, H1. }
    rewrite (sbind_ok (exec_instr (Pop RCX)) _ _ tt (with_reg RCX (SyscallRegs.user_rip f)
      (with_reg RSP (gprs m1 RSP + 8 + 8 + 8) (with_reg R11 (SyscallRegs.rflags f)
      (with_reg RSP (gprs m1 RSP + 8 + 8) (with_reg RSP (gprs m1 RSP + 8) m1)))))).
    2:{ cbn [exec_instr]. unfold pop_word, get, load, put, sret, sbind. cbn. by rewrite set_reg_ne, set_reg_eq, H2. }
    rewrite (sbind_ok (exec_instr (Pop RSP)) _ _ tt m2).
    2:{ cbn [exec_instr]. unfold get, load, put, sbind. cbn. by rewrite set_reg_ne, set_reg_eq, H3. }
    reflexivity.
  - change (gprs m2 RAX = gprs m RAX). transitivity (gprs m1 RAX); [done|]. by rewrite Hrest by decided.
  - intros r v Hr. change (gprs m2 r = v).
    destruct r; try (injection Hr as <-); try discriminate Hr; try reflexivity.
    1: by apply (Hv 9%nat). 1: by apply (Hv 5%nat). 1: by apply (Hv 4%nat). 1: by apply (Hv 10%nat).
    1: by apply (Hv 11%nat). 1: by apply (Hv 7%nat). 1: by apply (Hv 6%nat). 1: by apply (Hv 8%nat).
    1: by apply (Hv 3%nat). 1: by apply (Hv 2%nat). 1: by apply (Hv 1%nat). by apply (Hv 0%nat).
  - cbn [with_context RIP RFLAGS CS SS mem]. change (gprs m2 RCX) with (SyscallRegs.user_rip f).
    change (gprs m2 R11) with (SyscallRegs.rflags f). fold m2. rewrite Est. split; [done|]. split; [done|]. split; [by vm_compute|]. split; [by vm_compute|exact Hm].
Qed.

Theorem syscall_returns slot h ra dispatch work m :
  abi base top room work -> kernel_ready slot h m -> stack_mapped base top m ->
  top mod 16 = 0 -> base + room + 8 + 16 * 8 <= top ->
  exists m1 m', syscall_entry m = (Ok tt, m1) /\ RIP m1 = h /\ CS m1 = KERNEL_CODE_SELECTOR_VALUE /\
    interrupts_enabled m1 = false /\
    exec (syscall_handler ra (handle_syscall_inner dispatch work)) m1 = (Ok tt, m') /\
    gprs m' RAX = dispatch (syscall_frame m) /\ gprs m' RCX = RIP m /\ gprs m' R11 = RFLAGS m /\
    (forall r, r ∉ [RAX; RCX; R11] -> gprs m' r = gprs m r) /\
    RIP m' = RIP m /\ RFLAGS m' = sysret_flags (RFLAGS m) /\ CS m' = USER_CODE_SELECTOR_VALUE /\ SS m' = USER_DATA_SELECTOR_VALUE.
Proof.
  intros Hx Hready Hs Ha Hr.
  set (m1 := with_context (rdmsr IA32_LSTAR m) (Z.ldiff (RFLAGS m) (rdmsr IA32_FMASK m))
    (Z.land (Z.land (Z.shiftr (rdmsr IA32_STAR m) 32) 0xFFFF) 0xFFFC) (Z.land (Z.shiftr (rdmsr IA32_STAR m) 32) 0xFFFF + 8)
    (with_gprs (set_reg RCX (RIP m) (set_reg R11 (RFLAGS m) (gprs m))) m)).
  destruct (enter_syscall_ok slot h m1) as (m2 & E2 & Hsp2 & Hg2 & Hw2 & Hst2 & _ & _ & _ & Hs2);
    [by destruct Hready; constructor|exact Hs|lia|done|].
  destruct (pushes_ok base top syscall_saves m2) as (m3 & E3 & Hsp3 & _ & Hw3 & Hm3 & Hc3 & Hs3).
  { decided. }
  { done. }
  { rewrite Hsp2. apply Z.mod_divide in Ha as [q Hq]; [|done]. apply (multiple_mod _ _ (2 * q - 1)); [done|lia]. }
  { change (zlen syscall_saves) with 15. lia. }
  change (zlen syscall_saves) with 15 in Hsp3.
  set (f := syscall_frame m). set (m4 := with_reg RDI (gprs m3 RSP) m3).
  assert (Hw4 : words_at (mem m3) (gprs m3 RSP) (SyscallRegs.words f)).
  { change (SyscallRegs.words f) with (rev (map (gprs m1) syscall_saves) ++ [gprs m RSP]).
    rewrite (map_ext_in (gprs m1) (gprs m2)).
    2:{ intros r Hin. symmetry. apply Hg2. intros ->. by repeat destruct Hin as [Hin|Hin]. }
    apply words_at_app. split; [exact Hw3|]. apply words_at_cons. split; [|apply words_at_nil].
    rewrite length_rev, length_map. change (zlen syscall_saves) with 15. rewrite Hm3 by lia.
    replace (gprs m3 RSP + 8 * 15) with (top - 8) by lia. exact Hw2. }
  destruct (call_ok base top room _ _ ra _ m4 (handle_ok dispatch work f Hx) Hs3)
    as (m5 & m6 & E5 & (Hsp5 & Hg5 & Hm5 & Hmsr5) & Hs6 & (_ & _ & _ & Hst6) & Hk6 & Hrax).
  { change (gprs m4 RSP) with (gprs m3 RSP). rewrite Hsp3, Hsp2.
    apply Z.mod_divide in Ha as [q Hq]; [|done]. apply (multiple_mod _ _ (q - 8)); [done|lia]. }
  { change (gprs m4 RSP) with (gprs m3 RSP). lia. }
  { done. }
  { intros m5 (Hsp5 & Hg5 & Hm5 & _). split; rewrite Hg5 by done; change (gprs m4 RDI) with (gprs m3 RSP).
    - rewrite Hsp3, Hsp2. apply Z.mod_divide in Ha as [q Hq]; [|done]. apply (multiple_mod _ _ (q - 8)); [done|lia].
    - apply (words_at_frame (mem m3)); [done|]. intros b Hb. apply Hm5. change (gprs m4 RSP) with (gprs m3 RSP). lia. }
  change (gprs m4 RSP) with (gprs m3 RSP) in *. set (m7 := with_reg RSP (gprs m3 RSP) m6) in *.
  destruct (leave_syscall_ok f m7) as (m' & E7 & Hax & Hregs & Hip & Hfl & Hcs & Hss & _).
  { change (gprs m7 RSP) with (gprs m3 RSP). apply (words_at_frame (mem m3)); [done|]. cbn [SyscallRegs.words length].
    intros b Hb. change (mem m7) with (mem m6). rewrite (Hk6 b) by lia. apply Hm5. lia. }
  { change (rdmsr IA32_STAR m7) with (rdmsr IA32_STAR m6). rewrite Hst6. unfold rdmsr in *. rewrite Hmsr5.
    change (msrs m4) with (msrs m3). destruct Hc3 as (_ & _ & _ & _ & _ & _ & _ & ->). exact Hst2. }
  exists m1, m'. split; [done|]. split; [exact (ready_lstar _ _ _ Hready)|].
  split; [cbn; rewrite (ready_star _ _ _ Hready); by vm_compute|].
  split.
  { unfold interrupts_enabled, m1. cbn [RFLAGS with_context]. rewrite (ready_mask _ _ _ Hready), Z.ldiff_spec. apply andb_false_r. }
  split.
  { unfold syscall_handler. fold enter_syscall. rewrite (exec_app_ok _ _ _ _ E2), (exec_app_ok _ _ _ _ E3).
    change (_ ++ map Pop syscall_restores ++ _) with ([Mov RDI RSP; Call ra (handle_syscall_inner dispatch work)] ++ leave_syscall).
    cbn [app exec]. rewrite (sbind_ok (exec_instr (Mov RDI RSP)) _ m3 tt m4) by done. by rewrite (sbind_ok _ _ _ _ _ E5). }
  split; [by rewrite Hax|]. split; [by apply Hregs|]. split; [by apply Hregs|].
  split; [|by repeat split].
  intros r Hn. apply Hregs. destruct r; try done; exfalso; apply Hn; decided.
Qed.
End syscalls.
