(* ===== verification/Switching.v ===== *)
(** * Switching: tasks survive being switched out

    The stacks of the schedulers of all cores and of all tasks share one memory
    ([World]).  A core runs the scheduler's context or a task's; it computes on its own stack,
    and [switch_context] (Contexts.v) takes it to another context.  The record of a run
    notes what a context was left with and what it is resumed with ([Event]);
    [contexts_survive] says that they are the same: registers, stack, return address and FPU
    image, whatever the other cores did meanwhile and on whatever core the task resumes.
    That a task is picked only when it waits is the business of the scheduler
    (SchedulerRun.v). *)

From Stdlib Require Import ZArith Lia.
From stdpp Require Import base tactics gmap list numbers option fin_maps.
From S2P Require Import Prelude Tasks Scheduler Interrupts Machine Contexts ContextsSpec.

Open Scope rust_scope.

(** ** One switch *)

(** What one call of [switch_context] does: [vals] and [ip] are what the other context left
    at [sp'] when it was switched out. *)
Lemma call_switch_ok base top ra save_rsp sp' vals ip m :
  stack_mapped base top m -> gprs m RSP mod 8 = 0 -> base + 56 <= gprs m RSP <= top ->
  is_Some (mem m !! save_rsp) -> ~ base <= save_rsp < top ->
  length vals = 6%nat -> words_at (mem m) sp' (vals ++ [ip]) ->
  (sp' + 56 <= base \/ top <= sp') -> (sp' + 56 <= save_rsp \/ save_rsp < sp') ->
  exists m', call_switch ra save_rsp sp' m = (Ok tt, m') /\
    map (gprs m') (rev switch_saves) = vals /\ gprs m' RSP = sp' + 56 /\ RIP m' = ip /\
    fpu m' = fpu m /\ CR3 m' = CR3 m /\
    mem m' !! save_rsp = Some (gprs m RSP - 56) /\
    words_at (mem m') (gprs m RSP - 56) (rev (map (gprs m) switch_saves) ++ [ra]) /\
    (forall a, a <> save_rsp -> ~ gprs m RSP - 56 <= a < gprs m RSP -> mem m' !! a = mem m !! a) /\
    stack_mapped base top m'.
Proof.
  intros Hs Ha Hr Hcell Hout Hlen Hw Hsp Hc.
  set (m1 := with_reg RSI sp' (with_reg RDI save_rsp m)).
  destruct (push_ok base top ra m1 Hs) as (m2 & E2 & Em2 & Hs2); [change (gprs m1 RSP) with (gprs m RSP); lia|exact Ha|].
  change (gprs m1 RSP) with (gprs m RSP) in Em2. change (mem m1) with (mem m) in Em2.
  destruct (pushes_ok base top switch_saves m2) as (m3 & E3 & Hsp3 & Hg3 & Hw3 & Hm3 & Hc3 & Hs3).
  { decided. }
  { done. }
  { rewrite Em2. change (gprs _ RSP) with (gprs m RSP - 8). by rewrite Zminus_mod, Ha. }
  { rewrite Em2. change (gprs _ RSP) with (gprs m RSP - 8). change (zlen switch_saves) with 6. lia. }
  change (zlen switch_saves) with 6 in Hsp3. assert (Hsp2 : gprs m2 RSP = gprs m RSP - 8) by (by rewrite Em2).
  assert (Hm2 : forall a, a <> gprs m RSP - 8 -> mem m2 !! a = mem m !! a).
  { intros a Hne. rewrite Em2. cbn. by rewrite lookup_insert_ne. }
  assert (Hm3' : forall a, ~ gprs m RSP - 56 <= a < gprs m RSP -> mem m3 !! a = mem m !! a).
  { intros a Hn. rewrite Hm3, Hm2 by lia. done. }
  assert (Hdi : gprs m3 RDI = save_rsp) by (by rewrite Hg3, Em2).
  assert (Hsi : gprs m3 RSI = sp') by (by rewrite Hg3, Em2).
  set (m4 := with_mem (<[save_rsp := gprs m3 RSP]> (mem m3)) m3). set (m5 := with_reg RSP sp' m4).
  assert (Hm5 : forall a, a <> save_rsp -> mem m5 !! a = mem m3 !! a).
  { intros a Hne. cbn. by rewrite lookup_insert_ne. }
  apply words_at_app in Hw as [Hw Hip]. rewrite Hlen in Hip. change (8 * Z.of_nat 6) with 48 in Hip.
  apply words_at_cons in Hip as [Hip _].
  destruct (pops_ok (rev switch_saves) vals m5) as (m6 & E6 & Hsp6 & Hv6 & _ & Hm6 & Hc6); [decided|decided|done| |].
  { apply (words_at_frame (mem m)); [done|]. change (gprs m5 RSP) with sp'. rewrite Hlen. intros b Hb.
    rewrite Hm5, Hm3' by lia. done. }
  change (zlen (rev switch_saves)) with 6 in Hsp6. change (gprs m5 RSP) with sp' in Hsp6.
  exists (with_rip ip (with_reg RSP (sp' + 56) m6)).
  split; [|split; [|split; [|split; [|split; [|split; [|split; [|split; [|split]]]]]]]].
  - unfold call_switch. rewrite (sbind_ok (put _ _) _ m tt (with_reg RDI save_rsp m)) by done.
    rewrite (sbind_ok (put _ _) _ _ tt m1) by done. rewrite (sbind_ok _ _ _ _ _ E2).
    unfold switch_context. rewrite (exec_app_ok _ _ _ _ E3). cbn [app exec].
    rewrite (sbind_ok (exec_instr (MovToMem RDI RSP)) _ m3 tt m4).
    2:{ cbn [exec_instr]. unfold sbind, get, store. rewrite Hdi, Hm3' by lia. destruct Hcell as [x ->]. done. }
    rewrite (sbind_ok (exec_instr (Mov RSP RSI)) _ m4 tt m5).
    2:{ cbn [exec_instr]. unfold sbind, get, put. change (gprs m4 RSI) with (gprs m3 RSI). by rewrite Hsi. }
    rewrite (exec_app_ok _ _ _ _ E6). cbn [exec exec_instr]. unfold pop_word, get, load, put, change, sret, sbind.
    rewrite Hm6, Hsp6, Hm5, Hm3' by lia. change (8 * 6) with 48. rewrite Hip. cbn. do 3 f_equal. lia.
  - destruct vals as [|v0 [|v1 [|v2 [|v3 [|v4 [|v5 [|]]]]]]]; try discriminate Hlen.
    change (map (gprs m6) [R15; R14; R13; R12; RBP; RBX] = [v0; v1; v2; v3; v4; v5]). cbn [map].
    by rewrite (Hv6 0%nat R15 v0), (Hv6 1%nat R14 v1), (Hv6 2%nat R13 v2), (Hv6 3%nat R12 v3), (Hv6 4%nat RBP v4), (Hv6 5%nat RBX v5).
  - reflexivity.
  - reflexivity.
  - change (fpu m6 = fpu m). unfold same_context in *. transitivity (fpu m5); [tauto|]. transitivity (fpu m2); [tauto|].
    by rewrite Em2.
  - change (CR3 m6 = CR3 m). unfold same_context in *. transitivity (CR3 m5); [tauto|]. transitivity (CR3 m2); [tauto|].
    by rewrite Em2.
  - change (mem m6 !! save_rsp = Some (gprs m RSP - 56)). rewrite Hm6. cbn. rewrite lookup_insert_eq. f_equal. lia.
  - change (mem _) with (mem m6). rewrite Hm6.
    assert (Hall : words_at (mem m3) (gprs m RSP - 56) (rev (map (gprs m) switch_saves) ++ [ra])).
    { assert (Eg : map (gprs m2) switch_saves = map (gprs m) switch_saves) by (by rewrite Em2). rewrite <- Eg.
      apply words_at_app. split; [by replace (gprs m RSP - 56) with (gprs m3 RSP) by lia|].
      apply words_at_cons. split; [|apply words_at_nil]. rewrite length_rev, length_map.
      change (zlen switch_saves) with 6. rewrite Hm3 by lia. replace (gprs m RSP - 56 + 8 * 6) with (gprs m RSP - 8) by lia.
      rewrite Em2. cbn. apply lookup_insert_eq. }
    apply (words_at_frame (mem m3)); [done|]. rewrite length_app, length_rev, length_map. cbn [length switch_saves].
    intros b Hb. apply Hm5. lia.
  - intros a Hne Hin. change (mem m6 !! a = mem m !! a). rewrite Hm6, Hm5, Hm3' by done. done.
  - intros a Hin Hal. change (is_Some (mem m6 !! a)). rewrite Hm6.
    destruct (decide (a = save_rsp)) as [->|Hne]; [lia|]. rewrite Hm5 by done. by apply Hs3.
Qed.

(** ** Contexts and their memory *)

Inductive Ctx : Type :=
  | OfCore (core_id : Z)
  | OfTask (slot : Z).

#[export] Instance Ctx_eq_dec : EqDecision Ctx.
Proof. solve_decision. Defined.

(** Where the stacks, the saved stack pointers ([SCHEDULER_RSP], [saved_rsp]) and the FPU
    images of the tasks lie. *)
Class Layout : Type := {
  stack_base : Ctx -> Z;
  stack_top : Ctx -> Z;
  rsp_cell : Ctx -> Z;
  fpu_at : Z -> Z;
}.

Definition in_stack `{Layout} (x : Ctx) (a : Z) : Prop := stack_base x <= a < stack_top x.
Definition in_fpu `{Layout} (x : Ctx) (a : Z) : Prop :=
  match x with OfTask i => fpu_at i <= a < fpu_at i + 8 * Z.of_nat FPU_WORDS | OfCore _ => False end.
(** The contexts there are: a scheduler per core and a task per slot. *)
Definition live (x : Ctx) : Prop :=
  match x with OfCore c => 0 <= c < MAX_CORES | OfTask i => 0 <= i < MAX_TASKS end.

Definition touches `{Layout} (x : Ctx) (a : Z) : Prop := in_stack x a \/ a = rsp_cell x \/ in_fpu x a.
Definition owned `{Layout} (x : Ctx) (a : Z) : Prop := live x /\ touches x a.

Class LayoutOk `{Layout} : Prop := {
  owned_disjoint x y a : owned x a -> owned y a -> x = y;
  cell_outside x : ~ in_stack x (rsp_cell x) /\ ~ in_fpu x (rsp_cell x);
  fpu_outside x a : in_fpu x a -> ~ in_stack x a;
  layout_aligned x : stack_base x mod 16 = 0 /\ stack_top x mod 16 = 0 /\ rsp_cell x mod 8 = 0;
  fpu_aligned i : fpu_at i mod 16 = 0;
  stack_low x : 0 <= stack_base x;
}.

(** What a context has in its hands when it runs on, or will have when it runs again. *)
Record View : Type := mkView {
  callee : list Z;
  return_ip : Z;
  return_rsp : Z;
  stack_words : list (option Z);
  fpu_image : option (list Z);
}.

Section world.
Context `{LO : LayoutOk}.

Definition window (h : gmap Z Z) (sp top : Z) : list (option Z) :=
  map (fun i => h !! (sp + 8 * Z.of_nat i)) (seq 0 (Z.to_nat ((top - sp) / 8))).

Definition view (x : Ctx) (ip : Z) (m : Machine) : View :=
  mkView (map (gprs m) (rev switch_saves)) ip (gprs m RSP) (window (mem m) (gprs m RSP) (stack_top x))
    (match x with OfTask _ => Some (fpu m) | OfCore _ => None end).

(** A context is switched out with this view: its stack pointer is in its cell, its registers
    and return address on its stack, its FPU image in its slot. *)
Record parked (x : Ctx) (v : View) (h : gmap Z Z) : Prop := {
  parked_live : live x;
  parked_cell : h !! rsp_cell x = Some (return_rsp v - 56);
  parked_range : stack_base x <= return_rsp v - 56 /\ return_rsp v <= stack_top x /\ return_rsp v mod 8 = 0;
  parked_callee : length (callee v) = 6%nat;
  parked_words : words_at h (return_rsp v - 56) (callee v ++ [return_ip v]);
  parked_stack : window h (return_rsp v) (stack_top x) = stack_words v;
  parked_fpu : match x with
               | OfTask i => exists l, fpu_image v = Some l /\ length l = FPU_WORDS /\ words_at h (fpu_at i) l
               | OfCore _ => fpu_image v = None
               end;
}.

Lemma window_frame h h' sp top :
  (forall a, sp <= a < top -> h' !! a = h !! a) -> window h' sp top = window h sp top.
Proof.
  intros Hf. unfold window. apply map_ext_in. intros i Hi. apply in_seq in Hi. apply Hf.
  pose proof (Z.mul_div_le (top - sp) 8). lia.
Qed.

Lemma window_words h sp top l : words_at h sp l -> sp + 8 * zlen l = top -> window h sp top = map Some l.
Proof.
  intros Hw Ht. unfold window. replace (top - sp) with (zlen l * 8) by lia. rewrite Z.div_mul, Nat2Z.id by done.
  change (map ?f ?k) with (f <$> k). apply list_eq. intros k. rewrite !list_lookup_fmap.
  destruct (decide (k < length l)%nat) as [Hk|Hk].
  - destruct (lookup_lt_is_Some_2 _ _ Hk) as [v Hv]. rewrite lookup_seq_lt by done. rewrite Hv. cbn. f_equal. by apply Hw.
  - rewrite lookup_seq_ge, (proj2 (lookup_ge_None l k)) by lia. done.
Qed.

Lemma parked_frame x v h h' :
  parked x v h -> (forall a, owned x a -> h' !! a = h !! a) -> parked x v h'.
Proof.
  intros [Hlv Hc Hr Hl Hw Hs Hf] Hsame. constructor; try done.
  - rewrite Hsame; [done|]. split; [done|]. right; by left.
  - apply (words_at_frame h); [done|]. rewrite length_app, Hl. cbn [length]. intros b Hb. apply Hsame.
    split; [done|]. left. unfold in_stack. lia.
  - rewrite <- Hs. apply window_frame. intros a Ha. apply Hsame. split; [done|]. left. unfold in_stack. lia.
  - destruct x as [c|i]; [done|]. destruct Hf as (l & Hl' & Hlen & Hw'). exists l. split; [done|]. split; [done|].
    apply (words_at_frame h); [done|]. rewrite Hlen. intros b Hb. apply Hsame. split; [done|]. right; right. exact Hb.
Qed.

Lemma words_mapped h a l b :
  words_at h a l -> (b - a) mod 8 = 0 -> a <= b < a + 8 * zlen l -> is_Some (h !! b).
Proof.
  intros Hw Hd Hb. apply Z.mod_divide in Hd as [q Hq]; [|done].
  destruct (lookup_lt_is_Some_2 l (Z.to_nat q)) as [v Hv]; [lia|].
  exists v. rewrite <- (Hw _ _ Hv). f_equal. lia.
Qed.

(** The memory of all contexts is there. *)
Definition all_mapped (h : gmap Z Z) : Prop := forall x a, owned x a -> a mod 8 = 0 -> is_Some (h !! a).

Lemma mapped_stack h x m : live x -> all_mapped h -> mem m = h -> stack_mapped (stack_base x) (stack_top x) m.
Proof. intros Hx Hm <- a Ha Hal. apply (Hm x); [split; [done|by left]|done]. Qed.

(** The stack pointer of a running context. *)
Definition rsp_ok (x : Ctx) (m : Machine) : Prop :=
  gprs m RSP mod 8 = 0 /\ stack_base x <= gprs m RSP <= stack_top x.

(** One switch from [x] to [y]. *)
Lemma switch_ok x y ra v m :
  live x -> x <> y -> all_mapped (mem m) -> rsp_ok x m -> stack_base x + 56 <= gprs m RSP -> parked y v (mem m) ->
  exists m', call_switch ra (rsp_cell x) (return_rsp v - 56) m = (Ok tt, m') /\
    map (gprs m') (rev switch_saves) = callee v /\ RIP m' = return_ip v /\ gprs m' RSP = return_rsp v /\
    window (mem m') (return_rsp v) (stack_top y) = stack_words v /\ fpu m' = fpu m /\ CR3 m' = CR3 m /\
    mem m' !! rsp_cell x = Some (gprs m RSP - 56) /\
    words_at (mem m') (gprs m RSP - 56) (map (gprs m) (rev switch_saves) ++ [ra]) /\
    (forall a, a <> rsp_cell x -> ~ gprs m RSP - 56 <= a < gprs m RSP -> mem m' !! a = mem m !! a) /\ all_mapped (mem m').
Proof.
  intros Hlx Hxy Hm [Ha Hr] Hroom Hy. pose proof Hy as [Hly Hc Hrng Hl Hw Hs _].
  assert (Hno : forall a, owned y a -> ~ owned x a) by (intros a H1 H2; by destruct Hxy; eapply owned_disjoint).
  assert (Hin : forall a, return_rsp v - 56 <= a < stack_top y -> ~ owned x a).
  { intros a Hb. apply Hno. split; [done|]. left. unfold in_stack. lia. }
  assert (Hal : stack_base x mod 8 = 0 /\ stack_top x mod 8 = 0).
  { destruct (layout_aligned x) as (H1 & H2 & _). split; by apply aligned_16_8. }
  destruct (call_switch_ok (stack_base x) (stack_top x) ra (rsp_cell x) (return_rsp v - 56) (callee v) (return_ip v) m)
    as (m' & E & Hcs & Hsp & Hip & Hfpu & Hcr & Hcell & Hsv & Hf & _); try done.
  - by apply (mapped_stack (mem m)).
  - lia.
  - apply (Hm x); [split; [done|]; right; by left|]. apply layout_aligned.
  - apply (cell_outside x).
  - destruct (decide (return_rsp v <= stack_base x)); [left; lia|].
    destruct (decide (stack_top x <= return_rsp v - 56)); [by right|]. exfalso.
    destruct (decide (stack_base x <= return_rsp v - 56)).
    + apply (Hin (return_rsp v - 56)); [lia|]. split; [done|]. left. unfold in_stack. lia.
    + apply (Hin (stack_base x)); [lia|]. split; [done|]. left. unfold in_stack. lia.
  - destruct (decide (return_rsp v - 56 <= rsp_cell x < return_rsp v)); [|lia]. exfalso.
    apply (Hin (rsp_cell x)); [lia|]. split; [done|]. right; by left.
  - exists m'. rewrite Hsp. replace (return_rsp v - 56 + 56) with (return_rsp v) by lia.
    repeat (split; [done|]). split.
    { rewrite <- Hs. apply window_frame. intros a Hb. apply Hf.
      - intros ->. apply (Hin (rsp_cell x)); [lia|]. split; [done|]. right; by left.
      - intros Hb'. apply (Hin a); [lia|]. split; [done|]. left. unfold in_stack. lia. }
    rewrite map_rev. repeat (split; [done|]).
    intros z a Hz Hal'. destruct (decide (a = rsp_cell x)) as [->|Hne]; [by eexists|].
    destruct (decide (gprs m RSP - 56 <= a < gprs m RSP)) as [Hb|Hb]; [|rewrite Hf by done; by apply (Hm z)].
    apply (words_mapped _ _ _ a) in Hsv; [done| |rewrite length_app, length_rev, length_map; cbn [length switch_saves]; lia].
    by repeat apply sub_aligned.
Qed.

(** Its writes stay below the stack pointer and in the cell. *)
Lemma switch_frames x m (h' : gmap Z Z) :
  live x -> rsp_ok x m -> stack_base x + 56 <= gprs m RSP ->
  (forall a, a <> rsp_cell x -> ~ gprs m RSP - 56 <= a < gprs m RSP -> h' !! a = mem m !! a) ->
  (forall a, gprs m RSP <= a < stack_top x -> h' !! a = mem m !! a) /\
  (forall a, ~ owned x a -> h' !! a = mem m !! a).
Proof.
  intros Hlx [_ Hr] Hroom Hf. split; intros a Ha; apply Hf.
  - intros ->. destruct (cell_outside x) as [Hn _]. apply Hn. unfold in_stack. lia.
  - lia.
  - intros ->. apply Ha. split; [done|]. right; by left.
  - intros Hb. apply Ha. split; [done|]. left. unfold in_stack. lia.
Qed.

(** What the switch leaves of [x] is parked. *)
Lemma left_parked x ra m h :
  live x -> rsp_ok x m -> stack_base x + 56 <= gprs m RSP ->
  h !! rsp_cell x = Some (gprs m RSP - 56) ->
  words_at h (gprs m RSP - 56) (map (gprs m) (rev switch_saves) ++ [ra]) ->
  (forall a, gprs m RSP <= a < stack_top x -> h !! a = mem m !! a) ->
  match x with OfTask i => length (fpu m) = FPU_WORDS /\ words_at h (fpu_at i) (fpu m) | OfCore _ => True end ->
  parked x (view x ra m) h.
Proof.
  intros Hlx [Ha Hr] Hroom Hc Hw Hst Hf. constructor; try done.
  - cbn. lia.
  - by apply window_frame.
  - destruct x as [c|i]; [done|]. exists (fpu m). by destruct Hf.
Qed.

(** Storing in memory that a context owns. *)
Lemma store_owned x a l m :
  all_mapped (mem m) -> a mod 8 = 0 -> (forall b, a <= b < a + 8 * zlen l -> owned x b) ->
  exists h, store_words a l m = (Ok tt, with_mem h m) /\ words_at h a l /\ all_mapped h /\
    (forall b, b < a \/ a + 8 * zlen l <= b -> h !! b = mem m !! b).
Proof.
  intros Hm Ha Ho. destruct (store_words_ok l a m) as (h & E & Hw & Hf & Hk).
  { intros k Hk. apply (Hm x); [apply Ho; lia|]. by rewrite (Z.mul_comm 8), Z.mod_add. }
  exists h. split; [done|]. split; [done|]. split; [|done]. intros y b Hb Hal. apply Hk. by apply (Hm y).
Qed.

Lemma store_owned1 x a v m :
  all_mapped (mem m) -> a mod 8 = 0 -> owned x a ->
  exists h, store a v m = (Ok tt, with_mem h m) /\ h !! a = Some v /\ all_mapped h /\
    (forall b, b <> a -> h !! b = mem m !! b).
Proof.
  intros Hm Ha Ho. exists (<[a := v]> (mem m)). destruct (Hm x a Ho Ha) as [y Hy]. split; [|split; [|split]].
  - unfold store. by rewrite Hy.
  - apply lookup_insert_eq.
  - intros z b Hb Hal. destruct (decide (b = a)) as [->|]; [rewrite lookup_insert_eq; by eexists|].
    rewrite lookup_insert_ne by done. by apply (Hm z).
  - intros b Hb. by rewrite lookup_insert_ne.
Qed.

(** The FPU image of a task, saved and restored. *)
Lemma fxsave_ok i m :
  live (OfTask i) -> all_mapped (mem m) -> length (fpu m) = FPU_WORDS ->
  exists h, exec [FxSave (fpu_at i)] m = (Ok tt, with_mem h m) /\ words_at h (fpu_at i) (fpu m) /\ all_mapped h /\
    (forall a, ~ in_fpu (OfTask i) a -> h !! a = mem m !! a).
Proof.
  intros Hlx Hm Hl. destruct (store_owned (OfTask i) (fpu_at i) (fpu m) m Hm) as (h & E & Hw & Hm' & Hf).
  { apply aligned_16_8, fpu_aligned. }
  { rewrite Hl. intros b Hb. split; [done|]. right; right. exact Hb. }
  exists h. split; [|split; [done|split; [done|]]].
  - cbn [exec exec_instr]. rewrite fpu_aligned. cbn [Z.eqb sassert].
    rewrite (sbind_ok _ _ m tt (with_mem h m)); [done|]. rewrite (sbind_ok (sret tt) _ m tt m) by done. exact E.
  - intros a Ha. apply Hf. cbn in Ha. rewrite Hl. lia.
Qed.

Lemma fxrestore_ok i l m :
  words_at (mem m) (fpu_at i) l -> length l = FPU_WORDS -> exec [FxRestore (fpu_at i)] m = (Ok tt, with_fpu l m).
Proof.
  intros Hw Hl. cbn [exec exec_instr]. rewrite fpu_aligned. cbn [Z.eqb sassert].
  rewrite (sbind_ok _ _ m tt (with_fpu l m)); [done|]. rewrite (sbind_ok (sret tt) _ m tt m) by done.
  rewrite <- Hl. rewrite (sbind_ok _ _ _ _ _ (load_words_ok _ _ _ Hw)). done.
Qed.

(** ** All cores *)

Record World : Type := mkWorld {
  cpus : Z -> Machine;
  runs : Z -> Ctx;
  shared : gmap Z Z;
}.

(** The machine that a core sees, and the world after it worked for a context. *)
Definition cpu_at (w : World) (c : Z) : Machine := with_mem (shared w) (cpus w c).
Definition after (c : Z) (x : Ctx) (m : Machine) (w : World) : World :=
  mkWorld (fun d => if decide (d = c) then m else cpus w d) (fun d => if decide (d = c) then x else runs w d) (mem m).

Inductive Event : Type :=
  | Left (x : Ctx) (v : View)
  | Resumed (x : Ctx) (v : View).

(** What a context was left with, when it is not running; the last event comes first. *)
Fixpoint waiting (tr : list Event) (x : Ctx) : option View :=
  match tr with
  | [] => None
  | Left y v :: tr => if decide (x = y) then Some v else waiting tr x
  | Resumed y _ :: tr => if decide (x = y) then None else waiting tr x
  end.

(** A core computes in its context: the stack pointer stays on its stack, and memory that
    belongs to other contexts is not touched. *)
Definition local (x : Ctx) (m m' : Machine) : Prop :=
  rsp_ok x m' /\ length (fpu m') = FPU_WORDS /\ all_mapped (mem m') /\
  (forall y a, y <> x -> owned y a -> mem m' !! a = mem m !! a).

(** Every core starts on its scheduler's stack. *)
Definition booted (w : World) : Prop :=
  all_mapped (shared w) /\
  forall c, runs w c = OfCore c /\ rsp_ok (OfCore c) (cpus w c) /\ length (fpu (cpus w c)) = FPU_WORDS.

Definition create_task (i entry user_rip user_rsp : Z) : MachM unit :=
  reset_fpu_state (fpu_at i) ;;;
  init_task_stack entry (stack_top (OfTask i)) (rsp_cell (OfTask i)) user_rip user_rsp.

(** The trap frame of a new task, and what it starts with. *)
Definition first_frame (user_rip user_rsp : Z) : TrapFrame.t :=
  TrapFrame.mk 0 0 0 0 0 0 0 0 0 0 0 0 0 0 0
    user_rip USER_CODE_SELECTOR_VALUE RFLAGS_DEFAULT user_rsp USER_DATA_SELECTOR_VALUE.
Definition new_view (i entry user_rip user_rsp : Z) : View :=
  mkView (replicate CALLEE_SAVED_REGISTER_COUNT 0) entry (stack_top (OfTask i) - TRAP_FRAME_SIZE)
    (map Some (TrapFrame.words (first_frame user_rip user_rsp))) (Some fpu_words_new).

Definition room (x : Ctx) (m : Machine) : Prop := stack_base x + 56 <= gprs m RSP.

Definition resume (c i ra cr3 : Z) : MachM unit :=
  run_task_switch ra (rsp_cell (OfCore c)) (fpu_at i) cr3 (rsp_cell (OfTask i)).
Definition yield (c i ra : Z) : MachM unit := yield_switch ra (rsp_cell (OfCore c)) (fpu_at i) (rsp_cell (OfTask i)).

(** The runs of the machine.  A scheduler resumes a task that waits; a task is created in a
    slot that no core runs. *)
Inductive run : list Event -> World -> Prop :=
  | run_boot w : booted w -> run [] w
  | run_local tr w c m' : run tr w -> local (runs w c) (cpu_at w c) m' -> run tr (after c (runs w c) m' w)
  | run_resume tr w c i v ra cr3 m' :
      run tr w -> live (OfCore c) -> runs w c = OfCore c -> waiting tr (OfTask i) = Some v -> room (OfCore c) (cpu_at w c) ->
      resume c i ra cr3 (cpu_at w c) = (Ok tt, m') ->
      run (Resumed (OfTask i) (view (OfTask i) (RIP m') m') :: Left (OfCore c) (view (OfCore c) ra (cpu_at w c)) :: tr)
        (after c (OfTask i) m' w)
  | run_yield tr w c i ra m' :
      run tr w -> runs w c = OfTask i -> room (OfTask i) (cpu_at w c) ->
      yield c i ra (cpu_at w c) = (Ok tt, m') ->
      run (Resumed (OfCore c) (view (OfCore c) (RIP m') m') :: Left (OfTask i) (view (OfTask i) ra (cpu_at w c)) :: tr)
        (after c (OfCore c) m' w)
  | run_create tr w c i entry user_rip user_rsp m' :
      run tr w -> live (OfTask i) -> (forall d, runs w d <> OfTask i) -> stack_base (OfTask i) + 56 <= stack_top (OfTask i) - TRAP_FRAME_SIZE ->
      create_task i entry user_rip user_rsp (cpu_at w c) = (Ok tt, m') ->
      run (Left (OfTask i) (new_view i entry user_rip user_rsp) :: tr) (after c (runs w c) m' w).

(** ** The invariant of runs *)

Record sound (tr : list Event) (w : World) : Prop := {
  sound_parked x v : waiting tr x = Some v -> parked x v (shared w);
  sound_runs c : runs w c = OfCore c \/ exists i v, runs w c = OfTask i /\ live (OfTask i) /\ waiting tr (OfCore c) = Some v;
  sound_once c d : runs w c = runs w d -> c = d;
  sound_running c : waiting tr (runs w c) = None;
  sound_mapped : all_mapped (shared w);
  sound_rsp c : rsp_ok (runs w c) (cpus w c);
  sound_fpu c : length (fpu (cpus w c)) = FPU_WORDS;
}.

(** The steps that switch succeed and bring back what was left. *)
Lemma resume_ok tr w c i v ra cr3 :
  sound tr w -> live (OfCore c) -> runs w c = OfCore c -> waiting tr (OfTask i) = Some v -> room (OfCore c) (cpu_at w c) ->
  exists m', resume c i ra cr3 (cpu_at w c) = (Ok tt, m') /\ view (OfTask i) (RIP m') m' = v /\ CR3 m' = cr3 /\
    rsp_ok (OfTask i) m' /\ length (fpu m') = FPU_WORDS /\
    parked (OfCore c) (view (OfCore c) ra (cpu_at w c)) (mem m') /\
    (forall a, ~ owned (OfCore c) a -> mem m' !! a = shared w !! a) /\ all_mapped (mem m').
Proof.
  intros Hw Hlc Hc Hv Hroom. pose proof (sound_parked _ _ Hw _ _ Hv) as Hp. pose proof Hp as [Hli Hcell Hrng Hl _ _ (l & Hi & Hfl & Hfw)].
  pose proof (sound_rsp _ _ Hw c) as Hrsp. rewrite Hc in Hrsp.
  set (m1 := with_cr3 cr3 (with_fpu l (cpu_at w c))).
  destruct (switch_ok (OfCore c) (OfTask i) ra v m1)
    as (m' & E & Hcs & Hip & Hsp & Hst & Hfpu & Hcr & Hcell' & Hsv & Hf & Hm'); [done|done|apply Hw|exact Hrsp|exact Hroom|exact Hp|].
  change (gprs m1) with (gprs (cpu_at w c)) in *. change (mem m1) with (shared w) in *.
  exists m'. split; [|split; [|split; [done|split; [|split; [|split; [|split]]]]]].
  - unfold resume, run_task_switch. rewrite (sbind_ok _ _ _ _ _ (fxrestore_ok i l (cpu_at w c) Hfw Hfl)).
    rewrite (sbind_ok (change _) _ _ tt m1) by done.
    rewrite (sbind_ok (load _) _ m1 (return_rsp v - 56) m1); [exact E|]. unfold load. change (mem m1) with (shared w).
    by rewrite Hcell.
  - destruct v. unfold view. cbn in *. by rewrite Hcs, Hip, Hsp, Hst, Hfpu, Hi.
  - split; rewrite Hsp; [apply Hrng|lia].
  - by rewrite Hfpu.
  - apply left_parked; try done.
    by apply (switch_frames (OfCore c) (cpu_at w c)).
  - by apply (switch_frames (OfCore c) (cpu_at w c)).
  - done.
Qed.

Lemma yield_ok tr w c i v ra :
  sound tr w -> live (OfTask i) -> runs w c = OfTask i -> waiting tr (OfCore c) = Some v -> room (OfTask i) (cpu_at w c) ->
  exists m', yield c i ra (cpu_at w c) = (Ok tt, m') /\ view (OfCore c) (RIP m') m' = v /\
    rsp_ok (OfCore c) m' /\ length (fpu m') = FPU_WORDS /\
    parked (OfTask i) (view (OfTask i) ra (cpu_at w c)) (mem m') /\
    (forall a, ~ owned (OfTask i) a -> mem m' !! a = shared w !! a) /\ all_mapped (mem m').
Proof.
  intros Hw Hli Hc Hv Hroom. pose proof (sound_parked _ _ Hw _ _ Hv) as Hp.
  assert (Hrsp : rsp_ok (OfTask i) (cpu_at w c)) by (rewrite <- Hc; apply (sound_rsp _ _ Hw c)).
  destruct (fxsave_ok i (cpu_at w c)) as (h & Es & Hfw & Hmh & Hfh); [done|apply Hw|apply Hw|].
  set (m1 := with_mem h (cpu_at w c)).
  assert (Hp1 : parked (OfCore c) v (mem m1)).
  { apply (parked_frame _ _ (shared w)); [done|]. intros a Ha. apply Hfh. intros Hin.
    assert (OfCore c = OfTask i) by (eapply owned_disjoint; [exact Ha|split; [done|right; by right]]). done. }
  pose proof Hp1 as [Hlc Hcell Hrng Hl _ _ Hi].
  destruct (switch_ok (OfTask i) (OfCore c) ra v m1)
    as (m' & E & Hcs & Hip & Hsp & Hst & Hfpu & Hcr & Hcell' & Hsv & Hf & Hm'); [done|done|done|exact Hrsp|exact Hroom|exact Hp1|].
  destruct (switch_frames (OfTask i) m1 (mem m') Hli Hrsp Hroom Hf) as [Hst' Hown].
  exists m'. split; [|split; [|split; [|split; [|split; [|split]]]]].
  - unfold yield, yield_switch. rewrite (sbind_ok _ _ _ _ _ Es).
    rewrite (sbind_ok (load _) _ m1 (return_rsp v - 56) m1); [exact E|]. unfold load. by rewrite Hcell.
  - destruct v. unfold view. cbn in *. by rewrite Hcs, Hip, Hsp, Hst, Hi.
  - split; rewrite Hsp; [apply Hrng|lia].
  - rewrite Hfpu. apply Hw.
  - apply left_parked; try done.
    + intros a Ha. rewrite Hst' by done. apply Hfh. intros Hin. apply (fpu_outside _ _ Hin). unfold in_stack.
      destruct Hrsp. lia.
    + split; [apply Hw|]. apply (words_at_frame h); [done|]. change (length (fpu (cpu_at w c))) with (length (fpu (cpus w c))).
      rewrite (sound_fpu _ _ Hw). intros b Hb. apply Hf.
      * intros ->. by apply (cell_outside (OfTask i)).
      * intros Hin. apply (fpu_outside (OfTask i) b); [exact Hb|]. unfold in_stack. destruct Hrsp as [_ Hrsp].
        unfold room in Hroom. change (gprs m1) with (gprs (cpu_at w c)) in Hin. lia.
  - intros a Ha. rewrite Hown by done. apply Hfh. intros Hin. apply Ha. split; [done|]. right; by right.
  - done.
Qed.

(** A new task waits with the registers, the stack and the FPU image of [new_view]. *)
Lemma create_task_ok i entry user_rip user_rsp m :
  live (OfTask i) -> all_mapped (mem m) -> stack_base (OfTask i) + 56 <= stack_top (OfTask i) - TRAP_FRAME_SIZE ->
  exists h, create_task i entry user_rip user_rsp m = (Ok tt, with_mem h m) /\
    parked (OfTask i) (new_view i entry user_rip user_rsp) h /\ all_mapped h /\
    (forall a, ~ owned (OfTask i) a -> h !! a = mem m !! a).
Proof.
  intros Hlx Hm Hroom. change TRAP_FRAME_SIZE with 160 in *. set (x := OfTask i) in *. set (top := stack_top x) in *.
  destruct (layout_aligned x) as (_ & Hat & Hac). pose proof (stack_low x) as Hlow. fold top in Hat.
  pose proof (aligned_16_8 _ Hat) as Ha8.
  assert (Hin : forall b, top - 216 <= b < top -> owned x b) by (intros b Hb; split; [done|]; left; unfold in_stack; fold top; lia).
  destruct (store_owned x (fpu_at i) fpu_words_new m Hm) as (h1 & E1 & Hw1 & Hm1 & Hf1).
  { apply aligned_16_8, fpu_aligned. }
  { intros b Hb. split; [done|]. right; right. exact Hb. }
  change (zlen fpu_words_new) with (Z.of_nat FPU_WORDS) in Hf1.
  set (frame := TrapFrame.words (first_frame user_rip user_rsp)).
  destruct (store_owned x (top - 160) frame (with_mem h1 m) Hm1) as (h2 & E2 & Hw2 & Hm2 & Hf2).
  { by apply sub_aligned. }
  { intros b Hb. apply Hin. change (zlen frame) with 20 in Hb. lia. }
  change (zlen frame) with 20 in Hf2.
  destruct (store_owned1 x (top - 168) entry (with_mem h2 m) Hm2) as (h3 & E3 & Hw3 & Hm3 & Hf3); [by apply sub_aligned|apply Hin; lia|].
  destruct (store_owned x (top - 216) (replicate CALLEE_SAVED_REGISTER_COUNT 0) (with_mem h3 m) Hm3) as (h4 & E4 & Hw4 & Hm4 & Hf4).
  { by apply sub_aligned. }
  { intros b Hb. apply Hin. cbn [length replicate CALLEE_SAVED_REGISTER_COUNT] in Hb. lia. }
  change (zlen (replicate _ _)) with 6 in Hf4.
  destruct (store_owned1 x (rsp_cell x) (top - 216) (with_mem h4 m) Hm4) as (h5 & E5 & Hw5 & Hm5 & Hf5); [done|split; [done|right; by left]|].
  exists h5. split; [|split; [|split; [done|]]].
  - unfold create_task, reset_fpu_state. rewrite (sbind_ok _ _ _ _ _ E1). unfold init_task_stack. fold x. fold top.
    rewrite Hat. cbn [Z.eqb sassert]. rewrite (sbind_ok (sret tt) _ _ tt (with_mem h1 m)) by done.
    unfold slift, usub. change TRAP_FRAME_SIZE with 160. change RETURN_ADDRESS_SIZE with 8. change CALLEE_SAVED_SIZE with 48.
    rewrite (proj2 (Z.leb_le 160 top)) by lia. unfold sbind at 1.
    rewrite (proj2 (Z.leb_le 8 (top - 160))) by lia. unfold sbind at 1.
    rewrite (proj2 (Z.leb_le 48 (top - 160 - 8))) by lia. unfold sbind at 1.
    replace (top - 160 - 8 - 48) with (top - 216) by lia. replace (top - 160 - 8) with (top - 168) by lia.
    rewrite (sbind_ok _ _ _ _ _ E2), (sbind_ok _ _ _ _ _ E3), (sbind_ok _ _ _ _ _ E4). exact E5.
  - destruct (cell_outside x) as [Hcs Hcf]. change (mem (with_mem ?g m)) with g in *.
    assert (Hst : forall b, top - 216 <= b < top -> h5 !! b = h4 !! b).
    { intros b Hb. apply Hf5. intros ->. apply Hcs. unfold in_stack. fold top. lia. }
    assert (Hfp : forall b, in_fpu x b -> ~ top - 216 <= b < top).
    { intros b Hb Hb'. apply (fpu_outside x b Hb). unfold in_stack. fold top. lia. }
    constructor; cbn [new_view return_rsp callee return_ip stack_words fpu_image]; change TRAP_FRAME_SIZE with 160; fold x top.
    + done.
    + rewrite Hw5. f_equal. lia.
    + split; [lia|]. split; [lia|]. by apply sub_aligned.
    + done.
    + replace (top - 160 - 56) with (top - 216) by lia. apply words_at_app. split.
      * apply (words_at_frame h4); [done|]. change (zlen (replicate _ _)) with 6. intros b Hb. apply Hst. lia.
      * change (zlen (replicate _ _)) with 6. apply words_at_cons. split; [|apply words_at_nil].
        rewrite Hst, Hf4 by lia. replace (top - 216 + 8 * 6) with (top - 168) by lia. exact Hw3.
    + apply window_words; [|change (zlen (TrapFrame.words _)) with 20; lia]. fold frame.
      apply (words_at_frame h2); [done|]. change (zlen frame) with 20. intros b Hb. rewrite Hst, Hf4, Hf3 by lia. done.
    + exists fpu_words_new. split; [done|]. split; [done|]. apply (words_at_frame h1); [done|].
      change (zlen fpu_words_new) with (Z.of_nat FPU_WORDS). intros b Hb. specialize (Hfp b Hb).
      rewrite Hf5 by (intros ->; by apply Hcf). rewrite Hf4, Hf3, Hf2 by lia. done.
  - intros a Ha. assert (a <> rsp_cell x) by (intros ->; apply Ha; split; [done|]; right; by left).
    assert (~ top - 216 <= a < top) by (intros Hb; by apply Ha, Hin).
    assert (~ in_fpu x a) by (intros Hb; apply Ha; split; [done|]; right; by right). cbn in *.
    rewrite Hf5 by done. rewrite Hf4 by lia. rewrite Hf3 by lia. rewrite Hf2 by lia. rewrite Hf1 by lia. done.
Qed.

Lemma after_cpus c x m w d : cpus (after c x m w) d = if decide (d = c) then m else cpus w d.
Proof. done. Qed.
Lemma after_runs c x m w d : runs (after c x m w) d = if decide (d = c) then x else runs w d.
Proof. done. Qed.

Lemma waiting_not_running tr w x v c : sound tr w -> waiting tr x = Some v -> runs w c <> x.
Proof. intros Hw Hv <-. by rewrite (sound_running _ _ Hw) in Hv. Qed.

(** Parked contexts stay so while a core works in its own. *)
Lemma parked_stays tr w c x v h :
  sound tr w -> waiting tr x = Some v -> (forall a, ~ owned (runs w c) a -> h !! a = shared w !! a) -> parked x v h.
Proof.
  intros Hw Hv Hf. apply (parked_frame _ _ (shared w)); [by apply (sound_parked _ _ Hw)|].
  intros a Ha. apply Hf. intros Hb. by apply (waiting_not_running _ _ _ _ c Hw Hv), (owned_disjoint _ _ a).
Qed.

Lemma sound_local tr w c m' : sound tr w -> local (runs w c) (cpu_at w c) m' -> sound tr (after c (runs w c) m' w).
Proof.
  intros Hw (Hr & Hl & Hm & Hf). constructor; try setoid_rewrite after_runs; try setoid_rewrite after_cpus.
  - intros x v Hv. apply (parked_frame _ _ (shared w)); [by apply (sound_parked _ _ Hw)|].
    intros a Ha. apply (Hf x); [|done]. intros ->. by rewrite (sound_running _ _ Hw) in Hv.
  - intros d. case_decide; subst; apply (sound_runs _ _ Hw).
  - intros d e. repeat case_decide; subst; intros He; try done; by apply (sound_once _ _ Hw).
  - intros d. case_decide; subst; apply (sound_running _ _ Hw).
  - done.
  - intros d. case_decide; subst; [done|apply (sound_rsp _ _ Hw)].
  - intros d. case_decide; subst; [done|apply (sound_fpu _ _ Hw)].
Qed.

(** A core changes from [x] to [y]. *)
Lemma sound_switch tr w c y v v' u m' :
  sound tr w -> waiting tr y = Some v -> y = OfCore c \/ runs w c = OfCore c /\ (exists i, y = OfTask i /\ live y) ->
  parked (runs w c) u (mem m') -> (forall a, ~ owned (runs w c) a -> mem m' !! a = shared w !! a) ->
  all_mapped (mem m') -> rsp_ok y m' -> length (fpu m') = FPU_WORDS ->
  sound (Resumed y v' :: Left (runs w c) u :: tr) (after c y m' w).
Proof.
  intros Hw Hv Hy Hu Hf Hm Hr Hl. pose proof (waiting_not_running _ _ _ _ c Hw Hv) as Hne.
  assert (Hother : forall d, d <> c -> waiting (Resumed y v' :: Left (runs w c) u :: tr) (runs w d) = None).
  { intros d Hd. cbn. case_decide; [done|]. case_decide as E; [|apply (sound_running _ _ Hw)].
    by apply (sound_once _ _ Hw) in E. }
  constructor; try setoid_rewrite after_runs; try setoid_rewrite after_cpus.
  - intros x vx. cbn. case_decide; [done|]. case_decide; subst; [by intros [= <-]|]. intros Hx. by eapply parked_stays.
  - intros d. case_decide as Hd.
    + subst d. destruct Hy as [->|(Hc & i & -> & Hli)]; [by left|]. right. exists i, u. split; [done|]. split; [done|]. cbn.
      rewrite Hc. rewrite decide_False by done. by rewrite decide_True.
    + destruct (sound_runs _ _ Hw d) as [->|(i & vd & -> & Hli & Hvd)]; [by left|]. right. exists i, vd. split; [done|]. split; [done|].
      cbn. rewrite decide_False.
      * rewrite decide_False; [done|]. intros E. rewrite E, (sound_running _ _ Hw) in Hvd. done.
      * intros <-. destruct Hy as [[= ->]|(_ & j & [=] & _)]. done.
  - intros d e. repeat case_decide; subst; try done; intros He.
    + exfalso. by apply (waiting_not_running _ _ _ _ e Hw Hv).
    + exfalso. by apply (waiting_not_running _ _ _ _ d Hw Hv).
    + by apply (sound_once _ _ Hw).
  - intros d. case_decide; [|by apply Hother]. cbn. by rewrite decide_True.
  - done.
  - intros d. case_decide; [done|apply (sound_rsp _ _ Hw)].
  - intros d. case_decide; [done|apply (sound_fpu _ _ Hw)].
Qed.

Lemma sound_create tr w c i v h :
  sound tr w -> (forall d, runs w d <> OfTask i) -> parked (OfTask i) v h -> all_mapped h ->
  (forall a, ~ owned (OfTask i) a -> h !! a = shared w !! a) ->
  sound (Left (OfTask i) v :: tr) (after c (runs w c) (with_mem h (cpu_at w c)) w).
Proof.
  intros Hw Hn Hp Hm Hf. constructor; try setoid_rewrite after_runs; try setoid_rewrite after_cpus.
  - intros x vx. cbn. case_decide as Hx; [subst; by intros [= <-]|]. intros Hv.
    apply (parked_frame _ _ (shared w)); [by apply (sound_parked _ _ Hw)|].
    intros a Ha. apply Hf. intros Hb. by apply Hx, (owned_disjoint _ _ a).
  - intros d. cbn. destruct (sound_runs _ _ Hw d) as [E|(j & vd & E & Hlj & Hvd)].
    + left. case_decide; by subst.
    + right. exists j, vd. split; [case_decide; by subst|]. done.
  - intros d e. repeat case_decide; subst; intros He; try done; by apply (sound_once _ _ Hw).
  - intros d. replace (if decide (d = c) then runs w c else runs w d) with (runs w d) by (case_decide; by subst).
    cbn. rewrite decide_False by apply Hn. apply (sound_running _ _ Hw).
  - done.
  - intros d. case_decide; subst; apply (sound_rsp _ _ Hw).
  - intros d. case_decide; subst; apply (sound_fpu _ _ Hw).
Qed.

Lemma run_sound tr w : run tr w -> sound tr w.
Proof.
  induction 1 as [w (Hm & Hb)|tr w c m' _ IH Hl|tr w c i v ra cr3 m' _ IH Hlc Hc Hv Hroom E|tr w c i ra m' _ IH Hc Hroom E
    |tr w c i entry user_rip user_rsp m' _ IH Hli Hn Hroom E].
  - constructor; try done; try (intros c; destruct (Hb c) as (Hc & Hr & Hl)).
    + by left.
    + intros d. destruct (Hb d) as (Hd & _). rewrite Hc, Hd. by intros [= ->].
    + by rewrite Hc.
    + done.
  - by apply sound_local.
  - destruct (resume_ok tr w c i v ra cr3 IH Hlc Hc Hv Hroom) as (m1 & E1 & Hview & _ & Hr & Hl & Hp & Hf & Hm).
    rewrite E in E1. injection E1 as <-. rewrite <- Hc in Hp, Hf |- *.
    apply (sound_switch _ _ _ _ v); try done. right. split; [done|]. exists i. split; [done|]. by apply (parked_live _ _ _ (sound_parked _ _ IH _ _ Hv)).
  - destruct (sound_runs _ _ IH c) as [Hc'|(j & v & Hj & Hlj & Hv)]; [congruence|]. assert (j = i) as -> by congruence.
    destruct (yield_ok tr w c i v ra IH Hlj Hc Hv Hroom) as (m1 & E1 & Hview & Hr & Hl & Hp & Hf & Hm).
    rewrite E in E1. injection E1 as <-. rewrite <- Hc in Hp, Hf |- *.
    apply (sound_switch _ _ _ _ v); try done. by left.
  - destruct (create_task_ok i entry user_rip user_rsp (cpu_at w c)) as (h & E1 & Hp & Hm & Hf); [done|apply IH|done|].
    rewrite E in E1. injection E1 as ->. by apply sound_create.
Qed.

(** C2: over any interleaving of task creations, switches into tasks, switches back to the
    scheduler loops and other work of the cores, a switch into a waiting task or back to the
    loop of its core does not fault, and what is resumed finds the registers, the stack and
    the FPU image with which it was last left, or with which it was created. *)
Theorem contexts_survive tr w :
  run tr w ->
  (forall new x v old, tr = new ++ Resumed x v :: old -> waiting old x = Some v) /\
  (forall c i v ra cr3, live (OfCore c) -> runs w c = OfCore c -> waiting tr (OfTask i) = Some v -> room (OfCore c) (cpu_at w c) ->
    exists m', resume c i ra cr3 (cpu_at w c) = (Ok tt, m') /\ view (OfTask i) (RIP m') m' = v /\ CR3 m' = cr3) /\
  (forall c i ra, runs w c = OfTask i -> room (OfTask i) (cpu_at w c) ->
    exists m' v, yield c i ra (cpu_at w c) = (Ok tt, m') /\ waiting tr (OfCore c) = Some v /\
      view (OfCore c) (RIP m') m' = v).
Proof.
  intros Hrun. pose proof (run_sound _ _ Hrun) as Hw. split; [|split].
  - clear Hw. induction Hrun as [w ?|tr w c m' _ IH Hl|tr w c i v ra cr3 m' Hrun IH Hlc Hc Hv Hroom E|tr w c i ra m' Hrun IH Hc Hroom E
      |tr w c i entry user_rip user_rsp m' _ IH Hli Hn Hroom E]; intros new x vx old Heq; try by eauto.
    + by destruct new.
    + destruct (resume_ok tr w c i v ra cr3 (run_sound _ _ Hrun) Hlc Hc Hv Hroom) as (m1 & E1 & Hview & _).
      rewrite E in E1. injection E1 as <-. destruct new as [|e new]; [injection Heq as <- <- <-; cbn; by rewrite Hview|].
      injection Heq as <- Heq. destruct new as [|e' new]; [done|]. injection Heq as <- Heq. by eapply IH.
    + destruct (sound_runs _ _ (run_sound _ _ Hrun) c) as [Hc'|(j & v & Hj & Hlj & Hv)]; [congruence|]. assert (j = i) as -> by congruence.
      destruct (yield_ok tr w c i v ra (run_sound _ _ Hrun) Hlj Hc Hv Hroom) as (m1 & E1 & Hview & _).
      rewrite E in E1. injection E1 as <-. destruct new as [|e new]; [injection Heq as <- <- <-; cbn; by rewrite Hview|].
      injection Heq as <- Heq. destruct new as [|e' new]; [done|]. injection Heq as <- Heq. by eapply IH.
    + destruct new as [|e new]; [done|]. injection Heq as <- Heq. by eapply IH.
  - intros c i v ra cr3 Hlc Hc Hv Hroom. destruct (resume_ok tr w c i v ra cr3 Hw Hlc Hc Hv Hroom) as (m' & ? & ? & ? & _). eauto.
  - intros c i ra Hc Hroom. destruct (sound_runs _ _ Hw c) as [Hc'|(j & v & Hj & Hlj & Hv)]; [congruence|]. assert (j = i) as -> by congruence.
    destruct (yield_ok tr w c i v ra Hw Hlj Hc Hv Hroom) as (m' & ? & ? & _). eauto.
Qed.
End world.

(** ** Contexts on a small machine

    A memory with a stack, an FPU image and a cell for every core and slot, and a called
    function that overwrites what the calling convention lets it overwrite. *)

(** [n] words of memory, all zero, from [a] on. *)
Definition zero_words (a : Z) (n : nat) : gmap Z Z :=
  list_to_map ((fun k => (a + 8 * Z.of_nat k, 0)) <$> seq 0 n).

Lemma zero_words_some a n b :
  a <= b < a + 8 * Z.of_nat n -> (b - a) mod 8 = 0 -> zero_words a n !! b = Some 0.
Proof.
  intros Hb Hd. apply Z.mod_divide in Hd as [q Hq]; [|done].
  apply elem_of_list_to_map_1'.
  - intros y Hy. apply list_elem_of_fmap in Hy as (k & [= _ ->] & _). done.
  - apply list_elem_of_fmap. exists (Z.to_nat q). split; [f_equal; lia|]. apply elem_of_seq. lia.
Qed.

(** A function that uses its stack and the registers it may use. *)
Definition clobber : MachM unit :=
  push_word 77 ;;; (pop_word ;;; (put RAX 1 ;;; put RCX 2 ;;; put RDI 3 ;;; put R8 4 ;;; put R11 5)).

Lemma clobber_abi base top : abi base top 16 clobber.
Proof.
  intros m _ Hs Hr Ha. destruct (push_ok base top 77 m Hs) as (m1 & E & -> & Hs1); [lia| |].
  { pose proof (Z.div_mod (gprs m RSP) 16). apply (multiple_mod _ _ (2 * (gprs m RSP / 16) + 1)); [done|lia]. }
  eexists. split; [|split; [|split]].
  - unfold clobber. rewrite (sbind_ok _ _ _ _ _ E). unfold pop_word, get, load, put, sret, sbind. cbn.
    rewrite set_reg_eq, lookup_insert_eq. cbn. reflexivity.
  - exact Hs1.
  - split; [|split; [|split]].
    + intros r Hin. cbn. rewrite !set_reg_ne; [done|..]; intros ->; apply list_elem_of_In in Hin;
        by repeat destruct Hin as [Hin|Hin].
    + cbn. rewrite !set_reg_ne by done. rewrite set_reg_eq. lia.
    + cbn. by rewrite lookup_insert_ne by lia.
    + done.
  - intros a Hin. cbn. by rewrite lookup_insert_ne by lia.
Qed.

Lemma clobber_spares base top a : top <= a -> spares base top 16 a clobber.
Proof.
  intros Ha m r m' Hr. unfold clobber, push_word, pop_word, sbind, get, load, store, put, sret.
  destruct (mem m !! (gprs m RSP - 8)); [|by intros [= _ <-]]. cbn [with_reg with_gprs with_mem mem gprs]. rewrite set_reg_eq, lookup_insert_eq.
  intros [= _ <-]. cbn. by rewrite lookup_insert_ne by lia.
Qed.

(** A stack of 320 bytes at 0, the data of system calls at 0x1000. *)
Definition demo_regs : Reg -> Z := fun r =>
  match r with RAX => 23 | RDI => 3 | RSI => 0 | RDX => 0x9000 | R10 => 64 | RCX => 99 | RBX => 7 | RSP => 0x8FF8 | _ => 11 end.

Definition demo_machine (c s : Z) (g : Reg -> Z) : Machine :=
  mkMachine g 0x401000 0x246 c s [0; 0; 0; 0] 0 [] (<[IA32_KERNEL_GS_BASE := 0x1000]> (<[IA32_STAR := STAR_VALUE]>
    (<[IA32_LSTAR := 0xFFFF800000001000]> (<[IA32_FMASK := SFMASK]> ∅))))
    (<[0x1000 := 320]> (<[0x1008 := 0]> (zero_words 0 40))).

Lemma demo_stack c s g : stack_mapped 0 320 (demo_machine c s g).
Proof.
  intros a Ha Hal. cbn [mem demo_machine]. rewrite !lookup_insert_ne by lia. rewrite zero_words_some; [by eexists|lia|].
  by rewrite Z.sub_0_r.
Qed.

Lemma interrupt_resumes_witness :
  let m := demo_machine USER_CODE_SELECTOR_VALUE 0x18 demo_regs in
  user_mode m = true /\
  exists m1 m', interrupt_entry 320 0xFFFF800000002000 m = (Ok tt, m1) /\
    exec (interrupt_stub 1 2 clobber (interrupt_return_path clobber)) m1 = (Ok tt, m') /\
    gprs m' RBX = 7 /\ gprs m' RSP = 0x8FF8 /\ RIP m' = 0x401000 /\ SS m' = USER_DATA_SELECTOR_VALUE /\
    mem m' !! 0x1000 = Some 320.
Proof.
  intros m. split; [by vm_compute|].
  destruct (interrupt_resumes 0 320 16 ltac:(lia) 320 0xFFFF800000002000 1 2 clobber clobber m
    (clobber_abi 0 320) (clobber_abi 0 320) (demo_stack _ _ _))
    as (m1 & m' & E1 & E2 & Hg & Hip & _ & _ & Hss & _ & Hout); [by vm_compute|vm_compute; done|].
  exists m1, m'. split; [exact E1|]. split; [exact E2|]. rewrite !Hg, Hip, Hss. do 4 (split; [by vm_compute|]).
  rewrite Hout; [by vm_compute|right; lia|apply clobber_spares; lia|apply clobber_spares; lia].
Defined.

Definition demo_dispatch (f : SyscallRegs.t) : Z := SyscallRegs.syscall_num f * 1000 + SyscallRegs.arg4 f.

Lemma syscall_returns_witness :
  let m := demo_machine USER_CODE_SELECTOR_VALUE USER_DATA_SELECTOR_VALUE demo_regs in
  exists m1 m', syscall_entry m = (Ok tt, m1) /\
    exec (syscall_handler 1 (handle_syscall_inner demo_dispatch clobber)) m1 = (Ok tt, m') /\
    gprs m' RAX = 23064 /\ gprs m' RDX = 0x9000 /\ gprs m' RCX = 0x401000 /\ RFLAGS m' = 0x246.
Proof.
  intros m.
  destruct (syscall_returns 0 320 16 ltac:(lia) 0x1000 0xFFFF800000001000 1 demo_dispatch clobber m
    (clobber_abi 0 320)) as (m1 & m' & E1 & _ & _ & _ & E2 & Hax & Hcx & _ & Hg & _ & Hfl & _).
  - constructor; vm_compute; try reflexivity. by eexists.
  - apply demo_stack.
  - by vm_compute.
  - lia.
  - exists m1, m'. split; [exact E1|]. split; [exact E2|]. rewrite Hax, Hcx, Hfl, Hg by decided. by vm_compute.
Defined.

(** ** All contexts *)

Definition place (x : Ctx) : Z := match x with OfCore c => Z.max 0 c | OfTask i => 4 + Z.max 0 i end.

#[export] Instance demo_layout : Layout := {
  stack_base x := 1024 * place x;
  stack_top x := 1024 * place x + 320;
  rsp_cell x := 1024 * place x + 384;
  fpu_at i := 1024 * (4 + Z.max 0 i) + 400;
}.

Lemma place_inj x y : live x -> live y -> place x = place y -> x = y.
Proof.
  destruct x, y; unfold live, place, MAX_CORES, MAX_TASKS; intros; f_equal; lia.
Qed.

Lemma touches_place x a : touches x a -> 1024 * place x <= a < 1024 * place x + 1024.
Proof.
  unfold touches, in_stack, in_fpu, FPU_WORDS. destruct x; cbn [stack_base stack_top rsp_cell fpu_at demo_layout place]; lia.
Qed.

#[export] Instance demo_layout_ok : LayoutOk.
Proof.
  constructor.
  - intros x y a [Hx Ha%touches_place] [Hy Hb%touches_place]. apply place_inj; [done..|lia].
  - intros [c|i]; unfold in_stack, in_fpu, FPU_WORDS; cbn [stack_base stack_top rsp_cell fpu_at demo_layout place]; lia.
  - intros [c|i] a; unfold in_stack, in_fpu, FPU_WORDS; cbn [stack_base stack_top rsp_cell fpu_at demo_layout place]; lia.
  - intros x. cbn [stack_base stack_top rsp_cell demo_layout].
    split; [|split]; [apply (multiple_mod _ _ (64 * place x))|apply (multiple_mod _ _ (64 * place x + 20))|
      apply (multiple_mod _ _ (128 * place x + 48))]; lia.
  - intros i. apply (multiple_mod _ _ (64 * (4 + Z.max 0 i) + 25)); [done|]. cbn [fpu_at demo_layout]. lia.
  - intros [c|i]; cbn [stack_base demo_layout place]; lia.
Qed.

Definition demo_cpu (c : Z) : Machine :=
  mkMachine (fun r => match r with RSP => 1024 * Z.max 0 c + 256 | _ => c end) 0 0 8 0 [] 0 (replicate FPU_WORDS c) ∅ ∅.

Definition demo_world : World := mkWorld demo_cpu OfCore (zero_words 0 (68 * 128)).

Lemma demo_booted : booted demo_world.
Proof.
  split.
  - intros x a [Hx Ha%touches_place] Hal. cbn [shared demo_world]. rewrite zero_words_some; [by eexists| |by rewrite Z.sub_0_r].
    destruct x; unfold live, place, MAX_CORES, MAX_TASKS in *; lia.
  - intros c. split; [done|]. split; [split|].
    + change (gprs _ RSP) with (1024 * Z.max 0 c + 256). apply (multiple_mod _ _ (128 * Z.max 0 c + 32)); [done|lia].
    + change (gprs _ RSP) with (1024 * Z.max 0 c + 256). cbn [stack_base stack_top demo_layout place]. lia.
    + cbn [fpu cpus demo_world demo_cpu]. apply length_replicate.
Qed.

Lemma ok_snd {E A S} (r : result E A * S) a : r.1 = Ok a -> r = (Ok a, r.2).
Proof. destruct r. cbn. by intros ->. Qed.

(** Core 2 creates a task in slot 5; core 1 resumes it. *)
Definition created : World := after 2 (OfCore 2) (create_task 5 0xFFFF800000003000 0x401000 0x8000 (cpu_at demo_world 2)).2 demo_world.

Lemma contexts_survive_witness :
  run [Left (OfTask 5) (new_view 5 0xFFFF800000003000 0x401000 0x8000)] created /\
  exists m', resume 1 5 77 0x5000 (cpu_at created 1) = (Ok tt, m') /\
    view (OfTask 5) (RIP m') m' = new_view 5 0xFFFF800000003000 0x401000 0x8000.
Proof.
  assert (Hrun : run [Left (OfTask 5) (new_view 5 0xFFFF800000003000 0x401000 0x8000)] created).
  { apply (run_create [] demo_world 2).
    - apply run_boot, demo_booted.
    - split; by vm_compute.
    - done.
    - by vm_compute.
    - apply ok_snd. by vm_compute. }
  split; [exact Hrun|].
  destruct (contexts_survive _ _ Hrun) as (_ & Hres & _).
  destruct (Hres 1 5 (new_view 5 0xFFFF800000003000 0x401000 0x8000) 77 0x5000) as (m' & E & Hv & _);
    [split; by vm_compute|done|done|by vm_compute|]. eauto.
Defined.
