(* ===== verification/CpuInfo.v ===== *)
(** * CpuInfo: what the processor says of itself, kernel/src/util/cpuinfo.rs

    The registers the [cpuid] instruction answers leaf 0 and leaf 1 with are decoded into
    [CpuInfo], one per core, which the system call [GetCpuInfo] hands to programs as a
    [CpuInfoFlat].  The registers are words of 32 bits. *)

From Stdlib Require Import ZArith Lia.
From stdpp Require Import base tactics list option numbers strings.
From S2P Require Import Prelude.

Open Scope rust_scope.

(** [CpuFeatureFlags] *)
Definition APIC : Z := 2 ^ 0.
Definition X2APIC : Z := 2 ^ 1.
Definition TSC : Z := 2 ^ 2.
Definition TSC_DEADLINE : Z := 2 ^ 3.
Definition PGE : Z := 2 ^ 4.
Definition PAT : Z := 2 ^ 5.
Definition SSE : Z := 2 ^ 6.
Definition SSE2 : Z := 2 ^ 7.
Definition SSE3 : Z := 2 ^ 8.
Definition SSE4_1 : Z := 2 ^ 9.
Definition SSE4_2 : Z := 2 ^ 10.
Definition AVX : Z := 2 ^ 11.
Definition AES : Z := 2 ^ 12.
Definition RDRAND : Z := 2 ^ 13.
Definition HYPERVISOR : Z := 2 ^ 14.

Inductive CpuVendor : Type := Unknown | Intel | AMD.

(** [vendor as u8] *)
Definition vendor_code (v : CpuVendor) : Z := match v with Unknown => 0 | Intel => 1 | AMD => 2 end.

Record CpuInfo : Type := mkCpuInfo {
  features : Z;
  cache_line_size : Z;
  apic_id : Z;
  family : Z;
  model : Z;
  stepping : Z;
  display_family : Z;
  display_model : Z;
  vendor : CpuVendor;
}.

(** The registers of a leaf. *)
Record Leaf : Type := mkLeaf { eax : Z; ebx : Z; ecx : Z; edx : Z }.

(** [(word >> n) as u8] *)
Definition byte_at (word n : Z) : Z := wrap 8 (Z.shiftr word n).

(** The bytes of an ASCII string. *)
Definition ascii_bytes (s : string) : list Z := (fun c => Z.of_N (Ascii.N_of_ascii c)) <$> String.list_ascii_of_string s.

Definition get_vendor (l : Leaf) : CpuVendor :=
  let vendor_bytes := w ← [ebx l; edx l; ecx l]; (byte_at w) <$> [0; 8; 16; 24] in
  if decide (vendor_bytes = ascii_bytes "GenuineIntel") then Intel
  else if decide (vendor_bytes = ascii_bytes "AuthenticAMD") then AMD
  else Unknown.

(** [if word & (1 << bit) != 0 { features |= flag; }] *)
Definition add_feature (features word bit flag : Z) : Z :=
  if Z.land word (Z.shiftl 1 bit) =? 0 then features else Z.lor features flag.

Definition read_features (feat_ecx feat_edx : Z) : Z :=
  let features := add_feature 0 feat_edx 9 APIC in
  let features := add_feature features feat_ecx 21 X2APIC in
  let features := add_feature features feat_edx 4 TSC in
  let features := add_feature features feat_ecx 24 TSC_DEADLINE in
  let features := add_feature features feat_edx 13 PGE in
  let features := add_feature features feat_edx 16 PAT in
  let features := add_feature features feat_edx 25 SSE in
  let features := add_feature features feat_edx 26 SSE2 in
  let features := add_feature features feat_ecx 0 SSE3 in
  let features := add_feature features feat_ecx 19 SSE4_1 in
  let features := add_feature features feat_ecx 20 SSE4_2 in
  let features := add_feature features feat_ecx 28 AVX in
  let features := add_feature features feat_ecx 25 AES in
  let features := add_feature features feat_ecx 30 RDRAND in
  add_feature features feat_ecx 31 HYPERVISOR.

(** [a * b] of bytes *)
Definition u8_mul {E} (a b : Z) : result E Z := if a * b <? 2 ^ 8 then Ok (a * b) else Panic.

(** [init_cpu_info_for_core], the registers of both leaves given; the caller stores the
    result for the core. *)
Definition init_cpu_info (leaf0 leaf1 : Leaf) : result Empty_set CpuInfo :=
  if eax leaf0 <? 1 then Panic else
  let base_family := Z.land (Z.shiftr (eax leaf1) 8) 0xF in
  let base_model := Z.land (Z.shiftr (eax leaf1) 4) 0xF in
  let display_family :=
    if base_family =? 0xF then base_family + Z.land (Z.shiftr (eax leaf1) 20) 0xFF else base_family in
  let display_model := wrap 8
    (if (base_family =? 0x6) || (base_family =? 0xF)
     then Z.lor (Z.shiftl (Z.land (Z.shiftr (eax leaf1) 16) 0xF) 4) base_model else base_model) in
  let features := read_features (ecx leaf1) (edx leaf1) in
  let? cache_line_size := u8_mul (Z.land (Z.shiftr (ebx leaf1) 8) 0xFF) 8 in
  let apic_id := Z.land (Z.shiftr (ebx leaf1) 24) 0xFF in
  let cpu_family := Z.land (Z.shiftr (edx leaf1) 8) 0xF in
  let cpu_model := Z.land (Z.shiftr (edx leaf1) 4) 0xF in
  let cpu_stepping := Z.land (edx leaf1) 0xF in
  Ok (mkCpuInfo features cache_line_size apic_id cpu_family cpu_model cpu_stepping display_family display_model (get_vendor leaf0)).

Definition DEFAULT_CPU_INFO : CpuInfo := mkCpuInfo 0 0 0 0 0 0 0 0 Unknown.

(** [CPU_INFO_PER_CORE], one entry for each core the kernel can have *)
Abbreviation CpuInfos := (list CpuInfo).

Definition init_cpu_info_for_core (core_id : Z) (leaf0 leaf1 : Leaf) (infos : CpuInfos) : result Empty_set CpuInfos :=
  let? info := init_cpu_info leaf0 leaf1 in
  if Z.of_nat (length infos) <=? core_id then Panic else Ok (<[ Z.to_nat core_id := info ]> infos).

Definition get_cpu_info_for_core (core_id : Z) (infos : CpuInfos) : result Empty_set CpuInfo :=
  match infos !! Z.to_nat core_id with Some info => Ok info | None => Panic end.

Definition contains (features flag : Z) : bool := Z.land features flag =? flag.

Definition to_feature_names (features : Z) : list string :=
  let named (f : Z) (name : string) := if contains features f then [name] else [] in
  named APIC "APIC" ++ named X2APIC "X2APIC" ++ named TSC "TSC" ++ named TSC_DEADLINE "TSC Deadline" ++ named PGE "PGE" ++
  named PAT "PAT" ++ named SSE "SSE" ++ named SSE2 "SSE2" ++ named SSE3 "SSE3" ++ named SSE4_1 "SSE4.1" ++
  named SSE4_2 "SSE4.2" ++ named AVX "AVX" ++ named AES "AES" ++ named RDRAND "RDRAND" ++ named HYPERVISOR "Hypervisor".

Record CpuInfoFlat : Type := mkCpuInfoFlat {
  f_vendor : Z;
  f_family : Z;
  f_model : Z;
  f_stepping : Z;
  f_display_family : Z;
  f_display_model : Z;
  f_cache_line_size : Z;
  f_apic_id : Z;
  f_features : Z;
  f_tsc_frequency_hz : Z;
  f_boot_tsc : Z;
  f_max_cpuid_leaf : Z;
  f_max_extended_cpuid_leaf : Z;
  f_core_count : Z;
}.

Definition from_kernel_info (cpu_info : CpuInfo) (tsc_freq boot_tsc core_count : Z) : CpuInfoFlat :=
  mkCpuInfoFlat (vendor_code (vendor cpu_info)) (family cpu_info) (model cpu_info) (stepping cpu_info)
    (display_family cpu_info) (display_model cpu_info) (cache_line_size cpu_info) (apic_id cpu_info) (features cpu_info)
    tsc_freq boot_tsc 0 0 core_count.

(** The structure in memory: [repr(C, align(16))], with three bytes of padding before the
    features and seven at the end, whose contents Rust leaves open. *)
Definition CPU_INFO_FLAT_SIZE : Z := 48.

Definition flat_bytes (padding : list Z) (f : CpuInfoFlat) : list Z :=
  [f_vendor f; f_family f; f_model f; f_stepping f] ++ le_bytes 2 (f_display_family f) ++
  [f_display_model f; f_cache_line_size f; f_apic_id f] ++ take 3 padding ++ le_bytes 4 (f_features f) ++
  le_bytes 8 (f_tsc_frequency_hz f) ++ le_bytes 8 (f_boot_tsc f) ++ le_bytes 4 (f_max_cpuid_leaf f) ++
  le_bytes 4 (f_max_extended_cpuid_leaf f) ++ [f_core_count f] ++ drop 3 padding.

(** ** Decoding *)

(** Which bit of which register a feature is read from: (flag, in ecx, bit). *)
Definition feature_bits : list (Z * bool * Z) :=
  [(0, false, 9); (1, true, 21); (2, false, 4); (3, true, 24); (4, false, 13); (5, false, 16); (6, false, 25); (7, false, 26);
   (8, true, 0); (9, true, 19); (10, true, 20); (11, true, 28); (12, true, 25); (13, true, 30); (14, true, 31)].

Lemma add_feature_bit features word bit k i : 0 <= bit -> 0 <= k -> 0 <= i ->
  Z.testbit (add_feature features word bit (2 ^ k)) i = Z.testbit features i || (Z.eqb i k && Z.testbit word bit).
Proof.
  intros Hb Hk Hi. unfold add_feature. assert (E : Z.land word (Z.shiftl 1 bit) = if Z.testbit word bit then 2 ^ bit else 0).
  { rewrite Z.shiftl_1_l. apply Z.bits_inj'. intros n Hn. rewrite Z.land_spec, Z.pow2_bits_eqb by done.
    destruct (Z.eqb_spec bit n) as [<-|Hne]; destruct (Z.testbit word bit) eqn:Ew.
    - by rewrite Z.pow2_bits_true.
    - by rewrite Z.bits_0.
    - rewrite Z.pow2_bits_false by done. apply andb_false_r.
    - rewrite Z.bits_0. apply andb_false_r. }
  rewrite E. destruct (Z.testbit word bit) eqn:Ew.
  - rewrite (proj2 (Z.eqb_neq _ _)) by (pose proof (Z.pow_pos_nonneg 2 bit); lia). rewrite Z.lor_spec, Z.pow2_bits_eqb by done.
    by rewrite andb_true_r, (Z.eqb_sym k i).
  - by rewrite Z.eqb_refl, andb_false_r, orb_false_r.
Qed.

(** The features are those the registers report, and no others. *)
Lemma read_features_bits c d i : 0 <= i ->
  Z.testbit (read_features c d) i =
  existsb (fun '(k, in_ecx, bit) => Z.eqb i k && Z.testbit (if (in_ecx : bool) then c else d) bit) feature_bits.
Proof.
  intros Hi. unfold read_features, APIC, X2APIC, TSC, TSC_DEADLINE, PGE, PAT, SSE, SSE2, SSE3, SSE4_1, SSE4_2, AVX, AES, RDRAND, HYPERVISOR.
  rewrite !add_feature_bit by lia. rewrite Z.bits_0. unfold feature_bits. cbn [existsb]. rewrite orb_false_r, !orb_assoc. done.
Qed.

(** What the manuals call a field: [n] bits of a register from bit [lo]. *)
Definition field (w lo n : Z) : Z := (w / 2 ^ lo) mod 2 ^ n.

Lemma field_ones w lo n : 0 <= lo -> 0 <= n -> Z.land (Z.shiftr w lo) (Z.ones n) = field w lo n.
Proof. intros. by rewrite Z.land_ones, Z.shiftr_div_pow2 by done. Qed.

Lemma field_bounds w lo n : 0 <= n -> 0 <= field w lo n < 2 ^ n.
Proof. intros. apply Z.mod_pos_bound. by apply Z.pow_pos_nonneg. Qed.

Lemma lor_field hi lo : 0 <= lo < 2 ^ 4 -> Z.lor (Z.shiftl hi 4) lo = hi * 2 ^ 4 + lo.
Proof. intros. rewrite Z.shiftl_mul_pow2 by lia. by rewrite lor_low by lia. Qed.

Lemma vendor_word w : in_width 32 w -> (byte_at w) <$> [0; 8; 16; 24] = le_bytes 4 w.
Proof.
  intros Hw. unfold byte_at, wrap. cbn [fmap list_fmap le_bytes]. rewrite !Z.shiftr_div_pow2 by lia.
  rewrite !Z.div_div by lia. change (2 ^ 0) with 1. by rewrite Z.div_1_r.
Qed.

(** A vendor is recognised by the three registers that spell its name. *)
Lemma get_vendor_name l : in_width 32 (ebx l) -> in_width 32 (ecx l) -> in_width 32 (edx l) ->
  get_vendor l =
    if decide ((ebx l, edx l, ecx l) = (0x756e6547, 0x49656e69, 0x6c65746e)) then Intel
    else if decide ((ebx l, edx l, ecx l) = (0x68747541, 0x69746e65, 0x444d4163)) then AMD else Unknown.
Proof.
  intros Hb Hc Hd. unfold get_vendor. cbn [mbind list_bind]. rewrite !vendor_word by done.
  assert (Hinj : forall b d c, in_width 32 b -> in_width 32 d -> in_width 32 c ->
    le_bytes 4 (ebx l) ++ le_bytes 4 (edx l) ++ le_bytes 4 (ecx l) ++ [] = le_bytes 4 b ++ le_bytes 4 d ++ le_bytes 4 c ++ [] <->
    (ebx l, edx l, ecx l) = (b, d, c)).
  { intros b d c Hb' Hd' Hc'. split; [|by intros [= -> -> ->]]. intros E.
    assert (Hw : forall v w, in_width 32 v -> in_width 32 w -> le_bytes 4 v = le_bytes 4 w -> v = w).
    { intros v w Hv Hw' Ev. rewrite <- (le_word_bytes 4 v), <- (le_word_bytes 4 w) by done. by f_equal. }
    apply app_inj_1 in E as [E1 E]; [|done]. apply app_inj_1 in E as [E2 E]; [|done]. apply app_inj_1 in E as [E3 _]; [|done].
    by rewrite (Hw _ _ Hb Hb' E1), (Hw _ _ Hd Hd' E2), (Hw _ _ Hc Hc' E3). }
  change (ascii_bytes "GenuineIntel") with (le_bytes 4 0x756e6547 ++ le_bytes 4 0x49656e69 ++ le_bytes 4 0x6c65746e ++ []).
  change (ascii_bytes "AuthenticAMD") with (le_bytes 4 0x68747541 ++ le_bytes 4 0x69746e65 ++ le_bytes 4 0x444d4163 ++ []).
  assert (H1 := Hinj 0x756e6547 0x49656e69 0x6c65746e ltac:(by split) ltac:(by split) ltac:(by split)).
  assert (H2 := Hinj 0x68747541 0x69746e65 0x444d4163 ltac:(by split) ltac:(by split) ltac:(by split)).
  clear Hinj. repeat case_decide; tauto.
Qed.

(** The family and the model as the manuals compose them. *)
Definition manual_family (signature : Z) : Z :=
  let base := field signature 8 4 in if base =? 15 then base + field signature 20 8 else base.

Definition manual_model (signature : Z) : Z :=
  let base := field signature 8 4 in
  if (base =? 6) || (base =? 15) then 16 * field signature 16 4 + field signature 4 4 else field signature 4 4.

(** Decoding the two leaves of [cpuid]: the features are exactly those the registers report,
    family and model are composed as the manuals say, the vendor is the one whose name the
    registers spell, and a processor with cache lines of 256 bytes or more halts the kernel.
    The plain family, model and stepping are not of the processor: they are taken from the
    register of the feature bits. *)
Theorem cpu_info_decoded (leaf0 leaf1 : Leaf) : 1 <= eax leaf0 ->
  in_width 32 (ebx leaf0) -> in_width 32 (ecx leaf0) -> in_width 32 (edx leaf0) ->
  (field (ebx leaf1) 8 8 < 32 ->
    exists info, init_cpu_info leaf0 leaf1 = Ok info /\
      (forall i, 0 <= i -> Z.testbit (features info) i =
        existsb (fun '(k, in_ecx, bit) => Z.eqb i k && Z.testbit (if (in_ecx : bool) then ecx leaf1 else edx leaf1) bit) feature_bits) /\
      display_family info = manual_family (eax leaf1) /\ display_model info = manual_model (eax leaf1) /\
      cache_line_size info = 8 * field (ebx leaf1) 8 8 /\ apic_id info = field (ebx leaf1) 24 8 /\
      (vendor info = Intel <-> (ebx leaf0, edx leaf0, ecx leaf0) = (0x756e6547, 0x49656e69, 0x6c65746e)) /\
      (family info, model info, stepping info) = (field (edx leaf1) 8 4, field (edx leaf1) 4 4, field (edx leaf1) 0 4)) /\
  (32 <= field (ebx leaf1) 8 8 -> init_cpu_info leaf0 leaf1 = Panic).
Proof.
  intros Hmax Hb Hc Hd. unfold init_cpu_info. rewrite (proj2 (Z.ltb_ge _ _)) by done.
  change 0xFF with (Z.ones 8). change 0xF with (Z.ones 4). rewrite !field_ones by lia.
  replace (Z.land (edx leaf1) (Z.ones 4)) with (field (edx leaf1) 0 4)
    by (rewrite <- field_ones by lia; by rewrite Z.shiftr_0_r).
  pose proof (field_bounds (eax leaf1) 4 4 ltac:(lia)) as Hm. pose proof (field_bounds (eax leaf1) 16 4 ltac:(lia)) as Hx.
  split; intros Hl; unfold u8_mul; [rewrite (proj2 (Z.ltb_lt _ _)) by lia|by rewrite (proj2 (Z.ltb_ge _ _)) by lia].
  cbn [rbind]. eexists. split; [reflexivity|]. cbn [features display_family display_model cache_line_size apic_id vendor family model stepping].
  split_and!; [|done| |lia|done| |done].
  - intros i Hi. by apply read_features_bits.
  - unfold manual_model. change 0x6 with 6. change (Z.ones 4) with 15. destruct (_ || _).
    + rewrite lor_field by done. unfold wrap. rewrite Z.mod_small by lia. lia.
    + unfold wrap. rewrite Z.mod_small by lia. done.
  - rewrite get_vendor_name by done. case_decide; [done|]. by case_decide.
Qed.

(** An AMD processor of family 23: its plain family is read as 11. *)
Definition demo_leaf0 : Leaf := mkLeaf 16 0x68747541 0x444d4163 0x69746e65.
Definition demo_leaf1 : Leaf := mkLeaf 0x00870F10 0x00080800 0x7ED8320B 0x178BFBFF.

Lemma cpu_info_decoded_witness :
  exists info, init_cpu_info demo_leaf0 demo_leaf1 = Ok info /\ display_family info = 23 /\ family info = 11 /\
    Z.testbit (features info) 11 = true.
Proof.
  destruct (cpu_info_decoded demo_leaf0 demo_leaf1) as [H _]; [vm_compute; discriminate|vm_compute; split; [discriminate|done]..|].
  destruct H as (info & E & Hf & Hdf & _ & _ & _ & _ & Hfam); [done|]. exists info. split; [exact E|]. split; [exact Hdf|].
  split; [by injection Hfam|]. by rewrite Hf.
Defined.
