(* ===== verification/Syscalls.v ===== *)
(** * Syscalls: what programs may ask of the kernel, kernel/src/process/syscall.rs

    The system calls, over the compositor with the processes, memory and scheduler below
    it, and over the cached file system.  The kernel reads and writes the memory of the
    calling process in place, through its page tables; touching an address that is not
    mapped, or writing a read-only page, is a page fault in the kernel, whose handler halts
    the core: [Panic].  So does an unaligned reference, which a debug build checks.  The
    entry code in assembly is in Contexts.v; the calls that block are the turns of their
    loops. *)

From Stdlib Require Import ZArith Lia.
From stdpp Require Import base tactics list option numbers gmap.
From S2P Require Import Prelude CpuInfo FxHashMap FsTypes FileCache Sirius Tasks RunQueue Scheduler Wait FrameAlloc Regions UserMem ProcessMem AddressSpace CircularBuffer Elf ElfLoad Processes Events Surface Compositor.

Open Scope rust_scope.

Definition USER_MEM_MAX_ADDRESS : Z := 0x800000000000.
Definition INVALID_FD : Z := U64_MAX.
Definition FS_NAME_LEN : Z := 16.
Definition WINDOW_Z_INDEX : Z := 7.

Definition validate_user_ptr (ptr len : Z) : bool :=
  let end_ := saturating_add 64 ptr len in
  negb (ptr =? 0) && (end_ <=? USER_MEM_MAX_ADDRESS) && (ptr <=? end_).

(** The name field of [StatFlat] and [DirEntryFlat]: cut off or filled up with zeros. *)
Definition flat_name (name : list Z) : list Z :=
  take (Z.to_nat FS_NAME_LEN) (name ++ replicate (Z.to_nat FS_NAME_LEN) 0).

Definition flat_node (n : FileNode) : list Z * list Z :=
  let bytes := utf8 (node_name n) in
  (flat_name bytes ++ [Z.min (zlen bytes) FS_NAME_LEN; if decide (file_type n = Directory) then 1 else 0],
   le_bytes 8 (node_size n) ++ le_bytes 4 (created_time n) ++ le_bytes 4 (modified_time n)).

(** The size of both records; the padding before the size field is not written. *)
Definition FLAT_NODE_SIZE : Z := 40.
Definition FLAT_SIZE_OFFSET : Z := 24.

Definition importance_of (arg : Z) : option CacheImportance := if arg <=? 6 then from_u8 arg else None.

(** The registers of a call; the numbers are checked before. *)
Record SyscallFrame : Type := mkArgs {
  arg1 : Z;
  arg2 : Z;
  arg3 : Z;
  arg4 : Z;
}.

Inductive SyscallNumber : Type :=
  | CreateProcess | TerminateProcess | Write | Allocate
  | CreateWindow | DestroyWindow | MapWindowBuffer | PresentWindow | GetWindowSize | FocusWindow | GetWindowInfo
  | OpenFile | CloseFile | ReadFile | WriteFile | StatFile | ListDir | CreateFile | CreateDir | Delete
  | PinFile | UnpinFile | ReserveCache | EvictDirectory | GetCacheStats | FlushFileCache
  | CreateCircularBuffer | GetCpuInfo | FutexWake | GetPID | Yield | Exit.

(** What a call comes back with, when it does. *)
Inductive SyscallResult : Type :=
  | Returned (v : Z)
  | Exited.

Record Sys (T D : Type) : Type := mkSys {
  desk : Desk T;
  fs : CachedDriver D;
  futex_waiters : WaiterList;
  console : list (Z * list Z);
}.
Arguments mkSys {T D}. Arguments desk {T D}. Arguments fs {T D}. Arguments futex_waiters {T D}. Arguments console {T D}.

(** What the calls use of the machine and of other parts of the kernel: the clock, the
    stack tops of task slots, the selectors, the boot values, the program image built into
    the kernel, the frames behind the pixel buffers of a window, kernel memory, and what was read of the
    processors and their clock at boot. *)
Record Platform : Type := mkPlatform {
  timestamp_us : Z -> Z;
  task_stack_top : Z -> Z;
  user_code_selector : Z;
  user_data_selector : Z;
  core_total : Z;
  kernel_table : Z;
  shared_regions : list SharedRegion;
  odys_elf : option ElfLoadInfo;
  odys_name : list Z;
  back_frames : Window -> list Z;
  front_frames : Window -> list Z;
  kernel_byte : Z -> option Z;
  pixel_memory : bool;
  cpu_infos : list CpuInfo;
  tsc_frequency_hz : Z;
  boot_tsc : Z;
  flat_padding : list Z;
}.

Section syscalls.
Context (USABLE : Z) {VA : VirtAddrApi} {PF : PageFlags} {T : Type} {PM : PageMapper USABLE T} {TW : TableWrites T}.
Context {D : Type} `{FilesystemDriver D}.
Variable P : Platform.

Abbreviation SysM := (stM (Sys T D) Empty_set).

#[local] Instance the_driver : FilesystemDriver (CachedDriver D) := cached_driver (timestamp_us P).

(** *** Calls on the parts *)

Definition on_desk {A} (c : stM (Desk T) Empty_set A) : SysM A := fun s =>
  let '(r, d) := c (desk s) in (r, mkSys d (fs s) (futex_waiters s) (console s)).

Definition set_kern (k : Kernel T) (d : Desk T) : Desk T :=
  mkDesk (comp d) k (pages d) (input_buffer d) (focused_window_id d) (input_waiters d).

Definition on_kernel {A} (c : stM (Kernel T) ProcessError A) : SysM (A + ProcessError) := fun s =>
  let '(r, k) := c (kern (desk s)) in
  (match r with
   | Ok a => Ok (inl a)
   | Err e => Ok (inr e)
   | Panic => Panic
   | OutOfFuel => OutOfFuel
   end, mkSys (set_kern k (desk s)) (fs s) (futex_waiters s) (console s)).

Definition on_cores {A} (c : SM A) : SysM A := fun s =>
  let k := kern (desk s) in
  let '(r, sc) := c (sched k) in
  (r, mkSys (set_kern (mkKernel (manager k) (machine k) sc (stacks k)) (desk s)) (fs s) (futex_waiters s) (console s)).

Definition on_files {A} (c : stM (CachedDriver D) FileSystemError A) : SysM (A + FileSystemError) := fun s =>
  let '(r, f) := c (fs s) in
  (match r with
   | Ok a => Ok (inl a)
   | Err e => Ok (inr e)
   | Panic => Panic
   | OutOfFuel => OutOfFuel
   end, mkSys (desk s) f (futex_waiters s) (console s)).

Definition reads {A} (f : Sys T D -> A) : SysM A := fun s => (Ok (f s), s).

(** [scheduler::get_current_process_for_core] *)
Definition current_pid (core_id : Z) : SysM Z := on_cores (get_current_process_for_core core_id).

(** [get_process] on any error; looking up [INVALID_PID] panics. *)
Definition the_process (pid : Z) : SysM (option Process) := fun s =>
  if pid =? INVALID_PID then (Panic, s) else (Ok (find_process pid (processes (manager (kern (desk s))))), s).

Definition change_files (pid : Z) (l : list FileDescriptor) : SysM unit :=
  let! _ := on_kernel (change_process pid (set_files l)) in sret tt.

(** *** The memory of the calling process *)

Definition user_mapping (s : Sys T D) (pid a : Z) : option (Z * Z) :=
  match find_process pid (processes (manager (kern (desk s)))) with
  | Some p => mapping USABLE (tables (machine (kern (desk s)))) (top_page_table_phys (p_layout p)) (page_of a)
  | None => None
  end.

(** A byte at any address: of the process below [USER_MEM_MAX_ADDRESS], of the kernel above. *)
Definition load_byte (pid a : Z) : SysM Z := fun s =>
  if a <? USER_MEM_MAX_ADDRESS then
    match user_mapping s pid a with
    | Some (frame, _) => (Ok (memory (machine (kern (desk s))) (frame + a mod PAGE_SIZE)), s)
    | None => (Panic, s)
    end
  else match kernel_byte P a with Some v => (Ok v, s) | None => (Panic, s) end.

Fixpoint load_bytes (pid a : Z) (n : nat) : SysM (list Z) :=
  match n with
  | O => sret []
  | S n =>
      let! v := load_byte pid a in
      let! l := load_bytes pid (a + 1) n in
      sret (v :: l)
  end.

Definition store_byte (pid a v : Z) : SysM unit := fun s =>
  match user_mapping s pid a with
  | Some (frame, flags) =>
      if has_flags flags WRITABLE then
        let k := kern (desk s) in
        let m := machine k in
        let at_ := frame + a mod PAGE_SIZE in
        let m := mkMachine (tables m) (frames m) (fun b => if b =? at_ then v else memory m b) in
        (Ok tt, mkSys (set_kern (mkKernel (manager k) m (sched k) (stacks k)) (desk s)) (fs s) (futex_waiters s) (console s))
      else (Panic, s)
  | None => (Panic, s)
  end.

Fixpoint store_bytes (pid a : Z) (bytes : list Z) : SysM unit :=
  match bytes with
  | [] => sret tt
  | v :: bytes => store_byte pid a v ;;; store_bytes pid (a + 1) bytes
  end.

(** [&mut *(ptr as *mut _)] of a record of eight-byte alignment. *)
Definition aligned (ptr : Z) : SysM unit := sassert (ptr mod 8 =? 0).

Definition read_user_string (pid ptr len : Z) : SysM (option str) :=
  if negb (validate_user_ptr ptr len) then sret None else
  let! bytes := load_bytes pid ptr (Z.to_nat len) in
  sret (from_utf8 bytes).

(** *** Processes *)

(** [task::exit_current], up to the switch away from the dead task. *)
Definition exit_current (core_id exit_code : Z) : SysM unit :=
  let! slot_index := on_cores (get_current_slot_for_core core_id) in
  let! pid := current_pid core_id in
  sassert (negb (slot_index =? INVALID_SLOT)) ;;;
  on_desk (destroy_windows_of_process USABLE pid) ;;;
  let! r := on_kernel (terminate_process USABLE core_id pid exit_code false) in
  (match r with inl _ => sret tt | inr _ => spanic end) ;;;
  on_cores (exit_mark_dead core_id).

(** [core::slice::from_raw_parts] of bytes. *)
Definition raw_parts (pid ptr len : Z) : SysM (list Z) :=
  sassert (negb (ptr =? 0) && (len <? 2 ^ 63)) ;;;
  load_bytes pid ptr (Z.to_nat len).

(** Both strings are only printed; the program and its name are built in. *)
Definition sys_create_process (core_id : Z) (f : SyscallFrame) : SysM Z :=
  let! pid := current_pid core_id in
  raw_parts pid (arg1 f) (arg2 f) ;;;
  raw_parts pid (arg3 f) (arg4 f) ;;;
  match odys_elf P with
  | None => sret U64_MAX
  | Some info =>
      let! r := on_kernel (create_process_from_elf USABLE (task_stack_top P) (user_code_selector P) (user_data_selector P)
        core_id (core_total P) (kernel_table P) (shared_regions P) ARCHE_PID info (odys_name P) 5) in
      match r with
      | inl _ => sret 0
      | inr _ => sret U64_MAX
      end
  end.

Definition sys_terminate_process (core_id : Z) (f : SyscallFrame) : SysM SyscallResult :=
  let target_pid := arg1 f in
  let exit_code := as_i32 (arg2 f) in
  let! caller_pid := current_pid core_id in
  if (target_pid =? INVALID_PID) || (target_pid =? ARCHE_PID) then sret (Returned U64_MAX) else
  let! target := the_process target_pid in
  match target with
  | None => sret (Returned U64_MAX)
  | Some p =>
      let allowed := (target_pid =? caller_pid) || (p_parent p =? caller_pid) || (caller_pid =? ARCHE_PID) in
      if negb allowed then sret (Returned U64_MAX) else
      if target_pid =? caller_pid then exit_current core_id exit_code ;;; sret Exited else
      let! asked := on_cores (request_kill core_id target_pid exit_code) in
      sret (Returned (if (asked : bool) then 0 else U64_MAX))
  end.

Definition sys_write (core_id : Z) (f : SyscallFrame) : SysM Z :=
  let! pid := current_pid core_id in
  let! bytes := raw_parts pid (arg2 f) (arg3 f) in
  (fun s => (Ok tt, if utf8_valid bytes then mkSys (desk s) (fs s) (futex_waiters s) (console s ++ [(arg1 f, bytes)]) else s)) ;;;
  sret (arg3 f).

Definition sys_allocate (core_id : Z) (f : SyscallFrame) : SysM Z :=
  let! pid := current_pid core_id in
  let! found := the_process pid in
  match found with
  | None => sret U64_MAX
  | Some p => fun s =>
      let k := kern (desk s) in
      let '(r, (l, m)) := allocate_heap USABLE (arg1 f) (p_layout p, machine k) in
      let k := mkKernel (mkManager (update_process pid (set_layout l) (processes (manager k))) (new_pid (manager k))) m (sched k) (stacks k) in
      (match r with
       | Ok old_ptr => Ok old_ptr
       | Err _ => Ok U64_MAX
       | Panic => Panic
       | OutOfFuel => OutOfFuel
       end, mkSys (set_kern k (desk s)) (fs s) (futex_waiters s) (console s))
  end.

(** *** Windows *)

Definition sys_create_window (core_id : Z) (f : SyscallFrame) : SysM Z :=
  let width := wrap 32 (arg1 f) in
  let height := wrap 32 (arg2 f) in
  let! pid := current_pid core_id in
  let! c := reads (fun s => comp (desk s)) in
  if (width =? 0) || (height =? 0) || (framebuffer_width c <? width) || (framebuffer_height c <? height)
  then sret U64_MAX else
  let! window_id := on_desk (create_window USABLE (pixel_memory P) width height (as_i32 (arg3 f)) (as_i32 (arg4 f)) pid) in
  on_desk (set_z_index window_id WINDOW_Z_INDEX) ;;;
  sret window_id.

Definition sys_destroy_window (f : SyscallFrame) : SysM Z :=
  on_desk (destroy_window USABLE (wrap 32 (arg1 f))) ;;; sret 0.

Definition sys_focus_window (f : SyscallFrame) : SysM Z :=
  on_desk (focus_window (wrap 32 (arg1 f))) ;;; sret 0.

Definition sys_present_window (f : SyscallFrame) : SysM Z :=
  let id := wrap 32 (arg1 f) in
  on_desk (fun d =>
    (Ok tt, match get_window (windows (comp d)) id with
     | Some w => if is_visible w then
         mkDesk (set_windows (<[Z.to_nat id := set_buffer (present (buffer w)) w]> (windows (comp d))) (comp d))
           (kern d) (pages d) (input_buffer d) (focused_window_id d) (input_waiters d) else d
     | None => d
     end)) ;;; sret 0.

Definition sys_get_window_size (f : SyscallFrame) : SysM Z :=
  let! l := reads (fun s => windows (comp (desk s))) in
  sret (match get_window l (wrap 32 (arg1 f)) with
    | Some w => if is_visible w then Z.lor (Z.shiftl (wb_width (buffer w)) 32) (wb_height (buffer w)) else U64_MAX
    | None => U64_MAX
    end).

(** The bytes of [WindowInfo] are written field by field. *)
Definition sys_get_window_info (core_id : Z) (f : SyscallFrame) : SysM Z :=
  let window_id := wrap 32 (arg1 f) in
  if negb (validate_user_ptr (arg2 f) 24) then sret INVALID_FD else
  let! c := reads (fun s => comp (desk s)) in
  match get_window (windows c) window_id with
  | None => sret U64_MAX
  | Some w =>
      aligned (arg2 f) ;;;
      let! pid := current_pid core_id in
      let! vaddr := slift (match event_buffer w with Some _ => event_buffer_user_vaddr window_id | None => Ok 0 end) in
      let! offset := slift (max_window_buffer_bytes c) in
      store_bytes pid (arg2 f)
        (le_bytes 4 (wb_width (buffer w)) ++ le_bytes 4 (wb_height (buffer w)) ++ le_bytes 8 vaddr ++ le_bytes 8 offset) ;;;
      sret 0
  end.

(** The result of a mapping call on the process. *)
Definition map_into (pid virt : Z) (phys : list Z) : SysM (option bool) :=
  let! r := on_desk (on_process pid (map_frames USABLE virt phys EVENT_PAGE_FLAGS Borrowed)) in
  sret (match r with
    | Some (inl _) => Some true
    | Some (inr _) => Some false
    | None => None
    end).

Definition sys_map_window_buffer (core_id : Z) (f : SyscallFrame) : SysM Z :=
  let window_id := wrap 32 (arg1 f) in
  let! pid := current_pid core_id in
  let! c := reads (fun s => comp (desk s)) in
  let! max_size := slift (max_window_buffer_bytes c) in
  let! user_base := slift (window_buffer_user_base c window_id) in
  match get_window (windows c) window_id with
  | None => sret U64_MAX
  | Some w =>
      if negb (is_visible w && (owner_pid w =? pid)) then sret U64_MAX else
      let! pixels := slift (pixel_count (buffer w)) in
      if max_size <? pixels * FRAMEBUFFER_BYTES_PER_PIXEL then sret U64_MAX else
      let! pages := slift (page_count (buffer w)) in
      let! back := slift (va_new user_base) in
      let! front := slift (let? a := uadd user_base max_size in va_new a) in
      let buffer_bytes := pages * PAGE_SIZE in
      let! found := the_process pid in
      match found with
      | None => sret U64_MAX
      | Some p =>
          let! t1 := slift (is_range_tracked back buffer_bytes (regions (p_layout p))) in
          let! tracked := slift (if (t1 : bool) then is_range_tracked front buffer_bytes (regions (p_layout p)) else Ok false) in
          if (tracked : bool) then sret user_base else
          let! r := map_into pid back (back_frames P w) in
          match r with
          | Some true =>
              let! r := map_into pid front (front_frames P w) in
              match r with
              | Some true => sret user_base
              | _ =>
                  let! _ := on_desk (on_process pid (unmap_region USABLE back buffer_bytes)) in
                  sret U64_MAX
              end
          | _ => sret U64_MAX
          end
      end
  end.

(** *** Files *)

Definition sys_open_file (core_id : Z) (f : SyscallFrame) : SysM Z :=
  let! pid := current_pid core_id in
  let! path := read_user_string pid (arg1 f) (arg2 f) in
  match path with
  | None => sret INVALID_FD
  | Some path =>
      let! r := on_files (resolve_path path) in
      match r with
      | inr _ => sret INVALID_FD
      | inl node =>
          let! found := the_process pid in
          match found with
          | None => sret INVALID_FD
          | Some p =>
              change_files pid (p_files p ++ [mkFd (node_id node) (wrap 8 (arg3 f))]) ;;;
              sret (zlen (p_files p))
          end
      end
  end.

Definition sys_close_file (core_id : Z) (f : SyscallFrame) : SysM Z :=
  let fd := arg1 f in
  let! pid := current_pid core_id in
  let! found := the_process pid in
  match found with
  | None => sret INVALID_FD
  | Some p =>
      if zlen (p_files p) <=? fd then sret INVALID_FD else
      match last (p_files p) with
      | None => spanic
      | Some last_fd => change_files pid (removelast (<[Z.to_nat fd := last_fd]> (p_files p))) ;;; sret 0
      end
  end.

(** The descriptor of an open file that allows [needed]. *)
Definition the_file (pid fd needed : Z) : SysM (option Z) :=
  let! found := the_process pid in
  sret (match found with
    | None => None
    | Some p =>
        if zlen (p_files p) <=? fd then None else
        match p_files p !! Z.to_nat fd with
        | None => None
        | Some d => if Z.land (fd_flags d) needed =? 0 then None else Some (fd_node d)
        end
    end).

(** The driver fills the front of the buffer and says how much.  The driver is the cache, which
    copies to the buffer last, when nothing can fail any more: a refusal leaves the buffer alone. *)
Definition sys_read_file (core_id : Z) (f : SyscallFrame) : SysM Z :=
  if negb (validate_user_ptr (arg3 f) (arg4 f)) then sret INVALID_FD else
  let! pid := current_pid core_id in
  let! node := the_file pid (arg1 f) FD_FLAG_READ in
  match node with
  | None => sret INVALID_FD
  | Some node =>
      let! r := on_files (FsTypes.read_file node (arg2 f) (zeros (arg4 f))) in
      match r with
      | inl (n, bytes) => store_bytes pid (arg3 f) (take (Z.to_nat n) bytes) ;;; sret n
      | inr _ => sret INVALID_FD
      end
  end.

Definition sys_write_file (core_id : Z) (f : SyscallFrame) : SysM Z :=
  if negb (validate_user_ptr (arg3 f) (arg4 f)) then sret INVALID_FD else
  let! pid := current_pid core_id in
  let! node := the_file pid (arg1 f) FD_FLAG_WRITE in
  match node with
  | None => sret INVALID_FD
  | Some node =>
      let! bytes := load_bytes pid (arg3 f) (Z.to_nat (arg4 f)) in
      let! r := on_files (FsTypes.write_file node (arg2 f) bytes) in
      match r with
      | inl n => sret n
      | inr _ => sret INVALID_FD
      end
  end.

(** A flat record of a node; its padding keeps what was there. *)
Definition store_node (pid ptr : Z) (n : FileNode) : SysM unit :=
  aligned ptr ;;;
  store_bytes pid ptr (flat_node n).1 ;;;
  store_bytes pid (ptr + FLAT_SIZE_OFFSET) (flat_node n).2.

Definition sys_stat_file (core_id : Z) (f : SyscallFrame) : SysM Z :=
  let! pid := current_pid core_id in
  let! path := read_user_string pid (arg1 f) (arg2 f) in
  match path with
  | None => sret INVALID_FD
  | Some path =>
      if negb (validate_user_ptr (arg3 f) FLAT_NODE_SIZE) then sret INVALID_FD else
      let! r := on_files (resolve_path path) in
      match r with
      | inr _ => sret INVALID_FD
      | inl node => store_node pid (arg3 f) node ;;; sret 0
      end
  end.

Fixpoint store_nodes (pid ptr : Z) (l : list FileNode) : SysM unit :=
  match l with
  | [] => sret tt
  | n :: l => store_node pid ptr n ;;; store_nodes pid (ptr + FLAT_NODE_SIZE) l
  end.

Definition sys_list_dir (core_id : Z) (f : SyscallFrame) : SysM Z :=
  let! pid := current_pid core_id in
  let! path := read_user_string pid (arg1 f) (arg2 f) in
  match path with
  | None => sret INVALID_FD
  | Some path =>
      if negb (validate_user_ptr (arg3 f) (arg4 f)) then sret INVALID_FD else
      let! r := on_files (sirius_list_directory path) in
      match r with
      | inr _ => sret INVALID_FD
      | inl entries =>
          let write_count := Z.min (zlen entries) (arg4 f / FLAT_NODE_SIZE) in
          store_nodes pid (arg3 f) (take (Z.to_nat write_count) entries) ;;;
          sret write_count
      end
  end.

(** A call on the file system by a path, with the value for a failure and for success. *)
Definition by_path {A} (core_id : Z) (f : SyscallFrame) (call : str -> stM (CachedDriver D) FileSystemError A)
    (failed : Z) (value : A -> Z) : SysM Z :=
  let! pid := current_pid core_id in
  let! path := read_user_string pid (arg1 f) (arg2 f) in
  match path with
  | None => sret failed
  | Some path =>
      let! r := on_files (call path) in
      sret (match r with inl a => value a | inr _ => failed end)
  end.

Definition sys_create_file core_id f := by_path core_id f sirius_create_file INVALID_FD (fun _ => 0).
Definition sys_create_dir core_id f := by_path core_id f sirius_create_directory INVALID_FD (fun _ => 0).
Definition sys_delete core_id f := by_path core_id f sirius_delete INVALID_FD (fun _ => 0).
Definition sys_pin_file core_id f := by_path core_id f pin_path U64_MAX (fun _ => 0).
Definition sys_unpin_file core_id f := by_path core_id f unpin_path U64_MAX (fun _ => 0).
Definition sys_evict_directory core_id f := by_path core_id f evict_path U64_MAX id.

(** The importance is looked at after the path. *)
Definition sys_reserve_cache (core_id : Z) (f : SyscallFrame) : SysM Z :=
  let! pid := current_pid core_id in
  let! path := read_user_string pid (arg1 f) (arg2 f) in
  match path, importance_of (arg3 f) with
  | Some path, Some importance =>
      let! r := on_files (reserve_path path importance) in
      sret (match r with inl _ => 0 | inr _ => U64_MAX end)
  | _, _ => sret U64_MAX
  end.

Definition sys_get_cache_stats (core_id : Z) (f : SyscallFrame) : SysM Z :=
  if negb (validate_user_ptr (arg1 f) 32) then sret U64_MAX else
  let! pid := current_pid core_id in
  let! st := reads (fun s => stats (fs s)) in
  aligned (arg1 f) ;;;
  store_bytes pid (arg1 f) (le_bytes 8 (total_files st) ++ le_bytes 8 (total_bytes st) ++
    le_bytes 8 (max_bytes st) ++ le_bytes 8 (dirty_files st)) ;;;
  sret 0.

Definition sys_flush_file_cache (core_id : Z) : SysM Z :=
  let! pid := current_pid core_id in
  let! found := the_process pid in
  match found with
  | None => sret U64_MAX
  | Some p =>
      let! r := on_files (flush_nodes (map fd_node (p_files p))) in
      sret (match r with inl _ => 0 | inr _ => U64_MAX end)
  end.

(** *** Memory shared twice, and the scheduler *)

(** [from_bits_truncate] keeps the flags there are, [flag_bits]; [write_unaligned] needs no alignment. *)
Definition sys_create_circular_buffer (flag_bits core_id : Z) (f : SyscallFrame) : SysM Z :=
  if negb (validate_user_ptr (arg3 f) 24) then sret U64_MAX else
  let! pid := current_pid core_id in
  let! r := on_desk (on_process pid (map_for_user USABLE (arg1 f) (Z.land (arg2 f) flag_bits))) in
  match r with
  | Some (inl (Some info)) =>
      store_bytes pid (arg3 f) (le_bytes 8 (virtual_base info) ++ le_bytes 8 (view_size info) ++ le_bytes 8 (total_virtual_size info)) ;;;
      sret 0
  | _ => sret U64_MAX
  end.

Definition sys_futex_wake (core_id : Z) : SysM Z := fun s =>
  let k := kern (desk s) in
  let '(r, (w, sc)) := wake_all core_id (futex_waiters s, sched k) in
  (match r with
   | Ok _ => Ok 0
   | Err e => match (e : Empty_set) with end
   | Panic => Panic
   | OutOfFuel => OutOfFuel
   end, mkSys (set_kern (mkKernel (manager k) (machine k) sc (stacks k)) (desk s)) (fs s) w (console s)).

(** The length is checked, the whole structure is written. *)
Definition sys_get_cpu_info (core_id : Z) (f : SyscallFrame) : SysM Z :=
  if negb (validate_user_ptr (arg1 f) (arg2 f)) then sret 2 else
  let! cpu_info := slift (get_cpu_info_for_core core_id (cpu_infos P)) in
  let flat := from_kernel_info cpu_info (tsc_frequency_hz P) (boot_tsc P) (core_total P) in
  sassert (arg1 f mod 16 =? 0) ;;;
  let! pid := current_pid core_id in
  store_bytes pid (arg1 f) (flat_bytes (flat_padding P) flat) ;;;
  sret 0.

Definition sys_yield (core_id : Z) : SysM Z :=
  on_cores (core_yield_executing_tasks core_id) ;;; sret 0.

(** One turn of the loops of the calls that wait: true when the loop is left.  The condition
    is asked twice in a turn, and other cores run in between: the second answer is [later]. *)
Definition on_waiters {A} (get : Sys T D -> WaiterList) (put : WaiterList -> Sys T D -> Sys T D) (c : stM (WaiterList * Sched) Empty_set A)
    : SysM A := fun s =>
  let k := kern (desk s) in
  let '(r, (w, sc)) := c (get s, sched k) in
  (r, put w (mkSys (set_kern (mkKernel (manager k) (machine k) sc (stacks k)) (desk s)) (fs s) (futex_waiters s) (console s))).

Definition put_futex (w : WaiterList) (s : Sys T D) : Sys T D := mkSys (desk s) (fs s) w (console s).

Definition put_input (w : WaiterList) (s : Sys T D) : Sys T D :=
  let d := desk s in
  mkSys (mkDesk (comp d) (kern d) (pages d) (input_buffer d) (focused_window_id d) w) (fs s) (futex_waiters s) (console s).

Definition futex_wait_turn (core_id : Z) (later : bool) (f : SyscallFrame) : SysM (option bool) :=
  if negb (validate_user_ptr (arg1 f) 4) then sret None else
  let! pid := current_pid core_id in
  sassert (arg1 f mod 4 =? 0) ;;;
  let! word := load_bytes pid (arg1 f) 4 in
  let! left_ := on_waiters futex_waiters put_futex (wait_turn core_id core_id (negb (le_word word =? wrap 32 (arg2 f))) later) in
  sret (Some left_).

Definition wait_for_input_turn (core_id : Z) (later : bool) : SysM bool :=
  let! pid := current_pid core_id in
  let! pending := on_desk (process_has_pending_input pid) in
  on_waiters (fun s => input_waiters (desk s)) put_input (wait_turn core_id core_id pending later).

Definition sleep_ms_turn (core_id wake_time_us now_us : Z) : SysM bool := on_cores (sleep_turn core_id wake_time_us now_us).

(** The result is only printed. *)
Definition flush_all_file_caches : SysM unit :=
  let! _ := on_files flush_all in sret tt.

(** [dispatch_syscall], of a number that is one of the enumeration. *)
Definition dispatch_syscall (flag_bits core_id : Z) (n : SyscallNumber) (f : SyscallFrame) : SysM SyscallResult :=
  let returns (c : SysM Z) : SysM SyscallResult := let! v := c in sret (Returned v) in
  match n with
  | CreateProcess => returns (sys_create_process core_id f)
  | TerminateProcess => sys_terminate_process core_id f
  | Write => returns (sys_write core_id f)
  | Allocate => returns (sys_allocate core_id f)
  | CreateWindow => returns (sys_create_window core_id f)
  | DestroyWindow => returns (sys_destroy_window f)
  | MapWindowBuffer => returns (sys_map_window_buffer core_id f)
  | PresentWindow => returns (sys_present_window f)
  | GetWindowSize => returns (sys_get_window_size f)
  | FocusWindow => returns (sys_focus_window f)
  | GetWindowInfo => returns (sys_get_window_info core_id f)
  | OpenFile => returns (sys_open_file core_id f)
  | CloseFile => returns (sys_close_file core_id f)
  | ReadFile => returns (sys_read_file core_id f)
  | WriteFile => returns (sys_write_file core_id f)
  | StatFile => returns (sys_stat_file core_id f)
  | ListDir => returns (sys_list_dir core_id f)
  | CreateFile => returns (sys_create_file core_id f)
  | CreateDir => returns (sys_create_dir core_id f)
  | Delete => returns (sys_delete core_id f)
  | PinFile => returns (sys_pin_file core_id f)
  | UnpinFile => returns (sys_unpin_file core_id f)
  | ReserveCache => returns (sys_reserve_cache core_id f)
  | EvictDirectory => returns (sys_evict_directory core_id f)
  | GetCacheStats => returns (sys_get_cache_stats core_id f)
  | FlushFileCache => returns (sys_flush_file_cache core_id)
  | CreateCircularBuffer => returns (sys_create_circular_buffer flag_bits core_id f)
  | GetCpuInfo => returns (sys_get_cpu_info core_id f)
  | FutexWake => returns (sys_futex_wake core_id)
  | GetPID => returns (current_pid core_id)
  | Yield => returns (sys_yield core_id)
  | Exit => exit_current core_id (as_i32 (arg1 f)) ;;; sret Exited
  end.

End syscalls.
