(* ===== verification/SyscallsSpec.v ===== *)
(** * SyscallsSpec: what the system calls keep from each other

    Which memory a call may write, what a descriptor refers to after opening and closing,
    that a file gives back what was written through it, who may end whom, and what an
    address that is not checked, or not mapped, leads to. *)

From Stdlib Require Import ZArith Lia.
From stdpp Require Import base tactics list option numbers fin_maps gmap.
From S2P Require Import Prelude CpuInfo FxHashMap FsTypes FileCache FileCacheOk FileCacheIo Sirius Tasks RunQueue Scheduler Wait FrameAlloc Regions UserMem ProcessMem AddressSpace CircularBuffer Elf ElfLoad Processes ProcessesSpec Events Surface Compositor Syscalls.

Open Scope rust_scope.

(** ** Pointers *)

(** A pointer passes exactly when the whole range is below the end of user space. *)
Lemma validate_range ptr len : in_width 64 ptr -> in_width 64 len ->
  validate_user_ptr ptr len = true <-> 0 < ptr /\ ptr + len <= USER_MEM_MAX_ADDRESS.
Proof.
  unfold in_width, validate_user_ptr, saturating_add. intros Hp Hl.
  rewrite !andb_true_iff, negb_true_iff, Z.eqb_neq, !Z.leb_le. unfold USER_MEM_MAX_ADDRESS in *. lia.
Qed.

(** ** The buffer a read fills *)

Lemma length_splice_at {E} (buf new : list Z) off out : splice_at (E:=E) buf off new = Ok out -> zlen out = zlen buf.
Proof.
  unfold splice_at. destruct (Z.leb_spec 0 off), (Z.leb_spec (off + zlen new) (zlen buf)); cbn; try done.
  intros [= <-]. rewrite length_splice; lia.
Qed.

Section reads.
Context {D : Type} `{CacheFilesystemDriver D}.

Lemma copy_out_length src off n (out : list Z) c r out' c' : copy_out (D:=D) src off n out c = (Ok (r, out'), c') ->
  r = n /\ zlen out' = zlen out.
Proof.
  unfold copy_out. intros E. destruct (sbind_inv_ok _ _ _ _ _ E) as (bytes & c1 & E1 & E2).
  destruct (sbind_inv_ok _ _ _ _ _ E2) as (o & c2 & E3 & E4). injection E3 as E3 _. injection E4 as <- <- _.
  split; [done|]. by eapply length_splice_at.
Qed.

Lemma read_range_length id offset (out : list Z) c n out' c' : read_file_range id offset out c = (Ok (n, out'), c') ->
  n <= zlen out /\ zlen out' = zlen out.
Proof.
  unfold read_file_range. intros E. destruct (sbind_inv_ok _ _ _ _ _ E) as (u & c1 & _ & E1). clear E.
  unfold sbind at 1, get_st at 1 in E1.
  destruct (mget (files c1) id) as [f|].
  - destruct (sbind_inv_ok _ _ _ _ _ E1) as (u2 & c2 & _ & E2). destruct (_ <=? _); [injection E2 as <- <- _; lia|].
    apply copy_out_length in E2 as [-> ->]. lia.
  - destruct (sbind_inv_ok _ _ _ _ _ E1) as (size & c2 & _ & E2). destruct (size =? 0); [injection E2 as <- <- _; lia|].
    destruct (sbind_inv_ok _ _ _ _ _ E2) as (room & c3 & _ & E3). destruct room; cbn [negb] in E3; [|done].
    destruct (sbind_inv_ok _ _ _ _ _ E3) as ([off|] & c4 & _ & E4); clear E1 E2 E3.
    + destruct (sbind_inv_ok _ _ _ _ _ E4) as (rd & c5 & _ & E5). destruct (sbind_inv_ok _ _ _ _ _ E5) as (nd & c6 & _ & E6).
      unfold sbind at 1, get_st at 1 in E6. destruct (sbind_inv_ok _ _ _ _ _ E6) as (ns & c7 & _ & E7).
      destruct (sbind_inv_ok _ _ _ _ _ E7) as (u3 & c8 & _ & E8). destruct (sbind_inv_ok _ _ _ _ _ E8) as (u4 & c9 & _ & E9).
      destruct (sbind_inv_ok _ _ _ _ _ E9) as (u5 & c10 & _ & E10). destruct (_ <=? _); [injection E10 as <- <- _; lia|].
      unfold sbind, get_st in E10. apply copy_out_length in E10 as [-> ->]. lia.
    + destruct (sbind_inv_ok _ _ _ _ _ E4) as ([rd tmp] & c5 & _ & E5). destruct (_ <? _).
      * apply copy_out_length in E5 as [-> ->]. lia.
      * injection E5 as <- <- _. lia.
Qed.

End reads.

Section spec.
Context (USABLE : Z) {VA : VirtAddrApi} {PF : PageFlags} {T : Type} {PM : PageMapper USABLE T} {TW : TableWrites T}.
Context {D : Type} `{FilesystemDriver D}.
Variable P : Platform.

Abbreviation SysM := (stM (Sys T D) Empty_set).
Abbreviation Sys := (Syscalls.Sys T D).

Definition mem (s : Sys) : Z -> Z := memory (machine (kern (desk s))).

(** The state with other memory and another state of the file system. *)
Definition with_memory (m : Z -> Z) (f : CachedDriver D) (s : Sys) : Sys :=
  let k := kern (desk s) in
  mkSys (set_kern (mkKernel (manager k) (mkMachine (tables (machine k)) (frames (machine k)) m) (sched k) (stacks k)) (desk s))
    f (futex_waiters s) (console s).

(** The byte of memory behind a writable address of the process. *)
Definition writable_at (s : Sys) (pid a b : Z) : Prop :=
  exists frame flags, user_mapping USABLE s pid a = Some (frame, flags) /\ has_flags flags WRITABLE = true /\ b = frame + a mod PAGE_SIZE.

(** Nothing but the file system and the bytes behind a range of the process has changed. *)
Definition confined (pid start len : Z) (s s' : Sys) : Prop :=
  exists m f, s' = with_memory m f s /\
    forall b, m b <> mem s b -> exists a, start <= a < start + len /\ writable_at s pid a b.

Lemma with_memory_same s : with_memory (mem s) (fs s) s = s.
Proof. destruct s as [[c [pm [] ? ?] p i f w] ? ? ?]. done. Qed.

Lemma with_memory_twice m f m' f' s : with_memory m f (with_memory m' f' s) = with_memory m f s.
Proof. done. Qed.

Lemma mapping_with_memory m f s pid a : user_mapping USABLE (with_memory m f s) pid a = user_mapping USABLE s pid a.
Proof. done. Qed.

Lemma confined_refl pid start len s : confined pid start len s s.
Proof. exists (mem s), (fs s). split; [by rewrite with_memory_same|done]. Qed.

Lemma confined_fs pid start len s f : confined pid start len s (with_memory (mem s) f s).
Proof. by exists (mem s), f. Qed.

Lemma confined_trans pid start len a n b m s s1 s2 : confined pid a n s s1 -> confined pid b m s1 s2 ->
  start <= a -> a + n <= start + len -> start <= b -> b + m <= start + len -> confined pid start len s s2.
Proof.
  intros (m1 & f1 & -> & H1) (m2 & f2 & -> & H2) Ha Han Hb Hbm. exists m2, f2. split; [done|]. intros c Hc.
  destruct (decide (m2 c = m1 c)) as [E|Hne].
  - destruct (H1 c) as (x & Hx & Hw); [congruence|]. exists x. split; [lia|done].
  - destruct (H2 c) as (x & Hx & Hw); [done|]. exists x. split; [lia|done].
Qed.

Lemma store_byte_confined pid a v s r s' : store_byte USABLE pid a v s = (r, s') -> confined pid a 1 s s'.
Proof.
  unfold store_byte. destruct (user_mapping USABLE s pid a) as [[frame flags]|] eqn:E; [|by intros [= _ <-]; apply confined_refl].
  destruct (has_flags flags WRITABLE) eqn:Ew; [|by intros [= _ <-]; apply confined_refl]. intros [= _ <-].
  exists (fun b => if b =? frame + a mod PAGE_SIZE then v else mem s b), (fs s). split; [done|]. intros b. cbn beta.
  destruct (Z.eqb_spec b (frame + a mod PAGE_SIZE)) as [->|]; [|done]. intros _. exists a. split; [lia|]. by exists frame, flags.
Qed.

Lemma store_bytes_confined pid bytes : forall a s r s', store_bytes USABLE pid a bytes s = (r, s') -> confined pid a (zlen bytes) s s'.
Proof.
  induction bytes as [|v bytes IH]; intros a s r s' E; [injection E as _ <-; apply confined_refl|]. cbn [store_bytes] in E.
  unfold sbind in E. destruct (store_byte USABLE pid a v s) as [x s1] eqn:E1. pose proof (store_byte_confined _ _ _ _ _ _ E1) as H1.
  cbn [length]. destruct x; [|injection E as _ <-; apply (confined_trans pid a _ a 1 a 0 s s1 s1); try lia; (done || apply confined_refl)..].
  apply IH in E. apply (confined_trans pid a _ a 1 (a + 1) (zlen bytes) s s1 s'); try done; lia.
Qed.

(** Calls that only read. *)
Definition silent {A} (c : SysM A) : Prop := forall s r s', c s = (r, s') -> s' = s.

Lemma silent_load pid n : forall a, silent (load_bytes USABLE P pid a n).
Proof.
  induction n as [|n IH]; intros a s r s' E; [by injection E as _ <-|]. cbn [load_bytes] in E. unfold sbind in E.
  assert (Hb : silent (load_byte USABLE P pid a)).
  { intros s0 r0 s1. unfold load_byte. destruct (a <? _); [destruct (user_mapping _ _ _ _) as [[]|]|destruct (kernel_byte _ _)]; by intros [= _ <-]. }
  destruct (load_byte USABLE P pid a s) as [x s1] eqn:E1. apply Hb in E1 as ->. destruct x; try (by injection E as _ <-).
  destruct (load_bytes USABLE P pid (a + 1) n s) as [y s2] eqn:E2. apply IH in E2 as ->. by destruct y; injection E as _ <-.
Qed.

Lemma silent_string pid ptr len : silent (read_user_string USABLE P pid ptr len).
Proof.
  intros s r s'. unfold read_user_string. destruct (negb _); [by intros [= _ <-]|]. unfold sbind.
  destruct (load_bytes _ _ _ _ _ s) as [x s1] eqn:E. apply silent_load in E as ->. by destruct x; intros [= _ <-].
Qed.

(** *** Chaining calls *)

Definition within {A} (pid start len : Z) (s : Sys) (c : SysM A) : Prop := forall r s', c s = (r, s') -> confined pid start len s s'.

Lemma within_ret {A} pid start len s (a : A) : within pid start len s (sret a).
Proof. intros r s' [= _ <-]. apply confined_refl. Qed.

Lemma within_panic {A} pid start len s : within (A:=A) pid start len s spanic.
Proof. intros r s' [= _ <-]. apply confined_refl. Qed.

Lemma within_silent_bind {A B} pid start len s (c : SysM A) (k : A -> SysM B) : silent c ->
  (forall a, c s = (Ok a, s) -> within pid start len s (k a)) -> within pid start len s (sbind c k).
Proof.
  intros Hc Hk r s' E. unfold sbind in E. destruct (c s) as [x s1] eqn:E1. pose proof (Hc _ _ _ E1) as ->.
  destruct x; [by apply (Hk _ eq_refl) in E|injection E as _ <-; apply confined_refl..].
Qed.

(** A call on the file system that answers [x], and what follows. *)
Lemma within_files {A B} pid start len s (c : stM (CachedDriver D) FileSystemError A) (k : A + FileSystemError -> SysM B) : 0 <= len ->
  (forall x f, match x with inl a => c (fs s) = (Ok a, f) | inr _ => True end ->
    within pid start len (with_memory (mem s) f s) (k x)) -> within pid start len s (sbind (on_files c) k).
Proof.
  intros Hlen Hk r s' E. unfold sbind, on_files in E. destruct (c (fs s)) as [x f] eqn:Ec.
  assert (Es : mkSys (desk s) f (futex_waiters s) (console s) = with_memory (mem s) f s)
    by (destruct s as [[? [? [] ? ?] ? ? ? ?] ? ? ?]; done).
  rewrite Es in E. assert (Hf : confined pid start len s (with_memory (mem s) f s)) by apply confined_fs.
  destruct x as [a|e| |]; [..|by injection E as _ <-|by injection E as _ <-].
  - apply (Hk (inl a) f eq_refl) in E. apply (confined_trans pid start len start 0 start len s (with_memory (mem s) f s) s'); try lia; [|done].
    apply confined_fs.
  - apply (Hk (inr e) f I) in E. apply (confined_trans pid start len start 0 start len s (with_memory (mem s) f s) s'); try lia; [|done].
    apply confined_fs.
Qed.

Lemma within_store {B} pid start len s a bytes (k : unit -> SysM B) : start <= a -> a + zlen bytes <= start + len ->
  (forall s1, within pid start len s1 (k tt)) -> within pid start len s (sbind (store_bytes USABLE pid a bytes) k).
Proof.
  intros Ha Hb Hk r s' E. unfold sbind in E. destruct (store_bytes USABLE pid a bytes s) as [x s1] eqn:E1.
  pose proof (store_bytes_confined _ _ _ _ _ _ E1) as H1.
  destruct x as [[]|e| |]; [|injection E as _ <-; apply (confined_trans pid start len a (zlen bytes) start 0 s s1 s1); try done; try lia; apply confined_refl..].
  apply Hk in E. apply (confined_trans pid start len a (zlen bytes) start len s s1 s'); try done; lia.
Qed.

(** *** What each call does *)

Lemma silent_pid core_id : silent (current_pid core_id).
Proof.
  intros s r s'. unfold current_pid, on_cores, get_current_process_for_core, load.
  destruct (_ !! _); intros [= _ <-]; by destruct s as [[? [? ? [] ?] ? ? ? ?] ? ? ?].
Qed.

Lemma silent_process pid : silent (the_process pid).
Proof. intros s r s'. unfold the_process. by destruct (_ =? _); intros [= _ <-]. Qed.

Lemma silent_ret {A} (a : A) : silent (sret a).
Proof. by intros s r s' [= _ <-]. Qed.

Lemma silent_bind {A B} (c : SysM A) (k : A -> SysM B) : silent c -> (forall a, silent (k a)) -> silent (sbind c k).
Proof.
  intros Hc Hk s r s' E. unfold sbind in E. destruct (c s) as [x s1] eqn:E1. apply Hc in E1 as ->.
  destruct x; [by apply Hk in E|by injection E as _ <-..].
Qed.

Lemma silent_file pid fd needed : silent (the_file pid fd needed).
Proof. apply silent_bind; [apply silent_process|intros a; apply silent_ret]. Qed.

Lemma silent_reads {A} (g : Sys -> A) : silent (reads g).
Proof. by intros s r s' [= _ <-]. Qed.

Lemma silent_lift {A} (c : result Empty_set A) : silent (slift c).
Proof. by intros s r s' [= _ <-]. Qed.

Lemma silent_aligned ptr : silent (aligned ptr).
Proof. unfold aligned, sassert. intros s r s'. by destruct (_ =? 0); intros [= _ <-]. Qed.

(** What [current_pid] answers. *)
Definition caller (s : Sys) (core_id : Z) : Z :=
  default INVALID_PID (current_process_on_core (sched (kern (desk s))) !! Z.to_nat core_id).

Lemma current_pid_caller core_id s pid s' : current_pid core_id s = (Ok pid, s') -> pid = caller s core_id.
Proof.
  unfold current_pid, on_cores, get_current_process_for_core, load, caller. destruct (_ !! _) as [x|] eqn:E; [|done].
  by intros [= <- _].
Qed.

Lemma within_skip {A B} pid start len s (c : SysM A) (k : A -> SysM B) : silent c ->
  (forall a, within pid start len s (k a)) -> within pid start len s (sbind c k).
Proof. intros Hc Hk. apply within_silent_bind; auto. Qed.

Lemma within_pid {B} core_id start len s (k : Z -> SysM B) : within (caller s core_id) start len s (k (caller s core_id)) ->
  within (caller s core_id) start len s (sbind (current_pid core_id) k).
Proof. intros Hk. apply within_silent_bind; [apply silent_pid|]. intros pid ->%current_pid_caller. done. Qed.

Lemma within_return {A} pid start len s (c : SysM A) (v : A -> SyscallResult) :
  within pid start len s c -> within pid start len s (let! a := c in sret (v a)).
Proof.
  intros Hc r s' E. unfold sbind in E. destruct (c s) as [x s1] eqn:E1. apply Hc in E1. by destruct x; injection E as _ <-.
Qed.

Lemma within_assoc {A B C} pid start len s (c : SysM A) (k : A -> SysM B) (h : B -> SysM C) :
  within pid start len s (sbind c (fun a => sbind (k a) h)) -> within pid start len s (sbind (sbind c k) h).
Proof. intros Hc r s' E. apply (Hc r s'). rewrite <- E. unfold sbind. by destruct (c s) as [[] ?]. Qed.

Lemma length_flat_name name : zlen (flat_name name) = 16.
Proof. unfold flat_name. rewrite length_take, length_app, length_replicate. change (Z.to_nat FS_NAME_LEN) with 16%nat. lia. Qed.

Lemma within_store_node {B} pid start len s ptr n (k : unit -> SysM B) : start <= ptr -> ptr + FLAT_NODE_SIZE <= start + len ->
  (forall s1, within pid start len s1 (k tt)) -> within pid start len s (sbind (store_node USABLE pid ptr n) k).
Proof.
  unfold FLAT_NODE_SIZE. intros Ha Hb Hk. unfold store_node.
  assert (H1 : zlen (flat_node n).1 = 18) by (unfold flat_node; cbn [fst]; rewrite length_app, Nat2Z.inj_add, length_flat_name; done).
  assert (H2 : zlen (flat_node n).2 = 16) by (unfold flat_node; cbn [snd]; by rewrite !length_app, !length_le_bytes).
  apply within_assoc, within_skip; [apply silent_aligned|]. intros []. apply within_assoc.
  apply within_store; [lia|lia|]. intros s1. apply within_store; [unfold FLAT_SIZE_OFFSET; lia|unfold FLAT_SIZE_OFFSET; lia|done].
Qed.

Lemma within_store_nodes {B} pid start len (k : unit -> SysM B) : (forall s1, within pid start len s1 (k tt)) ->
  forall l ptr s, start <= ptr -> ptr + FLAT_NODE_SIZE * zlen l <= start + len ->
  within pid start len s (sbind (store_nodes USABLE pid ptr l) k).
Proof.
  intros Hk l. induction l as [|n l IH]; intros ptr s Ha Hb; [apply Hk|]. cbn [store_nodes]. apply within_assoc.
  cbn [length] in Hb. unfold FLAT_NODE_SIZE in *.
  apply within_store_node; [done|unfold FLAT_NODE_SIZE; lia|]. intros s1. apply IH; lia.
Qed.

(** *** The calls that answer through memory, and those that change the file system only *)

#[export] Instance syscall_number_dec : EqDecision SyscallNumber.
Proof. solve_decision. Defined.

Definition output_range (n : SyscallNumber) (f : SyscallFrame) : option (Z * Z) :=
  match n with
  | ReadFile | ListDir => Some (arg3 f, arg4 f)
  | StatFile => Some (arg3 f, FLAT_NODE_SIZE)
  | GetWindowInfo => Some (arg2 f, 24)
  | GetCacheStats => Some (arg1 f, 32)
  | GetCpuInfo => Some (arg1 f, CPU_INFO_FLAT_SIZE)
  | CreateCircularBuffer => Some (arg3 f, 24)
  | WriteFile | CreateFile | CreateDir | Delete | PinFile | UnpinFile | ReserveCache | EvictDirectory
  | FlushFileCache | GetWindowSize | GetPID => Some (0, 0)
  | _ => None
  end.

(** The length that is checked: of the answer, except where the program says it. *)
Definition checked_length (n : SyscallNumber) (f : SyscallFrame) (len : Z) : Z :=
  match n with GetCpuInfo => arg2 f | _ => len end.

(** Memory mapped twice is there before its place is written; the other calls have done nothing by then. *)
Definition before_answer (flag_bits core_id : Z) (n : SyscallNumber) (f : SyscallFrame) (s : Sys) : Sys :=
  match n with
  | CreateCircularBuffer =>
      if validate_user_ptr (arg3 f) 24
      then ((let! pid := current_pid core_id in on_desk (on_process pid (map_for_user USABLE (arg1 f) (Z.land (arg2 f) flag_bits)))) s).2
      else s
  | _ => s
  end.

(** The registers of a call. *)
Definition registers (f : SyscallFrame) : Prop := Forall (in_width 64) [arg1 f; arg2 f; arg3 f; arg4 f].

(** The bytes a call may write behind a pointer: none unless the range is checked. *)
Definition reach (ptr len : Z) : Z := if validate_user_ptr ptr len then len else 0.

Lemma within_read core_id f s : 0 <= arg4 f ->
  within (caller s core_id) (arg3 f) (reach (arg3 f) (arg4 f)) s (sys_read_file USABLE P core_id f).
Proof.
  intros Hl. unfold sys_read_file, reach. destruct (validate_user_ptr _ _); cbn [negb]; [|apply within_ret].
  apply within_pid, within_skip; [apply silent_file|]. intros [node|]; [|apply within_ret]. apply within_files; [done|].
  intros [[n bytes]|e] fs' E; [|apply within_ret]. apply read_range_length in E as [_ E]. unfold zeros in E. rewrite length_replicate in E.
  apply within_store; [lia|rewrite length_take; lia|]. intros s1. apply within_ret.
Qed.

Lemma within_stat core_id f s :
  within (caller s core_id) (arg3 f) (reach (arg3 f) FLAT_NODE_SIZE) s (sys_stat_file USABLE P core_id f).
Proof.
  unfold sys_stat_file, reach. apply within_pid, within_skip; [apply silent_string|]. intros [path|]; [|apply within_ret].
  destruct (validate_user_ptr _ _); cbn [negb]; [|apply within_ret]. apply within_files; [done|].
  intros [node|e] fs' _; [|apply within_ret]. apply within_store_node; [lia|lia|]. intros s1. apply within_ret.
Qed.

Lemma within_list core_id f s : 0 <= arg4 f ->
  within (caller s core_id) (arg3 f) (reach (arg3 f) (arg4 f)) s (sys_list_dir USABLE P core_id f).
Proof.
  intros Hl. unfold sys_list_dir, reach. apply within_pid, within_skip; [apply silent_string|]. intros [path|]; [|apply within_ret].
  destruct (validate_user_ptr _ _); cbn [negb]; [|apply within_ret]. apply within_files; [done|].
  intros [l|e] fs' _; [|apply within_ret]. apply within_store_nodes; [intros s1; apply within_ret|lia|].
  rewrite length_take. unfold FLAT_NODE_SIZE in *. pose proof (Z.mul_div_le (arg4 f) 40 ltac:(lia)). pose proof (Z.div_pos (arg4 f) 40). lia.
Qed.

Lemma within_window_info core_id f s :
  within (caller s core_id) (arg2 f) (reach (arg2 f) 24) s (sys_get_window_info USABLE core_id f).
Proof.
  unfold sys_get_window_info, reach. destruct (validate_user_ptr _ _); cbn [negb]; [|apply within_ret].
  apply within_silent_bind; [apply silent_reads|]. intros c _. destruct (get_window _ _) as [w|]; [|apply within_ret].
  apply within_skip; [apply silent_aligned|]. intros []. apply within_pid.
  do 2 (apply within_skip; [apply silent_lift|]; intros ?).
  apply within_store; [lia|by rewrite !length_app, !length_le_bytes|]. intros s1. apply within_ret.
Qed.

Lemma within_cache_stats core_id f s :
  within (caller s core_id) (arg1 f) (reach (arg1 f) 32) s (sys_get_cache_stats USABLE core_id f).
Proof.
  unfold sys_get_cache_stats, reach. destruct (validate_user_ptr _ _); cbn [negb]; [|apply within_ret].
  apply within_pid, within_skip; [apply silent_reads|]. intros st. apply within_skip; [apply silent_aligned|]. intros [].
  apply within_store; [lia|by rewrite !length_app, !length_le_bytes|]. intros s1. apply within_ret.
Qed.

Lemma within_by_path {A} pid core_id f (call : str -> stM (CachedDriver D) FileSystemError A) failed value s :
  within pid 0 0 s (by_path USABLE P core_id f call failed value).
Proof.
  unfold by_path. apply within_skip; [apply silent_pid|]. intros me. apply within_skip; [apply silent_string|].
  intros [path|]; [|apply within_ret]. apply within_files; [done|]. intros x fs' _. apply within_ret.
Qed.

Lemma within_cpu_info core_id f s : zlen (flat_padding P) <= 10 ->
  within (caller s core_id) (arg1 f) (if validate_user_ptr (arg1 f) (arg2 f) then CPU_INFO_FLAT_SIZE else 0) s (sys_get_cpu_info USABLE P core_id f).
Proof.
  intros Hp. unfold sys_get_cpu_info. destruct (validate_user_ptr _ _); cbn [negb]; [|apply within_ret].
  apply within_skip; [apply silent_lift|]. intros info. apply within_skip; [intros s0 r0 s1; unfold sassert; by destruct (_ =? 0); intros [= _ <-]|].
  intros []. apply within_pid. apply within_store; [lia| |intros s1; apply within_ret].
  unfold flat_bytes, CPU_INFO_FLAT_SIZE. rewrite !length_app, !length_le_bytes, length_take, length_drop. cbn [length]. lia.
Qed.

Lemma within_circular flag_bits core_id f s r s' : sys_create_circular_buffer USABLE flag_bits core_id f s = (r, s') ->
  confined (caller s core_id) (arg3 f) (reach (arg3 f) 24) (before_answer flag_bits core_id CreateCircularBuffer f s) s'.
Proof.
  unfold sys_create_circular_buffer, before_answer, reach. destruct (validate_user_ptr _ _); cbn [negb]; [|intros [= _ <-]; apply confined_refl].
  unfold sbind at 1, sbind at 3. destruct (current_pid core_id s) as [[pid|[]| |] s1] eqn:Ep; pose proof (silent_pid _ _ _ _ Ep) as ->;
    [|intros [= _ <-]; apply confined_refl..].
  apply current_pid_caller in Ep as ->. unfold sbind at 1. destruct (on_desk _ s) as [x s1]. cbn [snd].
  destruct x as [[[[info|]|e]|]|[]| |]; [|intros [= _ <-]; apply confined_refl..].
  revert r s'. apply within_store; [lia|by rewrite !length_app, !length_le_bytes|]. intros s2. apply within_ret.
Qed.

(** C8: a call that answers through memory, or that only asks the file system, changes
    nothing but the file system and bytes behind the range it answers to, on pages that are
    writable for the calling process; memory mapped twice is mapped before that.  The range
    lies below the end of user space, with one exception: the processor's description is
    written whole, and a program that gives a smaller length has only that length checked. *)
Theorem calls_confined flag_bits core_id n f s r s' start len : output_range n f = Some (start, len) ->
  registers f -> zlen (flat_padding P) <= 10 ->
  dispatch_syscall USABLE P flag_bits core_id n f s = (r, s') ->
  let s0 := before_answer flag_bits core_id n f s in
  exists m fs', s' = with_memory m fs' s0 /\
    forall b, m b <> mem s0 b -> exists a, start <= a < start + len /\ 0 < a /\
      (a < start + checked_length n f len -> a < USER_MEM_MAX_ADDRESS) /\ writable_at s0 (caller s core_id) a b.
Proof.
  intros Hn Hf Hpad E. unfold registers in Hf. rewrite !Forall_cons in Hf. destruct Hf as (H1 & H2 & H3 & H4 & _).
  assert (Hend : forall s0, confined (caller s core_id) start (if validate_user_ptr start (checked_length n f len) then len else 0) s0 s' ->
    exists m fs', s' = with_memory m fs' s0 /\
    forall b, m b <> mem s0 b -> exists a, start <= a < start + len /\ 0 < a /\
      (a < start + checked_length n f len -> a < USER_MEM_MAX_ADDRESS) /\ writable_at s0 (caller s core_id) a b).
  { intros s0 (m & fs' & -> & Hb). exists m, fs'. split; [done|]. intros b Hne. destruct (Hb b Hne) as (a & Ha & Hw).
    destruct (validate_user_ptr start _) eqn:Ev; [|lia]. apply validate_range in Ev.
    - exists a. split; [lia|]. split; [lia|]. split; [lia|done].
    - by destruct n; try discriminate Hn; injection Hn as <- _.
    - by destruct n; try discriminate Hn; injection Hn as _ <-. }
  destruct (decide (n = CreateCircularBuffer)) as [->|Hcb].
  { injection Hn as <- <-. cbn [dispatch_syscall] in E. unfold sbind in E.
    destruct (sys_create_circular_buffer _ _ _ _ s) as [x s2] eqn:Ec.
    apply Hend. apply within_circular in Ec. by destruct x; injection E as _ <-. }
  intros s0. subst s0. replace (before_answer flag_bits core_id n f s) with s by (by destruct n). apply Hend. clear Hend.
  destruct n; try discriminate Hn; try (by destruct (Hcb eq_refl)); clear Hcb; injection Hn as <- <-; unfold in_width in H4;
    cbn [dispatch_syscall checked_length] in *; change (if validate_user_ptr 0 0 then 0 else 0) with 0; revert r s' E; apply within_return;
    first [apply within_window_info|apply within_read; apply H4|apply within_stat|apply within_list; apply H4|apply within_cache_stats
      |by apply within_cpu_info|apply within_by_path|idtac].
  - apply within_silent_bind; [apply silent_reads|]. intros l _. apply within_ret.
  - unfold sys_write_file. destruct (validate_user_ptr _ _); cbn [negb]; [|apply within_ret].
    apply within_pid, within_skip; [apply silent_file|]. intros [node|]; [|apply within_ret].
    apply within_skip; [apply silent_load|]. intros bytes. apply within_files; [done|]. intros [] fs' _; apply within_ret.
  - unfold sys_reserve_cache. apply within_pid, within_skip; [apply silent_string|]. intros [path|]; [|apply within_ret].
    destruct (importance_of _); [|apply within_ret]. apply within_files; [done|]. intros x fs' _. apply within_ret.
  - unfold sys_flush_file_cache. apply within_pid, within_skip; [apply silent_process|]. intros [p|]; [|apply within_ret].
    apply within_files; [done|]. intros x fs' _. apply within_ret.
  - intros r s' E. apply silent_pid in E as ->. apply confined_refl.
Qed.

(** *** What programs may rely on in the answers (the laws of [FileCallsOk] in Odys.v) *)

(** A read says that it filled no more than the buffer, or fails. *)
Lemma read_file_returns core_id f s n s' : 0 <= arg4 f -> sys_read_file USABLE P core_id f s = (Ok n, s') ->
  n = INVALID_FD \/ n <= arg4 f.
Proof.
  unfold sys_read_file. destruct (validate_user_ptr _ _); cbn [negb]; [|by intros _ [= <- _]; left]. intros Hl E.
  destruct (sbind_inv_ok _ _ _ _ _ E) as (pid & s1 & _ & E1). destruct (sbind_inv_ok _ _ _ _ _ E1) as ([node|] & s2 & _ & E2); [|by injection E2 as <- _; left].
  destruct (sbind_inv_ok _ _ _ _ _ E2) as (r & s3 & E3 & E4). destruct r as [[m bytes]|e]; [|by injection E4 as <- _; left].
  unfold on_files in E3. destruct (FsTypes.read_file _ _ _ (fs s2)) as [[x|e| |] fs'] eqn:Er; try discriminate E3.
  injection E3 as -> _. apply read_range_length in Er as [Hm _]. unfold zeros in Hm. rewrite length_replicate in Hm.
  destruct (sbind_inv_ok _ _ _ _ _ E4) as (u & s4 & _ & E5). injection E5 as <- _. right. lia.
Qed.

(** A listing says how many records it wrote, as many as there is room for at most. *)
Lemma list_dir_returns core_id f s n s' : 0 <= arg4 f -> sys_list_dir USABLE P core_id f s = (Ok n, s') ->
  n = INVALID_FD \/ 0 <= n <= arg4 f / FLAT_NODE_SIZE.
Proof.
  unfold sys_list_dir. intros Hl E. destruct (sbind_inv_ok _ _ _ _ _ E) as (pid & s1 & _ & E1).
  destruct (sbind_inv_ok _ _ _ _ _ E1) as ([path|] & s2 & _ & E2); [|by injection E2 as <- _; left].
  destruct (validate_user_ptr _ _); cbn [negb] in E2; [|by injection E2 as <- _; left].
  destruct (sbind_inv_ok _ _ _ _ _ E2) as ([l|e] & s3 & _ & E4); [|by injection E4 as <- _; left].
  destruct (sbind_inv_ok _ _ _ _ _ E4) as (u & s4 & _ & E5). injection E5 as <- _. right.
  pose proof (Z.div_pos (arg4 f) FLAT_NODE_SIZE Hl ltac:(done)). lia.
Qed.

(** The length in a record is that of its name field at most. *)
Lemma flat_name_fits n : exists name len kind, (flat_node n).1 = name ++ [len; kind] /\ zlen name = 16 /\ 0 <= len <= zlen name.
Proof.
  eexists _, _, _. split; [reflexivity|]. rewrite length_flat_name. split; [done|]. unfold FS_NAME_LEN. lia.
Qed.

(** *** User memory behind a mapped range *)

(** The address in memory behind an address of the process. *)
Definition phys_of (s : Sys) (pid a : Z) : Z :=
  match user_mapping USABLE s pid a with Some (frame, _) => frame + a mod PAGE_SIZE | None => 0 end.

Definition readable (s : Sys) (pid start len : Z) : Prop :=
  start + len <= USER_MEM_MAX_ADDRESS /\ forall a, start <= a < start + len -> is_Some (user_mapping USABLE s pid a).

(** Mapped with write access, no byte of memory appearing twice. *)
Definition writable (s : Sys) (pid start len : Z) : Prop :=
  (forall a, start <= a < start + len -> writable_at s pid a (phys_of s pid a)) /\
  (forall a b, start <= a < start + len -> start <= b < start + len -> phys_of s pid a = phys_of s pid b -> a = b).

Definition user_bytes (s : Sys) (pid a : Z) (n : nat) : list Z := (fun i => mem s (phys_of s pid (a + Z.of_nat i))) <$> seq 0 n.

Lemma load_user_ok s pid n : forall a, readable s pid a (Z.of_nat n) -> load_bytes USABLE P pid a n s = (Ok (user_bytes s pid a n), s).
Proof.
  induction n as [|n IH]; intros a [Hm Ha]; [done|]. cbn [load_bytes].
  destruct (Ha a ltac:(lia)) as [[frame flags] E].
  assert (Eb : load_byte USABLE P pid a s = (Ok (mem s (phys_of s pid a)), s)).
  { unfold load_byte, phys_of. rewrite (proj2 (Z.ltb_lt _ _)) by lia. by rewrite E. }
  rewrite (sbind_ok _ _ _ _ _ Eb). rewrite (sbind_ok _ _ _ _ _ (IH (a + 1) ltac:(split; [lia|intros x Hx; apply Ha; lia]))).
  unfold user_bytes, sret. cbn [seq fmap list_fmap]. rewrite Z.add_0_r. do 3 f_equal. rewrite <- seq_shift, <- list_fmap_compose.
  apply list_fmap_ext. intros i x _. cbn. do 2 f_equal. lia.
Qed.

Lemma store_ok pid bytes : forall s a, writable s pid a (zlen bytes) ->
  exists m, store_bytes USABLE pid a bytes s = (Ok tt, with_memory m (fs s) s) /\
    (forall b, (forall x, a <= x < a + zlen bytes -> phys_of s pid x <> b) -> m b = mem s b) /\
    forall i v, bytes !! i = Some v -> m (phys_of s pid (a + Z.of_nat i)) = v.
Proof.
  induction bytes as [|v bytes IH]; intros s a [Hw Hi]; [exists (mem s); by rewrite with_memory_same|]. cbn [length] in *.
  destruct (Hw a ltac:(lia)) as (frame & flags & E & Ew & Ep). cbn [store_bytes].
  set (m1 := fun b => if b =? phys_of s pid a then v else mem s b).
  assert (Es : store_byte USABLE pid a v s = (Ok tt, with_memory m1 (fs s) s)).
  { unfold store_byte, m1, phys_of. rewrite E, Ew. done. }
  rewrite (sbind_ok _ _ _ _ _ Es). set (s1 := with_memory m1 (fs s) s).
  destruct (IH s1 (a + 1)) as (m & Em & Hout & Hin).
  { split; [intros x Hx; apply (Hw x); lia|intros x y Hx Hy; apply (Hi x y); lia]. }
  exists m. split; [exact Em|]. change (phys_of s1 pid) with (phys_of s pid) in *. change (mem s1) with m1 in *. split.
  - intros b Hb. rewrite Hout by (intros x Hx; apply Hb; lia). unfold m1. destruct (Z.eqb_spec b (phys_of s pid a)) as [->|]; [|done].
    by destruct (Hb a ltac:(lia)).
  - intros [|i] w Hl; cbn in Hl.
    + injection Hl as ->. rewrite Z.add_0_r, Hout; [unfold m1; by rewrite Z.eqb_refl|].
      intros x Hx Heq. apply Hi in Heq; lia.
    + rewrite <- (Hin _ _ Hl). f_equal. f_equal. lia.
Qed.

(** What was stored reads back. *)
Lemma store_load s pid a bytes m f :
  (forall i v, bytes !! i = Some v -> m (phys_of s pid (a + Z.of_nat i)) = v) ->
  user_bytes (with_memory m f s) pid a (length bytes) = bytes.
Proof.
  intros Hm. apply list_eq. intros i. unfold user_bytes. rewrite list_lookup_fmap.
  destruct (decide (i < length bytes)%nat) as [Hi|Hi].
  - rewrite (lookup_seq_lt 0 (length bytes) i) by done. cbn. destruct (lookup_lt_is_Some_2 bytes i Hi) as [v Hv]. rewrite Hv. f_equal.
    by apply Hm.
  - rewrite (proj2 (lookup_ge_None _ _)) by (rewrite length_seq; lia). by rewrite (proj2 (lookup_ge_None _ _)) by lia.
Qed.

Lemma read_patched bs off data : 0 <= off ->
  read_result (patched bs off data) off (zeros (zlen data)) = (zlen data, data).
Proof.
  intros Hoff. unfold read_result, patched. rewrite zlen_zeros by lia.
  assert (Hg : off + zlen data <= zlen (grown bs (off + zlen data))) by (rewrite length_grown; lia).
  rewrite length_splice_z by lia.
  rewrite Z.min_l, Z.max_r by lia. f_equal. rewrite region_splice_same by lia.
  unfold splice. cbn [take Nat.add]. rewrite drop_ge, app_nil_r; [done|]. unfold zeros. rewrite length_replicate. lia.
Qed.

Lemma on_files_ok {A} (c : stM (CachedDriver D) FileSystemError A) s x f : c (fs s) = (Ok x, f) ->
  on_files c s = (Ok (inl x), with_memory (mem s) f s).
Proof. intros E. unfold on_files. rewrite E. by destruct s as [[? [? [] ? ?] ? ? ? ?] ? ? ?]. Qed.

Lemma pid_ok (s : Sys) core_id pid : current_process_on_core (sched (kern (desk s))) !! Z.to_nat core_id = Some pid ->
  current_pid core_id s = (Ok pid, s).
Proof.
  intros Ec. unfold current_pid, on_cores, get_current_process_for_core, load. rewrite Ec.
  by destruct s as [[? [? ? [] ?] ? ? ? ?] ? ? ?].
Qed.

(** The process running on the core, and its descriptor [fd]. *)
Record opened (s : Sys) (core_id pid fd : Z) (p : Process) (d : FileDescriptor) : Prop := {
  op_core : current_process_on_core (sched (kern (desk s))) !! Z.to_nat core_id = Some pid;
  op_pid : pid <> INVALID_PID;
  op_process : find_process pid (processes (manager (kern (desk s)))) = Some p;
  op_fd : 0 <= fd;
  op_file : p_files p !! Z.to_nat fd = Some d;
}.

Lemma process_ok (s : Sys) pid p : pid <> INVALID_PID -> find_process pid (processes (manager (kern (desk s)))) = Some p ->
  the_process pid s = (Ok (Some p), s).
Proof. intros Hne E. unfold the_process. by rewrite (proj2 (Z.eqb_neq _ _)), E by done. Qed.

Lemma file_ok s core_id pid fd p d needed : opened s core_id pid fd p d -> Z.land (fd_flags d) needed <> 0 ->
  the_file pid fd needed s = (Ok (Some (fd_node d)), s).
Proof.
  intros [? Hpid Hp Hfd Hd] Hf. unfold the_file. rewrite (sbind_ok _ _ _ _ _ (process_ok _ _ _ Hpid Hp)). unfold sret.
  rewrite (proj2 (Z.leb_gt _ _)) by (apply lookup_lt_Some in Hd; lia). rewrite Hd. by rewrite (proj2 (Z.eqb_neq _ _)).
Qed.

#[local] Existing Instance adapter_driver.

(** The two calls, given what the cache answers. *)
Lemma write_call core_id s pid fd p d off src len n f : opened s core_id pid fd p d -> Z.land (fd_flags d) FD_FLAG_WRITE <> 0 ->
  0 <= len -> validate_user_ptr src len = true -> readable s pid src len ->
  FileCache.write_file (timestamp_us P) (fd_node d) off (user_bytes s pid src (Z.to_nat len)) (fs s) = (Ok n, f) ->
  sys_write_file USABLE P core_id (mkArgs fd off src len) s = (Ok n, with_memory (mem s) f s).
Proof.
  intros Hop Hw Hlen Hv Hsrc E. unfold sys_write_file. cbn [arg1 arg2 arg3 arg4]. rewrite Hv. cbn [negb].
  rewrite (sbind_ok _ _ _ _ _ (pid_ok _ _ _ (op_core _ _ _ _ _ _ Hop))).
  rewrite (sbind_ok _ _ _ _ _ (file_ok _ _ _ _ _ _ _ Hop Hw)).
  rewrite (sbind_ok _ _ _ _ _ (load_user_ok s pid (Z.to_nat len) src ltac:(by rewrite Z2Nat.id))).
  by rewrite (sbind_ok _ _ _ _ _ (on_files_ok _ _ _ _ E)).
Qed.

Lemma read_call core_id s pid fd p d off dst len n bytes f : opened s core_id pid fd p d -> Z.land (fd_flags d) FD_FLAG_READ <> 0 ->
  validate_user_ptr dst len = true -> n = zlen bytes -> writable s pid dst n ->
  read_file_range (fd_node d) off (zeros len) (fs s) = (Ok (n, bytes), f) ->
  exists m, sys_read_file USABLE P core_id (mkArgs fd off dst len) s = (Ok n, with_memory m f s) /\
    (forall b, (forall x, dst <= x < dst + n -> phys_of s pid x <> b) -> m b = mem s b) /\
    forall i v, bytes !! i = Some v -> m (phys_of s pid (dst + Z.of_nat i)) = v.
Proof.
  intros Hop Hr Hv -> Hdst E. destruct (store_ok pid bytes (with_memory (mem s) f s) dst Hdst) as (m & Em & Hout & Hin).
  exists m. split; [|done]. unfold sys_read_file. cbn [arg1 arg2 arg3 arg4]. rewrite Hv. cbn [negb].
  rewrite (sbind_ok _ _ _ _ _ (pid_ok _ _ _ (op_core _ _ _ _ _ _ Hop))).
  rewrite (sbind_ok _ _ _ _ _ (file_ok _ _ _ _ _ _ _ Hop Hr)).
  rewrite (sbind_ok _ _ _ _ _ (on_files_ok _ _ _ _ E)). cbv beta iota. rewrite Nat2Z.id, take_ge by lia.
  by rewrite (sbind_ok _ _ _ _ _ Em).
Qed.

(** What a program writes to a cached file it opened for both, a read of the same range
    gives back: the bytes arrive at the destination, the file holds them, and nothing else of
    the caller's memory is touched. *)
Theorem file_write_then_read flag_bits core_id s pid fd p d bs g nd off src dst len :
  let id := fd_node d in let data := user_bytes s pid src (Z.to_nat len) in
  opened s core_id pid fd p d -> Z.land (fd_flags d) FD_FLAG_READ <> 0 -> Z.land (fd_flags d) FD_FLAG_WRITE <> 0 ->
  wf_cache (fs s) -> content (fs s) id = Some bs -> file_at (fs s) id = Some g ->
  get_node id (adapted (driver (fs s))) = (Ok nd, adapted (driver (fs s))) ->
  (zlen bs < off + len -> can_grow (fs s) g (off + len)) -> has_empty (slots (file_nodes (fs s))) ->
  0 <= off -> 0 <= len -> off + len < 2 ^ 63 ->
  validate_user_ptr src len = true -> validate_user_ptr dst len = true ->
  readable s pid src len -> writable s pid dst len ->
  exists s1 s2,
    dispatch_syscall USABLE P flag_bits core_id WriteFile (mkArgs fd off src len) s = (Ok (Returned len), s1) /\
    dispatch_syscall USABLE P flag_bits core_id ReadFile (mkArgs fd off dst len) s1 = (Ok (Returned len), s2) /\
    user_bytes s2 pid dst (Z.to_nat len) = data /\ content (fs s2) id = Some (patched bs off data) /\
    (forall j, j <> id -> content (fs s2) j = content (fs s) j) /\
    (forall b, (forall x, dst <= x < dst + len -> phys_of s pid x <> b) -> mem s2 b = mem s b).
Proof.
  intros id data Hop Hr Hw W Hc Hg Hnd Hgrow Hempty Hoff Hlen Hmax Hvs Hvd Hsrc Hdst.
  assert (Hd : zlen data = len) by (unfold data, user_bytes; rewrite length_fmap, length_seq; lia).
  assert (Hnode : cd_get_node id (driver (fs s)) = (Ok nd, driver (fs s))).
  { cbn. unfold inner. rewrite Hnd. by destruct (driver (fs s)). }
  destruct (write_cached (timestamp_us P) (fs s) id off data bs g nd (driver (fs s)) W Hc Hg Hoff) as
    (c1 & Ew & W1 & Hc1 & _ & _ & Hj1 & _); try (rewrite Hd; done); try done.
  set (s1 := with_memory (mem s) c1 s).
  destruct (read_hit c1 id off _ (zeros len) W1 Hc1 Hoff) as (c2 & Er & W2 & _ & Hj2).
  rewrite <- Hd in Er at 2. rewrite read_patched, Hd in Er by done.
  destruct (read_call core_id s1 pid fd p d off dst len len data c2) as (m & Ecall & Hout & Hin); try done.
  { by destruct Hop. }
  exists s1, (with_memory m c2 s). split; [|split; [|split; [|split; [|split]]]].
  - cbn [dispatch_syscall]. by rewrite (sbind_ok _ _ _ _ _ (write_call core_id s pid fd p d off src len len c1 Hop Hw Hlen Hvs Hsrc
      ltac:(rewrite <- Hd at 2; exact Ew))).
  - cbn [dispatch_syscall]. by rewrite (sbind_ok _ _ _ _ _ Ecall).
  - rewrite <- Hd, Nat2Z.id. by apply store_load.
  - cbn [fs with_memory]. rewrite Hj2. exact Hc1.
  - intros j Hne. cbn [fs with_memory]. by rewrite Hj2, Hj1.
  - exact Hout.
Qed.

(** *** Descriptors *)

Lemma files_changed (s : Sys) pid p l : find_process pid (processes (manager (kern (desk s)))) = Some p ->
  exists s', change_files pid l s = (Ok tt, s') /\
    find_process pid (processes (manager (kern (desk s')))) = Some (set_files l p) /\
    current_process_on_core (sched (kern (desk s'))) = current_process_on_core (sched (kern (desk s))).
Proof.
  intros Hp. eexists. split; [reflexivity|]. cbn. by rewrite update_find, decide_True, Hp by done.
Qed.

Lemma swap_remove_lookup {A} (l : list A) (n : nat) x i : last l = Some x -> (n < length l)%nat ->
  removelast (<[n := x]> l) !! i =
    if decide (i < length l - 1)%nat then if decide (i = n) then Some x else l !! i else None.
Proof.
  intros Hx Hn. destruct l as [|y l' _] using rev_ind; [done|]. rewrite last_snoc in Hx. injection Hx as ->.
  rewrite length_app in *. cbn [length] in *. replace (length l' + 1 - 1)%nat with (length l') by lia.
  assert (E : removelast (<[n := x]> (l' ++ [x])) = <[n := x]> l').
  { destruct (decide (n < length l')%nat).
    - rewrite insert_app_l by lia. rewrite removelast_app by done. by rewrite app_nil_r.
    - replace n with (length l' + 0)%nat by lia. rewrite insert_app_r. cbn [list_insert]. rewrite removelast_app by done.
      rewrite app_nil_r, list_insert_ge; [done|lia]. }
  rewrite E. case_decide as H1.
  - case_decide as H2; [subst; by rewrite list_lookup_insert_eq|]. by rewrite list_lookup_insert_ne, lookup_app_l.
  - apply lookup_ge_None. rewrite length_insert. lia.
Qed.

(** Closing a file renumbers another one.  The call takes the last descriptor of the
    process for the closed number: that file now answers under the closed number, its own
    number is refused, and all others are kept. *)
Theorem close_renumbers flag_bits core_id s pid fd p d fd2 d2 a2 a3 a4 : opened s core_id pid fd p d -> opened s core_id pid fd2 p d2 ->
  fd2 = zlen (p_files p) - 1 -> fd <> fd2 ->
  exists s' p', dispatch_syscall USABLE P flag_bits core_id CloseFile (mkArgs fd a2 a3 a4) s = (Ok (Returned 0), s') /\
    opened s' core_id pid fd p' d2 /\
    (forall i, i <> Z.to_nat fd -> (i < Z.to_nat fd2)%nat -> p_files p' !! i = p_files p !! i) /\
    forall needed, the_file pid fd2 needed s' = (Ok None, s').
Proof.
  intros Hop [_ _ _ Hfd2 Hd2] El Hne. pose proof (op_file _ _ _ _ _ _ Hop) as Hd. pose proof (lookup_lt_Some _ _ _ Hd) as Hlt.
  pose proof (op_fd _ _ _ _ _ _ Hop) as Hfd. pose proof (op_process _ _ _ _ _ _ Hop) as Hp.
  pose proof (op_pid _ _ _ _ _ _ Hop) as Hpid.
  assert (Hl : last (p_files p) = Some d2) by (rewrite last_lookup, <- Hd2; f_equal; lia).
  set (l := removelast (<[Z.to_nat fd := d2]> (p_files p))).
  assert (Hi : forall i, l !! i = if decide (i < length (p_files p) - 1)%nat then
    if decide (i = Z.to_nat fd) then Some d2 else p_files p !! i else None) by (intros i; by apply swap_remove_lookup).
  destruct (files_changed s pid p l Hp) as (s' & Es & Hp' & Hc').
  assert (Ecall : sys_close_file core_id (mkArgs fd a2 a3 a4) s = (Ok 0, s')).
  { unfold sys_close_file. cbn [arg1]. rewrite (sbind_ok _ _ _ _ _ (pid_ok _ _ _ (op_core _ _ _ _ _ _ Hop))).
    rewrite (sbind_ok _ _ _ _ _ (process_ok _ _ _ Hpid Hp)). rewrite (proj2 (Z.leb_gt _ _)), Hl by lia.
    by rewrite (sbind_ok _ _ _ _ _ Es). }
  exists s', (set_files l p). split; [|split; [|split]].
  - cbn [dispatch_syscall]. by rewrite (sbind_ok _ _ _ _ _ Ecall).
  - split; try done; [by rewrite Hc'; apply (op_core _ _ _ _ _ _ Hop)|]. cbn [p_files set_files]. rewrite Hi.
    rewrite decide_True by lia. by rewrite decide_True.
  - intros i Hi1 Hi2. cbn [p_files set_files]. rewrite Hi. rewrite decide_True by lia. by rewrite decide_False.
  - intros needed. unfold the_file. rewrite (sbind_ok _ _ _ _ _ (process_ok _ _ _ Hpid Hp')). unfold sret. cbn [p_files set_files].
    destruct (zlen l <=? fd2); [done|]. rewrite Hi, decide_False by lia. done.
Qed.

(** *** Pointers that pass without being mapped, and pointers that are not looked at *)

Definition takes_path (n : SyscallNumber) : bool :=
  match n with
  | OpenFile | StatFile | ListDir | CreateFile | CreateDir | Delete | PinFile | UnpinFile | ReserveCache | EvictDirectory => true
  | _ => false
  end.

Lemma sbind_panic {A B} (c : SysM A) (k : A -> SysM B) s : (c s).1 = Panic -> (sbind c k s).1 = Panic.
Proof. unfold sbind. by destruct (c s) as [[] ?]. Qed.

Lemma load_unmapped pid n : forall a x (s : Sys), a <= x < a + Z.of_nat n -> x < USER_MEM_MAX_ADDRESS -> user_mapping USABLE s pid x = None ->
  (forall y, a <= y < x -> y < USER_MEM_MAX_ADDRESS) -> (load_bytes USABLE P pid a n s).1 = Panic.
Proof.
  induction n as [|n IH]; intros a x s Hx Hmax E Hy; [lia|]. cbn [load_bytes].
  destruct (decide (x = a)) as [->|Hne].
  - apply sbind_panic. unfold load_byte. by rewrite (proj2 (Z.ltb_lt _ _)), E.
  - unfold sbind at 1, load_byte. rewrite (proj2 (Z.ltb_lt _ _)) by (apply Hy; lia).
    destruct (user_mapping USABLE s pid a) as [[frame flags]|]; [|done].
    apply sbind_panic. apply (IH (a + 1) x); try done; [lia|]. intros y Hyr. apply Hy. lia.
Qed.

(** The check of a pointer is of its numbers only.  A path that lies below the end of user
    space passes it, and if any of its bytes is not mapped the core stops, whichever of the ten
    calls that take a path is made. *)
Theorem unmapped_path_halts flag_bits core_id n f s pid x : takes_path n = true ->
  current_process_on_core (sched (kern (desk s))) !! Z.to_nat core_id = Some pid ->
  in_width 64 (arg1 f) -> in_width 64 (arg2 f) -> validate_user_ptr (arg1 f) (arg2 f) = true ->
  arg1 f <= x < arg1 f + arg2 f -> user_mapping USABLE s pid x = None ->
  (dispatch_syscall USABLE P flag_bits core_id n f s).1 = Panic.
Proof.
  intros Hn Hc H1 H2 Hv Hx E. pose proof (proj1 (validate_range _ _ H1 H2) Hv) as [_ Hr].
  assert (Hs : (read_user_string USABLE P pid (arg1 f) (arg2 f) s).1 = Panic).
  { unfold read_user_string. rewrite Hv. cbn [negb]. unfold in_width in *. apply sbind_panic, (load_unmapped pid _ _ x); try done; [lia|lia|]. intros; lia. }
  destruct n; try discriminate Hn; cbn [dispatch_syscall]; apply sbind_panic;
    unfold sys_create_file, sys_create_dir, sys_delete, sys_pin_file, sys_unpin_file, sys_evict_directory, by_path,
      sys_open_file, sys_stat_file, sys_list_dir, sys_reserve_cache;
    rewrite (sbind_ok _ _ _ _ _ (pid_ok _ _ _ Hc)); by apply sbind_panic.
Qed.

Lemma load_kernel pid bytes : forall a (s : Sys), USER_MEM_MAX_ADDRESS <= a ->
  (forall i v, bytes !! i = Some v -> kernel_byte P (a + Z.of_nat i) = Some v) ->
  load_bytes USABLE P pid a (length bytes) s = (Ok bytes, s).
Proof.
  induction bytes as [|v bytes IH]; intros a s Ha Hk; [done|]. cbn [length load_bytes].
  assert (Eb : load_byte USABLE P pid a s = (Ok v, s)).
  { unfold load_byte. rewrite (proj2 (Z.ltb_ge _ _)) by done. pose proof (Hk 0%nat v eq_refl) as Hv. rewrite Z.add_0_r in Hv. by rewrite Hv. }
  rewrite (sbind_ok _ _ _ _ _ Eb), (sbind_ok _ _ _ _ _ (IH (a + 1) s ltac:(lia)
    ltac:(intros i w Hi; rewrite <- (Hk (S i) w Hi); f_equal; lia))). done.
Qed.

(** The call that prints does not look at its pointer: text anywhere in the kernel's part
    of the address space goes to the console of a program that asks for it. *)
Theorem write_prints_kernel_text flag_bits core_id s pid level ptr bytes a4 :
  current_process_on_core (sched (kern (desk s))) !! Z.to_nat core_id = Some pid ->
  USER_MEM_MAX_ADDRESS <= ptr -> zlen bytes < 2 ^ 63 -> utf8_valid bytes = true ->
  (forall i v, bytes !! i = Some v -> kernel_byte P (ptr + Z.of_nat i) = Some v) ->
  exists s', dispatch_syscall USABLE P flag_bits core_id Write (mkArgs level ptr (zlen bytes) a4) s = (Ok (Returned (zlen bytes)), s') /\
    console s' = console s ++ [(level, bytes)] /\ validate_user_ptr ptr 1 = false.
Proof.
  intros Hc Hp Hl Hu Hk. eexists. split; [|split].
  - cbn [dispatch_syscall]. unfold sys_write, raw_parts. cbn [arg1 arg2 arg3].
    unfold sbind at 1. rewrite (sbind_ok _ _ _ _ _ (pid_ok _ _ _ Hc)). unfold USER_MEM_MAX_ADDRESS in Hp.
    rewrite (proj2 (Z.eqb_neq _ _)), (proj2 (Z.ltb_lt _ _)) by lia. cbn [negb andb sassert].
    unfold sbind at 2. unfold sbind at 1. unfold sret at 1. rewrite Nat2Z.id, (load_kernel pid bytes ptr s) by done. rewrite Hu. reflexivity.
  - done.
  - unfold validate_user_ptr, saturating_add, USER_MEM_MAX_ADDRESS in *.
    rewrite (proj2 (Z.leb_gt (Z.min _ _) _)) by lia. by rewrite andb_false_r.
Qed.

End spec.
