(* ===== verification/SyscallsRun.v ===== *)
(** * SyscallsRun: the process table over any run of system calls

    Every call, on any core and with any arguments, keeps pids unique and processes children
    of the first one; who may end whom follows from that. *)

From Stdlib Require Import ZArith Lia.
From stdpp Require Import base tactics list option numbers relations fin_maps gmap.
From S2P Require Import Prelude FxHashMap Disk Fat32 FatDemo FsTypes FileCache FileCacheOk FileCacheIo Sirius SiriusDemo Tasks RunQueue Scheduler Wait FrameAlloc Regions UserMem ProcessMem AddressSpace FlatTables CircularBuffer Elf ElfLoad Processes ProcessesSpec Events Surface Compositor CompositorSpec CompositorFocus Syscalls SyscallsSpec.

Open Scope rust_scope.

(** ** The process table *)

Record families (pm : ProcessManager) : Prop := {
  fam_pids : NoDup (p_pid <$> processes pm);
  fam_bound : Forall (fun p => 0 <= p_pid p < new_pid pm) (processes pm);
  fam_next : 0 <= new_pid pm;
  fam_arche : Forall (fun p => p_parent p = ARCHE_PID) (processes pm);
}.

Lemma families_start : families manager_start.
Proof. split; cbn; try lia; repeat constructor; cbn; try lia; try done. by intros ?%elem_of_nil. Qed.

Lemma families_change pm pid f : families pm -> (forall p, p_pid (f p) = p_pid p) ->
  (forall p, p_parent p = ARCHE_PID -> p_parent (f p) = ARCHE_PID) ->
  families (mkManager (update_process pid f (processes pm)) (new_pid pm)).
Proof.
  intros [Hn Hb Hp Ha] Hf Hfa. split; cbn; [by rewrite update_pids| |done|].
  - apply update_Forall; [done|]. intros q. by rewrite Hf.
  - apply update_Forall; [done|]. auto.
Qed.

Lemma families_more pm n : families pm -> new_pid pm <= n -> families (mkManager (processes pm) n).
Proof. intros [Hn Hb Hp Ha] Hle. split; cbn; try done; [|lia]. revert Hb. apply List.Forall_impl. intros; lia. Qed.

Lemma families_created pm p : families pm -> p_pid p = new_pid pm -> p_parent p = ARCHE_PID ->
  families (mkManager (processes pm ++ [p]) (new_pid pm + 1)).
Proof.
  intros [Hn Hb Hp Ha] Ep Eq. split; cbn; [| |lia|].
  - rewrite fmap_app. apply list.NoDup_app. split; [done|]. split; [|apply NoDup_singleton].
    intros i Hi ->%list_elem_of_singleton. apply list_elem_of_fmap in Hi as (q & Eq' & Hq).
    rewrite list.Forall_forall in Hb. specialize (Hb q Hq). lia.
  - apply Forall_app. split; [revert Hb; apply List.Forall_impl; intros; lia|]. repeat constructor; lia.
  - apply Forall_app. split; [done|]. by repeat constructor.
Qed.

Lemma families_cleanup pm : families pm ->
  families (mkManager (filter (fun p => p_state p <> PTerminated) (processes pm)) (new_pid pm)).
Proof. intros [Hn Hb Hp Ha]. split; cbn; [by apply filter_pids|by apply filter_Forall|done|by apply filter_Forall]. Qed.

Section run.
Context (USABLE : Z) {VA : VirtAddrApi} {PF : PageFlags} {T : Type} {PM : PageMapper USABLE T} {TW : TableWrites T}.
Context {D : Type} `{FilesystemDriver D}.
Variable P : Platform.

Abbreviation Sys := (Syscalls.Sys T D).

Definition on_kern (k : Kernel T) : Prop := families (manager k).
Definition on_desk_kern (d : Desk T) : Prop := on_kern (kern d).
Definition on_sys (s : Sys) : Prop := on_desk_kern (desk s).

(** *** The kernel *)

Lemma holds_scheduler {A} (c : stM Sched Empty_set A) : preserves on_kern (on_scheduler (T:=T) c).
Proof. intros k r k' Hk. unfold on_scheduler. destruct (c (sched k)). by intros [= _ <-]. Qed.

Lemma holds_memory {A} (c : stM (Machine T) MapToError A) : preserves on_kern (on_memory c).
Proof. intros k r k' Hk. unfold on_memory. destruct (c (machine k)). by intros [= _ <-]. Qed.

Lemma holds_get pid : preserves on_kern (get_process (T:=T) pid).
Proof. intros k r k' Hk. unfold get_process. destruct (_ =? _); [|destruct (find_process _ _)]; by intros [= _ <-]. Qed.

Lemma holds_change pid f : (forall p, p_pid (f p) = p_pid p) ->
  (forall p, p_parent p = ARCHE_PID -> p_parent (f p) = ARCHE_PID) -> preserves on_kern (change_process (T:=T) pid f).
Proof. intros Hf Ha k r k' Hk [= _ <-]. by apply families_change. Qed.

Lemma holds_create me cores ktop shared elf name prio :
  preserves on_kern (create_process_from_elf USABLE (task_stack_top P) (user_code_selector P) (user_data_selector P) me cores ktop shared ARCHE_PID elf name prio).
Proof.
  intros k r k' Hk E. unfold on_kern. destruct (create_table _ _ _ _ _ _ _ _ _ _ _ _ _ _ _ E) as [->|(n & -> & [->|[layout ->]])]; [done| |].
  - apply families_more; [done|lia].
  - by apply families_created.
Qed.

#[local] Hint Resolve holds_scheduler holds_memory holds_get holds_create : preserves.

Lemma holds_kill me code l : preserves on_kern (kill_children (T:=T) me code l).
Proof. induction l; cbn [kill_children]; preserves_walk. Qed.

Lemma holds_reparent l : preserves on_kern (reparent_children (T:=T) l).
Proof. induction l; cbn [reparent_children]; preserves_walk; by apply holds_change. Qed.

#[local] Hint Resolve holds_kill holds_reparent : preserves.

Lemma holds_terminate me pid code cascade : preserves on_kern (terminate_process USABLE me pid code cascade).
Proof. unfold terminate_process. preserves_walk; by apply holds_change. Qed.

Lemma holds_cleanup : preserves on_kern (cleanup_dead (T:=T)).
Proof. intros k r k' Hk [= _ <-]. by apply families_cleanup. Qed.

(** *** The windows *)

Lemma holds_gets {A} (f : Desk T -> A) : preserves on_desk_kern (gets f).
Proof. by intros d r d' ? [= _ <-]. Qed.

Lemma holds_comp f : preserves on_desk_kern (on_comp (T:=T) f).
Proof. by intros d r d' ? [= _ <-]. Qed.

Lemma holds_set_pages p : preserves on_desk_kern (set_pages (T:=T) p).
Proof. by intros d r d' ? [= _ <-]. Qed.

Lemma holds_publish_focus id : preserves on_desk_kern (publish_focus (T:=T) id).
Proof. by intros d r d' ? [= _ <-]. Qed.

Lemma holds_page {E A} phys (c : stM EventBuffer E A) : preserves on_desk_kern (on_page (T:=T) phys c).
Proof. intros d r d' Hd. unfold on_page. destruct (pages d !! phys); [destruct (c _)|]; by intros [= _ <-]. Qed.

Lemma holds_frames {A} (c : stM MemoryMapFrameAllocator Empty_set A) : preserves on_desk_kern (on_machine_frames (T:=T) c).
Proof. intros d r d' Hd. unfold on_machine_frames. destruct (c _). by intros [= _ <-]. Qed.

Lemma holds_zeroed : preserves on_desk_kern (zeroed_page (T:=T) USABLE).
Proof. intros d r d' Hd. unfold zeroed_page. destruct (allocate_zeroed_page _ _). by intros [= _ <-]. Qed.

Lemma holds_process {A} pid (c : stM (ProcessMemoryLayout * Machine T) MapToError A) : preserves on_desk_kern (on_process pid c).
Proof.
  intros d r d' Hd. unfold on_process. destruct (_ =? _); [by intros [= _ <-]|]. destruct (find_process _ _); [|by intros [= _ <-]].
  destruct (c _) as [x [l m]]. intros [= _ <-]. by apply families_change.
Qed.

#[local] Hint Resolve holds_gets holds_comp holds_set_pages holds_publish_focus holds_page holds_frames holds_zeroed holds_process : preserves.

Lemma holds_release phys down keys : preserves on_desk_kern (release_keys (T:=T) phys down keys).
Proof. induction keys; cbn [release_keys]; unfold push_to; preserves_walk. Qed.

#[local] Hint Resolve holds_release : preserves.

Lemma holds_focus id : preserves on_desk_kern (focus_window (T:=T) id).
Proof. unfold focus_window, when_buffer, release_held_keys, publish_to. preserves_walk. Qed.

Lemma holds_set_z id z : preserves on_desk_kern (set_z_index (T:=T) id z).
Proof. unfold set_z_index. preserves_walk. Qed.

Lemma holds_event_buffer id pid : preserves on_desk_kern (allocate_event_buffer_for_window USABLE id pid).
Proof. unfold allocate_event_buffer_for_window. preserves_walk. Qed.

#[local] Hint Resolve holds_focus holds_set_z holds_event_buffer : preserves.

Lemma holds_create_window granted w h x y pid : preserves on_desk_kern (create_window USABLE granted w h x y pid).
Proof. unfold create_window. preserves_walk. Qed.

Lemma holds_destroy id : preserves on_desk_kern (destroy_window USABLE id).
Proof. unfold destroy_window. preserves_walk. Qed.

#[local] Hint Resolve holds_create_window holds_destroy : preserves.

Lemma holds_destroy_each ids : preserves on_desk_kern (destroy_each USABLE ids).
Proof. induction ids; cbn [destroy_each]; preserves_walk. Qed.

#[local] Hint Resolve holds_destroy_each : preserves.

Lemma holds_destroy_process pid : preserves on_desk_kern (destroy_windows_of_process USABLE pid).
Proof. unfold destroy_windows_of_process. preserves_walk. Qed.

#[local] Hint Resolve holds_destroy_process : preserves.

(** *** The calls *)

Lemma holds_desk {A} (c : stM (Desk T) Empty_set A) : preserves on_desk_kern c -> preserves on_sys (on_desk (D:=D) c).
Proof. intros Hc s r s' Hs. unfold on_desk. destruct (c (desk s)) eqn:Ec. intros [= _ <-]. by apply (Hc _ _ _ Hs Ec). Qed.

Lemma holds_kernel {A} (c : stM (Kernel T) ProcessError A) : preserves on_kern c -> preserves on_sys (on_kernel (D:=D) c).
Proof. intros Hc s r s' Hs. unfold on_kernel. destruct (c _) eqn:Ec. intros [= _ <-]. by apply (Hc _ _ _ Hs Ec). Qed.

Lemma holds_cores {A} (c : stM Sched Empty_set A) : preserves on_sys (on_cores (T:=T) (D:=D) c).
Proof. intros s r s' Hs. unfold on_cores. destruct (c _). by intros [= _ <-]. Qed.

Lemma holds_files {A} (c : stM (CachedDriver D) FileSystemError A) : preserves on_sys (on_files (T:=T) c).
Proof. intros s r s' Hs. unfold on_files. destruct (c _). by intros [= _ <-]. Qed.

Lemma holds_silent {A} (c : stM Sys Empty_set A) : silent c -> preserves on_sys c.
Proof. intros Hc s r s' Hs E. by apply Hc in E as ->. Qed.

Lemma holds_store_byte pid a v : preserves on_sys (store_byte (D:=D) USABLE pid a v).
Proof. intros s r s' Hs E. apply store_byte_confined in E as (m & f & -> & _). done. Qed.

Lemma holds_store pid bytes a : preserves on_sys (store_bytes (D:=D) USABLE pid a bytes).
Proof. intros s r s' Hs E. apply store_bytes_confined in E as (m & f & -> & _). done. Qed.

#[local] Hint Resolve holds_cores holds_files holds_store : preserves.

#[local] Hint Extern 1 (preserves on_sys (current_pid _)) => (apply holds_silent, silent_pid) : preserves.
#[local] Hint Extern 1 (preserves on_sys (the_process _)) => (apply holds_silent, silent_process) : preserves.
#[local] Hint Extern 1 (preserves on_sys (the_file _ _ _)) => (apply holds_silent, silent_file) : preserves.
#[local] Hint Extern 1 (preserves on_sys (reads _)) => (apply holds_silent, silent_reads) : preserves.
#[local] Hint Extern 1 (preserves on_sys (aligned _)) => (apply holds_silent, silent_aligned) : preserves.
#[local] Hint Extern 1 (preserves on_sys (load_bytes _ _ _ _ _)) => (apply holds_silent, silent_load) : preserves.
#[local] Hint Extern 1 (preserves on_sys (read_user_string _ _ _ _ _)) => (apply holds_silent, silent_string) : preserves.
#[local] Hint Extern 1 (preserves on_sys (on_kernel _)) => (apply holds_kernel; eauto using holds_create, holds_terminate) : preserves.
#[local] Hint Extern 1 (preserves on_sys (on_desk _)) => (apply holds_desk; eauto using holds_create_window, holds_destroy, holds_focus, holds_set_z, holds_destroy_process, holds_process) : preserves.

Lemma holds_change_files pid l : preserves on_sys (change_files (T:=T) (D:=D) pid l).
Proof. unfold change_files. apply preserves_bind; [|intros ?; apply preserves_ret]. apply holds_kernel. by apply holds_change. Qed.

Lemma holds_exit core_id code : preserves on_sys (exit_current (D:=D) USABLE core_id code).
Proof. unfold exit_current. preserves_walk. Qed.

Lemma holds_store_node pid ptr n : preserves on_sys (store_node (D:=D) USABLE pid ptr n).
Proof. unfold store_node. preserves_walk. Qed.

#[local] Hint Resolve holds_change_files holds_exit holds_store_node : preserves.

Lemma holds_store_nodes pid l : forall ptr, preserves on_sys (store_nodes (D:=D) USABLE pid ptr l).
Proof. induction l; intros ptr; cbn [store_nodes]; preserves_walk. Qed.

Lemma holds_by_path {A} core_id f (call : str -> stM (CachedDriver D) FileSystemError A) failed value :
  preserves on_sys (by_path USABLE P core_id f call failed value).
Proof. unfold by_path. preserves_walk. Qed.

Lemma holds_allocate core_id f : preserves on_sys (sys_allocate (D:=D) USABLE core_id f).
Proof.
  unfold sys_allocate. apply preserves_bind; [auto with preserves|]. intros pid. apply preserves_bind; [auto with preserves|]. intros [p|]; [|apply preserves_ret].
  intros s r s' Hs. destruct (allocate_heap _ _ _) as [x [l m]]. intros [= _ <-]. by apply families_change.
Qed.

Lemma holds_write core_id f : preserves on_sys (sys_write (D:=D) USABLE P core_id f).
Proof.
  unfold sys_write, raw_parts. preserves_walk. intros s r s' Hs [= _ <-]. by destruct (utf8_valid _).
Qed.

Lemma holds_present f : preserves on_sys (sys_present_window (T:=T) (D:=D) f).
Proof.
  unfold sys_present_window. preserves_walk. apply holds_desk. intros d r d' Hd. destruct (get_window _ _) as [w|]; [destruct (is_visible w)|]; by intros [= _ <-].
Qed.

Lemma holds_wake core_id : preserves on_sys (sys_futex_wake (T:=T) (D:=D) core_id).
Proof. intros s r s' Hs. unfold sys_futex_wake. destruct (wake_all _ _) as [x [w sc]]. by intros [= _ <-]. Qed.

#[local] Hint Resolve holds_store_nodes holds_by_path holds_allocate holds_write holds_present holds_wake : preserves.

Lemma holds_call flag_bits core_id n f : preserves on_sys (dispatch_syscall USABLE P flag_bits core_id n f).
Proof.
  destruct n; cbn [dispatch_syscall]; [unfold sys_create_process, raw_parts|unfold sys_terminate_process| | |unfold sys_create_window|unfold sys_destroy_window|
    unfold sys_map_window_buffer, map_into| |unfold sys_get_window_size|unfold sys_focus_window|unfold sys_get_window_info|
    unfold sys_open_file|unfold sys_close_file|unfold sys_read_file|unfold sys_write_file|unfold sys_stat_file|unfold sys_list_dir|
    unfold sys_create_file|unfold sys_create_dir|unfold sys_delete|unfold sys_pin_file|unfold sys_unpin_file|unfold sys_reserve_cache|
    unfold sys_evict_directory|unfold sys_get_cache_stats|unfold sys_flush_file_cache|unfold sys_create_circular_buffer|unfold sys_get_cpu_info| | |unfold sys_yield| ];
    preserves_walk.
Qed.

(** ** Runs *)

(** A call on some core, whatever its registers and its end, or the removal of dead processes. *)
Inductive sys_step (s : Sys) : Sys -> Prop :=
  | step_call flag_bits core_id n f r s' : dispatch_syscall USABLE P flag_bits core_id n f s = (r, s') -> sys_step s s'
  | step_reap r k' : cleanup_dead (kern (desk s)) = (r, k') ->
      sys_step s (mkSys (set_kern k' (desk s)) (fs s) (futex_waiters s) (console s))
  | step_scheduled sc : sys_step s (mkSys (set_kern (mkKernel (manager (kern (desk s))) (machine (kern (desk s))) sc (stacks (kern (desk s)))) (desk s)) (fs s) (futex_waiters s) (console s)).

Lemma run_families s s' : rtc sys_step s s' -> on_sys s -> on_sys s'.
Proof.
  induction 1 as [|a b c Hab _ IH]; [done|]. intros Ha. apply IH. destruct Hab as [fb core n f r s' E|r k' E|sc].
  - by apply (holds_call _ _ _ _ _ _ _ Ha E).
  - by apply (holds_cleanup _ _ _ Ha E).
  - done.
Qed.

Lemma find_in pid l p : find_process pid l = Some p -> p ∈ l.
Proof.
  induction l as [|q l IH]; cbn; [done|]. destruct (p_pid q =? pid); [intros [= ->]; left|intros ?; right; auto].
Qed.

(** C17: over any run of system calls on any cores pids stay unique and every process that was
    made is a child of the first one, whoever asked for it; so a process that asks to end
    another is refused unless it is the first one, and nothing changes. *)
Theorem only_arche_ends_others s0 s flag_bits core_id pid target code a3 a4 : manager (kern (desk s0)) = manager_start -> rtc sys_step s0 s ->
  current_process_on_core (sched (kern (desk s))) !! Z.to_nat core_id = Some pid -> pid <> ARCHE_PID -> target <> pid ->
  NoDup (p_pid <$> processes (manager (kern (desk s)))) /\
  Forall (fun p => p_parent p = ARCHE_PID) (processes (manager (kern (desk s)))) /\
  dispatch_syscall USABLE P flag_bits core_id TerminateProcess (mkArgs target code a3 a4) s = (Ok (Returned U64_MAX), s).
Proof.
  intros H0 Hr Hc Hpid Hne. assert (Hf : on_sys s).
  { apply (run_families _ _ Hr). unfold on_sys, on_desk_kern, on_kern. rewrite H0. apply families_start. }
  pose proof (fam_arche _ Hf) as Ha. split; [apply Hf|]. split; [done|].
  cbn [dispatch_syscall]. unfold sys_terminate_process. cbn [arg1 arg2]. rewrite (sbind_ok _ _ _ _ _ (pid_ok _ _ _ Hc)).
  destruct (Z.eqb_spec target INVALID_PID) as [|Hi]; [done|]. destruct (target =? ARCHE_PID); [done|]. cbn [orb].
  unfold sbind at 1, the_process. rewrite (proj2 (Z.eqb_neq _ _)) by done.
  destruct (find_process target _) as [p|] eqn:Ep; [|done]. rewrite list.Forall_forall in Ha.
  rewrite (Ha p (find_in _ _ _ Ep)), !(proj2 (Z.eqb_neq _ _)) by done. done.
Qed.

End run.

(** ** A machine with a program, windows and files

    The process of ProcessesSpec.v runs on core 0 with the file of SiriusDemo.v open; the
    theorems on system calls applied to it. *)

#[local] Existing Instance adapter_driver.
#[local] Instance the_fs : FilesystemDriver MockDiskDevice.MockDiskDevice := fat32_filesystem demo_drv.

Definition demo_platform : Platform := mkPlatform clock (fun slot => (slot + 1) * 16384) 51 43 2 0 [] (Some demo_elf) []
  (fun _ => []) (fun _ => []) (fun a => if a =? 0xFFFF800000000000 then Some 0x4B else if a =? 0xFFFF800000000001 then Some 0x45 else None) true
  [] 0 0 [].

Definition demo_descriptors : list FileDescriptor := [mkFd a_id 3; mkFd 4 1; mkFd 5 1].

Definition demo_running : Kernel FlatTables :=
  let k := demo_created.2 in
  mkKernel (mkManager (update_process 1 (set_files demo_descriptors) (processes (manager k))) (new_pid (manager k)))
    (mkMachine (tables (machine k)) (frames (machine k)) (fun b => b mod 251))
    (set_current [0; INVALID_SLOT; INVALID_SLOT; INVALID_SLOT] [1; INVALID_PID; INVALID_PID; INVALID_PID] (sched k)) (stacks k).

Definition demo_sys : Sys FlatTables MockDiskDevice.MockDiskDevice :=
  mkSys (desk_start 64 48 demo_running new_buffer waiter_list_new) a_cached waiter_list_new [].

Definition demo_process : Process := set_files demo_descriptors (default arche (find_process 1 (processes (manager demo_created.2)))).

(** Page 4096 of the process may be written, page 8192 only read, page 0 is not there. *)
Example demo_mapping : (user_mapping 0 demo_sys 1 <$> [5000; 9000; 100]) = [Some (8192, 7); Some (12288, 9223372036854775813); None].
Proof. vm_compute. reflexivity. Qed.

Lemma demo_find : find_process 1 (processes (manager (kern (desk demo_sys)))) = Some demo_process.
Proof. vm_compute. reflexivity. Qed.

Lemma demo_opened fd d : demo_descriptors !! Z.to_nat fd = Some d -> 0 <= fd -> opened demo_sys 0 1 fd demo_process d.
Proof. intros Hd Hfd. split; [reflexivity|discriminate|apply demo_find|done|exact Hd]. Qed.

Lemma demo_readable : readable 0 demo_sys 1 9000 2.
Proof.
  split; [unfold USER_MEM_MAX_ADDRESS; lia|]. intros a Ha. assert (E : a = 9000 \/ a = 9001) by lia.
  exists (12288, 9223372036854775813). destruct E as [-> | ->]; vm_compute; reflexivity.
Qed.

Lemma demo_phys a : 5000 <= a < 5002 -> user_mapping 0 demo_sys 1 a = Some (8192, 7).
Proof. intros Ha. assert (E : a = 5000 \/ a = 5001) by lia. destruct E as [-> | ->]; vm_compute; reflexivity. Qed.

Lemma demo_writable : writable 0 demo_sys 1 5000 2.
Proof.
  split.
  - intros a Ha. exists 8192, 7. unfold phys_of. rewrite demo_phys by done. done.
  - intros a b Ha Hb. unfold phys_of. rewrite !demo_phys by done. unfold PAGE_SIZE.
    assert (Ea : a = 5000 \/ a = 5001) by lia. assert (Eb : b = 5000 \/ b = 5001) by lia.
    destruct Ea as [-> | ->], Eb as [-> | ->]; (done || discriminate).
Qed.

(** Two bytes of the program, written to the end of the file, come back. *)
Lemma file_write_then_read_witness : exists s1 s2,
  dispatch_syscall 0 demo_platform 7 0 WriteFile (mkArgs 0 599 9000 2) demo_sys = (Ok (Returned 2), s1) /\
  dispatch_syscall 0 demo_platform 7 0 ReadFile (mkArgs 0 599 5000 2) s1 = (Ok (Returned 2), s2) /\
  user_bytes 0 s2 1 5000 2 = [44; 45] /\ content (fs s2) a_id = Some (patched a_bytes 599 [44; 45]).
Proof.
  assert (Hd : user_bytes 0 demo_sys 1 9000 2 = [44; 45]) by (vm_compute; reflexivity).
  destruct (file_write_then_read 0 demo_platform 7 0 demo_sys 1 0 demo_process (mkFd a_id 3) a_bytes (new_cached 0 600 1 Normal) a_node 599 9000 5000 2)
    as (s1 & s2 & E1 & E2 & Eb & Ec & _).
  - by apply demo_opened.
  - discriminate.
  - discriminate.
  - apply a_cached_ok.
  - apply a_cached_ok.
  - vm_compute. reflexivity.
  - vm_compute. reflexivity.
  - intros _. left. vm_compute. split; [reflexivity|discriminate].
  - exists 0%nat. split; [|vm_compute; reflexivity]. apply Nat.ltb_lt. vm_compute. reflexivity.
  - lia.
  - lia.
  - lia.
  - reflexivity.
  - reflexivity.
  - apply demo_readable.
  - apply demo_writable.
  - change (Z.to_nat 2) with 2%nat in *. rewrite Hd in Eb, Ec. exists s1, s2. split; [exact E1|]. split; [exact E2|]. split; [exact Eb|exact Ec].
Defined.

(** Closing file 0 leaves number 2 to nothing and moves that file to number 0. *)
Lemma close_renumbers_witness : exists s' p',
  dispatch_syscall 0 demo_platform 7 0 CloseFile (mkArgs 0 0 0 0) demo_sys = (Ok (Returned 0), s') /\
  opened s' 0 1 0 p' (mkFd 5 1) /\ the_file 1 2 1 s' = (Ok None, s').
Proof.
  destruct (close_renumbers 0 demo_platform 7 0 demo_sys 1 0 demo_process (mkFd a_id 3) 2 (mkFd 5 1) 0 0 0) as (s' & p' & E & Ho & _ & Hn).
  - by apply demo_opened.
  - by apply demo_opened.
  - reflexivity.
  - discriminate.
  - exists s', p'. split; [exact E|]. split; [exact Ho|exact (Hn 1)].
Defined.

Lemma unmapped_path_halts_witness :
  validate_user_ptr 100 4 = true /\ (dispatch_syscall 0 demo_platform 7 0 OpenFile (mkArgs 100 4 1 0) demo_sys).1 = Panic.
Proof.
  split; [reflexivity|]. apply (unmapped_path_halts 0 demo_platform 7 0 OpenFile (mkArgs 100 4 1 0) demo_sys 1 101); try done.
Defined.

Lemma write_prints_kernel_text_witness : exists s',
  dispatch_syscall 0 demo_platform 7 0 Write (mkArgs 1 0xFFFF800000000000 2 0) demo_sys = (Ok (Returned 2), s') /\ console s' = [(1, [0x4B; 0x45])].
Proof.
  destruct (write_prints_kernel_text 0 demo_platform 7 0 demo_sys 1 1 0xFFFF800000000000 [0x4B; 0x45] 0) as (s' & E & Ec & _).
  - reflexivity.
  - discriminate.
  - reflexivity.
  - reflexivity.
  - intros [|[|i]] v Hi; cbn in Hi; [by injection Hi as <-..|done].
  - exists s'. split; [exact E|exact Ec].
Defined.

(** The cached file is read into the page of the program; the byte behind 5000 has changed. *)
Lemma calls_confined_witness : exists m f,
  (dispatch_syscall 0 demo_platform 7 0 ReadFile (mkArgs 0 511 5000 2) demo_sys).2 = with_memory m f demo_sys /\
  forall b, m b <> mem demo_sys b -> exists a, 5000 <= a < 5002 /\ writable_at 0 demo_sys 1 a b.
Proof.
  destruct (calls_confined 0 demo_platform 7 0 ReadFile (mkArgs 0 511 5000 2) demo_sys
    (dispatch_syscall 0 demo_platform 7 0 ReadFile (mkArgs 0 511 5000 2) demo_sys).1
    (dispatch_syscall 0 demo_platform 7 0 ReadFile (mkArgs 0 511 5000 2) demo_sys).2 5000 2) as (m & f & E & Hb).
  - reflexivity.
  - repeat constructor; done.
  - done.
  - apply surjective_pairing.
  - exists m, f. split; [exact E|]. intros b Hne. destruct (Hb b Hne) as (a & Ha & _ & _ & Hw). exists a. split; [exact Ha|exact Hw].
Defined.

(** From the start two programs are made; the first of them is refused when it asks for the end
    of the second. *)
Definition start_sys : Sys FlatTables MockDiskDevice.MockDiskDevice :=
  let k := mkKernel manager_start (mkMachine ∅ (init [mkEntry 4096 0x800000 0]) (fun b => b mod 251))
    (set_current [0; INVALID_SLOT; INVALID_SLOT; INVALID_SLOT] [0; INVALID_PID; INVALID_PID; INVALID_PID] sched_new) [] in
  mkSys (desk_start 64 48 k new_buffer waiter_list_new) a_cached waiter_list_new [].

Definition call (n : SyscallNumber) (f : SyscallFrame) (s : Sys FlatTables MockDiskDevice.MockDiskDevice) := (dispatch_syscall 0 demo_platform 7 0 n f s).2.

Definition run_on_core_0 (pid : Z) (s : Sys FlatTables MockDiskDevice.MockDiskDevice) :=
  let k := kern (desk s) in
  mkSys (set_kern (mkKernel (manager k) (machine k)
    (set_current [0; INVALID_SLOT; INVALID_SLOT; INVALID_SLOT] [pid; INVALID_PID; INVALID_PID; INVALID_PID] (sched k)) (stacks k)) (desk s))
    (fs s) (futex_waiters s) (console s).

Definition two_programs := run_on_core_0 1 (call CreateProcess (mkArgs 1 0 1 0) (call CreateProcess (mkArgs 1 0 1 0) start_sys)).

Lemma only_arche_ends_others_witness :
  (p_pid <$> processes (manager (kern (desk two_programs)))) = [0; 1; 2] /\
  dispatch_syscall 0 demo_platform 7 0 TerminateProcess (mkArgs 2 9 0 0) two_programs = (Ok (Returned U64_MAX), two_programs).
Proof.
  split; [vm_compute; reflexivity|].
  apply (only_arche_ends_others 0 demo_platform start_sys two_programs 7 0 1 2 9 0 0).
  - reflexivity.
  - eapply rtc_l; [eapply (step_call 0 demo_platform start_sys 7 0 CreateProcess (mkArgs 1 0 1 0)); apply surjective_pairing|].
    eapply rtc_l; [eapply (step_call 0 demo_platform _ 7 0 CreateProcess (mkArgs 1 0 1 0)); apply surjective_pairing|].
    apply rtc_once. apply step_scheduled.
  - reflexivity.
  - discriminate.
  - discriminate.
Defined.
