(* ===== verification/UserCalls.v ===== *)
(** * The system calls of user programs: user/rustspace/src/lib.rs

    [syscall6] in assembly runs on the machine of Machine.v; the wrappers above it run over
    any kernel ([UserKernel]), of which Syscalls.v gives one ([sys_kernel] in
    UserCallsSpec.v).  A slice is its address and its length.  The program that ends stops
    with [Ended].  Then the codes of keys and the reader of the event page. *)

From Stdlib Require Import ZArith Lia.
From stdpp Require Import base tactics gmap list numbers option.
From S2P Require Import Prelude Machine Events.

Open Scope rust_scope.

(** ** Numbers *)

Definition SYS_CREATE_PROCESS : Z := 0.
Definition SYS_TERMINATE_PROCESS : Z := 1.
Definition SYS_WRITE : Z := 2.
Definition SYS_ALLOCATE : Z := 5.
Definition SYS_CREATE_WINDOW : Z := 10.
Definition SYS_DESTROY_WINDOW : Z := 11.
Definition SYS_MAP_WINDOW_BUFFER : Z := 12.
Definition SYS_PRESENT_WINDOW : Z := 13.
Definition SYS_GET_WINDOW_SIZE : Z := 14.
Definition SYS_GET_WINDOW_INFO : Z := 16.
Definition SYS_OPEN_FILE : Z := 20.
Definition SYS_CLOSE_FILE : Z := 21.
Definition SYS_READ_FILE : Z := 22.
Definition SYS_WRITE_FILE : Z := 23.
Definition SYS_STAT_FILE : Z := 24.
Definition SYS_LIST_DIR : Z := 25.
Definition SYS_CREATE_FILE : Z := 26.
Definition SYS_CREATE_DIR : Z := 27.
Definition SYS_DELETE : Z := 28.
Definition SYS_CREATE_CIRCULAR_BUFFER : Z := 600.
Definition SYS_GET_CPU_INFO : Z := 970.
Definition SYS_SLEEP_MS : Z := 990.
Definition SYS_WAIT_FOR_INPUT : Z := 991.
Definition SYS_FUTEX_WAIT : Z := 992.
Definition SYS_FUTEX_WAKE : Z := 993.
Definition SYS_ECHO : Z := 997.
Definition SYS_YIELD : Z := 998.
Definition SYS_EXIT : Z := 999.

Definition DIR_ENTRY_SIZE : Z := 40.
Definition CPU_INFO_SIZE : Z := 48.

(** ** On the machine *)

(** [syscall6]: the arguments in their registers, the instruction, the kernel, the result. *)
Definition syscall6_asm (kernel : MachM unit) (num a1 a2 a3 a4 a5 a6 : Z) : MachM Z :=
  put RAX num ;;; put RDI a1 ;;; put RSI a2 ;;; put RDX a3 ;;; put RCX a4 ;;; put R8 a5 ;;; put R9 a6 ;;;
  exec [Mov R10 RCX] ;;;
  syscall_entry ;;;
  kernel ;;;
  get RAX.

(** ** The wrappers *)

Inductive Ended : Type := ended.

(** The kernel as a program sees it: [syscall6] on the state [W] of the system. *)
Class UserKernel (W : Type) : Type :=
  syscall6 : Z -> Z -> Z -> Z -> Z -> Z -> Z -> stM W Ended Z.

(** [as] between the widths: to u64 from i32, and back to u32. *)
Definition i32_as_u64 (x : Z) : Z := wrap 64 x.
Definition as_u32 (x : Z) : Z := wrap 32 x.

Definition failed_or {A} (ret : Z) (none : A) (value : A) : A := if ret =? U64_MAX then none else value.

Module User.
Section wrappers.
Context {W : Type} `{UserKernel W}.

Abbreviation UM := (stM W Ended).

Definition syscall1 (num a1 : Z) : UM Z := syscall6 num a1 0 0 0 0 0.
Definition syscall2 (num a1 a2 : Z) : UM Z := syscall6 num a1 a2 0 0 0 0.
Definition syscall3 (num a1 a2 a3 : Z) : UM Z := syscall6 num a1 a2 a3 0 0 0.
Definition syscall4 (num a1 a2 a3 a4 : Z) : UM Z := syscall6 num a1 a2 a3 a4 0 0.
Definition syscall5 (num a1 a2 a3 a4 a5 : Z) : UM Z := syscall6 num a1 a2 a3 a4 a5 0.

Definition as_i64 (x : Z) : Z := if x <? 2 ^ 63 then x else x - 2 ^ 64.

Definition sys_write (fd buf count : Z) : UM Z := let! r := syscall3 SYS_WRITE fd buf count in sret (as_i64 r).
(** The loop after the call is never reached. *)
Definition sys_exit (code : Z) : UM unit := syscall1 SYS_EXIT (i32_as_u64 code) ;;; sret tt.
Definition sys_terminate_process (pid exit_code : Z) : UM bool :=
  let! r := syscall2 SYS_TERMINATE_PROCESS pid (i32_as_u64 exit_code) in sret (r =? 0).
Definition sys_yield : UM unit := syscall1 SYS_YIELD 0 ;;; sret tt.
Definition sys_sleep_ms (duration_ms : Z) : UM unit := syscall1 SYS_SLEEP_MS duration_ms ;;; sret tt.
Definition sys_wait_for_input : UM unit := syscall1 SYS_WAIT_FOR_INPUT 0 ;;; sret tt.
Definition sys_futex_wait (word expected : Z) : UM unit := syscall2 SYS_FUTEX_WAIT word expected ;;; sret tt.
Definition sys_futex_wake : UM unit := syscall1 SYS_FUTEX_WAKE 0 ;;; sret tt.
Definition sys_echo (val : Z) : UM Z := syscall1 SYS_ECHO val.
Definition sys_allocate (size : Z) : UM Z := syscall1 SYS_ALLOCATE size.

Definition sys_create_process (elf_path elf_path_len name name_len args args_len : Z) : UM Z :=
  let! r := syscall6 SYS_CREATE_PROCESS elf_path elf_path_len name name_len args args_len in sret (as_u32 r).

Definition sys_create_window (width height x y : Z) : UM Z :=
  let! r := syscall6 SYS_CREATE_WINDOW width height (i32_as_u64 x) (i32_as_u64 y) 0 0 in sret (as_u32 r).
Definition sys_destroy_window (window_id : Z) : UM unit := syscall1 SYS_DESTROY_WINDOW window_id ;;; sret tt.
(** A null pointer on failure. *)
Definition sys_map_window_buffer (window_id : Z) : UM Z :=
  let! addr := syscall1 SYS_MAP_WINDOW_BUFFER window_id in sret (failed_or addr 0 addr).
Definition sys_present_window (window_id : Z) : UM unit := syscall1 SYS_PRESENT_WINDOW window_id ;;; sret tt.
Definition sys_get_window_size (window_id : Z) : UM (Z * Z) :=
  let! packed := syscall1 SYS_GET_WINDOW_SIZE window_id in
  sret (failed_or packed (0, 0) (as_u32 (Z.shiftr packed 32), as_u32 (Z.land packed 0xFFFFFFFF))).
Definition sys_get_window_info (window_id out_info : Z) : UM bool :=
  let! r := syscall2 SYS_GET_WINDOW_INFO window_id out_info in sret (negb (r =? U64_MAX)).

Definition sys_open_file (path path_len flags : Z) : UM Z :=
  let! r := syscall3 SYS_OPEN_FILE path path_len flags in sret (failed_or r U64_MAX r).
Definition sys_close_file (fd : Z) : UM bool := let! r := syscall1 SYS_CLOSE_FILE fd in sret (negb (r =? U64_MAX)).
Definition sys_read_file_at (fd offset buf len : Z) : UM Z :=
  let! r := syscall4 SYS_READ_FILE fd offset buf len in sret (failed_or r U64_MAX r).
Definition sys_read_file (fd buf len : Z) : UM Z :=
  let! r := syscall4 SYS_READ_FILE fd 0 buf len in sret (failed_or r U64_MAX r).
Definition sys_write_file (fd offset buf len : Z) : UM Z :=
  let! r := syscall4 SYS_WRITE_FILE fd offset buf len in sret (failed_or r U64_MAX r).
Definition sys_stat_file (path path_len out_stat : Z) : UM bool :=
  let! r := syscall3 SYS_STAT_FILE path path_len out_stat in sret (negb (r =? U64_MAX)).
(** The length of the entries in bytes, checked. *)
Definition sys_list_dir (path path_len entries count : Z) : UM Z :=
  let! byte_len := slift (if count * DIR_ENTRY_SIZE <? 2 ^ 64 then Ok (count * DIR_ENTRY_SIZE) else Panic) in
  let! r := syscall6 SYS_LIST_DIR path path_len entries byte_len 0 0 in sret (failed_or r U64_MAX r).
Definition sys_create_file (path path_len : Z) : UM bool :=
  let! r := syscall3 SYS_CREATE_FILE path path_len 0 in sret (negb (r =? U64_MAX)).
Definition sys_create_dir (path path_len : Z) : UM bool :=
  let! r := syscall3 SYS_CREATE_DIR path path_len 0 in sret (negb (r =? U64_MAX)).
Definition sys_delete (path path_len : Z) : UM bool :=
  let! r := syscall3 SYS_DELETE path path_len 0 in sret (negb (r =? U64_MAX)).
Definition sys_create_circular_buffer (size page_flags out : Z) : UM bool :=
  let! r := syscall3 SYS_CREATE_CIRCULAR_BUFFER size page_flags out in sret (negb (r =? U64_MAX)).
Definition sys_get_cpu_info (out_info : Z) : UM bool :=
  let! r := syscall2 SYS_GET_CPU_INFO out_info CPU_INFO_SIZE in sret (r =? 0).

Definition sys_pin_file (path len : Z) : UM Z := syscall4 30 path len 0 0.
Definition sys_unpin_file (path len : Z) : UM Z := syscall4 31 path len 0 0.
Definition sys_reserve_cache (path len importance : Z) : UM Z := syscall4 32 path len importance 0.
Definition sys_evict_directory (path len : Z) : UM Z := syscall4 33 path len 0 0.
Definition sys_get_cache_stats (stats : Z) : UM bool := let! r := syscall4 34 stats 0 0 0 in sret (r =? 0).
Definition sys_flush_file_cache : UM bool := let! r := syscall1 35 0 in sret (r =? 0).

(** [alloc_error] *)
Definition alloc_error (message : Z) : UM unit := sys_write 2 message 12 ;;; sys_exit 1.

End wrappers.
End User.

(** ** Key codes: one byte each, in the order of the declaration *)

Module KeyCode.

Inductive t : Type :=
  | Escape | F1 | F2 | F3 | F4 | F5 | F6 | F7 | F8 | F9 | F10 | F11 | F12 | PrintScreen | SysRq | ScrollLock
    | PauseBreak | Oem8 | Key1 | Key2 | Key3 | Key4 | Key5 | Key6 | Key7 | Key8 | Key9 | Key0 | OemMinus
    | OemPlus | Backspace | Insert | Home | PageUp | NumpadLock | NumpadDivide | NumpadMultiply
    | NumpadSubtract | Tab | Q | W | E | R | T | Y | U | I | O | P | Oem4 | Oem6 | Oem5 | Oem7 | Delete | End
    | PageDown | Numpad7 | Numpad8 | Numpad9 | NumpadAdd | CapsLock | A | S | D | F | G | H | J | K | L | Oem1
    | Oem3 | Return | Numpad4 | Numpad5 | Numpad6 | LShift | Z | X | C | V | B | N | M | OemComma | OemPeriod
    | Oem2 | RShift | ArrowUp | Numpad1 | Numpad2 | Numpad3 | NumpadEnter | LControl | LWin | LAlt | Spacebar
    | RAltGr | RWin | Apps | RControl | ArrowLeft | ArrowDown | ArrowRight | Numpad0 | NumpadPeriod | Oem9
    | Oem10 | Oem11 | Oem12 | Oem13 | PrevTrack | NextTrack | Mute | Calculator | Play | Stop | VolumeDown
    | VolumeUp | WWWHome | PowerOnTestOk | TooManyKeys | RControl2 | RAlt2.

Definition all : list t :=
  [Escape; F1; F2; F3; F4; F5; F6; F7; F8; F9; F10; F11; F12; PrintScreen; SysRq; ScrollLock; PauseBreak;
   Oem8; Key1; Key2; Key3; Key4; Key5; Key6; Key7; Key8; Key9; Key0; OemMinus; OemPlus; Backspace;
   Insert; Home; PageUp; NumpadLock; NumpadDivide; NumpadMultiply; NumpadSubtract; Tab; Q; W; E; R; T;
   Y; U; I; O; P; Oem4; Oem6; Oem5; Oem7; Delete; End; PageDown; Numpad7; Numpad8; Numpad9; NumpadAdd;
   CapsLock; A; S; D; F; G; H; J; K; L; Oem1; Oem3; Return; Numpad4; Numpad5; Numpad6; LShift; Z; X; C;
   V; B; N; M; OemComma; OemPeriod; Oem2; RShift; ArrowUp; Numpad1; Numpad2; Numpad3; NumpadEnter;
   LControl; LWin; LAlt; Spacebar; RAltGr; RWin; Apps; RControl; ArrowLeft; ArrowDown; ArrowRight;
   Numpad0; NumpadPeriod; Oem9; Oem10; Oem11; Oem12; Oem13; PrevTrack; NextTrack; Mute; Calculator;
   Play; Stop; VolumeDown; VolumeUp; WWWHome; PowerOnTestOk; TooManyKeys; RControl2; RAlt2].

End KeyCode.

#[export] Instance KeyCode_eq_dec : EqDecision KeyCode.t.
Proof. solve_decision. Defined.

(** [key as usize] *)
Definition key_index (key : KeyCode.t) : Z :=
  match list_find (eq key) KeyCode.all with Some (i, _) => Z.of_nat i | None => 0 end.


(** ** The reader of the event page *)

(** One access of [EventReader::try_read]. *)
Definition try_read_step (r : Reader) (b : EventBuffer)
    : result Empty_set (Reader * option (option InputEvent) * EventBuffer) :=
  match r with
  | RIdle => Ok (if event_count b =? 0 then (RIdle, Some None, b) else (RHasOne, None, b))
  | RHasOne => Ok (RAt (read_idx b), None, b)
  | RAt idx =>
      if MAX_EVENT_COUNT <=? idx then
        Ok (RIdle, Some None, mkBuffer (write_idx b) 0 (event_count b) (events b) (shared_modifiers b) (shared_key_down b))
      else match events b !! Z.to_nat idx with
      | None => Panic
      | Some e => Ok (RTaken e idx, None, b)
      end
  | RTaken e idx =>
      Ok (RAdvanced e, None, mkBuffer (write_idx b) ((idx + 1) mod MAX_EVENT_COUNT) (event_count b) (events b) (shared_modifiers b) (shared_key_down b))
  | RAdvanced e =>
      Ok (RIdle, Some (Some e), mkBuffer (write_idx b) (read_idx b) (wrap 32 (event_count b - 1)) (events b) (shared_modifiers b) (shared_key_down b))
  end.

Definition has_events (b : EventBuffer) : bool := 0 <? event_count b.
Definition reader_modifiers (b : EventBuffer) : Z := Z.land (shared_modifiers b) MODIFIER_BITS.

Definition is_key_down (key : KeyCode.t) (b : EventBuffer) : result Empty_set bool :=
  let index := key_index key in
  match shared_key_down b !! Z.to_nat (index / BITS_PER_WORD) with
  | None => Panic
  | Some word => Ok (negb (Z.land word (Z.shiftl 1 (index mod BITS_PER_WORD)) =? 0))
  end.

(** A ring with the kernel's writer and the program's reader. *)
Inductive page_step : Ring -> Ring -> Prop :=
  | page_write s event w res b :
      push_step event (writer s) (buffer s) = Ok (w, res, b) ->
      page_step s (mkRing b w (reader s)
        (match res with Some (Ok e) => sent s ++ [e] | _ => sent s end) (got s))
  | page_read s r res b :
      try_read_step (reader s) (buffer s) = Ok (r, res, b) ->
      page_step s (mkRing b (writer s) r (sent s)
        (match res with Some (Some e) => got s ++ [e] | _ => got s end)).
