(* ===== verification/UserEntry.v ===== *)
(** * A call of the kernel, across the assembly of both sides

    [syscall6] of user/rustspace/src/lib.rs with [syscall_handler] of process/syscall.rs. *)

From Stdlib Require Import ZArith Lia.
From stdpp Require Import base tactics gmap list numbers option.
From S2P Require Import Prelude Interrupts Machine Contexts ContextsSpec Switching UserCalls.

Open Scope rust_scope.

(** What the kernel finds of a call made with [m]. *)
Definition calling_frame (num a1 a2 a3 a4 a5 a6 : Z) (m : Machine) : SyscallRegs.t :=
  let g := gprs m in
  SyscallRegs.mk (g R15) (g R14) (g R13) (g R12) (g RBP) (g RBX) a6 a5 a4 a3 a2 a1 num (RFLAGS m) (RIP m) (g RSP).

(** The registers [syscall6] says it writes. *)
Definition syscall6_writes : list Reg := [RAX; RDI; RSI; RDX; RCX; R8; R9; R10; R11].

(** C12: the number and the six arguments a program passes to [syscall6] are those the kernel's
    frame holds, the result of the dispatch is what it returns, and it comes back to the same
    place, in user mode, with every register kept that the assembly does not name. *)
Theorem syscall6_passes base top room slot h ra dispatch work num a1 a2 a3 a4 a5 a6 m :
  0 <= room -> abi base top room work -> kernel_ready top slot h m -> stack_mapped base top m ->
  top mod 16 = 0 -> base + room + 8 + 16 * 8 <= top ->
  exists m', syscall6_asm (exec (syscall_handler ra (handle_syscall_inner dispatch work))) num a1 a2 a3 a4 a5 a6 m
      = (Ok (dispatch (calling_frame num a1 a2 a3 a4 a5 a6 m)), m') /\
    (forall r, r ∉ syscall6_writes -> gprs m' r = gprs m r) /\
    RIP m' = RIP m /\ RFLAGS m' = sysret_flags (RFLAGS m) /\ CS m' = USER_CODE_SELECTOR_VALUE /\ SS m' = USER_DATA_SELECTOR_VALUE.
Proof.
  intros Hroom Hx Hready Hs Ha Hr.
  set (m0 := with_reg R10 a4 (with_reg R9 a6 (with_reg R8 a5 (with_reg RCX a4 (with_reg RDX a3 (with_reg RSI a2
    (with_reg RDI a1 (with_reg RAX num m)))))))).
  destruct (syscall_returns base top room Hroom slot h ra dispatch work m0) as (m1 & m' & E1 & _ & _ & _ & E2 & Hax & _ & _ & Hg & Hk);
    [done|by destruct Hready|exact Hs|done|done|].
  exists m'. split; [|split; [|exact Hk]].
  - transitivity (sbind syscall_entry (fun _ => exec (syscall_handler ra (handle_syscall_inner dispatch work)) ;;; get RAX) m0); [done|].
    rewrite (sbind_ok _ _ _ _ _ E1), (sbind_ok _ _ _ _ _ E2). unfold get. by rewrite Hax.
  - intros r Hn. rewrite Hg by (intros Hin; apply Hn; set_solver). destruct r; try done; exfalso; apply Hn; decided.
Qed.

Lemma syscall6_passes_witness :
  let m := demo_machine USER_CODE_SELECTOR_VALUE USER_DATA_SELECTOR_VALUE demo_regs in
  exists m', syscall6_asm (exec (syscall_handler 1 (handle_syscall_inner demo_dispatch clobber))) 600 64 7 0x9000 5 0 0 m = (Ok 600005, m') /\
    gprs m' RBX = 7 /\ gprs m' RSP = 0x8FF8 /\ RIP m' = 0x401000.
Proof.
  intros m.
  destruct (syscall6_passes 0 320 16 0x1000 0xFFFF800000001000 1 demo_dispatch clobber 600 64 7 0x9000 5 0 0 m) as (m' & E & Hg & Hip & _).
  - lia.
  - apply clobber_abi.
  - constructor; vm_compute; try reflexivity. by eexists.
  - apply demo_stack.
  - by vm_compute.
  - lia.
  - exists m'. split; [exact E|]. rewrite !Hg by decided. split; [by vm_compute|]. split; [by vm_compute|]. rewrite Hip. by vm_compute.
Defined.
