(* ===== verification/UserCallsSpec.v ===== *)
(** * What the wrappers of user programs come to

    The kernel of Syscalls.v as the one the wrappers of UserCalls.v call, by the numbers of
    the enumeration ([sys_kernel]); a file written and read through them; the event page,
    whose reader in the program takes the steps of the kernel's own. *)

From Stdlib Require Import ZArith Lia.
From stdpp Require Import base tactics gmap list numbers option relations fin_maps.
From S2P Require Import Prelude Disk Fat32 FatTable FatDemo FxHashMap FsTypes FileCache FileCacheOk FileCacheIo SiriusDemo Sirius Tasks RunQueue Scheduler Wait FrameAlloc Regions UserMem ProcessMem AddressSpace FlatTables CircularBuffer Elf ElfLoad Processes ProcessesSpec Events Surface Compositor Syscalls SyscallsSpec SyscallsRun UserCalls.

Open Scope rust_scope.

(** ** The kernel behind the numbers *)

(** A number the enumeration has: a call of the dispatch, one that waits, one without an arm. *)
Inductive Numbered : Type :=
  | ACall (n : SyscallNumber)
  | Waits
  | NoArm.

Definition number_of (num : Z) : option Numbered :=
  match num with
  | 0 => Some (ACall CreateProcess) | 1 => Some (ACall TerminateProcess) | 2 => Some (ACall Write)
  | 3 | 4 => Some NoArm
  | 5 => Some (ACall Allocate)
  | 8 | 9 => Some NoArm
  | 10 => Some (ACall CreateWindow) | 11 => Some (ACall DestroyWindow) | 12 => Some (ACall MapWindowBuffer)
  | 13 => Some (ACall PresentWindow) | 14 => Some (ACall GetWindowSize) | 15 => Some (ACall FocusWindow)
  | 16 => Some (ACall GetWindowInfo)
  | 20 => Some (ACall OpenFile) | 21 => Some (ACall CloseFile) | 22 => Some (ACall ReadFile)
  | 23 => Some (ACall WriteFile) | 24 => Some (ACall StatFile) | 25 => Some (ACall ListDir)
  | 26 => Some (ACall CreateFile) | 27 => Some (ACall CreateDir) | 28 => Some (ACall Delete)
  | 30 => Some (ACall PinFile) | 31 => Some (ACall UnpinFile) | 32 => Some (ACall ReserveCache)
  | 33 => Some (ACall EvictDirectory) | 34 => Some (ACall GetCacheStats) | 35 => Some (ACall FlushFileCache)
  | 600 => Some (ACall CreateCircularBuffer)
  | 990 | 991 | 992 => Some Waits
  | 993 => Some (ACall FutexWake)
  | 970 => Some (ACall GetCpuInfo)
  | 996 => Some NoArm
  | 997 => Some (ACall GetPID) | 998 => Some (ACall Yield) | 999 => Some (ACall Exit)
  | _ => None
  end.

Section kernel.
Context (USABLE : Z) {VA : VirtAddrApi} {PF : PageFlags} {T : Type} {PM : PageMapper USABLE T} {TW : TableWrites T}.
Context {D : Type} `{FilesystemDriver D}.
Variable P : Platform.
Variables (flag_bits core_id : Z).

(** The loops of the calls that wait: Syscalls.v has their turns, other cores run between them. *)
Variable waits : Z -> SyscallFrame -> stM (Sys T D) Ended Z.

(** The enumeration of any other number is undefined behaviour. *)
Definition sys_kernel : UserKernel (Sys T D) := fun num a1 a2 a3 a4 a5 a6 s =>
  match number_of num with
  | None => (Panic, s)
  | Some NoArm => (Ok U64_MAX, s)
  | Some Waits => waits num (mkArgs a1 a2 a3 a4) s
  | Some (ACall n) =>
      match dispatch_syscall USABLE P flag_bits core_id n (mkArgs a1 a2 a3 a4) s with
      | (Ok (Returned v), s) => (Ok v, s)
      | (Ok Exited, s) => (Err ended, s)
      | (Err e, s) => match (e : Empty_set) with end
      | (Panic, s) => (Panic, s)
      | (OutOfFuel, s) => (OutOfFuel, s)
      end
  end.

#[local] Existing Instance sys_kernel.

Lemma kernel_call num n a1 a2 a3 a4 a5 a6 s v s' : number_of num = Some (ACall n) ->
  dispatch_syscall USABLE P flag_bits core_id n (mkArgs a1 a2 a3 a4) s = (Ok (Returned v), s') ->
  syscall6 num a1 a2 a3 a4 a5 a6 s = (Ok v, s').
Proof. intros En E. unfold syscall6, sys_kernel. by rewrite En, E. Qed.

(** Whatever it is asked, the number the program calls echo gives its process. *)
Lemma echo_gives_pid val s pid : current_process_on_core (sched (kern (desk s))) !! Z.to_nat core_id = Some pid ->
  User.sys_echo val s = (Ok pid, s).
Proof.
  intros E. eapply kernel_call; [done|]. cbn [dispatch_syscall]. by rewrite (sbind_ok _ _ _ _ _ (pid_ok s core_id pid E)).
Qed.

(** The size of a window survives the packing into one register. *)
Lemma window_size_unpacks id s w : 0 <= id < 2 ^ 32 -> get_window (windows (comp (desk s))) id = Some w -> is_visible w = true ->
  0 <= wb_width (buffer w) < 2 ^ 31 -> 0 <= wb_height (buffer w) < 2 ^ 32 ->
  User.sys_get_window_size id s = (Ok (wb_width (buffer w), wb_height (buffer w)), s).
Proof.
  intros Hid Hw Hv Hwd Hht. set (wd := wb_width (buffer w)) in *. set (ht := wb_height (buffer w)) in *.
  assert (Hp : Z.lor (Z.shiftl wd 32) ht = wd * 2 ^ 32 + ht).
  { rewrite Z.shiftl_mul_pow2 by lia. symmetry. apply Z.add_nocarry_lor.
    apply Z.bits_inj'. intros i Hi. rewrite Z.land_spec, Z.bits_0.
    destruct (Z.ltb_spec i 32).
    - by rewrite Z.mul_pow2_bits_low by lia.
    - rewrite (Z.bits_above_log2 ht i), andb_false_r; [done|lia|].
      destruct (Z.eq_dec ht 0) as [->|]; [cbn; lia|]. apply Z.log2_lt_pow2; [lia|].
      apply Z.lt_le_trans with (2 ^ 32); [lia|]. apply Z.pow_le_mono_r; lia. }
  assert (E : dispatch_syscall USABLE P flag_bits core_id GetWindowSize (mkArgs id 0 0 0) s = (Ok (Returned (wd * 2 ^ 32 + ht)), s)).
  { cbn [dispatch_syscall]. unfold sys_get_window_size, reads, wrap, sret, sbind. cbn [arg1].
    rewrite Z.mod_small by lia. rewrite Hw, Hv. fold wd ht. by rewrite Hp. }
  unfold User.sys_get_window_size, User.syscall1.
  rewrite (sbind_ok _ _ _ _ _ (kernel_call 14 _ _ _ _ _ 0 0 _ _ _ eq_refl E)).
  unfold sret, failed_or. f_equal. f_equal. rewrite (proj2 (Z.eqb_neq _ _)) by (unfold U64_MAX; lia).
  unfold as_u32, wrap. rewrite Z.shiftr_div_pow2 by lia. rewrite Z.div_add_l, (Z.div_small ht), Z.add_0_r by lia.
  change 0xFFFFFFFF with (Z.ones 32). rewrite Z.land_ones by lia.
  rewrite (Z.add_comm _ ht), Z.mod_add, Z.mod_mod, !Z.mod_small by lia. done.
Qed.

(** The exit code and the corner of a window pass through a register as they are. *)
Lemma i32_passes x : - 2 ^ 31 <= x < 2 ^ 31 -> as_i32 (i32_as_u64 x) = x.
Proof.
  intros Hx. unfold as_i32, i32_as_u64, wrap.
  rewrite <- Znumtheory.Zmod_div_mod by (done || by exists (2 ^ 32)).
  destruct (Z.ltb_spec x 0).
  - rewrite <- (Z.mod_add x 1), Z.mod_small by lia. rewrite (proj2 (Z.ltb_ge _ _)) by lia. lia.
  - rewrite Z.mod_small, (proj2 (Z.ltb_lt _ _)) by lia. done.
Qed.

(** C3: what a program writes through its wrapper to a file that is cached, and that can take
    the bytes where it lies in the arena ([can_grow]: no eviction and no compaction), comes back
    when it reads the range with the other, and nothing else of memory changes.  The program has
    the file open for both, and its buffers are mapped.  Where growing needs a compaction the
    contents can be lost: [FileCacheIo.grow_corrupts]. *)
Theorem program_reads_back s pid fd p d bs g nd off src dst len :
  let id := fd_node d in let data := user_bytes USABLE s pid src (Z.to_nat len) in
  opened s core_id pid fd p d -> Z.land (fd_flags d) FD_FLAG_READ <> 0 -> Z.land (fd_flags d) FD_FLAG_WRITE <> 0 ->
  wf_cache (fs s) -> content (fs s) id = Some bs -> file_at (fs s) id = Some g ->
  get_node id (adapted (driver (fs s))) = (Ok nd, adapted (driver (fs s))) ->
  (zlen bs < off + len -> can_grow (fs s) g (off + len)) -> has_empty (slots (file_nodes (fs s))) ->
  0 <= off -> 0 <= len -> off + len < 2 ^ 63 ->
  validate_user_ptr src len = true -> validate_user_ptr dst len = true ->
  readable USABLE s pid src len -> writable USABLE s pid dst len ->
  exists s1 s2,
    User.sys_write_file fd off src len s = (Ok len, s1) /\
    User.sys_read_file_at fd off dst len s1 = (Ok len, s2) /\
    user_bytes USABLE s2 pid dst (Z.to_nat len) = data /\ content (fs s2) id = Some (patched bs off data) /\
    (forall j, j <> id -> content (fs s2) j = content (fs s) j) /\
    (forall b, (forall x, dst <= x < dst + len -> phys_of USABLE s pid x <> b) -> mem s2 b = mem s b).
Proof.
  intros id data Hop Hr Hw W Hc Hg Hnd Hgrow Hempty Hoff Hlen Hmax Hvs Hvd Hsrc Hdst.
  destruct (file_write_then_read USABLE P flag_bits core_id s pid fd p d bs g nd off src dst len) as (s1 & s2 & E1 & E2 & Hk); [done..|].
  exists s1, s2. unfold User.sys_write_file, User.sys_read_file_at, User.syscall4.
  rewrite (sbind_ok _ _ _ _ _ (kernel_call SYS_WRITE_FILE _ _ _ _ _ 0 0 _ _ _ eq_refl E1)).
  rewrite (sbind_ok _ _ _ _ _ (kernel_call SYS_READ_FILE _ _ _ _ _ 0 0 _ _ _ eq_refl E2)).
  unfold failed_or. rewrite (proj2 (Z.eqb_neq _ _)) by (unfold U64_MAX; lia). done.
Qed.

End kernel.

(** ** The event page *)

(** Until an index is out of range, the program reads as the kernel would. *)
Lemma page_reachable s : rtc page_step ring_start s -> rtc ring_step ring_start s.
Proof.
  apply (rtc_ind_r (fun s => rtc ring_step ring_start s) ring_start); [apply rtc_refl|].
  intros a b _ Hab IH. eapply rtc_r; [exact IH|]. destruct Hab as [s0 e w res b0 E|s0 r res b0 E]; [by econstructor|].
  constructor. rewrite <- E. pose proof (ri_reader _ (ring_reachable _ IH)) as Hr. unfold reader_ok in Hr.
  destruct (reader s0) as [| |idx|e idx|e]; cbn [try_read_step read_step]; try done.
  destruct Hr as (_ & _ & ->). pose proof (slot_lt (length (got s0))).
  rewrite (proj2 (Z.leb_gt MAX_EVENT_COUNT _)) by lia. done.
Qed.

(** Whatever is in the page, reading it is no access out of range: the kernel's own reader
    would stop at an index the program left there. *)
Lemma try_read_safe r b : (forall idx, r = RAt idx -> 0 <= idx) -> zlen (events b) = MAX_EVENT_COUNT ->
  exists r' res b', try_read_step r b = Ok (r', res, b') /\ zlen (events b') = MAX_EVENT_COUNT.
Proof.
  intros Hr Hl. destruct r as [| |idx|e idx|e]; cbn [try_read_step].
  - destruct (_ =? 0); by eexists _, _, _.
  - by eexists _, _, _.
  - destruct (Z.leb_spec MAX_EVENT_COUNT idx); [by eexists _, _, _|].
    destruct (lookup_lt_is_Some_2 (events b) (Z.to_nat idx)) as [e ->]; [specialize (Hr idx eq_refl); lia|]. by eexists _, _, _.
  - by eexists _, _, _.
  - by eexists _, _, _.
Qed.

Lemma page_got_in_order s : rtc page_step ring_start s -> got s = take (length (got s)) (sent s).
Proof. intros Hr. exact (ri_prefix _ (ring_reachable _ (page_reachable _ Hr))). Qed.

(** Every key code has a place of its own in the bit sets of held keys. *)
Lemma key_codes_apart : NoDup KeyCode.all /\ (forall k, k ∈ KeyCode.all) /\ zlen KeyCode.all <= KEY_COUNT.
Proof.
  split; [|split].
  - apply (bool_decide_unpack (NoDup KeyCode.all)). by vm_compute.
  - intros k. apply (bool_decide_unpack (k ∈ KeyCode.all)). destruct k; by vm_compute.
  - by vm_compute.
Qed.

Lemma key_index_lookup k : KeyCode.all !! Z.to_nat (key_index k) = Some k /\ is_key (key_index k).
Proof.
  destruct key_codes_apart as (_ & Hall & Hlen). unfold key_index.
  destruct (list_find_elem_of (eq k) KeyCode.all k (Hall k) eq_refl) as [[i k'] E]. rewrite E.
  apply list_find_Some in E as (Hi & <- & _). rewrite Nat2Z.id. split; [done|].
  apply lookup_lt_Some in Hi. unfold is_key. lia.
Qed.

Lemma key_index_inj k k' : key_index k = key_index k' -> k = k'.
Proof. intros E. destruct (key_index_lookup k) as [H _], (key_index_lookup k') as [H' _]. rewrite E in H. congruence. Qed.

(** A program reads the keys the kernel published last as its keyboard state had them. *)
Lemma key_down_published words modifiers b k : bitset_ok words -> length (shared_key_down b) = Z.to_nat BITSET_WORD_COUNT ->
  is_key_down k (publish_keyboard_state words modifiers b) = Ok (holds_key words (key_index k)).
Proof.
  intros Hok Hl. destruct (key_index_lookup k) as [_ Hk]. unfold is_key_down. cbv zeta. revert Hk. generalize (key_index k).
  intros n Hk. destruct (word_some words _ Hok Hk) as (w & Ew & Hw).
  unfold holds_key, test, on_word. cbn [shared_key_down publish_keyboard_state].
  replace (zip_with (fun _ word : Z => word) (shared_key_down b) words) with words.
  - unfold word_of in *. by rewrite Ew.
  - pose proof (bo_length _ Hok) as Hlw. rewrite <- Hl in Hlw. clear -Hlw. revert words Hlw.
    induction (shared_key_down b) as [|x l IH]; intros [|y words] Hlw; try done. cbn. f_equal. apply IH. by injection Hlw.
Qed.

(** ** A program on the machine of SyscallsRun.v *)

#[local] Existing Instance adapter_driver.
#[local] Instance user_fs : FilesystemDriver MockDiskDevice.MockDiskDevice := fat32_filesystem demo_drv.

Definition no_waits (num : Z) (f : SyscallFrame) : stM (Sys FlatTables MockDiskDevice.MockDiskDevice) Ended Z := sfuel.

#[local] Instance demo_kernel : UserKernel (Sys FlatTables MockDiskDevice.MockDiskDevice) := sys_kernel 0 demo_platform 7 0 no_waits.

(** Two bytes of the program, written to the end of the file, come back. *)
Lemma program_reads_back_witness : exists s1 s2,
  User.sys_write_file 0 599 9000 2 demo_sys = (Ok 2, s1) /\
  User.sys_read_file_at 0 599 5000 2 s1 = (Ok 2, s2) /\
  user_bytes 0 s2 1 5000 2 = [44; 45] /\ content (fs s2) a_id = Some (patched a_bytes 599 [44; 45]).
Proof.
  assert (Hd : user_bytes 0 demo_sys 1 9000 2 = [44; 45]) by (vm_compute; reflexivity).
  destruct (program_reads_back 0 demo_platform 7 0 no_waits demo_sys 1 0 demo_process (mkFd a_id 3) a_bytes (new_cached 0 600 1 Normal) a_node 599 9000 5000 2)
    as (s1 & s2 & E1 & E2 & Eb & Ec & _).
  - by apply demo_opened.
  - discriminate.
  - discriminate.
  - apply a_cached_ok.
  - apply a_cached_ok.
  - vm_compute. reflexivity.
  - vm_compute. reflexivity.
  - intros _. left. vm_compute. split; [reflexivity|discriminate].
  - exists 0%nat. split; [|vm_compute; reflexivity]. apply Nat.ltb_lt. vm_compute. reflexivity.
  - lia.
  - lia.
  - lia.
  - reflexivity.
  - reflexivity.
  - apply demo_readable.
  - apply demo_writable.
  - change (Z.to_nat 2) with 2%nat in *. rewrite Hd in Eb, Ec. exists s1, s2. split; [exact E1|]. split; [exact E2|]. split; [exact Eb|exact Ec].
Defined.
