(* ===== verification/Ranges.v ===== *)
(** * Ranges: counting the ranges that hold an address

    The allocators hand out ranges of addresses.  That no two of a list of ranges overlap is
    stated by counting: every address lies in at most one of them.  The count is a sum, so it
    does not depend on the order, and replacing a range by parts of it cannot raise it.
    [Layout] is what Rust asks an allocator for. *)

From Stdlib Require Import ZArith Lia.
From stdpp Require Import base tactics list option numbers.
From S2P Require Import Prelude.

Open Scope rust_scope.

(** [core::alloc::Layout] *)
Record Layout : Type := mkLayout { size : Z; align : Z }.

(** A range by its start and its length. *)
Definition holds_at (b : Z) (r : Z * Z) : Z := if (r.1 <=? b) && (b <? r.1 + r.2) then 1 else 0.

Fixpoint cnt (rs : list (Z * Z)) (b : Z) : Z :=
  match rs with
  | [] => 0
  | r :: rs => holds_at b r + cnt rs b
  end.

Definition disjoint (r q : Z * Z) : Prop := forall b, ~ (r.1 <= b < r.1 + r.2 /\ q.1 <= b < q.1 + q.2).

Lemma holds_bounds b r : 0 <= holds_at b r <= 1.
Proof. unfold holds_at. by destruct (_ && _). Qed.

Lemma holds_in b r : r.1 <= b < r.1 + r.2 -> holds_at b r = 1.
Proof. intros H. unfold holds_at. rewrite (proj2 (Z.leb_le _ _)), (proj2 (Z.ltb_lt _ _)) by lia. done. Qed.

Lemma holds_out b r : b < r.1 \/ r.1 + r.2 <= b -> holds_at b r = 0.
Proof. intros H. unfold holds_at. destruct (Z.leb_spec r.1 b), (Z.ltb_spec b (r.1 + r.2)); try done. lia. Qed.

(** A part of a range holds no more. *)
Lemma holds_sub b s n s' n' : s <= s' -> s' + n' <= s + n -> holds_at b (s', n') <= holds_at b (s, n).
Proof.
  intros H1 H2. destruct (decide (s' <= b < s' + n')).
  - by rewrite !holds_in by (cbn; lia).
  - rewrite (holds_out b (s', n')) by (cbn; lia). apply holds_bounds.
Qed.

(** Two parts one behind the other. *)
Lemma holds_split b s n s1 n1 s2 n2 : s <= s1 -> s1 + n1 <= s2 -> s2 + n2 <= s + n -> 0 <= n1 -> 0 <= n2 ->
  holds_at b (s1, n1) + holds_at b (s2, n2) <= holds_at b (s, n).
Proof.
  intros ? ? ? ? ?. destruct (decide (s1 <= b < s1 + n1)) as [Hin|Hin].
  - rewrite (holds_in b (s1, n1)), (holds_out b (s2, n2)), (holds_in b (s, n)) by (cbn; lia). lia.
  - rewrite (holds_out b (s1, n1)) by (cbn; lia). rewrite Z.add_0_l. apply holds_sub; lia.
Qed.

Lemma cnt_app rs qs b : cnt (rs ++ qs) b = cnt rs b + cnt qs b.
Proof. induction rs as [|r rs IH]; [done|]. cbn. lia. Qed.

Lemma cnt_nonneg rs b : 0 <= cnt rs b.
Proof. induction rs as [|r rs IH]; cbn; [lia|]. pose proof (holds_bounds b r). lia. Qed.

Lemma cnt_lookup rs i r b : rs !! i = Some r -> holds_at b r <= cnt rs b.
Proof.
  revert i. induction rs as [|q rs IH]; intros [|i]; cbn; [done..|intros [= ->]; pose proof (cnt_nonneg rs b); lia|].
  intros H. specialize (IH i H). pose proof (holds_bounds b q). lia.
Qed.

Lemma cnt_middle rs r qs b : cnt (rs ++ r :: qs) b = holds_at b r + cnt (rs ++ qs) b.
Proof. rewrite !cnt_app. cbn. lia. Qed.

(** Counting says that the ranges are apart. *)
Lemma cnt_apart rs i j r q : (forall b, cnt rs b <= 1) -> i <> j -> rs !! i = Some r -> rs !! j = Some q -> disjoint r q.
Proof.
  intros Hc Hne Hi Hj b [Hr Hq]. assert (H2 : forall i j, (i < j)%nat -> forall r q, rs !! i = Some r -> rs !! j = Some q ->
    holds_at b r + holds_at b q <= cnt rs b).
  { clear. induction rs as [|x rs IH]; intros [|i] [|j] Hij r q; try lia; cbn; try done.
    - intros [= ->] Hj. pose proof (cnt_lookup rs j q b Hj). lia.
    - intros Hi Hj. specialize (IH i j ltac:(lia) r q Hi Hj). pose proof (holds_bounds b x). lia. }
  pose proof (holds_in b r Hr). pose proof (holds_in b q Hq). specialize (Hc b).
  destruct (proj1 (Nat.lt_gt_cases i j) Hne) as [Hlt|Hlt].
  - specialize (H2 i j Hlt r q Hi Hj). lia.
  - specialize (H2 j i Hlt q r Hj Hi). lia.
Qed.

Lemma delete_split {A} (l : list A) i x : l !! i = Some x -> exists l1 l2, l = l1 ++ x :: l2 /\ delete i l = l1 ++ l2.
Proof. intros Hi. exists (take i l), (drop (S i) l). split; [by rewrite take_drop_middle|apply delete_take_drop]. Qed.

Lemma cnt_perm rs qs b : rs ≡ₚ qs -> cnt rs b = cnt qs b.
Proof. induction 1; cbn; lia. Qed.

(** The size classes of both allocators. *)
Lemma size_class i : (i < 10)%nat -> [8; 16; 32; 64; 128; 256; 512; 1024; 2048; 4096] !!! i = 2 ^ (3 + Z.of_nat i).
Proof. intros Hi. do 10 (destruct i as [|i]; [done|]). lia. Qed.
