(* ===== verification/UserHeap.v ===== *)
(** * UserHeap: the global allocator of user programs, user/rustspace/src/lib.rs

    [Arena] hands out small blocks of ten size classes and large blocks of any size, all cut
    from slabs that the allocate system call maps.  A process has one thread, so the
    compare-and-swap of the cursor always finds the cursor it has just read.  The free lists
    run through the freed blocks; the model keeps them as lists of addresses, of addresses and
    sizes for the large ones, as nothing else may write to a freed block.  Address zero is the
    null pointer.  The system call is a class: its laws are all the allocator relies on. *)

From Stdlib Require Import ZArith Lia.
From stdpp Require Import base tactics list option numbers.
From S2P Require Import Prelude Ranges FrameAlloc.

Open Scope rust_scope.

Definition INVALID_ALLOC : Z := U64_MAX.
Definition SLAB_SIZE : Z := 16 * 1024.
Definition BLOCK_SIZES : list Z := [8; 16; 32; 64; 128; 256; 512; 1024; 2048; 4096].
Definition NUM_SIZES : nat := 10.
Definition LARGE_NODE_SIZE : Z := 16.
Definition LARGE_NODE_ALIGN : Z := 8.
Definition LARGE_REMAINDER_MIN_BYTES : Z := 16.

Fixpoint list_index_from (fuel i : nat) (requested : Z) : option nat :=
  match fuel with
  | O => None
  | S fuel => if requested <=? BLOCK_SIZES !!! i then Some i else list_index_from fuel (S i) requested
  end.

Definition list_index (requested : Z) : option nat := list_index_from NUM_SIZES 0 requested.

(** The size class of a layout, if it is served from the small blocks. *)
Definition small_class (l : Layout) : option nat := if align l <=? 8 then list_index (size l) else None.

Record Arena : Type := mkArena {
  cursor : Z;
  end_ : Z;
  small_heads : list (list Z);
  large_head : list (Z * Z);
}.

Definition new : Arena := mkArena 0 0 (replicate NUM_SIZES []) [].

Definition set_slab (c e : Z) (a : Arena) : Arena := mkArena c e (small_heads a) (large_head a).
Definition set_cursor (c : Z) (a : Arena) : Arena := set_slab c (end_ a) a.
Definition set_small (i : nat) (l : list Z) (a : Arena) : Arena :=
  mkArena (cursor a) (end_ a) (<[ i := l ]> (small_heads a)) (large_head a).
Definition set_large (l : list (Z * Z)) (a : Arena) : Arena := mkArena (cursor a) (end_ a) (small_heads a) l.

(** [(x + align - 1) & !(align - 1)] *)
Definition round_up (x align : Z) : result Empty_set Z :=
  let? s := uadd x align in let? t := usub s 1 in Ok (Z.land t (Z.lnot (align - 1))).

(** The allocate system call: the base of the new range, or [INVALID_ALLOC]. *)
Class SysAllocate (H : Type) := sys_allocate : Z -> stM H Empty_set Z.

Section arena.
Context {H : Type} {SYS : SysAllocate H}.

Abbreviation HeapM := (stM (Arena * H) Empty_set).

Definition on_arena {A} (f : Arena -> A * Arena) : HeapM A := fun '(a, h) => let '(x, a') := f a in (Ok x, (a', h)).
Definition modify (f : Arena -> Arena) : HeapM unit := on_arena (fun a => (tt, f a)).
Definition read {A} (f : Arena -> A) : HeapM A := on_arena (fun a => (f a, a)).
Definition syscall (n : Z) : HeapM Z := fun '(a, h) => let '(r, h') := sys_allocate n h in (r, (a, h')).

Definition preallocate (prealloc_size : Z) : HeapM unit :=
  let! base := syscall prealloc_size in
  if base =? INVALID_ALLOC then sret tt else
  let! e := slift (uadd base prealloc_size) in
  modify (set_slab base e).

Definition grow : HeapM bool :=
  let! base := syscall SLAB_SIZE in
  if base =? INVALID_ALLOC then sret false else
  let! e := slift (uadd base SLAB_SIZE) in
  modify (set_slab base e) ;;;
  sret true.

(** Cutting a block from the slab, if it fits. *)
Definition bump (size align : Z) : HeapM (option Z) :=
  let! cursor := read cursor in
  let! end_ := read end_ in
  let! aligned := slift (round_up cursor align) in
  let! next := slift (uadd aligned size) in
  if next <=? end_ then modify (set_cursor next) ;;; sret (Some aligned) else sret None.

(** The first and the last loop of [alloc]. *)
Fixpoint bump_loop (fuel : nat) (size align : Z) : HeapM Z :=
  match fuel with
  | O => sfuel
  | S fuel =>
      let! found := bump size align in
      match found with
      | Some aligned => sret aligned
      | None => let! grown := grow in if negb grown then sret 0 else bump_loop fuel size align
      end
  end.

(** The loop for large blocks: those a slab cannot hold are mapped by themselves. *)
Fixpoint large_loop (fuel : nat) (size align : Z) : HeapM Z :=
  match fuel with
  | O => sfuel
  | S fuel =>
      let! found := bump size align in
      match found with
      | Some aligned => sret aligned
      | None =>
          if SLAB_SIZE <? size then
            let! base := syscall size in
            if base =? INVALID_ALLOC then sret 0 else sret base
          else let! grown := grow in if negb grown then sret 0 else large_loop fuel size align
      end
  end.

(** The walk over the free large blocks: the block taken and the list left; [before] are the
    blocks already passed. *)
Fixpoint first_fit (size align : Z) (before nodes : list (Z * Z)) : result Empty_set (option (Z * list (Z * Z))) :=
  match nodes with
  | [] => Ok None
  | (node_ptr, node_size) :: rest =>
      let? aligned_ptr := round_up node_ptr align in
      let? padding := usub aligned_ptr node_ptr in
      let? needed := uadd size padding in
      if needed <=? node_size then
        let large := before ++ rest in
        let? node_end := uadd node_ptr node_size in
        let? used_end := uadd aligned_ptr size in
        let? rem_start := round_up used_end LARGE_NODE_ALIGN in
        let? rem_node := uadd rem_start LARGE_NODE_SIZE in
        let? rem_min := uadd rem_node LARGE_REMAINDER_MIN_BYTES in
        if rem_min <=? node_end then
          let? rem_size := usub node_end rem_start in
          Ok (Some (aligned_ptr, (rem_start, rem_size) :: large))
        else Ok (Some (aligned_ptr, large))
      else first_fit size align (before ++ [(node_ptr, node_size)]) rest
  end.

Definition alloc_large (fuel : nat) (size align : Z) : HeapM Z :=
  let size := Z.max size LARGE_NODE_SIZE in
  let align := Z.max align LARGE_NODE_ALIGN in
  let! large := read large_head in
  let! found := slift (first_fit size align [] large) in
  match found with
  | Some (ptr, large) => modify (set_large large) ;;; sret ptr
  | None => large_loop fuel size align
  end.

Definition pop_small (idx : nat) : HeapM (option Z) :=
  on_arena (fun a => match small_heads a !!! idx with
    | [] => (None, set_small idx [] a)
    | n :: next => (Some n, set_small idx next a)
    end).

Definition alloc_small (fuel : nat) (idx : nat) : HeapM Z :=
  let block_size := BLOCK_SIZES !!! idx in
  let! found := pop_small idx in
  match found with
  | Some ptr => sret ptr
  | None => bump_loop fuel block_size block_size
  end.

(** A size of zero answers [NonNull::<u8>::dangling()], whose address is one. *)
Definition alloc (fuel : nat) (l : Layout) : HeapM Z :=
  if size l =? 0 then sret 1 else
  match small_class l with
  | Some idx => alloc_small fuel idx
  | None =>
      if (4096 <? size l) || (8 <? align l) then alloc_large fuel (size l) (align l)
      else bump_loop fuel (size l) (align l)
  end.

Definition dealloc (ptr : Z) (l : Layout) : HeapM unit :=
  if (ptr =? 0) || (size l =? 0) then sret tt else
  match small_class l with
  | Some idx => modify (fun a => set_small idx (ptr :: small_heads a !!! idx) a)
  | None =>
      sassert (ptr mod LARGE_NODE_ALIGN =? 0) ;;;
      modify (fun a => set_large ((ptr, Z.max (size l) LARGE_NODE_SIZE) :: large_head a) a)
  end.

(** A program's use of its heap: the blocks it holds, newest first, each with its layout. *)
Inductive HeapOp : Type :=
  | HAlloc (l : Layout)
  | HFree (i : nat)
  | HPreallocate (n : Z).

Abbreviation Live := (list (Z * Layout)).

Definition heap_step (op : HeapOp) (live : Live) : HeapM Live :=
  match op with
  | HAlloc l => let! p := alloc 2 l in sret (if (p =? 0) || (size l =? 0) then live else (p, l) :: live)
  | HFree i => match live !! i with
               | Some (p, l) => dealloc p l ;;; sret (delete i live)
               | None => sret live
               end
  | HPreallocate n => preallocate n ;;; sret live
  end.

Fixpoint heap_run (ops : list HeapOp) (live : Live) : HeapM Live :=
  match ops with
  | [] => sret live
  | op :: ops => let! live := heap_step op live in heap_run ops live
  end.

End arena.
