(* ===== verification/UserHeapSpec.v ===== *)
(** * UserHeapSpec: the blocks of a user program's heap

    The ranges the arena has at its disposal (its free blocks and the rest of its slab) are
    counted: an operation hands out no address the arena did not have, or that the kernel has
    not just mapped.  So the blocks a program holds never overlap. *)

From Stdlib Require Import ZArith Lia.
From stdpp Require Import base tactics list option numbers gmap.
From S2P Require Import Prelude FrameAlloc Regions RegionsSpec UserMem UserMemSpec ProcessMem ProcessMemSpec FlatTables ProcessLife CircularBuffer Ranges UserHeap.

Open Scope rust_scope.

(** What the allocator relies on: the heap is a range of pages that grows at its top. *)
Class SysAllocateLaws (H : Type) {SYS : SysAllocate H} : Type := {
  heap_wf : H -> Prop;
  heap_top : H -> Z;
  heap_start : Z;
  heap_start_page : PAGE_SIZE <= heap_start;
  heap_top_bounds h : heap_wf h -> heap_start <= heap_top h <= 2 ^ 47;
  heap_top_aligned h : heap_wf h -> (PAGE_SIZE | heap_top h);
  sys_allocate_ok h n : heap_wf h -> 0 < n -> exists base h', sys_allocate n h = (Ok base, h') /\ heap_wf h' /\
    (base = INVALID_ALLOC /\ heap_top h' = heap_top h \/ base = heap_top h /\ heap_top h' = heap_top h + page_up n);
}.

Lemma round_up_ok x al : 0 <= x -> pow2 al -> x + al < 2 ^ 64 ->
  exists y, round_up x al = Ok y /\ x <= y < x + al /\ (al | y).
Proof.
  intros Hx Hp Hs. pose proof (pow2_pos al Hp) as Ha. unfold round_up, uadd, usub.
  rewrite (proj2 (Z.ltb_lt _ _)) by lia. cbn [rbind]. rewrite (proj2 (Z.leb_le _ _)) by lia. cbn [rbind].
  eexists. split; [done|]. destruct Hp as (k & Hk & ->).
  replace (2 ^ k - 1) with (Z.ones k) by (rewrite Z.ones_equiv; lia).
  rewrite <- Z.ldiff_land, Z.ldiff_ones_r, Z.shiftr_div_pow2, Z.shiftl_mul_pow2 by lia.
  replace (x + 2 ^ k - 1) with (x + Z.ones k) by (rewrite Z.ones_equiv; lia).
  split; [|apply Z.divide_factor_r]. rewrite Z.ones_equiv.
  pose proof (Z.div_mod (x + Z.pred (2 ^ k)) (2 ^ k)). pose proof (Z.mod_pos_bound (x + Z.pred (2 ^ k)) (2 ^ k)). lia.
Qed.

Lemma round_up_fixed x al : 0 <= x -> pow2 al -> x + al < 2 ^ 64 -> (al | x) -> round_up x al = Ok x.
Proof.
  intros Hx Hp Hs Hd. destruct (round_up_ok x al Hx Hp Hs) as (y & -> & Hy & Hdy). f_equal.
  pose proof (pow2_pos al Hp). destruct Hd as [i ->], Hdy as [j ->].
  assert (i <= j < i + 1) by nia. by replace j with i by lia.
Qed.

(** The size classes. *)
Lemma block_size_facts i : (i < NUM_SIZES)%nat ->
  pow2 (BLOCK_SIZES !!! i) /\ 8 <= BLOCK_SIZES !!! i <= 4096 /\ (8 | BLOCK_SIZES !!! i) /\ (BLOCK_SIZES !!! i | 4096).
Proof.
  unfold NUM_SIZES. intros Hi.
  assert (Hb : exists k, (k <= 9)%nat /\ BLOCK_SIZES !!! i = 2 ^ (3 + Z.of_nat k)) by (exists i; split; [lia|by apply size_class]).
  destruct Hb as (k & Hk & ->). split; [exists (3 + Z.of_nat k); lia|].
  pose proof (Z.pow_le_mono_r 2 3 (3 + Z.of_nat k)). pose proof (Z.pow_le_mono_r 2 (3 + Z.of_nat k) 12).
  split; [lia|]. split.
  - exists (2 ^ Z.of_nat k). rewrite Z.pow_add_r by lia. lia.
  - exists (2 ^ (9 - Z.of_nat k)). rewrite <- Z.pow_add_r by lia. by replace (9 - Z.of_nat k + (3 + Z.of_nat k)) with 12 by lia.
Qed.

Lemma list_index_ok n i : list_index n = Some i -> (i < NUM_SIZES)%nat /\ n <= BLOCK_SIZES !!! i.
Proof.
  unfold list_index. assert (H : forall f k, list_index_from f k n = Some i -> (i < k + f)%nat /\ n <= BLOCK_SIZES !!! i).
  { induction f as [|f IH]; intros k; cbn [list_index_from]; [done|]. destruct (Z.leb_spec n (BLOCK_SIZES !!! k)).
    - intros [= ->]. split; [lia|done].
    - intros E. specialize (IH _ E). lia. }
  intros E. by specialize (H _ _ E).
Qed.

Lemma list_index_none n : list_index n = None -> 4096 < n.
Proof.
  unfold list_index. assert (H : forall f k, list_index_from f k n = None -> forall j, (k <= j < k + f)%nat -> BLOCK_SIZES !!! j < n).
  { induction f as [|f IH]; intros k; cbn [list_index_from]; [lia|]. destruct (Z.leb_spec n (BLOCK_SIZES !!! k)); [done|].
    intros E j Hj. destruct (decide (j = k)) as [->|]; [done|]. apply (IH _ E). lia. }
  intros E. exact (H _ _ E 9%nat ltac:(unfold NUM_SIZES; lia)).
Qed.

(** ** What the arena has *)

Definition small_range (bs : Z) (l : list Z) : list (Z * Z) := (fun a => (a, bs)) <$> l.

Definition small_ranges (sizes : list Z) (heads : list (list Z)) : list (Z * Z) := mjoin (zip_with small_range sizes heads).

(** The free blocks and the rest of the slab. *)
Definition free_ranges (a : Arena) : list (Z * Z) := small_ranges BLOCK_SIZES (small_heads a) ++ large_head a.

Definition total (a : Arena) (b : Z) : Z := cnt (free_ranges a) b + holds_at b (cursor a, end_ a - cursor a).

Lemma small_ranges_cons s sizes h heads :
  small_ranges (s :: sizes) (h :: heads) = small_range s h ++ small_ranges sizes heads.
Proof. done. Qed.

Lemma cnt_small_insert sizes heads i bs l l' b : sizes !! i = Some bs -> heads !! i = Some l ->
  cnt (small_ranges sizes (<[ i := l' ]> heads)) b + cnt (small_range bs l) b
  = cnt (small_ranges sizes heads) b + cnt (small_range bs l') b.
Proof.
  revert heads i. induction sizes as [|s sizes IH]; intros [|h heads] [|i]; try done.
  - intros [= ->] [= ->]. change (<[ 0%nat := l' ]> (l :: heads)) with (l' :: heads). rewrite !small_ranges_cons, !cnt_app. lia.
  - intros Hs Hh. specialize (IH heads i Hs Hh). change (<[ S i := l' ]> (h :: heads)) with (h :: <[ i := l' ]> heads).
    rewrite !small_ranges_cons, !cnt_app. lia.
Qed.

Lemma elem_of_small sizes heads r : r ∈ small_ranges sizes heads <->
  exists i bs l, sizes !! i = Some bs /\ heads !! i = Some l /\ r.2 = bs /\ r.1 ∈ l.
Proof.
  unfold small_ranges. rewrite list_elem_of_join. split.
  - intros (rs & Hr & Hrs). apply list_elem_of_lookup in Hrs as [i Hi]. apply lookup_zip_with_Some in Hi as (bs & l & -> & Hb & Hl).
    exists i, bs, l. apply list_elem_of_fmap in Hr as (x & -> & Hx). by split_and!.
  - intros (i & bs & l & Hb & Hl & E & Hx). exists (small_range bs l). split.
    + apply list_elem_of_fmap. exists r.1. split; [|done]. destruct r. cbn in *. by subst.
    + apply list_elem_of_lookup. exists i. apply lookup_zip_with_Some. by exists bs, l.
Qed.

(** A layout Rust allows, no wider aligned than a page. *)
Definition layout_ok (l : Layout) : Prop := 0 < size l < 2 ^ 63 /\ pow2 (align l) /\ align l <= PAGE_SIZE.

(** What a block takes, its alignment, and the alignment the free lists need. *)
Definition footprint (bl : Z * Layout) : Z * Z :=
  (bl.1, match small_class bl.2 with Some i => BLOCK_SIZES !!! i | None => Z.max (size bl.2) LARGE_NODE_SIZE end).

Definition node_align (l : Layout) : Z := match small_class l with Some i => BLOCK_SIZES !!! i | None => LARGE_NODE_ALIGN end.

Definition block_ok (bl : Z * Layout) : Prop := layout_ok bl.2 /\ (align bl.2 | bl.1) /\ (node_align bl.2 | bl.1).

Section spec.
Context {H : Type} {SYS : SysAllocate H} {SL : SysAllocateLaws H}.

Definition fits (h : H) (r : Z * Z) : Prop := heap_start <= r.1 /\ 0 < r.2 /\ r.1 + r.2 <= heap_top h.

Record arena_ok (a : Arena) (h : H) : Prop := {
  ao_wf : heap_wf h;
  ao_heads : length (small_heads a) = NUM_SIZES;
  ao_free : Forall (fits h) (free_ranges a);
  ao_slab : 0 <= cursor a <= end_ a /\ end_ a <= heap_top h /\ (cursor a < end_ a -> heap_start <= cursor a);
  ao_small : forall i l x, small_heads a !! i = Some l -> x ∈ l -> (BLOCK_SIZES !!! i | x);
  ao_large : Forall (fun n => (LARGE_NODE_ALIGN | n.1) /\ LARGE_NODE_SIZE <= n.2) (large_head a);
}.

(** The heap of a program that holds the blocks [live]. *)
Record heap_ok (a : Arena) (h : H) (live : list (Z * Layout)) : Prop := {
  ho_arena : arena_ok a h;
  ho_blocks : Forall block_ok live;
  ho_inside : Forall (fits h) (footprint <$> live);
  ho_once : forall b, cnt (footprint <$> live) b + total a b <= 1;
}.

(** Between two states the range [r] left the arena: all of it the arena had, or the kernel
    has mapped since. *)
Definition spent (a : Arena) (h : H) (a' : Arena) (h' : H) (r : Z * Z) : Prop :=
  heap_top h <= heap_top h' /\
  forall b, total a' b + holds_at b r <= total a b + holds_at b (heap_top h, heap_top h' - heap_top h).

Lemma fits_mono h h' r : heap_top h <= heap_top h' -> fits h r -> fits h' r.
Proof. unfold fits. lia. Qed.

Lemma fits_above h r b : fits h r -> heap_top h <= b -> holds_at b r = 0.
Proof. unfold fits. intros. apply holds_out. lia. Qed.

Lemma cnt_above h rs b : Forall (fits h) rs -> heap_top h <= b -> cnt rs b = 0.
Proof. intros Hf Hb. induction Hf as [|r rs Hr _ IH]; [done|]. cbn. rewrite (fits_above h) by done. lia. Qed.

Lemma total_above a h b : arena_ok a h -> heap_top h <= b -> total a b = 0.
Proof.
  intros [] Hb. unfold total. rewrite (cnt_above h), holds_out by (done || (cbn; lia)). done.
Qed.

Lemma arena_mono a h h' : heap_wf h' -> heap_top h <= heap_top h' -> arena_ok a h -> arena_ok a h'.
Proof.
  intros Hw Ht [? ? Hf ? ? ?]. split; try done; [|lia].
  eapply List.Forall_impl; [|exact Hf]. intros r. by apply fits_mono.
Qed.

Lemma spent_nothing a h r : r.2 <= 0 -> spent a h a h r.
Proof. intros Hr. split; [done|]. intros b. rewrite (holds_out b r) by lia. pose proof (holds_bounds b (heap_top h, heap_top h - heap_top h)). lia. Qed.

Lemma spent_trans a h a1 h1 a' h' r : spent a h a1 h1 (0, 0) -> spent a1 h1 a' h' r -> spent a h a' h' r.
Proof.
  intros [T1 S1] [T2 S2]. split; [lia|]. intros b. specialize (S1 b). specialize (S2 b).
  rewrite (holds_out b (0, 0)) in S1 by (cbn; lia).
  pose proof (holds_split b (heap_top h) (heap_top h' - heap_top h) (heap_top h) (heap_top h1 - heap_top h) (heap_top h1)
    (heap_top h' - heap_top h1)). lia.
Qed.

(** ** Slabs *)

Lemma top_word h : heap_wf h -> PAGE_SIZE <= heap_top h <= 2 ^ 47.
Proof. intros Hw. pose proof (heap_top_bounds h Hw). pose proof heap_start_page. lia. Qed.

Lemma syscall_ok a h n : arena_ok a h -> 0 < n -> exists base h', syscall n (a, h) = (Ok base, (a, h')) /\ arena_ok a h' /\
  (base = INVALID_ALLOC /\ heap_top h' = heap_top h \/
   base = heap_top h /\ base <> INVALID_ALLOC /\ (PAGE_SIZE | base) /\ n <= page_up n /\ heap_top h' = heap_top h + page_up n).
Proof.
  intros Ha Hn. pose proof (ao_wf _ _ Ha) as Hw. destruct (sys_allocate_ok h n Hw Hn) as (base & h' & E & Hw' & Hb).
  pose proof (page_up_bounds n) as [Hp _]. pose proof (top_word h Hw).
  exists base, h'. unfold syscall. rewrite E. split; [done|]. split; [apply (arena_mono a h h'); [done|lia|done]|].
  destruct Hb as [Hb|[-> Ht]]; [by left|right]. split_and!; [done|unfold INVALID_ALLOC, U64_MAX; lia|by apply heap_top_aligned|lia|done].
Qed.

(** A new slab for the old one. *)
Lemma set_slab_ok a h h' c e : arena_ok a h' -> heap_top h <= c -> c <= e <= heap_top h' -> PAGE_SIZE <= heap_top h -> heap_start <= heap_top h ->
  arena_ok (set_slab c e a) h' /\ spent a h (set_slab c e a) h' (0, 0).
Proof.
  intros [] Hc He Hp Hs. unfold PAGE_SIZE in Hp. split; [split; cbn; try done; split_and!; lia|].
  split; [lia|]. intros b. unfold total. cbn [set_slab cursor end_]. rewrite (holds_out b (0, 0)) by (cbn; lia).
  change (free_ranges (set_slab c e a)) with (free_ranges a). pose proof (holds_bounds b (cursor a, end_ a - cursor a)).
  pose proof (holds_sub b (heap_top h) (heap_top h' - heap_top h) c (e - c)). lia.
Qed.

Lemma slab_grow_ok a h : arena_ok a h -> exists g a' h', grow (a, h) = (Ok g, (a', h')) /\ arena_ok a' h' /\ spent a h a' h' (0, 0) /\
  (g = true -> (PAGE_SIZE | cursor a') /\ end_ a' = cursor a' + SLAB_SIZE /\ cursor a' <= 2 ^ 47).
Proof.
  intros Ha. pose proof (ao_wf _ _ Ha) as Hw. pose proof (top_word h Hw) as Ht. pose proof (heap_top_bounds h Hw) as Hb.
  destruct (syscall_ok a h SLAB_SIZE Ha ltac:(done)) as (base & h' & E & Ha' & [[-> Htop]|(-> & Hne & Hd & Hle & Htop)]).
  - exists false, a, h'. unfold grow, sbind. rewrite E. cbn. split_and!; [done..| |done].
    split; [lia|]. intros b. rewrite (holds_out b (0, 0)) by (cbn; lia). pose proof (holds_bounds b (heap_top h, heap_top h' - heap_top h)). lia.
  - exists true, (set_slab (heap_top h) (heap_top h + SLAB_SIZE) a), h'. unfold grow, sbind. rewrite E.
    rewrite (proj2 (Z.eqb_neq _ _)) by done. unfold slift, uadd. rewrite (proj2 (Z.ltb_lt _ _)) by (unfold SLAB_SIZE; lia).
    split; [done|]. assert (0 < SLAB_SIZE) by done. destruct (set_slab_ok a h h' (heap_top h) (heap_top h + SLAB_SIZE)) as [Ho Hs]; [done|lia..|].
    split_and!; [done|done|]. intros _. cbn. split_and!; [done|done|lia].
Qed.

(** ** Cutting blocks *)

Lemma bump_ok a h sz al : arena_ok a h -> 0 < sz <= 2 ^ 63 -> pow2 al -> al <= PAGE_SIZE ->
  exists r a', bump sz al (a, h) = (Ok r, (a', h)) /\
    match r with
    | Some p => arena_ok a' h /\ (al | p) /\ fits h (p, sz) /\ spent a h a' h (p, sz)
    | None => a' = a /\ ((al | cursor a) -> end_ a < cursor a + sz)
    end.
Proof.
  intros Ha Hsz Hp Hal. pose proof (ao_slab _ _ Ha) as (Hc & He & Hst). pose proof (top_word h (ao_wf _ _ Ha)) as Ht.
  unfold PAGE_SIZE in *. destruct (round_up_ok (cursor a) al) as (p & Ep & Hb & Hd); [lia|done|lia|].
  unfold bump, sbind, read, on_arena, slift. rewrite Ep. unfold uadd. rewrite (proj2 (Z.ltb_lt _ _)) by lia.
  destruct (Z.leb_spec (p + sz) (end_ a)) as [Hfit|Hno].
  - exists (Some p), (set_cursor (p + sz) a). split; [done|]. split_and!; [|done|unfold fits; cbn; lia|].
    + destruct Ha. split; try done. cbn. lia.
    + split; [done|]. intros b. unfold total. cbn [set_cursor set_slab cursor end_].
      change (free_ranges (set_cursor (p + sz) a)) with (free_ranges a). rewrite (holds_out b (heap_top h, _)) by (cbn; lia).
      pose proof (holds_split b (cursor a) (end_ a - cursor a) p sz (p + sz) (end_ a - (p + sz))). lia.
  - exists None, a. split; [done|]. split; [done|]. intros Hdc.
    rewrite round_up_fixed in Ep by (done || lia). injection Ep as <-. lia.
Qed.

(** What a request is answered with: the null pointer, or a block that has left the arena. *)
Definition handed (a : Arena) (h : H) (sz al p : Z) (a' : Arena) (h' : H) : Prop :=
  arena_ok a' h' /\ (p = 0 /\ spent a h a' h' (0, 0) \/ (al | p) /\ fits h' (p, sz) /\ spent a h a' h' (p, sz)).

Lemma handed_after a h a1 h1 sz al p a' h' : spent a h a1 h1 (0, 0) -> handed a1 h1 sz al p a' h' -> handed a h sz al p a' h'.
Proof.
  intros Hs [Ha [[Hp H1]|(Hd & Hf & H1)]]; split; try done; [left|right]; split_and!; try done; by apply (spent_trans a h a1 h1).
Qed.

(** A fresh slab holds the block it was mapped for. *)
Lemma bump_fresh a h sz al : arena_ok a h -> 0 < sz <= SLAB_SIZE -> pow2 al -> al <= PAGE_SIZE ->
  (PAGE_SIZE | cursor a) -> end_ a = cursor a + SLAB_SIZE ->
  exists p a', bump sz al (a, h) = (Ok (Some p), (a', h)) /\ handed a h sz al p a' h.
Proof.
  intros Ha Hsz Hp Hal Hc He. destruct (bump_ok a h sz al Ha) as ([p|] & a' & E & Hr); [unfold SLAB_SIZE in Hsz; lia|done|done|..].
  - exists p, a'. split; [done|]. destruct Hr as (? & ? & ? & ?). split; [done|]. by right.
  - destruct Hr as [_ Hn]. exfalso. assert (al | cursor a); [|specialize (Hn ltac:(done)); lia].
    eapply Z.divide_trans; [|exact Hc]. change PAGE_SIZE with (2 ^ 12) in *. by apply pow2_divide.
Qed.

Lemma slab_loop_ok a h sz al : arena_ok a h -> 0 < sz <= SLAB_SIZE -> pow2 al -> al <= PAGE_SIZE ->
  exists p a' h', bump_loop 2 sz al (a, h) = (Ok p, (a', h')) /\ handed a h sz al p a' h'.
Proof.
  intros Ha Hsz Hp Hal. destruct (bump_ok a h sz al Ha) as ([p|] & a1 & E1 & Hr); [unfold SLAB_SIZE in Hsz; lia|done|done|..].
  - exists p, a1, h. cbn [bump_loop]. unfold sbind. rewrite E1. split; [done|]. destruct Hr as (? & ? & ? & ?). split; [done|]. by right.
  - destruct Hr as [-> _]. destruct (slab_grow_ok a h Ha) as (g & a2 & h2 & E2 & Ha2 & Hs2 & Hg).
    cbn [bump_loop]. unfold sbind at 1. rewrite E1. unfold sbind at 1. rewrite E2. destruct g; cbn [negb].
    + destruct Hg as (Hc & He & _); [done|]. destruct (bump_fresh a2 h2 sz al) as (p & a3 & E3 & H3); [done..|].
      exists p, a3, h2. unfold sbind. rewrite E3. split; [done|]. by apply (handed_after _ _ a2 h2).
    + exists 0, a2, h2. split; [done|]. split; [done|]. by left.
Qed.

Lemma large_loop_ok a h sz al : arena_ok a h -> 0 < sz <= 2 ^ 63 -> pow2 al -> al <= PAGE_SIZE ->
  exists p a' h', large_loop 2 sz al (a, h) = (Ok p, (a', h')) /\ handed a h sz al p a' h'.
Proof.
  intros Ha Hsz Hp Hal. destruct (bump_ok a h sz al Ha Hsz Hp Hal) as ([p|] & a1 & E1 & Hr).
  { exists p, a1, h. cbn [large_loop]. unfold sbind. rewrite E1. split; [done|]. destruct Hr as (? & ? & ? & ?). split; [done|]. by right. }
  destruct Hr as [-> _]. cbn [large_loop]. unfold sbind at 1. rewrite E1. destruct (Z.ltb_spec SLAB_SIZE sz) as [Hbig|Hsmall].
  - pose proof (top_word h (ao_wf _ _ Ha)) as Ht. pose proof (heap_top_bounds h (ao_wf _ _ Ha)).
    destruct (syscall_ok a h sz Ha ltac:(lia)) as (base & h' & E & Ha' & [[-> Htop]|(-> & Hne & Hd & Hle & Htop)]);
      unfold sbind; rewrite E.
    + exists 0, a, h'. split; [done|]. split; [done|]. left. split; [done|]. split; [lia|]. intros b.
      rewrite (holds_out b (0, 0)) by (cbn; lia). pose proof (holds_bounds b (heap_top h, heap_top h' - heap_top h)). lia.
    + exists (heap_top h), a, h'. rewrite (proj2 (Z.eqb_neq _ _)) by done. split; [done|]. split; [done|]. right. split_and!.
      * eapply Z.divide_trans; [|exact Hd]. change PAGE_SIZE with (2 ^ 12) in *. by apply pow2_divide.
      * unfold fits. cbn. lia.
      * split; [lia|]. intros b. pose proof (holds_sub b (heap_top h) (heap_top h' - heap_top h) (heap_top h) sz). lia.
  - destruct (slab_grow_ok a h Ha) as (g & a2 & h2 & E2 & Ha2 & Hs2 & Hg). unfold sbind at 1. rewrite E2. destruct g; cbn [negb].
    + destruct Hg as (Hc & He & _); [done|]. destruct (bump_fresh a2 h2 sz al) as (p & a3 & E3 & H3); [done|lia|done..|].
      exists p, a3, h2. unfold sbind. rewrite E3. split; [done|]. by apply (handed_after _ _ a2 h2).
    + exists 0, a2, h2. split; [done|]. split; [done|]. by left.
Qed.

(** ** Large blocks *)

Definition node_ok (n : Z * Z) : Prop := (LARGE_NODE_ALIGN | n.1) /\ LARGE_NODE_SIZE <= n.2.

Definition taken (h : H) (sz al : Z) (nodes : list (Z * Z)) (r : option (Z * list (Z * Z))) : Prop :=
  match r with
  | None => True
  | Some (p, large) => (al | p) /\ fits h (p, sz) /\ Forall (fits h) large /\ Forall node_ok large /\
      forall b, cnt large b + holds_at b (p, sz) <= cnt nodes b
  end.

(** What is cut from one free block. *)
Lemma cut_ok h sz al node before rest p : heap_wf h -> LARGE_NODE_SIZE <= sz <= 2 ^ 63 -> (al | p) ->
  Forall (fits h) (before ++ node :: rest) -> Forall node_ok (before ++ node :: rest) ->
  node.1 <= p -> p + sz <= node.1 + node.2 ->
  taken h sz al (before ++ node :: rest) (Some (p, before ++ rest)) /\
  forall q, (LARGE_NODE_ALIGN | q) -> p + sz <= q -> q + LARGE_NODE_SIZE <= node.1 + node.2 ->
    taken h sz al (before ++ node :: rest) (Some (p, (q, node.1 + node.2 - q) :: before ++ rest)).
Proof.
  intros Hw Hsz Hd Hf Hn Hp He. rewrite Forall_app, list.Forall_cons in Hf, Hn. destruct Hf as (Hf1 & Hf2 & Hf3), Hn as (Hn1 & Hn2 & Hn3).
  destruct node as [s n]. unfold fits, LARGE_NODE_SIZE in *. cbn [fst snd] in *.
  assert (Hpf : fits h (p, sz)) by (unfold fits; cbn; lia). split.
  - cbn. split_and!; [done|done|by apply Forall_app|by apply Forall_app|]. intros b. rewrite cnt_middle.
    pose proof (holds_sub b s n p sz). lia.
  - intros q Hdq Hq Hqe. cbn [taken]. split_and!; [done|done|..].
    + constructor; [unfold fits; cbn; lia|by apply Forall_app].
    + constructor; [split; cbn; [done|unfold LARGE_NODE_SIZE; lia]|by apply Forall_app].
    + intros b. cbn [cnt]. rewrite cnt_middle. pose proof (holds_split b s n p sz q (s + n - q)). lia.
Qed.

Lemma first_fit_ok h sz al nodes : heap_wf h -> LARGE_NODE_SIZE <= sz <= 2 ^ 63 -> pow2 al -> al <= PAGE_SIZE -> forall before,
  Forall (fits h) (before ++ nodes) -> Forall node_ok (before ++ nodes) ->
  exists r, first_fit sz al before nodes = Ok r /\ taken h sz al (before ++ nodes) r.
Proof.
  intros Hw Hsz Hp Hal. pose proof (top_word h Hw) as Ht. pose proof heap_start_page as Hsp. unfold PAGE_SIZE, LARGE_NODE_SIZE in *.
  induction nodes as [|[s n] rest IH]; intros before Hf Hn; [by exists None|].
  assert (Hsn : fits h (s, n)) by (rewrite Forall_app, list.Forall_cons in Hf; apply Hf). unfold fits in Hsn. cbn in Hsn.
  destruct (round_up_ok s al) as (p & Ep & Hb & Hd); [lia|done|lia|].
  cbn [first_fit]. rewrite Ep. cbn [rbind]. unfold usub at 1. rewrite (proj2 (Z.leb_le _ _)) by lia. cbn [rbind].
  unfold uadd at 1. rewrite (proj2 (Z.ltb_lt _ _)) by lia. cbn [rbind]. destruct (Z.leb_spec (sz + (p - s)) n) as [Hfit|_].
  - destruct (cut_ok h sz al (s, n) before rest p) as [Hall Hrem]; [done|done|done|done|done|cbn; lia|cbn; lia|]. cbn [fst snd] in Hrem.
    unfold uadd at 1. rewrite (proj2 (Z.ltb_lt _ _)) by lia. cbn [rbind].
    unfold uadd at 1. rewrite (proj2 (Z.ltb_lt _ _)) by lia. cbn [rbind].
    destruct (round_up_ok (p + sz) LARGE_NODE_ALIGN) as (q & Eq & Hq & Hdq); [lia|by exists 3|unfold LARGE_NODE_ALIGN; lia|].
    unfold LARGE_NODE_ALIGN, LARGE_NODE_SIZE, LARGE_REMAINDER_MIN_BYTES in *. rewrite Eq. cbn [rbind].
    unfold uadd at 1. rewrite (proj2 (Z.ltb_lt _ _)) by lia. cbn [rbind].
    unfold uadd at 1. rewrite (proj2 (Z.ltb_lt _ _)) by lia. cbn [rbind].
    destruct (Z.leb_spec (q + 16 + 16) (s + n)); [|by eexists].
    unfold usub at 1. rewrite (proj2 (Z.leb_le _ _)) by lia. cbn [rbind]. eexists. split; [done|]. apply Hrem; [done|lia|lia].
  - destruct (IH (before ++ [(s, n)])) as (r & E & Hr); [by rewrite <- app_assoc..|].
    exists r. split; [exact E|]. by rewrite <- app_assoc in Hr.
Qed.

Lemma set_large_ok a h large : arena_ok a h -> Forall (fits h) large -> Forall node_ok large -> arena_ok (set_large large a) h.
Proof.
  intros [? ? Hf ? ? ?] Hl Hn. split; try done. unfold free_ranges in *. rewrite Forall_app in Hf.
  apply Forall_app. split; [apply Hf|done].
Qed.

Lemma alloc_large_ok a h sz al : arena_ok a h -> 0 < sz < 2 ^ 63 -> pow2 al -> al <= PAGE_SIZE ->
  exists p a' h', alloc_large 2 sz al (a, h) = (Ok p, (a', h')) /\
    handed a h (Z.max sz LARGE_NODE_SIZE) (Z.max al LARGE_NODE_ALIGN) p a' h'.
Proof.
  intros Ha Hsz Hp Hal. set (sz' := Z.max sz LARGE_NODE_SIZE). set (al' := Z.max al LARGE_NODE_ALIGN).
  assert (Hsz' : LARGE_NODE_SIZE <= sz' <= 2 ^ 63) by (unfold sz', LARGE_NODE_SIZE; lia).
  assert (Hp' : pow2 al') by (unfold al'; destruct (Z.max_spec al LARGE_NODE_ALIGN) as [[_ ->]|[_ ->]]; [by exists 3|done]).
  assert (Hal' : al' <= PAGE_SIZE) by (unfold al', LARGE_NODE_ALIGN, PAGE_SIZE in *; lia).
  pose proof (ao_free _ _ Ha) as Hf. unfold free_ranges in Hf. apply Forall_app in Hf as [_ Hf].
  destruct (first_fit_ok h sz' al' (large_head a) (ao_wf _ _ Ha) Hsz' Hp' Hal' [] Hf (ao_large _ _ Ha)) as (r & E & Hr).
  unfold alloc_large. fold sz' al'. unfold sbind at 1, read at 1, on_arena at 1. unfold sbind at 1, slift at 1. rewrite E.
  destruct r as [[p large]|].
  - exists p, (set_large large a), h. split; [done|]. destruct Hr as (Hd & Hfp & Hfl & Hnl & Hc).
    split; [by apply set_large_ok|]. right. split_and!; [done|done|]. split; [done|]. intros b. specialize (Hc b).
    unfold total, free_ranges. rewrite !cnt_app. cbn [set_large cursor end_ small_heads large_head app] in *.
    pose proof (holds_bounds b (heap_top h, heap_top h - heap_top h)). lia.
  - apply large_loop_ok; [done|unfold LARGE_NODE_SIZE in Hsz'; lia|done|done].
Qed.

(** ** Small blocks *)

(** Another list of free blocks in a size class. *)
Lemma set_small_ok a h i l l' : arena_ok a h -> small_heads a !! i = Some l ->
  (forall x, x ∈ l' -> (BLOCK_SIZES !!! i | x) /\ fits h (x, BLOCK_SIZES !!! i)) ->
  arena_ok (set_small i l' a) h /\
  forall b, total (set_small i l' a) b + cnt (small_range (BLOCK_SIZES !!! i) l) b
            = total a b + cnt (small_range (BLOCK_SIZES !!! i) l') b.
Proof.
  intros [Hw Hh Hf Hs Hsm Hl] Hi Hl'. pose proof (lookup_lt_Some _ _ _ Hi) as Hlt. rewrite Hh in Hlt.
  assert (Hbs : BLOCK_SIZES !! i = Some (BLOCK_SIZES !!! i)) by (apply list_lookup_lookup_total_lt; exact Hlt).
  unfold free_ranges in Hf. rewrite Forall_app in Hf. destruct Hf as [Hf1 Hf2]. split.
  - split; cbn [set_small small_heads large_head cursor end_]; [done|by rewrite length_insert| |done| |done].
    + unfold free_ranges. cbn [set_small small_heads large_head]. apply Forall_app. split; [|done]. apply list.Forall_forall. intros r Hr.
      apply elem_of_small in Hr as (j & bs & lj & Hb & Hj & Ers & Hx). destruct (decide (j = i)) as [->|Hne].
      * rewrite list_lookup_insert_eq in Hj by lia. injection Hj as <-. destruct (Hl' _ Hx) as [_ Hfx].
        rewrite Hbs in Hb. injection Hb as <-. rewrite <- Ers in Hfx. by destruct r.
      * rewrite list_lookup_insert_ne in Hj by done. rewrite list.Forall_forall in Hf1. apply Hf1, elem_of_small. by exists j, bs, lj.
    + intros j lj x Hj Hx. destruct (decide (j = i)) as [->|Hne].
      * rewrite list_lookup_insert_eq in Hj by lia. injection Hj as <-. by apply Hl'.
      * rewrite list_lookup_insert_ne in Hj by done. by apply (Hsm j lj).
  - intros b. unfold total, free_ranges. rewrite !cnt_app. cbn [set_small small_heads large_head cursor end_].
    pose proof (cnt_small_insert BLOCK_SIZES (small_heads a) i _ l l' b Hbs Hi). lia.
Qed.

Lemma head_lookup a h i : arena_ok a h -> (i < NUM_SIZES)%nat -> small_heads a !! i = Some (small_heads a !!! i).
Proof. intros Ha Hi. apply list_lookup_lookup_total_lt. by rewrite (ao_heads _ _ Ha). Qed.

Lemma small_fits a h i l x : arena_ok a h -> small_heads a !! i = Some l -> x ∈ l ->
  (BLOCK_SIZES !!! i | x) /\ fits h (x, BLOCK_SIZES !!! i).
Proof.
  intros Ha Hi Hx. split; [by apply (ao_small _ _ Ha i l)|]. pose proof (ao_free _ _ Ha) as Hf. rewrite list.Forall_forall in Hf.
  apply Hf. unfold free_ranges. apply elem_of_app. left. apply elem_of_small. exists i, (BLOCK_SIZES !!! i), l. split_and!; [|done..].
  apply list_lookup_lookup_total_lt. pose proof (lookup_lt_Some _ _ _ Hi) as Hlt. by rewrite (ao_heads _ _ Ha) in Hlt.
Qed.

Lemma alloc_small_ok a h i : arena_ok a h -> (i < NUM_SIZES)%nat ->
  exists p a' h', alloc_small 2 i (a, h) = (Ok p, (a', h')) /\ handed a h (BLOCK_SIZES !!! i) (BLOCK_SIZES !!! i) p a' h'.
Proof.
  intros Ha Hi. pose proof (head_lookup a h i Ha Hi) as Hl. unfold alloc_small. unfold sbind at 1, pop_small, on_arena.
  destruct (small_heads a !!! i) as [|x rest] eqn:El.
  - assert (E : set_small i [] a = a) by (unfold set_small; rewrite list_insert_id by done; by destruct a). rewrite E.
    destruct (block_size_facts i Hi) as (Hp & Hb & _). apply slab_loop_ok; unfold SLAB_SIZE, PAGE_SIZE; (done || lia).
  - destruct (set_small_ok a h i (x :: rest) rest Ha Hl) as [Ho Ht].
    { intros y Hy. apply (small_fits a h i (x :: rest)); [done|done|]. apply elem_of_cons. by right. }
    exists x, (set_small i rest a), h. split; [done|]. split; [done|]. right.
    destruct (small_fits a h i (x :: rest) x Ha Hl) as [Hd Hf]; [apply list_elem_of_here|]. split_and!; [done|done|].
    split; [done|]. intros b. specialize (Ht b). cbn in Ht.
    pose proof (holds_bounds b (heap_top h, heap_top h - heap_top h)). unfold small_range in Ht. lia.
Qed.

(** ** Requests *)

Lemma small_class_ok l i : small_class l = Some i -> align l <= 8 /\ (i < NUM_SIZES)%nat /\ size l <= BLOCK_SIZES !!! i.
Proof. unfold small_class. destruct (Z.leb_spec (align l) 8); [|done]. intros E. by apply list_index_ok in E. Qed.

Lemma small_class_none l : small_class l = None -> 4096 < size l \/ 8 < align l.
Proof. unfold small_class. destruct (Z.leb_spec (align l) 8); [|lia]. intros E. apply list_index_none in E. lia. Qed.

Lemma align_divides l al : pow2 (align l) -> pow2 al -> align l <= al -> (align l | al).
Proof.
  intros H1 (k & Hk & ->) Hle. by apply pow2_divide.
Qed.

(** An answered request: the null pointer, or a block in order that has left the arena. *)
Definition answered (a : Arena) (h : H) (l : Layout) (p : Z) (a' : Arena) (h' : H) : Prop :=
  arena_ok a' h' /\
  (p = 0 /\ spent a h a' h' (0, 0) \/
   p <> 0 /\ block_ok (p, l) /\ fits h' (footprint (p, l)) /\ spent a h a' h' (footprint (p, l))).

Lemma alloc_ok a h l : arena_ok a h -> layout_ok l ->
  exists p a' h', alloc 2 l (a, h) = (Ok p, (a', h')) /\ answered a h l p a' h'.
Proof.
  intros Ha Hl. pose proof Hl as (Hsz & Hp & Hal). unfold alloc. rewrite (proj2 (Z.eqb_neq _ _)) by lia.
  pose proof heap_start_page as Hst. unfold PAGE_SIZE in Hst.
  destruct (small_class l) as [i|] eqn:Ec.
  - destruct (small_class_ok l i Ec) as (Hal8 & Hi & _). destruct (block_size_facts i Hi) as (Hbp & Hb & H8 & _).
    destruct (alloc_small_ok a h i Ha Hi) as (p & a' & h' & E & Ho & Hr). exists p, a', h'. split; [exact E|]. split; [done|].
    destruct Hr as [Hr|(Hd & Hf & Hs)]; [by left|right]. assert (p <> 0) by (unfold fits in Hf; cbn in Hf; lia).
    unfold block_ok, node_align, footprint. cbn [fst snd]. rewrite Ec. split_and!; try done.
    eapply Z.divide_trans; [|exact Hd]. apply align_divides; [done|done|lia].
  - rewrite (proj2 (orb_true_iff _ _)) by (rewrite !Z.ltb_lt; by apply small_class_none).
    destruct (alloc_large_ok a h (size l) (align l) Ha Hsz Hp Hal) as (p & a' & h' & E & Ho & Hr).
    exists p, a', h'. split; [exact E|]. split; [done|].
    destruct Hr as [Hr|(Hd & Hf & Hs)]; [by left|right]. assert (p <> 0) by (unfold fits in Hf; cbn in Hf; lia).
    assert (H8 : pow2 LARGE_NODE_ALIGN) by by exists 3.
    unfold block_ok, node_align, footprint. cbn [fst snd]. rewrite Ec.
    destruct (Z.max_spec (align l) LARGE_NODE_ALIGN) as [[Hlt Em]|[Hge Em]]; rewrite Em in Hd; split_and!; try done.
    + eapply Z.divide_trans; [|exact Hd]. apply align_divides; [done|done|lia].
    + eapply Z.divide_trans; [|exact Hd]. destruct Hp as (k & Hk & Ek). rewrite Ek in *. by apply pow2_divide.
Qed.

Lemma dealloc_ok a h p l : arena_ok a h -> block_ok (p, l) -> fits h (footprint (p, l)) ->
  exists a', dealloc p l (a, h) = (Ok tt, (a', h)) /\ arena_ok a' h /\
    forall b, total a' b = total a b + holds_at b (footprint (p, l)).
Proof.
  intros Ha ((Hsz & _) & _ & Hd) Hf. cbn [fst snd] in *. pose proof heap_start_page as Hst. unfold PAGE_SIZE in Hst.
  assert (Hp : p <> 0) by (unfold fits in Hf; cbn in Hf; lia). unfold dealloc.
  rewrite (proj2 (Z.eqb_neq p 0)), (proj2 (Z.eqb_neq (size l) 0)) by lia. cbn [orb].
  unfold footprint, node_align in *. cbn [fst snd] in *. destruct (small_class l) as [i|] eqn:Ec.
  - destruct (small_class_ok l i Ec) as (_ & Hi & _). pose proof (head_lookup a h i Ha Hi) as Hl.
    destruct (set_small_ok a h i _ (p :: small_heads a !!! i) Ha Hl) as [Ho Ht].
    { intros x Hx. apply elem_of_cons in Hx as [->|Hx]; [done|]. by apply (small_fits a h i (small_heads a !!! i)). }
    eexists. split; [done|]. split; [done|]. intros b. specialize (Ht b). cbn in Ht. unfold small_range in Ht. lia.
  - unfold sbind, sassert. pose proof (Z.mod_divide p LARGE_NODE_ALIGN) as Hm. rewrite (proj2 (Z.eqb_eq _ _)) by (apply Hm; [done|exact Hd]).
    eexists. split; [done|]. pose proof (ao_free _ _ Ha) as Hfr. unfold free_ranges in Hfr. apply Forall_app in Hfr as [_ Hfr]. split.
    + apply set_large_ok; [done|by constructor|]. constructor; [|by destruct Ha]. split; [done|cbn; lia].
    + intros b. unfold total, free_ranges. rewrite !cnt_app. cbn [set_large small_heads large_head cursor end_ cnt]. lia.
Qed.

(** ** Programs *)

Definition op_ok (op : HeapOp) : Prop :=
  match op with
  | HAlloc l => layout_ok l
  | HFree _ => True
  | HPreallocate n => 0 < n < 2 ^ 63
  end.

Lemma start_ok h : heap_wf h -> heap_ok new h [].
Proof.
  intros Hw. pose proof (top_word h Hw) as Ht. unfold PAGE_SIZE in Ht. split; [split; try done|done|done|].
  - cbn. lia.
  - intros i l x Hi Hx. apply lookup_replicate in Hi as [-> _]. by apply elem_of_nil in Hx.
  - intros b. change (0 + (0 + holds_at b (0, 0)) <= 1). rewrite holds_out by (cbn; lia). done.
Qed.

(** Spending a range the live blocks do not reach keeps them apart. *)
Lemma once_spent a h live a' h' r : heap_ok a h live -> spent a h a' h' r ->
  forall b, cnt (footprint <$> live) b + (total a' b + holds_at b r) <= 1.
Proof.
  intros [Ha _ Hi Ho] [_ Hs] b. specialize (Hs b). specialize (Ho b).
  pose proof (holds_bounds b (heap_top h, heap_top h' - heap_top h)). destruct (decide (heap_top h <= b)).
  - rewrite (total_above a h b) in Hs, Ho by done. rewrite (cnt_above h) by done. lia.
  - rewrite (holds_out b (heap_top h, _)) in Hs by (cbn; lia). lia.
Qed.

Lemma inside_mono h h' rs : heap_top h <= heap_top h' -> Forall (fits h) rs -> Forall (fits h') rs.
Proof. intros Ht. apply List.Forall_impl. intros r. by apply fits_mono. Qed.

Lemma heap_keep a h live a' h' : heap_ok a h live -> arena_ok a' h' -> spent a h a' h' (0, 0) -> heap_ok a' h' live.
Proof.
  intros Hh Ha' Hs. split; [done|by destruct Hh|apply (inside_mono h); [apply Hs|by destruct Hh]|].
  intros b. pose proof (once_spent a h live a' h' _ Hh Hs b) as Ho. rewrite (holds_out b (0, 0)) in Ho by (cbn; lia). lia.
Qed.

Lemma heap_take a h live a' h' bl : heap_ok a h live -> arena_ok a' h' -> block_ok bl -> fits h' (footprint bl) ->
  spent a h a' h' (footprint bl) -> heap_ok a' h' (bl :: live).
Proof.
  intros Hh Ha' Hb Hf Hs. split; [done|constructor; [done|by destruct Hh]| |].
  - constructor; [done|]. apply (inside_mono h); [apply Hs|by destruct Hh].
  - intros b. pose proof (once_spent a h live a' h' _ Hh Hs b). cbn. lia.
Qed.

Lemma heap_give a h live i bl a' : heap_ok a h live -> live !! i = Some bl -> arena_ok a' h ->
  (forall b, total a' b = total a b + holds_at b (footprint bl)) -> heap_ok a' h (delete i live).
Proof.
  intros [_ Hb Hin Ho] Hi Ha' Ht. destruct (delete_split live i bl Hi) as (l1 & l2 & -> & ->).
  rewrite fmap_app, fmap_cons in Hin, Ho. rewrite Forall_app, list.Forall_cons in Hb. rewrite Forall_app, list.Forall_cons in Hin.
  split; [done|apply Forall_app; tauto| |].
  - rewrite fmap_app. apply Forall_app. tauto.
  - intros b. specialize (Ho b). rewrite fmap_app. rewrite cnt_middle in Ho. rewrite Ht. lia.
Qed.

Lemma preallocate_ok a h n : arena_ok a h -> 0 < n < 2 ^ 63 ->
  exists a' h', preallocate n (a, h) = (Ok tt, (a', h')) /\ arena_ok a' h' /\ spent a h a' h' (0, 0).
Proof.
  intros Ha Hn. pose proof (ao_wf _ _ Ha) as Hw. pose proof (top_word h Hw) as Ht. pose proof (heap_top_bounds h Hw) as Hb.
  destruct (syscall_ok a h n Ha ltac:(lia)) as (base & h' & E & Ha' & [[-> Htop]|(-> & Hne & Hd & Hle & Htop)]);
    unfold preallocate, sbind; rewrite E.
  - exists a, h'. split; [done|]. split; [done|]. split; [lia|]. intros b.
    rewrite (holds_out b (0, 0)) by (cbn; lia). pose proof (holds_bounds b (heap_top h, heap_top h' - heap_top h)). lia.
  - rewrite (proj2 (Z.eqb_neq _ _)) by done. unfold slift, uadd. rewrite (proj2 (Z.ltb_lt _ _)) by lia.
    eexists _, h'. split; [done|]. apply set_slab_ok; [done|lia..].
Qed.

Lemma heap_step_ok a h live op : heap_ok a h live -> op_ok op ->
  exists live' a' h', heap_step op live (a, h) = (Ok live', (a', h')) /\ heap_ok a' h' live'.
Proof.
  intros Hh Hop. pose proof (ho_arena _ _ _ Hh) as Ha. destruct op as [l|i|n]; cbn [heap_step op_ok] in *.
  - destruct (alloc_ok a h l Ha Hop) as (p & a' & h' & E & Ha' & Hr). unfold sbind. rewrite E. destruct Hop as [Hsz _].
    rewrite (proj2 (Z.eqb_neq (size l) 0)), orb_false_r by lia. eexists _, a', h'. split; [done|].
    destruct Hr as [[-> Hs]|(Hp & Hb & Hf & Hs)]; [by apply (heap_keep a h)|].
    rewrite (proj2 (Z.eqb_neq p 0)) by done. by apply (heap_take a h).
  - destruct (live !! i) as [[p l]|] eqn:Ei; [|by exists live, a, h].
    pose proof (ho_blocks _ _ _ Hh) as Hb. pose proof (ho_inside _ _ _ Hh) as Hf. rewrite Forall_fmap in Hf.
    destruct (dealloc_ok a h p l Ha) as (a' & E & Ha' & Ht);
      [by apply (Forall_lookup_1 _ _ _ _ Hb Ei)|by apply (Forall_lookup_1 _ _ _ _ Hf Ei)|].
    exists (delete i live), a', h. unfold sbind. rewrite E. split; [done|]. by apply (heap_give a h live i (p, l)).
  - destruct (preallocate_ok a h n Ha Hop) as (a' & h' & E & Ha' & Hs). exists live, a', h'. unfold sbind. rewrite E.
    split; [done|]. by apply (heap_keep a h).
Qed.

Lemma heap_run_ok ops : Forall op_ok ops -> forall a h live, heap_ok a h live ->
  exists live' a' h', heap_run ops live (a, h) = (Ok live', (a', h')) /\ heap_ok a' h' live'.
Proof.
  induction 1 as [|op ops Hop _ IH]; intros a h live Hh; [by exists live, a, h|].
  destruct (heap_step_ok a h live op Hh Hop) as (live1 & a1 & h1 & E & Hh1). cbn [heap_run]. unfold sbind. rewrite E. by apply IH.
Qed.

(** The block of a layout holds as many bytes as were asked for. *)
Lemma footprint_size l p : layout_ok l -> size l <= (footprint (p, l)).2.
Proof.
  intros _. unfold footprint. cbn. destruct (small_class l) as [i|] eqn:Ec; [|lia]. by apply small_class_ok in Ec as (_ & _ & ?).
Qed.

(** C30: The heap of a user program never gives out the same byte twice: from a fresh arena,
    for every sequence of allocations (of any size and of alignments up to a page), frees and
    preallocations, each call returns, its loops going round at most twice, without overflow or
    a failed assertion; every block the program holds at the end lies in the heap at an address
    of the asked alignment, and any two of the blocks are disjoint.  A wider alignment is
    ignored: [wide_alignment_ignored]. *)
Theorem heap_blocks_apart (ops : list HeapOp) (h : H) : heap_wf h -> Forall op_ok ops ->
  exists live a' h', heap_run ops [] (new, h) = (Ok live, (a', h')) /\
    (forall i p l, live !! i = Some (p, l) ->
      heap_start <= p /\ p + size l <= heap_top h' /\ (align l | p) /\
      forall j q m, live !! j = Some (q, m) -> i <> j -> disjoint (p, size l) (q, size m)).
Proof.
  intros Hw Hops. destruct (heap_run_ok ops Hops new h [] (start_ok h Hw)) as (live & a' & h' & E & [Ha Hb Hin Ho]).
  exists live, a', h'. split; [exact E|]. intros i p l Hi.
  pose proof (Forall_lookup_1 _ _ _ _ Hb Hi) as (Hl & Hal & _). pose proof (footprint_size l p Hl) as Hsz.
  rewrite Forall_fmap in Hin. pose proof (Forall_lookup_1 _ _ _ _ Hin Hi) as (Hs & _ & He). cbn [compose fst snd] in *.
  change (p + (footprint (p, l)).2 <= heap_top h') in He. split_and!; [done|lia|done|]. intros j q m Hj Hne b [Hp Hq]. cbn in Hp, Hq.
  pose proof (Forall_lookup_1 _ _ _ _ Hb Hj) as (Hm & _). pose proof (footprint_size m q Hm) as Hsm. cbn [fst snd] in Hsm.
  apply (cnt_apart (footprint <$> live) i j (footprint (p, l)) (footprint (q, m))) with (b := b); [|done|by rewrite list_lookup_fmap, Hi|by rewrite list_lookup_fmap, Hj|].
  - intros c. specialize (Ho c). unfold total in Ho. pose proof (cnt_nonneg (free_ranges a') c).
    pose proof (holds_bounds c (cursor a', end_ a' - cursor a')). lia.
  - change (footprint (p, l)).1 with p. change (footprint (q, m)).1 with q. lia.
Qed.

End spec.

(** ** The user allocator on the kernel's heap system call

    The memory of a process, with [allocate_heap] behind the system call, keeps every promise
    the user program's allocator relies on: its heap is a range of pages that only grows at its
    top, and no other region lies above the top. *)

Section kernel.
Context (USABLE : Z) {VA : VirtAddrApi} {VL : VirtAddrLaws} {PF : PageFlags} {PFL : PageFlagsLaws}.
Context {T : Type} {PM : PageMapper USABLE T} {PL : PageMapperLaws USABLE T}.

Abbreviation Proc := (ProcessMemoryLayout * Machine T)%type.

(** The kernel's side of the system call, as [sys_allocate] of kernel/src/process/syscall.rs
    answers it. *)
#[export] Instance process_allocate : SysAllocate Proc := fun n s =>
  let '(r, s') := allocate_heap USABLE n s in
  (match r with
   | Ok old_ptr => Ok old_ptr
   | Err _ => Ok U64_MAX
   | Panic => Panic
   | OutOfFuel => OutOfFuel
   end, s').

(** Nothing is tracked in the heap's window above its end. *)
Definition clear_above (p : ProcessMemoryLayout) : Prop :=
  forall a f o, heap_end p <= a < PROCESS_HEAP_VIRT_END -> ~ covers (regions p) a f o.

Definition process_heap_wf (s : Proc) : Prop :=
  exists view others, proc_ok USABLE s view others /\ ProcessMemSpec.heap_ok s.1 /\ clear_above s.1.

Lemma process_allocate_ok s n : process_heap_wf s -> 0 < n -> exists base s', sys_allocate n s = (Ok base, s') /\ process_heap_wf s' /\
  (base = INVALID_ALLOC /\ heap_end s'.1 = heap_end s.1 \/ base = heap_end s.1 /\ heap_end s'.1 = heap_end s.1 + page_up n).
Proof.
  intros (view & others & Hs & Hh & Hc) Hn. pose proof Hh as [_ Hd].
  destruct (allocate_heap_ok USABLE s view others n Hs Hh Hn) as (r & s' & view' & tabs & E & Hs' & Hh' & Hr).
  { intros Hfit a f o Ha. apply range_aligned in Ha; [|done|apply page_up_divide]. apply Hc. lia. }
  unfold sys_allocate, process_allocate. rewrite E. destruct r as [v|e| |]; cbn in Hr; [| |done|done].
  - destruct Hr as (-> & He & [Ht _]). eexists _, s'. split; [done|]. split; [|by right].
    exists view', (tabs ++ others). split_and!; [done|done|]. intros a f o Ha Hcov. pose proof (page_up_bounds n) as [Hp _].
    apply Ht in Hcov as [Hcov|[Hr _]]; [apply (Hc a f o); [lia|done]|].
    apply range_aligned in Hr; [lia|done|apply page_up_divide].
  - exists U64_MAX, s'. split; [done|]. assert (Es : s'.1 = s.1) by (destruct e; [by destruct Hr as [-> _]|by destruct Hr|by destruct Hr..]).
    split; [|left; by rewrite Es]. exists view', (tabs ++ others). split_and!; [done|done|]. by rewrite Es.
Qed.

#[export] Instance process_heap_laws : SysAllocateLaws Proc.
Proof.
  apply (Build_SysAllocateLaws Proc process_allocate process_heap_wf (fun s => heap_end s.1) PROCESS_HEAP_VIRT_START).
  - done.
  - intros s (view & others & _ & [Hb _] & _). split; [lia|]. etransitivity; [apply Hb|]. done.
  - intros s (view & others & _ & [_ Hd] & _). exact Hd.
  - exact process_allocate_ok.
Defined.

End kernel.

(** ** A program on a new process *)

Definition demo_heap_ops : list HeapOp :=
  [HAlloc (mkLayout 24 8); HAlloc (mkLayout 5000 16); HAlloc (mkLayout 20000 4096); HFree 1; HFree 0;
   HAlloc (mkLayout 30 1); HAlloc (mkLayout 100 32); HPreallocate 100000; HAlloc (mkLayout 4096 8)].

Lemma new_heap_wf : process_heap_wf 0 (new_layout, new_machine).
Proof.
  exists (fun _ => None), []. split_and!; [exact new_proc_ok| |].
  - split; [vm_compute; split; discriminate|]. by exists 393216.
  - intros a f o _ Hf. by apply covers_nil in Hf.
Defined.

(** The preallocation fails, as the machine is too small; the slab stays the old one. *)
Definition demo_live : list (Z * Layout) :=
  [(PROCESS_HEAP_VIRT_START + 0x2000, mkLayout 4096 8); (PROCESS_HEAP_VIRT_START + 0x4000, mkLayout 100 32);
   (PROCESS_HEAP_VIRT_START + 0x13C0, mkLayout 30 1); (PROCESS_HEAP_VIRT_START, mkLayout 24 8)].

Lemma demo_heap_runs :
  (heap_run (SYS := process_allocate 0) demo_heap_ops [] (UserHeap.new, (new_layout, new_machine))).1 = Ok demo_live.
Proof. vm_compute. reflexivity. Qed.

Lemma heap_blocks_apart_witness :
  exists a' h', heap_run (SYS := process_allocate 0) demo_heap_ops [] (UserHeap.new, (new_layout, new_machine)) = (Ok demo_live, (a', h')) /\
    disjoint (PROCESS_HEAP_VIRT_START + 0x2000, 4096) (PROCESS_HEAP_VIRT_START + 0x13C0, 30).
Proof.
  destruct (heap_blocks_apart (SL := process_heap_laws 0) demo_heap_ops (new_layout, new_machine) new_heap_wf) as (live & a' & h' & E & Hall).
  { repeat constructor; cbn; try lia; try (unfold PAGE_SIZE; lia); [by exists 3|by exists 4|by exists 12|by exists 0|by exists 5|by exists 3]. }
  pose proof demo_heap_runs as Hr. rewrite E in Hr. injection Hr as ->. exists a', h'. split; [exact E|].
  destruct (Hall 0%nat (PROCESS_HEAP_VIRT_START + 0x2000) (mkLayout 4096 8) eq_refl) as (_ & _ & _ & Hd).
  exact (Hd 2%nat (PROCESS_HEAP_VIRT_START + 0x13C0) (mkLayout 30 1) eq_refl ltac:(lia)).
Defined.

(** Alignments wider than a page are outside the theorem, and for good reason: a block that is
    mapped by itself lies at the top of the heap, wherever that is.  Here an alignment of
    0x8000 is asked for and the address is 0x60001000. *)
Lemma wide_alignment_ignored :
  match heap_run (SYS := process_allocate 0) [HPreallocate 4096; HAlloc (mkLayout 20000 0x8000)] [] (UserHeap.new, (new_layout, new_machine)) with
  | (Ok live, _) => head (fst <$> live) = Some 0x60001000
  | _ => False
  end.
Proof. vm_compute. reflexivity. Qed.
