(* ===== verification/KernelHeap.v ===== *)
(** * KernelHeap: the kernel's global allocator, kernel/src/memory/allocator.rs

    [FixedSizeBlockAllocator] keeps a list of free blocks for each of ten size classes; a class
    that has none, and every larger request, is served by the [linked_list_allocator] crate,
    which is a class here with the promises its documentation makes.  The free lists run through
    the free blocks themselves; the model keeps the addresses.  The lock makes every call
    atomic.  The theorem holds for every history of allocations and frees. *)

From Stdlib Require Import ZArith Lia.
From stdpp Require Import base tactics list option numbers.
From S2P Require Import Prelude Ranges.

Open Scope rust_scope.

Definition HEAP_POINTER : Z := 0xFFFF808000000000.
Definition HEAP_SIZE_BYTES : Z := 32 * 1024 * 1024.

Definition BLOCK_SIZES : list Z := [8; 16; 32; 64; 128; 256; 512; 1024; 2048; 4096].

(** [linked_list_allocator::Heap] *)
Class FallbackHeap (A : Type) : Type := {
  empty : A;
  init : Z -> Z -> A -> A;
  allocate_first_fit : Layout -> A -> option Z * A;
  deallocate : Z -> Layout -> A -> A;
}.

Record FixedSizeBlockAllocator (A : Type) : Type := mkAllocator {
  lists : list (list Z);
  fallback_allocator : A;
}.
Arguments mkAllocator {A}.
Arguments lists {A}.
Arguments fallback_allocator {A}.

Definition get_block_index (l : Layout) : option nat :=
  fst <$> list_find (fun s => Z.max (size l) (align l) <= s) BLOCK_SIZES.

Section allocator.
Context {A : Type} {FB : FallbackHeap A}.

Abbreviation Allocator := (FixedSizeBlockAllocator A).
Abbreviation HeapM := (stM Allocator Empty_set).

Definition new : Allocator := mkAllocator (replicate (length BLOCK_SIZES) []) empty.

Definition init_fallback_allocator (heap_start heap_size : Z) : HeapM unit := fun s =>
  (Ok tt, mkAllocator (lists s) (init heap_start heap_size (fallback_allocator s))).

(** The null pointer is zero. *)
Definition allocate_with_fallback_allocator (l : Layout) : HeapM Z := fun s =>
  let '(r, f) := allocate_first_fit l (fallback_allocator s) in
  (Ok (match r with Some ptr => ptr | None => 0 end), mkAllocator (lists s) f).

Definition set_list (i : nat) (l : list Z) (s : Allocator) : Allocator :=
  mkAllocator (<[ i := l ]> (lists s)) (fallback_allocator s).

(** [lists[index].take()] and, with a node, [lists[index] = node.next.take()] *)
Definition take_block (index : nat) : HeapM (option Z) := fun s =>
  match lists s !!! index with
  | [] => (Ok None, set_list index [] s)
  | node :: next => (Ok (Some node), set_list index next s)
  end.

Definition alloc (l : Layout) : HeapM Z :=
  match get_block_index l with
  | Some index =>
      let! found := take_block index in
      match found with
      | Some node => sret node
      | None =>
          let block_size := BLOCK_SIZES !!! index in
          allocate_with_fallback_allocator (mkLayout block_size block_size)
      end
  | None => allocate_with_fallback_allocator l
  end.

(** The list node is a pointer of eight bytes, aligned to eight. *)
Definition dealloc (ptr : Z) (l : Layout) : HeapM unit :=
  match get_block_index l with
  | Some index =>
      let! next := (fun s => (Ok (lists s !!! index), set_list index [] s)) in
      sassert (8 <=? BLOCK_SIZES !!! index) ;;;
      sassert (8 <=? BLOCK_SIZES !!! index) ;;;
      (fun s => (Ok tt, set_list index (ptr :: next) s))
  | None =>
      if ptr =? 0 then spanic
      else fun s => (Ok tt, mkAllocator (lists s) (deallocate ptr l (fallback_allocator s)))
  end.

(** A use of the heap: the blocks held, newest first, each with its layout. *)
Inductive KernelHeapOp : Type :=
  | KAlloc (l : Layout)
  | KFree (i : nat).

Definition kernel_heap_step (op : KernelHeapOp) (live : list (Z * Layout)) : HeapM (list (Z * Layout)) :=
  match op with
  | KAlloc l => let! p := alloc l in sret (if p =? 0 then live else (p, l) :: live)
  | KFree i => match live !! i with
               | Some (p, l) => dealloc p l ;;; sret (delete i live)
               | None => sret live
               end
  end.

Fixpoint kernel_heap_run (ops : list KernelHeapOp) (live : list (Z * Layout)) : HeapM (list (Z * Layout)) :=
  match ops with
  | [] => sret live
  | op :: ops => let! live := kernel_heap_step op live in kernel_heap_run ops live
  end.

End allocator.

(** ** The crate's promises *)

Definition span (bl : Z * Layout) : Z * Z := (bl.1, size bl.2).

(** What [linked_list_allocator] documents: a block lies in the heap, at an address of the
    layout's alignment, apart from the blocks in use; a block in use can be given back with
    the layout it was asked for. *)
Class FallbackLaws (A : Type) {FB : FallbackHeap A} : Type := {
  in_use : Z -> Z -> A -> list (Z * Layout) -> Prop;
  in_use_perm start n a used used' : used ≡ₚ used' -> in_use start n a used -> in_use start n a used';
  init_ok start n : 0 < start -> in_use start n (init start n empty) [];
  in_use_inside start n a used : in_use start n a used ->
    Forall (fun bl => start <= bl.1 /\ bl.1 + size bl.2 <= start + n /\ (align bl.2 | bl.1)) used;
  in_use_once start n a used b : in_use start n a used -> cnt (span <$> used) b <= 1;
  allocate_ok start n a used l : in_use start n a used -> 0 <= size l -> pow2 (align l) ->
    match allocate_first_fit l a with
    | (Some p, a') => in_use start n a' ((p, l) :: used)
    | (None, a') => in_use start n a' used
    end;
  deallocate_ok start n a used p l : in_use start n a ((p, l) :: used) -> in_use start n (deallocate p l a) used;
}.

Section spec.
Context {A : Type} {FB : FallbackHeap A} {FL : FallbackLaws A}.

Abbreviation Allocator := (FixedSizeBlockAllocator A).

Definition layout_ok (l : Layout) : Prop := 0 < size l /\ pow2 (align l).

(** The layout the crate was asked for. *)
Definition class_layout (i : nat) : Layout := mkLayout (BLOCK_SIZES !!! i) (BLOCK_SIZES !!! i).

Definition asked (bl : Z * Layout) : Z * Layout :=
  (bl.1, match get_block_index bl.2 with Some i => class_layout i | None => bl.2 end).

Definition class_blocks (sizes : list Z) (ls : list (list Z)) : list (Z * Layout) :=
  mjoin (zip_with (fun bs l => (fun p => (p, mkLayout bs bs)) <$> l) sizes ls).

(** Every block the crate has given out is held by the program or free in its class. *)
Record allocator_ok (s : Allocator) (live : list (Z * Layout)) : Prop := {
  al_lists : length (lists s) = length BLOCK_SIZES;
  al_live : Forall layout_ok live.*2;
  al_used : in_use HEAP_POINTER HEAP_SIZE_BYTES (fallback_allocator s) ((asked <$> live) ++ class_blocks BLOCK_SIZES (lists s));
}.

Lemma get_block_index_ok l i : get_block_index l = Some i ->
  (i < length BLOCK_SIZES)%nat /\ Z.max (size l) (align l) <= BLOCK_SIZES !!! i.
Proof.
  unfold get_block_index. intros E. apply fmap_Some in E as ([j s] & E & ->). apply list_find_Some in E as (Hj & Hs & _). cbn.
  split; [by apply lookup_lt_Some in Hj|]. by rewrite (list_lookup_total_correct _ _ _ Hj).
Qed.

Lemma class_layout_ok i : (i < length BLOCK_SIZES)%nat -> layout_ok (class_layout i) /\ 8 <= BLOCK_SIZES !!! i.
Proof.
  intros Hi. unfold layout_ok, class_layout, BLOCK_SIZES. cbn [size align]. rewrite size_class by exact Hi.
  pose proof (Z.pow_le_mono_r 2 3 (3 + Z.of_nat i)). split; [split; [lia|exists (3 + Z.of_nat i); lia]|lia].
Qed.

Definition class_range (bs : Z) (l : list Z) : list (Z * Layout) := (fun p => (p, mkLayout bs bs)) <$> l.

Lemma class_blocks_insert sizes ls i bs l l' : sizes !! i = Some bs -> ls !! i = Some l ->
  class_range bs l ++ class_blocks sizes (<[ i := l' ]> ls) ≡ₚ class_range bs l' ++ class_blocks sizes ls.
Proof.
  assert (Hc : forall s sizes x ls, class_blocks (s :: sizes) (x :: ls) = class_range s x ++ class_blocks sizes ls) by done.
  revert ls i. induction sizes as [|s sizes IH]; intros [|x ls] [|i]; try done.
  - intros [= ->] [= ->]. change (<[ 0%nat := l' ]> (l :: ls)) with (l' :: ls). rewrite !Hc. solve_Permutation.
  - intros Hs Hl. change (<[ S i := l' ]> (x :: ls)) with (x :: <[ i := l' ]> ls). rewrite !Hc.
    rewrite !(Permutation_app_swap_app _ (class_range s x)). by rewrite (IH ls i).
Qed.

(** Another list in a class: the class's own part of the used blocks changes. *)
Lemma set_list_used (s : Allocator) live i l l' : length (lists s) = length BLOCK_SIZES -> lists s !! i = Some l ->
  class_range (BLOCK_SIZES !!! i) l ++ live ++ class_blocks BLOCK_SIZES (lists (set_list i l' s))
  ≡ₚ class_range (BLOCK_SIZES !!! i) l' ++ live ++ class_blocks BLOCK_SIZES (lists s).
Proof.
  intros Hlen Hi. rewrite !(Permutation_app_swap_app _ live). apply Permutation_app_head, class_blocks_insert; [|done].
  apply list_lookup_lookup_total_lt. rewrite <- Hlen. by eapply lookup_lt_Some.
Qed.

Lemma pop_used (s : Allocator) live i x rest : length (lists s) = length BLOCK_SIZES -> lists s !! i = Some (x :: rest) ->
  live ++ class_blocks BLOCK_SIZES (lists s) ≡ₚ (x, class_layout i) :: live ++ class_blocks BLOCK_SIZES (lists (set_list i rest s)).
Proof.
  intros Hlen Hi. pose proof (set_list_used s live i (x :: rest) rest Hlen Hi) as Hp. symmetry.
  apply (Permutation_app_inv_l (class_range (BLOCK_SIZES !!! i) rest)). rewrite <- Hp. symmetry. apply Permutation_middle.
Qed.

Lemma push_used (s : Allocator) live i x rest : length (lists s) = length BLOCK_SIZES -> lists s !! i = Some rest ->
  live ++ class_blocks BLOCK_SIZES (lists (set_list i (x :: rest) s)) ≡ₚ (x, class_layout i) :: live ++ class_blocks BLOCK_SIZES (lists s).
Proof.
  intros Hlen Hi. pose proof (set_list_used s live i rest (x :: rest) Hlen Hi) as Hp.
  apply (Permutation_app_inv_l (class_range (BLOCK_SIZES !!! i) rest)). rewrite Hp. apply Permutation_middle.
Qed.

Lemma list_at s live i : allocator_ok s live -> (i < length BLOCK_SIZES)%nat -> lists s !! i = Some (lists s !!! i).
Proof. intros [Hl _ _] Hi. apply list_lookup_lookup_total_lt. by rewrite Hl. Qed.

Lemma asked_class p l i : get_block_index l = Some i -> asked (p, l) = (p, class_layout i).
Proof. intros E. unfold asked. cbn [fst snd]. by rewrite E. Qed.

Lemma asked_own p l : get_block_index l = None -> asked (p, l) = (p, l).
Proof. intros E. unfold asked. cbn [fst snd]. by rewrite E. Qed.

(** A new block from the crate. *)
Lemma fallback_ok s live l q : allocator_ok s live -> layout_ok l -> layout_ok q -> (forall p, asked (p, l) = (p, q)) ->
  exists p s', allocate_with_fallback_allocator q s = (Ok p, s') /\ allocator_ok s' (if p =? 0 then live else (p, l) :: live).
Proof.
  intros [Hl Hv Hu] Hlay [Hq1 Hq2] Hask. unfold allocate_with_fallback_allocator.
  pose proof (allocate_ok _ _ _ _ q Hu ltac:(lia) Hq2) as Ha. destruct (allocate_first_fit q (fallback_allocator s)) as [[p|] f].
  - exists p, (mkAllocator (lists s) f). split; [done|]. pose proof (in_use_inside _ _ _ _ Ha) as Hin.
    apply list.Forall_cons in Hin as [Hin _]. rewrite (proj2 (Z.eqb_neq _ _)) by (unfold HEAP_POINTER in Hin; cbn in Hin; lia).
    split; [done|by constructor|]. cbn [fmap list_fmap]. rewrite Hask. exact Ha.
  - exists 0, (mkAllocator (lists s) f). split; [done|]. by split.
Qed.

Lemma kernel_alloc_ok s live l : allocator_ok s live -> layout_ok l ->
  exists p s', alloc l s = (Ok p, s') /\ allocator_ok s' (if p =? 0 then live else (p, l) :: live).
Proof.
  intros Hs Hl. unfold alloc. destruct (get_block_index l) as [i|] eqn:Ei.
  - destruct (get_block_index_ok l i Ei) as [Hi _]. destruct (class_layout_ok i Hi) as [Hq _]. pose proof (list_at s live i Hs Hi) as Hli.
    unfold sbind, take_block. destruct (lists s !!! i) as [|x rest] eqn:El.
    + assert (E : set_list i [] s = s) by (unfold set_list; rewrite list_insert_id by done; by destruct s). rewrite E.
      apply (fallback_ok s live l (class_layout i)); [done..|]. intros p. by apply asked_class.
    + pose proof Hs as [Hlen Hv Hu]. exists x, (set_list i rest s). split; [done|].
      pose proof (in_use_perm _ _ _ _ _ (pop_used s (asked <$> live) i x rest Hlen Hli) Hu) as Hu'.
      assert (Hx : x <> 0).
      { pose proof (in_use_inside _ _ _ _ Hu') as Hin. apply list.Forall_cons in Hin as [Hin _]. unfold HEAP_POINTER in Hin. cbn in Hin. lia. }
      rewrite (proj2 (Z.eqb_neq _ _)) by done. split; [cbn; by rewrite length_insert|by constructor|].
      cbn [fmap list_fmap]. rewrite (asked_class _ _ i) by done. exact Hu'.
  - apply (fallback_ok s live l l); [done..|]. intros p. by apply asked_own.
Qed.

Lemma kernel_dealloc_ok s live1 p l live2 : allocator_ok s (live1 ++ (p, l) :: live2) ->
  exists s', dealloc p l s = (Ok tt, s') /\ allocator_ok s' (live1 ++ live2).
Proof.
  intros Hs. pose proof Hs as [Hlen Hv Hu]. rewrite fmap_app, Forall_app in Hv. destruct Hv as [Hv1 Hv]. apply list.Forall_cons in Hv as [Hl Hv2].
  assert (Hv : Forall layout_ok (live1 ++ live2).*2) by (rewrite fmap_app, Forall_app; done).
  rewrite fmap_app, fmap_cons, <- app_assoc in Hu. cbn [app] in Hu.
  apply (in_use_perm _ _ _ _ _ (Permutation_sym (Permutation_middle _ _ _))) in Hu. rewrite app_assoc, <- fmap_app in Hu.
  unfold dealloc. destruct (get_block_index l) as [i|] eqn:Ei.
  - destruct (get_block_index_ok l i Ei) as [Hi _]. destruct (class_layout_ok i Hi) as [_ H8]. pose proof (list_at s _ i Hs Hi) as Hli.
    unfold sbind, sassert. rewrite (proj2 (Z.leb_le _ _)) by done. eexists. split; [reflexivity|].
    unfold set_list at 1. cbn [lists fallback_allocator set_list]. rewrite list_insert_insert_eq.
    split; [cbn; by rewrite length_insert|done|]. cbn [fallback_allocator].
    refine (in_use_perm _ _ _ _ _ _ Hu). rewrite (asked_class _ _ i) by done. symmetry. by apply push_used.
  - rewrite (asked_own _ _ Ei) in Hu. pose proof (in_use_inside _ _ _ _ Hu) as Hin. apply list.Forall_cons in Hin as [Hin _].
    rewrite (proj2 (Z.eqb_neq _ _)) by (unfold HEAP_POINTER in Hin; cbn in Hin; lia). eexists. split; [reflexivity|].
    split; [done|done|]. exact (deallocate_ok _ _ _ _ _ _ Hu).
Qed.

Definition kernel_op_ok (op : KernelHeapOp) : Prop := match op with KAlloc l => layout_ok l | KFree _ => True end.

Lemma kernel_heap_run_ok ops : Forall kernel_op_ok ops -> forall s live, allocator_ok s live ->
  exists live' s', kernel_heap_run ops live s = (Ok live', s') /\ allocator_ok s' live'.
Proof.
  induction 1 as [|op ops Hop _ IH]; intros s live Hs; [by exists live, s|]. cbn [kernel_heap_run].
  destruct op as [l|i]; cbn [kernel_heap_step kernel_op_ok] in *.
  - destruct (kernel_alloc_ok s live l Hs Hop) as (p & s1 & E & Hs1). unfold sbind. rewrite E. by apply IH.
  - destruct (live !! i) as [[p l]|] eqn:Ei; [|by apply IH]. destruct (delete_split live i _ Ei) as (l1 & l2 & -> & ->).
    destruct (kernel_dealloc_ok s l1 p l l2 Hs) as (s1 & E & Hs1). unfold sbind. rewrite E. by apply IH.
Qed.

(** What is held of the crate's blocks. *)
Lemma asked_covers p l : layout_ok l -> size l <= size (asked (p, l)).2 /\ (align l | align (asked (p, l)).2).
Proof.
  intros [_ Hp]. destruct (get_block_index l) as [i|] eqn:Ei.
  - rewrite (asked_class _ _ i) by done. destruct (get_block_index_ok l i Ei) as [Hi Hm].
    destruct (class_layout_ok i Hi) as [[_ (k & Hk & Ek)] _]. cbn [snd size align class_layout] in *. split; [lia|].
    rewrite Ek in *. apply pow2_divide; [done|done|lia].
  - by rewrite (asked_own _ _ Ei).
Qed.

(** C31: The kernel heap never gives out the same byte twice: for every sequence of allocations
    and frees after the heap was set up, no call panics, and at the end every block held lies in
    the heap at an address of the asked alignment and the blocks are pairwise disjoint, for any
    underlying heap that keeps the promises of the [linked_list_allocator] crate. *)
Theorem kernel_heap_apart (ops : list KernelHeapOp) : Forall kernel_op_ok ops ->
  exists live s', (let! _ := init_fallback_allocator HEAP_POINTER HEAP_SIZE_BYTES in kernel_heap_run ops []) new = (Ok live, s') /\
    (forall i p l, live !! i = Some (p, l) ->
      HEAP_POINTER <= p /\ p + size l <= HEAP_POINTER + HEAP_SIZE_BYTES /\ (align l | p) /\
      forall j q m, live !! j = Some (q, m) -> i <> j -> disjoint (p, size l) (q, size m)).
Proof.
  intros Hops. destruct (kernel_heap_run_ok ops Hops (mkAllocator (replicate 10 []) (init HEAP_POINTER HEAP_SIZE_BYTES empty)) [])
    as (live & s' & E & [Hlen Hv Hu]).
  { split; [done|done|]. apply init_ok. done. }
  exists live, s'. split; [exact E|]. pose proof (in_use_inside _ _ _ _ Hu) as Hin. apply Forall_app in Hin as [Hin _].
  rewrite Forall_fmap in Hin. rewrite Forall_fmap in Hv. intros i p l Hi. pose proof (Forall_lookup_1 _ _ _ _ Hv Hi) as Hl.
  destruct (asked_covers p l Hl) as [Hsz Hal]. pose proof (Forall_lookup_1 _ _ _ _ Hin Hi) as (Hs & He & Hd). cbn [compose] in Hs, He, Hd.
  change (asked (p, l)).1 with p in *. split_and!; [done|lia|by eapply Z.divide_trans|].
  intros j q m Hj Hne b [Hp Hq]. cbn [fst snd] in Hp, Hq. destruct (asked_covers q m (Forall_lookup_1 _ _ _ _ Hv Hj)) as [Hsm _].
  apply (cnt_apart (span <$> (asked <$> live)) i j (span (asked (p, l))) (span (asked (q, m)))) with (b := b);
    [|done|by rewrite !list_lookup_fmap, Hi|by rewrite !list_lookup_fmap, Hj|].
  - intros c. pose proof (in_use_once _ _ _ _ c Hu) as Ho. rewrite fmap_app, cnt_app in Ho.
    pose proof (cnt_nonneg (span <$> class_blocks BLOCK_SIZES (lists s')) c). lia.
  - change (span (asked (p, l))).1 with p. change (span (asked (q, m))).1 with q. unfold span. cbn [fst snd]. lia.
Qed.

End spec.

(** ** A heap that keeps the promises *)

(** It cuts block after block and forgets those given back: the first address never given out
    and the heap's end. *)
Abbreviation BumpHeap := (Z * Z)%type.

Definition up (x al : Z) : Z := (x + al - 1) / al * al.

Lemma up_ok x al : 0 < al -> x <= up x al /\ (al | up x al).
Proof.
  intros Ha. unfold up. pose proof (Z.div_mod (x + al - 1) al). pose proof (Z.mod_pos_bound (x + al - 1) al).
  split; [lia|apply Z.divide_factor_r].
Qed.

#[export] Instance bump_heap : FallbackHeap BumpHeap := {
  empty := (0, 0);
  init start n _ := (start, start + n);
  allocate_first_fit l h :=
    let p := up h.1 (align l) in if p + size l <=? h.2 then (Some p, (p + size l, h.2)) else (None, h);
  deallocate _ _ h := h;
}.

Record bump_in_use (start n : Z) (h : BumpHeap) (used : list (Z * Layout)) : Prop := {
  bu_end : h.2 = start + n;
  bu_next : start <= h.1;
  bu_inside : Forall (fun bl => start <= bl.1 /\ bl.1 + size bl.2 <= h.1 /\ bl.1 + size bl.2 <= h.2 /\ (align bl.2 | bl.1)) used;
  bu_once : forall b, cnt (span <$> used) b <= 1;
}.

Lemma bump_above start n h used b : bump_in_use start n h used -> h.1 <= b -> cnt (span <$> used) b = 0.
Proof.
  intros [_ _ Hin _] Hb. induction Hin as [|bl used Hbl _ IH]; [done|]. cbn. rewrite holds_out by (unfold span; cbn; lia). by rewrite IH.
Qed.

#[export] Instance bump_laws : FallbackLaws BumpHeap.
Proof.
  refine (Build_FallbackLaws _ _ bump_in_use _ _ _ _ _ _).
  - intros start n h used used' Hp [He Hn Hin Ho]. split; [done|done|by rewrite <- Hp|]. intros b. rewrite <- (Ho b).
    apply Z.eq_le_incl. apply cnt_perm. by rewrite Hp.
  - intros start n Hs. split; cbn; [done|lia|constructor|lia].
  - intros start n h used [He Hn Hin Ho]. eapply List.Forall_impl; [|exact Hin]. cbn. intros bl (? & ? & ? & ?). split_and!; [done|lia|done].
  - intros start n h used b Hu. apply (bu_once _ _ _ _ Hu).
  - intros start n h used l Hu Hsz Hp. pose proof Hu as [He Hn Hin Ho]. cbn. destruct (up_ok h.1 (align l)) as [Hup Hd]; [by apply pow2_pos|].
    destruct (Z.leb_spec (up h.1 (align l) + size l) h.2) as [Hfit|Hno]; [|done].
    split; cbn [fst snd]; [done|lia|constructor; [cbn; split_and!; [lia|lia|lia|done]|]|].
    + eapply List.Forall_impl; [|exact Hin]. cbn. intros bl (? & ? & ? & ?). split_and!; [lia..|done].
    + intros b. cbn. destruct (decide (h.1 <= b)).
      * rewrite (bump_above start n h) by done. pose proof (holds_bounds b (span (up h.1 (align l), l))). lia.
      * rewrite holds_out by (unfold span; cbn; lia). apply Ho.
  - intros start n h used p l [He Hn Hin Ho]. apply list.Forall_cons in Hin as [_ Hin]. split; [done|done|done|].
    intros b. specialize (Ho b). cbn in Ho. pose proof (holds_bounds b (span (p, l))). cbn. lia.
Defined.

Definition demo_kernel_ops : list KernelHeapOp :=
  [KAlloc (mkLayout 24 8); KAlloc (mkLayout 5000 16); KAlloc (mkLayout 8 64); KFree 1; KFree 1; KAlloc (mkLayout 20 32); KAlloc (mkLayout 32 4)].

(** The request of 20 bytes gets the freed block of the first; the last needs a new one. *)
Definition demo_kernel_live : list (Z * Layout) :=
  [(HEAP_POINTER + 5120, mkLayout 32 4); (HEAP_POINTER, mkLayout 20 32); (HEAP_POINTER + 5056, mkLayout 8 64)].

Lemma kernel_heap_apart_witness :
  exists s', (let! _ := init_fallback_allocator HEAP_POINTER HEAP_SIZE_BYTES in kernel_heap_run demo_kernel_ops []) (new (A := BumpHeap)) = (Ok demo_kernel_live, s') /\
    disjoint (HEAP_POINTER + 5120, 32) (HEAP_POINTER, 20).
Proof.
  destruct (kernel_heap_apart (A := BumpHeap) demo_kernel_ops) as (live & s' & E & Hall).
  { repeat constructor; cbn; try lia; [by exists 3|by exists 4|by exists 6|by exists 5|by exists 2]. }
  assert (Hr : ((let! _ := init_fallback_allocator HEAP_POINTER HEAP_SIZE_BYTES in kernel_heap_run demo_kernel_ops []) (new (A := BumpHeap))).1
    = Ok demo_kernel_live) by (vm_compute; reflexivity).
  rewrite E in Hr. injection Hr as ->. exists s'. split; [exact E|].
  destruct (Hall 0%nat (HEAP_POINTER + 5120) (mkLayout 32 4) eq_refl) as (_ & _ & _ & Hd).
  exact (Hd 1%nat HEAP_POINTER (mkLayout 20 32) eq_refl ltac:(lia)).
Defined.
