(* ===== verification/Scrollback.v ===== *)
(** * Scrollback: the byte store of the terminal, user/rustspace/src/terminal/scrollback.rs

    The bytes lie in a circular buffer that the kernel maps twice, one view behind the other,
    so that a slice that runs over the end of the first view goes on at its start: [cells] is
    the memory of one view.  The theorem relates the store to the list of all bytes ever
    written and still there. *)

From Stdlib Require Import ZArith Lia.
From stdpp Require Import base tactics list option numbers.
From S2P Require Import Prelude FrameAlloc Regions UserMem ProcessMem CircularBuffer.

Open Scope rust_scope.

Record Scrollback : Type := mkScrollback {
  sb_base : Z;
  sb_view_size : Z;
  sb_total_size : Z;
  relative : Z;
  absolute_filled : Z;
  cells : list Z;
}.

Abbreviation SBM := (stM Scrollback Empty_set).

(** ** The two views *)

(** Writing and reading through the pointer [base + off]. *)
Fixpoint ring_store (l : list Z) (off : Z) (bytes : list Z) : list Z :=
  match bytes with
  | [] => l
  | b :: bytes => ring_store (<[Z.to_nat (off mod zlen l) := b]> l) (off + 1) bytes
  end.

Definition ring_read (l : list Z) (off : Z) (n : nat) : list Z :=
  (fun i => default 0 (l !! Z.to_nat ((off + Z.of_nat i) mod zlen l))) <$> seq 0 n.

(** ** The operations *)

(** [contents]: what the pages of the view hold. *)
Definition scrollback_new (info : CircularBufferInfo) (contents : list Z) : result Empty_set Scrollback :=
  if negb (virtual_base info =? 0) && negb (view_size info =? 0) &&
     (view_size info * 2 <? 2 ^ 64) && (total_virtual_size info =? view_size info * 2)
  then Ok (mkScrollback (virtual_base info) (view_size info) (total_virtual_size info) 0 0 contents) else Panic.

Definition scrollback_empty : Scrollback := mkScrollback 0 0 0 0 0 [].

Definition is_valid (s : Scrollback) : bool := negb (sb_base s =? 0) && negb (sb_view_size s =? 0).

Definition is_in_buffer (s : Scrollback) (abs_pos : Z) : bool :=
  if absolute_filled s <=? abs_pos then false
  else absolute_filled s - abs_pos <=? sb_view_size s.

(** The length of the slice; it starts at [relative]. *)
Definition get_writable_slice (max : Z) : SBM Z := fun s =>
  if relative s <? sb_view_size s then (Ok (Z.min max (sb_view_size s)), s) else (Panic, s).

Definition commit_bytes (n : Z) : SBM unit := fun s =>
  if negb ((n <=? sb_view_size s) && (relative s <? sb_view_size s)) then (Panic, s) else
  match uadd (E:=Empty_set) (relative s) n, uadd (E:=Empty_set) (absolute_filled s) n with
  | Ok rel, Ok filled =>
      let rel := if sb_view_size s <=? rel then rel - sb_view_size s else rel in
      (if rel <? sb_view_size s then Ok tt else Panic,
       mkScrollback (sb_base s) (sb_view_size s) (sb_total_size s) rel filled (cells s))
  | _, _ => (Panic, s)
  end.

Definition copy_in (bytes : list Z) : SBM unit := fun s =>
  (Ok tt, mkScrollback (sb_base s) (sb_view_size s) (sb_total_size s) (relative s) (absolute_filled s)
     (ring_store (cells s) (relative s) bytes)).

Fixpoint write_loop (fuel : nat) (bytes : list Z) : SBM unit :=
  match bytes, fuel with
  | [], _ => sret tt
  | _, O => sfuel
  | _, S fuel =>
      let! n := get_writable_slice (zlen bytes) in
      copy_in (take (Z.to_nat n) bytes) ;;;
      commit_bytes n ;;;
      write_loop fuel (drop (Z.to_nat n) bytes)
  end.

Definition write_bytes (bytes : list Z) : SBM Z := fun s =>
  (write_loop (length bytes) bytes ;;; sret (absolute_filled s)) s.

Definition read_at (s : Scrollback) (abs_pos max_len : Z) : result Empty_set (list Z) :=
  if negb (is_in_buffer s abs_pos) then Ok [] else
  let backward_offset := absolute_filled s - abs_pos in
  let to_read_len := Z.min backward_offset max_len in
  let? offset_from_base :=
    (if backward_offset <=? relative s then Ok (relative s - backward_offset)
     else let? a := uadd (sb_view_size s) (relative s) in usub a backward_offset) in
  if offset_from_base <? sb_view_size s then Ok (ring_read (cells s) offset_from_base (Z.to_nat to_read_len)) else Panic.

Definition current_absolute (s : Scrollback) : Z := absolute_filled s.

Definition remove_last_byte : SBM unit := fun s =>
  if absolute_filled s =? 0 then (Ok tt, s) else
  match (if relative s =? 0 then usub (E:=Empty_set) (sb_view_size s) 1 else Ok (relative s - 1)) with
  | Ok rel => (Ok tt, mkScrollback (sb_base s) (sb_view_size s) (sb_total_size s) rel (absolute_filled s - 1) (cells s))
  | _ => (Panic, s)
  end.

(** ** The bytes that were written *)

Lemma mod_apart v p q : 0 < q - p < v -> p mod v <> q mod v.
Proof.
  intros H E. pose proof (Z.div_mod p v ltac:(lia)) as Hp. pose proof (Z.div_mod q v ltac:(lia)) as Hq. rewrite E in Hp.
  assert (Hd : q - p = v * (q / v - p / v)) by lia. assert (q / v - p / v <= 0 \/ 1 <= q / v - p / v) by lia. nia.
Qed.

Lemma length_ring_store bytes : forall l off, length (ring_store l off bytes) = length l.
Proof. induction bytes as [|b bytes IH]; intros l off; [done|]. cbn [ring_store]. by rewrite IH, length_insert. Qed.

(** Positions [P] on hold the bytes; the positions before them that share no cell are kept. *)
Lemma ring_store_at bytes : forall l P p, zlen bytes <= zlen l -> 0 < zlen l -> P + zlen bytes - zlen l <= p < P + zlen bytes ->
  ring_store l P bytes !! Z.to_nat (p mod zlen l) = if P <=? p then bytes !! Z.to_nat (p - P) else l !! Z.to_nat (p mod zlen l).
Proof.
  induction bytes as [|b bytes IH]; intros l P p Hlen Hl Hp; cbn [ring_store length] in *.
  { by rewrite (proj2 (Z.leb_gt P p)) by lia. }
  set (l1 := <[Z.to_nat (P mod zlen l) := b]> l). assert (E1 : zlen l1 = zlen l) by (unfold l1; by rewrite length_insert).
  rewrite <- E1 at 1. rewrite IH by (rewrite E1; lia). rewrite E1.
  destruct (Z.leb_spec (P + 1) p), (Z.leb_spec P p); try lia.
  - rewrite (lookup_cons_ne_0 bytes) by lia. f_equal. lia.
  - assert (p = P) as -> by lia. rewrite Z.sub_diag. cbn. apply list_lookup_insert_eq.
    pose proof (Z.mod_pos_bound P (zlen l)). lia.
  - unfold l1. apply list_lookup_insert_ne. pose proof (mod_apart (zlen l) p P ltac:(lia)).
    pose proof (Z.mod_pos_bound P (zlen l)). pose proof (Z.mod_pos_bound p (zlen l)). lia.
Qed.

(** The bytes since the start, and the first position that was not written over since. *)
Record sb_ok (s : Scrollback) (hist : list Z) (lo : Z) : Prop := {
  sbo_view : 0 < sb_view_size s < 2 ^ 63;
  sbo_cells : zlen (cells s) = sb_view_size s;
  sbo_filled : absolute_filled s = zlen hist;
  sbo_relative : relative s = zlen hist mod sb_view_size s;
  sbo_lo : 0 <= lo;
  sbo_room : zlen hist - sb_view_size s <= lo;
  sbo_bytes : forall p, lo <= p < zlen hist -> cells s !! Z.to_nat (p mod sb_view_size s) = hist !! Z.to_nat p;
}.

Lemma relative_range s hist lo : sb_ok s hist lo -> 0 <= relative s < sb_view_size s.
Proof. intros []. rewrite sbo_relative0. apply Z.mod_pos_bound. lia. Qed.

Lemma new_ok info contents s : scrollback_new info contents = Ok s -> zlen contents = view_size info -> 0 <= view_size info -> sb_ok s [] 0.
Proof.
  unfold scrollback_new. destruct (_ && _) eqn:E; [|done]. intros [= <-] Hc Hv. bool_hyps.
  split; cbn; try lia; try done.
Qed.

(** One turn of the loop, of bytes that fit in one view. *)
Lemma turn_ok s hist lo bytes (k : unit -> SBM unit) : sb_ok s hist lo -> zlen bytes <= sb_view_size s -> zlen hist + zlen bytes < 2 ^ 64 ->
  exists s', sb_ok s' (hist ++ bytes) (Z.max lo (zlen hist + zlen bytes - sb_view_size s)) /\ sb_view_size s' = sb_view_size s /\
    (copy_in bytes ;;; sbind (commit_bytes (zlen bytes)) k) s = k tt s'.
Proof.
  intros Hok Hb Hmax. pose proof (relative_range _ _ _ Hok) as Hr. destruct Hok as [Hv Hc Hf Hrel Hlo Hroom Hbytes].
  assert (Hmod : (zlen hist + zlen bytes) mod sb_view_size s =
    if sb_view_size s <=? relative s + zlen bytes then relative s + zlen bytes - sb_view_size s else relative s + zlen bytes).
  { rewrite Z.add_mod, <- Hrel by lia. destruct (decide (zlen bytes = sb_view_size s)) as [E|E].
    - rewrite E, Z.mod_same, Z.add_0_r, Z.mod_small by lia. destruct (Z.leb_spec (sb_view_size s) (relative s + sb_view_size s)); lia.
    - rewrite (Z.mod_small (zlen bytes)) by lia. destruct (Z.leb_spec (sb_view_size s) (relative s + zlen bytes)).
      + symmetry. apply (Z.mod_unique_pos _ _ 1); lia.
      + apply Z.mod_small. lia. }
  eexists (mkScrollback (sb_base s) (sb_view_size s) (sb_total_size s) ((zlen hist + zlen bytes) mod sb_view_size s) (zlen hist + zlen bytes)
    (ring_store (cells s) (relative s) bytes)). split; [|split; [done|]].
  - split; cbn; try done.
    + by rewrite length_ring_store.
    + rewrite length_app. lia.
    + rewrite length_app, Nat2Z.inj_add. done.
    + lia.
    + rewrite length_app. lia.
    + intros p Hp. rewrite length_app, Nat2Z.inj_add in Hp.
      assert (Es : ring_store (cells s) (relative s) bytes = ring_store (cells s) (zlen hist) bytes).
      { destruct bytes as [|b bytes']; [done|]. rewrite Hrel.
        enough (H : forall l a, zlen l = sb_view_size s -> ring_store l (a mod sb_view_size s) (b :: bytes') = ring_store l a (b :: bytes')) by (by apply H).
        clear -Hv. generalize (b :: bytes'). intros bs. induction bs as [|c bs IH]; intros l a Hl; [done|]. cbn [ring_store].
        rewrite Hl, Z.mod_mod by lia. rewrite <- (IH _ (a mod sb_view_size s + 1)), <- (IH _ (a + 1)) by (by rewrite length_insert).
        f_equal. rewrite Z.add_mod_idemp_l by lia. done. }
      rewrite Es, <- Hc, ring_store_at by lia. destruct (Z.leb_spec (zlen hist) p).
      * rewrite lookup_app_r by lia. f_equal. lia.
      * rewrite Hc, lookup_app_l by lia. apply Hbytes. lia.
  - unfold sbind, copy_in, commit_bytes. cbn [sb_view_size relative absolute_filled].
    rewrite (proj2 (Z.leb_le _ _)), (proj2 (Z.ltb_lt _ _)) by lia. cbn [negb andb]. unfold uadd.
    rewrite !(proj2 (Z.ltb_lt _ _)) by lia. rewrite Hmod, <- Hf. cbn [sb_base sb_total_size cells].
    destruct (Z.leb_spec (sb_view_size s) (relative s + zlen bytes)); rewrite (proj2 (Z.ltb_lt _ _)) by lia; done.
Qed.

Lemma write_none fuel s hist lo : sb_ok s hist lo ->
  exists s', write_loop fuel [] s = (Ok tt, s') /\ sb_view_size s' = sb_view_size s /\
    sb_ok s' (hist ++ []) (Z.max lo (zlen hist + 0 - sb_view_size s)).
Proof.
  intros Hok. exists s. split; [by destruct fuel|]. split; [done|]. rewrite app_nil_r.
  rewrite Z.max_l; [done|]. pose proof (sbo_room _ _ _ Hok). lia.
Qed.

Lemma write_loop_step fuel bytes s : bytes <> [] -> write_loop (S fuel) bytes s =
  (let! n := get_writable_slice (zlen bytes) in
   copy_in (take (Z.to_nat n) bytes) ;;; commit_bytes n ;;; write_loop fuel (drop (Z.to_nat n) bytes)) s.
Proof. by destruct bytes. Qed.

Lemma write_loop_ok fuel : forall bytes s hist lo, (length bytes <= fuel)%nat -> sb_ok s hist lo -> zlen hist + zlen bytes < 2 ^ 64 ->
  exists s', write_loop fuel bytes s = (Ok tt, s') /\ sb_view_size s' = sb_view_size s /\
    sb_ok s' (hist ++ bytes) (Z.max lo (zlen hist + zlen bytes - sb_view_size s)).
Proof.
  induction fuel as [|fuel IH]; intros bytes s hist lo Hfuel Hok Hmax.
  { destruct bytes; [|cbn in Hfuel; lia]. apply write_none, Hok. }
  destruct (decide (bytes = [])) as [->|Hne]; [apply write_none, Hok|].
  assert (Hpos : 0 < zlen bytes) by (destruct bytes; [done|cbn [length]; lia]).
  rewrite write_loop_step by done.
  pose proof (relative_range _ _ _ Hok) as Hr. unfold sbind at 1, get_writable_slice. rewrite (proj2 (Z.ltb_lt _ _)) by lia.
  set (n := Z.min (zlen bytes) (sb_view_size s)). assert (Hn : zlen (take (Z.to_nat n) bytes) = n) by (rewrite length_take; lia).
  destruct (turn_ok s hist lo (take (Z.to_nat n) bytes) (fun _ => write_loop fuel (drop (Z.to_nat n) bytes)) Hok) as (s1 & Hok1 & Hv1 & E1);
    [lia|lia|]. rewrite Hn in E1. rewrite E1.
  destruct (IH (drop (Z.to_nat n) bytes) s1 _ _ ltac:(rewrite length_drop; lia) Hok1) as (s' & E' & Hv' & Hok').
  { rewrite length_app, length_drop, length_take. lia. }
  exists s'. split; [done|]. split; [congruence|].
  rewrite <- app_assoc, take_drop, Hv1 in Hok'.
  match type of Hok' with sb_ok _ _ ?x => replace (Z.max lo _) with x; [done|] end.
  rewrite length_app, length_drop, length_take. lia.
Qed.

Lemma write_bytes_ok s hist lo bytes : sb_ok s hist lo -> zlen hist + zlen bytes < 2 ^ 64 ->
  exists s', write_bytes bytes s = (Ok (zlen hist), s') /\ sb_view_size s' = sb_view_size s /\
    sb_ok s' (hist ++ bytes) (Z.max lo (zlen hist + zlen bytes - sb_view_size s)).
Proof.
  intros Hok Hmax. destruct (write_loop_ok (length bytes) bytes s hist lo ltac:(lia) Hok Hmax) as (s' & E & Hv & Hok').
  exists s'. split; [|done]. unfold write_bytes. rewrite (sbind_ok _ _ _ _ _ E). by rewrite (sbo_filled _ _ _ Hok).
Qed.

Lemma take_back_ok s hist b lo : sb_ok s (hist ++ [b]) lo ->
  exists s', remove_last_byte s = (Ok tt, s') /\ sb_ok s' hist lo /\ sb_view_size s' = sb_view_size s.
Proof.
  intros Hok. pose proof (relative_range _ _ _ Hok) as Hr. destruct Hok as [Hv Hc Hf Hrel Hlo Hroom Hbytes].
  rewrite length_app in *. cbn [length] in *. rewrite Nat2Z.inj_add in *. set (v := sb_view_size s) in *.
  assert (Hmod : zlen hist mod v = if relative s =? 0 then v - 1 else relative s - 1).
  { rewrite Hrel. pose proof (Z.div_mod (zlen hist + 1) v ltac:(lia)) as Hd. change (Z.of_nat 1) with 1 in *.
    pose proof (Z.mod_pos_bound (zlen hist + 1) v ltac:(lia)).
    destruct (Z.eqb_spec ((zlen hist + 1) mod v) 0) as [E|E]; symmetry.
    - apply (Z.mod_unique_pos _ _ ((zlen hist + 1) / v - 1)); lia.
    - apply (Z.mod_unique_pos _ _ ((zlen hist + 1) / v)); lia. }
  exists (mkScrollback (sb_base s) v (sb_total_size s) (zlen hist mod v) (zlen hist) (cells s)). split; [|split; [|done]].
  - unfold remove_last_byte. rewrite Hf. rewrite (proj2 (Z.eqb_neq _ _)) by lia. unfold usub. fold v.
    rewrite (proj2 (Z.leb_le 1 v)) by lia. rewrite Hmod. destruct (relative s =? 0); do 2 f_equal; lia.
  - split; cbn; try done; [lia|]. intros p Hp. rewrite Hbytes by lia. rewrite lookup_app_l by lia. done.
Qed.

(** Reading: nothing outside the window, the bytes written in it. *)
Lemma ring_read_at s hist lo p n : sb_ok s hist lo -> lo <= p -> p + Z.of_nat n <= zlen hist ->
  ring_read (cells s) p n = take n (drop (Z.to_nat p) hist).
Proof.
  intros [Hv Hc Hf Hrel Hlo Hroom Hbytes] Hp Hn. apply list_eq. intros i. unfold ring_read. rewrite list_lookup_fmap.
  destruct (decide (i < n)%nat) as [Hi|Hi].
  - rewrite lookup_seq_lt by done. cbn. rewrite Hc, Hbytes by lia. rewrite lookup_take, decide_True, lookup_drop by done.
    replace (Z.to_nat (p + Z.of_nat i)) with (Z.to_nat p + i)%nat by lia.
    destruct (lookup_lt_is_Some_2 hist (Z.to_nat p + i)%nat ltac:(lia)) as [x Hx]. by rewrite Hx.
  - rewrite (proj2 (lookup_ge_None _ _)) by (rewrite length_seq; lia). rewrite lookup_take, decide_False by done. done.
Qed.

Lemma ring_read_mod l off n v : zlen l = v -> 0 < v -> ring_read l (off mod v) n = ring_read l off n.
Proof. intros <- Hv. unfold ring_read. apply list_fmap_ext. intros i x _. by rewrite Z.add_mod_idemp_l by lia. Qed.

Lemma read_offset s hist lo p max : sb_ok s hist lo -> 0 <= p < zlen hist -> zlen hist - p <= sb_view_size s ->
  read_at s p max = Ok (ring_read (cells s) p (Z.to_nat (Z.min (zlen hist - p) max))).
Proof.
  intros Hok Hp Hw. pose proof (relative_range _ _ _ Hok) as Hr. destruct Hok as [Hv Hc Hf Hrel Hlo Hroom Hbytes].
  unfold read_at, is_in_buffer. rewrite Hf. rewrite (proj2 (Z.leb_gt _ _)), (proj2 (Z.leb_le _ _)) by lia. cbn [negb].
  pose proof (Z.div_mod (zlen hist) (sb_view_size s) ltac:(lia)) as Hd. rewrite <- Hrel in Hd.
  assert (E : (if zlen hist - p <=? relative s then Ok (relative s - (zlen hist - p))
     else let? a := uadd (sb_view_size s) (relative s) in usub a (zlen hist - p)) = Ok (E:=Empty_set) (p mod sb_view_size s)).
  { destruct (Z.leb_spec (zlen hist - p) (relative s)).
    - f_equal. apply (Z.mod_unique_pos _ _ (zlen hist / sb_view_size s)); lia.
    - unfold uadd, usub. rewrite (proj2 (Z.ltb_lt _ _)) by lia. cbn [rbind]. rewrite (proj2 (Z.leb_le _ _)) by lia. f_equal.
      apply (Z.mod_unique_pos _ _ (zlen hist / sb_view_size s - 1)); lia. }
  rewrite E. cbn [rbind]. pose proof (Z.mod_pos_bound p (sb_view_size s) ltac:(lia)).
  rewrite (proj2 (Z.ltb_lt _ _)) by lia. by rewrite ring_read_mod by (done || lia).
Qed.

Lemma read_ok s hist lo p max : sb_ok s hist lo -> 0 <= p ->
  (lo <= p -> read_at s p max = Ok (take (Z.to_nat max) (drop (Z.to_nat p) hist))) /\
  (p < zlen hist - sb_view_size s \/ zlen hist <= p -> read_at s p max = Ok []).
Proof.
  intros Hok Hp. split; intros Hw.
  - destruct (decide (p < zlen hist)) as [Hin|Hout].
    + rewrite (read_offset s hist lo) by (done || destruct Hok; lia). f_equal.
      rewrite (ring_read_at s hist lo) by (done || lia).
      destruct (decide (max <= zlen hist - p)); [by rewrite Z.min_r by lia|].
      rewrite Z.min_l by lia. rewrite !take_ge by (rewrite length_drop; lia). done.
    + rewrite drop_ge, take_nil by lia. unfold read_at, is_in_buffer. rewrite (sbo_filled _ _ _ Hok).
      by rewrite (proj2 (Z.leb_le _ _)) by lia.
  - unfold read_at, is_in_buffer. rewrite (sbo_filled _ _ _ Hok). destruct (Z.leb_spec (zlen hist) p); [done|].
    by rewrite (proj2 (Z.leb_gt _ _)) by lia.
Qed.

(** After a byte is taken back from a full store the position one view earlier counts as
    stored again, although its cell still holds the byte that was taken back. *)
Lemma stale_byte s hist b : let lo := zlen hist + 1 - sb_view_size s in
  sb_ok s (hist ++ [b]) lo -> 0 < lo ->
  exists s', remove_last_byte s = (Ok tt, s') /\ read_at s' (lo - 1) 1 = Ok [b].
Proof.
  intros lo Hok Hpos. pose proof (sbo_bytes _ _ _ Hok (zlen hist)) as Hb. pose proof (sbo_view _ _ _ Hok) as Hv.
  rewrite length_app in Hb. cbn [length] in Hb. rewrite Nat2Z.id, lookup_app_r, Nat.sub_diag in Hb by lia. specialize (Hb ltac:(lia)).
  destruct (take_back_ok _ _ _ _ Hok) as (s' & E & Hok' & Hv'). exists s'. split; [done|].
  rewrite (read_offset s' hist lo) by (done || lia). f_equal. replace (Z.min _ _) with 1 by lia.
  unfold ring_read. change (Z.to_nat 1) with 1%nat. cbn [seq fmap list_fmap]. rewrite Z.add_0_r. pose proof (sbo_cells _ _ _ Hok') as Hc. rewrite Hc.
  assert (Ec : cells s' = cells s).
  { unfold remove_last_byte in E. destruct (_ =? 0); [by injection E as <-|]. destruct (if relative s =? 0 then _ else _); try discriminate; by injection E as <-. }
  rewrite Ec, Hv'. replace ((lo - 1) mod sb_view_size s) with (zlen hist mod sb_view_size s); [by rewrite Hb|].
  unfold lo. replace (zlen hist) with (zlen hist + 1 - sb_view_size s - 1 + 1 * sb_view_size s) at 1 by lia. by rewrite Z.mod_add by lia.
Qed.
