(* ===== verification/Terminal.v ===== *)
(** * Terminal: the text terminal of user programs, user/rustspace/src/terminal

    The index of lines (line_index.rs), the translation of input events (input.rs) and the
    terminal itself (mod.rs) over the byte store of Scrollback.v.  Drawing leaves the list
    of texts with their places; the fonts are left out.  Time stamps and the text that the
    demonstration prints are parameters. *)

From Stdlib Require Import ZArith Lia.
From stdpp Require Import base tactics list option numbers.
From S2P Require Import Prelude FsTypes CircularBuffer Events Scrollback.

Open Scope rust_scope.

(** ** Line index *)

Definition SPLIT_LINE_AT : Z := 4096.

Record LineMeta : Type := mkMeta {
  first_pos : Z;
  one_past_last_pos : Z;
}.

Definition meta_empty (pos : Z) : LineMeta := mkMeta pos pos.

Definition meta_len (m : LineMeta) : result Empty_set Z :=
  if first_pos m <=? one_past_last_pos m then Ok (one_past_last_pos m - first_pos m) else Panic.

Definition meta_is_empty (m : LineMeta) : bool := first_pos m =? one_past_last_pos m.

Record LineIndex : Type := mkIndex {
  lines : list LineMeta;
  current : Z;
  count : Z;
  max_lines : Z;
}.

Abbreviation LM := (stM LineIndex Empty_set).

Definition index_new (max : Z) : LineIndex := mkIndex (replicate (Z.to_nat max) (meta_empty 0)) 0 1 max.

(** Indexing [lines], and a change of the entry. *)
Definition line_get (idx : Z) (l : LineIndex) : result Empty_set LineMeta :=
  match lines l !! Z.to_nat idx with Some m => Ok m | None => Panic end.

Definition current_ref (l : LineIndex) : result Empty_set LineMeta := line_get (current l) l.

Definition set_line (idx : Z) (m : LineMeta) : LM unit := fun l =>
  match lines l !! Z.to_nat idx with
  | Some _ => (Ok tt, mkIndex (<[Z.to_nat idx := m]> (lines l)) (current l) (count l) (max_lines l))
  | None => (Panic, l)
  end.

Definition logical_line_for_index (logical_idx : Z) (l : LineIndex) : result Empty_set (option LineMeta) :=
  if count l <=? logical_idx then Ok None else
  if max_lines l =? 0 then Panic else
  let start := if count l <? max_lines l then 0 else (current l + 1) mod max_lines l in
  let? m := line_get ((start + logical_idx) mod max_lines l) l in Ok (Some m).

Definition update_end (at_p : Z) : LM unit := fun l =>
  match current_ref l with
  | Ok m => set_line (current l) (mkMeta (first_pos m) at_p) l
  | _ => (Panic, l)
  end.

Definition line_feed (next_start : Z) : LM unit :=
  update_end next_start ;;;
  (fun l => let c := current l + 1 in
     (Ok tt, mkIndex (lines l) (if max_lines l <=? c then 0 else c) (count l) (max_lines l))) ;;;
  (fun l => set_line (current l) (meta_empty next_start) l) ;;;
  (fun l => let n := if count l <=? current l then current l + 1 else count l in
     (Ok tt, mkIndex (lines l) (current l) (if max_lines l <? n then max_lines l else n) (max_lines l))).

Definition force_line_feed_if_needed (abs : Z) : LM unit := fun l =>
  match (let? m := current_ref l in meta_len m) with
  | Ok n => (if SPLIT_LINE_AT <=? n then line_feed abs else sret tt) l
  | _ => (Panic, l)
  end.

Definition truncate_last (new_end : Z) : LM unit := fun l =>
  match current_ref l with
  | Ok m => (if first_pos m <=? new_end then set_line (current l) (mkMeta (first_pos m) new_end) else spanic) l
  | _ => (Panic, l)
  end.

Definition index_clear (pos : Z) : LM unit :=
  (fun l => (Ok tt, mkIndex ((fun _ => meta_empty pos) <$> lines l) 0 1 (max_lines l))) ;;;
  set_line 0 (meta_empty pos).

(** ** Input *)

Inductive ScrollAmount : Type := Line | Page.
Inductive ScrollDir : Type := Up | Down.

Inductive InputAction : Type :=
  | ToggleCommandMode
  | Scroll (dir : ScrollDir) (amount : ScrollAmount)
  | Char (c : Z)
  | Backspace
  | Enter
  | ArrowUp
  | ArrowDown
  | ArrowLeft
  | ArrowRight
  | Home
  | EndKey
  | PageUp
  | PageDown
  | Escape
  | Ignore.

Record InputState : Type := mkInput { command_mode : bool }.

Definition input_new : InputState := mkInput false.

Definition toggle_command_mode (s : InputState) : InputState := mkInput (negb (command_mode s)).

(** The key codes of the pc_keyboard crate, by their position in the enumeration. *)
Definition K_Escape : Z := 0.
Definition K_Home : Z := 32.
Definition K_PageUp : Z := 33.
Definition K_Q : Z := 39.
Definition K_E : Z := 41.
Definition K_End : Z := 54.
Definition K_PageDown : Z := 55.
Definition K_A : Z := 61.
Definition K_D : Z := 63.
Definition K_ArrowUp : Z := 88.
Definition K_LControl : Z := 93.
Definition K_RControl : Z := 100.
Definition K_ArrowLeft : Z := 101.
Definition K_ArrowDown : Z := 102.
Definition K_ArrowRight : Z := 103.

(** A [match] on a key, arm by arm. *)
Fixpoint arm (k : Z) (l : list (Z * InputAction)) : option InputAction :=
  match l with
  | [] => None
  | (k', a) :: l => if k =? k' then Some a else arm k l
  end.

(** [char::from_u32] and [char::is_control] *)
Definition char_from_u32 (v : Z) : option Z :=
  if (v <? 0x110000) && negb (between 0xD800 v 0xDFFF) then Some v else None.
Definition is_control (c : Z) : bool := (c <=? 0x1F) || between 0x7F c 0x9F.
Definition ascii_lower (c : Z) : Z := if between 0x41 c 0x5A then c + 32 else c.

Definition command_keys : list (Z * InputAction) :=
  [(K_Q, Scroll Up Page); (K_E, Scroll Down Page); (K_A, Scroll Up Line); (K_D, Scroll Down Line)].

Definition command_chars : list (Z * InputAction) :=
  [(113, Scroll Up Page); (101, Scroll Down Page); (97, Scroll Up Line); (100, Scroll Down Line)].

Definition special_keys : list (Z * InputAction) :=
  [(K_ArrowUp, ArrowUp); (K_ArrowDown, ArrowDown); (K_ArrowLeft, ArrowLeft); (K_ArrowRight, ArrowRight);
   (K_Home, Home); (K_End, EndKey); (K_PageUp, PageUp); (K_PageDown, PageDown); (K_Escape, Escape)].

Definition translate_key (event : InputEvent) (s : InputState) : option InputAction * InputState :=
  let keycode := wrap 8 (value event) in
  let pressed := wrap 8 (extra event) =? 0 in
  if ((keycode =? K_LControl) || (keycode =? K_RControl)) && pressed then
    (Some ToggleCommandMode, toggle_command_mode s)
  else if negb pressed then (None, s) else
  match (if command_mode s then arm keycode command_keys else None) with
  | Some a => (Some a, s)
  | None => (arm keycode special_keys, s)
  end.

Definition translate_char (event : InputEvent) (s : InputState) : option InputAction :=
  match char_from_u32 (value event) with
  | None => None
  | Some c =>
      if command_mode s then
        match arm (ascii_lower c) command_chars with
        | Some a => Some a
        | None => Some Ignore
        end
      else if c =? 8 then Some Backspace
      else if (c =? 10) || (c =? 13) then Some Enter
      else if negb (is_control c) then Some (Char c)
      else Some Ignore
  end.

Definition translate (event : InputEvent) (s : InputState) : option InputAction * InputState :=
  match event_type event with
  | KeyEvent => translate_key event s
  | CharEvent => (translate_char event s, s)
  | _ => (None, s)
  end.

(** ** Programs that are known by name *)

Record ProgramEntry : Type := mkEntry { entry_name : str; elf_path : str }.

Definition ODYS : str := [111; 100; 121; 115].
Definition ODYS_PATH : str := [47; 98; 105; 110; 47; 111; 100; 121; 115].

Definition init_programs (programs : list ProgramEntry) : list ProgramEntry :=
  match programs with
  | [] => [mkEntry ODYS ODYS_PATH]
  | _ => programs
  end.

Fixpoint lookup_program (name : str) (programs : list ProgramEntry) : option str :=
  match programs with
  | [] => None
  | p :: programs => if bool_decide (entry_name p = name) then Some (elf_path p) else lookup_program name programs
  end.

Definition is_known_program (name : str) (programs : list ProgramEntry) : bool :=
  bool_decide (is_Some (lookup_program name programs)).

Fixpoint register_program (name path : str) (programs : list ProgramEntry) : list ProgramEntry :=
  match programs with
  | [] => [mkEntry name path]
  | p :: programs =>
      if bool_decide (entry_name p = name) then mkEntry (entry_name p) path :: programs else p :: register_program name path programs
  end.

(** ** Terminal *)

Definition MARGIN_LEFT : Z := 4.
Definition MARGIN_TOP : Z := 16.
Definition LINE_SPACING : Z := 15.
Definition DEFAULT_MAX_LINES : Z := 4096.
Definition FONT_WIDTH : Z := 8.

Definition get_max_chars_per_line (available_width : Z) : Z := available_width / FONT_WIDTH.

(** [drawn]: what stands on the surface since it was cleared; [launched]: the paths of the
    programs the terminal asked the kernel to start. *)
Record Terminal : Type := mkTerminal {
  surface_width : Z;
  surface_height : Z;
  drawn : list (Z * Z * list Z);
  needs_redraw : bool;
  scrollback : Scrollback;
  line_index : LineIndex;
  max_chars_per_line : Z;
  viewport_rows : Z;
  last_command_abs : option (Z * Z);
  last_command_buf : list Z;
  input_state : InputState;
  scroll_offset : Z;
  launched : list str;
}.

Abbreviation TM := (stM Terminal Empty_set).

Definition set_store (s : Scrollback) (t : Terminal) : Terminal :=
  mkTerminal (surface_width t) (surface_height t) (drawn t) (needs_redraw t) s (line_index t) (max_chars_per_line t)
    (viewport_rows t) (last_command_abs t) (last_command_buf t) (input_state t) (scroll_offset t) (launched t).
Definition set_index (l : LineIndex) (t : Terminal) : Terminal :=
  mkTerminal (surface_width t) (surface_height t) (drawn t) (needs_redraw t) (scrollback t) l (max_chars_per_line t)
    (viewport_rows t) (last_command_abs t) (last_command_buf t) (input_state t) (scroll_offset t) (launched t).
Definition set_drawn (d : list (Z * Z * list Z)) (t : Terminal) : Terminal :=
  mkTerminal (surface_width t) (surface_height t) d (needs_redraw t) (scrollback t) (line_index t) (max_chars_per_line t)
    (viewport_rows t) (last_command_abs t) (last_command_buf t) (input_state t) (scroll_offset t) (launched t).
Definition set_redraw (t : Terminal) : Terminal :=
  mkTerminal (surface_width t) (surface_height t) (drawn t) true (scrollback t) (line_index t) (max_chars_per_line t)
    (viewport_rows t) (last_command_abs t) (last_command_buf t) (input_state t) (scroll_offset t) (launched t).
Definition set_view (chars rows : Z) (t : Terminal) : Terminal :=
  mkTerminal (surface_width t) (surface_height t) (drawn t) (needs_redraw t) (scrollback t) (line_index t) chars
    rows (last_command_abs t) (last_command_buf t) (input_state t) (scroll_offset t) (launched t).
Definition set_command (abs : option (Z * Z)) (buf : list Z) (t : Terminal) : Terminal :=
  mkTerminal (surface_width t) (surface_height t) (drawn t) (needs_redraw t) (scrollback t) (line_index t) (max_chars_per_line t)
    (viewport_rows t) abs buf (input_state t) (scroll_offset t) (launched t).
Definition set_input (i : InputState) (t : Terminal) : Terminal :=
  mkTerminal (surface_width t) (surface_height t) (drawn t) (needs_redraw t) (scrollback t) (line_index t) (max_chars_per_line t)
    (viewport_rows t) (last_command_abs t) (last_command_buf t) i (scroll_offset t) (launched t).
Definition set_scroll (n : Z) (t : Terminal) : Terminal :=
  mkTerminal (surface_width t) (surface_height t) (drawn t) (needs_redraw t) (scrollback t) (line_index t) (max_chars_per_line t)
    (viewport_rows t) (last_command_abs t) (last_command_buf t) (input_state t) n (launched t).
Definition launch (path : str) (t : Terminal) : Terminal :=
  mkTerminal (surface_width t) (surface_height t) (drawn t) (needs_redraw t) (scrollback t) (line_index t) (max_chars_per_line t)
    (viewport_rows t) (last_command_abs t) (last_command_buf t) (input_state t) (scroll_offset t) (launched t ++ [path]).

Definition modify (f : Terminal -> Terminal) : TM unit := fun t => (Ok tt, f t).
Definition look {A} (f : Terminal -> A) : TM A := fun t => (Ok (f t), t).

Definition on_store {A} (c : SBM A) : TM A := fun t => let '(r, s) := c (scrollback t) in (r, set_store s t).
Definition on_index {A} (c : LM A) : TM A := fun t => let '(r, l) := c (line_index t) in (r, set_index l t).

(** The rows and columns of a surface. *)
Definition view_of (width height : Z) : Z * Z :=
  (Z.max (get_max_chars_per_line (saturating_sub width MARGIN_LEFT)) 1,
   Z.max (if 0 <? LINE_SPACING then saturating_sub height MARGIN_TOP / LINE_SPACING else 1) 1).

Definition terminal_new (width height : Z) (s : Scrollback) : result Empty_set Terminal :=
  let '(chars, rows) := view_of width height in
  let '(r, l) := index_clear (current_absolute s) (index_new DEFAULT_MAX_LINES) in
  let? _ := r in
  Ok (mkTerminal width height [] true s l chars rows None [] input_new 0 []).

Definition set_scrollback (s : Scrollback) : TM unit :=
  modify (set_store s) ;;;
  on_index (index_clear (current_absolute s)) ;;;
  modify set_redraw.

Definition max_scroll (t : Terminal) : Z := saturating_sub (count (line_index t)) (viewport_rows t).

Definition clamp_scroll : TM unit := modify (fun t => set_scroll (Z.min (scroll_offset t) (max_scroll t)) t).

Definition recompute_viewport : TM unit :=
  modify (fun t => let '(chars, rows) := view_of (surface_width t) (surface_height t) in set_view chars rows t) ;;;
  clamp_scroll.

Definition scroll_up_lines (n : Z) : TM unit :=
  let! t := look id in
  let! o := slift (uadd (scroll_offset t) n) in
  modify (fun t => set_redraw (set_scroll (Z.min o (max_scroll t)) t)).

Definition scroll_down_lines (n : Z) : TM unit :=
  modify (fun t => set_redraw (set_scroll (saturating_sub (scroll_offset t) n) t)).

(** *** Writing *)

Definition current_line_remaining_space : TM Z :=
  let! t := look id in
  let! len := slift (let? m := current_ref (line_index t) in meta_len m) in
  sret (if max_chars_per_line t <=? len then 0 else max_chars_per_line t - len).

Definition feed_here : TM unit :=
  let! next := look (fun t => current_absolute (scrollback t)) in
  on_index (line_feed next).

Definition ensure_current_line_has_space : TM unit :=
  let! space := current_line_remaining_space in
  if space =? 0 then feed_here else sret tt.

(** The place behind the last space among the first [n] bytes, or [n]. *)
Fixpoint split_after_space (n : nat) (chunk : list Z) (split : Z) : Z :=
  match n with
  | O => split
  | S n =>
      match chunk !! n with
      | Some b => if b =? 32 then Z.of_nat n + 1 else split_after_space n chunk split
      | None => split_after_space n chunk split
      end
  end.

Fixpoint append_loop (fuel : nat) (chunk : list Z) : TM unit :=
  match chunk, fuel with
  | [], _ => sret tt
  | _, O => sfuel
  | _, S fuel =>
      ensure_current_line_has_space ;;;
      let! space := current_line_remaining_space in
      let! width := look max_chars_per_line in
      sassert ((0 <? space) && (space <=? width)) ;;;
      let remaining := zlen chunk in
      if remaining <=? space then
        let! start_abs := on_store (write_bytes chunk) in
        let! end_abs := slift (uadd start_abs remaining) in
        on_index (update_end end_abs) ;;;
        on_index (force_line_feed_if_needed end_abs)
      else
        let split := Z.min space remaining in
        let split := split_after_space (Z.to_nat split) chunk split in
        let split := if split =? 0 then space else split in
        let! start_abs := on_store (write_bytes (take (Z.to_nat split) chunk)) in
        let! end_abs := slift (uadd start_abs split) in
        on_index (update_end end_abs) ;;;
        on_index (line_feed end_abs) ;;;
        append_loop fuel (drop (Z.to_nat split) chunk)
  end.

Definition append_chunk_with_wrap (chunk : list Z) : TM unit := append_loop (length chunk) chunk.

(** [bytes], with the part behind the last line end, [segment], not yet written. *)
Fixpoint write_segments (segment bytes : list Z) : TM unit :=
  match bytes with
  | [] => append_chunk_with_wrap segment
  | b :: bytes =>
      if b =? 10 then append_chunk_with_wrap segment ;;; feed_here ;;; write_segments [] bytes
      else if b =? 13 then append_chunk_with_wrap segment ;;; write_segments [] bytes
      else write_segments (segment ++ [b]) bytes
  end.

Definition write_bytes_internal (bytes : list Z) : TM unit :=
  write_segments [] bytes ;;; modify set_redraw.

Definition write_str (text : list Z) : TM unit := write_bytes_internal text.

Definition newline : TM unit := feed_here ;;; modify set_redraw.

Definition write_line (text : list Z) : TM unit := write_bytes_internal text ;;; newline.

Definition clear : TM unit :=
  let! pos := look (fun t => current_absolute (scrollback t)) in
  on_index (index_clear pos) ;;;
  modify (fun t => set_redraw (set_drawn [] (set_scroll 0 t))).

(** *** Drawing *)

Fixpoint redraw_rows (n : nat) (vis_idx start_logical : Z) : TM unit :=
  match n with
  | O => sret tt
  | S n =>
      let! t := look id in
      let! meta := slift (logical_line_for_index (start_logical + vis_idx) (line_index t)) in
      (match meta with
       | None => sret tt
       | Some meta =>
           if meta_is_empty meta then sret tt else
           let! len := slift (meta_len meta) in
           let! bytes := slift (read_at (scrollback t) (first_pos meta) len) in
           match bytes with
           | [] => sret tt
           | _ =>
               sassert (MARGIN_TOP + vis_idx * LINE_SPACING <? 2 ^ 31) ;;;
               modify (fun t => set_drawn (drawn t ++ [(MARGIN_LEFT, MARGIN_TOP + vis_idx * LINE_SPACING, bytes)]) t)
           end
       end) ;;;
      redraw_rows n (vis_idx + 1) start_logical
  end.

Definition redraw_all : TM unit :=
  modify (set_drawn []) ;;;
  let! t := look id in
  let total := count (line_index t) in
  let visible := Z.min (viewport_rows t) total in
  let offset := Z.min (scroll_offset t) (saturating_sub total visible) in
  redraw_rows (Z.to_nat visible) 0 (saturating_sub total (visible + offset)).

(** *** Editing *)

Definition backspace : TM unit :=
  let! t := look id in
  let! cur := slift (current_ref (line_index t)) in
  if meta_is_empty cur then sret tt else
  let! new_end := slift (usub (one_past_last_pos cur) 1) in
  on_index (truncate_last new_end) ;;;
  on_store remove_last_byte ;;;
  modify set_redraw.

Definition capture_last_command : TM unit :=
  let! t := look id in
  let! cur := slift (current_ref (line_index t)) in
  if meta_is_empty cur then modify (set_command None []) else
  let! len := slift (meta_len cur) in
  let! bytes := slift (read_at (scrollback t) (first_pos cur) len) in
  modify (set_command (Some (first_pos cur, one_past_last_pos cur)) bytes).

Definition recall_last_command : TM unit :=
  let! buf := look last_command_buf in
  match buf with
  | [] => sret tt
  | _ => write_bytes_internal buf
  end.

(** *** Commands *)

(** The [White_Space] property, [str::trim] and [str::find]. *)
Definition is_whitespace (c : Z) : bool :=
  between 9 c 13 || (c =? 32) || (c =? 0x85) || (c =? 0xA0) || (c =? 0x1680) || between 0x2000 c 0x200A ||
  between 0x2028 c 0x2029 || (c =? 0x202F) || (c =? 0x205F) || (c =? 0x3000).

Fixpoint trim_start (s : str) : str :=
  match s with
  | c :: s' => if is_whitespace c then trim_start s' else s
  | [] => []
  end.

Definition trim (s : str) : str := rev (trim_start (rev (trim_start s))).

Fixpoint split_at_space (s : str) : str * str :=
  match s with
  | [] => ([], [])
  | c :: s' => if c =? 32 then ([], s) else let '(a, b) := split_at_space s' in (c :: a, b)
  end.

(** [core::str::from_utf8(buf).unwrap_or("").trim()], and the command with the rest. *)
Definition trimmed (buf : list Z) : str := trim (default [] (from_utf8 buf)).

(** Digits from the last to the first. *)
Fixpoint digits_rev (fuel : nat) (n : Z) : list Z :=
  match fuel with
  | O => []
  | S fuel => if 0 <? n then 48 + n mod 10 :: digits_rev fuel (n / 10) else []
  end.

Definition decimal (n : Z) : list Z := if n =? 0 then [48] else rev (digits_rev 20 n).

(** The number an argument stands for: none when a byte is not a digit. *)
Fixpoint parse_number (v : Z) (args : str) : result Empty_set (option Z) :=
  match args with
  | [] => Ok (Some v)
  | b :: args =>
      if between 48 b 57 then
        if v * 10 <? 2 ^ 64 then
          let? v := uadd (v * 10) (b - 48) in parse_number v args
        else Panic
      else Ok None
  end.

(** "flow: ", " lines, cycles=", "deb!", the usage and the refusal. *)
Definition MSG_FLOW : list Z := [102; 108; 111; 119; 58; 32].
Definition MSG_LINES : list Z := [32; 108; 105; 110; 101; 115; 44; 32; 99; 121; 99; 108; 101; 115; 61].
Definition MSG_DEB : list Z := [100; 101; 98; 33].
Definition MSG_USAGE : list Z :=
  [102; 108; 111; 119; 58; 32; 117; 115; 97; 103; 101; 58; 32; 102; 108; 111; 119; 32; 91; 108; 105; 110; 101; 115; 32;
   49; 46; 46; 50; 48; 48; 48; 48; 93; 32; 40; 100; 101; 102; 97; 117; 108; 116; 32; 49; 54; 48; 48; 41].
Definition MSG_NO_TEXT : list Z :=
  [102; 108; 111; 119; 58; 32; 110; 111; 32; 101; 120; 97; 109; 112; 108; 101; 32; 116; 101; 120; 116; 32; 100; 97; 116; 97].
Definition MSG_NOT_FOUND : list Z :=
  [67; 111; 109; 109; 97; 110; 100; 32; 110; 111; 116; 32; 102; 111; 117; 110; 100].

(** The message in its buffer of 64 bytes. *)
Definition flow_message (lines_ cycles : Z) : list Z := take 64 (MSG_FLOW ++ decimal lines_ ++ MSG_LINES ++ decimal cycles).

Definition DET_LINE : list Z := [65; 65; 65; 65; 65; 32; 66; 66; 66; 66; 32; 67; 67; 67; 32].

Fixpoint repeat_write (n : nat) (text : list Z) : TM unit :=
  match n with
  | O => sret tt
  | S n => write_str text ;;; repeat_write n text
  end.

(** What the time stamp counter says when it is read. *)
Record Readings : Type := mkReadings { tsc_rng : Z; tsc_start : Z; tsc_end : Z }.

Definition det_flow_demo (r : Readings) (count : Z) : TM unit :=
  let total := saturating_mul 64 count 5 in
  repeat_write (Z.to_nat total) DET_LINE ;;;
  write_line (flow_message total (wrap 64 (tsc_end r - tsc_start r))).

Definition xorshift (x : Z) : Z :=
  let x := Z.lxor x (wrap 64 (Z.shiftl x 13)) in
  let x := Z.lxor x (Z.shiftr x 7) in
  Z.lxor x (wrap 64 (Z.shiftl x 17)).

Fixpoint skip_spaces (l : list Z) : list Z :=
  match l with
  | b :: l' => if b =? 32 then skip_spaces l' else l
  | [] => []
  end.

Section commands.
Variables (LOREM : list Z) (programs : list ProgramEntry).

Definition flow_slice (r1 r2 : Z) : list Z :=
  let take_ := 20 + r1 mod 80 in
  let start := r2 mod zlen LOREM in
  let available := zlen LOREM - start in
  let len := Z.min (if take_ <? available then take_ else available) 128 in
  skip_spaces (slice LOREM (Z.to_nat start) (Z.to_nat len)).

Fixpoint flow_loop (n : nat) (rng : Z) : TM unit :=
  match n with
  | O => sret tt
  | S n =>
      let r1 := xorshift rng in
      let r2 := xorshift r1 in
      (match flow_slice r1 r2 with
       | [] => sret tt
       | text => write_line text
       end) ;;;
      flow_loop n r2
  end.

Definition flow_demo (r : Readings) (count : Z) : TM unit :=
  match LOREM with
  | [] => write_line MSG_NO_TEXT
  | _ =>
      flow_loop (Z.to_nat count) (if tsc_rng r =? 0 then 0x9E3779B97F4A7C15 else tsc_rng r) ;;;
      write_line (flow_message count (wrap 64 (tsc_end r - tsc_start r)))
  end.

Definition CMD_DEB : str := [100; 101; 98].
Definition CMD_CLEAR : str := [99; 108; 101; 97; 114].
Definition CMD_FLOW : str := [102; 108; 111; 119].
Definition CMD_ABC : str := [97; 98; 99].

(** The argument of a demonstration, and the demonstration. *)
Definition with_count (args : str) (demo : Z -> TM unit) : TM unit :=
  match args with
  | [] => demo 1600
  | _ =>
      let! v := slift (parse_number 0 args) in
      match v with
      | Some v => if (v =? 0) || (20000 <? v) then write_line MSG_USAGE else demo v
      | None => write_line MSG_USAGE
      end
  end.

Definition execute_command (r : Readings) : TM unit :=
  let! buf := look last_command_buf in
  let s_trimmed := trimmed buf in
  match s_trimmed with
  | [] => sret tt
  | _ =>
      let '(cmd, args_raw) := split_at_space s_trimmed in
      let args := trim args_raw in
      if bool_decide (cmd = CMD_DEB) then write_line MSG_DEB
      else if bool_decide (cmd = CMD_CLEAR) then clear
      else if bool_decide (cmd = CMD_FLOW) then with_count args (flow_demo r)
      else if bool_decide (cmd = CMD_ABC) then with_count args (det_flow_demo r)
      else if bool_decide (cmd = ODYS) then
        match lookup_program cmd programs with
        | Some path => modify (launch path)
        | None => write_line MSG_NOT_FOUND
        end
      else sret tt
  end.

Definition is_command (cmd : str) : bool :=
  bool_decide (cmd ∈ [CMD_DEB; ODYS; CMD_FLOW; CMD_ABC; CMD_CLEAR]).

Definition apply_action (r : Readings) (action : InputAction) : TM unit :=
  (match action with
   | Scroll Up Page => let! n := look viewport_rows in scroll_up_lines n
   | Scroll Down Page => let! n := look viewport_rows in scroll_down_lines n
   | Scroll Up Line => scroll_up_lines 1
   | Scroll Down Line => scroll_down_lines 1
   | Backspace => backspace
   | Enter =>
       capture_last_command ;;;
       let! last := look last_command_buf in
       newline ;;;
       (match last with
        | [] => sret tt
        | _ => if is_command (split_at_space (trimmed last)).1 then execute_command r else sret tt
        end) ;;;
       clamp_scroll
   | Char c =>
       modify (fun t => if scroll_offset t =? 0 then t else set_scroll 0 t) ;;;
       write_bytes_internal [wrap 8 c]
   | ArrowUp =>
       let! i := look input_state in
       if command_mode i then sret tt else recall_last_command
   | _ => sret tt
   end) ;;;
  modify set_redraw.

Definition handle_event (r : Readings) (event : InputEvent) : TM unit :=
  let! t := look id in
  let '(action, i) := translate event (input_state t) in
  modify (set_input i) ;;;
  match action with
  | Some a => apply_action r a
  | None => sret tt
  end.

End commands.
