(* ===== verification/TerminalSpec.v ===== *)
(** * TerminalSpec: the terminal shows the text it was given

    The text of a terminal is a list of lines with the one being written at the end.  Every
    operation of the terminal does to its index and its byte store what a function on lines
    does to the text; drawing puts the last lines on the surface. *)

From Stdlib Require Import ZArith Lia.
From stdpp Require Import base tactics list option numbers.
From S2P Require Import Prelude FsTypes CircularBuffer Events Scrollback Terminal.

Open Scope rust_scope.

(** ** The text *)

(** [filled] bytes were written and are left, [high] is the most there ever were. *)
Record Text : Type := mkText {
  done_lines : list (list Z);
  cur_line : list Z;
  filled : Z;
  high : Z;
}.

Definition all_lines (x : Text) : list (list Z) := done_lines x ++ [cur_line x].

Lemma concat_lines x : concat (all_lines x) = concat (done_lines x) ++ cur_line x.
Proof. unfold all_lines. rewrite concat_app. cbn. by rewrite app_nil_r. Qed.

Definition feed (x : Text) : Text := mkText (all_lines x) [] (filled x) (high x).

Definition put (bytes : list Z) (x : Text) : Text :=
  mkText (done_lines x) (cur_line x ++ bytes) (filled x + zlen bytes) (Z.max (high x) (filled x + zlen bytes)).

Definition erase (x : Text) : Text :=
  match cur_line x with
  | [] => x
  | _ => mkText (done_lines x) (removelast (cur_line x)) (filled x - 1) (high x)
  end.

Definition cleared (x : Text) : Text := mkText [] [] (filled x) (high x).

(** Putting a piece of text without line ends, broken to lines of [w] characters. *)
Fixpoint put_wrapped (fuel : nat) (w : Z) (chunk : list Z) (x : Text) : Text :=
  match chunk, fuel with
  | [], _ => x
  | _, O => x
  | _, S fuel =>
      let x := if w <=? zlen (cur_line x) then feed x else x in
      let space := w - zlen (cur_line x) in
      if zlen chunk <=? space then
        let x := put chunk x in
        if SPLIT_LINE_AT <=? zlen (cur_line x) then feed x else x
      else
        let n := Z.to_nat (split_after_space (Z.to_nat space) chunk space) in
        put_wrapped fuel w (drop n chunk) (feed (put (take n chunk) x))
  end.

Fixpoint put_segments (w : Z) (segment bytes : list Z) (x : Text) : Text :=
  match bytes with
  | [] => put_wrapped (length segment) w segment x
  | b :: bytes =>
      if b =? 10 then put_segments w [] bytes (feed (put_wrapped (length segment) w segment x))
      else if b =? 13 then put_segments w [] bytes (put_wrapped (length segment) w segment x)
      else put_segments w (segment ++ [b]) bytes x
  end.

Definition put_text (w : Z) (bytes : list Z) (x : Text) : Text := put_segments w [] bytes x.

Section text.
(** The most lines the index holds and the size of the store. *)
Context (most view : Z).

(** ** The index of lines *)

Definition pos (ls : list (list Z)) (k : nat) : Z := zlen (concat (take k ls)).

Record index_ok (l : LineIndex) (base : Z) (ls : list (list Z)) : Prop := {
  io_max : 0 < max_lines l;
  io_length : zlen (lines l) = max_lines l;
  io_some : ls <> [];
  io_current : current l = (zlen ls - 1) mod max_lines l;
  io_count : count l = Z.min (zlen ls) (max_lines l);
  io_line : forall k line, ls !! k = Some line -> zlen ls - max_lines l <= Z.of_nat k ->
    lines l !! Z.to_nat (Z.of_nat k mod max_lines l) = Some (mkMeta (base + pos ls k) (base + pos ls k + zlen line));
  io_is : max_lines l = most;
}.

Lemma pos_app ls line k : (k <= length ls)%nat -> pos (ls ++ [line]) k = pos ls k.
Proof. intros Hk. unfold pos. by rewrite take_app_le. Qed.

Lemma pos_end ls : pos ls (length ls) = zlen (concat ls).
Proof. unfold pos. by rewrite take_ge. Qed.

Lemma current_range l base ls : index_ok l base ls -> 0 <= current l < max_lines l.
Proof. intros []. rewrite io_current0. apply Z.mod_pos_bound. lia. Qed.

Lemma current_ok l base ls line : index_ok l base (ls ++ [line]) ->
  current_ref l = Ok (mkMeta (base + zlen (concat ls)) (base + zlen (concat ls) + zlen line)).
Proof.
  intros Hok. pose proof (io_line _ _ _ Hok (length ls) line) as Hl. rewrite lookup_app_r, Nat.sub_diag in Hl by lia.
  rewrite length_app in Hl. cbn [length] in Hl. specialize (Hl eq_refl).
  unfold current_ref, line_get. rewrite (io_current _ _ _ Hok), length_app. cbn [length].
  replace (Z.of_nat (length ls + 1) - 1) with (Z.of_nat (length ls)) by lia.
  pose proof (io_max _ _ _ Hok). rewrite Hl by lia. by rewrite pos_app, pos_end by lia.
Qed.

Lemma set_line_ok l base i m : index_ok l base i -> set_line (current l) m l =
  (Ok tt, mkIndex (<[Z.to_nat (current l) := m]> (lines l)) (current l) (count l) (max_lines l)).
Proof.
  intros Hok. pose proof (current_range _ _ _ Hok). pose proof (io_length _ _ _ Hok). unfold set_line.
  destruct (lookup_lt_is_Some_2 (lines l) (Z.to_nat (current l)) ltac:(lia)) as [x Hx]. by rewrite Hx.
Qed.

(** Other lines in the index do not lie where the current one does. *)
Lemma other_slot l base ls k : index_ok l base ls -> zlen ls - max_lines l <= Z.of_nat k -> Z.of_nat k < zlen ls - 1 ->
  Z.to_nat (Z.of_nat k mod max_lines l) <> Z.to_nat (current l).
Proof.
  intros Hok H1 H2. pose proof (current_range _ _ _ Hok). pose proof (io_max _ _ _ Hok).
  pose proof (Z.mod_pos_bound (Z.of_nat k) (max_lines l)).
  pose proof (mod_apart (max_lines l) (Z.of_nat k) (zlen ls - 1) ltac:(lia)) as Hne. rewrite <- (io_current _ _ _ Hok) in Hne. lia.
Qed.

Lemma update_end_ok l base ls line line' e : index_ok l base (ls ++ [line]) -> e = base + zlen (concat ls) + zlen line' ->
  exists l', update_end e l = (Ok tt, l') /\ index_ok l' base (ls ++ [line']).
Proof.
  intros Hok ->. unfold update_end. rewrite (current_ok _ _ _ _ Hok), (set_line_ok _ _ _ _ Hok). cbn [first_pos].
  eexists. split; [reflexivity|]. pose proof (current_range _ _ _ Hok) as Hr. pose proof Hok as [Hm Hl Hs Hc Hn Hk Hmm].
  rewrite length_app in *. cbn [length] in *. split; cbn; try done; rewrite ?length_insert, ?length_app; try done; [by destruct ls|].
  intros k x Hx Hk1. cbn [length] in Hk1. apply lookup_app_Some in Hx as [Hx|[Hge Hx]].
  - pose proof (lookup_lt_Some _ _ _ Hx). rewrite list_lookup_insert_ne by (apply not_eq_sym, (other_slot _ _ _ _ Hok); rewrite ?length_app; cbn [length]; lia).
    rewrite pos_app by lia. rewrite (Hk k x); [by rewrite pos_app by lia|by rewrite lookup_app_l by lia|lia].
  - destruct (k - length ls)%nat eqn:E; cbn in Hx; [|done]. injection Hx as ->. assert (k = length ls) as -> by lia.
    rewrite pos_app, pos_end by lia. replace (Z.of_nat (length ls) mod max_lines l) with (current l) by (rewrite Hc; f_equal; lia).
    apply list_lookup_insert_eq. lia.
Qed.

Lemma next_mod m n : 0 < m -> (if m <=? n mod m + 1 then 0 else n mod m + 1) = (n + 1) mod m.
Proof.
  intros Hm. pose proof (Z.mod_pos_bound n m Hm). pose proof (Z.div_mod n m ltac:(lia)). destruct (Z.leb_spec m (n mod m + 1)).
  - apply (Z.mod_unique_pos _ _ (n / m + 1)); lia.
  - apply (Z.mod_unique_pos _ _ (n / m)); lia.
Qed.

Lemma line_feed_ok l base ls line e : index_ok l base (ls ++ [line]) -> e = base + zlen (concat ls) + zlen line ->
  exists l', line_feed e l = (Ok tt, l') /\ index_ok l' base ((ls ++ [line]) ++ [[]]).
Proof.
  intros Hok He. destruct (update_end_ok _ _ _ _ line _ Hok He) as (l1 & E1 & Hok1). unfold line_feed. rewrite (sbind_ok _ _ _ _ _ E1).
  clear E1 Hok l. pose proof Hok1 as [Hm Hl Hs Hc Hn Hk Hmm]. rewrite length_app in *. cbn [length] in *.
  unfold sbind. cbv beta iota. unfold set_line at 1. cbn [lines current]. rewrite Hc, next_mod by done.
  set (c := (Z.of_nat (length ls + 1) - 1 + 1) mod max_lines l1). assert (Hcr : 0 <= c < max_lines l1) by (apply Z.mod_pos_bound; lia).
  destruct (lookup_lt_is_Some_2 (lines l1) (Z.to_nat c) ltac:(lia)) as [x Hx]. rewrite Hx. cbn [count current lines max_lines].
  eexists. split; [reflexivity|]. split; cbn; rewrite ?length_insert, ?length_app; cbn [length]; try done.
  - by destruct ls.
  - unfold c. f_equal. lia.
  - rewrite Hn. clear Hk Hx. destruct (Z.leb_spec (Z.min (Z.of_nat (length ls + 1)) (max_lines l1)) c);
      destruct (Z.ltb_spec (max_lines l1) (c + 1)); try destruct (Z.ltb_spec (max_lines l1) (Z.min (Z.of_nat (length ls + 1)) (max_lines l1))); try lia.
    + destruct (decide (Z.of_nat (length ls + 1) < max_lines l1)) as [Hlt|]; [|lia].
      assert (c = Z.of_nat (length ls + 1)) by (unfold c; rewrite Z.mod_small; lia). lia.
    + destruct (decide (Z.of_nat (length ls + 1) < max_lines l1)) as [Hlt|]; [|lia].
      assert (c = Z.of_nat (length ls + 1)) by (unfold c; rewrite Z.mod_small; lia). lia.
  - intros k y Hy Hk1. rewrite ?length_app in Hk1. cbn [length] in Hk1. apply lookup_app_Some in Hy as [Hy|[Hge Hy]].
    + pose proof (lookup_lt_Some _ _ _ Hy) as Hlt. rewrite length_app in Hlt. cbn [length] in Hlt.
      pose proof (Z.mod_pos_bound (Z.of_nat k) (max_lines l1) Hm).
      pose proof (mod_apart (max_lines l1) (Z.of_nat k) (Z.of_nat (length ls + 1) - 1 + 1) ltac:(lia)).
      rewrite list_lookup_insert_ne by (unfold c; lia). rewrite (Hk k y Hy) by lia. by rewrite (pos_app (ls ++ [line]) []) by (rewrite length_app; cbn [length]; lia).
    + rewrite length_app in Hge. cbn [length] in *. destruct (k - length (ls ++ [line]))%nat eqn:E; cbn in Hy; [|done]. injection Hy as <-.
      rewrite length_app in E. cbn [length] in E. assert (Ek : k = length (ls ++ [line])) by (rewrite length_app; cbn [length]; lia).
      rewrite Ek, pos_app, pos_end by lia. rewrite <- Ek. replace (Z.of_nat k mod max_lines l1) with c by (unfold c; f_equal; lia).
      rewrite list_lookup_insert_eq by lia. f_equal. unfold meta_empty. rewrite concat_app, length_app. cbn. rewrite app_nil_r.
      f_equal; lia.
Qed.

Lemma truncate_ok l base ls line line' e : index_ok l base (ls ++ [line]) -> e = base + zlen (concat ls) + zlen line' ->
  exists l', truncate_last e l = (Ok tt, l') /\ index_ok l' base (ls ++ [line']).
Proof.
  intros Hok He. destruct (update_end_ok _ _ _ _ line' _ Hok He) as (l' & E & Hok'). exists l'. split; [|done].
  unfold truncate_last. unfold update_end in E. rewrite (current_ok _ _ _ _ Hok) in *. cbn [first_pos] in *.
  by rewrite (proj2 (Z.leb_le _ _)) by lia.
Qed.

Lemma index_clear_ok p l : max_lines l = most -> 0 < max_lines l -> zlen (lines l) = max_lines l ->
  exists l', index_clear p l = (Ok tt, l') /\ index_ok l' p [[]].
Proof.
  intros Hmm Hm Hl. unfold index_clear, sbind, set_line. cbn [lines]. rewrite list_lookup_fmap.
  destruct (lookup_lt_is_Some_2 (lines l) (Z.to_nat 0) ltac:(lia)) as [x Hx]. rewrite Hx. cbn [fmap option_fmap option_map].
  eexists. split; [reflexivity|]. split; cbn [max_lines lines current count]; try done.
  - by rewrite length_insert, length_fmap.
  - cbn. lia.
  - intros k line Hk _. destruct k; cbn in Hk; [|done]. injection Hk as <-. change (Z.of_nat 0) with 0. rewrite Z.mod_0_l by lia.
    rewrite list_lookup_insert_eq by (rewrite length_fmap; lia). unfold pos, meta_empty. cbn. do 2 f_equal; lia.
Qed.

(** ** The terminal holds a text *)

Definition upd (s : Scrollback) (l : LineIndex) (t : Terminal) : Terminal := set_index l (set_store s t).

Record repr (t : Terminal) (x : Text) (hist : list Z) (base : Z) : Prop := {
  re_store : sb_ok (scrollback t) hist (Z.max 0 (high x - sb_view_size (scrollback t)));
  re_filled : filled x = zlen hist;
  re_high : filled x <= high x;
  re_index : index_ok (line_index t) base (all_lines x);
  re_text : exists pre, hist = pre ++ concat (all_lines x) /\ zlen pre = base;
  re_width : 0 < max_chars_per_line t;
  re_view : sb_view_size (scrollback t) = view;
}.

Definition holds_text (t : Terminal) (x : Text) : Prop := exists hist base, repr t x hist base.

(** [op] turns the text into [x'] and leaves everything but the store and the index. *)
Definition writes (op : TM unit) (t : Terminal) (x' : Text) : Prop :=
  exists s l, op t = (Ok tt, upd s l t) /\ holds_text (upd s l t) x'.

Lemma repr_pos t x hist base : repr t x hist base -> base + zlen (concat (done_lines x)) + zlen (cur_line x) = filled x.
Proof.
  intros [_ -> _ _ (pre & -> & <-) _ _]. unfold all_lines. rewrite concat_app, !length_app. cbn. rewrite app_nil_r. lia.
Qed.

Lemma holds_bound t x : holds_text t x -> 0 <= filled x /\ zlen (cur_line x) <= filled x.
Proof.
  intros (hist & base & H). pose proof (repr_pos _ _ _ _ H) as Hp. destruct H as [_ Hf _ _ (pre & _ & Hb) _ _]. lia.
Qed.

Lemma upd_upd s l s' l' t : upd s' l' (upd s l t) = upd s' l' t.
Proof. done. Qed.

Lemma writes_same t x : holds_text t x -> writes (sret tt) t x.
Proof. intros H. exists (scrollback t), (line_index t). by destruct t. Qed.

Lemma writes_bind op k t x x' : writes op t x -> (forall s l, holds_text (upd s l t) x -> writes k (upd s l t) x') -> writes (op ;;; k) t x'.
Proof.
  intros (s & l & E & H) Hk. destruct (Hk s l H) as (s' & l' & E' & H'). exists s', l'. rewrite (sbind_ok _ _ _ _ _ E).
  split; [exact E'|exact H'].
Qed.

Lemma writes_feed t x : holds_text t x -> writes feed_here t (feed x).
Proof.
  intros (hist & base & H). pose proof (repr_pos _ _ _ _ H) as Hp. destruct H as [Hs Hf Hh Hi (pre & Ehist & Hb) Hw Hview].
  destruct (line_feed_ok (line_index t) base (done_lines x) (cur_line x) (filled x) Hi ltac:(lia)) as (l' & E & Hi').
  exists (scrollback t), l'. split.
  - unfold feed_here, sbind, look, current_absolute. rewrite (sbo_filled _ _ _ Hs), <- Hf. unfold on_index. rewrite E.
    by destruct t.
  - exists hist, base. split; try done. exists pre. split; [|done]. rewrite Ehist, (concat_lines (feed x)). cbn [feed done_lines cur_line]. by rewrite app_nil_r.
Qed.

(** Writing bytes and moving the end of the current line behind them; what follows gets the end. *)
Lemma writes_put t x bytes (k : Z -> TM unit) x' : holds_text t x -> filled x + zlen bytes < 2 ^ 64 ->
  (forall s l, holds_text (upd s l t) (put bytes x) -> writes (k (filled x + zlen bytes)) (upd s l t) x') ->
  writes (let! start_abs := on_store (write_bytes bytes) in
    let! end_abs := slift (uadd start_abs (zlen bytes)) in on_index (update_end end_abs) ;;; k end_abs) t x'.
Proof.
  intros (hist & base & H) Hmax Hk. pose proof (repr_pos _ _ _ _ H) as Hp. destruct H as [Hs Hf Hh Hi (pre & Ehist & Hb) Hw Hview].
  destruct (write_bytes_ok _ _ _ bytes Hs ltac:(lia)) as (s' & Es & Hv & Hs').
  destruct (update_end_ok (line_index t) base (done_lines x) (cur_line x) (cur_line x ++ bytes) (filled x + zlen bytes) Hi) as (l' & El & Hi').
  { rewrite length_app. lia. }
  destruct (Hk s' l') as (s2 & l2 & E2 & H2).
  { exists (hist ++ bytes), base. split; try done; cbn [filled high put].
    - cbn [scrollback upd set_index set_store]. rewrite Hv in *.
      match type of Hs' with sb_ok _ _ ?y => match goal with |- sb_ok _ _ ?z => replace z with y; [exact Hs'|] end end. lia.
    - rewrite length_app. lia.
    - lia.
    - exists pre. split; [|done]. rewrite Ehist, !concat_lines. cbn [done_lines cur_line put]. by rewrite <- !app_assoc.
    - cbn. congruence. }
  exists s2, l2. split; [|exact H2]. rewrite <- (upd_upd s' l' s2 l2 t), <- E2. unfold sbind, on_store. rewrite Es. unfold slift, uadd. rewrite <- Hf.
  rewrite (proj2 (Z.ltb_lt _ _)) by lia. unfold on_index. cbn [line_index set_store]. by rewrite El.
Qed.

Lemma space_ok t x : holds_text t x -> current_line_remaining_space t =
  (Ok (if max_chars_per_line t <=? zlen (cur_line x) then 0 else max_chars_per_line t - zlen (cur_line x)), t).
Proof.
  intros (hist & base & H). pose proof (repr_pos _ _ _ _ H) as Hp. unfold current_line_remaining_space, sbind, look, slift.
  change (id t) with t. rewrite (current_ok _ _ _ _ (re_index _ _ _ _ H)). cbn [rbind]. unfold meta_len. cbn [first_pos one_past_last_pos].
  rewrite (proj2 (Z.leb_le _ _)) by lia. unfold sret. replace (base + _ + _ - _) with (zlen (cur_line x)) by lia. done.
Qed.

Lemma writes_force t x : holds_text t x ->
  writes (on_index (force_line_feed_if_needed (filled x))) t (if SPLIT_LINE_AT <=? zlen (cur_line x) then feed x else x).
Proof.
  intros Hx. destruct Hx as (hist & base & H). pose proof (repr_pos _ _ _ _ H) as Hp.
  assert (E : (let? m := current_ref (line_index t) in meta_len m) = Ok (zlen (cur_line x))).
  { rewrite (current_ok _ _ _ _ (re_index _ _ _ _ H)). cbn [rbind]. unfold meta_len. cbn [first_pos one_past_last_pos].
    rewrite (proj2 (Z.leb_le _ _)) by lia. f_equal. lia. }
  assert (Hx : holds_text t x) by (by exists hist, base).
  destruct (SPLIT_LINE_AT <=? zlen (cur_line x)) eqn:Es.
  - destruct (writes_feed t x Hx) as (s & l & Ef & Hh). exists s, l. split; [|done]. rewrite <- Ef.
    unfold on_index, force_line_feed_if_needed, feed_here, sbind, look. rewrite E, Es.
    unfold current_absolute. by rewrite (sbo_filled _ _ _ (re_store _ _ _ _ H)), <- (re_filled _ _ _ _ H).
  - destruct (writes_same t x Hx) as (s & l & Ef & Hh). exists s, l. split; [|done]. unfold on_index, force_line_feed_if_needed.
    rewrite E, Es. unfold sret in *. rewrite <- Ef. by destruct t.
Qed.

Lemma writes_ensure t x : holds_text t x ->
  writes ensure_current_line_has_space t (if max_chars_per_line t <=? zlen (cur_line x) then feed x else x).
Proof.
  intros Hx. unfold writes, ensure_current_line_has_space. rewrite (sbind_ok _ _ _ _ _ (space_ok _ _ Hx)).
  destruct (Z.leb_spec (max_chars_per_line t) (zlen (cur_line x))).
  - apply (writes_feed t x Hx).
  - rewrite (proj2 (Z.eqb_neq _ _)) by lia. apply (writes_same t x Hx).
Qed.

Lemma split_range n chunk d : 0 < d -> Z.of_nat n <= d -> 0 < split_after_space n chunk d <= d.
Proof.
  intros Hd Hn. induction n as [|n IH]; [cbn; lia|]. cbn [split_after_space]. destruct (chunk !! n) as [b|]; [|apply IH; lia].
  destruct (b =? 32); [lia|apply IH; lia].
Qed.

Lemma append_step fuel chunk t : chunk <> [] -> append_loop (S fuel) chunk t =
  (ensure_current_line_has_space ;;;
   let! space := current_line_remaining_space in
   let! width := look max_chars_per_line in
   sassert ((0 <? space) && (space <=? width)) ;;;
   let remaining := zlen chunk in
   if remaining <=? space then
     let! start_abs := on_store (write_bytes chunk) in
     let! end_abs := slift (uadd start_abs remaining) in
     on_index (update_end end_abs) ;;;
     on_index (force_line_feed_if_needed end_abs)
   else
     let split := Z.min space remaining in
     let split := split_after_space (Z.to_nat split) chunk split in
     let split := if split =? 0 then space else split in
     let! start_abs := on_store (write_bytes (take (Z.to_nat split) chunk)) in
     let! end_abs := slift (uadd start_abs split) in
     on_index (update_end end_abs) ;;;
     on_index (line_feed end_abs) ;;;
     append_loop fuel (drop (Z.to_nat split) chunk)) t.
Proof. by destruct chunk. Qed.

Lemma wrapped_step fuel w chunk x : chunk <> [] -> put_wrapped (S fuel) w chunk x =
  (let x := if w <=? zlen (cur_line x) then feed x else x in
   let space := w - zlen (cur_line x) in
   if zlen chunk <=? space then
     let x := put chunk x in
     if SPLIT_LINE_AT <=? zlen (cur_line x) then feed x else x
   else
     let n := Z.to_nat (split_after_space (Z.to_nat space) chunk space) in
     put_wrapped fuel w (drop n chunk) (feed (put (take n chunk) x))).
Proof. by destruct chunk. Qed.

Lemma filled_feed_if (b : bool) x : filled (if b then feed x else x) = filled x.
Proof. by destruct b. Qed.

Lemma writes_append fuel : forall chunk t x, (length chunk <= fuel)%nat -> holds_text t x -> filled x + zlen chunk < 2 ^ 64 ->
  writes (append_loop fuel chunk) t (put_wrapped fuel (max_chars_per_line t) chunk x).
Proof.
  induction fuel as [|fuel IH]; intros chunk t x Hfuel Hx Hmax.
  { destruct chunk; [|cbn in Hfuel; lia]. by apply writes_same. }
  destruct (decide (chunk = [])) as [->|Hne]; [by apply writes_same|].
  rewrite wrapped_step by done. unfold writes. rewrite append_step by done. cbv zeta.
  set (w := max_chars_per_line t) in *. assert (Hw : 0 < w) by (destruct Hx as (? & ? & []); done).
  set (x1 := if w <=? zlen (cur_line x) then feed x else x). set (space := w - zlen (cur_line x1)).
  assert (Hf1 : filled x1 = filled x) by apply filled_feed_if.
  assert (Hsp : 0 < space <= w).
  { unfold space, x1. destruct (Z.leb_spec w (zlen (cur_line x))); cbn [cur_line feed length]; lia. }
  apply (writes_bind _ _ _ x1); [by apply writes_ensure|]. intros s l Hx1. unfold writes.
  rewrite (sbind_ok _ _ _ _ _ (space_ok _ _ Hx1)). change (max_chars_per_line (upd s l t)) with w.
  rewrite (proj2 (Z.leb_gt w (zlen (cur_line x1)))) by lia. fold space. unfold sbind at 1, look at 1.
  change (max_chars_per_line (upd s l t)) with w.
  rewrite (proj2 (Z.ltb_lt _ _)), (proj2 (Z.leb_le _ _)) by lia. unfold sbind at 1. cbn [andb sassert]. unfold sret at 1.
  destruct (Z.leb_spec (zlen chunk) space) as [Hle|Hgt].
  - apply (writes_put _ x1 chunk (fun e => on_index (force_line_feed_if_needed e))); [done|lia|]. intros s2 l2 Hx2.
    apply (writes_force _ _ Hx2).
  - rewrite Z.min_l by lia. pose proof (split_range (Z.to_nat space) chunk space ltac:(lia) ltac:(lia)) as Hsplit.
    set (split := split_after_space (Z.to_nat space) chunk space) in *. rewrite (proj2 (Z.eqb_neq split 0)) by lia.
    assert (Hlen : zlen (take (Z.to_nat split) chunk) = split) by (rewrite length_take; lia).
    pose proof (writes_put (upd s l t) x1 (take (Z.to_nat split) chunk)
      (fun e => on_index (line_feed e) ;;; append_loop fuel (drop (Z.to_nat split) chunk))) as Hput.
    rewrite Hlen in Hput. apply Hput; [done|lia|]. clear Hput. intros s2 l2 Hx2. apply (writes_bind _ _ _ (feed (put (take (Z.to_nat split) chunk) x1))).
    + destruct (writes_feed _ _ Hx2) as (s3 & l3 & E3 & H3). exists s3, l3. split; [|done]. rewrite <- E3. unfold feed_here, sbind, look.
      unfold current_absolute. destruct Hx2 as (hist & base & H2). rewrite (sbo_filled _ _ _ (re_store _ _ _ _ H2)), <- (re_filled _ _ _ _ H2).
      cbn [filled put]. by rewrite Hlen.
    + intros s3 l3 Hx3. apply IH; [rewrite length_drop; lia|done|]. cbn [filled feed put]. rewrite length_drop, length_take. lia.
Qed.

Lemma filled_wrapped fuel w : forall chunk x, (length chunk <= fuel)%nat -> 0 < w -> filled (put_wrapped fuel w chunk x) = filled x + zlen chunk.
Proof.
  intros chunk x Hfuel Hw. revert chunk x Hfuel. induction fuel as [|fuel IH]; intros chunk x Hfuel.
  { destruct chunk; cbn [length] in *; [cbn; lia|lia]. }
  destruct (decide (chunk = [])) as [->|Hne]; [cbn; lia|]. rewrite wrapped_step by done. cbv zeta.
  set (x1 := if w <=? zlen (cur_line x) then feed x else x). assert (Hf1 : filled x1 = filled x) by apply filled_feed_if.
  destruct (Z.leb_spec (zlen chunk) (w - zlen (cur_line x1))).
  - rewrite filled_feed_if. cbn [filled put]. lia.
  - assert (0 < w - zlen (cur_line x1)) by (unfold x1; destruct (Z.leb_spec w (zlen (cur_line x))); cbn [cur_line feed length]; lia).
    pose proof (split_range (Z.to_nat (w - zlen (cur_line x1))) chunk (w - zlen (cur_line x1)) ltac:(lia) ltac:(lia)).
    rewrite IH by (rewrite length_drop; destruct chunk; [done|cbn [length] in *; lia]). cbn [filled feed put]. rewrite length_drop, length_take. lia.
Qed.

Lemma writes_segments bytes : forall segment t x, holds_text t x -> filled x + zlen segment + zlen bytes < 2 ^ 64 ->
  writes (write_segments segment bytes) t (put_segments (max_chars_per_line t) segment bytes x).
Proof.
  assert (Hseg : forall segment t x, holds_text t x -> filled x + zlen segment < 2 ^ 64 ->
    writes (append_chunk_with_wrap segment) t (put_wrapped (length segment) (max_chars_per_line t) segment x)).
  { intros segment t x Hx Hmax. by apply writes_append. }
  induction bytes as [|b bytes IH]; intros segment t x Hx Hmax; cbn [write_segments put_segments length] in *; [apply Hseg; (done || lia)|].
  assert (Hf : filled (put_wrapped (length segment) (max_chars_per_line t) segment x) = filled x + zlen segment).
  { apply filled_wrapped; [done|]. by destruct Hx as (? & ? & []). }
  destruct (b =? 10); [|destruct (b =? 13)].
  - apply (writes_bind _ _ _ (put_wrapped (length segment) (max_chars_per_line t) segment x)); [apply Hseg; (done || lia)|].
    intros s l Hx1. apply (writes_bind _ _ _ (feed (put_wrapped (length segment) (max_chars_per_line t) segment x))); [by apply writes_feed|].
    intros s2 l2 Hx2. apply (IH [] (upd s2 l2 (upd s l t))); [done|]. cbn [filled feed length]. lia.
  - apply (writes_bind _ _ _ (put_wrapped (length segment) (max_chars_per_line t) segment x)); [apply Hseg; (done || lia)|].
    intros s l Hx1. apply (IH [] (upd s l t)); [done|]. cbn [length]. lia.
  - apply IH; [done|]. rewrite length_app. cbn [length]. lia.
Qed.

(** [op] turns the text into [x'] and leaves the size of the view. *)
Definition acts (op : TM unit) (t : Terminal) (x' : Text) : Prop :=
  exists t', op t = (Ok tt, t') /\ holds_text t' x' /\ max_chars_per_line t' = max_chars_per_line t /\ viewport_rows t' = viewport_rows t /\
    (scroll_offset t = 0 -> scroll_offset t' = 0).

Lemma writes_acts op t x' f : writes op t x' ->
  (forall t0, holds_text t0 x' -> holds_text (f t0) x') -> (forall t0, max_chars_per_line (f t0) = max_chars_per_line t0) ->
  (forall t0, viewport_rows (f t0) = viewport_rows t0) -> (forall t0, scroll_offset (f t0) = scroll_offset t0) -> acts (op ;;; modify f) t x'.
Proof.
  intros (s & l & E & H) Hf Hw Hr Ho. exists (f (upd s l t)). rewrite (sbind_ok _ _ _ _ _ E). split; [done|]. split; [by apply Hf|].
  by rewrite Hw, Hr, Ho.
Qed.

Lemma holds_redraw t x : holds_text t x -> holds_text (set_redraw t) x.
Proof. intros (h & b & []). by exists h, b. Qed.

Lemma acts_write_str bytes t x : holds_text t x -> filled x + zlen bytes < 2 ^ 64 -> acts (write_str bytes) t (put_text (max_chars_per_line t) bytes x).
Proof.
  intros Hx Hmax. apply writes_acts; [|eauto using holds_redraw|done..]. apply (writes_segments bytes []); [done|]. cbn [length]. lia.
Qed.

Lemma acts_newline t x : holds_text t x -> acts newline t (feed x).
Proof. intros Hx. apply writes_acts; [by apply writes_feed|eauto using holds_redraw|done..]. Qed.

Lemma acts_bind op k t x x' : acts op t x -> (forall t1, holds_text t1 x -> max_chars_per_line t1 = max_chars_per_line t -> acts k t1 x') -> acts (op ;;; k) t x'.
Proof.
  intros (t1 & E & H & Hw & Hr & Ho) Hk. destruct (Hk t1 H Hw) as (t2 & E2 & H2 & Hw2 & Hr2 & Ho2). exists t2. rewrite (sbind_ok _ _ _ _ _ E).
  split; [done|]. split; [done|]. split; [congruence|]. split; [congruence|auto].
Qed.

Lemma acts_write_line bytes t x : holds_text t x -> filled x + zlen bytes < 2 ^ 64 ->
  acts (write_line bytes) t (feed (put_text (max_chars_per_line t) bytes x)).
Proof.
  intros Hx Hmax. apply (acts_bind _ _ _ (put_text (max_chars_per_line t) bytes x)); [by apply acts_write_str|].
  intros t1 H1 _. by apply acts_newline.
Qed.

Lemma acts_backspace t x : holds_text t x -> acts backspace t (erase x).
Proof.
  intros Hx. pose proof Hx as (hist & base & H). pose proof (repr_pos _ _ _ _ H) as Hp. destruct H as [Hs Hf Hh Hi (pre & Ehist & Hb) Hw Hview].
  unfold acts, backspace, sbind at 1, look. unfold sbind at 1, slift. change (id t) with t. rewrite (current_ok _ _ _ _ Hi).
  unfold meta_is_empty. cbn [first_pos one_past_last_pos]. destruct (cur_line x) as [|c0 rest] eqn:Ec using rev_ind.
  { cbn [length]. rewrite (proj2 (Z.eqb_eq _ _)) by lia. exists t. split; [done|]. unfold erase. by rewrite Ec. }
  clear IHrest. rewrite length_app in *. cbn [length] in *. rewrite (proj2 (Z.eqb_neq _ _)) by lia.
  unfold sbind at 1, slift. unfold usub. rewrite (proj2 (Z.leb_le _ _)) by lia.
  destruct (truncate_ok (line_index t) base (done_lines x) (cur_line x) rest (filled x - 1) ltac:(exact Hi) ltac:(lia)) as (l' & El & Hi').
  assert (Eh : hist = (pre ++ concat (done_lines x) ++ rest) ++ [c0]) by (by rewrite Ehist, concat_lines, Ec, <- !app_assoc).
  rewrite Eh in Hs. destruct (take_back_ok _ _ _ _ Hs) as (s' & Er & Hs' & Hv).
  exists (set_redraw (set_store s' (set_index l' t))). split; [|split; [|done]].
  - replace (base + zlen (concat (done_lines x)) + Z.of_nat (length rest + 1) - 1) with (filled x - 1) by lia.
    unfold sbind at 1, on_index. rewrite El. unfold sbind, on_store. cbn [scrollback set_index]. by rewrite Er.
  - assert (Ee : erase x = mkText (done_lines x) rest (filled x - 1) (high x)).
    { unfold erase. rewrite Ec. destruct (rest ++ [c0]) eqn:E0; [by destruct rest|]. rewrite <- E0, removelast_last. done. }
    apply holds_redraw. exists (pre ++ concat (done_lines x) ++ rest), base. rewrite Ee. split; try done; cbn [filled high].
    + cbn. rewrite Hv. exact Hs'.
    + rewrite Hf, Eh, length_app. cbn [length]. lia.
    + lia.
    + exists pre. split; [|done]. by rewrite concat_lines.
    + cbn. congruence.
Qed.

Lemma acts_clear t x : holds_text t x -> acts clear t (cleared x).
Proof.
  intros (hist & base & [Hs Hf Hh Hi (pre & Ehist & Hb) Hw Hview]).
  destruct (index_clear_ok (filled x) (line_index t) (io_is _ _ _ Hi) (io_max _ _ _ Hi) (io_length _ _ _ Hi)) as (l' & E & Hi').
  exists (set_redraw (set_drawn [] (set_scroll 0 (set_index l' t)))). split; [|split; [|done]].
  - unfold clear, sbind, look, current_absolute. rewrite (sbo_filled _ _ _ Hs), <- Hf. unfold on_index. by rewrite E.
  - apply holds_redraw. exists hist, (filled x). split; try done. exists hist. cbn. rewrite app_nil_r. by rewrite Hf.
Qed.

(** ** Drawing *)

(** The lines a surface with [rows] rows shows, [scroll] lines above the end. *)
Definition window_of (rows scroll max : Z) (ls : list (list Z)) : list (list Z) :=
  let total := Z.min (zlen ls) max in
  let visible := Z.min rows total in
  let offset := Z.min scroll (total - visible) in
  take (Z.to_nat visible) (drop (Z.to_nat (zlen ls - visible - offset)) ls).

(** The texts of lines from row [vis_idx] down; an empty line leaves none. *)
Fixpoint texts (vis_idx : Z) (ls : list (list Z)) : list (Z * Z * list Z) :=
  match ls with
  | [] => []
  | line :: ls =>
      (match line with [] => [] | _ => [(MARGIN_LEFT, MARGIN_TOP + vis_idx * LINE_SPACING, line)] end) ++ texts (vis_idx + 1) ls
  end.

Lemma logical_ok l base ls j line : index_ok l base ls -> 0 <= j < count l -> let k := zlen ls - count l + j in
  ls !! Z.to_nat k = Some line ->
  logical_line_for_index j l = Ok (Some (mkMeta (base + pos ls (Z.to_nat k)) (base + pos ls (Z.to_nat k) + zlen line))).
Proof.
  intros Hok Hj k Hline. pose proof Hok as [Hm Hl Hs Hc Hn Hk Hmm]. unfold logical_line_for_index.
  rewrite (proj2 (Z.leb_gt _ _)), (proj2 (Z.eqb_neq _ _)) by lia.
  assert (E : ((if count l <? max_lines l then 0 else (current l + 1) mod max_lines l) + j) mod max_lines l = k mod max_lines l).
  { unfold k. rewrite Hn in *. destruct (Z.ltb_spec (Z.min (zlen ls) (max_lines l)) (max_lines l)); [f_equal; lia|].
    rewrite Z.min_r, Hc, Z.add_mod_idemp_l, <- Z.add_assoc, Z.add_mod_idemp_l by lia.
    replace (zlen ls - max_lines l + j) with (zlen ls - 1 + (1 + j) + (-1) * max_lines l) by lia. by rewrite Z.mod_add by lia. }
  rewrite E. unfold line_get. pose proof (lookup_lt_Some _ _ _ Hline). rewrite <- (Z2Nat.id k) at 1 by lia. by rewrite (Hk _ _ Hline) by lia.
Qed.

Lemma pos_S ls k line : ls !! k = Some line -> pos ls (S k) = pos ls k + zlen line.
Proof. intros H. unfold pos. rewrite (take_S_r _ _ _ H), concat_app, length_app. cbn. rewrite app_nil_r. lia. Qed.

Lemma line_bytes (pre : list Z) (ls : list (list Z)) k line : ls !! k = Some line -> take (length line) (drop (length (pre ++ concat (take k ls))) (pre ++ concat ls)) = line.
Proof.
  intros H. rewrite <- (take_drop_middle ls k line H) at 2. rewrite concat_app. cbn. rewrite app_assoc, drop_app_length. by rewrite take_app_length.
Qed.

(** The lines from [k0] on are drawn below each other when none of them has been written over. *)
Lemma redraw_rows_ok n : forall t x hist base vis start k0, repr t x hist base ->
  0 <= vis -> 0 <= start -> start + vis + Z.of_nat n <= count (line_index t) ->
  k0 = zlen (all_lines x) - count (line_index t) + start + vis ->
  high x - sb_view_size (scrollback t) <= base + pos (all_lines x) (Z.to_nat k0) ->
  MARGIN_TOP + (vis + Z.of_nat n) * LINE_SPACING < 2 ^ 31 ->
  redraw_rows n vis start t = (Ok tt, set_drawn (drawn t ++ texts vis (take n (drop (Z.to_nat k0) (all_lines x)))) t).
Proof.
  induction n as [|n IH]; intros t x hist base vis start k0 H Hv Hs Hc Ek Hkept Hrow.
  { cbn. rewrite app_nil_r. by destruct t. }
  pose proof H as [Hst Hf Hh Hi (pre & Ehist & Hb) Hw Hview]. pose proof (io_count _ _ _ Hi) as Hcount.
  assert (Hlt : (Z.to_nat k0 < length (all_lines x))%nat) by lia.
  destruct (lookup_lt_is_Some_2 _ _ Hlt) as [line Hline].
  assert (Elog : logical_line_for_index (start + vis) (line_index t) =
    Ok (Some (mkMeta (base + pos (all_lines x) (Z.to_nat k0)) (base + pos (all_lines x) (Z.to_nat k0) + zlen line)))).
  { pose proof (logical_ok _ _ _ (start + vis) line Hi ltac:(lia)) as Hl. cbv zeta in Hl.
    replace (zlen (all_lines x) - count (line_index t) + (start + vis)) with k0 in Hl by lia. exact (Hl Hline). }
  assert (Hpos : 0 <= pos (all_lines x) (Z.to_nat k0)) by (unfold pos; lia).
  assert (Hread : read_at (scrollback t) (base + pos (all_lines x) (Z.to_nat k0)) (zlen line) = Ok line).
  { destruct (read_ok _ _ _ (base + pos (all_lines x) (Z.to_nat k0)) (zlen line) Hst ltac:(lia)) as [Hr _]. rewrite Hr by lia. f_equal.
    rewrite Nat2Z.id, Ehist. replace (Z.to_nat (base + pos (all_lines x) (Z.to_nat k0))) with (length (pre ++ concat (take (Z.to_nat k0) (all_lines x))))
      by (unfold pos; rewrite length_app; lia). by apply line_bytes. }
  rewrite (drop_S _ line _ Hline). cbn [take texts redraw_rows].
  replace (S (Z.to_nat k0)) with (Z.to_nat (k0 + 1)) by lia.
  assert (Hnext : forall d, redraw_rows n (vis + 1) start (set_drawn d t) =
    (Ok tt, set_drawn (d ++ texts (vis + 1) (take n (drop (Z.to_nat (k0 + 1)) (all_lines x)))) t)).
  { intros d. rewrite (IH (set_drawn d t) x hist base (vis + 1) start (k0 + 1)); cbn; try done; try lia.
    - split; try done. by exists pre.
    - replace (Z.to_nat (k0 + 1)) with (S (Z.to_nat k0)) by lia. rewrite (pos_S _ _ _ Hline). lia. }
  unfold sbind at 1, look. change (id t) with t. unfold sbind at 1, slift at 1. rewrite Elog. unfold meta_is_empty. cbn [first_pos one_past_last_pos].
  unfold sbind at 1. destruct line as [|b rest] eqn:Eline.
  - cbn [length]. rewrite (proj2 (Z.eqb_eq _ _)) by lia. unfold sret. cbn [app].
    pose proof (Hnext (drawn t)) as Hd. replace (set_drawn (drawn t) t) with t in Hd by (by destruct t). exact Hd.
  - rewrite <- Eline in *. assert (0 < zlen line) by (rewrite Eline; cbn [length]; lia). rewrite (proj2 (Z.eqb_neq _ _)) by lia.
    unfold sbind at 1, slift at 1. unfold meta_len. cbn [first_pos one_past_last_pos]. rewrite (proj2 (Z.leb_le _ _)) by lia.
    unfold sbind at 1, slift at 1. replace (base + _ + _ - _) with (zlen line) by lia. rewrite Hread. rewrite Eline. rewrite <- Eline.
    unfold LINE_SPACING in *. rewrite (proj2 (Z.ltb_lt (MARGIN_TOP + vis * 15) _)) by lia. unfold sbind at 1. cbn [sassert]. unfold sret at 1, modify.
    rewrite Hnext. by rewrite <- app_assoc.
Qed.


(** What is on the surface after drawing; no line that shows has been written over. *)
Lemma redraw_ok t x : holds_text t x -> 0 <= viewport_rows t -> 0 <= scroll_offset t -> viewport_rows t * LINE_SPACING < 2 ^ 30 ->
  let ls := all_lines x in let total := Z.min (zlen ls) most in let visible := Z.min (viewport_rows t) total in
  let k0 := zlen ls - visible - Z.min (scroll_offset t) (total - visible) in
  high x - filled x + zlen (concat (drop (Z.to_nat k0) ls)) <= view ->
  redraw_all t = (Ok tt, set_drawn (texts 0 (window_of (viewport_rows t) (scroll_offset t) most ls)) t).
Proof.
  intros (hist & base & H) Hrows Hscroll Hheight ls total visible k0 Hkept. pose proof (repr_pos _ _ _ _ H) as Hp.
  pose proof (re_index _ _ _ _ H) as Hi. pose proof (io_count _ _ _ Hi) as Hn. pose proof (io_is _ _ _ Hi) as Hm.
  pose proof (io_max _ _ _ Hi). pose proof (re_view _ _ _ _ H) as Hv. fold ls in Hn, Hi. rewrite Hm in Hn. fold total in Hn.
  unfold redraw_all, sbind at 1, modify. unfold sbind, look. change (id (set_drawn [] t)) with (set_drawn [] t).
  cbn [line_index viewport_rows scroll_offset set_drawn]. rewrite Hn. unfold saturating_sub. fold visible.
  rewrite (Z.max_l (total - visible) 0) by lia. set (offset := Z.min (scroll_offset t) (total - visible)) in *.
  rewrite Z.max_l by lia.
  assert (Hk0 : 0 <= k0 <= zlen ls) by (unfold k0; lia).
  rewrite (redraw_rows_ok (Z.to_nat visible) (set_drawn [] t) x hist base 0 (total - (visible + offset)) k0).
  - reflexivity.
  - destruct H. by split.
  - lia.
  - lia.
  - cbn [line_index set_drawn]. rewrite Hn. lia.
  - cbn [line_index set_drawn]. rewrite Hn. fold ls. unfold k0. lia.
  - cbn [scrollback set_drawn]. rewrite Hv. fold ls. enough (Hsum : pos ls (Z.to_nat k0) + zlen (concat (drop (Z.to_nat k0) ls)) = zlen (concat ls)).
    { pose proof (concat_lines x) as Hc. fold ls in Hc. rewrite Hc, length_app in Hsum. lia. }
    unfold pos. rewrite <- Nat2Z.inj_add, <- length_app, <- concat_app. by rewrite take_drop.
  - unfold MARGIN_TOP, LINE_SPACING in *. lia.
Qed.

End text.

(** ** Runs *)

Inductive Command : Type :=
  | CWriteStr (bytes : list Z)
  | CWriteLine (bytes : list Z)
  | CNewline
  | CBackspace
  | CClear.

Definition exec (c : Command) : TM unit :=
  match c with
  | CWriteStr bytes => write_str bytes
  | CWriteLine bytes => write_line bytes
  | CNewline => newline
  | CBackspace => backspace
  | CClear => clear
  end.

Fixpoint exec_all (cs : list Command) : TM unit :=
  match cs with
  | [] => sret tt
  | c :: cs => exec c ;;; exec_all cs
  end.

Definition text_after (w : Z) (x : Text) (c : Command) : Text :=
  match c with
  | CWriteStr bytes => put_text w bytes x
  | CWriteLine bytes => feed (put_text w bytes x)
  | CNewline => feed x
  | CBackspace => erase x
  | CClear => cleared x
  end.

Definition command_bytes (c : Command) : Z :=
  match c with CWriteStr bytes | CWriteLine bytes => zlen bytes | _ => 0 end.

Definition no_text : Text := mkText [] [] 0 0.

Lemma filled_segments w bytes : 0 < w -> forall segment x, filled (put_segments w segment bytes x) <= filled x + zlen segment + zlen bytes.
Proof.
  intros Hw. induction bytes as [|b bytes IH]; intros segment x; cbn [put_segments length]; [rewrite filled_wrapped by done; lia|].
  destruct (b =? 10); [|destruct (b =? 13)].
  - etransitivity; [apply IH|]. cbn [filled feed length]. rewrite filled_wrapped by done. lia.
  - etransitivity; [apply IH|]. cbn [length]. rewrite filled_wrapped by done. lia.
  - etransitivity; [apply IH|]. rewrite length_app. cbn [length]. lia.
Qed.

Lemma filled_after w x c : 0 < w -> filled (text_after w x c) <= filled x + command_bytes c.
Proof.
  intros Hw. destruct c as [bytes|bytes| | |]; cbn [text_after command_bytes filled feed cleared].
  - pose proof (filled_segments w bytes Hw [] x) as H. cbn [length] in H. unfold put_text. lia.
  - pose proof (filled_segments w bytes Hw [] x) as H. cbn [length] in H. unfold put_text. lia.
  - lia.
  - unfold erase. destruct (cur_line x); cbn [filled]; lia.
  - lia.
Qed.

Lemma exec_acts most view c t x : holds_text most view t x -> filled x + command_bytes c < 2 ^ 64 ->
  acts most view (exec c) t (text_after (max_chars_per_line t) x c).
Proof.
  intros Hx Hmax. destruct c; cbn [exec text_after command_bytes] in *.
  - by apply acts_write_str.
  - by apply acts_write_line.
  - by apply acts_newline.
  - by apply acts_backspace.
  - by apply acts_clear.
Qed.

Lemma exec_all_acts most view cs : forall t x, holds_text most view t x -> filled x + foldr (fun c n => command_bytes c + n) 0 cs < 2 ^ 64 ->
  acts most view (exec_all cs) t (foldl (text_after (max_chars_per_line t)) x cs).
Proof.
  induction cs as [|c cs IH]; intros t x Hx Hmax; cbn [exec_all foldl foldr] in *; [by exists t|].
  assert (Hpos : 0 <= foldr (fun c n => command_bytes c + n) 0 cs) by (clear; induction cs as [|[] cs IH]; cbn; lia).
  apply (acts_bind _ _ _ _ _ (text_after (max_chars_per_line t) x c)); [apply exec_acts; (done || lia)|].
  intros t1 H1 Ew. rewrite <- Ew in *. apply IH; [done|]. assert (Hw : 0 < max_chars_per_line t1) by (destruct H1 as (? & ? & []); done).
  pose proof (filled_after (max_chars_per_line t1) x c Hw). lia.
Qed.

Lemma terminal_start w h s view : sb_ok s [] 0 -> sb_view_size s = view ->
  exists t, terminal_new w h s = Ok t /\ holds_text DEFAULT_MAX_LINES view t no_text /\
    max_chars_per_line t = (view_of w h).1 /\ viewport_rows t = (view_of w h).2 /\ scroll_offset t = 0.
Proof.
  intros Hs Hv. unfold terminal_new. destruct (view_of w h) as [chars rows] eqn:Ev.
  destruct (index_clear_ok DEFAULT_MAX_LINES (current_absolute s) (index_new DEFAULT_MAX_LINES)) as (l & E & Hi);
    [done|unfold DEFAULT_MAX_LINES; cbn; lia|cbn [lines index_new max_lines]; by rewrite length_replicate|].
  rewrite E. cbn [rbind]. eexists. split; [reflexivity|]. split; [|done]. exists [], (current_absolute s).
  unfold current_absolute in *. rewrite (sbo_filled _ _ _ Hs) in *. split; cbn; try done; try lia.
  - rewrite Hv. pose proof (sbo_view _ _ _ Hs). by rewrite Z.max_l by lia.
  - by exists [].
  - injection Ev as <- _. lia.
Qed.

(** The lines that fit on the surface. *)
Definition last_lines (rows : Z) (ls : list (list Z)) : list (list Z) :=
  drop (Z.to_nat (zlen ls - Z.min rows (Z.min (zlen ls) DEFAULT_MAX_LINES))) ls.

Lemma window_bottom rows ls : 0 <= rows -> window_of rows 0 DEFAULT_MAX_LINES ls = last_lines rows ls.
Proof.
  intros Hr. unfold window_of, last_lines, DEFAULT_MAX_LINES. rewrite (Z.min_l 0) by lia. rewrite Z.sub_0_r.
  apply take_ge. rewrite length_drop. lia.
Qed.

(** C28: a terminal shows what was written to it.  After any writes, ends of lines, removals
    and clearings the surface shows the last lines of the text as the wrapping breaks it, one
    below the other, as long as the lines that show are still in the store. *)
Theorem terminal_shows_text info contents s w h cs :
  scrollback_new info contents = Ok s -> zlen contents = view_size info -> 0 <= view_size info < 2 ^ 63 -> 0 <= h < 2 ^ 30 ->
  foldr (fun c n => command_bytes c + n) 0 cs < 2 ^ 64 ->
  let x := foldl (text_after (view_of w h).1) no_text cs in let shown := last_lines (view_of w h).2 (all_lines x) in
  exists t0 t, terminal_new w h s = Ok t0 /\ exec_all cs t0 = (Ok tt, t) /\
    (high x - filled x + zlen (concat shown) <= view_size info ->
     exists t', redraw_all t = (Ok tt, t') /\ drawn t' = texts 0 shown).
Proof.
  intros En Hc Hv Hh Hmax x shown. pose proof (new_ok _ _ _ En Hc ltac:(lia)) as Hs.
  assert (Ev : sb_view_size s = view_size info) by (unfold scrollback_new in En; destruct (_ && _); [by injection En as <-|done]).
  destruct (terminal_start w h s (view_size info) Hs Ev) as (t0 & E0 & H0 & Hw & Hr & Ho).
  destruct (exec_all_acts _ _ cs t0 no_text H0 ltac:(cbn [filled no_text]; lia)) as (t & E & Ht & Hwt & Hrt & Hot).
  rewrite Hw in Ht. specialize (Hot Ho). exists t0, t. split; [done|]. split; [done|]. intros Hkept. fold x in Ht.
  rewrite Hr in Hrt. assert (Hrows : 0 <= viewport_rows t /\ viewport_rows t * LINE_SPACING < 2 ^ 30).
  { rewrite Hrt. unfold view_of, LINE_SPACING, saturating_sub, MARGIN_TOP. cbn [snd Z.ltb Z.compare].
    pose proof (Z.mul_div_le (Z.max (h - 16) 0) 15 ltac:(lia)). lia. }
  eexists. split; [apply (redraw_ok DEFAULT_MAX_LINES (view_size info) t x Ht); try lia|].
  - rewrite Hrt, Hot. unfold shown, last_lines in Hkept. unfold DEFAULT_MAX_LINES in *. rewrite (Z.min_l 0) by lia. rewrite Z.sub_0_r. exact Hkept.
  - cbn [drawn set_drawn]. by rewrite Hot, Hrt, window_bottom by lia.
Qed.

(** ** What wrapping does to the text *)

Definition text_bytes (bytes : list Z) : list Z := List.filter (fun b => negb ((b =? 10) || (b =? 13))) bytes.

Definition fits (w : Z) (x : Text) : Prop := Forall (fun line => zlen line <= w) (all_lines x).

Lemma fits_feed w x : 0 <= w -> fits w x -> fits w (feed x).
Proof. intros Hw Hx. unfold fits, feed, all_lines at 1. cbn [done_lines cur_line]. apply Forall_app. split; [done|]. by repeat constructor. Qed.

Lemma fits_put w bytes x : fits w x -> zlen (cur_line x) + zlen bytes <= w -> fits w (put bytes x).
Proof.
  unfold fits, put, all_lines. cbn [done_lines cur_line]. rewrite !Forall_app. intros [Hd _] Hl. split; [done|].
  repeat constructor. rewrite length_app. lia.
Qed.

Lemma wrapped_ok fuel w : 0 < w -> forall chunk x, (length chunk <= fuel)%nat -> fits w x ->
  fits w (put_wrapped fuel w chunk x) /\ concat (all_lines (put_wrapped fuel w chunk x)) = concat (all_lines x) ++ chunk.
Proof.
  intros Hw. induction fuel as [|fuel IH]; intros chunk x Hfuel Hx.
  { destruct chunk; [|cbn in Hfuel; lia]. cbn. by rewrite app_nil_r. }
  destruct (decide (chunk = [])) as [->|Hne]; [cbn; by rewrite app_nil_r|]. rewrite wrapped_step by done. cbv zeta.
  set (x1 := if w <=? zlen (cur_line x) then feed x else x).
  assert (Hf : forall y, fits w y -> fits w (feed y)) by (intros y; apply fits_feed; lia).
  assert (Hc : forall y, concat (all_lines (feed y)) = concat (all_lines y))
    by (intros y; rewrite (concat_lines (feed y)); cbn [feed done_lines cur_line]; by rewrite app_nil_r).
  assert (Hp : forall bs y, concat (all_lines (put bs y)) = concat (all_lines y) ++ bs)
    by (intros bs y; rewrite !concat_lines; cbn [put done_lines cur_line]; by rewrite app_assoc).
  assert (H1 : fits w x1 /\ concat (all_lines x1) = concat (all_lines x)) by (unfold x1; destruct (w <=? _); auto).
  destruct H1 as [Hx1 Hc1]. destruct (Z.leb_spec (zlen chunk) (w - zlen (cur_line x1))) as [Hle|Hgt].
  - assert (H2 : fits w (put chunk x1)) by (apply fits_put; [done|lia]). destruct (_ <=? zlen (cur_line (put chunk x1))).
    + split; [auto|]. by rewrite Hc, Hp, Hc1.
    + split; [done|]. by rewrite Hp, Hc1.
  - assert (0 < w - zlen (cur_line x1)) by (unfold x1; destruct (Z.leb_spec w (zlen (cur_line x))); cbn [cur_line feed length]; lia).
    pose proof (split_range (Z.to_nat (w - zlen (cur_line x1))) chunk (w - zlen (cur_line x1)) ltac:(lia) ltac:(lia)).
    set (n := Z.to_nat (split_after_space _ _ _)) in *.
    destruct (IH (drop n chunk) (feed (put (take n chunk) x1))) as [Hfit Hcat].
    + rewrite length_drop. lia.
    + apply Hf, fits_put; [done|]. rewrite length_take. lia.
    + split; [done|]. by rewrite Hcat, Hc, Hp, Hc1, <- app_assoc, take_drop.
Qed.

Lemma segments_ok w bytes : 0 < w -> forall segment x, fits w x ->
  fits w (put_segments w segment bytes x) /\
  concat (all_lines (put_segments w segment bytes x)) = concat (all_lines x) ++ segment ++ text_bytes bytes.
Proof.
  intros Hw. induction bytes as [|b bytes IH]; intros segment x Hx; cbn [put_segments text_bytes List.filter].
  { rewrite app_nil_r. by apply wrapped_ok. }
  destruct (wrapped_ok (length segment) w Hw segment x (Nat.le_refl _) Hx) as [H1 E1].
  destruct (b =? 10); [|destruct (b =? 13)]; cbn [orb negb].
  - destruct (IH [] (feed (put_wrapped (length segment) w segment x))) as [H2 E2]; [apply fits_feed; [lia|done]|].
    split; [done|]. rewrite E2, (concat_lines (feed _)). cbn [feed done_lines cur_line]. rewrite app_nil_r, E1. cbn [app]. by rewrite <- app_assoc.
  - destruct (IH [] (put_wrapped (length segment) w segment x) H1) as [H2 E2]. split; [done|]. rewrite E2, E1. cbn [app]. by rewrite <- app_assoc.
  - destruct (IH (segment ++ [b]) x Hx) as [H2 E2]. split; [done|]. by rewrite E2, <- app_assoc.
Qed.

(** Breaking a text into lines loses nothing and overfills nothing: the lines joined are
    what was there and the written bytes without the ends of lines, in order, and no line is
    longer than the terminal is wide. *)
Theorem wrapping_keeps_text w bytes x : 0 < w -> fits w x ->
  fits w (put_text w bytes x) /\ concat (all_lines (put_text w bytes x)) = concat (all_lines x) ++ text_bytes bytes.
Proof. intros Hw Hx. by apply (segments_ok w bytes Hw [] x). Qed.

(** ** Runs on a small terminal: four characters wide, two rows, sixteen bytes *)

Definition small_info : CircularBufferInfo := mkInfo 0x1000 16 32.
Definition small_store : Scrollback := mkScrollback 0x1000 16 32 0 0 (replicate 16 0).

Definition abcdefg : list Z := [97; 98; 32; 99; 100; 101; 102; 103].

Lemma wrapping_keeps_text_witness :
  all_lines (put_text 4 (abcdefg ++ 10 :: abcdefg) no_text) =
    [[97; 98; 32]; [99; 100; 101; 102]; [103]; [97; 98; 32]; [99; 100; 101; 102]; [103]] /\
  fits 4 (put_text 4 (abcdefg ++ 10 :: abcdefg) no_text).
Proof.
  split; [vm_compute; reflexivity|]. apply (wrapping_keeps_text 4 (abcdefg ++ 10 :: abcdefg) no_text); [lia|].
  constructor; [cbn; lia|constructor].
Defined.

(** The text is written, its last character taken back, and a line written below. *)
Definition small_run : list Command := [CWriteStr abcdefg; CBackspace; CWriteLine [120]; CWriteStr [121; 122]].

Lemma terminal_shows_text_witness : exists t0 t t',
  terminal_new 36 46 small_store = Ok t0 /\ exec_all small_run t0 = (Ok tt, t) /\ redraw_all t = (Ok tt, t') /\
  drawn t' = [(4, 16, [120]); (4, 31, [121; 122])].
Proof.
  destruct (terminal_shows_text small_info (replicate 16 0) small_store 36 46 small_run) as (t0 & t & E0 & E & Hd).
  - reflexivity.
  - reflexivity.
  - cbn. lia.
  - lia.
  - cbn. lia.
  - destruct Hd as (t' & E' & Hd); [vm_compute; discriminate|]. exists t0, t, t'. split; [exact E0|]. split; [exact E|]. split; [exact E'|].
    rewrite Hd. vm_compute. reflexivity.
Defined.

(** *** What does not work *)

Definition typed (s : list Z) : list InputEvent := (fun c => event_new CharEvent c 0) <$> s.

Fixpoint handle_all (es : list InputEvent) : TM unit :=
  match es with
  | [] => sret tt
  | e :: es => handle_event [] (init_programs []) (mkReadings 1 2 3) e ;;; handle_all es
  end.

(** Only the last row of a wrapped command is kept: "clear" in four columns is "r". *)
Example wrapped_command_is_cut :
  match terminal_new 36 46 small_store with
  | Ok t => let t' := (handle_all (typed (CMD_CLEAR ++ [10])) t).2 in (last_command_buf t', count (line_index t')) = ([114], 3)
  | _ => False
  end.
Proof. vm_compute. reflexivity. Qed.

(** A number of twenty digits ends the program. *)
Example long_number_panics :
  match terminal_new 800 600 (mkScrollback 0x1000 64 128 0 0 (replicate 64 0)) with
  | Ok t => (handle_all (typed (CMD_FLOW ++ 32 :: replicate 21 57 ++ [10])) t).1 = Panic
  | _ => False
  end.
Proof. vm_compute. reflexivity. Qed.

(** A store of four bytes that took five and gave one back: position 0 reads as the fifth byte. *)
Example taken_back_byte_reads :
  let s := (write_bytes [1; 2; 3; 4; 5] (mkScrollback 0x1000 4 8 0 0 (replicate 4 0))).2 in
  read_at (remove_last_byte s).2 0 1 = Ok [5].
Proof. vm_compute. reflexivity. Qed.
