(* ===== verification/Odys.v ===== *)
(** * Odys: the file browser, user/rustspace/src/bin/odys.rs

    The state of the browser, its listing of a directory, its keys, the drawing of a frame and
    the turn of its main loop.  What the system call wrappers do with the buffers it passes is
    the class [FileCalls], text on a surface (the embedded_graphics crate) the class
    [TextDraw], and the lower case of Unicode a parameter.  Messages on the serial port and the
    start of the program before its window is there are left out. *)

From Stdlib Require Import ZArith Lia Sorted.
From stdpp Require Import base tactics sets list option numbers strings.
From S2P Require Import Prelude FsTypes Events Surface Raster Terminal UserCalls UserGfx.

Open Scope rust_scope.

Definition lit (s : string) : str := map (fun c => Z.of_N (Ascii.N_of_ascii c)) (String.list_ascii_of_string s).

Definition SLASH : Z := 47.
Definition DOT : Z := 46.
Definition CHARACTER_HEIGHT : Z := 13.
Definition MARGIN_LEFT : Z := 4.
Definition MARGIN_TOP : Z := 16.
Definition LINE_SPACING : Z := 15.
Definition MAX_FILE_PREVIEW_SIZE : Z := 16 * 1024.
Definition MAX_ENTRIES : Z := 128.
Definition FD_FLAG_READ : Z := 1.
Definition QUESTION_MARK : Z := 63.

Inductive Style : Type := CHARACTER_STYLE | SELECTED_STYLE | DIRECTORY_STYLE | FILE_PREVIEW_STYLE.

Inductive ViewMode : Type := Directory | FilePreview.

#[export] Instance ViewMode_eq_dec : EqDecision ViewMode.
Proof. solve_decision. Defined.

Record FileEntry : Type := mkEntry {
  name : str;
  is_dir : bool;
  size : Z;
}.

Record Odys : Type := mkOdys {
  needs_redraw : bool;
  window_id : Z;
  draw_target : UserSurface;
  current_path : str;
  entries : list FileEntry;
  selected_idx : Z;
  scroll_offset : Z;
  view_mode : ViewMode;
  file_content : str;
  max_visible_entries : Z;
}.

Definition with_redraw (b : bool) (o : Odys) : Odys :=
  mkOdys b (window_id o) (draw_target o) (current_path o) (entries o) (selected_idx o) (scroll_offset o) (view_mode o)
    (file_content o) (max_visible_entries o).
Definition with_target (s : UserSurface) (o : Odys) : Odys :=
  mkOdys (needs_redraw o) (window_id o) s (current_path o) (entries o) (selected_idx o) (scroll_offset o) (view_mode o)
    (file_content o) (max_visible_entries o).
Definition with_listing (path : str) (l : list FileEntry) (o : Odys) : Odys :=
  mkOdys (needs_redraw o) (window_id o) (draw_target o) path l 0 0 Directory (file_content o) (max_visible_entries o).
Definition with_entries (l : list FileEntry) (o : Odys) : Odys :=
  mkOdys (needs_redraw o) (window_id o) (draw_target o) (current_path o) l (selected_idx o) (scroll_offset o) (view_mode o)
    (file_content o) (max_visible_entries o).
Definition with_selection (sel scroll : Z) (o : Odys) : Odys :=
  mkOdys (needs_redraw o) (window_id o) (draw_target o) (current_path o) (entries o) sel scroll (view_mode o)
    (file_content o) (max_visible_entries o).
Definition with_view (v : ViewMode) (o : Odys) : Odys :=
  mkOdys (needs_redraw o) (window_id o) (draw_target o) (current_path o) (entries o) (selected_idx o) (scroll_offset o) v
    (file_content o) (max_visible_entries o).
Definition with_content (text : str) (o : Odys) : Odys :=
  mkOdys (needs_redraw o) (window_id o) (draw_target o) (current_path o) (entries o) (selected_idx o) (scroll_offset o) FilePreview
    text (max_visible_entries o).

(** ** What it calls *)

(** The flat record of an entry, and the name in it. *)
Record DirEntryFlat : Type := mkFlatEntry {
  de_name : list Z;
  de_name_len : Z;
  de_is_dir : Z;
  de_size : Z;
}.

Definition entry_zeroed : DirEntryFlat := mkFlatEntry (replicate 16 0) 0 0 0.

Definition name_str {E} (e : DirEntryFlat) : result E str :=
  if de_name_len e <=? zlen (de_name e)
  then Ok (default [] (from_utf8 (take (Z.to_nat (de_name_len e)) (de_name e))))
  else Panic.

(** The wrappers with the buffers they fill; [usize::MAX] is a failure. *)
Class FileCalls (W : Type) : Type := {
  c_list_dir : str -> list DirEntryFlat -> W -> Z * list DirEntryFlat * W;
  c_open_file : str -> Z -> W -> Z * W;
  c_stat_file : str -> W -> bool * W;
  c_read_file : Z -> list Z -> W -> Z * list Z * W;
  c_close_file : Z -> W -> bool * W;
  c_present : Z -> W -> W;
}.

Class TextDraw : Type := {
  draw_text : str -> Z -> Z -> Style -> stM UserSurface Fault unit;
  draw_rule : Z -> Z -> Z -> stM UserSurface Fault unit;
}.

(** ** Paths and order *)

Definition trim_end_matches (c : Z) (s : str) : str :=
  rev ((fix skip l := match l with [] => [] | x :: l' => if x =? c then skip l' else l end) (rev s)).

Definition get_parent_path (current : str) : str :=
  if bool_decide (current = [SLASH]) then [SLASH] else
  match rsplit SLASH (trim_end_matches SLASH current) with
  | Some (before, _) => if 0 <? zlen before then before else [SLASH]
  | None => [SLASH]
  end.

Definition child_path (current child : str) : str :=
  if bool_decide (current = [SLASH]) then SLASH :: child else current ++ SLASH :: child.

(** [str::cmp] is not greater. *)
Fixpoint bytes_le (a b : list Z) : bool :=
  match a, b with
  | [], _ => true
  | _ :: _, [] => false
  | x :: a, y :: b => if x =? y then bytes_le a b else x <? y
  end.

(** [slice::sort_by], which is stable. *)
Fixpoint insert_by {A} (le : A -> A -> bool) (x : A) (l : list A) : list A :=
  match l with
  | [] => [x]
  | y :: l => if le x y then x :: y :: l else y :: insert_by le x l
  end.
Definition sort_by {A} (le : A -> A -> bool) (l : list A) : list A := foldr (insert_by le) [] l.

(** [str::lines] *)
Definition strip_cr (l : str) : str := match rev l with c :: r => if c =? 13 then rev r else l | [] => l end.
Definition lines (s : str) : list str :=
  let parts := split 10 s in
  let parts := match rev parts with [] :: r => rev r | _ => parts end in
  map strip_cr parts.

Definition printable (byte : Z) : bool :=
  (byte =? 10) || (byte =? 13) || (byte =? 9) || ((0x20 <=? byte) && (byte <=? 0x7E)).

Definition HELP : str :=
  let nl := [10] in
  lit "Odys - help:" ++ nl ++ lit "Keybinds:" ++ nl ++ nl ++ lit "arrows - cursor navigation" ++ nl ++ nl ++
  lit "in file selection:" ++ nl ++ nl ++ lit "right arrow - enter directory/open file" ++ nl ++ nl ++
  lit "    if opened file:" ++ nl ++ nl ++ lit "        contents display on the screen" ++ nl ++ nl ++
  lit "left arrow - exit current directory/current file" ++ nl ++ nl ++ nl ++ nl ++ nl ++ nl ++ lit "(left arrow to exit)".

Definition as_i32 (x : Z) : Z := let y := wrap 32 x in if y <? 2 ^ 31 then y else y - 2 ^ 32.

Section odys.
Context {W : Type} `{FileCalls W} `{TextDraw}.
Variable to_lowercase : str -> str.

Abbreviation OM := (stM (Odys * W) Fault).

Definition get : OM Odys := fun s => (Ok s.1, s).
Definition modify (f : Odys -> Odys) : OM unit := fun s => (Ok tt, (f s.1, s.2)).
Definition call {A} (c : W -> A * W) : OM A := fun s => let '(a, w) := c s.2 in (Ok a, (s.1, w)).

Definition on_target {A} (c : stM UserSurface Fault A) : OM A := fun s =>
  let '(r, t) := c (draw_target s.1) in (r, (with_target t s.1, s.2)).

(** ** Listing a directory *)

(** Directories first, then by the name in lower case. *)
Definition entry_le (a b : FileEntry) : bool :=
  if bool_decide (is_dir a = is_dir b) then bytes_le (utf8 (to_lowercase (name a))) (utf8 (to_lowercase (name b))) else is_dir a.

Fixpoint listed (dir_entries : list DirEntryFlat) (indices : list Z) : result Fault (list FileEntry) :=
  match indices with
  | [] => Ok []
  | i :: indices =>
      match dir_entries !! Z.to_nat i with
      | None => Panic
      | Some entry =>
          let? n := name_str entry in
          let? rest := listed dir_entries indices in
          Ok (if negb (bool_decide (n = [DOT])) && negb (bool_decide (n = [DOT; DOT]))
              then mkEntry n (de_is_dir entry =? 1) (de_size entry) :: rest else rest)
      end
  end.

Definition load_directory (path : str) : OM unit :=
  modify (with_listing path []) ;;;
  let! (count, dir_entries) := call (c_list_dir path (replicate (Z.to_nat MAX_ENTRIES) entry_zeroed)) in
  (if count =? U64_MAX then sret tt else
   let parent := if bool_decide (path = [SLASH]) then [] else [mkEntry [DOT; DOT] true 0] in
   let! found := slift (listed dir_entries (seqZ 0 (Z.min count MAX_ENTRIES))) in
   modify (with_entries (sort_by entry_le (parent ++ found)))) ;;;
  modify (with_redraw true).

Definition display_help : OM unit := modify (fun o => with_redraw true (with_content HELP o)).

Definition preview (read_buf : list Z) (n : Z) : str :=
  map (fun byte => if printable byte then byte else DOT) (take (Z.to_nat n) read_buf) ++
  (if MAX_FILE_PREVIEW_SIZE <=? n then [10; 10] ++ lit "[File truncated - too large to display]" else []).

Definition open_file (path : str) : OM unit :=
  let! fd := call (c_open_file path FD_FLAG_READ) in
  (if fd =? U64_MAX then sret tt else
   let! _ := call (c_stat_file path) in
   let! (n, read_buf) := call (c_read_file fd (replicate (Z.to_nat MAX_FILE_PREVIEW_SIZE) 0)) in
   if n =? U64_MAX then sret tt else
   sassert (n <=? zlen read_buf) ;;;
   modify (fun o => with_redraw true (with_content (preview read_buf n) o))) ;;;
  let! _ := call (c_close_file fd) in
  sret tt.

(** ** Moving about *)

Definition navigate_to_selected : OM unit :=
  let! o := get in
  if zlen (entries o) <=? selected_idx o then sret tt else
  match entries o !! Z.to_nat (selected_idx o) with
  | None => spanic
  | Some entry =>
      if bool_decide (name entry = [DOT; DOT]) then load_directory (get_parent_path (current_path o))
      else if is_dir entry then load_directory (child_path (current_path o) (name entry))
      else open_file (child_path (current_path o) (name entry))
  end.

Definition go_back : OM unit :=
  let! o := get in
  (if bool_decide (view_mode o = FilePreview) then modify (with_view Directory)
   else load_directory (get_parent_path (current_path o))) ;;;
  modify (with_redraw true).

Definition move_selection (delta : Z) : OM unit :=
  let! o := get in
  if bool_decide (entries o = []) then sret tt else
  let! moved := slift (i32 (as_i32 (selected_idx o) + delta)) in
  let new_idx := Z.min (Z.max moved 0) (zlen (entries o) - 1) in
  if new_idx =? selected_idx o then sret tt else
  let! scroll := slift (
    if new_idx <? scroll_offset o then Ok new_idx else
    let? end_ := uadd (scroll_offset o) (max_visible_entries o) in
    if end_ <=? new_idx then (let? first := usub new_idx (max_visible_entries o) in uadd first 1)
    else Ok (scroll_offset o)) in
  modify (fun o => with_redraw true (with_selection new_idx scroll o)).

Definition handle_key (key : KeyCode.t) : OM unit :=
  let! o := get in
  match view_mode o with
  | Directory =>
      match key with
      | KeyCode.ArrowUp => move_selection (-1)
      | KeyCode.ArrowDown => move_selection 1
      | KeyCode.ArrowRight => navigate_to_selected
      | KeyCode.ArrowLeft => go_back
      | KeyCode.Home => modify (fun o => with_redraw true (with_selection 0 0 o))
      | KeyCode.End =>
          let last := saturating_sub (zlen (entries o)) 1 in
          let! page := slift (usub (max_visible_entries o) 1) in
          modify (fun o => with_redraw true (with_selection last (saturating_sub last page) o))
      | KeyCode.PageUp => let! back := slift (i32 (- as_i32 (max_visible_entries o))) in move_selection back
      | KeyCode.PageDown => move_selection (as_i32 (max_visible_entries o))
      | _ => sret tt
      end
  | FilePreview =>
      match key with
      | KeyCode.ArrowLeft | KeyCode.Escape => modify (fun o => with_redraw true (with_view Directory o))
      | KeyCode.ArrowUp | KeyCode.ArrowDown => modify (with_redraw true)
      | _ => sret tt
      end
  end.

(** Bytes that are no key and no state of a key are undefined behaviour: [BadAccess]. *)
Definition handle_event (event : InputEvent) : OM unit :=
  match event_type event with
  | KeyEvent =>
      match KeyCode.all !! Z.to_nat (wrap 8 (value event)), wrap 8 (extra event) with
      | Some keycode, 0 => handle_key keycode
      | Some _, 1 => sret tt
      | _, _ => serr BadAccess
      end
  | CharEvent =>
      match char_from_u32 (value event) with
      | Some c => (if c =? QUESTION_MARK then display_help else sret tt) ;;; modify (with_redraw true)
      | None => sret tt
      end
  | _ => sret tt
  end.

(** ** Drawing *)

(** The text, the height and the style of one line of the listing. *)
Definition directory_line (o : Odys) (start_y i : Z) : result Fault (str * Z * Style) :=
  match entries o !! Z.to_nat i with
  | None => Panic
  | Some entry =>
      let? row := usub i (scroll_offset o) in
      let? down := i32 (as_i32 row * LINE_SPACING) in
      let? y_pos := i32 (start_y + down) in
      let is_selected := i =? selected_idx o in
      let prefix := lit (if is_selected then "> " else "  ") in
      let suffix := if is_dir entry then lit " /" else [] in
      Ok (prefix ++ name entry ++ suffix ++ lit " (" ++ decimal (size entry) ++ lit " bytes)", y_pos,
        if is_selected then SELECTED_STYLE else if is_dir entry then DIRECTORY_STYLE else CHARACTER_STYLE)
  end.

Definition visible_end (o : Odys) : result Fault Z :=
  let? e := uadd (scroll_offset o) (max_visible_entries o) in Ok (Z.min e (zlen (entries o))).

Definition draw_directory_list (start_y : Z) : OM unit :=
  let! o := get in
  if bool_decide (entries o = []) then on_target (draw_text (lit "Empty directory") MARGIN_LEFT start_y CHARACTER_STYLE) else
  let! end_ := slift (visible_end o) in
  for_in (fun i =>
    let! (display, y_pos, style) := slift (directory_line o start_y i) in
    on_target (draw_text display MARGIN_LEFT y_pos style)) (seqZ (scroll_offset o) (end_ - scroll_offset o)).

Fixpoint draw_lines (texts : list str) (y_pos : Z) : OM unit :=
  match texts with
  | [] => sret tt
  | line :: texts =>
      on_target (draw_text line MARGIN_LEFT y_pos FILE_PREVIEW_STYLE) ;;;
      let! next := slift (i32 (y_pos + LINE_SPACING)) in
      draw_lines texts next
  end.

Definition draw_file_preview (start_y : Z) : OM unit :=
  let! o := get in draw_lines (take 35 (lines (file_content o))) start_y.

Definition clear_screen : OM unit := on_target (surface_clear BLACK).

Definition redraw_all : OM unit :=
  clear_screen ;;;
  let! o := get in
  on_target (draw_text (lit " d " ++ current_path o) MARGIN_LEFT MARGIN_TOP CHARACTER_STYLE) ;;;
  let separator_y := MARGIN_TOP + CHARACTER_HEIGHT + 4 in
  let! width := slift (let w := s_width (draw_target o) in if MARGIN_LEFT * 2 <=? w then Ok (w - MARGIN_LEFT * 2) else Panic) in
  on_target (draw_rule MARGIN_LEFT separator_y width) ;;;
  match view_mode o with
  | Directory => draw_directory_list (separator_y + 8)
  | FilePreview => draw_file_preview (separator_y + 8)
  end.

Definition render : OM unit := redraw_all.

(** ** The program *)

(** [Odys::new], which lists the root. *)
Definition odys_new (surface : UserSurface) (window_id : Z) (w : W) : result Fault unit * (Odys * W) :=
  let empty m := mkOdys true window_id surface [SLASH] [] 0 0 Directory [] m in
  match usub (E := Fault) (s_height surface) 40 with
  | Ok room => load_directory [SLASH] (empty (room / LINE_SPACING), w)
  | _ => (Panic, (empty 0, w))
  end.

(** A turn of the main loop with the events it finds. *)
Definition frame (found : list InputEvent) : OM unit :=
  for_in handle_event found ;;;
  let! o := get in
  let backbuffer_redraw_required := needs_redraw o in
  (if needs_redraw o then render ;;; modify (with_redraw false) else sret tt) ;;;
  call (fun w => (tt, c_present (window_id o) w)) ;;;
  modify (fun o => with_redraw backbuffer_redraw_required (with_target (swap (draw_target o)) o)).

End odys.

(** ** Order and paths *)

Lemma bytes_le_refl a : bytes_le a a = true.
Proof. induction a as [|x a IH]; [done|]. cbn. by rewrite Z.eqb_refl. Qed.

Lemma bytes_le_trans a : forall b c, bytes_le a b = true -> bytes_le b c = true -> bytes_le a c = true.
Proof.
  induction a as [|x a IH]; intros [|y b] [|z c]; cbn; try done.
  destruct (Z.eqb_spec x y) as [->|Hxy], (Z.eqb_spec y z) as [->|Hyz]; rewrite ?Z.eqb_refl; intros H1 H2.
  - by eapply IH.
  - destruct (Z.eqb_spec y z); [lia|done].
  - destruct (Z.eqb_spec x z); [lia|done].
  - destruct (Z.eqb_spec x z); [lia|]. lia.
Qed.

Lemma bytes_le_total a : forall b, bytes_le a b = true \/ bytes_le b a = true.
Proof.
  induction a as [|x a IH]; intros [|y b]; cbn; [by left..|by right|].
  rewrite (Z.eqb_sym y x). destruct (Z.eqb_spec x y); [apply IH|]. lia.
Qed.

Lemma insert_by_perm {A} (le : A -> A -> bool) x l : insert_by le x l ≡ₚ x :: l.
Proof. induction l as [|y l IH]; cbn; [done|]. destruct (le x y); [done|]. rewrite IH. by constructor. Qed.

Lemma sort_by_perm {A} (le : A -> A -> bool) l : sort_by le l ≡ₚ l.
Proof. induction l as [|x l IH]; cbn; [done|]. by rewrite insert_by_perm, IH. Qed.

Lemma sort_by_sorted {A} (le : A -> A -> bool) l :
  (forall a b, le a b = true \/ le b a = true) -> (forall a b c, le a b = true -> le b c = true -> le a c = true) ->
  StronglySorted (fun a b => le a b = true) (sort_by le l).
Proof.
  intros Htot Htr. induction l as [|x l IH]; [constructor|]. change (sort_by le (x :: l)) with (insert_by le x (sort_by le l)). revert IH. generalize (sort_by le l) as m.
  induction 1 as [|y m Hs IH Hy]; cbn; [by repeat constructor|]. destruct (le x y) eqn:E.
  - constructor; [by constructor|]. constructor; [done|]. revert Hy. apply List.Forall_impl. intros z. by apply Htr.
  - constructor; [done|]. rewrite insert_by_perm. constructor; [|done]. destruct (Htot x y) as [H|H]; [congruence|exact H].
Qed.

Lemma entry_le_total to_lowercase a b : entry_le to_lowercase a b = true \/ entry_le to_lowercase b a = true.
Proof.
  unfold entry_le. destruct (is_dir a) eqn:Ea, (is_dir b) eqn:Eb; cbn; rewrite ?bool_decide_true, ?bool_decide_false by done;
    (apply bytes_le_total || (by left) || (by right)).
Qed.

Lemma entry_le_trans to_lowercase a b c :
  entry_le to_lowercase a b = true -> entry_le to_lowercase b c = true -> entry_le to_lowercase a c = true.
Proof.
  unfold entry_le. destruct (is_dir a) eqn:Ea, (is_dir b) eqn:Eb, (is_dir c) eqn:Ec; cbn; try done; apply bytes_le_trans.
Qed.

Lemma trim_kept c s x : x <> c -> trim_end_matches c (s ++ [x]) = s ++ [x].
Proof.
  intros Hx. unfold trim_end_matches. rewrite rev_app_distr. cbn [rev app]. destruct (Z.eqb_spec x c); [done|].
  cbn [rev]. by rewrite rev_involutive.
Qed.

Lemma rsplit_at sep a b : sep ∉ b -> rsplit sep (a ++ sep :: b) = Some (a, b).
Proof.
  intros Hb. induction a as [|x a IH]; cbn; [|by rewrite IH].
  apply rsplit_none in Hb. by rewrite Hb, Z.eqb_refl.
Qed.

(** A name of a directory entry that can be a component of a path. *)
Definition component (n : str) : Prop := n <> [] /\ SLASH ∉ n.

Lemma parent_of_child p n : p <> [] -> component n -> get_parent_path (child_path p n) = p.
Proof.
  intros Hp [Hn Hs]. destruct (exists_last Hn) as (m & x & ->).
  assert (Hx : x <> SLASH) by (intros ->; apply Hs; set_solver).
  unfold get_parent_path, child_path. destruct (bool_decide (p = [SLASH])) eqn:Ep.
  - apply bool_decide_eq_true in Ep as ->. rewrite bool_decide_false by (intros [=]; by destruct m).
    change (SLASH :: m ++ [x]) with ((SLASH :: m) ++ [x]). rewrite trim_kept by done.
    change ((SLASH :: m) ++ [x]) with ([] ++ SLASH :: (m ++ [x])). by rewrite rsplit_at.
  - rewrite bool_decide_false.
    2: { intros E. destruct p as [|y p]; [done|]. injection E as _ E. by destruct p. }
    replace (p ++ SLASH :: m ++ [x]) with ((p ++ SLASH :: m) ++ [x]) by (by rewrite <- app_assoc).
    rewrite trim_kept by done. rewrite <- app_assoc. change ((SLASH :: m) ++ [x]) with (SLASH :: (m ++ [x])). rewrite rsplit_at by done.
    destruct (Z.ltb_spec 0 (zlen p)); [done|]. destruct p; [done|]. cbn [length] in *. lia.
Qed.

(** ** What the calls promise

    A listing keeps the number of entries of the buffer, and the length in an entry stays
    within its name field; a read fills no more than the buffer.  SyscallsSpec.v shows this of
    the kernel's side: [list_dir_returns], [flat_name_fits] and [read_file_returns]. *)

Class FileCallsOk (W : Type) `{FileCalls W} : Prop := {
  list_dir_fills path buf w : let '(count, out, _) := c_list_dir path buf w in
    length out = length buf /\ 0 <= count /\
    (Forall (fun e => de_name_len e <= zlen (de_name e)) buf -> Forall (fun e => de_name_len e <= zlen (de_name e)) out);
  read_file_fills fd buf w : let '(n, out, _) := c_read_file fd buf w in
    length out = length buf /\ (n <> U64_MAX -> n <= zlen buf);
}.

(** Drawing text succeeds and keeps the size of the surface. *)
Definition draws (c : stM UserSurface Fault unit) : Prop := forall s, exists px,
  c s = (Ok tt, mkSurface px (s_pixels_second s) (s_width s) (s_height s)) /\ length px = length (s_pixels s).

Class TextDrawOk `{TextDraw} : Prop := {
  text_draws s x y style : draws (draw_text s x y style);
  rule_draws x y w : draws (draw_rule x y w);
}.

(** Both buffers of a window that has room for a line. *)
Record WindowOk (s : UserSurface) : Prop := {
  wo_first : SurfaceOk s;
  wo_second : SurfaceOk (swap s);
  wo_size : 8 <= s_width s /\ 55 <= s_height s;
}.

(** The browser between two events. *)
Record BrowserOk (o : Odys) : Prop := {
  bo_target : WindowOk (draw_target o);
  bo_room : max_visible_entries o = (s_height (draw_target o) - 40) / LINE_SPACING;
  bo_entries : zlen (entries o) <= MAX_ENTRIES + 1;
  bo_selected : 0 <= selected_idx o < Z.max 1 (zlen (entries o));
  bo_visible : 0 <= scroll_offset o <= selected_idx o /\ selected_idx o < scroll_offset o + max_visible_entries o;
}.

(** Keys and states of keys are bytes that are one. *)
Definition event_ok (e : InputEvent) : Prop :=
  event_type e = KeyEvent -> wrap 8 (value e) < zlen KeyCode.all /\ wrap 8 (extra e) < 2.

Lemma window_height s : WindowOk s -> s_height s < 2 ^ 29.
Proof. intros [[Hl Hf] _ [Hw Hh]]. destruct (Z.le_gt_cases (2 ^ 29) (s_height s)); [nia|done]. Qed.

Lemma room_range o : BrowserOk o -> 1 <= max_visible_entries o < 2 ^ 29.
Proof.
  intros Ho. pose proof (window_height _ (bo_target _ Ho)). destruct (bo_target _ Ho) as [_ _ [_ Hh]].
  rewrite (bo_room _ Ho). unfold LINE_SPACING. Z.div_mod_to_equations. lia.
Qed.

Lemma as_i32_nonneg x : 0 <= x < 2 ^ 31 -> as_i32 x = x.
Proof. intros Hx. unfold as_i32, wrap. rewrite Z.mod_small by lia. by rewrite (proj2 (Z.ltb_lt _ _)) by lia. Qed.

Lemma i32_small {E} x : - 2 ^ 31 <= x < 2 ^ 31 -> i32 (E := E) x = Ok x.
Proof. intros Hx. unfold i32. by rewrite (proj2 (Z.leb_le _ _)), (proj2 (Z.ltb_lt _ _)) by lia. Qed.

Lemma uadd_small {E} a b : a + b < 2 ^ 64 -> uadd (E := E) a b = Ok (a + b).
Proof. intros Hx. unfold uadd. by rewrite (proj2 (Z.ltb_lt _ _)). Qed.

Lemma usub_small {E} a b : b <= a -> usub (E := E) a b = Ok (a - b).
Proof. intros Hx. unfold usub. by rewrite (proj2 (Z.leb_le _ _)). Qed.

Section safety.
Context {W : Type} `{FileCallsOk W} `{TextDrawOk}.
Variable to_lowercase : str -> str.

Abbreviation St := (Odys * W)%type.
Abbreviation OM := (stM St Fault).

(** A computation that ends well from a state. *)
Definition ends {A} (c : OM A) (s : St) (Q : A -> St -> Prop) : Prop := exists a s', c s = (Ok a, s') /\ Q a s'.

Lemma ends_ret {A} (a : A) s (Q : A -> St -> Prop) : Q a s -> ends (sret a) s Q.
Proof. intros HQ. by exists a, s. Qed.

Lemma ends_bind {A B} (c : OM A) (k : A -> OM B) s (R : A -> St -> Prop) Q :
  ends c s R -> (forall a s', R a s' -> ends (k a) s' Q) -> ends (sbind c k) s Q.
Proof.
  intros (a & s1 & E & HR) Hk. destruct (Hk a s1 HR) as (b & s2 & E2 & HQ). exists b, s2.
  split; [|done]. by rewrite (sbind_ok _ _ _ _ _ E).
Qed.

Lemma ends_get {B} (k : Odys -> OM B) s Q : ends (k s.1) s Q -> ends (sbind get k) s Q.
Proof. done. Qed.

Lemma ends_modify {B} f (k : unit -> OM B) s Q : ends (k tt) (f s.1, s.2) Q -> ends (sbind (modify f) k) s Q.
Proof. done. Qed.

Lemma ends_modify_last f s (Q : unit -> St -> Prop) : Q tt (f s.1, s.2) -> ends (modify f) s Q.
Proof. intros HQ. by exists tt, (f s.1, s.2). Qed.

Lemma ends_call {A B} (c : W -> A * W) (k : A -> OM B) o w Q :
  (forall a w', c w = (a, w') -> ends (k a) (o, w') Q) -> ends (sbind (call c) k) (o, w) Q.
Proof. intros Hk. destruct (c w) as [a w'] eqn:E. specialize (Hk a w' eq_refl). unfold ends, sbind, call in *. cbn [fst snd]. by rewrite E. Qed.

Lemma ends_lift {A B} (c : result Fault A) a (k : A -> OM B) s Q : c = Ok a -> ends (k a) s Q -> ends (sbind (slift c) k) s Q.
Proof. by intros ->. Qed.

Lemma ends_mono {A} (c : OM A) s (Q R : A -> St -> Prop) : ends c s Q -> (forall a s', Q a s' -> R a s') -> ends c s R.
Proof. intros (a & s' & E & HQ) HR. exists a, s'. eauto. Qed.

(** ** Listing *)

Lemma listed_ok dir indices : Forall (fun e => de_name_len e <= zlen (de_name e)) dir -> Forall (fun i => 0 <= i < zlen dir) indices ->
  exists l, listed dir indices = Ok l /\ (length l <= length indices)%nat.
Proof.
  intros Hd. induction indices as [|i indices IH]; intros Hi; [exists []; cbn; split; [done|lia]|].
  inversion_clear Hi as [|? ? Hi1 Hi2]. destruct (IH Hi2) as (l & El & Hl). cbn [listed].
  destruct (lookup_lt_is_Some_2 dir (Z.to_nat i)) as [e He]; [lia|]. rewrite He.
  assert (de_name_len e <= zlen (de_name e)) by (rewrite List.Forall_forall in Hd; apply Hd, list_elem_of_In, list_elem_of_lookup; eauto).
  unfold name_str. rewrite (proj2 (Z.leb_le _ _)) by done. cbn [rbind]. rewrite El. cbn [rbind].
  eexists. split; [done|]. destruct (_ && _); cbn [length]; lia.
Qed.

(** What a listing of [path] shows: its parent unless it is the root, and what the call gave. *)
Definition shows (path : str) (l : list FileEntry) : Prop :=
  StronglySorted (fun a b => entry_le to_lowercase a b = true) l /\
  exists found, l ≡ₚ (if bool_decide (path = [SLASH]) then [] else [mkEntry [DOT; DOT] true 0]) ++ found.

(** The browser has listed [path]. *)
Definition at_directory (path : str) (o o' : Odys) : Prop :=
  BrowserOk o' /\ needs_redraw o' = true /\ view_mode o' = Directory /\ current_path o' = path /\
  draw_target o' = draw_target o /\ (shows path (entries o') \/ entries o' = []).

Lemma load_directory_ends path o w : WindowOk (draw_target o) -> max_visible_entries o = (s_height (draw_target o) - 40) / LINE_SPACING ->
  ends (load_directory to_lowercase path) (o, w) (fun _ s' => at_directory path o s'.1).
Proof.
  intros Hw Hm. assert (Hroom : 1 <= max_visible_entries o).
  { rewrite Hm. destruct Hw as [_ _ [_ Hh]]. unfold LINE_SPACING. Z.div_mod_to_equations. lia. }
  unfold load_directory. apply ends_modify. cbn [fst snd].
  apply ends_call. intros [count dir] w' E.
  pose proof (list_dir_fills path (replicate (Z.to_nat MAX_ENTRIES) entry_zeroed) w) as Hd. rewrite E in Hd. destruct Hd as (Hlen & Hcount & Hnames).
  rewrite length_replicate in Hlen. destruct (Z.eqb_spec count U64_MAX) as [_|Hne].
  { apply ends_bind with (fun _ s' => s' = (with_listing path [] o, w')); [by apply ends_ret|]. intros _ s' ->. apply ends_modify_last.
    split; [|by eauto 10]. split; cbn; try done; lia. }
  destruct (listed_ok dir (seqZ 0 (Z.min count MAX_ENTRIES))) as (found & Ef & Hf).
  { apply Hnames. apply List.Forall_forall. intros e He%list_elem_of_In%elem_of_replicate. destruct He as [-> _]. cbn. lia. }
  { apply List.Forall_forall. intros i Hi%list_elem_of_In%elem_of_seqZ. unfold MAX_ENTRIES in *. lia. }
  rewrite length_seqZ in Hf. set (parent := if bool_decide (path = [SLASH]) then [] else [mkEntry [DOT; DOT] true 0]).
  set (l := sort_by (entry_le to_lowercase) (parent ++ found)).
  apply ends_bind with (fun _ s' => s' = (with_entries l (with_listing path [] o), w')).
  { apply (ends_lift _ found); [done|]. by apply ends_modify_last. }
  intros _ s' ->. apply ends_modify_last. cbn [fst snd].
  assert (Hl : (length l <= Z.to_nat MAX_ENTRIES + 1)%nat).
  { unfold l. rewrite (Permutation_length (sort_by_perm _ _)), length_app. unfold parent, MAX_ENTRIES in *. destruct (bool_decide _); cbn [length]; lia. }
  split.
  - split; cbn; try done; unfold MAX_ENTRIES in *; lia.
  - do 4 (split; [done|]). left. cbn. split; [|exists found; apply sort_by_perm].
    apply sort_by_sorted; [apply entry_le_total|apply entry_le_trans].
Qed.

(** ** Keys *)

(** Fit to go on: what a key leaves. *)
Definition steady (o o' : Odys) : Prop :=
  BrowserOk o' /\ (needs_redraw o = true -> needs_redraw o' = true) /\ draw_target o' = draw_target o.

Lemma at_directory_steady path o o' : at_directory path o o' -> steady o o'.
Proof. intros (Ho & Hr & _ & _ & Ht & _). done. Qed.

Lemma load_steady path o w : BrowserOk o -> ends (load_directory to_lowercase path) (o, w) (fun _ s' => steady o s'.1).
Proof.
  intros Ho. eapply ends_mono; [apply load_directory_ends; [apply (bo_target _ Ho)|apply (bo_room _ Ho)]|].
  intros [] s'. cbn beta. apply at_directory_steady.
Qed.

Lemma steady_refl o : BrowserOk o -> steady o o.
Proof. done. Qed.

Lemma steady_trans o1 o2 o3 : steady o1 o2 -> steady o2 o3 -> steady o1 o3.
Proof. intros (_ & Hr1 & Ht1) (Ho & Hr2 & Ht2). split; [done|]. split; [auto|congruence]. Qed.

(** What is no part of the selection or the listing changes freely. *)
Lemma steady_view b v text o : BrowserOk o ->
  steady o (mkOdys (orb b (needs_redraw o)) (window_id o) (draw_target o) (current_path o) (entries o) (selected_idx o) (scroll_offset o) v text
    (max_visible_entries o)).
Proof. intros [? ? ? ? ?]. split; [by split|]. split; [|done]. cbn. intros ->. apply orb_true_r. Qed.

Lemma steady_selection sel scroll o : BrowserOk o -> 0 <= sel < Z.max 1 (zlen (entries o)) ->
  0 <= scroll <= sel /\ sel < scroll + max_visible_entries o -> steady o (with_redraw true (with_selection sel scroll o)).
Proof. intros [? ? ? ? ?] Hs Hv. by split; [split|]. Qed.

Lemma move_selection_ends o w delta : BrowserOk o -> - 2 ^ 30 < delta < 2 ^ 30 ->
  ends (move_selection delta) (o, w) (fun _ s' => steady o s'.1).
Proof.
  intros Ho Hd. pose proof (room_range o Ho) as Hm. assert (Ho' := Ho). destruct Ho' as [_ _ He Hs Hv]. unfold MAX_ENTRIES in He.
  unfold move_selection. apply ends_get. cbn [fst]. destruct (bool_decide (entries o = [])) eqn:En; [by apply ends_ret|].
  apply bool_decide_eq_false in En. assert (1 <= zlen (entries o)) by (destruct (entries o); [done|cbn; lia]).
  rewrite as_i32_nonneg by lia. eapply ends_lift; [apply i32_small; lia|].
  set (new_idx := Z.min (Z.max (selected_idx o + delta) 0) (zlen (entries o) - 1)).
  assert (Hnew : 0 <= new_idx < zlen (entries o)) by (unfold new_idx; lia). clearbody new_idx.
  destruct (new_idx =? selected_idx o); [by apply ends_ret|]. rewrite !uadd_small by lia. cbn [rbind].
  destruct (Z.ltb_spec new_idx (scroll_offset o)).
  - eapply ends_lift; [done|]. apply ends_modify_last. cbn [fst snd]. apply steady_selection; [done|lia|lia].
  - destruct (Z.leb_spec (scroll_offset o + max_visible_entries o) new_idx).
    + rewrite usub_small by lia. cbn [rbind]. eapply ends_lift; [apply uadd_small; lia|]. apply ends_modify_last. cbn [fst snd]. apply steady_selection; [done|lia|lia].
    + eapply ends_lift; [done|]. apply ends_modify_last. cbn [fst snd]. apply steady_selection; [done|lia|lia].
Qed.

Lemma open_file_ends path o w : BrowserOk o -> ends (open_file path) (o, w) (fun _ s' => steady o s'.1).
Proof.
  intros Ho. unfold open_file. apply ends_call. intros fd w1 _.
  apply ends_bind with (fun _ s' => steady o s'.1).
  - destruct (fd =? U64_MAX); [by apply ends_ret|]. apply ends_call. intros found w2 _. apply ends_call. intros [n buf] w3 E.
    pose proof (read_file_fills fd (replicate (Z.to_nat MAX_FILE_PREVIEW_SIZE) 0) w2) as Hr. rewrite E in Hr. destruct Hr as [Hl Hn].
    destruct (Z.eqb_spec n U64_MAX); [by apply ends_ret|]. rewrite Hl, (proj2 (Z.leb_le _ _)) by auto.
    apply (ends_bind _ _ _ (fun _ s' => s' = (o, w3))); [by exists tt, (o, w3)|]. intros _ s' ->. apply ends_modify_last.
    exact (steady_view true FilePreview (preview buf n) o Ho).
  - intros _ [o' w'] Hs. cbn [fst] in Hs. apply ends_call. intros closed w4 _. by apply ends_ret.
Qed.

Lemma navigate_ends o w : BrowserOk o -> ends (navigate_to_selected to_lowercase) (o, w) (fun _ s' => steady o s'.1).
Proof.
  intros Ho. unfold navigate_to_selected. apply ends_get. cbn [fst]. destruct (Z.leb_spec (zlen (entries o)) (selected_idx o)); [by apply ends_ret|].
  destruct (lookup_lt_is_Some_2 (entries o) (Z.to_nat (selected_idx o))) as [e ->]; [pose proof (bo_selected _ Ho); lia|].
  destruct (bool_decide _); [by apply load_steady|]. destruct (is_dir e); [by apply load_steady|by apply open_file_ends].
Qed.

Lemma go_back_ends o w : BrowserOk o -> ends (go_back to_lowercase) (o, w) (fun _ s' => steady o s'.1).
Proof.
  intros Ho. unfold go_back. apply ends_get. cbn [fst]. apply ends_bind with (fun _ s' => steady o s'.1).
  - destruct (bool_decide _); [|by apply load_steady]. apply ends_modify_last. exact (steady_view false Directory (file_content o) o Ho).
  - intros _ [o' w'] Hs. apply ends_modify_last. cbn [fst snd] in *. apply steady_trans with o'; [done|]. exact (steady_view true (view_mode o') (file_content o') o' (proj1 Hs)).
Qed.

Lemma handle_key_ends key o w : BrowserOk o -> ends (handle_key to_lowercase key) (o, w) (fun _ s' => steady o s'.1).
Proof.
  intros Ho. pose proof (room_range o Ho) as Hm. unfold handle_key. apply ends_get. cbn [fst]. destruct (view_mode o).
  - destruct key; try (by apply ends_ret).
    + apply ends_modify_last. cbn [fst snd]. apply steady_selection; [done|lia|lia].
    + rewrite as_i32_nonneg by lia. eapply ends_lift; [apply i32_small; lia|]. apply move_selection_ends; [done|lia].
    + eapply ends_lift; [apply usub_small; lia|]. apply ends_modify_last. unfold saturating_sub. cbn [fst snd].
      apply steady_selection; [done|lia|lia].
    + rewrite as_i32_nonneg by lia. apply move_selection_ends; [done|lia].
    + apply move_selection_ends; [done|lia].
    + by apply go_back_ends.
    + apply move_selection_ends; [done|lia].
    + by apply navigate_ends.
  - destruct key; try (by apply ends_ret); apply ends_modify_last;
      first [exact (steady_view true Directory (file_content o) o Ho)|exact (steady_view true (view_mode o) (file_content o) o Ho)].
Qed.

Lemma handle_event_ends e o w : BrowserOk o -> event_ok e -> ends (handle_event to_lowercase e) (o, w) (fun _ s' => steady o s'.1).
Proof.
  intros Ho He. unfold handle_event. destruct (event_type e) eqn:Et; try (by apply ends_ret).
  - destruct (char_from_u32 (value e)) as [c|]; [|by apply ends_ret]. apply ends_bind with (fun _ s' => steady o s'.1).
    + destruct (c =? QUESTION_MARK); [|by apply ends_ret]. apply ends_modify_last. exact (steady_view true FilePreview HELP o Ho).
    + intros _ [o' w'] Hs. apply ends_modify_last. cbn [fst snd] in *. apply steady_trans with o'; [done|]. exact (steady_view true (view_mode o') (file_content o') o' (proj1 Hs)).
  - destruct (He Et) as [Hv Hx]. pose proof (Z.mod_pos_bound (value e) (2 ^ 8)). pose proof (Z.mod_pos_bound (extra e) (2 ^ 8)).
    unfold wrap in *. destruct (lookup_lt_is_Some_2 KeyCode.all (Z.to_nat (value e mod 2 ^ 8))) as [k ->]; [lia|].
    destruct (Z.eq_dec (extra e mod 2 ^ 8) 0) as [->|]; [by apply handle_key_ends|].
    replace (extra e mod 2 ^ 8) with 1 by lia. by apply ends_ret.
Qed.

Lemma events_end found : forall o w, BrowserOk o -> Forall event_ok found ->
  ends (for_in (handle_event to_lowercase) found) (o, w) (fun _ s' => steady o s'.1).
Proof.
  induction found as [|e found IH]; intros o w Ho Hf; [by apply ends_ret|]. inversion_clear Hf as [|? ? He Hf'].
  cbn [for_in]. apply ends_bind with (fun _ s' => steady o s'.1); [by apply handle_event_ends|]. intros _ [o' w'] Hs. cbn [fst] in Hs.
  eapply ends_mono; [apply IH; [apply Hs|done]|]. intros [] s' Hs'. by apply steady_trans with o'.
Qed.

(** ** Drawing *)

(** The height of the first line of a listing. *)
Definition LIST_TOP : Z := MARGIN_TOP + CHARACTER_HEIGHT + 4 + 8.

(** Only the pixels of the first buffer differ. *)
Definition repainted (o o' : Odys) : Prop := exists px,
  o' = with_target (mkSurface px (s_pixels_second (draw_target o)) (s_width (draw_target o)) (s_height (draw_target o))) o /\
  length px = length (s_pixels (draw_target o)).

Lemma repainted_refl o : repainted o o.
Proof. exists (s_pixels (draw_target o)). split; [|done]. by destruct o as [? ? [] ? ? ? ? ? ? ?]. Qed.

Lemma repainted_trans o1 o2 o3 : repainted o1 o2 -> repainted o2 o3 -> repainted o1 o3.
Proof. intros (p1 & -> & H1') (p2 & -> & H2'). exists p2. cbn in *. split; [done|congruence]. Qed.

Lemma repainted_ok o o' : repainted o o' -> BrowserOk o -> BrowserOk o'.
Proof.
  intros (px & -> & Hl) [[[Ha Hb] [Hc Hd] Hs] ? ? ? ?]. split; cbn; try done. split; [split|split|]; cbn in *; rewrite ?Hl; done.
Qed.

Lemma on_target_ends c o w : draws c -> ends (on_target c) (o, w) (fun _ s' => repainted o s'.1 /\ s'.2 = w).
Proof.
  intros Hc. destruct (Hc (draw_target o)) as (px & E & Hl). eexists tt, _. unfold on_target. cbn [fst snd]. rewrite E.
  split; [reflexivity|]. split; [|done]. by exists px.
Qed.

(** A drawing step and what follows it. *)
Lemma paint_then {B} c (k : unit -> OM B) o0 o w Q : draws c -> repainted o0 o ->
  (forall o', repainted o0 o' -> ends (k tt) (o', w) Q) -> ends (sbind (on_target c) k) (o, w) Q.
Proof.
  intros Hc Hr Hk. eapply ends_bind; [by apply on_target_ends|]. intros [] [o' w'] [Hr' Hw]. cbn [fst snd] in *. subst w'.
  apply Hk. by apply repainted_trans with o.
Qed.

Lemma clear_draws color s : SurfaceOk s -> exists px,
  surface_clear color s = (Ok tt, mkSurface px (s_pixels_second s) (s_width s) (s_height s)) /\ length px = length (s_pixels s).
Proof. intros Hs. eexists. split; [by apply surface_clear_ok|]. apply length_replicate. Qed.

Lemma line_ok o start_y i : BrowserOk o -> 0 <= start_y < 2 ^ 29 -> scroll_offset o <= i < zlen (entries o) ->
  exists text style, directory_line o start_y i = Ok (text, start_y + (i - scroll_offset o) * LINE_SPACING, style) /\
    (i = selected_idx o -> style = SELECTED_STYLE).
Proof.
  intros Ho Hy Hi. pose proof (bo_entries _ Ho) as He. destruct (bo_visible _ Ho) as [Hv _].
  unfold directory_line, MAX_ENTRIES, LINE_SPACING in *. destruct (lookup_lt_is_Some_2 (entries o) (Z.to_nat i)) as [e ->]; [lia|].
  rewrite usub_small by lia. cbn [rbind]. rewrite as_i32_nonneg, !i32_small by lia. cbn [rbind]. rewrite i32_small by lia. cbn [rbind].
  eexists _, _. split; [done|]. intros ->. by rewrite Z.eqb_refl.
Qed.

(** A text in the style of the selection, at the height [y], is in a picture: the picture has
    whatever drawing it establishes and drawing lines at other heights keeps. *)
Definition on_screen (text : str) (y : Z) (picture : UserSurface) : Prop := forall Q : UserSurface -> Prop,
  (forall s s', draw_text text MARGIN_LEFT y SELECTED_STYLE s = (Ok tt, s') -> Q s') ->
  (forall text' y' style s s', y' <> y -> Q s -> draw_text text' MARGIN_LEFT y' style s = (Ok tt, s') -> Q s') ->
  Q picture.

Definition line_y (o : Odys) (start_y i : Z) : Z := start_y + (i - scroll_offset o) * LINE_SPACING.

(** The lines are drawn, and once that of the selection has been it stays. *)
Lemma list_drawn o0 start_y w indices text : BrowserOk o0 -> 0 <= start_y < 2 ^ 29 ->
  directory_line o0 start_y (selected_idx o0) = Ok (text, line_y o0 start_y (selected_idx o0), SELECTED_STYLE) ->
  Forall (fun i => scroll_offset o0 <= i < zlen (entries o0)) indices -> forall o, repainted o0 o ->
  ends (for_in (fun i => let! (display, y_pos, style) := slift (directory_line o0 start_y i) in
    on_target (draw_text display MARGIN_LEFT y_pos style)) indices) (o, w) (fun _ s' => repainted o0 s'.1 /\
      (selected_idx o0 ∈ indices \/ on_screen text (line_y o0 start_y (selected_idx o0)) (draw_target o) ->
       on_screen text (line_y o0 start_y (selected_idx o0)) (draw_target s'.1))).
Proof.
  intros Ho Hy Hsel Hi. induction Hi as [|i indices Hi _ IH]; intros o Hr.
  { apply ends_ret. split; [done|]. intros [Hin|Hin]; [by apply elem_of_nil in Hin|done]. }
  cbn [for_in]. destruct (line_ok o0 start_y i Ho Hy Hi) as (text' & style & E & _). rewrite E. fold (line_y o0 start_y i) in *.
  destruct (text_draws text' MARGIN_LEFT (line_y o0 start_y i) style (draw_target o)) as (px & Ed & Hl).
  eapply (ends_bind _ _ _ (fun _ s' => repainted o0 s'.1 /\ s'.2 = w /\ (i = selected_idx o0 \/
      on_screen text (line_y o0 start_y (selected_idx o0)) (draw_target o) ->
      on_screen text (line_y o0 start_y (selected_idx o0)) (draw_target s'.1)))).
  { unfold slift, sbind at 1. eexists tt, _. unfold on_target. cbn [fst snd]. rewrite Ed. split; [reflexivity|]. cbn [fst snd].
    split; [apply repainted_trans with o; [done|by exists px]|]. split; [done|]. cbn [draw_target with_target].
    intros Hcase Q Hq Hkeep. destruct (decide (i = selected_idx o0)) as [->|Hne].
    - rewrite Hsel in E. injection E as <- <-. by apply (Hq _ _ Ed).
    - destruct Hcase as [?|Hon]; [done|]. apply (Hkeep _ _ _ _ _) with (3 := Ed); [unfold line_y, LINE_SPACING; lia|]. by apply (Hon Q). }
  intros [] [o' w'] (Hr' & Hw & Hon). cbn [fst snd] in *. subst w'. eapply ends_mono; [by apply IH|].
  intros [] s' [Hr2 Hon2]. split; [done|]. intros Hc. refine (Hon2 _). destruct Hc as [[Heq|Hin]%elem_of_cons|Hc]; [right; refine (Hon _); by left|by left|right; refine (Hon _); by right].
Qed.

Lemma preview_drawn o0 texts w : forall y o, 0 <= y -> y + Z.of_nat (length texts) * LINE_SPACING < 2 ^ 31 -> repainted o0 o ->
  ends (draw_lines texts y) (o, w) (fun _ s' => repainted o0 s'.1).
Proof.
  unfold LINE_SPACING. induction texts as [|t texts IH]; intros y o Hy Hn Hr; [by apply ends_ret|]. cbn [draw_lines length] in *.
  eapply paint_then; [apply text_draws|exact Hr|]. intros o' Hr'. eapply ends_lift; [unfold LINE_SPACING; apply i32_small; lia|].
  apply IH; [lia|lia|done].
Qed.

(** What a drawn browser shows of its selection: a line of the listing, inside the window. *)
Definition shows_selection (o : Odys) (picture : UserSurface) : Prop := exists entry text y,
  entries o !! Z.to_nat (selected_idx o) = Some entry /\
  directory_line o LIST_TOP (selected_idx o) = Ok (text, y, SELECTED_STYLE) /\
  LIST_TOP <= y <= s_height picture - 14 /\ on_screen text y picture.

Lemma line_repainted o o' start_y i : repainted o o' -> directory_line o' start_y i = directory_line o start_y i.
Proof. by intros (px & -> & _). Qed.

Lemma selected_line o : BrowserOk o -> entries o <> [] -> exists entry text,
  entries o !! Z.to_nat (selected_idx o) = Some entry /\
  directory_line o LIST_TOP (selected_idx o) = Ok (text, line_y o LIST_TOP (selected_idx o), SELECTED_STYLE) /\
  LIST_TOP <= line_y o LIST_TOP (selected_idx o) <= s_height (draw_target o) - 14.
Proof.
  intros Ho Hne. pose proof (room_range o Ho) as Hm. pose proof (bo_selected _ Ho) as Hsel. pose proof (bo_visible _ Ho) as [Hv1 Hv2].
  assert (Hlen : 0 < zlen (entries o)) by (destruct (entries o); [done|cbn; lia]).
  destruct (lookup_lt_is_Some_2 (entries o) (Z.to_nat (selected_idx o))) as [e Ee]; [lia|].
  destruct (line_ok o LIST_TOP (selected_idx o) Ho) as (text & style & Eline & Hst); [by vm_compute|lia|]. rewrite (Hst eq_refl) in Eline.
  exists e, text. split; [done|]. split; [exact Eline|]. unfold line_y.
  pose proof (bo_room _ Ho) as Hroom. destruct (bo_target _ Ho) as [_ _ [_ Hh]]. unfold LIST_TOP, MARGIN_TOP, CHARACTER_HEIGHT, LINE_SPACING in *.
  Z.div_mod_to_equations. lia.
Qed.

Lemma directory_drawn o0 o w : BrowserOk o0 -> repainted o0 o -> entries o <> [] ->
  ends (draw_directory_list LIST_TOP) (o, w) (fun _ s' => repainted o0 s'.1 /\ shows_selection o0 (draw_target s'.1)).
Proof.
  intros Ho0 Hr He. pose proof (repainted_ok _ _ Hr Ho0) as Ho.
  assert (Esame : entries o = entries o0 /\ selected_idx o = selected_idx o0 /\ s_height (draw_target o) = s_height (draw_target o0))
    by (by destruct Hr as (px & -> & _)). destruct Esame as (Ee & Es & Eh).
  destruct (selected_line o Ho He) as (entry & text & Hentry & Hline & Hy). unfold draw_directory_list. apply ends_get. cbn [fst].
  rewrite bool_decide_false by done. pose proof (room_range _ Ho) as Hm. pose proof (bo_entries _ Ho) as Hent.
  pose proof (bo_selected _ Ho) as Hsel. pose proof (bo_visible _ Ho) as [Hv1 Hv2]. unfold MAX_ENTRIES in Hent.
  assert (Hlen : 0 < zlen (entries o)) by (destruct (entries o); [done|cbn; lia]).
  eapply ends_lift; [unfold visible_end; rewrite uadd_small by lia; done|].
  eapply ends_mono; [apply (list_drawn o LIST_TOP w _ text); [done|by vm_compute|done| |apply repainted_refl]|].
  - apply List.Forall_forall. intros i Hi%list_elem_of_In%elem_of_seqZ. lia.
  - intros [] s' [Hr' Hon]. split; [by apply repainted_trans with o|].
    exists entry, text, (line_y o LIST_TOP (selected_idx o)). rewrite <- Ee, <- Es, <- (line_repainted o0 o) by done.
    split; [done|]. split; [done|]. destruct Hr' as (px & Es' & Hl). rewrite Es'. split; [cbn; lia|]. rewrite <- Es'. refine (Hon _). left. apply elem_of_seqZ. lia.
Qed.

Lemma render_ends o w : BrowserOk o -> ends render (o, w) (fun _ s' => repainted o s'.1 /\
  (view_mode o = Directory -> entries o <> [] -> shows_selection o (draw_target s'.1))).
Proof.
  intros Ho. unfold render, redraw_all, clear_screen. destruct (bo_target _ Ho) as [Hs _ [Hw Hh]].
  destruct (clear_draws BLACK (draw_target o) Hs) as (px & E & Hl).
  set (o1 := with_target (mkSurface px (s_pixels_second (draw_target o)) (s_width (draw_target o)) (s_height (draw_target o))) o).
  assert (Hr1 : repainted o o1) by (by exists px).
  apply (ends_bind _ _ _ (fun _ s' => s' = (o1, w))). { exists tt, (o1, w). split; [|done]. unfold on_target. cbn [fst snd]. by rewrite E. }
  intros [] s' ->. apply ends_get. cbn [fst]. eapply paint_then; [apply text_draws|exact Hr1|]. intros o2 Hr2.
  eapply ends_lift; [cbn [o1 draw_target s_width with_target]; rewrite (proj2 (Z.leb_le _ _)) by (unfold MARGIN_LEFT; lia); done|].
  eapply paint_then; [apply rule_draws|exact Hr2|]. intros o3 Hr3. assert (Ho3 : BrowserOk o3) by (by apply repainted_ok with o).
  assert (Ee : entries o3 = entries o) by (by destruct Hr3 as (? & -> & _)).
  change (view_mode o1) with (view_mode o). change (MARGIN_TOP + CHARACTER_HEIGHT + 4 + 8) with LIST_TOP. destruct (view_mode o).
  - destruct (decide (entries o3 = [])) as [Hnil|Hne].
    + unfold draw_directory_list. apply ends_get. cbn [fst]. rewrite bool_decide_true by done.
      eapply ends_mono; [apply on_target_ends, text_draws|]. intros [] s' [Hr4 _]. split; [by apply repainted_trans with o3|]. congruence.
    + eapply ends_mono; [by apply (directory_drawn o)|]. intros [] s' [Hr4 Hsh]. by split.
  - unfold draw_file_preview. apply ends_get. cbn [fst]. eapply ends_mono; [apply (preview_drawn o3)|]; [by vm_compute| |apply repainted_refl|].
    + pose proof (firstn_le_length 35 (lines (file_content o3))). unfold LIST_TOP, MARGIN_TOP, CHARACTER_HEIGHT, LINE_SPACING. lia.
    + intros [] s' Hr4. split; [by apply repainted_trans with o3|done].
Qed.

(** ** Frames *)

Lemma swap_ok s : WindowOk s -> WindowOk (swap s).
Proof. intros [Ha Hb Hs]. split; [done|by destruct s|done]. Qed.

(** A state after a turn: [swap] has made the buffer that was drawn the second one. *)
Definition drawn (o : Odys) : Prop :=
  view_mode o = Directory -> entries o <> [] -> shows_selection o (swap (draw_target o)).

(** A turn of the main loop draws whenever the turn before asked for it, and asks for it again. *)
Lemma frame_ends found o w : BrowserOk o -> needs_redraw o = true -> Forall event_ok found ->
  ends (frame to_lowercase found) (o, w) (fun _ s' => BrowserOk s'.1 /\ needs_redraw s'.1 = true /\ drawn s'.1).
Proof.
  intros Ho Hr Hf. unfold frame. eapply ends_bind; [by apply events_end|]. intros [] [o1 w1] (Ho1 & Hr1 & _). cbn [fst] in *. specialize (Hr1 Hr).
  apply ends_get. cbn [fst]. rewrite Hr1.
  apply (ends_bind _ _ _ (fun _ s' => BrowserOk s'.1 /\ (view_mode s'.1 = Directory -> entries s'.1 <> [] -> shows_selection s'.1 (draw_target s'.1)))).
  { eapply ends_bind; [by apply render_ends|]. intros [] [o2 w2] [Hp Hsh]. cbn [fst] in Hp, Hsh. apply ends_modify_last. cbn [fst].
    destruct (repainted_ok _ _ Hp Ho1) as [? ? ? ? ?]. split; [by split|]. by destruct Hp as (px & -> & _). }
  intros [] [o3 w3] [Ho3 Hsh]. cbn [fst] in Ho3, Hsh. apply ends_call. intros [] w4 _. apply ends_modify_last. cbn [fst]. split; [|split; [done|]].
  - destruct Ho3 as [Ht ? ? ? ?]. split; try done. by apply swap_ok.
  - intros Hv He. destruct (Hsh Hv He) as (entry & text & y & Hsh'). exists entry, text, y.
    cbn [draw_target with_target with_redraw]. replace (swap (swap (draw_target o3))) with (draw_target o3) by (by destruct (draw_target o3)). done.
Qed.

Lemma frames_end turns : forall o w, BrowserOk o -> needs_redraw o = true -> Forall (Forall event_ok) turns ->
  ends (for_in (frame to_lowercase) turns) (o, w) (fun _ s' => BrowserOk s'.1 /\ needs_redraw s'.1 = true /\ (turns <> [] -> drawn s'.1)).
Proof.
  induction turns as [|found turns IH]; intros o w Ho Hr Hf; [by apply ends_ret|]. inversion_clear Hf as [|? ? Hf1 Hf2]. cbn [for_in].
  eapply ends_bind; [by apply frame_ends|]. intros [] [o1 w1] (Ho1 & Hr1 & Hd1).
  destruct turns as [|found' turns]; [by apply ends_ret|]. eapply ends_mono; [by apply IH|]. intros [] s' (? & ? & Hd). split; [done|]. split; [done|]. intros _. by apply Hd.
Qed.

Lemma new_ends surface id w : WindowOk surface ->
  exists s', odys_new to_lowercase surface id w = (Ok tt, s') /\ BrowserOk s'.1 /\ needs_redraw s'.1 = true.
Proof.
  intros Hs. unfold odys_new. rewrite usub_small by (destruct Hs as [_ _ [_ Hh]]; lia).
  set (o := mkOdys _ _ _ _ _ _ _ _ _ _). destruct (load_directory_ends [SLASH] o w) as ([] & s' & E & Ha); [done|done|].
  exists s'. split; [exact E|]. destruct Ha as (Ho & Hr & _). done.
Qed.

Definition run_browser (surface : UserSurface) (id : Z) (turns : list (list InputEvent)) (w : W) : result Fault unit * St :=
  let '(r, s) := odys_new to_lowercase surface id w in
  match r with Ok _ => for_in (frame to_lowercase) turns s | _ => (r, s) end.

End safety.

(** C29: with a window of at least 8 by 55 pixels the browser never fails, whatever directories
    it is given and whatever keys and characters arrive in the turns of its loop.  After any
    number of turns the selected entry is one of the listing, unless that is empty; and while
    the listing is shown (not a file or the help in its place), the picture the last turn drew
    and presented has the line of the selected entry in it, in the style of the selection and
    inside the window.  The next turn draws again. *)
Theorem selection_always_shown {W} `{FileCallsOk W} `{TextDrawOk} to_lowercase surface id turns (w : W) :
  WindowOk surface -> Forall (Forall event_ok) turns ->
  exists o w', run_browser to_lowercase surface id turns w = (Ok tt, (o, w')) /\ needs_redraw o = true /\
    (entries o = [] \/ is_Some (entries o !! Z.to_nat (selected_idx o))) /\
    (turns <> [] -> view_mode o = Directory -> entries o <> [] -> shows_selection o (swap (draw_target o))).
Proof.
  intros Hs Hf. destruct (new_ends to_lowercase surface id w Hs) as ([o0 w0] & E0 & Ho0 & Hr0).
  destruct (frames_end to_lowercase turns o0 w0 Ho0 Hr0 Hf) as ([] & [o w'] & E & Ho & Hr & Hd). cbn [fst] in *.
  exists o, w'. unfold run_browser. rewrite E0. split; [exact E|]. split; [exact Hr|]. split; [|exact Hd].
  destruct (decide (entries o = [])) as [|Hne]; [by left|right].
  destruct (selected_line to_lowercase o Ho Hne) as (entry & text & Hentry & _). by exists entry.
Qed.

(** Entering a directory and leaving it again comes back to where one was. *)
Lemma back_undoes_enter {W} `{FileCallsOk W} `{TextDrawOk} to_lowercase o (w : W) entry :
  BrowserOk o -> view_mode o = Directory -> current_path o <> [] ->
  entries o !! Z.to_nat (selected_idx o) = Some entry -> is_dir entry = true -> component (name entry) -> name entry <> [DOT; DOT] ->
  exists o' w', (handle_key to_lowercase KeyCode.ArrowRight ;;; handle_key to_lowercase KeyCode.ArrowLeft) (o, w) = (Ok tt, (o', w')) /\
    current_path o' = current_path o /\ view_mode o' = Directory /\ (shows to_lowercase (current_path o) (entries o') \/ entries o' = []).
Proof.
  intros Ho Hv Hp Ee Hd Hc Hn.
  assert (Eright : handle_key to_lowercase KeyCode.ArrowRight (o, w) = load_directory to_lowercase (child_path (current_path o) (name entry)) (o, w)).
  { unfold handle_key, sbind at 1, get. cbn [fst]. rewrite Hv. unfold navigate_to_selected, sbind at 1, get. cbn [fst].
    rewrite (proj2 (Z.leb_gt _ _)) by (pose proof (bo_selected _ Ho); apply lookup_lt_Some in Ee; lia).
    by rewrite Ee, bool_decide_false, Hd by done. }
  destruct (load_directory_ends to_lowercase (child_path (current_path o) (name entry)) o w (bo_target _ Ho) (bo_room _ Ho))
    as ([] & [o1 w1] & E1 & Ho1 & _ & Hv1 & Hp1 & Ht1 & _). cbn [fst] in *.
  destruct (load_directory_ends to_lowercase (current_path o) o1 w1 (bo_target _ Ho1) (bo_room _ Ho1))
    as ([] & [o2 w2] & E2 & Ho2 & _ & Hv2 & Hp2 & _ & Hs2). cbn [fst] in *.
  exists (with_redraw true o2), w2. split; [|done]. rewrite (sbind_ok _ _ _ _ _ (eq_trans Eright E1)).
  unfold handle_key, sbind at 1, get. cbn [fst]. rewrite Hv1. unfold go_back, sbind at 1, get. cbn [fst]. rewrite Hv1, Hp1.
  rewrite parent_of_child by done. cbn [bool_decide decide_rel ViewMode_eq_dec]. rewrite bool_decide_false by done.
  by rewrite (sbind_ok _ _ _ _ _ E2).
Qed.

(** ** A small tree *)

Definition demo_entry (n : string) (dir size : Z) : DirEntryFlat :=
  mkFlatEntry (lit n ++ replicate (16 - length (lit n)) 0) (zlen (lit n)) dir size.

Definition demo_tree (path : str) : list DirEntryFlat :=
  if bool_decide (path = [SLASH]) then [demo_entry "notes.txt" 0 5; demo_entry "." 1 0; demo_entry "apps" 1 0; demo_entry "src" 1 0] else [].

#[local] Instance demo_calls : FileCalls unit := {
  c_list_dir := fun path buf w => (Z.of_nat (length (demo_tree path) `min` length buf),
    take (length buf) (demo_tree path) ++ drop (length (demo_tree path)) buf, w);
  c_open_file := fun _ _ w => (3, w);
  c_stat_file := fun _ w => (true, w);
  c_read_file := fun _ buf w => (Z.min 5 (zlen buf), buf, w);
  c_close_file := fun _ w => (true, w);
  c_present := fun _ w => w;
}.

#[local] Instance demo_calls_ok : FileCallsOk unit.
Proof.
  split.
  - intros path buf w. cbn. split_and!; [rewrite length_app, length_take, length_drop; lia|lia|].
    intros Hb. apply Forall_app. split; [|by apply Forall_drop]. apply Forall_take. unfold demo_tree.
    destruct (bool_decide _); repeat constructor; by vm_compute.
  - intros fd buf w. cbn. split; [done|]. lia.
Qed.

(** A text leaves its style in the first pixel of its row. *)
Definition style_mark (style : Style) : Z :=
  match style with CHARACTER_STYLE => 1 | SELECTED_STYLE => 2 | DIRECTORY_STYLE => 3 | FILE_PREVIEW_STYLE => 4 end.

#[local] Instance demo_text : TextDraw := {
  draw_text := fun _ _ y style s => (Ok tt, mkSurface (if 0 <=? y then <[Z.to_nat (y * s_width s) := style_mark style]> (s_pixels s) else s_pixels s)
    (s_pixels_second s) (s_width s) (s_height s));
  draw_rule := fun _ _ _ => sret tt;
}.

#[local] Instance demo_text_ok : TextDrawOk.
Proof.
  split; intros; intros [px p2 sw sh]; [|by exists px]. eexists. split; [reflexivity|]. cbn. destruct (0 <=? y); [apply length_insert|done].
Qed.

Definition demo_window : UserSurface := surface_new (replicate 480 0) (replicate 480 0) 8 60.
Definition press (k : Z) : InputEvent := new_key k Pressed 0.
Definition demo_turns : list (list InputEvent) :=
  [[press (key_index KeyCode.ArrowDown); press (key_index KeyCode.ArrowDown)]; [press (key_index KeyCode.ArrowRight)];
   [press (key_index KeyCode.ArrowLeft); press (key_index KeyCode.ArrowLeft); press (key_index KeyCode.End)]].

(** The marks of the drawn listing: the one line that fits is the selected one. *)
Example demo_picture :
  let '(_, (o, _)) := run_browser id demo_window 1 demo_turns tt in
  s_pixels (swap (draw_target o)) !! Z.to_nat (LIST_TOP * 8) = Some (style_mark SELECTED_STYLE).
Proof. vm_compute. reflexivity. Qed.

Lemma selection_always_shown_witness :
  exists o w', run_browser id demo_window 1 demo_turns tt = (Ok tt, (o, w')) /\ needs_redraw o = true /\
    map name (entries o) = map lit ["apps"; "src"; "notes.txt"]%string /\ selected_idx o = 2 /\ scroll_offset o = 2 /\
    shows_selection o (swap (draw_target o)).
Proof.
  destruct (selection_always_shown id demo_window 1 demo_turns tt) as (o & w' & E & Hr & _ & Hd).
  - split; [split|split|]; vm_compute; [reflexivity|reflexivity|reflexivity|reflexivity|split; discriminate].
  - unfold demo_turns. repeat constructor; vm_compute; reflexivity.
  - exists o, w'. split; [exact E|]. split; [exact Hr|].
    assert (Hv : map name (entries o) = map lit ["apps"; "src"; "notes.txt"]%string /\ selected_idx o = 2 /\ scroll_offset o = 2 /\
      view_mode o = Directory) by (vm_compute in E; injection E as <- <-; vm_compute; repeat split; reflexivity).
    destruct Hv as (H1 & H2 & H3 & H4). split; [exact H1|]. split; [exact H2|]. split; [exact H3|].
    apply Hd; [discriminate|exact H4|]. intros Hn. rewrite Hn in H1. discriminate H1.
Defined.
